(* ===== verification/_CoqProject ===== *)
-Q . S2P
Prelude.v
Malloc.v
Strings.v
Memory.v
Printf.v
Codec.v
DhcpOpts.v
Digest.v
Hashes.v
Hmac.v
Buffers.v
Retry.v
Tcpip.v
Tcp.v
TcpState.v
TcpRx.v
TcpTx.v
Uri.v
Vtoy.v
Cipher.v
Aes.v
AesFips.v
Deflate.v
DeflateSpec.v
DeflateRfc.v
DeflateHuffman.v
DeflateBits.v
DeflateOutput.v
DeflateCorrect.v
DeflateStream.v
DeflateBytes.v
Extract.v
Png.v
PngFilter.v
PngSafe.v
PngReader.v
Dns.v
DnsNames.v
DnsResolver.v
Gcm.v
GcmSpec.v
GcmField.v
GcmStream.v
GcmCorrect.v
Tftp.v
TftpParts.v
TftpSafe.v
TftpFile.v
Asn1.v
Asn1Correct.v
Asn1Build.v
Asn1Values.v
Iobuf.v
Fragment.v
Ipv4.v
Ipv4Udp.v
Ipv4Rx.v
UdpIp.v
IpTables.v
