(* ===== verification/Prelude.v ===== *)
(** * A verification library for iPXE with the Ventoy layer

    The program is the network boot firmware iPXE (under
    [src/iPXE/ipxe-bd13697/src]) with the functions Ventoy adds to it
    ([core/vtoy.c]).  It is a freestanding C program: it brings its own
    allocator, string and formatting functions, speaks DHCP, TFTP, HTTP and
    others over its own TCP/IP stack, checks what it loads with its own
    digests and ciphers, and starts the result.  This library models the parts
    every other part stands on, the TCP state machine, the cryptographic
    primitives, decompression, and the parsers that meet data from the network.

    ** How the C code is represented

    - Integers are [Z]; wherever C arithmetic can wrap, the wrap is written
      out with [uwrap w] (unsigned, [w] bits) or [swrap w] (signed).  [size_t]
      and pointers have [size_bits a] bits for a target [a : arch], 32 or 64.
      Where the signedness of [char] matters (Uri.v) it is a parameter.
    - Bytes are integers below 256; an object in memory is the list of its
      bytes and a pointer is an offset into it, so a function that reads or
      writes at an offset outside the object is [None] (Memory.v; the string
      functions recurse on the list from the pointer on).  A theorem with
      result [Some _] therefore also says that the accesses are in bounds.
      Only the heap (Malloc.v) uses absolute addresses.
    - A status code [-EFOO] is [Err EFOO] of the type [res]; [NULL] results
      are options.  The notations [opt!] and [try!] bind the two.
    - Loops are fixpoints over the data where the code walks over data, and
      over fuel otherwise.  The fuel is computed from the arguments inside
      the definition of the function, and its specification (a theorem or a
      lemma of the same file) shows that it suffices; for the search through
      DHCP options, for arbitrary block contents (C29),
      for the options of a TCP header, for arbitrary bytes
      (C8); the loop over the powers of the generator
      that fills the AES S-box ends after exactly its 255 iterations (lemma
      [aes_generate_tables]); the jumps of the decompressor by a measure on the
      bits that are left (lemma [run_ok]); the loop of [zlib_deflate] ends in
      its second round (C15); the loop over the chunks of a
      PNG file for every file (C16); the loops over the pointers
      of a DNS name and over the answers of a response for every packet
      (C22, C21); the loop over the
      options of a TFTP acknowledgement for every packet
      (C19).  Two functions take
      their fuel as an argument, because their loops depend on callbacks:
      [alloc_memblock] on the registered cache discarders, where the number of
      blocks in the caches is enough (C27, and the lemma
      [discard_all_cache_steps] for [discard_all_cache]), and [tcp_shutdown] on
      the applications and the clock, where some fuel is enough and more does
      not change the result (C9).
    - State machines (heap, retry timers, TCP, DNS lookups, TFTP downloads) are
      step relations whose reachable states are those of the closure of the
      relation ([rtc], or an inductive [run] with a condition on the events);
      applications, networks and the rest of the system are parameters of the
      relation, so a theorem about reachable states holds for all of them.
    - Debug output, assertions and valgrind annotations are left out, except
      that [check_blocks] is modelled and shown to hold, and that the
      assertions of TCP are examined by C3 and
      [tcp_assertions_violated].

    ** Files

    - Prelude.v: this text; integers, results, bytes, tactics, lemmas on bits.
    - Malloc.v ([core/malloc.c]): the free list as a list of [memory_block]
      with the counters as a record [heap]; allocation with alignment and
      offset, coalescing free, [realloc] and its callers over a byte memory,
      cache discarding; a discarder is a function on the state of its cache and
      the heap, held to [discarder_ok].  [heap_step] is the allocator as a
      transition system over the live blocks.
    - Strings.v ([core/string.c], [core/ctype.c]): memory and string functions
      and number parsing.  [cstr s junk] is a terminated string in an object.
    - Memory.v: bounded reads, writes and moves at an offset of an object.
    - Printf.v ([core/vsprintf.c]): the format interpreter and bounded output.
    - Codec.v ([core/base16.c], [core/base64.c], [core/utf8.c]).
    - DhcpOpts.v ([net/dhcpopts.c], [net/dhcppkt.c]): option blocks and
      packets.  [block_ok o items] relates a block to the abstract list of
      options it encodes.
    - Digest.v, Hashes.v ([crypto/md4.c], [md5.c], [sha1.c], [sha224.c],
      [sha256.c], [sha384.c], [sha512.c], [sha512_224.c], [sha512_256.c]): the
      streaming part that all digests share, over the class [Engine]; and one
      module per compression function with its constants and test vectors.
    - Hmac.v ([crypto/hmac.c], [crypto/sha1extra.c]): HMAC, the 802.11 PRF and
      PBKDF2 over the interface [DigestSpec], which Digest.v's theorem
      discharges for every hash of Hashes.v.
    - Buffers.v ([core/linebuf.c], [core/bitmap.c], [core/xferbuf.c]).
    - Tcpip.v ([net/tcpip.c]): checksum and port allocation.
    - Tcp.v ([net/tcp.c], [include/ipxe/tcp.h]): the connection as a record
      with the fields of the C structure, one definition per function, and
      [tcp_step], which runs the handlers in any order: segments of a
      [network], the process and timers (only while they are pending), and
      calls of an arbitrary application.  [any_network] allows every segment,
      [causal_network] every segment that does not arrive before our first SYN
      was sent, and [honest] (TcpRx.v) the segments cut from one stream of a
      peer, with sequence numbers within 2^30 of what is expected.
      TcpState.v proves the invariant of the states and timers, TcpRx.v the
      receiving and TcpTx.v the sending side, opening and shutdown.  In
      [tcp_shutdown] the rest of the system is a state of any type with a clock,
      a step and the reactions of the applications to the closing of a
      connection, each of which may change the list of connections.
    - Retry.v ([net/retry.c]): retry timers; timers are numbered, the list of
      running timers and the timers themselves are the state, and the expiry
      callback is a parameter that may start and stop any timers.
    - Uri.v ([core/uri.c], [core/basename.c]): parsing, formatting, percent
      encoding, resolution of relative paths and URIs.
    - Vtoy.v ([core/vtoy.c]): the Ventoy functions that compute something;
      [system] and [toy_store_setting] appear as the values they are given.
    - Cipher.v ([crypto/cbc.c], [crypto/ecb.c]): modes of operation over any
      raw cipher with the interface [BlockCipher].
    - Aes.v ([crypto/aes.c]): AES with its generated tables.  AesFips.v: the
      cipher as FIPS 197 defines it, and AES as an instance of [BlockCipher].
    - Gcm.v ([crypto/gcm.c]): authenticated encryption over any raw cipher of 16
      byte blocks; the tables are a record that every operation takes and gives
      back, with the address of the key they are for.  GcmSpec.v: SP 800-38D on
      byte strings.  GcmField.v: the multiplication.  GcmStream.v: strings block
      by block.  GcmCorrect.v: contexts as sessions, for any number of contexts.
    - Deflate.v ([crypto/deflate.c], [include/ipxe/deflate.h]): the
      decompressor.  Its labels, where it can stop and resume, are the
      constructors of [label]; [deflate_step] is the code from a label to the
      next jump, [run] follows the jumps and [deflate_inflate] is a call.
      DeflateSpec.v: what a stream means to the source, on lists of bits, for
      every stream (it accepts more than the RFCs and one thing less).
      DeflateRfc.v: the streams RFC 1951 and RFC 1950 allow and their output,
      checksum included, and that DeflateSpec.v agrees with them where no block
      announces several distance codes and uses at most one.  DeflateHuffman.v (alphabets as canonical codes), DeflateBits.v
      (accumulation and decoding), DeflateOutput.v (output and code lengths)
      and DeflateCorrect.v (a meaning for every label, preserved by every
      jump, and a measure that decreases) connect the two; DeflateStream.v
      states the result for a client that feeds chunks, also one that replaces
      the output buffer between calls; DeflateBytes.v: the output consists of
      bytes.
    - Extract.v ([image/zlib.c], [image/gzip.c]): compressed images.
    - Png.v ([image/png.c], [core/pixbuf.c]): the PNG reader with the context as
      a record, one definition per chunk handler, and the memory of the
      platform as parameters.  PngFilter.v: the filters of RFC 2083 and their
      inverses.  PngSafe.v: sizes, interlacing and bounds.  PngReader.v: the
      invariant of the context between chunks, over the usability of the
      decompressor that DeflateStream.v states; [small_pictures] is the bound on
      the sizes that the IHDR chunks of a file announce.
    - Dns.v ([net/udp/dns.c]): names and a lookup as a record with the fields of
      the C structure.  The value of [EINVAL] is a parameter, because the code
      can use it as an offset; the theorems need only that it lies in the range
      of iPXE's error numbers.  DnsNames.v: [name_at], a name as the source
      reads it, [rfc1035_name], a name as RFC 1035 defines it, and the functions
      on names.  DnsResolver.v: a lookup as a transition system
      over its timer, responses and cancellation.
    - Tftp.v ([net/udp/tftp.c]): a download as a record with the fields of the C
      structure and logs of the datagrams sent and of the data handed on; what
      the rest of the system answers is the record [tftp_env].  TftpParts.v: the
      bytes of a request, and what a transfer buffer makes of the data.
      TftpSafe.v: packets with arbitrary contents.  TftpFile.v: [run], a unicast
      download from a server that serves one file, not empty and in at most 65535
      blocks ([serves]), and is the first to be heard, over a network that does
      what it likes with the packets.
    - Asn1.v ([crypto/asn1.c], [core/time.c]): cursors as ranges of an object,
      values, dates and builders; the table of algorithms is a parameter.
      Asn1Correct.v: arbitrary bytes.  Asn1Build.v: DER objects and builders.
      Asn1Values.v: integers and the calendar.
    - Iobuf.v ([include/ipxe/iobuf.h], [core/iobuf.c]): I/O buffers as memory
      with two pointers.  Fragment.v ([net/fragment.c]): reassembly; the class
      [FragmentFormat] is what the callbacks of a network layer promise, with
      IPv4 and IPv6 as instances.  Ipv4.v ([net/ipv4.c], [net/icmp.c],
      [net/icmpv4.c], [net/udp.c], [net/tcpip.c]): routes, transmission and
      reception over one state with logs of what leaves it; the link layer is
      the record [net_env].  Ipv4Udp.v: checksums in parts, and the bytes that
      are sent and received.  Ipv4Rx.v: arbitrary frames.  UdpIp.v: datagrams
      from end to end.  IpTables.v: echo replies, routes, ports and addresses.

    Calls between the components are calls between the definitions: [hex_encode]
    and [uri_encode] go through [ssnprintf], DHCP option resizing through
    [memmove], HMAC through the digest interface, TCP through the TCP/IP
    checksum and port allocation, the Ventoy functions through MD5,
    [snprintf], [strtoul], [strcat] and [strstr]; compressed images and PNG
    through the decompressor; TFTP through bitmaps, formatting and URIs, with a
    transfer buffer as the recipient; UDP and ICMP through IPv4, reassembly, I/O
    buffers and the TCP/IP checksum.

    ** What the theorems show

    - C1-C9, TCP: the receiver delivers
      a prefix of the peer's stream and acknowledges exactly that; the sender
      sends exactly the application's stream; over a causal network the state
      mask is always a named state and deleted connections are never called
      back; no connection is stuck; the SACK blocks of an acknowledgement are
      really held; segments are read as they were written; the parser is memory
      safe; shutdown ends if the clock runs and the applications do not open
      connections for those that are closed.  [tcp_assertions_violated],
      [tcp_sack_in_delivery] and [tcp_sack_exceeds_limits] show where
      assumptions of the source fail.
    - C10-C12, UDP over IPv4: datagrams arrive
      as they were sent, whole or in fragments; arbitrary frames are handled
      within their buffers; reassembly puts together only what has one sender and
      identification and is complete, and does so for every datagram that arrives
      in order while no buffer expires, memory is not short and no other packet
      has its key, for every network layer with the interface of its callbacks.
      Echo requests are answered ([icmp_echo_answered]), the routing table gives
      the route that is wanted ([ipv4_route_correct]), ports are distinct
      ([udp_ports_distinct]) and addresses round trip ([inet_roundtrip]);
      [ipv4_key_incomplete], [udp_tx_length_wraps] and [ipv4_route_detour] are
      what the code does not check or do.
    - C13-C15, decompression: however
      a stream is cut into chunks and however small the output buffer is, the
      decompressor gives the output of the RFCs for the streams they allow (the
      case of [deflate_refuses_single_distance] excepted) and treats all others
      as DeflateSpec.v says; it is memory safe on arbitrary
      input; compressed images are extracted, with at most one resize
      ([gzip_extract_correct] for gzip files).
      [gzip_reads_past_file] and [deflate_refuses_single_distance] are the
      cases where the code does not do what it means to.
    - C16, PNG: the reader is memory
      safe and returns on arbitrary files as long as no IHDR chunk announces
      2^23 pixels or more, a bound that [png_scanline_overflow] shows to be needed;
      unfiltering inverts the filters of the format ([png_unfilter_roundtrip]).
    - C17-C19, TFTP: a unicast download
      that ends without error has handed on exactly the file, one that has not
      ended can be completed, and arbitrary packets are handled within their
      bounds while the block size and the bitmap are sane, which the packets
      themselves can change ([tftp_blksize_unchecked]).
      C40 and [tftp_rollover_duplicate] show what the
      restriction to files that are not empty and have at most 65535 blocks
      excludes.
    - C20-C22, DNS: a lookup sends only
      well-formed queries and is never forgotten; every response is handled
      within its bounds and an address is believed only where the response links
      it to the name that was asked for; every name of RFC 1035 is decoded,
      pointers included, and names round trip ([dns_name_roundtrip]);
      [dns_reserved_prefix] is a name that is accepted besides.
      C39 is the case where the code does not do what its
      comment says.
    - C23-C25, ASN.1: cursors are confined to the
      range they were given whatever the bytes are, what is built is read back,
      and dates have their values; [asn1_integer_correct], [mktime_correct] and
      [asn1_corner_cases] give the rest of the values.
    - C26-C27, the heap: in every reachable
      state live blocks are disjoint from each other and from the free list,
      the list satisfies [check_blocks], [usedmem] and its maximum are exact and
      [freemem] is the rest of the heap (of which the free list lacks the
      fragments that are leaked); [alloc_memblock] refines the transition system
      and terminates, releasing only blocks of the caches; [realloc]
      moves contents and touches nothing else ([realloc_correct]).
    - C28-C29, DHCP: storing an
      option that is not encapsulated refines an update of a list of options and
      fails with the block unchanged when there is no room (with encapsulation it
      can fail half way, [dhcpopt_store_encap_partial]); the search is total and in bounds on malformed data
      (given three bytes of slack, which [find_encap_overrun] shows to be
      needed: it exhibits the overrun of encapsulated options).
    - C30-C35, cryptography: streaming
      equals the block-wise definition for every digest engine; HMAC
      equals its RFC; AES equals FIPS 197 and decryption undoes encryption; GCM
      contexts, which share their tables, do what SP 800-38D says, the table-driven
      multiplication included ([gcm_multiply_correct]).
    - C36 and [retry_reachable]: [vsnprintf] within its buffer,
      and timers.
    - C37-C40, with [find_encap_overrun],
      [gzip_reads_past_file], [png_scanline_overflow],
      [format_decimal_zpad_overwrites] and [uri_encode_sign_extends]: what the
      code does where it leaves its buffers or formats wrongly.
    - Further theorems without a number: CBC round trips, the pixels of
      interlaced pictures, [memmove] under any overlap, the
      TCP/IP checksum, bitmaps as sets, percent encoding, scanning of received
      DHCP blocks, returned blocks are aligned and free
      undoes alloc, DHCP fetch after store, PBKDF2, [strcmp], [strstr], decimal
      printing and parsing as inverses, base16, base64, UTF-8, DHCP packet
      fields, line buffers, transfer buffers, I/O buffers, port allocation,
      opening of connections, timeout arithmetic, path resolution and the
      remaining Ventoy functions.

    ** What is not modelled

    IPv6 (its reassembly callbacks apart), ARP and the link layer, the settings
    tree, the DHCP client, the other protocol clients, X.509 and TLS above ASN.1,
    big integers, the object interfaces, the other image formats and SAN booting,
    the user interface, drivers, firmware interfaces, the GRUB file-system
    sources Ventoy links in, and the tests.  Next in line are the neighbour
    cache, big integers, the settings behind [toy_store_setting] and
    certificates. *)
From Stdlib Require Export ZArith Lia Bool.
From stdpp Require Export base list numbers relations.

#[global] Open Scope Z_scope.

(** ** Machine integers

    A value of an unsigned C type of [w] bits is a [Z] in [[0, 2^w)]; every
    place where the C arithmetic can wrap is written out with [uwrap].  A
    signed view of the same bits is [swrap]. *)

Definition uwrap (w z : Z) : Z := z mod 2 ^ w.

Definition swrap (w z : Z) : Z :=
  let u := z mod 2 ^ w in if u <? 2 ^ (w - 1) then u else u - 2 ^ w.

Abbreviation u8 := (uwrap 8).
Abbreviation u16 := (uwrap 16).
Abbreviation u32 := (uwrap 32).
Abbreviation u64 := (uwrap 64).

(** ** Platform parameters *)

(** iPXE is built for 32-bit and 64-bit targets; [size_t] and pointers have
    the same width on both. *)
Inductive arch : Set := Arch32 | Arch64.

Definition ptr_bytes (a : arch) : Z := match a with Arch32 => 4 | Arch64 => 8 end.
Definition size_bits (a : arch) : Z := 8 * ptr_bytes a.

Definition SIZE_MAX (a : arch) : Z := 2 ^ size_bits a - 1.

(** ** Error codes and results *)

(** The error numbers the modelled functions return (as [-EFOO] in the
    source); each C [int] status code is [res unit] here. *)
Inductive errno : Set :=
| ENOMEM | EINVAL | ENOENT | ENOSPC | ENOTTY | ERANGE | ENOTSUP | ENOBUFS
| EPROTO | EIO | ECANCELED | ETIMEDOUT | ENOTCONN | ECONNRESET | EACCES
| EEXIST | EADDRINUSE | ENETUNREACH | ENXIO | EFAULT | ENODEV | ENOEXEC
| EINPROGRESS | EBUSY | EAGAIN | EPERM | ENODATA | EOPNOTSUPP
| EOVERFLOW | ELOOP | ECONNABORTED | ENXIO_NO_RECORD | ENXIO_NO_NAMESERVER
| EINVAL_BLKSIZE | EINVAL_TSIZE | EINVAL_MC_NO_PORT | EINVAL_MC_NO_MC
| EINVAL_MC_INVALID_MC | EINVAL_MC_INVALID_IP | EINVAL_MC_INVALID_PORT
| EINVAL_ASN1_EMPTY | EINVAL_ASN1_LEN_LEN | EINVAL_ASN1_LEN | EINVAL_ASN1_BOOLEAN
| EINVAL_ASN1_TIME | EINVAL_ASN1_ALGORITHM | EINVAL_BIT_STRING
| ENOTSUP_ALGORITHM | ENOTTY_ALGORITHM | EAFNOSUPPORT | EPROTONOSUPPORT
| ENEGATIVE (rc : Z).

#[export] Instance errno_eq_dec : EqDecision errno.
Proof. solve_decision. Defined.

Inductive res (A : Type) : Type :=
| Ok (a : A)
| Err (e : errno).
Arguments Ok {A} a.
Arguments Err {A} e.

#[export] Instance res_eq_dec {A} `{EqDecision A} : EqDecision (res A).
Proof. solve_decision. Defined.

Declare Scope ipxe_scope.
Delimit Scope ipxe_scope with ipxe.
#[global] Open Scope ipxe_scope.

Notation "'try!' x := c 'in' k" :=
  (match c with Ok x => k | Err e => Err e end)
  (at level 10, x pattern, c at level 100, k at level 200) : ipxe_scope.

Notation "'opt!' x := c 'in' k" :=
  (match c with Some x => k | None => None end)
  (at level 10, x pattern, c at level 100, k at level 200) : ipxe_scope.

(** Find last (most significant) set bit, numbered from one. *)
Definition fls (z : Z) : Z := if z =? 0 then 0 else Z.log2 z + 1.

(** ** Bytes *)

Definition byte_ok (b : Z) : Prop := 0 <= b < 256.
Definition bytes_ok (l : list Z) : Prop := Forall byte_ok l.

(** Length of a list as a [Z]. *)
Abbreviation zlen l := (Z.of_nat (length l)).

Lemma zlen_app {A} (l k : list A) : zlen (l ++ k) = zlen l + zlen k.
Proof. rewrite length_app. lia. Qed.

(** ** Tactics *)

(** Turn boolean comparisons of the context and goal into propositions. *)
Ltac bool_to_prop :=
  repeat match goal with
  | H : andb _ _ = true |- _ => apply andb_true_iff in H; destruct H
  | H : andb _ _ = false |- _ => apply andb_false_iff in H
  | H : orb _ _ = true |- _ => apply orb_true_iff in H
  | H : orb _ _ = false |- _ => apply orb_false_iff in H; destruct H
  | H : negb _ = true |- _ => apply negb_true_iff in H
  | H : negb _ = false |- _ => apply negb_false_iff in H
  | H : (_ =? _) = true |- _ => apply Z.eqb_eq in H
  | H : (_ =? _) = false |- _ => apply Z.eqb_neq in H
  | H : (_ <? _) = true |- _ => apply Z.ltb_lt in H
  | H : (_ <? _) = false |- _ => apply Z.ltb_ge in H
  | H : (_ <=? _) = true |- _ => apply Z.leb_le in H
  | H : (_ <=? _) = false |- _ => apply Z.leb_gt in H
  end.

(** Case on the condition of an [if] of the goal. *)
Ltac case_if :=
  match goal with
  | |- context [if ?b then _ else _] =>
      lazymatch b with context [if _ then _ else _] => fail | _ => idtac end;
      let E := fresh "Eif" in destruct b eqn:E
  end; bool_to_prop.

Ltac case_if_in H :=
  match type of H with
  | context [if ?b then _ else _] =>
      lazymatch b with context [if _ then _ else _] => fail | _ => idtac end;
      let E := fresh "Eif" in destruct b eqn:E
  end; bool_to_prop.

(** Prove that an explicit list of known bytes is made of bytes. *)
Ltac solve_bytes :=
  unfold bytes_ok in *;
  repeat first [assumption | apply Forall_nil_2 | apply Forall_cons_2 | unfold byte_ok; lia].

(** ** Lemmas on machine integers *)

Lemma pow2_pos w : 0 <= w -> 0 < 2 ^ w.
Proof. intros. apply Z.pow_pos_nonneg; lia. Qed.

Lemma uwrap_range w z : 0 <= w -> 0 <= uwrap w z < 2 ^ w.
Proof. intros. apply Z.mod_pos_bound, pow2_pos; lia. Qed.

Lemma uwrap_small w z : 0 <= z < 2 ^ w -> uwrap w z = z.
Proof. apply Z.mod_small. Qed.

Lemma uwrap_idemp w z : uwrap w (uwrap w z) = uwrap w z.
Proof. apply Zmod_mod. Qed.

(** The usual overflow test of unsigned addition is exact. *)
Lemma uwrap_add_no_overflow w x y :
  0 <= x < 2 ^ w -> 0 < y < 2 ^ w -> x <= uwrap w (x + y) -> x + y < 2 ^ w.
Proof.
  intros Hx Hy H. destruct (Z_lt_ge_dec (x + y) (2 ^ w)); [done|].
  unfold uwrap in H. rewrite <- (Z.mod_unique (x + y) (2 ^ w) 1 (x + y - 2 ^ w)) in H by lia.
  lia.
Qed.

Lemma swrap_small w z :
  0 < w -> - 2 ^ (w - 1) <= z < 2 ^ (w - 1) -> swrap w z = z.
Proof.
  intros Hw Hz. unfold swrap.
  assert (H2 : 2 ^ w = 2 * 2 ^ (w - 1)).
  { rewrite <- Z.pow_succ_r by lia. f_equal; lia. }
  destruct (Z_lt_ge_dec z 0).
  - replace (z mod 2 ^ w) with (z + 2 ^ w).
    + destruct (Z.ltb_spec (z + 2 ^ w) (2 ^ (w - 1))); lia.
    + rewrite <- (Z.mod_small (z + 2 ^ w) (2 ^ w)) by lia.
      rewrite <- (Z.mul_1_l (2 ^ w)) at 1. now rewrite Z_mod_plus_full.
  - rewrite Z.mod_small by lia.
    destruct (Z.ltb_spec z (2 ^ (w - 1))); lia.
Qed.

Lemma size_bits_large a : 32 <= size_bits a.
Proof. destruct a; vm_compute; discriminate. Qed.

(** Clearing the low bits of an address or a length, as the source does with
    [x & ~(2^k - 1)]. *)
Lemma land_lnot_ones x k :
  0 <= k -> Z.land x (Z.lnot (2 ^ k - 1)) = x - x mod 2 ^ k.
Proof.
  intros Hk. rewrite <- Z.ldiff_land, Z.sub_1_r, <- Z.ones_equiv.
  rewrite Z.ldiff_ones_r by lia.
  rewrite Z.shiftl_mul_pow2, Z.shiftr_div_pow2 by lia.
  pose proof (Z.div_mod x (2 ^ k)). pose proof (pow2_pos k Hk). lia.
Qed.

Lemma land_ones_mod x k : 0 <= k -> Z.land x (2 ^ k - 1) = x mod 2 ^ k.
Proof. intros. rewrite <- Z.land_ones by lia. f_equal. rewrite Z.ones_equiv. lia. Qed.

(** The bitwise or of two masks of consecutive low bits is the longer one. *)
Lemma lor_ones_max a b :
  0 <= a -> 0 <= b -> Z.lor (2 ^ a - 1) (2 ^ b - 1) = 2 ^ Z.max a b - 1.
Proof.
  intros Ha Hb.
  assert (Ho : forall n, 2 ^ n - 1 = Z.ones n) by (intros; rewrite Z.ones_equiv; lia).
  rewrite !Ho. apply Z.bits_inj'. intros n Hn.
  rewrite Z.lor_spec, !Z.testbit_ones_nonneg by lia.
  destruct (Z.ltb_spec n a), (Z.ltb_spec n b), (Z.ltb_spec n (Z.max a b)); lia.
Qed.

Lemma mod_mod_pow2 x k w : 0 <= k <= w -> (x mod 2 ^ w) mod 2 ^ k = x mod 2 ^ k.
Proof.
  intros Hk. apply Z.mod_mod_divide. exists (2 ^ (w - k)).
  rewrite <- Z.pow_add_r by lia. f_equal. lia.
Qed.

(** Exhaustive checking of a boolean property over a small range. *)
Lemma range_check lo n (P : Z -> bool) :
  forallb P (seqZ lo n) = true -> forall x, lo <= x < lo + n -> P x = true.
Proof.
  intros H x Hx. rewrite forallb_forall in H. apply H.
  apply list_elem_of_In, elem_of_seqZ. lia.
Qed.

Lemma range_dec lo n (P : Z -> Prop) `{!forall x, Decision (P x)} :
  forallb (fun x => bool_decide (P x)) (seqZ lo n) = true -> forall x, lo <= x < lo + n -> P x.
Proof. intros Hall x Hx. eapply bool_decide_eq_true_1, (range_check lo n _ Hall x Hx). Qed.

Lemma testbit_high y k n : 0 <= y < 2 ^ k -> 0 <= k <= n -> Z.testbit y n = false.
Proof. intros Hy Hn. rewrite <- (Z.mod_small y (2 ^ k)) by done. by apply Z.mod_pow2_bits_high. Qed.

(** Bitwise or of a shifted value and low bits is an addition. *)
Lemma lor_shiftl_add x y k : 0 <= k -> 0 <= y < 2 ^ k -> Z.lor (Z.shiftl x k) y = x * 2 ^ k + y.
Proof.
  intros Hk Hy. rewrite <- Z.add_nocarry_lor; [by rewrite Z.shiftl_mul_pow2 by lia|].
  apply Z.bits_inj'. intros n Hn. rewrite Z.land_spec, Z.bits_0.
  destruct (Z_lt_ge_dec n k).
  - rewrite Z.shiftl_spec_low by lia. done.
  - rewrite (testbit_high y k n), andb_false_r by lia. done.
Qed.

Lemma lor_mul_add x y k : 0 <= k -> 0 <= y < 2 ^ k -> Z.lor (x * 2 ^ k) y = x * 2 ^ k + y.
Proof. intros. rewrite <- (lor_shiftl_add x y k) by lia. by rewrite Z.shiftl_mul_pow2 by lia. Qed.

Lemma lxor_below x y k : 0 <= k -> 0 <= x < 2 ^ k -> 0 <= y < 2 ^ k -> Z.lxor x y < 2 ^ k.
Proof.
  intros Hk Hx Hy. destruct (Z.eq_dec (Z.lxor x y) 0) as [->|Hn]; [lia|].
  assert (0 <= Z.lxor x y) by (apply Z.lxor_nonneg; lia). apply Z.log2_lt_pow2; [lia|].
  destruct (Z.leb_spec k (Z.log2 (Z.lxor x y))) as [Hl|]; [|done]. exfalso.
  pose proof (Z.bit_log2 (Z.lxor x y) ltac:(lia)) as Hb. rewrite Z.lxor_spec, !(testbit_high _ k) in Hb by lia. done.
Qed.

Lemma triple_eq {A B C} (a a' : A) (b b' : B) (c c' : C) :
  a = a' -> b = b' -> c = c' -> (a, b, c) = (a', b', c').
Proof. by intros -> -> ->. Qed.

Create HintDb ipxe.
#[export] Hint Resolve pow2_pos uwrap_range : ipxe.
