(* ===== verification/Malloc.v ===== *)
(** * Dynamic memory allocation ([core/malloc.c])

    The heap is the ordered list of free blocks together with the usage
    counters; allocation is first fit with block splitting, freeing merges
    neighbours.  The file defines the allocator, its invariant (the conditions
    [check_blocks] asserts), and proves that the free list and the set of live
    blocks partition the pool at every reachable state. *)

From S2P Require Import Prelude.

(** ** Constants *)

(** [struct memory_block]: a [size_t], the padding that covers the [int]
    counter of [struct refcnt] rounded up to pointer alignment, and a
    two-pointer [struct list_head]. *)
Definition sizeof_memory_block (a : arch) : Z :=
  let p := ptr_bytes a in
  let pad := 0 + 4 in
  p + (pad + (p - 1)) / p * p + 2 * p.

Definition MIN_MEMBLOCK_SIZE (a : arch) : Z :=
  uwrap (size_bits a) (Z.shiftl 1 (fls (sizeof_memory_block a - 1))).

(** Offset of [data] in [struct autosized_block]. *)
Definition autosized_data (a : arch) : Z := ptr_bytes a.

Definition NULL : Z := 0.

Definition NOWHERE (a : arch) : Z := uwrap (size_bits a) (Z.lnot 0).

Definition HEAP_SIZE : Z := 512 * 1024.

(** ** State *)

(** A free block: the address of its [struct memory_block] and its size. *)
Record memory_block := MB { mb_addr : Z; mb_size : Z }.

#[export] Instance memory_block_eq_dec : EqDecision memory_block.
Proof. solve_decision. Defined.

Record heap := Heap {
  free_blocks : list memory_block;
  freemem : Z;
  usedmem : Z;
  maxusedmem : Z
}.

#[export] Instance heap_eq_dec : EqDecision heap.
Proof. solve_decision. Defined.

(** ** Operations *)

Section Allocator.
Context (a : arch).
(** Offset between virtual and physical addresses ([virt_to_phys]). *)
Context (virt_offset : Z).
(** The caches of the program, and the linker table [CACHE_DISCARDERS]: each
    discarder may drop items of the caches, releasing their memory to the
    heap, and reports how many items it dropped. *)
Context {cache : Type} (CACHE_DISCARDERS : list (cache -> heap -> cache * heap * Z)).

Let w := size_bits a.
Let MIN := MIN_MEMBLOCK_SIZE a.

Definition virt_to_phys (addr : Z) : Z := uwrap w (addr + virt_offset).

(** The assertions of [check_blocks] about one block and its predecessor. *)
Fixpoint check_blocks_from (prev : option memory_block) (l : list memory_block) : bool :=
  match l with
  | [] => true
  | block :: rest =>
      (sizeof_memory_block a <=? mb_size block) && (MIN <=? mb_size block)
      && (mb_addr block <? uwrap w (mb_addr block + mb_size block))
      && match prev with
         | None => true
         | Some p => (mb_addr p <? mb_addr block)
                     && (uwrap w (mb_addr p + mb_size p) <? mb_addr block)
         end
      && check_blocks_from (Some block) rest
  end.

Definition check_blocks (h : heap) : bool := check_blocks_from None (free_blocks h).

Fixpoint discard_cache_from (ds : list (cache -> heap -> cache * heap * Z)) (c : cache) (h : heap)
  : cache * heap * Z :=
  match ds with
  | [] => (c, h, 0)
  | discard :: ds' =>
      let '(c', h', discarded) := discard c h in
      if discarded =? 0 then discard_cache_from ds' c' h' else (c', h', discarded)
  end.

Definition discard_cache (c : cache) (h : heap) : cache * heap * Z :=
  discard_cache_from CACHE_DISCARDERS c h.

(** [None] when the fuel does not cover the [do]/[while] loop. *)
Fixpoint discard_all_cache (fuel : nat) (c : cache) (h : heap) : option (cache * heap) :=
  match fuel with
  | O => None
  | S fuel' =>
      let '(c', h', discarded) := discard_cache c h in
      if discarded =? 0 then Some (c', h') else discard_all_cache fuel' c' h'
  end.

Definition round_size (size : Z) : Z :=
  Z.land (uwrap w (size + MIN - 1)) (uwrap w (Z.lnot (MIN - 1))).

(** The search of [alloc_memblock] through the free list: the list after
    the split and the address of the allocated block. *)
Fixpoint alloc_scan (actual_size align_mask offset : Z) (l : list memory_block)
  : option (list memory_block * Z) :=
  match l with
  | [] => None
  | pre :: rest =>
      let pre_size :=
        Z.land (uwrap w (offset - virt_to_phys (mb_addr pre))) align_mask in
      if (mb_size pre <? pre_size)
         || (uwrap w (mb_size pre - pre_size) <? actual_size)
      then
        opt! (l', ptr) := alloc_scan actual_size align_mask offset rest in
        Some (pre :: l', ptr)
      else
        let post_size := uwrap w (mb_size pre - pre_size - actual_size) in
        let block := uwrap w (mb_addr pre + pre_size) in
        let post := uwrap w (block + actual_size) in
        let with_post := if MIN <=? post_size then MB post post_size :: rest else rest in
        let with_pre := if pre_size <? MIN then with_post
                        else MB (mb_addr pre) pre_size :: with_post in
        Some (with_pre, block)
  end.

(** The [while (1)] loop of [alloc_memblock]; [None] when the fuel does not
    cover the rounds of discarding. *)
Fixpoint alloc_loop (fuel : nat) (actual_size align_mask offset : Z) (c : cache) (h : heap)
  : option (cache * heap * Z) :=
  match fuel with
  | O => None
  | S fuel' =>
      match alloc_scan actual_size align_mask offset (free_blocks h) with
      | Some (blocks, ptr) =>
          let used := uwrap w (usedmem h + actual_size) in
          Some (c, Heap blocks (uwrap w (freemem h - actual_size)) used
                        (if maxusedmem h <? used then used else maxusedmem h), ptr)
      | None =>
          let '(c', h', discarded) := discard_cache c h in
          if discarded =? 0 then Some (c', h', NULL)
          else alloc_loop fuel' actual_size align_mask offset c' h'
      end
  end.

Definition alloc_memblock (fuel : nat) (size align offset : Z) (c : cache) (h : heap)
  : option (cache * heap * Z) :=
  let actual_size := round_size size in
  if actual_size =? 0 then Some (c, h, NULL)
  else
    let align_mask := Z.lor (uwrap w (align - 1)) (MIN - 1) in
    alloc_loop fuel actual_size align_mask offset c h.

(** The insertion scan of [free_memblock].  The result is the list before
    the insertion point, the block to insert (merged with its predecessor
    where adjacent), the last computed gap, and the list from the insertion
    point on.  [None] is the case where the insertion point itself has just
    been unlinked. *)
Fixpoint free_scan (actual_size : Z) (freeing : memory_block) (gap_after : Z)
  (l : list memory_block)
  : option (list memory_block * memory_block * Z * list memory_block) :=
  match l with
  | [] => Some ([], freeing, gap_after, [])
  | block :: rest =>
      let gap_before := swrap w (mb_addr freeing - (mb_addr block + mb_size block)) in
      let gap_after := swrap w (mb_addr block - (mb_addr freeing + mb_size freeing)) in
      if gap_before =? 0 then
        if 0 <=? gap_after then None
        else free_scan actual_size
               (MB (mb_addr block) (uwrap w (mb_size block + actual_size))) gap_after rest
      else if 0 <=? gap_after then Some ([], freeing, gap_after, block :: rest)
      else
        opt! (pfx, f, g, sfx) := free_scan actual_size freeing gap_after rest in
        Some (block :: pfx, f, g, sfx)
  end.

Definition free_memblock (ptr size : Z) (h : heap) : option heap :=
  if ptr =? NULL then Some h
  else
    let actual_size := round_size size in
    opt! (pfx, freeing, gap_after, sfx) :=
      free_scan actual_size (MB ptr actual_size) (-1) (free_blocks h) in
    let blocks :=
      match sfx with
      | block :: rest =>
          if gap_after =? 0
          then pfx ++ MB (mb_addr freeing) (uwrap w (mb_size freeing + mb_size block)) :: rest
          else pfx ++ freeing :: block :: rest
      | [] => pfx ++ [freeing]
      end in
    Some (Heap blocks (uwrap w (freemem h + actual_size))
               (uwrap w (usedmem h - actual_size)) (maxusedmem h)).

Definition mpopulate (start len : Z) (h : heap) : option heap :=
  let len := Z.land len (uwrap w (Z.lnot (MIN - 1))) in
  opt! h' := free_memblock start len h in
  Some (Heap (free_blocks h') (freemem h') (uwrap w (usedmem h' + len)) (maxusedmem h')).

(** [init_heap]: the static [heap] array becomes the pool. *)
Definition init_heap (heap_base : Z) : option heap :=
  mpopulate heap_base HEAP_SIZE (Heap [] 0 0 0).

(** ** Sized blocks: [malloc], [realloc], [free], [zalloc]

    Memory is a function from addresses to bytes; the header of an
    [autosized_block] is a little-endian [size_t]. *)

Definition memory := Z -> Z.

Definition store_size (m : memory) (addr v : Z) : memory :=
  fun x => if (addr <=? x) && (x <? addr + ptr_bytes a)
           then Z.shiftr v (8 * (x - addr)) mod 256 else m x.

Fixpoint load_le (m : memory) (addr : Z) (n : nat) : Z :=
  match n with
  | O => 0
  | S n' => m addr + 256 * load_le m (addr + 1) n'
  end.

Definition load_size (m : memory) (addr : Z) : Z :=
  load_le m addr (Z.to_nat (ptr_bytes a)).

Definition memcpy (m : memory) (dest src len : Z) : memory :=
  fun x => if (dest <=? x) && (x <? dest + len) then m (src + (x - dest)) else m x.

Definition memset (m : memory) (dest c len : Z) : memory :=
  fun x => if (dest <=? x) && (x <? dest + len) then c mod 256 else m x.

(** The result carries the new pointer; [NULL] is a failed allocation. *)
Definition realloc (fuel : nat) (old_ptr new_size : Z) (c : cache) (h : heap) (m : memory)
  : option (cache * heap * memory * Z) :=
  let release (c : cache) (h : heap) (m : memory) (new_ptr : Z) :=
    if negb (old_ptr =? NULL) && negb (old_ptr =? NOWHERE a) then
      let old_block := old_ptr - autosized_data a in
      let old_total_size := load_size m old_block in
      let old_size := uwrap w (old_total_size - autosized_data a) in
      let m := memcpy m new_ptr old_ptr
                 (if old_size <? new_size then old_size else new_size) in
      opt! h := free_memblock old_block old_total_size h in
      Some (c, h, m, new_ptr)
    else Some (c, h, m, new_ptr) in
  if new_size =? 0 then release c h m (NOWHERE a)
  else
    let new_total_size := uwrap w (new_size + autosized_data a) in
    if new_total_size <? new_size then Some (c, h, m, NULL)
    else
      opt! (c, h, new_block) := alloc_memblock fuel new_total_size 1 0 c h in
      if new_block =? NULL then Some (c, h, m, NULL)
      else release c h (store_size m new_block new_total_size)
                   (new_block + autosized_data a).

Definition malloc (fuel : nat) (size : Z) (c : cache) (h : heap) (m : memory) :=
  realloc fuel NULL size c h m.

Definition free (fuel : nat) (ptr : Z) (c : cache) (h : heap) (m : memory)
  : option (cache * heap * memory) :=
  opt! (c, h, m, _) := realloc fuel ptr 0 c h m in Some (c, h, m).

Definition zalloc (fuel : nat) (size : Z) (c : cache) (h : heap) (m : memory)
  : option (cache * heap * memory * Z) :=
  opt! (c, h, m, data) := malloc fuel size c h m in
  if data =? NULL then Some (c, h, m, data) else Some (c, h, memset m data 0 size, data).
End Allocator.

(** ** Facts about the platform constants *)

Definition memblock_exp (a : arch) : Z := match a with Arch32 => 4 | Arch64 => 5 end.

Section Platform.
Context (a : arch).

Lemma MIN_pow2 : MIN_MEMBLOCK_SIZE a = 2 ^ memblock_exp a.
Proof. destruct a; reflexivity. Qed.

Lemma memblock_exp_range : 0 < memblock_exp a < size_bits a.
Proof. destruct a; cbv; auto. Qed.

Lemma size_bits_pos : 0 < size_bits a.
Proof. destruct a; reflexivity. Qed.

Lemma MIN_pos : 0 < MIN_MEMBLOCK_SIZE a.
Proof. destruct a; reflexivity. Qed.

Lemma sizeof_le_MIN : sizeof_memory_block a <= MIN_MEMBLOCK_SIZE a.
Proof. destruct a; cbv; discriminate. Qed.

Lemma half_double : 2 ^ size_bits a = 2 * 2 ^ (size_bits a - 1).
Proof. destruct a; reflexivity. Qed.

Lemma half_pos : 0 < 2 ^ (size_bits a - 1).
Proof. destruct a; reflexivity. Qed.

Lemma MIN_lt_half : MIN_MEMBLOCK_SIZE a < 2 ^ (size_bits a - 1).
Proof. destruct a; reflexivity. Qed.

(** Clearing low bits through a [size_t] mask. *)
Lemma land_size_mask x :
  0 <= x < 2 ^ size_bits a ->
  Z.land x (uwrap (size_bits a) (Z.lnot (MIN_MEMBLOCK_SIZE a - 1)))
  = x - x mod MIN_MEMBLOCK_SIZE a.
Proof.
  intros Hx. rewrite MIN_pow2. rewrite <- land_lnot_ones by apply Z.lt_le_incl, memblock_exp_range.
  unfold uwrap. rewrite <- !Z.land_ones by (pose proof size_bits_pos; lia).
  rewrite (Z.land_comm _ (Z.ones _)), Z.land_assoc. f_equal.
  rewrite Z.land_ones by (pose proof size_bits_pos; lia). now apply Z.mod_small.
Qed.

(** [round_size] rounds up to a multiple of the minimum block size; it is
    zero exactly for size zero or when the rounding overflows. *)
Lemma round_size_spec size :
  0 < size -> size + MIN_MEMBLOCK_SIZE a - 1 < 2 ^ size_bits a ->
  let r := round_size a size in
  size <= r < size + MIN_MEMBLOCK_SIZE a /\ r mod MIN_MEMBLOCK_SIZE a = 0 /\ r < 2 ^ size_bits a.
Proof.
  intros Hs Hb r. pose proof MIN_pos as Hm. subst r. unfold round_size.
  rewrite land_size_mask by (apply uwrap_range; pose proof size_bits_pos; lia).
  rewrite uwrap_small by lia.
  set (y := size + MIN_MEMBLOCK_SIZE a - 1).
  pose proof (Z.mod_pos_bound y (MIN_MEMBLOCK_SIZE a) Hm).
  pose proof (Z.div_mod y (MIN_MEMBLOCK_SIZE a)).
  repeat split; try lia.
  replace (y - y mod MIN_MEMBLOCK_SIZE a) with ((y / MIN_MEMBLOCK_SIZE a) * MIN_MEMBLOCK_SIZE a) by lia.
  apply Z.mod_mul. lia.
Qed.

Lemma round_size_overflow size :
  2 ^ size_bits a - MIN_MEMBLOCK_SIZE a < size < 2 ^ size_bits a -> round_size a size = 0.
Proof.
  intros Hs. pose proof MIN_pos as Hm. unfold round_size.
  rewrite land_size_mask by (apply uwrap_range; pose proof size_bits_pos; lia).
  assert (Hw : uwrap (size_bits a) (size + MIN_MEMBLOCK_SIZE a - 1)
               = size + MIN_MEMBLOCK_SIZE a - 1 - 2 ^ size_bits a).
  { symmetry. apply (Z.mod_unique _ _ 1); [left|]; pose proof half_double;
      pose proof MIN_lt_half; lia. }
  rewrite Hw, Z.mod_small by lia. lia.
Qed.

Lemma round_size_min size :
  0 < round_size a size -> MIN_MEMBLOCK_SIZE a <= round_size a size.
Proof.
  pose proof MIN_pos as Hm. unfold round_size.
  rewrite land_size_mask by (apply uwrap_range; pose proof size_bits_pos; lia).
  set (y := uwrap _ _). pose proof (Z.div_mod y (MIN_MEMBLOCK_SIZE a) ltac:(lia)).
  assert (y / MIN_MEMBLOCK_SIZE a <= 0 \/ 1 <= y / MIN_MEMBLOCK_SIZE a) as [?|?] by lia; nia.
Qed.

(** An allocation size as [alloc_memblock] computes it. *)
Lemma round_size_range size :
  0 <= size < 2 ^ size_bits a ->
  round_size a size = 0 \/ size <= round_size a size < 2 ^ size_bits a.
Proof.
  intros H. destruct (Z.eq_dec size 0) as [->|].
  - left. destruct a; reflexivity.
  - destruct (Z_le_gt_dec size (2 ^ size_bits a - MIN_MEMBLOCK_SIZE a)).
    + right. destruct (round_size_spec size) as (?&?&?); lia.
    + left. apply round_size_overflow. lia.
Qed.
End Platform.

(** ** Invariant and abstract view of the free list *)

(** [x] is a byte of some block of [l]. *)
Definition free_at (l : list memory_block) (x : Z) : Prop :=
  Exists (fun b => mb_addr b <= x < mb_addr b + mb_size b) l.

(** Total size of the blocks of a list. *)
Fixpoint total_size (l : list memory_block) : Z :=
  match l with [] => 0 | b :: l' => mb_size b + total_size l' end.

(** The blocks of [l] lie in [[lo, hi)], in ascending order, each at least
    the minimum size, and no two of them touch. *)
Fixpoint blocks_from (a : arch) (lo hi : Z) (l : list memory_block) : Prop :=
  match l with
  | [] => True
  | b :: l' =>
      lo <= mb_addr b /\ MIN_MEMBLOCK_SIZE a <= mb_size b
      /\ mb_addr b + mb_size b <= hi
      /\ blocks_from a (mb_addr b + mb_size b + 1) hi l'
  end.

(** A memory region an allocator pool may occupy: above address zero, below
    the end of the address space, and narrower than half of it (the gaps of
    [free_memblock] are signed). *)
Definition region_ok (a : arch) (lo hi : Z) : Prop :=
  0 < lo /\ lo <= hi < 2 ^ size_bits a /\ hi - lo < 2 ^ (size_bits a - 1).

(** Reference version of insertion into the free list: the block goes after
    every block that ends below it, merging with both neighbours. *)
Definition insert_front (p n : Z) (l : list memory_block) : list memory_block :=
  match l with
  | b :: l' => if mb_addr b =? p + n then MB p (n + mb_size b) :: l' else MB p n :: l
  | [] => [MB p n]
  end.

Fixpoint insert_free (p n : Z) (l : list memory_block) : list memory_block :=
  match l with
  | b :: l' =>
      if mb_addr b + mb_size b <? p then b :: insert_free p n l'
      else if mb_addr b + mb_size b =? p then insert_front (mb_addr b) (mb_size b + n) l'
      else insert_front p n l
  | [] => [MB p n]
  end.

(** [[p, p+n)] meets no block of [l]. *)
Definition disjoint_blocks (p n : Z) (l : list memory_block) : Prop :=
  Forall (fun b => p + n <= mb_addr b \/ mb_addr b + mb_size b <= p) l.

Lemma total_size_app l1 l2 : total_size (l1 ++ l2) = total_size l1 + total_size l2.
Proof. induction l1; simpl; lia. Qed.

Lemma total_size_Forall l : Forall (fun b => 0 <= mb_size b) l -> 0 <= total_size l.
Proof. induction 1; simpl; lia. Qed.

Lemma insert_free_total p n l : total_size (insert_free p n l) = n + total_size l.
Proof.
  assert (Hf : forall p n l, total_size (insert_front p n l) = n + total_size l).
  { intros ? ? [|c ?]; simpl; [lia|]. case_if; simpl; lia. }
  induction l as [|b l IH]; cbn [insert_free]; [simpl; lia|].
  repeat case_if; cbn [total_size]; rewrite ?IH, ?Hf; simpl; lia.
Qed.

Lemma free_at_cons b l x :
  free_at (b :: l) x <-> mb_addr b <= x < mb_addr b + mb_size b \/ free_at l x.
Proof. apply Exists_cons. Qed.

Lemma free_at_app l1 l2 x : free_at (l1 ++ l2) x <-> free_at l1 x \/ free_at l2 x.
Proof. apply Exists_app. Qed.

(** Disjointness from a list of blocks is disjointness byte by byte. *)
Lemma disjoint_free_at q m l :
  0 < m -> Forall (fun b => 0 < mb_size b) l ->
  disjoint_blocks q m l <-> (forall x, q <= x < q + m -> ~ free_at l x).
Proof.
  intros Hm Hs. induction Hs as [|b l Hb Hs IH].
  - split; [intros _ x _ Hx; inversion Hx|constructor].
  - unfold disjoint_blocks in *. rewrite Forall_cons_iff, IH. split.
    + intros [Hd Hl] x Hx. rewrite free_at_cons. intros [?|Hf]; [lia|]. by apply (Hl x).
    + intros Hx. split.
      * destruct (Z_le_gt_dec (q + m) (mb_addr b)); [by left|].
        destruct (Z_le_gt_dec (mb_addr b + mb_size b) q); [by right|].
        exfalso. apply (Hx (Z.max q (mb_addr b))); [lia|]. rewrite free_at_cons. lia.
      * intros x Hq Hf. apply (Hx x Hq). rewrite free_at_cons. by right.
Qed.

Section Blocks.
Context (a : arch).
Let MIN := MIN_MEMBLOCK_SIZE a.
Let w := size_bits a.

Lemma blocks_from_weaken lo lo' hi l :
  lo' <= lo -> blocks_from a lo hi l -> blocks_from a lo' hi l.
Proof. destruct l; simpl; [done|]. intuition lia. Qed.

Lemma blocks_from_app lo hi l1 b l2 :
  blocks_from a lo hi (l1 ++ b :: l2) <->
  blocks_from a lo hi l1 /\ blocks_from a lo hi (b :: l2)
  /\ Forall (fun c => mb_addr c + mb_size c < mb_addr b) l1.
Proof.
  revert lo. induction l1 as [|c l1 IH]; intros lo; simpl app; cbn [blocks_from].
  - split; [intros H|intros (_&H&_)]; repeat split; try apply H; constructor.
  - rewrite IH. cbn [blocks_from]. rewrite Forall_cons_iff. pose proof (MIN_pos a).
    split; intros H'; intuition lia.
Qed.

Lemma blocks_from_free_at lo hi l x :
  blocks_from a lo hi l -> free_at l x -> lo <= x < hi.
Proof.
  revert lo. induction l as [|b l IH]; intros lo H Hx; [inversion Hx|].
  apply free_at_cons in Hx. destruct H as (H1&H2&H3&H4). pose proof (MIN_pos a).
  destruct Hx as [?|Hx]; [lia|]. specialize (IH _ H4 Hx). lia.
Qed.

Lemma total_size_nonneg lo hi l : blocks_from a lo hi l -> 0 <= total_size l.
Proof.
  revert lo. induction l as [|b l IH]; intros lo H; [done|].
  destruct H as (?&?&?&H). apply IH in H. pose proof (MIN_pos a). simpl. lia.
Qed.

(** Insertion keeps the order when the block is disjoint from the list. *)
Lemma insert_front_wf p n lo hi l :
  MIN <= n -> lo <= p -> p + n <= hi -> blocks_from a (p + n) hi l ->
  blocks_from a lo hi (insert_front p n l).
Proof.
  intros. pose proof (MIN_pos a). destruct l as [|b l]; simpl in *; [lia|].
  destruct (Z.eqb_spec (mb_addr b) (p + n)); simpl.
  - repeat split; try lia. eapply blocks_from_weaken; [|apply H2]. lia.
  - repeat split; try lia. all: intuition.
Qed.

Lemma disjoint_after p n b lo hi l :
  0 < n -> blocks_from a lo hi (b :: l) -> disjoint_blocks p n (b :: l) ->
  p < mb_addr b + mb_size b -> p + n <= mb_addr b.
Proof.
  intros Hn Hb Hd Hp. inversion Hd; subst. lia.
Qed.

Lemma insert_free_wf p n lo hi l :
  MIN <= n -> lo <= p -> p + n <= hi -> blocks_from a lo hi l -> disjoint_blocks p n l ->
  blocks_from a lo hi (insert_free p n l).
Proof.
  intros Hn Hlo Hhi. revert lo Hlo. pose proof (MIN_pos a).
  induction l as [|b l IH]; intros lo Hlo Hb Hd; [simpl; lia|].
  inversion Hd as [|? ? Hd1 Hd2]; subst. destruct Hb as (Hb1&Hb2&Hb3&Hb4).
  cbn [insert_free]. destruct (Z.ltb_spec (mb_addr b + mb_size b) p).
  - cbn [blocks_from]. repeat split; try lia. apply IH; [lia|done|done].
  - destruct (Z.eqb_spec (mb_addr b + mb_size b) p).
    + apply insert_front_wf; try lia. 
      destruct l as [|c l]; [done|]. inversion Hd2; subst. destruct Hb4 as (?&?&?&?).
      cbn [blocks_from]. repeat split; try lia. done.
    + apply insert_front_wf; try lia. cbn [blocks_from]. repeat split; try lia. done.
Qed.

Lemma insert_front_free_at p n l x :
  0 <= n -> (match l with b :: _ => 0 <= mb_size b | [] => True end) ->
  free_at (insert_front p n l) x <-> p <= x < p + n \/ free_at l x.
Proof.
  intros Hn Hl. destruct l as [|b l]; simpl; [now rewrite free_at_cons|].
  destruct (Z.eqb_spec (mb_addr b) (p + n)); rewrite !free_at_cons; simpl; [|tauto].
  destruct (Z_lt_ge_dec x (p + n)); intuition lia.
Qed.

Lemma insert_free_free_at p n lo hi l x :
  0 <= n -> blocks_from a lo hi l ->
  free_at (insert_free p n l) x <-> p <= x < p + n \/ free_at l x.
Proof.
  intros Hn. revert lo. induction l as [|b l IH]; intros lo Hb; cbn [insert_free].
  - now rewrite free_at_cons.
  - destruct Hb as (Hb1&Hb2&Hb3&Hb4). pose proof (MIN_pos a).
    destruct (Z.ltb_spec (mb_addr b + mb_size b) p).
    + rewrite !free_at_cons, (IH _ Hb4). tauto.
    + destruct (Z.eqb_spec (mb_addr b + mb_size b) p).
      * rewrite insert_front_free_at, free_at_cons by
          (solve [lia | destruct l; simpl in *; [done|lia]]).
        destruct (Z_lt_ge_dec x p); intuition lia.
      * rewrite insert_front_free_at by lia. now rewrite free_at_cons.
Qed.
End Blocks.

(** ** The operations against the reference insertion and splitting *)

Section Refine.
Context (a : arch) (virt_offset : Z).
Let MIN := MIN_MEMBLOCK_SIZE a.
Let w := size_bits a.

(** Address arithmetic inside a pool region does not wrap. *)
Lemma gap_exact lo hi x y :
  region_ok a lo hi -> lo <= x <= hi -> lo <= y <= hi -> swrap w (x - y) = x - y.
Proof.
  intros (H1&H2&H3) Hx Hy. apply swrap_small; [apply size_bits_pos|].
  fold w in H2, H3. lia.
Qed.

Lemma region_wrap lo hi x :
  region_ok a lo hi -> 0 <= x <= hi -> uwrap w x = x.
Proof. intros (H1&H2&H3) Hx. apply uwrap_small. fold w in H2. lia. Qed.

(** Once the block has been merged downwards the scan stops at once. *)
Lemma free_scan_front lo hi actual f g l :
  region_ok a lo hi -> lo <= mb_addr f -> 0 < mb_size f ->
  mb_addr f + mb_size f <= hi -> g < 0 ->
  blocks_from a (mb_addr f + mb_size f) hi l ->
  exists g', free_scan a actual f g l = Some ([], f, g', l)
    /\ match l with [] => g' < 0 | b :: _ => g' = mb_addr b - (mb_addr f + mb_size f) end.
Proof.
  intros Hr Hlo Hn Hhi Hg Hl. destruct l as [|b l]; cbn [free_scan].
  - exists g. done.
  - destruct Hl as (Hb1&Hb2&Hb3&_). pose proof (MIN_pos a).
    fold w. rewrite !(gap_exact lo hi) by (done || lia).
    destruct (Z.eqb_spec (mb_addr f - (mb_addr b + mb_size b)) 0); [lia|].
    destruct (Z.leb_spec 0 (mb_addr b - (mb_addr f + mb_size f))); [|lia].
    eexists. split; [reflexivity|]. done.
Qed.

(** The list [free_memblock] builds from the result of its scan. *)
Definition splice (pfx : list memory_block) (f : memory_block) (g : Z)
  (sfx : list memory_block) : list memory_block :=
  match sfx with
  | b :: rest =>
      if g =? 0 then pfx ++ MB (mb_addr f) (uwrap w (mb_size f + mb_size b)) :: rest
      else pfx ++ f :: b :: rest
  | [] => pfx ++ [f]
  end.

Lemma splice_front lo hi f g l :
  region_ok a lo hi -> lo <= mb_addr f -> 0 < mb_size f -> mb_addr f + mb_size f <= hi ->
  blocks_from a (mb_addr f + mb_size f) hi l ->
  (match l with [] => g < 0 | b :: _ => g = mb_addr b - (mb_addr f + mb_size f) end) ->
  splice [] f g l = insert_front (mb_addr f) (mb_size f) l.
Proof.
  intros Hr Hlo Hn Hhi Hl Hg. destruct f as [p n]. destruct l as [|b l]; simpl in *; [done|].
  destruct Hl as (Hb1&Hb2&Hb3&_). pose proof (MIN_pos a). pose proof Hr as (?&?&?).
  destruct (Z.eqb_spec g 0), (Z.eqb_spec (mb_addr b) (p + n)); try lia; [|done].
  rewrite (region_wrap lo hi) by (done || lia). done.
Qed.

(** [free_scan] followed by the final splice is [insert_free]. *)
Lemma free_scan_insert lo hi p n g l :
  region_ok a lo hi -> lo <= p -> 0 < n -> p + n <= hi -> g < 0 ->
  blocks_from a lo hi l -> disjoint_blocks p n l ->
  exists pfx f g' sfx,
    free_scan a n (MB p n) g l = Some (pfx, f, g', sfx)
    /\ splice pfx f g' sfx = insert_free p n l.
Proof.
  intros Hr Hlo Hn Hhi.
  enough (Hgen : forall l lo', lo <= lo' -> blocks_from a lo' hi l -> disjoint_blocks p n l ->
    forall g, g < 0 -> exists pfx f g' sfx,
    free_scan a n (MB p n) g l = Some (pfx, f, g', sfx)
    /\ splice pfx f g' sfx = insert_free p n l).
  { intros Hg Hb Hd. apply (Hgen l lo); done || lia. }
  clear l g. induction l as [|b l IH]; intros lo' Hlo' Hb Hd g1 Hg1.
  { exists [], (MB p n), g1, []. done. }
  pose proof (MIN_pos a). inversion Hd as [|? ? Hd1 Hd2]; subst.
  pose proof Hb as (Hb1&Hb2&Hb3&Hb4). cbn [free_scan insert_free]. fold w.
  rewrite !(gap_exact lo hi) by (done || (simpl; lia)). cbn [mb_addr mb_size].
  destruct (Z.ltb_spec (mb_addr b + mb_size b) p) as [Hlt|Hge].
  - destruct (Z.eqb_spec (p - (mb_addr b + mb_size b)) 0); [lia|].
    destruct (Z.leb_spec 0 (mb_addr b - (p + n))); [lia|].
    destruct (IH (mb_addr b + mb_size b + 1) ltac:(lia) Hb4 Hd2
                (mb_addr b - (p + n)) ltac:(lia)) as (pfx&f&g'&sfx&E1&E2).
    rewrite E1. exists (b :: pfx), f, g', sfx. split; [done|].
    rewrite <- E2. unfold splice. destruct sfx; [done|]. by case_if.
  - destruct (Z.eqb_spec (mb_addr b + mb_size b) p) as [He|Hne].
    + destruct (Z.eqb_spec (p - (mb_addr b + mb_size b)) 0); [|lia].
      destruct (Z.leb_spec 0 (mb_addr b - (p + n))); [lia|].
      rewrite (region_wrap lo hi) by (done || (destruct Hr as (?&?&?); lia)).
      assert (Hafter : blocks_from a (mb_addr b + (mb_size b + n)) hi l).
      { destruct l as [|c l]; [done|]. inversion Hd2; subst. destruct Hb4 as (?&?&?&?).
        cbn [blocks_from]. repeat split; try lia. done. }
      destruct (free_scan_front lo hi n (MB (mb_addr b) (mb_size b + n))
                  (mb_addr b - (p + n)) l) as (g'&E1&E2); simpl; try done; try lia.
      rewrite E1. exists [], (MB (mb_addr b) (mb_size b + n)), g', l. split; [done|].
      apply (splice_front lo hi); simpl; try done; lia.
    + destruct (Z.eqb_spec (p - (mb_addr b + mb_size b)) 0); [lia|].
      destruct (Z.leb_spec 0 (mb_addr b - (p + n))); [|lia].
      exists [], (MB p n), (mb_addr b - (p + n)), (b :: l). split; [done|].
      apply (splice_front lo hi); cbn [mb_addr mb_size]; try done.
      cbn [blocks_from]. repeat split; try lia. done.
Qed.

Lemma free_memblock_splice p size h lo hi :
  region_ok a lo hi -> lo <= p -> 0 < round_size a size -> p + round_size a size <= hi ->
  blocks_from a lo hi (free_blocks h) -> disjoint_blocks p (round_size a size) (free_blocks h) ->
  free_memblock a p size h =
    Some (Heap (insert_free p (round_size a size) (free_blocks h))
               (uwrap w (freemem h + round_size a size))
               (uwrap w (usedmem h - round_size a size)) (maxusedmem h)).
Proof.
  intros Hr Hp Hn Hhi Hb Hd. unfold free_memblock, NULL.
  destruct (Z.eqb_spec p 0); [destruct Hr as (?&?&?); lia|].
  destruct (free_scan_insert lo hi p (round_size a size) (-1) (free_blocks h))
    as (pfx&f&g&sfx&E1&E2); try done.
  rewrite E1. do 2 f_equal. rewrite <- E2. unfold splice. destruct sfx; [done|].
  by case_if.
Qed.

(** What the search of [alloc_memblock] does to the free list: it splits
    the first block that is large enough once the leading padding needed
    for the alignment is skipped, keeping the two ends that are not too
    small. *)
Definition remainder (addr size : Z) : list memory_block :=
  if size <? MIN then [] else [MB addr size].

Definition padding (offset k addr : Z) : Z :=
  (offset - virt_to_phys a virt_offset addr) mod 2 ^ k.

Definition fits (actual offset k : Z) (b : memory_block) : Prop :=
  padding offset k (mb_addr b) + actual <= mb_size b.

Lemma padding_range offset k addr : 0 <= k -> 0 <= padding offset k addr < 2 ^ k.
Proof. intros. apply Z.mod_pos_bound, pow2_pos. lia. Qed.

(** The masked subtraction of the source is reduction modulo the alignment. *)
Lemma pre_size_padding offset k addr :
  0 <= k <= w ->
  Z.land (uwrap w (offset - virt_to_phys a virt_offset addr)) (2 ^ k - 1) = padding offset k addr.
Proof.
  intros Hk. rewrite land_ones_mod by lia. unfold padding, uwrap.
  by apply mod_mod_pow2.
Qed.

(** Skipping the padding puts the physical address at the offset. *)
Lemma padding_aligned offset k addr :
  0 <= k <= w ->
  (virt_to_phys a virt_offset (addr + padding offset k addr) - offset) mod 2 ^ k = 0.
Proof.
  intros Hk. unfold padding, virt_to_phys, uwrap. fold w.
  assert (He : 2 ^ w = 2 ^ k * 2 ^ (w - k)) by (rewrite <- Z.pow_add_r by lia; f_equal; lia).
  pose proof (pow2_pos k ltac:(lia)). pose proof (pow2_pos (w - k) ltac:(lia)).
  set (V := (addr + virt_offset) mod 2 ^ w). set (P := (offset - V) mod 2 ^ k).
  pose proof (Z.div_mod (addr + virt_offset) (2 ^ w) ltac:(lia)) as H1. fold V in H1.
  pose proof (Z.div_mod (offset - V) (2 ^ k) ltac:(lia)) as H2. fold P in H2.
  pose proof (Z.div_mod (addr + P + virt_offset) (2 ^ w) ltac:(lia)) as H3.
  apply Z.mod_divide; [lia|].
  exists (2 ^ (w - k) * ((addr + virt_offset) / 2 ^ w) - (offset - V) / 2 ^ k
          - 2 ^ (w - k) * ((addr + P + virt_offset) / 2 ^ w)).
  rewrite He in *. lia.
Qed.

Lemma alloc_scan_split lo hi actual k offset l :
  region_ok a lo hi -> 0 < actual -> 0 <= k <= w -> blocks_from a lo hi l ->
  match alloc_scan a virt_offset actual (2 ^ k - 1) offset l with
  | None => Forall (fun b => ~ fits actual offset k b) l
  | Some (l', ptr) =>
      exists pfx pre rest q,
        l = pfx ++ pre :: rest /\ Forall (fun b => ~ fits actual offset k b) pfx
        /\ mb_size pre = padding offset k (mb_addr pre) + actual + q /\ 0 <= q
        /\ ptr = mb_addr pre + padding offset k (mb_addr pre)
        /\ l' = pfx ++ remainder (mb_addr pre) (padding offset k (mb_addr pre))
                    ++ remainder (ptr + actual) q ++ rest
  end.
Proof.
  intros Hr Hact Hk. revert lo Hr. induction l as [|b l IH]; intros lo Hr Hb; cbn [alloc_scan].
  { constructor. }
  fold w MIN. rewrite pre_size_padding by done. set (P := padding offset k (mb_addr b)).
  pose proof (padding_range offset k (mb_addr b) ltac:(lia)) as HP. fold P in HP.
  destruct Hb as (Hb1&Hb2&Hb3&Hb4). pose proof (MIN_pos a).
  destruct (Z.ltb_spec (mb_size b) P) as [Hs|Hs]; [|rewrite (region_wrap lo hi) by (done || (destruct Hr as (?&?&?); lia));
    destruct (Z.ltb_spec (mb_size b - P) actual) as [Hs'|Hs']]; cbn [orb].
  1,2: assert (Hnf : ~ fits actual offset k b) by (unfold fits; fold P; lia).
  1,2: assert (Hr' : region_ok a (mb_addr b + mb_size b) hi) by (destruct Hr as (?&?&?); unfold region_ok; lia).
  1,2: specialize (IH _ Hr' (blocks_from_weaken a (mb_addr b + mb_size b + 1) (mb_addr b + mb_size b) hi l ltac:(lia) Hb4));
       destruct (alloc_scan a virt_offset actual (2 ^ k - 1) offset l) as [[l' ptr]|];
       [ destruct IH as (pfx&pre&rest&q&E1&E2&E3&E4&E5&E6);
         exists (b :: pfx), pre, rest, q; subst l l' ptr; repeat split; try done; by constructor
       | by constructor ].
  rewrite !(region_wrap lo hi) by (done || (destruct Hr as (?&?&?); lia)).
  exists [], b, l, (mb_size b - P - actual). fold P. repeat split; try lia; [by constructor|].
  unfold remainder. cbn [app]. fold MIN.
  destruct (Z.ltb_spec P MIN), (Z.ltb_spec (mb_size b - P - actual) MIN),
    (Z.leb_spec MIN (mb_size b - P - actual)); try lia; reflexivity.
Qed.
End Refine.

(** ** The allocator as a transition system

    The state is the heap and the list of live (allocated, not yet freed)
    blocks.  A step takes a block from the free list, as one pass of the loop
    of [alloc_memblock] does, or returns a live block with [free_memblock]. *)

Definition take_block (a : arch) (h : heap) (blocks : list memory_block) (actual : Z) : heap :=
  let used := uwrap (size_bits a) (usedmem h + actual) in
  Heap blocks (uwrap (size_bits a) (freemem h - actual)) used
       (if maxusedmem h <? used then used else maxusedmem h).

Inductive heap_step (a : arch) (virt_offset : Z)
  : heap * list memory_block -> heap * list memory_block -> Prop :=
| step_take h live k offset size blocks ptr :
    0 < round_size a size -> memblock_exp a <= k <= size_bits a ->
    alloc_scan a virt_offset (round_size a size) (2 ^ k - 1) offset (free_blocks h)
      = Some (blocks, ptr) ->
    heap_step a virt_offset (h, live)
      (take_block a h blocks (round_size a size), MB ptr (round_size a size) :: live)
| step_release h live b live' size h' :
    live ≡ₚ b :: live' -> round_size a size = mb_size b ->
    free_memblock a (mb_addr b) size h = Some h' ->
    heap_step a virt_offset (h, live) (h', live').

Fixpoint blocks_apart (l : list memory_block) : Prop :=
  match l with
  | [] => True
  | b :: l' => disjoint_blocks (mb_addr b) (mb_size b) l' /\ blocks_apart l'
  end.

(** The invariant: the free list is well formed, the live blocks lie in the
    pool, apart from each other and from every free block, and the counters
    account for all of the pool. *)
Record heap_inv (a : arch) (lo hi pool : Z) (h : heap) (live : list memory_block) : Prop := {
  inv_free : blocks_from a lo hi (free_blocks h);
  inv_live : Forall (fun b => lo <= mb_addr b /\ MIN_MEMBLOCK_SIZE a <= mb_size b
                              /\ mb_addr b + mb_size b <= hi
                              /\ disjoint_blocks (mb_addr b) (mb_size b) (free_blocks h)) live;
  inv_apart : blocks_apart live;
  inv_used : usedmem h = total_size live;
  inv_pool : freemem h + usedmem h = pool;
  inv_room : total_size (free_blocks h) <= freemem h;
  inv_max : usedmem h <= maxusedmem h
}.

Lemma blocks_apart_perm l l' : l ≡ₚ l' -> blocks_apart l -> blocks_apart l'.
Proof.
  induction 1 as [|b l l' Hp IH|b c l|l l' l'' H1 IH1 H2 IH2]; simpl; try tauto.
  - intros [Hd Ha]. split; [|auto]. unfold disjoint_blocks in *. by rewrite <- Hp.
  - unfold disjoint_blocks. rewrite !Forall_cons_iff. intuition lia.
Qed.

Lemma total_size_perm l l' : l ≡ₚ l' -> total_size l = total_size l'.
Proof. induction 1; simpl; lia. Qed.

#[export] Instance heap_inv_proper a lo hi pool h :
  Proper ((≡ₚ) ==> iff) (heap_inv a lo hi pool h).
Proof.
  intros l l' Hp.
  split; intros []; constructor; try done.
  - by rewrite <- Hp.
  - by apply (blocks_apart_perm l).
  - by rewrite <- (total_size_perm l l').
  - by rewrite Hp.
  - apply (blocks_apart_perm l'); [by symmetry|done].
  - by rewrite (total_size_perm l l').
Qed.

Section Invariant.
Context (a : arch) (virt_offset : Z) (lo hi pool : Z).
Hypothesis Hregion : region_ok a lo hi.
Hypothesis Hpool : pool < 2 ^ size_bits a.
Let MIN := MIN_MEMBLOCK_SIZE a.

Lemma remainder_spec addr size x :
  0 <= size -> free_at (remainder a addr size) x -> addr <= x < addr + size.
Proof.
  unfold remainder. case_if; intros Hs Hx; [inversion Hx|].
  apply free_at_cons in Hx as [?|Hx]; [done|inversion Hx].
Qed.

Lemma remainder_wf l addr size hi' :
  0 <= size -> hi' <= addr -> addr + size <= hi -> blocks_from a (addr + size + 1) hi l ->
  blocks_from a hi' hi (remainder a addr size ++ l).
Proof.
  intros. unfold remainder. case_if; simpl.
  - eapply blocks_from_weaken; [|done]. lia.
  - done.
Qed.

Lemma remainder_total addr size : 0 <= size -> 0 <= total_size (remainder a addr size) <= size.
Proof. intros. unfold remainder. case_if; simpl; lia. Qed.

Lemma disjoint_remainder p n addr size :
  0 <= size -> p + n <= addr \/ addr + size <= p -> disjoint_blocks p n (remainder a addr size).
Proof. intros. unfold remainder. case_if; [constructor|]. constructor; [simpl; lia|constructor]. Qed.

Lemma disjoint_blocks_app p n l1 l2 :
  disjoint_blocks p n (l1 ++ l2) <-> disjoint_blocks p n l1 /\ disjoint_blocks p n l2.
Proof. apply Forall_app. Qed.

Lemma blocks_from_disjoint_tail lo' b l p n :
  blocks_from a lo' hi (b :: l) -> p + n <= mb_addr b + mb_size b -> disjoint_blocks p n l.
Proof.
  intros Hb Hp. destruct Hb as (_&_&_&Hb). 
  remember (mb_addr b + mb_size b + 1) as e. assert (He : p + n <= e) by lia. clear Heqe Hp b.
  revert e Hb He. induction l as [|c l IH]; intros e Hb He; [constructor|].
  destruct Hb as (H1&H2&H3&H4). pose proof (MIN_pos a). constructor; [lia|].
  apply (IH _ H4). lia.
Qed.

(** Splitting a block of a well-formed list keeps it well formed. *)
Lemma split_blocks_wf lo' pfx pre rest p actual q :
  blocks_from a lo' hi (pfx ++ pre :: rest) -> mb_size pre = p + actual + q ->
  0 <= p -> 0 <= q -> 0 < actual ->
  blocks_from a lo' hi (pfx ++ remainder a (mb_addr pre) p
                           ++ remainder a (mb_addr pre + p + actual) q ++ rest).
Proof.
  intros Hb Hs Hp Hq Hact. revert lo' Hb. induction pfx as [|b pfx IH]; intros lo' Hb.
  - destruct Hb as (H1&H2&H3&H4). simpl. apply remainder_wf; try lia.
    apply remainder_wf; try lia. eapply blocks_from_weaken; [|done]. lia.
  - destruct Hb as (H1&H2&H3&H4). simpl. repeat split; try done. by apply IH.
Qed.

Lemma inv_take h live k offset size blocks ptr :
  heap_inv a lo hi pool h live -> 0 < round_size a size -> memblock_exp a <= k <= size_bits a ->
  alloc_scan a virt_offset (round_size a size) (2 ^ k - 1) offset (free_blocks h)
    = Some (blocks, ptr) ->
  heap_inv a lo hi pool (take_block a h blocks (round_size a size))
    (MB ptr (round_size a size) :: live).
Proof.
  intros [If Il Ia Iu Ip Ir Im] Hn Hk Hscan. set (n := round_size a size) in *.
  pose proof (alloc_scan_split a virt_offset lo hi n k offset (free_blocks h) Hregion Hn) as Hs.
  rewrite Hscan in Hs. pose proof (memblock_exp_range a).
  destruct Hs as (pfx&pre&rest&q&E1&_&E3&E4&E5&E6); [lia|done|]. rewrite E1 in *.
  pose proof (padding_range a virt_offset offset k (mb_addr pre) ltac:(lia)) as HP.
  set (P := padding a virt_offset offset k (mb_addr pre)) in *. subst ptr blocks.
  pose proof (proj1 (blocks_from_app a _ _ _ _ _) If) as (Hpfx&Hpre&Hbefore).
  pose proof Hpre as (Hp1&Hp2&Hp3&Hp4). pose proof (MIN_pos a).
  assert (Hsub : forall p m, disjoint_blocks p m (pfx ++ pre :: rest) -> 0 < m ->
    disjoint_blocks p m (pfx ++ remainder a (mb_addr pre) P
      ++ remainder a (mb_addr pre + P + n) q ++ rest)).
  { intros p m Hd Hm. unfold disjoint_blocks in Hd.
    rewrite Forall_app, Forall_cons_iff in Hd. destruct Hd as (Hd1&Hd2&Hd3).
    rewrite !disjoint_blocks_app. repeat split; try done; apply disjoint_remainder; lia. }
  assert (Htot : 0 <= n <= freemem h).
  { rewrite total_size_app in Ir. simpl in Ir. pose proof (total_size_nonneg a _ _ _ Hpfx).
    pose proof (total_size_nonneg a _ _ _ Hp4). lia. }
  assert (Hu : 0 <= usedmem h).
  { rewrite Iu. apply total_size_Forall. eapply Forall_impl; [exact Il|]. simpl. lia. }
  constructor; cbn [free_blocks usedmem freemem maxusedmem take_block].
  - apply split_blocks_wf; done || lia.
  - apply Forall_cons_iff. split.
    + cbn [mb_addr mb_size]. repeat split; try lia.
      { by apply round_size_min. }
      rewrite !disjoint_blocks_app. repeat split.
      * eapply Forall_impl; [exact Hbefore|]. simpl. lia.
      * apply disjoint_remainder; lia.
      * apply disjoint_remainder; lia.
      * eapply (blocks_from_disjoint_tail _ pre rest); [done|]. lia.
    + eapply Forall_impl; [exact Il|]. simpl. intros b (?&?&?&?). repeat split; try done.
      apply Hsub; [done|lia].
  - split; [|done]. eapply Forall_impl; [exact Il|]. simpl. intros b (_&?&_&Hd).
    unfold disjoint_blocks in Hd. rewrite Forall_app, Forall_cons_iff in Hd. lia.
  - rewrite uwrap_small by lia. simpl. lia.
  - rewrite !uwrap_small by lia. lia.
  - rewrite uwrap_small by lia. rewrite !total_size_app in *. cbn [total_size] in Ir.
    pose proof (remainder_total (mb_addr pre) P). 
    pose proof (remainder_total (mb_addr pre + P + n) q). lia.
  - rewrite uwrap_small by lia. case_if; lia.
Qed.
Lemma blocks_from_sizes lo' l : blocks_from a lo' hi l -> Forall (fun b => 0 < mb_size b) l.
Proof.
  revert lo'. induction l as [|b l IH]; intros lo' Hb; constructor;
    destruct Hb as (?&?&?&?); [pose proof (MIN_pos a); lia|eauto].
Qed.

Lemma disjoint_insert_free p n q m l :
  MIN <= n -> 0 < m -> lo <= p -> p + n <= hi -> blocks_from a lo hi l ->
  disjoint_blocks p n l -> disjoint_blocks q m l -> disjoint_blocks q m [MB p n] ->
  disjoint_blocks q m (insert_free p n l).
Proof.
  intros Hn Hm Hlo Hhi Hb Hd Hq Hp. pose proof (MIN_pos a).
  assert (Hins := insert_free_wf a p n lo hi l Hn Hlo Hhi Hb Hd).
  apply disjoint_free_at; [done|by eapply blocks_from_sizes|].
  intros x Hx. rewrite insert_free_free_at by (done || lia). intros [?|Hf].
  - inversion Hp; subst. simpl in *. lia.
  - by apply (proj1 (disjoint_free_at q m l Hm (blocks_from_sizes _ _ Hb)) Hq x).
Qed.

(** Freeing a live block never fails and re-establishes the invariant. *)
Lemma inv_release h b live size :
  heap_inv a lo hi pool h (b :: live) -> round_size a size = mb_size b ->
  exists h', free_memblock a (mb_addr b) size h = Some h'
    /\ free_blocks h' = insert_free (mb_addr b) (mb_size b) (free_blocks h)
    /\ heap_inv a lo hi pool h' live.
Proof.
  intros [If Il Ia Iu Ip Ir Im] Hsize. apply Forall_cons_iff in Il as [(Hb1&Hb2&Hb3&Hb4) Il].
  destruct Ia as [Ia1 Ia2]. pose proof (MIN_pos a). cbn [total_size] in Iu.
  assert (Hlive : 0 <= total_size live).
  { apply total_size_Forall. eapply Forall_impl; [exact Il|]. simpl. lia. }
  pose proof (total_size_nonneg a _ _ _ If).
  eexists. split; [apply (free_memblock_splice a (mb_addr b) size h lo hi); rewrite ?Hsize; done || lia|].
  rewrite Hsize. split; [done|].
  constructor; cbn [free_blocks usedmem freemem maxusedmem].
  - by apply insert_free_wf.
  - unfold disjoint_blocks in Ia1. rewrite Forall_forall in Il, Ia1 |- *. intros c Hc. destruct (Il c Hc) as (Hc1&Hc2&Hc3&Hc4).
    repeat split; try done. apply disjoint_insert_free; try done; [lia|].
    constructor; [|constructor]. specialize (Ia1 c Hc). simpl. lia.
  - done.
  - rewrite uwrap_small by lia. lia.
  - rewrite !uwrap_small by lia. lia.
  - rewrite insert_free_total, uwrap_small by lia. lia.
  - rewrite uwrap_small by lia. lia.
Qed.

Lemma inv_step s s' :
  heap_step a virt_offset s s' -> heap_inv a lo hi pool s.1 s.2 -> heap_inv a lo hi pool s'.1 s'.2.
Proof.
  intros [h live k offset size blocks ptr|h live b live' size h' Hp Hsize Hfree] Hinv; simpl in *.
  - by eapply inv_take.
  - rewrite Hp in Hinv. destruct (inv_release h b live' size) as (h2&E&_&Hi); try done.
    congruence.
Qed.

Lemma inv_steps s s' :
  rtc (heap_step a virt_offset) s s' ->
  heap_inv a lo hi pool s.1 s.2 -> heap_inv a lo hi pool s'.1 s'.2.
Proof. induction 1; eauto using inv_step. Qed.

(** The assertions of [check_blocks] are a consequence of the invariant. *)
Lemma check_blocks_from_ok prev lo' l :
  lo <= lo' -> blocks_from a lo' hi l ->
  (match prev with Some p => lo <= mb_addr p /\ 0 < mb_size p /\ mb_addr p + mb_size p < lo' | None => True end) ->
  check_blocks_from a prev l = true.
Proof.
  revert prev lo'. induction l as [|b l IH]; intros prev lo' Hlo' Hb Hp; [done|].
  destruct Hb as (Hb1&Hb2&Hb3&Hb4). pose proof (MIN_pos a). pose proof (sizeof_le_MIN a).
  destruct Hregion as (Hr1&Hr2&Hr3).
  cbn [check_blocks_from]. rewrite (IH (Some b) (mb_addr b + mb_size b + 1)) by (done || lia).
  rewrite !uwrap_small by lia. rewrite !andb_true_iff, !Z.leb_le, Z.ltb_lt.
  repeat split; try lia. destruct prev as [p|]; [|done]. rewrite andb_true_iff, !Z.ltb_lt.
  rewrite uwrap_small by lia. lia.
Qed.

Lemma check_blocks_ok h live : heap_inv a lo hi pool h live -> check_blocks a h = true.
Proof. intros []. by apply (check_blocks_from_ok None lo). Qed.
End Invariant.

#[export] Hint Resolve inv_step inv_steps check_blocks_ok : ipxe.

(** ** Correctness of the allocator *)

(** What the allocator relies on from a cache discarder: of the live blocks it
    releases some of those the caches own and leaves every other one alone,
    there is less in the caches when it reports a discarded item, and nothing
    has happened when it reports none. *)
Definition discarder_ok (a : arch) (virt_offset lo hi pool : Z) {cache : Type}
  (owned : cache -> list memory_block) (d : cache -> heap -> cache * heap * Z) : Prop :=
  forall c h other, heap_inv a lo hi pool h (owned c ++ other) ->
    let '(c', h', discarded) := d c h in
    rtc (heap_step a virt_offset) (h, owned c ++ other) (h', owned c' ++ other)
    /\ owned c' ⊆+ owned c
    /\ (discarded <> 0 -> (length (owned c') < length (owned c))%nat)
    /\ (discarded = 0 -> c' = c /\ h' = h).

(** The block an allocation returned, if it returned one. *)
Definition new_block (ptr actual : Z) : list memory_block :=
  if ptr =? NULL then [] else [MB ptr actual].

Section Correct.
Context (a : arch) (virt_offset : Z).
Context {cache : Type} (owned : cache -> list memory_block).
Context (CACHE_DISCARDERS : list (cache -> heap -> cache * heap * Z)).
Context (lo hi pool : Z).
Hypothesis Hregion : region_ok a lo hi.
Hypothesis Hpool : pool < 2 ^ size_bits a.
Hypothesis Hdiscarders : Forall (discarder_ok a virt_offset lo hi pool owned) CACHE_DISCARDERS.
Let w := size_bits a.

(** Going through the table is a discarder itself. *)
Lemma discard_cache_ok : discarder_ok a virt_offset lo hi pool owned (discard_cache CACHE_DISCARDERS).
Proof.
  unfold discard_cache. induction Hdiscarders as [|d ds Hd _ IH]; intros c h other Hinv; simpl.
  - repeat split; try done.
  - specialize (Hd c h other Hinv). destruct (d c h) as [[c1 h1] n].
    destruct (Z.eqb_spec n 0) as [->|Hn]; [|done].
    destruct Hd as (_&_&_&[-> ->]); [done|]. apply IH; [by apply Forall_inv_tail in Hdiscarders|done].
Qed.

(** What a run of the loop of [alloc_memblock] comes to: a block that was
    aligned as requested, or [NULL] when no free block has room and there is
    nothing left to discard. *)
Definition alloc_outcome (actual k offset : Z) (c : cache) (h : heap) (ptr : Z) : Prop :=
  if ptr =? NULL
  then Forall (fun b => ~ fits a virt_offset actual offset k b) (free_blocks h)
       /\ discard_cache CACHE_DISCARDERS c h = (c, h, 0)
  else (virt_to_phys a virt_offset ptr - offset) mod 2 ^ k = 0.

Lemma alloc_loop_steps fuel c h other size k offset :
  0 < round_size a size -> memblock_exp a <= k <= w ->
  heap_inv a lo hi pool h (owned c ++ other) -> (length (owned c) < fuel)%nat ->
  exists c' h' ptr,
    alloc_loop a virt_offset CACHE_DISCARDERS fuel (round_size a size) (2 ^ k - 1) offset c h
      = Some (c', h', ptr)
    /\ owned c' ⊆+ owned c /\ alloc_outcome (round_size a size) k offset c' h' ptr
    /\ rtc (heap_step a virt_offset) (h, owned c ++ other)
         (h', new_block ptr (round_size a size) ++ owned c' ++ other).
Proof.
  intros Hn Hk. revert c h. induction fuel as [|fuel IH]; intros c h Hinv Hf; [lia|].
  cbn [alloc_loop]. pose proof (memblock_exp_range a).
  pose proof (alloc_scan_split a virt_offset lo hi (round_size a size) k offset (free_blocks h)
                Hregion Hn ltac:(lia) (inv_free _ _ _ _ _ _ Hinv)) as Hs.
  destruct (alloc_scan _ _ _ _ _ _) as [[blocks p]|] eqn:Hscan.
  - pose proof (inv_take a virt_offset lo hi pool Hregion Hpool h _ k offset size blocks p
                  Hinv Hn Hk Hscan) as [_ Hl _ _ _ _ _].
    apply Forall_cons_iff in Hl as [(Hp&_) _]. simpl in Hp. destruct Hregion as (?&_).
    assert (Hp0 : p =? NULL = false) by (apply Z.eqb_neq; unfold NULL; lia).
    eexists c, _, p. unfold alloc_outcome, new_block. rewrite Hp0. repeat split; try done.
    + destruct Hs as (pfx&pre&rest&q&_&_&_&_&->&_). apply padding_aligned; lia.
    + apply rtc_once. by eapply step_take.
  - pose proof (discard_cache_ok c h other Hinv) as Hd.
    destruct (discard_cache CACHE_DISCARDERS c h) as [[c1 h1] n] eqn:Ed.
    destruct Hd as (Hs1&Hsub1&Hlt&Hz). destruct (Z.eqb_spec n 0) as [->|Hne].
    + destruct Hz as [-> ->]; [done|]. exists c, h, NULL. repeat split; done.
    + specialize (Hlt Hne).
      pose proof (inv_steps a virt_offset lo hi pool Hregion Hpool _ _ Hs1 Hinv) as Hinv1.
      destruct (IH c1 h1 Hinv1 ltac:(lia)) as (c2&h2&p&E&Hsub2&Ho&Hs2).
      exists c2, h2, p. repeat split; try done; by etrans.
Qed.

(** Discarding everything ends too, with nothing left to discard. *)
Lemma discard_all_cache_steps fuel c h other :
  heap_inv a lo hi pool h (owned c ++ other) -> (length (owned c) < fuel)%nat ->
  exists c' h', discard_all_cache CACHE_DISCARDERS fuel c h = Some (c', h')
    /\ owned c' ⊆+ owned c /\ discard_cache CACHE_DISCARDERS c' h' = (c', h', 0)
    /\ rtc (heap_step a virt_offset) (h, owned c ++ other) (h', owned c' ++ other).
Proof.
  revert c h. induction fuel as [|fuel IH]; intros c h Hinv Hf; [lia|].
  cbn [discard_all_cache]. pose proof (discard_cache_ok c h other Hinv) as Hd.
  destruct (discard_cache CACHE_DISCARDERS c h) as [[c1 h1] n] eqn:Ed.
  destruct Hd as (Hs1&Hsub1&Hlt&Hz). destruct (Z.eqb_spec n 0) as [->|Hne].
  - destruct Hz as [-> ->]; [done|]. exists c, h. repeat split; done.
  - specialize (Hlt Hne).
    pose proof (inv_steps a virt_offset lo hi pool Hregion Hpool _ _ Hs1 Hinv) as Hinv1.
    destruct (IH c1 h1 Hinv1 ltac:(lia)) as (c2&h2&E&Hsub2&Ho&Hs2).
    exists c2, h2. repeat split; try done; by etrans.
Qed.
End Correct.

(** The alignment mask of the source for a power-of-two alignment. *)
Lemma align_mask_pow2 a j :
  0 <= j < size_bits a ->
  Z.lor (uwrap (size_bits a) (2 ^ j - 1)) (MIN_MEMBLOCK_SIZE a - 1) = 2 ^ Z.max j (memblock_exp a) - 1.
Proof.
  intros Hj. pose proof (memblock_exp_range a). pose proof (pow2_pos j ltac:(lia)).
  rewrite uwrap_small, MIN_pow2.
  - apply lor_ones_max; lia.
  - pose proof (Z.pow_lt_mono_r 2 j (size_bits a) ltac:(lia) ltac:(lia)). lia.
Qed.

(** A region of the pool has the shape [init_heap] needs. *)
Lemma init_heap_inv a base h :
  region_ok a base (base + HEAP_SIZE) -> init_heap a base = Some h ->
  heap_inv a base (base + HEAP_SIZE) HEAP_SIZE h [].
Proof.
  intros Hr. pose proof Hr as (Hr1&Hr2&Hr3). pose proof (MIN_pos a).
  unfold init_heap, mpopulate, free_memblock.
  assert (Hlen : Z.land HEAP_SIZE (uwrap (size_bits a) (Z.lnot (MIN_MEMBLOCK_SIZE a - 1))) = HEAP_SIZE)
    by (destruct a; reflexivity).
  assert (Hround : round_size a HEAP_SIZE = HEAP_SIZE) by (destruct a; reflexivity).
  rewrite Hlen, Hround. unfold NULL. destruct (Z.eqb_spec base 0); [lia|].
  cbn [free_blocks free_scan app]. intros [= <-].
  assert (MIN_MEMBLOCK_SIZE a <= HEAP_SIZE < 2 ^ size_bits a) by (destruct a; split; vm_compute; done).
  constructor; cbn [free_blocks usedmem freemem maxusedmem blocks_from total_size blocks_apart mb_addr mb_size app];
    rewrite ?(uwrap_small _ (0 + HEAP_SIZE)) by lia; try lia; try done.
  all: destruct a; vm_compute; done.
Qed.

(** ** Histories

    The states a heap has gone through, the last one first. *)
Inductive heap_history (a : arch) (virt_offset : Z) (s0 : heap * list memory_block)
  : list (heap * list memory_block) -> Prop :=
| history_start : heap_history a virt_offset s0 [s0]
| history_step s s' past :
    heap_history a virt_offset s0 (s :: past) -> heap_step a virt_offset s s' ->
    heap_history a virt_offset s0 (s' :: s :: past).

(** The largest [usedmem] of a history. *)
Definition peak_usedmem (states : list (heap * list memory_block)) : Z :=
  foldr (fun s peak => Z.max (usedmem s.1) peak) 0 states.

Lemma history_steps a virt_offset s0 s past :
  heap_history a virt_offset s0 (s :: past) -> rtc (heap_step a virt_offset) s0 s.
Proof.
  remember (s :: past) as l eqn:E. intros H. revert s past E.
  induction H as [|s1 s2 past H IH Hs]; intros s' past' E; injection E as <- <-; [apply rtc_refl|].
  eapply rtc_r; [by eapply IH|done].
Qed.

Lemma free_memblock_max a ptr size h h' :
  free_memblock a ptr size h = Some h' -> maxusedmem h' = maxusedmem h.
Proof.
  unfold free_memblock. case_if; [congruence|].
  destruct (free_scan _ _ _ _ _) as [[[[? ?] ?] ?]|]; [|done]. by intros [= <-].
Qed.

(** One step keeps [maxusedmem] the larger of its old value and [usedmem]. *)
Lemma step_max a virt_offset lo hi pool s s' :
  region_ok a lo hi -> pool < 2 ^ size_bits a ->
  heap_inv a lo hi pool s.1 s.2 -> heap_step a virt_offset s s' ->
  maxusedmem s'.1 = Z.max (usedmem s'.1) (maxusedmem s.1).
Proof.
  intros Hr Hp Hinv Hs. pose proof (inv_max _ _ _ _ _ _ (inv_step a virt_offset lo hi pool Hr Hp _ _ Hs Hinv)) as Hm.
  destruct Hs as [h live k offset size blocks ptr|h live b live' size h' _ _ Hfree]; simpl in *.
  - case_if; lia.
  - rewrite (free_memblock_max _ _ _ _ _ Hfree) in *. lia.
Qed.

(** [maxusedmem] over a whole history. *)
Lemma history_max a virt_offset base h0 states :
  region_ok a base (base + HEAP_SIZE) -> init_heap a base = Some h0 ->
  heap_history a virt_offset (h0, []) states ->
  match states with s :: _ => maxusedmem s.1 = peak_usedmem states | [] => True end.
Proof.
  intros Hr Hi Hh. assert (Hp : HEAP_SIZE < 2 ^ size_bits a) by (destruct a; reflexivity).
  pose proof (init_heap_inv a base h0 Hr Hi) as Hinv0.
  induction Hh as [|s s' past Hh IH Hs].
  - unfold init_heap, mpopulate in Hi.
    destruct (free_memblock _ _ _ _) as [h1|] eqn:E; [|done].
    apply free_memblock_max in E. injection Hi as <-. simpl in *. rewrite E.
    pose proof (inv_used _ _ _ _ _ _ Hinv0) as Hu. simpl in Hu. rewrite Hu. done.
  - rewrite (step_max a virt_offset base (base + HEAP_SIZE) HEAP_SIZE s s' Hr Hp); [|  |done].
    + cbn [peak_usedmem foldr] in *. fold (peak_usedmem (s :: past)). by rewrite IH.
    + exact (inv_steps a virt_offset _ _ _ Hr Hp _ _ (history_steps _ _ _ _ _ Hh) Hinv0).
Qed.


(** A concrete run: a 512kB heap at an address that is only pointer-aligned,
    then one allocation of 100 bytes, which leaks the 8 bytes before the first
    16-byte boundary. *)
Definition demo_base : Z := 65536 + 8.
Definition demo_heap0 : heap := Heap [MB 65544 524288] 524288 0 0.
Definition demo_heap1 : heap := Heap [MB 65664 524168] 524176 112 112.

Lemma demo_region : region_ok Arch32 demo_base (demo_base + HEAP_SIZE).
Proof. vm_compute. done. Qed.

Lemma demo_inv : heap_inv Arch32 demo_base (demo_base + HEAP_SIZE) HEAP_SIZE demo_heap0 [].
Proof. apply init_heap_inv; [exact demo_region|vm_compute; reflexivity]. Qed.

Lemma demo_step : heap_step Arch32 0 (demo_heap0, []) (demo_heap1, [MB 65552 112]).
Proof.
  assert (E : (demo_heap1, [MB 65552 112])
    = (take_block Arch32 demo_heap0 [MB 65664 524168] (round_size Arch32 100),
       [MB 65552 (round_size Arch32 100)])) by (vm_compute; reflexivity).
  rewrite E. apply (step_take Arch32 0 demo_heap0 [] 4 0); vm_compute; done.
Qed.

(** Freeing the block again leaves a heap whose peak is above its use, and a
    free list that is 8 bytes short of [freemem]. *)
Definition demo_heap2 : heap := Heap [MB 65552 524280] 524288 0 112.

Lemma demo_history :
  heap_history Arch32 0 (demo_heap0, [])
    [(demo_heap2, []); (demo_heap1, [MB 65552 112]); (demo_heap0, [])].
Proof.
  apply history_step; [apply history_step; [apply history_start|exact demo_step]|].
  apply (step_release Arch32 0 demo_heap1 _ (MB 65552 112) [] 100); vm_compute; done.
Qed.


(** C27.  Refinement: whatever the caches hold and whatever else is
    allocated, [alloc_memblock] returns, with fuel for as many rounds as there
    are blocks in the caches, and its run, every round of cache discarding
    included, is a sequence of allocator steps.  It releases only blocks of
    the caches and keeps every other live block.  Unless it returns [NULL] the
    new block is live and physically aligned as requested; it returns [NULL]
    only when the size rounds to zero or, with nothing left to discard, no
    free block has room.  The discarders are held to what [discarder_ok]
    says. *)
Theorem alloc_memblock_refines a virt_offset {cache : Type} (owned : cache -> list memory_block)
  ds lo hi pool fuel c h other size j offset :
  region_ok a lo hi -> pool < 2 ^ size_bits a ->
  Forall (discarder_ok a virt_offset lo hi pool owned) ds ->
  0 <= size < 2 ^ size_bits a -> 0 <= j < size_bits a ->
  heap_inv a lo hi pool h (owned c ++ other) -> (length (owned c) < fuel)%nat ->
  exists c' h' ptr,
    alloc_memblock a virt_offset ds fuel size (2 ^ j) offset c h = Some (c', h', ptr)
    /\ owned c' ⊆+ owned c
    /\ (let live' := new_block ptr (round_size a size) ++ owned c' ++ other in
        rtc (heap_step a virt_offset) (h, owned c ++ other) (h', live')
        /\ heap_inv a lo hi pool h' live')
    /\ (if round_size a size =? 0 then ptr = NULL
        else alloc_outcome a virt_offset ds (round_size a size) (Z.max j (memblock_exp a)) offset
               c' h' ptr).
Proof.
  intros Hr Hp Hds Hsize Hj Hinv Hf. unfold alloc_memblock.
  destruct (Z.eqb_spec (round_size a size) 0) as [|Hne].
  - exists c, h, NULL. split; [done|]. split; [done|]. split; [|done]. split; [apply rtc_refl|exact Hinv].
  - rewrite align_mask_pow2 by done. pose proof (memblock_exp_range a).
    pose proof (round_size_range a size Hsize).
    destruct (alloc_loop_steps a virt_offset owned ds lo hi pool Hr Hp Hds fuel c h other size
      (Z.max j (memblock_exp a)) offset) as (c'&h'&ptr&E&Hsub&Ho&Hs); try done; try lia.
    exists c', h', ptr. split; [done|]. split; [done|]. split; [|done]. split; [done|].
    exact (inv_steps a virt_offset lo hi pool Hr Hp _ _ Hs Hinv).
Qed.

(** A cache of items, each the pointer and the requested size of its block;
    its discarder frees the first one. *)
Definition item_blocks (a : arch) (c : list (Z * Z)) : list memory_block :=
  map (fun i => MB i.1 (round_size a i.2)) c.

Definition drop_first (a : arch) (c : list (Z * Z)) (h : heap) : list (Z * Z) * heap * Z :=
  match c with
  | [] => (c, h, 0)
  | (ptr, size) :: c' =>
      match free_memblock a ptr size h with Some h' => (c', h', 1) | None => (c, h, 0) end
  end.

Lemma drop_first_ok a virt_offset lo hi pool :
  region_ok a lo hi -> pool < 2 ^ size_bits a ->
  discarder_ok a virt_offset lo hi pool (item_blocks a) (drop_first a).
Proof.
  intros Hr Hp [|[ptr size] c] h other Hinv; simpl; [repeat split; done|].
  destruct (inv_release a lo hi pool Hr Hp h _ _ size Hinv eq_refl) as (h'&E&_).
  cbn in E. rewrite E. repeat split; try done; simpl.
  - apply rtc_once. by eapply step_release.
  - by apply submseteq_cons.
  - intros _. lia.
Qed.

(** A request that only fits once the cached block has been discarded. *)
Lemma alloc_memblock_refines_witness :
  exists h', alloc_memblock Arch32 0 [drop_first Arch32] 2 524200 (2 ^ 0) 0 [(65552, 100)] demo_heap1
      = Some ([], h', 65552)
    /\ heap_inv Arch32 demo_base (demo_base + HEAP_SIZE) HEAP_SIZE h' [MB 65552 524208].
Proof.
  destruct (alloc_memblock_refines Arch32 0 (item_blocks Arch32) [drop_first Arch32]
    demo_base (demo_base + HEAP_SIZE) HEAP_SIZE 2 [(65552, 100)] demo_heap1 [] 524200 0 0)
    as (c'&h'&ptr&E&_&[_ Hinv]&_).
  - exact demo_region.
  - reflexivity.
  - constructor; [|constructor]. apply drop_first_ok; [exact demo_region|reflexivity].
  - vm_compute. done.
  - vm_compute. done.
  - exact (inv_step Arch32 0 _ _ HEAP_SIZE demo_region eq_refl _ _ demo_step demo_inv).
  - vm_compute. lia.
  - vm_compute in E. injection E as <- <- <-. eexists. split; [vm_compute; reflexivity|].
    exact Hinv.
Defined.

(** A successful allocation that needed no discarding is one split of the
    free list. *)
Lemma alloc_memblock_scan a virt_offset size j offset h h' ptr :
  0 <= size < 2 ^ size_bits a -> 0 <= j < size_bits a ->
  alloc_memblock a virt_offset [] 1 size (2 ^ j) offset tt h = Some (tt, h', ptr) -> ptr <> NULL ->
  let k := Z.max j (memblock_exp a) in
  memblock_exp a <= k <= size_bits a /\ 0 < round_size a size
  /\ exists blocks,
       alloc_scan a virt_offset (round_size a size) (2 ^ k - 1) offset (free_blocks h)
         = Some (blocks, ptr) /\ h' = take_block a h blocks (round_size a size).
Proof.
  intros Hsize Hj Halloc Hptr k. unfold alloc_memblock in Halloc.
  destruct (Z.eqb_spec (round_size a size) 0) as [|Hne]; [congruence|].
  pose proof (round_size_range a size Hsize). pose proof (memblock_exp_range a).
  repeat split; try lia. rewrite align_mask_pow2 in Halloc by done. fold k in Halloc.
  cbn [alloc_loop] in Halloc. destruct (alloc_scan _ _ _ _ _ _) as [[bl p]|].
  - injection Halloc as <- <-. by exists bl.
  - simpl in Halloc. congruence.
Qed.

Lemma alloc_memblock_null_same a virt_offset lo hi size j offset h h' :
  region_ok a lo hi -> 0 <= size < 2 ^ size_bits a -> 0 <= j < size_bits a ->
  blocks_from a lo hi (free_blocks h) ->
  alloc_memblock a virt_offset [] 1 size (2 ^ j) offset tt h = Some (tt, h', NULL) -> h' = h.
Proof.
  intros Hr Hsize Hj Hb. unfold alloc_memblock. pose proof (round_size_range a size Hsize).
  case_if; [congruence|]. rewrite align_mask_pow2 by done. pose proof (memblock_exp_range a).
  cbn [alloc_loop].
  pose proof (alloc_scan_split a virt_offset lo hi (round_size a size) (Z.max j (memblock_exp a)) offset
    (free_blocks h) Hr ltac:(lia) ltac:(lia) Hb) as Hs.
  destruct (alloc_scan _ _ _ _ _ _) as [[bl p]|]; simpl; [|congruence]. intros [= _ Hp]. exfalso.
  destruct Hs as (pfx&pre&rest&q&E1&_&_&_&E5&_). rewrite E1 in Hb.
  apply blocks_from_app in Hb as (_&(Hlo&_)&_). unfold NULL in Hp. destruct Hr as (?&_).
  pose proof (padding_range a virt_offset offset (Z.max j (memblock_exp a)) (mb_addr pre)). lia.
Qed.

(**  A block handed out by [alloc_memblock] was free, is physically aligned
    as requested (and always to the minimum block size), and the bytes that
    leave the free list are exactly the block plus at most the two fragments,
    each smaller than a minimum block, next to it inside the block it was cut
    from. *)
Theorem alloc_memblock_block a virt_offset lo hi size j offset h h' ptr :
  region_ok a lo hi -> 0 <= size < 2 ^ size_bits a -> 0 <= j < size_bits a ->
  blocks_from a lo hi (free_blocks h) ->
  alloc_memblock a virt_offset [] 1 size (2 ^ j) offset tt h = Some (tt, h', ptr) -> ptr <> NULL ->
  (virt_to_phys a virt_offset ptr - offset) mod 2 ^ Z.max j (memblock_exp a) = 0
  /\ (forall x, ptr <= x < ptr + round_size a size -> free_at (free_blocks h) x)
  /\ (forall x, free_at (free_blocks h') x ->
        free_at (free_blocks h) x /\ ~ (ptr <= x < ptr + round_size a size))
  /\ (forall x, free_at (free_blocks h) x -> free_at (free_blocks h') x
        \/ ptr - MIN_MEMBLOCK_SIZE a < x < ptr + round_size a size + MIN_MEMBLOCK_SIZE a).
Proof.
  intros Hr Hsize Hj Hb Halloc Hptr.
  destruct (alloc_memblock_scan a virt_offset size j offset h h' ptr)
    as (Hk&Hn&bl&Hscan&->); try done.
  set (k := Z.max j (memblock_exp a)) in *. set (n := round_size a size) in *.
  pose proof (memblock_exp_range a). cbn [free_blocks take_block].
  pose proof (alloc_scan_split a virt_offset lo hi n k offset (free_blocks h) Hr Hn ltac:(lia) Hb) as Hs.
  rewrite Hscan in Hs. clear Hscan Halloc.
  destruct Hs as (pfx&pre&rest&q&E1&_&E3&E4&E5&E6). rewrite E1 in *.
  pose proof (padding_range a virt_offset offset k (mb_addr pre) ltac:(lia)) as HP.
  set (P := padding a virt_offset offset k (mb_addr pre)) in *. subst ptr bl.
  pose proof (proj1 (blocks_from_app a _ _ _ _ _) Hb) as (Hpfx&Hpre&Hbefore).
  assert (Hout : forall x, free_at pfx x -> x < mb_addr pre).
  { intros x Hx. apply Exists_exists in Hx as (b&Hin&Hx). rewrite Forall_forall in Hbefore.
    specialize (Hbefore b Hin). lia. }
  assert (Hrest : forall x, free_at rest x -> mb_addr pre + mb_size pre < x).
  { intros x Hx. destruct Hpre as (_&_&_&Hpre). pose proof (blocks_from_free_at a _ _ _ _ Hpre Hx). lia. }
  split; [|split; [|split]]; [apply padding_aligned; lia|intros x..].
  - intros Hx. rewrite free_at_app, free_at_cons. lia.
  - rewrite !free_at_app, free_at_cons. intros [Hx|[Hx|[Hx|Hx]]].
    + split; [by left|]. apply Hout in Hx. lia.
    + apply remainder_spec in Hx; [|lia]. split; [lia|lia].
    + apply remainder_spec in Hx; [|lia]. split; [lia|lia].
    + split; [by right; right|]. apply Hrest in Hx. lia.
  - rewrite !free_at_app, free_at_cons. unfold remainder.
    intros [Hx|[Hx|Hx]]; [by left; left| |by left; right; right; right].
    destruct (Z_lt_ge_dec x (mb_addr pre + P)); [|destruct (Z_lt_ge_dec x (mb_addr pre + P + n))].
    + destruct (Z.ltb_spec P (MIN_MEMBLOCK_SIZE a)); [right; lia|].
      left. right. left. apply free_at_cons. left. simpl. lia.
    + pose proof (MIN_pos a). right. lia.
    + destruct (Z.ltb_spec q (MIN_MEMBLOCK_SIZE a)); [right; lia|].
      left. right. right. left. apply free_at_cons. left. simpl. lia.
Qed.

Lemma alloc_memblock_block_witness :
  (virt_to_phys Arch32 0 65552 - 0) mod 2 ^ Z.max 0 (memblock_exp Arch32) = 0.
Proof.
  apply (alloc_memblock_block Arch32 0 demo_base (demo_base + HEAP_SIZE) 100 0 0
           demo_heap0 demo_heap1 65552).
  - exact demo_region.
  - vm_compute. done.
  - vm_compute. done.
  - exact (inv_free _ _ _ _ _ _ demo_inv).
  - vm_compute. reflexivity.
  - discriminate.
Defined.

(**  With no cache to discard, [alloc_memblock] returns [NULL] and leaves
    the heap as it was exactly when the size rounds to zero (zero, or the
    rounding overflows [size_t]) or no free block can hold the rounded size
    after the padding its alignment needs. *)
Theorem alloc_memblock_null a virt_offset lo hi size j offset h :
  region_ok a lo hi -> 0 <= size < 2 ^ size_bits a -> 0 <= j < size_bits a ->
  blocks_from a lo hi (free_blocks h) ->
  let k := Z.max j (memblock_exp a) in
  alloc_memblock a virt_offset [] 1 size (2 ^ j) offset tt h = Some (tt, h, NULL)
  <-> round_size a size = 0
      \/ Forall (fun b => ~ fits a virt_offset (round_size a size) offset k b) (free_blocks h).
Proof.
  intros Hr Hsize Hj Hb k. unfold alloc_memblock.
  destruct (Z.eqb_spec (round_size a size) 0) as [|Hne]; [tauto|].
  pose proof (round_size_range a size Hsize) as Hrs. set (n := round_size a size) in *.
  rewrite align_mask_pow2 by done. fold k. pose proof (memblock_exp_range a).
  assert (Hn : 0 < n) by lia.
  pose proof (alloc_scan_split a virt_offset lo hi n k offset (free_blocks h) Hr Hn ltac:(lia) Hb) as Hs.
  cbn [alloc_loop]. destruct (alloc_scan _ _ _ _ _ _) as [[bl p]|]; [|simpl; tauto].
  destruct Hs as (pfx&pre&rest&q&E1&_&E3&E4&E5&_).
  assert (Hpre : In pre (free_blocks h)) by (rewrite E1; apply in_elt).
  split.
  - intros [= _ Hp]. exfalso. rewrite E1 in Hb.
    apply blocks_from_app in Hb as (_&(Hlo&_)&_). unfold NULL in Hp. destruct Hr as (?&_).
    pose proof (padding_range a virt_offset offset k (mb_addr pre)). lia.
  - intros [?|Hf]; [lia|]. rewrite E1, Forall_app, Forall_cons in Hf.
    destruct Hf as (_&Hf&_). unfold fits in Hf. lia.
Qed.

Lemma alloc_memblock_null_witness :
  alloc_memblock Arch32 0 [] 1 600000 1 0 tt demo_heap0 = Some (tt, demo_heap0, NULL).
Proof.
  apply (alloc_memblock_null Arch32 0 demo_base (demo_base + HEAP_SIZE) 600000 0 0 demo_heap0).
  - exact demo_region.
  - vm_compute. done.
  - vm_compute. done.
  - exact (inv_free _ _ _ _ _ _ demo_inv).
  - right. constructor; [|constructor]. vm_compute. intros H. by apply H.
Defined.

(** Re-inserting the middle of a split block restores the block. *)
Lemma insert_free_unsplit a hi pfx pre rest p n q :
  blocks_from a (mb_addr pre) hi (pre :: rest) ->
  Forall (fun c => mb_addr c + mb_size c < mb_addr pre) pfx ->
  mb_size pre = p + n + q -> 0 <= p -> 0 < n -> 0 <= q ->
  total_size (remainder a (mb_addr pre) p) = p ->
  total_size (remainder a (mb_addr pre + p + n) q) = q ->
  insert_free (mb_addr pre + p) n
    (pfx ++ remainder a (mb_addr pre) p ++ remainder a (mb_addr pre + p + n) q ++ rest)
  = pfx ++ pre :: rest.
Proof.
  intros Hb Hpfx Hs Hp Hn Hq. induction Hpfx as [|c pfx Hc _ IH].
  - destruct Hb as (_&_&_&Hb). destruct pre as [addr size]. simpl in *. subst size.
    unfold remainder. intros Hrp Hrq.
    assert (Hfront : insert_front addr (p + n) ((if q <? MIN_MEMBLOCK_SIZE a then []
      else [MB (addr + p + n) q]) ++ rest) = MB addr (p + n + q) :: rest).
    { destruct (Z.ltb_spec q (MIN_MEMBLOCK_SIZE a)); simpl in *.
      - destruct rest as [|c rest]; simpl; [by rewrite <- Hrq, Z.add_0_r|].
        destruct Hb as (Hb&_). destruct (Z.eqb_spec (mb_addr c) (addr + (p + n))); [lia|].
        by rewrite <- Hrq, Z.add_0_r.
      - destruct (Z.eqb_spec (addr + p + n) (addr + (p + n))); [done|lia]. }
    destruct (Z.ltb_spec p (MIN_MEMBLOCK_SIZE a)); cbn [app total_size mb_size] in *.
    + subst p. rewrite Z.add_0_r in *. simpl (0 + n) in *.
      rewrite <- Hfront. clear Hfront. destruct (Z.ltb_spec q (MIN_MEMBLOCK_SIZE a)); cbn [app].
      * destruct rest as [|c rest]; [done|]. destruct Hb as (Hb&Hm&_). cbn [insert_free].
        pose proof (MIN_pos a).
        destruct (Z.ltb_spec (mb_addr c + mb_size c) addr); [lia|].
        destruct (Z.eqb_spec (mb_addr c + mb_size c) addr); [lia|done].
      * cbn [insert_free mb_addr mb_size]. destruct (Z.ltb_spec (addr + n + q) addr); [lia|].
        destruct (Z.eqb_spec (addr + n + q) addr); [lia|done].
    + cbn [insert_free mb_addr mb_size]. rewrite Z.ltb_irrefl, Z.eqb_refl. exact Hfront.
  - intros Hrp Hrq. cbn [app insert_free].
    destruct (Z.ltb_spec (mb_addr c + mb_size c) (mb_addr pre + p)); [|lia].
    f_equal. by apply IH.
Qed.

(**  [free_memblock] undoes [alloc_memblock]: freeing a block that was
    just allocated without leaking a fragment gives back the very same free
    list and the same usage counters. *)
Theorem free_alloc_inverse a virt_offset lo hi pool live size j offset h h' ptr :
  region_ok a lo hi -> pool < 2 ^ size_bits a ->
  0 <= size < 2 ^ size_bits a -> 0 <= j < size_bits a -> heap_inv a lo hi pool h live ->
  alloc_memblock a virt_offset [] 1 size (2 ^ j) offset tt h = Some (tt, h', ptr) -> ptr <> NULL ->
  total_size (free_blocks h') = total_size (free_blocks h) - round_size a size ->
  free_memblock a ptr size h'
  = Some (Heap (free_blocks h) (freemem h) (usedmem h) (maxusedmem h')).
Proof.
  intros Hr Hpool Hsize Hj Hinv Halloc Hptr Hleak.
  destruct (alloc_memblock_scan a virt_offset size j offset h h' ptr)
    as (Hk&Hn&bl&Hscan&->); try done.
  pose proof (inv_take a virt_offset lo hi pool Hr Hpool h live _ offset size bl ptr Hinv Hn Hk Hscan) as Hinv'.
  destruct (inv_release a lo hi pool Hr Hpool _ _ live size Hinv' eq_refl) as (h2&Hfree&Hbl&Hinv2).
  set (k := Z.max j (memblock_exp a)) in *. set (n := round_size a size) in *.
  pose proof (memblock_exp_range a). cbn [mb_addr mb_size] in *. rewrite Hfree. f_equal.
  destruct Hinv as [If _ _ Iu Ip _ _], Hinv2 as [_ _ _ Iu2 Ip2 _ _].
  assert (Hmax : maxusedmem h2 = maxusedmem (take_block a h bl n)).
  { revert Hfree. unfold free_memblock. case_if; [congruence|].
    destruct (free_scan _ _ _ _ _) as [[[[? ?] ?] ?]|]; [|done]. by intros [= <-]. }
  destruct h2 as [bl2 f2 u2 m2]. cbn [free_blocks freemem usedmem maxusedmem take_block] in *.
  subst m2. f_equal; [|lia..]. rewrite Hbl.
  pose proof (alloc_scan_split a virt_offset lo hi n k offset (free_blocks h) Hr Hn ltac:(lia) If) as Hs.
  rewrite Hscan in Hs. destruct Hs as (pfx&pre&rest&q&E1&_&E3&E4&E5&E6). rewrite E1 in *.
  pose proof (padding_range a virt_offset offset k (mb_addr pre) ltac:(lia)) as HP.
  apply blocks_from_app in If as (_&(_&Hpre)&Hbefore). subst ptr bl.
  rewrite !total_size_app in Hleak. cbn [total_size] in Hleak.
  pose proof (remainder_total a (mb_addr pre) (padding a virt_offset offset k (mb_addr pre))).
  pose proof (remainder_total a (mb_addr pre + padding a virt_offset offset k (mb_addr pre) + n) q).
  apply (insert_free_unsplit a hi); try done; lia.
Qed.

Definition aligned_heap0 : heap := Heap [MB 65536 524288] 524288 0 0.
Definition aligned_heap1 : heap := Heap [MB 65648 524176] 524176 112 112.

Lemma free_alloc_inverse_witness :
  free_memblock Arch32 65536 100 aligned_heap1 = Some (Heap [MB 65536 524288] 524288 0 112).
Proof.
  apply (free_alloc_inverse Arch32 0 65536 (65536 + HEAP_SIZE) HEAP_SIZE [] 100 0 0
           aligned_heap0 aligned_heap1 65536); vm_compute; done.
Defined.

(** ** Sized blocks *)

Lemma load_le_ext n m m' addr :
  (forall i, 0 <= i < Z.of_nat n -> m (addr + i) = m' (addr + i)) ->
  load_le m addr n = load_le m' addr n.
Proof.
  revert addr. induction n as [|n IH]; intros addr H; [done|]. cbn [load_le].
  rewrite <- (Z.add_0_r addr) at 1 3. rewrite H by lia. f_equal. f_equal.
  apply IH. intros i Hi. specialize (H (1 + i)). rewrite !Z.add_assoc in H. apply H. lia.
Qed.

Lemma load_le_bytes n v m addr :
  (forall i, 0 <= i < Z.of_nat n -> m (addr + i) = Z.shiftr v (8 * i) mod 256) ->
  load_le m addr n = v mod 2 ^ (8 * Z.of_nat n).
Proof.
  revert v addr. induction n as [|n IH]; intros v addr H; [by rewrite Z.mod_1_r|].
  cbn [load_le]. rewrite (IH (Z.shiftr v 8) (addr + 1)).
  - pose proof (H 0 ltac:(lia)) as H0. rewrite Z.mul_0_r, Z.shiftr_0_r, Z.add_0_r in H0. rewrite H0.
    rewrite Z.shiftr_div_pow2 by lia. replace (8 * Z.of_nat (S n)) with (8 + 8 * Z.of_nat n) by lia.
    rewrite Z.pow_add_r by lia. change (2 ^ 8) with 256.
    pose proof (pow2_pos (8 * Z.of_nat n)). rewrite Z.rem_mul_r by lia. lia.
  - intros i Hi. rewrite Z.shiftr_shiftr by lia. specialize (H (1 + i) ltac:(lia)).
    rewrite Z.add_assoc in H. rewrite H. f_equal. f_equal. lia.
Qed.

Lemma memcpy_in m dest src len x :
  dest <= x < dest + len -> memcpy m dest src len x = m (src + (x - dest)).
Proof.
  intros H. unfold memcpy. destruct (Z.leb_spec dest x), (Z.ltb_spec x (dest + len)); lia || done.
Qed.

Lemma memcpy_out m dest src len x :
  ~ (dest <= x < dest + len) -> memcpy m dest src len x = m x.
Proof.
  intros H. unfold memcpy. destruct (Z.leb_spec dest x), (Z.ltb_spec x (dest + len)); lia || done.
Qed.

Section Sized.
Context (a : arch).
Let w := size_bits a.

Lemma load_store_size m addr v : 0 <= v < 2 ^ w -> load_size a (store_size a m addr v) addr = v.
Proof.
  intros Hv. unfold load_size. rewrite (load_le_bytes _ v).
  - rewrite Z2Nat.id by (destruct a; done). apply Z.mod_small. exact Hv.
  - intros i Hi. unfold store_size. rewrite Z2Nat.id in Hi by (destruct a; done).
    destruct (Z.leb_spec addr (addr + i)); [|lia].
    destruct (Z.ltb_spec (addr + i) (addr + ptr_bytes a)); [|lia]. simpl. do 2 f_equal. lia.
Qed.

Lemma store_size_out m addr v x :
  ~ (addr <= x < addr + ptr_bytes a) -> store_size a m addr v x = m x.
Proof.
  intros H. unfold store_size. destruct (Z.leb_spec addr x); [|done].
  destruct (Z.ltb_spec x (addr + ptr_bytes a)); [lia|done].
Qed.

(** A live block is a well-formed [autosized_block] holding [total] bytes,
    header included. *)
Definition sized_block (m : memory) (b : memory_block) (total : Z) : Prop :=
  ptr_bytes a < total < 2 ^ w /\ load_size a m (mb_addr b) = total
  /\ round_size a total = mb_size b.

Lemma sized_block_fits m b total :
  sized_block m b total -> 0 < mb_size b -> total <= mb_size b.
Proof.
  intros (H1&_&H2) Hb. destruct (round_size_range a total) as [H|H]; unfold w in *;
    [destruct a; simpl in *; lia|lia..].
Qed.

Lemma sized_block_ext m m' b total :
  sized_block m b total ->
  (forall x, mb_addr b <= x < mb_addr b + ptr_bytes a -> m' x = m x) -> sized_block m' b total.
Proof.
  intros (H1&H2&H3) Hm. repeat split; try done; [lia..|]. rewrite <- H2. unfold load_size.
  apply load_le_ext. intros i Hi. apply Hm. rewrite Z2Nat.id in Hi by (destruct a; done). lia.
Qed.
End Sized.

(** Without caches the allocation loop runs once. *)
Lemma alloc_memblock_once a virt_offset size align offset h :
  is_Some (alloc_memblock a virt_offset [] 1 size align offset tt h).
Proof.
  unfold alloc_memblock. case_if; [done|].
  cbn [alloc_loop]. destruct (alloc_scan _ _ _ _ _ _) as [[blocks p]|]; done.
Qed.

(** A pointer into the region is neither of the special pointers. *)
Lemma live_ptr_valid a lo hi x : region_ok a lo hi -> lo <= x -> x + MIN_MEMBLOCK_SIZE a <= hi ->
  let ptr := x + autosized_data a in
  negb (ptr =? NULL) && negb (ptr =? NOWHERE a) = true.
Proof.
  intros (Hr1&Hr2&Hr3) H1 H2 ptr. subst ptr. unfold NULL, autosized_data.
  assert (0 < ptr_bytes a < MIN_MEMBLOCK_SIZE a) by (destruct a; vm_compute; done).
  assert (NOWHERE a = 2 ^ size_bits a - 1) by (destruct a; reflexivity).
  rewrite andb_true_iff, !negb_true_iff, !Z.eqb_neq. lia.
Qed.

(** Writing the header of the new block [c] and copying the contents of the
    old one, seen from the new block and from the other live blocks. *)
Lemma realloc_copy a m b c total new_size (live : list memory_block) :
  let ad := autosized_data a in
  let m' := memcpy (store_size a m (mb_addr c) (new_size + ad)) (mb_addr c + ad) (mb_addr b + ad)
              (Z.min (total - ad) new_size) in
  0 < new_size -> new_size + ad < 2 ^ size_bits a -> round_size a (new_size + ad) = mb_size c ->
  new_size + ad <= mb_size c -> ad < total <= mb_size b ->
  disjoint_blocks (mb_addr c) (mb_size c) (b :: live) ->
  sized_block a m' c (new_size + ad)
  /\ (forall i, 0 <= i < Z.min (total - ad) new_size -> m' (mb_addr c + ad + i) = m (mb_addr b + ad + i))
  /\ (forall d x, In d live -> mb_addr d <= x < mb_addr d + mb_size d -> m' x = m x).
Proof.
  intros ad m' Hn Hw Hround Hfit Htot Hlive. apply Forall_cons_iff in Hlive as [Hbc Hlive]. assert (Had : ad = ptr_bytes a) by done.
  assert (0 < ptr_bytes a) by (destruct a; done). split; [|split].
  - apply (sized_block_ext a (store_size a m (mb_addr c) (new_size + ad))).
    + split; [lia|]. split; [apply load_store_size; lia|done].
    + intros x Hx. apply memcpy_out. lia.
  - intros i Hi. subst m'. rewrite memcpy_in by lia. rewrite store_size_out by lia. f_equal. lia.
  - intros d x Hd Hx. rewrite Forall_forall in Hlive.
    specialize (Hlive d (proj2 (list_elem_of_In _ _) Hd)). subst m'.
    rewrite memcpy_out by lia. apply store_size_out. lia.
Qed.

(**  [realloc] of a live sized block to a non-zero size fails without
    touching the heap or memory exactly when the total size overflows or
    [alloc_memblock] has no room for it; otherwise it returns a new sized block
    of the requested size that is live in a heap satisfying the invariant,
    holds the old contents up to the smaller of the two sizes, and in whose
    favour the old block has been released; no byte of any other live block
    changes. *)
Theorem realloc_correct a virt_offset lo hi pool h m b live total new_size :
  region_ok a lo hi -> pool < 2 ^ size_bits a ->
  heap_inv a lo hi pool h (b :: live) -> sized_block a m b total ->
  0 < new_size < 2 ^ size_bits a ->
  let ad := autosized_data a in
  let old_ptr := mb_addr b + ad in
  if decide (2 ^ size_bits a <= new_size + ad
             \/ alloc_memblock a virt_offset [] 1 (new_size + ad) 1 0 tt h = Some (tt, h, NULL))
  then realloc a virt_offset [] 1 old_ptr new_size tt h m = Some (tt, h, m, NULL)
  else exists h' m' c,
       realloc a virt_offset [] 1 old_ptr new_size tt h m = Some (tt, h', m', mb_addr c + ad)
       /\ heap_inv a lo hi pool h' (c :: live)
       /\ sized_block a m' c (new_size + ad)
       /\ (forall i, 0 <= i < Z.min (total - ad) new_size -> m' (mb_addr c + ad + i) = m (old_ptr + i))
       /\ (forall d x, In d live -> mb_addr d <= x < mb_addr d + mb_size d -> m' x = m x).
Proof.
  intros Hr Hpool Hinv Hb Hnew ad old_ptr. unfold realloc.
  pose proof (inv_live _ _ _ _ _ _ Hinv) as Hlive. apply Forall_cons_iff in Hlive as [(Hb1&Hb2&Hb3&_) _].
  assert (Had : ad = ptr_bytes a) by done.
  assert (Hptr : 0 < ad < MIN_MEMBLOCK_SIZE a) by (destruct a; vm_compute; done).
  pose proof (sized_block_fits a m b total Hb ltac:(lia)) as Hfit.
  assert (Hv : negb (old_ptr =? NULL) && negb (old_ptr =? NOWHERE a) = true) by (apply (live_ptr_valid a lo hi); done || lia).
  rewrite Hv. clear Hv. fold ad.
  destruct (Z.eqb_spec new_size 0); [lia|].
  assert (Hw : ad < 2 ^ size_bits a) by (pose proof (MIN_lt_half a); pose proof (half_double a); lia).
  destruct (Z_lt_ge_dec (new_size + ad) (2 ^ size_bits a)) as [Hnt|Hnt].
  2: { rewrite decide_True by lia. rewrite (proj2 (Z.ltb_lt _ _)); [done|].
       assert (E : uwrap (size_bits a) (new_size + ad) = new_size + ad - 2 ^ size_bits a)
         by (symmetry; apply (Z.mod_unique _ _ 1); lia). lia. }
  rewrite !(uwrap_small (size_bits a) (new_size + ad)) by lia. rewrite (proj2 (Z.ltb_ge _ _)) by lia.
  set (nt := new_size + ad) in *.
  destruct (alloc_memblock_once a virt_offset nt 1 0 h) as [[[[] h1] p] Halloc]. rewrite Halloc.
  destruct (Z.eqb_spec p NULL) as [->|Hp].
  { replace h1 with h; [by rewrite decide_True by (by right)|]. symmetry.
    apply (alloc_memblock_null_same a virt_offset lo hi nt 0 0 h h1) in Halloc;
      [done|done|lia|pose proof (size_bits_pos a); lia|exact (inv_free _ _ _ _ _ _ Hinv)]. }
  rewrite decide_False by (intros [?|[=]]; lia || done).
  destruct (alloc_memblock_scan a virt_offset nt 0 0 h h1 p ltac:(lia) ltac:(pose proof (size_bits_pos a); lia) Halloc Hp)
    as (Hk&Hn&bl&Hscan&->). clear Halloc.
  pose proof (inv_take a virt_offset lo hi pool Hr Hpool h _ _ 0 nt bl p Hinv Hn Hk Hscan) as Hinv1.
  set (c := MB p (round_size a nt)) in *.
  assert (Hc : sized_block a (store_size a m p nt) c nt)
    by (split; [lia|]; split; [apply load_store_size; lia|done]).
  pose proof (sized_block_fits a _ c nt Hc Hn) as Hcfit.
  pose proof (inv_apart _ _ _ _ _ _ Hinv1) as [Hapart _]. pose proof (proj1 (proj1 (Forall_cons _ _ _) Hapart)) as Hcb.
  assert (Htot : load_size a (store_size a m p nt) (mb_addr b) = total).
  { eapply sized_block_ext; [exact Hb|]. intros x Hx. apply store_size_out. simpl in *. lia. }
  replace (old_ptr - ad) with (mb_addr b) by lia. rewrite Htot.
  pose proof Hb as ((Ht1&Ht2)&_&Hround). rewrite (uwrap_small (size_bits a) (total - ad)) by lia.
  rewrite (Permutation_swap b c live) in Hinv1.
  destruct (inv_release a lo hi pool Hr Hpool _ b (c :: live) total Hinv1 Hround) as (h2&Hfree&_&Hinv2).
  rewrite Hfree. replace (if total - ad <? new_size then total - ad else new_size) with (Z.min (total - ad) new_size)
    by (case_if; lia).
  destruct (realloc_copy a m b c total new_size live) as (R1&R2&R3);
    [lia|lia|done|done|lia|done|].
  eexists h2, _, c. split; [reflexivity|]. done.
Qed.

Definition demo_memory : memory := store_size Arch32 (fun x => x mod 256) 65536 100.

Lemma realloc_correct_witness :
  let b := MB 65536 112 in
  exists h' m' c,
       realloc Arch32 0 [] 1 (65536 + 4) 200 tt aligned_heap1 demo_memory
         = Some (tt, h', m', mb_addr c + 4)
       /\ heap_inv Arch32 65536 (65536 + HEAP_SIZE) HEAP_SIZE h' [c]
       /\ sized_block Arch32 m' c (200 + 4)
       /\ (forall i, 0 <= i < Z.min (100 - 4) 200 ->
             m' (mb_addr c + 4 + i) = demo_memory (65536 + 4 + i))
       /\ (forall d x, In d [] -> mb_addr d <= x < mb_addr d + mb_size d -> m' x = demo_memory x).
Proof.
  intros b.
  pose proof (realloc_correct Arch32 0 65536 (65536 + HEAP_SIZE) HEAP_SIZE aligned_heap1 demo_memory b [] 100 200) as R.
  cbv zeta in R. rewrite decide_False in R by (intros [H|H]; vm_compute in H; [by apply H|discriminate]). apply R.
  - vm_compute. done.
  - reflexivity.
  - constructor; [vm_compute; done| |vm_compute; done..].
    constructor; [|constructor]. repeat split; try (vm_compute; done).
    constructor; [|constructor]. left. vm_compute. done.
  - split; [vm_compute; done|]. split; [|vm_compute; done].
    apply load_store_size. vm_compute. done.
  - vm_compute. done.
Defined.

(** The same run, evaluated. *)
Example realloc_runs :
  match realloc Arch32 0 [] 1 (65536 + 4) 200 tt aligned_heap1 demo_memory with
  | Some (_, h', m', p) => (p, free_blocks h', m' (p + 5)) = (65652, [MB 65536 112; MB 65856 523968], (65540 + 5) mod 256)
  | None => False
  end.
Proof. vm_compute. reflexivity. Qed.
