(* ===== verification/Strings.v ===== *)
(** * Memory and string primitives ([core/string.c], [core/ctype.c])

    The block operations work on one flat memory (a list of bytes) with
    offsets, so that overlapping source and destination alias as in C.  The
    string operations take the bytes from the pointer to the end of the
    underlying object: a read past that end is [None], so that a result
    [Some _] also says that the function stayed inside its arguments. *)

From S2P Require Import Prelude.

(** ** Block operations *)

Fixpoint generic_memset (mem : list Z) (dest : nat) (character : Z) (len : nat)
  : option (list Z) :=
  match len with
  | O => Some mem
  | S len' =>
      if decide (dest < length mem)%nat
      then generic_memset (<[dest := u8 character]> mem) (S dest) character len'
      else None
  end.

Fixpoint generic_memcpy (mem : list Z) (dest src len : nat) : option (list Z) :=
  match len with
  | O => Some mem
  | S len' =>
      opt! b := mem !! src in
      if decide (dest < length mem)%nat
      then generic_memcpy (<[dest := b]> mem) (S dest) (S src) len'
      else None
  end.

Fixpoint generic_memcpy_reverse (mem : list Z) (dest src len : nat) : option (list Z) :=
  match len with
  | O => Some mem
  | S len' =>
      opt! b := mem !! (src + len')%nat in
      if decide (dest + len' < length mem)%nat
      then generic_memcpy_reverse (<[(dest + len')%nat := b]> mem) dest src len'
      else None
  end.

Definition generic_memmove (mem : list Z) (dest src len : nat) : option (list Z) :=
  if decide (dest < src)%nat then generic_memcpy mem dest src len
  else generic_memcpy_reverse mem dest src len.

Fixpoint memcmp (first second : list Z) (len : nat) {struct len} : option Z :=
  match len with
  | O => Some 0
  | S len' =>
      match first, second with
      | a :: first', b :: second' =>
          let diff := a - b in
          if diff =? 0 then memcmp first' second' len' else Some diff
      | _, _ => None
      end
  end.

(** The offset of the match, or [None] for the [NULL] result; the outer
    option is the bounds check. *)
Fixpoint memchr (src : list Z) (character : Z) (len : nat) {struct len} : option (option nat) :=
  match len with
  | O => Some None
  | S len' =>
      match src with
      | b :: src' =>
          if b =? character then Some (Some O)
          else opt! r := memchr src' character len' in Some (S <$> r)
      | [] => None
      end
  end.

Fixpoint memswap (mem : list Z) (first second len : nat) : option (list Z) :=
  match len with
  | O => Some mem
  | S len' =>
      opt! temp := mem !! first in
      opt! b := mem !! second in
      memswap (<[second := temp]> (<[first := b]> mem)) (S first) (S second) len'
  end.

(** ** Character classes *)

Definition isspace (character : Z) : bool :=
  (character =? 32) || (character =? 12) || (character =? 10) || (character =? 13)
  || (character =? 9) || (character =? 11).

Definition isdigit (character : Z) : bool := (48 <=? character) && (character <=? 57).

Definition isxdigit (character : Z) : bool :=
  ((48 <=? character) && (character <=? 57)) || ((65 <=? character) && (character <=? 70))
  || ((97 <=? character) && (character <=? 102)).

Definition isupper (character : Z) : bool := (65 <=? character) && (character <=? 90).
Definition islower (character : Z) : bool := (97 <=? character) && (character <=? 122).

Definition toupper (character : Z) : Z :=
  if islower character then character - 97 + 65 else character.
Definition tolower (character : Z) : Z :=
  if isupper character then character - 65 + 97 else character.

(** ** String operations *)

Section WithArch.
Context (a : arch).

Fixpoint strncmp (first second : list Z) (max : Z) : option Z :=
  if max =? 0 then Some 0
  else
    match first, second with
    | x :: first', y :: second' =>
        let diff := x - y in
        if negb (diff =? 0) then Some diff
        else if x =? 0 then Some 0
        else strncmp first' second' (max - 1)
    | _, _ => None
    end.

Definition strcmp (first second : list Z) : option Z := strncmp first second (SIZE_MAX a).

Fixpoint strncasecmp (first second : list Z) (max : Z) : option Z :=
  if max =? 0 then Some 0
  else
    match first, second with
    | x :: first', y :: second' =>
        let diff := toupper x - toupper y in
        if negb (diff =? 0) then Some diff
        else if x =? 0 then Some 0
        else strncasecmp first' second' (max - 1)
    | _, _ => None
    end.

Definition strcasecmp (first second : list Z) : option Z :=
  strncasecmp first second (SIZE_MAX a).

Fixpoint strnlen (src : list Z) (max : Z) : option Z :=
  if max =? 0 then Some 0
  else
    match src with
    | b :: src' =>
        if b =? 0 then Some 0 else opt! len := strnlen src' (max - 1) in Some (len + 1)
    | [] => None
    end.

Definition strlen (src : list Z) : option Z := strnlen src (SIZE_MAX a).

Fixpoint strchr (src : list Z) (character : Z) : option (option nat) :=
  match src with
  | b :: src' =>
      if b =? character then Some (Some O)
      else if b =? 0 then Some None
      else opt! r := strchr src' character in Some (S <$> r)
  | [] => None
  end.

(** Index of the terminator, then the scan back to the start. *)
Fixpoint strend (src : list Z) : option nat :=
  match src with
  | b :: src' => if b =? 0 then Some O else opt! n := strend src' in Some (S n)
  | [] => None
  end.

Fixpoint strrchr_back (src : list Z) (character : Z) (n : nat) : option (option nat) :=
  match n with
  | O => Some None
  | S n' =>
      opt! b := src !! n' in
      if b =? character then Some (Some n') else strrchr_back src character n'
  end.

Definition strrchr (src : list Z) (character : Z) : option (option nat) :=
  opt! n := strend src in strrchr_back src character n.

Fixpoint strstr_loop (haystack needle : list Z) (len : nat) : option (option nat) :=
  match haystack with
  | b :: haystack' =>
      if b =? 0 then Some None
      else
        opt! d := memcmp haystack needle len in
        if d =? 0 then Some (Some O)
        else opt! r := strstr_loop haystack' needle len in Some (S <$> r)
  | [] => None
  end.

Definition strstr (haystack needle : list Z) : option (option nat) :=
  opt! len := strlen needle in strstr_loop haystack needle (Z.to_nat len).

(** [strcpy] into a buffer [dest]: the buffer afterwards. *)
Fixpoint strcpy (dest src : list Z) : option (list Z) :=
  match src, dest with
  | b :: src', _ :: dest' =>
      if b =? 0 then Some (b :: dest')
      else opt! r := strcpy dest' src' in Some (b :: r)
  | _, _ => None
  end.

Fixpoint strncpy (dest src : list Z) (max : nat) {struct max} : option (list Z) :=
  match max with
  | O => Some dest
  | S max' =>
      match src, dest with
      | b :: src', _ :: dest' =>
          if b =? 0
          then opt! r := generic_memset dest' 0 0 max' in Some (b :: r)
          else opt! r := strncpy dest' src' max' in Some (b :: r)
      | _, _ => None
      end
  end.

Definition strcat (dest src : list Z) : option (list Z) :=
  opt! n := strlen dest in
  opt! r := strcpy (drop (Z.to_nat n) dest) src in
  Some (take (Z.to_nat n) dest ++ r).

(** [strndup]: the new buffer, given whether [malloc] succeeds. *)
Definition strndup (malloc_ok : bool) (src : list Z) (max : Z) : option (option (list Z)) :=
  opt! len := strnlen src max in
  if malloc_ok then Some (Some (take (Z.to_nat len) src ++ [0])) else Some None.

Definition strdup (malloc_ok : bool) (src : list Z) : option (option (list Z)) :=
  strndup malloc_ok src (SIZE_MAX a).
End WithArch.

(** ** Numbers *)

Definition digit_value (character : Z) : Z :=
  if 97 <=? character then u32 (character - (97 - 10))
  else if 65 <=? character then u32 (character - (65 - 10))
  else if character <=? 57 then u32 (character - 48)
  else character.

Fixpoint skip_space (string : list Z) : list Z :=
  match string with
  | c :: string' => if isspace c then skip_space string' else string
  | [] => []
  end.

(** The rest of the string, the sign and the base. *)
Definition strtoul_pre (string : list Z) (base : Z) : option (list Z * bool * Z) :=
  let string := skip_space string in
  opt! (string, negate) :=
    match string with
    | c :: s => Some (if c =? 45 then (s, true) else if c =? 43 then (s, false) else (string, false))
    | [] => None
    end in
  if base =? 0 then
    match string with
    | c :: s =>
        if c =? 48 then
          match s with
          | x :: s' =>
              if Z.land x (Z.lnot 0x20) =? 88 then Some (s', negate, 16)
              else Some (s, negate, 8)
          | [] => None
          end
        else Some (string, negate, 10)
    | [] => None
    end
  else Some (string, negate, base).

(** The digit loop: the value (of [w] bits) and the unparsed rest. *)
Fixpoint strtoul_digits (w base : Z) (string : list Z) (value : Z) : option (Z * list Z) :=
  match string with
  | c :: string' =>
      let digit := digit_value c in
      if u32 base <=? digit then Some (value, string)
      else strtoul_digits w base string' (uwrap w (value * base + digit))
  | [] => None
  end.

Definition strtoul_width (w : Z) (string : list Z) (base : Z) : option (Z * list Z) :=
  opt! (string, negate, base) := strtoul_pre string base in
  opt! (value, endp) := strtoul_digits w base string 0 in
  Some (if (negate : bool) then uwrap w (- value) else value, endp).

Definition strtoul (a : arch) := strtoul_width (size_bits a).
Definition strtoull := strtoul_width 64.

(** ** Correctness of the block operations *)

Lemma generic_memcpy_spec len mem dest src :
  (dest <= src)%nat -> (src + len <= length mem)%nat ->
  exists mem', generic_memcpy mem dest src len = Some mem' /\ length mem' = length mem
    /\ forall i, mem' !! i = if decide (dest <= i < dest + len)%nat
                             then mem !! (src + (i - dest))%nat else mem !! i.
Proof.
  revert mem dest src. induction len as [|len IH]; intros mem dest src Hle Hlen; cbn [generic_memcpy].
  - exists mem. repeat split; try done. intros i. case_decide; [lia|done].
  - destruct (mem !! src) as [b|] eqn:Hb; [|apply lookup_ge_None in Hb; lia].
    rewrite decide_True by lia.
    destruct (IH (<[dest:=b]> mem) (S dest) (S src)) as (mem'&E&Hl&Hi);
      [lia|rewrite length_insert; lia|].
    exists mem'. rewrite length_insert in Hl. repeat split; try done.
    intros i. rewrite Hi. repeat case_decide; try lia.
    + rewrite list_lookup_insert_ne by lia. f_equal. lia.
    + assert (i = dest) as -> by lia. rewrite list_lookup_insert_eq by lia.
      rewrite <- Hb. f_equal. lia.
    + rewrite list_lookup_insert_ne by lia. done.
Qed.

Lemma generic_memcpy_reverse_spec len mem dest src :
  (src <= dest)%nat -> (dest + len <= length mem)%nat ->
  exists mem', generic_memcpy_reverse mem dest src len = Some mem' /\ length mem' = length mem
    /\ forall i, mem' !! i = if decide (dest <= i < dest + len)%nat
                             then mem !! (src + (i - dest))%nat else mem !! i.
Proof.
  revert mem. induction len as [|len IH]; intros mem Hle Hlen; cbn [generic_memcpy_reverse].
  - exists mem. repeat split; try done. intros i. case_decide; [lia|done].
  - destruct (mem !! (src + len)%nat) as [b|] eqn:Hb; [|apply lookup_ge_None in Hb; lia].
    rewrite decide_True by lia.
    destruct (IH (<[(dest + len)%nat:=b]> mem)) as (mem'&E&Hl&Hi);
      [lia|rewrite length_insert; lia|].
    exists mem'. rewrite length_insert in Hl. repeat split; try done.
    intros i. rewrite Hi. repeat case_decide; try lia.
    + rewrite list_lookup_insert_ne by lia. done.
    + assert (i = dest + len)%nat as -> by lia. rewrite list_lookup_insert_eq by lia.
      rewrite <- Hb. f_equal. lia.
    + rewrite list_lookup_insert_ne by lia. done.
Qed.

Lemma generic_memset_list mem dest c len :
  (dest + len <= length mem)%nat ->
  generic_memset mem dest c len
  = Some (take dest mem ++ replicate len (u8 c) ++ drop (dest + len) mem).
Proof.
  revert mem dest. induction len as [|len IH]; intros mem dest Hl; cbn [generic_memset].
  - cbn [replicate app]. by rewrite Nat.add_0_r, take_drop.
  - rewrite decide_True by lia. rewrite IH by (rewrite length_insert; lia). f_equal.
    rewrite insert_take_drop by lia. rewrite take_app_ge by (rewrite length_take; lia).
    rewrite length_take, Nat.min_l by lia. replace (S dest - dest)%nat with 1%nat by lia.
    cbn [firstn]. rewrite take_0, <- app_assoc. cbn [app replicate]. do 3 f_equal.
    rewrite drop_app_ge by (rewrite length_take; lia). rewrite length_take, Nat.min_l by lia.
    replace (S dest + len - dest)%nat with (S len) by lia. cbn [skipn]. rewrite drop_drop. f_equal. lia.
Qed.

Lemma generic_memmove_spec mem dest src len :
  (dest + len <= length mem)%nat -> (src + len <= length mem)%nat ->
  exists mem', generic_memmove mem dest src len = Some mem' /\ length mem' = length mem
    /\ forall i, mem' !! i = if decide (dest <= i < dest + len)%nat
                             then mem !! (src + (i - dest))%nat else mem !! i.
Proof.
  intros. unfold generic_memmove. case_decide.
  - apply generic_memcpy_spec; lia.
  - apply generic_memcpy_reverse_spec; lia.
Qed.

(** The result as a list. *)
Lemma generic_memmove_list mem dest src len :
  (dest + len <= length mem)%nat -> (src + len <= length mem)%nat ->
  generic_memmove mem dest src len
  = Some (take dest mem ++ take len (drop src mem) ++ drop (dest + len) mem).
Proof.
  intros Hd Hs. destruct (generic_memmove_spec mem dest src len Hd Hs) as (mem'&E&Hl&Hi).
  rewrite E. f_equal. apply list_eq. intros i. rewrite Hi.
  destruct (decide (i < dest)%nat); [|destruct (decide (i < dest + len)%nat)].
  - rewrite decide_False by lia. rewrite lookup_app_l by (rewrite length_take; lia).
    by rewrite lookup_take_lt by lia.
  - rewrite decide_True by lia. rewrite lookup_app_r by (rewrite length_take; lia).
    rewrite length_take, Nat.min_l by lia. rewrite lookup_app_l by (rewrite length_take, length_drop; lia).
    rewrite lookup_take_lt by lia. by rewrite lookup_drop.
  - rewrite decide_False by lia. rewrite lookup_app_r by (rewrite length_take; lia).
    rewrite lookup_app_r by (rewrite !length_take, length_drop; lia).
    rewrite !length_take, length_drop, lookup_drop. f_equal. lia.
Qed.

(**  [memmove] copies the original contents of the source range to the
    destination range and changes nothing else, however the two ranges
    overlap, and never leaves the memory they lie in. *)
Theorem memmove_correct mem dest src len :
  (dest + len <= length mem)%nat -> (src + len <= length mem)%nat ->
  exists mem', generic_memmove mem dest src len = Some mem' /\ length mem' = length mem
    /\ forall i, mem' !! i = if decide (dest <= i < dest + len)%nat
                             then mem !! (src + (i - dest))%nat else mem !! i.
Proof. apply generic_memmove_spec. Qed.

Lemma memmove_correct_witness :
  exists mem', generic_memmove [1; 2; 3; 4; 5] 1 0 4 = Some mem' /\ length mem' = 5%nat
    /\ forall i, mem' !! i = if decide (1 <= i < 1 + 4)%nat
                             then [1; 2; 3; 4; 5] !! (0 + (i - 1))%nat else [1; 2; 3; 4; 5] !! i.
Proof. apply (memmove_correct [1; 2; 3; 4; 5] 1 0 4); simpl; lia. Defined.

(** ** C strings *)

(** The bytes of a string's contents are non-zero. *)
Definition nonul (s : list Z) : Prop := Forall (fun c => 0 < c < 256) s.

(** Discharge the side condition for a literal string. *)
Ltac solve_nonul := unfold nonul; repeat (constructor; [lia|]); constructor.

(** A pointer to a string with contents [s]; [junk] is whatever follows the
    terminator in the same object. *)
Definition cstr (s junk : list Z) : list Z := s ++ 0 :: junk.

(** Lexicographic order of strings, a proper prefix coming first. *)
Fixpoint lex_compare (s t : list Z) : comparison :=
  match s, t with
  | [], [] => Eq
  | [], _ :: _ => Lt
  | _ :: _, [] => Gt
  | x :: s', y :: t' =>
      match Z.compare x y with Eq => lex_compare s' t' | c => c end
  end.

Lemma lex_compare_eq s t : lex_compare s t = Eq <-> s = t.
Proof.
  revert t. induction s as [|x s IH]; intros [|y t]; simpl; try done.
  destruct (Z.compare_spec x y); subst; rewrite ?IH; split; intros H'; try congruence;
    injection H'; intros; subst; lia.
Qed.

Lemma strncmp_spec s t js jt max :
  nonul s -> nonul t -> Z.of_nat (length s) < max -> Z.of_nat (length t) < max ->
  exists d, strncmp (cstr s js) (cstr t jt) max = Some d /\ Z.compare d 0 = lex_compare s t.
Proof.
  intros Hs. revert t max. induction Hs as [|x s Hx Hs IH]; intros t max Ht Hls Hlt;
    destruct Ht as [|y t Hy Ht]; simpl; cbn [length] in *;
    (destruct (Z.eqb_spec max 0); [lia|]).
  - by exists 0.
  - exists (0 - y). destruct (Z.eqb_spec (0 - y) 0); [lia|]. simpl. split; [done|].
    apply Z.compare_lt_iff. lia.
  - exists (x - 0). destruct (Z.eqb_spec (x - 0) 0); [lia|]. simpl. split; [done|].
    apply Z.compare_gt_iff. lia.
  - destruct (Z.eqb_spec (x - y) 0) as [He|Hne]; simpl.
    + assert (x = y) as -> by lia. rewrite Z.compare_refl.
      destruct (Z.eqb_spec y 0); [lia|]. apply IH; [done|lia..].
    + exists (x - y). split; [done|]. destruct (Z.compare_spec x y); [lia|..].
      * apply Z.compare_lt_iff. lia.
      * apply Z.compare_gt_iff. lia.
Qed.

(**  [strcmp] compares lexicographically: its result is zero exactly for
    equal strings, negative or positive as the first string comes before or
    after the second, and it reads nothing past either terminator. *)
Theorem strcmp_correct a s t js jt :
  nonul s -> nonul t -> zlen s < SIZE_MAX a -> zlen t < SIZE_MAX a ->
  exists d, strcmp a (cstr s js) (cstr t jt) = Some d
    /\ Z.compare d 0 = lex_compare s t /\ (d = 0 <-> s = t).
Proof.
  intros Hs Ht Hls Hlt. destruct (strncmp_spec s t js jt (SIZE_MAX a) Hs Ht Hls Hlt) as (d&E&Hd).
  exists d. repeat split; try done; intros H'.
  - apply lex_compare_eq. rewrite <- Hd. by subst d.
  - apply lex_compare_eq in H'. rewrite H' in Hd. by apply Z.compare_eq.
Qed.

Lemma strcmp_correct_witness :
  exists d, strcmp Arch32 (cstr [97; 98] [7]) (cstr [97; 99] []) = Some d
    /\ Z.compare d 0 = lex_compare [97; 98] [97; 99] /\ (d = 0 <-> [97; 98] = [97; 99]).
Proof.
  apply (strcmp_correct Arch32 [97; 98] [97; 99] [7] []); [solve_nonul..|reflexivity|reflexivity].
Defined.

(** *** Substring search *)

Lemma memcmp_cstr needle h jh jn :
  nonul needle ->
  exists d, memcmp (cstr h jh) (needle ++ jn) (length needle) = Some d
    /\ (d = 0 <-> needle `prefix_of` h).
Proof.
  intros Hn. revert h. induction Hn as [|y n Hy Hn IH]; intros h; simpl.
  - exists 0. split; [done|]. split; [intros _; apply prefix_nil|done].
  - destruct h as [|x h]; simpl.
    + destruct (Z.eqb_spec (0 - y) 0); [lia|]. exists (0 - y). split; [done|]. split; [lia|].
      intros [k Hk]. discriminate.
    + destruct (Z.eqb_spec (x - y) 0) as [He|Hne].
      * assert (x = y) as -> by lia. destruct (IH h) as (d&E&Hd). exists d. split; [done|].
        rewrite Hd. split; [apply prefix_cons|apply prefix_cons_inv_2].
      * exists (x - y). split; [done|]. split; [lia|]. intros Hp. apply prefix_cons_inv_1 in Hp. lia.
Qed.

Lemma strnlen_cstr s j max :
  nonul s -> zlen s < max -> strnlen (cstr s j) max = Some (zlen s).
Proof.
  intros Hs. revert max. induction Hs as [|x s Hx Hs IH]; intros max Hm; simpl;
    cbn [length] in *; (destruct (Z.eqb_spec max 0); [lia|]); [done|].
  destruct (Z.eqb_spec x 0); [lia|]. rewrite IH by lia. f_equal. lia.
Qed.

(** ... and a string that fills its field has no terminator. *)
Lemma strnlen_full s j : nonul s -> strnlen (s ++ j) (zlen s) = Some (zlen s).
Proof.
  induction 1 as [|x s Hx Hs IH]; [by destruct j|]. cbn [strnlen app length].
  destruct (Z.eqb_spec (Z.of_nat (S (length s))) 0); [lia|]. destruct (Z.eqb_spec x 0); [lia|].
  replace (Z.of_nat (S (length s)) - 1) with (zlen s) by lia. rewrite IH. f_equal. lia.
Qed.

(** Copying and appending a string: the result when it fits the destination,
    and no result (a write out of bounds) when it does not. *)
Lemma strcpy_spec dest s j : nonul s ->
  strcpy dest (cstr s j)
  = if decide (length s < length dest)%nat then Some (cstr s (drop (S (length s)) dest)) else None.
Proof.
  intros Hs. revert dest. induction Hs as [|x s Hx Hs IH]; intros [|d dest]; cbn -[drop]; try done.
  destruct (Z.eqb_spec x 0); [lia|]. unfold cstr in IH. rewrite IH. repeat case_decide; try lia; done.
Qed.

Lemma strcat_spec a s t dj tj : nonul s -> nonul t -> zlen s < SIZE_MAX a ->
  strcat a (cstr s dj) (cstr t tj)
  = if decide (length t <= length dj)%nat then Some (cstr (s ++ t) (drop (length t) dj)) else None.
Proof.
  intros Hs Ht Hl. unfold strcat, strlen. rewrite strnlen_cstr, Nat2Z.id by done. unfold cstr at 1.
  rewrite drop_app_length, strcpy_spec by done. cbn [length]. repeat case_decide; try lia; [|done].
  unfold cstr. rewrite take_app_length, <- app_assoc. done.
Qed.

Lemma strncpy_spec dest s j max : nonul s -> (length s < max <= length dest)%nat ->
  strncpy dest (cstr s j) max = Some (s ++ replicate (max - length s) 0 ++ drop max dest).
Proof.
  intros Hs. revert dest max. induction Hs as [|x s Hx Hs IH]; intros [|d dest] [|max] Hl; cbn [length] in *; try lia.
  - cbn. rewrite generic_memset_list by lia. by rewrite take_0.
  - cbn. destruct (Z.eqb_spec x 0); [lia|]. unfold cstr in IH. by rewrite IH by lia.
Qed.

Lemma strstr_spec a h n jh jn :
  nonul h -> nonul n -> zlen n < SIZE_MAX a ->
  exists r, strstr a (cstr h jh) (cstr n jn) = Some r
    /\ match r with
       | Some i => (i < length h)%nat /\ n `prefix_of` drop i h
                   /\ forall k, (k < i)%nat -> ~ n `prefix_of` drop k h
       | None => forall k, (k < length h)%nat -> ~ n `prefix_of` drop k h
       end.
Proof.
  intros Hh Hn Hl. unfold strstr, strlen. rewrite strnlen_cstr by done. rewrite Nat2Z.id.
  induction Hh as [|x h Hx Hh IH]; simpl.
  - exists None. split; [done|]. intros; lia.
  - destruct (Z.eqb_spec x 0); [lia|].
    destruct (memcmp_cstr n (x :: h) jh (0 :: jn) Hn) as (d&E&Hd).
    unfold cstr in *. simpl app in *. rewrite E. destruct (Z.eqb_spec d 0) as [He|Hne].
    + exists (Some 0%nat). split; [done|]. repeat split; [lia|by apply Hd|intros; lia].
    + destruct IH as (r&Er&Hr). rewrite Er. exists (S <$> r). split; [done|].
      assert (H0 : ~ n `prefix_of` x :: h) by tauto.
      destruct r as [i|]; simpl in *.
      * destruct Hr as (H1&H2&H3). repeat split; [lia|done|]. intros [|k] Hk; [done|apply H3; lia].
      * intros [|k] Hk; [done|apply Hr; lia].
Qed.

(**  [strstr] returns the first position of a non-empty haystack suffix
    that starts with the needle, and [NULL] when there is none; although it
    compares with [memcmp], it never reads past the terminator of either
    string. *)
Theorem strstr_correct a h n jh jn :
  nonul h -> nonul n -> zlen n < SIZE_MAX a ->
  exists r, strstr a (cstr h jh) (cstr n jn) = Some r
    /\ match r with
       | Some i => (i < length h)%nat /\ n `prefix_of` drop i h
                   /\ forall k, (k < i)%nat -> ~ n `prefix_of` drop k h
       | None => forall k, (k < length h)%nat -> ~ n `prefix_of` drop k h
       end.
Proof. apply strstr_spec. Qed.

Lemma strstr_correct_witness :
  exists r, strstr Arch32 (cstr [1; 2; 1; 2; 3] [9]) (cstr [1; 2; 3] []) = Some r
    /\ match r with
       | Some i => (i < 5)%nat /\ [1; 2; 3] `prefix_of` drop i [1; 2; 1; 2; 3]
                   /\ forall k, (k < i)%nat -> ~ [1; 2; 3] `prefix_of` drop k [1; 2; 1; 2; 3]
       | None => forall k, (k < 5)%nat -> ~ [1; 2; 3] `prefix_of` drop k [1; 2; 1; 2; 3]
       end.
Proof.
  apply (strstr_correct Arch32 [1; 2; 1; 2; 3] [1; 2; 3] [9] []); [solve_nonul..|reflexivity].
Defined.

(** An empty haystack never contains anything, not even the empty string. *)
Example strstr_empty : strstr Arch32 (cstr [] []) (cstr [] []) = Some None.
Proof. reflexivity. Qed.
