(* ===== verification/Memory.v ===== *)
(** * Bytes of a memory object

    Reads, writes and moves at an offset of an object, with the bounds of the
    object checked: [None] is an access outside it.  Shared by the components
    that work on buffers. *)
From S2P Require Import Prelude Strings.

Definition mem_byte (mem : list Z) (off : Z) : option Z :=
  if 0 <=? off then mem !! Z.to_nat off else None.

Definition mem_read (mem : list Z) (off len : Z) : option (list Z) :=
  if (0 <=? off) && (0 <=? len) && (off + len <=? zlen mem)
  then Some (take (Z.to_nat len) (drop (Z.to_nat off) mem)) else None.

Definition mem_write (mem : list Z) (off : Z) (bytes : list Z) : option (list Z) :=
  if (0 <=? off) && (off + zlen bytes <=? zlen mem)
  then Some (take (Z.to_nat off) mem ++ bytes ++ drop (Z.to_nat off + length bytes) mem) else None.

Definition mem_move (mem : list Z) (dest src len : Z) : option (list Z) :=
  if (0 <=? dest) && (0 <=? src) && (0 <=? len) && (dest + len <=? zlen mem) && (src + len <=? zlen mem)
  then generic_memmove mem (Z.to_nat dest) (Z.to_nat src) (Z.to_nat len) else None.

(** ** Lemmas *)

Lemma mem_byte_app pre b l off : off = zlen pre -> mem_byte (pre ++ b :: l) off = Some b.
Proof.
  intros ->. unfold mem_byte. rewrite (proj2 (Z.leb_le _ _)) by lia.
  rewrite Nat2Z.id, lookup_app_r, Nat.sub_diag by lia. done.
Qed.

Lemma mem_byte_app1 pre b c l off : off = zlen pre + 1 -> mem_byte (pre ++ b :: c :: l) off = Some c.
Proof.
  intros ->. rewrite (cons_middle b pre), app_assoc. apply mem_byte_app. rewrite zlen_app. cbn [length]. lia.
Qed.

Lemma mem_write_at (A H new R : list Z) :
  length H = length new -> mem_write (A ++ H ++ R) (zlen A) new = Some (A ++ new ++ R).
Proof.
  intros HH. unfold mem_write.
  rewrite (proj2 (Z.leb_le 0 _)), (proj2 (Z.leb_le _ _)) by (rewrite ?length_app; lia).
  cbn [andb]. rewrite Nat2Z.id, take_app_length. do 3 f_equal.
  rewrite drop_app_add, <- HH, drop_app_length. done.
Qed.

Lemma mem_read_at (A b R : list Z) : mem_read (A ++ b ++ R) (zlen A) (zlen b) = Some b.
Proof.
  unfold mem_read. rewrite !(proj2 (Z.leb_le _ _)) by (rewrite ?zlen_app; lia). cbn [andb].
  by rewrite !Nat2Z.id, drop_app_length, take_app_length.
Qed.

Lemma mem_read_all (bytes : list Z) : mem_read bytes 0 (zlen bytes) = Some bytes.
Proof.
  unfold mem_read. rewrite !(proj2 (Z.leb_le _ _)) by lia. cbn [andb]. rewrite Nat2Z.id. change (Z.to_nat 0) with 0%nat.
  by rewrite drop_0, firstn_all.
Qed.

Lemma mem_read_app (l k : list Z) off len :
  0 <= off -> 0 <= len -> off + len <= zlen l -> mem_read (l ++ k) off len = mem_read l off len.
Proof.
  intros H1 H2 H3. unfold mem_read. rewrite !(proj2 (Z.leb_le _ _)) by (rewrite ?zlen_app; lia). cbn [andb].
  f_equal. rewrite drop_app_le by lia. rewrite take_app_le by (rewrite length_drop; lia). done.
Qed.

Lemma mem_write_split (mem : list Z) off bytes : 0 <= off -> off + zlen bytes <= zlen mem ->
  exists mem', mem_write mem off bytes = Some mem' /\ length mem' = length mem
    /\ mem_read mem' off (zlen bytes) = Some bytes
    /\ forall o n, 0 <= o -> 0 <= n -> (o + n <= off \/ off + zlen bytes <= o) -> o + n <= zlen mem ->
       mem_read mem' o n = mem_read mem o n.
Proof.
  intros Ho Hl. set (A := take (Z.to_nat off) mem). set (T := drop (Z.to_nat off + length bytes) mem).
  assert (HA : zlen A = off) by (subst A; rewrite length_take; lia).
  exists (A ++ bytes ++ T). unfold mem_write. rewrite !(proj2 (Z.leb_le _ _)) by lia. cbn [andb].
  split; [done|]. assert (Hlen : length (A ++ bytes ++ T) = length mem) by (subst A T; rewrite !length_app, length_take, length_drop; lia).
  split; [done|]. split.
  - unfold mem_read. rewrite !(proj2 (Z.leb_le _ _)) by lia. cbn [andb]. rewrite <- HA, !Nat2Z.id.
    by rewrite drop_app_length, take_app_length.
  - intros o n H1 H2 Hdis Hb. unfold mem_read. rewrite !(proj2 (Z.leb_le _ _)) by lia. cbn [andb]. f_equal.
    apply list_eq. intros i. destruct (decide (i < Z.to_nat n)%nat).
    + rewrite !lookup_take_lt, !lookup_drop by lia. destruct Hdis.
      * rewrite lookup_app_l by lia. subst A. by rewrite lookup_take_lt by lia.
      * rewrite !lookup_app_r by lia. subst T. rewrite lookup_drop. f_equal. lia.
    + by rewrite !lookup_take_ge by lia.
Qed.

Lemma mem_read_Some mem off len d : mem_read mem off len = Some d -> 0 <= off /\ 0 <= len /\ off + len <= zlen mem /\ zlen d = len
  /\ d = take (Z.to_nat len) (drop (Z.to_nat off) mem).
Proof.
  unfold mem_read. intros H. case_if_in H; [|done]. injection H as <-. rewrite length_take, length_drop. split_and!; try done; lia.
Qed.

Lemma mem_read_split mem off m n d : 0 <= m -> 0 <= n -> mem_read mem off (m + n) = Some d ->
  mem_read mem off m = Some (take (Z.to_nat m) d) /\ mem_read mem (off + m) n = Some (drop (Z.to_nat m) d).
Proof.
  intros Hm Hn H. apply mem_read_Some in H as (H1 & H2 & H3 & _ & ->). unfold mem_read. rewrite !(proj2 (Z.leb_le _ _)) by lia. cbn [andb].
  split; f_equal.
  - rewrite take_take. f_equal. lia.
  - rewrite Z2Nat.inj_add by lia. rewrite <- drop_drop. rewrite (Z2Nat.inj_add m n) by lia. by rewrite <- take_drop_commute.
Qed.

Lemma mem_write_Some mem off x mem' : mem_write mem off x = Some mem' ->
  exists A H R, mem = A ++ H ++ R /\ zlen A = off /\ length H = length x /\ mem' = A ++ x ++ R.
Proof.
  unfold mem_write. intros H. case_if_in H; [|done]. injection H as <-.
  exists (take (Z.to_nat off) mem), (take (length x) (drop (Z.to_nat off) mem)), (drop (Z.to_nat off + length x) mem).
  rewrite <- drop_drop, take_drop, take_drop, !length_take, length_drop. split_and!; try done; lia.
Qed.

Lemma mem_write_app mem off x y mem' : mem_write mem off x = Some mem' -> mem_write mem' (off + zlen x) y = mem_write mem off (x ++ y).
Proof.
  intros H. apply mem_write_Some in H as (A & H & R & -> & <- & HL & ->). destruct (Z.leb_spec (zlen y) (zlen R)) as [Hf|Hf].
  - rewrite <- (take_drop (length y) R). set (T := take (length y) R). assert (HT : length T = length y) by (unfold T; rewrite length_take; lia).
    rewrite (app_assoc A x), <- zlen_app, mem_write_at by done. rewrite (app_assoc H T), mem_write_at by (rewrite !length_app; lia). by rewrite <- !app_assoc.
  - unfold mem_write. rewrite !zlen_app, (proj2 (Z.leb_gt (zlen A + zlen x + zlen y) _)), (proj2 (Z.leb_gt (zlen A + (zlen x + zlen y)) _)) by lia.
    by rewrite !andb_false_r.
Qed.

Lemma mem_write_read mem off x mem' o n d : mem_write mem off x = Some mem' -> o + n <= off \/ off + zlen x <= o ->
  mem_read mem o n = Some d -> mem_read mem' o n = Some d.
Proof.
  intros Hw Hd Hr. pose proof (mem_read_Some _ _ _ _ Hr) as (H1 & H2 & H3 & _). pose proof Hw as Hw'. apply mem_write_Some in Hw' as (A & H & R & E & EA & HL & _).
  destruct (mem_write_split mem off x) as (m & Em & _ & _ & H4); [lia|rewrite E, !zlen_app; lia|]. rewrite Em in Hw. injection Hw as <-. by rewrite H4.
Qed.

(** ** Network byte order *)

Definition be16 (z : Z) : list Z := [z / 256 mod 256; z mod 256].
Definition be32 (z : Z) : list Z := [z / 16777216 mod 256; z / 65536 mod 256; z / 256 mod 256; z mod 256].

(** [ntohs] and [ntohl] of the bytes of a field. *)
Definition be_val (bytes : list Z) : Z := fold_left (fun v b => v * 256 + b) bytes 0.

Lemma be16_val z : be_val (be16 z) = z mod 2 ^ 16.
Proof. unfold be_val, be16. cbn [fold_left]. change (2 ^ 16) with 65536. Z.div_mod_to_equations. lia. Qed.

Lemma be32_val z : be_val (be32 z) = z mod 2 ^ 32.
Proof. unfold be_val, be32. cbn [fold_left]. change (2 ^ 32) with 4294967296. Z.div_mod_to_equations. lia. Qed.

Lemma be16_bytes z : bytes_ok (be16 z).
Proof. unfold be16. repeat constructor; apply Z.mod_pos_bound; lia. Qed.

Lemma be32_bytes z : bytes_ok (be32 z).
Proof. unfold be32. repeat constructor; apply Z.mod_pos_bound; lia. Qed.

Lemma be_val_from l v : fold_left (fun v b => v * 256 + b) l v = v * 256 ^ zlen l + be_val l.
Proof.
  unfold be_val. revert v. induction l as [|b l IH]; intros v; cbn [fold_left length]; [lia|].
  rewrite IH, (IH (0 * 256 + b)), Nat2Z.inj_succ, Z.pow_succ_r by lia. ring.
Qed.

Lemma be_val_cons b l : be_val (b :: l) = b * 256 ^ zlen l + be_val l.
Proof. unfold be_val at 1. cbn [fold_left]. by rewrite be_val_from. Qed.

Lemma be_val_app l k : be_val (l ++ k) = be_val l * 256 ^ zlen k + be_val k.
Proof. unfold be_val at 1. by rewrite fold_left_app, be_val_from. Qed.

Lemma be_val_range l : bytes_ok l -> 0 <= be_val l < 256 ^ zlen l.
Proof.
  induction 1 as [|b l Hb _ IH]; [by vm_compute|]. rewrite be_val_cons. cbn [length]. rewrite Nat2Z.inj_succ, Z.pow_succ_r by lia.
  unfold byte_ok in Hb. nia.
Qed.

(** The exclusive or of two strings of the same length. *)
Lemma be_val_xor l k : bytes_ok l -> bytes_ok k -> length l = length k -> be_val (zip_with Z.lxor l k) = Z.lxor (be_val l) (be_val k).
Proof.
  intros Hl. revert k. induction Hl as [|x l Hx Hl IH]; intros k Hk E; destruct Hk as [|y k Hy Hk]; try done. injection E as E.
  cbn [zip_with]. rewrite !be_val_cons, IH, length_zip_with, E, Nat.min_id by done. change 256 with (2 ^ 8). rewrite <- Z.pow_mul_r by lia.
  pose proof (be_val_range l Hl) as Rl. pose proof (be_val_range k Hk) as Rk. rewrite E in Rl. change 256 with (2 ^ 8) in Rl, Rk.
  rewrite <- Z.pow_mul_r in Rl, Rk by lia. set (n := 8 * zlen k) in *. assert (Hn : 0 <= n) by lia.
  assert (Hx0 : 0 <= Z.lxor (be_val l) (be_val k) < 2 ^ n) by (split; [apply Z.lxor_nonneg; lia|apply lxor_below; lia]).
  apply Z.bits_inj'. intros i Hi. rewrite Z.lxor_spec, <- !lor_mul_add by lia.
  rewrite <- !Z.shiftl_mul_pow2, !Z.lor_spec, !Z.shiftl_spec, !Z.lxor_spec by lia.
  destruct (Z.ltb_spec i n).
  - rewrite !(Z.testbit_neg_r _ (i - n)) by lia. done.
  - rewrite !(testbit_high _ n i) by lia. by rewrite !orb_false_r.
Qed.
