(* ===== verification/Printf.v ===== *)
(** * Formatted output ([core/vsprintf.c], [core/vtoy.c])

    [vcprintf] is modelled as the list of characters it hands to its output
    handler; the consumers ([vsnprintf] and friends) are then defined from
    that list.  The argument list is a list of typed values.  [None] stands
    for behaviour outside the function's contract: an argument of the wrong
    type, a format string that ends inside a conversion, a length modifier
    before the start of the table, or a field that does not fit the 32-byte
    temporary buffer. *)

From S2P Require Import Prelude Strings.

Definition LCASE : Z := 0x20.
Definition ALT_FORM : Z := 0x02.
Definition ZPAD : Z := 0x10.

Definition LONG_LEN : Z := 3.
Definition INT_LEN : Z := 2.
Definition SIZE_T_LEN : Z := 5.

(** [type_sizes]: char, short, int, long, long long, size_t. *)
Definition type_sizes (a : arch) : list Z := [1; 2; 4; ptr_bytes a; 8; ptr_bytes a].

(** ** Number formatting

    The C code fills a buffer from its end towards its start: pushing a
    character to the front of a list. *)

Definition hex_char (n : Z) : Z := if n <? 10 then 48 + n else 65 + (n - 10).

Fixpoint hex_digits (fuel : nat) (case_mod num : Z) (ptr : list Z) : list Z :=
  match fuel with
  | O => ptr
  | S fuel' =>
      let ptr := Z.lor (hex_char (Z.land num 0xf)) case_mod :: ptr in
      let num := Z.shiftr num 4 in
      if num =? 0 then ptr else hex_digits fuel' case_mod num ptr
  end.

Definition pad_to (width pad : Z) (ptr : list Z) : list Z :=
  replicate (Z.to_nat (width - zlen ptr)) pad ++ ptr.

Definition flag_set (flags bit : Z) : bool := negb (Z.land flags bit =? 0).

Definition format_hex (num width flags : Z) : list Z :=
  let case_mod := Z.land flags LCASE in
  let pad := Z.lor (Z.land flags ZPAD) 32 in
  let ptr := pad_to width pad (hex_digits 16 case_mod num []) in
  if flag_set flags ALT_FORM then 48 :: Z.lor 88 case_mod :: ptr else ptr.

(** Digits of a number with C's truncating division. *)
Fixpoint dec_digits (fuel : nat) (num : Z) (ptr : list Z) : list Z :=
  match fuel with
  | O => ptr
  | S fuel' =>
      let ptr := u8 (48 + Z.rem num 10) :: ptr in
      let num := Z.quot num 10 in
      if num =? 0 then ptr else dec_digits fuel' num ptr
  end.

(** Twenty digits are enough for 64 bits. *)
Definition dec_fuel : nat := 20.

Definition format_decimal (a : arch) (num width flags : Z) : list Z :=
  let zpad := Z.land flags ZPAD in
  let pad := Z.lor zpad 32 in
  let negative := num <? 0 in
  let num := if negative then swrap (size_bits a) (- num) else num in
  let ptr := dec_digits dec_fuel num [] in
  let ptr := if negative && (zpad =? 0) then 45 :: ptr else ptr in
  let ptr := pad_to width pad ptr in
  if negative && negb (zpad =? 0) then
    match ptr with _ :: rest => 45 :: rest | [] => ptr end
  else ptr.

Definition vtoy_format_unsigned_decimal (num width flags : Z) : list Z :=
  let zpad := Z.land flags ZPAD in
  let pad := Z.lor zpad 32 in
  pad_to width pad (dec_digits dec_fuel num []).

(** ** The format interpreter *)

Inductive printf_arg : Type :=
| ArgInt (z : Z)
| ArgStr (s : option (list Z))
| ArgWstr (s : option (list Z)).

#[export] Instance printf_arg_eq_dec : EqDecision printf_arg.
Proof. solve_decision. Defined.

Fixpoint parse_flags (fmt : list Z) (flags : Z) : Z * list Z :=
  match fmt with
  | c :: fmt' =>
      if c =? 35 then parse_flags fmt' (Z.lor flags ALT_FORM)
      else if c =? 48 then parse_flags fmt' (Z.lor flags ZPAD)
      else (flags, fmt)
  | [] => (flags, [])
  end.

Fixpoint parse_width (fmt : list Z) (width : Z) : Z * list Z :=
  match fmt with
  | c :: fmt' =>
      if u32 (c - 48) <? 10 then parse_width fmt' (width * 10 + (c - 48)) else (width, fmt)
  | [] => (width, [])
  end.

(** The length modifier is an index into [type_sizes]. *)
Fixpoint parse_length (fmt : list Z) (length : Z) : Z * list Z :=
  match fmt with
  | c :: fmt' =>
      if c =? 104 then parse_length fmt' (length - 1)
      else if c =? 108 then parse_length fmt' (length + 1)
      else if c =? 122 then parse_length fmt' SIZE_T_LEN
      else (length, fmt)
  | [] => (length, [])
  end.

(** The characters of a buffer up to its terminator. *)
Fixpoint until_nul (s : list Z) : list Z :=
  match s with
  | c :: s' => if c =? 0 then [] else c :: until_nul s'
  | [] => []
  end.

Definition NULL_text : list Z := [60; 78; 85; 76; 76; 62].

(** A number formatted at the end of [tmp_buf[32]], whose last byte holds
    the terminator. *)
Definition in_tmp_buf (text : list Z) : option (list Z) :=
  if zlen text <=? 31 then Some (until_nul text) else None.

Section Vcprintf.
Context (a : arch).

Definition type_size (length : Z) : option Z :=
  if 0 <=? length then type_sizes a !! Z.to_nat length else None.

(** The characters written for the conversion specifier [c], and the
    remaining arguments. *)
Definition convert (flags width length c : Z) (args : list printf_arg)
  : option (list Z * list printf_arg) :=
  if c =? 99 then
    opt! (z, args) := match args with ArgInt z :: r => Some (z, r) | _ => None end in
    if length <? LONG_LEN then Some ([u8 z], args) else Some (until_nul [u8 z], args)
  else if c =? 115 then
    if length <? LONG_LEN then
      match args with
      | ArgStr (Some s) :: r => Some (until_nul s, r)
      | ArgStr None :: r => Some (NULL_text, r)
      | _ => None
      end
    else
      match args with
      | ArgWstr (Some s) :: r => Some (u8 <$> until_nul s, r)
      | ArgWstr None :: r => Some (NULL_text, r)
      | _ => None
      end
  else if c =? 112 then
    opt! (z, args) := match args with ArgInt z :: r => Some (z, r) | _ => None end in
    opt! text := in_tmp_buf
      (format_hex (u64 (swrap (size_bits a) z)) width (Z.lor ALT_FORM LCASE)) in
    Some (text, args)
  else if Z.land c (Z.lnot 0x20) =? 88 then
    let flags := Z.lor flags (Z.land c 0x20) in
    opt! size := type_size length in
    opt! (z, args) := match args with ArgInt z :: r => Some (z, r) | _ => None end in
    let hex := if 8 <=? size then u64 z
               else if ptr_bytes a <=? size then uwrap (size_bits a) z else u32 z in
    opt! text := in_tmp_buf (format_hex hex width flags) in Some (text, args)
  else if (c =? 100) || (c =? 105) then
    opt! size := type_size length in
    opt! (z, args) := match args with ArgInt z :: r => Some (z, r) | _ => None end in
    let decimal := if ptr_bytes a <=? size then swrap (size_bits a) z else swrap 32 z in
    opt! text := in_tmp_buf (format_decimal a decimal width flags) in Some (text, args)
  else if (c =? 117) || (c =? 85) then
    opt! size := type_size length in
    opt! (z, args) := match args with ArgInt z :: r => Some (z, r) | _ => None end in
    let decimal := if 8 <=? size then u64 z
                   else if ptr_bytes a <=? size then uwrap (size_bits a) z else u32 z in
    opt! text := in_tmp_buf (vtoy_format_unsigned_decimal decimal width flags) in
    Some (text, args)
  else Some (until_nul [c], args).

(** One round of the loop consumes at least one character of the format. *)
Fixpoint vcprintf_loop (fuel : nat) (fmt : list Z) (args : list printf_arg)
  : option (list Z) :=
  match fuel with
  | O => None
  | S fuel' =>
      match fmt with
      | [] => Some []
      | c :: fmt =>
          if negb (c =? 37) then
            opt! out := vcprintf_loop fuel' fmt args in Some (c :: out)
          else
            let '(flags, fmt) := parse_flags fmt 0 in
            let '(width, fmt) := parse_width fmt 0 in
            let '(length, fmt) := parse_length fmt INT_LEN in
            match fmt with
            | [] => None
            | c :: fmt =>
                opt! (text, args) := convert flags width length c args in
                opt! out := vcprintf_loop fuel' fmt args in
                Some (text ++ out)
            end
      end
  end.

Definition vcprintf (fmt : list Z) (args : list printf_arg) : option (list Z) :=
  vcprintf_loop (S (length fmt)) fmt args.

(** [printf_sputc] for the character at position [len] of the output. *)
Definition printf_sputc (buf : list Z) (off max_len len c : Z) : option (list Z) :=
  if len <? max_len then
    if (0 <=? off) && (off + len <? zlen buf)
    then Some (<[Z.to_nat (off + len) := u8 c]> buf) else None
  else Some buf.

Fixpoint sputs (buf : list Z) (off max_len len : Z) (out : list Z) : option (list Z) :=
  match out with
  | [] => Some buf
  | c :: out' =>
      opt! buf := printf_sputc buf off max_len len c in
      sputs buf off max_len (len + 1) out'
  end.

(** [vsnprintf] into the buffer at offset [off] of an object.  The result is
    the length as counted; the conversion to the [int] that is returned changes
    it only for an output of 2^31 or more characters. *)
Definition vsnprintf (buf : list Z) (off size : Z) (fmt : list Z) (args : list printf_arg)
  : option (list Z * Z) :=
  opt! out := vcprintf fmt args in
  opt! buf := sputs buf off size 0 out in
  let len := zlen out in
  if size =? 0 then Some (buf, len)
  else
    let end_ := if len <? size - 1 then len else size - 1 in
    if (0 <=? off) && (off + end_ <? zlen buf)
    then Some (<[Z.to_nat (off + end_) := 0]> buf, len) else None.

Definition snprintf := vsnprintf.

Definition vssnprintf (buf : list Z) (off ssize : Z) (fmt : list Z) (args : list printf_arg)
  : option (list Z * Z) :=
  vsnprintf buf off (if ssize <? 0 then 0 else ssize) fmt args.

Definition ssnprintf := vssnprintf.
End Vcprintf.

(** "id %03d: %#x %s" *)
Example vcprintf_demo :
  vcprintf Arch32 [105; 37; 48; 51; 100; 58; 37; 35; 120; 32; 37; 115]
    [ArgInt 7; ArgInt 255; ArgStr (Some [111; 107])]
  = Some [105; 48; 48; 55; 58; 48; 120; 102; 102; 32; 111; 107].
Proof. reflexivity. Qed.

Lemma until_nul_cstr s j : nonul s -> until_nul (cstr s j) = s.
Proof. induction 1 as [|x s Hx Hs IH]; [done|]. cbn. destruct (Z.eqb_spec x 0); [lia|]. unfold cstr in IH. by rewrite IH. Qed.

(** One conversion of the interpreter. *)
Lemma vcprintf_conv a fuel fmt args flags width length c fmt' text args' :
  (let '(fl, f1) := parse_flags fmt 0 in let '(w, f2) := parse_width f1 0 in
   let '(l, f3) := parse_length f2 INT_LEN in (fl, w, l, f3)) = (flags, width, length, c :: fmt') ->
  convert a flags width length c args = Some (text, args') ->
  vcprintf_loop a (S fuel) (37 :: fmt) args
  = (opt! out := vcprintf_loop a fuel fmt' args' in Some (text ++ out)).
Proof.
  intros E C. cbn [vcprintf_loop]. change (negb (37 =? 37)) with false. cbv iota.
  destruct (parse_flags fmt 0) as [fl f1]. destruct (parse_width f1 0) as [w f2].
  destruct (parse_length f2 INT_LEN) as [l f3]. simplify_eq. by rewrite C.
Qed.

(** The fuel of [vcprintf] always covers the format string. *)
Lemma parse_flags_length fmt flags : (length (parse_flags fmt flags).2 <= length fmt)%nat.
Proof.
  revert flags. induction fmt as [|c fmt IH]; intros flags; simpl; [done|].
  repeat case_if; simpl; try lia; etrans; [apply IH|lia|apply IH|lia].
Qed.

Lemma parse_width_length fmt n : (length (parse_width fmt n).2 <= length fmt)%nat.
Proof.
  revert n. induction fmt as [|c fmt IH]; intros n; simpl; [done|].
  case_if; simpl; [|lia]. etrans; [apply IH|lia].
Qed.

Lemma parse_length_length fmt n : (length (parse_length fmt n).2 <= length fmt)%nat.
Proof.
  revert n. induction fmt as [|c fmt IH]; intros n; simpl; [done|].
  repeat case_if; simpl; try lia; (etrans; [apply IH|lia]).
Qed.

Lemma vcprintf_fuel a fuel1 fuel2 fmt args :
  (length fmt < fuel1)%nat -> (length fmt < fuel2)%nat ->
  vcprintf_loop a fuel1 fmt args = vcprintf_loop a fuel2 fmt args.
Proof.
  revert fuel2 fmt args. induction fuel1 as [|fuel1 IH]; intros [|fuel2] fmt args H1 H2; try lia.
  cbn [vcprintf_loop]. destruct fmt as [|c fmt]; [done|]. cbn [length] in *.
  case_if; [by rewrite (IH fuel2) by lia|].
  pose proof (parse_flags_length fmt 0). destruct (parse_flags fmt 0) as [flags f1].
  pose proof (parse_width_length f1 0). destruct (parse_width f1 0) as [width f2].
  pose proof (parse_length_length f2 INT_LEN). destruct (parse_length f2 INT_LEN) as [len [|c' f3]]; [done|].
  destruct (convert a flags width len c' args) as [[text args']|]; [|done].
  simpl in *. by rewrite (IH fuel2) by lia.
Qed.

(** ** Numbers print and parse back *)

(** Value of a digit string in base [b], continuing from [v]. *)
Definition digits_value (b v : Z) (ds : list Z) : Z :=
  fold_left (fun v c => v * b + digit_value c) ds v.

Lemma digit_value_dec d : 0 <= d < 10 -> digit_value (48 + d) = d.
Proof.
  intros Hd. unfold digit_value. repeat case_if; try lia. rewrite uwrap_small; lia.
Qed.

Lemma strtoul_digits_app w b ds c t v :
  0 < b < 2 ^ 32 -> Forall (fun c => digit_value c < b) ds -> b <= digit_value c ->
  uwrap w v = v ->
  strtoul_digits w b (ds ++ c :: t) v = Some (uwrap w (digits_value b v ds), c :: t).
Proof.
  intros Hb Hds Hc. revert v. induction Hds as [|d ds Hd Hds IH]; intros v Hv; simpl;
    rewrite (uwrap_small 32 b) by lia.
  - destruct (Z.leb_spec b (digit_value c)); [|lia]. by rewrite Hv.
  - destruct (Z.leb_spec b (digit_value d)); [lia|].
    rewrite IH by apply uwrap_idemp. do 2 f_equal.
    clear. cbn [digits_value fold_left]. fold (digits_value b).
    assert (Hcong : forall ds x y, uwrap w x = uwrap w y ->
      uwrap w (fold_left (fun v c => v * b + digit_value c) ds x)
      = uwrap w (fold_left (fun v c => v * b + digit_value c) ds y)).
    { clear. induction ds as [|c ds IH]; intros x y H; simpl; [done|]. apply IH.
      unfold uwrap in *. rewrite Zplus_mod, Zmult_mod, H, <- Zmult_mod, <- Zplus_mod. done. }
    apply Hcong, uwrap_idemp.
Qed.

Lemma digits_value_app b v ds1 ds2 :
  digits_value b v (ds1 ++ ds2) = digits_value b (digits_value b v ds1) ds2.
Proof. apply fold_left_app. Qed.

(** The decimal digits are digits, there is at least one, and their value is
    the number. *)
Lemma dec_digits_spec fuel n acc :
  0 <= n < 10 ^ Z.of_nat fuel -> (0 < fuel)%nat ->
  exists ds, dec_digits fuel n acc = ds ++ acc /\ ds <> []
    /\ Forall (fun c => 48 <= c < 58) ds /\ digits_value 10 0 ds = n.
Proof.
  revert n acc. induction fuel as [|fuel IH]; intros n acc Hn Hf; [lia|].
  cbn [dec_digits]. rewrite Z.rem_mod_nonneg, Z.quot_div_nonneg by lia.
  pose proof (Z.mod_pos_bound n 10 ltac:(lia)).
  rewrite uwrap_small by lia.
  destruct (Z.eqb_spec (n / 10) 0) as [He|Hne].
  - exists [48 + n mod 10]. repeat split; [done|constructor; [lia|constructor]|].
    cbn [digits_value fold_left]. rewrite digit_value_dec by lia.
    pose proof (Z.div_mod n 10). lia.
  - destruct fuel as [|fuel]; [change (10 ^ Z.of_nat 1) with 10 in Hn; exfalso; apply Hne, Z.div_small; lia|].
    destruct (IH (n / 10) (48 + n mod 10 :: acc)) as (ds&E&Hnil&Hds&Hv); [|lia|].
    { rewrite Nat2Z.inj_succ, Z.pow_succ_r in Hn by lia.
      split; [apply Z.div_pos; lia|apply Z.div_lt_upper_bound; lia]. }
    exists (ds ++ [48 + n mod 10]). rewrite E, <- app_assoc. repeat split.
    + by destruct ds.
    + apply Forall_app. split; [done|]. constructor; [lia|constructor].
    + rewrite digits_value_app, Hv. cbn [digits_value fold_left].
      rewrite digit_value_dec by lia. pose proof (Z.div_mod n 10). lia.
Qed.

Lemma pad_to_zero pad ptr : pad_to 0 pad ptr = ptr.
Proof. unfold pad_to. by replace (Z.to_nat (0 - zlen ptr)) with 0%nat by lia. Qed.

Lemma dec_fuel_enough a n : 0 <= n < 2 ^ (size_bits a) -> n < 10 ^ Z.of_nat dec_fuel.
Proof.
  intros [_ Hn]. eapply Z.lt_trans; [exact Hn|]. destruct a; vm_compute; reflexivity.
Qed.

(** Parsing a digit string that follows an optional sign. *)
Lemma strtoul_signed_digits w (neg : bool) ds c t :
  ds <> [] -> Forall (fun c => 48 <= c < 58) ds -> 10 <= digit_value c ->
  0 <= digits_value 10 0 ds < 2 ^ w -> 0 <= w ->
  strtoul_width w ((if neg then [45] else []) ++ ds ++ c :: t) 10
  = Some (if neg then uwrap w (- digits_value 10 0 ds) else digits_value 10 0 ds, c :: t).
Proof.
  intros Hnil Hds Hc Hv Hw. unfold strtoul_width, strtoul_pre.
  destruct ds as [|d ds]; [done|]. inversion Hds as [|? ? Hd Hds']; subst.
  assert (Hskip : skip_space ((if neg then [45] else []) ++ d :: ds ++ c :: t)
                  = (if neg then [45] else []) ++ d :: ds ++ c :: t).
  { destruct neg; simpl; [done|]. unfold isspace.
    repeat match goal with |- context [d =? ?k] => destruct (Z.eqb_spec d k); [lia|] end. done. }
  cbn [app] in *. rewrite Hskip.
  assert (Hdig : strtoul_digits w 10 ((d :: ds) ++ c :: t) 0
                 = Some (digits_value 10 0 (d :: ds), c :: t)).
  { rewrite strtoul_digits_app; [by rewrite uwrap_small|done| |done|].
    - eapply Forall_impl; [exact Hds|]. intros x Hx. simpl in Hx.
      replace x with (48 + (x - 48)) by lia. rewrite digit_value_dec; lia.
    - apply uwrap_small. lia. }
  cbn [app] in Hdig. destruct neg; cbn -[strtoul_digits digits_value uwrap].
  - by rewrite Hdig.
  - destruct (Z.eqb_spec d 45); [lia|]. destruct (Z.eqb_spec d 43); [lia|]. by rewrite Hdig.
Qed.

(**  [strtoul] reads back what [%ld] prints: for every [long] except the
    most negative one (which has no positive counterpart), parsing the output
    of [format_decimal] in base ten gives the same [long] bit pattern and stops
    at the first character after it. *)
Theorem strtoul_format_decimal a num c t :
  - 2 ^ (size_bits a - 1) < num < 2 ^ (size_bits a - 1) -> 10 <= digit_value c ->
  strtoul a (format_decimal a num 0 0 ++ c :: t) 10 = Some (uwrap (size_bits a) num, c :: t).
Proof.
  intros Hn Hc. assert (Hw : 2 ^ size_bits a = 2 * 2 ^ (size_bits a - 1)) by (destruct a; reflexivity).
  unfold format_decimal, strtoul. rewrite !pad_to_zero. simpl (Z.land 0 ZPAD).
  rewrite Z.eqb_refl, !andb_true_r, andb_false_r.
  assert (Hpos : (if num <? 0 then swrap (size_bits a) (- num) else num) = Z.abs num).
  { case_if; [|lia]. rewrite swrap_small; [lia|destruct a; reflexivity|lia]. }
  rewrite Hpos.
  destruct (dec_digits_spec dec_fuel (Z.abs num) []) as (ds&E&Hnil&Hds&Hv);
    [split; [lia|apply (dec_fuel_enough a); lia]|unfold dec_fuel; lia|].
  rewrite E, app_nil_r.
  pose proof (strtoul_signed_digits (size_bits a) (num <? 0) ds c t Hnil Hds Hc) as Hp.
  rewrite Hv in Hp. specialize (Hp ltac:(lia) ltac:(destruct a; done)).
  destruct (Z.ltb_spec num 0); cbn [app] in *; rewrite Hp; do 2 f_equal.
  - f_equal. lia.
  - rewrite uwrap_small; lia.
Qed.

Lemma strtoul_format_decimal_witness :
  strtoul Arch64 (format_decimal Arch64 (-42) 0 0 ++ [0]) 10 = Some (uwrap (size_bits Arch64) (-42), [0]).
Proof. apply (strtoul_format_decimal Arch64 (-42) 0 []); [split; reflexivity|vm_compute; done]. Defined.

(**  Zero-padded negative numbers lose their first digit: when the digits
    already fill the field, the sign written by [format_decimal] replaces the
    most significant digit instead of preceding it. *)
Theorem format_decimal_zpad_overwrites a num width :
  - 2 ^ (size_bits a - 1) < num < 0 -> width <= zlen (format_decimal a (- num) 0 0) ->
  format_decimal a num width ZPAD = 45 :: tl (format_decimal a (- num) 0 0).
Proof.
  intros Hn. unfold format_decimal. rewrite !pad_to_zero. simpl (Z.land 0 ZPAD).
  rewrite Z.eqb_refl, !andb_true_r, andb_false_r.
  destruct (Z.ltb_spec num 0); [|lia]. destruct (Z.ltb_spec (- num) 0); [lia|].
  assert (Hw : 2 ^ size_bits a = 2 * 2 ^ (size_bits a - 1)) by (destruct a; reflexivity).
  rewrite swrap_small; [|destruct a; reflexivity|lia]. intros Hwid.
  change (Z.land ZPAD ZPAD =? 0) with false. cbn [andb negb]. unfold pad_to.
  replace (Z.to_nat _) with 0%nat by lia. cbn [replicate app].
  destruct (dec_digits_spec dec_fuel (- num) []) as (ds&E&Hnil&_);
    [split; [lia|apply (dec_fuel_enough a); lia]|unfold dec_fuel; lia|].
  rewrite app_nil_r in E. rewrite E. by destruct ds.
Qed.

(** "%03d" of -123 is "-23". *)
Lemma format_decimal_zpad_overwrites_witness :
  format_decimal Arch32 (-123) 3 ZPAD = [45; 50; 51].
Proof.
  rewrite (format_decimal_zpad_overwrites Arch32 (-123) 3); [reflexivity|split; reflexivity|].
  vm_compute. discriminate.
Defined.

(** ** Bounded output *)

Lemma sputs_spec buf off max_len len out :
  0 <= off -> 0 <= len -> off + max_len <= zlen buf ->
  exists buf', sputs buf off max_len len out = Some buf' /\ length buf' = length buf
    /\ forall i, buf' !! i =
         if decide (off + len <= Z.of_nat i < off + Z.min max_len (len + zlen out))
         then u8 <$> out !! Z.to_nat (Z.of_nat i - off - len) else buf !! i.
Proof.
  intros Hoff. revert buf len. induction out as [|c out IH]; intros buf len Hlen Hsz; cbn [sputs].
  - exists buf. repeat split; try done. intros i. case_decide; [simpl in *; lia|done].
  - unfold printf_sputc. destruct (Z.ltb_spec len max_len) as [Hlt|Hge].
    + destruct (Z.leb_spec 0 off); [|lia]. destruct (Z.ltb_spec (off + len) (zlen buf)); [|lia].
      cbn [andb]. destruct (IH (<[Z.to_nat (off + len):=u8 c]> buf) (len + 1)) as (buf'&E&Hl&Hi);
        [lia|rewrite length_insert; lia|].
      rewrite length_insert in Hl. exists buf'. repeat split; try done.
      intros i. rewrite Hi. cbn [length] in *. repeat case_decide; try lia.
      * replace (Z.to_nat (Z.of_nat i - off - len)) with (S (Z.to_nat (Z.of_nat i - off - (len + 1)))) by lia.
        done.
      * assert (i = Z.to_nat (off + len)) as -> by lia. rewrite list_lookup_insert_eq by lia.
        replace (Z.to_nat (Z.of_nat (Z.to_nat (off + len)) - off - len)) with 0%nat by lia. done.
      * rewrite list_lookup_insert_ne by lia. done.
    + destruct (IH buf (len + 1)) as (buf'&E&Hl&Hi); [lia|lia|].
      exists buf'. repeat split; try done. intros i. rewrite Hi. cbn [length] in *.
      repeat case_decide; try lia. done.
Qed.

(** Output that fits is written in full, followed by its terminator. *)
Lemma sputs_fits out pre mid tail size :
  bytes_ok out -> zlen mid + zlen out <= size -> (length out <= length tail)%nat ->
  sputs (pre ++ mid ++ tail) (zlen pre) size (zlen mid) out
  = Some (pre ++ mid ++ out ++ drop (length out) tail).
Proof.
  revert mid tail. induction out as [|c out IH]; intros mid tail Hb Hs Ht; cbn [sputs].
  - by rewrite drop_0.
  - apply Forall_cons in Hb as [Hc Hb]. destruct tail as [|t tail]; cbn [length] in *; [lia|].
    unfold printf_sputc. rewrite (proj2 (Z.ltb_lt _ _)), (proj2 (Z.leb_le _ _)), (proj2 (Z.ltb_lt _ _))
      by (rewrite ?length_app; cbn [length]; lia).
    cbn [andb]. replace (Z.to_nat (zlen pre + zlen mid)) with (length pre + (length mid + 0))%nat by lia.
    rewrite !insert_app_r. cbn [insert list_insert].
    rewrite (uwrap_small 8) by (unfold byte_ok in Hc; lia).
    specialize (IH (mid ++ [c]) tail). rewrite <- !app_assoc in IH. cbn [app] in IH.
    replace (zlen mid + 1) with (zlen (mid ++ [c])) by (rewrite length_app; cbn [length]; lia).
    apply IH; [done|rewrite length_app; cbn [length]; lia|lia].
Qed.

Lemma vssnprintf_fits a pre tail size fmt args out :
  vcprintf a fmt args = Some out -> bytes_ok out -> zlen out < size -> (length out < length tail)%nat ->
  vssnprintf a (pre ++ tail) (zlen pre) size fmt args
  = Some (pre ++ out ++ 0 :: drop (S (length out)) tail, zlen out).
Proof.
  intros E Hb Hs Ht. unfold vssnprintf, vsnprintf. rewrite E.
  destruct (Z.ltb_spec size 0); [lia|]. pose proof (sputs_fits out pre [] tail size) as F.
  cbn [app length] in F. change (Z.of_nat 0) with 0 in F. rewrite F by (done || lia).
  rewrite (proj2 (Z.eqb_neq size 0)) by lia.
  assert (zlen out <= size - 1) by lia.
  replace (if zlen out <? size - 1 then zlen out else size - 1) with (zlen out)
    by (destruct (Z.ltb_spec (zlen out) (size - 1)); lia).
  rewrite (proj2 (Z.leb_le _ _)), (proj2 (Z.ltb_lt _ _))
    by (rewrite ?length_app, ?length_drop; lia).
  cbn [andb]. replace (Z.to_nat (zlen pre + zlen out)) with (length pre + (length out + 0))%nat by lia.
  rewrite !insert_app_r. do 4 f_equal.
  destruct (drop (length out) tail) as [|d ds] eqn:Ed.
  - apply (f_equal length) in Ed. rewrite length_drop in Ed. cbn in Ed. lia.
  - cbn [insert list_insert]. f_equal. rewrite <- Nat.add_1_r, <- drop_drop, Ed. done.
Qed.

(** C36.  [snprintf] and friends stay inside the [size] bytes they are given:
    the output is written up to [size - 1] characters and always terminated
    (when there is any room), the rest of the object is untouched, and the
    return value is the full length the output would have had. *)
Theorem vsnprintf_correct a buf off size fmt args out :
  0 <= off -> 0 <= size -> off + size <= zlen buf -> vcprintf a fmt args = Some out ->
  exists buf', vsnprintf a buf off size fmt args = Some (buf', zlen out) /\ length buf' = length buf
    /\ (forall i, ~ (off <= Z.of_nat i < off + size) -> buf' !! i = buf !! i)
    /\ (forall i : nat, Z.of_nat i < Z.min (zlen out) (size - 1) ->
          buf' !! (Z.to_nat off + i)%nat = u8 <$> out !! i)
    /\ (0 < size -> buf' !! Z.to_nat (off + Z.min (zlen out) (size - 1)) = Some 0).
Proof.
  intros Hoff Hsize Hfit Hout. unfold vsnprintf. rewrite Hout.
  destruct (sputs_spec buf off size 0 out) as (b1&E&Hl&Hi); [lia..|]. rewrite E.
  destruct (Z.eqb_spec size 0) as [->|Hne].
  - exists b1. repeat split; try done; [|intros; lia].
    intros i Hn. rewrite Hi. case_decide; [lia|done].
  - set (end_ := if zlen out <? size - 1 then zlen out else size - 1).
    assert (Hend : end_ = Z.min (zlen out) (size - 1)) by (subst end_; case_if; lia).
    destruct (Z.leb_spec 0 off); [|lia]. destruct (Z.ltb_spec (off + end_) (zlen b1)); [|lia].
    cbn [andb]. exists (<[Z.to_nat (off + end_):=0]> b1). rewrite length_insert.
    repeat split; try done.
    + intros i Hn. rewrite list_lookup_insert_ne by lia. rewrite Hi. case_decide; [lia|done].
    + intros i Hlt. rewrite list_lookup_insert_ne by lia. rewrite Hi. case_decide; [|lia].
      do 2 f_equal. lia.
    + intros _. rewrite <- Hend. apply list_lookup_insert_eq. lia.
Qed.

Lemma vsnprintf_correct_witness :
  exists buf', vsnprintf Arch32 [9; 9; 9; 9; 9] 1 3 [37; 100] [ArgInt 1234] = Some (buf', 4)
    /\ length buf' = 5%nat
    /\ (forall i, ~ (1 <= Z.of_nat i < 1 + 3) -> buf' !! i = [9; 9; 9; 9; 9] !! i)
    /\ (forall i : nat, Z.of_nat i < Z.min 4 (3 - 1) ->
          buf' !! (Z.to_nat 1 + i)%nat = u8 <$> [49; 50; 51; 52] !! i)
    /\ (0 < 3 -> buf' !! Z.to_nat (1 + Z.min 4 (3 - 1)) = Some 0).
Proof.
  apply (vsnprintf_correct Arch32 [9; 9; 9; 9; 9] 1 3 [37; 100] [ArgInt 1234] [49; 50; 51; 52]);
    [lia|lia|simpl; lia|reflexivity].
Defined.
