(* ===== verification/Codec.v ===== *)
(** * Text encodings ([core/base16.c], [core/base64.c], [core/utf8.c])

    Output buffers are lists of bytes; [len] is the size the caller passes.
    Encoded input is a C string: the bytes from the pointer to the end of the
    object that holds it, reads past that end being [None]. *)

From S2P Require Import Prelude Strings Printf.

(** ** Base16 *)

(** "%s%02x" *)
Definition hex_encode_fmt : list Z := [37; 115; 37; 48; 50; 120].

Fixpoint hex_encode_loop (a : arch) (separator : Z) (bytes : list Z) (data : list Z)
  (len used : Z) : option (list Z * Z) :=
  match bytes with
  | [] => Some (data, used)
  | b :: bytes' =>
      let delimiter := if used =? 0 then [] else until_nul [separator; 0] in
      opt! (data, n) := ssnprintf a data used (len - used) hex_encode_fmt
                          [ArgStr (Some delimiter); ArgInt b] in
      hex_encode_loop a separator bytes' data len (used + n)
  end.

Definition hex_encode (a : arch) (separator : Z) (raw data : list Z) (len : Z)
  : option (list Z * Z) :=
  opt! data := (if len =? 0 then Some data
                else match data with _ :: d => Some (0 :: d) | [] => None end) in
  hex_encode_loop a separator raw data len 0.

(** One character of the encoded string, and the rest. *)
Definition next_char (s : list Z) : option (Z * list Z) :=
  match s with c :: s' => Some (c, s') | [] => None end.

Fixpoint hex_decode_loop (fuel : nat) (separator : Z) (encoded out : list Z) (len count : Z)
  : option (res (list Z * Z)) :=
  match fuel with
  | O => None
  | S fuel' =>
      opt! (c0, _) := next_char encoded in
      if c0 =? 0 then Some (Ok (out, count))
      else
        let finish (encoded : list Z) :=
          opt! (c1, encoded) := next_char encoded in
          let sixteens := digit_value c1 in
          if 16 <=? sixteens then Some (Err EINVAL)
          else
            opt! (c2, encoded) := next_char encoded in
            let units := digit_value c2 in
            if 16 <=? units then Some (Err EINVAL)
            else
              let b := u8 (Z.lor (Z.shiftl sixteens 4) units) in
              let out := if count <? len then <[Z.to_nat count := b]> out else out in
              hex_decode_loop fuel' separator encoded out len (count + 1) in
        if negb (count =? 0) && negb (separator =? 0) then
          opt! (c, encoded) := next_char encoded in
          if negb (c =? separator) then Some (Err EINVAL) else finish encoded
        else finish encoded
  end.

(** The buffer and the decoded length, or [EINVAL]. *)
Definition hex_decode (separator : Z) (encoded data : list Z) (len : Z)
  : option (res (list Z * Z)) :=
  hex_decode_loop (S (length encoded)) separator encoded data len 0.

Definition base16_encoded_len (raw_len : Z) : Z := 2 * raw_len.

(** ** Base64 *)

Definition base64 : list Z :=
  ((fun i => 65 + i) <$> seqZ 0 26) ++ ((fun i => 97 + i) <$> seqZ 0 26)
  ++ ((fun i => 48 + i) <$> seqZ 0 10) ++ [43; 47; 0].

(** [data[i] = c], for an index the code has just checked against [len]. *)
Definition put (data : list Z) (i c : Z) : list Z := <[Z.to_nat i := c]> data.

(** Element [i] of an array the code knows to be long enough. *)
Definition get (l : list Z) (i : Z) : Z := default 0 (l !! Z.to_nat i).

(** The first loop of [base64_encode]: one output character per six bits. *)
Fixpoint base64_encode_chars (fuel : nat) (raw_bytes : list Z) (data : list Z)
  (len bit used : Z) : list Z * Z * Z :=
  match fuel with
  | O => (data, bit, used)
  | S fuel' =>
      let raw_len := zlen raw_bytes in
      if bit <? 8 * raw_len then
        let byte := bit / 8 in
        let shift := bit mod 8 in
        let tmp := u32 (Z.shiftl (get raw_bytes byte) shift) in
        let tmp := if byte + 1 <? raw_len
                   then Z.lor tmp (Z.shiftr (get raw_bytes (byte + 1)) (8 - shift)) else tmp in
        let tmp := Z.land (Z.shiftr tmp 2) 0x3f in
        let data := if used <? len then put data used (get base64 tmp) else data in
        base64_encode_chars fuel' raw_bytes data len (u32 (bit + 6)) (used + 1)
      else (data, bit, used)
  end.

(** The padding loop; [bit % 8] returns to zero within four steps. *)
Fixpoint base64_encode_pad (fuel : nat) (data : list Z) (len bit used : Z)
  : list Z * Z :=
  match fuel with
  | O => (data, used)
  | S fuel' =>
      if bit mod 8 =? 0 then (data, used)
      else
        let data := if used <? len then put data used 61 else data in
        base64_encode_pad fuel' data len (u32 (bit + 6)) (used + 1)
  end.

(** The buffer and the encoded length. *)
Definition base64_encode (raw data : list Z) (len : Z) : list Z * Z :=
  let '(data, bit, used) :=
    base64_encode_chars (2 * length raw) raw data len 0 0 in
  let '(data, used) := base64_encode_pad 4 data len bit used in
  let data := if used <? len then put data used 0 else data in
  let data := if len =? 0 then data else put data (len - 1) 0 in
  (data, used).

Fixpoint base64_decode_loop (encoded out : list Z) (len bit pad_count : Z)
  : option (res (list Z * Z)) :=
  match encoded with
  | [] => None
  | in_char :: encoded' =>
      if in_char =? 0 then
        if negb (bit mod 8 =? 0) then Some (Err EINVAL) else Some (Ok (out, bit / 8))
      else if isspace in_char then base64_decode_loop encoded' out len bit pad_count
      else if in_char =? 61 then
        if 2 <=? pad_count then Some (Err EINVAL)
        else base64_decode_loop encoded' out len (u32 (bit - 2)) (pad_count + 1)
      else if negb (pad_count =? 0) then Some (Err EINVAL)
      else
        opt! match_ := strchr base64 in_char in
        match match_ with
        | None => Some (Err EINVAL)
        | Some i =>
            let in_bits := Z.shiftl (Z.of_nat i) 2 in
            let offset := bit / 8 in
            let out := if offset <? len
                       then put out offset (u8 (Z.lor (get out offset) (Z.shiftr in_bits (bit mod 8))))
                       else out in
            let offset := offset + 1 in
            let out := if offset <? len
                       then put out offset (u8 (Z.lor (get out offset) (Z.shiftl in_bits (8 - bit mod 8))))
                       else out in
            base64_decode_loop encoded' out len (u32 (bit + 6)) pad_count
        end
  end.

(** The buffer (zeroed first) and the decoded length, or [EINVAL]. *)
Definition base64_decode (encoded data : list Z) (len : Z) : option (res (list Z * Z)) :=
  base64_decode_loop encoded
    (replicate (Z.to_nat len) 0 ++ drop (Z.to_nat len) data) len 0 0.

Definition base64_encoded_len (raw_len : Z) : Z := (raw_len + 3 - 1) / 3 * 4.

(** ** UTF-8 *)

Definition UTF8_INVALID : Z := 0xfffd.

Record utf8_accumulator := Utf8 {
  u_character : Z;
  u_remaining : Z;
  u_min : Z
}.

Definition UTF8_IS_CONTINUATION (byte : Z) : bool := Z.land byte 0xc0 =? 0x80.
Definition UTF8_IS_ASCII (byte : Z) : bool := Z.land byte 0x80 =? 0.

Definition utf8_min : list Z := [0x80; 0x800; 0x10000].

(** Count the leading one bits of a byte; also the byte shifted past them. *)
Fixpoint utf8_count (fuel : nat) (tmp len : Z) : Z * Z :=
  match fuel with
  | O => (tmp, len)
  | S fuel' =>
      if negb (Z.land tmp 0x80 =? 0) then utf8_count fuel' (u8 (Z.shiftl tmp 1)) (len + 1)
      else (tmp, len)
  end.

Definition utf8_accumulate (utf8 : utf8_accumulator) (byte : Z) : utf8_accumulator * Z :=
  if UTF8_IS_CONTINUATION byte then
    if u_remaining utf8 =? 0 then (utf8, UTF8_INVALID)
    else
      let character :=
        Z.lor (u32 (Z.shiftl (u_character utf8) 6)) (Z.land byte 0x3f) in
      let remaining := u_remaining utf8 - 1 in
      let utf8 := Utf8 character remaining (u_min utf8) in
      if negb (remaining =? 0) then (utf8, 0)
      else if character <? u_min utf8 then (utf8, UTF8_INVALID)
      else (utf8, character)
  else
    let utf8 := if negb (u_remaining utf8 =? 0)
                then Utf8 (u_character utf8) 0 (u_min utf8) else utf8 in
    if negb (UTF8_IS_ASCII byte) then
      let '(tmp, len) := utf8_count 8 byte 0 in
      if 4 <? len then (utf8, UTF8_INVALID)
      else
        let remaining := len - 1 in
        (Utf8 (Z.shiftr tmp len) remaining (get utf8_min (remaining - 1)), 0)
    else (utf8, byte).

(** ** Base64 correctness *)

(** The sextet that starts at bit [s] of byte [x] and continues in [y]. *)
Lemma sextet x y s :
  byte_ok x -> byte_ok y -> 0 <= s <= 6 ->
  Z.land (Z.shiftr (Z.lor (u32 (Z.shiftl x s)) (Z.shiftr y (8 - s))) 2) 0x3f
  = (x * 2 ^ s + y / 2 ^ (8 - s)) / 4 mod 64.
Proof.
  intros Hx Hy Hs. unfold byte_ok in *.
  assert (0 < 2 ^ s <= 64) by (split; [apply pow2_pos; lia|change 64 with (2 ^ 6); apply Z.pow_le_mono_r; lia]).
  assert (Hsp : 2 ^ s * 2 ^ (8 - s) = 256) by (rewrite <- Z.pow_add_r by lia; by replace (s + (8 - s)) with 8 by lia).
  assert (Hlow : 0 <= y / 2 ^ (8 - s) < 2 ^ s).
  { pose proof (pow2_pos (8 - s) ltac:(lia)).
    split; [apply Z.div_pos; lia|apply Z.div_lt_upper_bound; lia]. }
  rewrite uwrap_small.
  - rewrite !Z.shiftr_div_pow2 by lia. rewrite lor_shiftl_add by lia.
    change 0x3f with (2 ^ 6 - 1). by rewrite land_ones_mod by lia.
  - rewrite Z.shiftl_mul_pow2 by lia. nia.
Qed.

Lemma sextet_last x s :
  byte_ok x -> 0 <= s <= 6 ->
  Z.land (Z.shiftr (u32 (Z.shiftl x s)) 2) 0x3f = (x * 2 ^ s) / 4 mod 64.
Proof.
  intros Hx Hs. rewrite <- (Z.lor_0_r (u32 _)). rewrite <- (Z.shiftr_0_l (8 - s)).
  rewrite sextet by (done || unfold byte_ok; lia).
  rewrite Z.div_0_l, Z.add_0_r; [done|]. apply Z.pow_nonzero; lia.
Qed.

(** The character for a six-bit value, and its inverse. *)
Definition b64 (v : Z) : Z := get base64 v.

Lemma b64_decode v :
  0 <= v < 64 -> strchr base64 (b64 v) = Some (Some (Z.to_nat v))
    /\ isspace (b64 v) = false /\ b64 v <> 61 /\ b64 v <> 0.
Proof.
  revert v. apply (range_dec 0 64 (fun v => strchr base64 (b64 v) = Some (Some (Z.to_nat v))
    /\ isspace (b64 v) = false /\ b64 v <> 61 /\ b64 v <> 0)). vm_compute. reflexivity.
Qed.

(** Reference encoding, three bytes at a time. *)
Fixpoint b64_chars (raw : list Z) : list Z :=
  match raw with
  | x :: y :: z :: raw' =>
      b64 (x / 4) :: b64 (x mod 4 * 16 + y / 16) :: b64 (y mod 16 * 4 + z / 64) :: b64 (z mod 64)
      :: b64_chars raw'
  | [x; y] => [b64 (x / 4); b64 (x mod 4 * 16 + y / 16); b64 (y mod 16 * 4)]
  | [x] => [b64 (x / 4); b64 (x mod 4 * 16)]
  | [] => []
  end.

Definition b64_pad (raw : list Z) : list Z := replicate (Z.to_nat ((- zlen raw) mod 3)) 61.

(** Induction three elements at a time. *)
Lemma list_ind3 (P : list Z -> Prop) :
  P [] -> (forall x, P [x]) -> (forall x y, P [x; y]) ->
  (forall x y z l, P l -> P (x :: y :: z :: l)) -> forall l, P l.
Proof.
  intros H0 H1 H2 H3 l. remember (length l) as n. revert l Heqn.
  induction n as [n IH] using lt_wf_ind. intros [|x [|y [|z l]]] Hn; auto.
  apply H3. eapply IH; [|reflexivity]. simpl in *. lia.
Qed.

(** Writing a list of characters with the code's bounds check. *)
Fixpoint puts (data : list Z) (len used : Z) (cs : list Z) : list Z :=
  match cs with
  | [] => data
  | c :: cs' => puts (if used <? len then put data used c else data) len (used + 1) cs'
  end.

Lemma get_app pre l i : 0 <= i -> get (pre ++ l) (zlen pre + i) = get l i.
Proof.
  intros Hi. unfold get. rewrite lookup_app_r by lia. do 2 f_equal. lia.
Qed.

Lemma get_app0 pre x l : get (pre ++ x :: l) (zlen pre) = x.
Proof. rewrite <- (Z.add_0_r (zlen pre)). by rewrite get_app by lia. Qed.

Lemma get_app1 pre x y l : get (pre ++ x :: y :: l) (zlen pre + 1) = y.
Proof. by rewrite get_app by lia. Qed.

Lemma get_app2 pre x y z l : get (pre ++ x :: y :: z :: l) (zlen pre + 2) = z.
Proof. by rewrite get_app by lia. Qed.

(** The sextet [base64_encode] extracts at a bit position. *)
Definition sextet_at (raw : list Z) (bit : Z) : Z :=
  let byte := bit / 8 in
  let shift := bit mod 8 in
  let tmp := u32 (Z.shiftl (get raw byte) shift) in
  let tmp := if byte + 1 <? zlen raw
             then Z.lor tmp (Z.shiftr (get raw (byte + 1)) (8 - shift)) else tmp in
  Z.land (Z.shiftr tmp 2) 0x3f.

Lemma base64_encode_chars_step fuel raw data len bit used :
  bit < 8 * zlen raw -> 0 <= bit -> bit + 6 < 2 ^ 32 ->
  base64_encode_chars (S fuel) raw data len bit used
  = base64_encode_chars fuel raw
      (if used <? len then put data used (b64 (sextet_at raw bit)) else data) len (bit + 6) (used + 1).
Proof.
  intros H1 H2 H3. cbn [base64_encode_chars]. destruct (Z.ltb_spec bit (8 * zlen raw)); [|lia].
  rewrite (uwrap_small 32 (bit + 6)) by lia. reflexivity.
Qed.

Lemma base64_encode_chars_done fuel raw data len bit used :
  8 * zlen raw <= bit -> base64_encode_chars fuel raw data len bit used = (data, bit, used).
Proof.
  intros H. destruct fuel; [done|]. cbn [base64_encode_chars].
  destruct (Z.ltb_spec bit (8 * zlen raw)); [lia|done].
Qed.

Lemma sextet_at_mid raw p x y s :
  0 <= p -> 0 <= s < 8 -> p + 1 < zlen raw -> get raw p = x -> get raw (p + 1) = y ->
  byte_ok x -> byte_ok y -> s <= 6 ->
  sextet_at raw (8 * p + s) = (x * 2 ^ s + y / 2 ^ (8 - s)) / 4 mod 64.
Proof.
  intros Hp Hs Hl Hx Hy Bx By Hs6. unfold sextet_at.
  replace ((8 * p + s) / 8) with p by (apply (Z.div_unique _ _ p s); lia).
  replace ((8 * p + s) mod 8) with s by (apply (Z.mod_unique _ _ p s); lia).
  destruct (Z.ltb_spec (p + 1) (zlen raw)); [|lia]. rewrite Hx, Hy. apply sextet; done || lia.
Qed.

Lemma sextet_at_last raw p x s :
  0 <= p -> 0 <= s < 8 -> zlen raw <= p + 1 -> get raw p = x -> byte_ok x -> s <= 6 ->
  sextet_at raw (8 * p + s) = (x * 2 ^ s) / 4 mod 64.
Proof.
  intros Hp Hs Hl Hx Bx Hs6. unfold sextet_at.
  replace ((8 * p + s) / 8) with p by (apply (Z.div_unique _ _ p s); lia).
  replace ((8 * p + s) mod 8) with s by (apply (Z.mod_unique _ _ p s); lia).
  destruct (Z.ltb_spec (p + 1) (zlen raw)); [lia|]. rewrite Hx. apply sextet_last; done || lia.
Qed.

Ltac zlens := rewrite ?zlen_app in *; cbn [length] in *; rewrite ?Nat2Z.inj_succ in *.

(** The four sextets of a group of three bytes, wherever the input ends. *)
Ltac arith := unfold byte_ok in *; change (2 ^ 0) with 1; change (2 ^ 2) with 4;
  change (2 ^ 4) with 16; change (2 ^ 6) with 64; change (2 ^ 8) with 256;
  Z.div_mod_to_equations; lia.

Lemma sextet0 pre rest x :
  byte_ok x -> bytes_ok rest -> sextet_at (pre ++ x :: rest) (8 * zlen pre) = x / 4.
Proof.
  intros Bx Br. set (p := zlen pre).
  rewrite <- (Z.add_0_r (8 * p)). destruct rest as [|r rest'].
  - rewrite (sextet_at_last _ p x) by (subst p; zlens; rewrite ?get_app0; done || lia). arith.
  - inversion Br; subst.
    rewrite (sextet_at_mid _ p x r) by (subst p; zlens; rewrite ?get_app0, ?get_app1; done || lia).
    change (8 - 0) with 8. arith.
Qed.

Lemma sextet6 pre rest x y :
  byte_ok x -> byte_ok y -> sextet_at (pre ++ x :: y :: rest) (8 * zlen pre + 6) = x mod 4 * 16 + y / 16.
Proof.
  intros Bx By. set (p := zlen pre).
  rewrite (sextet_at_mid _ p x y) by (subst p; zlens; rewrite ?get_app0, ?get_app1; done || lia).
  change (8 - 6) with 2. arith.
Qed.

Lemma sextet6_last pre x :
  byte_ok x -> sextet_at (pre ++ [x]) (8 * zlen pre + 6) = x mod 4 * 16.
Proof.
  intros Bx. set (p := zlen pre).
  rewrite (sextet_at_last _ p x) by (subst p; zlens; rewrite ?get_app0; done || lia). arith.
Qed.

Lemma sextet12 pre rest x y z :
  byte_ok y -> byte_ok z -> sextet_at (pre ++ x :: y :: z :: rest) (8 * zlen pre + 12) = y mod 16 * 4 + z / 64.
Proof.
  intros By Bz. set (p := zlen pre).
  replace (8 * p + 12) with (8 * (p + 1) + 4) by lia.
  rewrite (sextet_at_mid _ (p + 1) y z) by
    (subst p; zlens; rewrite <- ?Z.add_assoc, ?get_app1, ?get_app2; done || lia).
  change (8 - 4) with 4. arith.
Qed.

Lemma sextet12_last pre x y :
  byte_ok y -> sextet_at (pre ++ [x; y]) (8 * zlen pre + 12) = y mod 16 * 4.
Proof.
  intros By. set (p := zlen pre).
  replace (8 * p + 12) with (8 * (p + 1) + 4) by lia.
  rewrite (sextet_at_last _ (p + 1) y) by (subst p; zlens; rewrite ?get_app1; done || lia). arith.
Qed.

Lemma sextet18 pre rest x y z :
  byte_ok z -> bytes_ok rest -> sextet_at (pre ++ x :: y :: z :: rest) (8 * zlen pre + 18) = z mod 64.
Proof.
  intros Bz Br. set (p := zlen pre).
  replace (8 * p + 18) with (8 * (p + 2) + 2) by lia. destruct rest as [|r rest'].
  - rewrite (sextet_at_last _ (p + 2) z) by (subst p; zlens; rewrite ?get_app2; done || lia). arith.
  - inversion Br; subst.
    rewrite (sextet_at_mid _ (p + 2) z r) by
      (subst p; zlens; rewrite <- ?Z.add_assoc, ?get_app2; rewrite ?get_app by lia; done || lia).
    change (8 - 2) with 6. arith.
Qed.

(** The extraction loop produces the reference characters. *)
Lemma base64_encode_chars_spec rest pre data len used fuel :
  bytes_ok (pre ++ rest) -> 8 * zlen (pre ++ rest) + 6 < 2 ^ 32 ->
  (2 * length rest <= fuel)%nat ->
  base64_encode_chars fuel (pre ++ rest) data len (8 * zlen pre) used
  = (puts data len used (b64_chars rest), 8 * zlen pre + 6 * zlen (b64_chars rest),
     used + zlen (b64_chars rest)).
Proof.
  revert pre data used fuel. induction rest as [|x|x y|x y z rest IH] using list_ind3;
    intros pre data used fuel Hb Hl Hf; pose proof Hb as Hb'; unfold bytes_ok in Hb';
    rewrite Forall_app in Hb'; destruct Hb' as [Hpre Hb']; rewrite ?Forall_cons in Hb'.
  - rewrite base64_encode_chars_done by (zlens; lia). cbn. do 2 f_equal; lia.
  - destruct fuel as [|[|fuel]]; cbn [length] in Hf; try lia. destruct Hb' as [Hx _].
    rewrite !base64_encode_chars_step, base64_encode_chars_done by (zlens; lia).
    rewrite (sextet0 pre [] x), (sextet6_last pre x) by solve_bytes.
    cbn [b64_chars puts length]. apply triple_eq; [done|lia|lia].
  - destruct fuel as [|[|[|fuel]]]; cbn [length] in Hf; try lia. destruct Hb' as (Hx&Hy&_).
    rewrite !base64_encode_chars_step, base64_encode_chars_done by (zlens; lia).
    replace (8 * zlen pre + 6 + 6) with (8 * zlen pre + 12) by lia.
    replace (8 * zlen pre + 12 + 6) with (8 * zlen pre + 18) by lia.
    rewrite (sextet0 pre [y] x), (sextet6 pre [] x y), (sextet12_last pre x y)
      by solve_bytes.
    cbn [b64_chars puts length]. apply triple_eq; [done|lia|lia].
  - destruct fuel as [|[|[|[|fuel]]]]; cbn [length] in Hf; try lia. destruct Hb' as (Hx&Hy&Hz&Hr).
    rewrite !base64_encode_chars_step by (zlens; lia).
    replace (8 * zlen pre + 6 + 6) with (8 * zlen pre + 12) by lia.
    replace (8 * zlen pre + 12 + 6) with (8 * zlen pre + 18) by lia.
    rewrite (sextet0 pre (y :: z :: rest) x), (sextet6 pre (z :: rest) x y), (sextet12 pre rest x y z),
      (sextet18 pre rest x y z) by solve_bytes.
    pose proof (IH (pre ++ [x; y; z])) as IH'. rewrite <- app_assoc in IH'. cbn [app] in IH'.
    replace (8 * zlen pre + 18 + 6) with (8 * zlen (pre ++ [x; y; z])) by (zlens; lia).
    rewrite IH' by (done || lia). cbn [b64_chars puts length]. apply triple_eq; [done|zlens; lia|lia].
Qed.

Lemma puts_spec cs data len used :
  0 <= used -> used + zlen cs <= len -> len = zlen data ->
  puts data len used cs
  = take (Z.to_nat used) data ++ cs ++ drop (Z.to_nat (used + zlen cs)) data.
Proof.
  revert data used. induction cs as [|c cs IH]; intros data used Hu Hl Hd; cbn [puts].
  - cbn [app length]. rewrite Z.add_0_r. by rewrite take_drop.
  - cbn [length] in *. destruct (Z.ltb_spec used len); [|lia]. unfold put.
    rewrite IH by (rewrite ?length_insert; lia).
    replace (Z.to_nat (used + 1)) with (S (Z.to_nat used)) by lia.
    rewrite insert_take_drop by lia.
    rewrite take_app_ge by (rewrite length_take; lia).
    rewrite drop_app_ge by (rewrite length_take; lia). rewrite length_take, Nat.min_l by lia.
    rewrite <- app_assoc. f_equal.
    replace (S (Z.to_nat used) - Z.to_nat used)%nat with 1%nat by lia. cbn [take app]. rewrite take_0. cbn [app].
    f_equal. f_equal.
    replace (Z.to_nat (used + 1 + zlen cs) - Z.to_nat used)%nat with (S (length cs)) by lia.
    cbn [drop]. rewrite drop_drop. f_equal. lia.
Qed.

Lemma b64_chars_length raw :
  zlen (b64_chars raw) = (8 * zlen raw + 5) / 6.
Proof.
  induction raw as [|x|x y|x y z raw IH] using list_ind3; try reflexivity.
  cbn [b64_chars length]. rewrite !Nat2Z.inj_succ, IH. Z.div_mod_to_equations. lia.
Qed.

(** The padding loop appends '=' up to a multiple of four characters. *)
Lemma base64_encode_pad_spec raw data len used :
  let bit := 6 * zlen (b64_chars raw) in
  bit + 24 < 2 ^ 32 ->
  base64_encode_pad 4 data len bit used
  = (puts data len used (b64_pad raw), used + zlen (b64_pad raw)).
Proof.
  intros bit Hbit. subst bit. rewrite b64_chars_length in *. unfold b64_pad.
  assert (Hm : exists k, 0 <= k /\ (zlen raw = 3 * k \/ zlen raw = 3 * k + 1 \/ zlen raw = 3 * k + 2)).
  { exists (zlen raw / 3). pose proof (Z.div_mod (zlen raw) 3). pose proof (Z.mod_pos_bound (zlen raw) 3). lia. }
  destruct Hm as (k&Hk&[E|[E|E]]); rewrite E in *.
  - replace (6 * ((8 * (3 * k) + 5) / 6)) with (8 * (3 * k)) by (Z.div_mod_to_equations; lia).
    replace (- (3 * k) mod 3) with 0 by (Z.div_mod_to_equations; lia).
    cbn [base64_encode_pad replicate puts length Z.to_nat].
    replace (8 * (3 * k) mod 8) with 0 by (Z.div_mod_to_equations; lia).
    change (0 =? 0) with true. cbv iota. f_equal. rewrite length_replicate. lia.
  - replace (6 * ((8 * (3 * k + 1) + 5) / 6)) with (8 * (3 * k + 1) + 4) in * by (Z.div_mod_to_equations; lia).
    replace (- (3 * k + 1) mod 3) with 2 by (Z.div_mod_to_equations; lia).
    cbn [base64_encode_pad]. rewrite !(uwrap_small 32) by lia.
    replace ((8 * (3 * k + 1) + 4) mod 8) with 4 by (Z.div_mod_to_equations; lia).
    replace ((8 * (3 * k + 1) + 4 + 6) mod 8) with 2 by (Z.div_mod_to_equations; lia).
    replace ((8 * (3 * k + 1) + 4 + 6 + 6) mod 8) with 0 by (Z.div_mod_to_equations; lia).
    cbv [Z.eqb Pos.eqb]. f_equal. rewrite length_replicate. lia.
  - replace (6 * ((8 * (3 * k + 2) + 5) / 6)) with (8 * (3 * k + 2) + 2) in * by (Z.div_mod_to_equations; lia).
    replace (- (3 * k + 2) mod 3) with 1 by (Z.div_mod_to_equations; lia).
    cbn [base64_encode_pad]. rewrite !(uwrap_small 32) by lia.
    replace ((8 * (3 * k + 2) + 2) mod 8) with 2 by (Z.div_mod_to_equations; lia).
    replace ((8 * (3 * k + 2) + 2 + 6) mod 8) with 0 by (Z.div_mod_to_equations; lia).
    cbv [Z.eqb Pos.eqb]. f_equal.
Qed.

Lemma b64_total_length raw : zlen (b64_chars raw ++ b64_pad raw) = base64_encoded_len (zlen raw).
Proof.
  rewrite zlen_app, b64_chars_length. unfold b64_pad, base64_encoded_len.
  rewrite length_replicate. Z.div_mod_to_equations. lia.
Qed.

Lemma puts_app cs1 cs2 data len used :
  puts data len used (cs1 ++ cs2) = puts (puts data len used cs1) len (used + zlen cs1) cs2.
Proof.
  revert data used. induction cs1 as [|c cs1 IH]; intros data used; cbn [puts app length].
  - f_equal. lia.
  - rewrite IH. f_equal. lia.
Qed.

(** [base64_encode] is the reference encoding, terminated, when the buffer
    has room for it; the length returned is right whatever the buffer. *)
Lemma base64_encode_spec raw data len :
  bytes_ok raw -> 8 * zlen raw + 30 < 2 ^ 32 -> len = zlen data ->
  (base64_encode raw data len).2 = base64_encoded_len (zlen raw)
  /\ (base64_encoded_len (zlen raw) < len ->
      exists junk, (base64_encode raw data len).1 = (b64_chars raw ++ b64_pad raw) ++ 0 :: junk).
Proof.
  intros Hb Hl Hlen. unfold base64_encode.
  pose proof (base64_encode_chars_spec raw [] data len 0 (2 * length raw) Hb) as E.
  cbn [app length] in E. change (8 * Z.of_nat 0) with 0 in E. rewrite !Z.add_0_l in E.
  rewrite E by lia. pose proof (b64_chars_length raw) as Hcl.
  rewrite base64_encode_pad_spec by (rewrite Hcl; Z.div_mod_to_equations; lia).
  pose proof (puts_app (b64_chars raw) (b64_pad raw) data len 0) as Hp.
  rewrite Z.add_0_l in Hp. rewrite <- Hp, <- zlen_app, b64_total_length. cbn [fst snd].
  split; [done|]. intros Hroom. rewrite (proj2 (Z.ltb_lt _ _) Hroom).
  pose proof (b64_total_length raw) as Ht.
  rewrite puts_spec by lia. rewrite Z.add_0_l. change (Z.to_nat 0) with 0%nat. rewrite take_0, app_nil_l.
  set (cs := b64_chars raw ++ b64_pad raw) in *. rewrite Ht.
  rewrite (proj2 (Z.eqb_neq len 0)) by lia. unfold put.
  destruct (drop (Z.to_nat (base64_encoded_len (zlen raw))) data) as [|d ds] eqn:Ed.
  { apply (f_equal length) in Ed. rewrite length_drop in Ed. cbn in Ed. lia. }
  apply (f_equal length) in Ed. rewrite length_drop in Ed. cbn [length] in Ed.
  clearbody cs. rewrite insert_app_r_alt by lia.
  replace (Z.to_nat (base64_encoded_len (zlen raw)) - length cs)%nat with 0%nat by lia. cbn [insert list_insert].
  rewrite insert_app_r_alt by lia.
  destruct (Z.to_nat (len - 1) - length cs)%nat; cbn; eexists; reflexivity.
Qed.

(** The two bytes a sextet is merged into, the second only if present. *)
Definition b64_merge (v s : Z) (tail : list Z) : list Z :=
  let in_bits := Z.shiftl v 2 in
  match tail with
  | [] => []
  | [x] => [u8 (Z.lor x (Z.shiftr in_bits s))]
  | x :: y :: t => u8 (Z.lor x (Z.shiftr in_bits s)) :: u8 (Z.lor y (Z.shiftl in_bits (8 - s))) :: t
  end.

Lemma put_app0 pre x t c : put (pre ++ x :: t) (zlen pre) c = pre ++ c :: t.
Proof. unfold put. rewrite Nat2Z.id, insert_app_r_alt, Nat.sub_diag by lia. done. Qed.

Lemma put_app1 pre x y t c : put (pre ++ x :: y :: t) (zlen pre + 1) c = pre ++ x :: c :: t.
Proof.
  unfold put. replace (Z.to_nat (zlen pre + 1)) with (length pre + 1)%nat by lia.
  by rewrite insert_app_r.
Qed.

Lemma base64_decode_step v enc pre tail s :
  0 <= v < 64 -> 0 <= s <= 6 -> 8 * zlen pre + s + 6 < 2 ^ 32 ->
  base64_decode_loop (b64 v :: enc) (pre ++ tail) (zlen (pre ++ tail)) (8 * zlen pre + s) 0
  = base64_decode_loop enc (pre ++ b64_merge v s tail) (zlen (pre ++ tail)) (8 * zlen pre + s + 6) 0.
Proof.
  intros Hv Hs Hb. destruct (b64_decode v Hv) as (E1&E2&E3&E4). cbn [base64_decode_loop].
  rewrite (proj2 (Z.eqb_neq _ _) E4), E2, (proj2 (Z.eqb_neq _ _) E3), E1. cbn [negb Z.eqb mbind option_bind].
  rewrite Z2Nat.id by lia. rewrite (uwrap_small 32 (_ + 6)) by lia.
  replace ((8 * zlen pre + s) / 8) with (zlen pre) by (Z.div_mod_to_equations; lia).
  replace ((8 * zlen pre + s) mod 8) with s by (Z.div_mod_to_equations; lia).
  f_equal. rewrite zlen_app. destruct tail as [|x [|y t]]; cbn [length b64_merge].
  - destruct (Z.ltb_spec (zlen pre) (zlen pre + Z.of_nat 0)); [lia|].
    destruct (Z.ltb_spec (zlen pre + 1) (zlen pre + Z.of_nat 0)); [lia|done].
  - destruct (Z.ltb_spec (zlen pre) (zlen pre + Z.of_nat 1)); [|lia].
    destruct (Z.ltb_spec (zlen pre + 1) (zlen pre + Z.of_nat 1)); [lia|].
    by rewrite get_app0, put_app0.
  - destruct (Z.ltb_spec (zlen pre) (zlen pre + Z.of_nat (S (S (length t))))); [|lia].
    destruct (Z.ltb_spec (zlen pre + 1) (zlen pre + Z.of_nat (S (S (length t))))); [|lia].
    by rewrite get_app0, put_app0, get_app1, put_app1.
Qed.

Lemma u8_lor_add q k r :
  0 <= k -> 0 <= r < 2 ^ k -> 0 <= q * 2 ^ k + r < 256 -> u8 (Z.lor (q * 2 ^ k) r) = q * 2 ^ k + r.
Proof. intros. rewrite lor_mul_add by lia. by apply uwrap_small. Qed.

Ltac shifts := rewrite ?Z.shiftl_mul_pow2, ?Z.shiftr_div_pow2 by lia.
Ltac pows := change (2 ^ 0) with 1 in *; change (2 ^ 1) with 2 in *; change (2 ^ 2) with 4 in *;
  change (2 ^ 4) with 16 in *; change (2 ^ 6) with 64 in *; change (2 ^ 8) with 256 in *.

(** Side conditions of the decoding steps. *)
Ltac decode_side :=
  first [ subst; rewrite ?zlen_app; cbn [length]; rewrite ?length_replicate; lia
        | Z.div_mod_to_equations; lia ].

(** The merges that rebuild a group of three bytes. *)
Lemma merge6 x w t : byte_ok x -> 0 <= w < 16 ->
  b64_merge (x mod 4 * 16 + w) 6 (x / 4 * 4 :: 0 :: t) = x :: w * 16 :: t.
Proof.
  intros Hx Hw. unfold b64_merge, byte_ok in *. shifts. change (8 - 6) with 2. rewrite Z.lor_0_l. f_equal; [|f_equal].
  - change 4 with (2 ^ 2). rewrite u8_lor_add; pows; Z.div_mod_to_equations; lia.
  - unfold uwrap. pows. Z.div_mod_to_equations; lia.
Qed.

Lemma merge12 y w t : byte_ok y -> 0 <= w < 4 ->
  b64_merge (y mod 16 * 4 + w) 4 (y / 16 * 16 :: 0 :: t) = y :: w * 64 :: t.
Proof.
  intros Hx Hw. unfold b64_merge, byte_ok in *. shifts. change (8 - 4) with 4. rewrite Z.lor_0_l. f_equal; [|f_equal].
  - change 16 with (2 ^ 4). rewrite u8_lor_add; pows; Z.div_mod_to_equations; lia.
  - unfold uwrap. pows. Z.div_mod_to_equations; lia.
Qed.

(** A sextet that ends a byte leaves the next one, if any, as it was. *)
Lemma merge_last v s a t a' :
  0 <= s <= 6 -> t = [] \/ (exists t', t = 0 :: t') ->
  u8 (Z.lor a (v * 2 ^ 2 / 2 ^ s)) = a' -> (v * 2 ^ 2 * 2 ^ (8 - s)) mod 256 = 0 ->
  b64_merge v s (a :: t) = a' :: t.
Proof.
  intros Hs Ht E E0. unfold b64_merge. shifts.
  destruct Ht as [->|[t' ->]]; rewrite E; [done|]. do 2 f_equal. by rewrite Z.lor_0_l.
Qed.

Ltac merge_solve := pows; unfold byte_ok in *;
  first [ done | lia | rewrite u8_lor_add; pows; Z.div_mod_to_equations; lia
        | Z.div_mod_to_equations; lia ].

Lemma merge18 z t : byte_ok z -> t = [] \/ (exists t', t = 0 :: t') ->
  b64_merge (z mod 64) 2 (z / 64 * 2 ^ 6 :: t) = z :: t.
Proof. intros Hz Ht. apply merge_last; [lia|done|rewrite u8_lor_add|]; merge_solve. Qed.

Lemma merge12_last y t : byte_ok y -> t = [] \/ (exists t', t = 0 :: t') ->
  b64_merge (y mod 16 * 4) 4 (y / 16 * 2 ^ 4 :: t) = y :: t.
Proof. intros Hz Ht. apply merge_last; [lia|done|rewrite u8_lor_add|]; merge_solve. Qed.

Lemma merge6_last x t : byte_ok x -> t = [] \/ (exists t', t = 0 :: t') ->
  b64_merge (x mod 4 * 16) 6 (x / 4 * 2 ^ 2 :: t) = x :: t.
Proof. intros Hz Ht. apply merge_last; [lia|done|rewrite u8_lor_add|]; merge_solve. Qed.

Lemma merge0 x t : byte_ok x -> t = [] \/ (exists t', t = 0 :: t') ->
  b64_merge (x / 4) 0 (0 :: t) = (x / 4 * 4) :: t.
Proof.
  intros Hz Ht. apply merge_last; [lia|done| |merge_solve].
  rewrite Z.lor_0_l, uwrap_small; merge_solve.
Qed.

Lemma zeros_shape n : replicate n 0 = [] \/ (exists t' : list Z, replicate n 0 = 0 :: t').
Proof. destruct n; [by left|right; by eexists]. Qed.

Lemma b64_pad_skip x y z raw : b64_pad (x :: y :: z :: raw) = b64_pad raw.
Proof.
  unfold b64_pad. do 2 f_equal. cbn [length]. Z.div_mod_to_equations. lia.
Qed.

Lemma base64_decode_end enc out len bit pad_count :
  bit mod 8 = 0 -> base64_decode_loop (0 :: enc) out len bit pad_count = Some (Ok (out, bit / 8)).
Proof. intros H. cbn [base64_decode_loop Z.eqb]. by rewrite H. Qed.

Lemma base64_decode_pad enc out len bit pad_count :
  pad_count < 2 -> 2 <= bit < 2 ^ 32 ->
  base64_decode_loop (61 :: enc) out len bit pad_count
  = base64_decode_loop enc out len (bit - 2) (pad_count + 1).
Proof.
  intros Hp Hb. cbn [base64_decode_loop]. change (61 =? 0) with false. change (isspace 61) with false.
  change (61 =? 61) with true. cbv iota. destruct (Z.leb_spec 2 pad_count); [lia|].
  by rewrite uwrap_small by lia.
Qed.

Lemma base64_decode_step' v s pre tail tail' enc L bit :
  0 <= v < 64 -> 0 <= s <= 6 -> L = zlen (pre ++ tail) -> bit = 8 * zlen pre + s -> bit + 6 < 2 ^ 32 ->
  b64_merge v s tail = tail' ->
  base64_decode_loop (b64 v :: enc) (pre ++ tail) L bit 0
  = base64_decode_loop enc (pre ++ tail') L (bit + 6) 0.
Proof. intros Hv Hs -> -> Hb <-. by apply base64_decode_step. Qed.

Lemma base64_decode_group pre x y z t enc L :
  byte_ok x -> byte_ok y -> byte_ok z -> t = [] \/ (exists t', t = 0 :: t') ->
  L = zlen (pre ++ 0 :: 0 :: 0 :: t) -> 8 * zlen pre + 24 < 2 ^ 32 ->
  base64_decode_loop (b64 (x / 4) :: b64 (x mod 4 * 16 + y / 16) :: b64 (y mod 16 * 4 + z / 64)
                      :: b64 (z mod 64) :: enc) (pre ++ 0 :: 0 :: 0 :: t) L (8 * zlen pre) 0
  = base64_decode_loop enc (pre ++ x :: y :: z :: t) L (8 * zlen pre + 24) 0.
Proof.
  intros Hx Hy Hz Ht HL Hb. pose proof Hx as Hx'. pose proof Hy as Hy'. pose proof Hz as Hz'.
  unfold byte_ok in Hx', Hy', Hz'.
  rewrite (base64_decode_step' _ 0 pre _ (x / 4 * 4 :: 0 :: 0 :: t)) by
    (first [apply merge0; [done|right; by eexists] | done | lia | Z.div_mod_to_equations; lia]).
  rewrite (base64_decode_step' _ 6 pre _ (x :: y / 16 * 16 :: 0 :: t)) by
    (first [apply merge6; [done|Z.div_mod_to_equations; lia] | decode_side]).
  rewrite (cons_middle x), (cons_middle x), !app_assoc.
  rewrite (base64_decode_step' _ 4 (pre ++ [x]) _ (y :: z / 64 * 64 :: t)) by
    (first [apply merge12; [done|Z.div_mod_to_equations; lia] | decode_side]).
  rewrite (cons_middle y), (cons_middle y), !app_assoc.
  rewrite (base64_decode_step' _ 2 ((pre ++ [x]) ++ [y]) _ (z :: t)) by
    (first [apply merge18; done | decode_side]).
  f_equal. lia.
Qed.

Lemma base64_decode_spec raw n pre enc L :
  bytes_ok raw -> (length raw <= n)%nat -> L = zlen pre + Z.of_nat n ->
  8 * (zlen pre + zlen raw) + 24 < 2 ^ 32 ->
  base64_decode_loop (b64_chars raw ++ b64_pad raw ++ 0 :: enc) (pre ++ replicate n 0) L (8 * zlen pre) 0
  = Some (Ok (pre ++ raw ++ replicate (n - length raw) 0, zlen pre + zlen raw)).
Proof.
  revert n pre. induction raw as [|x|x y|x y z raw IH] using list_ind3; intros n pre Hb Hn HL Hl;
    pose proof Hb as Hb'; unfold bytes_ok in Hb'; rewrite ?Forall_cons in Hb'.
  - cbn [b64_chars app length]. change (b64_pad []) with (@nil Z). cbn [app].
    rewrite base64_decode_end by (Z.div_mod_to_equations; lia). rewrite Nat.sub_0_r. do 3 f_equal.
    Z.div_mod_to_equations; lia.
  - destruct Hb' as (Hx&_). pose proof Hx as Hx'. unfold byte_ok in Hx'.
    destruct n as [|n]; cbn [length] in *; [lia|].
    cbn [b64_chars app length replicate]. change (b64_pad [x]) with [61; 61]. cbn [app].
    rewrite (base64_decode_step' _ 0 pre _ (x / 4 * 4 :: replicate n 0)) by
      (first [apply merge0; [done|apply zeros_shape] | decode_side]).
    rewrite (base64_decode_step' _ 6 pre _ (x :: replicate n 0)) by
      (first [apply merge6_last; [done|apply zeros_shape] | decode_side]).
    rewrite !base64_decode_pad by lia. rewrite base64_decode_end by (Z.div_mod_to_equations; lia).
    cbn [Nat.sub app]. rewrite Nat.sub_0_r. do 3 f_equal. Z.div_mod_to_equations; lia.
  - destruct Hb' as (Hx&Hy&_). pose proof Hx as Hx'. pose proof Hy as Hy'. unfold byte_ok in Hx', Hy'.
    destruct n as [|[|n]]; cbn [length] in *; [lia|lia|].
    cbn [b64_chars app length replicate]. change (b64_pad [x; y]) with [61]. cbn [app].
    rewrite (base64_decode_step' _ 0 pre _ (x / 4 * 4 :: 0 :: replicate n 0)) by
      (first [apply merge0; [done|right; by eexists] | decode_side]).
    rewrite (base64_decode_step' _ 6 pre _ (x :: y / 16 * 16 :: replicate n 0)) by
      (first [apply merge6; [done|Z.div_mod_to_equations; lia] | decode_side]).
    rewrite (cons_middle x), !app_assoc.
    rewrite (base64_decode_step' _ 4 (pre ++ [x]) _ (y :: replicate n 0)) by
      (first [apply merge12_last; [done|apply zeros_shape] | decode_side]).
    rewrite !base64_decode_pad by lia. rewrite base64_decode_end by (Z.div_mod_to_equations; lia).
    cbn [Nat.sub app]. rewrite Nat.sub_0_r, <- app_assoc. do 3 f_equal. Z.div_mod_to_equations; lia.
  - destruct Hb' as (Hx&Hy&Hz&Hr). destruct n as [|[|[|n]]]; cbn [length] in *; [lia|lia|lia|].
    rewrite b64_pad_skip. cbn [b64_chars app replicate].
    rewrite base64_decode_group by
      (first [done | apply zeros_shape | decode_side]).
    specialize (IH n (pre ++ [x; y; z])). rewrite <- !app_assoc in IH. cbn [app] in IH.
    replace (8 * zlen pre + 24) with (8 * zlen (pre ++ [x; y; z])) by (zlens; lia).
    rewrite IH by (first [done | zlens; lia]). cbn [Nat.sub app]. do 3 f_equal. zlens; lia.
Qed.

(** Base64 round trip: for every byte sequence (short enough that the
    code's [unsigned int] bit counter does not overflow) [base64_encode] into a
    buffer of sufficient size returns [base64_encoded_len], and [base64_decode]
    of what it wrote, into a buffer of at least the original size, returns the
    original length, with the original bytes at the front of the buffer and
    zeros after them. *)
Theorem base64_roundtrip raw data buf :
  bytes_ok raw -> 8 * zlen raw + 30 < 2 ^ 32 ->
  base64_encoded_len (zlen raw) < zlen data -> zlen raw <= zlen buf ->
  let '(encoded, n) := base64_encode raw data (zlen data) in
  n = base64_encoded_len (zlen raw)
  /\ base64_decode encoded buf (zlen buf)
     = Some (Ok (raw ++ replicate (length buf - length raw) 0, zlen raw)).
Proof.
  intros Hb Hl Hroom Hbuf. destruct (base64_encode_spec raw data (zlen data) Hb Hl eq_refl) as [E1 E2].
  destruct (E2 Hroom) as [junk E]. destruct (base64_encode raw data (zlen data)) as [encoded n].
  cbn [fst snd] in *. split; [done|]. subst encoded. unfold base64_decode.
  rewrite Nat2Z.id, drop_all, app_nil_r, <- app_assoc.
  apply (base64_decode_spec raw (length buf) [] junk); cbn [length]; try done; lia.
Qed.

(** Witness: "Hello" becomes "SGVsbG8=" and back. *)
Lemma base64_roundtrip_witness :
  base64_encode [72; 101; 108; 108; 111] (replicate 10 1) 10
    = ([83; 71; 86; 115; 98; 71; 56; 61; 0; 0], 8)
  /\ base64_decode [83; 71; 86; 115; 98; 71; 56; 61; 0; 0] (replicate 6 9) 6
     = Some (Ok ([72; 101; 108; 108; 111; 0], 5)).
Proof.
  assert (E : base64_encode [72; 101; 108; 108; 111] (replicate 10 1) 10
    = ([83; 71; 86; 115; 98; 71; 56; 61; 0; 0], 8)) by (vm_compute; reflexivity).
  split; [exact E|].
  pose proof (base64_roundtrip [72; 101; 108; 108; 111] (replicate 10 1) (replicate 6 9)) as H.
  change (zlen (replicate 10 1)) with 10 in H. rewrite E in H.
  apply H; [repeat constructor; vm_compute; done|vm_compute; done|vm_compute; done|vm_compute; done].
Defined.

(** ** Base16 correctness *)

Definition hex_lower (d : Z) : Z := if d <? 10 then 48 + d else 97 + (d - 10).
Definition hex_pair (b : Z) : list Z := [hex_lower (b / 16); hex_lower (b mod 16)].

(** The text for [raw], each byte but the very first one of the output
    preceded by the separator (if any). *)
Fixpoint hex_text (sep : list Z) (first : bool) (raw : list Z) : list Z :=
  match raw with
  | [] => []
  | b :: raw' => (if first then [] else sep) ++ hex_pair b ++ hex_text sep false raw'
  end.

Definition sep_text (separator : Z) : list Z := until_nul [separator; 0].

Lemma hex_convert a b : byte_ok b ->
  convert a ZPAD 2 INT_LEN 120 [ArgInt b] = Some (hex_pair b, []).
Proof.
  revert b. apply (range_dec 0 256 (fun b =>
    convert a ZPAD 2 INT_LEN 120 [ArgInt b] = Some (hex_pair b, []))).
  destruct a; vm_compute; reflexivity.
Qed.

Lemma hex_pair_ok b : byte_ok b ->
  bytes_ok (hex_pair b) /\ digit_value (hex_lower (b / 16)) = b / 16
  /\ digit_value (hex_lower (b mod 16)) = b mod 16 /\ hex_lower (b / 16) <> 0.
Proof.
  revert b. apply (range_dec 0 256 (fun b => bytes_ok (hex_pair b) /\ digit_value (hex_lower (b / 16)) = b / 16
  /\ digit_value (hex_lower (b mod 16)) = b mod 16 /\ hex_lower (b / 16) <> 0)).
  vm_compute. reflexivity.
Qed.

Lemma hex_vcprintf a s b : byte_ok b ->
  vcprintf a hex_encode_fmt [ArgStr (Some s); ArgInt b] = Some (until_nul s ++ hex_pair b).
Proof.
  intros Hb. unfold vcprintf, hex_encode_fmt. cbn [length].
  rewrite (vcprintf_conv a _ _ _ 0 0 INT_LEN 115 [37; 48; 50; 120] (until_nul s) [ArgInt b]) by reflexivity.
  rewrite (vcprintf_conv a _ _ _ ZPAD 2 INT_LEN 120 [] (hex_pair b) [])
    by (reflexivity || by apply hex_convert).
  cbn [vcprintf_loop]. by rewrite app_nil_r.
Qed.

Lemma until_nul_idemp s : until_nul (until_nul s) = until_nul s.
Proof. induction s as [|c s IH]; [done|]. cbn. destruct (Z.eqb_spec c 0); [done|]. cbn. case_if; [done|]. by rewrite IH. Qed.

Lemma sep_text_cases separator : byte_ok separator ->
  (separator = 0 /\ sep_text separator = []) \/ (separator <> 0 /\ sep_text separator = [separator]).
Proof. intros H. unfold sep_text. cbn. destruct (Z.eqb_spec separator 0); [by left|by right]. Qed.

Lemma hex_encode_loop_spec a separator raw pre t tail first :
  byte_ok separator -> bytes_ok raw -> first = (zlen pre =? 0) ->
  (length (hex_text (sep_text separator) first raw) <= length tail)%nat ->
  exists tail', hex_encode_loop a separator raw (pre ++ t :: tail) (zlen (pre ++ t :: tail)) (zlen pre)
  = Some (pre ++ hex_text (sep_text separator) first raw ++ (match raw with [] => t | _ => 0 end) :: tail',
          zlen pre + zlen (hex_text (sep_text separator) first raw)).
Proof.
  intros Hs. revert pre t tail first. induction raw as [|b raw IH]; intros pre t tail first Hb Hf Hl.
  - exists tail. cbn. do 2 f_equal. lia.
  - apply Forall_cons in Hb as [Hbb Hb]. cbn [hex_encode_loop hex_text].
    destruct (hex_pair_ok b Hbb) as (Hp&_).
    set (d := if zlen pre =? 0 then [] else until_nul [separator; 0]).
    assert (Ed : until_nul d = if first then [] else sep_text separator)
      by (subst d first; case_if; [done|apply until_nul_idemp]).
    assert (Hd : bytes_ok (until_nul d)).
    { rewrite Ed. destruct first; [constructor|].
      destruct (sep_text_cases separator Hs) as [[_ ->]|[_ ->]]; repeat constructor; apply Hs. }
    cbn [hex_text] in Hl. rewrite !length_app in Hl. rewrite <- Ed in Hl |- *.
    pose proof (vssnprintf_fits a pre (t :: tail) (zlen (pre ++ t :: tail) - zlen pre) hex_encode_fmt _ _
      (hex_vcprintf a d b Hbb)) as F.
    unfold ssnprintf. rewrite F; [| |rewrite !length_app; cbn [length hex_pair] in *; lia
      |rewrite !length_app; cbn [length hex_pair] in *; lia].
    2: { apply Forall_app; split; done. }
    cbn [mbind option_bind]. set (out := until_nul d ++ hex_pair b).
    assert (Hout : zlen out = zlen (until_nul d) + 2) by (subst out; rewrite length_app; cbn [length hex_pair]; lia).
    set (rest := drop (S (length out)) (t :: tail)).
    assert (Hrest : length rest = (length tail - length out)%nat) by (subst rest; rewrite length_drop; cbn [length]; lia).
    destruct (IH (pre ++ out) 0 rest false) as [tail' E]; [done| | |].
    { rewrite length_app. symmetry. apply Z.eqb_neq. lia. }
    { rewrite Hrest. cbn [length hex_pair] in Hl. lia. }
    exists tail'. rewrite <- !app_assoc in E.
    replace (zlen (pre ++ t :: tail)) with (zlen (pre ++ out ++ 0 :: rest)).
    2: { rewrite !length_app. cbn [length hex_pair] in *. rewrite Hrest. lia. }
    rewrite <- zlen_app. rewrite E. subst out. f_equal. rewrite !zlen_app. apply pair_eq. split; [|lia].
    rewrite <- !app_assoc. by destruct raw.
Qed.

Lemma hex_encode_spec a separator raw data :
  byte_ok separator -> bytes_ok raw ->
  zlen (hex_text (sep_text separator) true raw) < zlen data ->
  exists junk, hex_encode a separator raw data (zlen data)
  = Some (hex_text (sep_text separator) true raw ++ 0 :: junk,
          zlen (hex_text (sep_text separator) true raw)).
Proof.
  intros Hs Hb Hl. destruct data as [|t tail]; [cbn in Hl; lia|]. unfold hex_encode.
  rewrite (proj2 (Z.eqb_neq _ _)) by (cbn [length]; lia). cbn [mbind option_bind].
  destruct (hex_encode_loop_spec a separator raw [] 0 tail true Hs Hb eq_refl) as [junk E];
    [cbn [length] in Hl; lia|].
  exists junk. cbn [app length] in *. change (Z.of_nat 0) with 0 in E. rewrite E. do 2 f_equal. by destruct raw.
Qed.

Lemma hex_byte b : byte_ok b ->
  u8 (Z.lor (Z.shiftl (b / 16) 4) (b mod 16)) = b.
Proof.
  intros Hb. unfold byte_ok in Hb. rewrite lor_shiftl_add by (pows; Z.div_mod_to_equations; lia).
  rewrite uwrap_small; pows; Z.div_mod_to_equations; lia.
Qed.

Lemma hex_decode_loop_spec separator raw : forall fuel pre tail junk first,
  byte_ok separator -> bytes_ok raw -> first = (zlen pre =? 0) -> (length raw < fuel)%nat ->
  (length raw <= length tail)%nat ->
  hex_decode_loop fuel separator (hex_text (sep_text separator) first raw ++ 0 :: junk)
    (pre ++ tail) (zlen (pre ++ tail)) (zlen pre)
  = Some (Ok (pre ++ raw ++ drop (length raw) tail, zlen pre + zlen raw)).
Proof.
  induction raw as [|b raw IH]; intros fuel pre tail junk first Hs Hb Hf Hfuel Hl.
  - destruct fuel; [cbn in Hfuel; lia|]. cbn. rewrite drop_0. do 3 f_equal. lia.
  - destruct fuel as [|fuel]; [lia|]. apply Forall_cons in Hb as [Hbb Hb].
    destruct tail as [|t tail]; cbn [length] in *; [lia|].
    destruct (hex_pair_ok b Hbb) as (Hp&D1&D2&Hn0). pose proof (hex_byte b Hbb) as Hu.
    unfold byte_ok in Hbb.
    assert (Hrec : hex_decode_loop fuel separator (hex_text (sep_text separator) false raw ++ 0 :: junk)
      (<[Z.to_nat (zlen pre) := b]> (pre ++ t :: tail)) (zlen (pre ++ t :: tail)) (zlen pre + 1)
      = Some (Ok (pre ++ b :: raw ++ drop (length raw) tail, zlen pre + Z.of_nat (S (length raw))))).
    { change (<[Z.to_nat (zlen pre) := b]> (pre ++ t :: tail)) with (put (pre ++ t :: tail) (zlen pre) b).
      rewrite put_app0. specialize (IH fuel (pre ++ [b]) tail junk false). rewrite <- !app_assoc in IH. cbn [app] in IH.
      replace (zlen (pre ++ t :: tail)) with (zlen (pre ++ b :: tail)) by (rewrite !length_app; done).
      replace (zlen pre + 1) with (zlen (pre ++ [b])) by (zlens; lia).
      rewrite IH; [do 3 f_equal; zlens; lia|done|done|symmetry; apply Z.eqb_neq; zlens; lia|lia|lia]. }
    assert (H16 : (16 <=? b / 16) = false) by (apply Z.leb_gt; Z.div_mod_to_equations; lia).
    assert (H16' : (16 <=? b mod 16) = false) by (apply Z.leb_gt; Z.div_mod_to_equations; lia).
    assert (Hlt : (zlen pre <? zlen (pre ++ t :: tail)) = true) by (apply Z.ltb_lt; zlens; lia).
    assert (Hsep : (if first then [] else sep_text separator) =
      if negb (zlen pre =? 0) && negb (separator =? 0) then [separator] else []).
    { subst first. unfold sep_text. cbn. destruct (zlen pre =? 0); [done|].
      by destruct (Z.eqb_spec separator 0). }
    cbn [hex_text]. unfold hex_pair. rewrite Hsep. cbn [hex_decode_loop].
    destruct (negb (zlen pre =? 0) && negb (separator =? 0)) eqn:Ec; cbn [app next_char].
    + apply andb_true_iff in Ec as [_ Ec]. apply negb_true_iff in Ec. rewrite Ec, Z.eqb_refl. cbn [negb].
      rewrite D1, H16, D2, H16', Hu, Hlt. exact Hrec.
    + rewrite (proj2 (Z.eqb_neq _ _) Hn0), D1, H16, D2, H16', Hu, Hlt. exact Hrec.
Qed.

Lemma hex_text_length sep first raw : (length raw <= length (hex_text sep first raw))%nat.
Proof.
  revert first. induction raw as [|b raw IH]; intros first; [cbn; lia|]. cbn [hex_text]. unfold hex_pair.
  rewrite !length_app. cbn [length]. specialize (IH false). lia.
Qed.

(** Base16 round trip with any separator character (or none): what
    [hex_encode] writes through [ssnprintf] into a large enough buffer is read
    back by [hex_decode] as the original bytes and the original length; bytes
    of the destination past the decoded data keep their value. *)
Theorem hex_roundtrip a separator raw data buf :
  byte_ok separator -> bytes_ok raw -> zlen raw <= zlen buf ->
  zlen (hex_text (sep_text separator) true raw) < zlen data ->
  exists encoded n,
    hex_encode a separator raw data (zlen data) = Some (encoded, n)
    /\ n = (if separator =? 0 then base16_encoded_len (zlen raw) else Z.max 0 (3 * zlen raw - 1))
    /\ hex_decode separator encoded buf (zlen buf)
       = Some (Ok (raw ++ drop (length raw) buf, zlen raw)).
Proof.
  intros Hs Hb Hbuf Hl. destruct (hex_encode_spec a separator raw data Hs Hb Hl) as [junk E].
  eexists _, _. split; [exact E|]. split.
  - clear -Hs. assert (forall r, zlen (hex_text (sep_text separator) false r)
      = (zlen (sep_text separator) + 2) * zlen r) as Hlen.
    { induction r as [|b r IH]; [cbn; lia|]. cbn [hex_text]. rewrite !zlen_app, IH. cbn [length hex_pair]. lia. }
    destruct raw as [|b raw]; [by destruct (separator =? 0)|].
    cbn [hex_text app]. rewrite zlen_app, Hlen. unfold base16_encoded_len. cbn [length hex_pair].
    destruct (sep_text_cases separator Hs) as [[-> ->]|[Hne ->]]; cbn [length].
    + change (0 =? 0) with true. cbv iota. lia.
    + rewrite (proj2 (Z.eqb_neq _ _) Hne). lia.
  - unfold hex_decode. apply (hex_decode_loop_spec separator raw _ [] buf junk true); try done; [|lia].
    rewrite length_app. cbn [length]. pose proof (hex_text_length (sep_text separator) true raw). lia.
Qed.

Lemma hex_roundtrip_witness :
  exists encoded n,
    hex_encode Arch32 58 [0; 171; 255] (replicate 12 7) 12 = Some (encoded, n)
    /\ n = 8 /\ hex_decode 58 encoded [1; 1; 1; 1] 4 = Some (Ok ([0; 171; 255; 1], 3)).
Proof.
  apply (hex_roundtrip Arch32 58 [0; 171; 255] (replicate 12 7) [1; 1; 1; 1]);
    [vm_compute; split; done|repeat constructor; vm_compute; done|vm_compute; done|vm_compute; done].
Defined.

(** ** UTF-8 correctness *)

(** A sequence of bytes through the accumulator: the final state and the
    value returned for each byte. *)
Fixpoint utf8_run (utf8 : utf8_accumulator) (bytes : list Z) : utf8_accumulator * list Z :=
  match bytes with
  | [] => (utf8, [])
  | b :: bytes' =>
      let '(utf8, c) := utf8_accumulate utf8 b in
      let '(utf8, cs) := utf8_run utf8 bytes' in (utf8, c :: cs)
  end.

(** A lead byte for [n] continuation bytes, the smallest character that
    needs them, and the capacity of such a sequence. *)
Definition utf8_lead (n : Z) : Z := 0x100 - 2 ^ (7 - n).
Definition utf8_cap (n : nat) : Z := 2 ^ (6 - Z.of_nat n + 6 * Z.of_nat n).

(** [c] in exactly [n] continuation bytes, overlong or not. *)
Fixpoint utf8_tail (n : nat) (c : Z) : list Z :=
  match n with
  | O => []
  | S n' => (0x80 + c / 64 ^ Z.of_nat n' mod 64) :: utf8_tail n' c
  end.

Definition utf8_bytes (n : nat) (c : Z) : list Z :=
  match n with
  | O => [c]
  | _ => (utf8_lead (Z.of_nat n) + c / 64 ^ Z.of_nat n) :: utf8_tail n c
  end.

(** The euro sign. *)
Example utf8_euro : utf8_run (Utf8 0 0 0) (utf8_bytes 2 0x20ac) = (Utf8 0x20ac 0 0x800, [0; 0; 0x20ac]).
Proof. reflexivity. Qed.

Lemma utf8_lead_byte n v :
  (n = 1 \/ n = 2 \/ n = 3) -> 0 <= v < 2 ^ (6 - n) ->
  UTF8_IS_CONTINUATION (utf8_lead n + v) = false /\ UTF8_IS_ASCII (utf8_lead n + v) = false
  /\ let '(tmp, len) := utf8_count 8 (utf8_lead n + v) 0 in len = n + 1 /\ Z.shiftr tmp len = v.
Proof.
  intros Hn. revert v. destruct Hn as [->|[->| ->]].
  - apply (range_dec 0 32 (fun v => UTF8_IS_CONTINUATION (utf8_lead 1 + v) = false /\ UTF8_IS_ASCII (utf8_lead 1 + v) = false
      /\ let '(tmp, len) := utf8_count 8 (utf8_lead 1 + v) 0 in len = 1 + 1 /\ Z.shiftr tmp len = v)).
    vm_compute. reflexivity.
  - apply (range_dec 0 16 (fun v => UTF8_IS_CONTINUATION (utf8_lead 2 + v) = false /\ UTF8_IS_ASCII (utf8_lead 2 + v) = false
      /\ let '(tmp, len) := utf8_count 8 (utf8_lead 2 + v) 0 in len = 2 + 1 /\ Z.shiftr tmp len = v)).
    vm_compute. reflexivity.
  - apply (range_dec 0 8 (fun v => UTF8_IS_CONTINUATION (utf8_lead 3 + v) = false /\ UTF8_IS_ASCII (utf8_lead 3 + v) = false
      /\ let '(tmp, len) := utf8_count 8 (utf8_lead 3 + v) 0 in len = 3 + 1 /\ Z.shiftr tmp len = v)).
    vm_compute. reflexivity.
Qed.

Lemma utf8_accumulate_lead utf8 n v :
  (n = 1 \/ n = 2 \/ n = 3) -> 0 <= v < 2 ^ (6 - n) ->
  utf8_accumulate utf8 (utf8_lead n + v) = (Utf8 v n (get utf8_min (n - 1)), 0).
Proof.
  intros Hn Hv. destruct (utf8_lead_byte n v Hn Hv) as (E1&E2&E3). unfold utf8_accumulate.
  rewrite E1, E2. destruct (utf8_count 8 (utf8_lead n + v) 0) as [tmp len]. destruct E3 as [E3 E4].
  rewrite E4, E3. cbn [negb]. destruct (Z.ltb_spec 4 (n + 1)); [lia|].
  by replace (n + 1 - 1) with n by lia.
Qed.

Lemma utf8_cont_byte v : 0 <= v < 64 ->
  UTF8_IS_CONTINUATION (0x80 + v) = true /\ Z.land (0x80 + v) 0x3f = v.
Proof.
  revert v. apply (range_dec 0 64 (fun v => UTF8_IS_CONTINUATION (0x80 + v) = true /\ Z.land (0x80 + v) 0x3f = v)).
  vm_compute. reflexivity.
Qed.

Lemma utf8_run_tail n c m :
  0 <= c < 2 ^ 32 -> (0 < n)%nat ->
  utf8_run (Utf8 (c / 64 ^ Z.of_nat n) (Z.of_nat n) m) (utf8_tail n c)
  = (Utf8 c 0 m, replicate (n - 1) 0 ++ [if c <? m then UTF8_INVALID else c]).
Proof.
  intros Hc. induction n as [|n IH]; [lia|]. intros _. cbn [utf8_tail utf8_run].
  set (p := 64 ^ Z.of_nat n). assert (Hp : 0 < p) by (apply Z.pow_pos_nonneg; lia).
  assert (Hv : 0 <= c / p mod 64 < 64) by (apply Z.mod_pos_bound; lia).
  destruct (utf8_cont_byte _ Hv) as [E1 E2]. unfold utf8_accumulate at 1. cbn [u_remaining u_character u_min].
  rewrite E1, E2. rewrite (proj2 (Z.eqb_neq _ _)) by lia.
  assert (E3 : Z.lor (u32 (Z.shiftl (c / 64 ^ Z.of_nat (S n)) 6)) (c / p mod 64) = c / p).
  { rewrite Nat2Z.inj_succ, Z.pow_succ_r by lia. rewrite (Z.mul_comm 64), <- Z.div_div by lia. fold p.
    rewrite Z.shiftl_mul_pow2 by lia. assert (0 <= c / p <= c) by (split; [apply Z.div_pos; lia|apply Z.div_le_upper_bound; nia]).
    rewrite uwrap_small by (pows; Z.div_mod_to_equations; lia).
    rewrite lor_mul_add by (pows; lia). pows. Z.div_mod_to_equations; lia. }
  rewrite E3. replace (Z.of_nat (S n) - 1) with (Z.of_nat n) by lia.
  destruct n as [|n].
  - subst p. cbn [utf8_tail utf8_run]. change (64 ^ Z.of_nat 0) with 1. rewrite Z.div_1_r. cbn.
    by destruct (c <? m).
  - rewrite (proj2 (Z.eqb_neq _ _)) by lia. cbn [negb]. unfold p. rewrite IH by lia.
    by replace (S (S n) - 1)%nat with (S (S n - 1)) by lia.
Qed.

(** The UTF-8 accumulator decodes exactly: whatever it was doing before,
    [n] continuation bytes after their lead byte return [n] times "incomplete"
    and then the encoded character, except that an overlong encoding (a
    character that fits a shorter sequence) is reported as [UTF8_INVALID]; no
    partial sequence is left behind. *)
Theorem utf8_accumulate_decodes utf8 n c :
  (n <= 3)%nat -> 0 <= c < (if decide (n = 0%nat) then 0x80 else utf8_cap n) ->
  exists utf8', utf8_run utf8 (utf8_bytes n c)
    = (utf8', replicate n 0 ++ [if c <? (match n with O => 0 | S n' => get utf8_min (Z.of_nat n') end)
                                then UTF8_INVALID else c])
    /\ u_remaining utf8' = 0.
Proof.
  intros Hn Hc. destruct n as [|n].
  - rewrite decide_True in Hc by done. cbn [utf8_bytes utf8_run].
    assert (E : UTF8_IS_CONTINUATION c = false /\ UTF8_IS_ASCII c = true).
    { revert c Hc. apply (range_dec 0 128 (fun c => UTF8_IS_CONTINUATION c = false /\ UTF8_IS_ASCII c = true)).
      vm_compute. reflexivity. }
    destruct E as [E1 E2]. unfold utf8_accumulate. rewrite E1, E2. cbn [negb].
    destruct (Z.ltb_spec c 0); [lia|].
    destruct (Z.eqb_spec (u_remaining utf8) 0); eexists; split; reflexivity || done.
  - rewrite decide_False in Hc by done.
    assert (Hd : 0 <= c / 64 ^ Z.of_nat (S n) < 2 ^ (6 - Z.of_nat (S n)) /\ c < 2 ^ 32).
    { unfold utf8_cap in Hc. rewrite Z.pow_add_r, Z.pow_mul_r in Hc by lia. change (2 ^ 6) with 64 in Hc.
      pose proof (Z.pow_pos_nonneg 64 (Z.of_nat (S n))).
      split; [split; [apply Z.div_pos; lia|apply Z.div_lt_upper_bound; lia]|].
      destruct n as [|[|[|n]]]; [cbn in Hc; lia..|lia]. }
    unfold utf8_bytes. cbn [utf8_run].
    rewrite utf8_accumulate_lead by lia. rewrite utf8_run_tail by lia.
    replace (Z.of_nat (S n) - 1) with (Z.of_nat n) by lia. replace (S n - 1)%nat with n by lia.
    by eexists.
Qed.

Lemma utf8_accumulate_decodes_witness :
  exists utf8', utf8_run (Utf8 3 2 0x10000) [0xe2; 0x82; 0xac] = (utf8', [0; 0; 0x20ac])
    /\ u_remaining utf8' = 0.
Proof.
  apply (utf8_accumulate_decodes (Utf8 3 2 0x10000) 2 0x20ac); [lia|vm_compute; split; done].
Defined.
