(* ===== verification/DhcpOpts.v ===== *)
(** * DHCP option blocks and packets ([net/dhcpopts.c], [net/dhcppkt.c])

    A block is the list of the bytes allocated for it.  A read or write
    outside the allocation makes the operation [None]; a status code is a
    [res].  The reallocation callback of a block is the section parameter
    [realloc]; [dhcpopt_no_realloc] is the one used for packets. *)

From S2P Require Import Prelude Strings Memory.

(** ** Option blocks *)

Definition DHCP_PAD : Z := 0.
Definition DHCP_END : Z := 255.
Definition DHCP_MAX_OPTION : Z := 254.
Definition DHCP_MAX_LEN : Z := 0xff.
Definition DHCP_OPTION_HEADER_LEN : Z := 2.

Definition DHCP_ENCAP_OPT (encapsulator encapsulated : Z) : Z :=
  Z.lor (Z.shiftl encapsulator 8) encapsulated.
Definition DHCP_ENCAPSULATOR (encap_opt : Z) : Z := Z.shiftr encap_opt 8.
Definition DHCP_ENCAPSULATED (encap_opt : Z) : Z := Z.land encap_opt 0xff.
Definition DHCP_IS_ENCAP_OPT (opt : Z) : bool := negb (DHCP_ENCAPSULATOR opt =? 0).

Record dhcp_options := DhcpOptions {
  data : list Z;
  used_len : Z;
  alloc_len : Z
}.

(** Length of the option at an offset, header included. *)
Definition dhcp_option_len (mem : list Z) (offset : Z) : option Z :=
  opt! tag := mem_byte mem offset in
  if (tag =? DHCP_END) || (tag =? DHCP_PAD) then Some 1
  else opt! len := mem_byte mem (offset + 1) in Some (len + DHCP_OPTION_HEADER_LEN).

(** The search loop.  The second component is the [encap_offset] out
    parameter, left as it was unless an encapsulator is entered. *)
Fixpoint find_loop (fuel : nat) (mem : list Z) (tag offset remaining encap_offset : Z)
  : option (res Z * Z) :=
  match fuel with
  | O => None
  | S fuel' =>
      if remaining =? 0 then Some (Err ENOENT, encap_offset)
      else
        opt! otag := mem_byte mem offset in
        opt! option_len := dhcp_option_len mem offset in
        let remaining := remaining - option_len in
        if remaining <? 0 then Some (Err ENOENT, encap_offset)
        else if otag =? DHCP_END then
          if tag =? DHCP_END then Some (Ok offset, encap_offset)
          else Some (Err ENOENT, encap_offset)
        else if otag =? tag then Some (Ok offset, encap_offset)
        else if DHCP_IS_ENCAP_OPT tag && (otag =? DHCP_ENCAPSULATOR tag) then
          find_loop fuel' mem (DHCP_ENCAPSULATED tag) (offset + DHCP_OPTION_HEADER_LEN)
            option_len offset
        else find_loop fuel' mem tag (offset + option_len) remaining encap_offset
  end.

(** Every round consumes at least a byte of the block, or of the at most
    257 bytes of the one encapsulator that may be entered. *)
Definition find_fuel (options : dhcp_options) : nat := Z.to_nat (used_len options + 260).

Definition find_dhcp_option_with_encap (options : dhcp_options) (tag encap_offset : Z)
  : option (res Z * Z) :=
  if tag =? DHCP_PAD then Some (Err ENOENT, encap_offset)
  else find_loop (find_fuel options) (data options) tag 0 (used_len options) encap_offset.

Definition dhcpopt_no_realloc (options : dhcp_options) (len : Z) : dhcp_options * res unit :=
  (options, if len <=? alloc_len options then Ok () else Err ENOSPC).

Section Options.
Context (a : arch) (realloc : dhcp_options -> Z -> dhcp_options * res unit).

Definition size_t (z : Z) : Z := uwrap (size_bits a) z.

Definition resize_dhcp_option (options : dhcp_options) (offset encap_offset old_len new_len : Z)
  : option (dhcp_options * res unit) :=
  let delta := swrap (size_bits a) (new_len - old_len) in
  if DHCP_MAX_LEN <? new_len then Some (options, Err ENOSPC)
  else
    let new_used_len := size_t (used_len options + delta) in
    (* Expand options block, if necessary *)
    opt! (options, rc) :=
      (if alloc_len options <? new_used_len then
         let old_alloc_len := alloc_len options in
         match realloc options new_used_len with
         | (options, Err e) => Some (options, Err e)
         | (options, Ok _) =>
             opt! mem := generic_memset (data options) (Z.to_nat old_alloc_len) 0
                           (Z.to_nat (alloc_len options - old_alloc_len)) in
             Some (DhcpOptions mem (used_len options) (alloc_len options), Ok ())
         end
       else Some (options, Ok ())) in
    match rc with
    | Err e => Some (options, Err e)
    | Ok _ =>
        (* Update encapsulator, if applicable *)
        opt! (options, rc) :=
          (if 0 <=? encap_offset then
             opt! elen := mem_byte (data options) (encap_offset + 1) in
             let new_encapsulator_len := size_t (elen + delta) in
             if DHCP_MAX_LEN <? new_encapsulator_len then Some (options, Err ENOSPC)
             else
               opt! mem := mem_write (data options) (encap_offset + 1) [u8 new_encapsulator_len] in
               Some (DhcpOptions mem (used_len options) (alloc_len options), Ok ())
           else Some (options, Ok ())) in
        match rc with
        | Err e => Some (options, Err e)
        | Ok _ =>
            (* Move remainder of option data *)
            opt! mem := mem_move (data options) (offset + new_len) (offset + old_len)
                          (size_t (new_used_len - offset - new_len)) in
            let options := DhcpOptions mem new_used_len (alloc_len options) in
            (* Shrink options block, if applicable *)
            if new_used_len <? alloc_len options then Some (realloc options new_used_len)
            else Some (options, Ok ())
        end
    end.

(** The recursive calls are for the encapsulator's tag. *)
Fixpoint set_option (fuel : nat) (options : dhcp_options) (tag : Z) (bytes : list Z) (len : Z)
  : option (dhcp_options * res Z) :=
  match fuel with
  | O => None
  | S fuel' =>
      let encap_tag := DHCP_ENCAPSULATOR tag in
      let new_len := if len =? 0 then 0 else size_t (len + DHCP_OPTION_HEADER_LEN) in
      if tag =? DHCP_PAD then Some (options, Err ENOTTY)
      else
        opt! (creation, _) := find_dhcp_option_with_encap options DHCP_END (-1) in
        let creation_offset := match creation with Ok o => o | Err _ => used_len options end in
        opt! (found, encap_offset) := find_dhcp_option_with_encap options tag (-1) in
        opt! old_len := (match found with
                         | Ok offset => dhcp_option_len (data options) offset
                         | Err _ => Some 0
                         end) in
        (* Ensure that encapsulator exists, if required *)
        opt! (options, encap) :=
          (if negb (encap_tag =? 0) then
             if encap_offset <? 0 then set_option fuel' options encap_tag [DHCP_END] 1
             else Some (options, Ok encap_offset)
           else Some (options, Ok encap_offset)) in
        match encap with
        | Err e => Some (options, Err e)
        | Ok encap_offset =>
            let creation_offset := if negb (encap_tag =? 0)
                                   then encap_offset + DHCP_OPTION_HEADER_LEN else creation_offset in
            let offset := match found with Ok offset => offset | Err _ => creation_offset end in
            opt! (options, rc) := resize_dhcp_option options offset encap_offset old_len new_len in
            match rc with
            | Err e => Some (options, Err e)
            | Ok _ =>
                (* Copy new data into option, if applicable *)
                opt! mem := (if negb (len =? 0) then
                               opt! value := mem_read bytes 0 len in
                               mem_write (data options) offset (u8 tag :: u8 len :: value)
                             else Some (data options)) in
                let options := DhcpOptions mem (used_len options) (alloc_len options) in
                (* Delete encapsulator if there's nothing else left in it *)
                if 0 <=? encap_offset then
                  opt! elen := mem_byte (data options) (encap_offset + 1) in
                  if elen <=? 1 then
                    opt! (options, _) := set_option fuel' options encap_tag [] 0 in
                    Some (options, Ok offset)
                  else Some (options, Ok offset)
                else Some (options, Ok offset)
            end
        end
  end.

(** A 32-bit tag has at most three enclosing tags. *)
Definition set_dhcp_option (options : dhcp_options) (tag : Z) (bytes : list Z) (len : Z)
  : option (dhcp_options * res Z) := set_option 5 options tag bytes len.

Definition dhcpopt_store (options : dhcp_options) (tag : Z) (bytes : list Z) (len : Z)
  : option (dhcp_options * res unit) :=
  opt! (options, r) := set_dhcp_option options tag bytes len in
  Some (options, match r with Ok _ => Ok () | Err e => Err e end).
End Options.

Definition dhcpopt_applies (tag : Z) : bool :=
  negb (tag =? 0) && (tag <=? DHCP_ENCAP_OPT DHCP_MAX_OPTION DHCP_MAX_OPTION).

(** The bytes copied into a buffer of [len] bytes, and the option's length. *)
Definition dhcpopt_fetch (options : dhcp_options) (tag len : Z) : option (res (list Z * Z)) :=
  opt! (found, _) := find_dhcp_option_with_encap options tag (-1) in
  match found with
  | Err e => Some (Err e)
  | Ok offset =>
      opt! option_len := mem_byte (data options) (offset + 1) in
      let len := if option_len <? len then option_len else len in
      opt! bytes := mem_read (data options) (offset + DHCP_OPTION_HEADER_LEN) len in
      Some (Ok (bytes, option_len))
  end.

Fixpoint update_used_loop (fuel : nat) (mem : list Z) (offset remaining used : Z) : option Z :=
  match fuel with
  | O => None
  | S fuel' =>
      if remaining =? 0 then Some used
      else
        opt! otag := mem_byte mem offset in
        opt! option_len := dhcp_option_len mem offset in
        let remaining := remaining - option_len in
        if remaining <? 0 then Some used
        else
          let offset := offset + option_len in
          let used := if negb (otag =? DHCP_PAD) then offset else used in
          update_used_loop fuel' mem offset remaining used
  end.

Definition dhcpopt_update_used_len (options : dhcp_options) : option dhcp_options :=
  opt! used := update_used_loop (S (Z.to_nat (alloc_len options))) (data options) 0 (alloc_len options) 0 in
  Some (DhcpOptions (data options) used (alloc_len options)).

Definition dhcpopt_init (mem : list Z) (alloc_len : Z) : option dhcp_options :=
  dhcpopt_update_used_len (DhcpOptions mem 0 alloc_len).

(** ** DHCP packets *)

Definition DHCP_EB_ENCAP : Z := 175.
Definition DHCP_EB_YIADDR : Z := DHCP_ENCAP_OPT DHCP_EB_ENCAP 0x02.
Definition DHCP_EB_SIADDR : Z := DHCP_ENCAP_OPT DHCP_EB_ENCAP 0x03.
Definition DHCP_TFTP_SERVER_NAME : Z := 66.
Definition DHCP_BOOTFILE_NAME : Z := 67.

(** Offset of the options in [struct dhcphdr]. *)
Definition dhcphdr_len : Z := 240.

Definition used_len_ipv4 (field : list Z) (len : Z) : option Z :=
  opt! s_addr := mem_read field 0 4 in
  Some (if forallb (fun b => b =? 0) s_addr then 0 else 4).

Definition used_len_string (field : list Z) (len : Z) : option Z := strnlen field len.

Record dhcp_packet_field := Field {
  f_tag : Z;
  f_offset : Z;
  f_len : Z;
  f_used_len : list Z -> Z -> option Z
}.

Definition dhcp_packet_fields : list dhcp_packet_field :=
  [ Field DHCP_EB_YIADDR 16 4 used_len_ipv4;
    Field DHCP_EB_SIADDR 20 4 used_len_ipv4;
    Field DHCP_TFTP_SERVER_NAME 44 64 used_len_string;
    Field DHCP_BOOTFILE_NAME 108 128 used_len_string ].

Definition find_dhcp_packet_field (tag : Z) : option dhcp_packet_field :=
  List.find (fun field => f_tag field =? tag) dhcp_packet_fields.

(** The fixed header and the options that follow it in the packet. *)
Record dhcp_packet := DhcpPacket {
  dhcphdr : list Z;
  options : dhcp_options
}.

Definition dhcppkt_applies (tag : Z) : bool := dhcpopt_applies tag.

Definition dhcppkt_store (a : arch) (pkt : dhcp_packet) (tag : Z) (bytes : list Z) (len : Z)
  : option (dhcp_packet * res unit) :=
  match find_dhcp_packet_field tag with
  | Some field =>
      if f_len field <? len then Some (pkt, Err ENOSPC)
      else
        opt! hdr := generic_memset (dhcphdr pkt) (Z.to_nat (f_offset field)) 0 (Z.to_nat (f_len field)) in
        opt! value := mem_read bytes 0 len in
        opt! hdr := mem_write hdr (f_offset field) value in
        opt! (opts, _) := dhcpopt_store a dhcpopt_no_realloc (options pkt) tag [] 0 in
        Some (DhcpPacket hdr opts, Ok ())
  | None =>
      opt! (opts, rc) := dhcpopt_store a dhcpopt_no_realloc (options pkt) tag bytes len in
      Some (DhcpPacket (dhcphdr pkt) opts, rc)
  end.

Definition dhcppkt_fetch (pkt : dhcp_packet) (tag len : Z) : option (res (list Z * Z)) :=
  opt! (field_data, field_len) :=
    (match find_dhcp_packet_field tag with
     | Some field =>
         let field_data := drop (Z.to_nat (f_offset field)) (dhcphdr pkt) in
         opt! used := f_used_len field field_data (f_len field) in Some (field_data, used)
     | None => Some ([], 0)
     end) in
  if negb (field_len =? 0) then
    let len := if field_len <? len then field_len else len in
    opt! bytes := mem_read field_data 0 len in
    Some (Ok (bytes, field_len))
  else dhcpopt_fetch (options pkt) tag len.

Definition dhcppkt_init (packet : list Z) (len : Z) : option dhcp_packet :=
  opt! opts := dhcpopt_init (drop (Z.to_nat dhcphdr_len) packet) (len - dhcphdr_len) in
  Some (DhcpPacket (take (Z.to_nat dhcphdr_len) packet) opts).

(** ** Abstract view: a list of options *)

Inductive item : Type :=
| Pad
| Opt (tag : Z) (value : list Z).

Definition enc_item (i : item) : list Z :=
  match i with Pad => [DHCP_PAD] | Opt t d => t :: zlen d :: d end.

Definition enc (items : list item) : list Z := items ≫= enc_item.

Definition item_ok (i : item) : Prop :=
  match i with Pad => True | Opt t d => 1 <= t <= 254 /\ zlen d <= 255 end.

Fixpoint lookup_item (t : Z) (items : list item) : option (list Z) :=
  match items with
  | [] => None
  | Pad :: r => lookup_item t r
  | Opt t' d :: r => if t' =? t then Some d else lookup_item t r
  end.

Definition new_item (t : Z) (d : list Z) : list item :=
  match d with [] => [] | _ => [Opt t d] end.

(** Replace the first option with the tag, or add it at the end; an empty
    value deletes it. *)
Fixpoint update_item (t : Z) (d : list Z) (items : list item) : list item :=
  match items with
  | [] => new_item t d
  | Pad :: r => Pad :: update_item t d r
  | Opt t' d' :: r => if t' =? t then new_item t d ++ r else Opt t' d' :: update_item t d r
  end.

(** The block holds [items], followed within its used length either by
    nothing or by an end marker. *)
Definition block_ok (o : dhcp_options) (items : list item) : Prop :=
  Forall item_ok items /\ alloc_len o = zlen (data o) /\ zlen (data o) < 2 ^ 30
  /\ exists tail, data o = enc items ++ tail
     /\ ((used_len o = zlen (enc items))
         \/ (zlen (enc items) < used_len o <= zlen (data o) /\ exists t', tail = DHCP_END :: t')).

Lemma enc_app i1 i2 : enc (i1 ++ i2) = enc i1 ++ enc i2.
Proof. apply bind_app. Qed.

Lemma enc_cons i l : enc (i :: l) = enc_item i ++ enc l.
Proof. done. Qed.

Lemma lookup_split t items d : lookup_item t items = Some d ->
  exists i1 i2, items = i1 ++ Opt t d :: i2 /\ lookup_item t i1 = None.
Proof.
  induction items as [|[|t' d'] items IH]; cbn [lookup_item]; [done|..].
  - intros H. destruct (IH H) as (i1&i2&->&E). by exists (Pad :: i1), i2.
  - destruct (Z.eqb_spec t' t) as [->|Hne].
    + intros [= ->]. by exists [], items.
    + intros H. destruct (IH H) as (i1&i2&->&E). exists (Opt t' d' :: i1), i2. split; [done|].
      cbn. by rewrite (proj2 (Z.eqb_neq _ _) Hne).
Qed.

Lemma update_found t d d0 i1 i2 : lookup_item t i1 = None ->
  update_item t d (i1 ++ Opt t d0 :: i2) = i1 ++ new_item t d ++ i2.
Proof.
  induction i1 as [|[|t' d'] i1 IH]; cbn [lookup_item update_item app]; intros H.
  - by rewrite Z.eqb_refl.
  - by rewrite IH.
  - destruct (t' =? t); [done|]. by rewrite IH.
Qed.

Lemma update_new t d items : lookup_item t items = None ->
  update_item t d items = items ++ new_item t d.
Proof.
  induction items as [|[|t' d'] items IH]; cbn [lookup_item update_item app]; intros H; [done|..].
  - by rewrite IH.
  - destruct (t' =? t); [done|]. by rewrite IH.
Qed.

(** The update is a map update on what the look-up sees. *)
Lemma lookup_update t d items t' :
  (t = t' -> d <> [] \/ lookup_item t items = None) ->
  lookup_item t' (update_item t d items) =
    if t =? t' then (match d with [] => None | _ => Some d end) else lookup_item t' items.
Proof.
  induction items as [|[|u e] items IH]; cbn [lookup_item update_item]; intros H.
  - destruct d; cbn; [by destruct (t =? t')|done].
  - apply IH, H.
  - destruct (Z.eqb_spec u t) as [->|Hne].
    + destruct d as [|x d].
      * cbn [new_item app]. destruct (Z.eqb_spec t t') as [->|]; [|done].
        destruct (H eq_refl) as [?|E]; done.
      * cbn. by destruct (t =? t').
    + cbn [lookup_item]. destruct (Z.eqb_spec u t') as [->|].
      * by destruct (Z.eqb_spec t t'); [subst|].
      * apply IH, H.
Qed.

(** The search skips options that do not match. *)
Lemma find_loop_skip items t pre tail r e fuel :
  Forall item_ok items -> 1 <= t <= 255 -> lookup_item t items = None -> 0 <= r ->
  find_loop (length items + fuel) (pre ++ enc items ++ tail) t (zlen pre) (zlen (enc items) + r) e
  = find_loop fuel (pre ++ enc items ++ tail) t (zlen (pre ++ enc items)) r e.
Proof.
  intros Hok Ht. revert pre. induction items as [|i items IH]; intros pre Hl Hr.
  - cbn. by rewrite app_nil_r.
  - apply Forall_cons in Hok as [Hi Hok]. specialize (IH Hok (pre ++ enc_item i)).
    rewrite enc_cons, <- !app_assoc, !app_assoc, <- !app_assoc in *.
    assert (Henc : DHCP_IS_ENCAP_OPT t = false).
    { unfold DHCP_IS_ENCAP_OPT, DHCP_ENCAPSULATOR. rewrite Z.shiftr_div_pow2, Z.div_small by lia. done. }
    cbn [length Nat.add find_loop]. destruct i as [|t' d]; cbn [enc_item app] in *.
    + rewrite (proj2 (Z.eqb_neq _ 0)) by (cbn [length]; lia).
      unfold dhcp_option_len. rewrite mem_byte_app by done. change (DHCP_PAD =? DHCP_END) with false.
      change (DHCP_PAD =? DHCP_PAD) with true. cbn [orb].
      rewrite (proj2 (Z.ltb_ge _ 0)) by (cbn [length]; lia).
      rewrite (proj2 (Z.eqb_neq DHCP_PAD t)) by (unfold DHCP_PAD; lia). rewrite Henc. cbn [andb].
      rewrite <- IH by done. f_equal; [rewrite zlen_app; done|cbn [length]; lia].
    + cbn [item_ok lookup_item] in *. destruct (Z.eqb_spec t' t) as [|Hne]; [done|].
      rewrite (proj2 (Z.eqb_neq _ 0)) by (cbn [length]; rewrite ?length_app; lia).
      unfold dhcp_option_len. rewrite mem_byte_app, mem_byte_app1 by done.
      unfold DHCP_END, DHCP_PAD in *. rewrite (proj2 (Z.eqb_neq t' 255)), (proj2 (Z.eqb_neq t' 0)) by lia.
      cbn [orb]. rewrite (proj2 (Z.ltb_ge _ 0)) by (cbn [length]; rewrite ?length_app; unfold DHCP_OPTION_HEADER_LEN; lia).
      rewrite (proj2 (Z.eqb_neq _ _) Hne). rewrite Henc. cbn [andb].
      rewrite <- IH by done. unfold DHCP_OPTION_HEADER_LEN.
      f_equal; [rewrite zlen_app; cbn [length]; lia|cbn [length]; rewrite length_app; lia].
Qed.

Lemma items_le_enc items : (length items <= length (enc items))%nat.
Proof.
  induction items as [|i items IH]; [done|]. rewrite enc_cons, length_app.
  destruct i; cbn [length enc_item]; lia.
Qed.

Lemma find_loop_hit fuel pre t d rest r e :
  1 <= t <= 254 -> 0 <= r ->
  find_loop (S fuel) (pre ++ (t :: zlen d :: d) ++ rest) t (zlen pre) (zlen d + 2 + r) e
  = Some (Ok (zlen pre), e).
Proof.
  intros Ht Hr. cbn [find_loop app]. rewrite (proj2 (Z.eqb_neq _ 0)) by lia.
  unfold dhcp_option_len. rewrite mem_byte_app, mem_byte_app1 by done.
  unfold DHCP_END, DHCP_PAD, DHCP_OPTION_HEADER_LEN.
  rewrite (proj2 (Z.eqb_neq t 255)), (proj2 (Z.eqb_neq t 0)) by lia. cbn [orb].
  rewrite (proj2 (Z.ltb_ge _ 0)) by lia. by rewrite Z.eqb_refl.
Qed.

Section Block.
Context (o : dhcp_options) (items : list item) (Hblock : block_ok o items).

(** Finding an option that is there. *)
Lemma find_present i1 t d i2 e :
  items = i1 ++ Opt t d :: i2 -> lookup_item t i1 = None ->
  find_dhcp_option_with_encap o t e = Some (Ok (zlen (enc i1)), e).
Proof.
  intros Hi Hl. destruct Hblock as (Hok&Ha&Hs&tail&Hd&Hu). subst items.
  rewrite Forall_app, Forall_cons in Hok. destruct Hok as (Hok1&Ht&Hok2). cbn [item_ok] in Ht.
  unfold find_dhcp_option_with_encap, find_fuel. rewrite (proj2 (Z.eqb_neq t _)) by (unfold DHCP_PAD; lia).
  rewrite enc_app, enc_cons in *. cbn [enc_item] in *.
  assert (Hr : exists r, 0 <= r /\ used_len o = zlen (enc i1) + (zlen d + 2 + r)).
  { exists (used_len o - zlen (enc i1) - zlen d - 2). rewrite !zlen_app in Hu. cbn [length] in Hu. lia. }
  destruct Hr as (r&Hr&Er). pose proof (items_le_enc i1).
  assert (Hf : exists f, Z.to_nat (used_len o + 260) = (length i1 + S f)%nat).
  { exists (Z.to_nat (used_len o + 260) - S (length i1))%nat. lia. }
  destruct Hf as [f ->]. rewrite Hd, Er, <- !app_assoc.
  rewrite (find_loop_skip i1 t [] ((t :: zlen d :: d) ++ enc i2 ++ tail) (zlen d + 2 + r) e) by (done || lia).
  cbn [app length]. apply (find_loop_hit f (enc i1) t d (enc i2 ++ tail)); lia.
Qed.

(** Looking for an absent option, or for the end marker. *)
Lemma find_absent t e : 1 <= t <= 254 -> lookup_item t items = None ->
  find_dhcp_option_with_encap o t e = Some (Err ENOENT, e).
Proof.
  intros Ht Hl. destruct Hblock as (Hok&Ha&Hs&tail&Hd&Hu).
  unfold find_dhcp_option_with_encap, find_fuel. rewrite (proj2 (Z.eqb_neq t _)) by (unfold DHCP_PAD; lia).
  set (r := used_len o - zlen (enc items)). pose proof (items_le_enc items).
  assert (Hf : exists f, Z.to_nat (used_len o + 260) = (length items + S f)%nat).
  { exists (Z.to_nat (used_len o + 260) - S (length items))%nat. lia. }
  destruct Hf as [f ->]. replace (used_len o) with (zlen (enc items) + r) by (subst r; lia).
  rewrite Hd. rewrite (find_loop_skip items t [] tail r e) by (done || lia).
  cbn [app find_loop]. destruct (Z.eqb_spec r 0); [done|]. destruct Hu as [Hu|[Hu [t' ->]]]; [lia|].
  unfold dhcp_option_len. rewrite mem_byte_app by done. cbn [orb Z.eqb Pos.eqb DHCP_END].
  rewrite (proj2 (Z.ltb_ge _ 0)) by lia. by rewrite (proj2 (Z.eqb_neq t _)) by (unfold DHCP_END; lia).
Qed.

Lemma find_end e : exists r,
  find_dhcp_option_with_encap o DHCP_END e = Some (r, e)
  /\ match r with Ok off => off | Err _ => used_len o end = zlen (enc items).
Proof.
  destruct Hblock as (Hok&Ha&Hs&tail&Hd&Hu).
  assert (Hl : lookup_item DHCP_END items = None).
  { clear -Hok. induction Hok as [|[|t d] l Hi _ IH]; [done|done|]. cbn [lookup_item item_ok] in *.
    by rewrite (proj2 (Z.eqb_neq _ _)) by (unfold DHCP_END; lia). }
  unfold find_dhcp_option_with_encap, find_fuel. change (DHCP_END =? DHCP_PAD) with false. cbv iota.
  set (r := used_len o - zlen (enc items)). pose proof (items_le_enc items).
  assert (Hf : exists f, Z.to_nat (used_len o + 260) = (length items + S f)%nat).
  { exists (Z.to_nat (used_len o + 260) - S (length items))%nat. lia. }
  destruct Hf as [f ->]. replace (used_len o) with (zlen (enc items) + r) by (subst r; lia).
  rewrite Hd. rewrite (find_loop_skip items DHCP_END [] tail r e) by (done || unfold DHCP_END; lia).
  cbn [app find_loop]. destruct (Z.eqb_spec r 0); [eexists; split; [done|]; cbn; lia|].
  destruct Hu as [Hu|[Hu [t' ->]]]; [lia|].
  unfold dhcp_option_len. rewrite mem_byte_app by done. cbn [orb Z.eqb Pos.eqb DHCP_END].
  rewrite (proj2 (Z.ltb_ge _ 0)) by lia. by eexists.
Qed.
End Block.

Lemma size_t_small a z : 0 <= z < 2 ^ 32 -> size_t a z = z.
Proof.
  intros Hz. apply uwrap_small. pose proof (size_bits_large a).
  pose proof (Z.pow_le_mono_r 2 32 (size_bits a)). lia.
Qed.

Lemma swrap_size_small a z : - 2 ^ 31 <= z < 2 ^ 31 -> swrap (size_bits a) z = z.
Proof.
  intros Hz. pose proof (size_bits_large a). apply swrap_small; [lia|].
  pose proof (Z.pow_le_mono_r 2 31 (size_bits a - 1)). lia.
Qed.

(** Resizing an option in a block that cannot grow: what follows the option
    within the used length moves with its end. *)
Lemma resize_spec a A old R T new_len :
  let mem := A ++ old ++ R ++ T in
  zlen mem < 2 ^ 30 -> 0 <= new_len <= 255 ->
  resize_dhcp_option a dhcpopt_no_realloc
    (DhcpOptions mem (zlen A + zlen old + zlen R) (zlen mem)) (zlen A) (-1) (zlen old) new_len
  = if zlen A + new_len + zlen R <=? zlen mem then
      Some (DhcpOptions (take (length A + Z.to_nat new_len) mem ++ R
                         ++ drop (length A + Z.to_nat new_len + length R) mem)
              (zlen A + new_len + zlen R) (zlen mem), Ok ())
    else Some (DhcpOptions mem (zlen A + zlen old + zlen R) (zlen mem), Err ENOSPC).
Proof.
  intros mem Hm Hn. assert (Hlen : zlen mem = zlen A + zlen old + zlen R + zlen T) by (subst mem; rewrite !zlen_app; lia).
  unfold resize_dhcp_option. cbn [used_len alloc_len data].
  rewrite swrap_size_small by lia. rewrite (proj2 (Z.ltb_ge _ _)) by (unfold DHCP_MAX_LEN; lia).
  replace (zlen A + zlen old + zlen R + (new_len - zlen old)) with (zlen A + new_len + zlen R) by lia.
  rewrite (size_t_small a (zlen A + new_len + zlen R)) by lia. unfold dhcpopt_no_realloc. cbn [alloc_len].
  destruct (Z.ltb_spec (zlen mem) (zlen A + new_len + zlen R)) as [Hgt|Hle].
  - by rewrite !(proj2 (Z.leb_gt (zlen A + new_len + zlen R) (zlen mem))) by lia.
  - rewrite !(proj2 (Z.leb_le (zlen A + new_len + zlen R) (zlen mem))) by lia. cbv iota beta.
    change (0 <=? -1) with false. cbv iota beta. cbn [data used_len alloc_len].
    rewrite (size_t_small a) by lia.
    replace (zlen A + new_len + zlen R - zlen A - new_len) with (zlen R) by lia.
    assert (E : mem_move mem (zlen A + new_len) (zlen A + zlen old) (zlen R)
      = Some (take (length A + Z.to_nat new_len) mem ++ R ++ drop (length A + Z.to_nat new_len + length R) mem)).
    { unfold mem_move. rewrite !(proj2 (Z.leb_le _ _)) by lia. cbn [andb].
      rewrite generic_memmove_list by lia. subst mem.
      replace (Z.to_nat (zlen A + new_len)) with (length A + Z.to_nat new_len)%nat by lia.
      replace (Z.to_nat (zlen A + zlen old)) with (length (A ++ old)) by (rewrite length_app; lia).
      rewrite Nat2Z.id. do 3 f_equal. rewrite (app_assoc A), drop_app_length. by rewrite take_app_length. }
    rewrite E. rewrite (proj2 (Z.leb_le _ _) Hle). by destruct (_ <? _).
Qed.

Lemma take_hole (A T : list Z) n :
  (n <= length T)%nat -> exists H, take (length A + n) (A ++ T) = A ++ H /\ length H = n.
Proof. intros Hn. exists (take n T). rewrite take_app_add, length_take. split; [done|lia]. Qed.

Lemma no_encap t : 1 <= t <= 255 -> DHCP_ENCAPSULATOR t = 0.
Proof. intros Ht. unfold DHCP_ENCAPSULATOR. rewrite Z.shiftr_div_pow2, Z.div_small by lia. done. Qed.

(** [set_dhcp_option] for a tag without encapsulator, given where the search
    found the option (or where it is to be created). *)
Lemma set_option_at a o items A old R T t bytes :
  block_ok o items -> zlen (data o) < 2 ^ 30 -> 1 <= t <= 254 -> zlen bytes < 2 ^ 30 ->
  data o = A ++ old ++ R ++ T -> used_len o = zlen A + zlen old + zlen R ->
  (exists d i1 i2, items = i1 ++ Opt t d :: i2 /\ lookup_item t i1 = None /\ enc i1 = A
     /\ old = t :: zlen d :: d)
  \/ (lookup_item t items = None /\ enc items = A /\ old = []) ->
  let new := enc (new_item t bytes) in
  set_dhcp_option a dhcpopt_no_realloc o t bytes (zlen bytes)
  = if (zlen new <=? 255) && (zlen A + zlen new + zlen R <=? zlen (data o)) then
      Some (DhcpOptions (A ++ new ++ R ++ drop (length A + length new + length R) (data o))
              (zlen A + zlen new + zlen R) (alloc_len o), Ok (zlen A))
    else Some (o, Err ENOSPC).
Proof.
  intros Hblock Hsz Ht Hbytes Hd Hu Hfound new.
  assert (Hfind : exists found, find_dhcp_option_with_encap o t (-1) = Some (found, -1)
    /\ match found with Ok off => dhcp_option_len (data o) off | Err _ => Some 0 end = Some (zlen old)
    /\ match found with Ok off => off | Err _ => zlen (enc items) end = zlen A).
  { destruct Hfound as [(d&i1&i2&Hi&Hl&HA&Ho)|(Hl&HA&Ho)].
    - exists (Ok (zlen (enc i1))). rewrite (find_present o items Hblock i1 t d i2 (-1) Hi Hl).
      repeat split; [|by rewrite HA]. rewrite Hd, HA, Ho. unfold dhcp_option_len. cbn [app].
      rewrite mem_byte_app, mem_byte_app1 by done.
      rewrite (proj2 (Z.eqb_neq t _)), (proj2 (Z.eqb_neq t _)) by (unfold DHCP_END, DHCP_PAD; lia).
      cbn [orb length]. f_equal. unfold DHCP_OPTION_HEADER_LEN. lia.
    - exists (Err ENOENT). rewrite (find_absent o items Hblock t (-1)) by done. subst. done. }
  destruct Hfind as (found&E1&E2&E3). destruct (find_end o items Hblock (-1)) as (r&E4&E5).
  destruct Hblock as (_&Ha&_).
  assert (Hnew : (if zlen bytes =? 0 then 0 else size_t a (zlen bytes + DHCP_OPTION_HEADER_LEN)) = zlen new).
  { subst new. destruct bytes as [|b bs]; [done|]. rewrite (proj2 (Z.eqb_neq _ 0)) by (cbn [length]; lia).
    cbn [length] in Hbytes |- *. rewrite size_t_small by (unfold DHCP_OPTION_HEADER_LEN; lia).
    cbn [new_item enc mbind list_bind enc_item]. rewrite app_nil_r. cbn [length]. unfold DHCP_OPTION_HEADER_LEN. lia. }
  unfold set_dhcp_option. generalize 4%nat as fuel. intros fuel. cbn [set_option]. rewrite no_encap by lia. change (negb (0 =? 0)) with false. cbv iota.
  rewrite (proj2 (Z.eqb_neq t _)) by (unfold DHCP_PAD; lia).
  rewrite E4, E1, E2, E5, Hnew, E3.
  destruct o as [mem used alloc]. cbn [data used_len alloc_len] in *. subst alloc used.
  destruct (Z.leb_spec (zlen new) 255) as [Hle|Hgt].
  2: { unfold resize_dhcp_option. rewrite (proj2 (Z.ltb_lt _ _)) by (unfold DHCP_MAX_LEN; lia). done. }
  pose proof (resize_spec a A old R T (zlen new)) as ER. cbv zeta in ER. rewrite <- Hd in ER.
  rewrite ER by lia. cbn [andb]. destruct (Z.leb_spec (zlen A + zlen new + zlen R) (zlen mem)) as [Hfit|Hno]; [|done].
  rewrite Nat2Z.id. cbn [data used_len alloc_len].
  destruct (take_hole A (old ++ R ++ T) (length new)) as (H&EH&HH).
  { rewrite Hd, length_app in Hfit. lia. }
  rewrite <- Hd in EH. rewrite EH, <- app_assoc.
  destruct bytes as [|b bs].
  - destruct H; [|done]. subst new. done.
  - rewrite (proj2 (Z.eqb_neq _ 0)) by (cbn [length]; lia). cbn [negb]. rewrite mem_read_all.
    assert (En : u8 t :: u8 (zlen (b :: bs)) :: b :: bs = new).
    { subst new. cbn [new_item enc mbind list_bind enc_item] in *. rewrite app_nil_r in *. cbn [length] in Hle.
      rewrite !uwrap_small by (cbn [length]; lia). done. }
    rewrite En, mem_write_at by done. done.
Qed.

(** Space and length limits of a store. *)
Definition store_fits (o : dhcp_options) (items : list item) (t : Z) (bytes : list Z) : Prop :=
  zlen (enc (new_item t bytes)) <= DHCP_MAX_LEN
  /\ used_len o + zlen (enc (update_item t bytes items)) - zlen (enc items) <= alloc_len o.

#[export] Instance store_fits_dec o items t bytes : Decision (store_fits o items t bytes).
Proof. unfold store_fits. apply _. Defined.

Lemma enc_new t b bs : enc (new_item t (b :: bs)) = t :: zlen (b :: bs) :: b :: bs.
Proof. cbn [new_item]. rewrite enc_cons. cbn [enc_item]. apply app_nil_r. Qed.

Lemma store_ok a o items t bytes :
  block_ok o items -> 1 <= t <= 254 -> zlen bytes < 2 ^ 30 ->
  if decide (store_fits o items t bytes) then
    exists o', dhcpopt_store a dhcpopt_no_realloc o t bytes (zlen bytes) = Some (o', Ok ())
      /\ block_ok o' (update_item t bytes items) /\ alloc_len o' = alloc_len o
  else dhcpopt_store a dhcpopt_no_realloc o t bytes (zlen bytes) = Some (o, Err ENOSPC).
Proof.
  intros Hb Ht Hn. pose proof Hb as (Hok&Ha&Hs&tail&Hd&Hu).
  (* where the option is, or goes *)
  assert (Hsplit : exists i1 old i2, enc items = enc i1 ++ old ++ enc i2
    /\ update_item t bytes items = i1 ++ new_item t bytes ++ i2 /\ Forall item_ok i1 /\ Forall item_ok i2
    /\ ((exists d i1' i2', items = i1' ++ Opt t d :: i2' /\ lookup_item t i1' = None /\ enc i1' = enc i1
          /\ old = t :: zlen d :: d)
        \/ (lookup_item t items = None /\ enc items = enc i1 /\ old = []))).
  { destruct (lookup_item t items) as [d|] eqn:El.
    - destruct (lookup_split t items d El) as (i1&i2&->&Hl). exists i1, (t :: zlen d :: d), i2.
      rewrite enc_app, enc_cons, update_found by done. rewrite Forall_app, Forall_cons in Hok.
      destruct Hok as (?&_&?). repeat split; try done. left. by exists d, i1, i2.
    - exists items, [], []. rewrite update_new, !app_nil_r by done. repeat split; try done. by right. }
  destruct Hsplit as (i1&old&i2&Ee&Eu&Hok1&Hok2&Hwhere).
  set (u := used_len o - zlen (enc items)). set (R := enc i2 ++ take (Z.to_nat u) tail).
  assert (Hur : 0 <= u <= zlen tail) by (subst u; rewrite Hd, zlen_app in *; destruct Hu as [?|[? _]]; lia).
  assert (HR : zlen R = zlen (enc i2) + u) by (subst R; rewrite zlen_app, length_take; lia).
  assert (Ed : data o = enc i1 ++ old ++ R ++ drop (Z.to_nat u) tail).
  { subst R. rewrite <- !app_assoc, take_drop. rewrite Hd, Ee. by rewrite <- !app_assoc. }
  assert (Hel : zlen (enc items) = zlen (enc i1) + zlen old + zlen (enc i2)) by (rewrite Ee, !zlen_app; lia).
  pose proof (set_option_at a o items (enc i1) old R (drop (Z.to_nat u) tail) t bytes Hb Hs Ht Hn Ed
    ltac:(subst u; lia) Hwhere) as ES. cbv zeta in ES.
  unfold dhcpopt_store. rewrite ES, ?Eu. clear ES Hwhere.
  case_decide as Hf; unfold store_fits, DHCP_MAX_LEN in Hf; rewrite Eu, !enc_app, !zlen_app in Hf;
    set (new := enc (new_item t bytes)) in *.
  - rewrite !(proj2 (Z.leb_le _ _)) by (subst u; lia). cbn [andb].
    eexists. split; [done|]. cbn [alloc_len]. split; [|done].
    assert (Hlen : zlen (enc i1 ++ new ++ R ++ drop (length (enc i1) + length new + length R) (data o)) = zlen (data o)).
    { rewrite !zlen_app, length_drop. subst u. lia. }
    repeat split; cbn [data used_len alloc_len]; [|lia|lia|].
    + rewrite !Forall_app. repeat split; try done. subst new. destruct bytes; [done|]. cbn [new_item].
      constructor; [|done]. rewrite enc_new in Hf. cbn [item_ok length] in *. lia.
    + exists (take (Z.to_nat u) tail ++ drop (length (enc i1) + length new + length R) (data o)).
      rewrite !enc_app, <- !app_assoc. fold new. split; [subst R; by rewrite <- !app_assoc|].
      rewrite !zlen_app. destruct Hu as [Hu|[Hu [t' ->]]]; [left; subst u; lia|right].
      split; [subst u; lia|].
      destruct (Z.to_nat u) eqn:En; [subst u; lia|]. cbn [take app]. by eexists.
  - destruct (Z.leb_spec (zlen new) 255); [|done]. cbn [andb].
    by rewrite (proj2 (Z.leb_gt _ _)) by (subst u; lia).
Qed.

Lemma fetch_ok o items t len :
  block_ok o items -> 1 <= t <= 254 -> 0 <= len ->
  dhcpopt_fetch o t len =
    Some (match lookup_item t items with
          | Some d => Ok (take (Z.to_nat len) d, zlen d)
          | None => Err ENOENT
          end).
Proof.
  intros Hb Ht Hlen. unfold dhcpopt_fetch. destruct (lookup_item t items) as [d|] eqn:El.
  - destruct (lookup_split t items d El) as (i1&i2&Hi&Hl).
    rewrite (find_present o items Hb i1 t d i2 (-1) Hi Hl).
    destruct Hb as (Hok&Ha&Hs&tail&Hd&Hu). rewrite Hd, Hi, enc_app, enc_cons. cbn [enc_item]. rewrite <- !app_assoc.
    cbn [app]. rewrite mem_byte_app1 by done. unfold DHCP_OPTION_HEADER_LEN.
    assert (E : mem_read (enc i1 ++ t :: zlen d :: d ++ enc i2 ++ tail) (zlen (enc i1) + 2)
      (if zlen d <? len then zlen d else len) = Some (take (Z.to_nat len) d)).
    { set (n := if zlen d <? len then zlen d else len).
      assert (Hn : n = Z.min len (zlen d)) by (subst n; case_if; lia).
      unfold mem_read. rewrite !(proj2 (Z.leb_le _ _)) by (rewrite ?zlen_app; cbn [length]; rewrite ?zlen_app, ?length_app; lia).
      cbn [andb]. f_equal. replace (Z.to_nat (zlen (enc i1) + 2)) with (length (enc i1) + 2)%nat by lia.
      rewrite drop_app_add. cbn [skipn]. rewrite drop_0, Hn.
      destruct (Z_le_gt_dec len (zlen d)).
      - rewrite Z.min_l by lia. by rewrite take_app_le by lia.
      - rewrite Z.min_r by lia. rewrite Nat2Z.id, take_app_length. by rewrite take_ge by lia. }
    by rewrite E.
  - by rewrite (find_absent o items Hb t (-1) Ht El).
Qed.

(** Fetching the value of every tag, as the abstract view has it. *)
Definition fetched (items : list item) (t len : Z) : res (list Z * Z) :=
  match lookup_item t items with
  | Some d => Ok (take (Z.to_nat len) d, zlen d)
  | None => Err ENOENT
  end.

(** C28. [dhcpopt_store] refines an update of the abstract list of options, for
    an unencapsulated tag in a well-formed block that cannot be reallocated:
    when the value fits the option format and the block, the stored block holds
    exactly the old options with the first one of that tag replaced (or
    deleted, for an empty value), or the new option added at the end; otherwise
    the result is [-ENOSPC] and the block is unchanged.  The block stays well
    formed in either case.  (For an encapsulated tag a store that fails can
    leave the encapsulating option behind: [dhcpopt_store_encap_partial].) *)
Theorem dhcpopt_store_refines a o items t bytes :
  block_ok o items -> 1 <= t <= 254 -> zlen bytes < 2 ^ 30 ->
  exists o' rc, dhcpopt_store a dhcpopt_no_realloc o t bytes (zlen bytes) = Some (o', rc)
    /\ alloc_len o' = alloc_len o
    /\ if decide (store_fits o items t bytes)
       then rc = Ok () /\ block_ok o' (update_item t bytes items)
       else rc = Err ENOSPC /\ o' = o.
Proof.
  intros Hb Ht Hn. pose proof (store_ok a o items t bytes Hb Ht Hn) as H. case_decide.
  - destruct H as (o'&E&?&?). by exists o', (Ok ()).
  - by exists o, (Err ENOSPC).
Qed.

(** A block with a message type, a list of name servers and room for more. *)
Definition demo_block : dhcp_options :=
  DhcpOptions ([53; 1; 2; 6; 4; 10; 0; 0; 1; 255] ++ replicate 10 0) 10 20.
Definition demo_items : list item := [Opt 53 [2]; Opt 6 [10; 0; 0; 1]].

Lemma demo_ok : block_ok demo_block demo_items.
Proof.
  repeat split; try (repeat constructor; vm_compute; (discriminate || done)).
  exists (255 :: replicate 10 0). split; [reflexivity|right]. split; [vm_compute; (split; done || discriminate)|].
  by exists (replicate 10 0).
Qed.

Lemma dhcpopt_store_refines_witness :
  exists o' rc, dhcpopt_store Arch32 dhcpopt_no_realloc demo_block 6 [8; 8; 8; 8; 9; 9; 9; 9] 8 = Some (o', rc)
    /\ alloc_len o' = 20
    /\ if decide (store_fits demo_block demo_items 6 [8; 8; 8; 8; 9; 9; 9; 9])
       then rc = Ok () /\ block_ok o' (update_item 6 [8; 8; 8; 8; 9; 9; 9; 9] demo_items)
       else rc = Err ENOSPC /\ o' = demo_block.
Proof.
  apply (dhcpopt_store_refines Arch32 demo_block demo_items 6 [8; 8; 8; 8; 9; 9; 9; 9]);
    [apply demo_ok|lia|vm_compute; done].
Defined.

(** Storing option 175.8 in this block: the encapsulating option is added first,
    and stays when there is no room for the value. *)
Example dhcpopt_store_encap_partial :
  dhcpopt_store Arch32 dhcpopt_no_realloc demo_block (DHCP_ENCAP_OPT 175 8) (replicate 8 7) 8
  = Some (DhcpOptions ([53; 1; 2; 6; 4; 10; 0; 0; 1; 175; 1; 255; 255] ++ replicate 7 0) 13 20, Err ENOSPC).
Proof. vm_compute. reflexivity. Qed.

(** Store then fetch: after a successful store of a non-empty value,
    fetching that tag returns the value (truncated to the caller's buffer)
    with its full length, and every other unencapsulated tag is fetched
    exactly as before. *)
Theorem dhcpopt_store_fetch a o items t bytes t' len :
  block_ok o items -> 1 <= t <= 254 -> 1 <= t' <= 254 -> 0 <= len ->
  0 < zlen bytes -> store_fits o items t bytes ->
  exists o', dhcpopt_store a dhcpopt_no_realloc o t bytes (zlen bytes) = Some (o', Ok ())
    /\ dhcpopt_fetch o' t' len =
         if t =? t' then Some (Ok (take (Z.to_nat len) bytes, zlen bytes)) else dhcpopt_fetch o t' len.
Proof.
  intros Hb Ht Ht' Hlen Hne Hfit.
  assert (Hn : zlen bytes < 2 ^ 30).
  { destruct Hfit as [Hfit _]. destruct bytes; [cbn in Hne; lia|]. rewrite enc_new in Hfit.
    unfold DHCP_MAX_LEN in Hfit. cbn [length] in *. lia. }
  pose proof (store_ok a o items t bytes Hb Ht Hn) as H. rewrite decide_True in H by done.
  destruct H as (o'&E&Hb'&_). exists o'. split; [done|].
  rewrite (fetch_ok o' _ t' len Hb' Ht' Hlen), (fetch_ok o items t' len Hb Ht' Hlen).
  rewrite lookup_update by (intros _; left; by destruct bytes).
  destruct (Z.eqb_spec t t'); [|done]. by destruct bytes.
Qed.

Lemma dhcpopt_store_fetch_witness :
  exists o', dhcpopt_store Arch64 dhcpopt_no_realloc demo_block 6 [8; 8; 8; 8; 9; 9; 9; 9] 8 = Some (o', Ok ())
    /\ dhcpopt_fetch o' 6 4 = Some (Ok ([8; 8; 8; 8], 8)).
Proof.
  apply (dhcpopt_store_fetch Arch64 demo_block demo_items 6 [8; 8; 8; 8; 9; 9; 9; 9] 6 4);
    [apply demo_ok|lia|lia|lia|vm_compute; done|]. vm_compute. (split; done || discriminate).
Defined.

(** ** Scanning a received block *)

Lemma update_used_skip items pre tail r used fuel :
  Forall item_ok items -> 0 <= r ->
  exists used', update_used_loop (length items + fuel) (pre ++ enc items ++ tail) (zlen pre)
    (zlen (enc items) + r) used
  = update_used_loop fuel (pre ++ enc items ++ tail) (zlen (pre ++ enc items)) r used'.
Proof.
  intros Hok Hr. revert pre used. induction items as [|i items IH]; intros pre used.
  - exists used. cbn. by rewrite app_nil_r.
  - apply Forall_cons in Hok as [Hi Hok]. specialize (IH Hok (pre ++ enc_item i)).
    rewrite enc_cons, <- !app_assoc, !app_assoc, <- !app_assoc in *.
    cbn [length Nat.add update_used_loop]. destruct i as [|t d]; cbn [enc_item app] in *; unfold dhcp_option_len.
    + destruct (IH used) as [used' E]. exists used'.
      rewrite (proj2 (Z.eqb_neq _ 0)) by (cbn [length]; lia). rewrite mem_byte_app by done.
      change (DHCP_PAD =? DHCP_END) with false. change (DHCP_PAD =? DHCP_PAD) with true. cbn [orb negb].
      rewrite (proj2 (Z.ltb_ge _ 0)) by (cbn [length]; lia). rewrite <- E.
      f_equal; [rewrite zlen_app; done|cbn [length]; lia].
    + cbn [item_ok] in Hi. destruct (IH (zlen pre + (zlen d + 2))) as [used' E]. exists used'.
      rewrite (proj2 (Z.eqb_neq _ 0)) by (cbn [length]; rewrite ?length_app; lia).
      rewrite mem_byte_app, mem_byte_app1 by done. unfold DHCP_END, DHCP_PAD, DHCP_OPTION_HEADER_LEN in *.
      rewrite (proj2 (Z.eqb_neq t 255)), (proj2 (Z.eqb_neq t 0)) by lia. cbn [orb negb].
      rewrite (proj2 (Z.ltb_ge _ 0)) by (cbn [length]; rewrite ?length_app; lia). rewrite <- E.
      f_equal; [rewrite zlen_app; cbn [length]; lia|cbn [length]; rewrite length_app; lia].
Qed.

Lemma update_used_pads k pre used fuel :
  (k < fuel)%nat ->
  update_used_loop fuel (pre ++ replicate k 0) (zlen pre) (Z.of_nat k) used = Some used.
Proof.
  revert pre fuel. induction k as [|k IH]; intros pre fuel Hf; (destruct fuel as [|fuel]; [lia|]); [done|].
  cbn [update_used_loop replicate]. rewrite (proj2 (Z.eqb_neq _ 0)) by lia.
  unfold dhcp_option_len. rewrite mem_byte_app by done.
  change (0 =? DHCP_END) with false. change (0 =? DHCP_PAD) with true. cbn [orb negb].
  rewrite (proj2 (Z.ltb_ge _ 0)) by lia. specialize (IH (pre ++ [0]) fuel). rewrite <- app_assoc in IH. cbn [app] in IH.
  rewrite <- IH by lia. f_equal; [rewrite zlen_app; done|lia].
Qed.

(** A received block of well-formed options, an end marker and padding
    is scanned by [dhcpopt_init] to exactly its options: the used length ends
    just after the end marker, the block is well formed and fetching any
    unencapsulated tag returns what the list of options holds. *)
Theorem dhcpopt_init_correct items k t len :
  Forall item_ok items -> zlen (enc items) + Z.of_nat k + 1 < 2 ^ 30 -> 1 <= t <= 254 -> 0 <= len ->
  let block := enc items ++ DHCP_END :: replicate k DHCP_PAD in
  exists o, dhcpopt_init block (zlen block) = Some o
    /\ used_len o = zlen (enc items) + 1 /\ block_ok o items
    /\ dhcpopt_fetch o t len = Some (fetched items t len).
Proof.
  intros Hok Hlen Ht Hl block.
  assert (Hb : zlen block = zlen (enc items) + (1 + Z.of_nat k))
    by (subst block; rewrite zlen_app; cbn [length]; rewrite length_replicate; lia).
  unfold dhcpopt_init, dhcpopt_update_used_len. cbn [data alloc_len].
  pose proof (items_le_enc items).
  assert (Hf : exists f, S (Z.to_nat (zlen block)) = (length items + S f)%nat /\ (k < f)%nat).
  { exists (Z.to_nat (zlen block) - length items)%nat. lia. }
  destruct Hf as (f&Ef&Hkf). rewrite Ef.
  destruct (update_used_skip items [] (DHCP_END :: replicate k DHCP_PAD) (1 + Z.of_nat k) 0 (S f) Hok)
    as [used' E]; [lia|]. cbn [app length] in E. change (Z.of_nat 0) with 0 in E. fold block in E.
  rewrite Hb, E. clear E. cbn [update_used_loop]. rewrite (proj2 (Z.eqb_neq _ 0)) by lia.
  unfold dhcp_option_len. subst block. rewrite mem_byte_app by done.
  change (DHCP_END =? DHCP_END) with true. change (DHCP_END =? DHCP_PAD) with false. cbn [orb negb].
  rewrite (proj2 (Z.ltb_ge _ 0)) by lia.
  replace (zlen (enc items) + 1) with (zlen (enc items ++ [DHCP_END])) by (rewrite zlen_app; done).
  replace (1 + Z.of_nat k - 1) with (Z.of_nat k) by lia.
  pose proof (update_used_pads k (enc items ++ [DHCP_END]) (zlen (enc items ++ [DHCP_END])) f Hkf) as E.
  rewrite <- app_assoc in E. cbn [app] in E. unfold DHCP_PAD. rewrite E. eexists. split; [done|]. split; [done|].
  assert (Hbo : block_ok (DhcpOptions (enc items ++ DHCP_END :: replicate k 0)
      (zlen (enc items ++ [DHCP_END])) (zlen (enc items) + (1 + Z.of_nat k))) items).
  { repeat split; cbn [data used_len alloc_len]; try done;
      try (rewrite zlen_app; cbn [length]; rewrite length_replicate; lia).
    exists (DHCP_END :: replicate k 0). split; [done|right].
    rewrite !zlen_app. cbn [length]. split; [lia|by eexists]. }
  split; [done|]. by apply fetch_ok.
Qed.

Lemma dhcpopt_init_correct_witness :
  exists o, dhcpopt_init [53; 1; 2; 6; 4; 10; 0; 0; 1; 255; 0; 0] 12 = Some o
    /\ used_len o = 10 /\ block_ok o demo_items
    /\ dhcpopt_fetch o 6 100 = Some (Ok ([10; 0; 0; 1], 4)).
Proof.
  apply (dhcpopt_init_correct demo_items 2 6 100); [|vm_compute; done|lia|lia].
  repeat constructor; vm_compute; discriminate || done.
Defined.

(** ** Memory safety of the search *)

Lemma find_loop_total fuel mem tag offset remaining e :
  bytes_ok mem -> 0 <= offset -> 0 <= remaining ->
  offset + remaining + (if DHCP_IS_ENCAP_OPT tag then 2 else 0) < zlen mem ->
  remaining + (if DHCP_IS_ENCAP_OPT tag then 258 else 0) < Z.of_nat fuel ->
  exists r e', find_loop fuel mem tag offset remaining e = Some (r, e')
    /\ forall off, r = Ok off ->
       0 <= off < offset + remaining + (if DHCP_IS_ENCAP_OPT tag then 2 else 0).
Proof.
  intros Hb. revert tag offset remaining e. induction fuel as [|fuel IH]; intros tag offset remaining e Ho Hr Hm Hf.
  { destruct (DHCP_IS_ENCAP_OPT tag); lia. }
  cbn [find_loop]. destruct (Z.eqb_spec remaining 0) as [|Hne]; [by eexists _, _|].
  set (x := if DHCP_IS_ENCAP_OPT tag then 2 else 0) in *.
  assert (Hx : 0 <= x) by (subst x; destruct (DHCP_IS_ENCAP_OPT tag); lia).
  assert (Hbyte : forall i, 0 <= i < zlen mem -> exists b, mem_byte mem i = Some b /\ byte_ok b).
  { intros i Hi. unfold mem_byte. rewrite (proj2 (Z.leb_le _ _)) by lia.
    destruct (lookup_lt_is_Some_2 mem (Z.to_nat i)) as [b E]; [lia|]. exists b. split; [done|].
    by eapply Forall_lookup_1 in E. }
  destruct (Hbyte offset ltac:(lia)) as (t&Et&Ht). unfold dhcp_option_len. rewrite Et.
  assert (Hlen : exists n, (if (t =? DHCP_END) || (t =? DHCP_PAD) then Some 1
    else opt! len := mem_byte mem (offset + 1) in Some (len + DHCP_OPTION_HEADER_LEN)) = Some n /\ 1 <= n <= 257).
  { destruct ((t =? DHCP_END) || (t =? DHCP_PAD)); [exists 1; split; [done|lia]|].
    destruct (Hbyte (offset + 1) ltac:(lia)) as (l&El&Hl). rewrite El. eexists. split; [done|].
    unfold byte_ok, DHCP_OPTION_HEADER_LEN in *. lia. }
  destruct Hlen as (n&En&Hn). rewrite En. destruct (Z.ltb_spec (remaining - n) 0); [by eexists _, _|].
  destruct (t =? DHCP_END).
  { destruct (tag =? DHCP_END); eexists _, _; (split; [done|]); intros off [= <-]; lia. }
  destruct (t =? tag); [eexists _, _; split; [done|]; intros off [= <-]; lia|].
  destruct (DHCP_IS_ENCAP_OPT tag) eqn:Ee; subst x; cbn [andb].
  - destruct (t =? DHCP_ENCAPSULATOR tag).
    + assert (Hin : DHCP_IS_ENCAP_OPT (DHCP_ENCAPSULATED tag) = false).
      { unfold DHCP_IS_ENCAP_OPT, DHCP_ENCAPSULATOR, DHCP_ENCAPSULATED. change 0xff with (2 ^ 8 - 1).
        rewrite land_ones_mod, Z.shiftr_div_pow2 by lia. rewrite Z.div_small; [done|]. apply Z.mod_pos_bound. lia. }
      specialize (IH (DHCP_ENCAPSULATED tag) (offset + DHCP_OPTION_HEADER_LEN) n offset). rewrite Hin in IH.
      unfold DHCP_OPTION_HEADER_LEN in *. destruct IH as (r&e'&E&Hoff); [lia..|]. exists r, e'. split; [done|].
      intros off ->. specialize (Hoff off eq_refl). lia.
    + specialize (IH tag (offset + n) (remaining - n) e). rewrite Ee in IH.
      destruct IH as (r&e'&E&Hoff); [lia..|]. exists r, e'. split; [done|].
      intros off ->. specialize (Hoff off eq_refl). lia.
  - specialize (IH tag (offset + n) (remaining - n) e). rewrite Ee in IH.
    destruct IH as (r&e'&E&Hoff); [lia..|]. exists r, e'. split; [done|].
    intros off ->. specialize (Hoff off eq_refl). lia.
Qed.

(** C29. The search terminates and is memory safe on arbitrary, malformed
    block contents provided three bytes follow the used length in the
    allocation; an option it reports starts inside the used length, or, for
    an encapsulated tag, at most two bytes after it. *)
Theorem find_dhcp_option_total o tag e :
  bytes_ok (data o) -> 0 <= used_len o -> used_len o + 3 <= zlen (data o) ->
  exists r e', find_dhcp_option_with_encap o tag e = Some (r, e')
    /\ forall off, r = Ok off ->
       0 <= off < used_len o + (if DHCP_IS_ENCAP_OPT tag then 2 else 0).
Proof.
  intros Hb Hu Hs. unfold find_dhcp_option_with_encap, find_fuel.
  destruct (tag =? DHCP_PAD); [by eexists _, _|].
  apply (find_loop_total _ _ _ 0); [done|lia|lia|destruct (DHCP_IS_ENCAP_OPT tag); lia|].
  destruct (DHCP_IS_ENCAP_OPT tag); lia.
Qed.

(** An option whose length byte claims more than the block holds. *)
Lemma find_dhcp_option_total_witness :
  exists r e', find_dhcp_option_with_encap (DhcpOptions [43; 200; 1; 0; 0; 0] 3 6)
                 (DHCP_ENCAP_OPT 43 6) (-1) = Some (r, e')
    /\ forall off, r = Ok off -> 0 <= off < 3 + 2.
Proof.
  apply (find_dhcp_option_total (DhcpOptions [43; 200; 1; 0; 0; 0] 3 6) (DHCP_ENCAP_OPT 43 6) (-1));
    [repeat constructor; vm_compute; discriminate || done|vm_compute; discriminate|vm_compute; discriminate].
Defined.

Lemma encap_opt_parts e t : 1 <= e -> byte_ok t ->
  DHCP_ENCAPSULATOR (DHCP_ENCAP_OPT e t) = e /\ DHCP_ENCAPSULATED (DHCP_ENCAP_OPT e t) = t
  /\ 256 <= DHCP_ENCAP_OPT e t.
Proof.
  intros He Ht. unfold DHCP_ENCAPSULATOR, DHCP_ENCAPSULATED, DHCP_ENCAP_OPT, byte_ok in *.
  rewrite lor_shiftl_add by lia. change 0xff with (2 ^ 8 - 1). rewrite land_ones_mod, Z.shiftr_div_pow2 by lia.
  change (2 ^ 8) with 256. Z.div_mod_to_equations. lia.
Qed.

(** The search for an encapsulated tag whose encapsulator holds only the
    first byte of an option. *)
Lemma find_encap_truncated e t v rest f enc0 :
  1 <= e <= 254 -> 1 <= t <= 254 ->
  find_loop (S (S f)) (e :: 1 :: t :: 1 :: v :: rest) (DHCP_ENCAP_OPT e t) 0 3 enc0 = Some (Ok 2, 0).
Proof.
  intros He Ht. destruct (encap_opt_parts e t) as (E1&E2&E3); [lia|unfold byte_ok; lia|].
  cbn [find_loop]. change (3 =? 0) with false. cbv iota.
  unfold dhcp_option_len. change (mem_byte (e :: 1 :: t :: 1 :: v :: rest) 0) with (Some e).
  change (mem_byte (e :: 1 :: t :: 1 :: v :: rest) (0 + 1)) with (Some 1).
  unfold DHCP_IS_ENCAP_OPT, DHCP_END, DHCP_PAD, DHCP_OPTION_HEADER_LEN. rewrite E1, E2.
  rewrite (proj2 (Z.eqb_neq e 255)), (proj2 (Z.eqb_neq e 0)), (proj2 (Z.eqb_neq e (DHCP_ENCAP_OPT e t))) by lia.
  rewrite Z.eqb_refl. cbn [orb negb andb]. change (3 - (1 + 2) <? 0) with false. change (1 + 2 =? 0) with false. cbv iota.
  change (mem_byte (e :: 1 :: t :: 1 :: v :: rest) (0 + 2)) with (Some t).
  change (mem_byte (e :: 1 :: t :: 1 :: v :: rest) (0 + 2 + 1)) with (Some 1).
  rewrite (proj2 (Z.eqb_neq t 255)), (proj2 (Z.eqb_neq t 0)) by lia.
  cbn [orb]. rewrite ?(proj2 (Z.eqb_neq t 255)) by lia. cbn [orb].
  change (1 + 2 - (1 + 2) <? 0) with false. cbv iota. by rewrite Z.eqb_refl.
Qed.

(** Finding: entering an encapsulator sets the remaining length to the
    option length with its header instead of the payload length, so the
    search runs two bytes past it.  For a block that ends with an encapsulator
    whose one payload byte is the sought tag, the search reports an option of
    three bytes at offset 2 although the used length is 3; replacing its value
    then calls [memmove] with a length that has wrapped below zero, which
    cannot stay inside the block. *)
Theorem find_encap_overrun a e t v w rest :
  1 <= e <= 254 -> 1 <= t <= 254 -> zlen rest < 2 ^ 29 ->
  let o := DhcpOptions (e :: 1 :: t :: 1 :: v :: rest) 3 (5 + zlen rest) in
  find_dhcp_option_with_encap o (DHCP_ENCAP_OPT e t) (-1) = Some (Ok 2, 0)
  /\ dhcp_option_len (data o) 2 = Some 3 /\ used_len o < 2 + 3
  /\ dhcpopt_store a dhcpopt_no_realloc o (DHCP_ENCAP_OPT e t) [w] 1 = None.
Proof.
  intros He Ht Hr o. destruct (encap_opt_parts e t) as (E1&E2&E3); [lia|unfold byte_ok; lia|].
  assert (Ef : find_dhcp_option_with_encap o (DHCP_ENCAP_OPT e t) (-1) = Some (Ok 2, 0)).
  { unfold find_dhcp_option_with_encap. rewrite (proj2 (Z.eqb_neq _ DHCP_PAD)) by (unfold DHCP_PAD; lia).
    change (find_fuel o) with (S (S 261)). by apply find_encap_truncated. }
  assert (El : dhcp_option_len (data o) 2 = Some 3).
  { unfold dhcp_option_len. change (mem_byte (data o) 2) with (Some t). change (mem_byte (data o) (2 + 1)) with (Some 1).
    unfold DHCP_END, DHCP_PAD. by rewrite (proj2 (Z.eqb_neq t 255)), (proj2 (Z.eqb_neq t 0)) by lia. }
  assert (Eend : find_dhcp_option_with_encap o DHCP_END (-1) = Some (Err ENOENT, -1)).
  { unfold find_dhcp_option_with_encap. change (find_fuel o) with (S (S 261)). generalize 261%nat as f. intros f.
    change (DHCP_END =? DHCP_PAD) with false. cbv iota.
    cbn [find_loop]. change (used_len o =? 0) with false. cbv iota. unfold dhcp_option_len.
    change (mem_byte (data o) 0) with (Some e). change (mem_byte (data o) (0 + 1)) with (Some 1).
    unfold DHCP_END, DHCP_PAD. rewrite (proj2 (Z.eqb_neq e 255)), (proj2 (Z.eqb_neq e 0)) by lia. done. }
  split; [done|]. split; [done|]. split; [cbn; lia|]. unfold dhcpopt_store, set_dhcp_option. generalize 4%nat as fuel. intros fuel.
  cbn [set_option]. rewrite (proj2 (Z.eqb_neq _ DHCP_PAD)) by (unfold DHCP_PAD; lia).
  rewrite Eend, Ef, El, E1, (proj2 (Z.eqb_neq e 0)) by lia. change (negb false) with true. change (0 <? 0) with false.
  cbv iota beta. change (1 =? 0) with false. cbv iota. unfold DHCP_OPTION_HEADER_LEN. rewrite (size_t_small a (1 + 2)) by lia.
  unfold resize_dhcp_option. rewrite (swrap_size_small a (1 + 2 - 3)) by lia.
  change (DHCP_MAX_LEN <? 1 + 2) with false. cbv iota. rewrite (size_t_small a (used_len o + (1 + 2 - 3))) by (cbn; lia).
  rewrite (proj2 (Z.ltb_ge (alloc_len o) _)) by (cbn [alloc_len used_len o]; lia).
  change (0 <=? 0) with true. cbv iota beta. change (mem_byte (data o) (0 + 1)) with (Some 1). cbv iota beta.
  rewrite (size_t_small a (1 + (1 + 2 - 3))) by lia. change (DHCP_MAX_LEN <? 1 + (1 + 2 - 3)) with false. cbv iota beta.
  assert (Ew : mem_write (data o) (0 + 1) [u8 (1 + (1 + 2 - 3))] = Some (data o)).
  { subst o. exact (mem_write_at [e] [1] [1] (t :: 1 :: v :: rest) eq_refl). }
  rewrite Ew. cbv iota beta. cbn [data used_len alloc_len o].
  assert (Em : forall mem d s, zlen mem < 2 ^ 30 -> 0 <= d ->
     mem_move mem d s (size_t a (3 + (1 + 2 - 3) - 2 - (1 + 2))) = None).
  { intros mem d s Hm Hd. unfold mem_move, size_t, uwrap.
    assert (2 ^ 31 <= (3 + (1 + 2 - 3) - 2 - (1 + 2)) mod 2 ^ size_bits a) by (destruct a; vm_compute; discriminate).
    rewrite (proj2 (Z.leb_gt (d + _) (zlen mem))) by lia. by rewrite !andb_false_r. }
  rewrite Em; [done| |lia]. cbn [length]. lia.
Qed.

Lemma find_encap_overrun_witness :
  let o := DhcpOptions [175; 1; 8; 1; 0; 0; 0] 3 7 in
  find_dhcp_option_with_encap o (DHCP_ENCAP_OPT 175 8) (-1) = Some (Ok 2, 0)
  /\ dhcp_option_len (data o) 2 = Some 3 /\ 3 < 2 + 3
  /\ dhcpopt_store Arch64 dhcpopt_no_realloc o (DHCP_ENCAP_OPT 175 8) [1] 1 = None.
Proof. apply (find_encap_overrun Arch64 175 8 0 1 [0; 0]); [lia|lia|vm_compute; done]. Defined.

(** ** Packet fields *)

Lemma fields_ok field : field ∈ dhcp_packet_fields ->
  0 <= f_offset field /\ 0 < f_len field /\ f_offset field + f_len field <= dhcphdr_len.
Proof. intros H. repeat (apply elem_of_cons in H as [->|H]; [vm_compute; (repeat split; discriminate || done)|]). by apply not_elem_of_nil in H. Qed.

Lemma used_len_string_padded value n rest :
  nonul value ->
  strnlen ((value ++ replicate n 0) ++ rest) (zlen (value ++ replicate n 0)) = Some (zlen value).
Proof.
  intros Hv. destruct n as [|n].
  - cbn [replicate]. rewrite !app_nil_r. by apply strnlen_full.
  - rewrite <- app_assoc. cbn [replicate app]. apply strnlen_cstr; [done|].
    rewrite zlen_app. cbn [length]. lia.
Qed.

(** The dedicated string fields of a DHCP packet (server name and boot
    file name) hold a stored string of up to the full field length, and
    [dhcppkt_fetch] returns it, also when it fills the field and so has no
    terminator; the equivalent option is deleted from the options block and
    the fixed header keeps its size. *)
Theorem dhcppkt_string_roundtrip a pkt items field value len :
  field ∈ dhcp_packet_fields -> f_tag field = DHCP_TFTP_SERVER_NAME \/ f_tag field = DHCP_BOOTFILE_NAME ->
  zlen (dhcphdr pkt) = dhcphdr_len -> block_ok (options pkt) items ->
  nonul value -> 0 < zlen value <= f_len field -> 0 <= len ->
  exists pkt', dhcppkt_store a pkt (f_tag field) value (zlen value) = Some (pkt', Ok ())
    /\ zlen (dhcphdr pkt') = dhcphdr_len
    /\ block_ok (options pkt') (update_item (f_tag field) [] items)
    /\ dhcppkt_fetch pkt' (f_tag field) len = Some (Ok (take (Z.to_nat len) value, zlen value)).
Proof.
  intros Hin Htag Hhdr Hb Hv Hlen Hl. destruct (fields_ok field Hin) as (Ho&Hf&He).
  assert (Hfind : find_dhcp_packet_field (f_tag field) = Some field /\ f_used_len field = used_len_string).
  { repeat (apply elem_of_cons in Hin as [->|Hin];
      [first [ split; reflexivity | exfalso; destruct Htag as [E|E]; vm_compute in E; discriminate ]|]).
    by apply not_elem_of_nil in Hin. }
  destruct Hfind as [Hfind Hused]. unfold dhcppkt_store, dhcppkt_fetch. rewrite Hfind.
  rewrite (proj2 (Z.ltb_ge _ _)) by lia. rewrite generic_memset_list by lia. rewrite mem_read_all.
  set (off := Z.to_nat (f_offset field)). set (n := Z.to_nat (f_len field)).
  set (A := take off (dhcphdr pkt)). set (B := drop (off + n) (dhcphdr pkt)).
  assert (HA : zlen A = f_offset field) by (subst A; rewrite length_take; lia).
  assert (Hz : replicate n (u8 0) = replicate (length value) 0 ++ replicate (n - length value) 0).
  { rewrite <- replicate_add. by replace (length value + (n - length value))%nat with n by lia. }
  rewrite Hz, <- app_assoc, <- HA.
  rewrite (mem_write_at A (replicate (length value) 0) value) by apply length_replicate.
  pose proof (store_ok a (options pkt) items (f_tag field) [] Hb) as Hs.
  destruct (decide _) as [Hfit|Hno] in Hs.
  2: { exfalso. apply Hno. split; [cbn; unfold DHCP_MAX_LEN; lia|]. destruct Hb as (_&Ha&_&tail&Hd&Hu).
       assert (zlen (enc (update_item (f_tag field) [] items)) <= zlen (enc items)).
       { clear. induction items as [|[|t d] items IH]; cbn [update_item]; [done|rewrite !enc_cons, !zlen_app; lia|].
         destruct (t =? f_tag field); rewrite !enc_cons, ?zlen_app; cbn [new_item app]; lia. }
       rewrite Ha. destruct Hu as [?|[? _]]; [rewrite Hd, zlen_app|]; lia. }
  destruct Hs as (o'&E&Hb'&_); [destruct Htag as [-> | ->]; vm_compute; (split; discriminate)|cbn; lia|].
  change (zlen []) with 0 in E. rewrite E. eexists. split; [done|]. cbn [dhcphdr options].
  split; [rewrite !zlen_app, length_replicate; subst A B; rewrite length_take, length_drop; lia|].
  split; [done|]. rewrite Hused. unfold used_len_string.
  assert (Hd : drop off (A ++ value ++ replicate (n - length value) 0 ++ B)
    = (value ++ replicate (n - length value) 0) ++ B).
  { replace off with (length A) by lia. rewrite drop_app_length. by rewrite app_assoc. }
  fold off. rewrite Hd.
  assert (Hn : f_len field = zlen (value ++ replicate (n - length value) 0))
    by (rewrite zlen_app, length_replicate; lia).
  rewrite Hn, used_len_string_padded by done.
  rewrite (proj2 (Z.eqb_neq (zlen value) 0)) by lia. cbn [negb].
  set (k := if zlen value <? len then zlen value else len).
  assert (Hk : k = Z.min len (zlen value)) by (subst k; case_if; lia).
  unfold mem_read. rewrite !(proj2 (Z.leb_le _ _)) by (rewrite ?zlen_app; lia). cbn [andb].
  change (Z.to_nat 0) with 0%nat. rewrite drop_0, <- app_assoc, take_app_le by lia.
  do 3 f_equal. rewrite Hk. destruct (Z_le_gt_dec len (zlen value)); [by rewrite Z.min_l by lia|].
  rewrite Z.min_r by lia. rewrite Nat2Z.id, !take_ge by lia. done.
Qed.

(** "boot.ipxe" as the boot file name. *)
Lemma dhcppkt_string_roundtrip_witness :
  exists pkt', dhcppkt_store Arch32 (DhcpPacket (replicate 240 7) demo_block) 67
                 [98; 111; 111; 116; 46; 105; 112; 120; 101] 9 = Some (pkt', Ok ())
    /\ zlen (dhcphdr pkt') = dhcphdr_len
    /\ block_ok (options pkt') (update_item 67 [] demo_items)
    /\ dhcppkt_fetch pkt' 67 4 = Some (Ok ([98; 111; 111; 116], 9)).
Proof.
  apply (dhcppkt_string_roundtrip Arch32 (DhcpPacket (replicate 240 7) demo_block) demo_items
    (Field DHCP_BOOTFILE_NAME 108 128 used_len_string) [98; 111; 111; 116; 46; 105; 112; 120; 101] 4);
    [repeat constructor|by right|reflexivity|apply demo_ok|solve_nonul|vm_compute; (split; discriminate || done)|lia].
Defined.
