(* ===== verification/Digest.v ===== *)
(** * Streaming message digests ([crypto/md4.c], [crypto/md5.c],
      [crypto/sha1.c], [crypto/sha256.c], [crypto/sha512.c])

    The five digest implementations share their buffering code: a context
    with a byte counter, the digest words and one data block; [update] stores
    bytes one at a time and runs the compression function whenever the block
    is full; [final] pads.  That shared part is modelled once over an
    [Engine], which the file [Hashes] instantiates for each algorithm.

    The host is little-endian, as every supported target is: the compression
    functions of the big-endian algorithms byte-swap the data block in place,
    and [e_swap] does the same here. *)

From S2P Require Import Prelude.

(** ** Words and bytes *)

Definition le_word (bytes : list Z) : Z := foldr (fun b acc => b + 256 * acc) 0 bytes.
Definition be_word (bytes : list Z) : Z := le_word (rev bytes).

Fixpoint le_bytes (n : nat) (v : Z) : list Z :=
  match n with O => [] | S n' => v mod 256 :: le_bytes n' (v / 256) end.
Definition be_bytes (n : nat) (v : Z) : list Z := rev (le_bytes n v).

(** Groups of [n] elements; [fuel] is the length of the list. *)
Fixpoint groups (fuel n : nat) (l : list Z) : list (list Z) :=
  match fuel with
  | O => []
  | S fuel' => match l with [] => [] | _ => take n l :: groups fuel' n (drop n l) end
  end.

(** Element of a constant array or of the message schedule; the indices the
    code uses are in range. *)
Definition arr (l : list Z) (i : Z) : Z := default 0 (l !! Z.to_nat i).

Class Engine := {
  e_block : nat;                          (* bytes in a data block *)
  e_word : nat;                           (* bytes in a word *)
  e_big : bool;                           (* big-endian words *)
  e_nh : nat;                             (* words in the digest *)
  e_lenpad : nat;                         (* zero bytes before the 64-bit length *)
  e_compress : list Z -> list Z -> list Z (* digest words, data words *)
}.

(** What the shared code needs of an algorithm. *)
Class EngineOk (e : Engine) := {
  e_block_min : (8 + e_lenpad < e_block)%nat;
  e_block_max : (e_block <= 128)%nat;
  e_word_min : (0 < e_word)%nat;
  e_compress_length h w : length h = e_nh -> length (e_compress h w) = e_nh
}.

Record context := Context_ {
  c_len : Z;
  c_digestsize : nat;
  c_h : list Z;
  c_data : list Z
}.

Section Stream.
Context (a : arch) {e : Engine}.

Definition e_words (bytes : list Z) : list Z :=
  (if e_big then be_word else le_word) <$> groups (length bytes) e_word bytes.

Definition e_bytes (n : nat) (v : Z) : list Z := if e_big then be_bytes n v else le_bytes n v.

(** The data block after conversion to host byte order in place. *)
Definition e_swap (bytes : list Z) : list Z :=
  if e_big then groups (length bytes) e_word bytes ≫= rev (A:=Z) else bytes.

Definition size (z : Z) : Z := uwrap (size_bits a) z.

(** The [*_digest] function of each algorithm. *)
Definition digest_block (c : context) : context :=
  Context_ (c_len c) (c_digestsize c) (e_compress (c_h c) (e_words (c_data c))) (e_swap (c_data c)).

Definition update_byte (c : context) (b : Z) : context :=
  let offset := c_len c mod Z.of_nat e_block in
  let c := Context_ (size (c_len c + 1)) (c_digestsize c) (c_h c)
             (<[Z.to_nat offset := b]> (c_data c)) in
  if c_len c mod Z.of_nat e_block =? 0 then digest_block c else c.

Definition update (c : context) (bytes : list Z) : context := fold_left update_byte bytes c.

(** The padding loop; [None] is a loop that did not end. *)
Fixpoint pad_loop (fuel : nat) (c : context) (pad : Z) : option context :=
  match fuel with
  | O => None
  | S fuel' =>
      let c := update c [pad] in
      if negb (c_len c mod Z.of_nat e_block =? Z.of_nat e_block - 8 - Z.of_nat e_lenpad)
      then pad_loop fuel' c 0 else Some c
  end.

(** The finished context and the digest. *)
Definition final (c : context) : option (context * list Z) :=
  let len_bits := u64 (c_len c * 8) in
  opt! c := pad_loop e_block c 0x80 in
  let c := update c (replicate e_lenpad 0) in
  let c := update c (e_bytes 8 len_bits) in
  Some (c, take (c_digestsize c) (c_h c ≫= e_bytes e_word)).

Definition init (h : list Z) (digestsize : nat) (data : list Z) : context :=
  Context_ 0 digestsize h data.

(** ** Reference: the digest of a whole message *)

Fixpoint md_fold (n : nat) (h msg : list Z) : list Z :=
  match n with
  | O => h
  | S n' => md_fold n' (e_compress h (e_words (take e_block msg))) (drop e_block msg)
  end.

(** One bit, zeros up to the length field, and the length in bits. *)
Definition padding (msg : list Z) : list Z :=
  let zeros := (Z.of_nat e_block - 9 - Z.of_nat e_lenpad - zlen msg) mod Z.of_nat e_block in
  0x80 :: replicate (Z.to_nat zeros) 0 ++ replicate e_lenpad 0 ++ e_bytes 8 (u64 (zlen msg * 8)).

Definition reference (h : list Z) (digestsize : nat) (msg : list Z) : list Z :=
  let padded := msg ++ padding msg in
  take digestsize (md_fold (length padded / e_block) h padded ≫= e_bytes e_word).
End Stream.

(** ** The streaming invariant *)

Lemma le_bytes_length n v : length (le_bytes n v) = n.
Proof. revert v. induction n as [|n IH]; intros v; cbn; [done|]. by rewrite IH. Qed.

Lemma e_bytes_length {e : Engine} n v : length (e_bytes n v) = n.
Proof. unfold e_bytes, be_bytes. destruct e_big; rewrite ?length_rev; apply le_bytes_length. Qed.

Lemma groups_concat fuel n l : (length l <= fuel)%nat -> (0 < n)%nat -> concat (groups fuel n l) = l.
Proof.
  revert l. induction fuel as [|fuel IH]; intros l Hf Hn; cbn [groups]; [by destruct l; cbn in *; [|lia]|].
  destruct l as [|x l']; [done|]. cbn [concat]. rewrite IH by (rewrite ?length_drop; cbn [length] in *; lia).
  apply take_drop.
Qed.

Lemma e_swap_length {e : Engine} l : (0 < e_word)%nat -> length (e_swap l) = length l.
Proof.
  intros Hw. unfold e_swap. destruct e_big; [|done].
  rewrite <- (groups_concat (length l) e_word l) at 3 by lia.
  induction (groups (length l) e_word l) as [|g gs IH]; [done|].
  cbn. rewrite !length_app, length_rev. f_equal. exact IH.
Qed.

Section Invariant.
Context (a : arch) {e : Engine} {Hok : EngineOk e} (h0 : list Z) (dsz : nat).

(** The context has absorbed [msg]: its complete blocks are in the digest
    words, the rest is at the front of the data block. *)
Definition absorbed (msg : list Z) (c : context) : Prop :=
  exists n done_ pending, msg = done_ ++ pending /\ length done_ = (n * e_block)%nat
    /\ (length pending < e_block)%nat
    /\ c_h c = md_fold n h0 done_ /\ c_len c = zlen msg /\ c_digestsize c = dsz
    /\ length (c_data c) = e_block /\ take (length pending) (c_data c) = pending.

Lemma md_fold_app n m h (x y : list Z) : length x = (n * e_block)%nat ->
  md_fold (n + m) h (x ++ y) = md_fold m (md_fold n h x) y.
Proof.
  revert h x. induction n as [|n IH]; intros h x Hx; cbn [md_fold Nat.add].
  - destruct x; [done|cbn in Hx; lia].
  - rewrite take_app_le, drop_app_le by lia. apply IH. rewrite length_drop. lia.
Qed.

Lemma absorbed_init (data : list Z) : length data = e_block -> absorbed [] (init h0 dsz data).
Proof.
  pose proof e_block_min. intros Hd. exists 0%nat, [], []. repeat split; try done. cbn. lia.
Qed.

Lemma absorbed_mod (msg : list Z) c n done_ pending :
  msg = done_ ++ pending -> length done_ = (n * e_block)%nat -> (length pending < e_block)%nat ->
  c_len c = zlen msg -> c_len c mod Z.of_nat e_block = zlen pending.
Proof.
  intros -> Hd Hp ->. rewrite length_app, Hd. symmetry. apply (Z.mod_unique _ _ (Z.of_nat n)); nia.
Qed.

Lemma update_byte_absorbed msg c b :
  absorbed msg c -> zlen msg + 1 < 2 ^ size_bits a -> absorbed (msg ++ [b]) (update_byte a c b).
Proof.
  pose proof e_word_min as Hw. intros (n&done_&pending&Hm&Hd&Hp&Hh&Hl&Hs&Hdl&Ht) Hlen.
  assert (Hmod : c_len c mod Z.of_nat e_block = zlen pending) by (eapply absorbed_mod; eauto).
  unfold update_byte. rewrite Hmod, Nat2Z.id. cbn [c_len].
  unfold size. rewrite uwrap_small by lia.
  assert (Htk : take (S (length pending)) (<[length pending := b]> (c_data c)) = pending ++ [b]).
  { rewrite insert_take_drop by lia. rewrite Ht, take_app_ge by lia.
    by replace (S (length pending) - length pending)%nat with 1%nat by lia. }
  assert (Hmod' : (c_len c + 1) mod Z.of_nat e_block
    = if decide (S (length pending) = e_block) then 0 else zlen pending + 1).
  { rewrite Hl, Hm, length_app, Hd. case_decide as Hf; symmetry.
    - apply (Z.mod_unique _ _ (Z.of_nat n + 1)); nia.
    - apply (Z.mod_unique _ _ (Z.of_nat n)); nia. }
  rewrite Hmod'. case_decide as Hf.
  - change (0 =? 0) with true. cbv iota. exists (S n), (msg ++ [b]), []. rewrite !app_nil_r, !length_app.
    repeat split; try done; cbn [length c_h c_len c_digestsize c_data digest_block].
    + rewrite Hm, length_app. lia.
    + lia.
    + rewrite take_ge in Htk by (rewrite length_insert; lia). rewrite Htk.
      rewrite Hm, <- app_assoc. rewrite <- Nat.add_1_r, md_fold_app by done.
      cbn [md_fold]. rewrite take_ge by (rewrite length_app; cbn [length]; lia). by rewrite Hh.
    + rewrite Hl. lia.
    + rewrite e_swap_length by done. rewrite length_insert. done.
  - rewrite (proj2 (Z.eqb_neq _ 0)) by lia. exists n, done_, (pending ++ [b]).
    rewrite Hm, <- app_assoc, !length_app. cbn [length c_h c_len c_digestsize c_data].
    repeat split; try done; [lia| |by rewrite length_insert|].
    + rewrite Hl, Hm, length_app. lia.
    + rewrite Nat.add_1_r. exact Htk.
Qed.

Lemma update_absorbed bytes msg c :
  absorbed msg c -> zlen msg + zlen bytes < 2 ^ size_bits a ->
  absorbed (msg ++ bytes) (update a c bytes).
Proof.
  unfold update. revert msg c. induction bytes as [|b bytes IH]; intros msg c Hc Hl; cbn [fold_left].
  - by rewrite app_nil_r.
  - cbn [length] in Hl. rewrite (cons_middle b msg bytes), app_assoc. apply IH.
    + apply update_byte_absorbed; [done|lia].
    + rewrite length_app. cbn [length]. lia.
Qed.

(** The padding loop stops at the first position of the length field. *)
Lemma pad_loop_spec k pad fuel msg c :
  absorbed msg c -> (k < fuel)%nat -> zlen msg + 1 + Z.of_nat k < 2 ^ size_bits a ->
  (forall j, (j <= k)%nat ->
     (zlen msg + 1 + Z.of_nat j) mod Z.of_nat e_block = Z.of_nat e_block - 8 - Z.of_nat e_lenpad <-> j = k) ->
  exists c', pad_loop a fuel c pad = Some c' /\ absorbed (msg ++ pad :: replicate k 0) c'.
Proof.
  revert pad fuel msg c. induction k as [|k IH]; intros pad fuel msg c Hc Hf Hl Hj;
    (destruct fuel as [|fuel]; [lia|]); cbn [pad_loop].
  - pose proof (update_absorbed [pad] msg c Hc ltac:(cbn [length]; lia)) as Hu.
    assert (El : c_len (update a c [pad]) = zlen msg + 1).
    { destruct Hu as (?&?&?&_&_&_&_&->&_). rewrite length_app. cbn [length]. lia. }
    rewrite El. pose proof (proj2 (Hj 0%nat ltac:(lia)) eq_refl) as E0.
    change (Z.of_nat 0) with 0 in E0. rewrite Z.add_0_r in E0. rewrite E0.
    rewrite Z.eqb_refl. cbn [negb]. by eexists.
  - pose proof (update_absorbed [pad] msg c Hc ltac:(cbn [length]; lia)) as Hu.
    assert (El : c_len (update a c [pad]) = zlen msg + 1).
    { destruct Hu as (?&?&?&_&_&_&_&->&_). rewrite length_app. cbn [length]. lia. }
    rewrite El. destruct (Z.eqb_spec ((zlen msg + 1) mod Z.of_nat e_block)
      (Z.of_nat e_block - 8 - Z.of_nat e_lenpad)) as [E|_]; cbn [negb].
    + exfalso. rewrite <- (Z.add_0_r (zlen msg + 1)) in E. apply (Hj 0%nat) in E; lia.
    + destruct (IH 0 fuel (msg ++ [pad]) (update a c [pad]) Hu) as (c'&E&Hc').
      * lia.
      * rewrite length_app. cbn [length]. lia.
      * intros j Hjk. rewrite length_app. cbn [length].
        replace (Z.of_nat (length msg + 1) + 1 + Z.of_nat j) with (zlen msg + 1 + Z.of_nat (S j)) by lia.
        rewrite Hj by lia. lia.
      * exists c'. split; [done|]. by rewrite <- app_assoc in Hc'.
Qed.

Lemma final_absorbed msg c :
  absorbed msg c -> zlen msg + 256 < 2 ^ size_bits a ->
  exists c', final a c = Some (c', reference h0 dsz msg) /\ length (c_data c') = e_block.
Proof.
  pose proof e_block_min as Hmin. pose proof e_block_max as Hmax. intros Hc Hl.
  set (B := Z.of_nat e_block). set (zeros := (B - 9 - Z.of_nat e_lenpad - zlen msg) mod B).
  assert (Hz : 0 <= zeros < B) by (apply Z.mod_pos_bound; lia).
  assert (Hlen : c_len c = zlen msg) by (destruct Hc as (?&?&?&_&_&_&_&->&_); done).
  assert (Hhit : forall j, 0 <= j < B ->
    (zlen msg + 1 + j) mod B = B - 8 - Z.of_nat e_lenpad <-> j = zeros).
  { intros j Hj. subst zeros. split.
    - intros E. apply (Z.mod_unique _ _ (- ((zlen msg + 1 + j) / B))); [lia|].
      pose proof (Z.div_mod (zlen msg + 1 + j) B). lia.
    - intros ->. pose proof (Z.div_mod (B - 9 - Z.of_nat e_lenpad - zlen msg) B ltac:(lia)) as E.
      symmetry. apply (Z.mod_unique _ _ (- ((B - 9 - Z.of_nat e_lenpad - zlen msg) / B))); lia. }
  destruct (pad_loop_spec (Z.to_nat zeros) 0x80 e_block msg c Hc) as (c1&E1&Hc1); [lia|lia| |].
  { intros j Hj. fold B. rewrite Hhit by lia. lia. }
  unfold final. rewrite E1, Hlen.
  pose proof (update_absorbed (replicate e_lenpad 0) _ _ Hc1) as Hc2.
  rewrite !length_app in Hc2. cbn [length] in Hc2. rewrite !length_replicate in Hc2. specialize (Hc2 ltac:(lia)).
  pose proof (update_absorbed (e_bytes 8 (u64 (zlen msg * 8))) _ _ Hc2) as Hc3.
  rewrite !length_app in Hc3. cbn [length] in Hc3. rewrite !length_replicate, e_bytes_length in Hc3.
  specialize (Hc3 ltac:(lia)).
  set (padded := msg ++ padding msg).
  replace ((_ ++ _) ++ e_bytes 8 _) with padded in Hc3 by (subst padded; unfold padding; rewrite <- !app_assoc; done).
  assert (Hpl : zlen padded = zlen msg + 9 + zeros + Z.of_nat e_lenpad).
  { subst padded. unfold padding. rewrite length_app. cbn [length]. rewrite !length_app, !length_replicate, e_bytes_length.
    fold B. fold zeros. lia. }
  assert (Hdiv : exists q, zlen padded = q * B).
  { exists ((zlen msg + 1 + zeros) / B + 1). pose proof (proj2 (Hhit zeros Hz) eq_refl) as E.
    pose proof (Z.div_mod (zlen msg + 1 + zeros) B ltac:(lia)). lia. }
  exists (update a (update a c1 (replicate e_lenpad 0)) (e_bytes 8 (u64 (zlen msg * 8)))).
  split; [|by destruct Hc3 as (?&?&?&_&_&_&_&_&_&->&_)].
  destruct Hc3 as (n&done_&pending&Em&Hd&Hp&Hh&_&Hs&_). destruct Hdiv as [q Hq].
  assert (pending = []) as ->.
  { destruct pending as [|x pending]; [done|]. exfalso. rewrite Em, length_app, Hd in Hq.
    cbn [length] in Hq, Hp. assert (Z.of_nat (S (length pending)) = (q - Z.of_nat n) * B) as E by lia.
    assert (q - Z.of_nat n <= 0 \/ 1 <= q - Z.of_nat n) as [?|?] by lia; nia. }
  rewrite app_nil_r in Em. unfold reference. fold padded. rewrite Hs, Hh, <- Em.
  do 4 f_equal. rewrite Em, Hd. rewrite Nat.div_mul by lia. done.
Qed.
End Invariant.

(** Updating with a sequence of pieces. *)
Lemma stream_absorbed a `{EngineOk} h digestsize data (chunks : list (list Z)) :
  length data = e_block -> zlen (concat chunks) < 2 ^ size_bits a ->
  absorbed h digestsize (concat chunks) (fold_left (update a) chunks (init h digestsize data)).
Proof.
  intros Hd Hl. rewrite <- (app_nil_l (concat chunks)). rewrite <- (app_nil_l (concat chunks)) in Hl.
  pose proof (absorbed_init h digestsize data Hd) as Hi. revert Hl Hi.
  generalize (init h digestsize data) as c. generalize (@nil Z) as msg.
  induction chunks as [|x chunks IH]; intros msg c Hl Hi; cbn [fold_left concat].
  - by rewrite app_nil_r.
  - cbn [concat] in Hl. rewrite app_assoc in *. apply IH; [done|].
    apply update_absorbed; [done|done|]. rewrite !length_app in Hl. lia.
Qed.

Lemma reference_length `{EngineOk} h digestsize msg :
  length h = e_nh -> (digestsize <= e_nh * e_word)%nat -> length (reference h digestsize msg) = digestsize.
Proof.
  intros Hh Hd. unfold reference. rewrite length_take.
  assert (Hn : forall n h msg, length h = e_nh -> length (md_fold n h msg) = e_nh).
  { induction n as [|n IH]; intros h' m' Hh'; [done|]. cbn [md_fold]. apply IH. by apply e_compress_length. }
  specialize (Hn (length (msg ++ padding msg) / e_block)%nat h (msg ++ padding msg) Hh). revert Hn.
  generalize (md_fold (length (msg ++ padding msg) / e_block) h (msg ++ padding msg)) as l. intros l Hl.
  assert (E : length (l ≫= e_bytes e_word) = (length l * e_word)%nat).
  { clear. induction l as [|x l IH]; [done|]. cbn. rewrite length_app, e_bytes_length. f_equal. exact IH. }
  rewrite E, Hl. lia.
Qed.

(** C30. Streaming: however a message is cut into pieces, initialising a
    context (whatever its data block contained), updating it with each piece
    in turn and finishing it produces the digest of the whole message by the
    block-wise definition (append a one bit, zeros and the bit length; fold
    the compression function over the blocks; serialise the words).  In
    particular the padding loop terminates, and neither stale bytes of the
    data block nor its in-place byte swapping influence the result. *)
Theorem digest_stream_correct a `{EngineOk} h digestsize data (chunks : list (list Z)) :
  length data = e_block -> zlen (concat chunks) + 256 < 2 ^ size_bits a ->
  exists c, final a (fold_left (update a) chunks (init h digestsize data))
            = Some (c, reference h digestsize (concat chunks)).
Proof.
  intros Hd Hl. destruct (final_absorbed a h digestsize (concat chunks)
    (fold_left (update a) chunks (init h digestsize data))) as (c&E&_); [|done|by exists c].
  apply stream_absorbed; [done|done|lia].
Qed.

(** A toy engine: eight-bit words, the compression adds up the block. *)
Definition sum_engine : Engine :=
  {| e_block := 16; e_word := 1; e_big := true; e_nh := 1; e_lenpad := 0;
     e_compress h w := [u8 (fold_left Z.add w (arr h 0))] |}.

#[export] Instance sum_engine_ok : EngineOk sum_engine.
Proof. constructor; cbn; auto with lia. Qed.

Lemma digest_stream_correct_witness :
  exists c, final (e:=sum_engine) Arch32
    (fold_left (update (e:=sum_engine) Arch32) [[1; 2; 3]; []; [4]] (init [0] 1 (replicate 16 77)))
  = Some (c, reference (e:=sum_engine) [0] 1 [1; 2; 3; 4]).
Proof.
  apply (@digest_stream_correct Arch32 sum_engine sum_engine_ok [0] 1 (replicate 16 77) [[1; 2; 3]; []; [4]]);
    [reflexivity|vm_compute; reflexivity].
Defined.
