(* ===== verification/Hashes.v ===== *)
(** * The digest algorithms ([crypto/md5.c], [crypto/md4.c], [crypto/sha1.c],
      [crypto/sha256.c], [crypto/sha224.c], [crypto/sha512.c], [crypto/sha384.c],
      [crypto/sha512_224.c], [crypto/sha512_256.c])

    Each algorithm's [*_digest] function is its compression function over the
    digest words and the sixteen data words; its [init], [update] and [final]
    are those of [Digest] for its engine.  The published test vectors are
    checked at the end. *)

From S2P Require Import Prelude Digest.

(** ** Rotations ([include/ipxe/rotate.h]) *)

Definition rol32 (data rotation : Z) : Z :=
  u32 (Z.lor (Z.shiftl data rotation) (Z.shiftr data (32 - rotation))).
Definition ror32 (data rotation : Z) : Z :=
  u32 (Z.lor (Z.shiftr data rotation) (Z.shiftl data (32 - rotation))).
Definition ror64 (data rotation : Z) : Z :=
  u64 (Z.lor (Z.shiftr data rotation) (Z.shiftl data (64 - rotation))).

(** Bitwise complement of a [w]-bit word. *)
Definition not_word (w v : Z) : Z := uwrap w (Z.lnot v).

(** Add the chunk's variables to the digest words. *)
Definition add_words (w : Z) (h v : list Z) : list Z := zip_with (fun x y => uwrap w (x + y)) h v.

Lemma add_words_length w h v : length h = length v -> length (add_words w h v) = length v.
Proof. intros Hh. unfold add_words. rewrite length_zip_with. lia. Qed.

(** Extend the message schedule to [n] more words. *)
Fixpoint extend (n : nat) (next : list Z -> Z -> Z) (w : list Z) : list Z :=
  match n with O => w | S n' => extend n' next (w ++ [next w (zlen w)]) end.

(** ** MD5 *)

Module MD5.
(** One row per line of the source's table. *)
Definition k : list Z :=
  concat
    [ [0xd76aa478; 0xe8c7b756; 0x242070db; 0xc1bdceee; 0xf57c0faf; 0x4787c62a];
      [0xa8304613; 0xfd469501; 0x698098d8; 0x8b44f7af; 0xffff5bb1; 0x895cd7be];
      [0x6b901122; 0xfd987193; 0xa679438e; 0x49b40821; 0xf61e2562; 0xc040b340];
      [0x265e5a51; 0xe9b6c7aa; 0xd62f105d; 0x02441453; 0xd8a1e681; 0xe7d3fbc8];
      [0x21e1cde6; 0xc33707d6; 0xf4d50d87; 0x455a14ed; 0xa9e3e905; 0xfcefa3f8];
      [0x676f02d9; 0x8d2a4c8a; 0xfffa3942; 0x8771f681; 0x6d9d6122; 0xfde5380c];
      [0xa4beea44; 0x4bdecfa9; 0xf6bb4b60; 0xbebfbc70; 0x289b7ec6; 0xeaa127fa];
      [0xd4ef3085; 0x04881d05; 0xd9d4d039; 0xe6db99e5; 0x1fa27cf8; 0xc4ac5665];
      [0xf4292244; 0x432aff97; 0xab9423a7; 0xfc93a039; 0x655b59c3; 0x8f0ccc92];
      [0xffeff47d; 0x85845dd1; 0x6fa87e4f; 0xfe2ce6e0; 0xa3014314; 0x4e0811a1];
      [0xf7537e82; 0xbd3af235; 0x2ad7d2bb; 0xeb86d391] ].

Definition r : list (list Z) :=
  [[7; 12; 17; 22]; [5; 9; 14; 20]; [4; 11; 16; 23]; [6; 10; 15; 21]].

Record md5_variables := V { va : Z; vb : Z; vc : Z; vd : Z; vw : list Z }.

Definition md5_f_0_15 (v : md5_variables) : Z :=
  Z.lxor (vd v) (Z.land (vb v) (Z.lxor (vc v) (vd v))).
Definition md5_f_16_31 (v : md5_variables) : Z :=
  Z.lxor (vc v) (Z.land (vd v) (Z.lxor (vb v) (vc v))).
Definition md5_f_32_47 (v : md5_variables) : Z := Z.lxor (Z.lxor (vb v) (vc v)) (vd v).
Definition md5_f_48_63 (v : md5_variables) : Z :=
  Z.lxor (vc v) (Z.lor (vb v) (not_word 32 (vd v))).

(** Function, coefficient and constant of each round. *)
Definition md5_steps : list ((md5_variables -> Z) * Z * Z) :=
  [(md5_f_0_15, 1, 0); (md5_f_16_31, 5, 1); (md5_f_32_47, 3, 5); (md5_f_48_63, 7, 0)].

Definition step (v : md5_variables) (i : Z) : md5_variables :=
  let round := i / 16 in
  let '(fn, coefficient, constant) := default (md5_f_0_15, 1, 0) (md5_steps !! Z.to_nat round) in
  let f := fn v in
  let g := (coefficient * i + constant) mod 16 in
  let rot := arr (default [] (r !! Z.to_nat round)) (i mod 4) in
  V (vd v) (u32 (vb v + rol32 (u32 (va v + f + arr k i + arr (vw v) g)) rot)) (vb v) (vc v) (vw v).

Definition md5_digest (h w : list Z) : list Z :=
  let v := fold_left step (seqZ 0 64) (V (arr h 0) (arr h 1) (arr h 2) (arr h 3) w) in
  add_words 32 h [va v; vb v; vc v; vd v].

#[export] Instance engine : Engine :=
  {| e_block := 64; e_word := 4; e_big := false; e_nh := 4; e_lenpad := 0;
     e_compress := md5_digest |}.
#[export] Instance engine_ok : EngineOk engine.
Proof. constructor; [cbn; lia..|]. intros h w Hh. refine (add_words_length _ h [_; _; _; _] Hh). Qed.

Definition md5_init : list Z -> context :=
  init [0x67452301; 0xefcdab89; 0x98badcfe; 0x10325476] 16.
Definition md5_update (a : arch) := update a.
Definition md5_final (a : arch) := final a.
End MD5.

(** ** MD4 *)

Module MD4.
Definition r : list (list Z) := [[3; 7; 11; 19]; [3; 5; 9; 13]; [3; 9; 11; 15]].

Record md4_variables := V { va : Z; vb : Z; vc : Z; vd : Z; vw : list Z }.

Definition md4_f_0_15 (v : md4_variables) (i : Z) : Z :=
  u32 (Z.lor (Z.land (vb v) (vc v)) (Z.land (not_word 32 (vb v)) (vd v)) + arr (vw v) i).
Definition md4_f_16_31 (v : md4_variables) (i : Z) : Z :=
  u32 (Z.lor (Z.lor (Z.land (vb v) (vc v)) (Z.land (vb v) (vd v))) (Z.land (vc v) (vd v))
       + arr (vw v) (Z.lor (Z.shiftl i 2) (Z.shiftr i 2) mod 16)).
Definition reverse : list Z := [0; 8; 4; 12; 2; 10; 6; 14; 1; 9; 5; 13; 3; 11; 7; 15].
Definition md4_f_32_47 (v : md4_variables) (i : Z) : Z :=
  u32 (Z.lxor (Z.lxor (vb v) (vc v)) (vd v) + arr (vw v) (arr reverse i)).

Definition md4_steps : list ((md4_variables -> Z -> Z) * Z) :=
  [(md4_f_0_15, 0); (md4_f_16_31, 0x5a827999); (md4_f_32_47, 0x6ed9eba1)].

Definition step (v : md4_variables) (i : Z) : md4_variables :=
  let round := i / 16 in
  let '(fn, constant) := default (md4_f_0_15, 0) (md4_steps !! Z.to_nat round) in
  let f := fn v (i mod 16) in
  let rot := arr (default [] (r !! Z.to_nat round)) (i mod 4) in
  V (vd v) (rol32 (u32 (va v + f + constant)) rot) (vb v) (vc v) (vw v).

Definition md4_digest (h w : list Z) : list Z :=
  let v := fold_left step (seqZ 0 48) (V (arr h 0) (arr h 1) (arr h 2) (arr h 3) w) in
  add_words 32 h [va v; vb v; vc v; vd v].

#[export] Instance engine : Engine :=
  {| e_block := 64; e_word := 4; e_big := false; e_nh := 4; e_lenpad := 0;
     e_compress := md4_digest |}.
#[export] Instance engine_ok : EngineOk engine.
Proof. constructor; [cbn; lia..|]. intros h w Hh. refine (add_words_length _ h [_; _; _; _] Hh). Qed.

Definition md4_init : list Z -> context :=
  init [0x67452301; 0xefcdab89; 0x98badcfe; 0x10325476] 16.
Definition md4_update (a : arch) := update a.
Definition md4_final (a : arch) := final a.
End MD4.

(** ** SHA-1 *)

Module SHA1.
Record sha1_variables := V { va : Z; vb : Z; vc : Z; vd : Z; ve : Z }.

Definition sha1_f_0_19 (v : sha1_variables) : Z :=
  Z.lor (Z.land (vb v) (vc v)) (Z.land (not_word 32 (vb v)) (vd v)).
Definition sha1_f_20_39_60_79 (v : sha1_variables) : Z := Z.lxor (Z.lxor (vb v) (vc v)) (vd v).
Definition sha1_f_40_59 (v : sha1_variables) : Z :=
  Z.lor (Z.lor (Z.land (vb v) (vc v)) (Z.land (vb v) (vd v))) (Z.land (vc v) (vd v)).

Definition sha1_steps : list ((sha1_variables -> Z) * Z) :=
  [(sha1_f_0_19, 0x5a827999); (sha1_f_20_39_60_79, 0x6ed9eba1);
   (sha1_f_40_59, 0x8f1bbcdc); (sha1_f_20_39_60_79, 0xca62c1d6)].

Definition next_w (w : list Z) (i : Z) : Z :=
  rol32 (Z.lxor (Z.lxor (Z.lxor (arr w (i - 3)) (arr w (i - 8))) (arr w (i - 14))) (arr w (i - 16))) 1.

Definition step (w : list Z) (v : sha1_variables) (i : Z) : sha1_variables :=
  let '(fn, k) := default (sha1_f_0_19, 0) (sha1_steps !! Z.to_nat (i / 20)) in
  let f := fn v in
  let temp := u32 (rol32 (va v) 5 + f + ve v + k + arr w i) in
  V temp (va v) (rol32 (vb v) 30) (vc v) (vd v).

Definition sha1_digest (h w : list Z) : list Z :=
  let w := extend 64 next_w w in
  let v := fold_left (step w) (seqZ 0 80) (V (arr h 0) (arr h 1) (arr h 2) (arr h 3) (arr h 4)) in
  add_words 32 h [va v; vb v; vc v; vd v; ve v].

#[export] Instance engine : Engine :=
  {| e_block := 64; e_word := 4; e_big := true; e_nh := 5; e_lenpad := 0;
     e_compress := sha1_digest |}.
#[export] Instance engine_ok : EngineOk engine.
Proof. constructor; [cbn; lia..|]. intros h w Hh. refine (add_words_length _ h [_; _; _; _; _] Hh). Qed.

Definition sha1_init : list Z -> context :=
  init [0x67452301; 0xefcdab89; 0x98badcfe; 0x10325476; 0xc3d2e1f0] 20.
Definition sha1_update (a : arch) := update a.
Definition sha1_final (a : arch) := final a.
End SHA1.

(** ** The SHA256 family *)

Module SHA256.
(** One row per line of the source's table. *)
Definition k : list Z :=
  concat
    [ [0x428a2f98; 0x71374491; 0xb5c0fbcf; 0xe9b5dba5; 0x3956c25b; 0x59f111f1];
      [0x923f82a4; 0xab1c5ed5; 0xd807aa98; 0x12835b01; 0x243185be; 0x550c7dc3];
      [0x72be5d74; 0x80deb1fe; 0x9bdc06a7; 0xc19bf174; 0xe49b69c1; 0xefbe4786];
      [0x0fc19dc6; 0x240ca1cc; 0x2de92c6f; 0x4a7484aa; 0x5cb0a9dc; 0x76f988da];
      [0x983e5152; 0xa831c66d; 0xb00327c8; 0xbf597fc7; 0xc6e00bf3; 0xd5a79147];
      [0x06ca6351; 0x14292967; 0x27b70a85; 0x2e1b2138; 0x4d2c6dfc; 0x53380d13];
      [0x650a7354; 0x766a0abb; 0x81c2c92e; 0x92722c85; 0xa2bfe8a1; 0xa81a664b];
      [0xc24b8b70; 0xc76c51a3; 0xd192e819; 0xd6990624; 0xf40e3585; 0x106aa070];
      [0x19a4c116; 0x1e376c08; 0x2748774c; 0x34b0bcb5; 0x391c0cb3; 0x4ed8aa4a];
      [0x5b9cca4f; 0x682e6ff3; 0x748f82ee; 0x78a5636f; 0x84c87814; 0x8cc70208];
      [0x90befffa; 0xa4506ceb; 0xbef9a3f7; 0xc67178f2] ].

Record sha256_variables := V {
  va : Z; vb : Z; vc : Z; vd : Z; ve : Z; vf : Z; vg : Z; vh : Z }.

Definition next_w (w : list Z) (i : Z) : Z :=
  let x := arr w (i - 15) in
  let y := arr w (i - 2) in
  let s0 := Z.lxor (Z.lxor (ror32 x 7) (ror32 x 18)) (Z.shiftr x 3) in
  let s1 := Z.lxor (Z.lxor (ror32 y 17) (ror32 y 19)) (Z.shiftr y 10) in
  u32 (arr w (i - 16) + s0 + arr w (i - 7) + s1).

Definition step (w : list Z) (v : sha256_variables) (i : Z) : sha256_variables :=
  let s0 := Z.lxor (Z.lxor (ror32 (va v) 2) (ror32 (va v) 13)) (ror32 (va v) 22) in
  let maj := Z.lxor (Z.lxor (Z.land (va v) (vb v)) (Z.land (va v) (vc v))) (Z.land (vb v) (vc v)) in
  let t2 := u32 (s0 + maj) in
  let s1 := Z.lxor (Z.lxor (ror32 (ve v) 6) (ror32 (ve v) 11)) (ror32 (ve v) 25) in
  let ch := Z.lxor (Z.land (ve v) (vf v)) (Z.land (not_word 32 (ve v)) (vg v)) in
  let t1 := u32 (vh v + s1 + ch + arr k i + arr w i) in
  V (u32 (t1 + t2)) (va v) (vb v) (vc v) (u32 (vd v + t1)) (ve v) (vf v) (vg v).

Definition sha256_digest (h w : list Z) : list Z :=
  let w := extend 48 next_w w in
  let v := fold_left (step w) (seqZ 0 64)
             (V (arr h 0) (arr h 1) (arr h 2) (arr h 3) (arr h 4) (arr h 5) (arr h 6) (arr h 7)) in
  add_words 32 h [va v; vb v; vc v; vd v; ve v; vf v; vg v; vh v].

#[export] Instance engine : Engine :=
  {| e_block := 64; e_word := 4; e_big := true; e_nh := 8; e_lenpad := 0;
     e_compress := sha256_digest |}.
#[export] Instance engine_ok : EngineOk engine.
Proof. constructor; [cbn; lia..|]. intros h w Hh. refine (add_words_length _ h [_; _; _; _; _; _; _; _] Hh). Qed.

Definition sha256_family_init (digest : list Z) (digestsize : nat) : list Z -> context :=
  init digest digestsize.
Definition sha256_update (a : arch) := update a.
Definition sha256_final (a : arch) := final a.

Definition sha256_init_digest : list Z :=
  [ 0x6a09e667; 0xbb67ae85; 0x3c6ef372; 0xa54ff53a;
  0x510e527f; 0x9b05688c; 0x1f83d9ab; 0x5be0cd19 ].
Definition sha256_init : list Z -> context := sha256_family_init sha256_init_digest 32.

Definition sha224_init_digest : list Z :=
  [ 0xc1059ed8; 0x367cd507; 0x3070dd17; 0xf70e5939;
  0xffc00b31; 0x68581511; 0x64f98fa7; 0xbefa4fa4 ].
Definition sha224_init : list Z -> context := sha256_family_init sha224_init_digest 28.
End SHA256.

(** ** The SHA512 family *)

Module SHA512.
(** One row per line of the source's table. *)
Definition k : list Z :=
  concat
    [ [0x428a2f98d728ae22; 0x7137449123ef65cd; 0xb5c0fbcfec4d3b2f; 0xe9b5dba58189dbbc];
      [0x3956c25bf348b538; 0x59f111f1b605d019; 0x923f82a4af194f9b; 0xab1c5ed5da6d8118];
      [0xd807aa98a3030242; 0x12835b0145706fbe; 0x243185be4ee4b28c; 0x550c7dc3d5ffb4e2];
      [0x72be5d74f27b896f; 0x80deb1fe3b1696b1; 0x9bdc06a725c71235; 0xc19bf174cf692694];
      [0xe49b69c19ef14ad2; 0xefbe4786384f25e3; 0x0fc19dc68b8cd5b5; 0x240ca1cc77ac9c65];
      [0x2de92c6f592b0275; 0x4a7484aa6ea6e483; 0x5cb0a9dcbd41fbd4; 0x76f988da831153b5];
      [0x983e5152ee66dfab; 0xa831c66d2db43210; 0xb00327c898fb213f; 0xbf597fc7beef0ee4];
      [0xc6e00bf33da88fc2; 0xd5a79147930aa725; 0x06ca6351e003826f; 0x142929670a0e6e70];
      [0x27b70a8546d22ffc; 0x2e1b21385c26c926; 0x4d2c6dfc5ac42aed; 0x53380d139d95b3df];
      [0x650a73548baf63de; 0x766a0abb3c77b2a8; 0x81c2c92e47edaee6; 0x92722c851482353b];
      [0xa2bfe8a14cf10364; 0xa81a664bbc423001; 0xc24b8b70d0f89791; 0xc76c51a30654be30];
      [0xd192e819d6ef5218; 0xd69906245565a910; 0xf40e35855771202a; 0x106aa07032bbd1b8];
      [0x19a4c116b8d2d0c8; 0x1e376c085141ab53; 0x2748774cdf8eeb99; 0x34b0bcb5e19b48a8];
      [0x391c0cb3c5c95a63; 0x4ed8aa4ae3418acb; 0x5b9cca4f7763e373; 0x682e6ff3d6b2b8a3];
      [0x748f82ee5defb2fc; 0x78a5636f43172f60; 0x84c87814a1f0ab72; 0x8cc702081a6439ec];
      [0x90befffa23631e28; 0xa4506cebde82bde9; 0xbef9a3f7b2c67915; 0xc67178f2e372532b];
      [0xca273eceea26619c; 0xd186b8c721c0c207; 0xeada7dd6cde0eb1e; 0xf57d4f7fee6ed178];
      [0x06f067aa72176fba; 0x0a637dc5a2c898a6; 0x113f9804bef90dae; 0x1b710b35131c471b];
      [0x28db77f523047d84; 0x32caab7b40c72493; 0x3c9ebe0a15c9bebc; 0x431d67c49c100d4c];
      [0x4cc5d4becb3e42b6; 0x597f299cfc657e2a; 0x5fcb6fab3ad6faec; 0x6c44198c4a475817] ].

Record sha512_variables := V {
  va : Z; vb : Z; vc : Z; vd : Z; ve : Z; vf : Z; vg : Z; vh : Z }.

Definition next_w (w : list Z) (i : Z) : Z :=
  let x := arr w (i - 15) in
  let y := arr w (i - 2) in
  let s0 := Z.lxor (Z.lxor (ror64 x 1) (ror64 x 8)) (Z.shiftr x 7) in
  let s1 := Z.lxor (Z.lxor (ror64 y 19) (ror64 y 61)) (Z.shiftr y 6) in
  u64 (arr w (i - 16) + s0 + arr w (i - 7) + s1).

Definition step (w : list Z) (v : sha512_variables) (i : Z) : sha512_variables :=
  let s0 := Z.lxor (Z.lxor (ror64 (va v) 28) (ror64 (va v) 34)) (ror64 (va v) 39) in
  let maj := Z.lxor (Z.lxor (Z.land (va v) (vb v)) (Z.land (va v) (vc v))) (Z.land (vb v) (vc v)) in
  let t2 := u64 (s0 + maj) in
  let s1 := Z.lxor (Z.lxor (ror64 (ve v) 14) (ror64 (ve v) 18)) (ror64 (ve v) 41) in
  let ch := Z.lxor (Z.land (ve v) (vf v)) (Z.land (not_word 64 (ve v)) (vg v)) in
  let t1 := u64 (vh v + s1 + ch + arr k i + arr w i) in
  V (u64 (t1 + t2)) (va v) (vb v) (vc v) (u64 (vd v + t1)) (ve v) (vf v) (vg v).

Definition sha512_digest (h w : list Z) : list Z :=
  let w := extend 64 next_w w in
  let v := fold_left (step w) (seqZ 0 80)
             (V (arr h 0) (arr h 1) (arr h 2) (arr h 3) (arr h 4) (arr h 5) (arr h 6) (arr h 7)) in
  add_words 64 h [va v; vb v; vc v; vd v; ve v; vf v; vg v; vh v].

#[export] Instance engine : Engine :=
  {| e_block := 128; e_word := 8; e_big := true; e_nh := 8; e_lenpad := 8;
     e_compress := sha512_digest |}.
#[export] Instance engine_ok : EngineOk engine.
Proof. constructor; [cbn; lia..|]. intros h w Hh. refine (add_words_length _ h [_; _; _; _; _; _; _; _] Hh). Qed.

Definition sha512_family_init (digest : list Z) (digestsize : nat) : list Z -> context :=
  init digest digestsize.
Definition sha512_update (a : arch) := update a.
Definition sha512_final (a : arch) := final a.

Definition sha512_init_digest : list Z :=
  [ 0x6a09e667f3bcc908; 0xbb67ae8584caa73b; 0x3c6ef372fe94f82b; 0xa54ff53a5f1d36f1;
  0x510e527fade682d1; 0x9b05688c2b3e6c1f; 0x1f83d9abfb41bd6b; 0x5be0cd19137e2179 ].
Definition sha512_init : list Z -> context := sha512_family_init sha512_init_digest 64.

Definition sha384_init_digest : list Z :=
  [ 0xcbbb9d5dc1059ed8; 0x629a292a367cd507; 0x9159015a3070dd17; 0x152fecd8f70e5939;
  0x67332667ffc00b31; 0x8eb44a8768581511; 0xdb0c2e0d64f98fa7; 0x47b5481dbefa4fa4 ].
Definition sha384_init : list Z -> context := sha512_family_init sha384_init_digest 48.

Definition sha512_224_init_digest : list Z :=
  [ 0x8c3d37c819544da2; 0x73e1996689dcd4d6; 0x1dfab7ae32ff9c82; 0x679dd514582f9fcf;
  0x0f6d2b697bd44da8; 0x77e36f7304c48942; 0x3f9d85a86a1d36c8; 0x1112e6ad91d692a1 ].
Definition sha512_224_init : list Z -> context := sha512_family_init sha512_224_init_digest 28.

Definition sha512_256_init_digest : list Z :=
  [ 0x22312194fc2bf72c; 0x9f555fa3c84c64c2; 0x2393b86b6f53b151; 0x963877195940eabd;
  0x96283ee2a88effe3; 0xbe5e1e2553863992; 0x2b0199fc2c85b8aa; 0x0eb72ddc81c52ca2 ].
Definition sha512_256_init : list Z -> context := sha512_family_init sha512_256_init_digest 32.
End SHA512.

(** ** Published test vectors *)

(** "abc" in two pieces, with a data block full of stale bytes. *)
Definition abc (init : list Z -> context) (update : context -> list Z -> context)
  (final : context -> option (context * list Z)) (block : nat) : option (list Z) :=
  snd <$> final (update (update (init (replicate block 0xaa)) [97]) [98; 99]).

Example md5_abc :
  abc MD5.md5_init (MD5.md5_update Arch64) (MD5.md5_final Arch64) 64
  = Some [ 144; 1; 80; 152; 60; 210; 79; 176; 214; 150; 63; 125; 40; 225; 127; 114 ].
Proof. vm_compute. reflexivity. Qed.

Example md4_abc :
  abc MD4.md4_init (MD4.md4_update Arch64) (MD4.md4_final Arch64) 64
  = Some [ 164; 72; 1; 122; 175; 33; 216; 82; 95; 193; 10; 232; 122; 166; 114; 157 ].
Proof. vm_compute. reflexivity. Qed.

Example sha1_abc :
  abc SHA1.sha1_init (SHA1.sha1_update Arch64) (SHA1.sha1_final Arch64) 64
  = Some [ 169; 153; 62; 54; 71; 6; 129; 106; 186; 62; 37; 113; 120; 80; 194; 108;
      156; 208; 216; 157 ].
Proof. vm_compute. reflexivity. Qed.

Example sha256_abc :
  abc SHA256.sha256_init (SHA256.sha256_update Arch64) (SHA256.sha256_final Arch64) 64
  = Some [ 186; 120; 22; 191; 143; 1; 207; 234; 65; 65; 64; 222; 93; 174; 34; 35;
      176; 3; 97; 163; 150; 23; 122; 156; 180; 16; 255; 97; 242; 0; 21; 173 ].
Proof. vm_compute. reflexivity. Qed.

Example sha224_abc :
  abc SHA256.sha224_init (SHA256.sha256_update Arch64) (SHA256.sha256_final Arch64) 64
  = Some [ 35; 9; 125; 34; 52; 5; 216; 34; 134; 66; 164; 119; 189; 162; 85; 179;
      42; 173; 188; 228; 189; 160; 179; 247; 227; 108; 157; 167 ].
Proof. vm_compute. reflexivity. Qed.

Example sha512_abc :
  abc SHA512.sha512_init (SHA512.sha512_update Arch64) (SHA512.sha512_final Arch64) 128
  = Some [ 221; 175; 53; 161; 147; 97; 122; 186; 204; 65; 115; 73; 174; 32; 65; 49;
      18; 230; 250; 78; 137; 169; 126; 162; 10; 158; 238; 230; 75; 85; 211; 154;
      33; 146; 153; 42; 39; 79; 193; 168; 54; 186; 60; 35; 163; 254; 235; 189;
      69; 77; 68; 35; 100; 60; 232; 14; 42; 154; 201; 79; 165; 76; 164; 159 ].
Proof. vm_compute. reflexivity. Qed.

Example sha384_abc :
  abc SHA512.sha384_init (SHA512.sha512_update Arch64) (SHA512.sha512_final Arch64) 128
  = Some [ 203; 0; 117; 63; 69; 163; 94; 139; 181; 160; 61; 105; 154; 198; 80; 7;
      39; 44; 50; 171; 14; 222; 209; 99; 26; 139; 96; 90; 67; 255; 91; 237;
      128; 134; 7; 43; 161; 231; 204; 35; 88; 186; 236; 161; 52; 200; 37; 167 ].
Proof. vm_compute. reflexivity. Qed.

Example sha512_224_abc :
  abc SHA512.sha512_224_init (SHA512.sha512_update Arch64) (SHA512.sha512_final Arch64) 128
  = Some [ 70; 52; 39; 15; 112; 123; 106; 84; 218; 174; 117; 48; 70; 8; 66; 226;
      14; 55; 237; 38; 92; 238; 233; 164; 62; 137; 36; 170 ].
Proof. vm_compute. reflexivity. Qed.

Example sha512_256_abc :
  abc SHA512.sha512_256_init (SHA512.sha512_update Arch64) (SHA512.sha512_final Arch64) 128
  = Some [ 83; 4; 142; 38; 129; 148; 30; 249; 155; 46; 41; 183; 107; 76; 125; 171;
      228; 194; 208; 198; 52; 252; 109; 70; 224; 226; 241; 49; 7; 231; 175; 35 ].
Proof. vm_compute. reflexivity. Qed.
