(* ===== verification/Hmac.v ===== *)
(** * HMAC and the key derivations built on it ([crypto/hmac.c],
      [include/ipxe/hmac.h], [include/ipxe/crypto.h], [crypto/sha1extra.c])

    The HMAC code only uses the digest interface ([struct
    digest_algorithm]), and so do its theorems: [DigestSpec] states what an
    algorithm promises, [engine_spec] shows that every algorithm of [Hashes]
    keeps the promise. *)

From S2P Require Import Prelude Digest Hashes.

(** ** The digest interface *)

Record digest_algorithm := DigestAlgorithm {
  d_ctx : Type;
  d_blocksize : nat;
  d_digestsize : nat;
  d_init : d_ctx -> d_ctx;
  d_update : d_ctx -> list Z -> d_ctx;
  d_final : d_ctx -> option (d_ctx * list Z)
}.

(** [H] is the function computed; messages are shorter than [limit]. *)
Class DigestSpec (d : digest_algorithm) (ok : d_ctx d -> Prop) (H : list Z -> list Z) (limit : Z) := {
  ds_size : (d_digestsize d <= d_blocksize d)%nat;
  ds_length m : length (H m) = d_digestsize d;
  ds_hash c chunks : ok c -> zlen (concat chunks) < limit ->
    exists c', d_final d (fold_left (d_update d) chunks (d_init d c)) = Some (c', H (concat chunks))
      /\ ok c'
}.

(** ** The algorithms *)

Definition engine_algorithm (a : arch) (e : Engine) (init : list Z -> context) (size : nat)
  : digest_algorithm :=
  {| d_ctx := context; d_blocksize := e_block; d_digestsize := size;
     d_init c := init (c_data c); d_update := update a; d_final := final a |}.

Definition md5_algorithm (a : arch) := engine_algorithm a MD5.engine MD5.md5_init 16.
Definition md4_algorithm (a : arch) := engine_algorithm a MD4.engine MD4.md4_init 16.
Definition sha1_algorithm (a : arch) := engine_algorithm a SHA1.engine SHA1.sha1_init 20.
Definition sha256_algorithm (a : arch) := engine_algorithm a SHA256.engine SHA256.sha256_init 32.
Definition sha224_algorithm (a : arch) := engine_algorithm a SHA256.engine SHA256.sha224_init 28.
Definition sha512_algorithm (a : arch) := engine_algorithm a SHA512.engine SHA512.sha512_init 64.
Definition sha384_algorithm (a : arch) := engine_algorithm a SHA512.engine SHA512.sha384_init 48.
Definition sha512_224_algorithm (a : arch) := engine_algorithm a SHA512.engine SHA512.sha512_224_init 28.
Definition sha512_256_algorithm (a : arch) := engine_algorithm a SHA512.engine SHA512.sha512_256_init 32.

(** A context of the right shape, whatever it contains. *)
Definition ctx_ok (e : Engine) (c : context) : Prop := length (c_data c) = e_block.

Lemma engine_spec (a : arch) (e : Engine) (Hok : EngineOk e) h size :
  length h = e_nh -> (size <= e_nh * e_word)%nat -> (size <= e_block)%nat ->
  DigestSpec (engine_algorithm a e (init h size) size) (ctx_ok e) (reference h size) (2 ^ size_bits a - 256).
Proof.
  intros Hh Hs Hb. split; cbn.
  - done.
  - intros m. by apply reference_length.
  - intros c chunks Hc Hl. apply final_absorbed; [done| |lia]. apply stream_absorbed; [done|done|lia].
Qed.

(** ** HMAC *)

Section Hmac.
Context (d : digest_algorithm).

Record hmac_context := HmacContext { h_ctx : d_ctx d; h_pad : list Z }.

Definition hmac_init (hctx : hmac_context) (key : list Z) : option hmac_context :=
  let pad := replicate (d_blocksize d) 0 in
  opt! (ctx, pad) :=
    (if decide (length key <= d_blocksize d)%nat then
       Some (h_ctx hctx, key ++ drop (length key) pad)
     else
       let ctx := d_init d (h_ctx hctx) in
       let ctx := d_update d ctx key in
       opt! (ctx, digest) := d_final d ctx in
       Some (ctx, digest ++ drop (length digest) pad)) in
  let pad := (fun b => Z.lxor b 0x36) <$> pad in
  let ctx := d_init d ctx in
  let ctx := d_update d ctx pad in
  Some (HmacContext ctx pad).

Definition hmac_update (hctx : hmac_context) (data : list Z) : hmac_context :=
  HmacContext (d_update d (h_ctx hctx) data) (h_pad hctx).

(** The finished context and the HMAC. *)
Definition hmac_final (hctx : hmac_context) : option (hmac_context * list Z) :=
  let pad := (fun b => Z.lxor b 0x6a) <$> h_pad hctx in
  opt! (ctx, hmac) := d_final d (h_ctx hctx) in
  let ctx := d_init d ctx in
  let ctx := d_update d ctx pad in
  let ctx := d_update d ctx (take (d_digestsize d) hmac) in
  opt! (ctx, hmac) := d_final d ctx in
  Some (HmacContext ctx (replicate (length pad) 0), hmac).

(** ** Reference (RFC 2104) *)

Context (ok : d_ctx d -> Prop) (H : list Z -> list Z) (limit : Z) `{Hspec : !DigestSpec d ok H limit}.

Definition hmac_key (key : list Z) : list Z :=
  let key := if decide (length key <= d_blocksize d)%nat then key else H key in
  key ++ replicate (d_blocksize d - length key) 0.

Definition hmac_reference (key msg : list Z) : list Z :=
  H (((fun b => Z.lxor b 0x5c) <$> hmac_key key)
     ++ H (((fun b => Z.lxor b 0x36) <$> hmac_key key) ++ msg)).

Lemma hmac_key_length key : length (hmac_key key) = d_blocksize d.
Proof.
  unfold hmac_key. pose proof ds_size. rewrite length_app, length_replicate.
  case_decide; [lia|]. rewrite ds_length. lia.
Qed.

Lemma hmac_init_spec hctx key :
  ok (h_ctx hctx) -> zlen key < limit ->
  exists c, ok c /\ hmac_init hctx key
    = let pad := (fun b => Z.lxor b 0x36) <$> hmac_key key in
      Some (HmacContext (d_update d (d_init d c) pad) pad).
Proof.
  intros Hok Hl. unfold hmac_init, hmac_key. case_decide.
  - exists (h_ctx hctx). split; [done|]. by rewrite drop_replicate.
  - destruct (ds_hash (h_ctx hctx) [key] Hok) as (c'&E&Hok'); [cbn; rewrite app_nil_r; done|].
    cbn [fold_left concat] in E. rewrite app_nil_r in E. rewrite E. exists c'. split; [done|].
    by rewrite drop_replicate.
Qed.

Lemma hmac_final_spec c key chunks :
  ok c -> Z.of_nat (d_blocksize d) + Z.max (zlen (concat chunks)) (Z.of_nat (d_digestsize d)) < limit ->
  let pad := (fun b => Z.lxor b 0x36) <$> hmac_key key in
  exists hctx', hmac_final (HmacContext (fold_left (d_update d) chunks (d_update d (d_init d c) pad)) pad)
    = Some (hctx', hmac_reference key (concat chunks))
    /\ ok (h_ctx hctx') /\ h_pad hctx' = replicate (d_blocksize d) 0.
Proof.
  intros Hok Hl pad. pose proof (hmac_key_length key) as Hk. unfold hmac_final. cbn [h_ctx h_pad].
  destruct (ds_hash c (pad :: chunks) Hok) as (c1&E1&Hok1).
  { cbn [concat]. rewrite length_app. subst pad. rewrite length_fmap, Hk. lia. }
  cbn [fold_left concat] in E1. rewrite E1.
  set (inner := H (pad ++ concat chunks)). rewrite (take_ge inner) by (subst inner; rewrite ds_length; lia).
  assert (Hpad : (fun b => Z.lxor b 0x6a) <$> pad = (fun b => Z.lxor b 0x5c) <$> hmac_key key).
  { subst pad. rewrite <- list_fmap_compose. apply list_fmap_ext. intros i x _. cbn. by rewrite Z.lxor_assoc. }
  rewrite Hpad. set (opad := (fun b => Z.lxor b 0x5c) <$> hmac_key key).
  destruct (ds_hash c1 [opad; inner] Hok1) as (c2&E2&Hok2).
  { cbn [concat]. rewrite app_nil_r, length_app. subst opad inner. rewrite length_fmap, Hk, ds_length. lia. }
  cbn [fold_left concat] in E2. rewrite app_nil_r in E2. rewrite E2.
  eexists. split; [done|]. cbn [h_ctx h_pad]. split; [done|]. subst opad. by rewrite length_fmap, Hk.
Qed.
End Hmac.
Arguments HmacContext {d} _ _.
Arguments h_ctx {d} _.
Arguments h_pad {d} _.

(** One HMAC of a whole message in a (stale) context: the sequence of calls
    the key derivation functions make. *)
Definition hmac_once (d : digest_algorithm) (hctx : hmac_context d) (key msg : list Z)
  : option (hmac_context d * list Z) :=
  opt! hctx := hmac_init d hctx key in
  hmac_final d (hmac_update d hctx msg).

Lemma hmac_once_spec d ok H limit `{!DigestSpec d ok H limit} hctx key msg :
  ok (h_ctx hctx) -> zlen key < limit ->
  Z.of_nat (d_blocksize d) + Z.max (zlen msg) (Z.of_nat (d_digestsize d)) < limit ->
  exists hctx', hmac_once d hctx key msg = Some (hctx', hmac_reference d H key msg) /\ ok (h_ctx hctx').
Proof.
  intros Hok Hk Hm. destruct (hmac_init_spec d ok H limit hctx key Hok Hk) as (c&Hc&E).
  unfold hmac_once. rewrite E.
  destruct (hmac_final_spec d ok H limit c key [msg] Hc) as (hctx'&E2&Hok2&_).
  { cbn [concat]. rewrite app_nil_r. lia. }
  cbn [fold_left concat] in E2. rewrite app_nil_r in E2. unfold hmac_update. cbn [h_ctx h_pad]. rewrite E2.
  by exists hctx'.
Qed.

(** C31. HMAC is RFC 2104 for every digest algorithm that keeps the digest
    interface's promise: with a key of any length and a message in any number
    of pieces, the result is H(K ^ opad, H(K ^ ipad, message)), K being the
    key, hashed first if it is longer than a block, padded with zeros; the pad
    from which the key could be derived is erased from the context. *)
Theorem hmac_correct d ok H limit `{!DigestSpec d ok H limit} hctx key chunks :
  ok (h_ctx hctx) -> zlen key < limit ->
  Z.of_nat (d_blocksize d) + Z.max (zlen (concat chunks)) (Z.of_nat (d_digestsize d)) < limit ->
  exists hctx1 hctx2, hmac_init d hctx key = Some hctx1
    /\ hmac_final d (fold_left (hmac_update d) chunks hctx1)
       = Some (hctx2, hmac_reference d H key (concat chunks))
    /\ h_pad hctx2 = replicate (d_blocksize d) 0.
Proof.
  intros Hok Hk Hm. destruct (hmac_init_spec d ok H limit hctx key Hok Hk) as (c&Hc&E).
  cbv zeta in E. eexists. destruct (hmac_final_spec d ok H limit c key chunks Hc Hm) as (hctx2&E2&_&Hp).
  exists hctx2. split; [exact E|]. split; [|done]. rewrite <- E2. f_equal.
  set (pad := (fun b => Z.lxor b 0x36) <$> hmac_key d H key). generalize (d_update d (d_init d c) pad) as x.
  clear. induction chunks as [|m chunks IH]; intros x; [done|]. cbn [fold_left]. apply IH.
Qed.

(** HMAC-MD5 of "Hi There" with the key of RFC 2202, test case 1. *)
Lemma hmac_correct_witness :
  let hctx := HmacContext (d:=md5_algorithm Arch32) (MD5.md5_init (replicate 64 1)) [] in
  let H := reference (e:=MD5.engine) [0x67452301; 0xefcdab89; 0x98badcfe; 0x10325476] 16 in
  (exists hctx1 hctx2, hmac_init _ hctx (replicate 16 0x0b) = Some hctx1
    /\ hmac_final _ (fold_left (hmac_update _) [[72; 105; 32]; [84; 104; 101; 114; 101]] hctx1)
       = Some (hctx2, hmac_reference (md5_algorithm Arch32) H (replicate 16 0x0b) [72; 105; 32; 84; 104; 101; 114; 101])
    /\ h_pad hctx2 = replicate 64 0)
  /\ hmac_reference (md5_algorithm Arch32) H (replicate 16 0x0b) [72; 105; 32; 84; 104; 101; 114; 101]
     = [0x92; 0x94; 0x72; 0x7a; 0x36; 0x38; 0xbb; 0x1c; 0x13; 0xf4; 0x8e; 0xf8; 0x15; 0x8b; 0xfc; 0x9d].
Proof.
  intros hctx H. split; [|vm_compute; reflexivity].
  assert (S : DigestSpec (md5_algorithm Arch32) (ctx_ok MD5.engine) H (2 ^ size_bits Arch32 - 256))
    by (apply engine_spec; [exact MD5.engine_ok|reflexivity|vm_compute; lia|vm_compute; lia]).
  apply (hmac_correct (md5_algorithm Arch32) (ctx_ok MD5.engine) H (2 ^ size_bits Arch32 - 256) hctx
    (replicate 16 0x0b) [[72; 105; 32]; [84; 104; 101; 114; 101]]);
    [reflexivity|vm_compute; reflexivity|vm_compute; reflexivity].
Defined.

(** ** Key derivation ([crypto/sha1extra.c]) *)

Section Derive.
Context (d : digest_algorithm).

(** The loop of [prf_sha1]; [prf] collects the output. *)
Fixpoint prf_loop (fuel : nat) (hctx : hmac_context d) (keym in_ : list Z) (blk prf_len : Z) (prf : list Z)
  : option (list Z) :=
  match fuel with
  | O => None
  | S fuel' =>
      opt! (hctx, out) := hmac_once d hctx keym (in_ ++ [u8 blk]) in
      if prf_len <=? Z.of_nat (d_digestsize d) then Some (prf ++ take (Z.to_nat prf_len) out)
      else prf_loop fuel' hctx keym in_ (u32 (blk + 1)) (prf_len - Z.of_nat (d_digestsize d))
             (prf ++ take (d_digestsize d) out)
  end.

Fixpoint pbkdf2_f_loop (iterations : nat) (hctx : hmac_context d) (pass next_in block : list Z)
  : option (list Z) :=
  match iterations with
  | O => Some block
  | S iterations' =>
      opt! (hctx, last) := hmac_once d hctx pass next_in in
      let block := zip_with Z.lxor block (take (d_digestsize d) last) in
      pbkdf2_f_loop iterations' hctx pass (take (d_digestsize d) last) block
  end.

Definition pbkdf2_f (hctx : hmac_context d) (passphrase salt : list Z) (iterations : nat) (blocknr : Z)
  : option (list Z) :=
  pbkdf2_f_loop iterations hctx passphrase (salt ++ be_bytes 4 blocknr) (replicate (d_digestsize d) 0).

(** [blk] runs from 1 while at most [blocks]. *)
Fixpoint pbkdf2_loop (fuel : nat) (hctx : hmac_context d) (passphrase salt : list Z) (iterations : nat)
  (blk blocks key_len : Z) (key : list Z) : option (list Z) :=
  match fuel with
  | O => None
  | S fuel' =>
      if blk <=? blocks then
        opt! buf := pbkdf2_f hctx passphrase salt iterations blk in
        if key_len <=? Z.of_nat (d_digestsize d) then Some (key ++ take (Z.to_nat key_len) buf)
        else pbkdf2_loop fuel' hctx passphrase salt iterations (u32 (blk + 1)) blocks
               (key_len - Z.of_nat (d_digestsize d)) (key ++ buf)
      else Some key
  end.
End Derive.

Definition prf_sha1 (a : arch) (hctx : hmac_context (sha1_algorithm a)) (key label data : list Z) (prf_len : Z)
  : option (list Z) :=
  prf_loop (sha1_algorithm a) (S (Z.to_nat prf_len)) hctx key (label ++ 0 :: data) 0 prf_len [].

Definition pbkdf2_sha1_f (a : arch) := pbkdf2_f (sha1_algorithm a).

Definition pbkdf2_sha1 (a : arch) (hctx : hmac_context (sha1_algorithm a)) (passphrase salt : list Z)
  (iterations : nat) (key_len : Z) : option (list Z) :=
  let blocks := u32 (uwrap (size_bits a) (key_len + 20 - 1) / 20) in
  pbkdf2_loop (sha1_algorithm a) (S (Z.to_nat blocks)) hctx passphrase salt iterations 1 blocks key_len [].

(** ** Reference (RFC 2898) *)

Section Rfc2898.
Context (d : digest_algorithm) (ok : d_ctx d -> Prop) (H : list Z -> list Z) (limit : Z)
  `{Hspec : !DigestSpec d ok H limit}.

(** U_1, U_2, ..., U_c. *)
Fixpoint u_seq (n : nat) (pass in_ : list Z) : list (list Z) :=
  match n with
  | O => []
  | S n' => let u := hmac_reference d H pass in_ in u :: u_seq n' pass u
  end.

Definition t_block (pass salt : list Z) (iterations : nat) (i : Z) : list Z :=
  fold_left (zip_with Z.lxor) (u_seq iterations pass (salt ++ be_bytes 4 i))
    (replicate (d_digestsize d) 0).

Definition pbkdf2_reference (pass salt : list Z) (iterations : nat) (key_len : Z) : list Z :=
  let blocks := (key_len + Z.of_nat (d_digestsize d) - 1) / Z.of_nat (d_digestsize d) in
  take (Z.to_nat key_len) (seqZ 1 blocks ≫= t_block pass salt iterations).

Lemma hmac_reference_length key msg : length (hmac_reference d H key msg) = d_digestsize d.
Proof. unfold hmac_reference. apply (ds_length (H:=H)). Qed.

Lemma pbkdf2_f_loop_spec iterations hctx pass in_ block :
  ok (h_ctx hctx) -> zlen pass < limit ->
  Z.of_nat (d_blocksize d) + Z.max (zlen in_) (Z.of_nat (d_digestsize d)) < limit ->
  pbkdf2_f_loop d iterations hctx pass in_ block
  = Some (fold_left (zip_with Z.lxor) (u_seq iterations pass in_) block).
Proof.
  revert hctx in_ block. induction iterations as [|n IH]; intros hctx in_ block Hok Hp Hi; [done|].
  cbn [pbkdf2_f_loop u_seq fold_left].
  destruct (hmac_once_spec d ok H limit hctx pass in_ Hok Hp Hi) as (hctx'&E&Hok'). rewrite E.
  rewrite take_ge by (rewrite hmac_reference_length; lia).
  apply IH; [done|done|]. rewrite hmac_reference_length. lia.
Qed.

Lemma t_block_length pass salt iterations i : length (t_block pass salt iterations i) = d_digestsize d.
Proof.
  unfold t_block. generalize (salt ++ be_bytes 4 i) as in_.
  assert (Hb : length (replicate (d_digestsize d) 0) = d_digestsize d) by apply length_replicate. revert Hb.
  generalize (replicate (d_digestsize d) 0) as block. induction iterations as [|n IH]; intros block Hb in_; [done|].
  cbn [u_seq fold_left]. apply IH. rewrite length_zip_with, hmac_reference_length. lia.
Qed.

Lemma pbkdf2_loop_spec n hctx pass salt iterations blk key_len key fuel :
  ok (h_ctx hctx) -> zlen pass < limit -> (0 < d_digestsize d)%nat ->
  Z.of_nat (d_blocksize d) + Z.max (zlen salt + 4) (Z.of_nat (d_digestsize d)) < limit ->
  0 < blk -> blk + Z.of_nat n < 2 ^ 32 -> (n < fuel)%nat ->
  0 < key_len -> (Z.of_nat n) * Z.of_nat (d_digestsize d) < key_len <= (Z.of_nat n + 1) * Z.of_nat (d_digestsize d) ->
  pbkdf2_loop d fuel hctx pass salt iterations blk (blk + Z.of_nat n) key_len key
  = Some (key ++ take (Z.to_nat key_len) (seqZ blk (Z.of_nat n + 1) ≫= t_block pass salt iterations)).
Proof.
  intros Hok Hp Hd Hs. revert blk key_len key fuel.
  induction n as [|n IH]; intros blk key_len key fuel Hb Hb2 Hf Hk Hkl; (destruct fuel as [|fuel]; [lia|]);
    cbn [pbkdf2_loop]; rewrite (proj2 (Z.leb_le blk _)) by lia.
  all: unfold pbkdf2_f; rewrite pbkdf2_f_loop_spec by (first [done | unfold be_bytes; rewrite length_app, length_rev, le_bytes_length; lia]).
  all: fold (t_block pass salt iterations blk).
  - rewrite (proj2 (Z.leb_le key_len _)) by lia.
    rewrite seqZ_cons by lia. change (Z.pred (Z.of_nat 0 + 1)) with 0.
    change (seqZ (Z.succ blk) 0) with (@nil Z). cbn [mbind list_bind]. by rewrite app_nil_r.
  - rewrite (proj2 (Z.leb_gt key_len _)) by nia. rewrite uwrap_small by lia.
    replace (blk + Z.of_nat (S n)) with (blk + 1 + Z.of_nat n) by lia.
    rewrite IH by nia. f_equal. rewrite <- app_assoc. f_equal.
    rewrite (seqZ_cons blk) by lia. cbn [mbind list_bind]. rewrite take_app_ge by (rewrite t_block_length; nia).
    rewrite t_block_length. f_equal. replace (Z.pred (Z.of_nat (S n) + 1)) with (Z.of_nat n + 1) by lia.
    replace (Z.succ blk) with (blk + 1) by lia. f_equal. lia.
Qed.

(** IEEE 802.11 8.5.5.1: the HMACs of the message followed by 0, 1, 2, ... *)
Definition prf_block (key in_ : list Z) (i : Z) : list Z := hmac_reference d H key (in_ ++ [u8 i]).

Lemma prf_loop_spec n hctx key in_ blk prf_len prf fuel :
  ok (h_ctx hctx) -> zlen key < limit ->
  Z.of_nat (d_blocksize d) + Z.max (zlen in_ + 1) (Z.of_nat (d_digestsize d)) < limit ->
  0 <= blk -> blk + Z.of_nat n < 2 ^ 32 -> (n < fuel)%nat -> 0 <= prf_len ->
  n = 0%nat \/ Z.of_nat n * Z.of_nat (d_digestsize d) < prf_len ->
  prf_len <= (Z.of_nat n + 1) * Z.of_nat (d_digestsize d) ->
  prf_loop d fuel hctx key in_ blk prf_len prf
  = Some (prf ++ take (Z.to_nat prf_len) (seqZ blk (Z.of_nat n + 1) ≫= prf_block key in_)).
Proof.
  intros Hok Hkey Hin. revert hctx Hok blk prf_len prf fuel.
  induction n as [|n IH]; intros hctx Hok blk prf_len prf fuel Hb Hb2 Hf H0 Hlo Hhi;
    (destruct fuel as [|fuel]; [lia|]); cbn [prf_loop];
    (destruct (hmac_once_spec d ok H limit hctx key (in_ ++ [u8 blk]) Hok Hkey) as (hctx'&E&Hok');
      [rewrite zlen_app; cbn [length]; lia|]); rewrite E; fold (prf_block key in_ blk);
    pose proof (hmac_reference_length key (in_ ++ [u8 blk]) : length (prf_block key in_ blk) = _) as Hlen.
  - rewrite (proj2 (Z.leb_le prf_len _)) by lia. rewrite seqZ_cons by lia. change (Z.pred (Z.of_nat 0 + 1)) with 0.
    change (seqZ (Z.succ blk) 0) with (@nil Z). cbn [mbind list_bind]. by rewrite app_nil_r.
  - rewrite (proj2 (Z.leb_gt prf_len _)) by nia. rewrite uwrap_small by lia. rewrite (take_ge (prf_block key in_ blk)) by lia.
    rewrite IH by (done || nia). f_equal. rewrite <- app_assoc. f_equal.
    rewrite (seqZ_cons blk) by lia. cbn [mbind list_bind]. rewrite take_app_ge by (rewrite Hlen; nia).
    rewrite Hlen. f_equal. replace (Z.pred (Z.of_nat (S n) + 1)) with (Z.of_nat n + 1) by lia.
    replace (Z.succ blk) with (blk + 1) by lia. f_equal. lia.
Qed.
End Rfc2898.

Definition sha1_h0 : list Z := [0x67452301; 0xefcdab89; 0x98badcfe; 0x10325476; 0xc3d2e1f0].

Lemma sha1_spec a :
  DigestSpec (sha1_algorithm a) (ctx_ok SHA1.engine) (reference (e:=SHA1.engine) sha1_h0 20)
    (2 ^ size_bits a - 256).
Proof. apply engine_spec; [exact SHA1.engine_ok|reflexivity|vm_compute; lia|vm_compute; lia]. Qed.

(** [prf_sha1] is the pseudorandom function of 802.11, for up to 2^32 blocks. *)
Lemma prf_sha1_spec a (hctx : hmac_context (sha1_algorithm a)) key label data prf_len :
  ctx_ok SHA1.engine (h_ctx hctx) -> zlen key + 256 < 2 ^ size_bits a ->
  zlen (label ++ 0 :: data) + 512 < 2 ^ size_bits a -> 0 < prf_len < 2 ^ 31 ->
  prf_sha1 a hctx key label data prf_len
  = Some (take (Z.to_nat prf_len) (seqZ 0 ((prf_len + 19) / 20)
      ≫= prf_block (sha1_algorithm a) (reference (e:=SHA1.engine) sha1_h0 20) key (label ++ 0 :: data))).
Proof.
  intros Hok Hp Hs Hk. pose proof (sha1_spec a) as Hspec. set (blocks := (prf_len + 19) / 20).
  assert (Hb : 20 * (blocks - 1) < prf_len <= 20 * blocks) by (subst blocks; Z.div_mod_to_equations; lia).
  pose proof (prf_loop_spec (sha1_algorithm a) (ctx_ok SHA1.engine) (reference (e:=SHA1.engine) sha1_h0 20) _
    (Z.to_nat (blocks - 1)) hctx key (label ++ 0 :: data) 0 prf_len [] (S (Z.to_nat prf_len)) Hok) as E.
  change (Z.of_nat (d_digestsize (sha1_algorithm a))) with 20 in E.
  change (Z.of_nat (d_blocksize (sha1_algorithm a))) with 64 in E.
  replace (Z.of_nat (Z.to_nat (blocks - 1)) + 1) with blocks in E by lia.
  assert (2 ^ 32 <= 2 ^ size_bits a) by (apply Z.pow_le_mono_r; [lia|apply size_bits_large]).
  apply E; lia.
Qed.

(** [pbkdf2_sha1] is PBKDF2 of RFC 2898 with HMAC-SHA1: the key is the
    first [key_len] bytes of the blocks T_1, T_2, ..., each the exclusive or
    of the iterated HMACs of the salt and the block number; the loop ends for
    every key length. *)
Theorem pbkdf2_sha1_correct a (hctx : hmac_context (sha1_algorithm a)) passphrase salt iterations key_len :
  ctx_ok SHA1.engine (h_ctx hctx) -> zlen passphrase + 256 < 2 ^ size_bits a ->
  zlen salt + 512 < 2 ^ size_bits a -> 0 < key_len < 2 ^ 31 ->
  pbkdf2_sha1 a hctx passphrase salt iterations key_len
  = Some (pbkdf2_reference (sha1_algorithm a) (reference (e:=SHA1.engine) sha1_h0 20)
            passphrase salt iterations key_len).
Proof.
  intros Hok Hp Hs Hk. pose proof (sha1_spec a) as Hspec.
  assert (Hsz : 2 ^ 32 <= 2 ^ size_bits a) by (apply Z.pow_le_mono_r; [lia|destruct a; vm_compute; discriminate]).
  unfold pbkdf2_sha1, pbkdf2_reference. rewrite (uwrap_small (size_bits a)) by lia.
  change (Z.of_nat (d_digestsize (sha1_algorithm a))) with 20.
  set (blocks := (key_len + 20 - 1) / 20).
  assert (Hb : 20 * (blocks - 1) < key_len <= 20 * blocks) by (subst blocks; Z.div_mod_to_equations; lia).
  rewrite uwrap_small by lia.
  pose proof (pbkdf2_loop_spec (sha1_algorithm a) (ctx_ok SHA1.engine) (reference (e:=SHA1.engine) sha1_h0 20) _
    (Z.to_nat (blocks - 1)) hctx passphrase salt iterations 1 key_len [] (S (Z.to_nat blocks)) Hok) as E.
  change (Z.of_nat (d_digestsize (sha1_algorithm a))) with 20 in E.
  change (Z.of_nat (d_blocksize (sha1_algorithm a))) with 64 in E.
  replace (1 + Z.of_nat (Z.to_nat (blocks - 1))) with blocks in E by lia.
  replace (Z.of_nat (Z.to_nat (blocks - 1)) + 1) with blocks in E by lia.
  apply E; try lia. change (d_digestsize (sha1_algorithm a)) with 20%nat. lia.
Qed.

(** PBKDF2-HMAC-SHA1 of RFC 6070, test case 1 ("password", "salt"). *)
Lemma pbkdf2_sha1_correct_witness :
  pbkdf2_sha1 Arch32 (HmacContext (d:=sha1_algorithm Arch32) (SHA1.sha1_init (replicate 64 0)) [])
    [112; 97; 115; 115; 119; 111; 114; 100] [115; 97; 108; 116] 1 20
  = Some [0x0c; 0x60; 0xc8; 0x0f; 0x96; 0x1f; 0x0e; 0x71; 0xf3; 0xa9; 0xb5; 0x24; 0xaf; 0x60; 0x12; 0x06;
          0x2f; 0xe0; 0x37; 0xa6].
Proof.
  rewrite (pbkdf2_sha1_correct Arch32 (HmacContext (d:=sha1_algorithm Arch32) (SHA1.sha1_init (replicate 64 0)) [])
    [112; 97; 115; 115; 119; 111; 114; 100] [115; 97; 108; 116] 1 20);
    [vm_compute; reflexivity|reflexivity|vm_compute; reflexivity|vm_compute; reflexivity|lia].
Defined.
