(* ===== verification/Buffers.v ===== *)
(** * Line buffers, bitmaps and transfer buffers ([core/linebuf.c],
      [core/bitmap.c], [include/ipxe/bitmap.h], [core/xferbuf.c])

    The allocator's answer to each reallocation is an argument ([alloc]); a
    successful [realloc] keeps the old contents.  An access outside the
    allocated bytes is [None]. *)

From S2P Require Import Prelude Strings Memory.

(** ** Line buffers *)

Record line_buffer_t := LineBuffer {
  lb_data : list Z;       (* the allocated bytes *)
  lb_len : nat;
  lb_consumed : nat
}.

Definition empty_line_buffer : line_buffer_t := LineBuffer [] 0 0.

(** Walk back from offset [line] to the start of the line. *)
Fixpoint line_start (data : list Z) (line : nat) : nat :=
  match line with
  | O => O
  | S line' => if default 0 (data !! line') =? 0 then line else line_start data line'
  end.

(** The offset of the newly completed line, or [None] for [NULL]. *)
Definition buffered_line (lb : line_buffer_t) : option nat :=
  match lb_len lb with
  | O => None
  | S line =>
      if Nat.eqb (lb_consumed lb) 0 || negb (default 0 (lb_data lb !! line) =? 0) then None
      else Some (line_start (lb_data lb) line)
  end.

Definition line_buffer (alloc : bool) (lb : line_buffer_t) (data : list Z)
  : option (line_buffer_t * res nat) :=
  opt! eol := memchr data 10 (length data) in
  let consume := match eol with Some i => S i | None => length data end in
  opt! nul := memchr data 0 consume in
  match nul with
  | Some _ => Some (lb, Err EINVAL)
  | None =>
      let new_len := (lb_len lb + consume)%nat in
      if negb alloc then Some (lb, Err ENOMEM)
      else
        let new_data := take (lb_len lb) (lb_data lb) ++ take consume data ++ [0] in
        let lb := LineBuffer new_data new_len (lb_consumed lb) in
        let lb :=
          match eol with
          | None => lb
          | Some _ =>
              let lf := (new_len - 1)%nat in
              let new_data := <[lf := 0]> new_data in
              if Nat.ltb 1 new_len && (default 0 (new_data !! (lf - 1)%nat) =? 13)
              then LineBuffer (<[(lf - 1)%nat := 0]> new_data) (new_len - 1) (lb_consumed lb)
              else LineBuffer new_data new_len (lb_consumed lb)
          end in
        Some (LineBuffer (lb_data lb) (lb_len lb) consume, Ok consume)
  end.

(** ** Bitmaps *)

Record bitmap := Bitmap {
  blocks : list Z;
  bm_length : Z;
  first_gap : Z
}.

Section BitmapOps.
Context (a : arch).

Definition BITMAP_BLKSIZE : Z := size_bits a.
Definition BITMAP_INDEX (bit : Z) : Z := bit / BITMAP_BLKSIZE.
Definition BITMAP_MASK (bit : Z) : Z := Z.shiftl 1 (bit mod BITMAP_BLKSIZE).

Definition num_blocks (length : Z) : Z :=
  u32 (BITMAP_INDEX (uwrap (size_bits a) (length + BITMAP_BLKSIZE - 1))).

Definition bitmap_resize (alloc : bool) (bm : bitmap) (new_length : Z) : bitmap * res unit :=
  let old_num_blocks := num_blocks (bm_length bm) in
  let new_num_blocks := num_blocks new_length in
  if negb (old_num_blocks =? new_num_blocks) && negb alloc then (bm, Err ENOMEM)
  else
    let new_blocks := take (Z.to_nat new_num_blocks) (blocks bm)
                      ++ replicate (Z.to_nat (new_num_blocks - old_num_blocks)) 0 in
    (Bitmap new_blocks new_length (first_gap bm), Ok ()).

Definition bitmap_test (bm : bitmap) (bit : Z) : option bool :=
  if bm_length bm <=? bit then Some false
  else
    opt! block := blocks bm !! Z.to_nat (BITMAP_INDEX bit) in
    Some (negb (Z.land block (BITMAP_MASK bit) =? 0)).

Fixpoint advance_gap (fuel : nat) (bm : bitmap) : option bitmap :=
  match fuel with
  | O => None
  | S fuel' =>
      opt! set := bitmap_test bm (first_gap bm) in
      if set then advance_gap fuel' (Bitmap (blocks bm) (bm_length bm) (u32 (first_gap bm + 1)))
      else Some bm
  end.

Definition bitmap_set (bm : bitmap) (bit : Z) : option bitmap :=
  let index := Z.to_nat (BITMAP_INDEX bit) in
  opt! block := blocks bm !! index in
  let bm := Bitmap (<[index := Z.lor block (BITMAP_MASK bit)]> (blocks bm)) (bm_length bm) (first_gap bm) in
  advance_gap (S (Z.to_nat (bm_length bm))) bm.
End BitmapOps.

Definition bitmap_first_gap (bm : bitmap) : Z := first_gap bm.
Definition bitmap_full (bm : bitmap) : bool := first_gap bm =? bm_length bm.

(** ** Transfer buffers *)

Record xfer_buffer := XferBuffer {
  xb_data : list Z;
  xb_len : Z;
  xb_pos : Z
}.

Section XferOps.
Context (a : arch).

(** [xferbuf_malloc_realloc]: new bytes of a grown buffer are undefined;
    [junk] stands for them. *)
Definition xferbuf_malloc_realloc (alloc : bool) (junk : list Z) (xb : xfer_buffer) (len : Z)
  : xfer_buffer * res unit :=
  if negb alloc then (xb, Err ENOSPC)
  else
    let data := take (Z.to_nat len) (xb_data xb) in
    let data := data ++ take (Z.to_nat len - length data) (junk ++ replicate (Z.to_nat len) 0) in
    (XferBuffer data (xb_len xb) (xb_pos xb), Ok ()).

Definition xferbuf_free (alloc : bool) (junk : list Z) (xb : xfer_buffer) : xfer_buffer :=
  let '(xb, _) := xferbuf_malloc_realloc alloc junk xb 0 in
  XferBuffer (xb_data xb) 0 0.

Definition xferbuf_ensure_size (alloc : bool) (junk : list Z) (xb : xfer_buffer) (len : Z)
  : xfer_buffer * res unit :=
  if len <=? xb_len xb then (xb, Ok ())
  else
    match xferbuf_malloc_realloc alloc junk xb len with
    | (xb, Err e) => (xb, Err e)
    | (xb, Ok _) => (XferBuffer (xb_data xb) len (xb_pos xb), Ok ())
    end.

Definition xferbuf_malloc_write (xb : xfer_buffer) (offset : Z) (data : list Z) : option xfer_buffer :=
  opt! mem := mem_write (xb_data xb) offset data in
  Some (XferBuffer mem (xb_len xb) (xb_pos xb)).

Definition xferbuf_malloc_read (xb : xfer_buffer) (offset len : Z) : option (list Z) :=
  mem_read (xb_data xb) offset len.

Definition xferbuf_write (alloc : bool) (junk : list Z) (xb : xfer_buffer) (offset : Z) (data : list Z)
  : option (xfer_buffer * res unit) :=
  let max_len := uwrap (size_bits a) (offset + zlen data) in
  if max_len <? offset then Some (xb, Err EOVERFLOW)
  else
    match xferbuf_ensure_size alloc junk xb max_len with
    | (xb, Err e) => Some (xb, Err e)
    | (xb, Ok _) => opt! xb := xferbuf_malloc_write xb offset data in Some (xb, Ok ())
    end.

Definition xferbuf_read (xb : xfer_buffer) (offset len : Z) : option (res (list Z)) :=
  if (xb_len xb <? offset) || (xb_len xb - offset <? len) then Some (Err ENOENT)
  else opt! bytes := xferbuf_malloc_read xb offset len in Some (Ok bytes).

(** [abs] is the [XFER_FL_ABS_OFFSET] flag, [moffset] the (signed) offset of
    the metadata. *)
Definition xferbuf_deliver (alloc : bool) (junk : list Z) (xb : xfer_buffer) (data : list Z)
  (abs : bool) (moffset : Z) : option (xfer_buffer * res unit) :=
  let pos := if abs then 0 else xb_pos xb in
  let pos := uwrap (size_bits a) (pos + moffset) in
  opt! (xb, rc) := xferbuf_write alloc junk xb pos data in
  match rc with
  | Err e => Some (xb, Err e)
  | Ok _ => Some (XferBuffer (xb_data xb) (xb_len xb) (uwrap (size_bits a) (pos + zlen data)), Ok ())
  end.
End XferOps.

(** ** Line buffer correctness *)

Lemma memchr_absent data c n : c ∉ take n data -> (n <= length data)%nat -> memchr data c n = Some None.
Proof.
  revert n. induction data as [|b data IH]; intros [|n] Hc Hn; try done; [cbn in Hn; lia|].
  cbn [memchr firstn length] in *. rewrite not_elem_of_cons in Hc. destruct Hc as [Hb Hc].
  destruct (Z.eqb_spec b c); [by subst|]. by rewrite IH by (done || lia).
Qed.

Lemma memchr_first x c y n :
  c ∉ x -> (length x < n)%nat -> memchr (x ++ c :: y) c n = Some (Some (length x)).
Proof.
  revert n. induction x as [|b x IH]; intros n Hc Hn; (destruct n as [|n]; [cbn in Hn; lia|]); cbn [app memchr length] in *.
  - by rewrite Z.eqb_refl.
  - rewrite not_elem_of_cons in Hc. destruct Hc as [Hb Hc].
    destruct (Z.eqb_spec b c); [by subst|]. by rewrite IH by (done || lia).
Qed.

(** The part of a chunk before its first line feed, and whether there is one. *)
Fixpoint break_lf (l : list Z) : list Z * bool :=
  match l with
  | [] => ([], false)
  | c :: l' => if c =? 10 then ([], true) else let '(x, e) := break_lf l' in (c :: x, e)
  end.

Lemma break_lf_spec l : let '(x, e) := break_lf l in
  10 ∉ x /\ if e then exists y, l = x ++ 10 :: y else l = x.
Proof.
  induction l as [|c l IH]; cbn [break_lf]; [split; [apply not_elem_of_nil|done]|].
  destruct (Z.eqb_spec c 10) as [->|Hc]; [split; [apply not_elem_of_nil|by exists l]|].
  destruct (break_lf l) as [x e]. destruct IH as [Hx He]. split; [by apply not_elem_of_cons|].
  destruct e; [destruct He as [y ->]; by exists y|by subst].
Qed.

(** A line without its trailing carriage return. *)
Definition strip_cr (l : list Z) : list Z :=
  match last l with Some 13 => take (length l - 1) l | _ => l end.

(** The buffer holds the completed lines, each terminated, and a partial one. *)
Definition lb_holds (lines : list (list Z)) (partial : list Z) (lb : line_buffer_t) : Prop :=
  take (lb_len lb) (lb_data lb) = (lines ≫= (fun l => l ++ [0])) ++ partial
  /\ (lb_len lb <= length (lb_data lb))%nat
  /\ Forall (fun l => 0 ∉ l) lines /\ 0 ∉ partial.

Definition ends_line (P : list Z) : Prop := P = [] \/ exists P', P = P' ++ [0].

Lemma line_start_spec P l rest : 0 ∉ l -> ends_line P ->
  line_start (P ++ l ++ rest) (length P + length l) = length P.
Proof.
  intros Hl HP. revert rest. induction l as [|c l IH] using rev_ind; intros rest.
  - rewrite Nat.add_0_r. destruct HP as [->|[P' ->]]; [done|]. rewrite length_app, Nat.add_1_r. cbn [line_start].
    rewrite <- app_assoc, lookup_app_r, Nat.sub_diag by lia. done.
  - rewrite not_elem_of_app in Hl. destruct Hl as [Hl Hc]. rewrite not_elem_of_cons in Hc. destruct Hc as [Hc _].
    rewrite length_app. replace (length P + (length l + length [c]))%nat with (S (length P + length l)) by (cbn; lia).
    cbn [line_start]. rewrite <- app_assoc.
    rewrite lookup_app_r by lia. rewrite lookup_app_r by lia.
    replace (length P + length l - length P - length l)%nat with 0%nat by lia. cbn [app lookup list_lookup default].
    change (id c) with c. destruct (Z.eqb_spec c 0); [by subst|]. by apply IH.
Qed.

Lemma lines_end lines : ends_line (lines ≫= (fun l => l ++ [0])).
Proof.
  destruct lines as [|l lines] using rev_ind; [by left|]. right.
  rewrite bind_app. cbn [mbind list_bind]. rewrite app_nil_r, app_assoc. by eexists.
Qed.

(** The state after the copy: everything before and the consumed bytes. *)
Lemma lb_copied lines partial lb x tl :
  lb_holds lines partial lb ->
  take (lb_len lb) (lb_data lb) ++ x ++ tl
  = (lines ≫= (fun l => l ++ [0])) ++ (partial ++ x) ++ tl
  /\ lb_len lb = length ((lines ≫= (fun l => l ++ [0])) ++ partial).
Proof.
  intros (E&Hl&_&_). rewrite E, <- !app_assoc. split; [done|]. rewrite <- E, length_take. lia.
Qed.

Lemma memchr_present data c n : c ∈ take n data -> (n <= length data)%nat ->
  exists i, memchr data c n = Some (Some i).
Proof.
  intros Hc Hn. apply list_elem_of_split_l in Hc as (x&y&E&Hx).
  assert (Hl : (length x < n)%nat) by (apply (f_equal length) in E; rewrite length_take, length_app in E; cbn [length] in E; lia).
  rewrite <- (take_drop n data), E, <- app_assoc. cbn [app]. exists (length x). by apply memchr_first.
Qed.

Lemma strip_cr_cases w :
  (exists w', w = w' ++ [13] /\ strip_cr w = w') \/ (strip_cr w = w /\ last w <> Some 13).
Proof.
  destruct w as [|c w] using rev_ind; [by right|]. unfold strip_cr. rewrite last_snoc.
  destruct (decide (c = 13)) as [->|Hc].
  - left. exists w. split; [done|]. rewrite length_app, Nat.add_sub. apply take_app_length.
  - right. split; [|by intros [= ?]]. by destruct c as [|[[[[]|[]|]|[[]|[]|]|]|[[[]|[]|]|[[]|[]|]|]|]|].
Qed.

(** A buffer that ends with a freshly completed line. *)
Lemma completed_line C line zs n :
  0 ∉ line -> ends_line C ->
  let lb := LineBuffer (C ++ line ++ 0 :: zs) (length C + length line + 1) (S n) in
  buffered_line lb = Some (length C)
  /\ take (lb_len lb) (lb_data lb) = C ++ line ++ [0]
  /\ (lb_len lb <= length (lb_data lb))%nat.
Proof.
  intros Hl HC lb. cbn [lb lb_len lb_data].
  replace (length C + length line + 1)%nat with (S (length C + length line)) by lia.
  split; [|split].
  - unfold buffered_line. cbn [lb lb_len lb_data lb_consumed].
    replace (length C + length line + 1)%nat with (S (length C + length line)) by lia.
    rewrite lookup_app_r, lookup_app_r by lia.
    replace (length C + length line - length C - length line)%nat with 0%nat by lia. cbn.
    f_equal. by apply line_start_spec.
  - rewrite <- Nat.add_succ_r, take_app_add. f_equal. rewrite <- Nat.add_1_r, take_app_add. done.
  - rewrite !length_app. cbn [length]. lia.
Qed.

Lemma lookup_before_last (C w : list Z) t :
  (0 < length C + length w)%nat -> ends_line C ->
  default 0 ((C ++ w ++ t) !! (length C + length w - 1)%nat) = default 0 (last w).
Proof.
  intros Hl HC. destruct w as [|c w _] using rev_ind.
  - cbn [length app] in *. rewrite Nat.add_0_r in *. destruct HC as [->|[P ->]]; [cbn in Hl; lia|].
    rewrite length_app, Nat.add_sub, <- app_assoc, lookup_app_r, Nat.sub_diag by lia. done.
  - rewrite last_snoc, length_app. cbn [length].
    replace (length C + (length w + 1) - 1)%nat with (length C + length w)%nat by lia.
    rewrite <- app_assoc, lookup_app_r, lookup_app_r by lia.
    by replace (length C + length w - length C - length w)%nat with 0%nat by lia.
Qed.

Lemma completed_holds lines line zs n :
  0 ∉ line -> Forall (fun l => 0 ∉ l) lines ->
  let C := lines ≫= (fun l => l ++ [0]) in
  let lb := LineBuffer (C ++ line ++ 0 :: zs) (length C + length line + 1) (S n) in
  lb_holds (lines ++ [line]) [] lb
  /\ exists off, buffered_line lb = Some off /\ drop off (take (lb_len lb) (lb_data lb)) = line ++ [0].
Proof.
  intros Hl Hlines C lb. destruct (completed_line C line zs n Hl (lines_end lines)) as (B1&B2&B3).
  fold lb in B1, B2, B3. split.
  - split; [|split; [done|]].
    + rewrite B2, bind_app, app_nil_r. cbn [mbind list_bind]. by rewrite app_nil_r.
    + split; [|apply not_elem_of_nil]. rewrite Forall_app. split; [done|]. by constructor.
  - exists (length C). split; [done|]. rewrite B2. apply drop_app_length.
Qed.

(** The test for a trailing carriage return. *)
Lemma cr_test C w :
  ends_line C ->
  Nat.ltb 1 (length C + length w + 1)
    && (default 0 ((C ++ w ++ [0; 0]) !! (length C + length w - 1)%nat) =? 13)
  = bool_decide (last w = Some 13).
Proof.
  intros HC. destruct (decide (length C + length w = 0)%nat) as [Hz|Hz].
  - destruct C, w; cbn in Hz; try lia. done.
  - rewrite lookup_before_last by (done || lia). rewrite (proj2 (Nat.ltb_lt _ _)) by lia. cbn [andb].
    destruct (last w) as [c|]; [|done]. cbn. change (id c) with c. destruct (Z.eqb_spec c 13) as [->|Hne].
    + symmetry. by apply bool_decide_eq_true_2.
    + symmetry. apply bool_decide_eq_false_2. by intros [= ?].
Qed.

Lemma line_buffer_eol lb lines partial x y :
  lb_holds lines partial lb -> 10 ∉ x -> 0 ∉ x ->
  let line := strip_cr (partial ++ x) in
  exists lb', line_buffer true lb (x ++ 10 :: y) = Some (lb', Ok (length x + 1)%nat)
    /\ lb_holds (lines ++ [line]) [] lb'
    /\ exists off, buffered_line lb' = Some off /\ drop off (take (lb_len lb') (lb_data lb')) = line ++ [0].
Proof.
  intros Hb Hx H0 line. pose proof Hb as (_&_&Hlines&Hpart). unfold line_buffer.
  rewrite memchr_first by (done || rewrite length_app; cbn [length]; lia).
  assert (Htk : take (S (length x)) (x ++ 10 :: y) = x ++ [10]) by (rewrite <- Nat.add_1_r, take_app_add; done).
  rewrite memchr_absent; [| |rewrite length_app; cbn [length]; lia].
  2: { rewrite Htk, not_elem_of_app, not_elem_of_cons. repeat split; try done. apply not_elem_of_nil. }
  cbn [negb]. rewrite Htk. destruct (lb_copied lines partial lb x ([10] ++ [0]) Hb) as [E El].
  rewrite <- app_assoc, E, El. pose proof (lines_end lines) as HC.
  pose proof (fun line zs Hl => completed_holds lines line zs (length x) Hl Hlines) as Hdone. cbv zeta in Hdone.
  set (C := lines ≫= (fun l => l ++ [0])) in *. subst line. set (w := partial ++ x) in *.
  assert (Hw : 0 ∉ w) by (subst w; by rewrite not_elem_of_app).
  assert (Hn : (length (C ++ partial) + S (length x) = length C + length w + 1)%nat)
    by (subst w; rewrite !length_app; lia).
  rewrite Hn. replace (length C + length w + 1 - 1)%nat with (length C + length w)%nat by lia.
  cbn [app]. assert (Ei : <[(length C + length w)%nat := 0]> (C ++ w ++ [10; 0]) = C ++ w ++ [0; 0]).
  { rewrite insert_app_r. rewrite <- (Nat.add_0_r (length w)), insert_app_r. done. }
  rewrite Ei, (cr_test C w HC). replace (length x + 1)%nat with (S (length x)) by lia. destruct (strip_cr_cases w) as [(w'&Hw'&->)|[-> Hl13]].
  - rewrite bool_decide_eq_true_2 by (rewrite Hw'; apply last_snoc). cbn [lb_data lb_len].
    rewrite Hw', length_app in *. cbn [length]. rewrite not_elem_of_app in Hw.
    replace (length C + (length w' + 1) - 1)%nat with (length C + (length w' + 0))%nat by lia.
    rewrite <- !app_assoc, insert_app_r, insert_app_r. cbn [insert list_insert app].
    eexists. split; [done|]. replace (length C + (length w' + 1))%nat with (length C + length w' + 1)%nat by lia.
    apply (Hdone w' [0; 0]), Hw.
  - rewrite bool_decide_eq_false_2 by done. cbn [lb_data lb_len].
    eexists. split; [done|]. apply (Hdone w [0]), Hw.
Qed.

Lemma line_buffer_partial lb lines partial x :
  lb_holds lines partial lb -> 10 ∉ x -> 0 ∉ x ->
  exists lb', line_buffer true lb x = Some (lb', Ok (length x))
    /\ lb_holds lines (partial ++ x) lb' /\ buffered_line lb' = None.
Proof.
  intros Hb Hx H0. pose proof Hb as (_&_&Hlines&Hpart). pose proof (lines_end lines) as HC. unfold line_buffer.
  rewrite !memchr_absent by (rewrite ?firstn_all; done || lia). cbn [negb]. rewrite firstn_all.
  destruct (lb_copied lines partial lb x [0] Hb) as [E El]. rewrite E, El.
  set (C := lines ≫= (fun l => l ++ [0])) in *. eexists. cbn [lb_data lb_len lb_consumed]. split; [done|].
  assert (Hn : (length (C ++ partial) + length x = length C + length (partial ++ x))%nat)
    by (rewrite !length_app; lia).
  split.
  - split; cbn [lb_len lb_data]; [|split; [|split; [done|by rewrite not_elem_of_app]]].
    + rewrite Hn, take_app_add, take_app_length. done.
    + rewrite !length_app. cbn [length]. lia.
  - unfold buffered_line. cbn [lb_len lb_data lb_consumed]. rewrite Hn.
    destruct (length C + length (partial ++ x))%nat as [|m] eqn:Em; [done|].
    destruct x as [|c x _] using rev_ind; [done|].
    pose proof (lookup_before_last C (partial ++ (x ++ [c])) [0]) as Hlast. rewrite Em in Hlast.
    cbn [Nat.sub] in Hlast. rewrite Nat.sub_0_r in Hlast. rewrite Hlast by (done || lia).
    rewrite app_assoc, last_snoc. change (default 0 (Some c)) with c.
    rewrite not_elem_of_app, not_elem_of_cons in H0.
    destruct (Z.eqb_spec c 0); [subst; by destruct H0 as [_ [[] _]]|]. cbn [negb]. by rewrite orb_true_r.
Qed.

(** A NUL in the part to be consumed. *)
Lemma line_buffer_nul lb x (eol : bool) y :
  10 ∉ x -> 0 ∈ x ->
  line_buffer true lb (if eol then x ++ 10 :: y else x) = Some (lb, Err EINVAL).
Proof.
  intros Hx H0. unfold line_buffer. destruct eol.
  - rewrite memchr_first by (done || rewrite length_app; cbn [length]; lia).
    destruct (memchr_present (x ++ 10 :: y) 0 (S (length x))) as [i ->]; [|rewrite length_app; cbn [length]; lia|done].
    rewrite <- Nat.add_1_r, take_app_add. apply elem_of_app. by left.
  - rewrite memchr_absent by (rewrite ?firstn_all; done || lia).
    destruct (memchr_present x 0 (length x)) as [i ->]; [by rewrite firstn_all|lia|done].
Qed.

(** Line buffering: for any chunk of received data the buffer consumes
    up to and including the first line feed.  A NUL in that part is refused
    with the buffer unchanged.  Otherwise the part is appended to the partial
    line; if it ended with a line feed, the line (without its line feed and
    without one carriage return before it) is complete, terminated, and is what
    [buffered_line] returns; if not, [buffered_line] returns [NULL]. *)
Theorem line_buffer_correct lb lines partial chunk :
  lb_holds lines partial lb ->
  let '(x, eol) := break_lf chunk in
  if decide (0 ∈ x) then line_buffer true lb chunk = Some (lb, Err EINVAL)
  else exists lb',
    line_buffer true lb chunk = Some (lb', Ok (length x + if eol then 1 else 0)%nat)
    /\ if (eol : bool) then
         let line := strip_cr (partial ++ x) in
         lb_holds (lines ++ [line]) [] lb'
         /\ exists off, buffered_line lb' = Some off
              /\ drop off (take (lb_len lb') (lb_data lb')) = line ++ [0]
       else lb_holds lines (partial ++ x) lb' /\ buffered_line lb' = None.
Proof.
  intros Hb. pose proof (break_lf_spec chunk) as Hbr. destruct (break_lf chunk) as [x eol].
  destruct Hbr as [Hx He]. case_decide as H0.
  - destruct eol; [destruct He as [y ->]; by apply (line_buffer_nul lb x true y)|].
    subst chunk. by apply (line_buffer_nul lb x false []).
  - destruct eol.
    + destruct He as [y ->]. destruct (line_buffer_eol lb lines partial x y Hb Hx H0) as (lb'&E&Hr). by exists lb'.
    + subst chunk. rewrite Nat.add_0_r. by apply line_buffer_partial.
Qed.

(** "GET\r\n" after a partial "abc": the line is "abcGET". *)
Lemma line_buffer_correct_witness :
  exists lb', line_buffer true (LineBuffer [97; 98; 99; 0] 3 3) [71; 69; 84; 13; 10; 88] = Some (lb', Ok 5%nat)
    /\ lb_holds [[97; 98; 99; 71; 69; 84]] [] lb'
    /\ exists off, buffered_line lb' = Some off
         /\ drop off (take (lb_len lb') (lb_data lb')) = [97; 98; 99; 71; 69; 84; 0].
Proof.
  apply (line_buffer_correct (LineBuffer [97; 98; 99; 0] 3 3) [] [97; 98; 99] [71; 69; 84; 13; 10; 88]).
  split; [reflexivity|]. split; [cbn; lia|]. split; [constructor|].
  apply (bool_decide_unpack _). vm_compute. exact I.
Defined.

(** ** Bitmaps as sets *)

Section BitmapSpec.
Context (a : arch).

Let B := BITMAP_BLKSIZE a.

Definition bm_bit (bm : bitmap) (i : Z) : bool :=
  Z.testbit (default 0 (blocks bm !! Z.to_nat (i / B))) (i mod B).

(** The bitmap has [n] bits and represents the set [S] of them; the first
    gap is the least bit that is not in it. *)
Definition bm_rep (bm : bitmap) (n : Z) (S : Z -> bool) : Prop :=
  bm_length bm = n /\ 0 <= n /\ n + B < 2 ^ 32
  /\ zlen (blocks bm) = (n + B - 1) / B
  /\ (forall i, 0 <= i < zlen (blocks bm) * B -> bm_bit bm i = (i <? n) && S i)
  /\ 0 <= first_gap bm <= n
  /\ (forall i, 0 <= i < first_gap bm -> S i = true)
  /\ (first_gap bm < n -> S (first_gap bm) = false).
End BitmapSpec.

Lemma blksize_bounds a : 32 <= BITMAP_BLKSIZE a <= 64.
Proof. destruct a; vm_compute; (split; discriminate). Qed.

Lemma num_blocks_small a n :
  0 <= n -> n + BITMAP_BLKSIZE a < 2 ^ 32 -> num_blocks a n = (n + BITMAP_BLKSIZE a - 1) / BITMAP_BLKSIZE a.
Proof.
  intros Hn Hl. pose proof (blksize_bounds a) as HB. pose proof (size_bits_large a) as Hs.
  unfold num_blocks, BITMAP_INDEX. pose proof (Z.pow_le_mono_r 2 32 (size_bits a) ltac:(lia) Hs).
  rewrite (uwrap_small (size_bits a)) by lia. apply uwrap_small.
  split; [apply Z.div_pos; lia|]. apply Z.div_lt_upper_bound; lia.
Qed.

Lemma land_mask x k : 0 <= k -> negb (Z.land x (Z.shiftl 1 k) =? 0) = Z.testbit x k.
Proof.
  intros Hk. rewrite Z.shiftl_1_l. destruct (Z.testbit x k) eqn:E.
  - apply negb_true_iff, Z.eqb_neq. intros H0. apply (f_equal (fun z => Z.testbit z k)) in H0.
    rewrite Z.land_spec, E, Z.pow2_bits_true, Z.bits_0 in H0 by lia. done.
  - apply negb_false_iff, Z.eqb_eq. apply Z.bits_inj'. intros m Hm. rewrite Z.land_spec, Z.bits_0.
    destruct (Z.eq_dec m k) as [->|]; [by rewrite E|]. by rewrite Z.pow2_bits_false, andb_false_r by lia.
Qed.

Lemma block_of a n i : 0 <= i < n ->
  0 <= i / BITMAP_BLKSIZE a < (n + BITMAP_BLKSIZE a - 1) / BITMAP_BLKSIZE a.
Proof.
  intros Hi. pose proof (blksize_bounds a). split; [apply Z.div_pos; lia|].
  apply Z.div_lt_upper_bound; [lia|].
  pose proof (Z.div_mod (n + BITMAP_BLKSIZE a - 1) (BITMAP_BLKSIZE a) ltac:(lia)).
  pose proof (Z.mod_pos_bound (n + BITMAP_BLKSIZE a - 1) (BITMAP_BLKSIZE a) ltac:(lia)). lia.
Qed.

Lemma blocks_cover a n : 0 <= n -> n <= (n + BITMAP_BLKSIZE a - 1) / BITMAP_BLKSIZE a * BITMAP_BLKSIZE a.
Proof.
  intros Hn. pose proof (blksize_bounds a).
  pose proof (Z.div_mod (n + BITMAP_BLKSIZE a - 1) (BITMAP_BLKSIZE a) ltac:(lia)).
  pose proof (Z.mod_pos_bound (n + BITMAP_BLKSIZE a - 1) (BITMAP_BLKSIZE a) ltac:(lia)). lia.
Qed.

Lemma bitmap_test_spec a bm n S i : bm_rep a bm n S -> 0 <= i ->
  bitmap_test a bm i = Some ((i <? n) && S i).
Proof.
  intros (Hl&Hn&Hs&Hb&Hbits&_) Hi. unfold bitmap_test. rewrite Hl.
  destruct (Z.leb_spec n i) as [Hge|Hlt].
  - by rewrite (proj2 (Z.ltb_ge i n)) by lia.
  - pose proof (block_of a n i ltac:(lia)) as Hblk. unfold BITMAP_INDEX.
    destruct (lookup_lt_is_Some_2 (blocks bm) (Z.to_nat (i / BITMAP_BLKSIZE a))) as [x E]; [lia|].
    rewrite E. unfold BITMAP_MASK. pose proof (blksize_bounds a).
    rewrite land_mask by (apply Z.mod_pos_bound; lia). pose proof (blocks_cover a n Hn).
    rewrite <- Hbits by lia. unfold bm_bit. by rewrite E.
Qed.

(** A representation whose first gap is not yet updated: every bit below
    [first_gap] is set. *)
Lemma advance_gap_spec a fuel bm n S :
  bm_length bm = n -> (forall i, 0 <= i -> bitmap_test a bm i = Some ((i <? n) && S i)) ->
  0 <= first_gap bm <= n -> n < 2 ^ 32 - 1 -> (forall i, 0 <= i < first_gap bm -> S i = true) ->
  (Z.to_nat (n - first_gap bm) < fuel)%nat ->
  exists g, advance_gap a fuel bm = Some (Bitmap (blocks bm) n g)
    /\ first_gap bm <= g <= n /\ (forall i, 0 <= i < g -> S i = true) /\ (g < n -> S g = false).
Proof.
  revert bm. induction fuel as [|fuel IH]; intros bm Hl Ht Hg Hn Hs Hf; [lia|]. cbn [advance_gap].
  rewrite Ht by lia. destruct (Z.ltb_spec (first_gap bm) n) as [Hlt|Hge]; cbn [andb].
  - destruct (S (first_gap bm)) eqn:ES.
    + rewrite uwrap_small by lia. destruct (IH (Bitmap (blocks bm) (bm_length bm) (first_gap bm + 1))) as (g&E&Hg'&H1&H2);
        cbn [bm_length first_gap blocks]; try done; try lia.
      * intros i Hi. destruct (Z.eq_dec i (first_gap bm)) as [->|]; [done|]. apply Hs. lia.
      * exists g. split; [done|]. split; [cbn in Hg'; lia|done].
    + exists (first_gap bm). split; [by destruct bm; cbn in *; subst|]. split; [lia|]. done.
  - exists (first_gap bm). split; [by destruct bm; cbn in *; subst|]. split; [lia|]. split; [done|lia].
Qed.

Lemma bitmap_set_spec a bm n S bit : bm_rep a bm n S -> 0 <= bit < n ->
  exists bm', bitmap_set a bm bit = Some bm' /\ bm_rep a bm' n (fun i => (i =? bit) || S i).
Proof.
  intros Hrep Hbit. pose proof Hrep as (Hl&Hn&Hs&Hb&Hbits&Hg&Hlow&Hgap).
  pose proof (blksize_bounds a) as HB. pose proof (block_of a n bit Hbit) as Hblk.
  unfold bitmap_set, BITMAP_INDEX. set (idx := Z.to_nat (bit / BITMAP_BLKSIZE a)).
  destruct (lookup_lt_is_Some_2 (blocks bm) idx) as [x E]; [lia|]. rewrite E.
  set (bm1 := Bitmap (<[idx := Z.lor x (BITMAP_MASK a bit)]> (blocks bm)) (bm_length bm) (first_gap bm)).
  assert (Hbits1 : forall i, 0 <= i < zlen (blocks bm1) * BITMAP_BLKSIZE a ->
    bm_bit a bm1 i = (i <? n) && ((i =? bit) || S i)).
  { intros i Hi. cbn [bm1 blocks] in Hi. rewrite length_insert in Hi. specialize (Hbits i Hi). unfold bm_bit in *. cbn [bm1 blocks].
    assert (Hq : 0 <= i / BITMAP_BLKSIZE a) by (apply Z.div_pos; lia).
    destruct (decide (Z.to_nat (i / BITMAP_BLKSIZE a) = idx)) as [Eq|Ne].
    - rewrite Eq in *. rewrite E in Hbits. rewrite list_lookup_insert_eq by lia. cbn [default from_option id] in *.
      rewrite Z.lor_spec, Hbits. unfold BITMAP_MASK. rewrite Z.shiftl_1_l.
      assert (Hdiv : i / BITMAP_BLKSIZE a = bit / BITMAP_BLKSIZE a) by (subst idx; lia).
      pose proof (Z.div_mod i (BITMAP_BLKSIZE a) ltac:(lia)). pose proof (Z.div_mod bit (BITMAP_BLKSIZE a) ltac:(lia)).
      pose proof (Z.mod_pos_bound bit (BITMAP_BLKSIZE a) ltac:(lia)).
      rewrite Z.pow2_bits_eqb by lia.
      destruct (Z.eqb_spec (bit mod BITMAP_BLKSIZE a) (i mod BITMAP_BLKSIZE a)) as [Em|Nm].
      + assert (i = bit) as -> by congruence. rewrite Z.eqb_refl, orb_true_r, andb_true_r.
        symmetry. apply Z.ltb_lt. lia.
      + rewrite (proj2 (Z.eqb_neq i bit)) by (intros ->; lia). by rewrite orb_false_r.
    - rewrite list_lookup_insert_ne by done. rewrite Hbits.
      rewrite (proj2 (Z.eqb_neq i bit)); [done|]. intros ->. done. }
  assert (Hrep0 : forall g, 0 <= g <= n -> (forall i, 0 <= i < g -> (i =? bit) || S i = true) ->
    (g < n -> (g =? bit) || S g = false) ->
    bm_rep a (Bitmap (blocks bm1) n g) n (fun i => (i =? bit) || S i)).
  { intros g Hg0 H1 H2. split; [done|]. split; [done|]. split; [done|]. cbn [bm1 blocks first_gap].
    rewrite length_insert. split; [done|]. split; [|done]. intros i Hi. apply Hbits1. cbn [bm1 blocks].
    by rewrite length_insert. }
  destruct (advance_gap_spec a (Datatypes.S (Z.to_nat (bm_length bm1))) bm1 n (fun i => (i =? bit) || S i))
    as (g&Eg&Hg1&H1&H2); cbn [bm1 bm_length first_gap]; try lia.
  - intros i Hi. unfold bitmap_test. change (bm_length bm1) with (bm_length bm). rewrite Hl. destruct (Z.leb_spec n i).
    + by rewrite (proj2 (Z.ltb_ge i n)) by lia.
    + pose proof (block_of a n i ltac:(lia)). pose proof (blocks_cover a n Hn). fold bm1. unfold BITMAP_INDEX.
      destruct (lookup_lt_is_Some_2 (blocks bm1) (Z.to_nat (i / BITMAP_BLKSIZE a))) as [y Ey];
        [cbn [bm1 blocks]; rewrite length_insert; lia|].
      rewrite Ey. unfold BITMAP_MASK. rewrite land_mask by (apply Z.mod_pos_bound; lia).
      rewrite <- Hbits1 by (cbn [bm1 blocks]; rewrite length_insert; lia). unfold bm_bit. by rewrite Ey.
  - intros i Hi. rewrite Hlow by lia. apply orb_true_r.
  - eexists. split; [exact Eg|]. apply Hrep0; [cbn in Hg1; lia|done|done].
Qed.

Lemma bitmap_resize_spec a bm n S n' : bm_rep a bm n S -> n <= n' -> n' + BITMAP_BLKSIZE a < 2 ^ 32 ->
  exists bm', bitmap_resize a true bm n' = (bm', Ok ()) /\ bm_rep a bm' n' (fun i => (i <? n) && S i).
Proof.
  intros (Hl&Hn&Hs&Hb&Hbits&Hg&Hlow&Hgap) Hle Hs'. pose proof (blksize_bounds a) as HB.
  unfold bitmap_resize. rewrite Hl, !num_blocks_small by lia. rewrite andb_false_r. eexists. split; [done|].
  set (k := (n + BITMAP_BLKSIZE a - 1) / BITMAP_BLKSIZE a) in *.
  set (k' := (n' + BITMAP_BLKSIZE a - 1) / BITMAP_BLKSIZE a).
  assert (Hk : 0 <= k <= k') by (subst k k'; split; [apply Z.div_pos; lia|apply Z.div_le_mono; lia]).
  rewrite take_ge by lia. pose proof (blocks_cover a n Hn) as Hcov. fold k in Hcov.
  split; [done|]. split; [lia|]. split; [done|]. cbn [blocks first_gap].
  rewrite length_app, length_replicate. split; [lia|]. split; [|split; [lia|split]].
  - intros i Hi. unfold bm_bit in *. cbn [blocks].
    assert (Hq : 0 <= i / BITMAP_BLKSIZE a) by (apply Z.div_pos; lia).
    destruct (Z_lt_ge_dec i (k * BITMAP_BLKSIZE a)) as [Hlt|Hge].
    + assert (i / BITMAP_BLKSIZE a < k) by (apply Z.div_lt_upper_bound; lia).
      rewrite lookup_app_l by lia. rewrite Hbits by lia.
      destruct (Z.ltb_spec i n); [|by rewrite andb_false_r]. by rewrite (proj2 (Z.ltb_lt i n')) by lia.
    + assert (k <= i / BITMAP_BLKSIZE a) by (apply Z.div_le_lower_bound; lia).
      rewrite lookup_app_r by lia. rewrite (proj2 (Z.ltb_ge i n)) by lia. rewrite andb_false_r.
      destruct (replicate _ 0 !! _) as [x|] eqn:Ex; [|apply Z.bits_0].
      apply lookup_replicate in Ex as [-> _]. apply Z.bits_0.
  - intros i Hi. rewrite (proj2 (Z.ltb_lt i n)) by lia. by apply Hlow.
  - intros _. destruct (Z.ltb_spec (first_gap bm) n); [|done]. by apply Hgap.
Qed.

(** A bitmap implements a finite set of block numbers: [bitmap_set] of a
    bit inside its length adds that bit, growing it keeps the set and adds no
    bit, [bitmap_test] is membership (false outside the length), the first gap
    is the least missing bit after every operation, and [bitmap_full] holds
    exactly when every bit is set. *)
Theorem bitmap_refines_set a bm n S bit n' : bm_rep a bm n S ->
  0 <= bit < n -> n <= n' -> n' + BITMAP_BLKSIZE a < 2 ^ 32 ->
  (exists bm', bitmap_set a bm bit = Some bm' /\ bm_rep a bm' n (fun i => (i =? bit) || S i))
  /\ (exists bm', bitmap_resize a true bm n' = (bm', Ok ()) /\ bm_rep a bm' n' (fun i => (i <? n) && S i))
  /\ (forall i, 0 <= i -> bitmap_test a bm i = Some ((i <? n) && S i))
  /\ (bitmap_full bm = true <-> forall i, 0 <= i < n -> S i = true).
Proof.
  intros Hrep Hbit Hle Hs. split; [by apply bitmap_set_spec|]. split; [by apply bitmap_resize_spec|].
  split; [intros i Hi; by apply bitmap_test_spec|].
  destruct Hrep as (Hl&Hn&_&_&_&Hg&Hlow&Hgap). unfold bitmap_full. rewrite Hl, Z.eqb_eq. split.
  - intros <-. exact Hlow.
  - intros Hall. destruct (Z.eq_dec (first_gap bm) n); [done|].
    assert (Hset : S (first_gap bm) = true) by (apply Hall; lia). by rewrite Hgap in Hset by lia.
Qed.

(** Five bits, of which 0, 1 and 3 are set; bit 2 is set next. *)
Definition demo_bitmap : bitmap := Bitmap [11] 5 2.

Lemma demo_bitmap_ok : bm_rep Arch32 demo_bitmap 5 (fun i => Z.testbit 11 i).
Proof.
  split; [done|]. split; [lia|]. split; [vm_compute; done|]. split; [done|].
  split; [|split; [cbn; lia|split]].
  - intros i Hi. change (zlen (blocks demo_bitmap) * BITMAP_BLKSIZE Arch32) with 32 in Hi. revert i Hi.
    apply (range_dec 0 32 (fun i => bm_bit Arch32 demo_bitmap i = (i <? 5) && Z.testbit 11 i)). vm_compute. reflexivity.
  - cbn [first_gap demo_bitmap]. apply (range_dec 0 2 (fun i => Z.testbit 11 i = true)). vm_compute. reflexivity.
  - done.
Qed.

Lemma bitmap_refines_set_witness :
  (exists bm', bitmap_set Arch32 demo_bitmap 2 = Some bm'
     /\ bm_rep Arch32 bm' 5 (fun i => (i =? 2) || Z.testbit 11 i))
  /\ (exists bm', bitmap_resize Arch32 true demo_bitmap 100 = (bm', Ok ())
     /\ bm_rep Arch32 bm' 100 (fun i => (i <? 5) && Z.testbit 11 i))
  /\ (forall i, 0 <= i -> bitmap_test Arch32 demo_bitmap i = Some ((i <? 5) && Z.testbit 11 i))
  /\ (bitmap_full demo_bitmap = true <-> forall i, 0 <= i < 5 -> Z.testbit 11 i = true).
Proof.
  apply (bitmap_refines_set Arch32 demo_bitmap 5 (fun i => Z.testbit 11 i) 2 100);
    [apply demo_bitmap_ok|lia|lia|vm_compute; done].
Defined.

(** ** Transfer buffer correctness *)

Definition xb_ok (xb : xfer_buffer) : Prop := zlen (xb_data xb) = xb_len xb.

(** Growing keeps the old bytes. *)
Lemma ensure_size_ok junk xb len :
  xb_ok xb -> 0 <= len ->
  exists xb' more, xferbuf_ensure_size true junk xb len = (xb', Ok ())
    /\ xb_data xb' = xb_data xb ++ more /\ xb_ok xb' /\ xb_len xb' = Z.max (xb_len xb) len
    /\ xb_pos xb' = xb_pos xb.
Proof.
  intros Hok Hl. unfold xferbuf_ensure_size. destruct (Z.leb_spec len (xb_len xb)) as [Hle|Hgt].
  - exists xb, []. rewrite app_nil_r. repeat split; try done. lia.
  - unfold xb_ok in *. cbn [negb xferbuf_malloc_realloc]. eexists _, _. split; [done|].
    cbn [xb_data xb_len xb_pos]. rewrite (take_ge (xb_data xb)) by lia. split; [done|]. split; [|split; [lia|done]].
    rewrite zlen_app, length_take, length_app, length_replicate. lia.
Qed.

(** Transfer buffer writes: a write at any offset (also past the current
    end) succeeds when the allocator does, extends the buffer to cover it and
    is read back exactly; every range of the old buffer it does not overlap
    reads as before; a range past the end is refused with [-ENOENT].  A write
    whose end wraps around the address space is refused with [-EOVERFLOW] and
    changes nothing. *)
Theorem xferbuf_write_correct a junk xb offset data :
  xb_ok xb -> 0 <= offset < 2 ^ size_bits a -> zlen data < 2 ^ size_bits a ->
  if decide (offset + zlen data < 2 ^ size_bits a) then
    exists xb', xferbuf_write a true junk xb offset data = Some (xb', Ok ())
      /\ xb_ok xb' /\ xb_len xb' = Z.max (xb_len xb) (offset + zlen data)
      /\ xferbuf_read xb' offset (zlen data) = Some (Ok data)
      /\ (forall o n, 0 <= o -> 0 <= n -> o + n <= xb_len xb ->
           o + n <= offset \/ offset + zlen data <= o -> xferbuf_read xb' o n = xferbuf_read xb o n)
      /\ (forall o n, 0 <= o -> 0 <= n -> xb_len xb' < o + n -> xferbuf_read xb' o n = Some (Err ENOENT))
  else xferbuf_write a true junk xb offset data = Some (xb, Err EOVERFLOW).
Proof.
  intros Hok Ho Hd. unfold xferbuf_write. case_decide as Hfit.
  - rewrite uwrap_small by lia. rewrite (proj2 (Z.ltb_ge _ offset)) by lia.
    destruct (ensure_size_ok junk xb (offset + zlen data) Hok ltac:(lia)) as (xb1&more&E1&Hdat&Hok1&Hlen&_).
    rewrite E1. unfold xferbuf_malloc_write, xb_ok in *.
    destruct (mem_write_split (xb_data xb1) offset data) as (mem'&Ew&Hl'&Hr&Hf); [lia|lia|]. rewrite Ew.
    eexists. split; [done|]. unfold xferbuf_read, xferbuf_malloc_read. cbn [xb_data xb_len].
    split; [lia|]. split; [done|]. split; [|split].
    + rewrite (proj2 (Z.ltb_ge _ _)), (proj2 (Z.ltb_ge _ _)) by lia. cbn [orb]. by rewrite Hr.
    + intros o n H1 H2 H3 H4. rewrite !(proj2 (Z.ltb_ge _ _)) by lia. cbn [orb].
      rewrite Hf by lia. by rewrite Hdat, mem_read_app by lia.
    + intros o n H1 H2 H3. destruct (Z.ltb_spec (xb_len xb1) o); [done|].
      by rewrite (proj2 (Z.ltb_lt _ n)) by lia.
  - assert (E : uwrap (size_bits a) (offset + zlen data) = offset + zlen data - 2 ^ size_bits a).
    { unfold uwrap. symmetry. apply (Z.mod_unique _ _ 1); lia. }
    rewrite E. by rewrite (proj2 (Z.ltb_lt _ offset)) by lia.
Qed.

Lemma xferbuf_write_correct_witness :
  exists xb', xferbuf_write Arch32 true [7] (XferBuffer [1; 2] 2 0) 4 [9; 9] = Some (xb', Ok ())
    /\ xb_ok xb' /\ xb_len xb' = 6 /\ xferbuf_read xb' 4 2 = Some (Ok [9; 9])
    /\ (forall o n, 0 <= o -> 0 <= n -> o + n <= 2 -> o + n <= 4 \/ 6 <= o ->
         xferbuf_read xb' o n = xferbuf_read (XferBuffer [1; 2] 2 0) o n)
    /\ (forall o n, 0 <= o -> 0 <= n -> xb_len xb' < o + n -> xferbuf_read xb' o n = Some (Err ENOENT)).
Proof.
  apply (xferbuf_write_correct Arch32 [7] (XferBuffer [1; 2] 2 0) 4 [9; 9]);
    [reflexivity|vm_compute; split; discriminate || done|vm_compute; done].
Defined.
