(* ===== verification/Retry.v ===== *)
(** * Retry timers ([net/retry.c], [include/ipxe/retry.h])

    The timers of the system are identified by numbers; the state is the
    timer structures and the list of running timers (head first).  [now] is the
    value of [currticks()].  An expiry callback acts on this module by starting
    and stopping timers, and is modelled by the list of those calls.  [None] is
    a reference to a timer that does not exist. *)

From stdpp Require Import gmap.
From S2P Require Import Prelude.

Definition TICKS_PER_SEC : Z := 1024.
Definition DEFAULT_MIN_TIMEOUT : Z := TICKS_PER_SEC / 4.
Definition DEFAULT_MAX_TIMEOUT : Z := 10 * TICKS_PER_SEC.
Definition MIN_TIMEOUT : Z := 7.

Record retry_timer := Timer {
  running : bool;
  timeout : Z;
  t_min : Z;
  t_max : Z;
  start : Z;
  count : Z
}.

Record retry_state := RetryState {
  timer : gmap nat retry_timer;
  timers : list nat
}.

Definition set_timer_limits (t : retry_timer) (min max : Z) : retry_timer :=
  Timer (running t) (timeout t) min max (start t) (count t).

Section Ops.
Context (a : arch).

Definition ulong (z : Z) : Z := uwrap (size_bits a) z.

Definition start_timer_fixed (now : Z) (s : retry_state) (id : nat) (n : Z) : option retry_state :=
  opt! t := timer s !! id in
  let list := if running t then timers s else id :: timers s in
  Some (RetryState (<[id := Timer true n (t_min t) (t_max t) now (count t)]> (timer s)) list).

(** The timeout [start_timer] uses. *)
Definition start_timeout (t : retry_timer) : Z :=
  let min := if negb (t_min t =? 0) then t_min t else DEFAULT_MIN_TIMEOUT in
  let min := if min <? MIN_TIMEOUT then MIN_TIMEOUT else min in
  if timeout t <? min then min else timeout t.

Definition start_timer (now : Z) (s : retry_state) (id : nat) : option retry_state :=
  opt! t := timer s !! id in
  start_timer_fixed now s id (start_timeout t).

(** [list_del] of one entry. *)
Definition list_del (id : nat) (l : list nat) : list nat := filter (fun x => x <> id) l.

(** The timer after [stop_timer] at time [now]. *)
Definition stopped (now : Z) (t : retry_timer) : retry_timer :=
  let runtime := ulong (now - start t) in
  if negb (count t =? 0) then
    Timer false (timeout t) (t_min t) (t_max t) (start t) (u32 (count t - 1))
  else
    let timeout' := ulong (timeout t - Z.shiftr (timeout t) 3) in
    let timeout' := ulong (timeout' + Z.shiftr runtime 1) in
    Timer false timeout' (t_min t) (t_max t) (start t) (count t).

Definition stop_timer (now : Z) (s : retry_state) (id : nat) : option retry_state :=
  opt! t := timer s !! id in
  if negb (running t) then Some s
  else Some (RetryState (<[id := stopped now t]> (timer s)) (list_del id (timers s))).

(** The calls a callback makes. *)
Inductive timer_op :=
| OpStart (id : nat)
| OpStartFixed (id : nat) (n : Z)
| OpStop (id : nat).

Definition run_op (now : Z) (s : retry_state) (op : timer_op) : option retry_state :=
  match op with
  | OpStart id => start_timer now s id
  | OpStartFixed id n => start_timer_fixed now s id n
  | OpStop id => stop_timer now s id
  end.

Fixpoint run_ops (now : Z) (s : retry_state) (ops : list timer_op) : option retry_state :=
  match ops with
  | [] => Some s
  | op :: ops' => opt! s := run_op now s op in run_ops now s ops'
  end.

(** The timer after its expiry, and the failure indicator. *)
Definition backed_off (t : retry_timer) : retry_timer * bool :=
  let max := if negb (t_max t =? 0) then t_max t else DEFAULT_MAX_TIMEOUT in
  let timeout' := ulong (Z.shiftl (timeout t) 1) in
  let fail := max <? timeout' in
  (Timer false (if fail then max else timeout') (t_min t) (t_max t) (start t) (u32 (count t + 1)), fail).

Definition timer_expired (now : Z) (expired : nat -> bool -> list timer_op) (s : retry_state) (id : nat)
  : option retry_state :=
  opt! t := timer s !! id in
  let '(t, fail) := backed_off t in
  let s := RetryState (<[id := t]> (timer s)) (list_del id (timers s)) in
  run_ops now s (expired id fail).

(** At most one timer of the list expires per poll. *)
Fixpoint first_due (now : Z) (s : retry_state) (l : list nat) : option (option nat) :=
  match l with
  | [] => Some None
  | id :: l' =>
      opt! t := timer s !! id in
      if timeout t <=? ulong (now - start t) then Some (Some id) else first_due now s l'
  end.

Definition retry_poll (now : Z) (expired : nat -> bool -> list timer_op) (s : retry_state)
  : option retry_state :=
  opt! due := first_due now s (timers s) in
  match due with
  | Some id => timer_expired now expired s id
  | None => Some s
  end.

(** ** Executions *)

Inductive retry_step : retry_state -> retry_state -> Prop :=
| step_op now op s s' : run_op now s op = Some s' -> retry_step s s'
| step_poll now expired s s' : retry_poll now expired s = Some s' -> retry_step s s'.

(** The list of running timers has no duplicates and holds exactly the
    timers marked as running. *)
Definition retry_wf (s : retry_state) : Prop :=
  NoDup (timers s)
  /\ forall id, id ∈ timers s <-> exists t, timer s !! id = Some t /\ running t = true.

Definition idle (s : retry_state) : Prop :=
  timers s = [] /\ forall id t, timer s !! id = Some t -> running t = false.
End Ops.

(** ** Well-formedness *)

Lemma idle_wf s : idle s -> retry_wf s.
Proof.
  intros [Hl Hr]. split; rewrite Hl; [constructor|]. intros id. split; [by intros ?%not_elem_of_nil|].
  intros (t&Ht&E). by rewrite (Hr id t Ht) in E.
Qed.

(** Replacing a timer structure and the list entry together. *)
Lemma wf_update s id t l :
  retry_wf s -> NoDup l ->
  (forall x, x ∈ l <-> if decide (x = id) then running t = true else x ∈ timers s) ->
  retry_wf (RetryState (<[id := t]> (timer s)) l).
Proof.
  intros [_ Hin] Hnd Hl. split; [done|]. cbn [timer timers]. intros x. rewrite Hl.
  destruct (decide (x = id)) as [->|Hne].
  - rewrite lookup_insert_eq. split; [by exists t|]. by intros (t'&[= ->]&?).
  - rewrite lookup_insert_ne by done. apply Hin.
Qed.

Lemma start_fixed_wf now s id n s' :
  retry_wf s -> start_timer_fixed now s id n = Some s' -> retry_wf s'.
Proof.
  intros Hwf. pose proof Hwf as [Hnd Hin]. unfold start_timer_fixed.
  destruct (timer s !! id) as [t|] eqn:Et; [|done]. intros [= <-].
  assert (Hid : id ∈ timers s <-> running t = true).
  { rewrite Hin, Et. split; [by intros (?&[= <-]&?)|by exists t]. }
  destruct (running t) eqn:Er; apply wf_update; cbn [running]; try done.
  - intros x. case_decide; [subst; tauto|done].
  - constructor; [|done]. rewrite Hid. done.
  - intros x. rewrite elem_of_cons. case_decide as Hx; [tauto|]. split; [by intros [->|]|by right].
Qed.

Lemma list_del_wf s id t :
  retry_wf s -> running t = false -> retry_wf (RetryState (<[id := t]> (timer s)) (list_del id (timers s))).
Proof.
  intros Hwf Hr. pose proof Hwf as [Hnd _]. apply wf_update; [done|by apply NoDup_filter|].
  intros x. unfold list_del. rewrite list_elem_of_filter. case_decide as Hx; [|tauto].
  rewrite Hr. split; [by intros []|done].
Qed.

Lemma run_op_wf a now s op s' : retry_wf s -> run_op a now s op = Some s' -> retry_wf s'.
Proof.
  intros Hwf. destruct op as [id|id n|id]; cbn [run_op].
  - unfold start_timer. destruct (timer s !! id); [|done]. by apply start_fixed_wf.
  - by apply start_fixed_wf.
  - unfold stop_timer. destruct (timer s !! id) as [t|]; [|done].
    destruct (running t); cbn [negb]; intros [= <-]; [|done].
    apply list_del_wf; [done|]. unfold stopped. by destruct (negb (count t =? 0)).
Qed.

Lemma run_ops_wf a now ops s s' : retry_wf s -> run_ops a now s ops = Some s' -> retry_wf s'.
Proof.
  revert s. induction ops as [|op ops IH]; intros s Hwf; cbn [run_ops]; [by intros [= <-]|].
  destruct (run_op a now s op) as [s1|] eqn:E; [|done]. by apply IH, (run_op_wf a now s op).
Qed.

Lemma retry_step_wf a s s' : retry_wf s -> retry_step a s s' -> retry_wf s'.
Proof.
  intros Hwf Hstep. inversion Hstep as [now op ? ? E|now expired ? ? E]; subst; [by eapply run_op_wf|].
  unfold retry_poll in E. destruct (first_due a now s (timers s)) as [[id|]|]; [|by injection E as <-|done].
  unfold timer_expired in E. destruct (timer s !! id) as [t|]; [|done].
  destruct (backed_off a t) as [t' fail] eqn:Eb. eapply run_ops_wf; [|exact E]. apply list_del_wf; [done|].
  unfold backed_off in Eb. by injection Eb as <- _.
Qed.

(** Every running timer exists, so that a poll always succeeds until its
    callback runs. *)
Lemma first_due_total a now s l :
  (forall id, id ∈ l -> is_Some (timer s !! id)) ->
  exists due, first_due a now s l = Some due
    /\ match due with
       | Some id => exists l1 l2 t, l = l1 ++ id :: l2 /\ timer s !! id = Some t
           /\ timeout t <= ulong a (now - start t)
           /\ forall x t', x ∈ l1 -> timer s !! x = Some t' -> ulong a (now - start t') < timeout t'
       | None => forall x t', x ∈ l -> timer s !! x = Some t' -> ulong a (now - start t') < timeout t'
       end.
Proof.
  induction l as [|id l IH]; intros Hl; cbn [first_due].
  - eexists. split; [done|]. by intros x t' ?%not_elem_of_nil.
  - destruct (Hl id) as [t Et]; [by left|]. rewrite Et. destruct (Z.leb_spec (timeout t) (ulong a (now - start t))).
    + eexists. split; [done|]. exists [], l, t. repeat split; try done. by intros x t' ?%not_elem_of_nil.
    + destruct IH as (due&E&Hdue); [intros x Hx; apply Hl; by right|]. exists due. split; [done|].
      destruct due as [id'|].
      * destruct Hdue as (l1&l2&t'&->&Et'&Hdue&Hbefore). exists (id :: l1), l2, t'. repeat split; try done.
        intros x tx [->|Hx]%elem_of_cons; [intros E'; rewrite E' in Et; by injection Et as ->|by apply Hbefore].
      * intros x tx [->|Hx]%elem_of_cons; [intros E'; rewrite E' in Et; by injection Et as ->|by apply Hdue].
Qed.

(** In every execution of timer starts, stops and polls (with arbitrary
    callbacks) from the state where no timer runs, the list of running timers
    has no duplicates and holds exactly the timers marked running; and a poll
    then picks precisely the first timer of the list whose timeout has passed,
    or none if there is none. *)
Theorem retry_reachable a s0 s now :
  idle s0 -> rtc (retry_step a) s0 s ->
  retry_wf s
  /\ exists due, first_due a now s (timers s) = Some due
     /\ match due with
        | Some id => exists l1 l2 t, timers s = l1 ++ id :: l2 /\ timer s !! id = Some t
            /\ timeout t <= ulong a (now - start t)
            /\ forall x t', x ∈ l1 -> timer s !! x = Some t' -> ulong a (now - start t') < timeout t'
        | None => forall x t', x ∈ timers s -> timer s !! x = Some t' -> ulong a (now - start t') < timeout t'
        end.
Proof.
  intros Hidle Hsteps.
  assert (Hwf : retry_wf s).
  { apply idle_wf in Hidle. induction Hsteps as [|s1 s2 s3 Hs _ IH]; [done|]. by apply IH, (retry_step_wf a s1). }
  split; [done|]. apply first_due_total. intros id Hid. apply Hwf in Hid as (t&->&_). done.
Qed.

Definition demo_timer : retry_timer := Timer false 0 0 0 0 0.
Definition demo_timers : retry_state := RetryState {[ 1%nat := demo_timer; 2%nat := demo_timer ]} [].
Definition demo_running : retry_state :=
  RetryState {[ 1%nat := demo_timer; 2%nat := Timer true 256 0 0 1000 0 ]} [2%nat].

(** Timer 2 is started at time 1000 and is due at time 1300. *)
Lemma retry_reachable_witness :
  retry_wf demo_running
  /\ exists due, first_due Arch32 1300 demo_running (timers demo_running) = Some due
     /\ match due with
        | Some id => exists l1 l2 t, timers demo_running = l1 ++ id :: l2 /\ timer demo_running !! id = Some t
            /\ timeout t <= ulong Arch32 (1300 - start t)
            /\ forall x t', x ∈ l1 -> timer demo_running !! x = Some t' -> ulong Arch32 (1300 - start t') < timeout t'
        | None => forall x t', x ∈ timers demo_running -> timer demo_running !! x = Some t' ->
            ulong Arch32 (1300 - start t') < timeout t'
        end.
Proof.
  apply (retry_reachable Arch32 demo_timers demo_running 1300).
  - split; [reflexivity|]. intros id t Ht. unfold demo_timers in Ht. cbn [timer] in Ht.
    apply lookup_insert_Some in Ht as [[_ <-]|[_ Ht]]; [reflexivity|].
    apply lookup_singleton_Some in Ht as [_ <-]. reflexivity.
  - apply rtc_once. apply (step_op Arch32 1000 (OpStart 2)). vm_compute. reflexivity.
Defined.

(** ** Timeout arithmetic *)

(** Timeout values: a start uses at least the minimum (and at least
    [MIN_TIMEOUT]); a stop without retries smooths the timeout to 7t/8 + r/2
    and, as the source's comment says, never brings it below seven ticks; an
    expiry doubles the timeout up to the maximum and reports failure exactly
    when the maximum is exceeded. *)
Theorem timeout_arithmetic a t now :
  0 <= timeout t < 2 ^ 30 -> 0 <= start t <= now -> now < 2 ^ 30 -> 0 <= t_min t -> 0 <= t_max t ->
  (MIN_TIMEOUT <= start_timeout t /\ t_min t <= start_timeout t /\ timeout t <= start_timeout t)
  /\ (count t = 0 ->
        timeout (stopped a now t) = timeout t - timeout t / 8 + (now - start t) / 2
        /\ (MIN_TIMEOUT <= timeout t -> MIN_TIMEOUT <= timeout (stopped a now t)))
  /\ let '(t', fail) := backed_off a t in
     let max := if t_max t =? 0 then DEFAULT_MAX_TIMEOUT else t_max t in
     timeout t' = Z.min (2 * timeout t) max /\ (fail = true <-> max < 2 * timeout t).
Proof.
  intros Ht Hs Hnow Hmin Hmax.
  assert (Hsz : 2 ^ 32 <= 2 ^ size_bits a) by (apply Z.pow_le_mono_r; [lia|destruct a; vm_compute; discriminate]).
  split; [|split].
  - unfold start_timeout, MIN_TIMEOUT. change DEFAULT_MIN_TIMEOUT with 256.
    destruct (Z.eqb_spec (t_min t) 0); cbn [negb]; repeat case_if; lia.
  - intros Hc. unfold stopped, ulong, MIN_TIMEOUT. rewrite Hc. change (negb (0 =? 0)) with false. cbv iota. cbn [timeout].
    rewrite !Z.shiftr_div_pow2 by lia. change (2 ^ 3) with 8. change (2 ^ 1) with 2.
    rewrite (uwrap_small (size_bits a) (now - start t)) by lia.
    rewrite (uwrap_small (size_bits a) (timeout t - _)) by (Z.div_mod_to_equations; lia).
    rewrite uwrap_small by (Z.div_mod_to_equations; lia). split; [done|]. Z.div_mod_to_equations; lia.
  - unfold backed_off, ulong. rewrite Z.shiftl_mul_pow2 by lia. change (2 ^ 1) with 2.
    rewrite uwrap_small by lia. cbn [timeout]. change DEFAULT_MAX_TIMEOUT with 10240.
    destruct (Z.eqb_spec (t_max t) 0); cbn [negb].
    + destruct (Z.ltb_spec 10240 (timeout t * 2)); split; lia || (split; [lia|done]).
    + destruct (Z.ltb_spec (t_max t) (timeout t * 2)); split; lia || (split; [lia|done]).
Qed.

Lemma timeout_arithmetic_witness :
  timeout (stopped Arch32 1100 (Timer true 400 0 0 1000 0)) = 400 - 400 / 8 + (1100 - 1000) / 2
  /\ (MIN_TIMEOUT <= 400 -> MIN_TIMEOUT <= timeout (stopped Arch32 1100 (Timer true 400 0 0 1000 0))).
Proof.
  apply (timeout_arithmetic Arch32 (Timer true 400 0 0 1000 0) 1100); [cbn; lia..|reflexivity].
Defined.
