(* ===== verification/Tcpip.v ===== *)
(** * TCP/IP checksum and port binding ([net/tcpip.c])

    The host is little-endian: bytes at even offsets are the low halves of the
    16-bit words that are summed. *)

From S2P Require Import Prelude.

(** ** Checksum *)

Fixpoint chksum_loop (odd : bool) (cksum : Z) (data : list Z) : Z :=
  match data with
  | [] => cksum
  | b :: data' =>
      let value := if odd then Z.shiftl b 8 else b in
      let cksum := u32 (cksum + value) in
      let cksum := if 0xffff <? cksum then cksum - 0xffff else cksum in
      chksum_loop (negb odd) cksum data'
  end.

Definition not16 (x : Z) : Z := u16 (Z.lnot x).

Definition generic_tcpip_continue_chksum (partial : Z) (data : list Z) : Z :=
  let cksum := Z.land (Z.lnot partial) 0xffff in
  not16 (chksum_loop false cksum data).

Definition TCPIP_EMPTY_CSUM : Z := 0.

(** Link-layer and network-layer headers. *)
Definition MAX_LL_NET_HEADER_LEN : Z := 64 + 40.

Definition tcpip_chksum (data : list Z) : Z := generic_tcpip_continue_chksum TCPIP_EMPTY_CSUM data.

(** ** Binding to a local port *)

Definition TCPIP_BIND_PRIVILEGED : Z := 0x0400.

(** [available] is the callback: a port, or a (negative) error. *)
Fixpoint bind_loop (fuel : nat) (available : Z -> res Z) (min_port max_port offset i : Z) : res Z :=
  match fuel with
  | O => Err EADDRINUSE
  | S fuel' =>
      if i <=? max_port then
        let try_port := Z.land (u32 (i + offset)) max_port in
        if try_port <? min_port then bind_loop fuel' available min_port max_port offset (i + 1)
        else match available try_port with
             | Err _ => bind_loop fuel' available min_port max_port offset (i + 1)
             | Ok _ => Ok try_port
             end
      else Err EADDRINUSE
  end.

(** [st_local] is the flags and port of the local address, if any; [random]
    is the value of [random()].  At most 65536 ports are tried. *)
Definition tcpip_bind (available : Z -> res Z) (random : Z) (st_local : option (Z * Z)) : res Z :=
  let '(flags, try_port) := match st_local with Some (f, p) => (f, p) | None => (0, 0) end in
  if negb (try_port =? 0) then available try_port
  else
    let min_port := u16 (Z.land (Z.lnot flags) TCPIP_BIND_PRIVILEGED + 1) in
    let max_port := u16 (Z.land flags TCPIP_BIND_PRIVILEGED - 1) in
    bind_loop (Z.to_nat (max_port + 2)) available min_port max_port (u32 random) 0.

(** ** Checksum correctness *)

(** The plain sum of the little-endian words of the data. *)
Fixpoint word_sum (odd : bool) (data : list Z) : Z :=
  match data with
  | [] => 0
  | b :: data' => (if odd then b * 256 else b) + word_sum (negb odd) data'
  end.

Lemma word_sum_nonneg odd data : bytes_ok data -> 0 <= word_sum odd data.
Proof.
  revert odd. induction data as [|b data IH]; intros odd Hb; cbn [word_sum]; [lia|].
  apply Forall_cons in Hb as [Hb Hd]. specialize (IH (negb odd) Hd). unfold byte_ok in Hb. destruct odd; lia.
Qed.

(** The loop computes the one's complement sum: the representative of the sum
    modulo 65535 that is zero only when nothing but zeros was added. *)
Lemma chksum_loop_spec odd c data :
  0 <= c <= 0xffff -> bytes_ok data ->
  0 <= chksum_loop odd c data <= 0xffff
  /\ (chksum_loop odd c data - (c + word_sum odd data)) mod 0xffff = 0
  /\ (chksum_loop odd c data = 0 <-> c + word_sum odd data = 0).
Proof.
  revert odd c. induction data as [|b data IH]; intros odd c Hc Hb; cbn [chksum_loop word_sum].
  - rewrite Z.add_0_r, Z.sub_diag. done.
  - apply Forall_cons in Hb as [Hb Hd]. unfold byte_ok in Hb.
    assert (Hv : (if odd then Z.shiftl b 8 else b) = (if odd then b * 256 else b))
      by (destruct odd; [by rewrite Z.shiftl_mul_pow2 by lia|done]).
    rewrite Hv. set (v := if odd then b * 256 else b).
    assert (Hvr : 0 <= v <= 65280) by (subst v; destruct odd; lia).
    rewrite uwrap_small by lia.
    pose proof (word_sum_nonneg (negb odd) data Hd) as Hw.
    destruct (Z.ltb_spec 0xffff (c + v)) as [Hgt|Hle].
    + destruct (IH (negb odd) (c + v - 0xffff) ltac:(lia) Hd) as (H1&H2&H3). split; [done|].
      set (r := chksum_loop (negb odd) (c + v - 65535) data) in *. split.
      * apply Z.mod_divide in H2; [|lia]. apply Z.mod_divide; [lia|]. destruct H2 as [q Hq]. exists (q - 1). lia.
      * lia.
    + destruct (IH (negb odd) (c + v) ltac:(lia) Hd) as (H1&H2&H3). split; [done|]. rewrite Z.add_assoc. done.
Qed.

Lemma chksum_loop_app odd c x y :
  chksum_loop odd c (x ++ y)
  = chksum_loop (if Nat.even (length x) then odd else negb odd) (chksum_loop odd c x) y.
Proof.
  revert odd c. induction x as [|b x IH]; intros odd c; [done|]. cbn [app chksum_loop length]. rewrite IH.
  rewrite Nat.even_succ, <- Nat.negb_even. destruct (Nat.even (length x)), odd; done.
Qed.

Lemma word_sum_app odd x y :
  word_sum odd (x ++ y) = word_sum odd x + word_sum (if Nat.even (length x) then odd else negb odd) y.
Proof.
  revert odd. induction x as [|b x IH]; intros odd; [done|]. cbn [app word_sum length]. rewrite IH.
  rewrite Nat.even_succ, <- Nat.negb_even. destruct (Nat.even (length x)), odd; cbn [negb]; lia.
Qed.

Lemma not16_spec x : 0 <= x <= 0xffff -> not16 x = 0xffff - x.
Proof.
  intros Hx. unfold not16, uwrap. unfold Z.lnot. symmetry. apply (Z.mod_unique _ _ (-1)); lia.
Qed.

Lemma partial_spec x : 0 <= x <= 0xffff -> Z.land (Z.lnot x) 0xffff = 0xffff - x.
Proof.
  intros Hx. change 0xffff with (2 ^ 16 - 1) at 1. rewrite land_ones_mod by lia.
  unfold Z.lnot. symmetry. apply (Z.mod_unique _ _ (-1)); lia.
Qed.

(** A packet whose checksum field holds the checksum of the packet with the
    field zeroed has checksum zero. *)
Lemma tcpip_chksum_verifies x y :
  bytes_ok x -> bytes_ok y -> Nat.even (length x) = true ->
  let csum := tcpip_chksum (x ++ 0 :: 0 :: y) in
  0 <= csum <= 0xffff /\ tcpip_chksum (x ++ csum mod 256 :: csum / 256 :: y) = 0.
Proof.
  intros Hx Hy He. unfold tcpip_chksum, generic_tcpip_continue_chksum, TCPIP_EMPTY_CSUM.
  rewrite (partial_spec 0) by lia. change (0xffff - 0) with 0xffff. cbv zeta.
  set (z := x ++ 0 :: 0 :: y).
  assert (Hz : bytes_ok z) by (subst z; apply Forall_app; split; [done|]; repeat (constructor; [unfold byte_ok; lia|]); done).
  destruct (chksum_loop_spec false 0xffff z ltac:(lia) Hz) as (S1&S2&S3). set (s := chksum_loop false 0xffff z) in *.
  rewrite (not16_spec s) by lia. set (csum := 0xffff - s). assert (Hcs : 0 <= csum <= 65535) by (subst csum; lia).
  set (z' := x ++ csum mod 256 :: csum / 256 :: y).
  assert (Hz' : bytes_ok z').
  { subst z'. apply Forall_app. split; [done|]. repeat (constructor; [unfold byte_ok; Z.div_mod_to_equations; lia|]). done. }
  destruct (chksum_loop_spec false 0xffff z' ltac:(lia) Hz') as (T1&T2&T3). set (s' := chksum_loop false 0xffff z') in *.
  rewrite not16_spec by lia.
  assert (Ew : word_sum false z' = word_sum false z + csum).
  { subst z z'. rewrite !word_sum_app, He. cbn [word_sum negb]. Z.div_mod_to_equations. lia. }
  rewrite Ew in T2, T3. pose proof (word_sum_nonneg false z Hz).
  apply Z.mod_divide in S2; [|lia]. apply Z.mod_divide in T2; [|lia]. destruct S2 as [q1 S2], T2 as [q2 T2].
  subst csum. assert (s' = 65535 * (q2 + 1 - q1)) as Es by lia.
  assert (0 < s') by lia. nia.
Qed.

(** The TCP/IP checksum: it is never the negative zero 0xffff, whatever
    the data; summing two blocks in turn, the first of even length, is summing
    their concatenation; and storing the checksum of a packet into its zeroed
    checksum field (at an even offset) makes the checksum of the packet zero,
    which is how a receiver verifies it. *)
Theorem tcpip_chksum_correct x y :
  bytes_ok x -> bytes_ok y -> Nat.even (length x) = true ->
  tcpip_chksum (x ++ y) <> 0xffff
  /\ generic_tcpip_continue_chksum (tcpip_chksum x) y = tcpip_chksum (x ++ y)
  /\ let csum := tcpip_chksum (x ++ 0 :: 0 :: y) in
     tcpip_chksum (x ++ csum mod 256 :: csum / 256 :: y) = 0.
Proof.
  intros Hx Hy He. unfold tcpip_chksum, generic_tcpip_continue_chksum, TCPIP_EMPTY_CSUM.
  rewrite (partial_spec 0) by lia. change (0xffff - 0) with 0xffff.
  assert (Hxy : bytes_ok (x ++ y)) by (apply Forall_app; done).
  split; [|split].
  - destruct (chksum_loop_spec false 0xffff (x ++ y) ltac:(lia) Hxy) as (H1&_&H3).
    rewrite not16_spec by lia. pose proof (word_sum_nonneg false (x ++ y) Hxy). intros E. lia.
  - destruct (chksum_loop_spec false 0xffff x ltac:(lia) Hx) as (H1&_&_).
    rewrite (not16_spec (chksum_loop false 65535 x)), partial_spec by lia. rewrite chksum_loop_app, He.
    do 2 f_equal. lia.
  - by apply tcpip_chksum_verifies.
Qed.

Lemma tcpip_chksum_correct_witness :
  tcpip_chksum ([0x45; 0x00] ++ [0x12; 0x34; 0xff]) <> 0xffff
  /\ generic_tcpip_continue_chksum (tcpip_chksum [0x45; 0x00]) [0x12; 0x34; 0xff]
     = tcpip_chksum ([0x45; 0x00] ++ [0x12; 0x34; 0xff])
  /\ let csum := tcpip_chksum ([0x45; 0x00] ++ 0 :: 0 :: [0x12; 0x34; 0xff]) in
     tcpip_chksum ([0x45; 0x00] ++ csum mod 256 :: csum / 256 :: [0x12; 0x34; 0xff]) = 0.
Proof. apply (tcpip_chksum_correct [0x45; 0x00] [0x12; 0x34; 0xff]); [solve_bytes|solve_bytes|reflexivity]. Defined.

(** ** Binding correctness *)

Lemma bind_loop_spec available min_port max_port offset fuel i :
  (Z.to_nat (max_port + 1 - i) < fuel)%nat -> 0 <= i ->
  let port j := Z.land (u32 (j + offset)) max_port in
  match bind_loop fuel available min_port max_port offset i with
  | Ok p => (exists j, i <= j <= max_port /\ p = port j) /\ min_port <= p /\ exists r, available p = Ok r
  | Err e => e = EADDRINUSE
             /\ forall j, i <= j <= max_port -> min_port <= port j -> exists e', available (port j) = Err e'
  end.
Proof.
  intros Hf Hi port. revert i Hf Hi. induction fuel as [|fuel IH]; intros i Hf Hi; [lia|]. cbn [bind_loop].
  destruct (Z.leb_spec i max_port) as [Hle|Hgt]; [|split; [done|intros; lia]].
  fold (port i). specialize (IH (i + 1) ltac:(lia) ltac:(lia)).
  assert (Hstep : (min_port <= port i -> exists e', available (port i) = Err e') ->
    match bind_loop fuel available min_port max_port offset (i + 1) with
    | Ok p => (exists j, i <= j <= max_port /\ p = port j) /\ min_port <= p /\ exists r, available p = Ok r
    | Err e => e = EADDRINUSE
             /\ forall j, i <= j <= max_port -> min_port <= port j -> exists e', available (port j) = Err e'
    end).
  { intros Hnow. destruct (bind_loop fuel available min_port max_port offset (i + 1)) as [p|e].
    - destruct IH as ((j&Hj&->)&Hm&Hr). split; [exists j; split; [lia|done]|done].
    - destruct IH as (He&Hall). split; [done|]. intros j Hj Hm. destruct (Z.eq_dec j i) as [->|]; [by apply Hnow|].
      apply Hall; [lia|done]. }
  destruct (Z.ltb_spec (port i) min_port) as [Hlow|Hok]; [apply Hstep; lia|].
  destruct (available (port i)) as [r|e'] eqn:Ea; [|apply Hstep; intros _; by exists e'].
  split; [exists i; split; [lia|done]|]. split; [done|]. by exists r.
Qed.

(** The ports tried cover the whole range, wherever the search starts. *)
Lemma ports_cover k offset p : 0 <= k <= 32 -> 0 <= offset -> 0 <= p < 2 ^ k ->
  exists j, 0 <= j <= 2 ^ k - 1 /\ Z.land (u32 (j + offset)) (2 ^ k - 1) = p.
Proof.
  intros Hk Ho Hp. exists ((p - offset) mod 2 ^ k). pose proof (pow2_pos k ltac:(lia)).
  pose proof (Z.mod_pos_bound (p - offset) (2 ^ k) ltac:(lia)). split; [lia|].
  rewrite land_ones_mod by lia. unfold uwrap. rewrite mod_mod_pow2 by lia.
  rewrite Z.add_mod_idemp_l by lia. replace (p - offset + offset) with p by lia. by apply Z.mod_small.
Qed.

(** [tcpip_bind] without an explicit port returns a port that is
    available and lies in 1025-65535, or in 1-1023 when a privileged port is
    requested, whatever the random starting point; it fails with
    [-EADDRINUSE] only if no port of that range is available. *)
Theorem tcpip_bind_correct available random flags (privileged : bool) :
  flags = (if privileged then TCPIP_BIND_PRIVILEGED else 0) ->
  let lo := if privileged then 1 else 1025 in
  let hi := if privileged then 1023 else 65535 in
  match tcpip_bind available random (Some (flags, 0)) with
  | Ok p => lo <= p <= hi /\ exists r, available p = Ok r
  | Err e => e = EADDRINUSE /\ forall p, lo <= p <= hi -> exists e', available p = Err e'
  end.
Proof.
  intros -> lo hi. unfold tcpip_bind. change (negb (0 =? 0)) with false. cbv iota.
  set (k := if privileged then 10 else 16).
  assert (Emin : u16 (Z.land (Z.lnot (if privileged then TCPIP_BIND_PRIVILEGED else 0)) TCPIP_BIND_PRIVILEGED + 1) = lo)
    by (destruct privileged; reflexivity).
  assert (Emax : u16 (Z.land (if privileged then TCPIP_BIND_PRIVILEGED else 0) TCPIP_BIND_PRIVILEGED - 1) = 2 ^ k - 1)
    by (destruct privileged; reflexivity).
  assert (Hhi : hi = 2 ^ k - 1) by (destruct privileged; reflexivity).
  assert (Hlo : 1 <= lo) by (subst lo; destruct privileged; lia).
  assert (Hk : 0 <= k <= 32) by (subst k; destruct privileged; lia).
  rewrite Emin, Emax. pose proof (uwrap_range 32 random ltac:(lia)) as Hoff.
  pose proof (pow2_pos k ltac:(lia)).
  pose proof (bind_loop_spec available lo (2 ^ k - 1) (u32 random) (Z.to_nat (2 ^ k - 1 + 2)) 0 ltac:(lia) ltac:(lia)) as Hl.
  cbv zeta in Hl. destruct (bind_loop _ available lo _ _ 0) as [p|e].
  - destruct Hl as ((j&Hj&->)&Hm&Hr). split; [|done]. rewrite land_ones_mod in * by lia.
    pose proof (Z.mod_pos_bound (u32 (j + u32 random)) (2 ^ k) ltac:(lia)). lia.
  - destruct Hl as [He Hall]. split; [done|]. intros p Hp.
    destruct (ports_cover k (u32 random) p ltac:(lia) ltac:(lia) ltac:(lia)) as (j&Hj&E).
    specialize (Hall j ltac:(lia)). rewrite E in Hall. apply Hall. lia.
Qed.

(** Every port up to 1500 is in use. *)
Lemma tcpip_bind_correct_witness :
  let available p := if p <=? 1500 then Err EADDRINUSE else Ok p in
  match tcpip_bind available 12345678 (Some (0, 0)) with
  | Ok p => 1025 <= p <= 65535 /\ exists r, available p = Ok r
  | Err e => e = EADDRINUSE /\ forall p, 1025 <= p <= 65535 -> exists e', available p = Err e'
  end.
Proof. apply (tcpip_bind_correct (fun p => if p <=? 1500 then Err EADDRINUSE else Ok p) 12345678 0 false). reflexivity. Defined.
