(* ===== verification/Tcp.v ===== *)
(** * TCP ([net/tcp.c], [include/ipxe/tcp.h])

    A connection is the record [tcp_connection] with the fields of the C
    structure.  The state is the source's bit mask of the flags sent,
    acknowledged and received.  A timer is the flag of whether it runs (Retry.v
    models the timers themselves; their delays play no role here), and a timer
    expires only while it runs.  I/O buffers are lists of bytes.  The last
    four fields observe the connection from outside: whether it was deleted,
    what was handed to [tcpip_tx], what was passed to [xfer_deliver_iob], and
    what the application submitted.

    The rest of the system is a parameter: an [env] gives the answers of the
    calls that one transmission makes, and the application is a function from
    the connection and the delivered data to the calls it makes in return.
    [None] is undefined behaviour: an access outside the packet, or a shift
    count that exceeds the width. *)

From S2P Require Import Prelude Strings Memory Retry Tcpip.

(** ** Constants and state masks ([include/ipxe/tcp.h]) *)

Definition TCP_OPTION_END : Z := 0.
Definition TCP_OPTION_NOP : Z := 1.
Definition TCP_OPTION_MSS : Z := 2.
Definition TCP_OPTION_WS : Z := 3.
Definition TCP_OPTION_SACK_PERMITTED : Z := 4.
Definition TCP_OPTION_SACK : Z := 5.
Definition TCP_OPTION_TS : Z := 8.
Definition TCP_RX_WINDOW_SCALE : Z := 9.
Definition TCP_SACK_MAX : nat := 3.

Definition TCP_ACK : Z := 0x10.
Definition TCP_PSH : Z := 0x08.
Definition TCP_RST : Z := 0x04.
Definition TCP_SYN : Z := 0x02.
Definition TCP_FIN : Z := 0x01.

Definition TCP_STATE_SENT (flags : Z) : Z := flags.
Definition TCP_FLAGS_SENT (state : Z) : Z := Z.land state 0xff.
Definition TCP_STATE_ACKED (flags : Z) : Z := Z.shiftl flags 8.
Definition TCP_FLAGS_ACKED (state : Z) : Z := Z.land (Z.shiftr state 8) 0xff.
Definition TCP_STATE_RCVD (flags : Z) : Z := Z.shiftl flags 16.
Definition TCP_FLAGS_SENDING (state : Z) : Z :=
  Z.land (TCP_FLAGS_SENT state) (Z.lnot (TCP_FLAGS_ACKED state)).

Definition TCP_CLOSED : Z := TCP_RST.
Definition TCP_SYN_SENT : Z := TCP_STATE_SENT TCP_SYN.
Definition TCP_SYN_RCVD : Z := Z.lor (TCP_STATE_SENT (Z.lor TCP_SYN TCP_ACK)) (TCP_STATE_RCVD TCP_SYN).
Definition TCP_ESTABLISHED : Z := Z.lor TCP_SYN_RCVD (TCP_STATE_ACKED TCP_SYN).
Definition TCP_FIN_WAIT_1 : Z :=
  Z.lor (Z.lor (TCP_STATE_SENT (Z.lor (Z.lor TCP_SYN TCP_ACK) TCP_FIN)) (TCP_STATE_ACKED TCP_SYN)) (TCP_STATE_RCVD TCP_SYN).
Definition TCP_FIN_WAIT_2 : Z :=
  Z.lor (Z.lor (TCP_STATE_SENT (Z.lor (Z.lor TCP_SYN TCP_ACK) TCP_FIN)) (TCP_STATE_ACKED (Z.lor TCP_SYN TCP_FIN)))
        (TCP_STATE_RCVD TCP_SYN).
Definition TCP_CLOSING_OR_LAST_ACK : Z :=
  Z.lor (Z.lor (TCP_STATE_SENT (Z.lor (Z.lor TCP_SYN TCP_ACK) TCP_FIN)) (TCP_STATE_ACKED TCP_SYN))
        (TCP_STATE_RCVD (Z.lor TCP_SYN TCP_FIN)).
Definition TCP_TIME_WAIT : Z :=
  Z.lor (Z.lor (TCP_STATE_SENT (Z.lor (Z.lor TCP_SYN TCP_ACK) TCP_FIN)) (TCP_STATE_ACKED (Z.lor TCP_SYN TCP_FIN)))
        (TCP_STATE_RCVD (Z.lor TCP_SYN TCP_FIN)).
Definition TCP_CLOSE_WAIT : Z :=
  Z.lor (Z.lor (TCP_STATE_SENT (Z.lor TCP_SYN TCP_ACK)) (TCP_STATE_ACKED TCP_SYN))
        (TCP_STATE_RCVD (Z.lor TCP_SYN TCP_FIN)).

(** [x & mask] as a condition. *)
Definition has (x mask : Z) : bool := negb (Z.land x mask =? 0).

Definition TCP_CAN_SEND_DATA (state : Z) : bool :=
  Z.land state (Z.lor (TCP_STATE_ACKED TCP_SYN) (TCP_STATE_SENT TCP_FIN)) =? TCP_STATE_ACKED TCP_SYN.
Definition TCP_HAS_BEEN_ESTABLISHED (state : Z) : bool :=
  let m := Z.lor (TCP_STATE_ACKED TCP_SYN) (TCP_STATE_RCVD TCP_SYN) in Z.land state m =? m.
Definition TCP_CLOSED_GRACEFULLY (state : Z) : bool :=
  let m := Z.lor (TCP_STATE_ACKED TCP_FIN) (TCP_STATE_RCVD TCP_FIN) in Z.land state m =? m.

Definition TCP_MASK_HLEN : Z := 0xf0.
Definition TCP_MAX_WINDOW_SIZE : Z := 2048 * 1024.
Definition TCP_PATH_MTU : Z := 1280 - 40 - 20 - 12.
Definition TCP_MAX_HEADER_LEN : Z := MAX_LL_NET_HEADER_LEN + 20 + 4 + 4 + 12.

Definition TCP_XFER_CLOSED : Z := 0x0001.
Definition TCP_TS_ENABLED : Z := 0x0002.
Definition TCP_ACK_PENDING : Z := 0x0004.
Definition TCP_SACK_ENABLED : Z := 0x0008.

Definition tcp_cmp (seq1 seq2 : Z) : Z := swrap 32 (seq1 - seq2).

Definition tcp_in_window (seq start len : Z) : bool := u32 (seq - start) <? len.

(** ** Connections *)

(** A queued packet: the internal header and the data. *)
Record rx_queued := RxQueued { q_seq : Z; q_nxt : Z; q_flags : Z; q_data : list Z }.

#[projections(primitive)] Record tcp_connection := TcpConn {
  conn_flags : Z;
  peer_port : Z;
  local_port : Z;
  mss : Z;
  tcp_state : Z;
  snd_seq : Z;
  snd_sent : Z;
  snd_win : Z;
  rcv_ack : Z;
  rcv_win : Z;
  ts_val : Z;
  ts_recent : Z;
  snd_win_scale : Z;
  rcv_win_scale : Z;
  sack : list (Z * Z);
  tx_queue : list (list Z);
  rx_queue : list rx_queued;
  process : bool;
  timer : bool;
  keepalive : bool;
  wait : bool;
  pending_flags : Z;
  pending_data : Z;
  deleted : bool;
  tx_log : list (list Z);
  rx_log : list (list Z);
  app_log : list (list Z)
}.

Definition set_conn_flags (v : Z) (t : tcp_connection) : tcp_connection :=
  TcpConn v (peer_port t) (local_port t) (mss t) (tcp_state t) (snd_seq t) (snd_sent t) (snd_win t)
    (rcv_ack t) (rcv_win t) (ts_val t) (ts_recent t) (snd_win_scale t) (rcv_win_scale t) (sack t)
    (tx_queue t) (rx_queue t) (process t) (timer t) (keepalive t) (wait t) (pending_flags t)
    (pending_data t) (deleted t) (tx_log t) (rx_log t) (app_log t).
Definition set_tcp_state (v : Z) (t : tcp_connection) : tcp_connection :=
  TcpConn (conn_flags t) (peer_port t) (local_port t) (mss t) v (snd_seq t) (snd_sent t) (snd_win t)
    (rcv_ack t) (rcv_win t) (ts_val t) (ts_recent t) (snd_win_scale t) (rcv_win_scale t) (sack t)
    (tx_queue t) (rx_queue t) (process t) (timer t) (keepalive t) (wait t) (pending_flags t)
    (pending_data t) (deleted t) (tx_log t) (rx_log t) (app_log t).
Definition set_snd_seq (v : Z) (t : tcp_connection) : tcp_connection :=
  TcpConn (conn_flags t) (peer_port t) (local_port t) (mss t) (tcp_state t) v (snd_sent t) (snd_win t)
    (rcv_ack t) (rcv_win t) (ts_val t) (ts_recent t) (snd_win_scale t) (rcv_win_scale t) (sack t)
    (tx_queue t) (rx_queue t) (process t) (timer t) (keepalive t) (wait t) (pending_flags t)
    (pending_data t) (deleted t) (tx_log t) (rx_log t) (app_log t).
Definition set_snd_sent (v : Z) (t : tcp_connection) : tcp_connection :=
  TcpConn (conn_flags t) (peer_port t) (local_port t) (mss t) (tcp_state t) (snd_seq t) v (snd_win t)
    (rcv_ack t) (rcv_win t) (ts_val t) (ts_recent t) (snd_win_scale t) (rcv_win_scale t) (sack t)
    (tx_queue t) (rx_queue t) (process t) (timer t) (keepalive t) (wait t) (pending_flags t)
    (pending_data t) (deleted t) (tx_log t) (rx_log t) (app_log t).
Definition set_snd_win (v : Z) (t : tcp_connection) : tcp_connection :=
  TcpConn (conn_flags t) (peer_port t) (local_port t) (mss t) (tcp_state t) (snd_seq t) (snd_sent t) v
    (rcv_ack t) (rcv_win t) (ts_val t) (ts_recent t) (snd_win_scale t) (rcv_win_scale t) (sack t)
    (tx_queue t) (rx_queue t) (process t) (timer t) (keepalive t) (wait t) (pending_flags t)
    (pending_data t) (deleted t) (tx_log t) (rx_log t) (app_log t).
Definition set_rcv_ack (v : Z) (t : tcp_connection) : tcp_connection :=
  TcpConn (conn_flags t) (peer_port t) (local_port t) (mss t) (tcp_state t) (snd_seq t) (snd_sent t)
    (snd_win t) v (rcv_win t) (ts_val t) (ts_recent t) (snd_win_scale t) (rcv_win_scale t) (sack t)
    (tx_queue t) (rx_queue t) (process t) (timer t) (keepalive t) (wait t) (pending_flags t)
    (pending_data t) (deleted t) (tx_log t) (rx_log t) (app_log t).
Definition set_rcv_win (v : Z) (t : tcp_connection) : tcp_connection :=
  TcpConn (conn_flags t) (peer_port t) (local_port t) (mss t) (tcp_state t) (snd_seq t) (snd_sent t)
    (snd_win t) (rcv_ack t) v (ts_val t) (ts_recent t) (snd_win_scale t) (rcv_win_scale t) (sack t)
    (tx_queue t) (rx_queue t) (process t) (timer t) (keepalive t) (wait t) (pending_flags t)
    (pending_data t) (deleted t) (tx_log t) (rx_log t) (app_log t).
Definition set_ts_val (v : Z) (t : tcp_connection) : tcp_connection :=
  TcpConn (conn_flags t) (peer_port t) (local_port t) (mss t) (tcp_state t) (snd_seq t) (snd_sent t)
    (snd_win t) (rcv_ack t) (rcv_win t) v (ts_recent t) (snd_win_scale t) (rcv_win_scale t) (sack t)
    (tx_queue t) (rx_queue t) (process t) (timer t) (keepalive t) (wait t) (pending_flags t)
    (pending_data t) (deleted t) (tx_log t) (rx_log t) (app_log t).
Definition set_ts_recent (v : Z) (t : tcp_connection) : tcp_connection :=
  TcpConn (conn_flags t) (peer_port t) (local_port t) (mss t) (tcp_state t) (snd_seq t) (snd_sent t)
    (snd_win t) (rcv_ack t) (rcv_win t) (ts_val t) v (snd_win_scale t) (rcv_win_scale t) (sack t)
    (tx_queue t) (rx_queue t) (process t) (timer t) (keepalive t) (wait t) (pending_flags t)
    (pending_data t) (deleted t) (tx_log t) (rx_log t) (app_log t).
Definition set_snd_win_scale (v : Z) (t : tcp_connection) : tcp_connection :=
  TcpConn (conn_flags t) (peer_port t) (local_port t) (mss t) (tcp_state t) (snd_seq t) (snd_sent t)
    (snd_win t) (rcv_ack t) (rcv_win t) (ts_val t) (ts_recent t) v (rcv_win_scale t) (sack t)
    (tx_queue t) (rx_queue t) (process t) (timer t) (keepalive t) (wait t) (pending_flags t)
    (pending_data t) (deleted t) (tx_log t) (rx_log t) (app_log t).
Definition set_rcv_win_scale (v : Z) (t : tcp_connection) : tcp_connection :=
  TcpConn (conn_flags t) (peer_port t) (local_port t) (mss t) (tcp_state t) (snd_seq t) (snd_sent t)
    (snd_win t) (rcv_ack t) (rcv_win t) (ts_val t) (ts_recent t) (snd_win_scale t) v (sack t)
    (tx_queue t) (rx_queue t) (process t) (timer t) (keepalive t) (wait t) (pending_flags t)
    (pending_data t) (deleted t) (tx_log t) (rx_log t) (app_log t).
Definition set_sack (v : list (Z * Z)) (t : tcp_connection) : tcp_connection :=
  TcpConn (conn_flags t) (peer_port t) (local_port t) (mss t) (tcp_state t) (snd_seq t) (snd_sent t)
    (snd_win t) (rcv_ack t) (rcv_win t) (ts_val t) (ts_recent t) (snd_win_scale t) (rcv_win_scale t) v
    (tx_queue t) (rx_queue t) (process t) (timer t) (keepalive t) (wait t) (pending_flags t)
    (pending_data t) (deleted t) (tx_log t) (rx_log t) (app_log t).
Definition set_tx_queue (v : list (list Z)) (t : tcp_connection) : tcp_connection :=
  TcpConn (conn_flags t) (peer_port t) (local_port t) (mss t) (tcp_state t) (snd_seq t) (snd_sent t)
    (snd_win t) (rcv_ack t) (rcv_win t) (ts_val t) (ts_recent t) (snd_win_scale t) (rcv_win_scale t)
    (sack t) v (rx_queue t) (process t) (timer t) (keepalive t) (wait t) (pending_flags t)
    (pending_data t) (deleted t) (tx_log t) (rx_log t) (app_log t).
Definition set_rx_queue (v : list rx_queued) (t : tcp_connection) : tcp_connection :=
  TcpConn (conn_flags t) (peer_port t) (local_port t) (mss t) (tcp_state t) (snd_seq t) (snd_sent t)
    (snd_win t) (rcv_ack t) (rcv_win t) (ts_val t) (ts_recent t) (snd_win_scale t) (rcv_win_scale t)
    (sack t) (tx_queue t) v (process t) (timer t) (keepalive t) (wait t) (pending_flags t)
    (pending_data t) (deleted t) (tx_log t) (rx_log t) (app_log t).
Definition set_process (v : bool) (t : tcp_connection) : tcp_connection :=
  TcpConn (conn_flags t) (peer_port t) (local_port t) (mss t) (tcp_state t) (snd_seq t) (snd_sent t)
    (snd_win t) (rcv_ack t) (rcv_win t) (ts_val t) (ts_recent t) (snd_win_scale t) (rcv_win_scale t)
    (sack t) (tx_queue t) (rx_queue t) v (timer t) (keepalive t) (wait t) (pending_flags t)
    (pending_data t) (deleted t) (tx_log t) (rx_log t) (app_log t).
Definition set_timer (v : bool) (t : tcp_connection) : tcp_connection :=
  TcpConn (conn_flags t) (peer_port t) (local_port t) (mss t) (tcp_state t) (snd_seq t) (snd_sent t)
    (snd_win t) (rcv_ack t) (rcv_win t) (ts_val t) (ts_recent t) (snd_win_scale t) (rcv_win_scale t)
    (sack t) (tx_queue t) (rx_queue t) (process t) v (keepalive t) (wait t) (pending_flags t)
    (pending_data t) (deleted t) (tx_log t) (rx_log t) (app_log t).
Definition set_keepalive (v : bool) (t : tcp_connection) : tcp_connection :=
  TcpConn (conn_flags t) (peer_port t) (local_port t) (mss t) (tcp_state t) (snd_seq t) (snd_sent t)
    (snd_win t) (rcv_ack t) (rcv_win t) (ts_val t) (ts_recent t) (snd_win_scale t) (rcv_win_scale t)
    (sack t) (tx_queue t) (rx_queue t) (process t) (timer t) v (wait t) (pending_flags t)
    (pending_data t) (deleted t) (tx_log t) (rx_log t) (app_log t).
Definition set_wait (v : bool) (t : tcp_connection) : tcp_connection :=
  TcpConn (conn_flags t) (peer_port t) (local_port t) (mss t) (tcp_state t) (snd_seq t) (snd_sent t)
    (snd_win t) (rcv_ack t) (rcv_win t) (ts_val t) (ts_recent t) (snd_win_scale t) (rcv_win_scale t)
    (sack t) (tx_queue t) (rx_queue t) (process t) (timer t) (keepalive t) v (pending_flags t)
    (pending_data t) (deleted t) (tx_log t) (rx_log t) (app_log t).
Definition set_pending_flags (v : Z) (t : tcp_connection) : tcp_connection :=
  TcpConn (conn_flags t) (peer_port t) (local_port t) (mss t) (tcp_state t) (snd_seq t) (snd_sent t)
    (snd_win t) (rcv_ack t) (rcv_win t) (ts_val t) (ts_recent t) (snd_win_scale t) (rcv_win_scale t)
    (sack t) (tx_queue t) (rx_queue t) (process t) (timer t) (keepalive t) (wait t) v (pending_data t)
    (deleted t) (tx_log t) (rx_log t) (app_log t).
Definition set_pending_data (v : Z) (t : tcp_connection) : tcp_connection :=
  TcpConn (conn_flags t) (peer_port t) (local_port t) (mss t) (tcp_state t) (snd_seq t) (snd_sent t)
    (snd_win t) (rcv_ack t) (rcv_win t) (ts_val t) (ts_recent t) (snd_win_scale t) (rcv_win_scale t)
    (sack t) (tx_queue t) (rx_queue t) (process t) (timer t) (keepalive t) (wait t) (pending_flags t) v
    (deleted t) (tx_log t) (rx_log t) (app_log t).
Definition set_deleted (v : bool) (t : tcp_connection) : tcp_connection :=
  TcpConn (conn_flags t) (peer_port t) (local_port t) (mss t) (tcp_state t) (snd_seq t) (snd_sent t)
    (snd_win t) (rcv_ack t) (rcv_win t) (ts_val t) (ts_recent t) (snd_win_scale t) (rcv_win_scale t)
    (sack t) (tx_queue t) (rx_queue t) (process t) (timer t) (keepalive t) (wait t) (pending_flags t)
    (pending_data t) v (tx_log t) (rx_log t) (app_log t).
Definition set_tx_log (v : list (list Z)) (t : tcp_connection) : tcp_connection :=
  TcpConn (conn_flags t) (peer_port t) (local_port t) (mss t) (tcp_state t) (snd_seq t) (snd_sent t)
    (snd_win t) (rcv_ack t) (rcv_win t) (ts_val t) (ts_recent t) (snd_win_scale t) (rcv_win_scale t)
    (sack t) (tx_queue t) (rx_queue t) (process t) (timer t) (keepalive t) (wait t) (pending_flags t)
    (pending_data t) (deleted t) v (rx_log t) (app_log t).
Definition set_rx_log (v : list (list Z)) (t : tcp_connection) : tcp_connection :=
  TcpConn (conn_flags t) (peer_port t) (local_port t) (mss t) (tcp_state t) (snd_seq t) (snd_sent t)
    (snd_win t) (rcv_ack t) (rcv_win t) (ts_val t) (ts_recent t) (snd_win_scale t) (rcv_win_scale t)
    (sack t) (tx_queue t) (rx_queue t) (process t) (timer t) (keepalive t) (wait t) (pending_flags t)
    (pending_data t) (deleted t) (tx_log t) v (app_log t).
Definition set_app_log (v : list (list Z)) (t : tcp_connection) : tcp_connection :=
  TcpConn (conn_flags t) (peer_port t) (local_port t) (mss t) (tcp_state t) (snd_seq t) (snd_sent t)
    (snd_win t) (rcv_ack t) (rcv_win t) (ts_val t) (ts_recent t) (snd_win_scale t) (rcv_win_scale t)
    (sack t) (tx_queue t) (rx_queue t) (process t) (timer t) (keepalive t) (wait t) (pending_flags t)
    (pending_data t) (deleted t) (tx_log t) (rx_log t) v.

(** [flags |= mask] and [flags &= ~mask]. *)
Definition or_flags (mask : Z) (t : tcp_connection) : tcp_connection := set_conn_flags (Z.lor (conn_flags t) mask) t.
Definition clear_flags (mask : Z) (t : tcp_connection) : tcp_connection :=
  set_conn_flags (Z.ldiff (conn_flags t) mask) t.
Definition or_state (mask : Z) (t : tcp_connection) : tcp_connection := set_tcp_state (Z.lor (tcp_state t) mask) t.

Definition pending_get (count : Z) : Z := count + 1.
Definition pending_put (count : Z) : Z := if negb (count =? 0) then count - 1 else count.

(** The answers of the system during one transmission: [currticks()], whether
    [alloc_iob] succeeds and how often the cache discarder ran to make it
    succeed, the application's [xfer_window], and whether [tcpip_tx] succeeds. *)
Record env := Env { e_ticks : Z; e_alloc : bool; e_discards : nat; e_window : Z; e_tx : bool }.

Inductive app_op :=
| AppSend (e : env) (data : list Z)
| AppClose (e : env) (rc : res unit)
| AppDiscard.

(** ** Transmit path *)

Definition tcp_xmit_win (t : tcp_connection) : Z :=
  if negb (TCP_CAN_SEND_DATA (tcp_state t)) then 0
  else let len := snd_win t in if TCP_PATH_MTU <? len then TCP_PATH_MTU else len.

Definition list_empty {A} (l : list A) : bool := match l with [] => true | _ => false end.

Definition tcp_xfer_window (t : tcp_connection) : Z :=
  if negb (list_empty (tx_queue t)) then 0 else tcp_xmit_win t.

(** The loop of [tcp_sack_block] over the receive queue. *)
Fixpoint sack_scan (q : list rx_queued) (seq left right : Z) : Z * Z :=
  match q with
  | [] => (left, right)
  | h :: q' =>
      if 0 <? tcp_cmp (q_seq h) right then
        if 0 <? tcp_cmp (q_seq h) seq then (left, right)
        else sack_scan q' seq (q_seq h) (if 0 <? tcp_cmp (q_nxt h) right then q_nxt h else right)
      else sack_scan q' seq left (if 0 <? tcp_cmp (q_nxt h) right then q_nxt h else right)
  end.

(** The length of the block and, when it is filled in, the block. *)
Definition tcp_sack_block (t : tcp_connection) (seq : Z) : Z * (Z * Z) :=
  let '(l, r) := sack_scan (rx_queue t) seq (rcv_ack t) (rcv_ack t) in
  if tcp_cmp r seq <? 0 then (0, (0, 0)) else (u32 (r - l), (l, r)).

(** The loop over the old blocks; [new] is the new list so far. *)
Fixpoint sack_update (t : tcp_connection) (old new : list (Z * Z)) : list (Z * Z) :=
  match old with
  | [] => new
  | (l, r) :: old' =>
      if (length new =? TCP_SACK_MAX)%nat then new
      else if l =? r then sack_update t old' new
      else
        let '(len, block) := tcp_sack_block t l in
        if len =? 0 then sack_update t old' new
        else if existsb (fun b => b.1 =? block.1) new then sack_update t old' new
        else sack_update t old' (new ++ [block])
  end.

(** The new number of blocks is the length of the returned list. *)
Definition tcp_sack (t : tcp_connection) (seq : Z) : tcp_connection * list (Z * Z) :=
  let '(len, block) := tcp_sack_block t seq in
  let new := sack_update t (sack t) (if len =? 0 then [] else [block]) in
  (set_sack (new ++ replicate (TCP_SACK_MAX - length new) (0, 0)) t, new).

(** The loop of [tcp_process_tx_queue]: the bytes processed, the queue after
    removal, and the number of buffers freed by removal. *)
Fixpoint tx_scan (q : list (list Z)) (max_len : Z) : list Z * list (list Z) * nat :=
  match q with
  | [] => ([], [], 0%nat)
  | iobuf :: q' =>
      let frag_len := if max_len <? zlen iobuf then max_len else zlen iobuf in
      let '(data, rest, freed) := tx_scan q' (max_len - frag_len) in
      let frag := take (Z.to_nat frag_len) iobuf in
      match drop (Z.to_nat frag_len) iobuf with
      | [] => (frag ++ data, rest, S freed)
      | remain => (frag ++ data, remain :: rest, freed)
      end
  end.

(** The connection, and the bytes processed (whose number is the result). *)
Definition tcp_process_tx_queue (t : tcp_connection) (max_len : Z) (remove : bool) : tcp_connection * list Z :=
  let '(data, rest, freed) := tx_scan (tx_queue t) max_len in
  if remove then
    (set_pending_data (Nat.iter freed pending_put (pending_data t)) (set_tx_queue rest t), data)
  else (t, data).

(** Drop the last queued packet: what the cache discarder does to a connection. *)
Definition discard_last (t : tcp_connection) : tcp_connection := set_rx_queue (removelast (rx_queue t)) t.

(** Expand the receive window if possible. *)
Definition expand_window (e : env) (t : tcp_connection) : tcp_connection :=
  let max_rcv_win := u32 (e_window e) in
  let max_rcv_win := if TCP_MAX_WINDOW_SIZE <? max_rcv_win then TCP_MAX_WINDOW_SIZE else max_rcv_win in
  let max_representable_win := u32 (Z.shiftl 0xffff (rcv_win_scale t)) in
  let max_rcv_win := if max_representable_win <? max_rcv_win then max_representable_win else max_rcv_win in
  let max_rcv_win := Z.land max_rcv_win (Z.lnot 3) in
  if rcv_win t <? max_rcv_win then set_rcv_win max_rcv_win t else t.

(** The options a SYN carries, in the order of the packet. *)
Definition syn_options (t : tcp_connection) : list Z :=
  [TCP_OPTION_NOP; TCP_OPTION_NOP; TCP_OPTION_SACK_PERMITTED; 2]
  ++ [TCP_OPTION_NOP; TCP_OPTION_WS; 3; TCP_RX_WINDOW_SCALE]
  ++ [TCP_OPTION_MSS; 4] ++ be16 (mss t).

Definition ts_option (ticks : Z) (t : tcp_connection) : list Z :=
  [TCP_OPTION_NOP; TCP_OPTION_NOP; TCP_OPTION_TS; 10] ++ be32 ticks ++ be32 (ts_recent t).

Definition sack_option (blocks : list (Z * Z)) : list Z :=
  [TCP_OPTION_NOP; TCP_OPTION_NOP; TCP_OPTION_SACK; 2 + 8 * zlen blocks]
  ++ concat (map (fun b => be32 b.1 ++ be32 b.2) blocks).

(** The options of a segment: the connection (whose SACK list is updated) and
    the bytes between the header and the payload. *)
Definition xmit_options (e : env) (t : tcp_connection) (flags sack_seq : Z) : tcp_connection * list Z :=
  let iobuf := if has flags TCP_SYN then syn_options t else [] in
  let iobuf := if has flags TCP_SYN || has (conn_flags t) TCP_TS_ENABLED
               then ts_option (e_ticks e) t ++ iobuf else iobuf in
  if has (conn_flags t) TCP_SACK_ENABLED && negb (list_empty (rx_queue t)) then
    let '(t, blocks) := tcp_sack t sack_seq in
    if list_empty blocks then (t, iobuf) else (t, sack_option blocks ++ iobuf)
  else (t, iobuf).

(** A TCP header with the given checksum bytes. *)
Definition tcp_header (src dest seq ack : list Z) (hlen flags : Z) (win csum : list Z) : list Z :=
  src ++ dest ++ seq ++ ack ++ [hlen; flags] ++ win ++ csum ++ [0; 0].

(** The header is completed by the checksum over header and contents, which
    is stored in host (little-endian) order. *)
Definition with_csum (header : list Z -> list Z) (contents : list Z) : list Z :=
  let csum := tcpip_chksum (header [0; 0] ++ contents) in
  header [csum mod 256; csum / 256] ++ contents.

(** The segment as it is given to [tcpip_tx]. *)
Definition tcp_segment (t : tcp_connection) (flags : Z) (options payload : list Z) : list Z :=
  let flags := if negb (zlen payload =? 0) then Z.lor flags TCP_PSH else flags in
  with_csum (tcp_header (be16 (local_port t)) (be16 (peer_port t)) (be32 (snd_seq t)) (be32 (rcv_ack t))
               (u8 (Z.shiftl (20 + zlen options) 2)) flags
               (be16 (Z.shiftr (rcv_win t) (rcv_win_scale t))))
    (options ++ payload).

Definition tcp_xmit_sack (e : env) (sack_seq : Z) (t : tcp_connection) : tcp_connection :=
  if timer t then t else
  let len := if TCP_CAN_SEND_DATA (tcp_state t)
             then zlen (tcp_process_tx_queue t (tcp_xmit_win t) false).2 else 0 in
  let flags := TCP_FLAGS_SENDING (tcp_state t) in
  let seq_len := u32 len in
  let seq_len := if has flags (Z.lor TCP_SYN TCP_FIN) then u32 (seq_len + 1) else seq_len in
  let t := set_snd_sent seq_len t in
  if (seq_len =? 0) && negb (has (conn_flags t) TCP_ACK_PENDING) then t else
  let t := if negb (seq_len =? 0) then set_timer true t else t in
  let t := Nat.iter (e_discards e) discard_last t in
  if negb (e_alloc e) then t else
  let payload := (tcp_process_tx_queue t len false).2 in
  let t := expand_window e t in
  let '(t, options) := xmit_options e t flags sack_seq in
  let t := set_tx_log (tx_log t ++ [tcp_segment t flags options payload]) t in
  if negb (e_tx e) then t else
  clear_flags TCP_ACK_PENDING t.

Definition tcp_xmit (e : env) (t : tcp_connection) : tcp_connection := tcp_xmit_sack e (rcv_ack t) t.

(** ** Acknowledgement and close *)

Definition tcp_rx_ack (ack win : Z) (t : tcp_connection) : tcp_connection * res unit :=
  let ack_len := u32 (ack - snd_seq t) in
  if snd_sent t <? ack_len then
    (t, if TCP_HAS_BEEN_ESTABLISHED (tcp_state t) then Ok tt else Err EINVAL)
  else
  let t := set_snd_win win t in
  let t := if negb (has (tcp_state t) (TCP_STATE_SENT TCP_FIN)) then set_keepalive true t else t in
  if ack_len =? 0 then (t, Ok tt) else
  let t := set_timer false t in
  let acked_flags := Z.land (TCP_FLAGS_SENDING (tcp_state t)) (Z.lor TCP_SYN TCP_FIN) in
  let acked := negb (acked_flags =? 0) in
  let len := if acked then ack_len - 1 else ack_len in
  let t := if acked then set_pending_flags (pending_put (pending_flags t)) t else t in
  let t := set_snd_seq ack t in
  let t := set_snd_sent 0 t in
  let t := (tcp_process_tx_queue t len true).1 in
  let t := if acked then or_state (TCP_STATE_ACKED acked_flags) t else t in
  let t := if list_empty (tx_queue t) && has (conn_flags t) TCP_XFER_CLOSED
              && negb (has (tcp_state t) (TCP_STATE_SENT TCP_FIN))
           then set_pending_flags (pending_get (pending_flags t)) (or_state (TCP_STATE_SENT TCP_FIN) t)
           else t in
  (t, Ok tt).

(** Deletion of the connection by [tcp_close]. *)
Definition tcp_delete (t : tcp_connection) : tcp_connection :=
  let t := set_tcp_state TCP_CLOSED t in
  let t := set_rx_queue [] t in
  let t := set_pending_data (Nat.iter (length (tx_queue t)) pending_put (pending_data t)) t in
  let t := set_tx_queue [] t in
  let t := set_pending_flags (pending_put (pending_put (pending_flags t))) t in
  let t := set_process false t in
  let t := set_timer false t in
  let t := set_keepalive false t in
  let t := set_wait false t in
  set_deleted true t.

(** The reason for the close is only passed on to the application. *)
Definition tcp_close (rc : res unit) (t : tcp_connection) : tcp_connection :=
  let t := or_flags TCP_XFER_CLOSED t in
  if negb (has (tcp_state t) (TCP_STATE_RCVD TCP_SYN)) then tcp_delete t else
  let t := if negb (has (tcp_state t) (TCP_STATE_ACKED TCP_SYN))
           then (tcp_rx_ack (u32 (snd_seq t + 1)) 0 t).1 else t in
  let t := set_keepalive false t in
  if list_empty (tx_queue t) && negb (has (tcp_state t) (TCP_STATE_SENT TCP_FIN)) then
    let t := or_state (TCP_STATE_SENT TCP_FIN) t in
    let t := set_process true t in
    set_pending_flags (pending_get (pending_flags t)) t
  else t.

(** ** Timers *)

(** A timer is stopped before its callback is called. *)
Definition tcp_expired (e : env) (over : bool) (t : tcp_connection) : tcp_connection :=
  if over then tcp_close (Err ETIMEDOUT) (set_tcp_state TCP_CLOSED t) else tcp_xmit e t.

Definition tcp_keepalive_expired (e : env) (t : tcp_connection) : tcp_connection :=
  tcp_xmit e (or_flags TCP_ACK_PENDING (set_keepalive true t)).

Definition tcp_wait_expired (t : tcp_connection) : tcp_connection :=
  tcp_close (Ok tt) (set_tcp_state TCP_CLOSED t).

(** ** Data transfer interface *)

Definition tcp_xfer_close (e : env) (rc : res unit) (t : tcp_connection) : tcp_connection :=
  tcp_xmit e (tcp_close rc t).

Definition tcp_xfer_deliver (e : env) (iobuf : list Z) (t : tcp_connection) : tcp_connection :=
  let t := set_app_log (app_log t ++ [iobuf]) t in
  let t := set_tx_queue (tx_queue t ++ [iobuf]) t in
  let t := set_pending_data (pending_get (pending_data t)) t in
  tcp_xmit e t.

(** The message that [tcp_progress] reports, if any. *)
Definition tcp_progress (t : tcp_connection) : option (list Z) :=
  if negb (TCP_HAS_BEEN_ESTABLISHED (tcp_state t))
  then Some [0x63; 0x6f; 0x6e; 0x6e; 0x65; 0x63; 0x74; 0x69; 0x6e; 0x67] else None.

(** A call by the application: once the interface has been shut down, calls
    no longer reach the connection. *)
Definition run_app_op (t : tcp_connection) (op : app_op) : tcp_connection :=
  match op with
  | AppDiscard => discard_last t
  | AppSend e data => if has (conn_flags t) TCP_XFER_CLOSED then t else tcp_xfer_deliver e data t
  | AppClose e rc => if has (conn_flags t) TCP_XFER_CLOSED then t else tcp_xfer_close e rc t
  end.

Definition run_app (ops : list app_op) (t : tcp_connection) : tcp_connection := fold_left run_app_op ops t.

(** ** Receive path *)

(** The options found: the scale, whether SACK is permitted, and the
    timestamp value. *)
Record tcp_options := TcpOptions { wsopt : option Z; spopt : bool; tsopt : option Z }.

(** [data] is the rest of the header from the current option to its end. *)
Fixpoint rx_opts_loop (fuel : nat) (data : list Z) (options : tcp_options) : option (res tcp_options) :=
  match fuel with
  | O => None
  | S fuel' =>
      let remaining := zlen data in
      if remaining =? 0 then Some (Ok options) else
      opt! kind := mem_byte data 0 in
      if kind =? TCP_OPTION_END then Some (Ok options)
      else if kind =? TCP_OPTION_NOP then rx_opts_loop fuel' (drop 1 data) options
      else
      let min := if kind =? TCP_OPTION_WS then 3 else if kind =? TCP_OPTION_SACK_PERMITTED then 2
                 else if kind =? TCP_OPTION_TS then 10 else 2 in
      if remaining <? min then Some (Err EINVAL) else
      opt! length := mem_byte data 1 in
      if length <? min then Some (Err EINVAL)
      else if remaining <? length then Some (Err EINVAL)
      else
      opt! options :=
        (if kind =? TCP_OPTION_WS then
           opt! scale := mem_byte data 2 in Some (TcpOptions (Some scale) (spopt options) (tsopt options))
         else if kind =? TCP_OPTION_SACK_PERMITTED then Some (TcpOptions (wsopt options) true (tsopt options))
         else if kind =? TCP_OPTION_TS then
           opt! tsval := mem_read data 2 4 in Some (TcpOptions (wsopt options) (spopt options) (Some (be_val tsval)))
         else Some options) in
      rx_opts_loop fuel' (drop (Z.to_nat length) data) options
  end.

(** [packet] starts at the TCP header.  Every option takes at least a byte. *)
Definition tcp_rx_opts (packet : list Z) (hlen : Z) : option (res tcp_options) :=
  opt! data := mem_read packet 20 (hlen - 20) in
  rx_opts_loop (S (length data)) data (TcpOptions None false None).

(** A SACK block after the acknowledgement number has moved to [ack]. *)
Definition sack_trim (ack : Z) (b : Z * Z) : Z * Z :=
  let '(l, r) := b in
  if l =? r then b
  else (if tcp_cmp l ack <? 0 then ack else l, if tcp_cmp r ack <? 0 then ack else r).

Definition tcp_rx_seq (seq_len : Z) (t : tcp_connection) : tcp_connection :=
  let t := set_rcv_ack (u32 (rcv_ack t + seq_len)) t in
  let t := set_rcv_win (if seq_len <? rcv_win t then rcv_win t - seq_len else 0) t in
  let t := set_ts_recent (ts_val t) t in
  let t := set_sack (map (sack_trim (rcv_ack t)) (sack t)) t in
  or_flags TCP_ACK_PENDING t.

Definition tcp_rx_syn (seq : Z) (options : tcp_options) (t : tcp_connection) : tcp_connection :=
  let t :=
    if negb (has (tcp_state t) (TCP_STATE_RCVD TCP_SYN)) then
      let t := set_rcv_ack seq t in
      let t := if tsopt options then or_flags TCP_TS_ENABLED t else t in
      let t := if spopt options then or_flags TCP_SACK_ENABLED t else t in
      match wsopt options with
      | Some scale => set_rcv_win_scale TCP_RX_WINDOW_SCALE (set_snd_win_scale scale t)
      | None => t
      end
    else t in
  if negb (seq =? rcv_ack t) then t else
  or_state (Z.lor (TCP_STATE_SENT TCP_ACK) (TCP_STATE_RCVD TCP_SYN)) (tcp_rx_seq 1 t).

Definition tcp_rx_fin (seq : Z) (t : tcp_connection) : tcp_connection :=
  if negb (seq =? rcv_ack t) then t else
  tcp_close (Ok tt) (or_state (TCP_STATE_RCVD TCP_FIN) (tcp_rx_seq 1 t)).

Definition tcp_rx_rst (seq : Z) (t : tcp_connection) : tcp_connection * res unit :=
  let accept := if has (tcp_state t) (TCP_STATE_RCVD TCP_SYN) then tcp_in_window seq (rcv_ack t) (rcv_win t)
                else has (tcp_state t) (TCP_STATE_ACKED TCP_SYN) in
  if negb accept then (t, Ok tt)
  else (tcp_close (Err ECONNRESET) (set_tcp_state TCP_CLOSED t), Err ECONNRESET).

(** Insertion before the first packet with a later sequence number. *)
Fixpoint rx_insert (p : rx_queued) (q : list rx_queued) : list rx_queued :=
  match q with
  | [] => [p]
  | h :: q' => if tcp_cmp (q_seq p) (q_seq h) <? 0 then p :: q else h :: rx_insert p q'
  end.

Definition tcp_rx_enqueue (seq flags : Z) (iobuf : list Z) (t : tcp_connection) : tcp_connection :=
  let flags := Z.land flags TCP_FIN in
  let seq_len := u32 (zlen iobuf + (if negb (flags =? 0) then 1 else 0)) in
  let nxt := u32 (seq + seq_len) in
  if negb (has (tcp_state t) (TCP_STATE_RCVD TCP_SYN))
     || (0 <=? tcp_cmp seq (u32 (rcv_ack t + rcv_win t)))
     || (tcp_cmp nxt (rcv_ack t) <? 0)
     || (seq_len =? 0)
  then t
  else set_rx_queue (rx_insert (RxQueued seq nxt flags iobuf) (rx_queue t)) t.

Section Application.
(** What the application does when data is delivered to it, and when it is
    told that the window has changed. *)
Variable app_deliver : tcp_connection -> list Z -> list app_op * res unit.
Variable app_window : tcp_connection -> list app_op.

Definition xfer_deliver_iob (iobuf : list Z) (t : tcp_connection) : tcp_connection * res unit :=
  let t := set_rx_log (rx_log t ++ [iobuf]) t in
  let '(ops, rc) := app_deliver t iobuf in
  (run_app ops t, rc).

Definition tcp_rx_data (seq : Z) (iobuf : list Z) (t : tcp_connection) : tcp_connection * res unit :=
  let already_rcvd := u32 (rcv_ack t - seq) in
  let len := u32 (zlen iobuf) in
  if len <=? already_rcvd then (t, Ok tt) else
  let iobuf := drop (Z.to_nat already_rcvd) iobuf in
  let len := len - already_rcvd in
  xfer_deliver_iob iobuf (tcp_rx_seq len t).

(** One packet of the queue. *)
Definition process_rx_packet (p : rx_queued) (t : tcp_connection) : tcp_connection :=
  let seq := q_seq p in
  let len := zlen (q_data p) in
  let t := (tcp_rx_data seq (q_data p) t).1 in
  let seq := u32 (seq + len) in
  if has (q_flags p) TCP_FIN then tcp_rx_fin seq t else t.

Fixpoint rx_queue_loop (fuel : nat) (t : tcp_connection) : tcp_connection :=
  match fuel, rx_queue t with
  | S fuel', p :: q =>
      if 0 <? tcp_cmp (q_seq p) (rcv_ack t) then t
      else rx_queue_loop fuel' (process_rx_packet p (set_rx_queue q t))
  | _, _ => t
  end.

(** Every iteration takes a packet from the queue and nothing adds one. *)
Definition tcp_process_rx_queue (t : tcp_connection) : tcp_connection := rx_queue_loop (length (rx_queue t)) t.

(** A received segment after its header has been parsed; [raw_win] is shifted
    by a count that the peer chose.  The shift is one of an [int] and its
    result is stored in 32 bits: a value beyond the range of [int], which a
    scale from 16 on can give, is taken modulo 2^32, as GCC defines it although
    ISO C does not; a count of 32 or more is undefined for both. *)
Definition shift_window (raw_win scale : Z) : option Z :=
  if scale <? 32 then Some (u32 (Z.shiftl raw_win scale)) else None.

(** The reset that answers a segment, given the fields of its header. *)
Definition reset_segment (in_src in_dest in_seq in_ack : list Z) : list Z :=
  with_csum (tcp_header in_dest in_src in_ack in_seq (Z.shiftl (20 / 4) 4) (Z.lor TCP_RST TCP_ACK) (be16 0)) [].

Definition tcp_xmit_reset (e : env) (in_src in_dest in_seq in_ack : list Z) (t : tcp_connection) : tcp_connection :=
  let t := Nat.iter (e_discards e) discard_last t in
  if negb (e_alloc e) then t
  else set_tx_log (tx_log t ++ [reset_segment in_src in_dest in_seq in_ack]) t.

(** The end of [tcp_rx], after the packet has been queued. *)
Definition rx_finish (e : env) (seq old_xfer_window : Z) (t : tcp_connection) : tcp_connection :=
  let t := tcp_process_rx_queue t in
  let t := if list_empty (rx_queue t) then set_process true t else tcp_xmit_sack e seq t in
  let t := if TCP_CLOSED_GRACEFULLY (tcp_state t) then set_wait true t else t in
  if negb (tcp_xfer_window t =? old_xfer_window) then run_app (app_window t) t else t.

(** The steps of [tcp_rx] before the packet is queued: the ACK, with the reset
    that answers an unacceptable one ([er] gives the answers of the system to
    it), then the forced ACK for packets out of order and the SYN. *)
Definition rx_handle_ack (er : env) (src dest seq_bytes ack_bytes : list Z) (raw_win flags : Z) (t : tcp_connection)
  : option (tcp_connection * res unit) :=
  if has flags TCP_ACK then
    opt! win := shift_window raw_win (snd_win_scale t) in
    match tcp_rx_ack (be_val ack_bytes) win t with
    | (t, Ok tt) => Some (t, Ok tt)
    | (t, Err err) => Some (tcp_xmit_reset er src dest seq_bytes ack_bytes t, Err err)
    end
  else Some (t, Ok tt).

Definition rx_handle_syn (seq flags : Z) (options : tcp_options) (t : tcp_connection) : tcp_connection :=
  let t := if has (tcp_state t) (TCP_STATE_RCVD TCP_SYN) && negb (seq =? rcv_ack t)
           then or_flags TCP_ACK_PENDING t else t in
  if has flags TCP_SYN then tcp_rx_syn seq options t else t.

Definition rx_segment (e er : env) (src dest seq_bytes ack_bytes : list Z) (raw_win flags : Z)
  (options : tcp_options) (payload : list Z) (t : tcp_connection) : option (tcp_connection * res unit) :=
  let seq := be_val seq_bytes in
  let t := match tsopt options with Some tsval => set_ts_val tsval t | None => t end in
  let old_xfer_window := tcp_xfer_window t in
  opt! (t, rc) := rx_handle_ack er src dest seq_bytes ack_bytes raw_win flags t in
  match rc with
  | Err err => Some (t, Err err)
  | Ok tt =>
      let t := rx_handle_syn seq flags options t in
      let seq := if has flags TCP_SYN then u32 (seq + 1) else seq in
      let '(t, rc) := if has flags TCP_RST then tcp_rx_rst seq t else (t, Ok tt) in
      match rc with
      | Err err => Some (t, Err err)
      | Ok tt => Some (rx_finish e seq old_xfer_window (tcp_rx_enqueue seq flags payload t), Ok tt)
      end
  end.

(** ** All connections *)

Definition tcp_demux (conns : list tcp_connection) (port : Z) : option (nat * tcp_connection) :=
  list_find (fun t => local_port t = port) conns.

Definition tcp_port_available (conns : list tcp_connection) (port : Z) : res Z :=
  match tcp_demux conns port with Some _ => Err EADDRINUSE | None => Ok port end.

(** A deleted connection leaves the list. *)
Definition conns_update (conns : list tcp_connection) (i : nat) (t : tcp_connection) : list tcp_connection :=
  if deleted t then take i conns ++ drop (S i) conns else <[i := t]> conns.

Definition tcp_rx (e er : env) (pshdr_csum : Z) (iobuf : list Z) (conns : list tcp_connection)
  : option (list tcp_connection * res unit) :=
  if zlen iobuf <? 20 then Some (conns, Err EINVAL) else
  opt! raw_hlen := mem_byte iobuf 12 in
  let hlen := Z.land raw_hlen TCP_MASK_HLEN / 16 * 4 in
  if hlen <? 20 then Some (conns, Err EINVAL) else
  if zlen iobuf <? hlen then Some (conns, Err EINVAL) else
  if negb (generic_tcpip_continue_chksum pshdr_csum iobuf =? 0) then Some (conns, Err EINVAL) else
  opt! src := mem_read iobuf 0 2 in
  opt! dest := mem_read iobuf 2 2 in
  opt! seq := mem_read iobuf 4 4 in
  opt! ack := mem_read iobuf 8 4 in
  opt! raw_win := mem_read iobuf 14 2 in
  opt! flags := mem_byte iobuf 13 in
  opt! parsed := tcp_rx_opts iobuf hlen in
  match parsed with
  | Err err => Some (conns, Err err)
  | Ok options =>
      match tcp_demux conns (be_val dest) with
      | None => Some (conns, Err ENOTCONN)
      | Some (i, t) =>
          opt! (t, rc) := rx_segment e er src dest seq ack (be_val raw_win) flags options
                            (drop (Z.to_nat hlen) iobuf) t in
          Some (conns_update conns i t, rc)
      end
  end.
End Application.

(** The connection that [tcp_open] creates: everything that is not set is zero. *)
Definition tcp_new (peer port mss seq : Z) : tcp_connection :=
  TcpConn 0 peer port mss (TCP_STATE_SENT TCP_SYN) seq 0 0 0 0 0 0 0 0
    (replicate TCP_SACK_MAX (0, 0)) [] [] false true false false (pending_get 0) 0 false [] [] [].

(** [mtu] is the path MTU ([0] when there is no route), [local] the local
    address and [random] the values of the two calls to [random()]. *)
Definition tcp_open (conns : list tcp_connection) (alloc : bool) (mtu : Z) (peer : Z) (local : option (Z * Z))
  (random_seq random_port : Z) : list tcp_connection * res unit :=
  if negb alloc then (conns, Err ENOMEM) else
  if mtu =? 0 then (conns, Err ENETUNREACH) else
  match tcpip_bind (tcp_port_available conns) random_port local with
  | Err err => (conns, Err err)
  | Ok port =>
      (tcp_new peer port (mtu - 20) (u32 random_seq) :: conns, Ok tt)
  end.

(** The number of packets discarded, and the connections. *)
Definition tcp_discard (conns : list tcp_connection) : nat * list tcp_connection :=
  (length (filter (fun t => rx_queue t <> []) conns), map discard_last conns).

Definition tcp_first_unclosed (conns : list tcp_connection) : option (nat * tcp_connection) :=
  list_find (fun t => has (conn_flags t) TCP_XFER_CLOSED = false) conns.

Definition tcp_first_unfinished (conns : list tcp_connection) : option (nat * tcp_connection) :=
  list_find (fun t => negb (TCP_CLOSED_GRACEFULLY (tcp_state t)) || process t = true) conns.

Definition TCP_FINISH_TIMEOUT : Z := 1 * TICKS_PER_SEC.

(** ** Shutdown

    The rest of the program is a [world]: [currticks] is the timer in it and
    [step] one pass over the processes and the network, which may do anything
    to the connections.  Closing the data transfer interface of a connection
    calls its application, which can no longer reach that connection but may
    close others or open new ones: [on_close] is what becomes of the
    connections before and behind it in the list. *)
Section Shutdown.
Context (a : arch) {world : Type} (currticks : world -> Z).
Context (step : world * list tcp_connection -> world * list tcp_connection).
Context (on_close : tcp_connection -> world -> list tcp_connection -> list tcp_connection ->
                    world * list tcp_connection * list tcp_connection).

(** [tcp_close ( tcp, -ECANCELED )] for the connection [t] at position [i];
    once closed the interface has no destination to notify. *)
Definition shutdown_conn (i : nat) (t : tcp_connection) (s : world * list tcp_connection)
  : world * list tcp_connection :=
  let '(w, conns) := s in
  let '(w, before, after) :=
    if has (conn_flags t) TCP_XFER_CLOSED then (w, take i conns, drop (S i) conns)
    else on_close t w (take i conns) (drop (S i) conns) in
  let t := tcp_close (Err ECANCELED) t in
  (w, if deleted t then before ++ after else before ++ t :: after).

(** The three loops; [None] is fuel that does not cover a loop. *)
Fixpoint shutdown_close (fuel : nat) (s : world * list tcp_connection)
  : option (world * list tcp_connection) :=
  match tcp_first_unclosed s.2 with
  | None => Some s
  | Some (i, t) =>
      match fuel with O => None | S fuel' => shutdown_close fuel' (shutdown_conn i t s) end
  end.

Fixpoint shutdown_wait (fuel : nat) (start : Z) (s : world * list tcp_connection)
  : option (world * list tcp_connection) :=
  match tcp_first_unfinished s.2 with
  | None => Some s
  | Some _ =>
      let elapsed := uwrap (size_bits a) (currticks s.1 - start) in
      if elapsed <? TCP_FINISH_TIMEOUT then
        match fuel with O => None | S fuel' => shutdown_wait fuel' start (step s) end
      else Some s
  end.

Fixpoint shutdown_force (fuel : nat) (s : world * list tcp_connection)
  : option (world * list tcp_connection) :=
  match s.2 with
  | [] => Some s
  | t :: _ =>
      match fuel with
      | O => None
      | S fuel' => shutdown_force fuel' (shutdown_conn 0 (set_tcp_state TCP_CLOSED t) s)
      end
  end.

Definition tcp_shutdown (fuel : nat) (s : world * list tcp_connection)
  : option (world * list tcp_connection) :=
  opt! s := shutdown_close fuel s in
  opt! s := shutdown_wait fuel (currticks s.1) s in
  shutdown_force fuel s.
End Shutdown.

(** ** Executions of one connection *)

(** What can happen to a connection: a segment addressed to it arrives, its
    process or one of its timers runs (each is stopped before its callback is
    called), or the application calls it.  The application is arbitrary, and
    may be a different one at every step.  [network] restricts the segments
    (their sequence number, flags and payload) that can arrive. *)
Definition network : Type := tcp_connection -> Z -> Z -> list Z -> Prop.

(** The sizes of the header fields. *)
Definition fields_ok (src dest seq ack : list Z) : Prop :=
  length src = 2%nat /\ length dest = 2%nat /\ length seq = 4%nat /\ length ack = 4%nat.

Inductive tcp_step (net : network) : tcp_connection -> tcp_connection -> Prop :=
| step_rx app_deliver app_window e er src dest seq ack raw_win flags options payload t t' rc :
    deleted t = false -> fields_ok src dest seq ack -> net t (be_val seq) flags payload ->
    rx_segment app_deliver app_window e er src dest seq ack raw_win flags options payload t = Some (t', rc) ->
    tcp_step net t t'
| step_process e t : process t = true -> tcp_step net t (tcp_xmit e (set_process false t))
| step_timer e over t : timer t = true -> tcp_step net t (tcp_expired e over (set_timer false t))
| step_keepalive e t : keepalive t = true -> tcp_step net t (tcp_keepalive_expired e (set_keepalive false t))
| step_wait t : wait t = true -> tcp_step net t (tcp_wait_expired (set_wait false t))
| step_app op t : deleted t = false -> tcp_step net t (run_app_op t op).

(** Any segment at any time; and nothing before our SYN has been sent for the
    first time. *)
Definition any_network : network := fun _ _ _ _ => True.
Definition causal_network : network := fun t _ _ _ => tcp_state t = TCP_SYN_SENT -> snd_sent t = 1.

(** ** Sequence arithmetic *)

(** Within half the sequence space, [tcp_cmp] is the signed distance. *)
Lemma tcp_cmp_abs a b : - 2 ^ 31 <= a - b < 2 ^ 31 -> tcp_cmp (u32 a) (u32 b) = a - b.
Proof.
  intros H. unfold tcp_cmp. rewrite <- (swrap_small 32 (a - b)) by lia.
  unfold swrap, uwrap. by rewrite <- Zminus_mod.
Qed.

Lemma u32_eq a b : - 2 ^ 31 <= a - b < 2 ^ 31 -> u32 a = u32 b -> a = b.
Proof. intros H E. pose proof (tcp_cmp_abs a b H) as Hc. rewrite E in Hc. unfold tcp_cmp in Hc. rewrite Z.sub_diag in Hc. change (swrap 32 0) with 0 in Hc. lia. Qed.

Lemma u32_add_l a b : u32 (u32 a + b) = u32 (a + b).
Proof. unfold uwrap. by rewrite Zplus_mod_idemp_l. Qed.

Lemma u32_sub a b : u32 (u32 a - u32 b) = u32 (a - b).
Proof. unfold uwrap. by rewrite <- Zminus_mod. Qed.

(** ** Lemmas shared by the proofs on connections *)

Lemma has_lor x y m : has (Z.lor x y) m = has x m || has y m.
Proof.
  unfold has. rewrite Z.land_lor_distr_l. destruct (Z.eqb_spec (Z.land x m) 0) as [->|Hx].
  - by rewrite Z.lor_0_l.
  - cbn [negb orb]. apply negb_true_iff, Z.eqb_neq. intros H. apply Z.lor_eq_0_iff in H as [? _]. done.
Qed.

Lemma has_ldiff x y m : Z.land y m = 0 -> has (Z.ldiff x y) m = has x m.
Proof.
  intros Hy. unfold has. do 2 f_equal. apply Z.bits_inj'. intros n Hn.
  rewrite !Z.land_spec, Z.ldiff_spec. assert (Hb := f_equal (fun z => Z.testbit z n) Hy). cbn beta in Hb.
  rewrite Z.land_spec, Z.bits_0 in Hb. destruct (Z.testbit x n), (Z.testbit y n), (Z.testbit m n); done.
Qed.

(** The parts of a connection that a transmission leaves alone. *)
Record xmit_frame (t t' : tcp_connection) : Prop := XmitFrame {
  xf_state : tcp_state t' = tcp_state t;
  xf_deleted : deleted t' = deleted t;
  xf_keepalive : keepalive t' = keepalive t;
  xf_wait : wait t' = wait t;
  xf_process : process t' = process t;
  xf_closed : has (conn_flags t') TCP_XFER_CLOSED = has (conn_flags t) TCP_XFER_CLOSED;
  xf_tx_queue : tx_queue t' = tx_queue t;
  xf_snd_seq : snd_seq t' = snd_seq t;
  xf_snd_win : snd_win t' = snd_win t;
  xf_snd_win_scale : snd_win_scale t' = snd_win_scale t;
  xf_rcv_ack : rcv_ack t' = rcv_ack t;
  xf_rx_log : rx_log t' = rx_log t;
  xf_app_log : app_log t' = app_log t;
  xf_rcv_win : rcv_win t <= rcv_win t' /\ (rcv_win t' = rcv_win t \/ rcv_win t' <= TCP_MAX_WINDOW_SIZE);
  xf_rx_queue : exists n, rx_queue t' = Nat.iter n (@removelast _) (rx_queue t)
}.

Lemma xmit_frame_refl t : xmit_frame t t.
Proof. split; try done; [lia|by exists 0%nat]. Qed.

Lemma xmit_frame_trans t1 t2 t3 : xmit_frame t1 t2 -> xmit_frame t2 t3 -> xmit_frame t1 t3.
Proof.
  intros [] []. split; try congruence; [lia|].
  destruct xf_rx_queue0 as [n E], xf_rx_queue1 as [m E']. exists (m + n)%nat.
  rewrite E', E. symmetry. apply Nat.iter_add.
Qed.

Lemma discard_frame t : xmit_frame t (discard_last t).
Proof. split; try done; [cbn; lia|by exists 1%nat]. Qed.

Lemma discards_frame n t : xmit_frame t (Nat.iter n discard_last t)
  /\ snd_sent (Nat.iter n discard_last t) = snd_sent t /\ timer (Nat.iter n discard_last t) = timer t
  /\ conn_flags (Nat.iter n discard_last t) = conn_flags t /\ tx_log (Nat.iter n discard_last t) = tx_log t
  /\ local_port (Nat.iter n discard_last t) = local_port t /\ rcv_win (Nat.iter n discard_last t) = rcv_win t
  /\ rcv_win_scale (Nat.iter n discard_last t) = rcv_win_scale t.
Proof.
  induction n as [|n (F&IH)]; [split; [apply xmit_frame_refl|done]|].
  rewrite Nat.iter_succ. split; [eapply xmit_frame_trans; [exact F|apply discard_frame]|].
  generalize dependent (Nat.iter n discard_last t). intros t' F IH. exact IH.
Qed.

Lemma expand_window_frame e t : xmit_frame t (expand_window e t)
  /\ snd_sent (expand_window e t) = snd_sent t /\ timer (expand_window e t) = timer t
  /\ conn_flags (expand_window e t) = conn_flags t /\ tx_log (expand_window e t) = tx_log t
  /\ rx_queue (expand_window e t) = rx_queue t.
Proof.
  unfold expand_window. set (w := Z.land _ (Z.lnot 3)).
  assert (Hw : w <= TCP_MAX_WINDOW_SIZE).
  { subst w. change 3 with (2 ^ 2 - 1). rewrite land_lnot_ones by lia. set (x := if (_ <? _) then u32 _ else _).
    pose proof (Z.mod_pos_bound x (2 ^ 2) ltac:(lia)). subst x. repeat case_if; lia. }
  destruct (Z.ltb_spec (rcv_win t) w); (split; [|done]); [|apply xmit_frame_refl].
  split; try done; [cbn; lia|by exists 0%nat].
Qed.

Lemma xmit_options_frame e t flags s : let t' := (xmit_options e t flags s).1 in xmit_frame t t'
  /\ snd_sent t' = snd_sent t /\ timer t' = timer t /\ conn_flags t' = conn_flags t /\ tx_log t' = tx_log t
  /\ rcv_win t' = rcv_win t /\ rx_queue t' = rx_queue t.
Proof.
  unfold xmit_options, tcp_sack. destruct (has (conn_flags t) TCP_SACK_ENABLED && _).
  2: { split; [apply xmit_frame_refl|done]. }
  destruct (tcp_sack_block t s) as [len block]. destruct (list_empty _); cbn [fst]; (split; [|done]);
    (split; try done; [cbn; lia|by exists 0%nat]).
Qed.

(** The payload and sequence space lengths of the next transmission. *)
Definition xmit_len (t : tcp_connection) : Z :=
  if TCP_CAN_SEND_DATA (tcp_state t) then zlen (tcp_process_tx_queue t (tcp_xmit_win t) false).2 else 0.
Definition xmit_seq_len (t : tcp_connection) : Z :=
  let seq_len := u32 (xmit_len t) in
  if has (TCP_FLAGS_SENDING (tcp_state t)) (Z.lor TCP_SYN TCP_FIN) then u32 (seq_len + 1) else seq_len.

(** What a transmission does: nothing while the retransmission timer runs, and
    otherwise the timer runs exactly if something was to be acknowledged; at
    most one segment is handed on, built from the connection as it is left. *)
Lemma tcp_xmit_sack_spec e s t :
  let t' := tcp_xmit_sack e s t in
  xmit_frame t t'
  /\ (if timer t then t' = t
      else snd_sent t' = xmit_seq_len t /\ timer t' = negb (xmit_seq_len t =? 0))
  /\ (tx_log t' = tx_log t
      \/ timer t = false
         /\ exists t3, let options := (xmit_options e t3 (TCP_FLAGS_SENDING (tcp_state t)) s).2 in
            (rx_queue t = [] -> rx_queue t3 = [])
            /\ tx_log t' = tx_log t ++ [tcp_segment t' (TCP_FLAGS_SENDING (tcp_state t)) options
                                         (tcp_process_tx_queue t (xmit_len t) false).2]).
Proof.
  cbv zeta. unfold tcp_xmit_sack. destruct (timer t) eqn:Et; [split; [apply xmit_frame_refl|auto]|].
  fold (xmit_len t). fold (xmit_seq_len t). set (n := xmit_seq_len t).
  assert (F0 : xmit_frame t (set_snd_sent n t)) by (split; try done; [cbn; lia|by exists 0%nat]).
  destruct ((n =? 0) && _) eqn:Eq.
  { apply andb_prop in Eq as [En _]. rewrite En. split; [done|]. split; [|by left]. split; [done|]. by cbn. }
  set (t1 := if negb (n =? 0) then set_timer true (set_snd_sent n t) else set_snd_sent n t).
  assert (F1 : xmit_frame t t1 /\ snd_sent t1 = n /\ timer t1 = negb (n =? 0) /\ conn_flags t1 = conn_flags t
               /\ tx_log t1 = tx_log t).
  { subst t1. destruct (n =? 0); cbn [negb]; (split; [|done]); [done|]. split; try done; [cbn; lia|by exists 0%nat]. }
  destruct F1 as (F1&N1&T1&C1&L1). destruct (discards_frame (e_discards e) t1) as (F2&N2&T2&C2&L2&_).
  set (t2 := Nat.iter (e_discards e) discard_last t1) in *.
  pose proof (xmit_frame_trans _ _ _ F1 F2) as F12.
  destruct (e_alloc e); cbn [negb].
  2: { split; [done|]. split; [split; congruence|]. left. congruence. }
  destruct (expand_window_frame e t2) as (F3&N3&T3&C3&L3&_). set (t3 := expand_window e t2) in *.
  pose proof (xmit_options_frame e t3 (TCP_FLAGS_SENDING (tcp_state t)) s) as F4. cbv zeta in F4.
  assert (Eq3 : rx_queue t = [] -> rx_queue t3 = []).
  { intros Eqe. destruct (xf_rx_queue _ _ (xmit_frame_trans _ _ _ F12 F3)) as [k ->]. rewrite Eqe.
    clear. induction k as [|k IH]; [done|]. by rewrite Nat.iter_succ, IH. }
  destruct (xmit_options e t3 _ s) as [t4 options] eqn:Eo. cbn [fst] in F4. destruct F4 as (F4&N4&T4&C4&L4&_).
  pose proof (xmit_frame_trans _ _ _ F12 (xmit_frame_trans _ _ _ F3 F4)) as F.
  assert (Ep : (tcp_process_tx_queue t2 (xmit_len t) false).2 = (tcp_process_tx_queue t (xmit_len t) false).2).
  { unfold tcp_process_tx_queue. rewrite (xf_tx_queue _ _ F12). by destruct (tx_scan _ _) as [[? ?] ?]. }
  rewrite Ep. set (seg := tcp_segment t4 _ options _).
  assert (Fl : forall t5, t5 = set_tx_log (tx_log t4 ++ [seg]) t4 \/
                 t5 = clear_flags TCP_ACK_PENDING (set_tx_log (tx_log t4 ++ [seg]) t4) -> xmit_frame t t5
               /\ (snd_sent t5 = n /\ timer t5 = negb (n =? 0)) /\ (tx_log t5 = tx_log t \/
                 false = false /\ exists t3, let options := (xmit_options e t3 (TCP_FLAGS_SENDING (tcp_state t)) s).2 in
                   (rx_queue t = [] -> rx_queue t3 = [])
                   /\ tx_log t5 = tx_log t ++ [tcp_segment t5 (TCP_FLAGS_SENDING (tcp_state t)) options
                                              (tcp_process_tx_queue t (xmit_len t) false).2])).
  { intros t5 H5. split; [|split].
    - eapply xmit_frame_trans; [exact F|]. destruct H5 as [-> | ->]; split; try done; try (cbn; lia); try (by exists 0%nat).
      cbn. by apply has_ldiff.
    - destruct H5 as [-> | ->]; cbn; split; congruence.
    - right. split; [done|]. exists t3. rewrite Eo. cbn [snd]. split; [done|]. destruct H5 as [-> | ->]; cbn; rewrite L4, L3, L2, L1; done. }
  destruct (e_tx e); cbn [negb]; apply Fl; auto.
Qed.
