(* ===== verification/TcpState.v ===== *)
(** * The TCP state machine ([net/tcp.c], [include/ipxe/tcp.h])

    The states a connection can reach, over all executions of [tcp_step]: any
    segments, timers and application calls in any order.  The state mask could
    take many more values than the named states; the theorems say which ones
    occur, that deleted connections are never called back, and that a
    connection with something to be acknowledged always has its retransmission
    timer or its process running. *)

From S2P Require Import Prelude Memory Tcpip Tcp.

(** ** The states *)

(** Our SYN is acknowledged but the peer's SYN has not been received.  The
    source has no name for it. *)
Definition SYN_ACKED : Z := Z.lor (TCP_STATE_SENT TCP_SYN) (TCP_STATE_ACKED TCP_SYN).

(** States in which a FIN was sent or received before our SYN was
    acknowledged. *)
Definition SYN_RCVD_FIN_SENT : Z := Z.lor TCP_SYN_RCVD (TCP_STATE_SENT TCP_FIN).
Definition SYN_RCVD_FIN_RCVD : Z := Z.lor TCP_SYN_RCVD (TCP_STATE_RCVD TCP_FIN).
Definition SYN_RCVD_FIN_BOTH : Z := Z.lor SYN_RCVD_FIN_SENT (TCP_STATE_RCVD TCP_FIN).

Definition named_states : list Z :=
  [TCP_CLOSED; TCP_SYN_SENT; TCP_SYN_RCVD; TCP_ESTABLISHED; TCP_CLOSE_WAIT; TCP_FIN_WAIT_1;
   TCP_CLOSING_OR_LAST_ACK; TCP_FIN_WAIT_2; TCP_TIME_WAIT].

(** With [causal], the peer's SYN never precedes our own. *)
Definition tcp_states (causal : bool) : list Z :=
  named_states ++ [SYN_ACKED] ++ (if causal then [] else [SYN_RCVD_FIN_SENT; SYN_RCVD_FIN_RCVD; SYN_RCVD_FIN_BOTH]).

Definition syn_rcvd (s : Z) : bool := has s (TCP_STATE_RCVD TCP_SYN).
Definition syn_acked (s : Z) : bool := has s (TCP_STATE_ACKED TCP_SYN).
Definition fin_sent (s : Z) : bool := has s (TCP_STATE_SENT TCP_FIN).
Definition fin_rcvd (s : Z) : bool := has s (TCP_STATE_RCVD TCP_FIN).
Definition xfer_closed (t : tcp_connection) : bool := has (conn_flags t) TCP_XFER_CLOSED.

Definition no_callbacks (t : tcp_connection) : Prop :=
  timer t = false /\ keepalive t = false /\ wait t = false /\ process t = false.

Record tcp_inv (c : bool) (t : tcp_connection) : Prop := TcpInv {
  inv_state : tcp_state t ∈ tcp_states c;
  inv_deleted : deleted t = (tcp_state t =? TCP_CLOSED);
  inv_idle : deleted t = true -> no_callbacks t;
  inv_gone : deleted t = true -> xfer_closed t = true;
  inv_queue : rx_queue t <> [] -> syn_rcvd (tcp_state t) = true;
  inv_open : xfer_closed t = true -> syn_rcvd (tcp_state t) = true \/ tcp_state t = TCP_CLOSED;
  inv_fin : fin_sent (tcp_state t) || fin_rcvd (tcp_state t) = true -> xfer_closed t = true;
  inv_sent : c = true -> syn_rcvd (tcp_state t) = true -> syn_acked (tcp_state t) = false -> snd_sent t = 1
}.

(** ** Tactics *)

(** Case analysis on the state; in each case the state is a number and all
    tests on it evaluate. *)
Ltac eval_has :=
  repeat match goal with
  | H : context [has ?s ?m] |- _ =>
      let b := eval vm_compute in (has s m) in
      lazymatch b with true => idtac | false => idtac end; change (has s m) with b in H
  | |- context [has ?s ?m] =>
      let b := eval vm_compute in (has s m) in
      lazymatch b with true => idtac | false => idtac end; change (has s m) with b
  end.

Ltac state_cases H :=
  unfold tcp_states, named_states in H;
  rewrite ?elem_of_app, ?elem_of_cons, ?elem_of_nil in H;
  repeat match type of H with
  | _ \/ _ => destruct H as [H | H]
  end; try done.

(** Membership of a concrete state. *)
Ltac solve_state := apply (bool_decide_eq_true_1 _); vm_compute; reflexivity.

Lemma closed_ok c : TCP_CLOSED ∈ tcp_states c.
Proof. destruct c; solve_state. Qed.

Lemma tcp_new_inv peer port mss seq : tcp_inv true (tcp_new peer port mss seq).
Proof. split; try done; cbn. solve_state. Qed.

(** The states of causal executions are states of all executions. *)
Lemma iter_removelast_nil {A} n : Nat.iter n (@removelast A) [] = [].
Proof. induction n as [|n IH]; [done|]. rewrite Nat.iter_succ, IH. done. Qed.

Lemma xmit_seq_len_unacked c t : tcp_state t ∈ tcp_states c -> syn_acked (tcp_state t) = false ->
  xmit_seq_len t = if tcp_state t =? TCP_CLOSED then 0 else 1.
Proof.
  intros H Ha. unfold xmit_seq_len, xmit_len. destruct c.
  all: state_cases H; rewrite H in Ha; try discriminate Ha; rewrite H; reflexivity.
Qed.

Lemma inv_xmit c e s t : tcp_inv c t -> tcp_inv c (tcp_xmit_sack e s t).
Proof.
  intros [Hs Hd Hi Hg Hq Ho Hf Hn]. destruct (tcp_xmit_sack_spec e s t) as (F&T&_).
  set (t' := tcp_xmit_sack e s t) in *. destruct (timer t) eqn:Et; [by rewrite T; split|]. destruct T as [N T].
  split; unfold xfer_closed; rewrite ?(xf_state _ _ F), ?(xf_deleted _ _ F), ?(xf_closed _ _ F); auto.
  - intros Dd. destruct (Hi Dd) as (I1&I2&I3&I4). rewrite Dd in Hd. symmetry in Hd. apply Z.eqb_eq in Hd.
    unfold no_callbacks. rewrite (xf_keepalive _ _ F), (xf_wait _ _ F), (xf_process _ _ F), T.
    rewrite (xmit_seq_len_unacked c) by (done || (rewrite Hd; done)). rewrite Hd. done.
  - intros Hne. apply Hq. destruct (xf_rx_queue _ _ F) as [n E]. rewrite E in Hne. intros E0. rewrite E0 in Hne.
    by rewrite iter_removelast_nil in Hne.
  - intros Hc Hr Ha. rewrite N, (xmit_seq_len_unacked c) by done.
    destruct (Z.eqb_spec (tcp_state t) TCP_CLOSED) as [E|]; [|done]. rewrite E in Hr. done.
Qed.

(** The fields of a connection that [tcp_rx_ack] leaves alone. *)
Lemma tcp_rx_ack_frame ack win t :
  let t' := (tcp_rx_ack ack win t).1 in
  deleted t' = deleted t /\ rx_queue t' = rx_queue t /\ conn_flags t' = conn_flags t /\ process t' = process t
  /\ wait t' = wait t /\ rcv_ack t' = rcv_ack t /\ rcv_win t' = rcv_win t /\ rx_log t' = rx_log t
  /\ app_log t' = app_log t /\ tx_log t' = tx_log t /\ snd_win_scale t' = snd_win_scale t /\ sack t' = sack t.
Proof.
  unfold tcp_rx_ack, tcp_process_tx_queue. destruct (_ <? _); [done|].
  destruct (negb (has _ (TCP_STATE_SENT TCP_FIN))); destruct (_ =? 0); try done.
  all: destruct (negb (Z.land _ (Z.lor TCP_SYN TCP_FIN) =? 0)); cbn [fst snd tx_queue set_snd_sent set_snd_seq].
  all: match goal with |- context [tx_scan ?q ?n] => destruct (tx_scan q n) as [[? ?] ?] end; cbn [fst].
  all: match goal with |- context [list_empty ?q && ?b && ?d] => destruct (list_empty q && b && d) end; done.
Qed.

(** The state after [tcp_rx_ack], given what was sent and whether a FIN is to
    be sent once everything has been acknowledged. *)
Definition ack_state (s : Z) (fin : bool) : Z :=
  let s := Z.lor s (TCP_STATE_ACKED (Z.land (TCP_FLAGS_SENDING s) (Z.lor TCP_SYN TCP_FIN))) in
  if fin && negb (fin_sent s) then Z.lor s (TCP_STATE_SENT TCP_FIN) else s.

Lemma tcp_rx_ack_state ack win t :
  let t' := (tcp_rx_ack ack win t).1 in
  let ack_len := u32 (ack - snd_seq t) in
  (if (snd_sent t <? ack_len) || (ack_len =? 0)
   then tcp_state t' = tcp_state t /\ snd_sent t' = snd_sent t /\ timer t' = timer t /\ tx_queue t' = tx_queue t
   else tcp_state t' = ack_state (tcp_state t) (list_empty (tx_queue t') && xfer_closed t) /\ timer t' = false
        /\ snd_sent t' = 0)
  /\ (tcp_rx_ack ack win t).2
     = if (snd_sent t <? ack_len) && negb (TCP_HAS_BEEN_ESTABLISHED (tcp_state t)) then Err EINVAL else Ok tt.
Proof.
  cbv zeta. unfold tcp_rx_ack, tcp_process_tx_queue, ack_state, xfer_closed.
  destruct (snd_sent t <? u32 (ack - snd_seq t)) eqn:E1; cbn [orb andb].
  { destruct (TCP_HAS_BEEN_ESTABLISHED _); done. }
  destruct (u32 (ack - snd_seq t) =? 0) eqn:E2.
  { destruct (negb (has _ (TCP_STATE_SENT TCP_FIN))); done. }
  set (st := tcp_state t). set (af := Z.land (TCP_FLAGS_SENDING st) (Z.lor TCP_SYN TCP_FIN)).
  assert (E0 : af = 0 -> Z.lor st (TCP_STATE_ACKED af) = st) by (intros ->; apply Z.lor_0_r).
  destruct (negb (has _ (TCP_STATE_SENT TCP_FIN))); cbn [tcp_state set_timer set_keepalive set_snd_win]; fold st; fold af.
  all: destruct (Z.eqb_spec af 0) as [Ez|Ez]; cbn [negb fst snd tx_queue set_snd_sent set_snd_seq].
  all: rewrite ?(E0 Ez).
  all: match goal with |- context [tx_scan ?q ?n] => destruct (tx_scan q n) as [[? ?] ?] end; cbn [fst snd].
  all: match goal with |- context [list_empty ?q && ?b && ?d] => destruct (list_empty q && b && d) eqn:Ef end.
  all: cbn in Ef |- *; unfold fin_sent; fold st in Ef |- *; rewrite Ef; auto.
Qed.

(** The states are closed under acknowledgement. *)
Lemma ack_state_ok c s fin : s ∈ tcp_states c -> s <> TCP_CLOSED -> (fin = true -> syn_rcvd s = true) ->
  ack_state s fin ∈ tcp_states c /\ ack_state s fin <> TCP_CLOSED /\ syn_acked (ack_state s fin) = true
  /\ syn_rcvd (ack_state s fin) = syn_rcvd s /\ fin_rcvd (ack_state s fin) = fin_rcvd s
  /\ fin_sent (ack_state s fin) = fin_sent s || fin.
Proof.
  intros H Hc Hr. destruct c; state_cases H; subst s; try done.
  all: destruct fin; try (specialize (Hr eq_refl); discriminate Hr).
  all: unfold tcp_states, named_states; repeat split; try reflexivity; try discriminate.
  all: solve_state.
Qed.

Lemma inv_rx_ack c ack win t : tcp_inv c t -> deleted t = false -> tcp_inv c (tcp_rx_ack ack win t).1.
Proof.
  intros [Hs Hd Hi Hg Hq Ho Hf Hn] Hdel. pose proof (tcp_rx_ack_frame ack win t) as F. cbv zeta in F.
  destruct (tcp_rx_ack_state ack win t) as [S _]. set (t' := (tcp_rx_ack ack win t).1) in *.
  destruct F as (Fd&Fq&Fc&Fp&Fw&_).
  assert (Hcl : xfer_closed t' = xfer_closed t) by (unfold xfer_closed; by rewrite Fc).
  destruct ((snd_sent t <? _) || _).
  - destruct S as (S1&S2&S3&_). split; rewrite ?S1, ?Fd, ?Fq, ?Hcl, ?S2; auto. congruence.
  - destruct S as (S1&S2&S3). rewrite Hdel in Hd. symmetry in Hd. apply Z.eqb_neq in Hd.
    set (fin := list_empty (tx_queue t') && xfer_closed t) in *.
    assert (Hfin : fin = true -> xfer_closed t = true) by (subst fin; intros [_ ?]%andb_prop; done).
    destruct (ack_state_ok c (tcp_state t) fin Hs Hd) as (A1&A2&A3&A4&A5&A6).
    { intros E. destruct (Ho (Hfin E)); done. }
    split; rewrite ?S1, ?Fd, ?Fq, ?Hcl, ?Hdel, ?A4, ?A5, ?A6; auto.
    + symmetry. by apply Z.eqb_neq.
    + done.
    + done.
    + intros E. destruct (Ho E); [by left|done].
    + destruct fin; [auto|]. by rewrite orb_false_r.
    + congruence.
Qed.

(** The state after [tcp_close] when the peer's SYN has been received: [sent]
    is the sequence space in flight and [empty] whether the transmit queue is
    empty afterwards. *)
Definition close_state (s sent : Z) (empty : bool) : Z :=
  if syn_acked s || (sent =? 0)
  then (if empty && negb (fin_sent s) then Z.lor s (TCP_STATE_SENT TCP_FIN) else s)
  else ack_state s empty.

Lemma u32_succ x : u32 (u32 (x + 1) - x) = 1.
Proof. unfold uwrap. rewrite Zminus_mod_idemp_l. replace (x + 1 - x) with 1 by lia. done. Qed.

Lemma tcp_close_spec rc t : syn_rcvd (tcp_state t) = true -> 0 <= snd_sent t ->
  let t' := tcp_close rc t in
  tcp_state t' = close_state (tcp_state t) (snd_sent t) (list_empty (tx_queue t'))
  /\ snd_sent t' = (if syn_acked (tcp_state t) then snd_sent t else 0)
  /\ xfer_closed t' = true /\ deleted t' = deleted t /\ rx_queue t' = rx_queue t /\ wait t' = wait t
  /\ keepalive t' = false /\ (timer t' = true -> timer t = true /\ snd_sent t' = snd_sent t)
  /\ rcv_ack t' = rcv_ack t /\ rcv_win t' = rcv_win t /\ rx_log t' = rx_log t /\ app_log t' = app_log t
  /\ tx_log t' = tx_log t.
Proof.
  intros Hr Hn. cbv zeta. unfold tcp_close. change (tcp_state (or_flags TCP_XFER_CLOSED t)) with (tcp_state t).
  unfold syn_rcvd in Hr. rewrite Hr. cbn [negb]. fold (syn_acked (tcp_state t)).
  set (t0 := or_flags TCP_XFER_CLOSED t).
  assert (Hx : has (conn_flags t0) TCP_XFER_CLOSED = true) by (subst t0; cbn; rewrite has_lor; apply orb_true_r).
  unfold close_state. destruct (syn_acked (tcp_state t)) eqn:Ea; cbn [negb orb].
  { unfold xfer_closed, fin_sent. change (tx_queue (set_keepalive false t0)) with (tx_queue t).
    change (tcp_state (set_keepalive false t0)) with (tcp_state t).
    destruct (list_empty (tx_queue t) && _) eqn:Ef; cbn [tx_queue set_pending_flags set_process or_state set_tcp_state
      set_keepalive or_flags set_conn_flags t0]; rewrite Ef; cbn; rewrite has_lor, orb_true_r; done. }
  pose proof (tcp_rx_ack_frame (u32 (snd_seq t0 + 1)) 0 t0) as F. cbv zeta in F.
  destruct (tcp_rx_ack_state (u32 (snd_seq t0 + 1)) 0 t0) as [S _].
  set (t1 := (tcp_rx_ack (u32 (snd_seq t0 + 1)) 0 t0).1) in *. rewrite u32_succ in S.
  destruct F as (Fd&Fq&Fc&Fp&Fw&Fa&Fwin&Frl&Fal&Ftl&_).
  unfold xfer_closed in *. change (snd_sent t0) with (snd_sent t) in S. change (tcp_state t0) with (tcp_state t) in S.
  change (1 =? 0) with false in S. rewrite orb_false_r in S. rewrite Hx, andb_true_r in S.
  assert (Ex : has (conn_flags t1) TCP_XFER_CLOSED = true) by by rewrite Fc.
  change (tx_queue (set_keepalive false t1)) with (tx_queue t1).
  change (tcp_state (set_keepalive false t1)) with (tcp_state t1).
  destruct (Z.ltb_spec (snd_sent t) 1) as [Hlt|Hge].
  - destruct S as (S1&S2&S3&S4). assert (Hz : snd_sent t = 0) by lia.
    rewrite Hz. change (0 =? 0) with true. cbv iota. rewrite S1. fold (fin_sent (tcp_state t)).
    destruct (list_empty (tx_queue t1) && negb (fin_sent (tcp_state t))) eqn:Ef;
      cbn [tx_queue set_pending_flags set_process or_state set_tcp_state set_keepalive]; rewrite Ef; cbn;
      rewrite ?Ex, ?S1, ?S2, ?S3, ?Fd, ?Fq, ?Fw, ?Fa, ?Fwin, ?Frl, ?Fal, ?Ftl; auto 20.
  - destruct S as (S1&S2&S3). rewrite (proj2 (Z.eqb_neq _ _)) by lia. rewrite S1.
    assert (Ef : list_empty (tx_queue t1) && negb (has (ack_state (tcp_state t) (list_empty (tx_queue t1)))
                   (TCP_STATE_SENT TCP_FIN)) = false).
    { destruct (list_empty (tx_queue t1)); [|done]. apply negb_false_iff. unfold ack_state. cbn [andb].
      destruct (fin_sent _) eqn:E; cbn [negb]; [done|]. by rewrite has_lor, orb_true_r. }
    rewrite Ef. cbn. rewrite ?Ex, ?S1, ?S2, ?S3, ?Fd, ?Fq, ?Fw, ?Fa, ?Fwin, ?Frl, ?Fal, ?Ftl.
    repeat split; done.
Qed.

Lemma tcp_close_delete rc t : syn_rcvd (tcp_state t) = false ->
  let t' := tcp_close rc t in
  tcp_state t' = TCP_CLOSED /\ deleted t' = true /\ no_callbacks t' /\ rx_queue t' = [] /\ tx_queue t' = []
  /\ xfer_closed t' = true
  /\ rx_log t' = rx_log t /\ app_log t' = app_log t /\ tx_log t' = tx_log t.
Proof.
  intros Hr. cbv zeta. unfold tcp_close. change (tcp_state (or_flags TCP_XFER_CLOSED t)) with (tcp_state t).
  unfold syn_rcvd in Hr. rewrite Hr. unfold xfer_closed. cbn. rewrite has_lor, orb_true_r. done.
Qed.

Lemma close_state_ok c s0 (fin : bool) sent empty : s0 ∈ tcp_states c -> syn_rcvd s0 = true ->
  (c = true -> syn_acked s0 = false -> sent = 1) ->
  let s := if fin then Z.lor s0 (TCP_STATE_RCVD TCP_FIN) else s0 in
  let s' := close_state s sent empty in
  s' ∈ tcp_states c /\ s' <> TCP_CLOSED /\ syn_rcvd s' = true /\ syn_acked s' = syn_acked s0 || negb (sent =? 0)
  /\ fin_rcvd s' = fin_rcvd s0 || fin.
Proof.
  intros H Hr Hn. unfold close_state. destruct c; state_cases H; subst s0; try discriminate Hr.
  all: try (rewrite (Hn eq_refl eq_refl)). all: destruct fin, empty; try destruct (sent =? 0).
  all: unfold tcp_states, named_states; repeat split; try reflexivity; try discriminate.
  all: solve_state.
Qed.

(** Closing preserves the invariant, also when a FIN has just been marked as
    received. *)
Lemma inv_close_fin c (fin : bool) rc t : tcp_inv c t -> deleted t = false -> 0 <= snd_sent t ->
  (fin = true -> syn_rcvd (tcp_state t) = true) ->
  tcp_inv c (tcp_close rc (if fin then or_state (TCP_STATE_RCVD TCP_FIN) t else t)).
Proof.
  intros [Hs Hd Hi Hg Hq Ho Hf Hn] Hdel Hpos Hfin.
  set (u := if fin then or_state (TCP_STATE_RCVD TCP_FIN) t else t).
  assert (Eu : tcp_state u = (if fin then Z.lor (tcp_state t) (TCP_STATE_RCVD TCP_FIN) else tcp_state t)
               /\ snd_sent u = snd_sent t /\ deleted u = deleted t /\ rx_queue u = rx_queue t)
    by (subst u; destruct fin; done).
  destruct Eu as (U1&U2&U3&U4).
  assert (Er : syn_rcvd (tcp_state u) = syn_rcvd (tcp_state t)).
  { rewrite U1. destruct fin; [|done]. unfold syn_rcvd. rewrite has_lor. apply orb_false_r. }
  destruct (syn_rcvd (tcp_state t)) eqn:Hr.
  - destruct (tcp_close_spec rc u Er ltac:(by rewrite U2)) as (C1&C2&C3&C4&C5&_).
    set (t' := tcp_close rc u) in *. set (em := list_empty (tx_queue t')) in *. rewrite U1, U2 in C1.
    destruct (close_state_ok c (tcp_state t) fin (snd_sent t) em Hs Hr) as (K1&K2&K3&K4&_).
    { intros. by apply Hn. }
    cbv zeta in *. rewrite <- C1 in K1, K2, K3, K4. rewrite U3, Hdel in C4. split; auto; rewrite ?C4; try done.
    + symmetry. by apply Z.eqb_neq.
    + intros Hc _ Ha. rewrite K4 in Ha. apply orb_false_iff in Ha as [Ha Hb].
      apply negb_false_iff, Z.eqb_eq in Hb. specialize (Hn Hc eq_refl Ha). lia.
  - destruct fin; [by specialize (Hfin eq_refl)|].
    destruct (tcp_close_delete rc u Er) as (C1&C2&C3&C4&_&C5&_). split; rewrite ?C1, ?C2, ?C4; auto; try done.
    apply closed_ok.
Qed.

Lemma inv_close c rc t : tcp_inv c t -> deleted t = false -> 0 <= snd_sent t -> tcp_inv c (tcp_close rc t).
Proof. intros. by apply (inv_close_fin c false). Qed.

(** Forced closes: the state is set to CLOSED first. *)
Lemma inv_force c rc t : tcp_inv c (tcp_close rc (set_tcp_state TCP_CLOSED t)).
Proof.
  destruct (tcp_close_delete rc (set_tcp_state TCP_CLOSED t) eq_refl) as (C1&C2&C3&C4&_&C5&_).
  split; rewrite ?C1, ?C2, ?C4; auto; try done. apply closed_ok.
Qed.

Lemma inv_discard c t : tcp_inv c t -> tcp_inv c (discard_last t).
Proof. intros [Hs Hd Hi Hg Hq Ho Hf Hn]. split; auto. intros Hne. apply Hq. by intros E; cbn in Hne; rewrite E in Hne. Qed.

(** The range of the sequence space in flight. *)
Lemma xmit_seq_len_nonneg t : 0 <= xmit_seq_len t.
Proof. unfold xmit_seq_len. destruct (has _ _); apply uwrap_range; lia. Qed.

Lemma sent_xmit e s t : 0 <= snd_sent t -> 0 <= snd_sent (tcp_xmit_sack e s t).
Proof.
  intros H. destruct (tcp_xmit_sack_spec e s t) as (_&T&_). destruct (timer t); [by rewrite T|].
  destruct T as [-> _]. apply xmit_seq_len_nonneg.
Qed.

Lemma sent_rx_ack ack win t : 0 <= snd_sent t -> 0 <= snd_sent (tcp_rx_ack ack win t).1.
Proof.
  intros H. destruct (tcp_rx_ack_state ack win t) as [S _]. destruct (_ || _); [destruct S as (_&->&_); done|].
  destruct S as (_&_&->). lia.
Qed.

Lemma sent_close rc t : 0 <= snd_sent t -> 0 <= snd_sent (tcp_close rc t).
Proof.
  intros H. unfold tcp_close. case_if; [done|].
  set (t1 := if negb (has _ _) then _ else _). assert (0 <= snd_sent t1).
  { subst t1. case_if; [by apply sent_rx_ack|done]. }
  case_if; done.
Qed.

(** The invariant that is preserved throughout: [tcp_inv] with a nonnegative
    amount in flight. *)
Definition inv (c : bool) (t : tcp_connection) : Prop := tcp_inv c t /\ 0 <= snd_sent t.

Lemma inv_app_op c t op : inv c t -> inv c (run_app_op t op).
Proof.
  intros [H Hn]. pose proof (inv_gone _ _ H) as Hgone.
  destruct op as [e data|e rc|]; cbn [run_app_op]; unfold xfer_closed in Hgone.
  - case_if; [done|]. split; [|by apply sent_xmit]. apply inv_xmit. destruct H as [Hs Hd' Hi Hg Hq Ho Hf Hsent]. by split.
  - destruct (has (conn_flags t) TCP_XFER_CLOSED); [done|]. split; [|by apply sent_xmit, sent_close].
    apply inv_xmit, inv_close; [done| |done]. destruct (deleted t); [by discriminate Hgone|done].
  - split; [by apply inv_discard|done].
Qed.

Lemma inv_app c ops t : inv c t -> inv c (run_app ops t).
Proof. revert t. induction ops as [|op ops IH]; intros t H; [done|]. apply IH, inv_app_op, H. Qed.

(** Once the peer's SYN has been received, neither the application nor a
    received packet deletes the connection. *)
Definition synced (t : tcp_connection) : Prop := syn_rcvd (tcp_state t) = true /\ deleted t = false.

Lemma close_state_synced s sent empty : syn_rcvd s = true -> syn_rcvd (close_state s sent empty) = true.
Proof.
  unfold syn_rcvd, close_state, ack_state. intros H. repeat case_if; rewrite ?has_lor, H; done.
Qed.

Lemma synced_close rc t : synced t -> 0 <= snd_sent t -> synced (tcp_close rc t).
Proof.
  intros [Hr Hd] Hn. destruct (tcp_close_spec rc t Hr Hn) as (C1&_&_&C4&_). split; [|congruence].
  rewrite C1. by apply close_state_synced.
Qed.

Lemma synced_xmit e s t : synced t -> synced (tcp_xmit_sack e s t).
Proof.
  intros [Hr Hd]. destruct (tcp_xmit_sack_spec e s t) as (F&_). split; [by rewrite (xf_state _ _ F)|].
  by rewrite (xf_deleted _ _ F).
Qed.

Lemma synced_app_op t op : synced t -> 0 <= snd_sent t -> synced (run_app_op t op).
Proof.
  intros H Hn. destruct op; cbn [run_app_op]; repeat case_if; try done; apply synced_xmit; [done|].
  by apply synced_close.
Qed.

Lemma synced_app c ops t : inv c t -> synced t -> synced (run_app ops t).
Proof.
  revert t. induction ops as [|op ops IH]; intros t Hi H; [done|]. apply IH; [by apply inv_app_op|].
  apply synced_app_op; [done|]. apply Hi.
Qed.

(** Fields that do not matter for the invariant. *)
Lemma inv_ext c t t' : inv c t -> tcp_state t' = tcp_state t -> deleted t' = deleted t -> xfer_closed t' = xfer_closed t ->
  snd_sent t' = snd_sent t -> (rx_queue t' <> [] -> syn_rcvd (tcp_state t) = true) ->
  (deleted t = true -> no_callbacks t') -> inv c t'.
Proof.
  intros [[Hs Hd Hi Hg Hq Ho Hf Hsent] Hn] E1 E2 E3 E4 E5 E6.
  split; [split; rewrite ?E1, ?E2, ?E3, ?E4; auto|]. by rewrite E4.
Qed.

Lemma inv_rx_seq c n t : inv c t -> deleted t = false -> inv c (tcp_rx_seq n t).
Proof.
  intros H Hd. apply (inv_ext c t); try done; [|apply H|by rewrite Hd].
  unfold xfer_closed. cbn. rewrite has_lor. by rewrite orb_false_r.
Qed.

Lemma inv_rx_fin c seq t : inv c t -> synced t -> inv c (tcp_rx_fin seq t) /\ synced (tcp_rx_fin seq t).
Proof.
  intros H [Hr Hd]. unfold tcp_rx_fin. case_if; [done|].
  pose proof (inv_rx_seq c 1 t H Hd) as [H1 Hn1]. set (t1 := tcp_rx_seq 1 t) in *.
  split; [split; [|by apply sent_close]|apply synced_close; [|done]].
  - by apply (inv_close_fin c true).
  - split; [|done]. unfold syn_rcvd in *. cbn. by rewrite has_lor, Hr.
Qed.

(** Receiving a SYN: the state is closed under the new flags. *)
Lemma syn_state_ok c s : s ∈ tcp_states c -> s <> TCP_CLOSED ->
  let s' := Z.lor s (Z.lor (TCP_STATE_SENT TCP_ACK) (TCP_STATE_RCVD TCP_SYN)) in
  s' ∈ tcp_states c /\ s' <> TCP_CLOSED /\ syn_rcvd s' = true /\ syn_acked s' = syn_acked s
  /\ fin_sent s' = fin_sent s /\ fin_rcvd s' = fin_rcvd s /\ (syn_rcvd s = false -> syn_acked s = false -> s = TCP_SYN_SENT).
Proof.
  intros H Hc. destruct c; state_cases H; subst s; try done.
  all: repeat split; try reflexivity; try discriminate; solve_state.
Qed.

Lemma inv_rx_syn c seq options t : inv c t -> deleted t = false ->
  (c = true -> tcp_state t = TCP_SYN_SENT -> snd_sent t = 1) ->
  inv c (tcp_rx_syn seq options t) /\ deleted (tcp_rx_syn seq options t) = false.
Proof.
  intros H Hd Hcausal. unfold tcp_rx_syn. set (t1 := if negb (has _ _) then _ else t).
  assert (E1 : tcp_state t1 = tcp_state t /\ deleted t1 = deleted t /\ snd_sent t1 = snd_sent t
               /\ xfer_closed t1 = xfer_closed t /\ rx_queue t1 = rx_queue t).
  { subst t1. unfold xfer_closed. destruct (negb (has _ _)), (tsopt options), (spopt options), (wsopt options);
      cbn; rewrite ?has_lor, ?orb_false_r; done. }
  destruct E1 as (E1&E2&E3&E4&E5).
  assert (H1 : inv c t1).
  { apply (inv_ext c t); try done; [rewrite E5; apply H|by rewrite Hd]. }
  case_if; [split; [done|congruence]|].
  destruct (inv_rx_seq c 1 t1 H1 ltac:(congruence)) as [[Hs Hd' Hi Hg Hq Ho Hf Hsent] Hn].
  set (t2 := tcp_rx_seq 1 t1) in *. assert (F2 : tcp_state t2 = tcp_state t /\ deleted t2 = deleted t /\ snd_sent t2 = snd_sent t)
    by (subst t2; cbn; auto). clearbody t2. destruct F2 as (F2&F3&F4).
  rewrite F3, Hd in Hd'. symmetry in Hd'. apply Z.eqb_neq in Hd'.
  destruct (syn_state_ok c _ Hs Hd') as (K1&K2&K3&K4&K5&K6&K7). cbv zeta in *.
  split; [|cbn; congruence]. split; [|done].
  unfold or_state. set (s' := Z.lor _ (Z.lor _ _)) in *. split; cbn [tcp_state set_tcp_state deleted rx_queue snd_sent]; auto.
  - rewrite F3, Hd. symmetry. by apply Z.eqb_neq.
  - rewrite K5, K6. exact Hf.
  - rewrite K4. intros Hc _ Ha. destruct (syn_rcvd (tcp_state t2)) eqn:Er; [by apply Hsent|].
    rewrite F4. apply Hcausal; [done|]. rewrite <- F2. by apply K7.
Qed.

(** A packet is dropped or queued. *)
Lemma enqueue_cases seq flags iobuf t :
  let f := Z.land flags TCP_FIN in
  let seq_len := u32 (zlen iobuf + (if negb (f =? 0) then 1 else 0)) in
  let nxt := u32 (seq + seq_len) in
  let drop := negb (syn_rcvd (tcp_state t)) || (0 <=? tcp_cmp seq (u32 (rcv_ack t + rcv_win t)))
     || (tcp_cmp nxt (rcv_ack t) <? 0) || (seq_len =? 0) in
  tcp_rx_enqueue seq flags iobuf t
  = if drop then t else set_rx_queue (rx_insert (RxQueued seq nxt f iobuf) (rx_queue t)) t.
Proof. reflexivity. Qed.

Lemma enqueue_deleted seq flags iobuf t : deleted (tcp_rx_enqueue seq flags iobuf t) = deleted t.
Proof. rewrite enqueue_cases. by destruct (_ || _). Qed.

Lemma inv_enqueue c seq flags iobuf t : inv c t -> deleted t = false -> inv c (tcp_rx_enqueue seq flags iobuf t).
Proof.
  intros H Hd. rewrite enqueue_cases. cbv zeta. destruct (_ || _) eqn:E; [done|]. bool_to_prop.
  apply (inv_ext c t); try done. by rewrite Hd.
Qed.

Lemma inv_rx_rst c seq t : inv c t -> inv c (tcp_rx_rst seq t).1
  /\ ((tcp_rx_rst seq t).2 = Ok tt -> (tcp_rx_rst seq t).1 = t).
Proof.
  intros H. unfold tcp_rx_rst. destruct (negb _); [done|]. split; [|done]. split; [apply inv_force|].
  apply sent_close, H.
Qed.

Section Application.
Context (app_deliver : tcp_connection -> list Z -> list app_op * res unit) (app_window : tcp_connection -> list app_op).

Lemma inv_rx_data c seq iobuf t : inv c t -> synced t ->
  let t' := (tcp_rx_data app_deliver seq iobuf t).1 in inv c t' /\ synced t'.
Proof.
  intros H Hs. unfold tcp_rx_data, xfer_deliver_iob. case_if; [done|].
  pose proof (inv_rx_seq c (u32 (zlen iobuf) - u32 (rcv_ack t - seq)) t H (proj2 Hs)) as H1.
  set (t1 := tcp_rx_seq _ t) in *. set (t2 := set_rx_log _ t1). destruct (app_deliver t2 _) as [ops rc]. cbn [fst].
  assert (H2 : inv c t2) by (apply (inv_ext c t1); try done; [apply H1|]; intros Hd; apply H1; done).
  split; [by apply inv_app|]. by apply (synced_app c).
Qed.

Lemma inv_process_packet c p t : inv c t -> synced t ->
  inv c (process_rx_packet app_deliver p t) /\ synced (process_rx_packet app_deliver p t).
Proof.
  intros H Hs. unfold process_rx_packet. destruct (inv_rx_data c (q_seq p) (q_data p) t H Hs) as [H1 S1].
  case_if; [by apply inv_rx_fin|done].
Qed.

Lemma inv_queue_loop c fuel t : inv c t -> deleted t = false ->
  let t' := rx_queue_loop app_deliver fuel t in inv c t' /\ deleted t' = false.
Proof.
  revert t. induction fuel as [|fuel IH]; intros t H Hd; cbn [rx_queue_loop]; [done|].
  destruct (rx_queue t) as [|p q] eqn:Eq; [done|]. case_if; [done|].
  assert (Hr : syn_rcvd (tcp_state t) = true) by (apply H; by rewrite Eq).
  destruct (inv_process_packet c p (set_rx_queue q t)) as [H1 [_ Hd1]].
  - apply (inv_ext c t); try done. by rewrite Hd.
  - done.
  - by apply IH.
Qed.

(** The end of the handler: what holds when it returns. *)
Lemma inv_finish c e seq w t : inv c t -> deleted t = false -> inv c (rx_finish app_deliver app_window e seq w t).
Proof.
  intros H Hd. unfold rx_finish, tcp_process_rx_queue.
  destruct (inv_queue_loop c (length (rx_queue t)) t H Hd) as [H1 D1]. set (t1 := rx_queue_loop _ _ t) in *.
  set (t2 := if list_empty (rx_queue t1) then _ else _). assert (H2 : inv c t2 /\ deleted t2 = false).
  { subst t2. case_if.
    - split; [|done]. apply (inv_ext c t1); try done; [apply H1|]. by rewrite D1.
    - split; [split; [by apply inv_xmit, H1|by apply sent_xmit, H1]|].
      destruct (tcp_xmit_sack_spec e seq t1) as (F&_). by rewrite (xf_deleted _ _ F). }
  destruct H2 as [H2 D2]. set (t3 := if TCP_CLOSED_GRACEFULLY _ then _ else _). assert (H3 : inv c t3).
  { subst t3. case_if; [|done]. apply (inv_ext c t2); try done; [apply H2|]. by rewrite D2. }
  case_if; [by apply inv_app|done].
Qed.

(** What is known of a connection that is handling a segment. *)
Definition handling (c : bool) (t : tcp_connection) : Prop :=
  inv c t /\ deleted t = false /\ (c = true -> tcp_state t = TCP_SYN_SENT -> snd_sent t = 1).

Lemma handling_ack c ack win t : handling c t -> handling c (tcp_rx_ack ack win t).1.
Proof.
  intros (H&Hd&Hc). pose proof (inv_rx_ack c ack win t (proj1 H) Hd) as H2. pose proof (sent_rx_ack ack win t (proj2 H)) as N2.
  pose proof (tcp_rx_ack_frame ack win t) as (Fd&_). destruct (tcp_rx_ack_state ack win t) as [S2 _].
  destruct (tcp_rx_ack ack win t) as [t2 rc2]. cbn [fst snd] in *. split; [done|]. split; [congruence|].
  intros Ec Es. destruct (_ || _); [destruct S2 as (S2&->&_); apply Hc; congruence|].
  destruct S2 as (S2&_). assert (A : syn_acked (tcp_state t2) = true); [|rewrite Es in A; discriminate A].
  destruct H as [[Hs Hd' _ _ _ Ho _ _] _]. rewrite Hd in Hd'. symmetry in Hd'. apply Z.eqb_neq in Hd'.
  rewrite S2. apply (ack_state_ok c); [done|done|]. intros [_ Ex]%andb_prop. by destruct (Ho Ex).
Qed.

Lemma inv_discards c n t : inv c t -> inv c (Nat.iter n discard_last t).
Proof.
  intros H. induction n as [|n IH]; [done|]. rewrite Nat.iter_succ. split; [by apply inv_discard, IH|apply IH].
Qed.

Lemma inv_reset c er src dest seq ack t : inv c t -> deleted t = false -> inv c (tcp_xmit_reset er src dest seq ack t).
Proof.
  intros H Hd. unfold tcp_xmit_reset. pose proof (inv_discards c (e_discards er) t H) as H3.
  destruct (discards_frame (e_discards er) t) as (F&_). set (t3 := Nat.iter _ _ t) in *. case_if; [done|].
  apply (inv_ext c t3); try done; [apply H3|]. by rewrite (xf_deleted _ _ F), Hd.
Qed.

Lemma handling_syn c seq flags options t : handling c t ->
  inv c (rx_handle_syn seq flags options t) /\ deleted (rx_handle_syn seq flags options t) = false.
Proof.
  intros (H2&D2&C2). unfold rx_handle_syn. set (t3 := if _ && _ then _ else _). assert (H3 : handling c t3).
  { subst t3. case_if; [|done]. split; [|done]. apply (inv_ext c t); try done; [|apply H2].
    unfold xfer_closed. cbn. by rewrite has_lor, orb_false_r. }
  destruct H3 as (H3&D3&C3). case_if; [by apply inv_rx_syn|done].
Qed.

(** The three outcomes of a segment: it is answered by a reset, it resets the
    connection, or it is queued and the receive queue is processed. *)
Lemma rx_segment_cases e er src dest seq ack raw_win flags options payload t t' rc :
  rx_segment app_deliver app_window e er src dest seq ack raw_win flags options payload t = Some (t', rc) ->
  exists t0 t1 : tcp_connection,
    t0 = match tsopt options with Some tsval => set_ts_val tsval t | None => t end
    /\ (t1 = t0 \/ exists win, 0 <= win /\ t1 = (tcp_rx_ack (be_val ack) win t0).1)
    /\ let t2 := rx_handle_syn (be_val seq) flags options t1 in
       let sq := if has flags TCP_SYN then u32 (be_val seq + 1) else be_val seq in
       (t' = tcp_xmit_reset er src dest seq ack t1 /\ rc = Err EINVAL /\ t1 = t0)
       \/ (t' = tcp_close (Err ECONNRESET) (set_tcp_state TCP_CLOSED t2) /\ rc = Err ECONNRESET)
       \/ (exists w, t' = rx_finish app_deliver app_window e sq w (tcp_rx_enqueue sq flags payload t2) /\ rc = Ok tt).
Proof.
  unfold rx_segment. set (t0 := match tsopt options with Some _ => _ | None => t end). intros E.
  destruct (rx_handle_ack _ _ _ _ _ _ _ t0) as [[t1 rc1]|] eqn:E1; [|done]. exists t0.
  assert (H1 : match rc1 with
    | Ok _ => t1 = t0 \/ exists win, 0 <= win /\ t1 = (tcp_rx_ack (be_val ack) win t0).1
    | Err err => err = EINVAL /\ exists win, 0 <= win /\ t0 = (tcp_rx_ack (be_val ack) win t0).1
                 /\ t1 = tcp_xmit_reset er src dest seq ack t0 end).
  { unfold rx_handle_ack in E1. destruct (has flags TCP_ACK); [|injection E1 as <- <-; by left].
    unfold shift_window in E1. destruct (_ <? 32); [|done]. set (win := u32 _) in E1.
    assert (Hw : 0 <= win) by (apply uwrap_range; lia). 
    destruct (tcp_rx_ack_state (be_val ack) win t0) as [_ Er].
    assert (Eq : (tcp_rx_ack (be_val ack) win t0).2 <> Ok tt -> (tcp_rx_ack (be_val ack) win t0).1 = t0).
    { intros Hne. unfold tcp_rx_ack in *. destruct (snd_sent t0 <? u32 (be_val ack - snd_seq t0)); [done|].
      rewrite Er in Hne. done. }
    destruct (tcp_rx_ack (be_val ack) win t0) as [t2 [[]|err]] eqn:Et; cbn [fst snd] in *; injection E1 as <- <-.
    - right. exists win. by rewrite Et.
    - split; [by destruct (_ && _); simplify_eq|]. exists win. specialize (Eq ltac:(done)). rewrite Et. by subst t2. }
  destruct rc1 as [[]|err].
  - exists t1. split; [done|]. split; [done|]. cbv zeta. right. unfold tcp_rx_rst in E.
    destruct (has flags TCP_RST); [destruct (negb _)|]; injection E as <- <-; [right|left|right]; eauto.
  - destruct H1 as (->&win&Hw&E0&->). injection E as <- <-. exists t0. split; [done|]. split; [by left|]. left. done.
Qed.

Lemma handling_segment c ack (options : tcp_options) t t0 t1 : handling c t ->
  t0 = match tsopt options with Some tsval => set_ts_val tsval t | None => t end ->
  t1 = t0 \/ (exists win, 0 <= win /\ t1 = (tcp_rx_ack ack win t0).1) -> handling c t1.
Proof.
  intros H E0 E1. assert (H0 : handling c t0).
  { subst t0. destruct (tsopt options); [|done]. destruct H as (H&Hd&Hc). split; [|done].
    apply (inv_ext c t); try done; [apply H|by rewrite Hd]. }
  destruct E1 as [-> |(win&_&->)]; [done|by apply handling_ack].
Qed.

Lemma inv_rx_segment c e er src dest seq ack raw_win flags options payload t t' rc :
  handling c t ->
  rx_segment app_deliver app_window e er src dest seq ack raw_win flags options payload t = Some (t', rc) ->
  inv c t'.
Proof.
  intros H (t0&t1&E0&E1&Hout)%rx_segment_cases. pose proof (handling_segment c _ _ _ _ _ H E0 E1) as H1.
  destruct (handling_syn c (be_val seq) flags options t1 H1) as [H2 D2]. cbv zeta in Hout.
  destruct Hout as [(->&_)|[(->&_)|(w&->&_)]].
  - apply inv_reset; apply H1.
  - split; [apply inv_force|apply sent_close, H2].
  - apply inv_finish; [by apply inv_enqueue|by rewrite enqueue_deleted].
Qed.
End Application.

(** ** The reachable states *)

(** A network is admissible for the invariant if, for the stronger one, it is
    causal. *)
Definition admits (c : bool) (net : network) : Prop :=
  c = true -> forall t seq flags payload, net t seq flags payload -> causal_network t seq flags payload.

Lemma tcp_inv_step c net t t' : admits c net -> inv c t -> tcp_step net t t' -> inv c t'.
Proof.
  intros Hnet H Hstep. destruct Hstep as [ad aw e er src dest seq ack raw_win flags options payload t t' rc Hd Hfields Hc E
    |e t Hp|e over t Ht|e t Hk|t Hw|op t Hd].
  - eapply inv_rx_segment; [|exact E]. split; [done|]. split; [done|]. intros Ec. by apply (Hnet Ec) in Hc.
  - assert (H' : inv c (set_process false t)).
    { apply (inv_ext c t); try done; [apply H|]. intros Hd. apply H in Hd as (?&?&?&?). by split. }
    split; [apply inv_xmit, H'|apply sent_xmit, H'].
  - assert (H' : inv c (set_timer false t)).
    { apply (inv_ext c t); try done; [apply H|]. intros Hd. apply H in Hd as (?&?&?&?). by split. }
    unfold tcp_expired. destruct over; [split; [apply inv_force|apply sent_close, H']|].
    split; [apply inv_xmit, H'|apply sent_xmit, H'].
  - assert (Hd : deleted t = false).
    { destruct (deleted t) eqn:Hd; [|done]. apply H in Hd as (?&?&?&?). congruence. }
    assert (H' : inv c (or_flags TCP_ACK_PENDING (set_keepalive true (set_keepalive false t)))).
    { apply (inv_ext c t); try done; [|apply H|by rewrite Hd]. unfold xfer_closed. cbn. by rewrite has_lor, orb_false_r. }
    split; [apply inv_xmit, H'|apply sent_xmit, H'].
  - split; [apply inv_force|apply sent_close, H].
  - by apply inv_app_op.
Qed.

Lemma inv_reachable c net peer port mss seq t : admits c net ->
  rtc (tcp_step net) (tcp_new peer port mss seq) t -> inv c t.
Proof.
  intros Hnet.
  assert (H0 : inv c (tcp_new peer port mss seq)).
  { split; [|done]. destruct (tcp_new_inv peer port mss seq) as [? ? ? ? ? ? ? ?]. split; try done. destruct c; solve_state. }
  intros H. remember (tcp_new peer port mss seq) as t0 eqn:E. clear E. induction H as [|x y z Hxy _ IH]; [done|].
  apply IH. by eapply tcp_inv_step.
Qed.

(** C3. The states of a connection over a causal network, that is, one from
    which nothing arrives for the connection before our first SYN has been
    sent.  Whatever segments arrive after that, whatever the application does
    and whenever timers expire, the state mask is always one of the named
    states of RFC 793 or the state in which only our SYN has been acknowledged;
    SYN and FIN are never both being sent; a FIN is sent only after the
    application closed the connection and our SYN was acknowledged.  A
    connection in CLOSED is exactly a deleted one, and no timer or process of a
    deleted connection is left that could call back into freed memory.
    (Without causality SYN and FIN can be sent together:
    [tcp_assertions_violated].) *)
Theorem tcp_state_reachable peer port mss seq t :
  rtc (tcp_step causal_network) (tcp_new peer port mss seq) t ->
  (tcp_state t ∈ named_states \/ tcp_state t = SYN_ACKED)
  /\ (has (TCP_FLAGS_SENDING (tcp_state t)) TCP_SYN && has (TCP_FLAGS_SENDING (tcp_state t)) TCP_FIN = false)
  /\ (fin_sent (tcp_state t) = true -> xfer_closed t = true /\ syn_acked (tcp_state t) = true)
  /\ (tcp_state t = TCP_CLOSED <-> deleted t = true) /\ (deleted t = true -> no_callbacks t).
Proof.
  intros [[Hs Hd Hi Hg Hq Ho Hf Hsent] Hn]%(inv_reachable true); [|by intros _]. split; [|split; [|split; [|split]]].
  - unfold tcp_states in Hs. rewrite !elem_of_app, elem_of_cons, elem_of_nil in Hs. intuition.
  - clear - Hs. state_cases Hs; rewrite Hs; reflexivity.
  - intros E. split; [apply Hf; by rewrite E|]. clear - Hs E. state_cases Hs; rewrite Hs in *; try discriminate; reflexivity.
  - rewrite Hd. symmetry. apply Z.eqb_eq.
  - done.
Qed.

(** ** Progress *)

(** Something of ours is to be acknowledged: a SYN or FIN, or data that the
    state and the peer's window allow to be sent. *)
Definition awaiting (t : tcp_connection) : Prop :=
  has (TCP_FLAGS_SENDING (tcp_state t)) (Z.lor TCP_SYN TCP_FIN) = true
  \/ TCP_CAN_SEND_DATA (tcp_state t) = true /\ 0 < snd_win t /\ concat (tx_queue t) <> [].

Definition alive (t : tcp_connection) : Prop :=
  deleted t = false ->
  (awaiting t -> timer t = true \/ process t = true)
  /\ (TCP_CLOSED_GRACEFULLY (tcp_state t) = true -> wait t = true).

(** The data a scan of the transmit queue takes is the front of the queue. *)
Lemma tx_scan_spec q n : 0 <= n ->
  let '(data, rest, freed) := tx_scan q n in
  data = take (Z.to_nat n) (concat q) /\ concat rest = drop (Z.to_nat n) (concat q)
  /\ Forall (fun b => b <> []) rest /\ (freed + length rest = length q)%nat.
Proof.
  revert n. induction q as [|b q IH]; intros n Hn; cbn [tx_scan concat]; [by rewrite take_nil, drop_nil|].
  set (f := if n <? zlen b then n else zlen b). assert (Hf : f = Z.min n (zlen b)) by (subst f; case_if; lia).
  specialize (IH (n - f) ltac:(lia)). destruct (tx_scan q (n - f)) as [[data rest] freed].
  destruct IH as (I1&I2&I3&I4). cbn [concat length].
  assert (Et : take (Z.to_nat n) (b ++ concat q) = take (Z.to_nat f) b ++ data).
  { rewrite take_app, I1. f_equal; [|f_equal; lia]. rewrite Hf. destruct (Z.min_spec n (zlen b)) as [[? ->]|[? ->]]; [done|].
    rewrite !take_ge by lia. done. }
  assert (Ed : drop (Z.to_nat n) (b ++ concat q) = drop (Z.to_nat f) b ++ concat rest).
  { rewrite drop_app, I2. f_equal; [|f_equal; lia]. rewrite Hf. destruct (Z.min_spec n (zlen b)) as [[? ->]|[? ->]]; [done|].
    rewrite !drop_ge by lia. done. }
  rewrite Et, Ed. destruct (drop (Z.to_nat f) b) as [|x r]; cbn [app concat length].
  - split; [done|]. split; [done|]. split; [done|lia].
  - split; [done|]. split; [done|]. split; [by constructor|lia].
Qed.

Lemma xmit_len_spec t : 0 <= snd_win t ->
  xmit_len t = if TCP_CAN_SEND_DATA (tcp_state t) then Z.min (Z.min TCP_PATH_MTU (snd_win t)) (zlen (concat (tx_queue t))) else 0.
Proof.
  intros Hw. unfold xmit_len, tcp_process_tx_queue, tcp_xmit_win. destruct (TCP_CAN_SEND_DATA _); [|done]. cbn [negb].
  set (w := if _ <? snd_win t then _ else _). assert (Ew : w = Z.min TCP_PATH_MTU (snd_win t)) by (subst w; case_if; lia).
  assert (0 <= TCP_PATH_MTU) by (vm_compute; discriminate).
  pose proof (tx_scan_spec (tx_queue t) w ltac:(lia)) as S. destruct (tx_scan _ w) as [[data rest] freed].
  destruct S as (->&_). cbn [snd]. rewrite length_take. lia.
Qed.

Lemma xmit_awaiting e s t : 0 <= snd_win t ->
  awaiting (tcp_xmit_sack e s t) -> timer (tcp_xmit_sack e s t) = true.
Proof.
  intros Hw. destruct (tcp_xmit_sack_spec e s t) as (F&T&_). set (t' := tcp_xmit_sack e s t) in *.
  destruct (timer t) eqn:Et; [by rewrite T|]. destruct T as [_ ->]. unfold awaiting.
  rewrite (xf_state _ _ F), (xf_snd_win _ _ F), (xf_tx_queue _ _ F). intros Ha. apply negb_true_iff, Z.eqb_neq.
  unfold xmit_seq_len. pose proof (xmit_len_spec t Hw) as El. assert (Hm : TCP_PATH_MTU = 1208) by reflexivity.
  assert (Hr : 0 <= xmit_len t <= 1208) by (rewrite El; case_if; lia).
  rewrite (uwrap_small 32 (xmit_len t)) by lia. destruct (has _ _); [rewrite uwrap_small; lia|].
  destruct Ha as [Ha|(Hs&Hp&Hc)]; [done|]. rewrite El, Hs. destruct (concat (tx_queue t)); [done|]. cbn [length]. lia.
Qed.

(** The peer's window is never negative. *)
Lemma win_rx_ack ack win t : 0 <= win -> 0 <= snd_win t -> 0 <= snd_win (tcp_rx_ack ack win t).1.
Proof.
  intros Hw H. unfold tcp_rx_ack, tcp_process_tx_queue. destruct (_ <? _); [done|].
  destruct (negb (has _ (TCP_STATE_SENT TCP_FIN))); destruct (_ =? 0); try done.
  all: destruct (negb (Z.land _ (Z.lor TCP_SYN TCP_FIN) =? 0)); cbn [fst snd tx_queue set_snd_sent set_snd_seq].
  all: match goal with |- context [tx_scan ?q ?n] => destruct (tx_scan q n) as [[? ?] ?] end; cbn [fst].
  all: match goal with |- context [list_empty ?q && ?b && ?d] => destruct (list_empty q && b && d) end; done.
Qed.

Lemma win_xmit e s t : 0 <= snd_win t -> 0 <= snd_win (tcp_xmit_sack e s t).
Proof. destruct (tcp_xmit_sack_spec e s t) as (F&_). by rewrite (xf_snd_win _ _ F). Qed.

Lemma win_close rc t : 0 <= snd_win t -> 0 <= snd_win (tcp_close rc t).
Proof.
  intros H. unfold tcp_close. case_if; [done|]. set (t1 := if negb (has _ _) then _ else _).
  assert (0 <= snd_win t1) by (subst t1; case_if; [by apply win_rx_ack|done]). case_if; done.
Qed.

Lemma win_app ops t : 0 <= snd_win t -> 0 <= snd_win (run_app ops t).
Proof.
  revert t. induction ops as [|op ops IH]; intros t H; [done|]. apply IH.
  destruct op; cbn [run_app_op]; repeat case_if; try done; apply win_xmit; [done|by apply win_close].
Qed.

Lemma win_queue_loop ad fuel t : 0 <= snd_win t -> 0 <= snd_win (rx_queue_loop ad fuel t).
Proof.
  revert t. induction fuel as [|fuel IH]; intros t H; cbn [rx_queue_loop]; [done|].
  destruct (rx_queue t) as [|p q]; [done|]. case_if; [done|]. apply IH. unfold process_rx_packet.
  assert (H1 : 0 <= snd_win (tcp_rx_data ad (q_seq p) (q_data p) (set_rx_queue q t)).1).
  { unfold tcp_rx_data, xfer_deliver_iob. case_if; [done|]. destruct (ad _ _) as [ops rc]. by apply win_app. }
  case_if; [|done]. unfold tcp_rx_fin. case_if; [done|]. by apply win_close.
Qed.

(** Steps that end in a transmission leave the connection alive, provided the
    wait timer is as it should be. *)
Lemma alive_xmit e s t : 0 <= snd_win t -> (TCP_CLOSED_GRACEFULLY (tcp_state t) = true -> wait t = true) ->
  alive (tcp_xmit_sack e s t).
Proof.
  intros Hw Hg _. split; [intros Ha; left; by apply xmit_awaiting|].
  destruct (tcp_xmit_sack_spec e s t) as (F&_). by rewrite (xf_state _ _ F), (xf_wait _ _ F).
Qed.

(** A close by the application does not complete a graceful close. *)
Lemma close_not_graceful c s sent empty : s ∈ tcp_states c -> fin_rcvd s = false ->
  TCP_CLOSED_GRACEFULLY (close_state s sent empty) = false.
Proof.
  intros H Hf. unfold close_state. destruct c; state_cases H; subst s; try discriminate Hf.
  all: destruct empty, (sent =? 0); reflexivity.
Qed.

Definition live (c : bool) (t : tcp_connection) : Prop := inv c t /\ 0 <= snd_win t /\ alive t.

(** Changes to fields that do not matter for being alive. *)
Lemma alive_ext t t' : alive t -> tcp_state t' = tcp_state t -> snd_win t' = snd_win t -> tx_queue t' = tx_queue t ->
  deleted t' = deleted t -> timer t' = timer t -> process t' = process t -> wait t' = wait t -> alive t'.
Proof. unfold alive, awaiting. intros H -> -> -> -> -> -> ->. done. Qed.

Lemma live_app_op c t op : live c t -> live c (run_app_op t op).
Proof.
  intros (Hi&Hw&Ha). split; [by apply inv_app_op|]. split; [by apply (win_app [op])|].
  destruct Hi as [Hi Hn]. pose proof (inv_gone _ _ Hi) as Hgone. unfold xfer_closed in Hgone.
  destruct op as [e data|e rc|]; cbn [run_app_op]; [| |by apply (alive_ext t)].
  - destruct (has (conn_flags t) TCP_XFER_CLOSED); [done|]. apply alive_xmit; [done|]. apply Ha.
    by destruct (deleted t); [discriminate Hgone|].
  - destruct (has (conn_flags t) TCP_XFER_CLOSED) eqn:Ex; [done|]. apply alive_xmit; [by apply win_close|].
    assert (Hf : fin_rcvd (tcp_state t) = false).
    { pose proof (inv_fin _ _ Hi) as Hf. unfold xfer_closed in Hf. rewrite Ex in Hf.
      destruct (fin_rcvd _); [|done]. rewrite orb_true_r in Hf. by specialize (Hf eq_refl). }
    destruct (syn_rcvd (tcp_state t)) eqn:Er.
    + destruct (tcp_close_spec rc t Er Hn) as (C1&_). rewrite C1.
      rewrite (close_not_graceful c) by (done || apply Hi). done.
    + destruct (tcp_close_delete rc t Er) as (C1&_). rewrite C1. done.
Qed.

Lemma live_app c ops t : live c t -> live c (run_app ops t).
Proof. revert t. induction ops as [|op ops IH]; intros t H; [done|]. apply IH, live_app_op, H. Qed.

(** After a segment has been handled, whatever its effect was, the connection
    is alive: its process or a transmission follows. *)
Lemma live_finish c ad aw e seq w t : inv c t -> deleted t = false -> 0 <= snd_win t ->
  live c (rx_finish ad aw e seq w t).
Proof.
  intros H Hd Hw. unfold rx_finish, tcp_process_rx_queue.
  destruct (inv_queue_loop ad c (length (rx_queue t)) t H Hd) as [H1 D1].
  pose proof (win_queue_loop ad (length (rx_queue t)) t Hw) as W1. set (t1 := rx_queue_loop _ _ t) in *.
  set (t2 := if list_empty (rx_queue t1) then _ else _).
  assert (H2 : inv c t2 /\ deleted t2 = false /\ 0 <= snd_win t2 /\ (awaiting t2 -> timer t2 = true \/ process t2 = true)).
  { subst t2. case_if.
    - split; [|split; [done|split; [done|by right]]]. apply (inv_ext c t1); try done; [apply H1|]. by rewrite D1.
    - split; [split; [by apply inv_xmit, H1|by apply sent_xmit, H1]|].
      split; [destruct (tcp_xmit_sack_spec e seq t1) as (F&_); by rewrite (xf_deleted _ _ F)|].
      split; [by apply win_xmit|]. intros Ha. left. by apply xmit_awaiting. }
  destruct H2 as (H2&D2&W2&A2). clearbody t2. set (t3 := if TCP_CLOSED_GRACEFULLY _ then _ else _).
  assert (H3 : live c t3).
  { subst t3. case_if; (split; [|split; [done|]]).
    - apply (inv_ext c t2); try done; [apply H2|]. by rewrite D2.
    - intros _. split; [exact A2|done].
    - done.
    - intros _. split; [exact A2|]. by rewrite Eif. }
  case_if; [by apply live_app|done].
Qed.

Lemma win_syn seq flags options t : snd_win (rx_handle_syn seq flags options t) = snd_win t.
Proof.
  unfold rx_handle_syn, tcp_rx_syn. set (t1 := if _ && _ then _ else _).
  assert (E : snd_win t1 = snd_win t) by (subst t1; case_if; done). clearbody t1.
  destruct (has flags TCP_SYN), (negb (has (tcp_state t1) (TCP_STATE_RCVD TCP_SYN))), (tsopt options), (spopt options), (wsopt options);
    cbn; try case_if; done.
Qed.

Lemma live_step c net t t' : admits c net -> live c t -> tcp_step net t t' -> live c t'.
Proof.
  intros Hnet (H&Hw&Ha) Hstep. split; [by eapply tcp_inv_step|].
  destruct Hstep as [ad aw e er src dest seq ack raw_win flags options payload t t' rc Hd Hfields Hc E
    |e t Hp|e over t Ht|e t Hk|t Hwt|op t Hd].
  2-5: assert (Hnd : deleted t = false)
    by (destruct (deleted t) eqn:Hd; [apply H in Hd as (?&?&?&?); congruence|done]).
  - apply rx_segment_cases in E as (t0&t1&E0&E1&Hout).
    pose proof (handling_segment c _ _ t t0 t1 (conj H (conj Hd (fun Ec => Hnet Ec _ _ _ _ Hc))) E0 E1) as H1.
    assert (W1 : 0 <= snd_win t1).
    { assert (0 <= snd_win t0) by (subst t0; destruct (tsopt options); done).
      destruct E1 as [-> |(win&Hwin&->)]; [done|by apply win_rx_ack]. }
    destruct (handling_syn c (be_val seq) flags options t1 H1) as [H2 D2]. cbv zeta in Hout.
    destruct Hout as [(->&_&->)|[(->&_)|(w&->&_)]].
    + unfold tcp_xmit_reset. destruct (discards_frame (e_discards er) t0) as (F&_&T&_).
      assert (A0 : alive t0) by (subst t0; destruct (tsopt options); done).
      set (t3 := Nat.iter _ _ t0) in *. assert (A3 : alive t3 /\ 0 <= snd_win t3).
      { split; [apply (alive_ext t0); try done; apply F|]. by rewrite (xf_snd_win _ _ F). }
      case_if; [by destruct A3|]. split; [by destruct A3|]. by apply (alive_ext t3); try done; destruct A3.
    + destruct (tcp_close_delete (Err ECONNRESET) (set_tcp_state TCP_CLOSED (rx_handle_syn (be_val seq) flags options t1)) eq_refl)
        as (_&C2&_). split; [apply win_close; cbn; by rewrite win_syn|]. intros Hnd. congruence.
    + assert (live c (rx_finish ad aw e (if has flags TCP_SYN then u32 (be_val seq + 1) else be_val seq) w
        (tcp_rx_enqueue (if has flags TCP_SYN then u32 (be_val seq + 1) else be_val seq) flags payload
           (rx_handle_syn (be_val seq) flags options t1)))) as (_&?&?); [|done].
      apply live_finish; [by apply inv_enqueue|by rewrite enqueue_deleted|].
      rewrite enqueue_cases. cbv zeta. destruct (_ || _); cbn; by rewrite win_syn.
  - split; [by apply win_xmit|]. apply alive_xmit; [done|]. by apply Ha.
  - unfold tcp_expired. destruct over.
    + destruct (tcp_close_delete (Err ETIMEDOUT) (set_tcp_state TCP_CLOSED (set_timer false t)) eq_refl) as (_&C2&_).
      split; [by apply win_close|]. intros Hnd'. congruence.
    + split; [by apply win_xmit|]. apply alive_xmit; [done|]. by apply Ha.
  - split; [by apply win_xmit|]. apply alive_xmit; [done|]. by apply Ha.
  - destruct (tcp_close_delete (Ok tt) (set_tcp_state TCP_CLOSED (set_wait false t)) eq_refl) as (_&C2&_).
    split; [by apply win_close|]. intros Hnd'. unfold tcp_wait_expired in Hnd'. congruence.
  - destruct (live_app_op c t op (conj H (conj Hw Ha))) as (_&?&?). done.
Qed.

Lemma live_reachable c net peer port mss seq t : admits c net ->
  rtc (tcp_step net) (tcp_new peer port mss seq) t -> live c t.
Proof.
  intros Hnet. assert (H0 : live c (tcp_new peer port mss seq)).
  { split; [by apply (inv_reachable c net peer port mss seq), rtc_refl|]. split; [done|]. by split; [left|]. }
  intros H. remember (tcp_new peer port mss seq) as t0 eqn:E. clear E. induction H as [|x y z Hxy _ IH]; [done|].
  apply IH. by eapply live_step.
Qed.

(** C4. Progress.  Whatever segments arrive and when, a connection that has
    something to be acknowledged (a SYN or FIN it is sending, or queued data
    that the peer's window allows it to send) has its retransmission timer
    running or its transmission process scheduled, so it never waits for a
    peer that has nothing to answer; and once both FINs have been exchanged
    the wait timer that deletes the connection is running. *)
Theorem tcp_never_stuck peer port mss seq t :
  rtc (tcp_step any_network) (tcp_new peer port mss seq) t -> deleted t = false ->
  (awaiting t -> timer t = true \/ process t = true)
  /\ (TCP_CLOSED_GRACEFULLY (tcp_state t) = true -> wait t = true).
Proof. intros (_&_&Ha)%(live_reachable false); [exact Ha|by intros ?]. Qed.

(** More is possible with a network that allows more. *)
Lemma tcp_step_mono (net net' : network) t t' :
  (forall t seq flags payload, net t seq flags payload -> net' t seq flags payload) ->
  rtc (tcp_step net) t t' -> rtc (tcp_step net') t t'.
Proof.
  intros Hsub. apply rtc_subrel. intros x y [| | | | |]; [by eapply step_rx; eauto|by constructor..].
Qed.

(** ** Concrete executions *)

(** A system in which every call succeeds, and an application that only
    listens. *)
Definition quiet_env : env := Env 0 true 0 65536 true.
Definition quiet_deliver (t : tcp_connection) (data : list Z) : list app_op * res unit := ([], Ok tt).
Definition quiet_window (t : tcp_connection) : list app_op := [].

Definition quiet_rx (seq ack win flags : Z) (payload : list Z) (t : tcp_connection) : tcp_connection :=
  match rx_segment quiet_deliver quiet_window quiet_env quiet_env (be16 80) (be16 1025) (be32 seq) (be32 ack) win flags
          (TcpOptions None true (Some 7)) payload t with
  | Some (t', _) => t'
  | None => t
  end.

Lemma quiet_rx_step (net : network) seq ack win flags payload t :
  deleted t = false -> net t (u32 seq) flags payload ->
  is_Some (shift_window win (snd_win_scale t)) -> tcp_step net t (quiet_rx seq ack win flags payload t).
Proof.
  intros Hd Hc [w Hw].
  destruct (rx_segment quiet_deliver quiet_window quiet_env quiet_env (be16 80) (be16 1025) (be32 seq) (be32 ack) win flags
          (TcpOptions None true (Some 7)) payload t) as [[t' rc]|] eqn:E.
  - assert (Eq : quiet_rx seq ack win flags payload t = t') by (unfold quiet_rx; by rewrite E). rewrite Eq.
    eapply step_rx; [done| | |exact E]; [by repeat split|by rewrite be32_val].
  - exfalso. revert E. unfold rx_segment, rx_handle_ack. cbn [tsopt snd_win_scale set_ts_val]. rewrite Hw.
    destruct (has flags TCP_ACK); [destruct (tcp_rx_ack _ _ _) as [t1 [[]|err]]|]; try done;
      destruct (has flags TCP_RST); try destruct (tcp_rx_rst _ _) as [t2 [[]|err]]; done.
Qed.

(** A handshake: our SYN is sent when the timer expires, and answered. *)
Definition ex_new : tcp_connection := tcp_new 80 1025 1440 1000.
Definition ex_syn_sent : tcp_connection := tcp_expired quiet_env false (set_timer false ex_new).
Definition ex_established : tcp_connection :=
  quiet_rx 5000 1001 8192 (Z.lor TCP_SYN TCP_ACK) [] ex_syn_sent.
Definition ex_fin_wait : tcp_connection := run_app_op ex_established (AppClose quiet_env (Ok tt)).

Lemma ex_established_reachable : rtc (tcp_step causal_network) ex_new ex_established.
Proof.
  apply (rtc_l _ _ ex_syn_sent); [apply step_timer; vm_compute; reflexivity|].
  apply rtc_once, quiet_rx_step; [vm_compute; reflexivity|vm_compute; auto|vm_compute; by eexists].
Qed.

Lemma ex_fin_wait_reachable : rtc (tcp_step causal_network) ex_new ex_fin_wait.
Proof. eapply rtc_r; [apply ex_established_reachable|]. apply step_app. vm_compute; reflexivity. Qed.

Lemma tcp_state_reachable_witness :
  rtc (tcp_step causal_network) ex_new ex_fin_wait /\ tcp_state ex_fin_wait = TCP_FIN_WAIT_1
  /\ (tcp_state ex_fin_wait ∈ named_states \/ tcp_state ex_fin_wait = SYN_ACKED).
Proof.
  split; [apply ex_fin_wait_reachable|]. split; [vm_compute; reflexivity|].
  apply (tcp_state_reachable 80 1025 1440 1000 ex_fin_wait). apply ex_fin_wait_reachable.
Defined.

Lemma tcp_never_stuck_witness :
  rtc (tcp_step any_network) ex_new ex_fin_wait /\ awaiting ex_fin_wait /\ (timer ex_fin_wait = true \/ process ex_fin_wait = true).
Proof.
  assert (Hr : rtc (tcp_step any_network) ex_new ex_fin_wait)
    by (apply (tcp_step_mono causal_network); [done|apply ex_fin_wait_reachable]).
  split; [done|]. split; [left; vm_compute; reflexivity|].
  apply (tcp_never_stuck 80 1025 1440 1000 ex_fin_wait); [done|vm_compute; reflexivity|left; vm_compute; reflexivity].
Defined.

(** The states in which [tcp_expired] asserts to be called. *)
Definition expiry_states : list Z :=
  [TCP_SYN_SENT; TCP_SYN_RCVD; TCP_ESTABLISHED; TCP_FIN_WAIT_1; TCP_CLOSE_WAIT; TCP_CLOSING_OR_LAST_ACK].

(** A SYN arrives before ours was sent, and the application closes. *)
Definition ex_early : tcp_connection :=
  tcp_expired quiet_env false (set_timer false
    (run_app_op (quiet_rx 5000 0 8192 TCP_SYN [] ex_new) (AppClose quiet_env (Ok tt)))).

(** Our SYN is acknowledged by a segment without SYN, and data is sent. *)
Definition ex_acked : tcp_connection :=
  run_app_op (quiet_rx 5000 1001 8192 TCP_ACK [] ex_syn_sent) (AppSend quiet_env [0x47; 0x45; 0x54]).

(** Two assumptions of the source that do not hold.  If the peer's SYN
    arrives before our own has been sent and the application then closes the
    connection, [tcp_close] cannot pretend that the SYN was acknowledged, and a
    segment with both SYN and FIN is sent, which [tcp_xmit_sack] asserts never
    to happen.  And if the peer acknowledges our SYN without sending its own,
    data is sent in a state that has no name, whose retransmission timer
    violates the assertion of [tcp_expired]. *)
Theorem tcp_assertions_violated :
  (rtc (tcp_step any_network) ex_new ex_early
   /\ has (TCP_FLAGS_SENDING (tcp_state ex_early)) TCP_SYN = true
   /\ has (TCP_FLAGS_SENDING (tcp_state ex_early)) TCP_FIN = true
   /\ exists segment, last (tx_log ex_early) = Some segment
      /\ segment !! 13%nat = Some (Z.lor (Z.lor TCP_SYN TCP_FIN) TCP_ACK))
  /\ (rtc (tcp_step causal_network) ex_new ex_acked /\ timer ex_acked = true /\ tcp_state ex_acked ∉ expiry_states
      /\ exists segment, last (tx_log ex_acked) = Some segment /\ drop 20 segment = [0x47; 0x45; 0x54]).
Proof.
  split.
  - split; [|split; [vm_compute; reflexivity|split; [vm_compute; reflexivity|]]].
    + apply (rtc_l _ _ (quiet_rx 5000 0 8192 TCP_SYN [] ex_new)).
      { apply quiet_rx_step; [vm_compute; reflexivity|done|by eexists]. }
      eapply rtc_l; [apply step_app; vm_compute; reflexivity|]. apply rtc_once, step_timer. vm_compute; reflexivity.
    + exists (default [] (last (tx_log ex_early))). split; vm_compute; reflexivity.
  - split; [|split; [vm_compute; reflexivity|split]].
    + apply (rtc_l _ _ ex_syn_sent); [apply step_timer; vm_compute; reflexivity|].
      apply (rtc_l _ _ (quiet_rx 5000 1001 8192 TCP_ACK [] ex_syn_sent)).
      * apply quiet_rx_step; [vm_compute; reflexivity|vm_compute; auto|vm_compute; by eexists].
      * apply rtc_once, step_app. vm_compute; reflexivity.
    + apply (bool_decide_eq_true_1 _). vm_compute; reflexivity.
    + exists (default [] (last (tx_log ex_acked))). split; vm_compute; reflexivity.
Qed.
