(* ===== verification/TcpRx.v ===== *)
(** * TCP reception ([net/tcp.c])

    The peer sends a stream of bytes; the network may delay, duplicate, reorder
    and re-segment it.  The theorems say that what the connection delivers to
    the application is the stream, in order and without gaps or repetitions,
    and that what it reports as received is what it holds.  Sequence numbers
    are 32 bits on the wire; in the specification they are unbounded, and a
    segment is assumed to be within 2^30 of what the connection expects. *)

From stdpp Require Import sorting.
From S2P Require Import Prelude Memory Tcpip Tcp TcpState.

(** ** Frames: what does not touch the receive side *)

Record rx_frame (t t' : tcp_connection) : Prop := RxFrame {
  rf_ack : rcv_ack t' = rcv_ack t;
  rf_log : rx_log t' = rx_log t;
  rf_fin : fin_rcvd (tcp_state t') = fin_rcvd (tcp_state t);
  rf_win : rcv_win t <= rcv_win t' /\ (rcv_win t' = rcv_win t \/ rcv_win t' <= TCP_MAX_WINDOW_SIZE);
  rf_queue : exists n, rx_queue t' = Nat.iter n (@removelast _) (rx_queue t)
}.

Lemma rx_frame_refl t : rx_frame t t.
Proof. split; try done; [lia|by exists 0%nat]. Qed.

Lemma rx_frame_trans t1 t2 t3 : rx_frame t1 t2 -> rx_frame t2 t3 -> rx_frame t1 t3.
Proof.
  intros [] []. split; try congruence; [lia|]. destruct rf_queue0 as [n E], rf_queue1 as [m E']. exists (m + n)%nat.
  rewrite E', E. symmetry. apply Nat.iter_add.
Qed.

Lemma xmit_rx_frame e s t : rx_frame t (tcp_xmit_sack e s t).
Proof. destruct (tcp_xmit_sack_spec e s t) as ([]&_). split; try done. by rewrite xf_state. Qed.

Lemma close_rx_frame c rc t : inv c t -> synced t -> rx_frame t (tcp_close rc t).
Proof.
  intros [Hi Hn] [Hr Hd]. destruct (tcp_close_spec rc t Hr Hn) as (C1&_&_&_&C5&_&_&_&C6&C7&C8&_).
  split; [done|done| |lia|by exists 0%nat]. rewrite C1.
  destruct (close_state_ok c (tcp_state t) false (snd_sent t) (list_empty (tx_queue (tcp_close rc t))) (inv_state _ _ Hi) Hr)
    as (_&_&_&_&K5); [intros; by apply Hi|]. by rewrite K5, orb_false_r.
Qed.

Lemma app_rx_frame c ops t : inv c t -> synced t -> rx_frame t (run_app ops t).
Proof.
  revert t. induction ops as [|op ops IH]; intros t Hi Hs; [apply rx_frame_refl|].
  eapply rx_frame_trans; [|apply IH; [by apply inv_app_op|apply synced_app_op; [done|apply Hi]]].
  destruct op as [e data|e rc|]; cbn [run_app_op].
  - case_if; [apply rx_frame_refl|]. eapply rx_frame_trans; [|apply xmit_rx_frame].
    split; try done; [cbn; lia|by exists 0%nat].
  - case_if; [apply rx_frame_refl|]. eapply rx_frame_trans; [|apply xmit_rx_frame]. by apply (close_rx_frame c).
  - split; try done; [cbn; lia|by exists 1%nat].
Qed.

(** Truncating the queue keeps a relation with a list of positions. *)
Lemma iter_removelast_prefix {A} n (l : list A) : Nat.iter n (@removelast _) l = take (length l - n) l.
Proof.
  induction n as [|n IH]; [by rewrite Nat.sub_0_r, firstn_all|]. rewrite Nat.iter_succ, IH.
  rewrite removelast_firstn_len, take_take, length_take. f_equal. lia.
Qed.

(** ** The peer's stream *)

Section Stream.
(** The peer's initial sequence number, and the bytes it sends before its FIN. *)
Context (isn : Z) (stream : list Z).

(** The sequence number of the first byte. *)
Definition base : Z := isn + 1.

(** What the connection expects next, as an unbounded sequence number. *)
Definition rcv_nxt (t : tcp_connection) : Z :=
  base + zlen (concat (rx_log t)) + (if fin_rcvd (tcp_state t) then 1 else 0).

(** A payload at sequence number [a] that is part of the stream; a FIN comes
    at the end of the stream. *)
Record carries (a : Z) (fin : bool) (payload : list Z) : Prop := Carries {
  ca_lo : base <= a;
  ca_hi : a + zlen payload <= base + zlen stream;
  ca_data : payload = take (length payload) (drop (Z.to_nat (a - base)) stream);
  ca_fin : fin = true -> a + zlen payload = base + zlen stream;
  ca_len : zlen payload < 2 ^ 16
}.

(** The network delivers parts of the stream, in any order and any number of
    times, as long as they are not older or newer than 2^30 bytes. *)
Definition honest : network := fun t seq flags payload =>
  exists a, carries a (has flags TCP_FIN) payload /\ Z.abs (a - rcv_nxt t) <= 2 ^ 30
            /\ if has flags TCP_SYN then a = base /\ seq = u32 isn else seq = u32 a.

(** A queued packet at position [a]. *)
Definition queued (p : rx_queued) (a : Z) : Prop :=
  q_seq p = u32 a /\ q_nxt p = u32 (a + zlen (q_data p) + (if has (q_flags p) TCP_FIN then 1 else 0))
  /\ carries a (has (q_flags p) TCP_FIN) (q_data p).

(** The queue, ordered by position and with all positions in a range. *)
Definition queue_ok (lo hi : Z) (q : list rx_queued) : Prop :=
  exists l, Forall2 queued q l /\ StronglySorted Z.le l /\ Forall (fun a => lo <= a <= hi) l.

Record rx_ok (lo hi : Z) (t : tcp_connection) : Prop := RxOk {
  ro_ack : rcv_ack t = u32 (rcv_nxt t);
  ro_log : concat (rx_log t) `prefix_of` stream;
  ro_fin : fin_rcvd (tcp_state t) = true -> concat (rx_log t) = stream;
  ro_win : 0 <= rcv_win t <= TCP_MAX_WINDOW_SIZE;
  ro_queue : queue_ok lo hi (rx_queue t)
}.

Lemma queue_ok_take n lo hi q : queue_ok lo hi q -> queue_ok lo hi (take n q).
Proof.
  intros (l&H1&H2&H3). exists (take n l). split; [by apply Forall2_take|].
  rewrite <- (take_drop n l) in H2, H3. apply StronglySorted_app in H2 as (_&H2&_). apply Forall_app in H3 as [H3 _]. done.
Qed.

Lemma queue_ok_weaken lo hi lo' hi' q : lo' <= lo -> hi <= hi' -> queue_ok lo hi q -> queue_ok lo' hi' q.
Proof.
  intros Hl Hh (l&H1&H2&H3). exists l. split; [done|]. split; [done|]. eapply Forall_impl; [exact H3|]. cbn. lia.
Qed.

Lemma rx_ok_frame lo hi t t' : rx_ok lo hi t -> rx_frame t t' -> rx_ok lo hi t' /\ rcv_nxt t' = rcv_nxt t.
Proof.
  intros [Ha Hl Hf Hw Hq] [Fa Fl Ff Fw [n Fq]].
  assert (En : rcv_nxt t' = rcv_nxt t) by (unfold rcv_nxt; by rewrite Fl, Ff). split; [|done].
  split; rewrite ?Fl, ?Ff, ?En, ?Fq; try done; [congruence|lia|].
  rewrite iter_removelast_prefix. by apply queue_ok_take.
Qed.

Lemma rcv_nxt_le lo hi t : rx_ok lo hi t ->
  base <= rcv_nxt t <= base + zlen stream + 1
  /\ (fin_rcvd (tcp_state t) = false -> rcv_nxt t <= base + zlen stream)
  /\ (fin_rcvd (tcp_state t) = true -> rcv_nxt t = base + zlen stream + 1).
Proof.
  intros [_ Hl Hf _ _]. apply prefix_length in Hl. unfold rcv_nxt. destruct (fin_rcvd _); [rewrite (Hf eq_refl)|]; lia.
Qed.

(** Appending what a packet adds to the delivered prefix. *)
Lemma prefix_extend log payload a fin : log `prefix_of` stream -> carries a fin payload ->
  let n := base + zlen log in a <= n <= a + zlen payload ->
  let new := drop (Z.to_nat (n - a)) payload in
  (log ++ new) `prefix_of` stream /\ base + zlen (log ++ new) = a + zlen payload.
Proof.
  intros [k Hk] [Clo Chi Cd Cf Cl] n Hn new.
  assert (Hlen : zlen (log ++ new) = a + zlen payload - base).
  { subst new n. rewrite length_app, length_drop. lia. }
  split; [|lia]. exists (drop (Z.to_nat (a + zlen payload - base)) stream).
  assert (Hs : payload ++ drop (Z.to_nat (a + zlen payload - base)) stream = drop (Z.to_nat (a - base)) stream).
  { rewrite Cd at 1. replace (Z.to_nat (a + zlen payload - base)) with (Z.to_nat (a - base) + length payload)%nat by lia.
    rewrite <- drop_drop. apply take_drop. }
  rewrite <- app_assoc.
  assert (Hnew : new ++ drop (Z.to_nat (a + zlen payload - base)) stream = k).
  { assert (Ek : k = drop (length log) stream) by (rewrite Hk; by rewrite drop_app_length).
    rewrite Ek. replace (length log) with (Z.to_nat (a - base) + Z.to_nat (n - a))%nat by lia.
    rewrite <- drop_drop, <- Hs. subst new. rewrite drop_app_le by lia. done. }
  by rewrite Hnew.
Qed.

Context (app_deliver : tcp_connection -> list Z -> list app_op * res unit) (app_window : tcp_connection -> list app_op).

(** The range within which everything happens while a segment is handled. *)
Definition near (lo hi : Z) (t : tcp_connection) : Prop := hi - lo < 2 ^ 30 /\ lo <= rcv_nxt t <= hi + 2 ^ 17.

Lemma rx_ok_seq lo hi n t : rx_ok lo hi t -> 0 < n ->
  rcv_ack (tcp_rx_seq n t) = u32 (rcv_nxt t + n) /\ 0 <= rcv_win (tcp_rx_seq n t) <= TCP_MAX_WINDOW_SIZE.
Proof.
  intros [Ha Hl Hf Hw Hq] Hn. cbn. rewrite Ha, u32_add_l. split; [done|]. case_if; lia.
Qed.

Lemma rx_data_ok c lo hi a fin payload t : inv c t -> synced t -> rx_ok lo hi t -> near lo hi t ->
  carries a fin payload -> lo <= a <= hi -> a <= rcv_nxt t ->
  let t' := (tcp_rx_data app_deliver (u32 a) payload t).1 in
  rx_ok lo hi t' /\ near lo hi t' /\ rcv_nxt t' = Z.max (rcv_nxt t) (a + zlen payload).
Proof.
  intros Hi Hs Hok [Hn1 Hn2] Hc Ha Hle. cbv zeta. unfold tcp_rx_data, xfer_deliver_iob.
  destruct (rcv_nxt_le lo hi t Hok) as (R1&R2&R3). pose proof Hc as [Clo Chi Cd Cf Cl].
  rewrite (ro_ack _ _ _ Hok), u32_sub.
  rewrite (uwrap_small 32 (zlen payload)), (uwrap_small 32 (rcv_nxt t - a)) by lia.
  destruct (Z.leb_spec (zlen payload) (rcv_nxt t - a)) as [Hold|Hnew].
  { split; [done|]. split; [by split|]. cbn [fst]. lia. }
  set (new := drop (Z.to_nat (rcv_nxt t - a)) payload). set (n := zlen payload - (rcv_nxt t - a)).
  set (t1 := set_rx_log _ _).
  assert (Hfin : fin_rcvd (tcp_state t) = false) by (destruct (fin_rcvd (tcp_state t)); [lia|done]).
  destruct (rx_ok_seq lo hi n t Hok ltac:(lia)) as [A1 W1].
  assert (El : concat (rx_log t1) = concat (rx_log t) ++ new) by (cbn; rewrite concat_app; cbn; by rewrite app_nil_r).
  assert (En : rcv_nxt t = base + zlen (concat (rx_log t))) by (unfold rcv_nxt; rewrite Hfin; lia).
  destruct (prefix_extend (concat (rx_log t)) payload a fin (ro_log _ _ _ Hok) Hc) as [P1 P2]; [lia|].
  rewrite <- En in P1, P2. fold new in P1, P2.
  assert (En1 : rcv_nxt t1 = a + zlen payload).
  { unfold rcv_nxt. change (tcp_state t1) with (tcp_state t). rewrite Hfin, El. lia. }
  assert (Hok1 : rx_ok lo hi t1).
  { split; [|by rewrite El|change (tcp_state t1) with (tcp_state t); by rewrite Hfin|done|apply Hok].
    change (rcv_ack t1) with (rcv_ack (tcp_rx_seq n t)). rewrite A1, En1. f_equal. lia. }
  assert (Hi1 : inv c t1 /\ synced t1).
  { pose proof (inv_rx_seq c n t Hi (proj2 Hs)) as H1. split; [|done]. apply (inv_ext c (tcp_rx_seq n t)); try done; apply H1. }
  destruct Hi1 as [Hi1 Hs1]. destruct (app_deliver t1 new) as [ops rc]. cbn [fst].
  destruct (rx_ok_frame lo hi t1 (run_app ops t1) Hok1) as [Hok2 En2]; [by apply (app_rx_frame c)|].
  split; [done|]. split; [split; lia|]. lia.
Qed.

Lemma rx_fin_ok c lo hi a payload t : inv c t -> synced t -> rx_ok lo hi t -> near lo hi t ->
  carries a true payload -> lo <= a <= hi -> a + zlen payload <= rcv_nxt t ->
  let t' := tcp_rx_fin (u32 (u32 a + zlen payload)) t in
  rx_ok lo hi t' /\ near lo hi t' /\ rcv_nxt t' = base + zlen stream + 1.
Proof.
  intros Hi Hs Hok [Hn1 Hn2] [Clo Chi Cd Cf Cl] Ha Hle. cbv zeta. unfold tcp_rx_fin. rewrite u32_add_l.
  destruct (rcv_nxt_le lo hi t Hok) as (R1&R2&R3). specialize (Cf eq_refl). rewrite (ro_ack _ _ _ Hok).
  destruct (Z.eqb_spec (u32 (a + zlen payload)) (u32 (rcv_nxt t))) as [E|E]; cbn [negb].
  2: { split; [done|]. split; [by split|]. destruct (fin_rcvd (tcp_state t)) eqn:Ef; [by apply R3|].
       specialize (R2 eq_refl). destruct E. f_equal. lia. }
  apply u32_eq in E; [|lia]. assert (Hfin : fin_rcvd (tcp_state t) = false) by (destruct (fin_rcvd _); [lia|done]).
  destruct (rx_ok_seq lo hi 1 t Hok ltac:(lia)) as [A1 W1]. set (t1 := or_state _ (tcp_rx_seq 1 t)).
  pose proof (inv_rx_seq c 1 t Hi (proj2 Hs)) as H1.
  assert (F1 : fin_rcvd (tcp_state t1) = true) by (unfold fin_rcvd; cbn; by rewrite has_lor, orb_true_r).
  assert (El : concat (rx_log t) = stream).
  { apply prefix_length_eq; [apply Hok|]. unfold rcv_nxt in E. rewrite Hfin in E. lia. }
  assert (S1 : syn_rcvd (tcp_state t1) = true) by (destruct Hs as [Hs _]; unfold syn_rcvd in *; cbn; by rewrite has_lor, Hs).
  assert (En1 : rcv_nxt t1 = base + zlen stream + 1) by (unfold rcv_nxt; by rewrite F1; cbn; rewrite El).
  destruct (tcp_close_spec (Ok tt) t1 S1 (proj2 H1)) as (C1&_&_&_&C5&_&_&_&C6&C7&C8&_).
  destruct (close_state_ok c (tcp_state t) true (snd_sent t) (list_empty (tx_queue (tcp_close (Ok tt) t1)))
    (inv_state _ _ (proj1 Hi)) (proj1 Hs)) as (_&_&_&_&K5); [intros; apply Hi; [done|apply Hs|done]|].
  cbv zeta in K5. change (Z.lor (tcp_state t) (TCP_STATE_RCVD TCP_FIN)) with (tcp_state t1) in K5.
  change (snd_sent t) with (snd_sent t1) in K5. rewrite <- C1, orb_true_r in K5.
  assert (En2 : rcv_nxt (tcp_close (Ok tt) t1) = rcv_nxt t1) by (unfold rcv_nxt; by rewrite K5, F1, C8).
  split; [|split; [split; lia|lia]]. split; rewrite ?C6, ?C7, ?C8, ?C5, ?En2; try done.
  - change (rcv_ack t1) with (rcv_ack (tcp_rx_seq 1 t)). rewrite A1, En1. f_equal. lia.
  - apply Hok.
  - apply Hok.
Qed.

Lemma process_queue_length c p t : inv c t -> synced t ->
  (length (rx_queue (process_rx_packet app_deliver p t)) <= length (rx_queue t))%nat.
Proof.
  intros Hi Hs. unfold process_rx_packet.
  assert (H1 : (length (rx_queue (tcp_rx_data app_deliver (q_seq p) (q_data p) t).1) <= length (rx_queue t))%nat).
  { unfold tcp_rx_data, xfer_deliver_iob. case_if; [done|]. set (n := _ - _). set (t1 := set_rx_log _ _).
    pose proof (inv_rx_seq c n t Hi (proj2 Hs)) as H1.
    assert (Hi1 : inv c t1) by (apply (inv_ext c (tcp_rx_seq n t)); try done; apply H1).
    destruct (app_deliver t1 _) as [ops rc]. cbn [fst].
    destruct (app_rx_frame c ops t1 Hi1 Hs) as [_ _ _ _ [k ->]]. rewrite iter_removelast_prefix, length_take. cbn. lia. }
  pose proof (inv_rx_data app_deliver c (q_seq p) (q_data p) t Hi Hs) as [Hi2 Hs2].
  set (t2 := (tcp_rx_data app_deliver (q_seq p) (q_data p) t).1) in *. destruct (has (q_flags p) TCP_FIN); [|done].
  unfold tcp_rx_fin. case_if; [done|]. set (t3 := or_state _ _).
  assert (S3 : syn_rcvd (tcp_state t3) = true)
    by (destruct Hs2 as [Hs2 _]; unfold syn_rcvd in *; cbn; by rewrite has_lor, Hs2).
  destruct (tcp_close_spec (Ok tt) t3 S3 (proj2 Hi2)) as (_&_&_&_&C5&_). rewrite C5. done.
Qed.

Lemma process_packet_ok c lo hi p a t : inv c t -> synced t -> rx_ok lo hi t -> near lo hi t ->
  queued p a -> lo <= a <= hi -> a <= rcv_nxt t ->
  let t' := process_rx_packet app_deliver p t in
  rx_ok lo hi t' /\ near lo hi t'
  /\ rcv_nxt t' = Z.max (rcv_nxt t) (a + zlen (q_data p) + (if has (q_flags p) TCP_FIN then 1 else 0)).
Proof.
  intros Hi Hs Hok Hn (Q1&Q2&Qc) Ha Hle. cbv zeta. unfold process_rx_packet. rewrite Q1.
  destruct (rx_data_ok c lo hi a _ (q_data p) t Hi Hs Hok Hn Qc Ha Hle) as (Hok1&Hn1&E1). cbv zeta in *.
  pose proof (inv_rx_data app_deliver c (u32 a) (q_data p) t Hi Hs) as [Hi2 Hs2].
  set (t2 := (tcp_rx_data app_deliver (u32 a) (q_data p) t).1) in *.
  destruct (has (q_flags p) TCP_FIN) eqn:Ef; [|split; [done|split; [done|lia]]].
  destruct (rx_fin_ok c lo hi a (q_data p) t2 Hi2 Hs2 Hok1 Hn1 Qc Ha ltac:(lia)) as (Hok3&Hn3&E3).
  split; [done|]. split; [done|]. rewrite E3. destruct (rcv_nxt_le lo hi t Hok) as (R1&_).
  pose proof (ca_fin _ _ _ Qc eq_refl). lia.
Qed.

(** Processing the queue: it stops at the first gap, so afterwards everything
    in the queue lies beyond what is expected next; whatever the head of the
    queue held at or before that point has been consumed. *)
Lemma queue_loop_ok c fuel lo hi t : (length (rx_queue t) <= fuel)%nat -> inv c t -> deleted t = false ->
  rx_ok lo hi t -> near lo hi t ->
  let t' := rx_queue_loop app_deliver fuel t in
  rx_ok lo hi t' /\ near lo hi t' /\ rcv_nxt t <= rcv_nxt t' /\ queue_ok (rcv_nxt t' + 1) hi (rx_queue t')
  /\ (forall p q a, rx_queue t = p :: q -> queued p a -> lo <= a <= rcv_nxt t -> a <= hi ->
        a + zlen (q_data p) + (if has (q_flags p) TCP_FIN then 1 else 0) <= rcv_nxt t').
Proof.
  revert t. induction fuel as [|fuel IH]; intros t Hf Hi Hd Hok Hn; cbn [rx_queue_loop].
  { destruct (rx_queue t) eqn:Eq; [|cbn in Hf; lia]. split; [done|]. split; [done|]. split; [lia|].
    split; [rewrite ?Eq; exists []; repeat constructor|done]. }
  destruct (rx_queue t) as [|p q] eqn:Eq.
  { split; [done|]. split; [done|]. split; [lia|]. split; [rewrite ?Eq; exists []; repeat constructor|done]. }
  destruct (ro_queue _ _ _ Hok) as (l&Q1&Q2&Q3). rewrite Eq in Q1.
  destruct l as [|a l]; [by apply Forall2_cons_nil_inv in Q1|]. apply Forall2_cons in Q1 as [Qp Qq].
  pose proof Qp as (E1&_&Qc). apply Forall_cons in Q3 as [Ha Q3]. destruct Hn as [Hn1 Hn2].
  rewrite E1, (ro_ack _ _ _ Hok), tcp_cmp_abs by lia.
  assert (Hr : syn_rcvd (tcp_state t) = true) by (apply Hi; by rewrite Eq).
  apply StronglySorted_cons in Q2 as [Q2a Q2].
  destruct (Z.ltb_spec 0 (a - rcv_nxt t)) as [Hgap|Hle].
  - split; [done|]. split; [by split|]. split; [lia|]. split.
    + rewrite ?Eq. exists (a :: l). split; [by constructor|]. split; [by apply StronglySorted_cons|].
      constructor; [lia|]. rewrite Forall_forall in Q2a, Q3 |- *. intros x Hx. specialize (Q2a x Hx). specialize (Q3 x Hx). cbn in *. lia.
    + intros p' q' a' [= <- <-] (E1'&_) Ha' Hh. rewrite E1 in E1'. apply u32_eq in E1'; lia.
  - assert (Hi1 : inv c (set_rx_queue q t)) by (apply (inv_ext c t); try done; by rewrite Hd).
    assert (Hs1 : synced (set_rx_queue q t)) by done.
    assert (Hok1 : rx_ok lo hi (set_rx_queue q t)).
    { destruct Hok as [O1 O2 O3 O4 O5]. split; try done. by exists l. }
    destruct (process_packet_ok c lo hi p a (set_rx_queue q t)) as (Hok2&Hn2'&E2); try done; [cbn; change (rcv_nxt (set_rx_queue q t)) with (rcv_nxt t); lia|].
    pose proof (process_queue_length c p (set_rx_queue q t) Hi1 Hs1) as Hl. cbn in Hl, Hf.
    destruct (inv_process_packet app_deliver c p (set_rx_queue q t) Hi1 Hs1) as [Hi2 [_ Hd2]].
    set (t2 := process_rx_packet app_deliver p (set_rx_queue q t)) in *. cbv zeta in E2.
    change (rcv_nxt (set_rx_queue q t)) with (rcv_nxt t) in E2.
    destruct (IH t2 ltac:(lia) Hi2 Hd2 Hok2 Hn2') as (L1&L2&L3&L4&_). split; [done|]. split; [done|]. split; [lia|].
    split; [done|]. intros p' q' a' [= <- <-] (E1'&_) Ha' Hh. rewrite E1 in E1'. apply u32_eq in E1'; [|lia]. subst a'. lia.
Qed.

(** *** Queueing *)

Lemma rx_insert_ok lo hi p a q : hi - lo < 2 ^ 30 -> queued p a -> lo <= a <= hi -> queue_ok lo hi q ->
  queue_ok lo hi (rx_insert p q).
Proof.
  intros Hr Hp Ha (l&H1&H2&H3). pose proof Hp as (E1&_).
  assert (exists l', Forall2 queued (rx_insert p q) l' /\ StronglySorted Z.le l' /\ Forall (fun a => lo <= a <= hi) l'
            /\ forall x, x ∈ l' -> x = a \/ x ∈ l) as (l'&?&?&?&_); [|by exists l'].
  revert q H1. induction l as [|b l IH]; intros q H1.
  - apply Forall2_nil_inv_r in H1 as ->. cbn [rx_insert]. exists [a].
    split; [constructor; [done|constructor]|]. split; [by repeat constructor|]. split; [by constructor|].
    intros x Hx. apply elem_of_cons in Hx as [-> |Hx]; auto.
  - apply Forall2_cons_inv_r in H1 as (h&q'&Hh&Hq&->). pose proof Hh as (E2&_). apply Forall_cons in H3 as [Hb H3].
    apply StronglySorted_cons in H2 as [H2a H2]. cbn [rx_insert]. rewrite E1, E2, tcp_cmp_abs by lia.
    destruct (Z.ltb_spec (a - b) 0) as [Hlt|Hge].
    + exists (a :: b :: l). split; [constructor; [done|by constructor]|].
      split; [|split; [constructor; [done|by constructor]|]].
      * apply StronglySorted_cons. split; [|by apply StronglySorted_cons]. constructor; [lia|].
        eapply Forall_impl; [exact H2a|]. cbn. lia.
      * intros x Hx. apply elem_of_cons in Hx as [-> |Hx]; auto.
    + destruct (IH H2 H3 q' Hq) as (l'&I1&I2&I3&I4). exists (b :: l'). split; [by constructor|]. split; [|split; [by constructor|]].
      * apply StronglySorted_cons. split; [|done]. rewrite Forall_forall in H2a |- *. intros x [-> |Hx]%I4; [lia|by apply H2a].
      * intros x Hx. rewrite elem_of_cons in Hx |- *. destruct Hx as [-> |[-> |]%I4]; auto.
Qed.

Lemma rx_insert_first p a q lo hi : queued p a -> queue_ok lo hi q -> a < lo -> hi - a < 2 ^ 31 -> rx_insert p q = p :: q.
Proof.
  intros (E1&_) (l&H1&_&H3) Hlt Hr. destruct q as [|h q]; [done|]. destruct l as [|b l]; [by apply Forall2_cons_nil_inv in H1|].
  apply Forall2_cons in H1 as [(E2&_) _]. apply Forall_cons in H3 as [Hb _]. cbn [rx_insert].
  rewrite E1, E2, tcp_cmp_abs by lia. by rewrite (proj2 (Z.ltb_lt _ _)) by lia.
Qed.

Lemma has_fin flags : has (Z.land flags TCP_FIN) TCP_FIN = has flags TCP_FIN
  /\ negb (Z.land flags TCP_FIN =? 0) = has flags TCP_FIN.
Proof. unfold has. by rewrite <- Z.land_assoc, Z.land_diag. Qed.

(** The sequence space a segment takes. *)
Definition span (flags : Z) (payload : list Z) : Z := zlen payload + (if has flags TCP_FIN then 1 else 0).

Abbreviation M := TCP_MAX_WINDOW_SIZE (only parsing).

Lemma enqueue_ok a flags payload t : syn_rcvd (tcp_state t) = true ->
  rx_ok (rcv_nxt t + 1) (rcv_nxt t + M) t -> carries a (has flags TCP_FIN) payload -> Z.abs (a - rcv_nxt t) <= 2 ^ 30 ->
  let t' := tcp_rx_enqueue (u32 a) flags payload t in
  rx_ok (rcv_nxt t - 2 ^ 17) (rcv_nxt t + M) t' /\ rcv_nxt t' = rcv_nxt t
  /\ (a <= rcv_nxt t < a + span flags payload -> a < rcv_nxt t + rcv_win t ->
      exists p q, rx_queue t' = p :: q /\ queued p a /\ zlen (q_data p) + (if has (q_flags p) TCP_FIN then 1 else 0) = span flags payload
                  /\ rcv_nxt t - 2 ^ 17 <= a).
Proof.
  intros Hr Hok Hc Ha. cbv zeta. rewrite enqueue_cases. cbv zeta. rewrite Hr. cbn [negb orb].
  destruct (has_fin flags) as [F1 F2]. rewrite F2. set (f := if has flags TCP_FIN then 1 else 0).
  assert (Hf : 0 <= f <= 1) by (subst f; destruct (has _ _); lia). pose proof (ca_len _ _ _ Hc).
  assert (HM : M = 2097152) by reflexivity. pose proof (ro_win _ _ _ Hok) as Hw.
  rewrite (uwrap_small 32 (zlen payload + f)) by lia. rewrite u32_add_l, (ro_ack _ _ _ Hok), u32_add_l.
  rewrite tcp_cmp_abs, tcp_cmp_abs by lia. unfold span. fold f.
  assert (Hok' : rx_ok (rcv_nxt t - 2 ^ 17) (rcv_nxt t + M) t).
  { destruct Hok as [O1 O2 O3 O4 O5]. split; try done. eapply queue_ok_weaken; [| |exact O5]; lia. }
  destruct ((0 <=? a - (rcv_nxt t + rcv_win t)) || (a + (zlen payload + f) - rcv_nxt t <? 0) || (zlen payload + f =? 0)) eqn:Edrop.
  - split; [done|]. split; [done|]. intros H1 H2. exfalso. apply not_false_iff_true in Edrop. apply Edrop. clear Edrop.
    rewrite !orb_false_iff, Z.leb_gt, Z.ltb_ge, Z.eqb_neq. lia.
  - rewrite !orb_false_iff, Z.leb_gt, Z.ltb_ge, Z.eqb_neq in Edrop. destruct Edrop as [[D1 D2] D3].
    set (p := RxQueued _ _ _ _).
    assert (Hp : queued p a) by (split; [done|]; subst p; cbn; rewrite F1; fold f; split; [f_equal; lia|done]).
    split; [|split; [done|]].
    + destruct Hok' as [O1 O2 O3 O4 O5]. split; try done. apply (rx_insert_ok _ _ p a); [lia|done|lia|done].
    + intros H1 H2. exists p, (rx_queue t). split; [cbn|].
      * apply (rx_insert_first p a _ (rcv_nxt t + 1) (rcv_nxt t + M)); [done|apply Hok|lia|lia].
      * split; [done|]. split; [by subst p; cbn; rewrite F1|]. lia.
Qed.

(** *** Executions *)

(** Between events: everything queued lies beyond what is expected next. *)
Definition settled (t : tcp_connection) : Prop := rx_ok (rcv_nxt t + 1) (rcv_nxt t + M) t.

Definition unsynced (t : tcp_connection) : Prop := rx_log t = [] /\ 0 <= rcv_win t <= M.

Record rxinv (t : tcp_connection) : Prop := RxInv {
  ri_log : concat (rx_log t) `prefix_of` stream;
  ri_fin : fin_rcvd (tcp_state t) = true -> concat (rx_log t) = stream;
  ri_rx : deleted t = false -> if syn_rcvd (tcp_state t) then settled t else unsynced t
}.

(** Without the peer's SYN there is no FIN. *)
Lemma unsynced_fin c t : inv c t -> syn_rcvd (tcp_state t) = false -> fin_rcvd (tcp_state t) = false.
Proof.
  intros [[Hs _ _ _ _ _ _ _] _]. destruct c; state_cases Hs; rewrite Hs; try discriminate; reflexivity.
Qed.

Lemma unsynced_queue c t : inv c t -> syn_rcvd (tcp_state t) = false -> rx_queue t = [].
Proof. intros [[_ _ _ _ Hq _ _ _] _] E. destruct (rx_queue t); [done|]. specialize (Hq ltac:(done)). congruence. Qed.

Lemma settled_frame t t' : settled t -> rx_frame t t' -> settled t'.
Proof. intros H F. destruct (rx_ok_frame _ _ _ _ H F) as [H' E]. unfold settled. by rewrite E. Qed.

(** Steps of a connection that do not involve the receive side. *)
Lemma rxinv_frame c t t' : inv c t -> inv c t' -> rxinv t -> rx_frame t t' ->
  (deleted t' = false -> deleted t = false /\ syn_rcvd (tcp_state t') = syn_rcvd (tcp_state t)) -> rxinv t'.
Proof.
  intros Hi Hi' [H1 H2 H3] F Hd. split; [by rewrite (rf_log _ _ F)|rewrite (rf_log _ _ F), (rf_fin _ _ F); done|].
  intros D'. destruct (Hd D') as [D Es]. specialize (H3 D). rewrite Es.
  destruct (syn_rcvd (tcp_state t)); [by eapply settled_frame|]. destruct H3 as [U1 U2]. destruct F as [_ F2 _ F4 _].
  split; [congruence|lia].
Qed.

(** Fields that matter for neither invariant. *)
Lemma rxinv_ext t t' : rxinv t -> rx_log t' = rx_log t -> tcp_state t' = tcp_state t -> deleted t' = deleted t ->
  rcv_ack t' = rcv_ack t -> rcv_win t' = rcv_win t -> rx_queue t' = rx_queue t -> rxinv t'.
Proof.
  intros [H1 H2 H3] E1 E2 E3 E4 E5 E6. split; rewrite ?E1, ?E2, ?E3; try done. intros D. specialize (H3 D).
  destruct (syn_rcvd (tcp_state t)); [|unfold unsynced in *; by rewrite E1, E5].
  eapply settled_frame; [exact H3|]. split; try done; [congruence|rewrite E5; lia|by exists 0%nat].
Qed.

Lemma closed_rxinv rc t : concat (rx_log t) `prefix_of` stream -> syn_rcvd (tcp_state t) = false -> rxinv (tcp_close rc t).
Proof.
  intros Hl Hr. destruct (tcp_close_delete rc t Hr) as (C1&C2&_&_&_&_&C3&_).
  split; rewrite ?C1, ?C2, ?C3; done.
Qed.

Lemma rxinv_xmit c e s t : inv c t -> rxinv t -> rxinv (tcp_xmit_sack e s t).
Proof.
  intros Hi H. destruct (tcp_xmit_sack_spec e s t) as (F&_). apply (rxinv_frame c t); try done.
  - split; [apply inv_xmit, Hi|apply sent_xmit, Hi].
  - apply xmit_rx_frame.
  - rewrite (xf_deleted _ _ F), (xf_state _ _ F). done.
Qed.

Lemma rxinv_app_op c t op : inv c t -> rxinv t -> rxinv (run_app_op t op).
Proof.
  intros Hi H. pose proof (inv_gone _ _ (proj1 Hi)) as Hgone. unfold xfer_closed in Hgone.
  destruct op as [e data|e rc|]; cbn [run_app_op].
  - destruct (has (conn_flags t) TCP_XFER_CLOSED); [done|]. apply (rxinv_xmit c).
    + by apply (inv_ext c t); try done; apply Hi.
    + by apply (rxinv_ext t).
  - destruct (has (conn_flags t) TCP_XFER_CLOSED) eqn:Ex; [done|].
    assert (Hd : deleted t = false) by (destruct (deleted t); [by discriminate Hgone|done]).
    apply (rxinv_xmit c); [split; [by apply inv_close; try apply Hi|apply sent_close, Hi]|].
    destruct (syn_rcvd (tcp_state t)) eqn:Er; [|by apply closed_rxinv; [apply H|]].
    apply (rxinv_frame c t); try done.
    + split; [by apply inv_close; try apply Hi|apply sent_close, Hi].
    + by apply (close_rx_frame c).
    + intros _. split; [done|]. rewrite Er. by apply synced_close; [|apply Hi].
  - apply (rxinv_frame c t); try done; [split; [apply inv_discard, Hi|apply Hi]|].
    split; try done; [cbn; lia|by exists 1%nat].
Qed.

Lemma rxinv_app c ops t : inv c t -> rxinv t -> rxinv (run_app ops t).
Proof.
  revert t. induction ops as [|op ops IH]; intros t Hi H; [done|]. apply IH; [by apply inv_app_op|by eapply rxinv_app_op].
Qed.

Lemma synced_loop c fuel t : inv c t -> synced t -> synced (rx_queue_loop app_deliver fuel t).
Proof.
  revert t. induction fuel as [|fuel IH]; intros t Hi Hs; cbn [rx_queue_loop]; [done|].
  destruct (rx_queue t) as [|p q]; [done|]. case_if; [done|].
  destruct (inv_process_packet app_deliver c p (set_rx_queue q t)) as [Hi1 Hs1]; [|done|by apply IH].
  apply (inv_ext c t); try done; [intros _; apply Hs|]. destruct Hs as [_ ->]. done.
Qed.

(** After the queue has been processed, the rest of the handler does not touch
    the receive side. *)
Lemma finish_frame c e seq w t : inv c t -> synced t ->
  rx_frame (tcp_process_rx_queue app_deliver t) (rx_finish app_deliver app_window e seq w t).
Proof.
  intros Hi Hs. unfold rx_finish, tcp_process_rx_queue.
  destruct (inv_queue_loop app_deliver c (length (rx_queue t)) t Hi (proj2 Hs)) as [H1 _].
  pose proof (synced_loop c (length (rx_queue t)) t Hi Hs) as S1. set (t1 := rx_queue_loop _ _ t) in *.
  set (t2 := if list_empty (rx_queue t1) then _ else _).
  assert (H2 : rx_frame t1 t2 /\ inv c t2 /\ synced t2).
  { subst t2. case_if.
    - split; [split; try done; [cbn; lia|by exists 0%nat]|]. split; [|done].
      apply (inv_ext c t1); try done; [apply H1|]. destruct S1 as [_ ->]. done.
    - split; [apply xmit_rx_frame|]. split; [split; [apply inv_xmit, H1|apply sent_xmit, H1]|by apply synced_xmit]. }
  destruct H2 as (F2&H2&S2). clearbody t2. set (t3 := if TCP_CLOSED_GRACEFULLY _ then _ else _).
  assert (H3 : rx_frame t2 t3 /\ inv c t3 /\ synced t3).
  { subst t3. case_if; [|split; [apply rx_frame_refl|done]].
    split; [split; try done; [cbn; lia|by exists 0%nat]|]. split; [|done].
    apply (inv_ext c t2); try done; [apply H2|]. destruct S2 as [_ ->]. done. }
  destruct H3 as (F3&H3&S3). eapply rx_frame_trans; [exact F2|]. eapply rx_frame_trans; [exact F3|].
  case_if; [by apply (app_rx_frame c)|apply rx_frame_refl].
Qed.

(** The processing of the queue settles the connection. *)
Lemma rxinv_queue c t lo hi : inv c t -> deleted t = false ->
  (if syn_rcvd (tcp_state t) then rx_ok lo hi t /\ near lo hi t /\ hi <= rcv_nxt t + M else unsynced t) ->
  let t1 := tcp_process_rx_queue app_deliver t in inv c t1 /\ deleted t1 = false /\ rxinv t1.
Proof.
  intros Hi Hd H t1. destruct (inv_queue_loop app_deliver c (length (rx_queue t)) t Hi Hd) as [Hi1 D1].
  split; [done|]. split; [done|]. destruct (syn_rcvd (tcp_state t)) eqn:Er.
  - destruct H as (Hok&Hn&Hhi).
    destruct (queue_loop_ok c (length (rx_queue t)) lo hi t (le_n _) Hi Hd Hok Hn) as (L1&L2&L3&L4&_).
    fold (tcp_process_rx_queue app_deliver t) in L1, L2, L3, L4. fold t1 in L1, L2, L3, L4.
    split; [apply L1|apply L1|]. intros _. destruct (syn_rcvd (tcp_state t1)) eqn:Er1.
    + destruct L1 as [O1 O2 O3 O4 O5]. split; try done. eapply queue_ok_weaken; [| |exact L4]; lia.
    + exfalso. subst t1. unfold tcp_process_rx_queue in Er1.
      destruct (synced_loop c (length (rx_queue t)) t Hi (conj Er Hd)) as [E _]. congruence.
  - assert (E1 : t1 = t) by (subst t1; unfold tcp_process_rx_queue; by rewrite (unsynced_queue c t Hi Er)).
    rewrite E1. destruct H as [U1 U2]. split; rewrite ?U1; cbn [concat].
    + apply prefix_nil.
    + rewrite (unsynced_fin c t Hi Er). done.
    + intros _. rewrite Er. by split.
Qed.

(** The end of the handler. *)
Lemma rxinv_finish c e seq w t lo hi : inv c t -> deleted t = false ->
  (if syn_rcvd (tcp_state t) then rx_ok lo hi t /\ near lo hi t /\ hi <= rcv_nxt t + M else unsynced t) ->
  rxinv (rx_finish app_deliver app_window e seq w t).
Proof.
  intros Hi Hd H. unfold rx_finish. destruct (rxinv_queue c t lo hi Hi Hd H) as (Hi1&D1&H1). cbv zeta in *.
  set (t1 := tcp_process_rx_queue app_deliver t) in *.
  clearbody t1. set (t2 := if list_empty (rx_queue t1) then _ else _).
  assert (H2 : inv c t2 /\ rxinv t2 /\ deleted t2 = false).
  { subst t2. case_if.
    - split; [|split; [by apply (rxinv_ext t1)|done]]. apply (inv_ext c t1); try done; [apply Hi1|]. by rewrite D1.
    - split; [split; [apply inv_xmit, Hi1|apply sent_xmit, Hi1]|]. split; [by apply (rxinv_xmit c)|].
      destruct (tcp_xmit_sack_spec e seq t1) as (F&_). by rewrite (xf_deleted _ _ F). }
  destruct H2 as (Hi2&H2&D2). clearbody t2. set (t3 := if TCP_CLOSED_GRACEFULLY _ then _ else _).
  assert (H3 : inv c t3 /\ rxinv t3).
  { subst t3. case_if; [|done]. split; [|by apply (rxinv_ext t2)]. apply (inv_ext c t2); try done; [apply Hi2|]. by rewrite D2. }
  destruct H3. case_if; [by apply (rxinv_app c)|done].
Qed.

Lemma rx_ack_frame c ack win t : inv c t -> deleted t = false ->
  rx_frame t (tcp_rx_ack ack win t).1 /\ syn_rcvd (tcp_state (tcp_rx_ack ack win t).1) = syn_rcvd (tcp_state t).
Proof.
  intros Hi Hd. pose proof (tcp_rx_ack_frame ack win t) as (Fd&Fq&Fc&Fp&Fw&Fa&Fwin&Frl&_).
  destruct (tcp_rx_ack_state ack win t) as [S _]. set (t' := (tcp_rx_ack ack win t).1) in *.
  assert (E : fin_rcvd (tcp_state t') = fin_rcvd (tcp_state t) /\ syn_rcvd (tcp_state t') = syn_rcvd (tcp_state t)).
  { destruct (_ || _); [by destruct S as (->&_)|]. destruct S as (->&_). destruct Hi as [[Hs Hd' _ _ _ Ho _ _] _].
    rewrite Hd in Hd'. symmetry in Hd'. apply Z.eqb_neq in Hd'.
    destruct (ack_state_ok c (tcp_state t) (list_empty (tx_queue t') && xfer_closed t) Hs Hd') as (_&_&_&A4&A5&_); [|done].
    intros [_ Ex]%andb_prop. by destruct (Ho Ex). }
  destruct E as [E1 E2]. split; [|done]. split; try done; [lia|by exists 0%nat].
Qed.

Lemma handle_syn_ok c a seq flags options payload t : inv c t -> deleted t = false -> rxinv t ->
  carries a (has flags TCP_FIN) payload -> Z.abs (a - rcv_nxt t) <= 2 ^ 30 ->
  (if has flags TCP_SYN then a = base /\ seq = u32 isn else seq = u32 a) ->
  let t2 := rx_handle_syn seq flags options t in
  concat (rx_log t2) `prefix_of` stream /\ rcv_nxt t2 = rcv_nxt t
  /\ (if syn_rcvd (tcp_state t2) then settled t2 /\ (if has flags TCP_SYN then u32 (seq + 1) else seq) = u32 a else unsynced t2)
  /\ (syn_rcvd (tcp_state t) = true -> syn_rcvd (tcp_state t2) = true /\ rcv_win t2 = rcv_win t).
Proof.
  intros Hi Hd H Hc Ha Hseq. cbv zeta. unfold rx_handle_syn. set (t1 := if _ && _ then _ else _).
  assert (F1 : rxinv t1 /\ tcp_state t1 = tcp_state t /\ rx_log t1 = rx_log t /\ deleted t1 = false /\ rcv_ack t1 = rcv_ack t
    /\ rcv_win t1 = rcv_win t /\ rx_queue t1 = rx_queue t).
  { subst t1. case_if; [|done]. split; [|done]. by apply (rxinv_ext t). }
  clearbody t1. destruct F1 as (H1&E1&E2&E3&E4&E5&E6).
  assert (En : rcv_nxt t1 = rcv_nxt t) by (unfold rcv_nxt; by rewrite E1, E2). pose proof (ri_rx _ H1 E3) as Hrx.
  rewrite E1 in Hrx. unfold tcp_rx_syn. fold (syn_rcvd (tcp_state t1)). rewrite E1.
  destruct (syn_rcvd (tcp_state t)) eqn:Er; cbn [negb].
  - assert (Hn : base <= rcv_nxt t) by (unfold rcv_nxt; destruct (fin_rcvd _); lia).
    assert (Es : has flags TCP_SYN = true -> (seq =? rcv_ack t1) = false).
    { intros Ef. rewrite Ef in Hseq. destruct Hseq as [-> ->]. rewrite (ro_ack _ _ _ Hrx), En. apply Z.eqb_neq.
      intros E. apply u32_eq in E; unfold base in *; lia. }
    destruct (has flags TCP_SYN).
    + rewrite (Es eq_refl). cbn [negb]. rewrite E1, Er. split; [apply H1|]. split; [done|]. split; [|done].
      split; [done|]. destruct Hseq as [-> ->]. by rewrite u32_add_l.
    + rewrite E1, Er. split; [apply H1|]. split; [done|]. done.
  - destruct Hrx as [U1 U2]. destruct (has flags TCP_SYN); [|rewrite E1, Er; split; [apply H1|]; by split; [|split]].
    destruct Hseq as [Hab ->].
    set (t2 := match wsopt options with Some _ => _ | None => _ end).
    assert (F2 : tcp_state t2 = tcp_state t /\ rx_log t2 = [] /\ rcv_ack t2 = u32 isn /\ 0 <= rcv_win t2 <= M /\ rx_queue t2 = []).
    { rewrite <- E1. assert (Eq : rx_queue t1 = []) by (rewrite E6; by apply (unsynced_queue c)).
      subst t2. destruct (wsopt options), (spopt options), (tsopt options); cbn; rewrite U1, Eq; done. }
    clearbody t2. destruct F2 as (F1&F2&F3&F4&F5). rewrite F3, Z.eqb_refl. cbn [negb]. set (t3 := or_state _ _).
    assert (Es : syn_rcvd (tcp_state t3) = true) by (unfold syn_rcvd; cbn; rewrite has_lor; apply orb_true_r).
    assert (Ef : fin_rcvd (tcp_state t3) = false).
    { unfold fin_rcvd. cbn. rewrite has_lor, F1. pose proof (unsynced_fin c t Hi Er) as Hfin. unfold fin_rcvd in Hfin. rewrite Hfin. done. }
    assert (El : rx_log t3 = []) by (cbn; done).
    assert (En3 : rcv_nxt t3 = base) by (unfold rcv_nxt; rewrite Ef, El; cbn; lia).
    assert (En0 : rcv_nxt t = base) by (unfold rcv_nxt; rewrite (unsynced_fin c t Hi Er), <- E2, U1; cbn; lia).
    rewrite Es, El. split; [apply prefix_nil|]. split; [congruence|]. split; [|done]. split.
    + split; rewrite ?El, ?Ef; try done; [|apply prefix_nil| |].
      * rewrite En3. cbn. rewrite F3. apply u32_add_l.
      * cbn. case_if; lia.
      * cbn. rewrite F5. exists []. repeat constructor.
    + subst a. apply u32_add_l.
Qed.

Lemma rxinv_rx_segment c e er src dest seq ack raw_win flags options payload t t' rc :
  handling c t -> rxinv t -> honest t (be_val seq) flags payload ->
  rx_segment app_deliver app_window e er src dest seq ack raw_win flags options payload t = Some (t', rc) ->
  rxinv t' /\ (rc = Ok tt -> exists w t3,
    t' = rx_finish app_deliver app_window e (if has flags TCP_SYN then u32 (be_val seq + 1) else be_val seq) w t3
    /\ let t4 := tcp_process_rx_queue app_deliver t3 in deleted t4 = false /\ rxinv t4).
Proof.
  intros Hh H (a&Hc&Ha&Hseq) (t0&t1&E0&E1&Hout)%rx_segment_cases.
  pose proof (handling_segment c _ _ _ _ _ Hh E0 E1) as H1. pose proof (handling_segment c 0 options _ _ t0 Hh E0 (or_introl eq_refl)) as H0.
  assert (X0 : rxinv t0 /\ rcv_nxt t0 = rcv_nxt t) by (subst t0; destruct (tsopt options); [split; [by apply (rxinv_ext t)|done]|done]).
  destruct X0 as [X0 N0].
  assert (X1 : rxinv t1 /\ rcv_nxt t1 = rcv_nxt t).
  { destruct E1 as [-> |(win&_&->)]; [done|]. destruct H0 as (I0&D0&_). destruct (rx_ack_frame c (be_val ack) win t0 I0 D0) as [F S].
    split; [|unfold rcv_nxt in *; by rewrite (rf_log _ _ F), (rf_fin _ _ F)].
    apply (rxinv_frame c t0); try done; [apply H1]. }
  destruct X1 as [X1 N1]. destruct (handling_syn c (be_val seq) flags options t1 H1) as [H2 D2].
  destruct (handle_syn_ok c a (be_val seq) flags options payload t1) as (Y1&Y2&Y3&_); try done;
    [apply H1|apply H1|by rewrite N1|]. cbv zeta in *. set (t2 := rx_handle_syn (be_val seq) flags options t1) in *.
  set (sq := if has flags TCP_SYN then u32 (be_val seq + 1) else be_val seq) in *.
  destruct Hout as [(->&->&->)|[(->&->)|(w&->&_)]].
  - split; [|done]. unfold tcp_xmit_reset. destruct (discards_frame (e_discards er) t0) as (F&_). set (t3 := Nat.iter _ _ t0) in *.
    assert (X3 : rxinv t3).
    { apply (rxinv_frame c t0); try done; [apply H0|apply inv_discards, H0| |by rewrite (xf_deleted _ _ F), (xf_state _ _ F)].
      destruct F. split; try done. by rewrite xf_state. }
    case_if; [done|]. by apply (rxinv_ext t3).
  - split; [|done]. by apply closed_rxinv.
  - set (t3 := tcp_rx_enqueue sq flags payload t2).
    assert (D3 : deleted t3 = false) by (subst t3; by rewrite enqueue_deleted).
    assert (P : inv c t3 /\ exists lo hi, if syn_rcvd (tcp_state t3) then rx_ok lo hi t3 /\ near lo hi t3 /\ hi <= rcv_nxt t3 + M else unsynced t3).
    { subst t3. split; [by apply inv_enqueue|]. destruct (syn_rcvd (tcp_state t2)) eqn:Er.
      - destruct Y3 as [Y3 Y4]. rewrite Y4.
        destruct (enqueue_ok a flags payload t2 Er Y3 Hc ltac:(by rewrite Y2, N1)) as (Q1&Q2&_). cbv zeta in *.
        exists (rcv_nxt t2 - 2 ^ 17), (rcv_nxt t2 + M).
        assert (Es : tcp_state (tcp_rx_enqueue (u32 a) flags payload t2) = tcp_state t2)
          by (rewrite enqueue_cases; cbv zeta; by destruct (_ || _)).
        rewrite Es, Er. split; [done|]. assert (M = 2097152) by reflexivity. split; [split; lia|lia].
      - assert (Eq : tcp_rx_enqueue sq flags payload t2 = t2) by (rewrite enqueue_cases; cbv zeta; by rewrite Er).
        rewrite Eq. exists 0, 0. by rewrite Er. }
    destruct P as (I3&lo&hi&P). split; [by apply (rxinv_finish c e sq w t3 lo hi)|]. intros _. exists w, t3. split; [done|].
    by apply (rxinv_queue c t3 lo hi).
Qed.
End Stream.

Section Executions.
Context (isn : Z) (stream : list Z).

Lemma rxinv_new peer port mss seq : rxinv isn stream (tcp_new peer port mss seq).
Proof. split; cbn; [apply prefix_nil|done|]. intros _. split; [done|]. vm_compute. split; discriminate. Qed.

Lemma rxinv_step t t' : inv false t -> rxinv isn stream t -> tcp_step (honest isn stream) t t' -> rxinv isn stream t'.
Proof.
  intros Hi H Hstep. destruct Hstep as [ad aw e er src dest seq ack raw_win flags options payload t t' rc Hd Hfields Hc E
    |e t Hp|e over t Ht|e t Hk|t Hwt|op t Hd].
  - by apply (rxinv_rx_segment isn stream ad aw false) in E as [E _].
  - apply (rxinv_xmit isn stream false); [|by apply (rxinv_ext isn stream t)].
    apply (inv_ext false t); try done; [apply Hi|]. intros Hd. apply Hi in Hd as (?&?&?&?). by split.
  - unfold tcp_expired. destruct over; [by apply closed_rxinv; [apply H|]|].
    apply (rxinv_xmit isn stream false); [|by apply (rxinv_ext isn stream t)].
    apply (inv_ext false t); try done; [apply Hi|]. intros Hd. apply Hi in Hd as (?&?&?&?). by split.
  - assert (Hd : deleted t = false) by (destruct (deleted t) eqn:Hd; [apply Hi in Hd as (?&?&?&?); congruence|done]).
    apply (rxinv_xmit isn stream false); [|by apply (rxinv_ext isn stream t)].
    apply (inv_ext false t); try done; [|apply Hi|by rewrite Hd]. unfold xfer_closed. cbn. by rewrite has_lor, orb_false_r.
  - by apply closed_rxinv; [apply H|].
  - by apply (rxinv_app_op isn stream false).
Qed.

Lemma rxinv_reachable peer port mss seq t :
  rtc (tcp_step (honest isn stream)) (tcp_new peer port mss seq) t -> inv false t /\ rxinv isn stream t.
Proof.
  assert (H0 : inv false (tcp_new peer port mss seq) /\ rxinv isn stream (tcp_new peer port mss seq)).
  { split; [by eapply (inv_reachable false any_network peer port mss seq); [intros ?|apply rtc_refl]|apply rxinv_new]. }
  intros H. remember (tcp_new peer port mss seq) as t0 eqn:E. clear E. induction H as [|x y z Hxy _ IH]; [done|].
  apply IH. destruct H0 as [Hi H0]. split; [|by eapply rxinv_step].
  eapply (tcp_inv_step false (honest isn stream)); [by intros ?|exact Hi|exact Hxy].
Qed.

(** C1. Reception.  However the network reorders, duplicates, delays, re-cuts
    or loses the peer's segments, and whatever the application does meanwhile,
    the bytes delivered to the application are a prefix of the peer's stream,
    in order and each once; while the connection exists, the acknowledgement
    number is the sequence number after the delivered bytes (after the FIN,
    once it was received), so nothing is acknowledged that was not delivered;
    and when the FIN has been received the whole stream has been delivered. *)
Theorem tcp_delivers_stream peer port mss seq t :
  rtc (tcp_step (honest isn stream)) (tcp_new peer port mss seq) t ->
  concat (rx_log t) `prefix_of` stream
  /\ (fin_rcvd (tcp_state t) = true -> concat (rx_log t) = stream)
  /\ (deleted t = false -> syn_rcvd (tcp_state t) = true -> rcv_ack t = u32 (rcv_nxt isn t)).
Proof.
  intros [_ [H1 H2 H3]]%rxinv_reachable. split; [done|]. split; [done|]. intros Hd Hr. specialize (H3 Hd).
  rewrite Hr in H3. apply H3.
Qed.

(** C5. Progress of reception.  A segment with new data at or before the
    next expected byte, and within the receive window, is consumed when it
    arrives: the connection then expects what follows it (or more, if queued
    packets closed the gap behind it).  The same holds for a FIN. *)
Theorem tcp_rx_progress app_deliver app_window e er src dest seq ack raw_win flags options payload peer port mss iss t t' a :
  rtc (tcp_step (honest isn stream)) (tcp_new peer port mss iss) t ->
  deleted t = false -> syn_rcvd (tcp_state t) = true -> has flags TCP_SYN = false ->
  be_val seq = u32 a -> carries isn stream a (has flags TCP_FIN) payload ->
  a <= rcv_nxt isn t < a + span flags payload -> Z.abs (a - rcv_nxt isn t) <= 2 ^ 30 -> a < rcv_nxt isn t + rcv_win t ->
  rx_segment app_deliver app_window e er src dest seq ack raw_win flags options payload t = Some (t', Ok tt) ->
  a + span flags payload <= rcv_nxt isn t'.
Proof.
  intros [Hi H]%rxinv_reachable Hd Hr Hsyn Eseq Hc Hspan Ha Hwin E.
  apply rx_segment_cases in E as (t0&t1&E0&E1&Hout). rewrite Hsyn in Hout. cbv zeta in Hout.
  assert (Hh : handling false t) by done.
  pose proof (handling_segment false _ _ _ _ _ Hh E0 E1) as H1.
  pose proof (handling_segment false 0 options _ _ t0 Hh E0 (or_introl eq_refl)) as H0.
  assert (X0 : rx_frame t t0 /\ syn_rcvd (tcp_state t0) = syn_rcvd (tcp_state t) /\ rcv_win t0 = rcv_win t).
  { subst t0. destruct (tsopt options); [|split; [apply rx_frame_refl|done]]. split; [|done]. split; try done; [cbn; lia|by exists 0%nat]. }
  destruct X0 as (X0&S0&W0).
  assert (X1 : rx_frame t t1 /\ syn_rcvd (tcp_state t1) = syn_rcvd (tcp_state t) /\ rcv_win t1 = rcv_win t).
  { destruct E1 as [-> |(win&_&->)]; [done|]. destruct H0 as (I0&D0&_). destruct (rx_ack_frame false (be_val ack) win t0 I0 D0) as [F S].
    split; [by eapply rx_frame_trans|]. split; [congruence|].
    pose proof (tcp_rx_ack_frame (be_val ack) win t0) as (_&_&_&_&_&_&Fwin&_). congruence. }
  destruct X1 as (X1&S1&W1). assert (N1 : rcv_nxt isn t1 = rcv_nxt isn t) by (unfold rcv_nxt; by rewrite (rf_log _ _ X1), (rf_fin _ _ X1)).
  assert (R1 : rxinv isn stream t1).
  { apply (rxinv_frame isn stream false t); try done. apply H1. }
  destruct (handling_syn false (be_val seq) flags options t1 H1) as [H2 D2].
  destruct (handle_syn_ok isn stream false a (be_val seq) flags options payload t1) as (Y1&Y2&Y3&Y4); try done;
    [apply H1|apply H1|by rewrite N1|by rewrite Hsyn|].
  cbv zeta in *. set (t2 := rx_handle_syn (be_val seq) flags options t1) in *.
  destruct (Y4 ltac:(congruence)) as [S2 W2]. rewrite S2 in Y3. destruct Y3 as [Y3 _].
  destruct Hout as [(_&?&_)|[(_&?)|(w&->&_)]]; [done|done|]. rewrite Eseq.
  destruct (enqueue_ok isn stream a flags payload t2 S2 Y3 Hc ltac:(by rewrite Y2, N1)) as (Q1&Q2&Q3). cbv zeta in *.
  destruct Q3 as (p&q&Q3&Q4&Q5&Q6); [by rewrite Y2, N1|by rewrite Y2, N1, W2, W1|].
  set (t3 := tcp_rx_enqueue (u32 a) flags payload t2) in *.
  pose proof (inv_enqueue false (u32 a) flags payload t2 H2 D2) as H3. fold t3 in H3.
  assert (D3 : deleted t3 = false) by (subst t3; by rewrite enqueue_deleted).
  assert (HM : TCP_MAX_WINDOW_SIZE = 2097152) by reflexivity.
  destruct (queue_loop_ok isn stream app_deliver false (length (rx_queue t3)) _ _ t3 (le_n _) H3 D3 Q1 ltac:(split; lia))
    as (L1&L2&L3&L4&L5).
  specialize (L5 p q a Q3 Q4 ltac:(lia) ltac:(lia)).
  assert (S3 : syn_rcvd (tcp_state t3) = true).
  { subst t3. rewrite enqueue_cases. cbv zeta. by destruct (_ || _). }
  pose proof (finish_frame app_deliver app_window false e (u32 a) w t3 H3 (conj S3 D3)) as F.
  unfold rcv_nxt. rewrite (rf_log _ _ F), (rf_fin _ _ F). fold (rcv_nxt isn (tcp_process_rx_queue app_deliver t3)).
  unfold tcp_process_rx_queue. lia.
Qed.

(** *** Selective acknowledgement *)

(** A packet of the queue holds sequence number [x]. *)
Definition holds (q : list rx_queued) (x : Z) : Prop :=
  exists p a, p ∈ q /\ queued isn stream p a
              /\ a <= x < a + zlen (q_data p) + (if has (q_flags p) TCP_FIN then 1 else 0).

(** The scan for a block, with the limits of the block so far. *)
Lemma sack_scan_ok R hi seq q q0 l al ar : hi - R < 2 ^ 30 ->
  Forall2 (queued isn stream) q l -> Forall (fun a => R + 1 <= a <= hi) l -> (forall p, p ∈ q -> p ∈ q0) ->
  (al = R /\ ar = R \/ R < al <= ar) -> ar <= hi + 2 ^ 17 -> (forall x, al <= x < ar -> holds q0 x) ->
  exists al' ar', sack_scan q seq (u32 al) (u32 ar) = (u32 al', u32 ar')
    /\ (al' = R /\ ar' = R \/ R < al' <= ar') /\ ar' <= hi + 2 ^ 17 /\ (forall x, al' <= x < ar' -> holds q0 x).
Proof.
  intros Hr H2 Hb Hq. revert al ar Hb Hq. induction H2 as [|p a q l Hp H2 IH]; intros al ar Hb Hq Hlr Hhi Hheld; cbn [sack_scan].
  { by exists al, ar. }
  apply Forall_cons in Hb as [Ha Hb]. pose proof Hp as (E1&E2&Hc). pose proof (ca_len _ _ _ _ _ Hc) as Hl.
  set (f := if has (q_flags p) TCP_FIN then 1 else 0) in *. assert (Hf : 0 <= f <= 1) by (subst f; destruct (has _ _); lia).
  rewrite E1, E2. rewrite tcp_cmp_abs by lia. rewrite (tcp_cmp_abs (a + zlen (q_data p) + f) ar) by lia.
  assert (Hp0 : forall x, a <= x < a + zlen (q_data p) + f -> holds q0 x).
  { intros x Hx. exists p, a. split; [apply Hq; left|]. by split. }
  assert (Hq' : forall p', p' ∈ q -> p' ∈ q0) by (intros p' ?; apply Hq; by right).
  destruct (Z.ltb_spec 0 (a - ar)) as [Hgap|Hin].
  - destruct (0 <? tcp_cmp (u32 a) seq); [by exists al, ar|].
    destruct (Z.ltb_spec 0 (a + zlen (q_data p) + f - ar)); [|lia].
    apply IH; try done; [lia|lia].
  - destruct (Z.ltb_spec 0 (a + zlen (q_data p) + f - ar)) as [Hext|Hno]; apply IH; try done; try lia.
    intros x Hx. destruct (Z.lt_ge_cases x ar); [apply Hheld; lia|apply Hp0; lia].
Qed.

(** A block beyond [R] that the packets of the queue hold completely. *)
Definition sack_ok (R : Z) (q : list rx_queued) (b : Z * Z) : Prop :=
  exists l r, b = (u32 l, u32 r) /\ R < l < r /\ forall x, l <= x < r -> holds q x.

(** The queue lies beyond the acknowledgement number [R]. *)
Definition sackable (R : Z) (t : tcp_connection) : Prop :=
  rcv_ack t = u32 R /\ queue_ok isn stream (R + 1) (R + TCP_MAX_WINDOW_SIZE) (rx_queue t).

Lemma sack_block_ok R t seq : sackable R t ->
  let '(len, b) := tcp_sack_block t seq in len <> 0 -> sack_ok R (rx_queue t) b.
Proof.
  intros (O1&l&Q1&Q2&Q3). unfold tcp_sack_block. rewrite O1.
  assert (HM : TCP_MAX_WINDOW_SIZE = 2097152) by reflexivity.
  destruct (sack_scan_ok R (R + TCP_MAX_WINDOW_SIZE) seq (rx_queue t) (rx_queue t) l R R) as (al&ar&E&Hlr&Hhi&Hheld); try done;
    [lia|by left|lia|intros; lia|].
  rewrite E. case_if; [done|]. intros Hne. exists al, ar. split; [done|]. split; [|done].
  assert (al <> ar) by (intros ->; apply Hne; by rewrite Z.sub_diag). lia.
Qed.

Lemma sack_update_ok R t old new : sackable R t -> (length new <= TCP_SACK_MAX)%nat -> Forall (sack_ok R (rx_queue t)) new ->
  (length (sack_update t old new) <= TCP_SACK_MAX)%nat /\ Forall (sack_ok R (rx_queue t)) (sack_update t old new).
Proof.
  intros Hs. revert new. induction old as [|[l r] old IH]; intros new Hl Hf; cbn [sack_update]; [done|].
  destruct (Nat.eqb_spec (length new) TCP_SACK_MAX) as [|Hne]; [done|]. case_if; [by apply IH|].
  pose proof (sack_block_ok R t l Hs) as Hb. destruct (tcp_sack_block t l) as [len b].
  destruct (Z.eqb_spec len 0) as [|Hlen]; [by apply IH|]. case_if; [by apply IH|].
  apply IH; [rewrite length_app; cbn; unfold TCP_SACK_MAX in *; lia|]. apply Forall_app. split; [done|]. constructor; [by apply Hb|done].
Qed.

Lemma tcp_sack_ok R t seq : sackable R t -> let '(t', blocks) := tcp_sack t seq in
  (length blocks <= TCP_SACK_MAX)%nat /\ length (sack t') = TCP_SACK_MAX /\ Forall (sack_ok R (rx_queue t)) blocks.
Proof.
  intros Hs. unfold tcp_sack. pose proof (sack_block_ok R t seq Hs) as Hb. destruct (tcp_sack_block t seq) as [len b].
  destruct (sack_update_ok R t (sack t) (if len =? 0 then [] else [b]) Hs) as [U1 U2].
  - case_if; cbn; unfold TCP_SACK_MAX; lia.
  - case_if; [done|]. constructor; [by apply Hb|done].
  - split; [done|]. split; [|done]. cbn [sack set_sack]. rewrite length_app, length_replicate. lia.
Qed.

(** A segment of a connection that expects [R]: its acknowledgement number is
    [R], and besides the options of a SYN and the timestamp it has either no
    option or up to three SACK blocks, all of them held in the queue [q]. *)
Definition sacks_held (R : Z) (q : list rx_queued) (seg : list Z) : Prop :=
  exists t flags blocks ticks (syn ts : bool) payload,
    seg = tcp_segment t flags ((if list_empty blocks then [] else sack_option blocks)
                               ++ (if ts then ts_option ticks t else []) ++ (if syn then syn_options t else [])) payload
    /\ rcv_ack t = u32 R /\ (length blocks <= TCP_SACK_MAX)%nat /\ Forall (sack_ok R q) blocks.

(** The options of a transmission. *)
Lemma xmit_options_sacks R e t flags seq : sackable R t ->
  let '(t', options) := xmit_options e t flags seq in
  rx_queue t' = rx_queue t /\ tx_log t' = tx_log t
  /\ forall payload, sacks_held R (rx_queue t) (tcp_segment t' flags options payload).
Proof.
  intros Hs. unfold xmit_options. set (syn := has flags TCP_SYN). set (ts := syn || has (conn_flags t) TCP_TS_ENABLED).
  assert (Eo : (if ts then ts_option (e_ticks e) t ++ (if syn then syn_options t else []) else if syn then syn_options t else [])
    = (if ts then ts_option (e_ticks e) t else []) ++ (if syn then syn_options t else [])) by (by destruct ts). rewrite Eo.
  assert (Hnone : forall payload, sacks_held R (rx_queue t)
    (tcp_segment t flags ((if ts then ts_option (e_ticks e) t else []) ++ (if syn then syn_options t else [])) payload)).
  { intros payload. exists t, flags, [], (e_ticks e), syn, ts, payload. split_and!; [done|apply Hs|cbn; lia|constructor]. }
  case_if; [|done]. pose proof (tcp_sack_ok R t seq Hs) as Hb.
  assert (Et : exists l, (tcp_sack t seq).1 = set_sack l t) by (unfold tcp_sack; destruct (tcp_sack_block t seq); by eexists).
  destruct (tcp_sack t seq) as [t' blocks]. destruct Et as [l Et]. cbn in Et. subst t'. destruct Hb as (B1&_&B2).
  assert (Hall : forall payload, sacks_held R (rx_queue t) (tcp_segment (set_sack l t) flags ((if list_empty blocks then [] else sack_option blocks)
    ++ (if ts then ts_option (e_ticks e) t else []) ++ (if syn then syn_options t else [])) payload)).
  { intros payload. exists (set_sack l t), flags, blocks, (e_ticks e), syn, ts, payload. split_and!; [done|apply Hs|done|done]. }
  destruct (list_empty blocks); done.
Qed.

(** A transmission from a connection whose queue is beyond what it expects. *)
Definition transmits_held (R : Z) (t : tcp_connection) : Prop := forall e seq,
  let t' := tcp_xmit_sack e seq t in
  tx_log t' = tx_log t \/ exists seg, tx_log t' = tx_log t ++ [seg] /\ sacks_held R (rx_queue t') seg.

Lemma sackable_transmits R t : sackable R t -> transmits_held R t.
Proof.
  intros [Ha Hq] e seq. cbv zeta. unfold tcp_xmit_sack. case_if; [by left|]. set (len := if TCP_CAN_SEND_DATA _ then _ else 0).
  set (flags := TCP_FLAGS_SENDING _). set (sl := if has flags _ then _ else _). case_if; [by left|].
  set (t1 := if negb (sl =? 0) then _ else _). assert (F1 : rcv_ack t1 = rcv_ack t /\ rx_queue t1 = rx_queue t /\ tx_log t1 = tx_log t) by (subst t1; by case_if).
  destruct F1 as (A1&Q1&L1). clearbody t1. destruct (discards_frame (e_discards e) t1) as (F&_&_&_&L2&_). set (t2 := Nat.iter _ _ t1) in *.
  case_if; [left; congruence|]. set (t3 := expand_window e t2).
  assert (F3 : rcv_ack t3 = rcv_ack t2 /\ rx_queue t3 = rx_queue t2 /\ tx_log t3 = tx_log t2) by (subst t3; unfold expand_window; clearbody t2; destruct (rcv_win t2 <? _); done).
  destruct F3 as (A3&Q3&L3).
  assert (Hs3 : sackable R t3).
  { destruct (xf_rx_queue _ _ F) as [n Eq]. split; [rewrite A3, (xf_rcv_ack _ _ F); congruence|]. rewrite Q3, Eq, Q1, iter_removelast_prefix. by apply queue_ok_take. }
  pose proof (xmit_options_sacks R e t3 flags seq Hs3) as Ho. destruct (xmit_options e t3 flags seq) as [t4 options]. destruct Ho as (Q4&L4&Ho).
  right. eexists. split; [case_if; cbn; rewrite L4, L3, L2, L1; reflexivity|].
  assert (Eq : forall u, rx_queue (if negb (e_tx e) then set_tx_log u t4 else clear_flags TCP_ACK_PENDING (set_tx_log u t4)) = rx_queue t3) by (intros u; by case_if).
  rewrite Eq. apply Ho.
Qed.

Lemma settled_sackable t : settled isn stream t -> sackable (rcv_nxt isn t) t.
Proof. intros [O1 _ _ _ O5]. by split. Qed.

(** C6. Selective acknowledgement.  Between events (whatever the fields of the
    connection outside its receive queue), and again when the queue has been
    processed after a segment arrived, which is when the segment is
    acknowledged: whichever sequence number the first block is asked for and
    whatever blocks were reported before, [tcp_sack] reports at most three
    blocks; each lies beyond the acknowledgement number and is not empty, and
    every byte of it is held in the receive queue; and these are the SACK
    blocks of the segment that is transmitted.  (While data is being delivered
    the first block of a segment that the application sends can begin at the
    acknowledgement number: [tcp_sack_in_delivery].) *)
Theorem tcp_sack_held peer port mss iss t :
  rtc (tcp_step (honest isn stream)) (tcp_new peer port mss iss) t ->
  deleted t = false -> syn_rcvd (tcp_state t) = true ->
  (forall t0 seq, rcv_ack t0 = rcv_ack t -> rx_queue t0 = rx_queue t ->
     let '(t', blocks) := tcp_sack t0 seq in
     (length blocks <= TCP_SACK_MAX)%nat /\ length (sack t') = TCP_SACK_MAX
     /\ Forall (sack_ok (rcv_nxt isn t) (rx_queue t)) blocks /\ transmits_held (rcv_nxt isn t) t0)
  /\ (forall app_deliver app_window e er src dest seq ack raw_win flags options payload t',
     honest isn stream t (be_val seq) flags payload ->
     rx_segment app_deliver app_window e er src dest seq ack raw_win flags options payload t = Some (t', Ok tt) ->
     exists w t3, t' = rx_finish app_deliver app_window e (if has flags TCP_SYN then u32 (be_val seq + 1) else be_val seq) w t3
     /\ let t4 := tcp_process_rx_queue app_deliver t3 in
        syn_rcvd (tcp_state t4) = true -> transmits_held (rcv_nxt isn t4) t4).
Proof.
  intros [Hi H]%rxinv_reachable Hd Hr. split.
  - intros t0 seq Ea Eq. pose proof (ri_rx _ _ _ H Hd) as Hs. rewrite Hr in Hs. apply settled_sackable in Hs.
    assert (Hs0 : sackable (rcv_nxt isn t) t0) by (destruct Hs; split; congruence).
    pose proof (tcp_sack_ok _ t0 seq Hs0) as Ho. destruct (tcp_sack t0 seq) as [t' blocks]. destruct Ho as (O1&O2&O3).
    rewrite Eq in O3. by split_and!; [| | |apply sackable_transmits].
  - intros ad aw e er src dest seq ack raw_win flags options payload t' Hh E.
    assert (Hhd : handling false t) by done.
    destruct (rxinv_rx_segment isn stream ad aw false _ _ _ _ _ _ _ _ _ _ _ _ _ Hhd H Hh E) as [_ Hx].
    destruct (Hx eq_refl) as (w&t3&E3&D4&H4). exists w, t3. split; [done|]. intros t4 R4. apply sackable_transmits, settled_sackable.
    pose proof (ri_rx _ _ _ H4 D4) as Hs. fold t4 in Hs. by rewrite R4 in Hs.
Qed.
End Executions.

(** ** A concrete execution

    The peer's stream is six bytes; its second half arrives first. *)
Definition ex_stream : list Z := [10; 11; 12; 13; 14; 15].
Definition ex_gap : tcp_connection := quiet_rx 5004 1001 8192 (Z.lor TCP_ACK TCP_FIN) [13; 14; 15] ex_established.
Definition ex_full : tcp_connection := quiet_rx 5001 1001 8192 TCP_ACK [10; 11; 12] ex_gap.

Ltac solve_carries := split; vm_compute; first [reflexivity | discriminate | auto].

Lemma ex_gap_reachable : rtc (tcp_step (honest 5000 ex_stream)) ex_new ex_gap.
Proof.
  apply (rtc_l _ _ ex_syn_sent); [apply step_timer; vm_compute; reflexivity|].
  apply (rtc_l _ _ ex_established); [|apply rtc_once].
  - apply quiet_rx_step; [vm_compute; reflexivity| |vm_compute; by eexists].
    exists 5001. split; [solve_carries|]. split; [vm_compute; discriminate|by split].
  - apply quiet_rx_step; [vm_compute; reflexivity| |vm_compute; by eexists].
    exists 5004. split; [solve_carries|]. split; [vm_compute; discriminate|done].
Qed.

Lemma ex_first_half : carries 5000 ex_stream 5001 (has TCP_ACK TCP_FIN) [10; 11; 12].
Proof. solve_carries. Qed.

Lemma ex_full_reachable : rtc (tcp_step (honest 5000 ex_stream)) ex_new ex_full.
Proof.
  eapply rtc_r; [apply ex_gap_reachable|]. apply quiet_rx_step; [vm_compute; reflexivity| |vm_compute; by eexists].
  exists 5001. split; [apply ex_first_half|]. split; [vm_compute; discriminate|done].
Qed.

Lemma tcp_delivers_stream_witness :
  rtc (tcp_step (honest 5000 ex_stream)) ex_new ex_full /\ concat (rx_log ex_full) = ex_stream.
Proof.
  split; [apply ex_full_reachable|].
  apply (tcp_delivers_stream 5000 ex_stream 80 1025 1440 1000 ex_full); [apply ex_full_reachable|vm_compute; reflexivity].
Defined.

Lemma tcp_rx_progress_witness :
  rtc (tcp_step (honest 5000 ex_stream)) ex_new ex_gap /\ rcv_nxt 5000 ex_gap = 5001 /\ 5004 <= rcv_nxt 5000 ex_full.
Proof.
  split; [apply ex_gap_reachable|]. split; [vm_compute; reflexivity|].
  apply (tcp_rx_progress 5000 ex_stream quiet_deliver quiet_window quiet_env quiet_env (be16 80) (be16 1025) (be32 5001) (be32 1001)
    8192 TCP_ACK (TcpOptions None true (Some 7)) [10; 11; 12] 80 1025 1440 1000 ex_gap ex_full 5001).
  - apply ex_gap_reachable.
  - vm_compute; reflexivity.
  - vm_compute; reflexivity.
  - reflexivity.
  - reflexivity.
  - apply ex_first_half.
  - split; vm_compute; [discriminate|reflexivity].
  - vm_compute; discriminate.
  - vm_compute; reflexivity.
  - vm_compute; reflexivity.
Defined.

Lemma tcp_sack_held_witness :
  rtc (tcp_step (honest 5000 ex_stream)) ex_new ex_gap /\ (tcp_sack ex_gap 5004).2 = [(5004, 5008)]
  /\ (let '(t', blocks) := tcp_sack ex_gap 5004 in
      (length blocks <= TCP_SACK_MAX)%nat /\ length (sack t') = TCP_SACK_MAX
      /\ Forall (sack_ok 5000 ex_stream (rcv_nxt 5000 ex_gap) (rx_queue ex_gap)) blocks
      /\ transmits_held 5000 ex_stream (rcv_nxt 5000 ex_gap) ex_gap).
Proof.
  split; [apply ex_gap_reachable|]. split; [vm_compute; reflexivity|].
  assert (Hd : deleted ex_gap = false) by (vm_compute; reflexivity).
  assert (Hr : syn_rcvd (tcp_state ex_gap) = true) by (vm_compute; reflexivity).
  exact (proj1 (tcp_sack_held 5000 ex_stream 80 1025 1440 1000 ex_gap ex_gap_reachable Hd Hr) ex_gap 5004 eq_refl eq_refl).
Defined.

(** An application that sends while data is delivered to it, when the packet
    behind that data is queued already: its segment acknowledges 5004 and has a
    SACK block that begins there. *)
Definition chatty_deliver (t : tcp_connection) (data : list Z) : list app_op * res unit := ([AppSend quiet_env [1]], Ok tt).

Example tcp_sack_in_delivery :
  match rx_segment chatty_deliver quiet_window quiet_env quiet_env (be16 80) (be16 1025) (be32 5001) (be32 1001) 8192
          TCP_ACK (TcpOptions None true (Some 7)) [10; 11; 12] ex_gap with
  | Some (t', Ok _) => exists seg, tx_log t' = tx_log ex_gap ++ [seg]
      /\ take 4 (drop 8 seg) = be32 5004 /\ take 12 (drop 20 seg) = sack_option [(5004, 5008)]
  | _ => False
  end.
Proof. vm_compute. eexists. split; [reflexivity|]. split; reflexivity. Qed.
