(* ===== verification/TcpTx.v ===== *)
(** * TCP transmission ([net/tcp.c])

    The segments a connection sends: their headers are well formed and are
    read back by the receive path as they were meant; their payloads are the
    application's bytes at the sequence numbers of the headers, whatever is
    acknowledged and retransmitted in between.  Also the parser of received
    options, on arbitrary bytes, and the shutdown of all connections. *)

From S2P Require Import Prelude Memory Tcpip Tcp TcpState.

(** ** The header length *)

Lemma sack_update_length t old new : (length new <= TCP_SACK_MAX)%nat -> (length (sack_update t old new) <= TCP_SACK_MAX)%nat.
Proof.
  revert new. induction old as [|[l r] old IH]; intros new Hl; cbn [sack_update]; [done|].
  destruct (Nat.eqb_spec (length new) TCP_SACK_MAX) as [|Hne]; [done|]. case_if; [by apply IH|].
  destruct (tcp_sack_block t l) as [len b]. repeat case_if; try by apply IH.
  apply IH. rewrite length_app. cbn. unfold TCP_SACK_MAX in *. lia.
Qed.

Lemma sack_option_length blocks : zlen (sack_option blocks) = 4 + 8 * zlen blocks.
Proof.
  unfold sack_option. rewrite length_app. cbn [length].
  assert (E : length (concat (map (fun b => be32 b.1 ++ be32 b.2) blocks)) = (8 * length blocks)%nat).
  { induction blocks as [|b l IH]; [done|]. cbn [map concat]. rewrite length_app, IH. cbn [length app be32]. lia. }
  rewrite E. lia.
Qed.

(** The options come in multiples of four bytes.  Without SYN there is room
    for them in the header; with SYN, there is room if nothing is reported by
    SACK. *)
Lemma xmit_options_length e t flags s :
  let options := (xmit_options e t flags s).2 in
  zlen options mod 4 = 0
  /\ (has flags TCP_SYN = false -> zlen options <= 40)
  /\ (has flags TCP_SYN = true -> rx_queue t = [] -> zlen options = 24).
Proof.
  unfold xmit_options, tcp_sack. destruct (tcp_sack_block t s) as [len b].
  set (blocks := sack_update t (sack t) _). set (iobuf := if _ || _ then _ else _).
  assert (Hb : (length blocks <= TCP_SACK_MAX)%nat) by (apply sack_update_length; case_if; cbn; unfold TCP_SACK_MAX; lia).
  assert (Hi : zlen iobuf = (if has flags TCP_SYN then 24 else if has (conn_flags t) TCP_TS_ENABLED then 12 else 0))
    by (subst iobuf; destruct (has flags TCP_SYN), (has (conn_flags t) TCP_TS_ENABLED); reflexivity).
  destruct (has (conn_flags t) TCP_SACK_ENABLED && negb (list_empty (rx_queue t))) eqn:Es.
  - assert (Hne : rx_queue t <> []) by (intros E; by rewrite E, andb_false_r in Es).
    destruct (list_empty blocks); cbn [snd].
    + rewrite Hi. split; [repeat case_if; done|]. split; [intros ->; case_if; lia|done].
    + rewrite zlen_app, sack_option_length, Hi. unfold TCP_SACK_MAX in Hb. split.
      * replace (4 + 8 * zlen blocks + _) with (0 + (1 + 2 * zlen blocks + (if has flags TCP_SYN then 6 else if has (conn_flags t) TCP_TS_ENABLED then 3 else 0)) * 4)
          by (repeat case_if; lia). by rewrite Z_mod_plus_full.
      * split; [intros ->; case_if; lia|done].
  - cbn [snd]. rewrite Hi. split; [repeat case_if; done|]. split; [intros ->; case_if; lia|intros -> _; done].
Qed.

(** ** Reading a segment back *)

(** The header length, as the receiver computes it. *)
Definition seg_hlen (seg : list Z) : Z :=
  match mem_byte seg 12 with Some b => Z.land b TCP_MASK_HLEN / 16 * 4 | None => 0 end.
Definition seg_seq (seg : list Z) : Z := be_val (take 4 (drop 4 seg)).
Definition seg_flags (seg : list Z) : Z := default 0 (mem_byte seg 13).
Definition seg_payload (seg : list Z) : list Z := drop (Z.to_nat (seg_hlen seg)) seg.

Lemma hlen_field n : 20 <= n <= 60 -> n mod 4 = 0 -> Z.land (u8 (Z.shiftl n 2)) TCP_MASK_HLEN / 16 * 4 = n.
Proof.
  intros Hn Hm.
  pose proof (range_check 20 41 (fun n => negb (n mod 4 =? 0) || (Z.land (u8 (Z.shiftl n 2)) TCP_MASK_HLEN / 16 * 4 =? n))
    ltac:(vm_compute; reflexivity) n ltac:(lia)) as H.
  cbv beta in H. rewrite Hm in H. cbn [negb orb] in H. by apply Z.eqb_eq.
Qed.

Lemma tcp_segment_flags t flags options payload :
  seg_flags (tcp_segment t flags options payload) = (if negb (zlen payload =? 0) then Z.lor flags TCP_PSH else flags).
Proof. reflexivity. Qed.

Lemma tcp_segment_read t flags options payload :
  zlen options mod 4 = 0 -> zlen options <= 40 ->
  let seg := tcp_segment t flags options payload in
  seg_hlen seg = 20 + zlen options /\ seg_payload seg = payload /\ seg_seq seg = u32 (snd_seq t)
  /\ seg_flags seg = (if negb (zlen payload =? 0) then Z.lor flags TCP_PSH else flags).
Proof.
  intros Hm Hl. cbv zeta. unfold tcp_segment, with_csum. set (fl := if negb _ then _ else flags).
  set (csum := tcpip_chksum _). unfold tcp_header.
  assert (E1 : seg_hlen (be16 (local_port t) ++ be16 (peer_port t) ++ be32 (snd_seq t) ++ be32 (rcv_ack t)
    ++ [u8 (Z.shiftl (20 + zlen options) 2); fl] ++ be16 (Z.shiftr (rcv_win t) (rcv_win_scale t)) ++ [csum mod 256; csum / 256]
    ++ [0; 0] ++ options ++ payload) = 20 + zlen options).
  { unfold seg_hlen. cbn -[Z.land Z.shiftl uwrap Z.div Z.mul]. apply hlen_field; [lia|].
    rewrite <- Zplus_mod_idemp_r, Hm. done. }
  rewrite <- !app_assoc in *. split; [done|]. split; [|split].
  - unfold seg_payload. rewrite E1. replace (Z.to_nat (20 + zlen options)) with (20 + length options)%nat by lia.
    cbn [be16 be32 app]. rewrite <- drop_drop. cbn [drop skipn]. by rewrite drop_0, drop_app_length.
  - unfold seg_seq. cbn [be16 be32 app drop take]. apply be32_val.
  - unfold seg_flags. reflexivity.
Qed.

(** ** The application's stream *)

Definition fin_acked (s : Z) : bool := has s (TCP_STATE_ACKED TCP_FIN).

(** The states in which a connection is not deleted, in causal executions and
    while a FIN is being handled. *)
Definition tx_states : list Z :=
  [TCP_SYN_SENT; SYN_ACKED; TCP_SYN_RCVD; SYN_RCVD_FIN_RCVD; TCP_ESTABLISHED; TCP_CLOSE_WAIT; TCP_FIN_WAIT_1;
   TCP_CLOSING_OR_LAST_ACK; TCP_FIN_WAIT_2; TCP_TIME_WAIT].

(** Whether data can be sent, and the sequence space of the flag being sent. *)
Definition can_send (s : Z) : bool := syn_acked s && negb (fin_sent s).
Definition flag_len (s : Z) : Z := if negb (syn_acked s) || (fin_sent s && negb (fin_acked s)) then 1 else 0.

Ltac tx_cases H :=
  unfold tx_states in H; rewrite ?elem_of_cons, ?elem_of_nil in H;
  repeat match type of H with _ \/ _ => destruct H as [H | H] end; try done.

Lemma tx_state_inv t : inv true t -> deleted t = false -> tcp_state t ∈ tx_states.
Proof.
  intros [[Hs Hd _ _ _ _ _ _] _] E. rewrite E in Hd. symmetry in Hd. apply Z.eqb_neq in Hd.
  state_cases Hs; rewrite Hs in *; try done; solve_state.
Qed.

Lemma tx_state_fin s : s ∈ tx_states -> syn_rcvd s = true -> Z.lor s (TCP_STATE_RCVD TCP_FIN) ∈ tx_states.
Proof. intros H Hr. tx_cases H; subst s; try discriminate Hr; solve_state. Qed.

Lemma tx_state_bits s : s ∈ tx_states ->
  TCP_CAN_SEND_DATA s = can_send s /\ has (TCP_FLAGS_SENDING s) (Z.lor TCP_SYN TCP_FIN) = (flag_len s =? 1)
  /\ (Z.land (TCP_FLAGS_SENDING s) (Z.lor TCP_SYN TCP_FIN) =? 0) = (flag_len s =? 0)
  /\ has (TCP_FLAGS_SENDING s) TCP_SYN = negb (syn_acked s) /\ (fin_acked s = true -> fin_sent s = true)
  /\ (fin_sent s = true -> syn_acked s = true) /\ has (Z.lor (TCP_FLAGS_SENDING s) TCP_PSH) TCP_SYN = negb (syn_acked s).
Proof. intros H. tx_cases H; subst s; repeat split; vm_compute; done. Qed.

Lemma ack_state_bits s fin : s ∈ tx_states ->
  let s' := ack_state s fin in syn_acked s' = true /\ fin_sent s' = fin_sent s || fin /\ fin_acked s' = fin_sent s.
Proof. intros H. tx_cases H; subst s; destruct fin; repeat split; vm_compute; done. Qed.

Section Sender.
(** Our initial sequence number. *)
Context (iss : Z).

(** The number of bytes acknowledged, and the first unacknowledged sequence
    number, unbounded. *)
Definition acked_bytes (t : tcp_connection) : Z := zlen (concat (app_log t)) - zlen (concat (tx_queue t)).
Definition snd_una (t : tcp_connection) : Z :=
  iss + (if syn_acked (tcp_state t) then 1 else 0) + acked_bytes t + (if fin_acked (tcp_state t) then 1 else 0).

(** A segment carries bytes of the application at its sequence number. *)
Definition seg_ok (data seg : list Z) : Prop :=
  has (seg_flags seg) TCP_SYN = false -> seg_payload seg <> [] ->
  exists k, 0 <= k /\ seg_seq seg = u32 (iss + 1 + k) /\ seg_payload seg `prefix_of` drop (Z.to_nat k) data.

Record txinv (t : tcp_connection) : Prop := TxInv {
  ti_queue : concat (tx_queue t) `suffix_of` concat (app_log t);
  ti_seq : u32 (snd_seq t) = u32 (snd_una t);
  ti_sent : snd_sent t <= (if can_send (tcp_state t) then zlen (concat (tx_queue t)) else 0) + flag_len (tcp_state t);
  ti_fin : fin_sent (tcp_state t) = true -> tx_queue t = []
}.

Definition log_ok (t : tcp_connection) : Prop := Forall (seg_ok (concat (app_log t))) (tx_log t).

(** What the invariants depend on. *)
Lemma txinv_ext t t' : txinv t -> app_log t' = app_log t -> tx_queue t' = tx_queue t -> snd_seq t' = snd_seq t ->
  snd_sent t' <= snd_sent t ->
  syn_acked (tcp_state t') = syn_acked (tcp_state t) -> fin_sent (tcp_state t') = fin_sent (tcp_state t) ->
  fin_acked (tcp_state t') = fin_acked (tcp_state t) -> txinv t'.
Proof.
  intros [H1 H2 H3 H4] E1 E2 E3 E4 E5 E6 E7. split; unfold snd_una, acked_bytes, can_send, flag_len in *;
    rewrite ?E1, ?E2, ?E3, ?E5, ?E6, ?E7; auto. lia.
Qed.

Lemma suffix_drop (l k : list Z) : l `suffix_of` k -> l = drop (length k - length l) k.
Proof. intros [p ->]. rewrite length_app. replace (length p + length l - length l)%nat with (length p) by lia. by rewrite drop_app_length. Qed.

Lemma flag_len_range s : 0 <= flag_len s <= 1.
Proof. unfold flag_len. case_if; lia. Qed.

Lemma tx_payload t n : (tcp_process_tx_queue t n false).2 = (tx_scan (tx_queue t) n).1.1.
Proof. unfold tcp_process_tx_queue. by destruct (tx_scan _ _) as [[? ?] ?]. Qed.

Lemma tx_xmit e s t : txinv t -> log_ok t -> tcp_state t ∈ tx_states -> 0 <= snd_win t ->
  txinv (tcp_xmit_sack e s t) /\ log_ok (tcp_xmit_sack e s t).
Proof.
  intros H Hlog Hs Hw. destruct (tcp_xmit_sack_spec e s t) as (F&T&L). set (t' := tcp_xmit_sack e s t) in *.
  destruct (timer t); [rewrite T; done|]. destruct T as [N _].
  destruct (tx_state_bits _ Hs) as (B1&B2&B3&B4&B5&B6&B7). pose proof (flag_len_range (tcp_state t)) as Hf.
  pose proof (xmit_len_spec t Hw) as El. rewrite B1 in El. assert (HM : TCP_PATH_MTU = 1208) by reflexivity.
  assert (Hl : 0 <= xmit_len t <= 1208) by (rewrite El; case_if; lia).
  assert (Hn : xmit_seq_len t = xmit_len t + flag_len (tcp_state t)).
  { unfold xmit_seq_len. rewrite B2, (uwrap_small 32 (xmit_len t)) by lia. case_if; [rewrite uwrap_small; lia|lia]. }
  split.
  - destruct H as [H1 H2 H3 H4]. split; unfold snd_una, acked_bytes in *;
      rewrite ?(xf_app_log _ _ F), ?(xf_tx_queue _ _ F), ?(xf_snd_seq _ _ F), ?(xf_state _ _ F); try done.
    rewrite N, Hn, El. case_if; lia.
  - unfold log_ok. rewrite (xf_app_log _ _ F). destruct L as [->|(_&t3&_&->)]; [done|].
    apply Forall_app. split; [done|]. constructor; [|done]. rewrite tx_payload. intros Hsyn Hne.
    pose proof (xmit_options_length e t3 (TCP_FLAGS_SENDING (tcp_state t)) s) as (O1&O2&_).
    pose proof (tx_scan_spec (tx_queue t) (xmit_len t) ltac:(lia)) as Hscan.
    destruct (tx_scan (tx_queue t) (xmit_len t)) as [[data rest] freed]. cbn [fst] in *. destruct Hscan as (Hd&_).
    set (options := (xmit_options e t3 (TCP_FLAGS_SENDING (tcp_state t)) s).2) in *.
    assert (Ea : syn_acked (tcp_state t) = true).
    { destruct (syn_acked (tcp_state t)) eqn:Ea; [done|]. exfalso. revert Hsyn. rewrite tcp_segment_flags.
      destruct (zlen data =? 0); cbn [negb]; rewrite ?B7, ?B4, ?Ea; done. }
    rewrite Ea in *. cbn [negb] in *.
    destruct (tcp_segment_read t' (TCP_FLAGS_SENDING (tcp_state t)) options data O1 (O2 B4)) as (R1&R2&R3&_).
    rewrite R2 in Hne |- *. rewrite R3. exists (acked_bytes t). destruct H as [H1 H2 H3 H4].
    pose proof (suffix_length _ _ H1). split; [unfold acked_bytes; lia|]. rewrite (xf_snd_seq _ _ F), H2. unfold snd_una. rewrite Ea.
    assert (Ec : can_send (tcp_state t) = true).
    { destruct (can_send (tcp_state t)); [done|]. rewrite El in Hd. destruct Hne. by rewrite Hd. }
    assert (Efa : fin_acked (tcp_state t) = false).
    { unfold can_send in Ec. destruct (fin_acked _); [|done]. rewrite (B5 eq_refl), andb_false_r in Ec. done. }
    rewrite Efa, Z.add_0_r. split; [done|]. exists (drop (Z.to_nat (xmit_len t)) (concat (tx_queue t))).
    rewrite Hd, take_drop. unfold acked_bytes. symmetry.
    etransitivity; [exact (suffix_drop _ _ H1)|]. f_equal. lia.
Qed.

Lemma tx_rx_ack ack win t : txinv t -> log_ok t -> tcp_state t ∈ tx_states -> 0 <= snd_sent t ->
  txinv (tcp_rx_ack ack win t).1 /\ log_ok (tcp_rx_ack ack win t).1.
Proof.
  intros H Hlog Hs Hn. pose proof (tcp_rx_ack_frame ack win t) as (_&_&_&_&_&_&_&_&Fa&Ft&_).
  destruct (tcp_rx_ack_state ack win t) as [S _].
  assert (X : if (snd_sent t <? u32 (ack - snd_seq t)) || (u32 (ack - snd_seq t) =? 0) then snd_seq (tcp_rx_ack ack win t).1 = snd_seq t
    else snd_seq (tcp_rx_ack ack win t).1 = ack
       /\ tx_queue (tcp_rx_ack ack win t).1 = (tx_scan (tx_queue t) (u32 (ack - snd_seq t) - flag_len (tcp_state t))).1.2).
  { destruct (tx_state_bits _ Hs) as (_&_&B3&_). unfold tcp_rx_ack, tcp_process_tx_queue.
    destruct (snd_sent t <? u32 (ack - snd_seq t)); [done|]. cbn [orb].
    destruct (u32 (ack - snd_seq t) =? 0); [destruct (negb (has _ (TCP_STATE_SENT TCP_FIN))); done|].
    assert (Hf : flag_len (tcp_state t) = 0 \/ flag_len (tcp_state t) = 1) by (pose proof (flag_len_range (tcp_state t)); lia).
    destruct (negb (has _ (TCP_STATE_SENT TCP_FIN))); cbn [tcp_state set_timer set_keepalive set_snd_win]; rewrite B3.
    all: destruct Hf as [-> | ->]; cbn [Z.eqb negb fst snd tx_queue set_snd_sent set_snd_seq set_pending_flags set_timer set_keepalive set_snd_win].
    all: rewrite ?Z.sub_0_r.
    all: match goal with |- context [tx_scan ?q ?n] => destruct (tx_scan q n) as [[? ?] ?] end; cbn [fst snd].
    all: match goal with |- context [list_empty ?q && ?b && ?d] => destruct (list_empty q && b && d) end; done. }
  set (t' := (tcp_rx_ack ack win t).1) in *. split; [|unfold log_ok; by rewrite Fa, Ft].
  set (n := u32 (ack - snd_seq t)) in *. pose proof (flag_len_range (tcp_state t)) as Hfl.
  destruct ((snd_sent t <? n) || (n =? 0)) eqn:E.
  - destruct S as (S1&S2&_&S4). apply (txinv_ext t); rewrite ?S1; done || lia.
  - destruct S as (S1&_&S3), X as [X1 X2]. apply orb_false_iff in E as [E1 E2]. bool_to_prop.
    assert (Hn0 : 0 <= n) by (apply uwrap_range; lia). destruct H as [H1 H2 H3 H4].
    assert (Hnil : tx_queue t = [] -> tx_queue t' = []) by (intros Eq; by rewrite X2, Eq).
    pose proof (tx_scan_spec (tx_queue t) (n - flag_len (tcp_state t)) ltac:(lia)) as Hscan.
    destruct (tx_scan (tx_queue t) (n - flag_len (tcp_state t))) as [[data rest] freed]. cbn [fst snd] in X2. rewrite <- X2 in Hscan.
    destruct Hscan as (_&Hrest&_). pose proof (suffix_length _ _ H1) as Hsl.
    assert (Hlen : zlen (concat (tx_queue t')) = zlen (concat (tx_queue t)) - (n - flag_len (tcp_state t))).
    { rewrite Hrest, length_drop. case_if_in H3; lia. }
    destruct (ack_state_bits (tcp_state t) (list_empty (tx_queue t') && xfer_closed t) Hs) as (A1&A2&A3). rewrite <- S1 in A1, A2, A3.
    destruct (tx_state_bits _ Hs) as (_&_&_&_&B5&B6&_).
    split.
    + rewrite Hrest, Fa. etrans; [|exact H1]. eexists. symmetry. apply take_drop.
    + rewrite X1. assert (Eack : u32 ack = u32 (snd_seq t + n)).
      { subst n. unfold uwrap. rewrite Zplus_mod_idemp_r. f_equal. lia. }
      rewrite Eack. rewrite <- u32_add_l, H2, u32_add_l. f_equal. unfold snd_una, acked_bytes. rewrite Fa, Hlen, A1, A3.
      unfold flag_len. destruct (syn_acked (tcp_state t)), (fin_sent (tcp_state t)), (fin_acked (tcp_state t)); cbn [negb orb andb];
        try lia; try (by specialize (B5 eq_refl)); by specialize (B6 eq_refl).
    + rewrite S3. pose proof (flag_len_range (tcp_state t')). case_if; lia.
    + rewrite A2. intros [Hfs|Hfin]%orb_prop.
      * by apply Hnil, H4.
      * apply andb_prop in Hfin as [He _]. by destruct (tx_queue t').
Qed.

Lemma tx_fin_set t : txinv t -> syn_acked (tcp_state t) = true -> fin_sent (tcp_state t) = false ->
  fin_acked (tcp_state t) = false -> tx_queue t = [] -> txinv (or_state (TCP_STATE_SENT TCP_FIN) t).
Proof.
  intros [H1 H2 H3 H4] B1 B2 B3 Eq. set (t' := or_state _ t).
  assert (E1 : syn_acked (tcp_state t') = true) by (unfold syn_acked in *; cbn; rewrite has_lor, B1; done).
  assert (E2 : fin_sent (tcp_state t') = true) by (unfold fin_sent in *; cbn; rewrite has_lor; apply orb_true_r).
  assert (E3 : fin_acked (tcp_state t') = false) by (unfold fin_acked in *; cbn; rewrite has_lor, B3; done).
  split; unfold snd_una, acked_bytes, can_send, flag_len in *; rewrite ?E1, ?E2, ?E3, ?B1, ?B2, ?B3 in *; try done.
  rewrite Eq in H3. cbn in *. lia.
Qed.

(** Setting bits of the state that transmission does not look at. *)
Lemma tx_or_state m t : txinv t -> has m (TCP_STATE_ACKED (Z.lor TCP_SYN TCP_FIN)) = false ->
  has m (TCP_STATE_SENT TCP_FIN) = false -> txinv (or_state m t).
Proof.
  intros H M1 M2. assert (M3 : has m (TCP_STATE_ACKED TCP_SYN) = false /\ has m (TCP_STATE_ACKED TCP_FIN) = false).
  { unfold has in *. change (TCP_STATE_ACKED (Z.lor TCP_SYN TCP_FIN)) with (Z.lor (TCP_STATE_ACKED TCP_SYN) (TCP_STATE_ACKED TCP_FIN)) in M1.
    rewrite Z.land_lor_distr_r in M1. apply negb_false_iff, Z.eqb_eq, Z.lor_eq_0_iff in M1 as [-> ->]. done. }
  destruct M3 as [M3 M4]. apply (txinv_ext t); try done; cbn; rewrite ?has_lor; unfold syn_acked, fin_sent, fin_acked in *; rewrite ?has_lor, ?M2, ?M3, ?M4, ?orb_false_r; done.
Qed.

Lemma tx_close rc t : txinv t -> log_ok t -> tcp_state t ∈ tx_states -> 0 <= snd_sent t ->
  (syn_rcvd (tcp_state t) = true -> syn_acked (tcp_state t) = false -> snd_sent t = 1) ->
  log_ok (tcp_close rc t) /\ (syn_rcvd (tcp_state t) = true -> txinv (tcp_close rc t)).
Proof.
  intros H Hlog Hs Hn Hc. destruct (syn_rcvd (tcp_state t)) eqn:Er.
  2: { split; [|done]. destruct (tcp_close_delete rc t Er) as (_&_&_&_&_&_&_&C1&C2). unfold log_ok. by rewrite C1, C2. }
  destruct (tcp_close_spec rc t Er Hn) as (_&_&_&_&_&_&_&_&_&_&_&C1&C2).
  split; [unfold log_ok; by rewrite C1, C2|]. intros _. clear C1 C2. specialize (Hc eq_refl). unfold tcp_close.
  change (tcp_state (or_flags TCP_XFER_CLOSED t)) with (tcp_state t). unfold syn_rcvd in Er. rewrite Er. cbn [negb].
  set (t0 := or_flags TCP_XFER_CLOSED t).
  assert (H0 : txinv t0) by (by apply (txinv_ext t); try done; reflexivity).
  set (t1 := set_keepalive false _).
  assert (H1 : txinv t1 /\ syn_acked (tcp_state t1) = true /\ (fin_sent (tcp_state t1) = false -> fin_acked (tcp_state t1) = false)).
  { subst t1. fold (syn_acked (tcp_state t)). destruct (syn_acked (tcp_state t)) eqn:Ea; cbn [negb].
    - split; [by apply (txinv_ext t); try done; reflexivity|]. split; [done|]. intros Ef. destruct (tx_state_bits _ Hs) as (_&_&_&_&B5&_).
      change (fin_acked (tcp_state t) = false). change (fin_sent (tcp_state t) = false) in Ef. destruct (fin_acked _); [|done].
      by rewrite (B5 eq_refl) in Ef.
    - destruct (tx_rx_ack (u32 (snd_seq t0 + 1)) 0 t0 H0 Hlog Hs Hn) as [X _].
      destruct (tcp_rx_ack_state (u32 (snd_seq t0 + 1)) 0 t0) as [S _]. rewrite u32_succ in S.
      change (snd_sent t0) with (snd_sent t) in S. rewrite (Hc eq_refl) in S. cbn [Z.ltb Z.eqb orb] in S.
      change ((1 <? 1) || (1 =? 0)) with false in S. cbv iota in S. destruct S as (S1&_).
      set (u := (tcp_rx_ack (u32 (snd_seq t0 + 1)) 0 t0).1) in *.
      destruct (ack_state_bits (tcp_state t0) (list_empty (tx_queue u) && xfer_closed t0) Hs) as (A1&A2&A3).
      rewrite <- S1 in A1, A2, A3. split; [by apply (txinv_ext u); try done; reflexivity|]. split; [done|].
      cbn. rewrite A2, A3. by intros [? _]%orb_false_iff. }
  clearbody t1. destruct H1 as (H1&A1&A2).
  destruct (list_empty (tx_queue t1) && _) eqn:E; [|done]. apply andb_prop in E as [E Ef%negb_true_iff].
  assert (Eq : tx_queue t1 = []) by (destruct (tx_queue t1); done).
  pose proof (tx_fin_set t1 H1 A1 Ef (A2 Ef) Eq) as H5. by apply (txinv_ext (or_state (TCP_STATE_SENT TCP_FIN) t1)); try done; reflexivity.
Qed.

(** *** Executions *)

Definition sender (t : tcp_connection) : Prop := inv true t /\ 0 <= snd_win t /\ log_ok t /\ (deleted t = false -> txinv t).

Lemma seg_ok_extend data more seg : seg_ok data seg -> seg_ok (data ++ more) seg.
Proof.
  intros H H1 H2. destruct (H H1 H2) as (k&Hk&E&P). exists k. split; [done|]. split; [done|].
  destruct P as [l P]. assert (Hlen : (Z.to_nat k <= length data)%nat).
  { destruct (decide (Z.to_nat k <= length data)%nat); [done|]. rewrite drop_ge in P by lia.
    destruct (seg_payload seg); [done|discriminate]. }
  rewrite drop_app_le by done. rewrite P. exists (l ++ more). by rewrite app_assoc.
Qed.

Lemma closed_xmit_log e s t : log_ok t -> tcp_state t = TCP_CLOSED -> log_ok (tcp_xmit_sack e s t).
Proof.
  intros Hlog Hs. destruct (tcp_xmit_sack_spec e s t) as (F&_&L). unfold log_ok. rewrite (xf_app_log _ _ F).
  destruct L as [->|(_&t3&_&->)]; [done|]. apply Forall_app. split; [done|]. constructor; [|done].
  pose proof (xmit_options_length e t3 (TCP_FLAGS_SENDING (tcp_state t)) s) as (O1&O2&_). rewrite Hs in *.
  assert (El : xmit_len t = 0) by (unfold xmit_len; by rewrite Hs).
  rewrite tx_payload, El. pose proof (tx_scan_spec (tx_queue t) 0 ltac:(lia)) as Hscan.
  destruct (tx_scan (tx_queue t) 0) as [[data rest] freed]. destruct Hscan as (->&_). cbn [fst].
  intros _ Hne. destruct Hne. by apply tcp_segment_read; [|apply O2].
Qed.

Lemma sender_xmit e s t : sender t -> sender (tcp_xmit_sack e s t).
Proof.
  intros (Hi&Hw&Hlog&Ht). split; [split; [apply inv_xmit, Hi|apply sent_xmit, Hi]|]. split; [by apply win_xmit|].
  destruct (tcp_xmit_sack_spec e s t) as (F&_). rewrite (xf_deleted _ _ F). destruct (deleted t) eqn:Ed.
  - split; [|done]. apply closed_xmit_log; [done|]. pose proof (inv_deleted _ _ (proj1 Hi)) as E. rewrite Ed in E.
    symmetry in E. by apply Z.eqb_eq.
  - destruct (tx_xmit e s t (Ht eq_refl) Hlog (tx_state_inv t Hi Ed) Hw). done.
Qed.

Lemma sender_close rc t : sender t -> deleted t = false -> sender (tcp_close rc t).
Proof.
  intros (Hi&Hw&Hlog&Ht) Hd. split; [split; [by apply inv_close; try apply Hi|apply sent_close, Hi]|].
  split; [by apply win_close|]. destruct (tx_close rc t (Ht Hd) Hlog (tx_state_inv t Hi Hd) (proj2 Hi)) as [C1 C2].
  - intros. apply Hi; done.
  - split; [done|]. intros Hd'. apply C2. destruct (syn_rcvd (tcp_state t)) eqn:Er; [done|].
    destruct (tcp_close_delete rc t Er) as (_&C&_). congruence.
Qed.

(** Fields that do not matter for transmission. *)
Lemma sender_ext t t' : sender t -> inv true t' -> snd_win t' = snd_win t -> app_log t' = app_log t -> tx_log t' = tx_log t ->
  tx_queue t' = tx_queue t -> snd_seq t' = snd_seq t -> snd_sent t' = snd_sent t -> tcp_state t' = tcp_state t ->
  deleted t' = deleted t -> sender t'.
Proof.
  intros (Hi&Hw&Hlog&Ht) Hi' E1 E2 E3 E4 E5 E6 E7 E8. split; [done|]. split; [by rewrite E1|].
  split; [unfold log_ok; by rewrite E2, E3|]. rewrite E8. intros Hd. apply (txinv_ext t); rewrite ?E7; try done; [by apply Ht|lia].
Qed.

Lemma sender_app_op t op : sender t -> sender (run_app_op t op).
Proof.
  intros H. pose proof (inv_app_op true t op (proj1 H)) as Hi'. pose proof H as (Hi&Hw&Hlog&Ht).
  pose proof (inv_gone _ _ (proj1 Hi)) as Hgone. unfold xfer_closed in Hgone.
  destruct op as [e data|e rc|]; cbn [run_app_op] in *.
  - destruct (has (conn_flags t) TCP_XFER_CLOSED) eqn:Ex; [done|]. apply sender_xmit.
    assert (Hd : deleted t = false) by (destruct (deleted t); [by discriminate Hgone|done]).
    split; [by apply (inv_ext true t); try done; apply Hi|]. split; [done|].
    split; [|intros _; destruct (Ht Hd) as [H1 H2 H3 H4]; split].
    + unfold log_ok. cbn. rewrite concat_app. eapply Forall_impl; [exact Hlog|]. intros. by apply seg_ok_extend.
    + cbn. rewrite !concat_app. destruct H1 as [k ->]. exists k. by rewrite app_assoc.
    + cbn. rewrite H2. unfold snd_una, acked_bytes. cbn. rewrite !concat_app, !length_app. do 3 f_equal. lia.
    + cbn. rewrite concat_app, length_app. case_if; lia.
    + cbn. intros Hf. pose proof (inv_fin _ _ (proj1 Hi)) as Hx. unfold xfer_closed in Hx. rewrite Hf, Ex in Hx.
      by specialize (Hx eq_refl).
  - destruct (has (conn_flags t) TCP_XFER_CLOSED) eqn:Ex; [done|]. apply sender_xmit, sender_close; [done|].
    by destruct (deleted t); [discriminate Hgone|].
  - by apply (sender_ext t).
Qed.

Lemma sender_app ops t : sender t -> sender (run_app ops t).
Proof. revert t. induction ops as [|op ops IH]; intros t H; [done|]. apply IH, sender_app_op, H. Qed.

Lemma sender_rx_fin seq t : sender t -> synced t -> sender (tcp_rx_fin seq t).
Proof.
  intros H Hs. pose proof (inv_rx_fin true seq t (proj1 H) Hs) as [Hi' _]. unfold tcp_rx_fin in *.
  destruct (negb _); [done|]. pose proof H as (Hi&Hw&Hlog&Ht). set (t1 := or_state _ (tcp_rx_seq 1 t)) in *.
  assert (Hr : syn_rcvd (tcp_state t1) = true)
    by (destruct Hs as [Hs _]; unfold syn_rcvd in *; cbn; by rewrite has_lor, Hs).
  assert (H1 : txinv t1).
  { apply tx_or_state; [|reflexivity|reflexivity]. apply (txinv_ext t); try done. by apply Ht, Hs. }
  destruct (tx_close (Ok tt) t1 H1 Hlog) as [C1 C2].
  - apply (tx_state_fin (tcp_state t)); [apply tx_state_inv; [done|apply Hs]|apply Hs].
  - apply Hi.
  - intros _ Ha. apply Hi; [done|apply Hs|]. unfold syn_acked in *. cbn in Ha. rewrite has_lor in Ha. by apply orb_false_iff in Ha as [? _].
  - split; [done|]. split; [by apply win_close|]. split; [done|]. intros _. by apply C2.
Qed.

Section App.
Context (app_deliver : tcp_connection -> list Z -> list app_op * res unit) (app_window : tcp_connection -> list app_op).

Lemma sender_packet p t : sender t -> synced t -> sender (process_rx_packet app_deliver p t).
Proof.
  intros H Hs. unfold process_rx_packet.
  assert (H1 : sender (tcp_rx_data app_deliver (q_seq p) (q_data p) t).1).
  { unfold tcp_rx_data, xfer_deliver_iob. case_if; [done|]. set (n := _ - _). set (t1 := set_rx_log _ _).
    destruct (app_deliver t1 _) as [ops rc]. cbn [fst]. apply sender_app. apply (sender_ext t); try done.
    pose proof (inv_rx_seq true n t (proj1 H) (proj2 Hs)) as Hi1. apply (inv_ext true (tcp_rx_seq n t)); try done; apply Hi1. }
  destruct (inv_rx_data app_deliver true (q_seq p) (q_data p) t (proj1 H) Hs) as [_ Hs1].
  destruct (has _ _); [by apply sender_rx_fin|done].
Qed.

Lemma sender_loop fuel t : sender t -> deleted t = false -> sender (rx_queue_loop app_deliver fuel t).
Proof.
  revert t. induction fuel as [|fuel IH]; intros t H Hd; cbn [rx_queue_loop]; [done|].
  destruct (rx_queue t) as [|p q] eqn:Eq; [done|]. case_if; [done|].
  assert (Hr : syn_rcvd (tcp_state t) = true) by (apply H; by rewrite Eq).
  assert (Hi1 : inv true (set_rx_queue q t)) by (apply (inv_ext true t); try done; [apply H|by rewrite Hd]).
  assert (H1 : sender (set_rx_queue q t)) by (by apply (sender_ext t)).
  destruct (inv_process_packet app_deliver true p (set_rx_queue q t) Hi1 (conj Hr Hd)) as [_ [_ Hd1]].
  apply IH; [by apply sender_packet|done].
Qed.

Lemma sender_finish e seq w t : sender t -> deleted t = false -> sender (rx_finish app_deliver app_window e seq w t).
Proof.
  intros H Hd. unfold rx_finish, tcp_process_rx_queue. pose proof (sender_loop (length (rx_queue t)) t H Hd) as H1.
  destruct (inv_queue_loop app_deliver true (length (rx_queue t)) t (proj1 H) Hd) as [_ D1]. set (t1 := rx_queue_loop _ _ t) in *.
  set (t2 := if list_empty (rx_queue t1) then _ else _). assert (H2 : sender t2 /\ deleted t2 = false).
  { subst t2. case_if.
    - split; [|done]. apply (sender_ext t1); try done. apply (inv_ext true t1); try done; [apply H1|apply H1|by rewrite D1].
    - split; [by apply sender_xmit|]. destruct (tcp_xmit_sack_spec e seq t1) as (F&_). by rewrite (xf_deleted _ _ F). }
  destruct H2 as [H2 D2]. clearbody t2. set (t3 := if TCP_CLOSED_GRACEFULLY _ then _ else _).
  assert (H3 : sender t3).
  { subst t3. case_if; [|done]. apply (sender_ext t2); try done. apply (inv_ext true t2); try done; [apply H2|apply H2|by rewrite D2]. }
  case_if; [by apply sender_app|done].
Qed.
End App.

Lemma reset_seg_ok data src dest seq ack : fields_ok src dest seq ack -> seg_ok data (reset_segment src dest seq ack).
Proof.
  intros (H1&H2&H3&H4) _ Hne. destruct Hne.
  destruct src as [|? [|? [|]]], dest as [|? [|? [|]]]; try discriminate.
  destruct seq as [|? [|? [|? [|? [|]]]]], ack as [|? [|? [|? [|? [|]]]]]; try discriminate. reflexivity.
Qed.

Lemma sender_syn seq flags options t : sender t -> handling true t -> sender (rx_handle_syn seq flags options t).
Proof.
  intros H Hh. destruct (handling_syn true seq flags options t Hh) as [Hi' _]. revert Hi'.
  pose proof H as (Hi&Hw&Hlog&Ht). destruct Hh as (_&Hd&_).
  intros Hi'. split; [done|]. split; [by rewrite win_syn|]. unfold rx_handle_syn, tcp_rx_syn.
  set (t1 := if _ && _ then _ else _).
  assert (H1 : txinv t1 /\ log_ok t1) by (subst t1; case_if; [split; [by apply (txinv_ext t); try done; apply Ht|done]|split; [by apply Ht|done]]).
  clearbody t1. destruct H1 as [H1 L1]. destruct (has flags TCP_SYN); [|done].
  set (t2 := if negb (has _ _) then _ else t1). assert (H2 : txinv t2 /\ log_ok t2).
  { subst t2. destruct (negb _); [|done]. destruct (wsopt options), (spopt options), (tsopt options);
      (split; [by apply (txinv_ext t1); try done|done]). }
  clearbody t2. destruct H2 as [H2 L2]. destruct (negb _); [done|]. split; [done|]. intros _.
  apply tx_or_state; [by apply (txinv_ext t2); try done|reflexivity|reflexivity].
Qed.

Lemma sender_segment ad aw e er src dest seq ack raw_win flags options payload t t' rc :
  sender t -> handling true t -> fields_ok src dest seq ack ->
  rx_segment ad aw e er src dest seq ack raw_win flags options payload t = Some (t', rc) -> sender t'.
Proof.
  intros H Hh Hfields E. pose proof (inv_rx_segment ad aw true _ _ _ _ _ _ _ _ _ _ _ _ _ Hh E) as Hi'.
  apply rx_segment_cases in E as (t0&t1&E0&E1&Hout). pose proof (handling_segment true _ _ _ _ _ Hh E0 E1) as H1.
  pose proof (handling_segment true 0 options _ _ t0 Hh E0 (or_introl eq_refl)) as H0.
  assert (X0 : sender t0) by (subst t0; destruct (tsopt options); [by apply (sender_ext t); try done; apply H0|done]).
  assert (X1 : sender t1).
  { destruct E1 as [-> |(win&Hwin&->)]; [done|]. pose proof X0 as (Hi&Hw&Hlog&Ht). destruct H0 as (_&D0&_).
    destruct (tx_rx_ack (be_val ack) win t0 (Ht D0) Hlog (tx_state_inv t0 Hi D0) (proj2 Hi)).
    split; [apply H1|]. split; [by apply win_rx_ack|]. done. }
  cbv zeta in Hout. pose proof (sender_syn (be_val seq) flags options t1 X1 H1) as X2.
  destruct (handling_syn true (be_val seq) flags options t1 H1) as [H2 D2]. set (t2 := rx_handle_syn _ _ _ t1) in *.
  destruct Hout as [(->&_&->)|[(->&_)|(w&->&_)]].
  - unfold tcp_xmit_reset in *. destruct (discards_frame (e_discards er) t0) as (F&N&T&C&L&_). set (t3 := Nat.iter _ _ t0) in *.
    assert (X3 : sender t3).
    { apply (sender_ext t0); try done; try apply F. apply inv_discards, X0. }
    case_if; [done|]. destruct X3 as (Hi&Hw&Hlog&Ht). split; [done|]. split; [done|]. split.
    + unfold log_ok. cbn. apply Forall_app. split; [done|]. constructor; [by apply reset_seg_ok|done].
    + intros D. by apply (txinv_ext t3); try done; apply Ht.
  - destruct X2 as (Hi&Hw&Hlog&Ht).
    destruct (tcp_close_delete (Err ECONNRESET) (set_tcp_state TCP_CLOSED t2) eq_refl) as (_&C2&_&_&_&_&_&C8&C9).
    split; [done|]. split; [by apply win_close|]. split; [unfold log_ok; by rewrite C8, C9|congruence].
  - assert (X3 : sender (tcp_rx_enqueue (if has flags TCP_SYN then u32 (be_val seq + 1) else be_val seq) flags payload t2)).
    { pose proof (inv_enqueue true (if has flags TCP_SYN then u32 (be_val seq + 1) else be_val seq) flags payload t2 H2 D2) as Hi3.
      revert Hi3. rewrite enqueue_cases. cbv zeta. destruct (_ || _); [done|]. intros Hi3. by apply (sender_ext t2). }
    apply sender_finish; [done|by rewrite enqueue_deleted].
Qed.

Lemma sender_step t t' : sender t -> tcp_step causal_network t t' -> sender t'.
Proof.
  intros H Hstep. assert (Hi' : inv true t') by (eapply tcp_inv_step; [|apply H|exact Hstep]; by intros ?).
  pose proof H as (Hi&Hw&Hlog&Ht).
  assert (Hforce : forall rc u, app_log u = app_log t -> tx_log u = tx_log t -> snd_win u = snd_win t -> inv true (tcp_close rc (set_tcp_state TCP_CLOSED u)) ->
    sender (tcp_close rc (set_tcp_state TCP_CLOSED u))).
  { intros rc u E1 E2 E3 Hiu. destruct (tcp_close_delete rc (set_tcp_state TCP_CLOSED u) eq_refl) as (_&C2&_&_&_&_&_&C8&C9).
    split; [done|]. split; [apply win_close; cbn; by rewrite E3|]. split; [unfold log_ok; rewrite C8, C9; cbn; by rewrite E1, E2|congruence]. }
  destruct Hstep as [ad aw e er src dest seq ack raw_win flags options payload t t' rc Hd Hfields Hc E
    |e t Hp|e over t Htm|e t Hk|t Hwt|op t Hd].
  - eapply sender_segment; [exact H| |exact Hfields|exact E]. split; [done|]. by split.
  - apply sender_xmit. apply (sender_ext t); try done. apply (inv_ext true t); try done; [apply Hi|].
    intros Hd. apply Hi in Hd as (?&?&?&?). by split.
  - unfold tcp_expired in *. destruct over; [by apply Hforce|]. apply sender_xmit. apply (sender_ext t); try done.
    apply (inv_ext true t); try done; [apply Hi|]. intros Hd. apply Hi in Hd as (?&?&?&?). by split.
  - apply sender_xmit. apply (sender_ext t); try done.
    assert (Hd : deleted t = false) by (destruct (deleted t) eqn:Hd; [apply Hi in Hd as (?&?&?&?); congruence|done]).
    apply (inv_ext true t); try done; [|apply Hi|by rewrite Hd]. unfold xfer_closed. cbn. by rewrite has_lor, orb_false_r.
  - by apply Hforce.
  - by apply sender_app_op.
Qed.
End Sender.

(** C2. Transmission.  In every causal execution, every segment that was handed
    to the IP layer (retransmissions included) carries bytes that the
    application submitted, at the sequence number of their position in the
    application's stream; and what is in the transmit queue is the part of the
    stream from the first unacknowledged sequence number on, so no byte is lost
    or repeated, whatever the peer acknowledges. *)
Theorem tcp_sends_stream peer port mss iss t :
  rtc (tcp_step causal_network) (tcp_new peer port mss iss) t ->
  Forall (seg_ok iss (concat (app_log t))) (tx_log t)
  /\ (deleted t = false -> exists acked, concat (app_log t) = acked ++ concat (tx_queue t)
      /\ u32 (snd_seq t) = u32 (iss + (if syn_acked (tcp_state t) then 1 else 0) + zlen acked
                                + (if fin_acked (tcp_state t) then 1 else 0))).
Proof.
  assert (H0 : sender iss (tcp_new peer port mss iss)).
  { split; [by eapply (inv_reachable true causal_network peer port mss iss); [intros ?|apply rtc_refl]|].
    split; [done|]. split; [constructor|]. intros _. split; try done.
    change (snd_una iss (tcp_new peer port mss iss)) with (iss + 0 + 0 + 0). cbn. f_equal. lia. }
  intros H. remember (tcp_new peer port mss iss) as t0 eqn:E. clear E. induction H as [t|x y z Hxy _ IH].
  - destruct H0 as (Hi&Hw&Hlog&Ht). split; [done|]. intros Hd. destruct (Ht Hd) as [[k Hk] H2 _ _]. exists k. split; [done|].
    rewrite H2. unfold snd_una, acked_bytes. rewrite Hk, length_app. do 2 f_equal. lia.
  - apply IH. by eapply sender_step.
Qed.

(** A request is sent, partly acknowledged and retransmitted. *)
Definition ex_get : tcp_connection := run_app_op ex_established (AppSend quiet_env [0x47; 0x45; 0x54; 0x20]).
Definition ex_partial : tcp_connection := quiet_rx 5001 1003 8192 TCP_ACK [] ex_get.
Definition ex_request : tcp_connection := tcp_xmit quiet_env (set_process false ex_partial).

Lemma ex_request_reachable : rtc (tcp_step causal_network) ex_new ex_request.
Proof.
  apply (rtc_r _ ex_partial); [apply (rtc_r _ ex_get); [apply (rtc_r _ ex_established)|]|].
  - apply ex_established_reachable.
  - apply step_app. vm_compute. reflexivity.
  - apply quiet_rx_step; [vm_compute; reflexivity|vm_compute; discriminate|vm_compute; by eexists].
  - apply step_process. vm_compute. reflexivity.
Qed.

Lemma tcp_sends_stream_witness :
  rtc (tcp_step causal_network) ex_new ex_request /\ map seg_payload (tx_log ex_request) = [[]; [0x47; 0x45; 0x54; 0x20]; [0x54; 0x20]]
  /\ map seg_seq (tx_log ex_request) = [1000; 1001; 1003]
  /\ Forall (seg_ok 1000 [0x47; 0x45; 0x54; 0x20]) (tx_log ex_request).
Proof.
  split; [apply ex_request_reachable|]. split; [vm_compute; reflexivity|]. split; [vm_compute; reflexivity|].
  apply (tcp_sends_stream 80 1025 1440 1000 ex_request). apply ex_request_reachable.
Defined.

(** ** Parsing options *)

(** The smallest length of an option of a kind. *)
Definition opt_min (kind : Z) : Z :=
  if kind =? TCP_OPTION_WS then 3 else if kind =? TCP_OPTION_SACK_PERMITTED then 2
  else if kind =? TCP_OPTION_TS then 10 else 2.

Lemma opt_min_ge kind : 2 <= opt_min kind.
Proof. unfold opt_min. repeat case_if; lia. Qed.

Lemma mem_byte_some data i : 0 <= i < zlen data -> is_Some (mem_byte data i).
Proof. intros H. unfold mem_byte. rewrite (proj2 (Z.leb_le _ _)) by lia. apply lookup_lt_is_Some_2. lia. Qed.

Lemma mem_read_some data i n : 0 <= i -> 0 <= n -> i + n <= zlen data -> is_Some (mem_read data i n).
Proof. intros. unfold mem_read. rewrite !(proj2 (Z.leb_le _ _)) by lia. by eexists. Qed.

(** Whatever the bytes, the parser terminates within its fuel and reads only
    inside the header. *)
Lemma rx_opts_total fuel data o : (length data < fuel)%nat -> is_Some (rx_opts_loop fuel data o).
Proof.
  revert data o. induction fuel as [|fuel IH]; intros data o Hf; [lia|]. cbn [rx_opts_loop].
  destruct (Z.eqb_spec (zlen data) 0) as [|Hne]; [by eexists|].
  destruct (mem_byte_some data 0 ltac:(lia)) as [kind ->]. case_if; [by eexists|]. case_if.
  { apply IH. rewrite length_drop. lia. }
  fold (opt_min kind). pose proof (opt_min_ge kind). case_if; [by eexists|].
  destruct (mem_byte_some data 1 ltac:(lia)) as [len ->]. case_if; [by eexists|]. case_if; [by eexists|].
  assert (Hstep : forall o', is_Some (rx_opts_loop fuel (drop (Z.to_nat len) data) o')).
  { intros o'. apply IH. rewrite length_drop. lia. }
  unfold opt_min in *. destruct (kind =? TCP_OPTION_WS).
  { destruct (mem_byte_some data 2 ltac:(lia)) as [sc ->]. apply Hstep. }
  destruct (kind =? TCP_OPTION_SACK_PERMITTED); [apply Hstep|]. destruct (kind =? TCP_OPTION_TS); [|apply Hstep].
  destruct (mem_read_some data 2 4 ltac:(lia) ltac:(lia) ltac:(lia)) as [b ->]. apply Hstep.
Qed.

(** One option at the front. *)
Lemma rx_opts_nop fuel data o : rx_opts_loop (S fuel) (TCP_OPTION_NOP :: data) o = rx_opts_loop fuel data o.
Proof. cbn [rx_opts_loop]. rewrite (proj2 (Z.eqb_neq _ _)) by (cbn [length]; lia). reflexivity. Qed.

Lemma rx_opts_option fuel kind len body rest o : kind <> TCP_OPTION_END -> kind <> TCP_OPTION_NOP ->
  opt_min kind <= len -> zlen body = len - 2 ->
  rx_opts_loop (S fuel) (kind :: len :: body ++ rest) o
  = rx_opts_loop fuel rest
      (if kind =? TCP_OPTION_WS then TcpOptions (body !! 0%nat) (spopt o) (tsopt o)
       else if kind =? TCP_OPTION_SACK_PERMITTED then TcpOptions (wsopt o) true (tsopt o)
       else if kind =? TCP_OPTION_TS then TcpOptions (wsopt o) (spopt o) (Some (be_val (take 4 body)))
       else o).
Proof.
  intros H0 H1 Hmin Hb. cbn [rx_opts_loop]. set (data := kind :: len :: body ++ rest). pose proof (opt_min_ge kind) as Hm.
  assert (Hl : zlen data = len + zlen rest) by (subst data; cbn [length]; rewrite length_app; lia).
  rewrite (proj2 (Z.eqb_neq (zlen data) 0)) by lia. change (mem_byte data 0) with (Some kind). change (mem_byte data 1) with (Some len).
  cbv iota. rewrite (proj2 (Z.eqb_neq kind _)), (proj2 (Z.eqb_neq kind _)) by done. fold (opt_min kind).
  rewrite (proj2 (Z.ltb_ge (zlen data) _)), (proj2 (Z.ltb_ge len _)), (proj2 (Z.ltb_ge (zlen data) _)) by lia.
  assert (Hd : drop (Z.to_nat len) data = rest).
  { subst data. replace (Z.to_nat len) with (2 + length body)%nat by lia. rewrite <- drop_drop. cbn [drop skipn].
    by rewrite drop_0, drop_app_length. }
  unfold opt_min in Hmin. destruct (kind =? TCP_OPTION_WS).
  { destruct body as [|sc body]; [cbn in Hb; lia|]. change (mem_byte data 2) with (Some sc). by rewrite Hd. }
  destruct (kind =? TCP_OPTION_SACK_PERMITTED); [by rewrite Hd|]. destruct (kind =? TCP_OPTION_TS); [|by rewrite Hd].
  assert (Er : mem_read data 2 4 = Some (take 4 body)).
  { unfold mem_read. rewrite !(proj2 (Z.leb_le _ _)) by lia. cbn [andb]. subst data. change (Z.to_nat 2) with 2%nat.
    cbn [drop skipn]. rewrite drop_0, take_app_le by lia. done. }
  by rewrite Er, Hd.
Qed.

(** The options a transmission with these flags announces. *)
Definition sent_options (e : env) (t : tcp_connection) (flags : Z) : tcp_options :=
  let syn := has flags TCP_SYN in
  TcpOptions (if syn then Some TCP_RX_WINDOW_SCALE else None) syn
    (if syn || has (conn_flags t) TCP_TS_ENABLED then Some (u32 (e_ticks e)) else None).

Lemma xmit_options_parsed e t flags s :
  let options := (xmit_options e t flags s).2 in
  rx_opts_loop (S (length options)) options (TcpOptions None false None) = Some (Ok (sent_options e t flags)).
Proof.
  unfold xmit_options, tcp_sack. destruct (tcp_sack_block t s) as [len b]. set (blocks := sack_update t (sack t) _).
  set (iobuf := if _ || _ then _ else _).
  assert (Hi : forall fuel, (length iobuf < fuel)%nat ->
    rx_opts_loop fuel iobuf (TcpOptions None false None) = Some (Ok (sent_options e t flags))).
  { intros fuel Hf. subst iobuf. unfold sent_options, ts_option, syn_options in *.
    assert (Hts : forall fuel rest, rx_opts_loop (3 + fuel) ([TCP_OPTION_NOP; TCP_OPTION_NOP; TCP_OPTION_TS; 10] ++ (be32 (e_ticks e) ++ be32 (ts_recent t)) ++ rest)
              (TcpOptions None false None) = rx_opts_loop fuel rest (TcpOptions None false (Some (u32 (e_ticks e))))).
    { intros fuel' rest. cbn [app Nat.add]. rewrite !rx_opts_nop.
      rewrite (rx_opts_option fuel' TCP_OPTION_TS 10 (be32 (e_ticks e) ++ be32 (ts_recent t))) by done.
      cbn [Z.eqb]. change (take 4 (be32 (e_ticks e) ++ be32 (ts_recent t))) with (be32 (e_ticks e)). by rewrite be32_val. }
    destruct (has flags TCP_SYN); cbn [orb].
    - replace fuel with (3 + (3 + (2 + (2 + (fuel - 10)))))%nat by (cbn in Hf; lia). rewrite <- !app_assoc. rewrite (app_assoc (be32 _)), Hts.
      cbn [app]. cbn [Nat.add]. rewrite !rx_opts_nop.
      etrans; [by apply (rx_opts_option _ TCP_OPTION_SACK_PERMITTED 2 [])|]. rewrite rx_opts_nop.
      etrans; [by apply (rx_opts_option _ TCP_OPTION_WS 3 [TCP_RX_WINDOW_SCALE])|].
      etrans; [by apply (rx_opts_option _ TCP_OPTION_MSS 4 (be16 (mss t)) [])|]. reflexivity.
    - destruct (has (conn_flags t) TCP_TS_ENABLED); [|destruct fuel; [cbn in Hf; lia|done]].
      replace fuel with (3 + S (fuel - 4))%nat by (cbn in Hf; lia). rewrite <- app_assoc, Hts. done. }
  destruct (_ && _); cbn [snd]; [|apply Hi; lia]. destruct (list_empty blocks); cbn [snd]; [apply Hi; lia|].
  unfold sack_option. set (body := concat _). assert (Hbody : zlen body = 8 * zlen blocks).
  { pose proof (sack_option_length blocks) as E. unfold sack_option in E. fold body in E. rewrite zlen_app in E. cbn [length] in E. lia. }
  rewrite <- app_assoc. cbn [app]. cbn [length]. rewrite !rx_opts_nop.
  rewrite (rx_opts_option _ TCP_OPTION_SACK (2 + 8 * zlen blocks) body iobuf) by (done || (unfold opt_min; cbn; lia) || lia).
  cbn [Z.eqb]. apply Hi. rewrite length_app. lia.
Qed.

(** Constant bytes. *)
Ltac const_bytes := repeat (apply Forall_cons_2; [split; vm_compute; first [reflexivity | discriminate]|]); apply Forall_nil_2.

Lemma xmit_options_bytes e t flags s : bytes_ok (xmit_options e t flags s).2.
Proof.
  unfold xmit_options, tcp_sack. destruct (tcp_sack_block t s) as [len b]. set (blocks := sack_update t (sack t) _).
  assert (Hb : (length blocks <= TCP_SACK_MAX)%nat) by (apply sack_update_length; case_if; cbn; unfold TCP_SACK_MAX; lia).
  set (iobuf := if _ || _ then _ else _). assert (Hi : bytes_ok iobuf).
  { subst iobuf. assert (Hts : bytes_ok (ts_option (e_ticks e) t)).
    { unfold ts_option. apply Forall_app. split; [const_bytes|]. apply Forall_app. split; apply be32_bytes. }
    assert (Hsyn : bytes_ok (syn_options t)).
    { unfold syn_options. rewrite !app_assoc. apply Forall_app. split; [const_bytes|apply be16_bytes]. }
    assert (Hx : bytes_ok (if has flags TCP_SYN then syn_options t else [])) by (destruct (has _ _); [done|apply Forall_nil_2]).
    destruct (_ || _); [by apply Forall_app|done]. }
  destruct (_ && _); [|done]. destruct (list_empty blocks); [done|]. apply Forall_app. split; [|done].
  unfold sack_option. apply Forall_app. unfold TCP_SACK_MAX, TCP_OPTION_NOP, TCP_OPTION_SACK in *. split; [solve_bytes|].
  clear Hb. induction blocks as [|[l r] bl IH]; [apply Forall_nil_2|]. cbn [map concat]. apply Forall_app. split; [|done].
  apply Forall_app. split; apply be32_bytes.
Qed.

(** The checksum that [with_csum] stores verifies. *)
Lemma with_csum_verifies x y contents : bytes_ok x -> bytes_ok y -> bytes_ok contents -> Nat.even (length x) = true ->
  generic_tcpip_continue_chksum TCPIP_EMPTY_CSUM (with_csum (fun csum => x ++ csum ++ y) contents) = 0.
Proof.
  intros Hx Hy Hc He. unfold with_csum. rewrite <- !app_assoc. cbn [app].
  destruct (tcpip_chksum_verifies x (y ++ contents) Hx ltac:(apply Forall_app; done) He) as [_ H]. exact H.
Qed.

Lemma tcp_segment_verifies t flags options payload : byte_ok flags -> bytes_ok options -> bytes_ok payload ->
  generic_tcpip_continue_chksum TCPIP_EMPTY_CSUM (tcp_segment t flags options payload) = 0.
Proof.
  intros Hf Ho Hp. unfold tcp_segment. set (fl := if negb _ then _ else flags).
  assert (Hfl : byte_ok fl).
  { subst fl. case_if; [|done]. pose proof (range_check 0 256 (fun f => (0 <=? Z.lor f TCP_PSH) && (Z.lor f TCP_PSH <? 256))
      ltac:(vm_compute; reflexivity) flags ltac:(unfold byte_ok in Hf; lia)) as H. cbv beta in H. bool_to_prop. by split. }
  set (hl := u8 _). assert (Hh : byte_ok hl) by (apply (uwrap_range 8); lia).
  set (win := be16 (Z.shiftr _ _)).
  pose proof (with_csum_verifies (be16 (local_port t) ++ be16 (peer_port t) ++ be32 (snd_seq t) ++ be32 (rcv_ack t) ++ [hl; fl] ++ win)
    [0; 0] (options ++ payload)) as H.
  unfold with_csum, tcp_header in *. rewrite <- !app_assoc in H. rewrite <- !app_assoc. apply H.
  - repeat (apply Forall_app; split; [apply be16_bytes || apply be32_bytes || solve_bytes|]). apply be16_bytes.
  - solve_bytes.
  - apply Forall_app. split; assumption.
  - reflexivity.
Qed.

(** C7. Sender and receiver agree on the format.  A segment that
    [tcp_xmit_sack] builds (any flags, with or without timestamp and SACK
    options, as long as the options fit) is accepted by [tcp_rx] of the
    connection it is addressed to: header length and checksum verify, the
    options are read as they were written, and the handler runs on exactly the
    ports, sequence and acknowledgement numbers, window, flags and payload of
    the sender. *)
Theorem tcp_segment_roundtrip ad aw e e' er' t' flags s t payload c :
  let options := (xmit_options e t' flags s).2 in
  byte_ok flags -> bytes_ok payload -> (has flags TCP_SYN = true -> rx_queue t' = []) ->
  local_port c = u16 (peer_port t) ->
  let seg := tcp_segment t flags options payload in
  tcp_rx ad aw e' er' TCPIP_EMPTY_CSUM seg [c]
  = opt! (c', rc) := rx_segment ad aw e' er' (be16 (local_port t)) (be16 (peer_port t)) (be32 (snd_seq t)) (be32 (rcv_ack t))
                       (u16 (Z.shiftr (rcv_win t) (rcv_win_scale t)))
                       (if negb (zlen payload =? 0) then Z.lor flags TCP_PSH else flags)
                       (sent_options e t' flags) payload c in
    Some (conns_update [c] 0 c', rc).
Proof.
  intros options Hf Hp Hsyn Hport seg. pose proof (xmit_options_length e t' flags s) as (O1&O2&O3). fold options in O1, O2, O3.
  assert (Hl : zlen options <= 40) by (destruct (has flags TCP_SYN); [rewrite O3; auto; lia|auto]).
  destruct (tcp_segment_read t flags options payload O1 Hl) as (R1&R2&_). fold seg in R1, R2.
  assert (Hlen : zlen seg = 20 + zlen options + zlen payload).
  { subst seg. unfold tcp_segment, with_csum, tcp_header. rewrite !length_app. cbn [length be16 be32]. lia. }
  assert (Hdata : mem_read seg 20 (20 + zlen options - 20) = Some options).
  { replace (20 + zlen options - 20) with (zlen options) by lia. subst seg. unfold tcp_segment, with_csum. set (hdr := tcp_header _ _ _ _ _ _ _ _).
    change 20 with (zlen hdr). apply mem_read_at. }
  unfold tcp_rx. rewrite (proj2 (Z.ltb_ge _ _)) by lia. unfold seg_hlen in R1.
  destruct (mem_byte_some seg 12 ltac:(lia)) as [b12 E12]. rewrite E12 in R1 |- *. rewrite R1.
  rewrite !(proj2 (Z.ltb_ge _ _)) by lia. unfold seg at 1. rewrite tcp_segment_verifies by (done || apply xmit_options_bytes).
  change (negb (0 =? 0)) with false. cbv iota.
  assert (Hread : forall off n, 0 <= off -> 0 <= n -> off + n <= 20 -> mem_read seg off n = Some (take (Z.to_nat n) (drop (Z.to_nat off) seg))).
  { intros off n H1 H2 H3. unfold mem_read. by rewrite !(proj2 (Z.leb_le _ _)) by lia. }
  rewrite !Hread by lia.
  change (take (Z.to_nat 2) (drop (Z.to_nat 0) seg)) with (be16 (local_port t)).
  change (take (Z.to_nat 2) (drop (Z.to_nat 2) seg)) with (be16 (peer_port t)).
  change (take (Z.to_nat 4) (drop (Z.to_nat 4) seg)) with (be32 (snd_seq t)).
  change (take (Z.to_nat 4) (drop (Z.to_nat 8) seg)) with (be32 (rcv_ack t)).
  change (take (Z.to_nat 2) (drop (Z.to_nat 14) seg)) with (be16 (Z.shiftr (rcv_win t) (rcv_win_scale t))).
  change (mem_byte seg 13) with (Some (if negb (zlen payload =? 0) then Z.lor flags TCP_PSH else flags)).
  cbv iota beta. unfold tcp_rx_opts. rewrite Hdata. cbv iota beta. pose proof (xmit_options_parsed e t' flags s) as Hparse. cbv zeta in Hparse.
  fold options in Hparse. rewrite Hparse. unfold tcp_demux. cbn [list_find]. rewrite be16_val, decide_True by done. cbv iota beta.
  unfold seg_payload, seg_hlen in R2. rewrite E12, R1 in R2. by rewrite R2, be16_val.
Qed.

(** A data segment with a timestamp, to a connection on port 80. *)
Lemma tcp_segment_roundtrip_witness :
  let c := tcp_new 1025 80 1440 9 in
  let seg := tcp_segment ex_established 0x10 (xmit_options quiet_env ex_established 0x10 0).2 [1; 2; 3] in
  length seg = 35%nat
  /\ tcp_rx quiet_deliver quiet_window quiet_env quiet_env TCPIP_EMPTY_CSUM seg [c]
     = opt! (c', rc) := rx_segment quiet_deliver quiet_window quiet_env quiet_env (be16 1025) (be16 80) (be32 1001) (be32 5001)
                          (u16 (Z.shiftr 65531 0)) 0x18 (TcpOptions None false (Some 0)) [1; 2; 3] c in
       Some (conns_update [c] 0 c', rc).
Proof.
  intros c seg. split; [vm_compute; reflexivity|].
  assert (Ec : local_port c = u16 (peer_port ex_established)) by (vm_compute; reflexivity).
  pose proof (tcp_segment_roundtrip quiet_deliver quiet_window quiet_env quiet_env quiet_env ex_established 0x10 0 ex_established
    [1; 2; 3] c ltac:(split; vm_compute; [discriminate|reflexivity]) ltac:(const_bytes) ltac:(vm_compute; discriminate) Ec) as H.
  cbv zeta in H. fold seg in H. rewrite H. vm_compute. reflexivity.
Defined.

(** ** The receive handler on arbitrary packets *)

(** C8. Robustness of reception.  On arbitrary bytes, [tcp_rx] never reads
    outside the packet, its loops terminate, and it is undefined only where the
    peer's window is shifted by the scale that the peer announced: it is defined
    whenever the scale of the connection is below 32.  Nothing enforces that:
    after a SYN that announces a scale of 255, every segment with an ACK makes
    [tcp_rx] shift by 255. *)
Theorem tcp_rx_defined :
  (forall ad aw e er pshdr_csum iobuf conns, Forall (fun t => snd_win_scale t < 32) conns ->
     is_Some (tcp_rx ad aw e er pshdr_csum iobuf conns))
  /\ exists t, tcp_step causal_network ex_syn_sent t /\ snd_win_scale t = 255
     /\ forall ad aw e er src dest seq ack raw_win flags options payload, has flags TCP_ACK = true ->
        rx_segment ad aw e er src dest seq ack raw_win flags options payload t = None.
Proof.
  split.
  - intros ad aw e er pc iobuf conns Hc. unfold tcp_rx. case_if; [by eexists|].
    destruct (mem_byte_some iobuf 12 ltac:(lia)) as [b ->]. set (hlen := _ * 4). repeat (case_if; [by eexists|]).
    destruct (mem_read_some iobuf 0 2 ltac:(lia) ltac:(lia) ltac:(lia)) as [src ->].
    destruct (mem_read_some iobuf 2 2 ltac:(lia) ltac:(lia) ltac:(lia)) as [dest ->].
    destruct (mem_read_some iobuf 4 4 ltac:(lia) ltac:(lia) ltac:(lia)) as [seq ->].
    destruct (mem_read_some iobuf 8 4 ltac:(lia) ltac:(lia) ltac:(lia)) as [ack ->].
    destruct (mem_read_some iobuf 14 2 ltac:(lia) ltac:(lia) ltac:(lia)) as [win ->].
    destruct (mem_byte_some iobuf 13 ltac:(lia)) as [flags ->]. unfold tcp_rx_opts.
    destruct (mem_read_some iobuf 20 (hlen - 20) ltac:(lia) ltac:(lia) ltac:(lia)) as [data ->].
    destruct (rx_opts_total (S (length data)) data (TcpOptions None false None) ltac:(lia)) as [[options|err] ->]; [|by eexists].
    destruct (tcp_demux conns (be_val dest)) as [[i t]|] eqn:Ed; [|by eexists].
    assert (Ht : snd_win_scale t < 32).
    { apply list_find_Some in Ed as (Hi&_). rewrite Forall_lookup in Hc. by eapply Hc. }
    unfold rx_segment, rx_handle_ack, shift_window.
    set (t0 := match tsopt options with Some _ => _ | None => t end).
    assert (E0 : snd_win_scale t0 = snd_win_scale t) by (subst t0; by destruct (tsopt options)).
    rewrite E0, (proj2 (Z.ltb_lt _ _)) by lia.
    destruct (has flags TCP_ACK); [destruct (tcp_rx_ack _ _ t0) as [t1 [[]|err]]|]; try (by eexists).
    all: destruct (has flags TCP_RST); [|by eexists].
    all: match goal with |- context [tcp_rx_rst ?s ?u] => destruct (tcp_rx_rst s u) as [t2 [[]|err]] end; by eexists.
  - set (r := rx_segment quiet_deliver quiet_window quiet_env quiet_env (be16 80) (be16 1025) (be32 5000) (be32 1001) 8192
                (Z.lor TCP_SYN TCP_ACK) (TcpOptions (Some 255) true (Some 7)) [] ex_syn_sent).
    exists (match r with Some (t, _) => t | None => ex_syn_sent end). split; [|split].
    + assert (E : r = Some (match r with Some (t, _) => t | None => ex_syn_sent end, Ok tt)) by (vm_compute; reflexivity).
      eapply step_rx; [| | |exact E]; [vm_compute; reflexivity|by repeat split|vm_compute; auto].
    + vm_compute. reflexivity.
    + intros ad aw e er src dest seq ack raw_win flags options payload Hack. unfold rx_segment, rx_handle_ack. rewrite Hack.
      assert (Es : snd_win_scale (match r with Some (t, _) => t | None => ex_syn_sent end) = 255) by (vm_compute; reflexivity).
      generalize dependent (match r with Some (t, _) => t | None => ex_syn_sent end). intros t Es.
      assert (E0 : shift_window raw_win (snd_win_scale (match tsopt options with Some tsval => set_ts_val tsval t | None => t end)) = None)
        by (destruct (tsopt options); cbn; unfold shift_window; by rewrite Es).
      by rewrite E0.
Qed.

(** ** Limits *)

(** Three gaps in the received stream, then a full segment is sent. *)
Definition ex_gaps : tcp_connection :=
  quiet_rx 5021 1001 8192 TCP_ACK [3] (quiet_rx 5016 1001 8192 TCP_ACK [2] (quiet_rx 5011 1001 8192 TCP_ACK [1] ex_established)).
Definition ex_long : tcp_connection := run_app_op ex_gaps (AppSend quiet_env (replicate 1300 0x41)).

(** The headers of data segments exceed what the source reserves for them.
    Without SYN a header takes at most 60 bytes, and three SACK blocks with a
    timestamp reach that; [TCP_MAX_HEADER_LEN] reserves only 40 bytes beyond
    the lower layers' headers, and with the payload that [TCP_PATH_MTU] allows
    the datagram is longer than the 1280 bytes meant to be its limit. *)
Theorem tcp_sack_exceeds_limits :
  (forall e t flags s, has flags TCP_SYN = false -> 20 + zlen (xmit_options e t flags s).2 <= 60)
  /\ rtc (tcp_step causal_network) ex_new ex_long
  /\ exists seg, last (tx_log ex_long) = Some seg /\ seg_hlen seg = 60
     /\ TCP_MAX_HEADER_LEN < MAX_LL_NET_HEADER_LEN + seg_hlen seg
     /\ zlen (seg_payload seg) = TCP_PATH_MTU /\ 1280 < 40 + zlen seg.
Proof.
  split; [|split].
  - intros e t flags s Hs. pose proof (xmit_options_length e t flags s) as (_&H&_). specialize (H Hs). lia.
  - apply (rtc_r _ ex_gaps); [|apply step_app; vm_compute; reflexivity].
    apply (rtc_r _ (quiet_rx 5016 1001 8192 TCP_ACK [2] (quiet_rx 5011 1001 8192 TCP_ACK [1] ex_established)));
      [apply (rtc_r _ (quiet_rx 5011 1001 8192 TCP_ACK [1] ex_established)); [apply (rtc_r _ ex_established)|]|].
    + apply ex_established_reachable.
    + apply quiet_rx_step; [vm_compute; reflexivity|vm_compute; discriminate|vm_compute; by eexists].
    + apply quiet_rx_step; [vm_compute; reflexivity|vm_compute; discriminate|vm_compute; by eexists].
    + apply quiet_rx_step; [vm_compute; reflexivity|vm_compute; discriminate|vm_compute; by eexists].
  - exists (default [] (last (tx_log ex_long))).
    repeat split; vm_compute; reflexivity.
Qed.

(** ** All connections *)

Lemma close_closed rc t : xfer_closed (tcp_close rc t) = true.
Proof.
  unfold xfer_closed, tcp_close. set (t0 := or_flags TCP_XFER_CLOSED t).
  assert (H0 : has (conn_flags t0) TCP_XFER_CLOSED = true) by (subst t0; cbn; rewrite has_lor; apply orb_true_r).
  case_if; [done|]. set (t1 := if negb (has _ _) then _ else t0).
  assert (H1 : has (conn_flags t1) TCP_XFER_CLOSED = true).
  { subst t1. case_if; [|done]. pose proof (tcp_rx_ack_frame (u32 (snd_seq t0 + 1)) 0 t0) as (_&_&->&_). done. }
  case_if; done.
Qed.

Definition unclosed (conns : list tcp_connection) : nat := length (filter (fun t => xfer_closed t = false) conns).

Lemma unclosed_app l1 l2 : unclosed (l1 ++ l2) = (unclosed l1 + unclosed l2)%nat.
Proof. unfold unclosed. by rewrite filter_app, length_app. Qed.

Lemma first_unclosed_none conns : tcp_first_unclosed conns = None -> Forall (fun t => xfer_closed t = true) conns.
Proof. intros H. apply list_find_None in H. eapply Forall_impl; [exact H|]. intros t Ht. unfold xfer_closed. by apply not_false_iff_true. Qed.

Section Shutdown.
Context (a : arch) {world : Type} (currticks : world -> Z).
Context (step : world * list tcp_connection -> world * list tcp_connection).
Context (on_close : tcp_connection -> world -> list tcp_connection -> list tcp_connection ->
                    world * list tcp_connection * list tcp_connection).

(** The applications may close or remove other connections when theirs is
    closed, but do not add to those that exist or are still to be closed. *)
Definition closes_only : Prop := forall t w before after,
  let '(_, before', after') := on_close t w before after in
  (length (before' ++ after') <= length (before ++ after))%nat
  /\ (unclosed (before' ++ after') <= unclosed (before ++ after))%nat.

(** However late it is, the deadline is reached after some number of steps. *)
Definition clock_runs : Prop := forall s, exists k,
  TCP_FINISH_TIMEOUT <= uwrap (size_bits a) (currticks (Nat.iter k step s).1 - currticks s.1).

Hypothesis Hclose : closes_only.

Lemma shutdown_conn_unclosed i t s : s.2 !! i = Some t -> xfer_closed t = false ->
  (unclosed (shutdown_conn on_close i t s).2 < unclosed s.2)%nat.
Proof.
  destruct s as [w conns]. cbn [snd]. intros Hi Hx. unfold shutdown_conn. unfold xfer_closed in Hx. rewrite Hx.
  specialize (Hclose t w (take i conns) (drop (S i) conns)). destruct (on_close _ _ _ _) as [[w' b'] a']. cbn [snd].
  rewrite <- (take_drop_middle conns i t Hi). destruct Hclose as [_ Hu]. rewrite !unclosed_app in *.
  assert (E1 : unclosed (t :: drop (S i) conns) = S (unclosed (drop (S i) conns))) by (unfold unclosed; by rewrite filter_cons_True).
  assert (E2 : unclosed (tcp_close (Err ECANCELED) t :: a') = unclosed a') by (unfold unclosed; by rewrite filter_cons_False by (by rewrite close_closed)).
  case_if; rewrite unclosed_app; lia.
Qed.

Lemma shutdown_close_spec fuel s : (unclosed s.2 <= fuel)%nat ->
  exists s', (forall fuel', (fuel <= fuel')%nat -> shutdown_close on_close fuel' s = Some s') /\ Forall (fun t => xfer_closed t = true) s'.2.
Proof.
  revert s. induction fuel as [|fuel IH]; intros s Hf; destruct (tcp_first_unclosed s.2) as [[i t]|] eqn:E.
  1: { apply list_find_Some in E as (Hi&Ht&_). pose proof (shutdown_conn_unclosed i t s Hi Ht). lia. }
  2: { pose proof (proj1 (list_find_Some _ _ _ _) E) as (Hi&Ht&_). pose proof (shutdown_conn_unclosed i t s Hi Ht).
       destruct (IH (shutdown_conn on_close i t s) ltac:(lia)) as (s'&H1&H2). exists s'. split; [|done].
       intros [|f] Hf'; [lia|]. cbn [shutdown_close]. rewrite E. apply H1. lia. }
  all: exists s; split; [|by apply first_unclosed_none]; intros [|f] _; cbn [shutdown_close]; by rewrite E.
Qed.

Lemma shutdown_conn_force t conns w : (length (shutdown_conn on_close 0 (set_tcp_state TCP_CLOSED t) (w, t :: conns)).2 <= length conns)%nat.
Proof.
  unfold shutdown_conn. destruct (tcp_close_delete (Err ECANCELED) (set_tcp_state TCP_CLOSED t) eq_refl) as (_&C&_). rewrite C.
  set (t' := set_tcp_state TCP_CLOSED t). specialize (Hclose t' w (take 0 (t :: conns)) (drop 1 (t :: conns))).
  case_if; [cbn; by rewrite drop_0|]. destruct (on_close _ _ _ _) as [[w' b'] a']. cbn in *. rewrite drop_0 in Hclose. lia.
Qed.

Lemma shutdown_force_spec fuel s : (length s.2 <= fuel)%nat -> exists w, shutdown_force on_close fuel s = Some (w, []).
Proof.
  revert s. induction fuel as [|fuel IH]; intros [w [|t conns]] Hf; cbn in Hf; try lia; try by exists w.
  cbn [shutdown_force snd]. apply IH. pose proof (shutdown_conn_force t conns w). lia.
Qed.

Lemma shutdown_force_mono fuel fuel' s s' : (fuel <= fuel')%nat ->
  shutdown_force on_close fuel s = Some s' -> shutdown_force on_close fuel' s = Some s'.
Proof.
  revert fuel' s. induction fuel as [|fuel IH]; intros [|fuel'] s Hf; cbn [shutdown_force]; try lia;
    destruct (s.2); try done. apply IH. lia.
Qed.

Lemma shutdown_wait_mono fuel fuel' start s s' : (fuel <= fuel')%nat ->
  shutdown_wait a currticks step fuel start s = Some s' -> shutdown_wait a currticks step fuel' start s = Some s'.
Proof.
  revert fuel' s. induction fuel as [|fuel IH]; intros [|fuel'] s Hf; cbn [shutdown_wait]; try lia;
    destruct (tcp_first_unfinished s.2); try done; case_if; try done. apply IH. lia.
Qed.

(** The wait ends as soon as everything is finished or the time is up. *)
Lemma shutdown_wait_spec k start s :
  TCP_FINISH_TIMEOUT <= uwrap (size_bits a) (currticks (Nat.iter k step s).1 - start) ->
  exists s', shutdown_wait a currticks step k start s = Some s'
    /\ (tcp_first_unfinished s'.2 = None \/ TCP_FINISH_TIMEOUT <= uwrap (size_bits a) (currticks s'.1 - start)).
Proof.
  revert s. induction k as [|k IH]; intros s Hk; cbn [shutdown_wait].
  - cbn in Hk. destruct (tcp_first_unfinished s.2) eqn:E; [|by exists s; auto]. rewrite (proj2 (Z.ltb_ge _ _)) by done. exists s. auto.
  - destruct (tcp_first_unfinished s.2) eqn:E; [|by exists s; auto].
    destruct (Z.ltb_spec (uwrap (size_bits a) (currticks s.1 - start)) TCP_FINISH_TIMEOUT); [|by exists s; auto].
    apply IH. by rewrite <- Nat.iter_succ_r.
Qed.
End Shutdown.

(** C9. Shutdown.  Whatever connections there are and whatever the system does
    to them at every step of the wait, [tcp_shutdown] returns, and then no
    connection is left, provided that closing a connection does not make the
    applications open others in their place ([closes_only]; they may close or
    remove other connections) and that the timer runs ([clock_runs]): the first
    loop ends with every connection closed towards its application, the wait
    ends when all connections are finished or the time is up, and the last loop
    removes what remains. *)
Theorem tcp_shutdown_complete a {world} (currticks : world -> Z) step on_close s :
  closes_only on_close -> clock_runs a currticks step ->
  exists fuel0 s1 s2 w, forall fuel, (fuel0 <= fuel)%nat ->
    shutdown_close on_close fuel s = Some s1 /\ Forall (fun t => xfer_closed t = true) s1.2
    /\ shutdown_wait a currticks step fuel (currticks s1.1) s1 = Some s2
    /\ (tcp_first_unfinished s2.2 = None \/ TCP_FINISH_TIMEOUT <= uwrap (size_bits a) (currticks s2.1 - currticks s1.1))
    /\ shutdown_force on_close fuel s2 = Some (w, []) /\ tcp_shutdown a currticks step on_close fuel s = Some (w, []).
Proof.
  intros Hc Hr. destruct (shutdown_close_spec on_close Hc (unclosed s.2) s ltac:(lia)) as (s1&E1&H1).
  destruct (Hr s1) as [k Hk]. destruct (shutdown_wait_spec a currticks step k (currticks s1.1) s1 Hk) as (s2&E2&H2).
  destruct (shutdown_force_spec on_close Hc (length s2.2) s2 ltac:(lia)) as [w E3].
  exists (unclosed s.2 + k + length s2.2)%nat, s1, s2, w. intros fuel Hf. unfold tcp_shutdown. rewrite (E1 fuel) by lia.
  rewrite (shutdown_wait_mono a currticks step k fuel _ _ _ ltac:(lia) E2).
  rewrite (shutdown_force_mono on_close (length s2.2) fuel _ _ ltac:(lia) E3). done.
Qed.

(** Two connections; the application of the first one drops the second, and a
    step takes half a second. *)
Lemma tcp_shutdown_complete_witness :
  exists fuel0 s1 s2 w, forall fuel, (fuel0 <= fuel)%nat ->
    shutdown_close (fun _ w before _ => (w, before, [])) fuel (0, [ex_established; ex_new]) = Some s1
    /\ Forall (fun t => xfer_closed t = true) s1.2
    /\ shutdown_wait Arch32 id (fun s => (s.1 + 512, s.2)) fuel s1.1 s1 = Some s2
    /\ (tcp_first_unfinished s2.2 = None \/ TCP_FINISH_TIMEOUT <= uwrap 32 (s2.1 - s1.1))
    /\ shutdown_force (fun _ w before _ => (w, before, [])) fuel s2 = Some (w, [])
    /\ tcp_shutdown Arch32 id (fun s => (s.1 + 512, s.2)) (fun _ w before _ => (w, before, [])) fuel
         (0, [ex_established; ex_new]) = Some (w, []).
Proof.
  apply (tcp_shutdown_complete Arch32 id (fun s => (s.1 + 512, s.2)) (fun _ w before _ => (w, before, [])) (0, [ex_established; ex_new])).
  - intros t w before after. rewrite app_nil_r, length_app, unclosed_app. lia.
  - intros s. exists 2%nat. cbn. unfold id. replace (s.1 + 512 + 512 - s.1) with 1024 by lia. vm_compute. discriminate.
Defined.

Example tcp_shutdown_runs :
  tcp_shutdown Arch32 id (fun s => (s.1 + 512, s.2)) (fun _ w before _ => (w, before, [])) 5 (0, [ex_established; ex_new])
  = Some (1024, []).
Proof. vm_compute. reflexivity. Qed.

(** Opening.  A connection is opened with a local port that no existing
    connection uses, so that [tcp_demux] finds the new connection by its port
    and the existing ones as before; it has no data and waits to send its SYN. *)
Theorem tcp_open_correct conns mtu peer local r1 r2 conns' :
  tcp_open conns true mtu peer local r1 r2 = (conns', Ok tt) ->
  exists t, conns' = t :: conns /\ t = tcp_new peer (local_port t) (mtu - 20) (u32 r1)
    /\ Forall (fun u => local_port u <> local_port t) conns
    /\ tcp_demux conns' (local_port t) = Some (0%nat, t)
    /\ (forall p, p <> local_port t -> tcp_demux conns' p = prod_map S id <$> tcp_demux conns p).
Proof.
  unfold tcp_open. cbn [negb]. case_if; [done|].
  destruct (tcpip_bind (tcp_port_available conns) r2 local) as [port|err] eqn:Eb; [|done]. intros [= <-].
  set (t := tcp_new peer port (mtu - 20) (u32 r1)). exists t. split; [done|]. split; [done|].
  assert (Hav : tcp_demux conns port = None).
  { assert (Hok : exists r, tcp_port_available conns port = Ok r).
    { unfold tcpip_bind in Eb. destruct (match local with Some (f, p) => (f, p) | None => (0, 0) end) as [flags try_port].
      case_if_in Eb.
      - unfold tcp_port_available in *. destruct (tcp_demux conns try_port) eqn:E; [done|]. injection Eb as <-. rewrite E. by eexists.
      - set (mx := u16 (Z.land flags _ - 1)) in Eb. assert (0 <= mx) by (apply uwrap_range; lia).
        pose proof (bind_loop_spec (tcp_port_available conns) (u16 (Z.land (Z.lnot flags) TCPIP_BIND_PRIVILEGED + 1)) mx (u32 r2)
          (Z.to_nat (mx + 2)) 0 ltac:(lia) ltac:(lia)) as Hl. cbv zeta in Hl. rewrite Eb in Hl. apply Hl. }
    destruct Hok as [r Hok]. unfold tcp_port_available in Hok. by destruct (tcp_demux conns port). }
  split; [by apply list_find_None in Hav|]. unfold tcp_demux. cbn [list_find].
  split; [by rewrite decide_True|]. intros p Hp. by rewrite decide_False by (cbn in *; congruence).
Qed.

Lemma tcp_open_correct_witness :
  exists t, (tcp_open [ex_established] true 1500 80 None 77 5).1 = t :: [ex_established]
    /\ Forall (fun u => local_port u <> local_port t) [ex_established].
Proof.
  destruct (tcp_open_correct [ex_established] 1500 80 None 77 5 (tcp_open [ex_established] true 1500 80 None 77 5).1) as (t&E&_&H&_).
  - vm_compute. reflexivity.
  - exists t. split; [exact E|exact H].
Defined.
