(* ===== verification/Vtoy.v ===== *)
(** * The Ventoy layer (core/vtoy.c)

    The functions Ventoy adds on top of iPXE: the MD5 text of a buffer, the
    parser of dotted IPv4 addresses, the check of the offered boot file name,
    the HTTP port of the boot server and the remembered console command.
    [system] and [toy_store_setting] are the effects of these functions and
    appear as the commands and settings they are called with. *)
From S2P Require Import Prelude Strings Printf Codec Digest Hashes.

(** ** Data *)

(** "%02x" and "%d" *)
Definition md5_fmt : list Z := [37; 48; 50; 120].
Definition port_fmt : list Z := [37; 100].

(** [sizeof(g_szConsoleCmd)] *)
Definition g_szConsoleCmd_size : nat := 256.

Section Vtoy.
Context (a : arch).

(** ** Operations *)

(** The loop that prints the digest, from byte [i] on. *)
Fixpoint md5_text (result : list Z) (i : Z) (md5str : list Z) : option (list Z) :=
  match result with
  | [] => Some md5str
  | b :: result' =>
      opt! (md5str, _) := snprintf a md5str (i * 2) 4 md5_fmt [ArgInt b] in
      md5_text result' (i + 1) md5str
  end.

(** [ctx] is the uninitialised data block of the context on the stack. *)
Definition vtoy_calc_md5 (ctx pdata md5str : list Z) : option (list Z) :=
  let c := MD5.md5_init ctx in
  let c := MD5.md5_update a c pdata in
  opt! (_, result) := MD5.md5_final a c in
  md5_text result 0 md5str.

(** [szIP] is the memory from the string on to the end of its object. *)
Definition vtoy_parse_ip (szIP : list Z) : option Z :=
  opt! (a0, p) := strtoul a szIP 10 in
  opt! (a1, p) := strtoul a (drop 1 p) 10 in
  opt! (a2, p) := strtoul a (drop 1 p) 10 in
  opt! (a3, p) := strtoul a (drop 1 p) 10 in
  Some (Z.lor (Z.lor (Z.lor (u32 (Z.shiftl (u32 a0) 24)) (u32 (Z.shiftl (u32 a1) 16)))
                     (u32 (Z.shiftl (u32 a2) 8))) (u32 a3)).

(** "01-" *)
Definition pcPrefix : list Z := [48; 49; 45; 0].

Definition vtoy_is_bootfilename_valid (szBootFileName : option (list Z)) : option bool :=
  match szBootFileName with
  | None => Some false
  | Some name =>
      opt! len := strlen a name in
      if len <=? 0 then Some false
      else opt! pos := strstr a name pcPrefix in Some (if pos then true else false)
  end.

(** "http://" *)
Definition http_prefix : list Z := [104; 116; 116; 112; 58; 47; 47; 0].

(** The return value, and the value stored as setting "server_http_port";
    [szPort] is the uninitialised buffer on the stack. *)
Definition vtoy_parse_server_http_port (szPort filename : list Z) : option (Z * option (list Z)) :=
  opt! d := strncmp filename http_prefix 7 in
  if d =? 0 then
    opt! pos := strchr (drop 7 filename) 58 in
    match pos with
    | Some i =>
        opt! (v, _) := strtoul a (drop (7 + i + 1) filename) 10 in
        let port := swrap 32 v in
        opt! (szPort, _) := snprintf a szPort 0 16 port_fmt [ArgInt port] in
        Some (0, Some (until_nul szPort))
    | None => Some (-1, None)
    end
  else Some (-1, None).

(** "console", " " and " -x 1024 -y 768" *)
Definition console_text : list Z := [99; 111; 110; 115; 111; 108; 101].
Definition default_mode_text : list Z := [32; 45; 120; 32; 49; 48; 50; 52; 32; 45; 121; 32; 55; 54; 56].

Fixpoint append_args (cmd : list Z) (args : list (list Z)) : option (list Z) :=
  match args with
  | [] => Some cmd
  | arg :: args' =>
      opt! cmd := strcat a cmd [32; 0] in
      opt! cmd := strcat a cmd arg in
      append_args cmd args'
  end.

(** [args] is [argv] without the command name.  The result is the buffer
    [g_szConsoleCmd], whose string is passed to [system]. *)
Definition vtoy_console (g_szConsoleCmd : list Z) (args : list (list Z)) : option (list Z) :=
  opt! cmd := strncpy g_szConsoleCmd (console_text ++ [0]) g_szConsoleCmd_size in
  opt! cmd := append_args cmd args in
  match args with
  | [] => strcat a cmd (default_mode_text ++ [0])
  | _ => Some cmd
  end.

(** The command passed to [system], if any. *)
Definition vtoy_last_console (g_szConsoleCmd : list Z) : option (option (list Z)) :=
  opt! c := head g_szConsoleCmd in
  if c =? 0 then Some None else Some (Some (until_nul g_szConsoleCmd)).
End Vtoy.

(** "10.0.2.15", and the boot server of an iVentoy URL. *)
Example parse_ip_demo :
  vtoy_parse_ip Arch32 [49; 48; 46; 48; 46; 50; 46; 49; 53; 0] = Some 0x0a00020f.
Proof. vm_compute. reflexivity. Qed.

Example http_port_demo :
  vtoy_parse_server_http_port Arch64 (replicate 16 7)
    ([104; 116; 116; 112; 58; 47; 47; 120; 58; 49; 54; 48; 48; 48; 47; 102] ++ [0])
  = Some (0, Some [49; 54; 48; 48; 48]).
Proof. vm_compute. reflexivity. Qed.

Example console_demo :
  until_nul <$> vtoy_console Arch32 (replicate 256 1) [[45; 120; 0]]
  = Some [99; 111; 110; 115; 111; 108; 101; 32; 45; 120].
Proof. vm_compute. reflexivity. Qed.

(** ** The MD5 text *)

Lemma md5_fmt_text a b : byte_ok b -> vcprintf a md5_fmt [ArgInt b] = Some (hex_pair b).
Proof.
  intros Hb. unfold vcprintf, md5_fmt. cbn [length].
  rewrite (vcprintf_conv a _ _ _ ZPAD 2 INT_LEN 120 [] (hex_pair b) [])
    by (reflexivity || by apply hex_convert).
  cbn [vcprintf_loop]. by rewrite app_nil_r.
Qed.

Lemma md5_text_spec a result pre t tail i :
  bytes_ok result -> zlen pre = i * 2 -> (2 * length result <= length tail)%nat ->
  md5_text a result i (pre ++ t :: tail)
  = Some (pre ++ (result ≫= hex_pair) ++ (match result with [] => t | _ => 0 end)
            :: drop (2 * length result) tail).
Proof.
  intros Hb. revert pre t tail i. induction Hb as [|b result Hb Hr IH]; intros pre t tail i Hi Hl.
  - cbn [length Nat.mul]. by rewrite drop_0.
  - cbn [md5_text length] in *. destruct tail as [|t1 [|t2 tail]]; [cbn in Hl; lia|cbn in Hl; lia|].
    pose proof (vssnprintf_fits a pre (t :: t1 :: t2 :: tail) 4 _ _ _ (md5_fmt_text a b Hb)
                  (proj1 (hex_pair_ok b Hb))) as F.
    unfold vssnprintf in F. change (4 <? 0) with false in F. cbv iota in F.
    unfold snprintf. rewrite <- Hi, F by (cbn [length hex_pair]; lia).
    cbn [length hex_pair drop] in *. rewrite drop_0. replace (pre ++ hex_pair b ++ 0 :: tail) with ((pre ++ hex_pair b) ++ 0 :: tail)
      by (by rewrite <- app_assoc).
    rewrite IH; [|rewrite length_app; cbn [length hex_pair]; lia|lia].
    f_equal. cbn [mbind list_bind]. rewrite <- !app_assoc. do 3 f_equal.
    replace (2 * S (length result))%nat with (S (S (2 * length result))) by lia. cbn [drop]. by destruct result.
Qed.

Definition md5_h0 : list Z := [0x67452301; 0xefcdab89; 0x98badcfe; 0x10325476].

Lemma e_bytes_ok {e : Engine} n v : bytes_ok (e_bytes n v).
Proof.
  assert (Hle : forall n v, bytes_ok (le_bytes n v)).
  { clear n v. induction n as [|n IH]; intros v; [constructor|]. cbn [le_bytes]. constructor; [apply Z.mod_pos_bound; lia|apply IH]. }
  unfold e_bytes. destruct e_big; [|apply Hle]. apply List.Forall_rev, Hle.
Qed.

Lemma reference_bytes {e : Engine} h digestsize msg : bytes_ok (reference h digestsize msg).
Proof.
  unfold reference. apply Forall_take. generalize (md_fold (length (msg ++ padding msg) / e_block) h (msg ++ padding msg)).
  intros l. induction l as [|x l IH]; [constructor|]. cbn. apply Forall_app. split; [apply e_bytes_ok|exact IH].
Qed.

(** [vtoy_calc_md5] of any buffer, with whatever was on its stack, writes
    the 32 lower-case hexadecimal digits of the MD5 digest of the buffer and a
    terminator into the first 33 bytes of the result, and nothing else,
    although each [snprintf] is given four bytes. *)
Theorem vtoy_calc_md5_correct a ctx pdata md5str :
  length ctx = 64%nat -> zlen pdata + 256 < 2 ^ size_bits a -> (33 <= length md5str)%nat ->
  vtoy_calc_md5 a ctx pdata md5str
  = Some ((reference (e:=MD5.engine) md5_h0 16 pdata ≫= hex_pair) ++ 0 :: drop 33 md5str).
Proof.
  intros Hc Hp Hm. unfold vtoy_calc_md5, MD5.md5_final, MD5.md5_update, MD5.md5_init.
  destruct (final_absorbed (Hok:=MD5.engine_ok) a md5_h0 16 pdata (update (e:=MD5.engine) a (init md5_h0 16 ctx) pdata))
    as (c&E&_); [|done|].
  - apply (update_absorbed (Hok:=MD5.engine_ok) a md5_h0 16 pdata []); [|cbn [length]; lia].
    by apply (absorbed_init (Hok:=MD5.engine_ok)).
  - fold md5_h0. rewrite E. destruct md5str as [|t tail]; [cbn in Hm; lia|]. cbn [length] in Hm.
    pose proof (reference_length (H:=MD5.engine_ok) md5_h0 16 pdata eq_refl (le_n 16)) as Hl.
    pose proof (md5_text_spec a _ [] t tail 0 (reference_bytes (e:=MD5.engine) md5_h0 16 pdata)) as F.
    rewrite Hl in F. cbn [app] in F. rewrite F by (cbn [length]; lia). do 3 f_equal.
    by destruct (reference md5_h0 16 pdata).
Qed.

(** The digest of the empty buffer, d41d8cd98f00b204e9800998ecf8427e. *)
Lemma vtoy_calc_md5_correct_witness :
  vtoy_calc_md5 Arch64 (replicate 64 7) [] (replicate 34 9)
  = Some ((reference (e:=MD5.engine) md5_h0 16 [] ≫= hex_pair) ++ [0; 9]).
Proof. apply (vtoy_calc_md5_correct Arch64 (replicate 64 7) [] (replicate 34 9)); vm_compute; lia || done. Defined.

(** ** IPv4 addresses *)

(** What "%u" prints. *)
Abbreviation dec n := (vtoy_format_unsigned_decimal n 0 0).

Lemma strtoul_dec a n c t :
  0 <= n < 2 ^ size_bits a -> 10 <= digit_value c -> strtoul a (dec n ++ c :: t) 10 = Some (n, c :: t).
Proof.
  intros Hn Hc. unfold vtoy_format_unsigned_decimal. rewrite pad_to_zero.
  destruct (dec_digits_spec dec_fuel n []) as (ds&E&Hnil&Hds&Hv);
    [split; [lia|by apply (dec_fuel_enough a)]|unfold dec_fuel; lia|].
  rewrite E, app_nil_r. pose proof (strtoul_signed_digits (size_bits a) false ds c t Hnil Hds Hc) as Hp.
  rewrite Hv in Hp. apply Hp; [done|by destruct a].
Qed.

(** The octets in decimal with dots between them. *)
Fixpoint dotted (octets : list Z) : list Z :=
  match octets with
  | [] => []
  | [o] => dec o
  | o :: octets' => dec o ++ 46 :: dotted octets'
  end.

Lemma or_octets o0 o1 o2 o3 : byte_ok o0 -> byte_ok o1 -> byte_ok o2 -> byte_ok o3 ->
  Z.lor (Z.lor (Z.lor (u32 (Z.shiftl (u32 o0) 24)) (u32 (Z.shiftl (u32 o1) 16))) (u32 (Z.shiftl (u32 o2) 8))) (u32 o3)
  = o0 * 2 ^ 24 + o1 * 2 ^ 16 + o2 * 2 ^ 8 + o3.
Proof.
  unfold byte_ok. intros H0 H1 H2 H3. rewrite !Z.shiftl_mul_pow2, !(uwrap_small 32) by (rewrite ?uwrap_small; lia).
  rewrite (lor_mul_add o0 (o1 * 2 ^ 16) 24) by lia.
  replace (o0 * 2 ^ 24 + o1 * 2 ^ 16) with ((o0 * 2 ^ 8 + o1) * 2 ^ 16) by lia. rewrite lor_mul_add by lia.
  replace ((o0 * 2 ^ 8 + o1) * 2 ^ 16 + o2 * 2 ^ 8) with ((o0 * 2 ^ 16 + o1 * 2 ^ 8 + o2) * 2 ^ 8) by lia.
  rewrite lor_mul_add by lia. lia.
Qed.

(** C37. [vtoy_parse_ip] of the dotted decimal form of four octets is the
    address as a number.  Finding: the code steps over the character after
    each number without looking at it, so a shorter address (fewer than four
    numbers) makes it read past the terminator of the string. *)
Theorem vtoy_parse_ip_correct a octets :
  bytes_ok octets -> (1 <= length octets <= 4)%nat ->
  vtoy_parse_ip a (dotted octets ++ [0])
  = match octets with
    | [o0; o1; o2; o3] => Some (o0 * 2 ^ 24 + o1 * 2 ^ 16 + o2 * 2 ^ 8 + o3)
    | _ => None
    end.
Proof.
  intros Hb Hl. assert (H256 : 256 <= 2 ^ size_bits a) by (destruct a; vm_compute; discriminate).
  assert (Hs : forall o, byte_ok o -> 0 <= o < 2 ^ size_bits a) by (unfold byte_ok; lia).
  assert (Hdot : forall o t, byte_ok o -> strtoul a (dec o ++ 46 :: t) 10 = Some (o, 46 :: t))
    by (intros; apply strtoul_dec; [auto|by vm_compute]).
  assert (Hend : forall o, byte_ok o -> strtoul a (dec o ++ [0]) 10 = Some (o, [0]))
    by (intros; apply strtoul_dec; [auto|by vm_compute]).
  unfold vtoy_parse_ip. destruct octets as [|o0 [|o1 [|o2 [|o3 [|]]]]]; cbn [length] in Hl; try lia;
    unfold bytes_ok in Hb; repeat match goal with H : Forall byte_ok (_ :: _) |- _ => apply Forall_cons in H as [? H] end; cbn [dotted];
    repeat (rewrite <- app_assoc; cbn [app]);
    repeat (rewrite ?Hdot, ?Hend by done; cbn [drop]; rewrite ?drop_0); try done.
  f_equal. by apply or_octets.
Qed.

Lemma vtoy_parse_ip_correct_witness :
  vtoy_parse_ip Arch32 (dotted [192; 168; 0; 1] ++ [0]) = Some 0xc0a80001
  /\ vtoy_parse_ip Arch32 (dotted [192; 168] ++ [0]) = None.
Proof.
  split.
  - apply (vtoy_parse_ip_correct Arch32 [192; 168; 0; 1]); [solve_bytes|cbn; lia].
  - apply (vtoy_parse_ip_correct Arch32 [192; 168]); [solve_bytes|cbn; lia].
Defined.

(** ** The console command *)

Definition words_text (words : list (list Z)) : list Z := words ≫= (fun t => 32 :: t).

Lemma append_args_spec a words s j :
  Forall nonul words -> nonul s -> zlen s + zlen (words_text words) < SIZE_MAX a ->
  append_args a (cstr s j) (map (fun t => cstr t []) words)
  = if decide (length (words_text words) <= length j)%nat
    then Some (cstr (s ++ words_text words) (drop (length (words_text words)) j)) else None.
Proof.
  intros Hw. revert s j. induction Hw as [|t words Ht Hw IH]; intros s j Hs Hl.
  - cbn. by rewrite app_nil_r, drop_0.
  - cbn [map append_args]. assert (E : words_text (t :: words) = 32 :: t ++ words_text words) by done.
    rewrite E in *. cbn [length] in *. rewrite length_app in *.
    assert (H32 : nonul (s ++ [32])) by (apply Forall_app; split; [done|solve_nonul]).
    change [32; 0] with (cstr [32] []). rewrite strcat_spec; [|done|solve_nonul|lia]. cbn [length].
    destruct (decide (1 <= length j)%nat) as [H1|H1]; [|rewrite decide_False by lia; done].
    rewrite strcat_spec; [|done|done|rewrite length_app; cbn [length]; lia]. rewrite length_drop.
    destruct (decide (length t <= length j - 1)%nat) as [H2|H2]; [|rewrite decide_False by lia; done].
    rewrite IH; [|by apply Forall_app|rewrite !length_app; cbn [length]; lia].
    rewrite !length_drop. repeat case_decide; try lia; [|done].
    rewrite !drop_drop. f_equal. f_equal. by rewrite <- !app_assoc.
Qed.

Lemma words_text_nonul words : Forall nonul words -> nonul (words_text words).
Proof.
  induction 1 as [|t words Ht Hw IH]; [constructor|]. cbn. constructor; [lia|]. apply Forall_app. by split.
Qed.

(** The command line [vtoy_console] builds. *)
Definition console_cmd (words : list (list Z)) : list Z :=
  console_text ++ match words with [] => default_mode_text | _ => words_text words end.

(** C38. The console command: when the command line with its arguments (or
    the default mode, without any) has fewer than 256 characters it is built
    exactly, with its terminator, in the buffer, whatever that held before,
    and [vtoy_last_console] runs the same command again.  Finding: nothing
    bounds the arguments, so a longer command line is written past the end of
    the buffer. *)
Theorem vtoy_console_correct a g_szConsoleCmd words :
  length g_szConsoleCmd = g_szConsoleCmd_size -> Forall nonul words ->
  zlen (console_cmd words) < SIZE_MAX a ->
  if decide (length (console_cmd words) < 256)%nat then
    exists cmd, vtoy_console a g_szConsoleCmd (map (fun t => cstr t []) words) = Some cmd
      /\ length cmd = g_szConsoleCmd_size /\ until_nul cmd = console_cmd words
      /\ vtoy_last_console cmd = Some (Some (console_cmd words))
  else vtoy_console a g_szConsoleCmd (map (fun t => cstr t []) words) = None.
Proof.
  intros Hg Hw Hmax. unfold g_szConsoleCmd_size in Hg.
  assert (Hn : nonul console_text) by solve_nonul. assert (Hd : nonul default_mode_text) by solve_nonul.
  assert (Hcmd : nonul (console_cmd words)).
  { apply Forall_app. split; [done|]. destruct words; [done|by apply words_text_nonul]. }
  assert (Hres : vtoy_console a g_szConsoleCmd (map (fun t => cstr t []) words)
    = if decide (length (console_cmd words) < 256)%nat
      then Some (cstr (console_cmd words) (replicate (255 - length (console_cmd words)) 0)) else None).
  { unfold vtoy_console, console_cmd in *. rewrite length_app in *.
    change (console_text ++ [0]) with (cstr console_text []).
    rewrite strncpy_spec by (done || (unfold g_szConsoleCmd_size; cbn; lia)).
    replace (drop g_szConsoleCmd_size g_szConsoleCmd) with (@nil Z) by (symmetry; apply drop_ge; unfold g_szConsoleCmd_size; lia).
    rewrite app_nil_r. change (console_text ++ replicate _ 0) with (cstr console_text (replicate 248 0)).
    rewrite append_args_spec by (done || (destruct words; cbn [length words_text mbind list_bind] in *; lia)).
    destruct words as [|t words].
    - cbn [map length words_text mbind list_bind]. rewrite decide_True by lia. rewrite app_nil_r, drop_0.
      change (default_mode_text ++ [0]) with (cstr default_mode_text []).
      rewrite strcat_spec; [reflexivity|done|done|destruct a; reflexivity].
    - cbn [map]. rewrite length_replicate. change (length console_text) with 7%nat.
      repeat case_decide; try lia; [|done]. by rewrite drop_replicate. }
  case_decide; [|done]. eexists. split; [exact Hres|]. rewrite until_nul_cstr by done.
  split; [unfold cstr; rewrite length_app; cbn [length]; rewrite length_replicate; unfold g_szConsoleCmd_size; lia|].
  split; [done|]. unfold vtoy_last_console. rewrite until_nul_cstr by done. reflexivity.
Qed.

(** One argument "-k", and one of 300 characters. *)
Lemma vtoy_console_correct_witness :
  (exists cmd, vtoy_console Arch32 (replicate 256 1) [[45; 107; 0]] = Some cmd
     /\ length cmd = 256%nat /\ until_nul cmd = console_text ++ [32; 45; 107]
     /\ vtoy_last_console cmd = Some (Some (console_text ++ [32; 45; 107])))
  /\ vtoy_console Arch32 (replicate 256 1) [cstr (replicate 300 120) []] = None.
Proof.
  split.
  - apply (vtoy_console_correct Arch32 (replicate 256 1) [[45; 107]]);
      [reflexivity|constructor; [solve_nonul|constructor]|reflexivity].
  - apply (vtoy_console_correct Arch32 (replicate 256 1) [replicate 300 120]);
      [reflexivity|constructor; [apply Forall_replicate; lia|constructor]|reflexivity].
Defined.

(** ** The port of the boot server *)

Lemma dec_digits_short fuel n acc k :
  0 <= n < 10 ^ Z.of_nat k -> (0 < k)%nat -> (length (dec_digits fuel n acc) <= k + length acc)%nat.
Proof.
  revert fuel n acc. induction k as [|k IH]; intros fuel n acc Hn Hk; [lia|]. destruct fuel as [|fuel]; [cbn; lia|].
  cbn [dec_digits]. rewrite Z.quot_div_nonneg by lia. destruct (Z.eqb_spec (n / 10) 0) as [|Hne]; [cbn; lia|].
  rewrite Nat2Z.inj_succ, Z.pow_succ_r in Hn by lia. destruct k as [|k].
  - exfalso. apply Hne, Z.div_small. cbn in Hn. lia.
  - etrans; [apply IH; [|lia]|cbn [length]; lia].
    split; [apply Z.div_pos; lia|apply Z.div_lt_upper_bound; lia].
Qed.

Lemma dec_text n : 0 <= n < 2 ^ 31 -> nonul (dec n) /\ (length (dec n) <= 10)%nat.
Proof.
  intros Hn. unfold vtoy_format_unsigned_decimal. rewrite pad_to_zero. split.
  - destruct (dec_digits_spec dec_fuel n []) as (ds&E&_&Hds&_);
      [split; [lia|eapply Z.lt_trans; [apply Hn|vm_compute; reflexivity]]|unfold dec_fuel; lia|].
    rewrite E, app_nil_r. eapply Forall_impl; [exact Hds|]. cbn. lia.
  - pose proof (dec_digits_short dec_fuel n [] 10) as H. cbn [length] in H. rewrite Nat.add_0_r in H.
    apply H; [|lia]. split; [lia|]. eapply Z.lt_trans; [apply Hn|vm_compute; reflexivity].
Qed.

Lemma port_fmt_text a n : 0 <= n < 2 ^ 31 -> vcprintf a port_fmt [ArgInt n] = Some (dec n).
Proof.
  intros Hn. destruct (dec_text n Hn) as [Ht Hl]. unfold vcprintf, port_fmt. cbn [length].
  rewrite (vcprintf_conv a _ _ _ 0 0 INT_LEN 100 [] (dec n) []); [cbn [vcprintf_loop]; by rewrite app_nil_r|done|].
  assert (Ef : format_decimal a n 0 0 = dec n).
  { unfold format_decimal, vtoy_format_unsigned_decimal. rewrite (proj2 (Z.ltb_ge n 0)) by lia. done. }
  assert (Et : in_tmp_buf (dec n) = Some (dec n)).
  { unfold in_tmp_buf. rewrite (proj2 (Z.leb_le _ _)) by lia.
    replace (until_nul (dec n)) with (dec n); [done|]. clear -Ht. revert Ht. generalize (dec n). intros l Hl.
    induction Hl as [|x l Hx Hl IH]; [done|]. cbn. destruct (Z.eqb_spec x 0); [lia|]. by rewrite <- IH. }
  assert (Ec : convert a 0 0 INT_LEN 100 [ArgInt n]
               = opt! text := in_tmp_buf (format_decimal a (swrap 32 n) 0 0) in Some (text, []))
    by (destruct a; reflexivity).
  rewrite Ec, swrap_small by (change (2 ^ (32 - 1)) with (2 ^ 31); lia). by rewrite Ef, Et.
Qed.

Lemma strncmp_prefix s j p q : nonul s -> nonul p ->
  exists d, strncmp (cstr s j) (cstr p q) (zlen p) = Some d /\ (d = 0 <-> p `prefix_of` s).
Proof.
  intros Hs Hp. revert s Hs. induction Hp as [|y p Hy Hp IH]; intros s Hs.
  - exists 0. split; [by destruct s|]. split; [intros _; apply prefix_nil|done].
  - destruct Hs as [|x s Hx Hs]; cbn [cstr app strncmp length]; (rewrite (proj2 (Z.eqb_neq _ 0)) by lia).
    + exists (0 - y). rewrite (proj2 (Z.eqb_neq _ _)) by lia. split; [done|].
      split; [lia|]. intros [k Hk]. discriminate.
    + destruct (Z.eqb_spec (x - y) 0) as [E|E]; cbn [negb].
      * rewrite (proj2 (Z.eqb_neq x 0)) by lia. destruct (IH s Hs) as (d&Ed&Hd).
        replace (Z.of_nat (S (length p)) - 1) with (zlen p) by lia. exists d. split; [done|].
        assert (x = y) as -> by lia. rewrite Hd. split; [apply prefix_cons|apply prefix_cons_inv_2].
      * exists (x - y). split; [done|]. split; [lia|]. intros Hk%prefix_cons_inv_1. lia.
Qed.

Lemma strchr_first s c t : nonul s -> c <> 0 -> c ∉ s -> strchr (s ++ c :: t) c = Some (Some (length s)).
Proof.
  intros Hs Hc. induction Hs as [|x s Hx Hs IH]; intros Hn; cbn; [by rewrite Z.eqb_refl|].
  rewrite not_elem_of_cons in Hn. destruct Hn as [Hxc Hn]. rewrite !(proj2 (Z.eqb_neq x _)) by lia. by rewrite IH.
Qed.

Lemma strchr_none s c j : nonul s -> c <> 0 -> c ∉ s -> strchr (cstr s j) c = Some None.
Proof.
  intros Hs Hc. induction Hs as [|x s Hx Hs IH]; intros Hn; cbn; [by destruct c|].
  rewrite not_elem_of_cons in Hn. destruct Hn as [Hxc Hn]. rewrite !(proj2 (Z.eqb_neq x _)) by lia.
  unfold cstr in IH. by rewrite IH.
Qed.

Definition http_text : list Z := [104; 116; 116; 112; 58; 47; 47].

(** The HTTP port of the boot server: from "http://host:port", followed
    by anything that is not a digit, exactly the decimal text of the port is
    stored; a URL without a colon after the host, or one that is not an HTTP
    URL, stores nothing and returns -1. *)
Theorem vtoy_parse_server_http_port_correct a szPort host port c rest :
  length szPort = 16%nat -> nonul host -> 58 ∉ host -> 0 <= port < 2 ^ 31 -> 10 <= digit_value c ->
  vtoy_parse_server_http_port a szPort (http_text ++ host ++ 58 :: dec port ++ c :: rest)
    = Some (0, Some (dec port))
  /\ vtoy_parse_server_http_port a szPort (http_text ++ cstr host rest) = Some (-1, None)
  /\ (forall s, nonul s -> ~ http_text `prefix_of` s ->
        vtoy_parse_server_http_port a szPort (cstr s rest) = Some (-1, None)).
Proof.
  intros Hl Hh Hcolon Hp Hc. unfold vtoy_parse_server_http_port.
  assert (Hpre : forall x, strncmp (http_text ++ x) http_prefix 7 = Some 0) by (by intros [|]).
  repeat split.
  - rewrite Hpre. change (0 =? 0) with true. cbv iota.
    change (drop 7 (http_text ++ ?x)) with x. rewrite strchr_first by done.
    rewrite <- Nat.add_assoc, <- drop_drop.
    change (drop 7 (http_text ++ ?x)) with x.
    replace (length host + 1)%nat with (length (host ++ [58])) by (rewrite length_app; done).
    change (58 :: dec port ++ c :: rest) with ([58] ++ (dec port ++ c :: rest)). rewrite app_assoc, drop_app_length.
    rewrite strtoul_dec; [|split; [lia|]; eapply Z.lt_le_trans; [apply Hp|by destruct a]|done].
    rewrite swrap_small by (change (2 ^ (32 - 1)) with (2 ^ 31); lia).
    destruct (dec_text port Hp) as [Ht Hd].
    assert (Hb : bytes_ok (dec port)) by (eapply Forall_impl; [exact Ht|]; unfold byte_ok; cbn; lia).
    pose proof (vssnprintf_fits a [] szPort 16 _ _ _ (port_fmt_text a port Hp) Hb) as F.
    unfold vssnprintf in F. change (16 <? 0) with false in F. cbv iota in F. cbn [length app] in F. change (Z.of_nat 0) with 0 in F.
    unfold snprintf. rewrite F by lia. change (dec port ++ 0 :: ?j) with (cstr (dec port) j).
    by rewrite until_nul_cstr.
  - rewrite Hpre. change (0 =? 0) with true. cbv iota.
    change (drop 7 (http_text ++ ?x)) with x. by rewrite strchr_none.
  - intros s Hs Hn. destruct (strncmp_prefix s rest http_text [] Hs) as (d&E&Hd); [solve_nonul|].
    change (strncmp (cstr s rest) http_prefix 7) with (strncmp (cstr s rest) (cstr http_text []) (zlen http_text)).
    rewrite E. rewrite (proj2 (Z.eqb_neq d 0)); [done|tauto].
Qed.

Lemma vtoy_parse_server_http_port_correct_witness :
  vtoy_parse_server_http_port Arch64 (replicate 16 7)
    (http_text ++ [120; 46; 121] ++ 58 :: dec 16000 ++ [47; 0]) = Some (0, Some (dec 16000)).
Proof.
  apply (vtoy_parse_server_http_port_correct Arch64 (replicate 16 7) [120; 46; 121] 16000 47 [0]);
    [reflexivity|solve_nonul| |lia|vm_compute; discriminate].
  rewrite !not_elem_of_cons. repeat split; (discriminate || apply not_elem_of_nil).
Defined.

(** ** The boot file name *)

(** A name is accepted exactly when it contains "01-". *)
Lemma bootfilename_valid_spec a name j :
  nonul name -> zlen name < SIZE_MAX a ->
  exists ok, vtoy_is_bootfilename_valid a (Some (cstr name j)) = Some ok
    /\ (ok = true <-> exists k, [48; 49; 45] `prefix_of` drop k name).
Proof.
  intros Hn Hl. unfold vtoy_is_bootfilename_valid, strlen. rewrite strnlen_cstr by done.
  assert (Hpast : forall k, (length name <= k)%nat -> ~ [48; 49; 45] `prefix_of` drop k name).
  { intros k Hk [x Hx]. rewrite drop_ge in Hx by done. discriminate. }
  destruct (Z.leb_spec (zlen name) 0) as [H0|H0].
  - exists false. split; [done|]. split; [done|]. intros [k Hk]. exfalso. apply (Hpast k); [lia|done].
  - destruct (strstr_spec a name [48; 49; 45] j []) as (r&E&Hr); [done|solve_nonul|by destruct a|].
    change pcPrefix with (cstr [48; 49; 45] []). rewrite E. destruct r as [i|].
    + exists true. split; [done|]. split; [|done]. intros _. exists i. tauto.
    + exists false. split; [done|]. split; [done|]. intros [k Hk]. exfalso.
      destruct (decide (k < length name)%nat); [by apply (Hr k)|apply (Hpast k); [lia|done]].
Qed.
