(* ===== verification/Cipher.v ===== *)
(** * Cipher modes (crypto/cbc.c, crypto/ecb.c)

    The modes work over any raw cipher through the [cipher_algorithm]
    interface; what they rely on is the class [BlockCipher].  Source and
    destination are offsets into one memory object, so encrypting in place
    shares the buffer as it does in the code. *)
From S2P Require Import Prelude Strings Memory.

(** ** The cipher interface *)

(** A raw block cipher: its operations read one block and leave the key
    schedule alone. *)
Record cipher_algorithm := {
  c_ctx : Type;
  c_blocksize : nat;
  c_encrypt : c_ctx -> list Z -> list Z;
  c_decrypt : c_ctx -> list Z -> list Z }.

Definition block (c : cipher_algorithm) (b : list Z) : Prop := bytes_ok b /\ length b = c_blocksize c.

(** What a mode of operation relies on; blocks are whole dwords. *)
Class BlockCipher (c : cipher_algorithm) := {
  blocksize_words : exists n, c_blocksize c = (4 * S n)%nat;
  encrypt_block ctx b : block c b -> block c (c_encrypt c ctx b);
  decrypt_encrypt ctx b : block c b -> c_decrypt c ctx (c_encrypt c ctx b) = b }.

(** ** Operations *)

Section Modes.
Context (a : arch) (c : cipher_algorithm) (ctx : c_ctx c).

Abbreviation blocksize := (Z.of_nat (c_blocksize c)).

(** The loop xors whole dwords: the bytes after the last one keep their
    value. *)
Definition cbc_xor (src dst : list Z) (len : nat) : list Z :=
  let n := (4 * (len / 4))%nat in
  zip_with Z.lxor (take n dst) (take n src) ++ drop n dst.

(** The [while (len)] loops; [None] is an access outside the object, or a
    length that is not a multiple of the block size. *)
Fixpoint cbc_encrypt_loop (fuel : nat) (mem : list Z) (src dst len : Z) (cbc_ctx : list Z)
  : option (list Z * list Z) :=
  if len =? 0 then Some (mem, cbc_ctx)
  else
    match fuel with
    | O => None
    | S fuel' =>
        opt! p := mem_read mem src blocksize in
        let cbc_ctx := cbc_xor p cbc_ctx (c_blocksize c) in
        opt! mem := mem_write mem dst (c_encrypt c ctx cbc_ctx) in
        opt! cbc_ctx := mem_read mem dst blocksize in
        cbc_encrypt_loop fuel' mem (src + blocksize) (dst + blocksize)
          (uwrap (size_bits a) (len - blocksize)) cbc_ctx
    end.

Definition cbc_encrypt (mem : list Z) (src dst len : Z) (cbc_ctx : list Z) : option (list Z * list Z) :=
  cbc_encrypt_loop (Z.to_nat len) mem src dst len cbc_ctx.

Fixpoint cbc_decrypt_loop (fuel : nat) (mem : list Z) (src dst len : Z) (cbc_ctx : list Z)
  : option (list Z * list Z) :=
  if len =? 0 then Some (mem, cbc_ctx)
  else
    match fuel with
    | O => None
    | S fuel' =>
        opt! next_cbc_ctx := mem_read mem src blocksize in
        opt! mem := mem_write mem dst (c_decrypt c ctx next_cbc_ctx) in
        opt! p := mem_read mem dst blocksize in
        opt! mem := mem_write mem dst (cbc_xor cbc_ctx p (c_blocksize c)) in
        cbc_decrypt_loop fuel' mem (src + blocksize) (dst + blocksize)
          (uwrap (size_bits a) (len - blocksize)) next_cbc_ctx
    end.

Definition cbc_decrypt (mem : list Z) (src dst len : Z) (cbc_ctx : list Z) : option (list Z * list Z) :=
  cbc_decrypt_loop (Z.to_nat len) mem src dst len cbc_ctx.

(** [ecb_encrypt] and [ecb_decrypt] differ in the operation they apply. *)
Fixpoint ecb_loop (op : list Z -> list Z) (fuel : nat) (mem : list Z) (src dst len : Z) : option (list Z) :=
  if len =? 0 then Some mem
  else
    match fuel with
    | O => None
    | S fuel' =>
        opt! b := mem_read mem src blocksize in
        opt! mem := mem_write mem dst (op b) in
        ecb_loop op fuel' mem (src + blocksize) (dst + blocksize) (uwrap (size_bits a) (len - blocksize))
    end.

Definition ecb_encrypt (mem : list Z) (src dst len : Z) : option (list Z) :=
  ecb_loop (c_encrypt c ctx) (Z.to_nat len) mem src dst len.

Definition ecb_decrypt (mem : list Z) (src dst len : Z) : option (list Z) :=
  ecb_loop (c_decrypt c ctx) (Z.to_nat len) mem src dst len.
End Modes.

(** ** Chaining *)

Lemma cbc_xor_full (src dst : list Z) n len :
  len = (4 * n)%nat -> length src = len -> length dst = len ->
  cbc_xor src dst len = zip_with Z.lxor dst src.
Proof.
  intros -> Hs Hd. unfold cbc_xor. replace (4 * n / 4)%nat with n by (rewrite Nat.mul_comm, Nat.div_mul; lia).
  by rewrite !take_ge, drop_ge, app_nil_r by lia.
Qed.

Lemma lxor_byte x y : byte_ok x -> byte_ok y -> byte_ok (Z.lxor x y).
Proof. unfold byte_ok. intros Hx Hy. split; [apply Z.lxor_nonneg; lia|]. apply (lxor_below x y 8); lia. Qed.

Lemma xor_block c src dst : block c src -> block c dst -> block c (zip_with Z.lxor dst src).
Proof.
  intros [Hs Ls] [Hd Ld]. split; [|rewrite length_zip_with; lia].
  revert src Hs Ls. rewrite <- Ld. clear Ld. induction Hd as [|y dst Hy Hd IH]; intros src Hs Ls; [constructor|].
  destruct Hs as [|x src Hx Hs]; [constructor|]. cbn in *. constructor; [by apply lxor_byte|]. apply IH; [done|lia].
Qed.

(** The same pad xored twice. *)
Lemma xor_involutive (p b : list Z) : length p = length b -> zip_with Z.lxor (zip_with Z.lxor p b) p = b.
Proof.
  revert b. induction p as [|x p IH]; intros [|y b] H; cbn in *; try lia; [done|].
  rewrite IH by lia. f_equal. rewrite Z.lxor_comm, <- Z.lxor_assoc, Z.lxor_nilpotent. apply Z.lxor_0_l.
Qed.

Section InPlace.
Context (a : arch) (c : cipher_algorithm) {Hc : BlockCipher c} (ctx : c_ctx c).

(** The blocks CBC produces. *)
Fixpoint cbc_blocks (iv : list Z) (ps : list (list Z)) : list (list Z) :=
  match ps with
  | [] => []
  | p :: ps' => let q := c_encrypt c ctx (zip_with Z.lxor iv p) in q :: cbc_blocks q ps'
  end.

Definition last_block (iv : list Z) (qs : list (list Z)) : list Z := default iv (last qs).

Lemma last_block_cons iv q qs : last_block iv (q :: qs) = last_block q qs.
Proof. unfold last_block. rewrite last_cons. by destruct (last qs). Qed.

Lemma xor_full src dst : block c src -> block c dst -> cbc_xor src dst (c_blocksize c) = zip_with Z.lxor dst src.
Proof. intros [_ Hs] [_ Hd]. destruct blocksize_words as [n E]. by apply (cbc_xor_full src dst (S n)). Qed.

(** One round of each loop, in place. *)
Lemma encrypt_round fuel A p R iv len : block c p -> block c iv -> 0 < len ->
  let q := c_encrypt c ctx (zip_with Z.lxor iv p) in
  cbc_encrypt_loop a c ctx (S fuel) (A ++ p ++ R) (zlen A) (zlen A) len iv
  = cbc_encrypt_loop a c ctx fuel ((A ++ q) ++ R) (zlen (A ++ q)) (zlen (A ++ q))
      (uwrap (size_bits a) (len - Z.of_nat (c_blocksize c))) q.
Proof.
  intros Hp Hiv Hlen q. assert (Hq : block c q) by (by apply encrypt_block, xor_block).
  destruct Hp as [Hpb Hpl], Hq as [Hqb Hql]. cbn [cbc_encrypt_loop]. rewrite (proj2 (Z.eqb_neq len 0)) by lia.
  rewrite <- Hpl at 1. rewrite mem_read_at, xor_full by done. fold q.
  rewrite mem_write_at by lia. rewrite <- Hql at 1. rewrite mem_read_at, <- app_assoc, zlen_app, Hql. done.
Qed.

Lemma decrypt_round fuel A q R iv len : block c q -> block c (c_decrypt c ctx q) -> block c iv -> 0 < len ->
  let p := zip_with Z.lxor (c_decrypt c ctx q) iv in
  cbc_decrypt_loop a c ctx (S fuel) (A ++ q ++ R) (zlen A) (zlen A) len iv
  = cbc_decrypt_loop a c ctx fuel ((A ++ p) ++ R) (zlen (A ++ p)) (zlen (A ++ p))
      (uwrap (size_bits a) (len - Z.of_nat (c_blocksize c))) q.
Proof.
  intros Hq Hd Hiv Hlen p. assert (Hp : block c p) by (by apply xor_block).
  pose proof (xor_full iv _ Hiv Hd) as Hx. destruct Hp as [_ Hpl], Hd as [_ Hdl], Hq as [_ Hql].
  cbn [cbc_decrypt_loop]. rewrite (proj2 (Z.eqb_neq len 0)) by lia.
  rewrite <- Hql at 1. rewrite mem_read_at, mem_write_at by lia. rewrite <- Hdl at 1. rewrite mem_read_at.
  rewrite Hx. fold p. rewrite mem_write_at, <- app_assoc, zlen_app, Hpl by lia. done.
Qed.

Lemma blocksize_pos : (0 < c_blocksize c)%nat.
Proof. destruct blocksize_words as [n ->]. lia. Qed.

Lemma cbc_in_place ps A R iv fuel1 fuel2 :
  Forall (block c) ps -> block c iv -> zlen (concat ps) < 2 ^ size_bits a ->
  (length ps <= fuel1)%nat -> (length ps <= fuel2)%nat ->
  let qs := cbc_blocks iv ps in
  length (concat qs) = length (concat ps)
  /\ cbc_encrypt_loop a c ctx fuel1 (A ++ concat ps ++ R) (zlen A) (zlen A) (zlen (concat ps)) iv
     = Some (A ++ concat qs ++ R, last_block iv qs)
  /\ cbc_decrypt_loop a c ctx fuel2 (A ++ concat qs ++ R) (zlen A) (zlen A) (zlen (concat ps)) iv
     = Some (A ++ concat ps ++ R, last_block iv qs).
Proof.
  intros Hps. revert A iv fuel1 fuel2. pose proof blocksize_pos as Hbs.
  induction Hps as [|p ps Hp Hps IH]; intros A iv fuel1 fuel2 Hiv Hl H1 H2 qs.
  - subst qs. by destruct fuel1, fuel2.
  - cbn [concat length] in *. destruct fuel1 as [|fuel1]; [lia|]. destruct fuel2 as [|fuel2]; [lia|].
    set (q := c_encrypt c ctx (zip_with Z.lxor iv p)). assert (Hx : block c (zip_with Z.lxor iv p)) by (by apply xor_block).
    assert (Hq : block c q) by (by apply encrypt_block).
    assert (Hdq : c_decrypt c ctx q = zip_with Z.lxor iv p) by (by apply decrypt_encrypt).
    assert (Hqs : qs = q :: cbc_blocks q ps) by done. rewrite Hqs. cbn [concat].
    pose proof (proj2 Hp) as Lp. pose proof (proj2 Hq) as Lq. pose proof (proj2 Hiv) as Liv.
    rewrite zlen_app in Hl.
    assert (Hlen : uwrap (size_bits a) (zlen (p ++ concat ps) - Z.of_nat (c_blocksize c)) = zlen (concat ps)).
    { rewrite zlen_app. rewrite uwrap_small; lia. }
    destruct (IH (A ++ q) q fuel1 fuel2 Hq) as (IHl&IHe&_); [lia..|].
    destruct (IH (A ++ p) q fuel1 fuel2 Hq) as (_&_&IHd); [lia..|].
    rewrite last_block_cons, <- !app_assoc. repeat split.
    + rewrite !length_app. lia.
    + rewrite encrypt_round by (done || (rewrite zlen_app; lia)). fold q. rewrite Hlen, IHe. by rewrite <- !app_assoc.
    + rewrite decrypt_round by (rewrite ?Hdq; done || (rewrite zlen_app; lia)).
      rewrite Hdq, xor_involutive by lia. rewrite Hlen, IHd. by rewrite <- !app_assoc.
Qed.
End InPlace.

Lemma blocks_le_bytes c `{BlockCipher c} ps : Forall (block c) ps -> (length ps <= length (concat ps))%nat.
Proof.
  pose proof (blocksize_pos c). induction 1 as [|p ps [_ Lp] Hps IH]; [done|]. cbn. rewrite length_app. lia.
Qed.

(** ECB, in place, with any operation that keeps the block size. *)
Lemma ecb_in_place a c `{BlockCipher c} op ps A R fuel :
  Forall (fun p => length p = c_blocksize c /\ length (op p) = c_blocksize c) ps ->
  zlen (concat ps) < 2 ^ size_bits a -> (length ps <= fuel)%nat ->
  ecb_loop a c op fuel (A ++ concat ps ++ R) (zlen A) (zlen A) (zlen (concat ps))
  = Some (A ++ concat (map op ps) ++ R).
Proof.
  intros Hps. revert A fuel. pose proof (blocksize_pos c) as Hbs.
  induction Hps as [|p ps [Lp Lq] Hps IH]; intros A fuel Hl Hf; [by destruct fuel|].
  cbn [concat map length] in *. destruct fuel as [|fuel]; [lia|]. rewrite zlen_app in Hl.
  cbn [ecb_loop]. rewrite (proj2 (Z.eqb_neq _ 0)) by (rewrite zlen_app; lia).
  rewrite <- !app_assoc. rewrite <- Lp at 1. rewrite mem_read_at, mem_write_at by lia.
  replace (uwrap (size_bits a) (zlen (p ++ concat ps) - Z.of_nat (c_blocksize c))) with (zlen (concat ps))
    by (rewrite zlen_app, uwrap_small; lia).
  replace (zlen A + Z.of_nat (c_blocksize c)) with (zlen (A ++ op p)) by (rewrite zlen_app; lia).
  rewrite (app_assoc A). rewrite IH by lia. by rewrite <- app_assoc.
Qed.

Lemma ecb_roundtrip a c `{BlockCipher c} ctx before ps after :
  Forall (block c) ps -> zlen (concat ps) < 2 ^ size_bits a ->
  (opt! mem := ecb_encrypt a c ctx (before ++ concat ps ++ after) (zlen before) (zlen before) (zlen (concat ps)) in
   ecb_decrypt a c ctx mem (zlen before) (zlen before) (zlen (concat ps)))
  = Some (before ++ concat ps ++ after).
Proof.
  intros Hps Hl. pose proof (blocks_le_bytes c ps Hps) as Hn. unfold ecb_encrypt, ecb_decrypt. rewrite Nat2Z.id.
  set (qs := map (c_encrypt c ctx) ps).
  assert (He : Forall (fun p => length p = c_blocksize c /\ length (c_encrypt c ctx p) = c_blocksize c) ps).
  { eapply Forall_impl; [exact Hps|]. intros p Hp. split; [apply Hp|]. by apply (encrypt_block ctx). }
  assert (Hd : Forall (fun q => length q = c_blocksize c /\ length (c_decrypt c ctx q) = c_blocksize c) qs
               /\ length (concat qs) = length (concat ps) /\ map (c_decrypt c ctx) qs = ps).
  { subst qs. clear -H Hps. induction Hps as [|p ps Hp Hps (IH1&IH2&IH3)]; [done|].
    pose proof (proj2 (encrypt_block ctx p Hp)) as Lq. pose proof (decrypt_encrypt ctx p Hp) as D.
    cbn. rewrite !length_app, IH2, IH3, Lq, D, (proj2 Hp). split; [|done]. constructor; [|done]. by rewrite D, (proj2 Hp). }
  destruct Hd as (Hd&El&Ed). rewrite ecb_in_place by done. fold qs. rewrite <- El in *.
  rewrite (ecb_in_place a c (c_decrypt c ctx) qs before after _ Hd Hl) by (subst qs; by rewrite length_map).
  by rewrite Ed.
Qed.

(** CBC in place: for every raw cipher that keeps the block cipher
    interface's promise, encrypting a buffer of whole blocks in place and
    decrypting the result in place with the same initialisation vector gives
    back the buffer, changes no byte around it, and leaves both sides with the
    same chaining value, so that a stream can be continued in further calls. *)
Theorem cbc_roundtrip a c `{BlockCipher c} ctx before ps after iv :
  Forall (block c) ps -> block c iv -> zlen (concat ps) < 2 ^ size_bits a ->
  exists encrypted cbc_ctx,
    length encrypted = length (concat ps)
    /\ cbc_encrypt a c ctx (before ++ concat ps ++ after) (zlen before) (zlen before) (zlen (concat ps)) iv
       = Some (before ++ encrypted ++ after, cbc_ctx)
    /\ cbc_decrypt a c ctx (before ++ encrypted ++ after) (zlen before) (zlen before) (zlen (concat ps)) iv
       = Some (before ++ concat ps ++ after, cbc_ctx).
Proof.
  intros Hps Hiv Hl. pose proof (blocks_le_bytes c ps Hps) as Hn.
  destruct (cbc_in_place a c ctx ps before after iv (length (concat ps)) (length (concat ps)) Hps Hiv Hl Hn Hn)
    as (L&E&D).
  exists (concat (cbc_blocks c ctx iv ps)), (last_block iv (cbc_blocks c ctx iv ps)).
  unfold cbc_encrypt, cbc_decrypt. by rewrite Nat2Z.id.
Qed.

(** A cipher with blocks of four bytes that reverses them and adds a key. *)
Definition toy_cipher : cipher_algorithm :=
  {| c_ctx := Z; c_blocksize := 4;
     c_encrypt k b := (fun x => (x + k) mod 256) <$> rev b;
     c_decrypt k b := rev ((fun x => (x - k) mod 256) <$> b) |}.

#[export] Instance toy_cipher_ok : BlockCipher toy_cipher.
Proof.
  constructor.
  - by exists 0%nat.
  - intros k b [_ Hl]. split; [|cbn in *; by rewrite length_fmap, length_rev].
    apply Forall_fmap, Forall_forall. intros x _. apply Z.mod_pos_bound. lia.
  - intros k b [Hb Hl]. cbn in *. rewrite <- list_fmap_compose.
    assert (E : (fun x => ((x + k) mod 256 - k) mod 256) <$> rev b = rev b).
    { rewrite <- list_fmap_id. apply list_fmap_ext. intros i x Hx. cbn. rewrite Zminus_mod_idemp_l.
      replace (x + k - k) with x by lia. apply Z.mod_small.
      eapply (Forall_lookup_1 byte_ok); [|exact Hx]. by apply List.Forall_rev. }
    unfold compose. by rewrite E, rev_involutive.
Qed.

Lemma cbc_roundtrip_witness :
  exists encrypted cbc_ctx,
    length encrypted = 8%nat
    /\ cbc_encrypt Arch32 toy_cipher 7 ([9] ++ [1; 2; 3; 4; 5; 6; 7; 8] ++ [9]) 1 1 8 [10; 20; 30; 40]
       = Some ([9] ++ encrypted ++ [9], cbc_ctx)
    /\ cbc_decrypt Arch32 toy_cipher 7 ([9] ++ encrypted ++ [9]) 1 1 8 [10; 20; 30; 40]
       = Some ([9] ++ [1; 2; 3; 4; 5; 6; 7; 8] ++ [9], cbc_ctx).
Proof.
  apply (cbc_roundtrip Arch32 toy_cipher 7 [9] [[1; 2; 3; 4]; [5; 6; 7; 8]] [9] [10; 20; 30; 40]);
    [repeat constructor; (done || by vm_compute)|split; [solve_bytes|done]|reflexivity].
Defined.
