(* ===== verification/Aes.v ===== *)
(** * AES ([crypto/aes.c], [include/ipxe/aes.h])

    A matrix is the list of its 16 bytes; a column of it, viewed as a
    [uint32_t], is four bytes in host (little-endian) order.  Lookup table
    entries are lists of eight bytes.  The lookup tables are computed by
    [aes_generate] as in the code.  The theorems relate the table-driven rounds
    to the round functions of FIPS 197 and show that decryption with the
    inverted key schedule undoes encryption. *)
From Stdlib Require Import Btauto.
From S2P Require Import Prelude Strings Memory Digest Hashes Cipher.

Definition rol8 (data rotation : Z) : Z :=
  let data := u8 data in u8 (Z.lor (Z.shiftl data rotation) (Z.shiftr data (8 - rotation))).

Definition AES_STRIDE_SHIFTROWS : Z := 5.
Definition AES_STRIDE_INVSHIFTROWS : Z := -3.
Definition AES_BLOCKSIZE : nat := 16.

Abbreviation matrix := (list Z) (only parsing).
Abbreviation table := (list (list Z)) (only parsing).

(** ** Rounds *)

Definition byte_at (m : matrix) (i : Z) : Z := default 0 (m !! Z.to_nat i).
Definition entry_at (tab : table) (i : Z) : list Z := default [] (tab !! Z.to_nat i).
Definition column_at (m : matrix) (c : Z) : list Z := take 4 (drop (Z.to_nat (4 * c)) m).

Definition xor (a b : list Z) : list Z := zip_with Z.lxor a b.

Definition aes_entry_column (entry : list Z) (column : Z) : list Z := take 4 (drop (Z.to_nat (4 - column)) entry).

Definition aes_column (tab : table) (stride : Z) (in_ : matrix) (offset : Z) : list Z :=
  let byte := byte_at in_ (Z.land (stride * offset) 0xf) in
  aes_entry_column (entry_at tab byte) (Z.land offset 0x3).

Definition aes_output (tab : table) (stride : Z) (in_ key : matrix) (column : Z) : list Z :=
  let offset := column * 4 in
  xor (xor (xor (xor (aes_column tab stride in_ (offset + 0)) (aes_column tab stride in_ (offset + 1)))
                (aes_column tab stride in_ (offset + 2)))
           (aes_column tab stride in_ (offset + 3)))
      (column_at key column).

Definition aes_round (tab : table) (stride : Z) (in_ key : matrix) : matrix :=
  aes_output tab stride in_ key 0 ++ aes_output tab stride in_ key 1
  ++ aes_output tab stride in_ key 2 ++ aes_output tab stride in_ key 3.

(** The intermediate rounds: each writes the buffer it does not read, and the
    two buffers then swap their roles.  The result is the final contents of
    the buffers [in_] and [out]. *)
Fixpoint aes_rounds (tab : table) (stride : Z) (in_ out : matrix) (keys : list matrix) (rounds : nat)
  : matrix * matrix :=
  match rounds with
  | O => (in_, out)
  | S rounds' =>
      let out := aes_round tab stride in_ (hd [] keys) in
      let '(in', out') := aes_rounds tab stride out in_ (tl keys) rounds' in
      (out', in')
  end.

Definition aes_addroundkey (state key : matrix) : matrix :=
  xor (column_at state 0) (column_at key 0) ++ xor (column_at state 1) (column_at key 1)
  ++ xor (column_at state 2) (column_at key 2) ++ xor (column_at state 3) (column_at key 3).

Fixpoint aes_final_loop (n : nat) (tab : table) (stride : Z) (in_ : matrix) (in_offset : Z) : matrix :=
  match n with
  | O => []
  | S n' =>
      let byte := byte_at in_ in_offset in
      byte_at (entry_at tab byte) 0 :: aes_final_loop n' tab stride in_ (Z.land (in_offset + stride) 0xf)
  end.

Definition aes_final (tab : table) (stride : Z) (in_ key : matrix) : matrix :=
  aes_addroundkey (aes_final_loop 16 tab stride in_ 0) key.

(** ** Lookup tables *)

Definition aes_double (poly : Z) : Z :=
  let poly := rol8 poly 1 in
  if negb (Z.land poly 0x01 =? 0) then Z.lxor (Z.lxor poly 0x01) 0x1b else poly.

(** The entry for the multiplicand in byte 0. *)
Definition aes_mixcolumns_entry (entry : list Z) : list Z :=
  let scalar := byte_at entry 0 in
  let scalar_x := aes_double scalar in
  let scalar_x_1 := Z.lxor scalar_x scalar in
  [scalar; scalar; scalar; scalar_x_1; scalar_x; scalar; scalar; scalar_x_1].

Definition aes_invmixcolumns_entry (entry : list Z) : list Z :=
  let scalar := byte_at entry 0 in
  let scalar_x := aes_double scalar in
  let scalar_x2 := aes_double scalar_x in
  let scalar_x3 := aes_double scalar_x2 in
  let scalar_x3_1 := Z.lxor scalar_x3 scalar in
  let scalar_x3_x_1 := Z.lxor scalar_x3_1 scalar_x in
  let scalar_x3_x2 := Z.lxor scalar_x3 scalar_x2 in
  let scalar_x3_x2_1 := Z.lxor scalar_x3_x2 scalar in
  let scalar_x3_x2_x := Z.lxor scalar_x3_x2 scalar_x in
  [scalar; scalar_x3_1; scalar_x3_x2_1; scalar_x3_x_1; scalar_x3_x2_x; scalar_x3_1; scalar_x3_x2_1; scalar_x3_x_1].

(** Store the S-box value of an entry. *)
Definition set_byte0 (v : Z) (entry : list Z) : list Z := <[0%nat := v]> entry.

Definition invpoly_step (invpoly : Z) : Z :=
  let invpoly := Z.lxor invpoly (Z.shiftl invpoly 1) in
  let invpoly := Z.lxor invpoly (Z.shiftl invpoly 2) in
  let invpoly := Z.lxor invpoly (Z.shiftl invpoly 4) in
  let invpoly := if negb (Z.land invpoly 0x80 =? 0) then Z.lxor invpoly 0x09 else invpoly in
  Z.land invpoly 0xff.

Definition affine (invpoly : Z) : Z :=
  Z.lxor (Z.lxor (Z.lxor (Z.lxor (Z.lxor 0x63 invpoly) (rol8 invpoly 1)) (rol8 invpoly 2)) (rol8 invpoly 3)) (rol8 invpoly 4).

(** The loop over the powers of the generator; [None] when the fuel runs out. *)
Fixpoint sbox_loop (fuel : nat) (mix : table) (poly invpoly : Z) : option table :=
  match fuel with
  | O => None
  | S fuel' =>
      let poly := Z.lxor poly (aes_double poly) in
      let invpoly := invpoly_step invpoly in
      let mix := alter (set_byte0 (affine invpoly)) (Z.to_nat poly) mix in
      if negb (poly =? 0x01) then sbox_loop fuel' mix poly invpoly else Some mix
  end.

(** One index of the loop that fills in both tables. *)
Definition fill_entry (tabs : table * table) (i : nat) : table * table :=
  let '(mix, inv) := tabs in
  let mix := alter aes_mixcolumns_entry i mix in
  let s := Z.to_nat (byte_at (entry_at mix (Z.of_nat i)) 0) in
  (mix, alter (fun entry => aes_invmixcolumns_entry (set_byte0 (Z.of_nat i) entry)) s inv).

(** The group of nonzero elements has 255 of them. *)
Definition aes_generate (mix inv : table) : option (table * table) :=
  opt! mix := sbox_loop 255 mix 0x01 0x01 in
  let mix := alter (set_byte0 0x63) 0%nat mix in
  Some (fold_left fill_entry (seq 0 256) (mix, inv)).

(** The start of [aes_setkey]: generate the tables if that is not yet done. *)
Definition aes_prepare (tabs : table * table) : option (table * table) :=
  if byte_at (entry_at tabs.1 0) 0 =? 0 then aes_generate tabs.1 tabs.2 else Some tabs.

(** The tables are static, and so start out as zero: after the first call of
    [aes_setkey], and after any later one, they are [aes_tables] (lemma
    [aes_prepare_tables]). *)
Definition zero_table : table := replicate 256 (replicate 8 0).
Definition aes_tables : table * table :=
  Eval vm_compute in default (zero_table, zero_table) (aes_generate zero_table zero_table).
Definition aes_mixcolumns : table := aes_tables.1.
Definition aes_invmixcolumns : table := aes_tables.2.

Definition aes_encrypt_rounds : matrix -> matrix -> list matrix -> nat -> matrix * matrix :=
  aes_rounds aes_mixcolumns AES_STRIDE_SHIFTROWS.
Definition aes_decrypt_rounds : matrix -> matrix -> list matrix -> nat -> matrix * matrix :=
  aes_rounds aes_invmixcolumns AES_STRIDE_INVSHIFTROWS.

(** ** Key schedule *)

Definition aes_key_rotate (column : Z) : Z := ror32 column 8.

Fixpoint key_sbox_loop (n : nat) (column : Z) : Z :=
  match n with
  | O => column
  | S n' =>
      let byte := Z.land column 0xff in
      let byte := byte_at (entry_at aes_mixcolumns byte) 0 in
      let column := Z.lor (Z.land column (Z.lnot 0xff)) byte in
      key_sbox_loop n' (rol32 column 8)
  end.
Definition aes_key_sbox (column : Z) : Z := key_sbox_loop 4 column.

Definition aes_key_rcon (column rcon : Z) : Z := Z.lxor column rcon.

(** The expansion loop: [cols] are the columns written so far, [prev] the
    index of the column to combine with, [n] the columns still to write. *)
Fixpoint expand_key (n : nat) (keylen : Z) (cols : list Z) (prev : nat) (tmp rcon offset : Z) : list Z :=
  match n with
  | O => cols
  | S n' =>
      let tmp := if (offset =? 0) || (Z.lor offset keylen =? 48) then aes_key_sbox tmp else tmp in
      let tmp' := if offset =? 0 then aes_key_rcon (aes_key_rotate tmp) rcon else tmp in
      let rcon := if offset =? 0 then aes_double rcon else rcon in
      let tmp := Z.lxor tmp' (default 0 (cols !! prev)) in
      let offset := offset + 4 in
      let offset := if offset =? keylen then 0 else offset in
      expand_key n' keylen (cols ++ [tmp]) (S prev) tmp rcon offset
  end.

Record aes_context := AesContext { encrypt_key : list matrix; decrypt_key : list matrix; aes_rounds_no : nat }.

(** Round keys from the columns of the expanded key. *)
Fixpoint key_matrices (rounds : nat) (cols : list Z) : list matrix :=
  match rounds with
  | O => []
  | S rounds' => concat (map (le_bytes 4) (take 4 cols)) :: key_matrices rounds' (drop 4 cols)
  end.

Definition zero_matrix : matrix := replicate 16 0.

(** InvMixColumns of a round key, by way of the final-round code for
    encryption and the intermediate-round code for decryption. *)
Definition invert_key (enc : matrix) : matrix :=
  let temp := aes_final aes_mixcolumns AES_STRIDE_SHIFTROWS enc zero_matrix in
  (aes_decrypt_rounds temp zero_matrix [zero_matrix] 1).2.

(** The decryption keys, written from the last to the first; [dec] is the part
    written so far and [enc] the keys left. *)
Fixpoint invert_keys (enc dec : list matrix) : list matrix :=
  match enc with
  | [] => dec
  | [k] => k :: dec
  | k :: enc' => invert_keys enc' (invert_key k :: dec)
  end.

Definition aes_setkey (key : list Z) : res aes_context :=
  let keylen := zlen key in
  try! rounds := (if keylen =? 128 / 8 then Ok 11%nat else if keylen =? 192 / 8 then Ok 13%nat
                  else if keylen =? 256 / 8 then Ok 15%nat else Err EINVAL) in
  let raw := map le_word (groups (length key) 4 key) in
  let cols := expand_key (4 * rounds - length raw) keylen raw 0 (default 0 (last raw)) 0x01 0 in
  let enc := key_matrices rounds cols in
  Ok (AesContext enc (invert_keys (tl enc) [hd [] enc]) rounds).

(** ** Encryption and decryption of a block *)

Definition aes_encrypt (aes : aes_context) (src : matrix) : matrix :=
  let rounds := aes_rounds_no aes in
  let key i := default [] (encrypt_key aes !! i) in
  let in_ := aes_addroundkey src (key 0%nat) in
  let out := (aes_encrypt_rounds in_ zero_matrix (drop 1 (encrypt_key aes)) (rounds - 2)).2 in
  aes_final aes_mixcolumns AES_STRIDE_SHIFTROWS out (key (rounds - 1)%nat).

Definition aes_decrypt (aes : aes_context) (src : matrix) : matrix :=
  let rounds := aes_rounds_no aes in
  let key i := default [] (decrypt_key aes !! i) in
  let in_ := aes_addroundkey src (key 0%nat) in
  let out := (aes_decrypt_rounds in_ zero_matrix (drop 1 (decrypt_key aes)) (rounds - 2)).2 in
  aes_final aes_invmixcolumns AES_STRIDE_INVSHIFTROWS out (key (rounds - 1)%nat).

(** ** Test vectors (FIPS 197, appendix C) *)

Definition fips_plaintext : list Z := map (fun i => 17 * i) (seqZ 0 16).
Definition fips_ciphertext (n : Z) : res (list Z) :=
  try! aes := aes_setkey (seqZ 0 n) in Ok (aes_encrypt aes fips_plaintext).

Example aes128_vector : fips_ciphertext 16
  = Ok [0x69; 0xc4; 0xe0; 0xd8; 0x6a; 0x7b; 0x04; 0x30; 0xd8; 0xcd; 0xb7; 0x80; 0x70; 0xb4; 0xc5; 0x5a].
Proof. vm_compute. reflexivity. Qed.

Example aes192_vector : fips_ciphertext 24
  = Ok [0xdd; 0xa9; 0x7c; 0xa4; 0x86; 0x4c; 0xdf; 0xe0; 0x6e; 0xaf; 0x70; 0xa0; 0xec; 0x0d; 0x71; 0x91].
Proof. vm_compute. reflexivity. Qed.

Example aes256_vector : fips_ciphertext 32
  = Ok [0x8e; 0xa2; 0xb7; 0xca; 0x51; 0x67; 0x45; 0xbf; 0xea; 0xfc; 0x49; 0x90; 0x4b; 0x49; 0x60; 0x89].
Proof. vm_compute. reflexivity. Qed.

(** ** The tables *)

Definition sbox (x : Z) : Z := byte_at (entry_at aes_mixcolumns x) 0.
Definition inv_sbox (x : Z) : Z := byte_at (entry_at aes_invmixcolumns x) 0.

(** The loop over the powers of the generator ends within its fuel. *)
Lemma aes_generate_tables : aes_generate zero_table zero_table = Some aes_tables.
Proof. vm_compute. reflexivity. Qed.

Lemma aes_prepare_tables : aes_prepare (zero_table, zero_table) = Some aes_tables /\ aes_prepare aes_tables = Some aes_tables.
Proof. split; vm_compute; reflexivity. Qed.

(** The tables as constants, so that properties of them are checked once. *)
Lemma tables_check :
  forallb (fun x => bool_decide (entry_at aes_mixcolumns x = aes_mixcolumns_entry [sbox x])
                    && bool_decide (entry_at aes_invmixcolumns x = aes_invmixcolumns_entry [inv_sbox x])
                    && (0 <=? sbox x) && (sbox x <? 256) && (0 <=? inv_sbox x) && (inv_sbox x <? 256)
                    && (inv_sbox (sbox x) =? x)) (seqZ 0 256) = true.
Proof. vm_compute. reflexivity. Qed.

(** Every entry is the multiple of its S-box value, and the second S-box
    inverts the first. *)
Lemma tables_ok x : byte_ok x ->
  entry_at aes_mixcolumns x = aes_mixcolumns_entry [sbox x]
  /\ entry_at aes_invmixcolumns x = aes_invmixcolumns_entry [inv_sbox x]
  /\ byte_ok (sbox x) /\ byte_ok (inv_sbox x) /\ inv_sbox (sbox x) = x.
Proof.
  intros Hx. pose proof (range_check 0 256 _ tables_check x ltac:(unfold byte_ok in Hx; lia)) as H. cbv beta in H.
  rewrite !andb_true_iff, !bool_decide_eq_true, !Z.leb_le, !Z.ltb_lt, Z.eqb_eq in H. unfold byte_ok. intuition.
Qed.

(** ** The multiplication of columns *)

(** Solve an equation between exclusive ors. *)
Ltac xor_solve := apply Z.bits_inj; intros ?; rewrite !Z.lxor_spec; btauto.

Lemma xor_comm a b : xor a b = xor b a.
Proof. revert b. induction a as [|x a IH]; intros [|y b]; cbn; [done..|]. f_equal; [apply Z.lxor_comm|apply IH]. Qed.

Lemma xor_assoc a b c : xor a (xor b c) = xor (xor a b) c.
Proof.
  revert b c. induction a as [|x a IH]; intros [|y b] [|z c]; cbn; [done..|]. f_equal; [by rewrite Z.lxor_assoc|apply IH].
Qed.

Lemma xor_length a b : length a = length b -> length (xor a b) = length a.
Proof. intros. unfold xor. rewrite length_zip_with. lia. Qed.

Lemma xor_bytes a b : bytes_ok a -> bytes_ok b -> bytes_ok (xor a b).
Proof.
  intros Ha. revert b. induction Ha as [|x a Hx Ha IH]; intros b Hb; [apply Forall_nil_2|].
  destruct Hb as [|y b Hy Hb]; [apply Forall_nil_2|]. apply Forall_cons_2; [by apply lxor_byte|by apply IH].
Qed.

(** Doubling is linear. *)
Lemma double_check : forallb (fun x => (0 <=? aes_double x) && (aes_double x <? 256)
    && forallb (fun y => aes_double (Z.lxor x y) =? Z.lxor (aes_double x) (aes_double y)) (seqZ 0 256)) (seqZ 0 256) = true.
Proof. vm_compute. reflexivity. Qed.

Lemma double_byte x : byte_ok x -> byte_ok (aes_double x).
Proof.
  intros Hx. pose proof (range_check 0 256 _ double_check x ltac:(unfold byte_ok in Hx; lia)) as H. cbv beta in H.
  rewrite !andb_true_iff, Z.leb_le, Z.ltb_lt in H. apply H.
Qed.

Lemma double_xor x y : byte_ok x -> byte_ok y -> aes_double (Z.lxor x y) = Z.lxor (aes_double x) (aes_double y).
Proof.
  intros Hx Hy. pose proof (range_check 0 256 _ double_check x ltac:(unfold byte_ok in Hx; lia)) as H. cbv beta in H.
  apply andb_true_iff in H as [_ H]. apply Z.eqb_eq. exact (range_check 0 256 _ H y ltac:(unfold byte_ok in Hy; lia)).
Qed.

Lemma inv_entry_xor x y : byte_ok x -> byte_ok y ->
  aes_invmixcolumns_entry [Z.lxor x y] = xor (aes_invmixcolumns_entry [x]) (aes_invmixcolumns_entry [y]).
Proof.
  intros Hx Hy. unfold aes_invmixcolumns_entry. cbn [byte_at Z.to_nat lookup list_lookup default from_option id xor zip_with].
  change (byte_at [Z.lxor x y] 0) with (Z.lxor x y). change (byte_at [x] 0) with x. change (byte_at [y] 0) with y.
  rewrite (double_xor x y), (double_xor (aes_double x)), (double_xor (aes_double (aes_double x))) by auto using double_byte.
  repeat (apply (f_equal2 cons); [xor_solve|]). reflexivity.
Qed.

(** Matrix times vector, for the matrix whose columns the entries hold. *)
Definition mix_col (entry : Z -> list Z) (col : list Z) : list Z :=
  xor (xor (xor (aes_entry_column (entry (byte_at col 0)) 0) (aes_entry_column (entry (byte_at col 1)) 1))
           (aes_entry_column (entry (byte_at col 2)) 2))
      (aes_entry_column (entry (byte_at col 3)) 3).

Definition mix1 (x : Z) : list Z := aes_mixcolumns_entry [x].
Definition imix1 (x : Z) : list Z := aes_invmixcolumns_entry [x].

Lemma xor_swap a b c d : xor (xor a b) (xor c d) = xor (xor a c) (xor b d).
Proof. rewrite <- !xor_assoc. f_equal. rewrite !xor_assoc. f_equal. apply xor_comm. Qed.

Lemma xor_swap4 a0 b0 a1 b1 a2 b2 a3 b3 :
  xor (xor (xor (xor a0 b0) (xor a1 b1)) (xor a2 b2)) (xor a3 b3)
  = xor (xor (xor (xor a0 a1) a2) a3) (xor (xor (xor b0 b1) b2) b3).
Proof. rewrite (xor_swap a0 b0 a1 b1), (xor_swap _ _ a2 b2), (xor_swap _ _ a3 b3). done. Qed.

Lemma drop_xor n a b : drop n (xor a b) = xor (drop n a) (drop n b).
Proof. revert a b. induction n as [|n IH]; intros [|x a] [|y b]; cbn; try done. by destruct (drop n a). Qed.

Lemma take_xor n a b : take n (xor a b) = xor (take n a) (take n b).
Proof. revert a b. induction n as [|n IH]; intros [|x a] [|y b]; cbn; try done. by f_equal. Qed.

Lemma entry_column_xor a b i : aes_entry_column (xor a b) i = xor (aes_entry_column a i) (aes_entry_column b i).
Proof.
  unfold aes_entry_column. by rewrite drop_xor, take_xor.
Qed.

Definition vec4 (col : list Z) : Prop := bytes_ok col /\ length col = 4%nat.

Ltac vec4_cases H :=
  let Hb := fresh "Hb" in
  destruct H as [Hb H];
  match type of H with length ?l = _ => destruct l as [|? [|? [|? [|? [|]]]]]; try discriminate H end; clear H;
  unfold bytes_ok in Hb; rewrite ?Forall_cons in Hb; destruct_and? Hb.

Lemma imix_xor u v : vec4 u -> vec4 v -> mix_col imix1 (xor u v) = xor (mix_col imix1 u) (mix_col imix1 v).
Proof.
  intros Hu Hv. vec4_cases Hu. vec4_cases Hv. unfold mix_col, imix1. cbn [xor zip_with].
  repeat match goal with |- context [byte_at (?x :: ?l) ?i] =>
    let y := eval cbv [byte_at lookup list_lookup Z.to_nat Pos.to_nat Pos.iter_op Nat.add default from_option id] in (byte_at (x :: l) i) in
    change (byte_at (x :: l) i) with y end.
  rewrite !inv_entry_xor by done. rewrite !entry_column_xor.
  apply xor_swap4.
Qed.

(** The product of a scalar with a column of the matrix, inverted. *)
Definition unit_vec (i : nat) (x : Z) : list Z := <[i := x]> [0; 0; 0; 0].

Lemma units_check : forallb (fun x => forallb (fun i =>
    bool_decide (mix_col imix1 (aes_entry_column (mix1 x) (Z.of_nat i)) = unit_vec i x)
    && bool_decide (length (aes_entry_column (mix1 x) (Z.of_nat i)) = 4%nat)
    && forallb (fun b => (0 <=? b) && (b <? 256)) (aes_entry_column (mix1 x) (Z.of_nat i))) (seq 0 4)) (seqZ 0 256) = true.
Proof. vm_compute. reflexivity. Qed.

Lemma unit_ok x i : byte_ok x -> (i < 4)%nat ->
  mix_col imix1 (aes_entry_column (mix1 x) (Z.of_nat i)) = unit_vec i x /\ vec4 (aes_entry_column (mix1 x) (Z.of_nat i)).
Proof.
  intros Hx Hi. pose proof (range_check 0 256 _ units_check x ltac:(unfold byte_ok in Hx; lia)) as H. cbv beta in H.
  rewrite forallb_forall in H. specialize (H i ltac:(apply in_seq; lia)). rewrite !andb_true_iff, !bool_decide_eq_true in H.
  destruct H as [[H1 H2] H3]. split; [done|]. split; [|done]. unfold bytes_ok. apply Forall_forall. intros b Hb%list_elem_of_In.
  rewrite forallb_forall in H3. specialize (H3 b Hb). rewrite andb_true_iff, Z.leb_le, Z.ltb_lt in H3. done.
Qed.

Lemma xor_vec4 u v : vec4 u -> vec4 v -> vec4 (xor u v).
Proof. intros [Hu Lu] [Hv Lv]. split; [by apply xor_bytes|]. rewrite xor_length; congruence. Qed.

(** InvMixColumns inverts MixColumns. *)
Lemma imix_mix col : vec4 col -> mix_col imix1 (mix_col mix1 col) = col.
Proof.
  intros H. vec4_cases H. unfold mix_col at 2.
  repeat match goal with |- context [byte_at (?x :: ?l) ?i] =>
    let y := eval cbv [byte_at lookup list_lookup Z.to_nat Pos.to_nat Pos.iter_op Nat.add default from_option id] in (byte_at (x :: l) i) in
    change (byte_at (x :: l) i) with y end.
  destruct (unit_ok z 0 ltac:(done) ltac:(lia)) as [U0 V0]. destruct (unit_ok z0 1 ltac:(done) ltac:(lia)) as [U1 V1].
  destruct (unit_ok z1 2 ltac:(done) ltac:(lia)) as [U2 V2]. destruct (unit_ok z2 3 ltac:(done) ltac:(lia)) as [U3 V3].
  change (Z.of_nat 0) with 0 in *. change (Z.of_nat 1) with 1 in *. change (Z.of_nat 2) with 2 in *.
  change (Z.of_nat 3) with 3 in *.
  rewrite !imix_xor by auto using xor_vec4. rewrite U0, U1, U2, U3. cbn [unit_vec insert list_insert xor zip_with].
  by rewrite !Z.lxor_0_l, !Z.lxor_0_r.
Qed.

(** ** Rounds as transformations of the state *)

Definition m16 (m : matrix) : Prop := bytes_ok m /\ length m = 16%nat.

Ltac m16_cases H :=
  let Hb := fresh "Hb" in
  destruct H as [Hb H];
  match type of H with length ?l = _ => do 16 (destruct l as [|? l]; [discriminate H|]); destruct l; [|discriminate H] end;
  clear H; unfold bytes_ok in Hb; rewrite ?Forall_cons in Hb; destruct_and? Hb.

(** Substitute and shift rows, with an S-box and a stride. *)
Definition sub_shift (f : Z -> Z) (stride : Z) (m : matrix) : matrix :=
  map (fun o => f (byte_at m (Z.land (stride * o) 0xf))) (seqZ 0 16).

Definition mix_columns (entry : Z -> list Z) (m : matrix) : matrix :=
  mix_col entry (column_at m 0) ++ mix_col entry (column_at m 1)
  ++ mix_col entry (column_at m 2) ++ mix_col entry (column_at m 3).

Lemma addroundkey_xor m k : length m = 16%nat -> length k = 16%nat -> aes_addroundkey m k = xor m k.
Proof.
  intros Hm Hk. do 16 (destruct m as [|? m]; [discriminate Hm|]). destruct m; [|discriminate Hm].
  do 16 (destruct k as [|? k]; [discriminate Hk|]). destruct k; [|discriminate Hk]. reflexivity.
Qed.

Lemma xor_app a b c d : length a = length c -> xor (a ++ b) (c ++ d) = xor a c ++ xor b d.
Proof. apply zip_with_app. Qed.

Lemma byte_at_ok m i : bytes_ok m -> byte_ok (byte_at m i).
Proof.
  intros Hm. unfold byte_at. destruct (m !! Z.to_nat i) eqn:E; cbn; [|unfold byte_ok; lia].
  eapply Forall_lookup_1 in E; [done|exact Hm].
Qed.

Lemma land_15 z : Z.land z 15 = z mod 16.
Proof. change 15 with (Z.ones 4). by rewrite Z.land_ones. Qed.

Section Table.
Context (tab : table) (f : Z -> Z) (entry : Z -> list Z).
Hypothesis tab_entry : forall x, byte_ok x -> entry_at tab x = entry (f x) /\ byte_at (entry_at tab x) 0 = f x.

Hypothesis entry_length : forall x, length (entry x) = 8%nat.

Lemma mix_col_length col : length (mix_col entry col) = 4%nat.
Proof.
  assert (H : forall x i, 0 <= i <= 3 -> length (aes_entry_column (entry x) i) = 4%nat).
  { intros. unfold aes_entry_column. rewrite length_take, length_drop, entry_length. lia. }
  unfold mix_col, xor. rewrite !length_zip_with, !H by lia. reflexivity.
Qed.

(** The columns of a round, byte by byte. *)
Lemma round_columns stride m k : m16 m -> length k = 16%nat ->
  aes_round tab stride m k = xor (mix_columns entry (sub_shift f stride m)) k.
Proof.
  intros Hm Hk.
  assert (Hb : forall i, byte_ok (byte_at m i)) by (intros; apply byte_at_ok, Hm).
  do 16 (destruct k as [|? k]; [discriminate Hk|]). destruct k; [|discriminate Hk].
  unfold aes_round, aes_output, aes_column. rewrite !(fun i => proj1 (tab_entry _ (Hb i))).
  unfold mix_columns. change [?a; ?b; ?c; ?d; ?e; ?f; ?g; ?h; ?i; ?j; ?k; ?l; ?m; ?n; ?o; ?p] with
    ([a; b; c; d] ++ [e; f; g; h] ++ [i; j; k; l] ++ [m; n; o; p]).
  rewrite !xor_app by (rewrite mix_col_length; reflexivity). reflexivity.
Qed.

Lemma final_loop stride m n i : bytes_ok m -> aes_final_loop n tab stride m (Z.land (stride * i) 15)
  = map (fun o => f (byte_at m (Z.land (stride * o) 0xf))) (seqZ i (Z.of_nat n)).
Proof.
  intros Hm. revert i. induction n as [|n IH]; intros i; [done|].
  rewrite seqZ_cons by lia. replace (Z.pred (Z.of_nat (S n))) with (Z.of_nat n) by lia. cbn [aes_final_loop map].
  rewrite (proj2 (tab_entry _ (byte_at_ok m _ Hm))). f_equal. rewrite <- IH. f_equal.
  rewrite !land_15, Zplus_mod_idemp_l. f_equal. lia.
Qed.

Lemma final_columns stride m k : m16 m -> length k = 16%nat ->
  aes_final tab stride m k = xor (sub_shift f stride m) k.
Proof.
  intros [Hm Hl] Hk. unfold aes_final. replace 0 with (Z.land (stride * 0) 15) by (by rewrite Z.mul_0_r).
  rewrite final_loop by done. rewrite addroundkey_xor; [done| |done]. rewrite length_map, length_seqZ. done.
Qed.
End Table.

(** Shifting rows back and forth, and substituting, is the identity. *)
Lemma unshift_shift m : m16 m -> sub_shift inv_sbox AES_STRIDE_INVSHIFTROWS (sub_shift sbox AES_STRIDE_SHIFTROWS m) = m.
Proof.
  intros Hm. m16_cases Hm.
  assert (Hs : forall x, byte_ok x -> inv_sbox (sbox x) = x) by (intros; by apply tables_ok).
  assert (Hc : forall g h, sub_shift g AES_STRIDE_INVSHIFTROWS (sub_shift h AES_STRIDE_SHIFTROWS
      [z; z0; z1; z2; z3; z4; z5; z6; z7; z8; z9; z10; z11; z12; z13; z14])
    = map (fun x => g (h x)) [z; z0; z1; z2; z3; z4; z5; z6; z7; z8; z9; z10; z11; z12; z13; z14]) by reflexivity.
  rewrite Hc. cbn [map]. rewrite !Hs by done. reflexivity.
Qed.

Lemma sub_shift_m16 m : m16 m -> m16 (sub_shift sbox AES_STRIDE_SHIFTROWS m).
Proof.
  intros [Hm _]. split; [|by unfold sub_shift; rewrite length_map, length_seqZ].
  unfold sub_shift, bytes_ok. apply Forall_map, Forall_true. intros o. apply tables_ok, byte_at_ok, Hm.
Qed.

Lemma column_vec4 m c : m16 m -> 0 <= c <= 3 -> vec4 (column_at m c).
Proof.
  intros [Hm Hl] Hc. split; [by apply Forall_take, Forall_drop|]. unfold column_at. rewrite length_take, length_drop. lia.
Qed.

(** A matrix by its columns. *)
Lemma m16_app a b c d : vec4 a -> vec4 b -> vec4 c -> vec4 d -> m16 (a ++ b ++ c ++ d).
Proof.
  intros [Ha La] [Hb Lb] [Hc Lc] [Hd Ld]. split; [|rewrite !length_app; lia]. unfold bytes_ok. rewrite !Forall_app. done.
Qed.

Lemma columns_app a b c d : vec4 a -> vec4 b -> vec4 c -> vec4 d -> let m := a ++ b ++ c ++ d in
  column_at m 0 = a /\ column_at m 1 = b /\ column_at m 2 = c /\ column_at m 3 = d.
Proof.
  intros Ha Hb Hc Hd. vec4_cases Ha. vec4_cases Hb. vec4_cases Hc. vec4_cases Hd. done.
Qed.

Lemma columns_eq m : m16 m -> column_at m 0 ++ column_at m 1 ++ column_at m 2 ++ column_at m 3 = m.
Proof. intros Hm. m16_cases Hm. reflexivity. Qed.

Lemma mix_col_vec4 entry col : (forall x, byte_ok x -> bytes_ok (entry x)) -> (forall x, length (entry x) = 8%nat) ->
  bytes_ok col -> vec4 (mix_col entry col).
Proof.
  intros He Hl Hc. split; [|by apply mix_col_length].
  assert (H : forall i j, bytes_ok (aes_entry_column (entry (byte_at col i)) j)).
  { intros. apply Forall_take, Forall_drop, He, byte_at_ok, Hc. }
  unfold mix_col. auto using xor_bytes.
Qed.

Lemma mix1_bytes x : byte_ok x -> bytes_ok (mix1 x).
Proof.
  intros Hx. pose proof (double_byte _ Hx). unfold mix1, aes_mixcolumns_entry. change (byte_at [x] 0) with x.
  unfold bytes_ok. repeat (apply Forall_cons_2; [auto using lxor_byte|]). by apply Forall_nil_2.
Qed.

Lemma imix1_bytes x : byte_ok x -> bytes_ok (imix1 x).
Proof.
  intros Hx. pose proof (double_byte _ Hx). unfold imix1, aes_invmixcolumns_entry. change (byte_at [x] 0) with x.
  unfold bytes_ok. repeat (apply Forall_cons_2; [auto 10 using lxor_byte, double_byte|]). by apply Forall_nil_2.
Qed.

Lemma mix_columns_m16 entry m : (forall x, byte_ok x -> bytes_ok (entry x)) -> (forall x, length (entry x) = 8%nat) ->
  m16 m -> m16 (mix_columns entry m).
Proof. intros He Hl Hm. apply m16_app; apply mix_col_vec4; try done; apply column_vec4; try done; lia. Qed.

Lemma xor_m16 a b : m16 a -> m16 b -> m16 (xor a b).
Proof. intros [Ha La] [Hb Lb]. split; [by apply xor_bytes|]. rewrite xor_length; congruence. Qed.

Lemma unmix_mix m : m16 m -> mix_columns imix1 (mix_columns mix1 m) = m.
Proof.
  intros Hm. unfold mix_columns at 1. unfold mix_columns.
  destruct (columns_app (mix_col mix1 (column_at m 0)) (mix_col mix1 (column_at m 1)) (mix_col mix1 (column_at m 2))
              (mix_col mix1 (column_at m 3))) as (-> & -> & -> & ->);
    try (apply mix_col_vec4; [exact mix1_bytes|done|apply column_vec4; [done|lia]]).
  rewrite !imix_mix by (apply column_vec4; [done|lia]). by apply columns_eq.
Qed.

Lemma column_xor a b c : column_at (xor a b) c = xor (column_at a c) (column_at b c).
Proof. unfold column_at. by rewrite drop_xor, take_xor. Qed.

Lemma unmix_xor a b : m16 a -> m16 b -> mix_columns imix1 (xor a b) = xor (mix_columns imix1 a) (mix_columns imix1 b).
Proof.
  intros Ha Hb. unfold mix_columns. rewrite !column_xor, !imix_xor by (apply column_vec4; [done|lia]).
  rewrite !xor_app by (rewrite !(mix_col_length imix1) by done; done). reflexivity.
Qed.

Lemma xor_cancel a b : m16 a -> m16 b -> xor (xor a b) b = a.
Proof.
  intros [_ Ha] [_ Hb]. rewrite <- Hb in Ha. clear Hb. revert b Ha.
  induction a as [|x a IH]; intros [|y b] H; try discriminate H; [done|]. cbn. rewrite IH by (cbn in H; lia).
  by rewrite Z.lxor_assoc, Z.lxor_nilpotent, Z.lxor_0_r.
Qed.

(** ** The rounds *)

Definition mix_round (m k : matrix) : matrix := xor (mix_columns mix1 (sub_shift sbox AES_STRIDE_SHIFTROWS m)) k.
Definition unmix_round (m k : matrix) : matrix := xor (mix_columns imix1 (sub_shift inv_sbox AES_STRIDE_INVSHIFTROWS m)) k.

(** An odd number of rounds leaves its result in the output buffer. *)
Lemma rounds_fold tab stride keys in_ out n : (n <= length keys)%nat ->
  (if Nat.odd n then snd else fst) (aes_rounds tab stride in_ out keys n) = fold_left (aes_round tab stride) (take n keys) in_.
Proof.
  revert keys in_ out. induction n as [|n IH]; intros keys in_ out Hn; [done|].
  destruct keys as [|k keys]; cbn in Hn; [lia|]. cbn [aes_rounds hd tl take fold_left]. rewrite <- (IH keys _ in_) by lia.
  rewrite Nat.odd_succ, <- Nat.negb_odd. destruct (aes_rounds _ _ _ _ _ n) as [i o]. by destruct (Nat.odd n).
Qed.

Lemma mix_entry x : byte_ok x -> entry_at aes_mixcolumns x = mix1 (sbox x) /\ byte_at (entry_at aes_mixcolumns x) 0 = sbox x.
Proof. intros Hx. by destruct (tables_ok x Hx) as (-> & _). Qed.

Lemma imix_entry x : byte_ok x ->
  entry_at aes_invmixcolumns x = imix1 (inv_sbox x) /\ byte_at (entry_at aes_invmixcolumns x) 0 = inv_sbox x.
Proof. intros Hx. by destruct (tables_ok x Hx) as (_ & -> & _). Qed.

Lemma mix_round_m16 m k : m16 m -> m16 k -> m16 (mix_round m k).
Proof.
  intros Hm Hk. apply xor_m16; [|done]. apply mix_columns_m16; [exact mix1_bytes|done|by apply sub_shift_m16].
Qed.

Lemma encrypt_rounds_fold keys m : Forall m16 keys -> m16 m ->
  fold_left (aes_round aes_mixcolumns AES_STRIDE_SHIFTROWS) keys m = fold_left mix_round keys m
  /\ m16 (fold_left mix_round keys m).
Proof.
  intros Hk. revert m. induction Hk as [|k keys Hk Hks IH]; intros m Hm; [done|]. cbn [fold_left].
  rewrite (round_columns aes_mixcolumns sbox mix1 mix_entry) by (done || apply Hk). apply IH, mix_round_m16; done.
Qed.

Lemma zero_m16 : m16 zero_matrix.
Proof. split; [|done]. apply Forall_replicate. unfold byte_ok. lia. Qed.

Lemma xor_zero m : length m = 16%nat -> xor m zero_matrix = m.
Proof.
  intros Hm. do 16 (destruct m as [|? m]; [discriminate Hm|]). destruct m; [|discriminate Hm].
  unfold zero_matrix, xor. cbn [replicate zip_with]. rewrite !Z.lxor_0_r. done.
Qed.

(** The keys of the inner rounds are put through InvMixColumns. *)
Lemma invert_key_unmix k : m16 k -> invert_key k = mix_columns imix1 k.
Proof.
  intros Hk. unfold invert_key, aes_decrypt_rounds. rewrite (final_columns aes_mixcolumns sbox mix1 mix_entry) by done.
  rewrite xor_zero by apply sub_shift_m16, Hk. cbn [aes_rounds hd tl snd].
  rewrite (round_columns aes_invmixcolumns inv_sbox imix1 imix_entry) by (done || by apply sub_shift_m16).
  rewrite unshift_shift by done. apply xor_zero. apply mix_columns_m16; [exact imix1_bytes|done|done].
Qed.

(** One round of decryption undoes one of encryption, on states as they are
    between substitution and mixing. *)
Lemma unmix_round_mix_round m k : m16 m -> m16 k ->
  aes_round aes_invmixcolumns AES_STRIDE_INVSHIFTROWS (sub_shift sbox AES_STRIDE_SHIFTROWS (mix_round m k)) (invert_key k)
  = sub_shift sbox AES_STRIDE_SHIFTROWS m.
Proof.
  intros Hm Hk. pose proof (sub_shift_m16 m Hm) as Hs. pose proof (mix_round_m16 m k Hm Hk) as Hr.
  rewrite (round_columns aes_invmixcolumns inv_sbox imix1 imix_entry);
    [|done|by apply sub_shift_m16|rewrite invert_key_unmix by done; apply mix_columns_m16; [exact imix1_bytes|done|done]].
  rewrite unshift_shift, invert_key_unmix by done. unfold mix_round.
  assert (Hx : m16 (mix_columns mix1 (sub_shift sbox AES_STRIDE_SHIFTROWS m))) by (apply mix_columns_m16; [exact mix1_bytes|done|done]).
  rewrite unmix_xor by done. rewrite unmix_mix by done.
  apply xor_cancel; [done|]. apply mix_columns_m16; [exact imix1_bytes|done|done].
Qed.

Lemma decrypt_rounds_fold keys m : Forall m16 keys -> m16 m ->
  fold_left (aes_round aes_invmixcolumns AES_STRIDE_INVSHIFTROWS) (rev (map invert_key keys))
    (sub_shift sbox AES_STRIDE_SHIFTROWS (fold_left mix_round keys m)) = sub_shift sbox AES_STRIDE_SHIFTROWS m.
Proof.
  intros Hk. revert m. induction Hk as [|k keys Hk Hks IH]; intros m Hm; [done|]. cbn [map rev fold_left].
  rewrite fold_left_app, IH by (by apply mix_round_m16). cbn [fold_left]. by apply unmix_round_mix_round.
Qed.

(** ** The key schedule *)

Lemma invert_keys_rev ks kl dec : invert_keys (ks ++ [kl]) dec = kl :: rev (map invert_key ks) ++ dec.
Proof.
  revert dec. induction ks as [|k ks IH]; intros dec; [done|]. cbn [app].
  assert (E : invert_keys (k :: ks ++ [kl]) dec = invert_keys (ks ++ [kl]) (invert_key k :: dec)) by (by destruct ks).
  rewrite E, IH. cbn [map rev]. by rewrite <- app_assoc.
Qed.

Lemma le_bytes_vec4 v : vec4 (le_bytes 4 v).
Proof.
  split; [|apply le_bytes_length]. cbn [le_bytes]. unfold bytes_ok.
  repeat (apply Forall_cons_2; [unfold byte_ok; apply Z.mod_pos_bound; lia|]). by apply Forall_nil_2.
Qed.

Lemma key_matrices_ok n cols : length cols = (4 * n)%nat -> Forall m16 (key_matrices n cols) /\ length (key_matrices n cols) = n.
Proof.
  revert cols. induction n as [|n IH]; intros cols Hl; [done|].
  do 4 (destruct cols as [|? cols]; [cbn in Hl; lia|]). 
  destruct (IH cols ltac:(cbn in Hl; lia)) as [Hf Hn]. 
  change (key_matrices (S n) ?l) with (concat (map (le_bytes 4) (take 4 l)) :: key_matrices n cols).
  split; [|cbn [length]; by rewrite Hn]. apply Forall_cons_2; [|done].
  cbn [take map concat]. rewrite app_nil_r. apply m16_app; apply le_bytes_vec4.
Qed.

Lemma expand_key_length n keylen cols prev tmp rcon offset :
  length (expand_key n keylen cols prev tmp rcon offset) = (n + length cols)%nat.
Proof.
  revert cols prev tmp rcon offset. induction n as [|n IH]; intros; [done|]. cbn [expand_key]. rewrite IH, length_app. cbn. lia.
Qed.

(** What a key schedule is: a first and a last round key around the keys of the
    inner rounds, an odd number of them. *)
Record schedule (aes : aes_context) (k0 : matrix) (ks : list matrix) (kl : matrix) : Prop := {
  schedule_encrypt : encrypt_key aes = k0 :: ks ++ [kl];
  schedule_decrypt : decrypt_key aes = kl :: rev (map invert_key ks) ++ [k0];
  schedule_rounds : aes_rounds_no aes = (length ks + 2)%nat;
  schedule_odd : Nat.odd (length ks) = true;
  schedule_m16 : Forall m16 (k0 :: ks ++ [kl]) }.

Lemma groups_length fuel n l k : length l = (S n * k)%nat -> (k <= fuel)%nat -> length (groups fuel (S n) l) = k.
Proof.
  revert l k. induction fuel as [|fuel IH]; intros l k Hl Hf; [cbn; lia|]. destruct l as [|x l]; [cbn in *; nia|].
  destruct k as [|k]; [cbn in Hl; lia|]. cbn [groups length]. f_equal. apply IH; [|lia].
  rewrite length_drop, Hl. lia.
Qed.

Lemma setkey_schedule rounds cols : (rounds = 11 \/ rounds = 13 \/ rounds = 15)%nat -> length cols = (4 * rounds)%nat ->
  let enc := key_matrices rounds cols in
  exists k0 ks kl, schedule (AesContext enc (invert_keys (tl enc) [hd [] enc]) rounds) k0 ks kl.
Proof.
  intros Hr Hl enc. destruct (key_matrices_ok rounds cols Hl) as [Hm Hn]. fold enc in Hm, Hn.
  destruct enc as [|k0 enc'] eqn:E; [cbn in Hn; lia|].
  destruct (exists_last (l := enc')) as (ks & kl & ->); [by intros ->; cbn in Hn; lia|].
  cbn [length] in Hn. rewrite length_app in Hn. cbn [length] in Hn.
  exists k0, ks, kl. split; cbn [encrypt_key decrypt_key aes_rounds_no tl hd]; [done|apply invert_keys_rev|lia| |done].
  replace (length ks) with (rounds - 2)%nat by lia. by destruct Hr as [-> | [-> | ->]].
Qed.

Lemma Ok_inj {A} (x y : A) : Ok x = Ok y -> x = y.
Proof. congruence. Qed.

Lemma aes_setkey_schedule key aes : aes_setkey key = Ok aes -> exists k0 ks kl, schedule aes k0 ks kl.
Proof.
  unfold aes_setkey. intros H.
  destruct (Z.eqb_spec (zlen key) (128 / 8)) as [Hk|_];
    [|destruct (Z.eqb_spec (zlen key) (192 / 8)) as [Hk|_];
      [|destruct (Z.eqb_spec (zlen key) (256 / 8)) as [Hk|_]; [|discriminate H]]];
    apply Ok_inj in H; rewrite <- H; apply setkey_schedule; auto;
    rewrite expand_key_length, length_map;
    [rewrite (groups_length _ 3 key 4)|rewrite (groups_length _ 3 key 6)|rewrite (groups_length _ 3 key 8)];
    change (128 / 8) with 16 in *; change (192 / 8) with 24 in *; change (256 / 8) with 32 in *; lia.
Qed.

(** ** Encryption and decryption *)

Lemma schedule_lookup_last ks (k0 kl : matrix) : default [] ((k0 :: ks ++ [kl]) !! (length ks + 2 - 1)%nat) = kl.
Proof. replace (length ks + 2 - 1)%nat with (S (length ks)) by lia. by rewrite lookup_cons, list_lookup_middle. Qed.

(** The block as the rounds transform it. *)
Lemma encrypt_rounds aes k0 ks kl src : schedule aes k0 ks kl -> m16 src ->
  aes_encrypt aes src = xor (sub_shift sbox AES_STRIDE_SHIFTROWS (fold_left mix_round ks (xor src k0))) kl
  /\ m16 (fold_left mix_round ks (xor src k0)).
Proof.
  intros [He _ Hr Ho Hm] Hs. apply Forall_cons in Hm as [H0 Hm]. apply Forall_app in Hm as [Hks Hl].
  apply Forall_cons_1 in Hl as [Hl _]. unfold aes_encrypt, aes_encrypt_rounds. rewrite He, Hr, schedule_lookup_last.
  cbn [lookup list_lookup default from_option id]. rewrite addroundkey_xor by (apply Hs || apply H0).
  change (drop 1 (k0 :: ks ++ [kl])) with (ks ++ [kl]). replace (length ks + 2 - 2)%nat with (length ks) by lia.
  pose proof (rounds_fold aes_mixcolumns AES_STRIDE_SHIFTROWS (ks ++ [kl]) (xor src k0) zero_matrix (length ks)
    ltac:(rewrite length_app; lia)) as Hf. rewrite Ho in Hf. rewrite Hf, take_app_length.
  destruct (encrypt_rounds_fold ks (xor src k0) Hks (xor_m16 _ _ Hs H0)) as [-> Hx]. split; [|done].
  apply (final_columns aes_mixcolumns sbox mix1 mix_entry); [done|apply Hl].
Qed.

Lemma schedule_decrypts aes k0 ks kl src : schedule aes k0 ks kl -> m16 src -> aes_decrypt aes (aes_encrypt aes src) = src.
Proof.
  intros Hs Hm. destruct (encrypt_rounds _ _ _ _ _ Hs Hm) as [-> Hx]. destruct Hs as [_ Hd Hr Ho Hk].
  apply Forall_cons in Hk as [H0 Hk]. apply Forall_app in Hk as [Hks Hl]. apply Forall_cons_1 in Hl as [Hl _].
  set (m := fold_left mix_round ks (xor src k0)) in *. pose proof (sub_shift_m16 m Hx) as Hsm.
  unfold aes_decrypt, aes_decrypt_rounds. rewrite Hd, Hr. rewrite <- (length_rev ks), <- (length_map invert_key (rev ks)), map_rev.
  rewrite schedule_lookup_last.
  cbn [lookup list_lookup default from_option id]. rewrite addroundkey_xor by (apply xor_m16 || apply Hl; done).
  change (drop 1 (kl :: rev (map invert_key ks) ++ [k0])) with (rev (map invert_key ks) ++ [k0]).
  rewrite xor_cancel by done. set (n := length (rev _)). replace (n + 2 - 2)%nat with n by lia.
  pose proof (rounds_fold aes_invmixcolumns AES_STRIDE_INVSHIFTROWS (rev (map invert_key ks) ++ [k0])
    (sub_shift sbox AES_STRIDE_SHIFTROWS m) zero_matrix n ltac:(rewrite length_app; lia)) as Hf.
  assert (Hn : n = length ks) by (unfold n; by rewrite length_rev, length_map). rewrite Hn, Ho, <- Hn in Hf.
  rewrite Hf. unfold n. rewrite take_app_length. unfold m. rewrite decrypt_rounds_fold by (done || by apply xor_m16).
  rewrite (final_columns aes_invmixcolumns inv_sbox imix1 imix_entry) by (apply sub_shift_m16, xor_m16; done) || apply H0.
  rewrite unshift_shift by (by apply xor_m16). by apply xor_cancel.
Qed.
