(* ===== verification/AesFips.v ===== *)
(** * AES against FIPS 197

    The cipher as the standard defines it (field multiplication, S-box,
    SubBytes, ShiftRows, MixColumns, KeyExpansion, Cipher), written from the
    standard and not from the code, the proof that the table-driven code of
    [crypto/aes.c] computes it, and AES as an instance of the interface that
    the cipher modes rely on. *)
From S2P Require Import Prelude Strings Memory Digest Hashes Cipher Aes.

(** ** The standard *)

(** Product of polynomials over GF(2), then the remainder modulo
    x^8 + x^4 + x^3 + x + 1. *)
Definition gf_product (a b : Z) : Z :=
  foldr (fun i acc => if Z.testbit b i then Z.lxor (Z.shiftl a i) acc else acc) 0 (seqZ 0 8).
Definition gf_reduce (p : Z) : Z :=
  fold_left (fun p i => if Z.testbit p i then Z.lxor p (Z.shiftl 0x11b (i - 8)) else p) [14; 13; 12; 11; 10; 9; 8] p.
Definition gf_mul (a b : Z) : Z := gf_reduce (gf_product a b).

(** The multiplicative inverse; zero is mapped to itself. *)
Definition gf_inv (a : Z) : Z := default 0 (List.find (fun b => gf_mul a b =? 1) (seqZ 0 256)).

Definition fips_sbox (a : Z) : Z :=
  let b := gf_inv a in
  let bit i := xorb (xorb (xorb (xorb (xorb (Z.testbit b i) (Z.testbit b ((i + 4) mod 8))) (Z.testbit b ((i + 5) mod 8)))
    (Z.testbit b ((i + 6) mod 8))) (Z.testbit b ((i + 7) mod 8))) (Z.testbit 0x63 i) in
  foldr (fun i acc => Z.b2z (bit i) + 2 * acc) 0 (seqZ 0 8).

Definition SubBytes (s : list Z) : list Z := map fips_sbox s.

(** Row [r] of the state is shifted by [r]; byte [r + 4c] is in row [r]. *)
Definition ShiftRows (s : list Z) : list Z :=
  map (fun o => byte_at s (o mod 4 + 4 * ((o / 4 + o mod 4) mod 4))) (seqZ 0 16).

Definition MixColumn (col : list Z) : list Z :=
  map (fun r => foldr (fun j acc => Z.lxor (gf_mul (byte_at [2; 3; 1; 1] ((j - r) mod 4)) (byte_at col j)) acc) 0 (seqZ 0 4))
      (seqZ 0 4).
Definition MixColumns (s : list Z) : list Z :=
  MixColumn (column_at s 0) ++ MixColumn (column_at s 1) ++ MixColumn (column_at s 2) ++ MixColumn (column_at s 3).

(** Key expansion: words are lists of four bytes, [nk] is the number of words
    of the key, and [n] more words follow the ones in [w]. *)
Definition RotWord (w : list Z) : list Z := drop 1 w ++ take 1 w.
Definition SubWord (w : list Z) : list Z := map fips_sbox w.
Definition Rcon (j : nat) : list Z := [Nat.iter (j - 1) (gf_mul 2) 1; 0; 0; 0].

Definition expanded_word (nk i : nat) (w : list (list Z)) : list Z :=
  let temp := default [] (w !! (i - 1)%nat) in
  let temp := if (i mod nk =? 0)%nat then xor (SubWord (RotWord temp)) (Rcon (i / nk))
              else if (6 <? nk)%nat && (i mod nk =? 4)%nat then SubWord temp else temp in
  xor (default [] (w !! (i - nk)%nat)) temp.

Fixpoint KeyExpansion (n nk i : nat) (w : list (list Z)) : list (list Z) :=
  match n with O => w | S n' => KeyExpansion n' nk (S i) (w ++ [expanded_word nk i w]) end.

Definition round_key (w : list (list Z)) (r : nat) : list Z := concat (take 4 (drop (4 * r) w)).

Definition fips_round (w : list (list Z)) (s : list Z) (r : nat) : list Z :=
  xor (MixColumns (ShiftRows (SubBytes s))) (round_key w r).

Definition fips_cipher (key input : list Z) : list Z :=
  let nk := (length key / 4)%nat in
  let nr := (nk + 6)%nat in
  let w := KeyExpansion (4 * (nr + 1) - nk) nk nk (groups (length key) 4 key) in
  let s := xor input (round_key w 0) in
  let s := fold_left (fips_round w) (seq 1 (nr - 1)) s in
  xor (ShiftRows (SubBytes s)) (round_key w nr).

Example fips_cipher_vector : fips_cipher (seqZ 0 16) fips_plaintext
  = [0x69; 0xc4; 0xe0; 0xd8; 0x6a; 0x7b; 0x04; 0x30; 0xd8; 0xcd; 0xb7; 0x80; 0x70; 0xb4; 0xc5; 0x5a].
Proof. vm_compute. reflexivity. Qed.

(** ** Rounds *)

Lemma gf_check : forallb (fun x => (sbox x =? fips_sbox x)
    && (gf_mul 2 x =? aes_double x) && (gf_mul 1 x =? x) && (gf_mul 3 x =? Z.lxor (aes_double x) x)) (seqZ 0 256) = true.
Proof. vm_compute. reflexivity. Qed.

Lemma gf_ok x : byte_ok x ->
  sbox x = fips_sbox x /\ gf_mul 2 x = aes_double x /\ gf_mul 1 x = x /\ gf_mul 3 x = Z.lxor (aes_double x) x.
Proof.
  intros Hx. pose proof (range_check 0 256 _ gf_check x ltac:(unfold byte_ok in Hx; lia)) as H. cbv beta in H.
  rewrite !andb_true_iff, !Z.eqb_eq in H. intuition.
Qed.

Lemma MixColumn_mix col : vec4 col -> MixColumn col = mix_col mix1 col.
Proof.
  intros H. vec4_cases H. rename z into a, z0 into b, z1 into c, z2 into d.
  transitivity (map (fun l => Z.lxor (gf_mul (byte_at l 0) a) (Z.lxor (gf_mul (byte_at l 1) b)
    (Z.lxor (gf_mul (byte_at l 2) c) (Z.lxor (gf_mul (byte_at l 3) d) 0)))) [[2; 3; 1; 1]; [1; 2; 3; 1]; [1; 1; 2; 3]; [3; 1; 1; 2]]);
    [reflexivity|]. cbn [map].
  repeat match goal with |- context [byte_at [?x; ?y; ?z; ?t] ?i] =>
    let v := eval vm_compute in (byte_at [x; y; z; t] i) in change (byte_at [x; y; z; t] i) with v end.
  assert (Hg : forall x, byte_ok x -> gf_mul 2 x = aes_double x /\ gf_mul 1 x = x /\ gf_mul 3 x = Z.lxor (aes_double x) x)
    by (intros; by apply gf_ok).
  rewrite !(fun x Hx => proj1 (Hg x Hx)), !(fun x Hx => proj1 (proj2 (Hg x Hx))), !(fun x Hx => proj2 (proj2 (Hg x Hx))) by done.
  rewrite !Z.lxor_0_r. change (mix_col mix1 [a; b; c; d]) with
    [Z.lxor (Z.lxor (Z.lxor (aes_double a) (Z.lxor (aes_double b) b)) c) d;
     Z.lxor (Z.lxor (Z.lxor a (aes_double b)) (Z.lxor (aes_double c) c)) d;
     Z.lxor (Z.lxor (Z.lxor a b) (aes_double c)) (Z.lxor (aes_double d) d);
     Z.lxor (Z.lxor (Z.lxor (Z.lxor (aes_double a) a) b) c) (aes_double d)].
  rewrite <- !Z.lxor_assoc. reflexivity.
Qed.

Lemma MixColumns_mix m : m16 m -> MixColumns m = mix_columns mix1 m.
Proof. intros Hm. unfold MixColumns, mix_columns. rewrite !MixColumn_mix by (apply column_vec4; [done|lia]). done. Qed.

Lemma shift_sub m : m16 m -> ShiftRows (SubBytes m) = sub_shift sbox AES_STRIDE_SHIFTROWS m.
Proof.
  intros Hm. m16_cases Hm.
  assert (Hs : forall x, byte_ok x -> sbox x = fips_sbox x) by (intros; by apply gf_ok).
  unfold SubBytes. cbn [map]. rewrite <- !Hs by done. reflexivity.
Qed.

(** ** Key expansion *)

Lemma vec4_bytes a b c d : vec4 [a; b; c; d] <-> byte_ok a /\ byte_ok b /\ byte_ok c /\ byte_ok d.
Proof. unfold vec4, bytes_ok. rewrite !Forall_cons, Forall_nil. cbn [length]. tauto. Qed.

Lemma lxor_low x y p q : byte_ok x -> byte_ok y -> Z.lxor (x + 256 * p) (y + 256 * q) = Z.lxor x y + 256 * Z.lxor p q.
Proof.
  intros Hx Hy. pose proof (lxor_byte _ _ Hx Hy) as Hz. unfold byte_ok in *.
  assert (E : forall a b, 0 <= a < 256 -> a + 256 * b = Z.lor (Z.shiftl b 8) a) by (intros; rewrite lor_shiftl_add; lia).
  rewrite !E by done. apply Z.bits_inj'. intros n Hn. rewrite Z.lxor_spec, !Z.lor_spec, Z.lxor_spec.
  destruct (Z_lt_ge_dec n 8).
  - by rewrite !Z.shiftl_spec_low by lia.
  - rewrite !Z.shiftl_spec by lia. rewrite Z.lxor_spec.
    rewrite (testbit_high x 8 n), (testbit_high y 8 n), !orb_false_r by lia. done.
Qed.

Lemma le_word_xor a b : bytes_ok a -> bytes_ok b -> length a = length b ->
  Z.lxor (le_word a) (le_word b) = le_word (xor a b).
Proof.
  intros Ha. revert b. induction Ha as [|x a Hx Ha IH]; intros b Hb Hl; destruct Hb as [|y b Hy Hb]; try discriminate Hl; [done|].
  cbn [le_word foldr xor zip_with]. rewrite lxor_low by done. f_equal. f_equal. apply IH; [done|]. cbn in Hl. lia.
Qed.

Lemma le_bytes_word w : vec4 w -> le_bytes 4 (le_word w) = w.
Proof.
  intros H. vec4_cases H. unfold byte_ok in *. cbn [le_bytes le_word foldr].
  assert (Hm : forall b r, 0 <= b < 256 -> (b + 256 * r) mod 256 = b) by (intros; rewrite Z.mul_comm, Z_mod_plus_full; by apply Z.mod_small).
  assert (Hd : forall b r, 0 <= b < 256 -> (b + 256 * r) / 256 = r) by (intros; rewrite Z.mul_comm, Z_div_plus_full by lia; rewrite Z.div_small; lia).
  rewrite !Hd, !Hm by done. done.
Qed.

Lemma rotate_word a b c d : vec4 [a; b; c; d] -> aes_key_rotate (le_word [a; b; c; d]) = le_word (RotWord [a; b; c; d]).
Proof.
  intros H. apply vec4_bytes in H as (Ha & Hb & Hc & Hd). unfold byte_ok in *. unfold aes_key_rotate, ror32.
  change (RotWord [a; b; c; d]) with [b; c; d; a]. cbn [le_word foldr].
  set (r := b + 256 * (c + 256 * (d + 256 * 0))).
  rewrite (Z.shiftr_div_pow2 _ 8) by lia. replace ((a + 256 * r) / 2 ^ 8) with r by (apply (Z.div_unique _ _ _ a); lia).
  rewrite Z.lor_comm, lor_shiftl_add by lia. unfold u32, uwrap. symmetry. apply (Z.mod_unique _ _ r); lia.
Qed.

Lemma sbox_step a b c d s : vec4 [a; b; c; d] -> byte_ok s ->
  rol32 (Z.lor (Z.land (le_word [a; b; c; d]) (Z.lnot 0xff)) s) 8 = le_word [d; s; b; c].
Proof.
  intros H Hs. apply vec4_bytes in H as (Ha & Hb & Hc & Hd). unfold byte_ok in *. cbn [le_word foldr].
  change 255 with (2 ^ 8 - 1). rewrite land_lnot_ones by lia. set (r := b + 256 * (c + 256 * (d + 256 * 0))).
  replace ((a + 256 * r) mod 2 ^ 8) with a by (apply (Z.mod_unique _ _ r); lia).
  replace (a + 256 * r - a) with (r * 2 ^ 8) by lia. rewrite lor_mul_add by lia. unfold rol32.
  change (32 - 8) with 24. rewrite (Z.shiftr_div_pow2 _ 24) by lia.
  replace ((r * 2 ^ 8 + s) / 2 ^ 24) with d by (apply (Z.div_unique _ _ _ (s + 256 * b + 65536 * c)); unfold r; lia).
  rewrite lor_shiftl_add by lia. unfold u32, uwrap. symmetry. apply (Z.mod_unique _ _ d); unfold r; lia.
Qed.

Lemma sbox_word a b c d : vec4 [a; b; c; d] -> aes_key_sbox (le_word [a; b; c; d]) = le_word (SubWord [a; b; c; d]).
Proof.
  intros H. apply vec4_bytes in H as (Ha & Hb & Hc & Hd).
  assert (Hs : forall x, byte_ok x -> byte_at (entry_at aes_mixcolumns x) 0 = fips_sbox x /\ byte_ok (fips_sbox x)).
  { intros x Hx. destruct (gf_ok x Hx) as (<- & _). split; [done|]. by apply tables_ok. }
  assert (Hl : forall x y z t, byte_ok x -> Z.land (le_word [x; y; z; t]) 255 = x).
  { intros x y z t Hx. change 255 with (2 ^ 8 - 1). rewrite land_ones_mod by lia. unfold byte_ok in Hx. cbn [le_word foldr].
    symmetry. apply (Z.mod_unique _ _ (y + 256 * (z + 256 * (t + 256 * 0)))); lia. }
  pose proof (Hs a ltac:(done)) as [Ea ?]. pose proof (Hs b ltac:(done)) as [Eb ?]. pose proof (Hs c ltac:(done)) as [Ec ?].
  pose proof (Hs d ltac:(done)) as [Ed ?].
  unfold aes_key_sbox. cbn [key_sbox_loop].
  assert (Hv : forall x y z t, byte_ok x -> byte_ok y -> byte_ok z -> byte_ok t -> vec4 [x; y; z; t]).
  { intros. by apply vec4_bytes. }
  rewrite Hl, Ea, sbox_step by auto. rewrite Hl, Ed, sbox_step by auto. rewrite Hl, Ec, sbox_step by auto.
  rewrite Hl, Eb, sbox_step by auto. done.
Qed.

Lemma subword_vec4 w : vec4 w -> vec4 (SubWord w).
Proof.
  intros H. destruct H as [Hb Hl]. split; [|by unfold SubWord; rewrite length_map].
  unfold SubWord, bytes_ok. apply Forall_map. eapply Forall_impl; [exact Hb|]. intros x Hx.
  destruct (gf_ok x Hx) as (<- & _). by apply tables_ok.
Qed.

Lemma rotword_vec4 w : vec4 w -> vec4 (RotWord w).
Proof.
  intros [Hb Hl]. split; [apply Forall_app; split; [by apply Forall_drop|by apply Forall_take]|].
  unfold RotWord. rewrite length_app, length_take, length_drop. lia.
Qed.

Lemma rotate_sub w : vec4 w -> aes_key_rotate (aes_key_sbox (le_word w)) = le_word (SubWord (RotWord w)).
Proof.
  intros H. pose proof (subword_vec4 w H) as Hs. pose proof (proj2 H) as Hl.
  destruct w as [|a [|b [|c [|d [|]]]]]; try discriminate Hl. rewrite sbox_word by done. by apply rotate_word.
Qed.

Lemma sub_word w : vec4 w -> aes_key_sbox (le_word w) = le_word (SubWord w).
Proof.
  intros H. pose proof (proj2 H) as Hl. destruct w as [|a [|b [|c [|d [|]]]]]; try discriminate Hl. by apply sbox_word.
Qed.

#[local] Opaque gf_mul fips_sbox aes_double.

(** The round constant in use at column [i]. *)
Definition rcon_at (nk i : nat) : Z := Nat.iter ((i + nk - 1) / nk - 1) (gf_mul 2) 1.

Lemma gf_mul_byte x : byte_ok x -> byte_ok (gf_mul 2 x).
Proof. intros Hx. destruct (gf_ok x Hx) as (_ & -> & _). by apply double_byte. Qed.

Lemma rcon_byte nk i : byte_ok (rcon_at nk i).
Proof. unfold rcon_at. induction (_ - 1)%nat as [|n IH]; cbn; [unfold byte_ok; lia|by apply gf_mul_byte]. Qed.

(** The tests of the loop, for the three sizes of key. *)
Lemma offset_tests nk m : (nk = 4 \/ nk = 6 \/ nk = 8)%nat -> (m < nk)%nat ->
  (4 * Z.of_nat m =? 0) = (m =? 0)%nat
  /\ (Z.lor (4 * Z.of_nat m) (4 * Z.of_nat nk) =? 48) = ((6 <? nk)%nat && (m =? 4)%nat)
  /\ (4 * Z.of_nat m + 4 =? 4 * Z.of_nat nk) = (S m =? nk)%nat.
Proof.
  intros Hn Hm. destruct Hn as [-> | [-> | ->]]; do 8 (destruct m as [|m]; [vm_compute; done|]); lia.
Qed.

(** Stepping the quotient and remainder. *)
Lemma succ_mod nk i : (0 < nk)%nat -> (S i mod nk = if S (i mod nk) =? nk then 0 else S (i mod nk))%nat.
Proof.
  intros Hn. pose proof (Nat.div_mod_eq i nk). pose proof (Nat.mod_upper_bound i nk ltac:(lia)).
  destruct (Nat.eqb_spec (S (i mod nk)) nk).
  - symmetry. apply (Nat.mod_unique _ _ (S (i / nk))); lia.
  - symmetry. apply (Nat.mod_unique _ _ (i / nk)); lia.
Qed.

Lemma rcon_succ nk i : (0 < nk <= i)%nat ->
  rcon_at nk (S i) = if (i mod nk =? 0)%nat then gf_mul 2 (rcon_at nk i) else rcon_at nk i.
Proof.
  intros Hn. pose proof (Nat.div_mod_eq i nk) as Hd. pose proof (Nat.mod_upper_bound i nk ltac:(lia)).
  assert (1 <= i / nk)%nat by (apply Nat.div_le_lower_bound; lia). unfold rcon_at.
  replace ((S i + nk - 1) / nk)%nat with (S (i / nk)) by (apply (Nat.div_unique _ _ _ (i mod nk)); lia).
  destruct (Nat.eqb_spec (i mod nk) 0) as [E|E].
  - replace ((i + nk - 1) / nk)%nat with (i / nk)%nat by (apply (Nat.div_unique _ _ _ (nk - 1)); lia).
    change (gf_mul 2 (Nat.iter (i / nk - 1) (gf_mul 2) 1)) with (Nat.iter (S (i / nk - 1)) (gf_mul 2) 1). f_equal. lia.
  - replace ((i + nk - 1) / nk)%nat with (S (i / nk)) by (apply (Nat.div_unique _ _ _ (i mod nk - 1)); lia). done.
Qed.

Lemma rcon_now nk i : (0 < nk <= i)%nat -> (i mod nk = 0)%nat -> Rcon (i / nk) = [rcon_at nk i; 0; 0; 0].
Proof.
  intros Hn E. unfold Rcon, rcon_at. pose proof (Nat.div_mod_eq i nk) as Hd.
  replace ((i + nk - 1) / nk)%nat with (i / nk)%nat; [done|]. apply (Nat.div_unique _ _ _ (nk - 1)); lia.
Qed.

Lemma rcon_word w nk i : (0 < nk <= i)%nat -> (i mod nk = 0)%nat -> vec4 w ->
  aes_key_rcon (le_word w) (rcon_at nk i) = le_word (xor w (Rcon (i / nk))) /\ vec4 (xor w (Rcon (i / nk))).
Proof.
  intros Hn E Hw. rewrite (rcon_now nk i) by done. pose proof (rcon_byte nk i) as Hr.
  assert (Hv : vec4 [rcon_at nk i; 0; 0; 0]) by (apply vec4_bytes; unfold byte_ok in *; lia).
  split; [|by apply xor_vec4]. rewrite <- le_word_xor by (apply Hw || apply Hv || by rewrite (proj2 Hw)).
  unfold aes_key_rcon. f_equal. cbn [le_word foldr]. lia.
Qed.

(** One column. *)
Lemma expand_step nk i w last p : (0 < nk <= i)%nat -> w !! (i - 1)%nat = Some last -> w !! (i - nk)%nat = Some p ->
  vec4 last -> vec4 p ->
  let tmp := le_word last in
  let tmp := if (i mod nk =? 0)%nat || ((6 <? nk)%nat && (i mod nk =? 4)%nat) then aes_key_sbox tmp else tmp in
  let tmp := if (i mod nk =? 0)%nat then aes_key_rcon (aes_key_rotate tmp) (rcon_at nk i) else tmp in
  Z.lxor tmp (default 0 (map le_word w !! (i - nk)%nat)) = le_word (expanded_word nk i w) /\ vec4 (expanded_word nk i w).
Proof.
  intros Hi Hlast Hp Vl Vp. cbv zeta.
  assert (Hm : default 0 (map le_word w !! (i - nk)%nat) = le_word p) by (by rewrite list_lookup_fmap, Hp).
  unfold expanded_word. rewrite Hm, Hlast, Hp. cbn [default from_option id].
  assert (Hx : forall t, vec4 t -> Z.lxor (le_word t) (le_word p) = le_word (xor p t) /\ vec4 (xor p t)).
  { intros t Ht. split; [|by apply xor_vec4]. rewrite Z.lxor_comm.
    apply le_word_xor; [apply Vp|apply Ht|by rewrite (proj2 Vp), (proj2 Ht)]. }
  destruct (Nat.eqb_spec (i mod nk) 0) as [E|E]; cbn [orb].
  - rewrite rotate_sub by done. destruct (rcon_word (SubWord (RotWord last)) nk i) as [-> Hv]; try done.
    + by apply subword_vec4, rotword_vec4.
    + by apply Hx.
  - destruct (_ && _); [rewrite sub_word by done; apply Hx; by apply subword_vec4|by apply Hx].
Qed.

Lemma expand_key_args n keylen cols prev prev' tmp tmp' rcon rcon' off off' :
  prev = prev' -> tmp = tmp' -> rcon = rcon' -> off = off' ->
  expand_key n keylen cols prev tmp rcon off = expand_key n keylen cols prev' tmp' rcon' off'.
Proof. by intros -> -> -> ->. Qed.

(** The columns of the code are the words of the standard. *)
Lemma expand_key_fips n nk i w : (nk = 4 \/ nk = 6 \/ nk = 8)%nat -> length w = i -> (nk <= i)%nat -> Forall vec4 w ->
  expand_key n (4 * Z.of_nat nk) (map le_word w) (i - nk) (le_word (default [] (w !! (i - 1)%nat))) (rcon_at nk i)
    (4 * Z.of_nat (i mod nk)) = map le_word (KeyExpansion n nk i w)
  /\ Forall vec4 (KeyExpansion n nk i w).
Proof.
  intros Hnk. revert i w. induction n as [|n IH]; intros i w Hl Hi Hw; [done|].
  destruct (lookup_lt_is_Some_2 w (i - 1)) as [x Hx]; [lia|]. assert (Hxv : vec4 x) by (by eapply Forall_lookup_1).
  destruct (lookup_lt_is_Some_2 w (i - nk)) as [p Hp]; [lia|]. assert (Hpv : vec4 p) by (by eapply Forall_lookup_1).
  destruct (offset_tests nk (i mod nk) Hnk ltac:(apply Nat.mod_upper_bound; lia)) as (T0 & T1 & T2).
  destruct (expand_step nk i w x p ltac:(lia) Hx Hp Hxv Hpv) as [Hs Hv].
  cbn [expand_key KeyExpansion]. rewrite T0, T1, T2, Hx. cbn [default from_option id].
  destruct (IH (S i) (w ++ [expanded_word nk i w])) as [IH1 IH2]; [by rewrite length_app; cbn; lia|lia|by apply Forall_app_2; [|constructor]|].
  split; [|exact IH2]. rewrite <- IH1, map_app. cbn [map]. rewrite Hs.
  apply expand_key_args; [lia| | |].
  - rewrite lookup_app_r by lia. replace (S i - 1 - length w)%nat with 0%nat by lia. reflexivity.
  - rewrite rcon_succ by lia. destruct (i mod nk =? 0)%nat; [|reflexivity]. symmetry. apply gf_ok, rcon_byte.
  - rewrite succ_mod by lia. destruct (S (i mod nk) =? nk)%nat; lia.
Qed.

Lemma le_bytes_words l : Forall vec4 l -> map (le_bytes 4) (map le_word l) = l.
Proof. induction 1 as [|w l Hw Hl IH]; [done|]. cbn [map]. by rewrite le_bytes_word, IH. Qed.

Lemma key_matrices_round n r w : Forall vec4 w ->
  key_matrices n (map le_word (drop (4 * r) w)) = map (round_key w) (seq r n).
Proof.
  intros Hw. revert r. induction n as [|n IH]; intros r; [done|].
  assert (E : key_matrices (S n) (map le_word (drop (4 * r) w)) = concat (map (le_bytes 4) (take 4 (map le_word (drop (4 * r) w))))
    :: key_matrices n (drop 4 (map le_word (drop (4 * r) w)))) by reflexivity.
  rewrite E, <- fmap_take, <- fmap_drop, drop_drop. cbn [seq map]. f_equal.
  - unfold round_key. f_equal. apply le_bytes_words. by apply Forall_take, Forall_drop.
  - replace (4 * r + 4)%nat with (4 * S r)%nat by lia. apply IH.
Qed.

(** The words of the key. *)
Lemma groups_vec4 fuel key k : bytes_ok key -> length key = (4 * k)%nat -> (k <= fuel)%nat -> Forall vec4 (groups fuel 4 key).
Proof.
  revert key k. induction fuel as [|fuel IH]; intros key k Hb Hl Hf; [done|]. destruct k as [|k]; [by destruct key|].
  destruct key as [|x key]; [done|]. cbn [groups]. apply Forall_cons_2.
  - split; [by apply Forall_take|]. rewrite length_take. rewrite Hl. lia.
  - apply (IH _ k); [by apply Forall_drop|rewrite length_drop; lia|lia].
Qed.

Definition fips_words (key : list Z) : list (list Z) :=
  let nk := (length key / 4)%nat in KeyExpansion (4 * (nk + 7) - nk) nk nk (groups (length key) 4 key).

Lemma setkey_words key nk : (nk = 4 \/ nk = 6 \/ nk = 8)%nat -> bytes_ok key -> length key = (4 * nk)%nat ->
  let raw := map le_word (groups (length key) 4 key) in
  expand_key (4 * (nk + 7) - length raw) (zlen key) raw 0 (default 0 (last raw)) 0x01 0 = map le_word (fips_words key)
  /\ Forall vec4 (fips_words key).
Proof.
  intros Hnk Hb Hl raw. unfold fips_words. replace (length key / 4)%nat with nk by (apply (Nat.div_unique _ _ _ 0); lia).
  pose proof (groups_length (length key) 3 key nk Hl ltac:(lia)) as Hg.
  pose proof (groups_vec4 (length key) key nk Hb Hl ltac:(lia)) as Hv. set (gs := groups _ _ _) in *.
  assert (Hlast : default 0 (last raw) = le_word (default [] (gs !! (nk - 1)%nat))).
  { unfold raw. rewrite last_lookup, length_map, list_lookup_fmap, Hg. replace (Nat.pred nk) with (nk - 1)%nat by lia.
    by destruct (gs !! (nk - 1)%nat). }
  assert (Hr : rcon_at nk nk = 1) by (by destruct Hnk as [-> | [-> | ->]]).
  destruct (expand_key_fips (4 * (nk + 7) - nk) nk nk gs Hnk Hg (Nat.le_refl nk) Hv) as [He Hw].
  split; [|exact Hw]. rewrite <- He, Hlast, Hr. unfold raw. rewrite length_map, Hg, Hl, Nat.sub_diag, Nat.Div0.mod_same.
  replace (Z.of_nat (4 * nk)) with (4 * Z.of_nat nk) by lia. reflexivity.
Qed.

Lemma round_keys_split w n : map (round_key w) (seq 0 (n + 2)) = round_key w 0 :: map (round_key w) (seq 1 n) ++ [round_key w (n + 1)].
Proof.
  replace (n + 2)%nat with (S (n + 1)) by lia. cbn [seq map]. rewrite seq_app, map_app. cbn [seq map]. do 4 f_equal. lia.
Qed.

(** The intermediate rounds. *)
Lemma mix_round_fips w rs s : Forall m16 (map (round_key w) rs) -> m16 s ->
  fold_left mix_round (map (round_key w) rs) s = fold_left (fips_round w) rs s.
Proof.
  revert s. induction rs as [|r rs IH]; intros s Hk Hs; [done|]. cbn [map] in Hk. apply Forall_cons in Hk as [Hr Hk].
  cbn [map fold_left]. rewrite IH by (done || by apply mix_round_m16). f_equal. unfold mix_round, fips_round.
  rewrite shift_sub, MixColumns_mix by (done || by apply sub_shift_m16). done.
Qed.

Definition key_size_ok (key : list Z) : Prop := (length key = 16 \/ length key = 24 \/ length key = 32)%nat.

Lemma aes_setkey_words key : bytes_ok key -> key_size_ok key ->
  exists aes, aes_setkey key = Ok aes
    /\ encrypt_key aes = map (round_key (fips_words key)) (seq 0 (length key / 4 + 7)).
Proof.
  intros Hb Hk.
  assert (H : exists nk, (nk = 4 \/ nk = 6 \/ nk = 8)%nat /\ length key = (4 * nk)%nat).
  { destruct Hk as [-> | [-> | ->]]; [exists 4%nat|exists 6%nat|exists 8%nat]; lia. }
  destruct H as (nk & Hnk & Hl). destruct (setkey_words key nk Hnk Hb Hl) as [He Hw].
  replace (length key / 4)%nat with nk by (apply (Nat.div_unique _ _ _ 0); lia).
  rewrite <- (key_matrices_round _ 0 _ Hw). rewrite Nat.mul_0_r, drop_0, <- He.
  unfold aes_setkey. rewrite Hl. eexists.
  destruct Hnk as [-> | [-> | ->]]; split; reflexivity.
Qed.

Lemma aes_setkey_other key : ~ key_size_ok key -> aes_setkey key = Err EINVAL.
Proof.
  intros Hk. unfold aes_setkey, key_size_ok in *. change (128 / 8) with 16. change (192 / 8) with 24. change (256 / 8) with 32.
  rewrite !(proj2 (Z.eqb_neq _ _)) by lia. done.
Qed.

Lemma aes_setkey_ok key : key_size_ok key -> exists aes, aes_setkey key = Ok aes.
Proof. intros Hk. unfold aes_setkey, key_size_ok in *. destruct Hk as [-> | [-> | ->]]; eexists; reflexivity. Qed.

(** AES as a cipher the modes of operation can use: its contexts are the ones
    [aes_setkey] makes. *)
Definition aes_schedule : Type := { aes : aes_context | exists key, aes_setkey key = Ok aes }.

Definition aes_algorithm : cipher_algorithm :=
  {| c_ctx := aes_schedule; c_blocksize := AES_BLOCKSIZE;
     c_encrypt aes b := aes_encrypt (proj1_sig aes) b; c_decrypt aes b := aes_decrypt (proj1_sig aes) b |}.

#[export] Instance aes_block_cipher : BlockCipher aes_algorithm.
Proof.
  constructor.
  - by exists 3%nat.
  - intros [aes [key Hk]] b Hb. destruct (aes_setkey_schedule _ _ Hk) as (k0 & ks & kl & Hs).
    destruct (encrypt_rounds _ _ _ _ _ Hs Hb) as [E Hm]. cbn [c_encrypt proj1_sig aes_algorithm]. rewrite E.
    apply xor_m16; [by apply sub_shift_m16|]. destruct Hs as [_ _ _ _ Hs].
    apply Forall_cons in Hs as [_ Hs]. apply Forall_app in Hs as [_ Hs]. by apply Forall_cons_1 in Hs as [? _].
  - intros [aes [key Hk]] b Hb. destruct (aes_setkey_schedule _ _ Hk) as (k0 & ks & kl & Hs).
    by apply (schedule_decrypts _ _ _ _ _ Hs).
Qed.

(** ** Main theorems *)

(** C32. For every key of 16, 24 or 32 bytes, [aes_setkey] succeeds, and
    [aes_encrypt] with the context it fills in computes on every block exactly
    the cipher FIPS 197 defines for that key: the S-box, row shifts, column
    mixing and key expansion of the table-driven code are those of the
    standard. *)
Theorem aes_encrypt_fips key block : bytes_ok key -> key_size_ok key -> m16 block ->
  exists aes, aes_setkey key = Ok aes /\ aes_encrypt aes block = fips_cipher key block.
Proof.
  intros Hb Hk Hm. destruct (aes_setkey_words key Hb Hk) as (aes & Hs & He). exists aes. split; [done|].
  destruct (aes_setkey_schedule _ _ Hs) as (k0 & ks & kl & Sch). pose proof (encrypt_rounds _ _ _ _ _ Sch Hm) as [-> Hx].
  pose proof (schedule_m16 _ _ _ _ Sch) as Hall. pose proof (schedule_encrypt _ _ _ _ Sch) as E. rewrite He in E.
  unfold fips_cipher. set (nk := (length key / 4)%nat) in *.
  replace (nk + 7)%nat with (nk + 5 + 2)%nat in E by lia. rewrite round_keys_split in E.
  injection E as <- E. apply app_inj_tail in E as [<- <-].
  assert (Ew : KeyExpansion (4 * (nk + 6 + 1) - nk) nk nk (groups (length key) 4 key) = fips_words key).
  { unfold fips_words. fold nk. do 2 f_equal. lia. }
  rewrite Ew. replace (nk + 6 - 1)%nat with (nk + 5)%nat by lia. replace (nk + 5 + 1)%nat with (nk + 6)%nat in * by lia.
  apply Forall_cons in Hall as [H0 Hall]. apply Forall_app in Hall as [Hks _].
  rewrite mix_round_fips in * by (done || by apply xor_m16). by rewrite shift_sub.
Qed.

Lemma aes_encrypt_fips_witness :
  exists aes, aes_setkey (seqZ 0 24) = Ok aes /\ aes_encrypt aes fips_plaintext = fips_cipher (seqZ 0 24) fips_plaintext.
Proof.
  apply (aes_encrypt_fips (seqZ 0 24) fips_plaintext);
    [apply (bool_decide_unpack _); vm_compute; exact I|right; left; reflexivity|].
  split; [apply (bool_decide_unpack _); vm_compute; exact I|reflexivity].
Defined.

(** C33. [aes_setkey] accepts exactly the keys of 16, 24 and 32 bytes and fails
    with [EINVAL] on any other; with the context of an accepted key,
    [aes_decrypt] (other tables, other row shifts, and the key schedule
    inverted by [aes_setkey]) undoes [aes_encrypt] on every block. *)
Theorem aes_decrypt_encrypt key :
  (key_size_ok key /\ exists aes, aes_setkey key = Ok aes /\ forall block, m16 block -> aes_decrypt aes (aes_encrypt aes block) = block)
  \/ (~ key_size_ok key /\ aes_setkey key = Err EINVAL).
Proof.
  destruct (decide (length key = 16 \/ length key = 24 \/ length key = 32)%nat) as [Hk|Hk];
    [left|right; split; [done|by apply aes_setkey_other]].
  split; [done|]. destruct (aes_setkey_ok key Hk) as [aes E]. exists aes. split; [done|]. intros block Hb.
  destruct (aes_setkey_schedule _ _ E) as (k0 & ks & kl & Hs). by apply (schedule_decrypts _ _ _ _ _ Hs).
Qed.

(** NIST SP 800-38A, F.2.1: AES-128 in CBC mode. *)
Definition cbc_key : list Z := [0x2b; 0x7e; 0x15; 0x16; 0x28; 0xae; 0xd2; 0xa6; 0xab; 0xf7; 0x15; 0x88; 0x09; 0xcf; 0x4f; 0x3c].
Definition cbc_plaintext : list Z := [0x6b; 0xc1; 0xbe; 0xe2; 0x2e; 0x40; 0x9f; 0x96; 0xe9; 0x3d; 0x7e; 0x11; 0x73; 0x93; 0x17; 0x2a].

Definition cbc_aes : aes_context :=
  Eval vm_compute in match aes_setkey cbc_key with Ok aes => aes | Err _ => AesContext [] [] 0 end.

Lemma cbc_aes_ok : aes_setkey cbc_key = Ok cbc_aes.
Proof. vm_compute. reflexivity. Qed.

Example aes_cbc_vector :
  fst <$> cbc_encrypt Arch32 aes_algorithm (exist _ cbc_aes (ex_intro _ cbc_key cbc_aes_ok)) cbc_plaintext 0 0 16 (seqZ 0 16)
  = Some [0x76; 0x49; 0xab; 0xac; 0x81; 0x19; 0xb2; 0x46; 0xce; 0xe9; 0x8e; 0x9b; 0x12; 0xe9; 0x19; 0x7d].
Proof. vm_compute. reflexivity. Qed.
