(* ===== verification/Deflate.v ===== *)
(** * DEFLATE decompression ([crypto/deflate.c], [include/ipxe/deflate.h])

    The decompressor is one function with labels, computed jumps and a resume
    point; here every label is a constructor of [label], [deflate_step] is the
    code between a label and the next jump, and [deflate_inflate] follows the
    jumps.  [None] is undefined behaviour: an index outside an array or a
    negative shift count.  A [raw] pointer into the symbols of an alphabet is an
    index.  The input and the output are separate objects; an output buffer
    that is too small is not written beyond its end. *)
From S2P Require Import Prelude Strings Memory.

(** ** Constants *)

Definition DEFLATE_HEADER_BITS : Z := 3.
Definition DEFLATE_HEADER_BFINAL_BIT : Z := 0.
Definition DEFLATE_HEADER_BTYPE_LSB : Z := 1.
Definition DEFLATE_HEADER_BTYPE_LITERAL : Z := 0.
Definition DEFLATE_HEADER_BTYPE_STATIC : Z := 1.
Definition DEFLATE_HEADER_BTYPE_DYNAMIC : Z := 2.
Definition DEFLATE_LITERAL_LEN_BITS : Z := 16.
Definition DEFLATE_DYNAMIC_BITS : Z := 14.
Definition DEFLATE_DYNAMIC_HLIT_LSB : Z := 0.
Definition DEFLATE_DYNAMIC_HLIT_MASK : Z := 0x1f.
Definition DEFLATE_DYNAMIC_HDIST_LSB : Z := 5.
Definition DEFLATE_DYNAMIC_HDIST_MASK : Z := 0x1f.
Definition DEFLATE_DYNAMIC_HCLEN_LSB : Z := 10.
Definition DEFLATE_DYNAMIC_HCLEN_MASK : Z := 0x0f.
Definition DEFLATE_CODELEN_BITS : Z := 3.
Definition DEFLATE_HUFFMAN_BITS : Z := 15.
Definition DEFLATE_HUFFMAN_QL_BITS : Z := 7.
Definition DEFLATE_HUFFMAN_QL_SHIFT : Z := 16 - DEFLATE_HUFFMAN_QL_BITS.
Definition DEFLATE_LITLEN_END : Z := 256.
Definition DEFLATE_LITLEN_MAX_CODE : Z := 287.
Definition DEFLATE_DISTANCE_MAX_CODE : Z := 31.
Definition DEFLATE_CODELEN_MAX_CODE : Z := 18.
Definition ZLIB_HEADER_BITS : Z := 16.
Definition ZLIB_HEADER_CM_LSB : Z := 0.
Definition ZLIB_HEADER_CM_MASK : Z := 0x0f.
Definition ZLIB_HEADER_CM_DEFLATE : Z := 8.
Definition ZLIB_HEADER_FDICT_BIT : Z := 13.
Definition ZLIB_ADLER32_BITS : Z := 32.

(** ** Data *)

Inductive deflate_format := DEFLATE_RAW | DEFLATE_ZLIB.

Inductive label :=
| zlib_header | block_header | literal_block | literal_len | literal_nlen | literal_data
| static_block | dynamic_header | dynamic_codelen | dynamic_litlen_distance | dynamic_litlen_distance_extra
| construct_alphabets | lzhuf_litlen | lzhuf_litlen_extra | lzhuf_distance | lzhuf_distance_extra
| block_done | zlib_footer | zlib_adler32 | finished.

Record deflate_huf_symbols := HufSymbols { hs_bits : Z; hs_shift : Z; hs_freq : Z; hs_start : Z; hs_raw : Z }.

Record deflate_alphabet := Alphabet { al_huf : list deflate_huf_symbols; al_lookup : list Z; al_raw : list Z }.

Record deflate_chunk := Chunk { ck_data : list Z; ck_offset : Z; ck_len : Z }.

#[projections(primitive)] Record deflate := Deflate {
  format : deflate_format;
  resume : option label;
  accumulator : Z;
  rotalumucca : Z;
  bits : Z;
  header : Z;
  remaining : Z;
  length_index : Z;
  length_target : Z;
  cur_length : Z;
  extra_bits : Z;
  dup_len : Z;
  dup_distance : Z;
  litlen : deflate_alphabet;
  litlen_count : Z;
  distance_codelen : deflate_alphabet;
  distance_count : Z;
  lengths : list Z }.

Definition set_resume (v : option label) (d : deflate) : deflate :=
  Deflate (format d) v (accumulator d) (rotalumucca d) (bits d) (header d) (remaining d) (length_index d) (length_target d) (cur_length d) (extra_bits d) (dup_len d) (dup_distance d) (litlen d) (litlen_count d) (distance_codelen d) (distance_count d) (lengths d).
Definition set_accumulator (v : Z) (d : deflate) : deflate :=
  Deflate (format d) (resume d) v (rotalumucca d) (bits d) (header d) (remaining d) (length_index d) (length_target d) (cur_length d) (extra_bits d) (dup_len d) (dup_distance d) (litlen d) (litlen_count d) (distance_codelen d) (distance_count d) (lengths d).
Definition set_rotalumucca (v : Z) (d : deflate) : deflate :=
  Deflate (format d) (resume d) (accumulator d) v (bits d) (header d) (remaining d) (length_index d) (length_target d) (cur_length d) (extra_bits d) (dup_len d) (dup_distance d) (litlen d) (litlen_count d) (distance_codelen d) (distance_count d) (lengths d).
Definition set_bits (v : Z) (d : deflate) : deflate :=
  Deflate (format d) (resume d) (accumulator d) (rotalumucca d) v (header d) (remaining d) (length_index d) (length_target d) (cur_length d) (extra_bits d) (dup_len d) (dup_distance d) (litlen d) (litlen_count d) (distance_codelen d) (distance_count d) (lengths d).
Definition set_header (v : Z) (d : deflate) : deflate :=
  Deflate (format d) (resume d) (accumulator d) (rotalumucca d) (bits d) v (remaining d) (length_index d) (length_target d) (cur_length d) (extra_bits d) (dup_len d) (dup_distance d) (litlen d) (litlen_count d) (distance_codelen d) (distance_count d) (lengths d).
Definition set_remaining (v : Z) (d : deflate) : deflate :=
  Deflate (format d) (resume d) (accumulator d) (rotalumucca d) (bits d) (header d) v (length_index d) (length_target d) (cur_length d) (extra_bits d) (dup_len d) (dup_distance d) (litlen d) (litlen_count d) (distance_codelen d) (distance_count d) (lengths d).
Definition set_length_index (v : Z) (d : deflate) : deflate :=
  Deflate (format d) (resume d) (accumulator d) (rotalumucca d) (bits d) (header d) (remaining d) v (length_target d) (cur_length d) (extra_bits d) (dup_len d) (dup_distance d) (litlen d) (litlen_count d) (distance_codelen d) (distance_count d) (lengths d).
Definition set_length_target (v : Z) (d : deflate) : deflate :=
  Deflate (format d) (resume d) (accumulator d) (rotalumucca d) (bits d) (header d) (remaining d) (length_index d) v (cur_length d) (extra_bits d) (dup_len d) (dup_distance d) (litlen d) (litlen_count d) (distance_codelen d) (distance_count d) (lengths d).
Definition set_cur_length (v : Z) (d : deflate) : deflate :=
  Deflate (format d) (resume d) (accumulator d) (rotalumucca d) (bits d) (header d) (remaining d) (length_index d) (length_target d) v (extra_bits d) (dup_len d) (dup_distance d) (litlen d) (litlen_count d) (distance_codelen d) (distance_count d) (lengths d).
Definition set_extra_bits (v : Z) (d : deflate) : deflate :=
  Deflate (format d) (resume d) (accumulator d) (rotalumucca d) (bits d) (header d) (remaining d) (length_index d) (length_target d) (cur_length d) v (dup_len d) (dup_distance d) (litlen d) (litlen_count d) (distance_codelen d) (distance_count d) (lengths d).
Definition set_dup_len (v : Z) (d : deflate) : deflate :=
  Deflate (format d) (resume d) (accumulator d) (rotalumucca d) (bits d) (header d) (remaining d) (length_index d) (length_target d) (cur_length d) (extra_bits d) v (dup_distance d) (litlen d) (litlen_count d) (distance_codelen d) (distance_count d) (lengths d).
Definition set_dup_distance (v : Z) (d : deflate) : deflate :=
  Deflate (format d) (resume d) (accumulator d) (rotalumucca d) (bits d) (header d) (remaining d) (length_index d) (length_target d) (cur_length d) (extra_bits d) (dup_len d) v (litlen d) (litlen_count d) (distance_codelen d) (distance_count d) (lengths d).
Definition set_litlen (v : deflate_alphabet) (d : deflate) : deflate :=
  Deflate (format d) (resume d) (accumulator d) (rotalumucca d) (bits d) (header d) (remaining d) (length_index d) (length_target d) (cur_length d) (extra_bits d) (dup_len d) (dup_distance d) v (litlen_count d) (distance_codelen d) (distance_count d) (lengths d).
Definition set_litlen_count (v : Z) (d : deflate) : deflate :=
  Deflate (format d) (resume d) (accumulator d) (rotalumucca d) (bits d) (header d) (remaining d) (length_index d) (length_target d) (cur_length d) (extra_bits d) (dup_len d) (dup_distance d) (litlen d) v (distance_codelen d) (distance_count d) (lengths d).
Definition set_distance_codelen (v : deflate_alphabet) (d : deflate) : deflate :=
  Deflate (format d) (resume d) (accumulator d) (rotalumucca d) (bits d) (header d) (remaining d) (length_index d) (length_target d) (cur_length d) (extra_bits d) (dup_len d) (dup_distance d) (litlen d) (litlen_count d) v (distance_count d) (lengths d).
Definition set_distance_count (v : Z) (d : deflate) : deflate :=
  Deflate (format d) (resume d) (accumulator d) (rotalumucca d) (bits d) (header d) (remaining d) (length_index d) (length_target d) (cur_length d) (extra_bits d) (dup_len d) (dup_distance d) (litlen d) (litlen_count d) (distance_codelen d) v (lengths d).
Definition set_lengths (v : list Z) (d : deflate) : deflate :=
  Deflate (format d) (resume d) (accumulator d) (rotalumucca d) (bits d) (header d) (remaining d) (length_index d) (length_target d) (cur_length d) (extra_bits d) (dup_len d) (dup_distance d) (litlen d) (litlen_count d) (distance_codelen d) (distance_count d) v.

Definition set_ck_offset (v : Z) (c : deflate_chunk) : deflate_chunk := Chunk (ck_data c) v (ck_len c).

(** ** Tables *)

(** The bits of a byte in reverse; one iteration per bit. *)
Fixpoint reverse_loop (n : nat) (i bit byte : Z) : Z :=
  match n with
  | O => byte
  | S n' =>
      let byte := u8 (Z.shiftl byte 1) in
      let byte := if negb (Z.land i bit =? 0) then Z.lor byte 1 else byte in
      reverse_loop n' i (u8 (Z.shiftl bit 1)) byte
  end.

(** The entry for zero is left as it is. *)
Definition deflate_reverse : list Z := Eval vm_compute in map (fun i => reverse_loop 8 i 1 0) (seqZ 0 256).

(** [n] base values from index [i] on; every [step] codes the extra bits
    increase. *)
Fixpoint base_values (n : nat) (step i base : Z) : list Z :=
  match n with
  | O => []
  | S n' =>
      let bits := i / step in
      let bits := if negb (bits =? 0) then bits - 1 else bits in
      base :: base_values n' step (i + 1) (base + Z.shiftl 1 bits)
  end.
Definition deflate_litlen_base : list Z := Eval vm_compute in base_values 28 4 0 3.
Definition deflate_distance_base : list Z := Eval vm_compute in base_values 30 2 0 1 ++ [0; 0].

Definition deflate_codelen_map : list Z := [16; 17; 18; 0; 8; 7; 9; 6; 10; 5; 11; 4; 12; 3; 13; 2; 14; 1; 15].

(** Fill value and number of bytes. *)
Definition deflate_static_length_patterns : list (Z * nat) :=
  [(0x88, 72%nat); (0x99, 56%nat); (0x77, 12%nat); (0x88, 4%nat); (0x55, 16%nat)].

(** Element of an array. *)
Definition at_index {A} (l : list A) (i : Z) : option A := if i <? 0 then None else l !! Z.to_nat i.
Definition set_index {A} (l : list A) (i : Z) (v : A) : option (list A) :=
  if (i <? 0) || (zlen l <=? i) then None else Some (<[Z.to_nat i := v]> l).

(** ** Code lengths: two to a byte *)

Definition deflate_set_length (lengths : list Z) (index bits : Z) : option (list Z) :=
  opt! byte := at_index lengths (index / 2) in
  set_index lengths (index / 2) (u8 (Z.lor byte (Z.shiftl bits (4 * (index mod 2))))).

Definition deflate_length (lengths : list Z) (index : Z) : option Z :=
  opt! byte := at_index lengths (index / 2) in
  Some (Z.land (Z.shiftr byte (4 * (index mod 2))) 0x0f).

(** ** Construction of an alphabet *)

Definition empty_huf : list deflate_huf_symbols := replicate 15 (HufSymbols 0 0 0 0 0).

Definition incr_freq (s : deflate_huf_symbols) : deflate_huf_symbols :=
  HufSymbols (hs_bits s) (hs_shift s) (u16 (hs_freq s + 1)) (hs_start s) (hs_raw s).
Definition set_raw (v : Z) (s : deflate_huf_symbols) : deflate_huf_symbols :=
  HufSymbols (hs_bits s) (hs_shift s) (hs_freq s) (hs_start s) v.

(** Count the symbols of each length. *)
Fixpoint count_lengths (n : nat) (raw : Z) (lengths : list Z) (offset : Z) (huf : list deflate_huf_symbols)
  : option (list deflate_huf_symbols) :=
  match n with
  | O => Some huf
  | S n' =>
      opt! bits := deflate_length lengths (raw + offset) in
      let huf := if negb (bits =? 0) then alter incr_freq (Z.to_nat (bits - 1)) huf else huf in
      count_lengths n' (raw + 1) lengths offset huf
  end.

(** Populate the symbol sets from length [bits] on; the second component is
    [None] if there are too many symbols, and otherwise the final code. *)
Fixpoint place_symbols (huf_syms : list deflate_huf_symbols) (bits huf cum_freq : Z)
  : list deflate_huf_symbols * option Z :=
  match huf_syms with
  | [] => ([], Some huf)
  | s :: rest =>
      let shift := 16 - bits in
      let s' := HufSymbols bits shift (hs_freq s) (u32 (Z.shiftl huf shift)) cum_freq in
      let huf := huf + hs_freq s in
      if Z.shiftl 1 bits <? huf then (s' :: rest, None)
      else
        let '(rest', r) := place_symbols rest (bits + 1) (Z.shiftl huf 1) (cum_freq + hs_freq s) in
        (s' :: rest', r)
  end.

(** Populate the raw symbols, each at the raw pointer of its set. *)
Fixpoint place_raw (n : nat) (raw : Z) (lengths : list Z) (offset : Z) (huf : list deflate_huf_symbols) (raws : list Z)
  : option (list deflate_huf_symbols * list Z) :=
  match n with
  | O => Some (huf, raws)
  | S n' =>
      opt! bits := deflate_length lengths (raw + offset) in
      if negb (bits =? 0) then
        opt! s := huf !! Z.to_nat (bits - 1) in
        opt! raws := set_index raws (hs_raw s) raw in
        place_raw n' (raw + 1) lengths offset (<[Z.to_nat (bits - 1) := set_raw (hs_raw s + 1) s]> huf) raws
      else place_raw n' (raw + 1) lengths offset huf raws
  end.

(** Adjust the raw pointers and populate the quick lookup table. *)
Fixpoint adjust_symbols (huf_syms : list deflate_huf_symbols) (bits : Z) (lookup : list Z)
  : list deflate_huf_symbols * list Z :=
  match huf_syms with
  | [] => ([], lookup)
  | s :: rest =>
      let adjustment := Z.shiftr (hs_start s) (hs_shift s) in
      let s' := set_raw (hs_raw s - hs_freq s - adjustment) s in
      let prefix := Z.shiftr (hs_start s) DEFLATE_HUFFMAN_QL_SHIFT in
      let lookup := imap (fun i v => if prefix <=? Z.of_nat i then bits - 1 else v) lookup in
      let '(rest', lookup') := adjust_symbols rest (bits + 1) lookup in
      (s' :: rest', lookup')
  end.

Definition make_alphabet (lengths : list Z) (al : deflate_alphabet) (count offset : Z)
  : option (deflate_alphabet * res unit) :=
  opt! huf := count_lengths (Z.to_nat count) 0 lengths offset empty_huf in
  let '(huf, code) := place_symbols huf 1 0 0 in
  match code with
  | None => Some (Alphabet huf (al_lookup al) (al_raw al), Err EINVAL)
  | Some code =>
      let complete := code =? Z.shiftl 1 16 in
      opt! (huf, raws) := place_raw (Z.to_nat count) 0 lengths offset huf (al_raw al) in
      let '(huf, lookup) := adjust_symbols huf 1 (al_lookup al) in
      Some (Alphabet huf lookup raws, if negb complete then Err EINVAL else Ok tt)
  end.

(** ** Bits from the input *)

(** At most one iteration per byte that is left. *)
Fixpoint accumulate_loop (n : nat) (d : deflate) (in_ : deflate_chunk) (target : Z) : option (deflate * deflate_chunk) :=
  if target <=? bits d then Some (d, in_) else
  match n with
  | O => Some (d, in_)
  | S n' =>
      opt! byte := at_index (ck_data in_) (ck_offset in_) in
      opt! rev := at_index deflate_reverse byte in
      if 24 <? bits d then None else
      let acc := Z.lor (accumulator d) (u32 (Z.shiftl byte (bits d))) in
      let rot := Z.lor (rotalumucca d) (u32 (Z.shiftl rev (24 - bits d))) in
      let d := set_bits (bits d + 8) (set_rotalumucca rot (set_accumulator acc d)) in
      accumulate_loop n' d (set_ck_offset (ck_offset in_ + 1) in_) target
  end.

(** The excess may be negative. *)
Definition deflate_accumulate (d : deflate) (in_ : deflate_chunk) (target : Z) : option (deflate * deflate_chunk * Z) :=
  opt! (d, in_) := accumulate_loop (Z.to_nat (ck_len in_ - ck_offset in_)) d in_ target in
  Some (d, in_, bits d - target).

Definition deflate_consume (d : deflate) (count : Z) : deflate * Z :=
  let data := Z.land (accumulator d) (Z.shiftl 1 count - 1) in
  let d := set_accumulator (Z.shiftr (accumulator d) count) d in
  let d := set_rotalumucca (u32 (Z.shiftl (rotalumucca d) count)) d in
  (set_bits (bits d - count) d, data).

Definition deflate_extract (d : deflate) (in_ : deflate_chunk) (target : Z) : option (deflate * deflate_chunk * Z) :=
  if target =? 0 then Some (d, in_, 0) else
  opt! (d, in_, excess) := deflate_accumulate d in_ target in
  if excess <? 0 then Some (d, in_, excess) else
  let '(d, data) := deflate_consume d target in
  Some (d, in_, data).

(** Step back from a set of symbols to the one of the code. *)
Fixpoint find_symbols (huf_syms : list deflate_huf_symbols) (i : nat) (huf : Z) : option deflate_huf_symbols :=
  opt! s := huf_syms !! i in
  if huf <? hs_start s then match i with O => None | S i' => find_symbols huf_syms i' huf end else Some s.

Definition deflate_decode (d : deflate) (in_ : deflate_chunk) (al : deflate_alphabet)
  : option (deflate * deflate_chunk * Z) :=
  opt! (d, in_, _) := deflate_accumulate d in_ DEFLATE_HUFFMAN_BITS in
  let huf := u16 (Z.shiftr (rotalumucca d) 16) in
  let lookup_index := Z.shiftr huf DEFLATE_HUFFMAN_QL_SHIFT in
  opt! l := at_index (al_lookup al) lookup_index in
  opt! s := find_symbols (al_huf al) (Z.to_nat l) huf in
  let excess := bits d - hs_bits s in
  if excess <? 0 then Some (d, in_, excess) else
  let '(d, _) := deflate_consume d (hs_bits s) in
  opt! raw := at_index (al_raw al) (hs_raw s + Z.shiftr huf (hs_shift s)) in
  Some (d, in_, raw).

Definition deflate_discard_to_byte (d : deflate) : deflate := (deflate_consume d (Z.land (bits d) 7)).1.

(** ** Output *)

(** Copy from [src], or within the output where that is [None], one byte at a
    time. *)
Fixpoint copy_loop (n : nat) (src : option (list Z)) (data : list Z) (out_offset offset : Z) : option (list Z) :=
  match n with
  | O => Some data
  | S n' =>
      opt! byte := at_index (match src with Some s => s | None => data end) offset in
      opt! data := set_index data out_offset byte in
      copy_loop n' src data (out_offset + 1) (offset + 1)
  end.

Section Inflate.
Context (a : arch).

Definition deflate_copy (out : deflate_chunk) (src : option (list Z)) (offset len : Z) : option deflate_chunk :=
  let out_offset := ck_offset out in
  opt! data := (if out_offset <? ck_len out then
                  let copy_len := ck_len out - out_offset in
                  let copy_len := if len <? copy_len then len else copy_len in
                  copy_loop (Z.to_nat copy_len) src (ck_data out) out_offset offset
                else Some (ck_data out)) in
  Some (Chunk data (uwrap (size_bits a) (ck_offset out + len)) (ck_len out)).

(** ** The state machine *)

Inductive jump := Goto (l : label) | Return (rc : res unit).

Abbreviation state := (deflate * deflate_chunk * deflate_chunk)%type (only parsing).

(** Wait for more input at a label. *)
Definition wait_at (l : label) (d : deflate) (in_ out : deflate_chunk) : option (state * jump) :=
  Some (set_resume (Some l) d, in_, out, Return (Ok tt)).
Definition goto (l : label) (d : deflate) (in_ out : deflate_chunk) : option (state * jump) :=
  Some (d, in_, out, Goto l).
Definition return_rc (rc : res unit) (d : deflate) (in_ out : deflate_chunk) : option (state * jump) :=
  Some (d, in_, out, Return rc).

Definition step_zlib_header (d : deflate) (in_ out : deflate_chunk) : option (state * jump) :=
  opt! (d, in_, header) := deflate_extract d in_ ZLIB_HEADER_BITS in
  if header <? 0 then wait_at zlib_header d in_ out else
  let cm := Z.land (Z.shiftr header ZLIB_HEADER_CM_LSB) ZLIB_HEADER_CM_MASK in
  if negb (cm =? ZLIB_HEADER_CM_DEFLATE) then return_rc (Err ENOTSUP) d in_ out else
  if negb (Z.land header (Z.shiftl 1 ZLIB_HEADER_FDICT_BIT) =? 0) then return_rc (Err ENOTSUP) d in_ out else
  goto block_header d in_ out.

Definition step_block_header (d : deflate) (in_ out : deflate_chunk) : option (state * jump) :=
  opt! (d, in_, header) := deflate_extract d in_ DEFLATE_HEADER_BITS in
  if header <? 0 then wait_at block_header d in_ out else
  let d := set_header header d in
  let btype := Z.shiftr header DEFLATE_HEADER_BTYPE_LSB in
  if btype =? DEFLATE_HEADER_BTYPE_LITERAL then goto literal_block d in_ out
  else if btype =? DEFLATE_HEADER_BTYPE_STATIC then goto static_block d in_ out
  else if btype =? DEFLATE_HEADER_BTYPE_DYNAMIC then goto dynamic_header d in_ out
  else return_rc (Err ENOTSUP) d in_ out.

Definition step_literal_len (d : deflate) (in_ out : deflate_chunk) : option (state * jump) :=
  opt! (d, in_, len) := deflate_extract d in_ DEFLATE_LITERAL_LEN_BITS in
  if len <? 0 then wait_at literal_len d in_ out else
  goto literal_nlen (set_remaining len d) in_ out.

Definition step_literal_nlen (d : deflate) (in_ out : deflate_chunk) : option (state * jump) :=
  opt! (d, in_, nlen) := deflate_extract d in_ DEFLATE_LITERAL_LEN_BITS in
  if nlen <? 0 then wait_at literal_nlen d in_ out else
  if negb (Z.land (Z.lxor (remaining d) (Z.lnot nlen)) (Z.shiftl 1 DEFLATE_LITERAL_LEN_BITS - 1) =? 0)
  then return_rc (Err EINVAL) d in_ out
  else goto literal_data d in_ out.

Definition step_literal_data (d : deflate) (in_ out : deflate_chunk) : option (state * jump) :=
  let in_remaining := uwrap (size_bits a) (ck_len in_ - ck_offset in_) in
  let len := if in_remaining <? remaining d then in_remaining else remaining d in
  opt! out := deflate_copy out (Some (ck_data in_)) (ck_offset in_) len in
  let in_ := set_ck_offset (ck_offset in_ + len) in_ in
  let d := set_remaining (remaining d - len) d in
  if negb (remaining d =? 0) then wait_at literal_data d in_ out else goto block_done d in_ out.

(** [memset] of consecutive parts of the lengths. *)
Fixpoint static_lengths (lengths : list Z) (at_ : nat) (patterns : list (Z * nat)) : option (list Z) :=
  match patterns with
  | [] => Some lengths
  | (fill, count) :: rest =>
      if (length lengths <? at_ + count)%nat then None
      else static_lengths (take at_ lengths ++ replicate count fill ++ drop (at_ + count) lengths) (at_ + count) rest
  end.

Definition step_static_block (d : deflate) (in_ out : deflate_chunk) : option (state * jump) :=
  opt! lens := static_lengths (lengths d) 0 deflate_static_length_patterns in
  let d := set_lengths lens d in
  let d := set_litlen_count 288 d in
  let d := set_distance_count 32 d in
  goto construct_alphabets d in_ out.

(** The lengths cleared. *)
Definition zero_lengths (lens : list Z) : list Z := replicate (length lens) 0.

Definition step_dynamic_header (d : deflate) (in_ out : deflate_chunk) : option (state * jump) :=
  opt! (d, in_, header) := deflate_extract d in_ DEFLATE_DYNAMIC_BITS in
  if header <? 0 then wait_at dynamic_header d in_ out else
  let hlit := Z.land (Z.shiftr header DEFLATE_DYNAMIC_HLIT_LSB) DEFLATE_DYNAMIC_HLIT_MASK in
  let hdist := Z.land (Z.shiftr header DEFLATE_DYNAMIC_HDIST_LSB) DEFLATE_DYNAMIC_HDIST_MASK in
  let hclen := Z.land (Z.shiftr header DEFLATE_DYNAMIC_HCLEN_LSB) DEFLATE_DYNAMIC_HCLEN_MASK in
  let d := set_litlen_count (hlit + 257) d in
  let d := set_distance_count (hdist + 1) d in
  let d := set_length_index 0 d in
  let d := set_length_target (hclen + 4) d in
  let d := set_lengths (zero_lengths (lengths d)) d in
  goto dynamic_codelen d in_ out.

(** Extract the code length lengths that are left; [false] if the input ends. *)
Fixpoint codelen_loop (n : nat) (d : deflate) (in_ : deflate_chunk) : option (deflate * deflate_chunk * bool) :=
  match n with
  | O => Some (d, in_, true)
  | S n' =>
      opt! (d, in_, len) := deflate_extract d in_ DEFLATE_CODELEN_BITS in
      if len <? 0 then Some (d, in_, false) else
      opt! index := at_index deflate_codelen_map (length_index d) in
      let d := set_length_index (length_index d + 1) d in
      opt! lens := deflate_set_length (lengths d) index len in
      codelen_loop n' (set_lengths lens d) in_
  end.

Definition step_dynamic_codelen (d : deflate) (in_ out : deflate_chunk) : option (state * jump) :=
  opt! (d, in_, complete) := codelen_loop (Z.to_nat (length_target d - length_index d)) d in_ in
  if negb complete then wait_at dynamic_codelen d in_ out else
  opt! (al, rc) := make_alphabet (lengths d) (distance_codelen d) (DEFLATE_CODELEN_MAX_CODE + 1) 0 in
  let d := set_distance_codelen al d in
  match rc with
  | Err _ => return_rc rc d in_ out
  | Ok _ =>
      let d := set_lengths (zero_lengths (lengths d)) d in
      let d := set_length_index 0 d in
      let d := set_length_target (litlen_count d + distance_count d) d in
      let d := set_cur_length 0 d in
      goto dynamic_litlen_distance d in_ out
  end.

Definition step_dynamic_litlen_distance (d : deflate) (in_ out : deflate_chunk) : option (state * jump) :=
  opt! (d, in_, len) := deflate_decode d in_ (distance_codelen d) in
  if len <? 0 then wait_at dynamic_litlen_distance d in_ out else
  if len <? 16 then
    let d := set_cur_length len d in
    let d := set_extra_bits 0 d in
    let d := set_dup_len 1 d in
    goto dynamic_litlen_distance_extra d in_ out
  else
    let index := len - 16 in
    opt! dup := at_index [3; 3; 11] index in
    opt! extra := at_index [2; 3; 7] index in
    let d := set_dup_len dup d in
    let d := set_extra_bits extra d in
    let d := if negb (index =? 0) then set_cur_length 0 d else d in
    goto dynamic_litlen_distance_extra d in_ out.

(** Store a code length up to [n] times. *)
Fixpoint store_lengths (n : nat) (d : deflate) : option deflate :=
  match n with
  | O => Some d
  | S n' =>
      if negb (length_index d <? length_target d) then Some d else
      opt! lens := deflate_set_length (lengths d) (length_index d) (cur_length d) in
      store_lengths n' (set_lengths lens (set_length_index (length_index d + 1) d))
  end.

Definition step_dynamic_litlen_distance_extra (d : deflate) (in_ out : deflate_chunk) : option (state * jump) :=
  opt! (d, in_, extra) := deflate_extract d in_ (extra_bits d) in
  if extra <? 0 then wait_at dynamic_litlen_distance_extra d in_ out else
  opt! d := store_lengths (Z.to_nat (dup_len d + extra)) d in
  if length_index d <? length_target d then goto dynamic_litlen_distance d in_ out
  else goto construct_alphabets d in_ out.

Definition step_construct_alphabets (d : deflate) (in_ out : deflate_chunk) : option (state * jump) :=
  opt! (al, rc) := make_alphabet (lengths d) (litlen d) (litlen_count d) 0 in
  let distance_offset := litlen_count d in
  let d := set_litlen al d in
  match rc with
  | Err _ => return_rc rc d in_ out
  | Ok _ =>
      let single := distance_count d =? 1 in
      opt! lens := (if single then set_index (lengths d) 0 0x11 else Some (lengths d)) in
      let d := set_lengths lens d in
      opt! (al, rc) := make_alphabet (lengths d) (distance_codelen d) (if single then 2 else distance_count d)
                         (if single then 0 else distance_offset) in
      let d := set_distance_codelen al d in
      match rc with
      | Err _ => return_rc rc d in_ out
      | Ok _ => goto lzhuf_litlen d in_ out
      end
  end.

Definition step_lzhuf_litlen (d : deflate) (in_ out : deflate_chunk) : option (state * jump) :=
  opt! (d, in_, code) := deflate_decode d in_ (litlen d) in
  if code <? 0 then wait_at lzhuf_litlen d in_ out
  else if code <? DEFLATE_LITLEN_END then
    opt! out := deflate_copy out (Some [u8 code]) 0 1 in
    goto lzhuf_litlen d in_ out
  else if code =? DEFLATE_LITLEN_END then goto block_done d in_ out
  else
    let extra := code - DEFLATE_LITLEN_END - 1 in
    if extra <? 28 then
      let bits := extra / 4 in
      let bits := if negb (bits =? 0) then bits - 1 else bits in
      opt! base := at_index deflate_litlen_base extra in
      goto lzhuf_litlen_extra (set_dup_len base (set_extra_bits bits d)) in_ out
    else goto lzhuf_litlen_extra (set_dup_len 258 (set_extra_bits 0 d)) in_ out.

Definition step_lzhuf_litlen_extra (d : deflate) (in_ out : deflate_chunk) : option (state * jump) :=
  opt! (d, in_, extra) := deflate_extract d in_ (extra_bits d) in
  if extra <? 0 then wait_at lzhuf_litlen_extra d in_ out else
  goto lzhuf_distance (set_dup_len (dup_len d + extra) d) in_ out.

Definition step_lzhuf_distance (d : deflate) (in_ out : deflate_chunk) : option (state * jump) :=
  opt! (d, in_, code) := deflate_decode d in_ (distance_codelen d) in
  if code <? 0 then wait_at lzhuf_distance d in_ out else
  let bits := code / 2 in
  let bits := if negb (bits =? 0) then bits - 1 else bits in
  opt! base := at_index deflate_distance_base code in
  goto lzhuf_distance_extra (set_dup_distance base (set_extra_bits bits d)) in_ out.

Definition step_lzhuf_distance_extra (d : deflate) (in_ out : deflate_chunk) : option (state * jump) :=
  opt! (d, in_, extra) := deflate_extract d in_ (extra_bits d) in
  if extra <? 0 then wait_at lzhuf_distance_extra d in_ out else
  let distance := dup_distance d + extra in
  if ck_offset out <? distance then return_rc (Err EINVAL) d in_ out else
  opt! out := deflate_copy out None (ck_offset out - distance) (dup_len d) in
  goto lzhuf_litlen d in_ out.

Definition step_block_done (d : deflate) (in_ out : deflate_chunk) : option (state * jump) :=
  if Z.land (header d) (Z.shiftl 1 DEFLATE_HEADER_BFINAL_BIT) =? 0 then goto block_header d in_ out else
  match format d with DEFLATE_RAW => goto finished d in_ out | DEFLATE_ZLIB => goto zlib_footer d in_ out end.

Definition step_zlib_adler32 (d : deflate) (in_ out : deflate_chunk) : option (state * jump) :=
  opt! (d, in_, excess) := deflate_accumulate d in_ ZLIB_ADLER32_BITS in
  if excess <? 0 then wait_at zlib_adler32 d in_ out else goto finished d in_ out.

(** The code from a label to the next jump. *)
Definition deflate_step (l : label) : deflate -> deflate_chunk -> deflate_chunk -> option (state * jump) :=
  match l with
  | zlib_header => step_zlib_header
  | block_header => step_block_header
  | literal_block => fun d => goto literal_len (deflate_discard_to_byte d)
  | literal_len => step_literal_len
  | literal_nlen => step_literal_nlen
  | literal_data => step_literal_data
  | static_block => step_static_block
  | dynamic_header => step_dynamic_header
  | dynamic_codelen => step_dynamic_codelen
  | dynamic_litlen_distance => step_dynamic_litlen_distance
  | dynamic_litlen_distance_extra => step_dynamic_litlen_distance_extra
  | construct_alphabets => step_construct_alphabets
  | lzhuf_litlen => step_lzhuf_litlen
  | lzhuf_litlen_extra => step_lzhuf_litlen_extra
  | lzhuf_distance => step_lzhuf_distance
  | lzhuf_distance_extra => step_lzhuf_distance_extra
  | block_done => step_block_done
  | zlib_footer => fun d => goto zlib_adler32 (deflate_discard_to_byte d)
  | zlib_adler32 => step_zlib_adler32
  | finished => fun d => return_rc (Ok tt) (set_resume None d)
  end.

Fixpoint run (fuel : nat) (l : label) (d : deflate) (in_ out : deflate_chunk) : option (state * res unit) :=
  match fuel with
  | O => None
  | S fuel' =>
      opt! (s, j) := deflate_step l d in_ out in
      let '(d, in_, out) := s in
      match j with Goto l => run fuel' l d in_ out | Return rc => Some (d, in_, out, rc) end
  end.

Definition entry_label (d : deflate) : label :=
  match resume d with
  | Some l => l
  | None => match format d with DEFLATE_RAW => block_header | DEFLATE_ZLIB => zlib_header end
  end.

(** Bits that are not yet consumed. *)
Definition bits_left (d : deflate) (in_ : deflate_chunk) : Z := bits d + 8 * (ck_len in_ - ck_offset in_).

(** Every round trip through the labels consumes a bit and takes at most
    eight jumps. *)
Definition deflate_inflate (d : deflate) (in_ out : deflate_chunk) : option (state * res unit) :=
  run (Z.to_nat (8 * bits_left d in_) + 8) (entry_label d) d in_ out.
End Inflate.

Definition empty_alphabet (n : nat) : deflate_alphabet := Alphabet empty_huf (replicate 128 0) (replicate n 0).

Definition deflate_init (f : deflate_format) : deflate :=
  Deflate f None 0 0 0 0 0 0 0 0 0 0 0 (empty_alphabet 288) 0 (empty_alphabet 32) 0 (replicate 160 0).

Definition deflate_finished (d : deflate) : bool := match resume d with None => true | Some _ => false end.

(** ** Examples *)

Definition inflate_bytes (f : deflate_format) (data : list Z) (len : nat) : option (list Z * bool * res unit) :=
  opt! (d, _, out, rc) := deflate_inflate Arch64 (deflate_init f) (Chunk data 0 (zlen data)) (Chunk (replicate len 0) 0 (Z.of_nat len)) in
  Some (take (Z.to_nat (ck_offset out)) (ck_data out), deflate_finished d, rc).

(** Fixed codes, a match in a ZLIB stream, and dynamic codes, as compressed by zlib. *)
Example inflate_static : inflate_bytes DEFLATE_RAW [75; 76; 74; 6; 0] 8 = Some ([97; 98; 99], true, Ok tt).
Proof. vm_compute. reflexivity. Qed.

Example inflate_zlib :
  inflate_bytes DEFLATE_ZLIB [120; 218; 75; 76; 74; 78; 132; 33; 0; 29; 224; 4; 153] 12
  = Some (concat (replicate 4 [97; 98; 99]), true, Ok tt).
Proof. vm_compute. reflexivity. Qed.

Definition sample_text : list Z := map (fun i => 65 + ((i * i) mod 7) * ((i * i * i) mod 5)) (seqZ 0 120).
Definition sample_stream : list Z := [5; 193; 177; 17; 0; 48; 12; 2; 177; 217; 222; 152; 203; 81; 80; 120; 255; 101;
   34; 49; 117; 24; 116; 168; 2; 63; 31; 108; 130; 23; 163; 23; 51; 117; 24; 116; 168; 2; 63; 31; 108; 130; 23; 163; 23;
   51; 117; 24; 116; 168; 2; 63; 31; 108; 130; 23; 163; 23; 51; 117; 24; 116; 168; 226; 3].
Example inflate_dynamic : inflate_bytes DEFLATE_RAW sample_stream 120 = Some (sample_text, true, Ok tt).
Proof. vm_compute. reflexivity. Qed.
