(* ===== verification/DeflateSpec.v ===== *)
(** * The DEFLATE format as the decompressor reads it (RFC 1951, RFC 1950)

    What a compressed stream means, written as the standards are and
    independently of the decompressor: bits are taken from a list of booleans,
    Huffman codes are the canonical codes of a list of code lengths, and the
    blocks are decoded one after the other.  Each function takes what follows
    it as a continuation.

    The format is that of the source where it differs from the standards.  The
    reserved codes mean what the source documents: lengths 286 and 287 mean
    258, distances 30 and 31 have base 0 and 14 extra bits; at distance 0 the
    output buffer keeps its contents ([stale]).  Code lengths that are repeated
    beyond the announced number are cut off, and a repetition with no length
    before it repeats zero.  The check value and the window size in the header
    of a ZLIB stream and the value of its checksum are not looked at.  All of
    these only concern streams that the standards do not allow (DeflateRfc.v).
    One kind of block that they do allow is refused: with several announced
    distance codes of which at most one is used. *)
From S2P Require Import Prelude Strings Memory Deflate.

(** ** Bits *)

Definition byte_bits (b : Z) : list bool := map (Z.testbit b) (seqZ 0 8).
Definition bits_of (bytes : list Z) : list bool := bytes ≫= byte_bits.

(** Numbers are stored from the least significant bit, codes from the most
    significant one. *)
Definition lsb_value (bs : list bool) : Z := foldr (fun b acc => Z.b2z b + 2 * acc) 0 bs.
Definition msb_value (bs : list bool) : Z := fold_left (fun acc b => 2 * acc + Z.b2z b) bs 0.

(** ** Canonical Huffman codes (RFC 1951, 3.2.2) *)

Definition bl_count (lens : list nat) (l : nat) : Z := zlen (filter (l =.) lens).

(** The smallest code of a length. *)
Fixpoint first_code (lens : list nat) (l : nat) : Z :=
  match l with
  | O => 0
  | S l' => 2 * (first_code lens l' + match l' with O => 0 | _ => bl_count lens l' end)
  end.

(** The codes of length at most 15 leave nothing unused. *)
Definition complete (lens : list nat) : bool := first_code lens 16 =? 2 ^ 16.

(** Whether the code of symbol [n] is a prefix of the bits. *)
Definition is_code (lens : list nat) (bs : list bool) (n : nat) : bool :=
  match lens !! n with
  | None => false
  | Some l => (0 <? l)%nat && (l <=? length bs)%nat
              && (msb_value (take l bs) =? first_code lens l + bl_count (take n lens) l)
  end.

Definition huff (lens : list nat) (bs : list bool) : option (nat * list bool) :=
  opt! n := List.find (is_code lens bs) (seq 0 (length lens)) in
  Some (n, drop (default 0%nat (lens !! n)) bs).

(** ** Lengths and distances (RFC 1951, 3.2.5) *)

(** Base value and number of extra bits. *)
Definition length_codes : list (Z * nat) :=
  zip
    [3; 4; 5; 6; 7; 8; 9; 10; 11; 13; 15; 17; 19; 23; 27; 31; 35; 43; 51; 59; 67; 83; 99; 115; 131; 163; 195; 227;
     258; 258; 258]
    [0; 0; 0; 0; 0; 0; 0; 0; 1; 1; 1; 1; 2; 2; 2; 2; 3; 3; 3; 3; 4; 4; 4; 4; 5; 5; 5; 5; 0; 0; 0]%nat.

Definition distance_codes : list (Z * nat) :=
  zip
    [1; 2; 3; 4; 5; 7; 9; 13; 17; 25; 33; 49; 65; 97; 129; 193; 257; 385; 513; 769; 1025; 1537; 2049; 3073; 4097;
     6145; 8193; 12289; 16385; 24577; 0; 0]
    [0; 0; 0; 0; 1; 1; 2; 2; 3; 3; 4; 4; 5; 5; 6; 6; 7; 7; 8; 8; 9; 9; 10; 10; 11; 11; 12; 12; 13; 13; 14; 14]%nat.

(** ** Blocks *)

(** The stream ends, or more input is needed, or the stream is refused; with
    the output so far. *)
Inductive verdict := Done (out : list Z) | Short (out : list Z) | Bad (e : errno) (out : list Z).

Definition v_out (v : verdict) : list Z := match v with Done out | Short out | Bad _ out => out end.

(** Continue with the value of the next [n] bits, or with the next symbol. *)
Definition with_bits (n : nat) (out : list Z) (bs : list bool) (k : Z -> list bool -> verdict) : verdict :=
  if (length bs <? n)%nat then Short out else k (lsb_value (take n bs)) (drop n bs).
Definition with_symbol (lens : list nat) (out : list Z) (bs : list bool) (k : nat -> list bool -> verdict) : verdict :=
  match huff lens bs with None => Short out | Some (n, bs) => k n bs end.

Section Format.
Context (f : deflate_format) (stale : nat -> Z).

Abbreviation kont := (list Z -> list bool -> verdict) (only parsing).

(** Bits up to the next byte boundary are skipped; the whole stream consists of
    bytes. *)
Definition align (bs : list bool) : list bool := drop (length bs mod 8) bs.

Fixpoint stored_data (n : nat) (k : kont) (out : list Z) (bs : list bool) : verdict :=
  match n with
  | O => k out bs
  | S n' => with_bits 8 out bs (fun b bs => stored_data n' k (out ++ [b]) bs)
  end.
Definition stored_nlen (len : Z) (k : kont) (out : list Z) (bs : list bool) : verdict :=
  with_bits 16 out bs (fun nlen bs => if nlen + len =? 65535 then stored_data (Z.to_nat len) k out bs else Bad EINVAL out).
Definition stored_len (k : kont) (out : list Z) (bs : list bool) : verdict :=
  with_bits 16 out bs (fun len bs => stored_nlen len k out bs).

Fixpoint copy_match (n : nat) (distance : Z) (out : list Z) : list Z :=
  match n with
  | O => out
  | S n' =>
      let b := if distance =? 0 then stale (length out) else default 0 (out !! Z.to_nat (zlen out - distance)) in
      copy_match n' distance (out ++ [b])
  end.

Definition distance_extra (len base : Z) (extra : nat) (loop : kont) (out : list Z) (bs : list bool) : verdict :=
  with_bits extra out bs (fun v bs =>
    if zlen out <? base + v then Bad EINVAL out else loop (copy_match (Z.to_nat len) (base + v) out) bs).
Definition distance (dl : list nat) (len : Z) (loop : kont) (out : list Z) (bs : list bool) : verdict :=
  with_symbol dl out bs (fun c bs =>
    let '(base, extra) := default (0, 0%nat) (distance_codes !! c) in distance_extra len base extra loop out bs).
Definition length_extra (dl : list nat) (base : Z) (extra : nat) (loop : kont) (out : list Z) (bs : list bool) : verdict :=
  with_bits extra out bs (fun v bs => distance dl (base + v) loop out bs).

(** Literals and matches up to the end-of-block code. *)
Fixpoint codes (fuel : nat) (ll dl : list nat) (k : kont) (out : list Z) (bs : list bool) : verdict :=
  match fuel with
  | O => Short out
  | S fuel' =>
      with_symbol ll out bs (fun c bs =>
        if (c <? 256)%nat then codes fuel' ll dl k (out ++ [Z.of_nat c]) bs
        else if (c =? 256)%nat then k out bs
        else let '(base, extra) := default (0, 0%nat) (length_codes !! (c - 257)%nat) in
             length_extra dl base extra (codes fuel' ll dl k) out bs)
  end.

(** A block with the given code lengths; a single distance code takes one bit. *)
Definition coded_block (lens : list nat) (hlit : nat) (k : kont) (out : list Z) (bs : list bool) : verdict :=
  let ll := take hlit lens in
  let dl := drop hlit lens in
  let dl := if (length dl =? 1)%nat then [1; 1]%nat else dl in
  if complete ll && complete dl then codes (S (length bs)) ll dl k out bs else Bad EINVAL out.

Definition fixed_lengths : list nat :=
  replicate 144 8%nat ++ replicate 112 9%nat ++ replicate 24 7%nat ++ replicate 8 8%nat ++ replicate 32 5%nat.

(** Repeat a length [base] times or more, but not beyond the [target] lengths
    that were announced. *)
Definition repeat_length (target : nat) (lens : list nat) (value base extra : nat) (loop : list nat -> list bool -> verdict)
  (out : list Z) (bs : list bool) : verdict :=
  with_bits extra out bs (fun v bs => loop (lens ++ take (target - length lens) (replicate (base + Z.to_nat v) value)) bs).

(** The lengths of the literal/length and distance codes. *)
Fixpoint code_lengths (fuel : nat) (cl : list nat) (hlit target : nat) (k : kont) (out : list Z) (lens : list nat)
  (bs : list bool) : verdict :=
  if (target <=? length lens)%nat then coded_block lens hlit k out bs else
  match fuel with
  | O => Short out
  | S fuel' =>
      with_symbol cl out bs (fun c bs =>
        let loop := code_lengths fuel' cl hlit target k out in
        if (c <? 16)%nat then repeat_length target lens c 1 0 loop out bs
        else if (c =? 16)%nat then repeat_length target lens (default 0%nat (last lens)) 3 2 loop out bs
        else if (c =? 17)%nat then repeat_length target lens 0 3 3 loop out bs
        else repeat_length target lens 0 11 7 loop out bs)
  end.

Definition codelen_order : list nat := [16; 17; 18; 0; 8; 7; 9; 6; 10; 5; 11; 4; 12; 3; 13; 2; 14; 1; 15]%nat.

(** The lengths of the code length codes, from the ones read so far. *)
Definition codelen_lengths (acc : list nat) : list nat :=
  map (fun s => match list_find (s =.) codelen_order with Some (i, _) => default 0%nat (acc !! i) | None => 0%nat end) (seq 0 19).

Fixpoint codelen_codes (n : nat) (acc : list nat) (hlit hdist : nat) (k : kont) (out : list Z) (bs : list bool) : verdict :=
  match n with
  | O =>
      let cl := codelen_lengths acc in
      if complete cl then code_lengths (S (length bs)) cl hlit (hlit + hdist) k out [] bs else Bad EINVAL out
  | S n' => with_bits 3 out bs (fun v bs => codelen_codes n' (acc ++ [Z.to_nat v]) hlit hdist k out bs)
  end.

Definition dynamic_block (k : kont) (out : list Z) (bs : list bool) : verdict :=
  with_bits 14 out bs (fun h bs =>
    codelen_codes (Z.to_nat (h / 1024) + 4) [] (Z.to_nat (h mod 32) + 257) (Z.to_nat (h / 32 mod 32) + 1) k out bs).

Definition footer (out : list Z) (bs : list bool) : verdict :=
  match f with
  | DEFLATE_RAW => Done out
  | DEFLATE_ZLIB => if (length (align bs) <? 32)%nat then Short out else Done out
  end.

(** After a block with header [h]. *)
Definition block_end (h : Z) (loop : kont) (out : list Z) (bs : list bool) : verdict :=
  if Z.odd h then footer out bs else loop out bs.

Fixpoint blocks (fuel : nat) (out : list Z) (bs : list bool) : verdict :=
  match fuel with
  | O => Short out
  | S fuel' =>
      with_bits 3 out bs (fun h bs =>
        let k := block_end h (blocks fuel') in
        if h / 2 =? 0 then stored_len k out (align bs)
        else if h / 2 =? 1 then coded_block fixed_lengths 288 k out bs
        else if h / 2 =? 2 then dynamic_block k out bs
        else Bad ENOTSUP out)
  end.

Definition zlib_stream (out : list Z) (bs : list bool) : verdict :=
  with_bits 16 out bs (fun h bs =>
    if negb (h mod 16 =? 8) || Z.testbit h 13 then Bad ENOTSUP out else blocks (S (length bs)) out bs).

(** The meaning of a stream whose output follows [out]. *)
Definition inflate_spec (out : list Z) (bs : list bool) : verdict :=
  match f with DEFLATE_RAW => blocks (S (length bs)) out bs | DEFLATE_ZLIB => zlib_stream out bs end.
End Format.

Example inflate_spec_dynamic :
  inflate_spec DEFLATE_RAW (fun _ => 0) [] (bits_of sample_stream) = Done sample_text.
Proof. vm_compute. reflexivity. Qed.
