(* ===== verification/DeflateRfc.v ===== *)
(** * Valid compressed streams (RFC 1951, RFC 1950)

    DeflateSpec.v describes the format as the source reads it, with what the
    source makes of streams that the standards do not allow.  [rfc_inflate] is
    the output of a stream that the standards do allow, and [None] for any
    other: no reserved code is used, no length is repeated beyond the number
    that was announced or without a length before it, there are at most 286
    literal/length and 30 distance codes, the header of a ZLIB stream has a
    right check value and window size, and its Adler-32 checksum is right.
    The one kind of valid stream that the source refuses can be excluded: a
    block that announces several distance codes and uses at most one of them
    ([several = false]).  [rfc_inflate_read] shows that DeflateSpec.v gives all
    other valid streams their meaning. *)
From S2P Require Import Prelude Strings Memory Deflate DeflateSpec.

Section Rfc.
(** Whether several distance codes may be announced with at most one in use. *)
Context (several : bool) (f : deflate_format).

Abbreviation rfc_kont := (list Z -> list bool -> option (list Z)) (only parsing).

Definition take_bits {A} (n : nat) (bs : list bool) (k : Z -> list bool -> option A) : option A :=
  if (length bs <? n)%nat then None else k (lsb_value (take n bs)) (drop n bs).
Definition take_symbol {A} (lens : list nat) (bs : list bool) (k : nat -> list bool -> option A) : option A :=
  opt! (n, bs) := huff lens bs in k n bs.

Fixpoint rfc_stored (n : nat) (k : rfc_kont) (out : list Z) (bs : list bool) : option (list Z) :=
  match n with
  | O => k out bs
  | S n' => take_bits 8 bs (fun b bs => rfc_stored n' k (out ++ [b]) bs)
  end.

(** [n] bytes from [distance] bytes back, which may be among those copied. *)
Fixpoint rfc_copy (n distance : nat) (out : list Z) : option (list Z) :=
  match n with
  | O => Some out
  | S n' => opt! b := out !! (length out - distance)%nat in rfc_copy n' distance (out ++ [b])
  end.

(** Literals, and matches with the length codes 257 to 285 (284 stops at 257)
    and the distance codes 0 to 29. *)
Fixpoint rfc_codes (fuel : nat) (ll dl : list nat) (k : rfc_kont) (out : list Z) (bs : list bool) : option (list Z) :=
  match fuel with
  | O => None
  | S fuel' =>
      take_symbol ll bs (fun c bs =>
        if (c <? 256)%nat then rfc_codes fuel' ll dl k (out ++ [Z.of_nat c]) bs
        else if (c =? 256)%nat then k out bs
        else if (285 <? c)%nat then None else
        opt! (base, extra) := length_codes !! (c - 257)%nat in
        take_bits extra bs (fun v bs =>
          if (c =? 284)%nat && (v =? 31) then None else
          take_symbol dl bs (fun d bs =>
            if (29 <? d)%nat then None else
            opt! (dbase, dextra) := distance_codes !! d in
            take_bits dextra bs (fun w bs =>
              if zlen out <? dbase + w then None else
              opt! out := rfc_copy (Z.to_nat (base + v)) (Z.to_nat (dbase + w)) out in
              rfc_codes fuel' ll dl k out bs))))
  end.

(** The distance codes are complete, or a single one is used and has one bit,
    or none is used. *)
Definition rfc_distances (dl : list nat) : bool :=
  complete dl
  || (several || (length dl =? 1)%nat) && bool_decide (filter (fun l => l <> 0%nat) dl = [1%nat] \/ filter (fun l => l <> 0%nat) dl = []).

Definition rfc_block (lens : list nat) (hlit : nat) (k : rfc_kont) (out : list Z) (bs : list bool) : option (list Z) :=
  let ll := take hlit lens in
  let dl := drop hlit lens in
  if complete ll && rfc_distances dl then rfc_codes (S (length bs)) ll dl k out bs else None.

Definition rfc_repeat (target : nat) (lens : list nat) (value base extra : nat) (bs : list bool)
  (loop : list nat -> list bool -> option (list Z)) : option (list Z) :=
  take_bits extra bs (fun v bs =>
    let lens := lens ++ replicate (base + Z.to_nat v) value in
    if (target <? length lens)%nat then None else loop lens bs).

Fixpoint rfc_lengths (fuel : nat) (cl : list nat) (hlit target : nat) (k : rfc_kont) (out : list Z) (lens : list nat)
  (bs : list bool) : option (list Z) :=
  if (length lens =? target)%nat then rfc_block lens hlit k out bs else
  match fuel with
  | O => None
  | S fuel' =>
      take_symbol cl bs (fun c bs =>
        let loop := rfc_lengths fuel' cl hlit target k out in
        if (c <? 16)%nat then rfc_repeat target lens c 1 0 bs loop
        else if (c =? 16)%nat then opt! l := last lens in rfc_repeat target lens l 3 2 bs loop
        else if (c =? 17)%nat then rfc_repeat target lens 0 3 3 bs loop
        else rfc_repeat target lens 0 11 7 bs loop)
  end.

Fixpoint rfc_codelens (n : nat) (acc : list nat) (hlit hdist : nat) (k : rfc_kont) (out : list Z) (bs : list bool)
  : option (list Z) :=
  match n with
  | O =>
      let cl := codelen_lengths acc in
      if complete cl then rfc_lengths (S (length bs)) cl hlit (hlit + hdist) k out [] bs else None
  | S n' => take_bits 3 bs (fun v bs => rfc_codelens n' (acc ++ [Z.to_nat v]) hlit hdist k out bs)
  end.

Definition rfc_dynamic (k : rfc_kont) (out : list Z) (bs : list bool) : option (list Z) :=
  take_bits 5 bs (fun hlit bs => take_bits 5 bs (fun hdist bs => take_bits 4 bs (fun hclen bs =>
    if (29 <? hlit) || (29 <? hdist) then None else
    rfc_codelens (Z.to_nat hclen + 4) [] (Z.to_nat hlit + 257) (Z.to_nat hdist + 1) k out bs))).

(** The checksum of RFC 1950, with the two sums in one number. *)
Definition adler32 (out : list Z) : Z :=
  let '(s1, s2) := fold_left (fun s b => let s1 := (s.1 + b) mod 65521 in (s1, (s.2 + s1) mod 65521)) out (1, 0) in
  s2 * 65536 + s1.

Definition rfc_footer (out : list Z) (bs : list bool) : option (list Z) :=
  match f with
  | DEFLATE_RAW => Some out
  | DEFLATE_ZLIB =>
      take_bits 8 (align bs) (fun b3 bs => take_bits 8 bs (fun b2 bs => take_bits 8 bs (fun b1 bs => take_bits 8 bs (fun b0 bs =>
        if be_val [b3; b2; b1; b0] =? adler32 out then Some out else None))))
  end.

Fixpoint rfc_blocks (fuel : nat) (out : list Z) (bs : list bool) : option (list Z) :=
  match fuel with
  | O => None
  | S fuel' =>
      take_bits 1 bs (fun final bs => take_bits 2 bs (fun type bs =>
        let k out bs := if final =? 1 then rfc_footer out bs else rfc_blocks fuel' out bs in
        if type =? 0 then
          take_bits 16 (align bs) (fun len bs => take_bits 16 bs (fun nlen bs =>
            if nlen =? 65535 - len then rfc_stored (Z.to_nat len) k out bs else None))
        else if type =? 1 then rfc_block fixed_lengths 288 k out bs
        else if type =? 2 then rfc_dynamic k out bs
        else None))
  end.

(** CM, CINFO, FCHECK and FDICT. *)
Definition rfc_zlib (bs : list bool) : option (list Z) :=
  take_bits 8 bs (fun cmf bs => take_bits 8 bs (fun flg bs =>
    if (cmf mod 16 =? 8) && (cmf / 16 <=? 7) && ((cmf * 256 + flg) mod 31 =? 0) && negb (Z.testbit flg 5)
    then rfc_blocks (S (length bs)) [] bs else None)).

Definition rfc_inflate (bs : list bool) : option (list Z) :=
  match f with DEFLATE_RAW => rfc_blocks (S (length bs)) [] bs | DEFLATE_ZLIB => rfc_zlib bs end.
End Rfc.

(** ** Valid streams in DeflateSpec.v *)

Lemma lsb_range bs : 0 <= lsb_value bs < 2 ^ zlen bs.
Proof.
  induction bs as [|b bs IH]; [cbn; lia|]. unfold lsb_value in *. cbn [foldr length].
  rewrite Nat2Z.inj_succ, Z.pow_succ_r by lia. destruct b; cbn [Z.b2z]; lia.
Qed.

Lemma lsb_app bs bs' : lsb_value (bs ++ bs') = lsb_value bs + 2 ^ zlen bs * lsb_value bs'.
Proof.
  induction bs as [|b bs IH]; [cbn [app length Z.of_nat]; change (lsb_value []) with 0; lia|]. unfold lsb_value in *. cbn [foldr app length].
  rewrite IH, Nat2Z.inj_succ, Z.pow_succ_r by lia. lia.
Qed.

(** Two numbers read one after the other are one number. *)
Lemma take_bits_seq {A} n m bs (k : Z -> Z -> list bool -> option A) :
  take_bits n bs (fun v bs => take_bits m bs (fun w bs => k v w bs))
  = take_bits (n + m) bs (fun h bs => k (h mod 2 ^ Z.of_nat n) (h / 2 ^ Z.of_nat n) bs).
Proof.
  unfold take_bits. destruct (Nat.ltb_spec (length bs) n) as [H1|H1]; [by rewrite (proj2 (Nat.ltb_lt _ _)) by lia|].
  rewrite length_drop. destruct (Nat.ltb_spec (length bs - n) m) as [H2|H2]; [by rewrite (proj2 (Nat.ltb_lt _ _)) by lia|].
  rewrite (proj2 (Nat.ltb_ge _ _)) by lia. rewrite drop_drop, <- take_take_drop, lsb_app.
  pose proof (lsb_range (take n bs)) as Hr. rewrite !(length_take_le bs n) in * by lia.
  set (x := lsb_value (take n bs)) in *. set (y := lsb_value (take m (drop n bs))).
  rewrite <- (Z.mod_unique_pos _ _ y x), <- (Z.div_unique_pos _ _ y x) by lia. done.
Qed.

Section Read.
Context (f : deflate_format) (st : nat -> Z).

(** A continuation gives every valid stream its meaning. *)
Definition reads (ks : list Z -> list bool -> option (list Z)) (k : list Z -> list bool -> verdict) : Prop :=
  forall out bs r, ks out bs = Some r -> k out bs = Done r.

Lemma take_bits_read n out bs r (ks : Z -> list bool -> option (list Z)) k :
  (forall v bs, 0 <= v -> ks v bs = Some r -> k v bs = Done r) -> take_bits n bs ks = Some r -> with_bits n out bs k = Done r.
Proof. intros H. unfold take_bits, with_bits. case_if; [done|]. apply H, lsb_range. Qed.

Lemma take_symbol_read lens lens' out bs r (ks : nat -> list bool -> option (list Z)) k :
  (forall bs c bs', huff lens bs = Some (c, bs') -> huff lens' bs = Some (c, bs')) ->
  (forall c bs, ks c bs = Some r -> k c bs = Done r) -> take_symbol lens bs ks = Some r -> with_symbol lens' out bs k = Done r.
Proof.
  intros Hl H. unfold take_symbol, with_symbol. destruct (huff lens bs) as [[c bs']|] eqn:E; [|done]. rewrite (Hl _ _ _ E). apply H.
Qed.

Lemma rfc_stored_read n ks k : reads ks k -> reads (rfc_stored n ks) (stored_data n k).
Proof.
  intros Hk. induction n as [|n IH]; intros out bs r; cbn [rfc_stored stored_data]; [apply Hk|].
  apply take_bits_read. intros v bs' _. apply IH.
Qed.

Lemma rfc_copy_read n d out out' : (0 < d)%nat -> rfc_copy n d out = Some out' -> copy_match st n (Z.of_nat d) out = out'.
Proof.
  intros Hd. revert out. induction n as [|n IH]; intros out; cbn [rfc_copy copy_match]; [by intros [= ->]|].
  destruct (out !! (length out - d)%nat) as [b|] eqn:E; [|done]. rewrite (proj2 (Z.eqb_neq _ _)) by lia.
  replace (Z.to_nat (zlen out - Z.of_nat d)) with (length out - d)%nat by lia. rewrite E. apply IH.
Qed.

Lemma distance_codes_pos d base extra : (d <= 29)%nat -> distance_codes !! d = Some (base, extra) -> 0 < base.
Proof.
  intros Hd E. assert (H : forallb (fun p => 0 <? p.1) (take 30 distance_codes) = true) by reflexivity.
  rewrite forallb_forall in H. specialize (H (base, extra)). apply Z.ltb_lt, H, list_elem_of_In, (list_elem_of_lookup_2 _ d).
  by rewrite lookup_take_lt by lia.
Qed.

Lemma rfc_codes_read fuel ll dl dl' ks k : reads ks k ->
  (forall bs c bs', huff dl bs = Some (c, bs') -> huff dl' bs = Some (c, bs')) ->
  reads (rfc_codes fuel ll dl ks) (codes st fuel ll dl' k).
Proof.
  intros Hk Hdl. induction fuel as [|fuel IH]; intros out bs r; cbn [rfc_codes codes]; [done|].
  apply take_symbol_read; [done|]. intros c bs1. case_if; [apply IH|]. case_if; [apply Hk|]. case_if; [done|].
  destruct (length_codes !! (c - 257)%nat) as [[base extra]|]; [|done]. cbn [default from_option id].
  apply take_bits_read. intros v bs2 Hv. case_if; [done|]. unfold distance. apply take_symbol_read; [done|].
  intros d bs3. destruct (Nat.ltb_spec 29 d); [done|]. destruct (distance_codes !! d) as [[dbase dextra]|] eqn:Ed; [|done].
  cbn [default from_option id]. apply take_bits_read. intros w bs4 Hw.
  destruct (Z.ltb_spec (zlen out) (dbase + w)) as [|Hd]; [done|]. pose proof (distance_codes_pos d dbase dextra ltac:(lia) Ed).
  destruct (rfc_copy _ _ out) as [out1|] eqn:Ec; [|done]. apply rfc_copy_read in Ec; [|lia].
  rewrite Z2Nat.id in Ec by lia. rewrite Ec. apply IH.
Qed.

Lemma incomplete_single l : complete [l] = false.
Proof.
  destruct (le_lt_dec 16 l) as [Hl|Hl].
  - assert (H : forall n, (n <= 16)%nat -> first_code [l] n = 0).
    { induction n as [|n IH]; intros Hn; [done|]. cbn [first_code]. rewrite IH by lia. destruct n; [done|].
      unfold bl_count. rewrite filter_cons_False, filter_nil by lia. done. }
    unfold complete. by rewrite H.
  - do 16 (destruct l as [|l]; [reflexivity|]). lia.
Qed.

(** The codes of the distances, with those the source puts in place of a single
    announced one. *)
Lemma rfc_distances_read dl : rfc_distances false dl = true ->
  let dl' := if (length dl =? 1)%nat then [1; 1]%nat else dl in
  complete dl' = true /\ forall bs c bs', huff dl bs = Some (c, bs') -> huff dl' bs = Some (c, bs').
Proof.
  unfold rfc_distances. cbn [orb]. destruct (Nat.eqb_spec (length dl) 1) as [E1|]; [|rewrite orb_false_r; done].
  destruct dl as [|l [|? ?]]; try discriminate E1. intros H. split; [reflexivity|].
  assert (Hl : l = 1%nat \/ l = 0%nat).
  { apply orb_prop in H as [H|H].
    - exfalso. by rewrite incomplete_single in H.
    - apply bool_decide_eq_true in H. destruct l as [|[|l]]; cbn in H; [by right|by left|]. destruct H as [[=]|[=]]. }
  destruct Hl as [-> | ->]; intros bs c bs' E.
  - destruct bs as [|[] bs]; vm_compute in E; try done.
  - destruct bs as [|[] bs]; vm_compute in E; done.
Qed.

Lemma rfc_block_read lens hlit ks k : reads ks k -> reads (rfc_block false lens hlit ks) (coded_block st lens hlit k).
Proof.
  intros Hk out bs r. unfold rfc_block, coded_block. destruct (complete (take hlit lens)); [|done]. cbn [andb].
  destruct (rfc_distances false (drop hlit lens)) eqn:Ed; [|done]. destruct (rfc_distances_read _ Ed) as [-> Hh]. by apply rfc_codes_read.
Qed.

Lemma rfc_repeat_read target lens value base extra out bs r loops loop : (length lens <= target)%nat ->
  (forall lens bs, (length lens <= target)%nat -> loops lens bs = Some r -> loop lens bs = Done r) ->
  rfc_repeat target lens value base extra bs loops = Some r -> repeat_length target lens value base extra loop out bs = Done r.
Proof.
  intros Hl H. unfold rfc_repeat, repeat_length. apply take_bits_read. intros v bs' _.
  destruct (Nat.ltb_spec target (length (lens ++ replicate (base + Z.to_nat v) value))) as [|Ht]; [done|].
  rewrite length_app, length_replicate in Ht. rewrite take_ge by (rewrite length_replicate; lia).
  apply H. rewrite length_app, length_replicate. lia.
Qed.

Lemma rfc_lengths_read fuel cl hlit target ks k out lens bs r : reads ks k -> (length lens <= target)%nat ->
  rfc_lengths false fuel cl hlit target ks out lens bs = Some r -> code_lengths st fuel cl hlit target k out lens bs = Done r.
Proof.
  intros Hk. revert lens bs. induction fuel as [|fuel IH]; intros lens bs Hl; cbn [rfc_lengths code_lengths];
    (destruct (Nat.eqb_spec (length lens) target) as [Ht|Ht];
      [rewrite (proj2 (Nat.leb_le _ _)) by lia; by apply rfc_block_read|rewrite (proj2 (Nat.leb_gt _ _)) by lia]); [done|].
  apply take_symbol_read; [done|]. intros c bs1.
  repeat case_if; try (apply rfc_repeat_read; [done|]; intros; by apply IH).
  destruct (last lens); [|done]. apply rfc_repeat_read; [done|]. intros; by apply IH.
Qed.

Lemma rfc_codelens_read n acc hlit hdist ks k : reads ks k -> reads (rfc_codelens false n acc hlit hdist ks) (codelen_codes st n acc hlit hdist k).
Proof.
  intros Hk. revert acc. induction n as [|n IH]; intros acc out bs r; cbn [rfc_codelens codelen_codes].
  - case_if; [|done]. apply rfc_lengths_read; [done|cbn; lia].
  - apply take_bits_read. intros v bs' _. apply IH.
Qed.

Lemma rfc_dynamic_read ks k : reads ks k -> reads (rfc_dynamic false ks) (dynamic_block st k).
Proof.
  intros Hk out bs r. unfold rfc_dynamic, dynamic_block.
  rewrite (take_bits_seq 5 5 bs (fun hlit hdist bs => take_bits 4 bs _)), (take_bits_seq (5 + 5) 4). apply take_bits_read. intros h bs' Hh.
  change (2 ^ Z.of_nat 5) with 32. change (2 ^ Z.of_nat (5 + 5)) with 1024.
  case_if; [done|]. replace (h mod 1024 mod 32) with (h mod 32); [|apply (Znumtheory.Zmod_div_mod 32 1024); [lia|lia|by exists 32]].
  replace (h mod 1024 / 32) with (h / 32 mod 32); [by apply rfc_codelens_read|].
  pose proof (Z.div_mod h 1024 ltac:(lia)). pose proof (Z.mod_pos_bound h 1024 ltac:(lia)). symmetry.
  pose proof (Z.div_mod (h mod 1024) 32 ltac:(lia)). pose proof (Z.mod_pos_bound (h mod 1024) 32 ltac:(lia)).
  assert (E : h / 32 = 32 * (h / 1024) + h mod 1024 / 32) by (symmetry; apply (Z.div_unique_pos _ _ _ (h mod 1024 mod 32)); lia).
  apply (Z.mod_unique_pos _ _ (h / 1024)); [|lia]. split; [apply Z.div_pos; lia|apply Z.div_lt_upper_bound; lia].
Qed.

Lemma rfc_footer_read : reads (rfc_footer f) (footer f).
Proof.
  intros out bs r. unfold rfc_footer, footer. destruct f; [by intros [= ->]|]. unfold take_bits. rewrite !length_drop. set (n := length (align bs)).
  repeat (case_if; [done|]). intros H. case_if_in H; [|done]. injection H as <-.
  repeat match goal with H : (_ <? _)%nat = false |- _ => apply Nat.ltb_ge in H end. by rewrite (proj2 (Nat.ltb_ge _ _)) by lia.
Qed.

Lemma rfc_blocks_read fuel : reads (rfc_blocks false f fuel) (blocks f st fuel).
Proof.
  induction fuel as [|fuel IH]; intros out bs r; cbn [rfc_blocks blocks]; [done|].
  rewrite (take_bits_seq 1 2). apply take_bits_read. intros h bs1 Hh. cbv zeta. change (2 ^ Z.of_nat 1) with 2.
  set (ks := fun out bs => if h mod 2 =? 1 then _ else _).
  assert (Hk : reads ks (block_end f h (blocks f st fuel))).
  { intros out' bs' r'. unfold ks, block_end. rewrite Zmod_odd. destruct (Z.odd h); [apply rfc_footer_read|apply IH]. }
  clearbody ks. case_if.
  { unfold stored_len. apply take_bits_read. intros len bs2 _. unfold stored_nlen. apply take_bits_read. intros nlen bs3 _.
    destruct (Z.eqb_spec nlen (65535 - len)); [|done]. rewrite (proj2 (Z.eqb_eq _ _)) by lia. by apply rfc_stored_read. }
  case_if; [by apply rfc_block_read|]. case_if; [by apply rfc_dynamic_read|done].
Qed.

(** Every valid stream, several distance codes of which at most one is used
    apart, has its output in DeflateSpec.v. *)
Lemma rfc_inflate_read bs out : rfc_inflate false f bs = Some out -> inflate_spec f st [] bs = Done out.
Proof.
  unfold rfc_inflate, inflate_spec. pose proof rfc_blocks_read as Hb. destruct f; [apply Hb|]. unfold rfc_zlib, zlib_stream.
  rewrite (take_bits_seq 8 8). apply take_bits_read. intros h bs1 Hh. change (2 ^ Z.of_nat 8) with 256.
  destruct (_ && _) eqn:E; [|done]. rewrite !andb_true_iff, negb_true_iff, Z.eqb_eq in E. destruct E as [[[E1 _] _] E4].
  replace (h mod 256 mod 16) with (h mod 16) in E1 by (apply (Znumtheory.Zmod_div_mod 16 256); [lia|lia|by exists 16]).
  rewrite E1. change 256 with (2 ^ 8) in E4. rewrite <- Z.shiftr_div_pow2, Z.shiftr_spec in E4 by lia.
  change (5 + 8) with 13 in E4. rewrite E4. cbn [negb orb Z.eqb]. apply Hb.
Qed.

End Read.

(** Valid streams; a wrong checksum is refused by the standards and not by the
    source. *)
Definition rfc_sample : list Z := [120; 156; 75; 76; 74; 6; 0; 2; 77; 1; 39].

Example rfc_inflate_samples :
  rfc_inflate false DEFLATE_RAW (bits_of sample_stream) = Some sample_text
  /\ rfc_inflate false DEFLATE_ZLIB (bits_of rfc_sample) = Some [97; 98; 99]
  /\ rfc_inflate true DEFLATE_ZLIB (bits_of (take 10 rfc_sample ++ [40])) = None
  /\ inflate_spec DEFLATE_ZLIB (fun _ => 0) [] (bits_of (take 10 rfc_sample ++ [40])) = Done [97; 98; 99].
Proof. vm_compute. done. Qed.
