(* ===== verification/DeflateHuffman.v ===== *)
(** * Huffman alphabets of the decompressor

    The canonical codes of the format as intervals of 16-bit numbers, the
    alphabet that [deflate_alphabet] constructs from a set of code lengths, and
    the proof that looking a symbol up in it is decoding the canonical code. *)
From S2P Require Import Prelude Strings Memory Deflate DeflateSpec.

(** ** Values of bit lists *)

Lemma msb_value_acc bs acc : fold_left (fun acc b => 2 * acc + Z.b2z b) bs acc = acc * 2 ^ zlen bs + msb_value bs.
Proof.
  revert acc. unfold msb_value. induction bs as [|b bs IH]; intros acc; cbn [fold_left length]; [lia|].
  rewrite IH, (IH (2 * 0 + _)). replace (Z.of_nat (S (length bs))) with (1 + zlen bs) by lia.
  rewrite Z.pow_add_r by lia. lia.
Qed.

Lemma msb_value_app x y : msb_value (x ++ y) = msb_value x * 2 ^ zlen y + msb_value y.
Proof. unfold msb_value at 1. rewrite fold_left_app. fold (msb_value x). apply msb_value_acc. Qed.

Lemma msb_value_range bs : 0 <= msb_value bs < 2 ^ zlen bs.
Proof.
  induction bs as [|b bs IH] using rev_ind; [cbn; lia|]. rewrite msb_value_app. rewrite zlen_app.
  change (zlen [b]) with 1. rewrite Z.pow_add_r by lia. change (msb_value [b]) with (2 * 0 + Z.b2z b).
  destruct b; cbn [Z.b2z]; lia.
Qed.

Lemma lsb_value_cons b bs : lsb_value (b :: bs) = Z.b2z b + 2 * lsb_value bs.
Proof. done. Qed.

Lemma pow2_S n : 2 ^ Z.of_nat (S n) = 2 * 2 ^ Z.of_nat n.
Proof. rewrite Nat2Z.inj_succ, Z.pow_succ_r by lia. done. Qed.

Lemma lsb_value_app x y : lsb_value (x ++ y) = lsb_value x + 2 ^ zlen x * lsb_value y.
Proof.
  induction x as [|b x IH]; [change (lsb_value y = 0 + 1 * lsb_value y); lia|].
  cbn [app length]. rewrite !lsb_value_cons, IH, pow2_S. lia.
Qed.

Lemma lsb_value_range bs : 0 <= lsb_value bs < 2 ^ zlen bs.
Proof. induction bs as [|b bs IH]; [cbn; lia|]. cbn [length]. rewrite lsb_value_cons, pow2_S. destruct b; cbn [Z.b2z]; lia. Qed.

(** The first 16 bits, with zeros where there are fewer. *)
Definition norm (bs : list bool) : Z := msb_value (take 16 (bs ++ replicate 16 false)).

Lemma norm_range bs : 0 <= norm bs < 2 ^ 16.
Proof.
  unfold norm. pose proof (msb_value_range (take 16 (bs ++ replicate 16 false))) as H.
  rewrite length_take, length_app, length_replicate in H. replace (Z.of_nat (16 `min` (length bs + 16))) with 16 in H by lia. done.
Qed.

Lemma norm_prefix bs l : (l <= 16)%nat -> (l <= length bs)%nat ->
  norm bs / 2 ^ (16 - Z.of_nat l) = msb_value (take l bs).
Proof.
  intros Hl Hb. unfold norm. set (x := take 16 (bs ++ replicate 16 false)).
  assert (Hx : length x = 16%nat) by (unfold x; rewrite length_take, length_app, length_replicate; lia).
  assert (Ht : take l x = take l bs) by (unfold x; rewrite take_take, Nat.min_l by lia; apply take_app_le; lia).
  rewrite <- (take_drop l x) at 1. rewrite msb_value_app, length_drop, Hx, Ht.
  replace (Z.of_nat (16 - l)) with (16 - Z.of_nat l) by lia.
  pose proof (msb_value_range (drop l x)) as Hr. rewrite length_drop, Hx in Hr.
  replace (Z.of_nat (16 - l)) with (16 - Z.of_nat l) in Hr by lia.
  symmetry. apply (Z.div_unique _ _ _ (msb_value (drop l x))); lia.
Qed.

(** ** Counting symbols *)

Lemma bl_count_nonneg lens l : 0 <= bl_count lens l.
Proof. unfold bl_count. lia. Qed.

Lemma bl_count_app x y l : bl_count (x ++ y) l = bl_count x l + bl_count y l.
Proof. unfold bl_count. rewrite filter_app, length_app. lia. Qed.

Lemma bl_count_one m l : bl_count [m] l = if decide (l = m) then 1 else 0.
Proof. unfold bl_count. rewrite filter_cons, filter_nil. by destruct (decide (l = m)). Qed.

Lemma bl_count_take_S lens n m l : lens !! n = Some m ->
  bl_count (take (S n) lens) l = bl_count (take n lens) l + if decide (l = m) then 1 else 0.
Proof. intros H. by rewrite (take_S_r _ _ _ H), bl_count_app, bl_count_one. Qed.

Lemma bl_count_take_le lens n l : bl_count (take n lens) l <= bl_count lens l.
Proof. rewrite <- (take_drop n lens) at 2. rewrite bl_count_app. pose proof (bl_count_nonneg (drop n lens) l). lia. Qed.

Lemma bl_count_take_lt lens n l : lens !! n = Some l -> 0 <= bl_count (take n lens) l < bl_count lens l.
Proof.
  intros H. split; [apply bl_count_nonneg|]. pose proof (bl_count_take_le lens (S n) l) as Hl.
  rewrite (bl_count_take_S _ _ _ l H) in Hl. destruct (decide (l = l)); [lia|done].
Qed.

Lemma bl_count_le_length lens l : bl_count lens l <= zlen lens.
Proof. unfold bl_count. apply inj_le, length_filter. Qed.

(** Symbols of one length are numbered in order. *)
Lemma nth_symbol lens l i : 0 <= i < bl_count lens l -> exists n, lens !! n = Some l /\ bl_count (take n lens) l = i.
Proof.
  revert i. induction lens as [|m lens IH] using rev_ind; intros i Hi; [unfold bl_count in Hi; cbn in Hi; lia|].
  rewrite bl_count_app, bl_count_one in Hi. destruct (Z_lt_ge_dec i (bl_count lens l)).
  - destruct (IH i ltac:(lia)) as (n & Hn & Hc). exists n. split; [by apply lookup_app_l_Some|].
    rewrite take_app_le by (apply lookup_lt_Some in Hn; lia). done.
  - destruct (decide (l = m)) as [->|]; [|lia]. exists (length lens). split; [by apply list_lookup_middle|].
    rewrite take_app_length. lia.
Qed.

Lemma rank_inj lens n m l : lens !! n = Some l -> lens !! m = Some l ->
  bl_count (take n lens) l = bl_count (take m lens) l -> n = m.
Proof.
  assert (H : forall n m, lens !! n = Some l -> (n < m)%nat -> bl_count (take n lens) l < bl_count (take m lens) l).
  { clear. intros n m Hn Hm. pose proof (bl_count_take_S lens n l l Hn) as H. destruct (decide (l = l)); [|done].
    replace (take (S n) lens) with (take (S n) (take m lens)) in H by (rewrite take_take; f_equal; lia).
    pose proof (bl_count_take_le (take m lens) (S n) l). lia. }
  intros Hn Hm E. destruct (lt_eq_lt_dec n m) as [[?|?]|?]; [|done|]; [specialize (H n m Hn)|specialize (H m n Hm)]; lia.
Qed.

(** ** Codes as intervals *)

Definition start (lens : list nat) (l : nat) : Z := first_code lens l * 2 ^ (16 - Z.of_nat l).

Lemma first_code_S lens l : (0 < l)%nat -> first_code lens (S l) = 2 * (first_code lens l + bl_count lens l).
Proof. by destruct l; [lia|]. Qed.

Lemma first_code_nonneg lens l : 0 <= first_code lens l.
Proof. induction l as [|l IH]; [done|]. cbn. pose proof (bl_count_nonneg lens l). destruct l; lia. Qed.

Lemma start_S lens l : (0 < l <= 15)%nat -> start lens (S l) = (first_code lens l + bl_count lens l) * 2 ^ (16 - Z.of_nat l).
Proof.
  intros Hl. unfold start. rewrite first_code_S by lia.
  replace (16 - Z.of_nat l) with (1 + (16 - Z.of_nat (S l))) by lia. rewrite Z.pow_add_r by lia. lia.
Qed.

Lemma start_mono lens l m : (0 < l)%nat -> (l <= m <= 16)%nat -> start lens l <= start lens m.
Proof.
  intros Hl Hm. induction m as [|m IH]; [lia|]. destruct (decide (l = S m)) as [->|]; [lia|].
  etransitivity; [apply IH; lia|]. rewrite start_S by lia. unfold start. pose proof (bl_count_nonneg lens m).
  apply Z.mul_le_mono_nonneg_r; [apply Z.pow_nonneg|]; lia.
Qed.

Lemma start_1 lens : start lens 1 = 0.
Proof. done. Qed.

(** The codes that belong to length [l]. *)
Definition in_set (lens : list nat) (l : nat) (h : Z) : Prop := start lens l <= h < start lens (S l).

Lemma in_set_unique lens l m h : (0 < l <= 15)%nat -> (0 < m <= 15)%nat -> in_set lens l h -> in_set lens m h -> l = m.
Proof.
  intros Hl Hm [L1 L2] [M1 M2]. destruct (lt_eq_lt_dec l m) as [[?|?]|?]; [|done|].
  - pose proof (start_mono lens (S l) m). lia.
  - pose proof (start_mono lens (S m) l). lia.
Qed.

Definition lens_ok (lens : list nat) : Prop := Forall (fun l => (l <= 15)%nat) lens.

Lemma complete_start lens : complete lens = true -> start lens 16 = 2 ^ 16.
Proof. unfold complete, start. intros ->%Z.eqb_eq. lia. Qed.

(** A complete set of codes covers everything. *)
Lemma in_set_exists lens h : complete lens = true -> 0 <= h < 2 ^ 16 -> exists l, (0 < l <= 15)%nat /\ in_set lens l h.
Proof.
  intros Hc Hh. pose proof (complete_start lens Hc) as He. clear Hc.
  assert (H : forall k, (k <= 15)%nat -> h < start lens (S k) -> exists l, (0 < l <= k)%nat /\ in_set lens l h).
  { induction k as [|k IH]; intros Hk Hs; [rewrite start_1 in Hs; lia|]. destruct (Z_lt_ge_dec h (start lens (S k))) as [Hlt|Hge].
    - destruct (IH ltac:(lia) ltac:(done)) as (l & Hl & Hi). exists l. split; [lia|done].
    - exists (S k). split; [lia|]. split; lia. }
  destruct (H 15%nat ltac:(lia) ltac:(lia)) as (l & Hl & Hi). by exists l.
Qed.

Lemma is_code_spec lens bs n : is_code lens bs n = true <->
  exists l, lens !! n = Some l /\ (0 < l <= length bs)%nat
    /\ msb_value (take l bs) = first_code lens l + bl_count (take n lens) l.
Proof.
  unfold is_code. destruct (lens !! n) as [l|]; [|split; [done|by intros (?&?&_)]].
  rewrite !andb_true_iff, Nat.ltb_lt, Nat.leb_le, Z.eqb_eq. split; [intros [[? ?] ?]; by exists l|].
  intros (l' & [= <-] & ? & ?). split; [lia|done].
Qed.

Lemma is_code_in_set lens bs n l : lens_ok lens -> is_code lens bs n = true -> lens !! n = Some l -> in_set lens l (norm bs).
Proof.
  intros Hok (l' & Hn & Hl & Hv)%is_code_spec E. assert (l' = l) as -> by congruence.
  assert (l <= 15)%nat by (by eapply (Forall_lookup_1 _ _ _ _ Hok)).
  pose proof (bl_count_take_lt lens n l Hn) as Hr. pose proof (norm_prefix bs l ltac:(lia) ltac:(lia)) as Hp. rewrite Hv in Hp.
  unfold in_set. rewrite start_S by lia. unfold start. set (p := 2 ^ (16 - Z.of_nat l)) in *.
  assert (0 < p) by (apply Z.pow_pos_nonneg; lia).
  pose proof (Z.div_mod (norm bs) p ltac:(lia)). pose proof (Z.mod_pos_bound (norm bs) p ltac:(lia)). nia.
Qed.

(** The code is prefix free. *)
Lemma is_code_unique lens bs n m : lens_ok lens -> is_code lens bs n = true -> is_code lens bs m = true -> n = m.
Proof.
  intros Hok Hn Hm. pose proof Hn as (l & En & Ln & Vn)%is_code_spec. pose proof Hm as (l' & Em & Lm & Vm)%is_code_spec.
  pose proof (Forall_lookup_1 _ _ _ _ Hok En). pose proof (Forall_lookup_1 _ _ _ _ Hok Em). cbv beta in *.
  assert (l = l') as <-.
  { apply (in_set_unique lens l l' (norm bs)); [lia|lia|by apply (is_code_in_set lens bs n)|by apply (is_code_in_set lens bs m)]. }
  apply (rank_inj lens n m l En Em). lia.
Qed.

Lemma is_code_app lens bs more n : is_code lens bs n = true -> is_code lens (bs ++ more) n = true.
Proof.
  intros (l & En & Ln & Vn)%is_code_spec. apply is_code_spec. exists l. rewrite length_app, take_app_le by lia.
  split; [done|]. split; [lia|done].
Qed.

Lemma huff_code lens bs more n l : lens_ok lens -> is_code lens bs n = true -> lens !! n = Some l ->
  huff lens (bs ++ more) = Some (n, drop l bs ++ more).
Proof.
  intros Hok Hn El. pose proof (is_code_app lens bs more n Hn) as Hn'. unfold huff.
  destruct (List.find (is_code lens (bs ++ more)) (seq 0 (length lens))) as [m|] eqn:Ef.
  - apply List.find_some in Ef as [_ Em]. rewrite (is_code_unique _ _ _ _ Hok Em Hn'), El. cbn [default from_option id].
    rewrite drop_app_le; [done|]. apply is_code_spec in Hn as (l' & E' & L' & _). assert (l' = l) by congruence. lia.
  - exfalso. pose proof (List.find_none _ _ Ef n) as Hf. rewrite Hn' in Hf. discriminate Hf.
    apply in_seq. apply lookup_lt_Some in El. lia.
Qed.

Lemma huff_none lens bs : (forall n, is_code lens bs n = false) -> huff lens bs = None.
Proof.
  intros H. unfold huff. destruct (List.find _ _) as [m|] eqn:Ef; [|done]. apply List.find_some in Ef as [_ Em]. by rewrite H in Em.
Qed.

(** ** Construction of an alphabet *)

(** The code lengths as the array holds them. *)
Definition holds (lengths : list Z) (offset : Z) (lens : list nat) : Prop :=
  forall i l, lens !! i = Some l -> deflate_length lengths (Z.of_nat i + offset) = Some (Z.of_nat l).

Lemma alter_map_seq {A} (f : A -> A) (g g' : nat -> A) i n : (i < n)%nat ->
  g' (S i) = f (g (S i)) -> (forall b, b <> S i -> g' b = g b) -> alter f i (map g (seq 1 n)) = map g' (seq 1 n).
Proof.
  intros Hi Hs Ho. apply list_eq. intros j. destruct (decide (j < n)%nat) as [Hj|Hj].
  - assert (L : forall h : nat -> A, map h (seq 1 n) !! j = Some (h (S j))).
    { intros h. rewrite list_lookup_fmap, lookup_seq_lt by done. done. }
    destruct (decide (j = i)) as [->|Hne].
    + rewrite list_lookup_alter_eq, !L. cbn. by rewrite Hs.
    + rewrite list_lookup_alter_ne, !L by done. by rewrite Ho by lia.
  - rewrite !lookup_ge_None_2; [done|..]; rewrite ?length_alter, length_map, length_seq; lia.
Qed.

Definition counted (pfx : list nat) (b : nat) : deflate_huf_symbols := HufSymbols 0 0 (bl_count pfx b) 0 0.

Lemma count_lengths_spec lengths offset pfx rest :
  holds lengths offset (pfx ++ rest) -> lens_ok rest -> zlen (pfx ++ rest) < 65536 ->
  count_lengths (length rest) (zlen pfx) lengths offset (map (counted pfx) (seq 1 15))
  = Some (map (counted (pfx ++ rest)) (seq 1 15)).
Proof.
  revert pfx. induction rest as [|m rest IH]; intros pfx Hh Hok Hz; [by rewrite app_nil_r|].
  apply Forall_cons in Hok as [Hm Hok]. cbn [count_lengths length].
  rewrite (Hh (length pfx) m) by (by apply list_lookup_middle).
  assert (E : (if negb (Z.of_nat m =? 0) then alter incr_freq (Z.to_nat (Z.of_nat m - 1)) (map (counted pfx) (seq 1 15))
               else map (counted pfx) (seq 1 15)) = map (counted (pfx ++ [m])) (seq 1 15)).
  { destruct (Z.eqb_spec (Z.of_nat m) 0) as [E|E]; cbn [negb].
    - apply map_ext_in. intros b Hb%in_seq. unfold counted. rewrite bl_count_app, bl_count_one.
      destruct (decide (b = m)); [lia|]. f_equal. lia.
    - replace (Z.to_nat (Z.of_nat m - 1)) with (m - 1)%nat by lia.
      apply alter_map_seq; [lia| |]; unfold counted; [replace (S (m - 1)) with m by lia|].
      + rewrite bl_count_app, bl_count_one. destruct (decide (m = m)); [|done]. unfold incr_freq. cbn. f_equal.
        symmetry. apply uwrap_small. pose proof (bl_count_nonneg pfx m). pose proof (bl_count_le_length pfx m).
        rewrite zlen_app in Hz. cbn [length] in Hz. lia.
      + intros b Hb. rewrite bl_count_app, bl_count_one. destruct (decide (b = m)); [lia|]. f_equal. lia. }
  rewrite E. replace (zlen pfx + 1) with (zlen (pfx ++ [m])) by (rewrite zlen_app; cbn; lia).
  replace (pfx ++ m :: rest) with ((pfx ++ [m]) ++ rest) in * by (by rewrite <- app_assoc). by apply IH.
Qed.

(** Symbols shorter than [l]. *)
Fixpoint cum (lens : list nat) (l : nat) : Z :=
  match l with
  | O => 0
  | S l' => cum lens l' + match l' with O => 0 | _ => bl_count lens l' end
  end.

Lemma cum_S lens l : (0 < l)%nat -> cum lens (S l) = cum lens l + bl_count lens l.
Proof. by destruct l; [lia|]. Qed.

Lemma cum_mono lens l m : (0 < l <= m)%nat -> cum lens l <= cum lens m.
Proof.
  intros Hl. induction m as [|m IH]; [lia|]. destruct (decide (l = S m)) as [->|]; [lia|]. rewrite cum_S by lia.
  pose proof (bl_count_nonneg lens m). lia.
Qed.

Lemma cum_cons m lens l : cum (m :: lens) l = cum lens l + if decide (0 < m < l)%nat then 1 else 0.
Proof.
  induction l as [|l IH]; [destruct (decide _); [lia|done]|]. cbn [cum]. rewrite IH. destruct l as [|l].
  - repeat destruct (decide _); lia.
  - change (m :: lens) with ([m] ++ lens). rewrite bl_count_app, bl_count_one. repeat destruct (decide _); lia.
Qed.

Lemma cum_nil l : cum [] l = 0.
Proof. induction l as [|l IH]; [done|]. cbn. rewrite IH. by destruct l. Qed.

Lemma cum_le lens l : 0 <= cum lens l <= zlen lens.
Proof.
  induction lens as [|m lens IH]; [rewrite cum_nil; cbn; lia|]. rewrite cum_cons. cbn [length]. destruct (decide _); lia.
Qed.

(** Positions among the raw symbols belong to one length only. *)
Lemma cum_disjoint lens l m r r' : (0 < l)%nat -> (0 < m)%nat -> 0 <= r < bl_count lens l -> 0 <= r' < bl_count lens m ->
  cum lens l + r = cum lens m + r' -> l = m /\ r = r'.
Proof.
  intros Hl Hm Hr Hr' E. assert (l = m) as <-; [|split; [done|lia]].
  destruct (lt_eq_lt_dec l m) as [[?|?]|?]; [|done|].
  - pose proof (cum_mono lens (S l) m ltac:(lia)) as H. rewrite cum_S in H by lia. lia.
  - pose proof (cum_mono lens (S m) l ltac:(lia)) as H. rewrite cum_S in H by lia. lia.
Qed.

Definition placed (lens : list nat) (raw : nat -> Z) (b : nat) : deflate_huf_symbols :=
  HufSymbols (Z.of_nat b) (16 - Z.of_nat b) (bl_count lens b) (start lens b) (raw b).

(** Too many codes of some length stay too many. *)
Lemma first_code_over lens l m : (0 < l <= m)%nat -> 2 ^ Z.of_nat l < first_code lens l -> 2 ^ Z.of_nat m < first_code lens m.
Proof.
  intros Hl Ho. induction m as [|m IH]; [lia|]. destruct (decide (l = S m)) as [->|]; [done|].
  specialize (IH ltac:(lia)). rewrite first_code_S, pow2_S by lia. pose proof (bl_count_nonneg lens m). lia.
Qed.

Lemma place_symbols_spec lens n l : (0 < l)%nat -> (l + n = 16)%nat -> first_code lens l <= 2 ^ Z.of_nat l ->
  match place_symbols (map (counted lens) (seq l n)) (Z.of_nat l) (first_code lens l) (cum lens l) with
  | (_, None) => complete lens = false
  | (huf, Some code) => huf = map (placed lens (cum lens)) (seq l n) /\ code = first_code lens 16
  end.
Proof.
  revert l. induction n as [|n IH]; intros l Hl Hn Hc.
  - replace l with 16%nat by lia. cbn [seq map place_symbols]. done.
  - cbn [seq map place_symbols]. unfold counted at 1 2 3 4. cbn [hs_freq]. rewrite !Z.shiftl_mul_pow2 by lia. rewrite Z.mul_1_l.
    pose proof (first_code_nonneg lens l) as H0.
    case_if.
    + apply Z.eqb_neq. pose proof (first_code_over lens (S l) 16 ltac:(lia)) as Ho. rewrite first_code_S, pow2_S in Ho by lia.
      specialize (Ho ltac:(lia)). change (2 ^ Z.of_nat 16) with (2 ^ 16) in Ho. lia.
    + specialize (IH (S l) ltac:(lia) ltac:(lia)). rewrite first_code_S, cum_S, pow2_S in IH by lia. specialize (IH ltac:(lia)).
      replace (Z.of_nat l + 1) with (Z.of_nat (S l)) by lia. change (2 ^ 1) with 2. rewrite (Z.mul_comm _ 2).
      destruct (place_symbols _ _ _ _) as [huf [code|]]; [|done]. destruct IH as [-> ->]. split; [|done].
      f_equal. unfold placed. f_equal. unfold start. apply uwrap_small.
      assert (2 ^ Z.of_nat l * 2 ^ (16 - Z.of_nat l) = 2 ^ 16) by (rewrite <- Z.pow_add_r by lia; f_equal; lia).
      assert (0 < 2 ^ (16 - Z.of_nat l)) by (apply Z.pow_pos_nonneg; lia).
      change (2 ^ 32) with (2 ^ 16 * 2 ^ 16). nia.
Qed.

(** The raw symbols of the first lengths are in their places. *)
Definition filled (lens pfx : list nat) (raws : list Z) : Prop :=
  forall n l, pfx !! n = Some l -> l <> 0%nat ->
    raws !! Z.to_nat (cum lens l + bl_count (take n pfx) l) = Some (Z.of_nat n).

Lemma insert_map_seq {A} (g g' : nat -> A) i n v : (i < n)%nat ->
  g' (S i) = v -> (forall b, b <> S i -> g' b = g b) -> <[i := v]> (map g (seq 1 n)) = map g' (seq 1 n).
Proof. intros Hi <- Ho. rewrite list_insert_alter. by apply alter_map_seq. Qed.

Lemma set_index_ok {A} (l : list A) i v : 0 <= i < zlen l -> set_index l i v = Some (<[Z.to_nat i := v]> l).
Proof. intros Hi. unfold set_index. by rewrite (proj2 (Z.ltb_ge i 0)), (proj2 (Z.leb_gt (zlen l) i)) by lia. Qed.

Lemma place_raw_spec lengths offset lens pfx rest raws : lens = pfx ++ rest ->
  holds lengths offset lens -> lens_ok lens -> (length lens <= length raws)%nat -> filled lens pfx raws ->
  exists raws', place_raw (length rest) (zlen pfx) lengths offset
      (map (placed lens (fun b => cum lens b + bl_count pfx b)) (seq 1 15)) raws
    = Some (map (placed lens (fun b => cum lens b + bl_count lens b)) (seq 1 15), raws')
    /\ length raws' = length raws /\ filled lens lens raws'.
Proof.
  revert pfx raws. induction rest as [|m rest IH]; intros pfx raws E Hh Hok Hl Hf.
  { rewrite app_nil_r in E. subst pfx. by exists raws. }
  assert (Em : lens !! length pfx = Some m) by (rewrite E; by apply list_lookup_middle).
  assert (Hm : (m <= 15)%nat) by (by eapply (Forall_lookup_1 _ _ _ _ Hok)).
  assert (E' : lens = (pfx ++ [m]) ++ rest) by (by rewrite <- app_assoc).
  assert (Ht : take (length pfx) lens = pfx) by (rewrite E; apply take_app_length).
  cbn [place_raw length]. rewrite (Hh (length pfx) m Em).
  replace (zlen pfx + 1) with (zlen (pfx ++ [m])) by (rewrite zlen_app; cbn; lia).
  assert (Hsnoc : forall n l, (pfx ++ [m]) !! n = Some l -> (n < length pfx)%nat /\ pfx !! n = Some l \/ n = length pfx /\ l = m).
  { intros n l [Hn|[Hn Hx]]%lookup_app_Some; [left; split; [by apply lookup_lt_Some in Hn|done]|right].
    apply list_lookup_singleton_Some in Hx as [? ->]. split; [lia|done]. }
  destruct (Z.eqb_spec (Z.of_nat m) 0) as [E0|E0]; cbn [negb].
  - replace (map (placed lens (fun b => cum lens b + bl_count pfx b)) (seq 1 15))
      with (map (placed lens (fun b => cum lens b + bl_count (pfx ++ [m]) b)) (seq 1 15)).
    + apply IH; [done..|]. intros n l Hn Hne. destruct (Hsnoc n l Hn) as [[Hlt Hp]|[-> ->]]; [|lia].
      rewrite take_app_le by lia. by apply Hf.
    + apply map_ext_in. intros b Hb%in_seq. unfold placed. rewrite bl_count_app, bl_count_one.
      destruct (decide (b = m)); [lia|]. f_equal. lia.
  - pose proof (bl_count_take_lt lens (length pfx) m Em) as Hr. rewrite Ht in Hr.
    pose proof (cum_le lens (S m)) as Hc. rewrite cum_S in Hc by lia. pose proof (cum_le lens m) as Hc'.
    replace (Z.to_nat (Z.of_nat m - 1)) with (m - 1)%nat by lia.
    rewrite list_lookup_fmap, lookup_seq_lt by lia. cbn [fmap option_fmap option_map]. replace (1 + (m - 1))%nat with m by lia.
    unfold placed at 1. cbn [hs_raw]. rewrite set_index_ok by lia.
    rewrite (insert_map_seq _ (placed lens (fun b => cum lens b + bl_count (pfx ++ [m]) b))); [|lia|..].
    + edestruct (IH (pfx ++ [m])) as (raws' & Er & Hl' & Hf'); [done|done|done| |..].
      3: { exists raws'. split; [exact Er|]. split; [|done]. rewrite Hl'. apply length_insert. }
      * by rewrite length_insert.
      * intros n l Hn Hne. destruct (Hsnoc n l Hn) as [[Hlt Hp]|[-> ->]].
        -- rewrite take_app_le by lia. rewrite list_lookup_insert_ne; [by apply Hf|].
           assert (El : lens !! n = Some l) by (rewrite E; by apply lookup_app_l_Some).
           pose proof (bl_count_take_lt lens n l El) as Hrl. rewrite E, take_app_le, <- E in Hrl by lia.
           pose proof (cum_le lens l). intros Heq. apply Z2Nat.inj in Heq; [|lia..].
           destruct (cum_disjoint lens m l _ _ ltac:(lia) ltac:(lia) Hr Hrl Heq) as [<- Hrk].
           assert (n = length pfx); [|lia]. apply (rank_inj lens n (length pfx) m El Em). rewrite Ht, E, take_app_le, Hrk by lia. done.
        -- rewrite take_app_length. apply list_lookup_insert_eq. lia.
    + replace (S (m - 1)) with m by lia. unfold placed, set_raw. cbn. rewrite bl_count_app, bl_count_one.
      destruct (decide (m = m)); [|done]. f_equal. lia.
    + intros b Hb. unfold placed. rewrite bl_count_app, bl_count_one. destruct (decide (b = m)); [lia|]. f_equal. lia.
Qed.

(** The set of symbols of length [b] as it is used, and the quick lookup. *)
Definition adjusted (lens : list nat) : nat -> deflate_huf_symbols := placed lens (fun b => cum lens b - first_code lens b).

Definition quick (lens : list nat) (l n p : nat) (v : Z) : Prop :=
  exists b, (l <= b < l + n)%nat /\ v = Z.of_nat b - 1 /\ start lens b / 512 <= Z.of_nat p
    /\ forall b', (b < b' < l + n)%nat -> Z.of_nat p < start lens b' / 512.

Lemma adjust_symbols_spec lens n l lookup : (0 < l)%nat -> (l + n = 16)%nat -> length lookup = 128%nat ->
  exists lookup', adjust_symbols (map (placed lens (fun b => cum lens b + bl_count lens b)) (seq l n)) (Z.of_nat l) lookup
    = (map (adjusted lens) (seq l n), lookup')
    /\ length lookup' = 128%nat
    /\ forall p, (p < 128)%nat -> (exists v, lookup' !! p = Some v /\ quick lens l n p v)
        \/ (lookup' !! p = lookup !! p /\ forall b, (l <= b < l + n)%nat -> Z.of_nat p < start lens b / 512).
Proof.
  revert l lookup. induction n as [|n IH]; intros l lookup Hl Hn Hk.
  { exists lookup. split; [done|]. split; [done|]. intros p Hp. right. split; [done|]. lia. }
  cbn [seq map adjust_symbols]. change (hs_start (placed lens _ l)) with (start lens l).
  change (hs_shift (placed lens _ l)) with (16 - Z.of_nat l).
  rewrite !Z.shiftr_div_pow2 by (unfold DEFLATE_HUFFMAN_QL_SHIFT, DEFLATE_HUFFMAN_QL_BITS; lia). change (2 ^ DEFLATE_HUFFMAN_QL_SHIFT) with 512.
  set (lk := imap _ lookup).
  destruct (IH (S l) lk ltac:(lia) ltac:(lia)) as (lookup' & E & Hlen & Hq); [unfold lk; by rewrite length_imap|].
  replace (Z.of_nat l + 1) with (Z.of_nat (S l)) by lia. rewrite E. exists lookup'. split; [|split; [done|]].
  - f_equal. f_equal. unfold adjusted, placed, set_raw. cbn [hs_bits hs_shift hs_freq hs_start hs_raw]. f_equal.
    unfold start. rewrite Z.div_mul by (apply Z.pow_nonzero; lia). lia.
  - intros p Hp. destruct (Hq p Hp) as [(v & Hv & b & Hb & -> & Hs & Ho)|[Hv Ho]].
    + left. exists (Z.of_nat b - 1). split; [done|]. exists b. split; [lia|]. split; [done|]. split; [done|]. intros b' Hb'. apply Ho. lia.
    + unfold lk in Hv. rewrite list_lookup_imap in Hv. destruct (lookup_lt_is_Some_2 lookup p ltac:(lia)) as [w Hw].
      rewrite Hw in *. cbn [fmap option_fmap option_map] in Hv. destruct (Z.leb_spec (start lens l / 512) (Z.of_nat p)) as [Hle|Hgt].
      * left. exists (Z.of_nat l - 1). split; [done|]. exists l. split; [lia|]. split; [done|]. split; [done|]. intros b' Hb'. apply Ho. lia.
      * right. split; [done|]. intros b Hb. destruct (decide (b = l)) as [->|]; [done|]. apply Ho. lia.
Qed.

(** What [deflate_decode] needs of an alphabet. *)
Record is_alphabet (al : deflate_alphabet) (lens : list nat) : Prop := {
  ia_complete : complete lens = true;
  ia_lens : lens_ok lens;
  ia_huf : al_huf al = map (adjusted lens) (seq 1 15);
  ia_raw : filled lens lens (al_raw al);
  ia_lookup : forall p, (p < 128)%nat -> exists v, al_lookup al !! p = Some v /\ quick lens 1 15 p v }.

Lemma make_alphabet_spec lengths al lens offset :
  holds lengths offset lens -> lens_ok lens -> zlen lens < 65536 -> (length lens <= length (al_raw al))%nat ->
  length (al_lookup al) = 128%nat ->
  exists al', make_alphabet lengths al (zlen lens) offset = Some (al', if complete lens then Ok tt else Err EINVAL)
    /\ length (al_raw al') = length (al_raw al) /\ length (al_lookup al') = 128%nat
    /\ (complete lens = true -> is_alphabet al' lens).
Proof.
  intros Hh Hok Hz Hr Hk. unfold make_alphabet. rewrite Nat2Z.id.
  change empty_huf with (map (counted []) (seq 1 15)).
  pose proof (count_lengths_spec lengths offset [] lens Hh Hok Hz) as Hc. change (zlen []) with 0 in Hc.
  change ([] ++ lens) with lens in Hc. rewrite Hc. clear Hc.
  pose proof (place_symbols_spec lens 15 1 ltac:(lia) ltac:(lia) ltac:(done)) as Hp.
  change (first_code lens 1) with 0 in Hp. change (cum lens 1) with 0 in Hp. change (Z.of_nat 1) with 1 in Hp.
  destruct (place_symbols _ 1 0 0) as [huf [code|]].
  - destruct Hp as [-> ->].
    destruct (place_raw_spec lengths offset lens [] lens (al_raw al) eq_refl Hh Hok Hr) as (raws & E & Hlr & Hf); [by intros ? ?|].
    replace (map (placed lens (fun b => cum lens b + bl_count [] b)) (seq 1 15)) with (map (placed lens (cum lens)) (seq 1 15)) in E
      by (apply map_ext; intros b; unfold placed; f_equal; change (bl_count [] b) with 0; lia).
    change (zlen []) with 0 in E. rewrite E. clear E.
    destruct (adjust_symbols_spec lens 15 1 (al_lookup al) ltac:(lia) ltac:(lia) Hk) as (lookup & E & Hlk & Hq).
    change (Z.of_nat 1) with 1 in E. rewrite E. eexists. split; [f_equal; f_equal|split; [done|split; [done|]]].
    + unfold complete. change (Z.shiftl 1 16) with (2 ^ 16). by destruct (_ =? _).
    + intros Hc. split; cbn [al_huf al_raw al_lookup]; try done. intros p Hpl.
      destruct (Hq p Hpl) as [Hv|[_ Ho]]; [done|]. specialize (Ho 1%nat ltac:(lia)). rewrite start_1 in Ho. change (0 / 512) with 0 in Ho. lia.
  - rewrite Hp. eexists. split; [done|]. cbn. split; [done|]. split; [done|]. done.
Qed.
