(* ===== verification/DeflateBits.v ===== *)
(** * Bits from the input of the decompressor

    The accumulator and its reverse hold a list of bits; accumulating appends
    the bits of input bytes, consuming removes bits from the front, and
    decoding removes one canonical code. *)
From S2P Require Import Prelude Strings Memory Deflate DeflateSpec DeflateHuffman.

(** The decompressor with the bits [B] accumulated. *)
Definition with_buf (B : list bool) (d : deflate) : deflate :=
  set_bits (zlen B) (set_rotalumucca (msb_value B * 2 ^ (32 - zlen B)) (set_accumulator (lsb_value B) d)).

Record chunk_ok (c : deflate_chunk) : Prop := {
  chunk_offset : 0 <= ck_offset c <= ck_len c;
  chunk_len : ck_len c <= zlen (ck_data c);
  chunk_size : ck_len c < 2 ^ 32;
  chunk_bytes : bytes_ok (ck_data c) }.

(** The bytes that are left. *)
Definition rest (c : deflate_chunk) : list Z := take (Z.to_nat (ck_len c - ck_offset c)) (drop (Z.to_nat (ck_offset c)) (ck_data c)).
Definition advance (k : nat) (c : deflate_chunk) : deflate_chunk := set_ck_offset (ck_offset c + Z.of_nat k) c.

Lemma rest_length c : chunk_ok c -> length (rest c) = Z.to_nat (ck_len c - ck_offset c).
Proof. intros [H1 H2 H4 H3]. unfold rest. rewrite length_take, length_drop. lia. Qed.

Lemma rest_bytes c : chunk_ok c -> bytes_ok (rest c).
Proof. intros [H1 H2 H4 H3]. by apply Forall_take, Forall_drop. Qed.

Lemma rest_advance k c : chunk_ok c -> (k <= length (rest c))%nat -> rest (advance k c) = drop k (rest c).
Proof.
  intros Hc Hk. rewrite rest_length in Hk by done. destruct Hc as [H1 H2 H4 H3]. unfold rest, advance. cbn [ck_len ck_offset ck_data set_ck_offset].
  rewrite skipn_firstn_comm, drop_drop. f_equal; [lia|]. f_equal. lia.
Qed.

Lemma advance_ok k c : chunk_ok c -> (k <= length (rest c))%nat -> chunk_ok (advance k c).
Proof.
  intros Hc Hk. rewrite rest_length in Hk by done. destruct Hc as [H1 H2 H4 H3]. split; cbn; [|done|done|done]. lia.
Qed.

Lemma advance_advance k j c : advance j (advance k c) = advance (k + j) c.
Proof. unfold advance, set_ck_offset. cbn. f_equal. lia. Qed.

Lemma advance_0 c : advance 0 c = c.
Proof. destruct c. unfold advance, set_ck_offset. cbn. f_equal. lia. Qed.

Lemma rest_cons c x l : chunk_ok c -> rest c = x :: l -> at_index (ck_data c) (ck_offset c) = Some x.
Proof.
  intros [H1 H2 H4 H3] E. unfold at_index. rewrite (proj2 (Z.ltb_ge _ 0)) by lia.
  assert (H : rest c !! 0%nat = Some x) by (by rewrite E). unfold rest in H. apply lookup_take_Some in H as [H _].
  rewrite lookup_drop in H. by rewrite Nat.add_0_r in H.
Qed.

Lemma bits_of_app x y : bits_of (x ++ y) = bits_of x ++ bits_of y.
Proof. unfold bits_of. apply bind_app. Qed.

Lemma bits_of_length x : length (bits_of x) = (8 * length x)%nat.
Proof.
  induction x as [|b x IH]; [done|]. change (b :: x) with ([b] ++ x). rewrite bits_of_app, !length_app, IH.
  change (length (bits_of [b])) with 8%nat. change (length [b]) with 1%nat. lia.
Qed.

(** ** Accumulating *)

Lemma byte_values : forallb (fun b => (lsb_value (byte_bits b) =? b)
    && bool_decide (at_index deflate_reverse b = Some (msb_value (byte_bits b)))) (seqZ 0 256) = true.
Proof. vm_compute. reflexivity. Qed.

Lemma byte_value b : byte_ok b -> lsb_value (byte_bits b) = b /\ at_index deflate_reverse b = Some (msb_value (byte_bits b)).
Proof.
  intros Hb. pose proof (range_check 0 256 _ byte_values b ltac:(unfold byte_ok in Hb; lia)) as H. cbv beta in H.
  by rewrite andb_true_iff, Z.eqb_eq, bool_decide_eq_true in H.
Qed.

Lemma lsb_value_snoc B b : byte_ok b -> zlen B <= 24 ->
  Z.lor (lsb_value B) (u32 (Z.shiftl b (zlen B))) = lsb_value (B ++ byte_bits b).
Proof.
  intros Hb HB. rewrite lsb_value_app, (proj1 (byte_value b Hb)). unfold byte_ok in Hb.
  assert (Hp : 2 ^ zlen B * 2 ^ 8 <= 2 ^ 32) by (rewrite <- Z.pow_add_r by lia; apply Z.pow_le_mono_r; lia).
  assert (0 < 2 ^ zlen B) by (apply Z.pow_pos_nonneg; lia).
  rewrite uwrap_small by (rewrite Z.shiftl_mul_pow2 by lia; nia). rewrite Z.lor_comm, lor_shiftl_add; [lia|lia|].
  apply lsb_value_range.
Qed.

Lemma msb_value_snoc B b : byte_ok b -> zlen B <= 24 ->
  Z.lor (msb_value B * 2 ^ (32 - zlen B)) (u32 (Z.shiftl (msb_value (byte_bits b)) (24 - zlen B)))
  = msb_value (B ++ byte_bits b) * 2 ^ (32 - zlen (B ++ byte_bits b)).
Proof.
  intros Hb HB. rewrite msb_value_app, zlen_app. change (zlen (byte_bits b)) with 8.
  pose proof (msb_value_range (byte_bits b)) as Hr. change (zlen (byte_bits b)) with 8 in Hr. set (v := msb_value (byte_bits b)) in *.
  assert (Hp : 2 ^ 8 * 2 ^ (24 - zlen B) = 2 ^ (32 - zlen B)) by (rewrite <- Z.pow_add_r by lia; f_equal; lia).
  assert (2 ^ (32 - zlen B) <= 2 ^ 32) by (apply Z.pow_le_mono_r; lia). assert (0 < 2 ^ (24 - zlen B)) by (apply Z.pow_pos_nonneg; lia).
  rewrite Z.shiftl_mul_pow2 by lia. rewrite uwrap_small by nia. rewrite lor_mul_add by nia.
  replace (32 - (zlen B + 8)) with (24 - zlen B) by lia. nia.
Qed.

Lemma with_buf_twice B B' d : with_buf B' (with_buf B d) = with_buf B' d.
Proof. done. Qed.

Lemma accumulate_loop_spec B d in_ t : chunk_ok in_ -> (t <= 25 \/ zlen B mod 8 = 0 /\ t <= 32) ->
  exists k, accumulate_loop (length (rest in_)) (with_buf B d) in_ t
    = Some (with_buf (B ++ bits_of (take k (rest in_))) d, advance k in_)
    /\ (k <= length (rest in_))%nat /\ (t <= zlen B + 8 * Z.of_nat k \/ k = length (rest in_))
    /\ (k = 0%nat \/ zlen B + 8 * Z.of_nat k < t + 8).
Proof.
  remember (rest in_) as r eqn:Er. revert B in_ Er. induction r as [|b r IH]; intros B in_ Er Hin Ht.
  - exists 0%nat. rewrite advance_0, take_nil, app_nil_r. split; [|split; [done|split; [by right|by left]]].
    cbn [accumulate_loop length]. by case_if.
  - cbn [accumulate_loop length]. change (bits (with_buf B d)) with (zlen B). case_if.
    { exists 0%nat. rewrite advance_0. cbn [take]. rewrite app_nil_r. split; [done|]. split; [lia|]. split; [left; lia|by left]. }
    assert (Hb : byte_ok b) by (pose proof (rest_bytes in_ Hin) as H; rewrite <- Er in H; by apply Forall_cons in H as [? _]).
    rewrite (rest_cons in_ b r Hin (eq_sym Er)), (proj2 (byte_value b Hb)).
    assert (H24 : zlen B <= 24) by (destruct Ht as [?|[Hm ?]]; [lia|]; pose proof (Z.div_mod (zlen B) 8 ltac:(lia)); lia).
    rewrite (proj2 (Z.ltb_ge 24 (zlen B))) by lia.
    change (accumulator (with_buf B d)) with (lsb_value B).
    change (rotalumucca (with_buf B d)) with (msb_value B * 2 ^ (32 - zlen B)).
    rewrite lsb_value_snoc, msb_value_snoc by done.
    assert (E1 : rest (advance 1 in_) = r) by (rewrite rest_advance, <- Er by (done || (rewrite <- Er; cbn; lia)); done).
    assert (HB : zlen (B ++ byte_bits b) = zlen B + 8) by (by rewrite zlen_app).
    destruct (IH (B ++ byte_bits b) (advance 1 in_) (eq_sym E1)) as (k & E & K1 & K2 & K3).
    { apply advance_ok; [done|]. rewrite <- Er. cbn. lia. }
    { destruct Ht as [?|[Hm ?]]; [by left|right]. rewrite HB. split; [|done]. rewrite <- Zplus_mod_idemp_r, Z_mod_same_full, Z.add_0_r. done. }
    exists (S k). rewrite HB in *. rewrite advance_advance in E. cbn [take]. change (bits_of (b :: take k r)) with (byte_bits b ++ bits_of (take k r)). rewrite app_assoc.
    split; [|split; [cbn [length]; lia|split; [|right]]].
    + etransitivity; [|exact E]. unfold with_buf. rewrite HB. reflexivity.
    + destruct K2; [left; lia|right; cbn [length]; lia].
    + destruct K3; lia.
Qed.

Lemma accumulate_spec B d in_ t : chunk_ok in_ -> (t <= 25 \/ zlen B mod 8 = 0 /\ t <= 32) ->
  exists k, deflate_accumulate (with_buf B d) in_ t
    = Some (with_buf (B ++ bits_of (take k (rest in_))) d, advance k in_, zlen B + 8 * Z.of_nat k - t)
    /\ (k <= length (rest in_))%nat /\ (t <= zlen B + 8 * Z.of_nat k \/ k = length (rest in_))
    /\ (k = 0%nat \/ zlen B + 8 * Z.of_nat k < t + 8).
Proof.
  intros Hin Ht. destruct (accumulate_loop_spec B d in_ t Hin Ht) as (k & E & K). exists k. split; [|done].
  unfold deflate_accumulate. rewrite <- (rest_length in_ Hin), E. f_equal. f_equal.
  change (bits (with_buf ?x d)) with (zlen x). rewrite zlen_app, bits_of_length, length_take. lia.
Qed.

(** ** Consuming *)

Lemma lsb_value_split B c : (c <= length B)%nat -> lsb_value B = lsb_value (take c B) + 2 ^ Z.of_nat c * lsb_value (drop c B).
Proof. intros Hc. rewrite <- (take_drop c B) at 1. rewrite lsb_value_app, length_take, Nat.min_l by lia. done. Qed.

Lemma msb_value_split B c : (c <= length B)%nat -> msb_value B = msb_value (take c B) * 2 ^ (zlen B - Z.of_nat c) + msb_value (drop c B).
Proof. intros Hc. rewrite <- (take_drop c B) at 1. rewrite msb_value_app, length_drop. do 3 f_equal. lia. Qed.

Lemma consume_spec B d c : (c <= length B <= 32)%nat ->
  deflate_consume (with_buf B d) (Z.of_nat c) = (with_buf (drop c B) d, lsb_value (take c B)).
Proof.
  intros Hc. unfold deflate_consume. change (accumulator (with_buf B d)) with (lsb_value B).
  change (bits (set_rotalumucca _ (set_accumulator _ (with_buf B d)))) with (zlen B).
  change (rotalumucca (set_accumulator _ (with_buf B d))) with (msb_value B * 2 ^ (32 - zlen B)).
  pose proof (lsb_value_split B c ltac:(lia)) as Hl. pose proof (msb_value_split B c ltac:(lia)) as Hm.
  pose proof (lsb_value_range (take c B)) as R1. rewrite length_take, Nat.min_l in R1 by lia.
  pose proof (msb_value_range (drop c B)) as R2. rewrite length_drop in R2.
  f_equal.
  - unfold with_buf. rewrite length_drop. replace (Z.of_nat (length B - c)) with (zlen B - Z.of_nat c) in * by lia.
    rewrite Z.shiftr_div_pow2, Z.shiftl_mul_pow2 by lia.
    replace (lsb_value B / 2 ^ Z.of_nat c) with (lsb_value (drop c B)) by (apply (Z.div_unique _ _ _ (lsb_value (take c B))); lia).
    replace (u32 (msb_value B * 2 ^ (32 - zlen B) * 2 ^ Z.of_nat c)) with (msb_value (drop c B) * 2 ^ (32 - (zlen B - Z.of_nat c))); [done|].
    unfold uwrap. apply (Z.mod_unique _ _ (msb_value (take c B))).
    + left. assert (H32 : 2 ^ (zlen B - Z.of_nat c) * 2 ^ (32 - (zlen B - Z.of_nat c)) = 2 ^ 32) by (rewrite <- Z.pow_add_r by lia; f_equal; lia).
      assert (0 < 2 ^ (32 - (zlen B - Z.of_nat c))) by (apply Z.pow_pos_nonneg; lia). nia.
    + rewrite Hm. replace (32 - (zlen B - Z.of_nat c)) with (32 - zlen B + Z.of_nat c) by lia. rewrite Z.pow_add_r by lia.
      replace (2 ^ 32) with (2 ^ (zlen B - Z.of_nat c) * 2 ^ (32 - zlen B) * 2 ^ Z.of_nat c)
        by (rewrite <- !Z.pow_add_r by lia; f_equal; lia). ring.
  - rewrite Z.shiftl_mul_pow2, Z.mul_1_l by lia. rewrite land_ones_mod by lia. symmetry.
    apply (Z.mod_unique _ _ (lsb_value (drop c B))); lia.
Qed.

Lemma extract_spec B d in_ (t : nat) : chunk_ok in_ -> (t <= 16)%nat -> (length B <= 32)%nat ->
  exists k, (k <= length (rest in_))%nat /\ let B' := B ++ bits_of (take k (rest in_)) in
    ((t <= length B')%nat
     /\ deflate_extract (with_buf B d) in_ (Z.of_nat t) = Some (with_buf (drop t B') d, advance k in_, lsb_value (take t B'))
     /\ (length (drop t B') <= Nat.max (length B - t) 7)%nat)
    \/ ((length B' < t)%nat /\ k = length (rest in_)
        /\ deflate_extract (with_buf B d) in_ (Z.of_nat t) = Some (with_buf B' d, advance k in_, zlen B' - Z.of_nat t)).
Proof.
  intros Hin Ht HB. unfold deflate_extract. destruct (Z.eqb_spec (Z.of_nat t) 0) as [E0|E0].
  { exists 0%nat. replace t with 0%nat by lia. split; [lia|]. left. rewrite advance_0. cbn [take]. rewrite app_nil_r, drop_0. split; [lia|]. split; [done|lia]. }
  destruct (accumulate_spec B d in_ (Z.of_nat t) Hin ltac:(left; lia)) as (k & -> & K1 & K2 & K3). exists k. split; [done|].
  set (B' := B ++ bits_of (take k (rest in_))).
  assert (HB' : length B' = (length B + 8 * k)%nat) by (unfold B'; rewrite length_app, bits_of_length, length_take; lia).
  destruct (Z.ltb_spec (zlen B + 8 * Z.of_nat k - Z.of_nat t) 0).
  - right. split; [lia|]. split; [lia|]. rewrite HB'. do 2 f_equal. lia.
  - left. split; [lia|]. rewrite consume_spec by lia. split; [done|]. rewrite length_drop. lia.
Qed.

(** ** Decoding a symbol *)

Lemma msb_value_zeros n : msb_value (replicate n false) = 0.
Proof.
  induction n as [|n IH]; [done|]. rewrite replicate_S_end, msb_value_app, IH. done.
Qed.

(** The reversed accumulator holds the first bits at its top. *)
Lemma norm_rot B : (length B <= 32)%nat -> u16 (Z.shiftr (msb_value B * 2 ^ (32 - zlen B)) 16) = norm B.
Proof.
  intros HB. set (X := B ++ replicate (32 - length B) false).
  assert (HX : length X = 32%nat) by (unfold X; rewrite length_app, length_replicate; lia).
  replace (msb_value B * 2 ^ (32 - zlen B)) with (msb_value X)
    by (unfold X; rewrite msb_value_app, msb_value_zeros, length_replicate, Z.add_0_r; do 2 f_equal; lia).
  assert (E : take 16 X = take 16 (B ++ replicate 16 false)).
  { unfold X. destruct (decide (16 <= length B)%nat); [by rewrite !take_app_le by lia|].
    rewrite !take_app_ge by lia. f_equal. rewrite !take_replicate. f_equal. lia. }
  rewrite Z.shiftr_div_pow2 by lia. rewrite (msb_value_split X 16), HX by lia. change (Z.of_nat 32 - Z.of_nat 16) with 16.
  pose proof (msb_value_range (drop 16 X)) as Hr. rewrite length_drop, HX in Hr. change (Z.of_nat (32 - 16)) with 16 in Hr.
  rewrite E. fold (norm B). replace ((norm B * 2 ^ 16 + msb_value (drop 16 X)) / 2 ^ 16) with (norm B)
    by (apply (Z.div_unique _ _ _ (msb_value (drop 16 X))); lia).
  apply uwrap_small, norm_range.
Qed.

Lemma find_symbols_spec lens h i l : in_set lens l h -> (0 < l <= S i)%nat -> (i < 15)%nat ->
  find_symbols (map (adjusted lens) (seq 1 15)) i h = Some (adjusted lens l).
Proof.
  intros Hs. induction i as [|i IH]; intros Hl Hi; unfold find_symbols; fold find_symbols;
    rewrite list_lookup_fmap, lookup_seq_lt by lia; cbn [fmap option_fmap option_map].
  - replace (1 + 0)%nat with l by lia. change (hs_start (adjusted lens l)) with (start lens l).
    by rewrite (proj2 (Z.ltb_ge _ _)) by apply Hs.
  - change (1 + S i)%nat with (S (S i)). change (hs_start (adjusted lens (S (S i)))) with (start lens (S (S i))).
    destruct (decide (l = S (S i))) as [->|Hne]; [by rewrite (proj2 (Z.ltb_ge _ _)) by apply Hs|].
    rewrite (proj2 (Z.ltb_lt _ _)); [apply IH; lia|].
    pose proof (start_mono lens (S l) (S (S i)) ltac:(lia) ltac:(lia)). unfold in_set in Hs. lia.
Qed.

(** The symbol whose set contains the next bits. *)
Lemma symbol_of lens l h : (0 < l <= 15)%nat -> in_set lens l h ->
  exists n, lens !! n = Some l /\ h / 2 ^ (16 - Z.of_nat l) = first_code lens l + bl_count (take n lens) l.
Proof.
  intros Hl [H1 H2]. rewrite start_S in H2 by lia. unfold start in H1. set (p := 2 ^ (16 - Z.of_nat l)) in *.
  assert (0 < p) by (apply Z.pow_pos_nonneg; lia).
  pose proof (Z.div_mod h p ltac:(lia)). pose proof (Z.mod_pos_bound h p ltac:(lia)).
  destruct (nth_symbol lens l (h / p - first_code lens l)) as (n & Hn & Hc); [nia|]. exists n. split; [done|lia].
Qed.

Lemma quick_spec lens l h v : (0 < l <= 15)%nat -> in_set lens l h -> 0 <= h ->
  quick lens 1 15 (Z.to_nat (h / 512)) v -> exists i, Z.to_nat v = i /\ (l <= S i)%nat /\ (i < 15)%nat /\ 0 <= v.
Proof.
  intros Hl Hs Hh (b & Hb & -> & Hq & Ho). exists (b - 1)%nat. split; [lia|]. split; [|lia].
  destruct (decide (b < l)%nat) as [Hbl|]; [|lia]. specialize (Ho l ltac:(lia)).
  rewrite Z2Nat.id in Ho by (apply Z.div_pos; lia). pose proof (Z.div_le_mono (start lens l) h 512 ltac:(lia) (proj1 Hs)). lia.
Qed.

Lemma decode_spec B d in_ al lens : chunk_ok in_ -> (length B <= 22)%nat -> is_alphabet al lens ->
  exists k, (k <= length (rest in_))%nat /\ let B' := B ++ bits_of (take k (rest in_)) in
    (exists n l, is_code lens B' n = true /\ lens !! n = Some l /\ (0 < l <= length B')%nat /\ (length (drop l B') <= 21)%nat
       /\ deflate_decode (with_buf B d) in_ al = Some (with_buf (drop l B') d, advance k in_, Z.of_nat n))
    \/ ((forall n, is_code lens B' n = false) /\ k = length (rest in_) /\ (length B' <= 22)%nat
        /\ exists e, e < 0 /\ deflate_decode (with_buf B d) in_ al = Some (with_buf B' d, advance k in_, e)).
Proof.
  intros Hin HB Hal.
  destruct (accumulate_spec B d in_ DEFLATE_HUFFMAN_BITS Hin ltac:(left; unfold DEFLATE_HUFFMAN_BITS; lia)) as (k & Ea & K1 & K2 & K3).
  unfold DEFLATE_HUFFMAN_BITS in K2, K3. exists k. split; [done|]. set (B' := B ++ bits_of (take k (rest in_))) in *.
  assert (HB' : length B' = (length B + 8 * k)%nat) by (unfold B'; rewrite length_app, bits_of_length, length_take; lia).
  pose proof (norm_range B') as Hn. set (h := norm B') in *. cbv zeta.
  destruct (in_set_exists lens h (ia_complete _ _ Hal) Hn) as (l & Hl & Hs).
  assert (E : deflate_decode (with_buf B d) in_ al
    = if zlen B' - Z.of_nat l <? 0 then Some (with_buf B' d, advance k in_, zlen B' - Z.of_nat l)
      else let '(d, _) := deflate_consume (with_buf B' d) (Z.of_nat l) in
        opt! raw := at_index (al_raw al) (cum lens l - first_code lens l + h / 2 ^ (16 - Z.of_nat l)) in Some (d, advance k in_, raw)).
  { unfold deflate_decode. rewrite Ea. change (rotalumucca (with_buf B' d)) with (msb_value B' * 2 ^ (32 - zlen B')).
    change (bits (with_buf B' d)) with (zlen B'). rewrite norm_rot by lia. fold h.
    rewrite (Z.shiftr_div_pow2 h DEFLATE_HUFFMAN_QL_SHIFT) by (unfold DEFLATE_HUFFMAN_QL_SHIFT, DEFLATE_HUFFMAN_QL_BITS; lia).
    change (2 ^ DEFLATE_HUFFMAN_QL_SHIFT) with 512.
    assert (Hq : 0 <= h / 512 < 128) by (split; [apply Z.div_pos; lia|apply Z.div_lt_upper_bound; lia]).
    destruct (ia_lookup _ _ Hal (Z.to_nat (h / 512)) ltac:(lia)) as (v & Hv & Hqv).
    unfold at_index at 1. rewrite (proj2 (Z.ltb_ge _ 0)), Hv by lia.
    destruct (quick_spec lens l h v Hl Hs ltac:(lia) Hqv) as (i & -> & Hi1 & Hi2 & _).
    rewrite (ia_huf _ _ Hal), (find_symbols_spec lens h i l Hs ltac:(lia) Hi2).
    change (hs_shift (adjusted lens l)) with (16 - Z.of_nat l). rewrite Z.shiftr_div_pow2 by lia. reflexivity. }
  rewrite E. clear E Ea. destruct (Z.ltb_spec (zlen B' - Z.of_nat l) 0) as [Hlt|Hge].
  - right. split; [|split; [lia|split; [lia|exists (zlen B' - Z.of_nat l); split; [lia|reflexivity]]]].
    intros n. destruct (is_code lens B' n) eqn:En; [|done]. exfalso.
    pose proof En as (l' & El' & Hl' & _)%is_code_spec. pose proof (is_code_in_set lens B' n l' (ia_lens _ _ Hal) En El') as Hs'.
    pose proof (Forall_lookup_1 _ _ _ _ (ia_lens _ _ Hal) El'). cbv beta in *.
    pose proof (in_set_unique lens l l' h ltac:(lia) ltac:(lia) Hs Hs'). lia.
  - left. destruct (symbol_of lens l h Hl Hs) as (n & En & Hc). exists n, l.
    pose proof (norm_prefix B' l ltac:(lia) ltac:(lia)) as Hp. fold h in Hp.
    split; [apply is_code_spec; exists l; split; [done|split; [lia|congruence]]|]. split; [done|]. split; [lia|].
    split; [rewrite length_drop; lia|]. rewrite consume_spec by lia. rewrite Hc.
    pose proof (ia_raw _ _ Hal n l En ltac:(lia)) as Hr. pose proof (bl_count_nonneg (take n lens) l). pose proof (cum_le lens l).
    unfold at_index. rewrite (proj2 (Z.ltb_ge _ 0)) by lia.
    replace (cum lens l - first_code lens l + (first_code lens l + bl_count (take n lens) l)) with (cum lens l + bl_count (take n lens) l) by lia.
    by rewrite Hr.
Qed.
