(* ===== verification/DeflateOutput.v ===== *)
(** * Output and code lengths of the decompressor

    The output of the format only grows, by a bounded amount for each bit; the output buffer holds the part of it
    that fits, over what the buffer held before; and the array of code lengths
    holds two lengths to a byte. *)
From S2P Require Import Prelude Strings Memory Deflate DeflateSpec DeflateHuffman DeflateBits.

(** ** The output grows with the input *)

(** From the output [out] and the bits [bs] to the verdict [v]: the output only
    grows, by at most 258 bytes for each bit and [extra] more. *)
Definition fair (extra : nat) (out : list Z) (bs : list bool) (v : verdict) : Prop :=
  (length out <= length (v_out v) <= length out + extra + 258 * length bs)%nat.
Definition grows (k : list Z -> list bool -> verdict) : Prop := forall out bs, fair 0 out bs (k out bs).

Lemma fair_here extra out bs v : v_out v = out -> fair extra out bs v.
Proof. intros <-. unfold fair. lia. Qed.

Lemma fair_mono extra extra' out out' bs bs' v : fair extra' out' bs' v -> (length out <= length out')%nat ->
  (length out' + extra' + 258 * length bs' <= length out + extra + 258 * length bs)%nat -> fair extra out bs v.
Proof. unfold fair. lia. Qed.

Lemma with_bits_grows extra n out bs k :
  (forall v bs', 0 <= v < 2 ^ Z.of_nat n -> (length bs' + n = length bs)%nat -> fair extra out bs (k v bs')) ->
  fair extra out bs (with_bits n out bs k).
Proof.
  intros H. unfold with_bits. destruct (Nat.ltb_spec (length bs) n) as [Hl|Hl]; [by apply fair_here|]. apply H; [|rewrite length_drop; lia].
  pose proof (lsb_value_range (take n bs)) as Hr. rewrite length_take, Nat.min_l in Hr by lia. exact Hr.
Qed.

Lemma huff_shorter lens bs n bs' : huff lens bs = Some (n, bs') -> (length bs' < length bs)%nat.
Proof.
  unfold huff. destruct (List.find _ _) as [m|] eqn:E; [|done]. intros H. injection H as <- <-.
  apply find_some, proj2, is_code_spec in E as (l & Hl & Hlt & _). rewrite length_drop, Hl. cbn. lia.
Qed.

Lemma with_symbol_grows extra lens out bs k :
  (forall c bs', (length bs' < length bs)%nat -> fair extra out bs (k c bs')) -> fair extra out bs (with_symbol lens out bs k).
Proof.
  intros H. unfold with_symbol. destruct (huff lens bs) as [[n bs']|] eqn:E; [|by apply fair_here].
  apply H. by apply huff_shorter in E.
Qed.

Lemma length_code_bound i : let '(base, extra) := default (0, 0%nat) (length_codes !! i) in base + 2 ^ Z.of_nat extra - 1 <= 258.
Proof.
  destruct (length_codes !! i) as [[base extra]|] eqn:E; [|cbn; lia]. cbn [default].
  assert (H : Forall (fun c => c.1 + 2 ^ Z.of_nat c.2 - 1 <= 258) length_codes) by (apply (bool_decide_unpack _); vm_compute; exact I).
  exact (Forall_lookup_1 _ _ _ _ H E).
Qed.

Section Grows.
Context (f : deflate_format) (stale : nat -> Z).

Lemma copy_match_length n distance out : length (copy_match stale n distance out) = (length out + n)%nat.
Proof.
  revert out. induction n as [|n IH]; intros out; cbn [copy_match]; [lia|]. rewrite IH, length_app. cbn. lia.
Qed.

Lemma stored_data_grows n k : grows k -> grows (stored_data n k).
Proof.
  intros Hk. induction n as [|n IH]; [done|]. intros out bs. cbn [stored_data]. apply with_bits_grows. intros b bs' _ Hl.
  eapply fair_mono; [apply IH|..]; rewrite length_app; cbn [length]; lia.
Qed.

Lemma stored_nlen_grows len k : grows k -> grows (stored_nlen len k).
Proof.
  intros Hk out bs. apply with_bits_grows. intros v bs' _ Hl. case_match; [|by apply fair_here].
  eapply fair_mono; [by apply stored_data_grows|lia..].
Qed.

Lemma stored_len_grows k : grows k -> grows (stored_len k).
Proof. intros Hk out bs. apply with_bits_grows. intros v bs' _ Hl. eapply fair_mono; [by apply stored_nlen_grows|lia..]. Qed.

Lemma distance_extra_grows len base extra loop out bs : grows loop -> len <= 258 -> fair 258 out bs (distance_extra stale len base extra loop out bs).
Proof.
  intros Hk Hlen. apply with_bits_grows. intros v bs' _ Hl. case_match; [by apply fair_here|].
  eapply fair_mono; [apply Hk|..]; rewrite copy_match_length; lia.
Qed.

Lemma distance_grows dl len loop out bs : grows loop -> len <= 258 -> fair 258 out bs (distance stale dl len loop out bs).
Proof.
  intros Hk Hlen. apply with_symbol_grows. intros c bs' Hl. destruct (default _ _).
  eapply fair_mono; [by apply distance_extra_grows|lia..].
Qed.

Lemma length_extra_grows dl base extra loop out bs : grows loop -> base + 2 ^ Z.of_nat extra - 1 <= 258 ->
  fair 258 out bs (length_extra stale dl base extra loop out bs).
Proof. intros Hk Hb. apply with_bits_grows. intros v bs' Hv Hl. eapply fair_mono; [apply distance_grows; [done|lia]|lia..]. Qed.

Lemma codes_grows fuel ll dl k : grows k -> grows (codes stale fuel ll dl k).
Proof.
  intros Hk. induction fuel as [|fuel IH]; [intros out bs; by apply fair_here|]. intros out bs. cbn [codes].
  apply with_symbol_grows. intros c bs' Hl.
  case_match; [eapply fair_mono; [apply IH|..]; rewrite length_app; cbn [length]; lia|]. case_match; [eapply fair_mono; [apply Hk|lia..]|].
  pose proof (length_code_bound (c - 257)) as Hb. destruct (default _ _) as [base extra].
  eapply fair_mono; [by apply length_extra_grows|lia..].
Qed.

Lemma coded_block_grows lens hlit k : grows k -> grows (coded_block stale lens hlit k).
Proof. intros Hk out bs. unfold coded_block. case_match; [by apply codes_grows|by apply fair_here]. Qed.

Lemma code_lengths_grows fuel cl hlit target k out lens bs : grows k ->
  fair 0 out bs (code_lengths stale fuel cl hlit target k out lens bs).
Proof.
  intros Hk. revert lens bs. induction fuel as [|fuel IH]; intros lens bs; cbn [code_lengths]; (case_match; [by apply coded_block_grows|]).
  { by apply fair_here. }
  apply with_symbol_grows. intros c bs' Hl.
  assert (Hr : forall value base extra, fair 0 out bs (repeat_length target lens value base extra
    (code_lengths stale fuel cl hlit target k out) out bs')).
  { intros value base extra. eapply (fair_mono 0 0 out out bs bs'); [|lia..]. apply with_bits_grows. intros v bs2 _ Hl2.
    eapply fair_mono; [apply IH|lia..]. }
  by repeat case_match.
Qed.

Lemma codelen_codes_grows n acc hlit hdist k : grows k -> grows (codelen_codes stale n acc hlit hdist k).
Proof.
  intros Hk. revert acc. induction n as [|n IH]; intros acc out bs; cbn [codelen_codes].
  - case_match; [by apply code_lengths_grows|by apply fair_here].
  - apply with_bits_grows. intros v bs' _ Hl. eapply fair_mono; [apply IH|lia..].
Qed.

Lemma dynamic_block_grows k : grows k -> grows (dynamic_block stale k).
Proof. intros Hk out bs. apply with_bits_grows. intros v bs' _ Hl. eapply fair_mono; [by apply codelen_codes_grows|lia..]. Qed.

Lemma block_end_grows h loop : grows loop -> grows (block_end f h loop).
Proof. intros Hk out bs. unfold block_end, footer. repeat case_match; [by apply fair_here..|apply Hk]. Qed.

Lemma blocks_grows fuel : grows (blocks f stale fuel).
Proof.
  induction fuel as [|fuel IH]; intros out bs; cbn [blocks]; [by apply fair_here|]. apply with_bits_grows. intros h bs' _ Hl.
  pose proof (block_end_grows h _ IH) as Hk.
  assert (Hle : (length (align bs') <= length bs')%nat) by (unfold align; rewrite length_drop; lia).
  repeat case_match; [| | |by apply fair_here].
  - eapply fair_mono; [by apply stored_len_grows|lia..].
  - eapply fair_mono; [by apply coded_block_grows|lia..].
  - eapply fair_mono; [by apply dynamic_block_grows|lia..].
Qed.

Lemma zlib_stream_grows : grows (zlib_stream f stale).
Proof.
  intros out bs. apply with_bits_grows. intros h bs' _ Hl. case_match; [by apply fair_here|].
  eapply fair_mono; [apply blocks_grows|lia..].
Qed.

End Grows.

Lemma inflate_spec_grows f stale : grows (inflate_spec f stale).
Proof. destruct f; intros out bs; [apply blocks_grows|apply zlib_stream_grows]. Qed.

(** ** What the buffer held does not matter for the verdict *)

(** The same verdict on outputs of the same length. *)
Definition alike (v1 v2 : verdict) : Prop :=
  length (v_out v1) = length (v_out v2)
  /\ match v1, v2 with
     | Done _, Done _ | Short _, Short _ => True
     | Bad e1 _, Bad e2 _ => e1 = e2
     | _, _ => False
     end.
Definition same_verdicts (k1 k2 : list Z -> list bool -> verdict) : Prop :=
  forall o1 o2 bs, length o1 = length o2 -> alike (k1 o1 bs) (k2 o2 bs).

Lemma with_bits_alike n o1 o2 bs k1 k2 : length o1 = length o2 -> (forall v bs, alike (k1 v bs) (k2 v bs)) ->
  alike (with_bits n o1 bs k1) (with_bits n o2 bs k2).
Proof. intros Ho H. unfold with_bits. by case_match. Qed.

Lemma with_symbol_alike lens o1 o2 bs k1 k2 : length o1 = length o2 -> (forall c bs, alike (k1 c bs) (k2 c bs)) ->
  alike (with_symbol lens o1 bs k1) (with_symbol lens o2 bs k2).
Proof. intros Ho H. unfold with_symbol. destruct (huff lens bs) as [[c bs']|]; [apply H|done]. Qed.

Lemma snoc_length {A} (o1 o2 : list A) b1 b2 : length o1 = length o2 -> length (o1 ++ [b1]) = length (o2 ++ [b2]).
Proof. rewrite !length_app. cbn. lia. Qed.

Section Alike.
Context (f : deflate_format) (s1 s2 : nat -> Z).

Lemma stored_data_alike n k1 k2 : same_verdicts k1 k2 -> same_verdicts (stored_data n k1) (stored_data n k2).
Proof.
  intros Hk. induction n as [|n IH]; [done|]. intros o1 o2 bs Ho. cbn [stored_data]. apply with_bits_alike; [done|].
  intros v bs'. apply IH. by apply snoc_length.
Qed.

Lemma stored_len_alike k1 k2 : same_verdicts k1 k2 -> same_verdicts (stored_len k1) (stored_len k2).
Proof.
  intros Hk o1 o2 bs Ho. apply with_bits_alike; [done|]. intros len bs'. apply with_bits_alike; [done|]. intros nlen bs2.
  case_match; [by apply stored_data_alike|done].
Qed.

Lemma distance_alike dl len k1 k2 : same_verdicts k1 k2 -> same_verdicts (distance s1 dl len k1) (distance s2 dl len k2).
Proof.
  intros Hk o1 o2 bs Ho. apply with_symbol_alike; [done|]. intros c bs'. destruct (default _ _) as [base extra].
  apply with_bits_alike; [done|]. intros v bs2. rewrite Ho. case_match; [done|]. apply Hk. by rewrite !copy_match_length, Ho.
Qed.

Lemma codes_alike fuel ll dl k1 k2 : same_verdicts k1 k2 -> same_verdicts (codes s1 fuel ll dl k1) (codes s2 fuel ll dl k2).
Proof.
  intros Hk. induction fuel as [|fuel IH]; intros o1 o2 bs Ho; cbn [codes]; [done|]. apply with_symbol_alike; [done|]. intros c bs'.
  case_match; [apply IH; by apply snoc_length|]. case_match; [by apply Hk|]. destruct (default _ _) as [base extra].
  apply with_bits_alike; [done|]. intros v bs2. by apply distance_alike.
Qed.

Lemma coded_block_alike lens hlit k1 k2 : same_verdicts k1 k2 -> same_verdicts (coded_block s1 lens hlit k1) (coded_block s2 lens hlit k2).
Proof. intros Hk o1 o2 bs Ho. unfold coded_block. case_match; [by apply codes_alike|done]. Qed.

Lemma code_lengths_alike fuel cl hlit target k1 k2 lens o1 o2 bs : same_verdicts k1 k2 -> length o1 = length o2 ->
  alike (code_lengths s1 fuel cl hlit target k1 o1 lens bs) (code_lengths s2 fuel cl hlit target k2 o2 lens bs).
Proof.
  intros Hk Ho. revert lens bs.
  induction fuel as [|fuel IH]; intros lens bs; cbn [code_lengths]; (case_match; [by apply coded_block_alike|]); [done|].
  apply with_symbol_alike; [done|]. intros c bs'. repeat case_match; by apply with_bits_alike.
Qed.

Lemma codelen_codes_alike n acc hlit hdist k1 k2 : same_verdicts k1 k2 ->
  same_verdicts (codelen_codes s1 n acc hlit hdist k1) (codelen_codes s2 n acc hlit hdist k2).
Proof.
  intros Hk. revert acc. induction n as [|n IH]; intros acc o1 o2 bs Ho; cbn [codelen_codes].
  - case_match; [by apply code_lengths_alike|done].
  - apply with_bits_alike; [done|]. intros. by apply IH.
Qed.

Lemma blocks_alike fuel : same_verdicts (blocks f s1 fuel) (blocks f s2 fuel).
Proof.
  induction fuel as [|fuel IH]; intros o1 o2 bs Ho; cbn [blocks]; [done|]. apply with_bits_alike; [done|]. intros h bs'.
  assert (Hk : same_verdicts (block_end f h (blocks f s1 fuel)) (block_end f h (blocks f s2 fuel))).
  { intros x1 x2 bs2 Hx. unfold block_end, footer. case_match; [repeat case_match; done|by apply IH]. }
  repeat case_match; [by apply stored_len_alike|by apply coded_block_alike| |done].
  apply with_bits_alike; [done|]. intros. by apply codelen_codes_alike.
Qed.
End Alike.

Lemma inflate_spec_alike f s1 s2 bs : alike (inflate_spec f s1 [] bs) (inflate_spec f s2 [] bs).
Proof.
  destruct f; [by apply blocks_alike|]. apply with_bits_alike; [done|]. intros h bs'. case_match; [done|by apply blocks_alike].
Qed.

(** ** The output buffer *)

(** A buffer with the contents [data] of which the first [len] bytes may be
    written, after the output [out]. *)
Definition overlay (len : nat) (out data : list Z) : list Z := take len out ++ drop (Nat.min len (length out)) data.

Lemma overlay_snoc len out data b : (length out < len <= length data)%nat ->
  <[length out := b]> (overlay len out data) = overlay len (out ++ [b]) data.
Proof.
  intros Hl. unfold overlay. rewrite !take_ge by (rewrite ?length_app; cbn; lia). rewrite length_app. change (length [b]) with 1%nat.
  rewrite !Nat.min_r by lia. rewrite insert_app_r_alt, Nat.sub_diag by lia.
  destruct (lookup_lt_is_Some_2 data (length out) ltac:(lia)) as [x Hx]. rewrite (drop_S data x (length out) Hx).
  cbn. rewrite <- app_assoc. cbn. do 3 f_equal. lia.
Qed.

Lemma overlay_full len out data more : (len <= length out)%nat -> overlay len (out ++ more) data = overlay len out data.
Proof. intros Hl. unfold overlay. rewrite take_app_le by lia. rewrite length_app, !Nat.min_l by lia. done. Qed.

Lemma overlay_length len out data : (len <= length data)%nat -> length (overlay len out data) = length data.
Proof. intros Hl. unfold overlay. rewrite length_app, length_take, length_drop. lia. Qed.

Lemma overlay_old len out data i : (i < len)%nat -> (i < length out)%nat -> overlay len out data !! i = out !! i.
Proof. intros H1 H2. unfold overlay. rewrite lookup_app_l by (rewrite length_take; lia). by apply lookup_take_lt. Qed.

Lemma overlay_stale len out data : (length out < len)%nat -> overlay len out data !! length out = data !! length out.
Proof.
  intros H. unfold overlay. rewrite lookup_app_r by (rewrite length_take; lia). rewrite length_take, lookup_drop. f_equal. lia.
Qed.

Section Copy.
Context (a : arch) (data0 : list Z) (len : nat).
Hypothesis len_ok : (len <= length data0)%nat.

Definition stale (i : nat) : Z := default 0 (data0 !! i).

(** The output chunk after the output [out]. *)
Definition out_ok (out : list Z) (oc : deflate_chunk) : Prop := oc = Chunk (overlay len out data0) (zlen out) (Z.of_nat len).

Lemma copy_loop_src n src out offset : (length out + n <= len)%nat -> 0 <= offset -> offset + Z.of_nat n <= zlen src ->
  copy_loop n (Some src) (overlay len out data0) (zlen out) offset
  = Some (overlay len (out ++ take n (drop (Z.to_nat offset) src)) data0).
Proof.
  revert out offset. induction n as [|n IH]; intros out offset Hn Ho Hs; [cbn [copy_loop take]; by rewrite app_nil_r|].
  cbn [copy_loop]. destruct (lookup_lt_is_Some_2 src (Z.to_nat offset) ltac:(lia)) as [b Hb].
  unfold at_index. rewrite (proj2 (Z.ltb_ge offset 0)), Hb by lia.
  rewrite set_index_ok by (rewrite overlay_length by done; lia). rewrite Nat2Z.id, overlay_snoc by lia.
  replace (zlen out + 1) with (zlen (out ++ [b])) by (rewrite zlen_app; done).
  rewrite IH by (rewrite ?length_app; cbn [length]; lia). rewrite (drop_S src b (Z.to_nat offset) Hb). cbn [take]. rewrite <- app_assoc.
  cbn [app]. do 5 f_equal. f_equal. lia.
Qed.

Lemma copy_loop_self n out distance : (length out + n <= len)%nat -> 0 <= distance <= zlen out ->
  copy_loop n None (overlay len out data0) (zlen out) (zlen out - distance) = Some (overlay len (copy_match stale n distance out) data0).
Proof.
  revert out. induction n as [|n IH]; intros out Hn Hd; [done|]. cbn [copy_loop copy_match].
  set (b := if distance =? 0 then stale (length out) else default 0 (out !! Z.to_nat (zlen out - distance))).
  assert (Hb : at_index (overlay len out data0) (zlen out - distance) = Some b).
  { unfold at_index, b. rewrite (proj2 (Z.ltb_ge _ 0)) by lia. destruct (Z.eqb_spec distance 0) as [->|].
    - rewrite Z.sub_0_r, Nat2Z.id, overlay_stale by lia. unfold stale.
      destruct (lookup_lt_is_Some_2 data0 (length out) ltac:(lia)) as [x ->]. done.
    - rewrite overlay_old by lia. destruct (lookup_lt_is_Some_2 out (Z.to_nat (zlen out - distance)) ltac:(lia)) as [x ->]. done. }
  rewrite Hb. rewrite set_index_ok by (rewrite overlay_length by done; lia). rewrite Nat2Z.id, overlay_snoc by lia.
  assert (E : zlen (out ++ [b]) = zlen out + 1) by (by rewrite zlen_app). rewrite <- E.
  replace (zlen out - distance + 1) with (zlen (out ++ [b]) - distance) by lia. apply IH; [rewrite length_app; cbn [length]; lia|lia].
Qed.

Lemma copy_match_add n m distance out :
  copy_match stale (n + m) distance out = copy_match stale m distance (copy_match stale n distance out).
Proof. revert out. induction n as [|n IH]; intros out; [done|]. cbn [Nat.add copy_match]. apply IH. Qed.

Lemma copy_match_prefix n distance out : exists more, copy_match stale n distance out = out ++ more.
Proof.
  revert out. induction n as [|n IH]; intros out; [exists []; by rewrite app_nil_r|]. cbn [copy_match].
  destruct (IH (out ++ [if distance =? 0 then stale (length out) else default 0 (out !! Z.to_nat (zlen out - distance))])) as [more ->].
  eexists. by rewrite <- app_assoc.
Qed.

(** What [deflate_copy] copies when [out] may still take [len] bytes. *)
Lemma deflate_copy_src src oc out offset n : out_ok out oc -> 0 <= offset -> 0 <= n -> offset + n <= zlen src ->
  zlen out + n < 2 ^ size_bits a ->
  exists oc', deflate_copy a oc (Some src) offset n = Some oc' /\ out_ok (out ++ take (Z.to_nat n) (drop (Z.to_nat offset) src)) oc'.
Proof.
  intros -> Ho Hn Hs Hw. unfold deflate_copy. cbn [ck_offset ck_len ck_data].
  set (more := take (Z.to_nat n) (drop (Z.to_nat offset) src)).
  assert (Hm : zlen (out ++ more) = zlen out + n) by (rewrite zlen_app; unfold more; rewrite length_take, length_drop; lia).
  assert (E : (if zlen out <? Z.of_nat len
               then copy_loop (Z.to_nat (if n <? Z.of_nat len - zlen out then n else Z.of_nat len - zlen out)) (Some src)
                      (overlay len out data0) (zlen out) offset
               else Some (overlay len out data0)) = Some (overlay len (out ++ more) data0)).
  { destruct (Z.ltb_spec (zlen out) (Z.of_nat len)); [|by rewrite overlay_full by lia].
    destruct (Z.ltb_spec n (Z.of_nat len - zlen out)).
    - rewrite copy_loop_src by lia. done.
    - rewrite copy_loop_src by lia. set (c := Z.to_nat (Z.of_nat len - zlen out)). unfold more.
      replace (Z.to_nat n) with (c + (Z.to_nat n - c))%nat by lia. rewrite <- take_take_drop, app_assoc.
      f_equal. symmetry. apply overlay_full. rewrite length_app, length_take, length_drop. lia. }
  cbv zeta. rewrite E. eexists. split; [done|]. unfold out_ok. rewrite Hm, uwrap_small by lia. done.
Qed.

Lemma deflate_copy_self oc out distance n : out_ok out oc -> 0 <= distance <= zlen out -> 0 <= n ->
  zlen out + n < 2 ^ size_bits a ->
  exists oc', deflate_copy a oc None (zlen out - distance) n = Some oc' /\ out_ok (copy_match stale (Z.to_nat n) distance out) oc'.
Proof.
  intros -> Hd Hn Hw. unfold deflate_copy. cbn [ck_offset ck_len ck_data].
  set (out' := copy_match stale (Z.to_nat n) distance out).
  assert (Hm : zlen out' = zlen out + n) by (unfold out'; rewrite copy_match_length; lia).
  assert (E : (if zlen out <? Z.of_nat len
               then copy_loop (Z.to_nat (if n <? Z.of_nat len - zlen out then n else Z.of_nat len - zlen out)) None
                      (overlay len out data0) (zlen out) (zlen out - distance)
               else Some (overlay len out data0)) = Some (overlay len out' data0)).
  { destruct (Z.ltb_spec (zlen out) (Z.of_nat len)).
    2: { destruct (copy_match_prefix (Z.to_nat n) distance out) as [more Em]. unfold out'. rewrite Em, overlay_full by lia. done. }
    destruct (Z.ltb_spec n (Z.of_nat len - zlen out)).
    - rewrite copy_loop_self by lia. done.
    - rewrite copy_loop_self by lia. set (c := Z.to_nat (Z.of_nat len - zlen out)). unfold out'.
      replace (Z.to_nat n) with (c + (Z.to_nat n - c))%nat by lia. rewrite copy_match_add.
      destruct (copy_match_prefix (Z.to_nat n - c) distance (copy_match stale c distance out)) as [more Em]. rewrite Em.
      f_equal. symmetry. apply overlay_full. rewrite copy_match_length. lia. }
  cbv zeta. rewrite E. eexists. split; [done|]. unfold out_ok. rewrite Hm, uwrap_small by lia. done.
Qed.
End Copy.

(** ** Code lengths in their array *)

Definition nibs (lengths : list Z) : list Z := lengths ≫= (fun b => [b mod 16; b / 16]).

Lemma nibs_length lengths : length (nibs lengths) = (2 * length lengths)%nat.
Proof. induction lengths as [|b l IH]; [done|]. cbn [nibs mbind list_bind length] in *. cbn. unfold nibs in IH. lia. Qed.

Lemma nibs_lookup lengths n : nibs lengths !! n = (fun b => if Nat.even n then b mod 16 else b / 16) <$> lengths !! (n / 2)%nat.
Proof.
  revert n. induction lengths as [|b l IH]; intros n; [done|]. change (nibs (b :: l)) with (b mod 16 :: b / 16 :: nibs l).
  destruct n as [|[|n]]; [done|done|]. replace (S (S n) / 2)%nat with (S (n / 2)) by (symmetry; apply (Nat.div_add_l 1 2 n); lia).
  cbn [lookup list_lookup Nat.even]. apply IH.
Qed.

Lemma nibble_check : forallb (fun b => (Z.land (Z.shiftr b 0) 15 =? b mod 16) && (Z.land (Z.shiftr b 4) 15 =? b / 16)
    && forallb (fun v => (implb (b mod 16 =? 0) (u8 (Z.lor b (Z.shiftl v 0)) =? b + v))
                         && (implb (b / 16 =? 0) (u8 (Z.lor b (Z.shiftl v 4)) =? b + 16 * v))) (seqZ 0 16)) (seqZ 0 256) = true.
Proof. vm_compute. reflexivity. Qed.

Lemma nibble_ok b : byte_ok b -> Z.land (Z.shiftr b 0) 15 = b mod 16 /\ Z.land (Z.shiftr b 4) 15 = b / 16
  /\ forall v, 0 <= v < 16 -> (b mod 16 = 0 -> u8 (Z.lor b (Z.shiftl v 0)) = b + v)
                          /\ (b / 16 = 0 -> u8 (Z.lor b (Z.shiftl v 4)) = b + 16 * v).
Proof.
  intros Hb. pose proof (range_check 0 256 _ nibble_check b ltac:(unfold byte_ok in Hb; lia)) as H. cbv beta in H.
  rewrite !andb_true_iff, !Z.eqb_eq in H. destruct H as [[H1 H2] H3]. split; [done|]. split; [done|]. intros v Hv.
  pose proof (range_check 0 16 _ H3 v Hv) as H. cbv beta in H. apply andb_true_iff in H as [H4 H5].
  split; intros E; [rewrite E in H4|rewrite E in H5]; rewrite Z.eqb_refl in *; by apply Z.eqb_eq.
Qed.

(** An index into the array, as its byte and half. *)
Lemma halves n : (n = 2 * (n / 2) /\ Nat.even n = true \/ n = 2 * (n / 2) + 1 /\ Nat.even n = false)%nat.
Proof.
  destruct (Nat.Even_or_Odd n) as [[k ->]|[k ->]].
  - left. rewrite Nat.even_even. replace (2 * k / 2)%nat with k by (apply (Nat.div_unique _ _ _ 0); lia). done.
  - right. rewrite Nat.even_odd. replace ((2 * k + 1) / 2)%nat with k by (apply (Nat.div_unique _ _ _ 1); lia). done.
Qed.

Lemma index_halves n : Z.of_nat n / 2 = Z.of_nat (n / 2) /\ 4 * (Z.of_nat n mod 2) = if Nat.even n then 0 else 4.
Proof.
  destruct (halves n) as [[E ->]|[E ->]].
  - split; [symmetry; apply (Z.div_unique _ _ _ 0); lia|].
    replace (Z.of_nat n mod 2) with 0 by (apply (Z.mod_unique _ _ (Z.of_nat (n / 2))); lia). done.
  - split; [symmetry; apply (Z.div_unique _ _ _ 1); lia|].
    replace (Z.of_nat n mod 2) with 1 by (apply (Z.mod_unique _ _ (Z.of_nat (n / 2))); lia). done.
Qed.

Lemma deflate_length_nibs lengths n : bytes_ok lengths -> deflate_length lengths (Z.of_nat n) = nibs lengths !! n.
Proof.
  intros Hb. unfold deflate_length. destruct (index_halves n) as [-> ->]. rewrite nibs_lookup. unfold at_index.
  rewrite (proj2 (Z.ltb_ge _ 0)), Nat2Z.id by lia. destruct (lengths !! (n / 2)%nat) as [b|] eqn:E; [|done]. cbn [fmap option_fmap option_map].
  assert (Hbb : byte_ok b) by (by eapply (Forall_lookup_1 _ _ _ _ Hb)). destruct (nibble_ok b Hbb) as (H1 & H2 & _).
  by destruct (Nat.even n); [rewrite H1|rewrite H2].
Qed.

Lemma nibs_inj x y : bytes_ok x -> bytes_ok y -> nibs x = nibs y -> x = y.
Proof.
  intros Hx. revert y. induction Hx as [|b x Hb Hx IH]; intros y Hy E; destruct Hy as [|c y Hc Hy]; try discriminate E; [done|].
  change (nibs (?b :: ?l)) with (b mod 16 :: b / 16 :: nibs l) in E. injection E as E1 E2 E3. f_equal; [|by apply IH].
  rewrite (Z.div_mod b 16), (Z.div_mod c 16) by lia. congruence.
Qed.

(** Storing a length where there is none yet. *)
Lemma deflate_set_length_nibs lengths n v : bytes_ok lengths -> nibs lengths !! n = Some 0 -> 0 <= v < 16 ->
  exists lengths', deflate_set_length lengths (Z.of_nat n) v = Some lengths' /\ bytes_ok lengths'
    /\ length lengths' = length lengths /\ nibs lengths' = <[n := v]> (nibs lengths).
Proof.
  intros Hb Hn Hv. unfold deflate_set_length. destruct (index_halves n) as [-> ->].
  rewrite nibs_lookup in Hn. destruct (lengths !! (n / 2)%nat) as [b|] eqn:E; [|done]. cbn [fmap option_fmap option_map] in Hn.
  injection Hn as Hn. pose proof (lookup_lt_Some _ _ _ E) as Hlt.
  assert (Hbb : byte_ok b) by (by eapply (Forall_lookup_1 _ _ _ _ Hb)). destruct (nibble_ok b Hbb) as (_ & _ & H3).
  unfold at_index. rewrite (proj2 (Z.ltb_ge _ 0)), Nat2Z.id, E by lia. rewrite set_index_ok, Nat2Z.id by lia.
  set (b' := u8 _). assert (Hb' : b' = if Nat.even n then b + v else b + 16 * v).
  { unfold b'. destruct (H3 v Hv) as [H4 H5]. destruct (Nat.even n); auto. }
  unfold byte_ok in Hbb. pose proof (Z.div_mod b 16 ltac:(lia)). pose proof (Z.mod_pos_bound b 16 ltac:(lia)).
  assert (b / 16 < 16) by (apply Z.div_lt_upper_bound; lia).
  eexists. split; [done|]. split; [|split; [apply length_insert|]].
  { apply Forall_insert; [done|]. unfold byte_ok. rewrite Hb'. destruct (Nat.even n); lia. }
  apply list_eq. intros m. rewrite nibs_lookup.
  assert (Hnl : (n < length (nibs lengths))%nat) by (rewrite nibs_length; destruct (halves n) as [[En _]|[En _]]; lia).
  destruct (decide (m / 2 = n / 2)%nat) as [Hd|Hd].
  - rewrite Hd, list_lookup_insert_eq by done. cbn [fmap option_fmap option_map]. destruct (decide (m = n)) as [->|Hne].
    + rewrite list_lookup_insert_eq by done. f_equal. rewrite Hb'. destruct (Nat.even n).
      * symmetry. apply (Z.mod_unique _ _ (b / 16)); lia.
      * symmetry. apply (Z.div_unique _ _ _ (b mod 16)); lia.
    + rewrite list_lookup_insert_ne, nibs_lookup, Hd, E by done. cbn [fmap option_fmap option_map]. f_equal. rewrite Hb'.
      assert (Hev : Nat.even m = negb (Nat.even n)).
      { destruct (halves n) as [[En ->]|[En ->]], (halves m) as [[Em ->]|[Em ->]]; try done; lia. }
      rewrite Hev. destruct (Nat.even n); cbn [negb].
      * symmetry. apply (Z.div_unique _ _ _ (b mod 16 + v)); lia.
      * symmetry. apply (Z.mod_unique _ _ (b / 16 + v)); lia.
  - rewrite list_lookup_insert_ne by done. rewrite list_lookup_insert_ne by congruence. by rewrite nibs_lookup.
Qed.
