(* ===== verification/DeflateCorrect.v ===== *)
(** * The decompressor implements the format

    Every label of [deflate_inflate] has a meaning in terms of the format: what
    the verdict on the rest of the stream is when the decompressor is there.
    Every jump preserves the meaning and consumes bits, so that the
    decompressor terminates with the verdict of the format, however the stream
    is cut into chunks and however small the output buffer is. *)
From S2P Require Import Prelude Strings Memory Deflate DeflateSpec DeflateHuffman DeflateBits DeflateOutput.

(** ** The stream of bits *)

(** What is accumulated, what is left of the chunk, and what comes later. *)
Definition stream (B : list bool) (in_ : deflate_chunk) (F : list bool) : list bool := B ++ bits_of (rest in_) ++ F.

Lemma stream_length B in_ F : length (stream B in_ F) = (length B + 8 * length (rest in_) + length F)%nat.
Proof. unfold stream. rewrite !length_app, bits_of_length. lia. Qed.

Lemma stream_refill B in_ F k : chunk_ok in_ -> (k <= length (rest in_))%nat ->
  stream (B ++ bits_of (take k (rest in_))) (advance k in_) F = stream B in_ F.
Proof.
  intros Hin Hk. unfold stream. rewrite rest_advance by done. rewrite <- !app_assoc. f_equal.
  rewrite app_assoc. by rewrite <- bits_of_app, take_drop.
Qed.

Lemma stream_drop B in_ F t : (t <= length B)%nat -> stream (drop t B) in_ F = drop t (stream B in_ F).
Proof. intros Ht. unfold stream. by rewrite drop_app_le by lia. Qed.

Lemma stream_take B in_ F t : (t <= length B)%nat -> take t (stream B in_ F) = take t B.
Proof. intros Ht. unfold stream. by rewrite take_app_le by lia. Qed.

(** What a function that takes bits leaves behind when the input ends. *)
Record stuck (B' : list bool) (in_ in' : deflate_chunk) (B F : list bool) : Prop := {
  stuck_ok : chunk_ok in';
  stuck_rest : rest in' = [];
  stuck_stream : stream B' in' F = stream B in_ F;
  stuck_short : (length B' <= 22)%nat }.

Lemma extract_stream B d in_ (t : nat) F : chunk_ok in_ -> (t <= 16)%nat -> (length B <= 32)%nat ->
  exists B' in', let S := stream B in_ F in
    (deflate_extract (with_buf B d) in_ (Z.of_nat t) = Some (with_buf B' d, in', lsb_value (take t S)) /\ (t <= length S)%nat
     /\ chunk_ok in' /\ stream B' in' F = drop t S /\ (length B' <= Nat.max (length B - t) 7)%nat)
    \/ (exists e, deflate_extract (with_buf B d) in_ (Z.of_nat t) = Some (with_buf B' d, in', e) /\ e < 0
        /\ stuck B' in_ in' B F /\ (length B' < t)%nat).
Proof.
  intros Hin Ht HB. destruct (extract_spec B d in_ t Hin Ht ltac:(lia)) as (k & Hk & H). set (B' := B ++ bits_of (take k (rest in_))) in *.
  pose proof (stream_refill B in_ F k Hin Hk) as Hs. fold B' in Hs. cbv zeta in H.
  destruct H as [(Hl & -> & Hb)|(Hl & Hk' & ->)].
  - exists (drop t B'), (advance k in_). left. rewrite <- Hs, stream_take by done. split; [done|].
    split; [rewrite stream_length; lia|]. split; [by apply advance_ok|]. split; [by apply stream_drop|done].
  - exists B', (advance k in_). right. eexists. split; [done|]. split; [lia|]. split; [|done].
    split; [by apply advance_ok|by rewrite rest_advance, Hk', drop_all by done|done|lia].
Qed.

Lemma decode_stream B d in_ al lens F : chunk_ok in_ -> (length B <= 22)%nat -> is_alphabet al lens ->
  exists B' in', let S := stream B in_ F in
    (exists n l, deflate_decode (with_buf B d) in_ al = Some (with_buf B' d, in', Z.of_nat n) /\ huff lens S = Some (n, drop l S)
       /\ lens !! n = Some l /\ (0 < l <= length S)%nat /\ chunk_ok in' /\ stream B' in' F = drop l S /\ (length B' <= 21)%nat)
    \/ (exists e, deflate_decode (with_buf B d) in_ al = Some (with_buf B' d, in', e) /\ e < 0
        /\ stuck B' in_ in' B F /\ (F = [] -> huff lens S = None)).
Proof.
  intros Hin HB Hal. destruct (decode_spec B d in_ al lens Hin HB Hal) as (k & Hk & H).
  set (B' := B ++ bits_of (take k (rest in_))) in *.
  pose proof (stream_refill B in_ F k Hin Hk) as Hs. fold B' in Hs. cbv zeta in H.
  destruct H as [(n & l & Hc & Hn & Hl & Hb & ->)|(Hc & Hk' & Hb & e & He & ->)].
  - exists (drop l B'), (advance k in_). left. exists n, l. split; [done|]. rewrite <- Hs.
    split; [unfold stream; rewrite (huff_code lens B' _ n l (ia_lens _ _ Hal) Hc Hn), <- drop_app_le by lia; done|].
    split; [done|]. split; [rewrite stream_length; lia|]. split; [by apply advance_ok|]. split; [apply stream_drop; lia|done].
  - exists B', (advance k in_). right. exists e. split; [done|]. split; [done|]. split.
    + split; [by apply advance_ok|by rewrite rest_advance, Hk', drop_all by done|done|done].
    + intros ->. rewrite <- Hs. unfold stream. rewrite rest_advance, Hk', drop_all by done. rewrite !app_nil_r. by apply huff_none.
Qed.

Lemma codes_S st n ll dl k out S : codes st (Datatypes.S n) ll dl k out S
  = with_symbol ll out S (fun c bs =>
      if (c <? 256)%nat then codes st n ll dl k (out ++ [Z.of_nat c]) bs
      else if (c =? 256)%nat then k out bs
      else let '(base, extra) := default (0, 0%nat) (length_codes !! (c - 257)%nat) in
           length_extra st dl base extra (codes st n ll dl k) out bs).
Proof. reflexivity. Qed.

(** ** The meaning of the labels *)

Section Simulation.
Context (a : arch) (f : deflate_format) (data0 : list Z) (len : nat) (F : list bool) (v : verdict).
Hypothesis len_ok : (len <= length data0)%nat.
Hypothesis F_bytes : (length F mod 8 = 0)%nat.
Hypothesis v_fits : zlen (v_out v) < 2 ^ size_bits a.

Abbreviation stale := (stale data0).

#[local] Opaque complete make_alphabet codes.

(** What follows the current block. *)
Definition after (d : deflate) (fuel : nat) : list Z -> list bool -> verdict := block_end f (header d) (blocks f stale fuel).

(** The array holds the code lengths [lens] and nothing else. *)
Definition lens_stored (d : deflate) (lens : list nat) : Prop :=
  nibs (lengths d) = map Z.of_nat lens ++ replicate (320 - length lens) 0 /\ lens_ok lens.

(** The counts of the current dynamic block. *)
Definition counts_ok (d : deflate) (hlit hdist : nat) : Prop :=
  litlen_count d = Z.of_nat hlit /\ distance_count d = Z.of_nat hdist /\ (257 <= hlit <= 288)%nat /\ (1 <= hdist <= 32)%nat.

(** Decoding with the alphabets in use. *)
Definition lz_loop (d : deflate) (S : list bool) (dl : list nat) (loop : list Z -> list bool -> verdict) : Prop :=
  exists fuel n ll, (length S < fuel)%nat /\ (length S < n)%nat /\ is_alphabet (litlen d) ll /\ (length ll <= 288)%nat
    /\ is_alphabet (distance_codelen d) dl /\ (length dl <= 32)%nat /\ loop = codes stale n ll dl (after d fuel).

(** Reading code lengths with the code length alphabet. *)
Definition lengths_loop (d : deflate) (S : list bool) (out : list Z) (lens : list nat)
  (loop : list nat -> list bool -> verdict) (cl : list nat) (target : nat) : Prop :=
  exists fuel n hlit hdist, (length S < fuel)%nat /\ (length S < n)%nat /\ counts_ok d hlit hdist
    /\ is_alphabet (distance_codelen d) cl /\ length cl = 19%nat
    /\ target = (hlit + hdist)%nat /\ length_target d = Z.of_nat target /\ length_index d = zlen lens /\ (length lens < target)%nat
    /\ lens_stored d lens /\ loop = code_lengths stale n cl hlit target (after d fuel) out.

(** Reading the lengths of the code length codes: [acc] is read, [n] are left. *)
Definition codelen_state (d : deflate) (acc : list nat) (n : nat) : Prop :=
  length_index d = zlen acc /\ length_target d = zlen acc + Z.of_nat n /\ length_target d <= 19
  /\ Forall (fun x => (x <= 7)%nat) acc /\ lens_stored d (codelen_lengths acc).

Definition meaning (l : label) (d : deflate) (out : list Z) (S : list bool) : Prop :=
  match l with
  | zlib_header => zlib_stream f stale out S = v
  | block_header => exists fuel, (length S < fuel)%nat /\ blocks f stale fuel out S = v
  | literal_block => exists fuel, (length S < fuel)%nat /\ stored_len (after d fuel) out (align S) = v
  | literal_len => exists fuel, (length S < fuel)%nat /\ stored_len (after d fuel) out S = v
  | literal_nlen => exists fuel, (length S < fuel)%nat /\ 0 <= remaining d < 65536 /\ stored_nlen (remaining d) (after d fuel) out S = v
  | literal_data => exists fuel, (length S < fuel)%nat /\ 0 <= remaining d < 65536 /\ stored_data (Z.to_nat (remaining d)) (after d fuel) out S = v
  | static_block => exists fuel, (length S < fuel)%nat /\ coded_block stale fixed_lengths 288 (after d fuel) out S = v
  | dynamic_header => exists fuel, (length S < fuel)%nat /\ dynamic_block stale (after d fuel) out S = v
  | dynamic_codelen => exists fuel acc hlit hdist n, (length S < fuel)%nat /\ counts_ok d hlit hdist /\ codelen_state d acc n
      /\ codelen_codes stale n acc hlit hdist (after d fuel) out S = v
  | dynamic_litlen_distance => exists lens loop cl target, lengths_loop d S out lens loop cl target
      /\ cur_length d = Z.of_nat (default 0%nat (last lens)) /\ loop lens S = v
  | dynamic_litlen_distance_extra => exists lens loop cl target value base extra, lengths_loop d S out lens loop cl target
      /\ cur_length d = Z.of_nat value /\ (value <= 15)%nat /\ dup_len d = Z.of_nat base /\ (0 < base)%nat
      /\ extra_bits d = Z.of_nat extra /\ (extra <= 7)%nat /\ repeat_length target lens value base extra loop out S = v
  | construct_alphabets => exists fuel hlit hdist lens, (length S < fuel)%nat /\ counts_ok d hlit hdist
      /\ length lens = (hlit + hdist)%nat /\ lens_stored d lens /\ coded_block stale lens hlit (after d fuel) out S = v
  | lzhuf_litlen => exists dl loop, lz_loop d S dl loop /\ loop out S = v
  | lzhuf_litlen_extra => exists dl loop extra, lz_loop d S dl loop /\ 0 <= dup_len d /\ extra_bits d = Z.of_nat extra /\ (extra <= 5)%nat
      /\ dup_len d + 2 ^ Z.of_nat extra - 1 <= 258 /\ length_extra stale dl (dup_len d) extra loop out S = v
  | lzhuf_distance => exists dl loop, lz_loop d S dl loop /\ 0 <= dup_len d <= 258 /\ distance stale dl (dup_len d) loop out S = v
  | lzhuf_distance_extra => exists dl loop extra, lz_loop d S dl loop /\ 0 <= dup_len d <= 258 /\ 0 <= dup_distance d
      /\ extra_bits d = Z.of_nat extra /\ (extra <= 14)%nat /\ distance_extra stale (dup_len d) (dup_distance d) extra loop out S = v
  | block_done => exists fuel, (length S < fuel)%nat /\ after d fuel out S = v
  | zlib_footer => (if (length (align S) <? 32)%nat then Short out else Done out) = v
  | zlib_adler32 => (if (length S <? 32)%nat then Short out else Done out) = v
  | finished => v = Done out
  end.

(** How many bits may be accumulated at a label. *)
Definition buffer_ok (l : label) (B : list bool) : Prop :=
  match l with
  | literal_len => (length B mod 8 = 0 /\ length B <= 22)%nat
  | literal_nlen => (length B mod 8 = 0 /\ length B < 16)%nat
  | literal_data => B = []
  | zlib_adler32 => (length B mod 8 = 0 /\ length B <= 32)%nat
  | zlib_header | finished => (length B <= 32)%nat
  | _ => (length B <= 22)%nat
  end.

(** Sizes of the arrays. *)
Record shape (d : deflate) : Prop := {
  sh_format : format d = f;
  sh_lengths : length (lengths d) = 160%nat;
  sh_bytes : bytes_ok (lengths d);
  sh_litlen_raw : length (al_raw (litlen d)) = 288%nat;
  sh_litlen_lookup : length (al_lookup (litlen d)) = 128%nat;
  sh_distance_raw : length (al_raw (distance_codelen d)) = 32%nat;
  sh_distance_lookup : length (al_lookup (distance_codelen d)) = 128%nat }.

Record at_label (l : label) (B : list bool) (d : deflate) (in_ oc : deflate_chunk) (out : list Z) : Prop := {
  at_buffer : buffer_ok l B;
  at_chunk : chunk_ok in_;
  at_shape : shape d;
  at_out : out_ok data0 len out oc;
  at_meaning : meaning l d out (stream B in_ F) }.

Definition rank (l : label) : nat :=
  match l with
  | block_done => 3
  | literal_data => 4
  | zlib_footer | static_block | dynamic_litlen_distance_extra => 2
  | zlib_adler32 | literal_block | construct_alphabets | dynamic_codelen | lzhuf_litlen_extra | lzhuf_distance_extra => 1
  | _ => 0
  end.

Definition measure (l : label) (B : list bool) (in_ : deflate_chunk) : nat := (8 * (length B + 8 * length (rest in_)) + rank l)%nat.

(** What a step leads to from a state with measure [m]. *)
Definition leads (m : nat) (r : option (deflate * deflate_chunk * deflate_chunk * jump)) : Prop :=
  exists d' in' oc' j, r = Some (d', in', oc', j) /\
  match j with
  | Goto l' => exists B' d0 out', d' = with_buf B' d0 /\ at_label l' B' d0 in' oc' out' /\ (measure l' B' in' < m)%nat
  | Return (Ok _) => exists B' d0 out', d' = with_buf B' d0 /\ shape d0 /\ out_ok data0 len out' oc' /\ chunk_ok in'
      /\ ((resume d0 = None /\ (length B' <= 32)%nat /\ v = Done out')
          \/ (exists l', resume d0 = Some l' /\ rest in' = [] /\ at_label l' B' d0 in' oc' out' /\ (F = [] -> v = Short out')))
  | Return (Err e) => exists out', out_ok data0 len out' oc' /\ v = Bad e out'
  end.

(** How a call ends: refused, finished, or waiting for more input. *)
Definition ends (r : option (deflate * deflate_chunk * deflate_chunk * res unit)) : Prop :=
  exists d' in' oc' rc, r = Some (d', in', oc', rc) /\
  match rc with
  | Ok _ => exists B' d0 out', d' = with_buf B' d0 /\ shape d0 /\ out_ok data0 len out' oc' /\ chunk_ok in'
      /\ ((resume d0 = None /\ (length B' <= 32)%nat /\ v = Done out')
          \/ (exists l', resume d0 = Some l' /\ rest in' = [] /\ at_label l' B' d0 in' oc' out' /\ (F = [] -> v = Short out')))
  | Err e => exists out', out_ok data0 len out' oc' /\ v = Bad e out'
  end.

Lemma leads_return_err m e d in_ oc out : out_ok data0 len out oc -> v = Bad e out -> leads m (return_rc (Err e) d in_ oc).
Proof. intros Ho Hv. exists d, in_, oc, (Return (Err e)). split; [done|]. by exists out. Qed.

Lemma leads_goto m l B d in_ oc out : at_label l B d in_ oc out -> (measure l B in_ < m)%nat -> leads m (goto l (with_buf B d) in_ oc).
Proof. intros H Hm. exists (with_buf B d), in_, oc, (Goto l). split; [done|]. by exists B, d, out. Qed.

Lemma shape_ext d d' : format d' = format d -> lengths d' = lengths d -> litlen d' = litlen d ->
  distance_codelen d' = distance_codelen d -> shape d -> shape d'.
Proof. intros E1 E2 E3 E4 [H1 H2 H3 H4 H5 H6 H7]. split; congruence. Qed.

(** Waiting at a label for more input. *)
Lemma leads_wait_at m l B B' d in_ in' oc out : at_label l B d in_ oc out -> chunk_ok in' -> rest in' = [] ->
  stream B' in' F = stream B in_ F -> buffer_ok l B' -> (F = [] -> v = Short out) -> leads m (wait_at l (with_buf B' d) in' oc).
Proof.
  intros [H1 H2 H3 H4 H5] S1 S2 S3 Hb Hv. exists (with_buf B' (set_resume (Some l) d)), in', oc, (Return (Ok tt)). split; [done|].
  exists B', (set_resume (Some l) d), out. split; [done|].
  assert (Hs : shape (set_resume (Some l) d)) by (by apply (shape_ext d)).
  split; [done|]. split; [done|]. split; [done|]. right. exists l. split; [done|]. split; [done|]. split; [|done].
  split; [done|done|done|done|]. rewrite S3. by destruct l.
Qed.

Lemma leads_wait m l B B' d in_ in' oc out : at_label l B d in_ oc out -> stuck B' in_ in' B F -> buffer_ok l B' ->
  (F = [] -> v = Short out) -> leads m (wait_at l (with_buf B' d) in' oc).
Proof. intros Hat [S1 S2 S3 S4]. by apply leads_wait_at with (B := B) (in_ := in_). Qed.

Lemma with_bits_short t out S k : with_bits t out S k = v -> (length S < t)%nat -> v = Short out.
Proof. intros H Hl. unfold with_bits in H. by rewrite (proj2 (Nat.ltb_lt _ _) Hl) in H. Qed.

Lemma with_bits_long t out S k : with_bits t out S k = v -> (t <= length S)%nat -> k (lsb_value (take t S)) (drop t S) = v.
Proof. intros H Hl. unfold with_bits in H. by rewrite (proj2 (Nat.ltb_ge _ _) Hl) in H. Qed.

Lemma stuck_length B' in_ in' B : stuck B' in_ in' B [] -> length (stream B in_ []) = length B'.
Proof. intros [S1 S2 S3 S4]. rewrite <- S3, stream_length, S2. cbn. lia. Qed.

(** Extracting bits at a label. *)
Lemma leads_extract m l t B d in_ oc out k (cont : deflate -> deflate_chunk -> Z -> option (deflate * deflate_chunk * deflate_chunk * jump)) :
  at_label l B d in_ oc out -> (t <= 16)%nat -> (length B <= 32)%nat ->
  (forall B', (length B' < t)%nat -> length (stream B in_ F) mod 8 = length B' mod 8 -> buffer_ok l B')%nat ->
  with_bits t out (stream B in_ F) k = v ->
  (forall B' in', chunk_ok in' -> (length B' <= Nat.max (length B - t) 7)%nat ->
     stream B' in' F = drop t (stream B in_ F) -> (t <= length (stream B in_ F))%nat ->
     (length B' + 8 * length (rest in') + t = length B + 8 * length (rest in_))%nat ->
     let x := lsb_value (take t (stream B in_ F)) in
     0 <= x < 2 ^ Z.of_nat t -> k x (stream B' in' F) = v -> leads m (cont (with_buf B' d) in' x)) ->
  leads m (opt! (d, in_, x) := deflate_extract (with_buf B d) in_ (Z.of_nat t) in
           if x <? 0 then wait_at l d in_ oc else cont d in_ x).
Proof.
  intros Hat Ht HB Hbuf Hk Hc. destruct (extract_stream B d in_ t F (at_chunk _ _ _ _ _ _ Hat) Ht HB) as (B' & in' & H). cbv zeta in H.
  destruct H as [(-> & Hl & Hin & Hs & Hb)|(e & -> & He & Hst & Hb)].
  - pose proof (lsb_value_range (take t (stream B in_ F))) as Hr. rewrite length_take, Nat.min_l in Hr by lia.
    rewrite (proj2 (Z.ltb_ge _ _)) by lia. pose proof (with_bits_long _ _ _ _ Hk Hl) as Hk'. apply Hc; try done; [|by rewrite Hs].
    apply (f_equal length) in Hs. rewrite length_drop, !stream_length in Hs. rewrite stream_length in Hl. lia.
  - rewrite (proj2 (Z.ltb_lt _ _)) by done. eapply leads_wait; [done|done| |].
    + apply Hbuf; [done|]. rewrite <- (stuck_stream _ _ _ _ _ Hst), stream_length, (stuck_rest _ _ _ _ _ Hst). cbn [length].
      rewrite Nat.mul_0_r, Nat.add_0_r, <- Nat.Div0.add_mod_idemp_r, F_bytes, Nat.add_0_r. done.
    + intros E. rewrite E in Hst, Hk. pose proof (stuck_length _ _ _ _ Hst) as Hlen.
      apply (with_bits_short t out (stream B in_ []) k); [done|lia].
Qed.

(** Decoding a symbol at a label. *)
Lemma leads_decode m l al lens B d in_ oc out k (cont : deflate -> deflate_chunk -> Z -> option (deflate * deflate_chunk * deflate_chunk * jump)) :
  at_label l B d in_ oc out -> is_alphabet al lens -> (length B <= 22)%nat ->
  (forall B', (length B' <= 22)%nat -> buffer_ok l B') ->
  with_symbol lens out (stream B in_ F) k = v ->
  (forall B' in' n, chunk_ok in' -> (length B' <= 21)%nat -> (n < length lens)%nat ->
     (length (stream B' in' F) < length (stream B in_ F))%nat ->
     (length B' + 8 * length (rest in') < length B + 8 * length (rest in_))%nat ->
     k n (stream B' in' F) = v -> leads m (cont (with_buf B' d) in' (Z.of_nat n))) ->
  leads m (opt! (d, in_, x) := deflate_decode (with_buf B d) in_ al in
           if x <? 0 then wait_at l d in_ oc else cont d in_ x).
Proof.
  intros Hat Hal HB Hbuf Hk Hc. destruct (decode_stream B d in_ al lens F (at_chunk _ _ _ _ _ _ Hat) HB Hal) as (B' & in' & H).
  cbv zeta in H. unfold with_symbol in Hk.
  destruct H as [(n & l' & -> & Hh & Hn & Hl & Hin & Hs & Hb)|(e & -> & He & Hst & Hb)].
  - rewrite (proj2 (Z.ltb_ge _ _)) by lia. rewrite Hh in Hk. apply Hc; try done; [by apply lookup_lt_Some in Hn|..|by rewrite Hs].
    + rewrite Hs, length_drop. lia.
    + apply (f_equal length) in Hs. rewrite length_drop, !stream_length in Hs. rewrite stream_length in Hl. lia.
  - rewrite (proj2 (Z.ltb_lt _ _)) by done. eapply leads_wait; [done|done|apply Hbuf, (stuck_short _ _ _ _ _ Hst)|].
    intros E. by rewrite Hb in Hk.
Qed.

(** ** Headers and literal blocks *)

Lemma bit_test h n : 0 <= n -> (Z.land h (Z.shiftl 1 n) =? 0) = negb (Z.testbit h n).
Proof.
  intros Hn. destruct (Z.testbit h n) eqn:E; cbn [negb].
  - apply Z.eqb_neq. intros H. apply (f_equal (fun z => Z.testbit z n)) in H.
    rewrite Z.land_spec, E, Z.shiftl_1_l, Z.pow2_bits_true, Z.bits_0 in H by done. done.
  - apply Z.eqb_eq, Z.bits_inj'. intros m Hm. rewrite Z.land_spec, Z.bits_0, Z.shiftl_1_l, Z.pow2_bits_eqb by done.
    destruct (Z.eqb_spec n m) as [<-|]; [by rewrite E|apply andb_false_r].
Qed.

Lemma land_15' x : Z.land x 0x0f = x mod 16.
Proof. exact (land_ones_mod x 4 ltac:(lia)). Qed.

Lemma step_zlib_header_ok B d in_ oc out : at_label zlib_header B d in_ oc out ->
  leads (measure zlib_header B in_) (step_zlib_header (with_buf B d) in_ oc).
Proof.
  intros Hat. pose proof Hat as [Hb Hin Hsh Ho Hm]. eapply (leads_extract _ zlib_header 16); [done|lia|cbn in Hb; lia| |exact Hm|].
  { intros B' HB' _. cbn. lia. }
  intros B' in' Hin' HB' Hs Hl Hlen x Hx Hk. cbv beta in Hk. cbn [buffer_ok] in Hb.
  unfold ZLIB_HEADER_CM_LSB, ZLIB_HEADER_CM_MASK, ZLIB_HEADER_FDICT_BIT, ZLIB_HEADER_CM_DEFLATE.
  rewrite Z.shiftr_0_r, land_15', bit_test, negb_involutive by lia. destruct (x mod 16 =? 8); cbn [negb orb] in *; [|by eapply leads_return_err].
  destruct (Z.testbit x 13); [by eapply leads_return_err|]. eapply leads_goto.
  - split; [cbn; lia|done|done|done|]. eexists. split; [|exact Hk]. lia.
  - unfold measure. cbn [rank]. lia.
Qed.

Lemma step_block_header_ok B d in_ oc out : at_label block_header B d in_ oc out ->
  leads (measure block_header B in_) (step_block_header (with_buf B d) in_ oc).
Proof.
  intros Hat. pose proof Hat as [Hb Hin Hsh Ho (fuel & Hf & Hm)]. cbn [buffer_ok] in Hb. destruct fuel as [|fuel]; [lia|]. cbn [blocks] in Hm.
  eapply (leads_extract _ block_header 3); [done|lia|cbn in Hb; lia| |exact Hm|].
  { intros B' HB' _. cbn. lia. }
  intros B' in' Hin' HB' Hs Hl Hlen x Hx Hk. cbv beta zeta in Hk |- *.
  assert (HS : (length (stream B' in' F) < fuel)%nat) by (rewrite Hs, length_drop; lia).
  rewrite Z.shiftr_div_pow2 by done. change (2 ^ DEFLATE_HEADER_BTYPE_LSB) with 2.
  change (set_header x (with_buf B' d)) with (with_buf B' (set_header x d)).
  unfold DEFLATE_HEADER_BTYPE_LITERAL, DEFLATE_HEADER_BTYPE_STATIC, DEFLATE_HEADER_BTYPE_DYNAMIC.
  assert (Hgo : forall l, buffer_ok l B' -> (rank l <= 4)%nat -> meaning l (set_header x d) out (stream B' in' F) ->
    leads (measure block_header B in_) (goto l (with_buf B' (set_header x d)) in' oc)).
  { intros l Hbl Hr Hml. eapply (leads_goto _ l B' (set_header x d)); [split; [done|done| |done|done]|].
    - by apply (shape_ext d).
    - unfold measure. cbn [rank]. lia. }
  destruct (x / 2 =? 0); [apply Hgo; [cbn; lia|cbn; lia|exists fuel; split; [exact HS|exact Hk]]|].
  destruct (x / 2 =? 1); [apply Hgo; [cbn; lia|cbn; lia|exists fuel; split; [exact HS|exact Hk]]|].
  destruct (x / 2 =? 2); [apply Hgo; [cbn; lia|cbn; lia|exists fuel; split; [exact HS|exact Hk]]|]. by eapply leads_return_err.
Qed.

Lemma stream_mod B in_ : (length (stream B in_ F) mod 8 = length B mod 8)%nat.
Proof.
  rewrite stream_length, <- Nat.Div0.add_mod_idemp_r, F_bytes, Nat.add_0_r. rewrite (Nat.mul_comm 8). apply Nat.Div0.mod_add.
Qed.

Lemma discard_spec B d : (length B <= 32)%nat -> deflate_discard_to_byte (with_buf B d) = with_buf (drop (length B mod 8) B) d.
Proof.
  intros HB. unfold deflate_discard_to_byte. change (bits (with_buf B d)) with (zlen B). change 7 with (2 ^ 3 - 1).
  rewrite land_ones_mod by lia. change (2 ^ 3) with (Z.of_nat 8). rewrite <- Nat2Z.inj_mod.
  rewrite consume_spec; [done|]. pose proof (Nat.Div0.mod_le (length B) 8). lia.
Qed.

Lemma discard_aligned B in_ : (length B <= 32)%nat ->
  let B' := drop (length B mod 8) B in
  stream B' in_ F = align (stream B in_ F) /\ (length B' mod 8 = 0)%nat /\ (length B' <= length B)%nat.
Proof.
  intros HB B'. pose proof (Nat.Div0.mod_le (length B) 8) as Hle. split; [|split].
  - unfold align. rewrite stream_mod. by apply stream_drop.
  - unfold B'. rewrite length_drop. pose proof (Nat.div_mod_eq (length B) 8) as E.
    replace (length B - length B mod 8)%nat with (length B / 8 * 8)%nat by lia. apply Nat.Div0.mod_mul.
  - unfold B'. rewrite length_drop. lia.
Qed.

Lemma stream_mod_drop B B' in_ in' : (length B mod 8 = 0)%nat -> stream B' in' F = drop 16 (stream B in_ F) ->
  (16 <= length (stream B in_ F))%nat -> (length B' mod 8 = 0)%nat.
Proof.
  intros HB Hs Hl. pose proof (stream_mod B' in') as H1. rewrite Hs, length_drop in H1. pose proof (stream_mod B in_) as H2.
  rewrite HB in H2. rewrite <- H1. pose proof (Nat.div_mod_eq (length (stream B in_ F)) 8) as E. rewrite H2 in E.
  replace (length (stream B in_ F) - 16)%nat with ((length (stream B in_ F) / 8 - 2) * 8)%nat by lia. apply Nat.Div0.mod_mul.
Qed.

Lemma step_literal_block_ok B d in_ oc out : at_label literal_block B d in_ oc out ->
  leads (measure literal_block B in_) (goto literal_len (deflate_discard_to_byte (with_buf B d)) in_ oc).
Proof.
  intros [Hb Hin Hsh Ho (fuel & Hf & Hm)]. cbn [buffer_ok] in Hb. rewrite discard_spec by lia.
  destruct (discard_aligned B in_ ltac:(lia)) as (Hs & Hmod & Hle). set (B' := drop _ _) in *.
  apply (leads_goto _ literal_len B' d in_ oc out); [split; try done|].
  - cbn [buffer_ok]. split; [done|lia].
  - exists fuel. rewrite Hs. split; [|done]. unfold align. rewrite length_drop. lia.
  - unfold measure. cbn [rank]. lia.
Qed.

Lemma step_literal_len_ok B d in_ oc out : at_label literal_len B d in_ oc out ->
  leads (measure literal_len B in_) (step_literal_len (with_buf B d) in_ oc).
Proof.
  intros Hat. pose proof Hat as [Hb Hin Hsh Ho (fuel & Hf & Hm)]. cbn [buffer_ok] in Hb.
  eapply (leads_extract _ literal_len 16); [done|lia|lia| |exact Hm|].
  { intros B' HB' Hmod. rewrite stream_mod, (proj1 Hb) in Hmod. cbn [buffer_ok]. split; [done|lia]. }
  intros B' in' Hin' HB' Hs Hl Hlen x Hx Hk. cbv beta in Hk.
  change (set_remaining x (with_buf B' d)) with (with_buf B' (set_remaining x d)).
  eapply leads_goto; [split; [|done| |done|]|].
  - cbn [buffer_ok]. split; [by eapply stream_mod_drop; [exact (proj1 Hb)|..]|lia].
  - by apply (shape_ext d).
  - exists fuel. split; [rewrite Hs, length_drop; lia|]. split; [cbn; lia|exact Hk].
  - unfold measure. cbn [rank]. lia.
Qed.

Lemma nlen_test x n : 0 <= x < 65536 -> 0 <= n < 65536 ->
  (Z.land (Z.lxor x (Z.lnot n)) (Z.shiftl 1 DEFLATE_LITERAL_LEN_BITS - 1) =? 0) = (n + x =? 65535).
Proof.
  intros Hx Hn. change (Z.shiftl 1 DEFLATE_LITERAL_LEN_BITS - 1) with (Z.ones 16).
  assert (E : Z.land (Z.lxor x (Z.lnot n)) (Z.ones 16) = Z.lxor (Z.land x (Z.ones 16)) (Z.land (Z.lnot n) (Z.ones 16))).
  { apply Z.bits_inj'. intros m Hm. rewrite !Z.land_spec, !Z.lxor_spec, !Z.land_spec. by destruct (Z.testbit x m), (Z.testbit (Z.lnot n) m), (Z.testbit (Z.ones 16) m). }
  rewrite E, !Z.land_ones by lia. rewrite (Z.mod_small x) by lia.
  replace (Z.lnot n mod 2 ^ 16) with (65535 - n)
    by (unfold Z.lnot; apply (Zmod_unique _ _ (-1)); lia).
  apply eq_bool_prop_intro. rewrite !Is_true_true, !Z.eqb_eq, Z.lxor_eq_0_iff. lia.
Qed.

Lemma step_literal_nlen_ok B d in_ oc out : at_label literal_nlen B d in_ oc out ->
  leads (measure literal_nlen B in_) (step_literal_nlen (with_buf B d) in_ oc).
Proof.
  intros Hat. pose proof Hat as [Hb Hin Hsh Ho (fuel & Hf & Hr & Hm)]. cbn [buffer_ok] in Hb.
  eapply (leads_extract _ literal_nlen 16); [done|lia|lia| |exact Hm|].
  { intros B' HB' Hmod. rewrite stream_mod, (proj1 Hb) in Hmod. cbn [buffer_ok]. split; [done|lia]. }
  intros B' in' Hin' HB' Hs Hl Hlen x Hx Hk. cbv beta in Hk. change (remaining (with_buf B' d)) with (remaining d).
  rewrite nlen_test by lia. destruct (x + remaining d =? 65535); cbn [negb]; [|by eapply leads_return_err].
  eapply leads_goto; [split; [|done|done|done|]|].
  - pose proof (stream_mod_drop _ _ _ _ (proj1 Hb) Hs Hl) as H8. cbn [buffer_ok]. apply nil_length_inv.
    pose proof (Nat.div_mod_eq (length B') 8). lia.
  - exists fuel. split; [rewrite Hs, length_drop; lia|]. split; [done|exact Hk].
  - unfold measure. cbn [rank]. lia.
Qed.

Lemma stored_data_app xs m k out T : bytes_ok xs ->
  stored_data (length xs + m) k out (bits_of xs ++ T) = stored_data m k (out ++ xs) T.
Proof.
  intros Hxs. revert out. induction Hxs as [|x xs Hx Hxs IH]; intros out; [by rewrite app_nil_r|].
  cbn [length Nat.add stored_data]. change (bits_of (x :: xs)) with (byte_bits x ++ bits_of xs). rewrite <- app_assoc. unfold with_bits.
  rewrite (proj2 (Nat.ltb_ge _ _)) by (rewrite length_app; change (length (byte_bits x)) with 8%nat; lia). rewrite take_app_length', drop_app_length' by done.
  rewrite (proj1 (byte_value x Hx)), IH. by rewrite <- app_assoc.
Qed.

(** The output so far fits because it is a part of the whole output. *)
Lemma fits k out S : grows k -> k out S = v -> zlen out < 2 ^ size_bits a.
Proof. intros Hg Hk. specialize (Hg out S). rewrite Hk in Hg. unfold fair in Hg. lia. Qed.

Lemma after_grows d fuel : grows (after d fuel).
Proof. apply block_end_grows, blocks_grows. Qed.

Lemma step_literal_data_ok B d in_ oc out : at_label literal_data B d in_ oc out ->
  leads (measure literal_data B in_) (step_literal_data a (with_buf B d) in_ oc).
Proof.
  intros [-> Hin Hsh Ho (fuel & Hf & Hr & Hm)]. unfold step_literal_data. change (remaining (with_buf [] d)) with (remaining d).
  pose proof (rest_length in_ Hin) as Hl. pose proof Hin as [C1 C2 C3 C4].
  assert (Hw : uwrap (size_bits a) (ck_len in_ - ck_offset in_) = ck_len in_ - ck_offset in_).
  { apply uwrap_small. pose proof (Z.pow_le_mono_r 2 32 (size_bits a) ltac:(lia) (size_bits_large a)). lia. }
  rewrite Hw. cbv zeta. set (n := if _ <? _ then _ else _).
  assert (Hn : n = Z.min (ck_len in_ - ck_offset in_) (remaining d)) by (unfold n; destruct (Z.ltb_spec (ck_len in_ - ck_offset in_) (remaining d)); lia).
  set (xs := take (Z.to_nat n) (rest in_)).
  assert (Hxs : length xs = Z.to_nat n) by (unfold xs; rewrite length_take; lia).
  assert (Hm' : stored_data (Z.to_nat (remaining d - n)) (after d fuel) (out ++ xs) (stream [] (advance (Z.to_nat n) in_) F) = v).
  { rewrite <- Hm. replace (Z.to_nat (remaining d)) with (length xs + Z.to_nat (remaining d - n))%nat by lia.
    rewrite <- (stream_refill [] in_ F (Z.to_nat n)) by (done || lia). fold xs. cbn [app]. unfold stream. cbn [app].
    symmetry. apply stored_data_app. apply Forall_take. by apply rest_bytes. }
  destruct (deflate_copy_src a data0 len len_ok (ck_data in_) oc out (ck_offset in_) n Ho) as (oc' & -> & Ho'); try lia.
  { pose proof (fits _ _ _ (stored_data_grows _ _ (after_grows d fuel)) Hm') as Hfit. rewrite zlen_app in Hfit. lia. }
  assert (Ex : take (Z.to_nat n) (drop (Z.to_nat (ck_offset in_)) (ck_data in_)) = xs).
  { unfold xs, rest. rewrite take_take. f_equal. lia. }
  rewrite Ex in Ho'. replace (ck_offset in_ + n) with (ck_offset in_ + Z.of_nat (Z.to_nat n)) by lia.
  fold (advance (Z.to_nat n) in_).
  change (set_remaining (remaining d - n) (with_buf [] d)) with (with_buf [] (set_remaining (remaining d - n) d)).
  set (d' := set_remaining (remaining d - n) d). change (remaining (with_buf [] d')) with (remaining d - n).
  assert (Hsh' : shape d') by (by apply (shape_ext d)).
  assert (Hin' : chunk_ok (advance (Z.to_nat n) in_)) by (apply advance_ok; [done|lia]).
  assert (Hlen : (length (stream [] (advance (Z.to_nat n) in_) F) <= length (stream [] in_ F))%nat).
  { rewrite !stream_length, rest_advance, length_drop by (done || lia). lia. }
  destruct (Z.eqb_spec (remaining d - n) 0) as [E|E]; cbn [negb].
  - rewrite E in Hm'. apply (leads_goto _ block_done [] d' _ oc' (out ++ xs)); [split; [cbn; lia|done|done|done|]|].
    + exists fuel. split; [lia|exact Hm'].
    + unfold measure. cbn [rank]. rewrite rest_advance, length_drop by (done || lia). lia.
  - assert (Hnil : rest (advance (Z.to_nat n) in_) = []) by (rewrite rest_advance by (done || lia); apply drop_ge; lia).
    apply (leads_wait _ literal_data [] [] d' (advance (Z.to_nat n) in_) _ oc' (out ++ xs)); [| |done|].
    + split; [done|done|done|done|]. exists fuel. split; [lia|]. split; [cbn; lia|exact Hm'].
    + split; [done|done|done|cbn; lia].
    + intros HF. rewrite <- Hm'. unfold stream. rewrite Hnil, HF. cbn [app bits_of].
      destruct (Z.to_nat (remaining d - n)) eqn:En; [lia|done].
Qed.

(** ** Code lengths *)

Lemma static_lengths_spec patterns lens at_ : (at_ + sum_list (map snd patterns) = length lens)%nat ->
  static_lengths lens at_ patterns = Some (take at_ lens ++ (patterns ≫= fun '(fill, count) => replicate count fill)).
Proof.
  revert lens at_. induction patterns as [|[fill count] ps IH]; intros lens at_ H; cbn in H; cbn [static_lengths].
  - by rewrite app_nil_r, take_ge by lia.
  - rewrite (proj2 (Nat.ltb_ge _ _)) by lia. rewrite IH.
    + f_equal. rewrite app_assoc, take_app_length' by (rewrite length_app, length_take, length_replicate; lia).
      by rewrite <- app_assoc.
    + rewrite !length_app, length_take, length_replicate, length_drop. lia.
Qed.

(** The bytes of the fixed code lengths. *)
Definition static_bytes : list Z := deflate_static_length_patterns ≫= fun '(fill, count) => replicate count fill.

Lemma static_bytes_spec : length static_bytes = 160%nat /\ bytes_ok static_bytes
  /\ nibs static_bytes = map Z.of_nat fixed_lengths ++ replicate (320 - length fixed_lengths) 0 /\ lens_ok fixed_lengths
  /\ length fixed_lengths = 320%nat.
Proof.
  split; [reflexivity|]. split; [|split; [vm_compute; reflexivity|split; [|reflexivity]]].
  - apply Forall_bind. unfold deflate_static_length_patterns.
    repeat (apply Forall_cons; split; [apply Forall_replicate; unfold byte_ok; lia|]). apply Forall_nil. exact I.
  - unfold lens_ok, fixed_lengths. rewrite !Forall_app. repeat split; apply Forall_replicate; lia.
Qed.

Lemma step_static_block_ok B d in_ oc out : at_label static_block B d in_ oc out ->
  leads (measure static_block B in_) (step_static_block (with_buf B d) in_ oc).
Proof.
  intros [Hb Hin Hsh Ho (fuel & Hf & Hm)]. unfold step_static_block. change (lengths (with_buf B d)) with (lengths d).
  destruct static_bytes_spec as (L1 & L2 & L3 & L4 & L5).
  rewrite static_lengths_spec by (rewrite (sh_lengths _ Hsh); reflexivity). cbn [take app]. fold static_bytes.
  set (d' := set_distance_count 32 (set_litlen_count 288 (set_lengths static_bytes d))).
  apply (leads_goto _ construct_alphabets B d' in_ oc out); [split; [exact Hb|exact Hin| |exact Ho|]|].
  - destruct Hsh as [H1 H2 H3 H4 H5 H6 H7]. split; assumption.
  - exists fuel, 288%nat, 32%nat, fixed_lengths. split; [exact Hf|]. split; [repeat split; lia|]. split; [exact L5|].
    split; [exact (conj L3 L4)|exact Hm].
  - unfold measure. cbn [rank]. lia.
Qed.

Lemma holds_stored d lens part off : lens_stored d lens -> bytes_ok (lengths d) ->
  (forall i l, part !! i = Some l -> lens !! (off + i)%nat = Some l) -> holds (lengths d) (Z.of_nat off) part.
Proof.
  intros [Hn _] Hb Hp i l Hi. replace (Z.of_nat i + Z.of_nat off) with (Z.of_nat (off + i)) by lia.
  rewrite deflate_length_nibs, Hn by done. apply Hp in Hi. rewrite lookup_app_l by (rewrite length_map; by apply lookup_lt_Some in Hi).
  by rewrite list_lookup_fmap, Hi.
Qed.

(** The lengths of the distance codes; a single one is replaced by two codes of one bit. *)
Lemma distance_number lens hlit hdist : length lens = (hlit + hdist)%nat ->
  (if Z.of_nat hdist =? 1 then 2 else Z.of_nat hdist)
  = zlen (if (length (drop hlit lens) =? 1)%nat then [1; 1]%nat else drop hlit lens).
Proof.
  intros Hl. rewrite length_drop, Hl. replace (hlit + hdist - hlit)%nat with hdist by lia.
  destruct (Z.eqb_spec (Z.of_nat hdist) 1) as [E|E], (Nat.eqb_spec hdist 1) as [E'|E']; try lia; [done|]. rewrite length_drop. lia.
Qed.

Lemma distance_lengths d lens hlit hdist : shape d -> lens_stored d lens -> length lens = (hlit + hdist)%nat ->
  (257 <= hlit <= 288)%nat -> (1 <= hdist <= 32)%nat ->
  exists bytes, (if Z.of_nat hdist =? 1 then set_index (lengths d) 0 0x11 else Some (lengths d)) = Some bytes
    /\ length bytes = 160%nat /\ bytes_ok bytes
    /\ holds bytes (if Z.of_nat hdist =? 1 then 0 else Z.of_nat hlit)
         (if (length (drop hlit lens) =? 1)%nat then [1; 1]%nat else drop hlit lens).
Proof.
  intros [H1 H2 H3 _ _ _ _] Hst Hl Hlit Hdist. rewrite length_drop, Hl. replace (hlit + hdist - hlit)%nat with hdist by lia.
  destruct (Z.eqb_spec (Z.of_nat hdist) 1) as [E|E], (Nat.eqb_spec hdist 1) as [E'|E']; try lia.
  - rewrite set_index_ok by lia. eexists. split; [reflexivity|]. split; [by rewrite length_insert|].
    assert (Hb : bytes_ok (<[Z.to_nat 0 := 17]> (lengths d))) by (apply Forall_insert; [done|unfold byte_ok; lia]).
    split; [exact Hb|]. intros i l Hi. rewrite Z.add_0_r, deflate_length_nibs, nibs_lookup by done.
    destruct i as [|[|i]]; [| |done]; cbn in Hi; injection Hi as <-.
    + change (0 / 2)%nat with 0%nat. rewrite list_lookup_insert_eq by lia. reflexivity.
    + change (1 / 2)%nat with 0%nat. rewrite list_lookup_insert_eq by lia. reflexivity.
  - exists (lengths d). split; [done|]. split; [done|]. split; [done|]. apply (holds_stored d lens); [done|done|].
    intros i l. by rewrite lookup_drop.
Qed.

Lemma step_construct_alphabets_ok B d in_ oc out : at_label construct_alphabets B d in_ oc out ->
  leads (measure construct_alphabets B in_) (step_construct_alphabets (with_buf B d) in_ oc).
Proof.
  intros [Hb Hin Hsh Ho (fuel & hlit & hdist & lens & Hf & Hc & Hl & Hst & Hm)]. destruct Hc as (Hc1 & Hc2 & Hc3 & Hc4).
  pose proof Hsh as [H1 H2 H3 H4 H5 H6 H7]. pose proof (proj2 Hst) as Hok. unfold step_construct_alphabets, coded_block in *.
  change (lengths (with_buf B d)) with (lengths d). change (litlen (with_buf B d)) with (litlen d).
  change (litlen_count (with_buf B d)) with (litlen_count d).
  set (ll := take hlit lens) in *. assert (Hll : zlen ll = litlen_count d) by (unfold ll; rewrite length_take; lia).
  destruct (make_alphabet_spec (lengths d) (litlen d) ll 0) as (al & E & A1 & A2 & A3); try lia.
  { apply (holds_stored d lens ll 0); [done..|]. intros i l. apply lookup_take_Some. }
  { by apply Forall_take. }
  rewrite Hll in E. rewrite E.
  destruct (complete ll) eqn:Ell; [rewrite andb_true_l in Hm|rewrite andb_false_l in Hm; by apply (leads_return_err _ _ _ _ _ out)].
  change (distance_count (set_litlen al (with_buf B d))) with (distance_count d).
  change (lengths (set_litlen al (with_buf B d))) with (lengths d).
  set (dl := if (length (drop hlit lens) =? 1)%nat then [1; 1]%nat else drop hlit lens) in *.
  destruct (distance_lengths d lens hlit hdist Hsh Hst Hl Hc3 Hc4) as (bytes & E1 & L1 & L2 & L3). fold dl in L3.
  rewrite Hc1, Hc2, E1. set (d' := set_litlen al (set_lengths bytes d)).
  change (set_lengths bytes (set_litlen al (with_buf B d))) with (with_buf B d').
  change (lengths (with_buf B d')) with bytes. change (distance_codelen (with_buf B d')) with (distance_codelen d).
  assert (Hdl : (length dl <= 32)%nat /\ lens_ok dl).
  { unfold dl. destruct (Nat.eqb_spec (length (drop hlit lens)) 1) as [_|_]; [split; [cbn; lia|repeat constructor]|].
    split; [rewrite length_drop; lia|by apply Forall_drop]. }
  destruct (make_alphabet_spec bytes (distance_codelen d) dl (if Z.of_nat hdist =? 1 then 0 else Z.of_nat hlit))
    as (al2 & E2 & D1 & D2 & D3); [exact L3|apply Hdl|lia|rewrite H6; apply Hdl|exact H7|].
  change (distance_count (with_buf B d')) with (distance_count d). rewrite Hc2, (distance_number lens hlit hdist) by done. fold dl. rewrite E2.
  change (set_distance_codelen al2 (with_buf B d')) with (with_buf B (set_distance_codelen al2 d')).
  destruct (complete dl) eqn:Edl; cbv beta iota; [|by apply (leads_return_err _ _ _ _ _ out)].
  eapply (leads_goto _ lzhuf_litlen B (set_distance_codelen al2 d')); [split; [done|done| |done|]|].
  - split; cbn; congruence.
  - exists dl. eexists. split; [|exact Hm]. exists fuel, (S (length (stream B in_ F))), ll. split; [exact Hf|]. split; [lia|].
    split; [by apply A3|]. split; [lia|]. split; [by apply D3|]. split; [apply Hdl|reflexivity].
  - unfold measure. cbn [rank]. lia.
Qed.

(** ** The header of a dynamic block *)

Lemma zero_lengths_spec lens : length lens = 160%nat -> nibs (zero_lengths lens) = replicate 320 0
  /\ length (zero_lengths lens) = 160%nat /\ bytes_ok (zero_lengths lens).
Proof.
  intros H. unfold zero_lengths. rewrite H. split; [reflexivity|]. split; [reflexivity|]. apply Forall_replicate. unfold byte_ok. lia.
Qed.

Lemma codelen_lengths_lookup acc s : (s < 19)%nat ->
  exists i, codelen_order !! i = Some s /\ codelen_lengths acc !! s = Some (default 0%nat (acc !! i)).
Proof.
  intros Hs. do 19 (destruct s as [|s]; [eexists; split; [|reflexivity]; reflexivity|]). lia.
Qed.

Lemma codelen_order_inj i j s : codelen_order !! i = Some s -> codelen_order !! j = Some s -> i = j.
Proof. apply (NoDup_lookup codelen_order). apply (bool_decide_unpack _). vm_compute. exact I. Qed.

Lemma codelen_lengths_snoc acc x s : codelen_order !! length acc = Some s ->
  codelen_lengths (acc ++ [x]) = <[s := x]> (codelen_lengths acc) /\ codelen_lengths acc !! s = Some 0%nat.
Proof.
  intros Hs. assert (Hlt : (s < 19)%nat).
  { assert (Forall (fun s => (s < 19)%nat) codelen_order) as H by (apply (bool_decide_unpack _); vm_compute; exact I).
    by apply (Forall_lookup_1 _ _ _ _ H Hs). }
  destruct (codelen_lengths_lookup acc s Hlt) as (i & Hi & Hz). rewrite (codelen_order_inj _ _ _ Hi Hs) in Hz.
  rewrite (lookup_ge_None_2 acc (length acc)) in Hz by lia. split; [|done]. apply list_eq. intros j.
  destruct (Nat.lt_ge_cases j 19) as [Hj|Hj]; [|rewrite !lookup_ge_None_2; [done|by rewrite length_insert|done]].
  destruct (codelen_lengths_lookup (acc ++ [x]) j Hj) as (i' & Hi' & ->). destruct (decide (s = j)) as [<-|Hne].
  - rewrite (codelen_order_inj _ _ _ Hi' Hs), lookup_app_r, Nat.sub_diag by lia. by rewrite list_lookup_insert_eq by done.
  - rewrite list_lookup_insert_ne by done. destruct (codelen_lengths_lookup acc j Hj) as (i2 & Hi2 & ->).
    rewrite (codelen_order_inj _ _ _ Hi2 Hi'). do 2 f_equal. rewrite lookup_app. destruct (acc !! i') eqn:E; [done|].
    apply lookup_ge_None in E. destruct (i' - length acc)%nat eqn:E'; [|done].
    replace i' with (length acc) in Hi' by lia. congruence.
Qed.

Lemma codelen_lengths_ok acc : Forall (fun x => (x <= 7)%nat) acc -> lens_ok (codelen_lengths acc).
Proof.
  intros H. apply Forall_lookup_2. intros s l Hl. assert (s < 19)%nat by (by apply lookup_lt_Some in Hl).
  destruct (codelen_lengths_lookup acc s) as (i & _ & E); [done|]. rewrite E in Hl. injection Hl as <-.
  destruct (acc !! i) as [x|] eqn:Ex; [|cbn; lia]. apply (Forall_lookup_1 _ _ _ _ H) in Ex. cbn. lia.
Qed.


Lemma land_shiftr x i n : 0 <= i -> 0 <= n -> Z.land (Z.shiftr x i) (2 ^ n - 1) = x / 2 ^ i mod 2 ^ n.
Proof. intros Hi Hn. by rewrite land_ones_mod, Z.shiftr_div_pow2 by done. Qed.

Lemma step_dynamic_header_ok B d in_ oc out : at_label dynamic_header B d in_ oc out ->
  leads (measure dynamic_header B in_) (step_dynamic_header (with_buf B d) in_ oc).
Proof.
  intros Hat. pose proof Hat as [Hb Hin Hsh Ho (fuel & Hf & Hm)]. cbn [buffer_ok] in Hb. unfold dynamic_block in Hm.
  eapply (leads_extract _ dynamic_header 14); [done|lia|cbn in Hb; lia| |exact Hm|].
  { intros B' HB' _. cbn. lia. }
  intros B' in' Hin' HB' Hs Hl Hlen x Hx Hk. cbv beta zeta in Hk |- *.
  pose proof (land_shiftr x 0 5 ltac:(lia) ltac:(lia)) as E1. rewrite Z.div_1_r in E1.
  pose proof (land_shiftr x 5 5 ltac:(lia) ltac:(lia)) as E2. pose proof (land_shiftr x 10 4 ltac:(lia) ltac:(lia)) as E3.
  change (2 ^ 10) with 1024 in E3. change (2 ^ 5) with 32 in E1, E2. change (2 ^ 4) with 16 in E3.
  assert (0 <= x / 1024 < 16) as H16 by (change (2 ^ Z.of_nat 14) with (16 * 1024) in Hx; split; [apply Z.div_pos; lia|apply Z.div_lt_upper_bound; lia]).
  rewrite (Z.mod_small (x / 1024)) in E3 by done.
  pose proof (Z.mod_pos_bound x 32 ltac:(lia)). pose proof (Z.mod_pos_bound (x / 32) 32 ltac:(lia)).
  destruct (zero_lengths_spec (lengths d) (sh_lengths _ Hsh)) as (Z1 & Z2 & Z3).
  set (d' := set_lengths (zero_lengths (lengths d)) (set_length_target (x / 1024 + 4) (set_length_index 0
    (set_distance_count (x / 32 mod 32 + 1) (set_litlen_count (x mod 32 + 257) d))))).
  unfold DEFLATE_DYNAMIC_HLIT_MASK, DEFLATE_DYNAMIC_HLIT_LSB, DEFLATE_DYNAMIC_HDIST_MASK, DEFLATE_DYNAMIC_HDIST_LSB,
    DEFLATE_DYNAMIC_HCLEN_MASK, DEFLATE_DYNAMIC_HCLEN_LSB.
  change 31 with (32 - 1). change 15 with (16 - 1). rewrite E1, E2, E3.
  apply (leads_goto _ dynamic_codelen B' d' in' oc out); [split; [cbn; lia|done| |done|]|].
  - destruct Hsh as [S1 S2 S3 S4 S5 S6 S7]. split; assumption.
  - exists fuel, [], (Z.to_nat (x mod 32) + 257)%nat, (Z.to_nat (x / 32 mod 32) + 1)%nat, (Z.to_nat (x / 1024) + 4)%nat.
    split; [rewrite Hs, length_drop; lia|]. split; [repeat split; cbn; lia|]. split; [|exact Hk].
    split; [done|]. split; [cbn; lia|]. split; [cbn; lia|]. split; [done|]. split; [exact Z1|]. by apply codelen_lengths_ok.
  - unfold measure. cbn [rank]. lia.
Qed.

(** One more code length. *)
Lemma lens_stored_set d lens i x lens' : lens_stored d lens -> lens !! i = Some 0%nat -> (x <= 15)%nat -> shape d ->
  lens' = <[i := x]> lens -> exists bytes, deflate_set_length (lengths d) (Z.of_nat i) (Z.of_nat x) = Some bytes
    /\ shape (set_lengths bytes d) /\ lens_stored (set_lengths bytes d) lens'.
Proof.
  intros [Hn Hok] Hi Hx [S1 S2 S3 S4 S5 S6 S7] ->. pose proof (lookup_lt_Some _ _ _ Hi) as Hlt.
  destruct (deflate_set_length_nibs (lengths d) i (Z.of_nat x)) as (bytes & E & B1 & B2 & B3); [done| |lia|].
  { rewrite Hn, lookup_app_l by (by rewrite length_map). by rewrite list_lookup_fmap, Hi. }
  exists bytes. split; [done|]. split; [split; cbn; congruence|]. split; [|by apply Forall_insert].
  change (lengths (set_lengths bytes d)) with bytes. rewrite B3, Hn, insert_app_l by (by rewrite length_map).
  rewrite length_insert. f_equal. symmetry. apply (list_fmap_insert Z.of_nat).
Qed.

Lemma codelen_map_order i s : codelen_order !! i = Some s -> at_index deflate_codelen_map (Z.of_nat i) = Some (Z.of_nat s).
Proof.
  intros H. unfold at_index. rewrite (proj2 (Z.ltb_ge _ _)) by lia. rewrite Nat2Z.id.
  change deflate_codelen_map with (map Z.of_nat codelen_order). by rewrite list_lookup_fmap, H.
Qed.

(** What does not change while the lengths are read. *)
Definition same_block (d d' : deflate) : Prop :=
  header d' = header d /\ litlen_count d' = litlen_count d /\ distance_count d' = distance_count d.

(** The loop reads lengths until it has them all or the input ends. *)
Definition codelen_result (out : list Z) (fuel hlit hdist : nat) (n0 : nat) (d : deflate)
  (r : option (deflate * deflate_chunk * bool)) : Prop :=
  exists B' d' in' (c : bool) acc n, r = Some (with_buf B' d', in', c) /\ shape d' /\ chunk_ok in' /\ (length B' <= 22)%nat
    /\ (length B' + 8 * length (rest in') <= n0)%nat /\ codelen_state d' acc n /\ same_block d d'
    /\ codelen_codes stale n acc hlit hdist (after d fuel) out (stream B' in' F) = v
    /\ if c then n = 0%nat else rest in' = [] /\ (F = [] -> v = Short out).

Lemma codelen_loop_ok out fuel hlit hdist n : forall B d in_ acc, (length B <= 22)%nat -> chunk_ok in_ -> shape d ->
  codelen_state d acc n -> codelen_codes stale n acc hlit hdist (after d fuel) out (stream B in_ F) = v ->
  codelen_result out fuel hlit hdist (length B + 8 * length (rest in_)) d (codelen_loop n (with_buf B d) in_).
Proof.
  induction n as [|n IH]; intros B d in_ acc HB Hin Hsh Hcs Hm.
  { exists B, d, in_, true, acc, 0%nat. repeat (split; [done|]). done. }
  pose proof Hcs as (C1 & C2 & C3 & C4 & C5). cbn [codelen_loop codelen_codes] in *. unfold DEFLATE_CODELEN_BITS.
  destruct (extract_stream B d in_ 3 F Hin ltac:(lia) ltac:(lia)) as (B' & in' & H). cbv zeta in H. change (Z.of_nat 3) with 3 in H.
  destruct H as [(-> & Hl & Hin' & Hs & Hb)|(e & -> & He & Hst & Hb)].
  - set (x := lsb_value (take 3 (stream B in_ F))).
    assert (Hr : 0 <= x < 8).
    { pose proof (lsb_value_range (take 3 (stream B in_ F))) as Hr. rewrite length_take, Nat.min_l in Hr by lia. exact Hr. }
    rewrite (proj2 (Z.ltb_ge x 0)) by lia. change (length_index (with_buf B' d)) with (length_index d). rewrite C1.
    assert (exists s, codelen_order !! length acc = Some s) as [s Hord] by (apply lookup_lt_is_Some; cbn; lia).
    rewrite (codelen_map_order _ _ Hord). destruct (codelen_lengths_snoc acc (Z.to_nat x) s Hord) as [Es Ez].
    destruct (lens_stored_set d _ s (Z.to_nat x) _ C5 Ez ltac:(lia) Hsh Es) as (bytes & E & Hsh' & Hst').
    rewrite Z2Nat.id in E by lia. change (lengths (set_length_index _ _)) with (lengths d). rewrite E.
    set (d' := set_lengths bytes (set_length_index (zlen acc + 1) d)).
    change (set_lengths bytes _) with (with_buf B' d').
    destruct (IH B' d' in' (acc ++ [Z.to_nat x])) as (B2 & d2 & in2 & c & acc2 & n2 & E2 & R1 & R2 & R3 & R4 & R5 & R6 & R7 & R8).
    + lia.
    + done.
    + by apply (shape_ext (set_lengths bytes d)).
    + split; [rewrite zlen_app; reflexivity|]. split; [rewrite zlen_app; cbn in *; lia|]. split; [exact C3|].
      split; [apply Forall_app; split; [done|apply Forall_singleton; lia]|exact Hst'].
    + pose proof (with_bits_long _ _ _ _ Hm Hl) as Hm'. rewrite Hs. exact Hm'.
    + exists B2, d2, in2, c, acc2, n2. split; [exact E2|]. split; [done|]. split; [done|]. split; [done|].
      split; [|by repeat (split; [done|])].
      apply (f_equal length) in Hs. rewrite length_drop, !stream_length in Hs. rewrite stream_length in Hl. lia.
  - rewrite (proj2 (Z.ltb_lt _ _)) by done. pose proof Hst as [T1 T2 T3 T4]. exists B', d, in', false, acc, (S n).
    split; [done|]. split; [done|]. split; [done|]. split; [done|].
    split; [apply (f_equal length) in T3; rewrite !stream_length in T3; lia|].
    split; [exact Hcs|]. split; [done|]. rewrite T3. split; [exact Hm|]. split; [done|].
    intros EF. rewrite EF in Hst, Hm. pose proof (stuck_length _ _ _ _ Hst). by apply (with_bits_short _ _ _ _ Hm); lia.
Qed.

Lemma same_block_counts d d' hlit hdist : same_block d d' -> counts_ok d hlit hdist -> counts_ok d' hlit hdist.
Proof. intros (E1 & E2 & E3) (H1 & H2 & H3). split; [congruence|]. split; [congruence|done]. Qed.

Lemma same_block_after d d' fuel : same_block d d' -> after d' fuel = after d fuel.
Proof. intros (E1 & _). unfold after. by rewrite E1. Qed.

Lemma stream_shorter B B' in_ in' : (length B' + 8 * length (rest in') <= length B + 8 * length (rest in_))%nat ->
  (length (stream B' in' F) <= length (stream B in_ F))%nat.
Proof. rewrite !stream_length. lia. Qed.

Lemma step_dynamic_codelen_ok B d in_ oc out : at_label dynamic_codelen B d in_ oc out ->
  leads (measure dynamic_codelen B in_) (step_dynamic_codelen (with_buf B d) in_ oc).
Proof.
  intros [Hb Hin Hsh Ho (fuel & acc & hlit & hdist & n & Hf & Hc & Hcs & Hm)]. cbn [buffer_ok] in Hb. unfold step_dynamic_codelen.
  assert (En : Z.to_nat (length_target (with_buf B d) - length_index (with_buf B d)) = n).
  { pose proof Hcs as (C1 & C2 & _). cbn. rewrite C1, C2. lia. }
  rewrite En. destruct (codelen_loop_ok out fuel hlit hdist n B d in_ acc Hb Hin Hsh Hcs Hm)
    as (B' & d' & in' & c & acc' & n' & -> & Hsh' & Hin' & HB' & Hlen & Hcs' & Hsame & Hm' & Hrest).
  pose proof (stream_shorter _ _ _ _ Hlen) as Hs. pose proof (same_block_counts _ _ _ _ Hsame Hc) as Hc'.
  rewrite <- (same_block_after d d' fuel Hsame) in Hm'. destruct c; cbn [negb].
  - subst n'. destruct Hcs' as (C1 & C2 & C3 & C4 & C5). cbn [codelen_codes] in Hm'. set (cl := codelen_lengths acc') in *.
    change (lengths (with_buf B' d')) with (lengths d'). change (distance_codelen (with_buf B' d')) with (distance_codelen d').
    pose proof Hsh' as [S1 S2 S3 S4 S5 S6 S7].
    destruct (make_alphabet_spec (lengths d') (distance_codelen d') cl 0) as (al & E & A1 & A2 & A3);
      [apply (holds_stored d' cl cl 0); done|apply (proj2 C5)|done|rewrite S6; cbn; lia|done|].
    change (DEFLATE_CODELEN_MAX_CODE + 1) with (zlen cl). rewrite E.
    destruct (complete cl); [|by apply (leads_return_err _ _ _ _ _ out)].
    destruct (zero_lengths_spec (lengths d') S2) as (Z1 & Z2 & Z3).
    set (d2 := set_cur_length 0 (set_length_target (litlen_count d' + distance_count d') (set_length_index 0
      (set_lengths (zero_lengths (lengths d')) (set_distance_codelen al d'))))).
    apply (leads_goto _ dynamic_litlen_distance B' d2 in' oc out); [split; [done|done| |done|]|].
    + split; cbn; congruence.
    + destruct Hc' as (K1 & K2 & K3 & K4). exists []. eexists. exists cl, (hlit + hdist)%nat. split; [|split; [done|exact Hm']].
      exists fuel, (S (length (stream B' in' F))), hlit, hdist. split; [lia|]. split; [lia|]. split; [done|].
      split; [by apply A3|]. split; [done|]. split; [done|]. split; [cbn; lia|]. split; [done|]. split; [cbn; lia|].
      split; [|reflexivity]. split; [exact Z1|apply Forall_nil; exact I].
    + unfold measure. cbn [rank]. lia.
  - destruct Hrest as [Hrest Hv].
    apply (leads_wait _ dynamic_codelen B' B' d' in' in' oc out); [|split; done|done|done].
    split; [done|done|done|done|]. exists fuel, acc', hlit, hdist, n'. split; [lia|]. split; [done|]. split; [done|exact Hm'].
Qed.

(** ** The code lengths of a dynamic block *)

Lemma code_lengths_done n cl hlit target k out lens S : (target <= length lens)%nat ->
  code_lengths stale n cl hlit target k out lens S = coded_block stale lens hlit k out S.
Proof. intros H. destruct n; cbn [code_lengths]; by rewrite (proj2 (Nat.leb_le _ _) H). Qed.

Lemma code_lengths_more n cl hlit target k out lens S : (length lens < target)%nat ->
  code_lengths stale (Datatypes.S n) cl hlit target k out lens S
  = with_symbol cl out S (fun c bs =>
      let '(value, base, extra) := if (c <? 16)%nat then (c, 1, 0) else if (c =? 16)%nat then (default 0 (last lens), 3, 2)
                                   else if (c =? 17)%nat then (0, 3, 3) else (0, 11, 7) in
      repeat_length target lens value base extra (code_lengths stale n cl hlit target k out) out bs)%nat.
Proof.
  intros H. cbn [code_lengths]. rewrite (proj2 (Nat.leb_gt _ _)) by done. unfold with_symbol. destruct (huff cl S) as [[c bs]|]; [|done].
  by destruct (c <? 16)%nat, (c =? 16)%nat, (c =? 17)%nat.
Qed.

Lemma lens_ok_last lens : lens_ok lens -> (default 0 (last lens) <= 15)%nat.
Proof.
  intros H. destruct (last lens) as [l|] eqn:El; [|cbn; lia]. apply last_Some in El as [l' ->]. unfold lens_ok in H.
  rewrite Forall_app in H. exact (Forall_inv (proj2 H)).
Qed.

Lemma step_dynamic_litlen_distance_ok B d in_ oc out : at_label dynamic_litlen_distance B d in_ oc out ->
  leads (measure dynamic_litlen_distance B in_) (step_dynamic_litlen_distance (with_buf B d) in_ oc).
Proof.
  intros Hat. pose proof Hat as [Hb Hin Hsh Ho (lens & loop & cl & target & Hloop & Hcur & Hm)].
  destruct Hloop as (fuel & n & hlit & hdist & Hf & Hn & Hc & Hal & Hcl & Ht & Hlt & Hli & Hlen & Hst & ->).
  destruct n as [|n]; [lia|]. rewrite code_lengths_more in Hm by done.
  eapply (leads_decode _ dynamic_litlen_distance (distance_codelen d) cl); [exact Hat|done|done|done|exact Hm|].
  intros B' in' c Hin' HB' Hc19 Hs Hlen' Hk. cbv beta in Hk. rewrite Hcl in Hc19.
  assert (Hloop : lengths_loop d (stream B' in' F) out lens (code_lengths stale n cl hlit target (after d fuel) out) cl target).
  { exists fuel, n, hlit, hdist. repeat (split; [lia || done|]). reflexivity. }
  assert (Hgo : forall d' value base extra, shape d' ->
    lengths_loop d' (stream B' in' F) out lens (code_lengths stale n cl hlit target (after d fuel) out) cl target ->
    cur_length d' = Z.of_nat value -> dup_len d' = Z.of_nat base -> extra_bits d' = Z.of_nat extra ->
    (value <= 15)%nat -> (0 < base)%nat -> (extra <= 7)%nat ->
    repeat_length target lens value base extra (code_lengths stale n cl hlit target (after d fuel) out) out (stream B' in' F) = v ->
    leads (measure dynamic_litlen_distance B in_) (goto dynamic_litlen_distance_extra (with_buf B' d') in' oc)).
  { intros d' value base extra Hsh' Hl' E1 E2 E3 Hv Hbase He Hr.
    apply (leads_goto _ dynamic_litlen_distance_extra B' d' in' oc out); [split; [cbn; lia|done|done|done|]|].
    - exists lens. eexists. exists cl, target, value, base, extra. repeat (split; [done|]). exact Hr.
    - unfold measure. cbn [rank]. lia. }
  assert (Hlast : (default 0 (last lens) <= 15)%nat).
  { apply lens_ok_last, (proj2 Hst). }
  destruct (Nat.ltb_spec c 16) as [H16|H16].
  - rewrite (proj2 (Z.ltb_lt _ _)) by lia.
    apply (Hgo (set_dup_len 1 (set_extra_bits 0 (set_cur_length (Z.of_nat c) d))) c 1%nat 0%nat); try done; [by apply (shape_ext d)|lia..].
  - rewrite (proj2 (Z.ltb_ge _ _)) by lia. destruct (Nat.eqb_spec c 16) as [->|N16]; [|destruct (Nat.eqb_spec c 17) as [->|N17]].
    + apply (Hgo (set_extra_bits 2 (set_dup_len 3 d)) (default 0%nat (last lens)) 3%nat 2%nat); try done; [by apply (shape_ext d)|lia..].
    + apply (Hgo (set_cur_length 0 (set_extra_bits 3 (set_dup_len 3 d))) 0%nat 3%nat 3%nat); try done; [by apply (shape_ext d)|lia..].
    + assert (c = 18%nat) as -> by lia.
      apply (Hgo (set_cur_length 0 (set_extra_bits 7 (set_dup_len 11 d))) 0%nat 11%nat 7%nat); try done; [by apply (shape_ext d)|lia..].
Qed.

Lemma lens_stored_snoc d lens x : lens_stored d lens -> (length lens < 320)%nat -> (x <= 15)%nat -> shape d ->
  exists bytes, deflate_set_length (lengths d) (zlen lens) (Z.of_nat x) = Some bytes
    /\ shape (set_lengths bytes d) /\ lens_stored (set_lengths bytes d) (lens ++ [x]).
Proof.
  intros [Hn Hok] Hl Hx [S1 S2 S3 S4 S5 S6 S7]. destruct (320 - length lens)%nat as [|m] eqn:Em; [lia|].
  destruct (deflate_set_length_nibs (lengths d) (length lens) (Z.of_nat x)) as (bytes & E & B1 & B2 & B3); [done| |lia|].
  { rewrite Hn, lookup_app_r by (by rewrite length_map). by rewrite length_map, Nat.sub_diag. }
  exists bytes. split; [done|]. split; [split; cbn; congruence|]. split; [|apply Forall_app; split; [done|by apply Forall_singleton]].
  change (lengths (set_lengths bytes d)) with bytes. rewrite B3, Hn, insert_app_r_alt by (by rewrite length_map).
  rewrite length_map, Nat.sub_diag, map_app, length_app, <- app_assoc. cbn [replicate length]. f_equal. cbn. do 2 f_equal. lia.
Qed.

Lemma take_replicate_S {A} m k (x : A) : take (S m) (replicate (S k) x) = x :: take m (replicate k x).
Proof. done. Qed.

Lemma last_repeated lens m k (x : nat) : (0 < m)%nat -> (0 < k)%nat -> default 0%nat (last (lens ++ take m (replicate k x))) = x.
Proof.
  intros Hm Hk. rewrite take_replicate. destruct (Nat.min m k) as [|j] eqn:E; [lia|].
  by rewrite replicate_S_end, app_assoc, last_snoc.
Qed.

(** A length is stored [k] times, but not beyond the target. *)
Lemma store_lengths_ok B value target k : (value <= 15)%nat -> (target <= 320)%nat -> forall d lens, shape d -> lens_stored d lens ->
  length_index d = zlen lens -> length_target d = Z.of_nat target -> cur_length d = Z.of_nat value ->
  exists d', store_lengths k (with_buf B d) = Some (with_buf B d') /\ shape d' /\ same_block d d'
    /\ let lens' := lens ++ take (target - length lens) (replicate k value) in
    lens_stored d' lens' /\ length_index d' = zlen lens' /\ length_target d' = Z.of_nat target /\ cur_length d' = Z.of_nat value
    /\ distance_codelen d' = distance_codelen d.
Proof.
  intros Hv Ht. induction k as [|k IH]; intros d lens Hsh Hst Hi Htg Hc.
  { exists d. cbn. rewrite take_nil, app_nil_r. by repeat (split; [done|]). }
  cbn [store_lengths]. change (length_index (with_buf B d)) with (length_index d). change (length_target (with_buf B d)) with (length_target d).
  rewrite Hi, Htg. destruct (Z.ltb_spec (zlen lens) (Z.of_nat target)) as [H|H]; cbn [negb].
  - destruct (lens_stored_snoc d lens value Hst ltac:(lia) Hv Hsh) as (bytes & E & Hsh' & Hst').
    change (lengths (with_buf B d)) with (lengths d). change (cur_length (with_buf B d)) with (cur_length d). rewrite Hc, E.
    set (d1 := set_lengths bytes (set_length_index (zlen lens + 1) d)).
    destruct (IH d1 (lens ++ [value])) as (d' & E' & R1 & R2 & R3); [by apply (shape_ext (set_lengths bytes d))|exact Hst'|by rewrite zlen_app|done|done|].
    cbv zeta in R3. exists d'. split; [exact E'|]. split; [done|]. split; [done|]. cbv zeta.
    destruct (target - length lens)%nat as [|m] eqn:Em; [lia|]. rewrite take_replicate_S.
    rewrite length_app in R3. cbn [length] in R3. replace (target - (length lens + 1))%nat with m in R3 by lia.
    rewrite <- app_assoc in R3. exact R3.
  - exists d. split; [done|]. split; [done|]. split; [done|]. cbv zeta. replace (target - length lens)%nat with 0%nat by lia.
    cbn [take]. rewrite app_nil_r. by repeat (split; [done|]).
Qed.

Lemma step_dynamic_litlen_distance_extra_ok B d in_ oc out : at_label dynamic_litlen_distance_extra B d in_ oc out ->
  leads (measure dynamic_litlen_distance_extra B in_) (step_dynamic_litlen_distance_extra (with_buf B d) in_ oc).
Proof.
  intros Hat. pose proof Hat as [Hb Hin Hsh Ho (lens & loop & cl & target & value & base & extra & Hloop & Hcur & Hv & Hd & Hbase & He & He7 & Hm)].
  destruct Hloop as (fuel & n & hlit & hdist & Hf & Hn & Hc & Hal & Hcl & Ht & Hlt & Hli & Hlen & Hst & Eloop).
  unfold step_dynamic_litlen_distance_extra. change (extra_bits (with_buf B d)) with (extra_bits d). rewrite He.
  eapply (leads_extract _ dynamic_litlen_distance_extra extra); [exact Hat|lia|cbn in Hb; lia| |exact Hm|].
  { intros B' HB' _. cbn. lia. }
  intros B' in' Hin' HB' Hs Hl Hlen' x Hx Hk. cbv beta zeta in Hk |- *. cbn [buffer_ok] in Hb.
  change (dup_len (with_buf B' d)) with (dup_len d). rewrite Hd. set (k := Z.to_nat (Z.of_nat base + x)).
  replace (base + Z.to_nat x)%nat with k in Hk by lia. pose proof Hc as (K1 & K2 & K3 & K4).
  destruct (store_lengths_ok B' value target k Hv ltac:(lia) d lens Hsh Hst Hli Hlt Hcur) as (d' & -> & Hsh' & Hsame & H). cbv zeta in H.
  set (lens' := lens ++ take (target - length lens) (replicate k value)) in *. destruct H as (Hst' & Hli' & Hlt' & Hcur' & Hdc').
  change (length_index (with_buf B' d')) with (length_index d'). change (length_target (with_buf B' d')) with (length_target d').
  rewrite Hli', Hlt'. assert (HSlen : (length (stream B' in' F) <= length (stream B in_ F))%nat) by (rewrite Hs, length_drop; lia).
  pose proof (same_block_counts _ _ _ _ Hsame Hc) as Hc'. rewrite <- (same_block_after d d' fuel Hsame) in Eloop.
  assert (Hlen2 : (length lens' <= target)%nat) by (unfold lens'; rewrite length_app, length_take; lia).
  destruct (Z.ltb_spec (zlen lens') (Z.of_nat target)) as [Hlt2|Hge2].
  - apply (leads_goto _ dynamic_litlen_distance B' d' in' oc out); [split; [cbn; lia|done|done|done|]|].
    + exists lens', loop, cl, target. split; [|split; [|exact Hk]].
      * exists fuel, n, hlit, hdist. rewrite Hdc'. repeat (split; [lia || done|]). exact Eloop.
      * rewrite Hcur'. unfold lens'. by rewrite last_repeated by lia.
    + unfold measure. cbn [rank]. lia.
  - apply (leads_goto _ construct_alphabets B' d' in' oc out); [split; [cbn; lia|done|done|done|]|].
    + exists fuel, hlit, hdist, lens'. split; [lia|]. split; [done|]. split; [lia|]. split; [done|].
      rewrite Eloop, code_lengths_done in Hk by lia. exact Hk.
    + unfold measure. cbn [rank]. lia.
Qed.

(** ** Literals and matches *)

Lemma length_table i : (i < 31)%nat -> let '(base, extra) := default (0, 0%nat) (length_codes !! i) in
  0 <= base /\ (extra <= 5)%nat /\ base + 2 ^ Z.of_nat extra - 1 <= 258 /\
  if Z.of_nat i <? 28 then at_index deflate_litlen_base (Z.of_nat i) = Some base
    /\ (if negb (Z.of_nat i / 4 =? 0) then Z.of_nat i / 4 - 1 else Z.of_nat i / 4) = Z.of_nat extra
  else base = 258 /\ extra = 0%nat.
Proof. intros Hi. do 31 (destruct i as [|i]; [vm_compute; repeat split; lia || discriminate|]). lia. Qed.

Lemma distance_table i : (i < 32)%nat -> let '(base, extra) := default (0, 0%nat) (distance_codes !! i) in
  0 <= base /\ (extra <= 14)%nat /\ at_index deflate_distance_base (Z.of_nat i) = Some base
  /\ (if negb (Z.of_nat i / 2 =? 0) then Z.of_nat i / 2 - 1 else Z.of_nat i / 2) = Z.of_nat extra.
Proof. intros Hi. do 32 (destruct i as [|i]; [vm_compute; repeat split; lia || discriminate|]). lia. Qed.

Lemma lz_loop_shorter d S S' dl loop : lz_loop d S dl loop -> (length S' <= length S)%nat -> lz_loop d S' dl loop.
Proof. intros (fuel & n & ll & H1 & H2 & H) Hl. exists fuel, n, ll. split; [lia|]. split; [lia|exact H]. Qed.

Lemma step_lzhuf_litlen_ok B d in_ oc out : at_label lzhuf_litlen B d in_ oc out ->
  leads (measure lzhuf_litlen B in_) (step_lzhuf_litlen a (with_buf B d) in_ oc).
Proof.
  intros Hat. pose proof Hat as [Hb Hin Hsh Ho (dl & loop & Hloop & Hm)].
  destruct Hloop as (fuel & n & ll & Hf & Hn & Hll & Hll' & Hdl & Hdl' & ->). destruct n as [|n]; [lia|]. rewrite codes_S in Hm.
  eapply (leads_decode _ lzhuf_litlen (litlen d) ll); [exact Hat|done|done|done|exact Hm|].
  intros B' in' c Hin' HB' Hc Hs Hlen Hk. cbv beta zeta in Hk |- *. unfold DEFLATE_LITLEN_END.
  assert (Hloop : lz_loop d (stream B' in' F) dl (codes stale n ll dl (after d fuel))).
  { exists fuel, n, ll. repeat (split; [lia || done|]). reflexivity. }
  destruct (Nat.ltb_spec c 256) as [Hlit|Hlit].
  - rewrite (proj2 (Z.ltb_lt _ _)) by lia.
    assert (Eu : u8 (Z.of_nat c) = Z.of_nat c) by (apply uwrap_small; lia).
    destruct (deflate_copy_src a data0 len len_ok [u8 (Z.of_nat c)] oc out 0 1 Ho) as (oc' & -> & Ho'); [lia|lia|cbn; lia| |].
    { pose proof (fits _ _ _ (codes_grows _ n ll dl _ (after_grows d fuel)) Hk) as Hfit. rewrite zlen_app in Hfit. cbn in Hfit. cbn. lia. }
    rewrite Eu in Ho'. apply (leads_goto _ lzhuf_litlen B' d in' oc' (out ++ [Z.of_nat c])); [split; [cbn; lia|done|done|exact Ho'|]|].
    + exists dl. eexists. split; [exact Hloop|exact Hk].
    + unfold measure. cbn [rank]. lia.
  - rewrite (proj2 (Z.ltb_ge _ _)) by lia. destruct (Nat.eqb_spec c 256) as [->|Hne].
    + apply (leads_goto _ block_done B' d in' oc out); [split; [cbn; lia|done|done|done|]|].
      * exists fuel. split; [lia|exact Hk].
      * unfold measure. cbn [rank]. lia.
    + rewrite (proj2 (Z.eqb_neq _ _)) by lia. replace (Z.of_nat c - 256 - 1) with (Z.of_nat (c - 257)) by lia.
      pose proof (length_table (c - 257) ltac:(lia)) as Ht. destruct (default (0, 0%nat) (length_codes !! (c - 257)%nat)) as [base extra].
      destruct Ht as (Hbase & He & Hmax & Ht).
      assert (Hgo : leads (measure lzhuf_litlen B in_) (goto lzhuf_litlen_extra (with_buf B' (set_dup_len base (set_extra_bits (Z.of_nat extra) d))) in' oc)).
      { eapply leads_goto; [split; [cbn; lia|done| |exact Ho|]|].
        - by apply (shape_ext d).
        - exists dl. eexists. exists extra. split; [exact Hloop|]. split; [done|]. split; [done|]. split; [done|]. split; [exact Hmax|exact Hk].
        - unfold measure. cbn [rank]. lia. }
      destruct (Z.of_nat (c - 257) <? 28).
      * destruct Ht as [-> ->]. exact Hgo.
      * destruct Ht as [-> ->]. exact Hgo.
Qed.

Lemma step_lzhuf_litlen_extra_ok B d in_ oc out : at_label lzhuf_litlen_extra B d in_ oc out ->
  leads (measure lzhuf_litlen_extra B in_) (step_lzhuf_litlen_extra (with_buf B d) in_ oc).
Proof.
  intros Hat. pose proof Hat as [Hb Hin Hsh Ho (dl & loop & extra & Hloop & Hd & He & He5 & Hmax & Hm)].
  unfold step_lzhuf_litlen_extra. change (extra_bits (with_buf B d)) with (extra_bits d). rewrite He.
  eapply (leads_extract _ lzhuf_litlen_extra extra); [exact Hat|lia|cbn in Hb; lia| |exact Hm|].
  { intros B' HB' _. cbn. lia. }
  intros B' in' Hin' HB' Hs Hl Hlen x Hx Hk. cbv beta zeta in Hk |- *. cbn [buffer_ok] in Hb.
  apply (leads_goto _ lzhuf_distance B' (set_dup_len (dup_len d + x) d) in' oc out); [split; [cbn; lia|done| |done|]|].
  - by apply (shape_ext d).
  - exists dl, loop. split; [|split; [cbn; lia|exact Hk]]. apply (lz_loop_shorter d (stream B in_ F)); [exact Hloop|rewrite Hs, length_drop; lia].
  - unfold measure. cbn [rank]. lia.
Qed.

Lemma step_lzhuf_distance_ok B d in_ oc out : at_label lzhuf_distance B d in_ oc out ->
  leads (measure lzhuf_distance B in_) (step_lzhuf_distance (with_buf B d) in_ oc).
Proof.
  intros Hat. pose proof Hat as [Hb Hin Hsh Ho (dl & loop & Hloop & Hd & Hm)].
  pose proof Hloop as (_ & _ & _ & _ & _ & _ & _ & Hal & Hdl & _).
  eapply (leads_decode _ lzhuf_distance (distance_codelen d) dl); [exact Hat|done|done|done|exact Hm|].
  intros B' in' c Hin' HB' Hc Hs Hlen Hk. cbv beta zeta in Hk |- *.
  pose proof (distance_table c ltac:(lia)) as Ht. destruct (default (0, 0%nat) (distance_codes !! c)) as [base extra].
  destruct Ht as (Hbase & He & -> & ->).
  apply (leads_goto _ lzhuf_distance_extra B' (set_dup_distance base (set_extra_bits (Z.of_nat extra) d)) in' oc out);
    [split; [cbn; lia|done| |done|]|].
  - by apply (shape_ext d).
  - exists dl, loop, extra. split; [apply (lz_loop_shorter d (stream B in_ F)); [exact Hloop|lia]|].
    split; [done|]. split; [done|]. split; [done|]. split; [done|exact Hk].
  - unfold measure. cbn [rank]. lia.
Qed.

Lemma lz_loop_grows d S dl loop : lz_loop d S dl loop -> grows loop.
Proof. intros (fuel & n & ll & _ & _ & _ & _ & _ & _ & ->). apply codes_grows, after_grows. Qed.

Lemma step_lzhuf_distance_extra_ok B d in_ oc out : at_label lzhuf_distance_extra B d in_ oc out ->
  leads (measure lzhuf_distance_extra B in_) (step_lzhuf_distance_extra a (with_buf B d) in_ oc).
Proof.
  intros Hat. pose proof Hat as [Hb Hin Hsh Ho (dl & loop & extra & Hloop & Hd & Hdist & He & He14 & Hm)].
  unfold step_lzhuf_distance_extra. change (extra_bits (with_buf B d)) with (extra_bits d). rewrite He.
  eapply (leads_extract _ lzhuf_distance_extra extra); [exact Hat|lia|cbn in Hb; lia| |exact Hm|].
  { intros B' HB' _. cbn. lia. }
  intros B' in' Hin' HB' Hs Hl Hlen x Hx Hk. cbv beta zeta in Hk |- *. cbn [buffer_ok] in Hb.
  change (dup_distance (with_buf B' d)) with (dup_distance d). change (dup_len (with_buf B' d)) with (dup_len d).
  assert (Eo : ck_offset oc = zlen out) by (by rewrite Ho). rewrite Eo.
  destruct (Z.ltb_spec (zlen out) (dup_distance d + x)) as [Hfar|Hnear]; [by apply (leads_return_err _ _ _ _ _ out)|].
  destruct (deflate_copy_self a data0 len len_ok oc out (dup_distance d + x) (dup_len d) Ho) as (oc' & -> & Ho'); [lia|lia| |].
  { pose proof (fits _ _ _ (lz_loop_grows _ _ _ _ Hloop) Hk) as Hfit. rewrite copy_match_length in Hfit. lia. }
  eapply (leads_goto _ lzhuf_litlen B' d); [split; [cbn; lia|done|done|exact Ho'|]|].
  - exists dl, loop. split; [|exact Hk]. apply (lz_loop_shorter d (stream B in_ F)); [exact Hloop|rewrite Hs, length_drop; lia].
  - unfold measure. cbn [rank]. lia.
Qed.

(** ** The end of a block and of the stream *)

Lemma step_block_done_ok B d in_ oc out : at_label block_done B d in_ oc out ->
  leads (measure block_done B in_) (step_block_done (with_buf B d) in_ oc).
Proof.
  intros [Hb Hin Hsh Ho (fuel & Hf & Hm)]. cbn [buffer_ok] in Hb. unfold step_block_done.
  change (header (with_buf B d)) with (header d). change (format (with_buf B d)) with (format d).
  unfold DEFLATE_HEADER_BFINAL_BIT. rewrite bit_test, Z.bit0_odd by lia. unfold after, block_end in Hm. rewrite (sh_format _ Hsh).
  assert (Hgo : forall l, buffer_ok l B -> (rank l < 3)%nat -> meaning l d out (stream B in_ F) ->
    leads (measure block_done B in_) (goto l (with_buf B d) in_ oc)).
  { intros l Hbl Hr Hml. eapply (leads_goto _ l B d); [split; done|]. unfold measure. cbn [rank]. lia. }
  destruct (Z.odd (header d)); cbn [negb].
  - unfold footer in Hm. destruct f; apply Hgo; try (cbn; lia); exact Hm || (symmetry; exact Hm).
  - apply Hgo; [exact Hb|cbn; lia|]. exists fuel. split; [exact Hf|exact Hm].
Qed.

Lemma step_zlib_footer_ok B d in_ oc out : at_label zlib_footer B d in_ oc out ->
  leads (measure zlib_footer B in_) (goto zlib_adler32 (deflate_discard_to_byte (with_buf B d)) in_ oc).
Proof.
  intros [Hb Hin Hsh Ho Hm]. cbn [buffer_ok] in Hb. rewrite discard_spec by lia.
  destruct (discard_aligned B in_ ltac:(lia)) as (Hs & Hmod & Hle). set (B' := drop _ _) in *.
  apply (leads_goto _ zlib_adler32 B' d in_ oc out); [split; try done|].
  - cbn [buffer_ok]. split; [done|lia].
  - cbn [meaning]. rewrite Hs. exact Hm.
  - unfold measure. cbn [rank]. lia.
Qed.

Lemma step_zlib_adler32_ok B d in_ oc out : at_label zlib_adler32 B d in_ oc out ->
  leads (measure zlib_adler32 B in_) (step_zlib_adler32 (with_buf B d) in_ oc).
Proof.
  intros Hat. pose proof Hat as [[Hb Hb'] Hin Hsh Ho Hm]. unfold step_zlib_adler32, ZLIB_ADLER32_BITS.
  assert (HbZ : zlen B mod 8 = 0) by (change 8 with (Z.of_nat 8); rewrite <- Nat2Z.inj_mod, Hb; done).
  destruct (accumulate_spec B d in_ 32 Hin ltac:(right; split; [done|lia])) as (k & -> & Hk & Hfull & Hshort).
  pose proof (stream_refill B in_ F k Hin Hk) as Hs. pose proof (advance_ok k in_ Hin Hk) as Hin'.
  set (B' := B ++ bits_of (take k (rest in_))) in *.
  assert (HB' : length B' = (length B + 8 * k)%nat) by (unfold B'; rewrite length_app, bits_of_length, length_take; lia).
  assert (Hb8 : (length B' mod 8 = 0 /\ length B' <= 32)%nat).
  { rewrite HB'. pose proof (Nat.div_mod_eq (length B) 8). split; [|lia]. rewrite (Nat.mul_comm 8), Nat.Div0.mod_add. done. }
  cbn [meaning] in Hm. destruct (Z.ltb_spec (zlen B + 8 * Z.of_nat k - 32) 0) as [Hneg|Hpos].
  - assert (k = length (rest in_)) as Ek by lia.
    assert (Hnil : rest (advance k in_) = []) by (rewrite rest_advance, Ek by done; by apply drop_ge).
    eapply leads_wait_at; [exact Hat|done|done|exact Hs|exact Hb8|]. intros EF. rewrite <- Hm, <- Hs, stream_length, Hnil, EF.
    rewrite (proj2 (Nat.ltb_lt _ _)) by (cbn; lia). done.
  - apply (leads_goto _ finished B' d (advance k in_) oc out); [split; [cbn; lia|done|done|done|]|].
    + cbn [meaning]. rewrite <- Hm, <- Hs, stream_length. rewrite (proj2 (Nat.ltb_ge _ _)) by lia. done.
    + unfold measure. cbn [rank]. rewrite rest_advance, length_drop, HB' by done. lia.
Qed.

Lemma step_finished_ok B d in_ oc out m : at_label finished B d in_ oc out ->
  leads m (return_rc (Ok tt) (set_resume None (with_buf B d)) in_ oc).
Proof.
  intros [Hb Hin Hsh Ho Hm]. exists (with_buf B (set_resume None d)), in_, oc, (Return (Ok tt)). split; [done|].
  exists B, (set_resume None d), out. split; [done|]. split; [by apply (shape_ext d)|]. split; [done|]. split; [done|]. left. done.
Qed.

(** Every jump preserves the meaning. *)
Lemma deflate_step_ok l B d in_ oc out : at_label l B d in_ oc out ->
  leads (measure l B in_) (deflate_step a l (with_buf B d) in_ oc).
Proof.
  intros H. destruct l; cbn [deflate_step].
  - by apply step_zlib_header_ok with (out := out).
  - by apply step_block_header_ok with (out := out).
  - by apply step_literal_block_ok with (out := out).
  - by apply step_literal_len_ok with (out := out).
  - by apply step_literal_nlen_ok with (out := out).
  - by apply step_literal_data_ok with (out := out).
  - by apply step_static_block_ok with (out := out).
  - by apply step_dynamic_header_ok with (out := out).
  - by apply step_dynamic_codelen_ok with (out := out).
  - by apply step_dynamic_litlen_distance_ok with (out := out).
  - by apply step_dynamic_litlen_distance_extra_ok with (out := out).
  - by apply step_construct_alphabets_ok with (out := out).
  - by apply step_lzhuf_litlen_ok with (out := out).
  - by apply step_lzhuf_litlen_extra_ok with (out := out).
  - by apply step_lzhuf_distance_ok with (out := out).
  - by apply step_lzhuf_distance_extra_ok with (out := out).
  - by apply step_block_done_ok with (out := out).
  - by apply step_zlib_footer_ok with (out := out).
  - by apply step_zlib_adler32_ok with (out := out).
  - by apply step_finished_ok with (out := out).
Qed.

(** The jumps end, with the verdict of the format if there is no more input. *)
Lemma run_ok fuel : forall l B d in_ oc out, at_label l B d in_ oc out -> (measure l B in_ < fuel)%nat ->
  ends (run a fuel l (with_buf B d) in_ oc).
Proof.
  induction fuel as [|fuel IH]; intros l B d in_ oc out Hat Hm; [lia|]. cbn [run].
  destruct (deflate_step_ok l B d in_ oc out Hat) as (d' & in' & oc' & j & -> & Hj). destruct j as [l'|rc].
  - destruct Hj as (B' & d0 & out' & -> & Hat' & Hm'). apply (IH _ _ _ _ _ out'); [done|lia].
  - exists d', in', oc', rc. split; [done|]. by destruct rc.
Qed.

Lemma inflate_ok B d in_ oc out : at_label (entry_label d) B d in_ oc out -> ends (deflate_inflate a (with_buf B d) in_ oc).
Proof.
  intros Hat. unfold deflate_inflate. change (entry_label (with_buf B d)) with (entry_label d). apply (run_ok _ _ _ _ _ _ out); [done|].
  pose proof (rest_length in_ (at_chunk _ _ _ _ _ _ Hat)) as Hl. pose proof (at_chunk _ _ _ _ _ _ Hat) as [C1 C2 C3 C4].
  unfold measure, bits_left. change (bits (with_buf B d)) with (zlen B).
  assert (rank (entry_label d) <= 4)%nat by (destruct (entry_label d); cbn; lia). lia.
Qed.
End Simulation.
