(* ===== verification/DeflateStream.v ===== *)
(** * Decompressing a stream

    A client of the decompressor calls it once for every chunk of a stream.
    However the stream is cut, the result is the one that the format defines
    ([deflate_inflate_correct]); no stream produces more than 258 bytes for each
    of its bits, so that on a 64-bit target nothing can go wrong
    ([deflate_inflate_safe]). *)
From S2P Require Import Prelude Strings Memory Deflate DeflateSpec DeflateRfc DeflateHuffman DeflateBits DeflateOutput DeflateCorrect.

(** ** Feeding a stream in chunks *)

Section Client.
Context (a : arch) (f : deflate_format) (data0 : list Z) (len : nat).
Hypothesis len_ok : (len <= length data0)%nat.

(** The verdict on a stream. *)
Definition verdict_on (bs : list bool) : verdict := inflate_spec f (stale data0) [] bs.

(** The decompressor waits for the rest of a stream that starts with the bytes
    [xs]: a chunk [in_], and later the bytes [ys]. *)
Definition expects (xs : list Z) (d : deflate) (oc : deflate_chunk) : Prop :=
  forall in_ ys, chunk_ok in_ -> bytes_ok ys ->
    let v := verdict_on (bits_of (xs ++ rest in_ ++ ys)) in zlen (v_out v) < 2 ^ size_bits a ->
    exists B d0 out, d = with_buf B d0 /\ at_label f data0 len (bits_of ys) v (entry_label d0) B d0 in_ oc out.

Lemma bits_of_mod ys : (length (bits_of ys) mod 8 = 0)%nat.
Proof. rewrite bits_of_length, Nat.mul_comm. apply Nat.Div0.mod_mul. Qed.

Lemma expects_init : expects [] (deflate_init f) (Chunk data0 0 (Z.of_nat len)).
Proof.
  intros in_ ys Hin Hys v Hfit. exists [], (deflate_init f), []. split; [done|].
  split; [destruct f; cbn; lia|done| | |].
  - split; try done. apply Forall_replicate. unfold byte_ok. lia.
  - unfold out_ok, overlay. by rewrite take_nil, Nat.min_0_r.
  - unfold v, verdict_on, inflate_spec, stream. cbn [app]. rewrite bits_of_app. destruct f; cbn [entry_label resume format deflate_init meaning].
    + eexists. split; [|reflexivity]. lia.
    + reflexivity.
Qed.

Lemma at_label_transport F F' v l B d in_ in' oc out : stream B in_ F = stream B in' F' -> chunk_ok in' ->
  at_label f data0 len F v l B d in_ oc out -> at_label f data0 len F' v l B d in' oc out.
Proof. intros Hs Hin [H1 H2 H3 H4 H5]. split; try done. by rewrite <- Hs. Qed.

(** A call consumes its chunk, or ends the stream. *)
Lemma expects_inflate xs d oc in_ : expects xs d oc -> chunk_ok in_ -> forall ys, bytes_ok ys ->
  let v := verdict_on (bits_of (xs ++ rest in_ ++ ys)) in zlen (v_out v) < 2 ^ size_bits a ->
  exists d' in' oc' rc, deflate_inflate a d in_ oc = Some (d', in', oc', rc) /\ exists out', out_ok data0 len out' oc' /\
    match rc with
    | Ok _ => if deflate_finished d' then v = Done out'
              else rest in' = [] /\ expects (xs ++ rest in_) d' oc' /\ (ys = [] -> v = Short out')
    | Err e => v = Bad e out'
    end.
Proof.
  intros Hex Hin. assert (Hends : forall ys, bytes_ok ys -> let v := verdict_on (bits_of (xs ++ rest in_ ++ ys)) in
    zlen (v_out v) < 2 ^ size_bits a -> ends f data0 len (bits_of ys) v (deflate_inflate a d in_ oc)).
  { intros ys Hys v Hv. destruct (Hex in_ ys Hin Hys Hv) as (B & d0 & out & -> & Hat).
    apply (inflate_ok a f data0 len (bits_of ys) v len_ok (bits_of_mod ys) Hv B d0 in_ oc out Hat). }
  intros ys Hys v Hv. destruct (Hends ys Hys Hv) as (d' & in' & oc' & rc & E & Hrc). exists d', in', oc', rc. split; [done|].
  destruct rc as [[]|e]; [|by destruct Hrc as (out' & Ho & Hbad); exists out'].
  destruct Hrc as (B' & d0 & out' & -> & Hsh & Ho & Hin' & Hres). exists out'. split; [done|]. unfold deflate_finished.
  change (resume (with_buf B' d0)) with (resume d0). destruct Hres as [(-> & _ & Hdone)|(l' & Hl & Hrest & Hat & Hshort)]; [done|]. rewrite Hl.
  split; [done|]. split; [|intros ->; by apply Hshort].
  intros in2 ys2 Hin2 Hys2 v2 Hv2.
  assert (Hb2 : bytes_ok (rest in2 ++ ys2)) by (apply Forall_app; split; [by apply rest_bytes|done]).
  assert (Ev : v2 = verdict_on (bits_of (xs ++ rest in_ ++ (rest in2 ++ ys2)))) by (unfold v2; by rewrite <- !app_assoc).
  rewrite Ev in Hv2 |- *. destruct (Hends _ Hb2 Hv2) as (d2 & in'2 & oc2 & rc2 & E2 & Hrc2). rewrite E in E2.
  injection E2 as <- <- <- <-. destruct Hrc2 as (B2 & d02 & out2 & Ed & Hsh2 & Ho2 & _ & [[Hn _]|(l2 & Hl2 & _ & Hat2 & _)]).
  - apply (f_equal resume) in Ed. change (resume d0 = resume d02) in Ed. congruence.
  - exists B2, d02, out2. split; [done|]. unfold entry_label. rewrite Hl2.
    apply (at_label_transport (bits_of (rest in2 ++ ys2)) _ _ _ _ _ in'); [|done|done].
    unfold stream. by rewrite Hrest, bits_of_app.
Qed.

(** One call per chunk, until the stream ends. *)
Fixpoint inflate_chunks (d : deflate) (chunks : list deflate_chunk) (oc : deflate_chunk) : option (deflate * deflate_chunk * res unit) :=
  match chunks with
  | [] => Some (d, oc, Ok tt)
  | in_ :: chunks' =>
      opt! (d, _, oc, rc) := deflate_inflate a d in_ oc in
      match rc with
      | Ok _ => if deflate_finished d then Some (d, oc, Ok tt) else inflate_chunks d chunks' oc
      | Err _ => Some (d, oc, rc)
      end
  end.

Lemma inflate_chunks_ok chunks : Forall chunk_ok chunks -> chunks <> [] -> forall xs d oc, expects xs d oc ->
  let v := verdict_on (bits_of (xs ++ (chunks ≫= rest))) in zlen (v_out v) < 2 ^ size_bits a ->
  exists d' oc' rc, inflate_chunks d chunks oc = Some (d', oc', rc) /\ out_ok data0 len (v_out v) oc' /\
    match v with
    | Done _ => rc = Ok tt /\ deflate_finished d' = true
    | Short _ => rc = Ok tt /\ deflate_finished d' = false
    | Bad e _ => rc = Err e
    end.
Proof.
  induction 1 as [|in_ chunks Hin Hchunks IH]; [done|]. intros _ xs d oc Hex v Hv. cbn [inflate_chunks].
  assert (Hys : bytes_ok (chunks ≫= rest)).
  { apply Forall_bind. eapply Forall_impl; [exact Hchunks|]. intros c. apply rest_bytes. }
  destruct (expects_inflate xs d oc in_ Hex Hin (chunks ≫= rest) Hys Hv) as (d' & in' & oc' & rc & -> & out' & Ho & H).
  change (verdict_on (bits_of (xs ++ rest in_ ++ (chunks ≫= rest)))) with v in H.
  destruct rc as [[]|e]; [|exists d', oc', (Err e); split; [done|]; rewrite H; done].
  destruct (deflate_finished d') eqn:Ef; [exists d', oc', (Ok tt); split; [done|]; rewrite H; done|].
  destruct H as (_ & Hex' & Hshort). destruct (decide (chunks = [])) as [->|Hne].
  - exists d', oc', (Ok tt). split; [done|]. rewrite (Hshort eq_refl). done.
  - assert (Ev : v = verdict_on (bits_of ((xs ++ rest in_) ++ (chunks ≫= rest)))) by (unfold v; by rewrite <- app_assoc).
    rewrite Ev in Hv |- *. by apply IH.
Qed.
End Client.

(** ** A decompressor that is used again and again

    A client that does not look at [deflate_finished] before it passes on the
    next chunk starts another stream, with the bits that the last one left. *)

Section Reuse.
Context (data0 : list Z) (len : nat).
Hypothesis len_ok : (len <= length data0)%nat.

(** [c] bounds the output so far, and 2064 the output for each byte to come. *)
Definition usable (c : Z) (d : deflate) (oc : deflate_chunk) : Prop :=
  forall in_ ys, chunk_ok in_ -> bytes_ok ys -> c + 2064 * zlen (rest in_ ++ ys) < 2 ^ 64 ->
    exists B d0 out v, d = with_buf B d0 /\ zlen (v_out v) <= c + 2064 * zlen (rest in_ ++ ys)
      /\ at_label DEFLATE_ZLIB data0 len (bits_of ys) v (entry_label d0) B d0 in_ oc out.

Lemma usable_start B d0 out oc c : (length B <= 32)%nat -> shape DEFLATE_ZLIB d0 -> resume d0 = None -> out_ok data0 len out oc ->
  zlen out + 258 * zlen B <= c -> usable c (with_buf B d0) oc.
Proof.
  intros HB Hsh Hres Ho Hc in_ ys Hin Hys Hfit. exists B, d0, out, (zlib_stream DEFLATE_ZLIB (stale data0) out (stream B in_ (bits_of ys))).
  split; [done|]. split.
  - pose proof (zlib_stream_grows DEFLATE_ZLIB (stale data0) out (stream B in_ (bits_of ys))) as Hg. unfold fair in Hg.
    rewrite stream_length, bits_of_length in Hg. rewrite zlen_app in *. lia.
  - assert (El : entry_label d0 = zlib_header) by (unfold entry_label; by rewrite Hres, (sh_format _ _ Hsh)). rewrite El.
    split; [exact HB|done|done|done|reflexivity].
Qed.

(** A call on any chunk returns, in bounds, and leaves a usable decompressor
    unless it fails. *)
Lemma usable_inflate c d oc in_ : usable c d oc -> chunk_ok in_ -> c + 2064 * zlen (rest in_) < 2 ^ 64 ->
  exists d' in' oc' rc, deflate_inflate Arch64 d in_ oc = Some (d', in', oc', rc)
    /\ (exists out', out_ok data0 len out' oc' /\ zlen out' <= c + 2064 * zlen (rest in_))
    /\ match rc with Ok _ => usable (c + 2064 * zlen (rest in_) + 8256) d' oc' | Err _ => True end.
Proof.
  intros Hus Hin Hc.
  assert (Hends : forall ys, bytes_ok ys -> c + 2064 * zlen (rest in_ ++ ys) < 2 ^ 64 -> exists v,
    zlen (v_out v) <= c + 2064 * zlen (rest in_ ++ ys) /\ ends DEFLATE_ZLIB data0 len (bits_of ys) v (deflate_inflate Arch64 d in_ oc)).
  { intros ys Hys Hv. destruct (Hus in_ ys Hin Hys Hv) as (B & d0 & out & v & -> & Hvb & Hat). exists v. split; [done|].
    apply (inflate_ok Arch64 DEFLATE_ZLIB data0 len (bits_of ys) v len_ok (bits_of_mod ys) ltac:(change (size_bits Arch64) with 64; lia) B d0 in_ oc out Hat). }
  destruct (Hends [] ltac:(constructor) ltac:(rewrite app_nil_r; lia)) as (v & Hvb & d' & in' & oc' & rc & E & Hrc).
  rewrite app_nil_r in Hvb. exists d', in', oc', rc. split; [done|].
  destruct rc as [[]|e]; [|destruct Hrc as (out' & Ho & ->); split; [by exists out'|done]].
  destruct Hrc as (B' & d0 & out' & -> & Hsh & Ho & Hin' & [(Hres & HB & ->)|(l' & Hl & Hrest & Hat & Hshort)]).
  - split; [by exists out'|]. apply (usable_start B' d0 out'); try done. cbn [v_out] in Hvb. lia.
  - rewrite (Hshort eq_refl) in Hvb. split; [by exists out'|].
    intros in2 ys2 Hin2 Hys2 Hfit2.
    assert (Hb2 : bytes_ok (rest in2 ++ ys2)) by (apply Forall_app; split; [by apply rest_bytes|done]).
    destruct (Hends _ Hb2) as (v2 & Hv2 & d2 & in'2 & oc2 & rc2 & E2 & Hrc2); [rewrite !zlen_app in *; lia|].
    rewrite E in E2. injection E2 as <- <- <- <-.
    destruct Hrc2 as (B2 & d02 & out2 & Ed & Hsh2 & Ho2 & _ & [[Hn _]|(l2 & Hl2 & _ & Hat2 & _)]).
    + apply (f_equal resume) in Ed. change (resume d0 = resume d02) in Ed. congruence.
    + exists B2, d02, out2, v2. split; [done|]. split; [rewrite !zlen_app in *; lia|]. unfold entry_label. rewrite Hl2.
      apply (at_label_transport DEFLATE_ZLIB data0 len (bits_of (rest in2 ++ ys2)) _ _ _ _ _ in'); [|done|done].
      unfold stream. by rewrite Hrest, bits_of_app.
Qed.
End Reuse.

(** ** Another output buffer

    What was in the output buffer matters for the bytes of the output, but not
    for its length and not for the verdict. *)

Section Swap.
Context (f : deflate_format) (data0 data1 : list Z).

Lemma after_alike d fuel : same_verdicts (after f data0 d fuel) (after f data1 d fuel).
Proof.
  intros o1 o2 bs Ho. unfold after, block_end, footer. case_match; [repeat case_match; done|]. by apply blocks_alike.
Qed.

Lemma lz_loop_swap d S dl loop : lz_loop f data0 d S dl loop -> exists loop', lz_loop f data1 d S dl loop' /\ same_verdicts loop loop'.
Proof.
  intros (fuel & n & ll & H1 & H2 & H3 & H4 & H5 & H6 & ->). eexists. split.
  - exists fuel, n, ll. repeat (split; [done|]). reflexivity.
  - apply codes_alike, after_alike.
Qed.

Lemma lengths_loop_swap d S o1 o2 lens loop cl target : lengths_loop f data0 d S o1 lens loop cl target -> length o1 = length o2 ->
  exists loop', lengths_loop f data1 d S o2 lens loop' cl target /\ forall lens bs, alike (loop lens bs) (loop' lens bs).
Proof.
  intros (fuel & n & hlit & hdist & H1 & H2 & H3 & H4 & H5 & H6 & H7 & H8 & H9 & H10 & ->) Ho. eexists. split.
  - exists fuel, n, hlit, hdist. repeat (split; [done|]). reflexivity.
  - intros lens' bs. apply code_lengths_alike; [apply after_alike|done].
Qed.

Lemma meaning_swap v l d o1 o2 S : meaning f data0 v l d o1 S -> length o1 = length o2 ->
  exists v', alike v v' /\ meaning f data1 v' l d o2 S.
Proof.
  intros H Ho. destruct l; cbn [meaning] in *.
  - subst v. eexists. split; [|reflexivity]. apply with_bits_alike; [done|]. intros h bs. case_match; [done|by apply blocks_alike].
  - destruct H as (fuel & Hf & <-). eexists. split; [|exists fuel; split; [done|reflexivity]]. by apply blocks_alike.
  - destruct H as (fuel & Hf & <-). eexists. split; [|exists fuel; split; [done|reflexivity]]. apply stored_len_alike; [apply after_alike|done].
  - destruct H as (fuel & Hf & <-). eexists. split; [|exists fuel; split; [done|reflexivity]]. apply stored_len_alike; [apply after_alike|done].
  - destruct H as (fuel & Hf & Hr & <-). eexists. split; [|exists fuel; split; [done|]; split; [done|reflexivity]].
    apply with_bits_alike; [done|]. intros x bs. case_match; [apply stored_data_alike; [apply after_alike|done]|done].
  - destruct H as (fuel & Hf & Hr & <-). eexists. split; [|exists fuel; split; [done|]; split; [done|reflexivity]].
    apply stored_data_alike; [apply after_alike|done].
  - destruct H as (fuel & Hf & <-). eexists. split; [|exists fuel; split; [done|reflexivity]]. apply coded_block_alike; [apply after_alike|done].
  - destruct H as (fuel & Hf & <-). eexists. split; [|exists fuel; split; [done|reflexivity]].
    apply with_bits_alike; [done|]. intros x bs. apply codelen_codes_alike; [apply after_alike|done].
  - destruct H as (fuel & acc & hlit & hdist & n & H1 & H2 & H3 & <-). eexists. split; [|exists fuel, acc, hlit, hdist, n; repeat (split; [done|]); reflexivity].
    apply codelen_codes_alike; [apply after_alike|done].
  - destruct H as (lens & loop & cl & target & Hl & Hc & <-). destruct (lengths_loop_swap _ _ _ _ _ _ _ _ Hl Ho) as (loop' & Hl' & Ha).
    eexists. split; [|exists lens, loop', cl, target; repeat (split; [done|]); reflexivity]. apply Ha.
  - destruct H as (lens & loop & cl & target & value & base & extra & Hl & H2 & H3 & H4 & H5 & H6 & H7 & <-).
    destruct (lengths_loop_swap _ _ _ _ _ _ _ _ Hl Ho) as (loop' & Hl' & Ha).
    eexists. split; [|exists lens, loop', cl, target, value, base, extra; repeat (split; [done|]); reflexivity].
    apply with_bits_alike; [done|]. intros x bs. apply Ha.
  - destruct H as (fuel & hlit & hdist & lens & H1 & H2 & H3 & H4 & <-). eexists.
    split; [|exists fuel, hlit, hdist, lens; repeat (split; [done|]); reflexivity]. apply coded_block_alike; [apply after_alike|done].
  - destruct H as (dl & loop & Hl & <-). destruct (lz_loop_swap _ _ _ _ Hl) as (loop' & Hl' & Ha).
    eexists. split; [|exists dl, loop'; split; [done|reflexivity]]. by apply Ha.
  - destruct H as (dl & loop & extra & Hl & H2 & H3 & H4 & H5 & <-). destruct (lz_loop_swap _ _ _ _ Hl) as (loop' & Hl' & Ha).
    eexists. split; [|exists dl, loop', extra; repeat (split; [done|]); reflexivity].
    apply with_bits_alike; [done|]. intros x bs. by apply distance_alike.
  - destruct H as (dl & loop & Hl & H2 & <-). destruct (lz_loop_swap _ _ _ _ Hl) as (loop' & Hl' & Ha).
    eexists. split; [|exists dl, loop'; repeat (split; [done|]); reflexivity]. by apply distance_alike.
  - destruct H as (dl & loop & extra & Hl & H2 & H3 & H4 & H5 & <-). destruct (lz_loop_swap _ _ _ _ Hl) as (loop' & Hl' & Ha).
    eexists. split; [|exists dl, loop', extra; repeat (split; [done|]); reflexivity].
    apply with_bits_alike; [done|]. intros x bs. rewrite Ho. case_match; [done|]. apply Ha. by rewrite !copy_match_length, Ho.
  - destruct H as (fuel & Hf & <-). eexists. split; [|exists fuel; split; [done|reflexivity]]. by apply after_alike.
  - subst v. eexists. split; [|reflexivity]. by case_match.
  - subst v. eexists. split; [|reflexivity]. by case_match.
  - subst v. exists (Done o2). done.
Qed.
End Swap.

(** A usable decompressor stays usable when the output buffer is replaced. *)
Lemma usable_move data0 len data1 len1 c d oc : (len1 <= length data1)%nat -> usable data0 len c d oc ->
  usable data1 len1 c d (Chunk data1 (ck_offset oc) (Z.of_nat len1)).
Proof.
  intros Hl1 Hus in_ ys Hin Hys Hc. destruct (Hus in_ ys Hin Hys Hc) as (B & d0 & out & v & -> & Hv & [A1 A2 A3 A4 A5]).
  set (out1 := take (length out) (data1 ++ replicate (length out) 0)).
  assert (Hout : length out = length out1) by (unfold out1; rewrite length_take, length_app, length_replicate; lia).
  destruct (meaning_swap DEFLATE_ZLIB data0 data1 v _ _ _ out1 _ A5 Hout) as (v' & [Hl _] & Hm).
  exists B, d0, out1, v'. split; [done|]. split; [lia|]. split; [done|done|done| |done].
  unfold out_ok in *. subst oc. cbn [ck_offset]. rewrite Hout. f_equal. unfold overlay. rewrite <- Hout. unfold out1.
  rewrite take_take, take_app_le by lia. by rewrite take_drop.
Qed.

(** ** What a client may rely on *)

(** C13. The decompressor implements the format: fed with any chunks of a
    stream, in order, from the initial state, it accepts the stream, asks for
    more, or refuses it exactly as [inflate_spec] says, and the output buffer
    holds the output, as far as there is room, over its former contents; the
    offset is the size of the whole output.  For every stream that RFC 1951 and
    RFC 1950 allow this is their output ([rfc_inflate]), except that a block
    which announces several distance codes and uses at most one of them is
    refused ([deflate_refuses_single_distance]).  What [inflate_spec] says of
    other streams is what the source does: it gives the reserved codes 286,
    287, 30 and 31 a meaning (with distance 0 the buffer keeps its former
    contents), cuts repeated code lengths off at the announced number, and does
    not look at the check value and window size of the header or at the value of
    the checksum. *)
Theorem deflate_inflate_correct a f data0 len chunks :
  (len <= length data0)%nat -> chunks <> [] -> Forall chunk_ok chunks ->
  let v := inflate_spec f (stale data0) [] (bits_of (chunks ≫= rest)) in
  zlen (v_out v) < 2 ^ size_bits a ->
  exists d oc rc, inflate_chunks a (deflate_init f) chunks (Chunk data0 0 (Z.of_nat len)) = Some (d, oc, rc)
    /\ oc = Chunk (overlay len (v_out v) data0) (zlen (v_out v)) (Z.of_nat len)
    /\ match v with
       | Done _ => rc = Ok tt /\ deflate_finished d = true
       | Short _ => rc = Ok tt /\ deflate_finished d = false
       | Bad e _ => rc = Err e
       end
    /\ (forall out, rfc_inflate false f (bits_of (chunks ≫= rest)) = Some out -> v = Done out).
Proof.
  intros Hlen Hne Hchunks v Hv.
  assert (Hrfc : forall out, rfc_inflate false f (bits_of (chunks ≫= rest)) = Some out -> v = Done out) by apply rfc_inflate_read.
  enough (exists d oc rc, inflate_chunks a (deflate_init f) chunks (Chunk data0 0 (Z.of_nat len)) = Some (d, oc, rc)
    /\ oc = Chunk (overlay len (v_out v) data0) (zlen (v_out v)) (Z.of_nat len)
    /\ match v with
       | Done _ => rc = Ok tt /\ deflate_finished d = true
       | Short _ => rc = Ok tt /\ deflate_finished d = false
       | Bad e _ => rc = Err e
       end) as (d & oc & rc & E & Ho & Hm) by (exists d, oc, rc; by split_and!).
  exact (inflate_chunks_ok a f data0 len Hlen chunks Hchunks Hne [] (deflate_init f) _ (expects_init a f data0 len Hlen) Hv).
Qed.

(** Three chunks, the second one empty, and a buffer that is too small. *)
Definition sample_parts : list deflate_chunk :=
  [Chunk (take 30 sample_stream) 0 30; Chunk sample_stream 30 30; Chunk (9 :: drop 30 sample_stream) 1 (zlen sample_stream - 29)].

Lemma deflate_inflate_correct_witness :
  exists d oc, inflate_chunks Arch32 (deflate_init DEFLATE_RAW) sample_parts (Chunk (replicate 110 7) 0 100) = Some (d, oc, Ok tt)
    /\ oc = Chunk (take 100 sample_text ++ replicate 10 7) 120 100 /\ deflate_finished d = true.
Proof.
  assert (Er : rfc_inflate false DEFLATE_RAW (bits_of (sample_parts ≫= rest)) = Some sample_text) by (vm_compute; reflexivity).
  assert (Ev : inflate_spec DEFLATE_RAW (stale (replicate 110 7)) [] (bits_of (sample_parts ≫= rest)) = Done sample_text)
    by (vm_compute; reflexivity).
  destruct (deflate_inflate_correct Arch32 DEFLATE_RAW (replicate 110 7) 100 sample_parts) as (d & oc & rc & E & -> & H & Hr).
  - vm_compute. lia.
  - discriminate.
  - repeat apply Forall_cons_2; [| | |apply Forall_nil_2]; (split; [vm_compute; split; discriminate|vm_compute; discriminate|vm_compute; reflexivity|]);
      apply (bool_decide_unpack _); vm_compute; exact I.
  - cbv zeta. rewrite Ev. vm_compute. reflexivity.
  - cbv zeta in E, H, Hr. rewrite (Hr _ Er) in E, H. destruct H as [-> Hf]. eexists _, _. split; [exact E|]. split; [vm_compute; reflexivity|exact Hf].
Defined.

(** The size of the output is bounded by the size of the input. *)
Lemma output_bound f data0 chunks : Forall chunk_ok chunks -> zlen (chunks ≫= rest) < 2 ^ 32 ->
  zlen (v_out (inflate_spec f (stale data0) [] (bits_of (chunks ≫= rest)))) <= 2064 * zlen (chunks ≫= rest).
Proof.
  intros Hc Hl. pose proof (inflate_spec_grows f (stale data0) [] (bits_of (chunks ≫= rest))) as Hg. unfold fair in Hg.
  rewrite bits_of_length in Hg. cbn [length] in Hg. lia.
Qed.

(** C14. On a 64-bit target the decompressor returns for every input, malformed
    ones included, without an access outside its input, its tables or the
    output buffer: nothing beyond the end of the buffer or beyond the output is
    changed, and the size of the output is at most 2064 times the size of the
    input. *)
Theorem deflate_inflate_safe f data0 len chunks :
  (len <= length data0)%nat -> chunks <> [] -> Forall chunk_ok chunks -> zlen (chunks ≫= rest) < 2 ^ 32 ->
  exists d oc rc, inflate_chunks Arch64 (deflate_init f) chunks (Chunk data0 0 (Z.of_nat len)) = Some (d, oc, rc)
    /\ 0 <= ck_offset oc <= 2064 * zlen (chunks ≫= rest) /\ length (ck_data oc) = length data0
    /\ drop (Nat.min len (Z.to_nat (ck_offset oc))) (ck_data oc) = drop (Nat.min len (Z.to_nat (ck_offset oc))) data0.
Proof.
  intros Hlen Hne Hc Hl. pose proof (output_bound f data0 chunks Hc Hl) as Hb.
  set (v := inflate_spec f (stale data0) [] (bits_of (chunks ≫= rest))) in *.
  destruct (inflate_chunks_ok Arch64 f data0 len Hlen chunks Hc Hne [] (deflate_init f) _ (expects_init Arch64 f data0 len Hlen))
    as (d & oc & rc & E & Ho & _).
  { change (zlen (v_out v) < 2 ^ 64). lia. }
  exists d, oc, rc. split; [exact E|]. unfold out_ok in Ho. change (verdict_on f data0 (bits_of ([] ++ (chunks ≫= rest)))) with v in Ho.
  rewrite Ho. cbn [ck_offset ck_data]. split; [lia|]. split; [by apply overlay_length|]. rewrite Nat2Z.id. unfold overlay.
  rewrite drop_app_length' by (rewrite length_take; lia). done.
Qed.

Lemma deflate_inflate_safe_witness :
  exists d oc rc, inflate_chunks Arch64 (deflate_init DEFLATE_ZLIB) [Chunk [120; 218; 237; 255; 1; 2; 3] 0 7] (Chunk (replicate 6 7) 0 4) = Some (d, oc, rc)
    /\ 0 <= ck_offset oc <= 2064 * 7 /\ length (ck_data oc) = 6%nat
    /\ drop (Nat.min 4 (Z.to_nat (ck_offset oc))) (ck_data oc) = drop (Nat.min 4 (Z.to_nat (ck_offset oc))) (replicate 6 7).
Proof.
  apply (deflate_inflate_safe DEFLATE_ZLIB (replicate 6 7) 4 [Chunk [120; 218; 237; 255; 1; 2; 3] 0 7]).
  - vm_compute. lia.
  - discriminate.
  - apply Forall_cons_2; [|apply Forall_nil_2]. split; [vm_compute; split; discriminate|vm_compute; discriminate|vm_compute; reflexivity|].
    apply (bool_decide_unpack _). vm_compute. exact I.
  - vm_compute. reflexivity.
Defined.

(** "ababab", compressed with two announced distance codes of which only the
    second one is used, as RFC 1951, 3.2.7 allows. *)
Definition single_distance_stream : list Z := [21; 193; 1; 9; 0; 0; 0; 128; 160; 173; 245; 127; 68; 132; 184; 0].

(** "abbbbb", with a single announced distance code. *)
Definition first_distance_stream : list Z := [21; 192; 1; 9; 0; 0; 0; 128; 160; 173; 245; 127; 68; 36; 46].

(** A dynamic block with more than one announced distance code of which a
    single one is used, with a code of one bit, is refused: the codes of the
    distances are not complete, although RFC 1951 allows it.  A block that
    announces a single distance code is accepted. *)
Theorem deflate_refuses_single_distance :
  rfc_inflate true DEFLATE_RAW (bits_of single_distance_stream) = Some [97; 98; 97; 98; 97; 98] /\
  inflate_bytes DEFLATE_RAW single_distance_stream 8 = Some ([], true, Err EINVAL)
  /\ inflate_bytes DEFLATE_RAW first_distance_stream 8 = Some ([97; 98; 98; 98; 98; 98], true, Ok tt).
Proof. repeat split; vm_compute; reflexivity. Qed.
