(* ===== verification/DeflateBytes.v ===== *)
(** * The output of the decompressor consists of bytes

    A property of the code alone, for every state of the decompressor: it stores
    nothing but bytes of the input, literals and copies of the output. *)
From S2P Require Import Prelude Strings Memory Deflate.

(** [P] holds for the result, if there is one. *)
Definition then_ {A} (P : A -> Prop) (o : option A) : Prop := match o with Some x => P x | None => True end.

Lemma then_bind {A B} (P : B -> Prop) (Q : A -> Prop) (o : option A) (k : A -> option B) :
  then_ Q o -> (forall x, Q x -> then_ P (k x)) -> then_ P (opt! x := o in k x).
Proof. destruct o; cbn; auto. Qed.

Lemma then_any {A B} (P : B -> Prop) (o : option A) (k : A -> option B) :
  (forall x, then_ P (k x)) -> then_ P (opt! x := o in k x).
Proof. destruct o; cbn; auto. Qed.

(** The input is only read. *)
Definition reads (in_ : deflate_chunk) {A} (r : deflate * deflate_chunk * A) : Prop := ck_data r.1.2 = ck_data in_.

Lemma accumulate_loop_reads target n : forall d in_, then_ (fun r => ck_data r.2 = ck_data in_) (accumulate_loop n d in_ target).
Proof.
  induction n as [|n IH]; intros d in_; cbn [accumulate_loop]; case_match; try done.
  do 2 (apply then_any; intros ?). case_match; [done|]. apply (IH _ (set_ck_offset (ck_offset in_ + 1) in_)).
Qed.

Lemma accumulate_reads d in_ target : then_ (reads in_) (deflate_accumulate d in_ target).
Proof. apply (then_bind _ _ _ _ (accumulate_loop_reads target _ d in_)). intros [d' in'] H. exact H. Qed.

Lemma extract_reads d in_ target : then_ (reads in_) (deflate_extract d in_ target).
Proof.
  unfold deflate_extract. case_match; [done|]. apply (then_bind _ _ _ _ (accumulate_reads d in_ target)).
  intros [[d' in'] e] H'. by case_match.
Qed.

Lemma decode_reads d in_ al : then_ (reads in_) (deflate_decode d in_ al).
Proof.
  apply (then_bind _ _ _ _ (accumulate_reads d in_ _)). intros [[d' in'] e] H'. do 2 (apply then_any; intros ?).
  case_match; [done|]. cbn. by apply then_any.
Qed.

Lemma codelen_loop_reads n : forall d in_, then_ (reads in_) (codelen_loop n d in_).
Proof.
  induction n as [|n IH]; intros d in_; cbn [codelen_loop]; [done|].
  apply (then_bind _ _ _ _ (extract_reads d in_ _)). intros [[d' in'] len] H. case_match; [done|].
  do 2 (apply then_any; intros ?). unfold reads in *. cbn in H. rewrite <- H. apply IH.
Qed.

Lemma set_index_bytes data i b : bytes_ok data -> byte_ok b -> then_ bytes_ok (set_index data i b).
Proof. intros Hd Hb. unfold set_index. case_match; [done|]. by apply Forall_insert. Qed.

Lemma at_index_bytes data i : bytes_ok data -> then_ byte_ok (at_index data i).
Proof. intros Hd. unfold at_index. case_match; [done|]. destruct (data !! _) eqn:E; [|done]. by apply (Forall_lookup_1 _ _ _ _ Hd E). Qed.

Lemma copy_loop_bytes n src : from_option bytes_ok True src -> forall data o i, bytes_ok data -> then_ bytes_ok (copy_loop n src data o i).
Proof.
  intros Hs. induction n as [|n IH]; intros data o i Hd; cbn [copy_loop]; [done|].
  apply (then_bind _ byte_ok); [apply at_index_bytes; by destruct src|]. intros b Hb.
  apply (then_bind _ _ _ _ (set_index_bytes data o b Hd Hb)). intros data' Hd'. by apply IH.
Qed.

Lemma copy_bytes a out src offset len : from_option bytes_ok True src -> bytes_ok (ck_data out) ->
  then_ (fun out => bytes_ok (ck_data out)) (deflate_copy a out src offset len).
Proof.
  intros Hs Ho. unfold deflate_copy. apply (then_bind _ bytes_ok); [|done]. case_match; [by apply copy_loop_bytes|done].
Qed.

Section Steps.
Context (a : arch).

(** Input and output stay bytes. *)
Definition chunks_bytes (in_ out : deflate_chunk) : Prop := bytes_ok (ck_data in_) /\ bytes_ok (ck_data out).
Definition step_bytes (r : deflate * deflate_chunk * deflate_chunk * jump) : Prop := chunks_bytes r.1.1.2 r.1.2.

Local Ltac reading lemma :=
  refine (then_bind _ _ _ _ lemma _); intros [[? in'] ?] Hread; unfold reads in Hread; cbn [fst snd] in *.
Local Ltac walk :=
  cbv zeta;
  match goal with
  | |- then_ _ (match deflate_extract ?d ?i ?t with _ => _ end) => reading (extract_reads d i t)
  | |- then_ _ (match deflate_decode ?d ?i ?t with _ => _ end) => reading (decode_reads d i t)
  | |- then_ _ (match deflate_accumulate ?d ?i ?t with _ => _ end) => reading (accumulate_reads d i t)
  | |- then_ _ (match codelen_loop ?n ?d ?i with _ => _ end) => reading (codelen_loop_reads n d i)
  | |- then_ _ (match deflate_copy _ ?o ?s ?i ?n with _ => _ end) =>
      refine (then_bind _ _ _ _ (copy_bytes a o s i n _ _) _); [| |intros ? ?]
  | |- then_ _ (goto _ _ _ _) => split; [cbn; congruence|assumption]
  | |- then_ _ (wait_at _ _ _ _) => split; [cbn; congruence|assumption]
  | |- then_ _ (return_rc _ _ _ _) => split; [cbn; congruence|assumption]
  | |- then_ _ (if _ then _ else _) => case_match
  | |- then_ _ (match ?o with Some _ => _ | None => None end) => apply then_any; intros ?
  | |- then_ _ _ => case_match
  end.

Lemma deflate_step_bytes l d in_ out : chunks_bytes in_ out -> then_ step_bytes (deflate_step a l d in_ out).
Proof.
  intros [Hi Ho].
  destruct l; cbn [deflate_step];
  unfold step_zlib_header, step_block_header, step_literal_len, step_literal_nlen, step_literal_data, step_static_block,
    step_dynamic_header, step_dynamic_codelen, step_dynamic_litlen_distance, step_dynamic_litlen_distance_extra,
    step_construct_alphabets, step_lzhuf_litlen, step_lzhuf_litlen_extra, step_lzhuf_distance, step_lzhuf_distance_extra,
    step_block_done, step_zlib_adler32; repeat walk; try assumption; try exact I.
  apply Forall_cons. split; [apply uwrap_range; lia|constructor].
Qed.

Lemma run_bytes fuel : forall l d in_ out, chunks_bytes in_ out ->
  then_ (fun r => bytes_ok (ck_data r.1.2)) (run a fuel l d in_ out).
Proof.
  induction fuel as [|fuel IH]; intros l d in_ out H; cbn [run]; [done|].
  refine (then_bind _ _ _ _ (deflate_step_bytes l d in_ out H) _). intros [[[d' in'] out'] j] H'.
  destruct j; [by apply IH|apply H'].
Qed.

(** Bytes in, bytes out. *)
Lemma deflate_inflate_bytes d in_ out d' in' out' rc : bytes_ok (ck_data in_) -> bytes_ok (ck_data out) ->
  deflate_inflate a d in_ out = Some (d', in', out', rc) -> bytes_ok (ck_data out').
Proof.
  intros Hi Ho E. pose proof (run_bytes (Z.to_nat (8 * bits_left d in_) + 8) (entry_label d) d in_ out (conj Hi Ho)) as H.
  unfold deflate_inflate in E. rewrite E in H. exact H.
Qed.
End Steps.
