(* ===== verification/Extract.v ===== *)
(** * Compressed images ([image/zlib.c], [image/gzip.c], [core/image.c])

    An image is a block of external memory with a length.  [zlib_deflate]
    decompresses into an image, which it resizes once the size of the output is
    known; [gzip_extract] finds the compressed data behind the header of a gzip
    file.  The external memory allocator [urealloc] is provided by the platform
    and is a parameter.  [None] is an access outside an object. *)
From S2P Require Import Prelude Strings Memory Deflate DeflateSpec DeflateRfc DeflateHuffman DeflateBits DeflateOutput DeflateCorrect DeflateStream.

Record image := Image { im_data : list Z; im_len : Z }.

(** Numbers in little-endian byte order. *)
Definition le_val (bytes : list Z) : Z := foldr (fun b v => b + 256 * v) 0 bytes.

(** [memchr_user] for a NUL: the offset of the first one among [len] bytes. *)
Definition memchr_nul (data : list Z) (offset len : Z) : option (option Z) :=
  opt! bytes := mem_read data offset len in
  Some (match list_find (0 =.) bytes with Some (i, _) => Some (offset + Z.of_nat i) | None => None end).

Section Extract.
Context (a : arch) (urealloc : list Z -> Z -> option (list Z)).

Definition image_set_len (im : image) (len : Z) : image * res unit :=
  match urealloc (im_data im) len with
  | None => (im, Err ENOMEM)
  | Some new => (Image new len, Ok tt)
  end.

(** ** zlib *)

Fixpoint zlib_loop (fuel : nat) (f : deflate_format) (in_ : deflate_chunk) (extracted : image) : option (image * res unit) :=
  match fuel with
  | O => None
  | S fuel' =>
      let in_ := set_ck_offset 0 in_ in
      let out := Chunk (im_data extracted) 0 (im_len extracted) in
      opt! (d, in_, out, rc) := deflate_inflate a (deflate_init f) in_ out in
      let extracted := Image (ck_data out) (im_len extracted) in
      match rc with
      | Err e => Some (extracted, Err e)
      | Ok _ =>
          if negb (deflate_finished d) then Some (extracted, Err EINVAL)
          else if ck_offset out =? im_len extracted then Some (extracted, Ok tt)
          else let '(extracted, rc) := image_set_len extracted (ck_offset out) in
               match rc with Err e => Some (extracted, Err e) | Ok _ => zlib_loop fuel' f in_ extracted end
      end
  end.

(** [alloc] tells whether the decompressor could be allocated.  The second
    attempt has an image of the right size. *)
Definition zlib_deflate (alloc : bool) (f : deflate_format) (in_ : deflate_chunk) (extracted : image) : option (image * res unit) :=
  if negb alloc then Some (extracted, Err ENOMEM) else zlib_loop 2 f in_ extracted.

Definition zlib_extract (alloc : bool) (im extracted : image) : option (image * res unit) :=
  zlib_deflate alloc DEFLATE_ZLIB (Chunk (im_data im) 0 (im_len im)) extracted.

Definition zlib_magic_is_valid (cmf flg : Z) : bool :=
  (Z.land cmf 0x8f =? 0x08) && (be_val [cmf; flg] mod 31 =? 0).

Definition zlib_probe (im : image) : option (res unit) :=
  if im_len im <? 2 then Some (Err ENOEXEC) else
  opt! magic := mem_read (im_data im) 0 2 in
  match magic with
  | [cmf; flg] => Some (if negb (zlib_magic_is_valid cmf flg) then Err ENOEXEC else Ok tt)
  | _ => None
  end.

(** ** gzip *)

Definition GZIP_MAGIC : Z := 0x1f8b.
Definition GZIP_FL_HCRC : Z := 0x02.
Definition GZIP_FL_EXTRA : Z := 0x04.
Definition GZIP_FL_NAME : Z := 0x08.
Definition GZIP_FL_COMMENT : Z := 0x10.

(** Sizes of the structures. *)
Definition gzip_header_size : Z := 10.
Definition gzip_extra_header_size : Z := 2.
Definition gzip_crc_header_size : Z := 2.
Definition gzip_footer_size : Z := 8.

Definition flag (flags mask : Z) : bool := negb (Z.land flags mask =? 0).

(** Skip NUL-terminated strings. *)
Fixpoint skip_strings (strings : nat) (data : list Z) (offset len : Z) : option (res Z) :=
  match strings with
  | O => Some (Ok offset)
  | S strings' =>
      opt! nul := memchr_nul data offset (uwrap (size_bits a) (len - offset)) in
      match nul with None => Some (Err EINVAL) | Some nul => skip_strings strings' data (nul + 1) len end
  end.

(** The offset behind the header, or an error. *)
Definition gzip_offset (data : list Z) (len flags : Z) : option (res Z) :=
  let offset := gzip_header_size in
  opt! r := (if flag flags GZIP_FL_EXTRA then
               opt! extra := mem_read data offset gzip_extra_header_size in
               let offset := offset + gzip_extra_header_size + le_val extra in
               Some (if len <? offset then Err EINVAL else Ok offset)
             else Some (Ok offset)) in
  match r with
  | Err e => Some (Err e)
  | Ok offset =>
      let strings := ((if flag flags GZIP_FL_NAME then 1 else 0) + (if flag flags GZIP_FL_COMMENT then 1 else 0))%nat in
      opt! r := skip_strings strings data offset len in
      match r with
      | Err e => Some (Err e)
      | Ok offset =>
          if flag flags GZIP_FL_HCRC then
            let offset := offset + gzip_crc_header_size in Some (if len <? offset then Err EINVAL else Ok offset)
          else Some (Ok offset)
      end
  end.

Definition gzip_extract (alloc : bool) (im extracted : image) : option (image * res unit) :=
  let len := im_len im - gzip_footer_size in
  opt! footer := mem_read (im_data im) len gzip_footer_size in
  opt! header := mem_read (im_data im) 0 gzip_header_size in
  opt! flags := header !! 3%nat in
  opt! r := gzip_offset (im_data im) len flags in
  match r with
  | Err e => Some (extracted, Err e)
  | Ok offset =>
      let in_ := Chunk (drop (Z.to_nat offset) (im_data im)) 0 len in
      let '(extracted, rc) := image_set_len extracted (le_val (drop 4 footer)) in
      match rc with Err e => Some (extracted, Err e) | Ok _ => zlib_deflate alloc DEFLATE_RAW in_ extracted end
  end.

Definition gzip_probe (im : image) : option (res unit) :=
  if im_len im <? gzip_header_size + gzip_footer_size then Some (Err ENOEXEC) else
  opt! magic := mem_read (im_data im) 0 2 in
  Some (if negb (be_val magic =? GZIP_MAGIC) then Err ENOEXEC else Ok tt).
End Extract.

(** ** Examples *)

(** Memory is always available; new bytes are 0xaa. *)
Definition plain_urealloc (data : list Z) (len : Z) : option (list Z) :=
  Some (take (Z.to_nat len) (data ++ replicate (Z.to_nat len) 0xaa)).

(** "abc" as compressed by gzip, with a file name. *)
Definition gzip_abc : list Z :=
  [31; 139; 8; 8; 0; 0; 0; 0; 0; 3; 120; 0; 75; 76; 74; 6; 0; 194; 65; 36; 53; 3; 0; 0; 0].

Example gzip_extract_abc :
  gzip_extract Arch64 plain_urealloc true (Image gzip_abc (zlen gzip_abc)) (Image [] 0) = Some (Image [97; 98; 99] 3, Ok tt).
Proof. vm_compute. reflexivity. Qed.

(** ** The decompressor only moves in its input *)

Definition same_input (c c' : deflate_chunk) : Prop := ck_data c' = ck_data c /\ ck_len c' = ck_len c.

#[local] Instance same_input_preorder : PreOrder same_input.
Proof. split; [done|]. intros x y z [A B] [C D]. split; congruence. Qed.

Lemma accumulate_loop_input n : forall d c t d' c', accumulate_loop n d c t = Some (d', c') -> same_input c c'.
Proof.
  induction n as [|n IH]; intros d c t d' c'; cbn [accumulate_loop]; [case_match; by intros [= <- <-]|].
  case_match; [by intros [= <- <-]|]. destruct (at_index _ _); [|done]. destruct (at_index _ _); [|done]. case_match; [done|].
  intros Hl. apply IH in Hl as [E1 E2]. by split.
Qed.

Lemma accumulate_input d c t d' c' x : deflate_accumulate d c t = Some (d', c', x) -> same_input c c'.
Proof.
  unfold deflate_accumulate. destruct (accumulate_loop _ _ _ _) as [[d1 c1]|] eqn:E; [|done]. intros [= <- <- <-].
  by apply accumulate_loop_input in E.
Qed.

Lemma extract_input d c t d' c' x : deflate_extract d c t = Some (d', c', x) -> same_input c c'.
Proof.
  unfold deflate_extract. case_match; [by intros [= <- <- <-]|]. destruct (deflate_accumulate _ _ _) as [[[d1 c1] e]|] eqn:E; [|done].
  apply accumulate_input in E. case_match; [by intros [= <- <- <-]|]. destruct (deflate_consume _ _). by intros [= <- <- <-].
Qed.

Lemma decode_input d c al d' c' x : deflate_decode d c al = Some (d', c', x) -> same_input c c'.
Proof.
  unfold deflate_decode. destruct (deflate_accumulate _ _ _) as [[[d1 c1] e]|] eqn:E; [|done]. apply accumulate_input in E. cbv zeta.
  destruct (at_index _ _); [|done]. destruct (find_symbols _ _ _); [|done]. case_match; [by intros [= <- <- <-]|].
  destruct (deflate_consume _ _). destruct (at_index _ _); [|done]. by intros [= <- <- <-].
Qed.

Lemma codelen_loop_input n : forall d c d' c' b, codelen_loop n d c = Some (d', c', b) -> same_input c c'.
Proof.
  induction n as [|n IH]; intros d c d' c' b; cbn [codelen_loop]; [by intros [= <- <- <-]|].
  destruct (deflate_extract _ _ _) as [[[d1 c1] x]|] eqn:E; [|done]. apply extract_input in E. case_match; [by intros [= <- <- <-]|].
  destruct (at_index _ _); [|done]. cbv zeta. destruct (deflate_set_length _ _ _); [|done]. intros Hl. apply IH in Hl. by transitivity c1.
Qed.

(** Case analysis on the calls of a step. *)
Ltac step_input :=
  repeat first
    [ match goal with H : Some _ = Some _ |- _ => injection H as <- <- <- <-; done end
    | match goal with H : None = Some _ |- _ => discriminate H end
    | match goal with
      | H : context [match deflate_extract ?d ?c ?t with _ => _ end] |- _ =>
          destruct (deflate_extract d c t) as [[[? ?] ?]|] eqn:?E; [apply extract_input in E|]
      | H : context [match deflate_decode ?d ?c ?t with _ => _ end] |- _ =>
          destruct (deflate_decode d c t) as [[[? ?] ?]|] eqn:?E; [apply decode_input in E|]
      | H : context [match deflate_accumulate ?d ?c ?t with _ => _ end] |- _ =>
          destruct (deflate_accumulate d c t) as [[[? ?] ?]|] eqn:?E; [apply accumulate_input in E|]
      | H : context [match codelen_loop ?n ?d ?c with _ => _ end] |- _ =>
          destruct (codelen_loop n d c) as [[[? ?] ?]|] eqn:?E; [apply codelen_loop_input in E|]
      | H : context [match ?x with _ => _ end] |- _ => destruct x
      end ].

Lemma step_input a l d c o d' c' o' j : deflate_step a l d c o = Some (d', c', o', j) -> same_input c c'.
Proof.
  intros H. destruct l; cbn [deflate_step] in H;
  unfold step_zlib_header, step_block_header, step_literal_len, step_literal_nlen, step_literal_data, step_static_block,
    step_dynamic_header, step_dynamic_codelen, step_dynamic_litlen_distance, step_dynamic_litlen_distance_extra,
    step_construct_alphabets, step_lzhuf_litlen, step_lzhuf_litlen_extra, step_lzhuf_distance, step_lzhuf_distance_extra,
    step_block_done, step_zlib_adler32, wait_at, goto, return_rc in H; cbv zeta in H; step_input.
Qed.

Lemma inflate_input a d c o d' c' o' rc : deflate_inflate a d c o = Some (d', c', o', rc) -> same_input c c'.
Proof.
  unfold deflate_inflate. generalize (Z.to_nat (8 * bits_left d c) + 8)%nat, (entry_label d). intros fuel.
  revert d c o. induction fuel as [|fuel IH]; intros d c o l; cbn [run]; [done|].
  destruct (deflate_step a l d c o) as [[[[d1 c1] o1] j]|] eqn:E; [|done]. apply step_input in E.
  destruct j; [intros H; apply IH in H; by transitivity c1|by intros [= <- <- <- <-]].
Qed.

(** ** Decompression into an image *)

(** One call of the decompressor on a whole stream. *)
Lemma inflate_once a f data0 in_ : chunk_ok in_ -> let v := inflate_spec f (stale data0) [] (bits_of (rest in_)) in
  zlen (v_out v) < 2 ^ size_bits a ->
  exists d in' rc, deflate_inflate a (deflate_init f) in_ (Chunk data0 0 (zlen data0))
    = Some (d, in', Chunk (overlay (length data0) (v_out v) data0) (zlen (v_out v)) (zlen data0), rc)
    /\ ck_data in' = ck_data in_ /\ ck_len in' = ck_len in_
    /\ match v with
       | Done _ => rc = Ok tt /\ deflate_finished d = true
       | Short _ => rc = Ok tt /\ deflate_finished d = false
       | Bad e _ => rc = Err e
       end.
Proof.
  intros Hin v Hv. assert (Ev : verdict_on f data0 (bits_of ([] ++ rest in_ ++ [])) = v) by (unfold verdict_on, v; by rewrite app_nil_r).
  pose proof (expects_inflate a f data0 (length data0) ltac:(done) [] (deflate_init f) _ in_
    (expects_init a f data0 (length data0) ltac:(done)) Hin [] ltac:(constructor)) as He. cbv zeta in He. rewrite Ev in He.
  destruct (He Hv) as (d & in' & oc & rc & E & out & Ho & H). apply inflate_input in E as Hsame. exists d, in', rc. rewrite E.
  unfold out_ok in Ho. subst oc.
  assert (Hout : v_out v = out).
  { destruct rc; [destruct (deflate_finished d); [by rewrite H|destruct H as (_ & _ & H); by rewrite (H eq_refl)]|by rewrite H]. }
  rewrite Hout. split; [done|]. split; [apply Hsame|]. split; [apply Hsame|].
  destruct rc as [[]|e]; [destruct (deflate_finished d); [by rewrite H|destruct H as (_ & _ & H); by rewrite (H eq_refl)]|by rewrite H].
Qed.

Lemma overlay_exact out data : length out = length data -> overlay (length data) out data = out.
Proof. intros H. unfold overlay. rewrite <- H, Nat.min_id, firstn_all, H, drop_all. apply app_nil_r. Qed.

Section ZlibCorrect.
Context (a : arch) (urealloc : list Z -> Z -> option (list Z)).
(** The allocator returns a block of the requested size. *)
Hypothesis urealloc_size : forall data len new, 0 <= len -> urealloc data len = Some new -> zlen new = len.

(** What a decompression with the format of DeflateSpec.v comes to. *)
Definition zlib_outcome (f : deflate_format) (extracted : image) (bs : list bool) (im : image) (rc : res unit) : Prop :=
  match inflate_spec f (stale (im_data extracted)) [] bs with
  | Bad e _ => rc = Err e
  | Short _ => rc = Err EINVAL
  | Done out =>
      if zlen out =? im_len extracted then rc = Ok tt /\ im = Image out (zlen out)
      else match urealloc (overlay (length (im_data extracted)) out (im_data extracted)) (zlen out) with
           | None => rc = Err ENOMEM
           | Some new => rc = Ok tt /\ exists out', inflate_spec f (stale new) [] bs = Done out' /\ length out' = length out
                           /\ im = Image out' (zlen out)
           end
  end.

(** C15. Decompression into an image: without memory for the decompressor it
    fails with [ENOMEM] and leaves the image alone; a stream that [inflate_spec]
    refuses is refused with the same error, an incomplete one with [EINVAL]; the
    image of a complete stream has the size of its output and holds it, after a
    resize unless it had that size already, and the second attempt is always the
    last one.  A stream that RFC 1951 and RFC 1950 allow is complete, and its
    image holds their output, unless a block announces several distance codes
    and uses at most one of them.  (As for the decompressor itself,
    [inflate_spec] is the format as the source reads it, which accepts more: see
    there.) *)
Theorem zlib_deflate_correct f data len extracted :
  bytes_ok data -> 0 <= len <= zlen data -> len < 2 ^ 32 -> im_len extracted = zlen (im_data extracted) ->
  let bs := bits_of (take (Z.to_nat len) data) in
  let v := inflate_spec f (stale (im_data extracted)) [] bs in
  zlen (v_out v) < 2 ^ size_bits a ->
  forall alloc offset, exists im rc, zlib_deflate a urealloc alloc f (Chunk data offset len) extracted = Some (im, rc)
    /\ if negb alloc then rc = Err ENOMEM /\ im = extracted else
       (forall out, rfc_inflate false f bs = Some out -> v = Done out /\ (rc = Ok tt -> im = Image out (zlen out)))
    /\ zlib_outcome f extracted bs im rc.
Proof.
  intros Hdata Hlen H32 Him bs v Hv alloc offset. unfold zlib_deflate. destruct alloc; cbn [negb]; [|by eexists _, _].
  enough (exists im rc, zlib_loop a urealloc 2 f (Chunk data offset len) extracted = Some (im, rc) /\ zlib_outcome f extracted bs im rc)
    as (im & rc & E & Ho).
  { exists im, rc. split; [exact E|]. split; [|exact Ho]. intros out Hout.
    assert (Ev : v = Done out) by (by apply rfc_inflate_read). split; [exact Ev|]. intros ->. unfold zlib_outcome in Ho. fold v in Ho. rewrite Ev in Ho.
    destruct (Z.eqb_spec (zlen out) (im_len extracted)); [apply Ho|].
    destruct (urealloc _ _) as [new|]; [|done]. destruct Ho as (_ & out' & Eo & _ & ->). rewrite (rfc_inflate_read f (stale new) bs out Hout) in Eo. by injection Eo as <-. }
  unfold zlib_outcome. fold v. cbn [zlib_loop].
  assert (Hin : chunk_ok (Chunk data 0 len)) by (split; cbn; [lia|lia|done|done]).
  assert (Hrest : rest (Chunk data 0 len) = take (Z.to_nat len) data) by (unfold rest; cbn; by rewrite Z.sub_0_r, drop_0).
  destruct (inflate_once a f (im_data extracted) (Chunk data 0 len) Hin) as (d & in' & rc & E & D1 & D2 & H); [by rewrite Hrest|].
  rewrite Hrest in E, H. fold bs v in E, H. change (set_ck_offset 0 (Chunk data offset len)) with (Chunk data 0 len).
  rewrite Him, E. cbv zeta. cbn [ck_data ck_offset im_len]. clear E.
  destruct v as [out|out|e out] eqn:Ev; [|destruct H as [-> ->]; eexists _, _; split; [reflexivity|done]|subst rc; eexists _, _; split; [reflexivity|done]].
  destruct H as [-> ->]. cbn [negb v_out] in *. destruct (Z.eqb_spec (zlen out) (zlen (im_data extracted))) as [El|El].
  { eexists _, _. split; [reflexivity|]. split; [done|]. rewrite overlay_exact by lia. by rewrite El. }
  unfold image_set_len. cbn [im_data]. destruct (urealloc _ (zlen out)) as [new|] eqn:Enew; [|eexists _, _; split; [reflexivity|done]].
  pose proof (urealloc_size _ _ _ (Nat2Z.is_nonneg _) Enew) as Hnew.
  pose proof (inflate_spec_alike f (stale (im_data extracted)) (stale new) bs) as [Hl Hk]. fold v in Hl, Hk. rewrite Ev in Hl, Hk. cbn [v_out] in Hl.
  replace (set_ck_offset 0 in') with (Chunk data 0 len) by (unfold set_ck_offset; by rewrite D1, D2).
  destruct (inflate_once a f new (Chunk data 0 len) Hin) as (d2 & in2 & rc2 & E2 & _ & _ & H2); [rewrite Hrest; fold bs; lia|].
  rewrite Hrest in E2, H2. fold bs in E2, H2.
  cbn [im_data im_len]. rewrite Hnew in E2. rewrite E2. cbv zeta. cbn [ck_data ck_offset im_len].
  destruct (inflate_spec f (stale new) [] bs) as [out2|out2|e2 out2]; [|done|done]. destruct H2 as [-> ->]. cbn [negb v_out] in *.
  rewrite (proj2 (Z.eqb_eq _ _)) by lia. eexists _, _. split; [reflexivity|]. split; [done|]. exists out2.
  split; [done|]. split; [lia|]. by rewrite overlay_exact by lia.
Qed.
End ZlibCorrect.

Lemma zlib_deflate_correct_witness :
  exists im, zlib_deflate Arch32 plain_urealloc true DEFLATE_ZLIB (Chunk rfc_sample 7 (zlen rfc_sample)) (Image [] 0) = Some (im, Ok tt)
    /\ im = Image [97; 98; 99] 3.
Proof.
  assert (Er : rfc_inflate false DEFLATE_ZLIB (bits_of (take (Z.to_nat (zlen rfc_sample)) rfc_sample)) = Some [97; 98; 99])
    by (vm_compute; reflexivity).
  destruct (zlib_deflate_correct Arch32 plain_urealloc
    ltac:(intros data len new Hl H; injection H as <-; rewrite length_take, length_app, length_replicate; lia)
    DEFLATE_ZLIB rfc_sample (zlen rfc_sample) (Image [] 0)
    ltac:(apply (bool_decide_unpack _); vm_compute; exact I) ltac:(lia) ltac:(vm_compute; reflexivity) eq_refl
    ltac:(cbn [im_data]; rewrite (rfc_inflate_read _ _ _ _ Er); vm_compute; reflexivity) true 7) as (im & rc & E & H & Ho).
  destruct (H _ Er) as [Ev Him]. unfold zlib_outcome in Ho. rewrite Ev in Ho. destruct Ho as [-> _].
  exists im. split; [exact E|]. exact (Him eq_refl).
Defined.

(** ** The header of a gzip file *)

Lemma memchr_nul_spec pre s R offset n : offset = zlen pre -> Forall (fun b => b <> 0) s -> zlen s < n -> n <= zlen (s ++ 0 :: R) ->
  memchr_nul (pre ++ s ++ 0 :: R) offset n = Some (Some (offset + zlen s)).
Proof.
  intros -> Hs Hn1 Hn2. unfold memchr_nul, mem_read. rewrite !(proj2 (Z.leb_le _ _)) by (rewrite ?zlen_app in *; lia).
  cbn [andb]. rewrite Nat2Z.id, drop_app_length, take_app_ge by lia.
  destruct (Z.to_nat n - length s)%nat as [|m] eqn:Em; [lia|]. cbn [take].
  rewrite list_find_app_r.
  - cbn. by rewrite decide_True by done.
  - apply list_find_None. eapply Forall_impl; [exact Hs|]. intros x Hx E. by apply Hx.
Qed.

Section GzipHeader.
Context (a : arch).

(** An optional string with its terminator. *)
Definition string_field (s : option (list Z)) : list Z := match s with Some s => s ++ [0] | None => [] end.
Definition string_ok (s : option (list Z)) : Prop := match s with Some s => Forall (fun b => b <> 0) s | None => True end.
Definition extra_field (extra : option (list Z)) : list Z :=
  match extra with Some e => [zlen e mod 256; zlen e / 256] ++ e | None => [] end.
Definition extra_ok (extra : option (list Z)) : Prop := match extra with Some e => zlen e < 65536 | None => True end.
Definition crc_field (hcrc : option (Z * Z)) : list Z := match hcrc with Some (x, y) => [x; y] | None => [] end.

Definition gzip_flags (extra name comment : option (list Z)) (hcrc : option (Z * Z)) : Z :=
  (if hcrc then GZIP_FL_HCRC else 0) + (if extra then GZIP_FL_EXTRA else 0) + (if name then GZIP_FL_NAME else 0)
  + (if comment then GZIP_FL_COMMENT else 0).

(** The header as RFC 1952 defines it; [fixed] are the time, the extra flags and
    the operating system. *)
Definition gzip_header (fixed : list Z) (extra name comment : option (list Z)) (hcrc : option (Z * Z)) : list Z :=
  [31; 139; 8; gzip_flags extra name comment hcrc] ++ fixed ++ extra_field extra ++ string_field name ++ string_field comment ++ crc_field hcrc.

Lemma flags_spec extra name comment hcrc : let flags := gzip_flags extra name comment hcrc in
  flag flags GZIP_FL_EXTRA = bool_decide (is_Some extra) /\ flag flags GZIP_FL_NAME = bool_decide (is_Some name)
  /\ flag flags GZIP_FL_COMMENT = bool_decide (is_Some comment) /\ flag flags GZIP_FL_HCRC = bool_decide (is_Some hcrc).
Proof. destruct extra, name, comment, hcrc; done. Qed.

(** Skipping an optional string that starts at the offset. *)
Lemma skip_string pre s R n offset len : offset = zlen pre -> string_ok s -> zlen (pre ++ string_field s) <= len ->
  len <= zlen (pre ++ string_field s ++ R) -> len < 2 ^ size_bits a ->
  skip_strings a ((if bool_decide (is_Some s) then 1 else 0) + n) (pre ++ string_field s ++ R) offset len
  = skip_strings a n (pre ++ string_field s ++ R) (zlen (pre ++ string_field s)) len.
Proof.
  intros -> Hs H1 H2 Hlen. destruct s as [s|]; cbn [string_field string_ok] in *; [|by rewrite app_nil_r].
  rewrite bool_decide_eq_true_2 by (by eexists). cbn [Nat.add skip_strings]. rewrite uwrap_small by (rewrite !zlen_app in *; lia).
  rewrite <- (app_assoc s [0] R). cbn [app]. rewrite !zlen_app in *. cbn [length] in *.
  rewrite memchr_nul_spec; [|done|done|lia|rewrite zlen_app; cbn [length]; lia]. f_equal. lia.
Qed.

Lemma extra_value (e : list Z) : zlen e < 65536 -> le_val [zlen e mod 256; zlen e / 256] = zlen e.
Proof. intros H. unfold le_val. cbn [foldr]. pose proof (Z.div_mod (zlen e) 256). lia. Qed.

(** The data behind the header are found. *)
Lemma gzip_offset_spec fixed extra name comment hcrc body len :
  length fixed = 6%nat -> extra_ok extra -> string_ok name -> string_ok comment ->
  let header := gzip_header fixed extra name comment hcrc in
  zlen header <= len <= zlen (header ++ body) -> len < 2 ^ size_bits a ->
  gzip_offset a (header ++ body) len (gzip_flags extra name comment hcrc) = Some (Ok (zlen header)).
Proof.
  intros Hfix Hex Hna Hco header Hlen Hw. destruct (flags_spec extra name comment hcrc) as (F1 & F2 & F3 & F4).
  unfold gzip_offset. cbv zeta. rewrite F1, F2, F3, F4. clear F1 F2 F3 F4.
  set (h0 := [31; 139; 8; gzip_flags extra name comment hcrc] ++ fixed).
  assert (H0 : zlen h0 = 10) by (unfold h0; rewrite zlen_app; cbn [length]; lia).
  assert (Eh : header ++ body = h0 ++ extra_field extra ++ string_field name ++ string_field comment ++ crc_field hcrc ++ body).
  { unfold header, gzip_header, h0. by rewrite <- !app_assoc. }
  assert (El : zlen header = 10 + zlen (extra_field extra) + zlen (string_field name) + zlen (string_field comment) + zlen (crc_field hcrc)).
  { change header with (h0 ++ extra_field extra ++ string_field name ++ string_field comment ++ crc_field hcrc). rewrite !zlen_app. lia. }
  rewrite Eh in Hlen |- *. rewrite !zlen_app in Hlen.
  assert (E1 : (if bool_decide (is_Some extra) then
      opt! x := mem_read (h0 ++ extra_field extra ++ string_field name ++ string_field comment ++ crc_field hcrc ++ body) gzip_header_size gzip_extra_header_size in
      Some (if len <? gzip_header_size + gzip_extra_header_size + le_val x then Err EINVAL
            else Ok (gzip_header_size + gzip_extra_header_size + le_val x))
    else Some (Ok gzip_header_size)) = Some (Ok (zlen (h0 ++ extra_field extra)))).
  { rewrite zlen_app, H0. destruct extra as [e|]; [|done]. rewrite bool_decide_eq_true_2 by (by eexists). cbn [extra_field extra_ok] in *.
    rewrite <- app_assoc. unfold gzip_header_size, gzip_extra_header_size. rewrite <- H0 at 1.
    change 2 with (zlen [zlen e mod 256; zlen e / 256]) at 1. rewrite mem_read_at, extra_value by done.
    rewrite zlen_app in *. cbn [length] in *. rewrite (proj2 (Z.ltb_ge _ _)) by lia. do 2 f_equal. lia. }
  rewrite E1. cbv iota. rewrite (app_assoc h0). set (h1 := h0 ++ extra_field extra).
  assert (H1 : zlen h1 = 10 + zlen (extra_field extra)) by (unfold h1; rewrite zlen_app; lia).
  rewrite skip_string; [|done|done|rewrite zlen_app; lia|rewrite !zlen_app; lia|done].
  rewrite (app_assoc h1). set (h2 := h1 ++ string_field name).
  assert (H2 : zlen h2 = zlen h1 + zlen (string_field name)) by (unfold h2; rewrite zlen_app; lia).
  rewrite <- (Nat.add_0_r (if bool_decide (is_Some comment) then 1 else 0)%nat).
  rewrite skip_string; [|done|done|rewrite zlen_app; lia|rewrite !zlen_app; lia|done]. cbn [skip_strings].
  rewrite zlen_app. destruct hcrc as [[x y]|]; cbn [crc_field length] in *.
  - rewrite bool_decide_eq_true_2 by (by eexists). rewrite (proj2 (Z.ltb_ge _ _)) by (unfold gzip_crc_header_size; lia).
    do 2 f_equal. unfold gzip_crc_header_size. lia.
  - rewrite bool_decide_eq_false_2 by (intros [? [=]]). do 2 f_equal. lia.
Qed.
End GzipHeader.

Lemma mem_read_tail (A b : list Z) : mem_read (A ++ b) (zlen A) (zlen b) = Some b.
Proof. rewrite <- (app_nil_r b) at 1. apply mem_read_at. Qed.

(** A gzip file, whatever optional parts its header has, is extracted by
    decompressing what follows its header into an image of the size that the
    footer announces; the input chunk is announced with the length of the
    header and the data together, although it starts behind the header. *)
Theorem gzip_extract_correct a urealloc alloc fixed extra name comment hcrc body footer extracted :
  length fixed = 6%nat -> extra_ok extra -> string_ok name -> string_ok comment -> length footer = 8%nat ->
  let header := gzip_header fixed extra name comment hcrc in
  let file := header ++ body ++ footer in
  zlen file < 2 ^ size_bits a ->
  gzip_extract a urealloc alloc (Image file (zlen file)) extracted
  = let '(extracted, rc) := image_set_len urealloc extracted (le_val (drop 4 footer)) in
    match rc with
    | Err e => Some (extracted, Err e)
    | Ok _ => zlib_deflate a urealloc alloc DEFLATE_RAW (Chunk (body ++ footer) 0 (zlen (header ++ body))) extracted
    end.
Proof.
  intros Hfix Hex Hna Hco Hfoot header file Hw. unfold gzip_extract. cbn [im_data im_len].
  assert (Elen : zlen file - gzip_footer_size = zlen (header ++ body)).
  { unfold file, gzip_footer_size. rewrite !zlen_app. lia. }
  assert (Er : mem_read file (zlen (header ++ body)) gzip_footer_size = Some footer).
  { unfold file. rewrite app_assoc. replace gzip_footer_size with (zlen footer) by (unfold gzip_footer_size; lia). apply mem_read_tail. }
  assert (Eh : mem_read file 0 gzip_header_size = Some ([31; 139; 8; gzip_flags extra name comment hcrc] ++ fixed)).
  { unfold file, header, gzip_header. rewrite <- !app_assoc, (app_assoc _ fixed).
    replace gzip_header_size with (zlen ([31; 139; 8; gzip_flags extra name comment hcrc] ++ fixed))
      by (rewrite zlen_app; unfold gzip_header_size; cbn [length]; lia).
    apply (mem_read_at []). }
  rewrite Elen, Er, Eh. cbn [app]. rewrite lookup_cons_ne_0 by done. cbn -[gzip_offset image_set_len zlib_deflate drop app].
  assert (Eo : gzip_offset a file (zlen (header ++ body)) (gzip_flags extra name comment hcrc) = Some (Ok (zlen header))).
  { apply (gzip_offset_spec a fixed extra name comment hcrc (body ++ footer)); try done.
    - rewrite !zlen_app. fold header. lia.
    - unfold file in Hw. rewrite !zlen_app in *. lia. }
  rewrite Eo, Nat2Z.id. unfold file. rewrite drop_app_length. done.
Qed.

Lemma gzip_extract_correct_witness :
  gzip_extract Arch64 plain_urealloc true
    (Image (gzip_header [0; 0; 0; 0; 0; 3] (Some [1; 2; 3]) (Some [120]) None (Some (7, 9)) ++ [75; 76; 74; 6; 0] ++ [194; 65; 36; 53; 3; 0; 0; 0]) 32)
    (Image [] 0)
  = Some (Image [97; 98; 99] 3, Ok tt).
Proof.
  etransitivity; [apply (gzip_extract_correct Arch64 plain_urealloc true [0; 0; 0; 0; 0; 3] (Some [1; 2; 3]) (Some [120]) None (Some (7, 9))
    [75; 76; 74; 6; 0] [194; 65; 36; 53; 3; 0; 0; 0] (Image [] 0) eq_refl ltac:(vm_compute; reflexivity)
    ltac:(repeat constructor; discriminate) I eq_refl ltac:(vm_compute; reflexivity))|].
  vm_compute. reflexivity.
Defined.

(** A file that ends in the middle of a stored block; the footer announces 100 bytes. *)
Definition gzip_truncated : list Z :=
  gzip_header [0; 0; 0; 0; 0; 3] None None None None ++ [1; 255; 0; 0; 255; 97; 98; 99] ++ [0; 0; 0; 0; 100; 0; 0; 0].

(** The input of a gzip file that ends early is read beyond the end of the
    file: the length of the input chunk is not reduced by the length of the
    header that was skipped.  The same data as a chunk of their own length are
    refused. *)
Theorem gzip_reads_past_file :
  gzip_probe (Image gzip_truncated (zlen gzip_truncated)) = Some (Ok tt)
  /\ gzip_extract Arch64 plain_urealloc true (Image gzip_truncated (zlen gzip_truncated)) (Image [] 0) = None
  /\ exists im, zlib_deflate Arch64 plain_urealloc true DEFLATE_RAW (Chunk (drop 10 gzip_truncated) 0 8) (Image (replicate 100 0) 100)
       = Some (im, Err EINVAL).
Proof. split; [vm_compute; reflexivity|]. split; [vm_compute; reflexivity|]. eexists. vm_compute. reflexivity. Qed.
