(* ===== verification/Png.v ===== *)
(** * PNG images ([image/png.c], [core/pixbuf.c])

    The whole reader: chunks, header, palette, decompression, the five filters,
    interlacing and conversion to the pixel buffer.  Memory for the pixels and
    for the raw data comes from the platform, with arbitrary contents
    ([umalloc_pixbuf], [umalloc_raw]); [alloc_context] and [alloc_struct] tell
    whether the two structures could be allocated.  [None] is an access outside
    an object.  Pixels are stored in the byte order of a little-endian host. *)
From S2P Require Import Prelude Strings Memory Deflate Extract.

(** ** Data *)

Record pixel_buffer := PixBuf { pb_width : Z; pb_height : Z; pb_data : list Z; pb_len : Z }.

Record png_context := PngContext {
  png_offset : Z;
  png_pixbuf_ : option pixel_buffer;
  png_depth : Z;
  png_colour_type : Z;
  png_channels : Z;
  png_passes : Z;
  png_palette_ : list Z;
  png_raw : deflate_chunk;
  png_deflate : deflate }.

Record png_interlace := Interlace {
  il_pass : Z; il_x_indent : Z; il_y_indent : Z; il_x_stride : Z; il_y_stride : Z; il_width : Z; il_height : Z }.

Definition png_signature : list Z := [0x89; 80; 78; 71; 13; 10; 0x1a; 10].
Definition PNG_CHUNK_ANCILLARY : Z := 0x20000000.
Definition PNG_TYPE (first second third fourth : Z) : Z := be_val [first; second; third; fourth].
Definition PNG_TYPE_IHDR : Z := PNG_TYPE 73 72 68 82.
Definition PNG_TYPE_PLTE : Z := PNG_TYPE 80 76 84 69.
Definition PNG_TYPE_IDAT : Z := PNG_TYPE 73 68 65 84.
Definition PNG_TYPE_IEND : Z := PNG_TYPE 73 69 78 68.
Definition PNG_COLOUR_TYPE_PALETTE : Z := 0x01.
Definition PNG_COLOUR_TYPE_RGB : Z := 0x02.
Definition PNG_COLOUR_TYPE_ALPHA : Z := 0x04.
Definition PNG_COMPRESSION_UNKNOWN : Z := 0x01.
Definition PNG_FILTER_UNKNOWN : Z := 0x01.
Definition PNG_INTERLACE_UNKNOWN : Z := 0x02.
Definition PNG_PALETTE_COUNT : nat := 256.
Definition png_interlace_passes : list Z := [1; 7].

Definition bits_set (x mask : Z) : bool := negb (Z.land x mask =? 0).

Definition set_png_offset (v : Z) (p : png_context) : png_context :=
  PngContext v (png_pixbuf_ p) (png_depth p) (png_colour_type p) (png_channels p) (png_passes p) (png_palette_ p) (png_raw p) (png_deflate p).
Definition set_png_pixbuf (v : option pixel_buffer) (p : png_context) : png_context :=
  PngContext (png_offset p) v (png_depth p) (png_colour_type p) (png_channels p) (png_passes p) (png_palette_ p) (png_raw p) (png_deflate p).
Definition set_png_format (depth colour channels passes : Z) (p : png_context) : png_context :=
  PngContext (png_offset p) (png_pixbuf_ p) depth colour channels passes (png_palette_ p) (png_raw p) (png_deflate p).
Definition set_png_palette (v : list Z) (p : png_context) : png_context :=
  PngContext (png_offset p) (png_pixbuf_ p) (png_depth p) (png_colour_type p) (png_channels p) (png_passes p) v (png_raw p) (png_deflate p).
Definition set_png_raw (v : deflate_chunk) (p : png_context) : png_context :=
  PngContext (png_offset p) (png_pixbuf_ p) (png_depth p) (png_colour_type p) (png_channels p) (png_passes p) (png_palette_ p) v (png_deflate p).
Definition set_png_deflate (v : deflate) (p : png_context) : png_context :=
  PngContext (png_offset p) (png_pixbuf_ p) (png_depth p) (png_colour_type p) (png_channels p) (png_passes p) (png_palette_ p) (png_raw p) v.

(** ** Sizes *)

(** Of a pass of an image with the given dimensions. *)
Definition interlace_of (width height passes pass : Z) : png_interlace :=
  let grid_width_log2 := passes / 2 in
  let grid_height_log2 := (passes - 1) / 2 in
  let x_indent := if Z.odd pass then Z.shiftl 1 (grid_width_log2 - pass / 2 - 1) else 0 in
  let y_indent := if negb (pass =? 0) && negb (Z.odd pass) then Z.shiftl 1 (grid_height_log2 - (pass - 1) / 2 - 1) else 0 in
  let x_stride_log2 := grid_width_log2 - pass / 2 in
  let y_stride_log2 := grid_height_log2 - (if negb (pass =? 0) then (pass - 1) / 2 else 0) in
  let x_stride := Z.shiftl 1 x_stride_log2 in
  let y_stride := Z.shiftl 1 y_stride_log2 in
  Interlace pass x_indent y_indent x_stride y_stride
    (Z.shiftr (u32 (width - x_indent + x_stride - 1)) x_stride_log2)
    (Z.shiftr (u32 (height - y_indent + y_stride - 1)) y_stride_log2).

Definition png_interlace_pass (p : png_context) (pb : pixel_buffer) (pass : Z) : png_interlace :=
  interlace_of (pb_width pb) (pb_height pb) (png_passes p) pass.

Definition png_pixel_len (p : png_context) : Z := u32 (png_channels p * png_depth p + 7) / 8.

Definition png_scanline_len (p : png_context) (il : png_interlace) : Z :=
  u32 (1 + u32 (il_width il * png_channels p * png_depth p + 7) / 8).

(** ** Filters *)

Definition png_unfilter_none (current left above above_left : Z) : Z := current.
Definition png_unfilter_sub (current left above above_left : Z) : Z := u32 (current + left).
Definition png_unfilter_up (current left above above_left : Z) : Z := u32 (current + above).
Definition png_unfilter_average (current left above above_left : Z) : Z := u32 (current + Z.shiftr (above + left) 1).

(** [abs] of an unsigned difference. *)
Definition abs_diff (x y : Z) : Z := Z.abs (swrap 32 (x - y)).

Definition png_paeth_predictor (a b c : Z) : Z :=
  let p := u32 (a + b - c) in
  let pa := abs_diff p a in
  let pb := abs_diff p b in
  let pc := abs_diff p c in
  if (pa <=? pb) && (pa <=? pc) then a else if pb <=? pc then b else c.

Definition png_unfilter_paeth (current left above above_left : Z) : Z :=
  u32 (current + png_paeth_predictor left above above_left).

Definition png_filters : list (Z -> Z -> Z -> Z -> Z) :=
  [png_unfilter_none; png_unfilter_sub; png_unfilter_up; png_unfilter_average; png_unfilter_paeth].

(** The bytes of a scanline from [byte] on; [above] keeps its value where it is
    not read again. *)
Fixpoint unfilter_bytes (n : nat) (unfilter : Z -> Z -> Z -> Z -> Z) (pixel_len scanline_len scanline byte offset : Z)
  (left above above_left : Z) (data : list Z) : option (list Z * Z * Z) :=
  match n with
  | O => Some (data, offset, above)
  | S n' =>
      opt! left := (if pixel_len <=? byte then mem_byte data (offset - pixel_len) else Some left) in
      opt! above := (if 0 <? scanline then mem_byte data (offset - scanline_len) else Some above) in
      opt! above_left := (if (0 <? scanline) && (pixel_len <=? byte)
                          then mem_byte data (offset - scanline_len - pixel_len) else Some above_left) in
      opt! current := mem_byte data offset in
      opt! data := set_index data offset (u8 (unfilter current left above above_left)) in
      unfilter_bytes n' unfilter pixel_len scanline_len scanline (byte + 1) (offset + 1) left above above_left data
  end.

Fixpoint unfilter_lines (n : nat) (pixel_len scanline_len scanline offset above : Z) (data : list Z)
  : option (list Z * Z * res unit) :=
  match n with
  | O => Some (data, offset, Ok tt)
  | S n' =>
      opt! filter_type := mem_byte data offset in
      match png_filters !! Z.to_nat filter_type with
      | None => Some (data, offset, Err ENOTSUP)
      | Some unfilter =>
          opt! (data, offset, above) :=
            unfilter_bytes (Z.to_nat (scanline_len - 1)) unfilter pixel_len scanline_len scanline 0 (offset + 1) 0 above 0 data in
          unfilter_lines n' pixel_len scanline_len (scanline + 1) offset above data
      end
  end.

Definition png_unfilter_pass (p : png_context) (il : png_interlace) : option (png_context * res unit) :=
  opt! (data, offset, rc) :=
    unfilter_lines (Z.to_nat (il_height il)) (png_pixel_len p) (png_scanline_len p il) 0 (ck_offset (png_raw p)) 0 (ck_data (png_raw p)) in
  match rc with
  | Err _ => Some (set_png_raw (Chunk data (ck_offset (png_raw p)) (ck_len (png_raw p))) p, rc)
  | Ok _ => Some (set_png_raw (Chunk data offset (ck_len (png_raw p))) p, rc)
  end.

(** The passes in [passes], in order. *)
Fixpoint unfilter_passes (passes : list Z) (pb : pixel_buffer) (p : png_context) : option (png_context * res unit) :=
  match passes with
  | [] => Some (p, Ok tt)
  | pass :: passes' =>
      let il := png_interlace_pass p pb pass in
      if il_width il =? 0 then unfilter_passes passes' pb p else
      opt! (p, rc) := png_unfilter_pass p il in
      match rc with Err _ => Some (p, rc) | Ok _ => unfilter_passes passes' pb p end
  end.

Definition png_unfilter (pb : pixel_buffer) (p : png_context) : option (png_context * res unit) :=
  unfilter_passes (seqZ 0 (png_passes p)) pb (set_png_raw (set_ck_offset 0 (png_raw p)) p).

(** ** Pixels *)

Definition png_pixel (raw alpha max : Z) : Z := Z.shiftr (u32 (u32 (0xff00 * raw * alpha) / max / max + 0x80)) 8.

(** The state of reading samples: the byte in use, its bits that are left, and
    the offset of the next byte. *)
Record sampler := Sampler { sm_current : Z; sm_bits : Z; sm_offset : Z }.

Fixpoint read_samples (n : nat) (depth raw_stride : Z) (raw : list Z) (s : sampler) : option (sampler * list Z) :=
  match n with
  | O => Some (s, [])
  | S n' =>
      let current := u8 (Z.shiftl (sm_current s) depth) in
      let bits := u32 (sm_bits s - depth) in
      opt! s := (if bits =? 0 then opt! b := mem_byte raw (sm_offset s) in Some (Sampler b 8 (sm_offset s + raw_stride))
                 else Some (Sampler current bits (sm_offset s))) in
      let sample := Z.shiftr (sm_current s) (8 - depth) in
      opt! (s, samples) := read_samples n' depth raw_stride raw s in
      Some (s, sample :: samples)
  end.

(** The colour of a pixel from its samples. *)
Definition pixel_value (p : png_context) (max : Z) (channel : list Z) : option Z :=
  if bits_set (png_colour_type p) PNG_COLOUR_TYPE_PALETTE then
    opt! c := channel !! 0%nat in at_index (png_palette_ p) c
  else
    opt! alpha := (if bits_set (png_colour_type p) PNG_COLOUR_TYPE_ALPHA then at_index channel (png_channels p - 1) else Some max) in
    let is_rgb := bits_set (png_colour_type p) PNG_COLOUR_TYPE_RGB in
    opt! r := channel !! 0%nat in
    opt! g := channel !! (if is_rgb then 1 else 0)%nat in
    opt! b := channel !! (if is_rgb then 2 else 0)%nat in
    let add pixel raw := Z.lor (u32 (Z.shiftl pixel 8)) (png_pixel raw alpha max) in
    Some (add (add (add 0 r) g) b).

Definition le32 (z : Z) : list Z := [z mod 256; z / 256 mod 256; z / 65536 mod 256; z / 16777216 mod 256].

Section Fill.
Context (a : arch) (p : png_context) (depth raw_stride max : Z).

(** [n] pixels of a row. *)
Fixpoint fill_row (n : nat) (x_stride : Z) (s : sampler) (pixbuf_offset : Z) (pixels : list Z) : option (sampler * list Z) :=
  match n with
  | O => Some (s, pixels)
  | S n' =>
      opt! (s, channel) := read_samples (Z.to_nat (png_channels p)) depth raw_stride (ck_data (png_raw p)) s in
      opt! pixel := pixel_value p max channel in
      opt! pixels := mem_write pixels pixbuf_offset (le32 pixel) in
      fill_row n' x_stride s (uwrap (size_bits a) (pixbuf_offset + x_stride)) pixels
  end.

(** [n] rows. *)
Fixpoint fill_rows (n : nat) (width : nat) (x_stride y_stride : Z) (current raw_offset pixbuf_y_offset : Z) (pixels : list Z)
  : option (Z * list Z) :=
  match n with
  | O => Some (raw_offset, pixels)
  | S n' =>
      opt! (s, pixels) := fill_row width x_stride (Sampler current depth (raw_offset + 1)) pixbuf_y_offset pixels in
      fill_rows n' width x_stride y_stride (sm_current s) (sm_offset s) (uwrap (size_bits a) (pixbuf_y_offset + y_stride)) pixels
  end.
End Fill.

Definition png_pixels_pass (a : arch) (p : png_context) (pb : pixel_buffer) (il : png_interlace)
  : option (png_context * pixel_buffer) :=
  let depth := png_depth p in
  let raw_stride := (depth + 7) / 8 in
  let depth := if 8 <? depth then 8 else depth in
  let max := Z.shiftl 1 depth - 1 in
  let w := size_bits a in
  let pixbuf_y_offset := uwrap w (u32 (il_y_indent il * pb_width pb + il_x_indent il) * 4) in
  let pixbuf_x_stride := uwrap w (il_x_stride il * 4) in
  let pixbuf_y_stride := uwrap w (u32 (il_y_stride il * pb_width pb) * 4) in
  opt! (raw_offset, pixels) :=
    fill_rows a p depth raw_stride max (Z.to_nat (il_height il)) (Z.to_nat (il_width il)) pixbuf_x_stride pixbuf_y_stride
      0 (ck_offset (png_raw p)) pixbuf_y_offset (pb_data pb) in
  Some (set_png_raw (set_ck_offset raw_offset (png_raw p)) p, PixBuf (pb_width pb) (pb_height pb) pixels (pb_len pb)).

Fixpoint pixels_passes (a : arch) (passes : list Z) (pb : pixel_buffer) (p : png_context) : option (png_context * pixel_buffer) :=
  match passes with
  | [] => Some (p, pb)
  | pass :: passes' =>
      let il := png_interlace_pass p pb pass in
      if il_width il =? 0 then pixels_passes a passes' pb p else
      opt! (p, pb) := png_pixels_pass a p pb il in pixels_passes a passes' pb p
  end.

Definition png_pixels (a : arch) (pb : pixel_buffer) (p : png_context) : option png_context :=
  opt! (p, pb) := pixels_passes a (seqZ 0 (png_passes p)) pb (set_png_raw (set_ck_offset 0 (png_raw p)) p) in
  Some (set_png_pixbuf (Some pb) p).

(** ** Chunks *)

Section Reader.
Context (a : arch) (alloc_context alloc_struct : bool) (umalloc_pixbuf umalloc_raw : Z -> option (list Z)).

Definition alloc_pixbuf (width height : Z) : option pixel_buffer :=
  if negb alloc_struct then None else
  let len := uwrap (size_bits a) (u32 (width * height) * 4) in
  if negb (width =? 0) && negb (len / 4 / width =? height) then None else
  opt! data := umalloc_pixbuf len in
  Some (PixBuf width height data len).

(** The length of the raw data of the passes. *)
Fixpoint raw_len (passes : list Z) (pb : pixel_buffer) (p : png_context) (len : Z) : Z :=
  match passes with
  | [] => len
  | pass :: passes' =>
      let il := png_interlace_pass p pb pass in
      if il_width il =? 0 then raw_len passes' pb p len
      else raw_len passes' pb p (uwrap (size_bits a) (len + uwrap (size_bits a) (il_height il * png_scanline_len p il)))
  end.

Definition png_image_header (image : list Z) (p : png_context) (len : Z) : option (png_context * res unit) :=
  if negb (len =? 13) then Some (p, Err EINVAL) else
  match png_pixbuf_ p with
  | Some _ => Some (p, Err EINVAL)
  | None =>
      opt! ihdr := mem_read image (png_offset p) len in
      let width := be_val (take 4 ihdr) in
      let height := be_val (take 4 (drop 4 ihdr)) in
      match drop 8 ihdr with
      | [depth; colour_type; compression; filter; interlace] =>
          if PNG_COMPRESSION_UNKNOWN <=? compression then Some (p, Err ENOTSUP) else
          if PNG_FILTER_UNKNOWN <=? filter then Some (p, Err ENOTSUP) else
          if PNG_INTERLACE_UNKNOWN <=? interlace then Some (p, Err ENOTSUP) else
          match alloc_pixbuf width height with
          | None => Some (p, Err ENOMEM)
          | Some pb =>
              let p := set_png_pixbuf (Some pb) p in
              if (depth =? 0) || negb (Z.land depth (depth - 1) =? 0)
              then Some (set_png_format depth (png_colour_type p) (png_channels p) (png_passes p) p, Err EINVAL) else
              let channels := if bits_set colour_type PNG_COLOUR_TYPE_PALETTE then 1
                              else 1 + (if bits_set colour_type PNG_COLOUR_TYPE_RGB then 2 else 0)
                                     + (if bits_set colour_type PNG_COLOUR_TYPE_ALPHA then 1 else 0) in
              opt! passes := at_index png_interlace_passes interlace in
              let p := set_png_format depth colour_type channels passes p in
              let len := raw_len (seqZ 0 passes) pb p (ck_len (png_raw p)) in
              match umalloc_raw len with
              | None => Some (set_png_raw (Chunk [] (ck_offset (png_raw p)) len) p, Err ENOMEM)
              | Some data => Some (set_png_raw (Chunk data (ck_offset (png_raw p)) len) p, Ok tt)
              end
          end
      | _ => None
      end
  end.

(** [n] entries of the palette from index [i] on. *)
Fixpoint palette_loop (n : nat) (i : Z) (image : list Z) (offset len : Z) (palette : list Z) : option (list Z) :=
  match n with
  | O => Some palette
  | S n' =>
      if len <? 3 then Some palette else
      opt! entry := mem_read image offset 3 in
      match entry with
      | [red; green; blue] =>
          opt! palette := set_index palette i (Z.lor (Z.lor (Z.shiftl red 16) (Z.shiftl green 8)) (Z.shiftl blue 0)) in
          palette_loop n' (i + 1) image (offset + 3) (len - 3) palette
      | _ => None
      end
  end.

Definition png_palette (image : list Z) (p : png_context) (len : Z) : option (png_context * res unit) :=
  opt! palette := palette_loop PNG_PALETTE_COUNT 0 image (png_offset p) len (png_palette_ p) in
  Some (set_png_palette palette p, Ok tt).

Definition png_image_data (image : list Z) (p : png_context) (len : Z) : option (png_context * res unit) :=
  opt! (d, _, raw, rc) := deflate_inflate a (png_deflate p) (Chunk image (png_offset p) (png_offset p + len)) (png_raw p) in
  Some (set_png_raw raw (set_png_deflate d p), rc).

Definition png_image_end (p : png_context) (len : Z) : option (png_context * res unit) :=
  if negb (len =? 0) then Some (p, Err EINVAL) else
  match png_pixbuf_ p with
  | None => Some (p, Err EINVAL)
  | Some pb =>
      if negb (deflate_finished (png_deflate p)) then Some (p, Err EINVAL) else
      if negb (ck_offset (png_raw p) =? ck_len (png_raw p)) then Some (p, Err EINVAL) else
      opt! (p, rc) := png_unfilter pb p in
      match rc with
      | Err _ => Some (p, rc)
      | Ok _ => opt! p := png_pixels a pb p in Some (p, Ok tt)
      end
  end.

Definition png_chunk (image : list Z) (p : png_context) (type len : Z) : option (png_context * res unit) :=
  if type =? PNG_TYPE_IHDR then png_image_header image p len
  else if type =? PNG_TYPE_PLTE then png_palette image p len
  else if type =? PNG_TYPE_IDAT then png_image_data image p len
  else if type =? PNG_TYPE_IEND then png_image_end p len
  else if negb (bits_set type PNG_CHUNK_ANCILLARY) then Some (p, Err ENOTSUP)
  else Some (p, Ok tt).

(** Every chunk takes at least twelve bytes. *)
Fixpoint chunks_loop (fuel : nat) (image : list Z) (p : png_context) : option (res pixel_buffer) :=
  match fuel with
  | O => None
  | S fuel' =>
      let remaining := uwrap (size_bits a) (zlen image - png_offset p) in
      if remaining <? 8 + 4 then Some (Err EINVAL) else
      opt! header := mem_read image (png_offset p) 8 in
      let p := set_png_offset (png_offset p + 8) p in
      let chunk_len := be_val (take 4 header) in
      let type := be_val (drop 4 header) in
      if remaining - 8 - 4 <? chunk_len then Some (Err EINVAL) else
      opt! (p, rc) := png_chunk image p type chunk_len in
      match rc with
      | Err e => Some (Err e)
      | Ok _ =>
          let p := set_png_offset (png_offset p + (chunk_len + 4)) p in
          if png_offset p <? zlen image then chunks_loop fuel' image p
          else if negb (type =? PNG_TYPE_IEND) then Some (Err EINVAL)
          else opt! pb := png_pixbuf_ p in Some (Ok pb)
      end
  end.

Definition png_context_init : png_context :=
  PngContext 8 None 0 0 0 0 (replicate PNG_PALETTE_COUNT 0) (Chunk [] 0 0) (deflate_init DEFLATE_ZLIB).

Definition png_pixbuf (image : list Z) : option (res pixel_buffer) :=
  if negb alloc_context then Some (Err ENOMEM) else chunks_loop (S (length image)) image png_context_init.

Definition png_probe (image : list Z) : option (res unit) :=
  if zlen image <? 8 then Some (Err ENOEXEC) else
  opt! signature := mem_read image 0 8 in
  Some (if bool_decide (signature = png_signature) then Ok tt else Err ENOEXEC).
End Reader.

(** ** Examples *)

(** Three by two pixels of 24 bits, filtered with "Sub" and "Paeth", in two data
    chunks. *)
Definition png_sample : list Z :=
  [137; 80; 78; 71; 13; 10; 26; 10; 0; 0; 0; 13; 73; 72; 68; 82; 0; 0; 0; 3; 0; 0; 0; 2; 8; 2; 0; 0; 0; 18; 22; 241; 77;
   0; 0; 0; 5; 73; 68; 65; 84; 120; 218; 99; 228; 18; 79; 253; 153; 227; 0; 0; 0; 23; 73; 68; 65; 84; 145; 99; 100; 98;
   102; 97; 101; 99; 225; 228; 96; 103; 99; 101; 97; 102; 98; 4; 0; 6; 155; 0; 132; 40; 254; 157; 39; 0; 0; 0; 0; 73; 69;
   78; 68; 174; 66; 96; 130].

(** Five by five pixels of four bits with a palette, interlaced; pixel number
    [i] has colour [i mod 16]. *)
Definition png_interlaced_sample : list Z :=
  [137; 80; 78; 71; 13; 10; 26; 10; 0; 0; 0; 13; 73; 72; 68; 82; 0; 0; 0; 5; 0; 0; 0; 5; 4; 3; 0; 0; 1; 8; 70; 11; 64; 0;
   0; 0; 48; 80; 76; 84; 69; 0; 1; 2; 1; 2; 3; 2; 3; 4; 3; 4; 5; 4; 5; 6; 5; 6; 7; 6; 7; 8; 7; 8; 9; 8; 9; 10; 9; 10; 11;
   10; 11; 12; 11; 12; 13; 12; 13; 14; 13; 14; 15; 14; 15; 16; 15; 16; 17; 69; 162; 160; 122; 0; 0; 0; 35; 73; 68; 65; 84;
   120; 218; 99; 96; 96; 112; 96; 240; 96; 80; 96; 72; 96; 88; 243; 128; 65; 152; 97; 47; 67; 56; 67; 88; 197; 4; 134; 15;
   66; 6; 0; 68; 174; 6; 76; 100; 40; 220; 133; 0; 0; 0; 0; 73; 69; 78; 68; 174; 66; 96; 130].

Definition fresh_memory (len : Z) : option (list Z) := Some (replicate (Z.to_nat len) 0xaa).

Definition png_read (image : list Z) : option (res pixel_buffer) := png_pixbuf Arch64 true true fresh_memory fresh_memory image.

Example png_sample_read :
  png_read png_sample
  = Some (Ok (PixBuf 3 2 (concat (map le32 [0x0a141e; 0x0b1621; 0x0f1b27; 0x131c25; 0x192129; 0x1c232a])) 24)).
Proof. vm_compute. reflexivity. Qed.

Example png_interlaced_read :
  png_read png_interlaced_sample
  = Some (Ok (PixBuf 5 5 (concat (map (fun i => le32 (i mod 16 * 65536 + (i mod 16 + 1) * 256 + (i mod 16 + 2))) (seqZ 0 25))) 100)).
Proof. vm_compute. reflexivity. Qed.
