(* ===== verification/PngFilter.v ===== *)
(** * The filters of PNG images

    What filtering means by RFC 2083, section 6: each byte of a scanline is
    replaced by its difference to a prediction from the byte of the pixel to the
    left, the byte above, and the byte above that to the left.  [png_unfilter]
    undoes it, for every choice of filters, in place. *)
From S2P Require Import Prelude Strings Memory Deflate Extract Png.

(** ** The filters as the standard defines them *)

Definition paeth (a b c : Z) : Z :=
  let p := a + b - c in
  if (Z.abs (p - a) <=? Z.abs (p - b)) && (Z.abs (p - a) <=? Z.abs (p - c)) then a
  else if Z.abs (p - b) <=? Z.abs (p - c) then b else c.

Inductive filter := FNone | FSub | FUp | FAverage | FPaeth.
Definition filter_type (f : filter) : Z := match f with FNone => 0 | FSub => 1 | FUp => 2 | FAverage => 3 | FPaeth => 4 end.

Definition predict (f : filter) (a b c : Z) : Z :=
  match f with FNone => 0 | FSub => a | FUp => b | FAverage => (a + b) / 2 | FPaeth => paeth a b c end.

(** A byte of a scanline; zero to the left of it, and everywhere above the first. *)
Definition byte_at (line : list Z) (i : Z) : Z := if i <? 0 then 0 else default 0 (line !! Z.to_nat i).

Definition filter_byte (f : filter) (bpp : Z) (prev line : list Z) (i : nat) : Z :=
  let i := Z.of_nat i in
  (byte_at line i - predict f (byte_at line (i - bpp)) (byte_at prev i) (byte_at prev (i - bpp))) mod 256.

Definition filter_line (f : filter) (bpp : Z) (prev line : list Z) : list Z :=
  filter_type f :: map (filter_byte f bpp prev line) (seq 0 (length line)).

(** The scanlines of a pass, each with its filter. *)
Fixpoint filter_lines (bpp : Z) (prev : list Z) (lines : list (filter * list Z)) : list Z :=
  match lines with
  | [] => []
  | (f, line) :: lines' => filter_line f bpp prev line ++ filter_lines bpp line lines'
  end.
Definition plain_lines (lines : list (filter * list Z)) : list Z := lines ≫= fun '(f, line) => filter_type f :: line.

(** ** Single bytes *)

Lemma paeth_ok a b c : byte_ok a -> byte_ok b -> byte_ok c -> png_paeth_predictor a b c = paeth a b c.
Proof.
  intros Ha Hb Hc. unfold png_paeth_predictor, paeth, abs_diff, byte_ok in *. cbv zeta.
  assert (E : forall x, 0 <= x < 256 -> swrap 32 (u32 (a + b - c) - x) = a + b - c - x).
  { intros x Hx. unfold swrap, u32, uwrap. change (2 ^ 32) with 4294967296. change (2 ^ (32 - 1)) with 2147483648.
    cbv zeta. match goal with |- context [?u <? ?v] => destruct (Z.ltb_spec u v) end; Z.div_mod_to_equations; lia. }
  by rewrite !E.
Qed.

Lemma paeth_byte a b c : byte_ok a -> byte_ok b -> byte_ok c -> byte_ok (paeth a b c).
Proof. intros. unfold paeth. by repeat case_match. Qed.

Lemma predict_range f a b c : byte_ok a -> byte_ok b -> byte_ok c -> byte_ok (predict f a b c).
Proof.
  intros Ha Hb Hc. destruct f; cbn [predict]; [unfold byte_ok; lia|done|done| |by apply paeth_byte].
  unfold byte_ok in *. Z.div_mod_to_equations. lia.
Qed.

(** The function behind the filter type adds the prediction. *)
Lemma unfilter_ok f : exists unfilter, png_filters !! Z.to_nat (filter_type f) = Some unfilter
  /\ forall x a b c, byte_ok x -> byte_ok a -> byte_ok b -> byte_ok c -> u8 (unfilter x a b c) = (x + predict f a b c) mod 256.
Proof.
  destruct f; cbn; (eexists; split; [reflexivity|]); intros x a b c Hx Ha Hb Hc; unfold byte_ok in *;
  unfold png_unfilter_none, png_unfilter_sub, png_unfilter_up, png_unfilter_average, png_unfilter_paeth; cbn [predict].
  - rewrite Z.add_0_r. done.
  - unfold u8, u32, uwrap. rewrite (Z.mod_small (x + a)) by lia. done.
  - unfold u8, u32, uwrap. rewrite (Z.mod_small (x + b)) by lia. done.
  - rewrite Z.shiftr_div_pow2 by lia. change (2 ^ 1) with 2. rewrite (Z.add_comm b a).
    assert (0 <= (a + b) / 2 < 256) by (Z.div_mod_to_equations; lia). unfold u8, u32, uwrap. rewrite (Z.mod_small (x + _)) by lia. done.
  - rewrite paeth_ok by done. assert (byte_ok (paeth a b c)) as Hp by (by apply paeth_byte). unfold byte_ok in Hp.
    unfold u8, u32, uwrap. rewrite (Z.mod_small (x + _)) by lia. done.
Qed.

Lemma unpredict o p : byte_ok o -> ((o - p) mod 256 + p) mod 256 = o.
Proof. intros Ho. rewrite Zplus_mod_idemp_l. replace (o - p + p) with o by lia. apply Z.mod_small. exact Ho. Qed.

(** ** A scanline *)

Lemma mem_byte_lookup data i : 0 <= i -> mem_byte data i = data !! Z.to_nat i.
Proof. intros Hi. unfold mem_byte. by rewrite (proj2 (Z.leb_le _ _)) by lia. Qed.

Lemma byte_at_lookup line i x : line !! i = Some x -> byte_at line (Z.of_nat i) = x.
Proof. intros H. unfold byte_at. rewrite (proj2 (Z.ltb_ge _ _)) by lia. by rewrite Nat2Z.id, H. Qed.

Lemma byte_at_byte line i : bytes_ok line -> byte_ok (byte_at line i).
Proof.
  intros H. unfold byte_at. case_match; [unfold byte_ok; lia|]. destruct (line !! Z.to_nat i) eqn:E; [|cbn; unfold byte_ok; lia].
  exact (Forall_lookup_1 _ _ _ _ H E).
Qed.

Lemma byte_at_nil i : byte_at [] i = 0.
Proof. unfold byte_at. by case_match. Qed.

Lemma byte_at_neg line i : i < 0 -> byte_at line i = 0.
Proof. intros H. unfold byte_at. by rewrite (proj2 (Z.ltb_lt _ _) H). Qed.

Lemma set_index_app (P Q R : list Z) x y : set_index (P ++ Q ++ x :: R) (zlen P + zlen Q) y = Some (P ++ Q ++ y :: R).
Proof.
  unfold set_index. rewrite (proj2 (Z.ltb_ge _ _)), (proj2 (Z.leb_gt _ _)) by (rewrite ?zlen_app; cbn [length]; lia).
  cbn [orb]. f_equal. replace (Z.to_nat (zlen P + zlen Q)) with (length (P ++ Q) + 0)%nat by (rewrite length_app; lia).
  by rewrite app_assoc, insert_app_r, <- app_assoc.
Qed.

Section Line.
Context (f : filter) (bpp : Z) (prev line P R : list Z) (s : Z).
Hypothesis bpp_pos : 1 <= bpp.
Hypothesis line_bytes : bytes_ok line.
Hypothesis prev_bytes : bytes_ok prev.
Hypothesis s_nonneg : 0 <= s.
(** The first scanline has nothing above it; otherwise the scanline above
    precedes, with this one's filter byte in between. *)
Hypothesis above_ok : if 0 <? s then exists Q t, P = Q ++ prev ++ [t] /\ length prev = length line else prev = [].

Abbreviation filtered := (map (filter_byte f bpp prev line) (seq 0 (length line))).

(** The data when [k] bytes are done. *)
Definition progress (k : nat) : list Z := P ++ take k line ++ drop k filtered ++ R.

Lemma progress_left k : (k < length line)%nat -> bpp <= Z.of_nat k ->
  mem_byte (progress k) (zlen P + Z.of_nat k - bpp) = Some (byte_at line (Z.of_nat k - bpp)).
Proof.
  intros Hk Hb. rewrite mem_byte_lookup by lia. unfold progress.
  rewrite lookup_app_r, lookup_app_l, lookup_take_lt by (rewrite ?length_take; lia).
  destruct (line !! (Z.to_nat (zlen P + Z.of_nat k - bpp) - length P)%nat) as [x|] eqn:E; [|apply lookup_ge_None in E; lia].
  apply byte_at_lookup in E as E'. rewrite <- E'. do 2 f_equal. lia.
Qed.

Lemma progress_above k d : 0 < s -> (k < length line)%nat -> 0 <= d <= Z.of_nat k ->
  mem_byte (progress k) (zlen P + Z.of_nat k - (zlen line + 1) - d) = Some (byte_at prev (Z.of_nat k - d)).
Proof.
  intros Hs Hk Hd. pose proof above_ok as Ha. rewrite (proj2 (Z.ltb_lt 0 s) Hs) in Ha. destruct Ha as (Q & t & EP & El).
  assert (HP : length P = (length Q + length line + 1)%nat) by (rewrite EP, !length_app, El; cbn; lia).
  rewrite mem_byte_lookup by lia. unfold progress. set (i := Z.to_nat _). assert (Hi : Z.of_nat i = zlen Q + (Z.of_nat k - d)) by lia.
  clearbody i. rewrite lookup_app_l by lia. rewrite EP, lookup_app_r, lookup_app_l by lia.
  destruct (prev !! _) as [x|] eqn:E; [|apply lookup_ge_None in E; lia].
  apply byte_at_lookup in E as E'. rewrite <- E'. do 2 f_equal. lia.
Qed.

Lemma first_line : s <= 0 -> prev = [].
Proof. intros Hs. pose proof above_ok as Ha. by rewrite (proj2 (Z.ltb_ge 0 s) Hs) in Ha. Qed.

Lemma progress_step k x : line !! k = Some x ->
  mem_byte (progress k) (zlen P + Z.of_nat k) = Some (filter_byte f bpp prev line k)
  /\ set_index (progress k) (zlen P + Z.of_nat k) x = Some (progress (S k)).
Proof.
  intros Hx. pose proof (lookup_lt_Some _ _ _ Hx) as Hk.
  assert (E : drop k filtered = filter_byte f bpp prev line k :: drop (S k) filtered).
  { apply drop_S. rewrite list_lookup_fmap, lookup_seq_lt by done. done. }
  assert (Hl : zlen (take k line) = Z.of_nat k) by (rewrite length_take; lia).
  unfold progress. rewrite E. split.
  - rewrite app_assoc. cbn [app]. apply mem_byte_app. rewrite zlen_app. lia.
  - cbn [app]. replace (zlen P + Z.of_nat k) with (zlen P + zlen (take k line)) by lia. rewrite set_index_app. rewrite (take_S_r _ _ _ Hx), <- app_assoc. done.
Qed.

Lemma unfilter_bytes_ok unfilter :
  (forall x a b c, byte_ok x -> byte_ok a -> byte_ok b -> byte_ok c -> u8 (unfilter x a b c) = (x + predict f a b c) mod 256) ->
  forall n k left above above_left, (k + n = length line)%nat ->
  (Z.of_nat k <= bpp -> left = 0 /\ above_left = 0) -> (s = 0 -> above = 0 /\ above_left = 0) ->
  exists above', unfilter_bytes n unfilter bpp (zlen line + 1) s (Z.of_nat k) (zlen P + Z.of_nat k) left above above_left (progress k)
    = Some (P ++ line ++ R, zlen P + zlen line, above') /\ (s = 0 -> above' = 0).
Proof.
  intros Hu. induction n as [|n IH]; intros k left above above_left Hk H1 H2; cbn [unfilter_bytes].
  { exists above. assert (k = length line) as -> by lia. unfold progress. rewrite firstn_all, drop_ge by (rewrite length_map, length_seq; lia).
    split; [done|]. intros E. by apply H2. }
  assert (Hlt : (k < length line)%nat) by lia. destruct (lookup_lt_is_Some_2 _ _ Hlt) as [x Hx].
  destruct (progress_step k x Hx) as [Ecur Eset].
  assert (E1 : (if bpp <=? Z.of_nat k then mem_byte (progress k) (zlen P + Z.of_nat k - bpp) else Some left)
    = Some (byte_at line (Z.of_nat k - bpp))).
  { destruct (Z.leb_spec bpp (Z.of_nat k)); [by apply progress_left|]. rewrite byte_at_neg by lia. f_equal. apply H1. lia. }
  assert (E2 : (if 0 <? s then mem_byte (progress k) (zlen P + Z.of_nat k - (zlen line + 1)) else Some above) = Some (byte_at prev (Z.of_nat k))).
  { case (Z.ltb_spec 0 s); intros Hs.
    - pose proof (progress_above k 0 Hs Hlt ltac:(lia)) as E. by rewrite !Z.sub_0_r in E.
    - rewrite first_line, byte_at_nil by lia. f_equal. apply H2. lia. }
  assert (E3 : (if (0 <? s) && (bpp <=? Z.of_nat k) then mem_byte (progress k) (zlen P + Z.of_nat k - (zlen line + 1) - bpp) else Some above_left)
    = Some (byte_at prev (Z.of_nat k - bpp))).
  { case (Z.ltb_spec 0 s); intros Hs; cbn [andb]; [destruct (Z.leb_spec bpp (Z.of_nat k))|].
    - apply progress_above; [done|done|lia].
    - rewrite byte_at_neg by lia. f_equal. apply H1. lia.
    - rewrite first_line, byte_at_nil by lia. f_equal. apply H2. lia. }
  rewrite E1, E2, E3, Ecur. rewrite Hu; [|apply Z.mod_pos_bound; lia|by apply byte_at_byte..].
  assert (Ex : (filter_byte f bpp prev line k
    + predict f (byte_at line (Z.of_nat k - bpp)) (byte_at prev (Z.of_nat k)) (byte_at prev (Z.of_nat k - bpp))) mod 256 = x).
  { unfold filter_byte. rewrite (byte_at_lookup _ _ _ Hx). apply unpredict. exact (Forall_lookup_1 _ _ _ _ line_bytes Hx). }
  rewrite Ex, Eset. replace (Z.of_nat k + 1) with (Z.of_nat (S k)) by lia. replace (zlen P + Z.of_nat k + 1) with (zlen P + Z.of_nat (S k)) by lia.
  apply IH; [lia| |].
  - intros Hb. rewrite !byte_at_neg by lia. done.
  - intros Hs. rewrite first_line, !byte_at_nil by lia. done.
Qed.
End Line.

(** ** A pass, and all of them *)

(** Scanlines of [n] bytes. *)
Definition lines_ok (n : nat) (lines : list (filter * list Z)) : Prop := Forall (fun l => length l.2 = n /\ bytes_ok l.2) lines.

Lemma filter_line_length f bpp prev line : length (filter_line f bpp prev line) = S (length line).
Proof. cbn. by rewrite length_map, length_seq. Qed.

Lemma unfilter_lines_ok bpp n lines : 1 <= bpp -> lines_ok n lines -> forall s prev P R above,
  0 <= s -> bytes_ok prev -> (if 0 <? s then exists Q, P = Q ++ prev /\ length prev = n else prev = []) -> (s = 0 -> above = 0) ->
  unfilter_lines (length lines) bpp (Z.of_nat n + 1) s (zlen P) above (P ++ filter_lines bpp prev lines ++ R)
  = Some (P ++ plain_lines lines ++ R, zlen (P ++ plain_lines lines), Ok tt).
Proof.
  intros Hbpp. induction 1 as [|[f line] lines [Hn Hline] Hlines IH]; intros s prev P R above Hs Hprev Habove Hz; cbn [length unfilter_lines].
  { cbn. by rewrite app_nil_r. }
  cbn [snd] in *. cbn [filter_lines]. unfold filter_line. cbn [app]. rewrite mem_byte_app by done.
  destruct (unfilter_ok f) as (unfilter & -> & Hu). set (P' := P ++ [filter_type f]).
  assert (Habove' : if 0 <? s then exists Q t, P' = Q ++ prev ++ [t] /\ length prev = length line else prev = []).
  { destruct (0 <? s); [|done]. destruct Habove as (Q & -> & El). exists Q, (filter_type f). split; [unfold P'; by rewrite <- app_assoc|lia]. }
  destruct (unfilter_bytes_ok f bpp prev line P' (filter_lines bpp line lines ++ R) s Hbpp Hline Hprev Hs Habove' unfilter Hu
    (length line) 0 0 above 0) as (above' & E & Hz'); [lia|done|intros; split; [by apply Hz|done]|].
  unfold progress in E. rewrite take_0, drop_0 in E. change (Z.of_nat 0) with 0 in E. rewrite Z.add_0_r in E. cbn [app] in E.
  replace (Z.to_nat (Z.of_nat n + 1 - 1)) with (length line) by lia.
  replace (zlen P + 1) with (zlen P') by (unfold P'; rewrite zlen_app; done). rewrite <- Hn.
  replace (P ++ filter_type f :: (map (filter_byte f bpp prev line) (seq 0 (length line)) ++ filter_lines bpp line lines) ++ R)
    with (P' ++ map (filter_byte f bpp prev line) (seq 0 (length line)) ++ filter_lines bpp line lines ++ R)
    by (unfold P'; rewrite <- !app_assoc; done).
  rewrite E. replace (zlen P' + zlen line) with (zlen (P' ++ line)) by (rewrite zlen_app; lia).
  rewrite (app_assoc P'), Hn. rewrite (IH (s + 1) line (P' ++ line)); [|lia|done| |lia].
  - unfold plain_lines, P'. cbn [mbind list_bind app]. rewrite <- !app_assoc. done.
  - rewrite (proj2 (Z.ltb_lt _ _)) by lia. by exists P'.
Qed.

Lemma plain_lines_length bpp lines : forall prev, length (plain_lines lines) = length (filter_lines bpp prev lines).
Proof.
  induction lines as [|[f line] lines IH]; intros prev; [done|]. unfold plain_lines in *. cbn [filter_lines mbind list_bind].
  rewrite !length_app, filter_line_length, <- (IH line). done.
Qed.

(** The scanlines of a pass have the dimensions of the pass. *)
Definition pass_ok (p : png_context) (pb : pixel_buffer) (pass : Z) (lines : list (filter * list Z)) : Prop :=
  let il := png_interlace_pass p pb pass in
  if il_width il =? 0 then lines = []
  else zlen lines = il_height il /\ lines_ok (Z.to_nat (png_scanline_len p il - 1)) lines /\ 1 <= png_scanline_len p il.

Lemma unfilter_passes_ok pb passes : forall p ls P R, Forall2 (pass_ok p pb) passes ls -> 1 <= png_pixel_len p ->
  ck_data (png_raw p) = P ++ (ls ≫= filter_lines (png_pixel_len p) []) ++ R -> ck_offset (png_raw p) = zlen P ->
  unfilter_passes passes pb p
  = Some (set_png_raw (Chunk (P ++ (ls ≫= plain_lines) ++ R) (zlen (P ++ (ls ≫= plain_lines))) (ck_len (png_raw p))) p, Ok tt).
Proof.
  induction passes as [|pass passes IH]; intros p ls P R Hls Hbpp Hdata Hoff; inversion Hls as [|? lines ? ls' Hl Hls']; subst; cbn [unfilter_passes].
  { cbn in *. rewrite app_nil_r. do 2 f_equal. destruct p as [? ? ? ? ? ? ? [? ? ?] ?]. cbn in *. by subst. }
  unfold pass_ok in Hl. set (il := png_interlace_pass p pb pass) in *. cbn [mbind list_bind] in *.
  destruct (Z.eqb_spec (il_width il) 0) as [E|E].
  { subst lines. cbn [filter_lines plain_lines mbind list_bind app] in *. by apply IH. }
  destruct Hl as (Hh & Hlines & Hsl). unfold png_unfilter_pass.
  replace (Z.to_nat (il_height il)) with (length lines) by lia. rewrite Hoff, Hdata, <- app_assoc.
  pose proof (unfilter_lines_ok (png_pixel_len p) _ lines Hbpp Hlines 0 [] P ((ls' ≫= filter_lines (png_pixel_len p) []) ++ R) 0
    ltac:(lia) ltac:(constructor) eq_refl ltac:(done)) as El.
  replace (Z.of_nat (Z.to_nat (png_scanline_len p il - 1)) + 1) with (png_scanline_len p il) in El by lia. rewrite El.
  rewrite (IH _ ls' (P ++ plain_lines lines) R); [|done|done|cbn; by rewrite <- app_assoc|done].
  cbn [ck_len]. rewrite <- !app_assoc. done.
Qed.

(** Unfiltering gives back the scanlines of an image from what any choice of
    filters makes of them, pass by pass and in place, with the filter bytes
    between them; the offset ends up at the end of the last pass. *)
Theorem png_unfilter_roundtrip p pb ls junk :
  Forall2 (pass_ok p pb) (seqZ 0 (png_passes p)) ls -> 1 <= png_pixel_len p ->
  ck_data (png_raw p) = (ls ≫= filter_lines (png_pixel_len p) []) ++ junk ->
  png_unfilter pb p
  = Some (set_png_raw (Chunk ((ls ≫= plain_lines) ++ junk) (zlen (ls ≫= plain_lines)) (ck_len (png_raw p))) p, Ok tt).
Proof. intros Hls Hbpp Hdata. exact (unfilter_passes_ok pb _ (set_png_raw (set_ck_offset 0 (png_raw p)) p) ls [] junk Hls Hbpp Hdata eq_refl). Qed.

(** Two rows of two pixels of 24 bits. *)
Definition demo_rows : list (list (filter * list Z)) := [[(FAverage, [10; 20; 30; 40; 250; 3]); (FPaeth, [9; 8; 7; 6; 5; 255])]].
Definition demo_context : png_context :=
  set_png_raw (Chunk (demo_rows ≫= filter_lines 3 []) 14 14) (set_png_format 8 2 3 1 png_context_init).

Lemma png_unfilter_roundtrip_witness :
  png_unfilter (PixBuf 2 2 [] 16) demo_context
  = Some (set_png_raw (Chunk [3; 10; 20; 30; 40; 250; 3; 4; 9; 8; 7; 6; 5; 255] 14 14) demo_context, Ok tt).
Proof.
  apply (png_unfilter_roundtrip demo_context (PixBuf 2 2 [] 16) demo_rows []).
  - apply Forall2_cons. split; [|apply Forall2_nil_2]. split; [vm_compute; reflexivity|]. split; [|vm_compute; discriminate].
    repeat apply Forall_cons_2; [| |apply Forall_nil_2]; (split; [vm_compute; reflexivity|cbn [snd]; solve_bytes]).
  - vm_compute. discriminate.
  - vm_compute. reflexivity.
Defined.
