(* ===== verification/PngSafe.v ===== *)
(** * Sizes and bounds of PNG images

    The passes of an interlaced image visit every pixel exactly once; the raw
    data and the pixel buffer are large enough for them. *)
From S2P Require Import Prelude Strings Memory Deflate Extract Png.

(** ** Interlacing *)

(** Starting points and strides of a pass, by RFC 2083, section 2.6. *)
Definition passes_ok (passes : Z) : Prop := passes = 1 \/ passes = 7.

Lemma pass_cases (passes pass : Z) : passes_ok passes -> 0 <= pass < passes ->
  (passes = 1 /\ pass = 0) \/ (passes = 7 /\ (pass = 0 \/ pass = 1 \/ pass = 2 \/ pass = 3 \/ pass = 4 \/ pass = 5 \/ pass = 6)).
Proof. intros [-> | ->] H; lia. Qed.

Definition sane (n : Z) : Prop := 0 <= n < 2 ^ 32 - 8.

(** The number of steps of stride [s] from [i] on below [n]. *)
Lemma steps_below n i s k : sane n -> 0 <= i < s -> s = 1 \/ s = 2 \/ s = 4 \/ s = 8 -> 0 <= k ->
  (k < u32 (n - i + s - 1) / s <-> i + k * s < n).
Proof.
  intros [Hn Hn'] Hi Hs Hk. unfold u32, uwrap. rewrite Z.mod_small by (change (2 ^ 32) with 4294967296 in *; lia).
  destruct Hs as [-> | [-> | [-> | ->]]]; Z.div_mod_to_equations; lia.
Qed.

(** Indents and strides of the passes. *)
Definition adam7 : list (Z * Z * Z * Z) :=
  [(0, 0, 8, 8); (4, 0, 8, 8); (0, 4, 4, 8); (2, 0, 4, 4); (0, 2, 2, 4); (1, 0, 2, 2); (0, 1, 1, 2)].
Definition pass_grid (passes pass : Z) : Z * Z * Z * Z :=
  if passes =? 1 then (0, 0, 1, 1) else default (0, 0, 1, 1) (adam7 !! Z.to_nat pass).

Lemma interlace_grid width height passes pass : passes_ok passes -> 0 <= pass < passes ->
  let '(xi, yi, xs, ys) := pass_grid passes pass in
  interlace_of width height passes pass = Interlace pass xi yi xs ys (u32 (width - xi + xs - 1) / xs) (u32 (height - yi + ys - 1) / ys)
  /\ 0 <= xi < xs /\ 0 <= yi < ys /\ (xs = 1 \/ xs = 2 \/ xs = 4 \/ xs = 8) /\ (ys = 1 \/ ys = 2 \/ ys = 4 \/ ys = 8).
Proof.
  intros Hp Hpass. destruct (pass_cases _ _ Hp Hpass) as [[-> ->]|[-> Hc]]; [|destruct Hc as [-> | [-> | [-> | [-> | [-> | [-> | ->]]]]]]];
  cbn; (split; [unfold interlace_of; rewrite !Z.shiftr_div_pow2 by (vm_compute; discriminate); reflexivity|lia]).
Qed.

(** Dimensions of a pass. *)
Lemma interlace_steps width height passes pass : passes_ok passes -> 0 <= pass < passes -> sane width -> sane height ->
  let il := interlace_of width height passes pass in
  0 <= il_x_indent il < il_x_stride il /\ 0 <= il_y_indent il < il_y_stride il /\ il_x_stride il <= 8 /\ il_y_stride il <= 8
  /\ 0 <= il_width il /\ 0 <= il_height il
  /\ (forall i, 0 <= i -> i < il_width il <-> il_x_indent il + i * il_x_stride il < width)
  /\ (forall j, 0 <= j -> j < il_height il <-> il_y_indent il + j * il_y_stride il < height).
Proof.
  intros Hp Hpass Hw Hh. pose proof (interlace_grid width height passes pass Hp Hpass) as H.
  destruct (pass_grid passes pass) as [[[xi yi] xs] ys]. destruct H as (-> & Hx & Hy & Hxs & Hys). cbn.
  split; [done|]. split; [done|]. split; [lia|]. split; [lia|].
  split; [apply Z.div_pos; [apply uwrap_range; lia|lia]|]. split; [apply Z.div_pos; [apply uwrap_range; lia|lia]|].
  split; intros k Hk; by apply steps_below.
Qed.

(** Whether a pixel lies on the grid of a pass. *)
Definition on_grid (passes x y pass : Z) : bool :=
  let '(xi, yi, xs, ys) := pass_grid passes pass in (x mod xs =? xi) && (y mod ys =? yi).

Lemma on_grid_mod passes x y pass : passes_ok passes -> 0 <= pass < passes ->
  on_grid passes x y pass = on_grid passes (x mod 8) (y mod 8) pass.
Proof.
  intros Hp Hpass. unfold on_grid. pose proof (interlace_grid 0 0 passes pass Hp Hpass) as H.
  destruct (pass_grid passes pass) as [[[xi yi] xs] ys]. destruct H as (_ & _ & _ & Hxs & Hys).
  assert (E : forall z m, m = 1 \/ m = 2 \/ m = 4 \/ m = 8 -> (z mod 8) mod m = z mod m).
  { intros z m Hm. apply Z.mod_mod_divide. destruct Hm as [-> | [-> | [-> | ->]]]; [exists 8|exists 4|exists 2|exists 1]; done. }
  by rewrite !E by done.
Qed.

Lemma grid_table : forallb (fun passes => forallb (fun x => forallb (fun y =>
    existsb (fun pass => on_grid passes x y pass
      && forallb (fun pass' => implb (on_grid passes x y pass') (pass' =? pass)) (seqZ 0 passes)) (seqZ 0 passes)) (seqZ 0 8)) (seqZ 0 8)) [1; 7] = true.
Proof. vm_compute. reflexivity. Qed.

(** Every pixel lies on the grid of exactly one pass. *)
Lemma grid_unique passes x y : passes_ok passes -> exists pass, 0 <= pass < passes /\ on_grid passes x y pass = true
  /\ forall pass', 0 <= pass' < passes -> on_grid passes x y pass' = true -> pass' = pass.
Proof.
  intros Hp. pose proof grid_table as H. rewrite forallb_forall in H. specialize (H passes ltac:(destruct Hp as [-> | ->]; cbn; auto)).
  pose proof (range_check _ _ _ H (x mod 8) ltac:(pose proof (Z.mod_pos_bound x 8); lia)) as H1. cbv beta in H1.
  pose proof (range_check _ _ _ H1 (y mod 8) ltac:(pose proof (Z.mod_pos_bound y 8); lia)) as H2. cbv beta in H2.
  apply existsb_exists in H2 as (pass & Hin & Hb). apply andb_true_iff in Hb as [Hon Hall].
  apply list_elem_of_In, elem_of_seqZ in Hin. exists pass. split; [lia|]. split; [by rewrite on_grid_mod by (done || lia)|].
  intros pass' Hpass' Hon'. rewrite on_grid_mod in Hon' by done. pose proof (range_check _ _ _ Hall pass' ltac:(lia)) as Hi. cbv beta in Hi.
  rewrite Hon' in Hi. cbn in Hi. lia.
Qed.

(** Pixel [(x, y)] is pixel [(i, j)] of a pass. *)
Definition in_pass (width height passes x y pass i j : Z) : Prop :=
  let il := interlace_of width height passes pass in
  0 <= pass < passes /\ 0 <= i < il_width il /\ 0 <= j < il_height il
  /\ x = il_x_indent il + i * il_x_stride il /\ y = il_y_indent il + j * il_y_stride il.

(** The pixels that the passes visit are the pixels of the image, and each of
    them is visited exactly once. *)
Theorem png_interlace_partition width height passes : passes_ok passes -> sane width -> sane height ->
  (forall pass i j x y, in_pass width height passes x y pass i j -> 0 <= x < width /\ 0 <= y < height)
  /\ forall x y, 0 <= x < width -> 0 <= y < height ->
     exists pass i j, in_pass width height passes x y pass i j
       /\ forall pass' i' j', in_pass width height passes x y pass' i' j' -> pass' = pass /\ i' = i /\ j' = j.
Proof.
  intros Hp Hw Hh. split.
  - intros pass i j x y (Hpass & Hi & Hj & -> & ->). destruct (interlace_steps width height passes pass Hp Hpass Hw Hh) as (H1 & H2 & _ & _ & _ & _ & H7 & H8).
    set (il := interlace_of width height passes pass) in *. specialize (H7 i ltac:(lia)). specialize (H8 j ltac:(lia)). nia.
  - intros x y Hx Hy. destruct (grid_unique passes x y Hp) as (pass & Hpass & Hon & Huniq).
    assert (Hgrid : forall pass i j, in_pass width height passes x y pass i j -> on_grid passes x y pass = true
      /\ let '(xi, yi, xs, ys) := pass_grid passes pass in i = x / xs /\ j = y / ys).
    { intros q i j (Hq & Hi & Hj & Ex & Ey). unfold on_grid. pose proof (interlace_grid width height passes q Hp Hq) as H.
      destruct (pass_grid passes q) as [[[xi yi] xs] ys]. destruct H as (E & H1 & H2 & _). rewrite E in *. cbn in *.
      rewrite (proj2 (Z.eqb_eq _ _)), (proj2 (Z.eqb_eq _ _)).
      - split; [done|]. subst x y. rewrite !Z.div_add, !Z.div_small by lia. lia.
      - subst y. rewrite Z.mod_add, Z.mod_small by lia. done.
      - subst x. rewrite Z.mod_add, Z.mod_small by lia. done. }
    destruct (interlace_steps width height passes pass Hp Hpass Hw Hh) as (_ & _ & _ & _ & _ & _ & H7 & H8).
    pose proof (interlace_grid width height passes pass Hp Hpass) as Hg. unfold on_grid in Hon.
    destruct (pass_grid passes pass) as [[[xi yi] xs] ys] eqn:Egrid. destruct Hg as (E & H1 & H2 & _).
    apply andb_true_iff in Hon as [Hmx Hmy]. apply Z.eqb_eq in Hmx, Hmy. exists pass, (x / xs), (y / ys). split.
    + split; [done|]. rewrite E in *. cbn in *. pose proof (Z.div_mod x xs ltac:(lia)). pose proof (Z.div_mod y ys ltac:(lia)).
      assert (0 <= x / xs) by (apply Z.div_pos; lia). assert (0 <= y / ys) by (apply Z.div_pos; lia).
      split; [split; [done|apply H7; lia]|]. split; [split; [done|apply H8; lia]|]. lia.
    + intros q i j Hin. destruct (Hgrid q i j Hin) as [Hon' Hij]. assert (q = pass) as -> by (apply Huniq; [apply Hin|done]).
      rewrite Egrid in Hij. done.
Qed.

(** ** Unfiltering stays inside the raw data *)

Lemma mem_byte_inside data i : 0 <= i < zlen data -> exists b, mem_byte data i = Some b /\ data !! Z.to_nat i = Some b.
Proof.
  intros Hi. unfold mem_byte. rewrite (proj2 (Z.leb_le _ _)) by lia. destruct (lookup_lt_is_Some_2 data (Z.to_nat i)) as [b Hb]; [lia|]. by exists b.
Qed.

Lemma unfilter_bytes_safe unfilter pl sl s n : 0 <= pl -> forall byte offset left above above_left data,
  0 <= byte -> byte <= offset -> (0 < s -> byte + sl <= offset) -> 0 <= sl -> offset + Z.of_nat n <= zlen data -> bytes_ok data ->
  exists data' above', unfilter_bytes n unfilter pl sl s byte offset left above above_left data = Some (data', offset + Z.of_nat n, above')
    /\ length data' = length data /\ bytes_ok data'.
Proof.
  intros Hpl. induction n as [|n IH]; intros byte offset left above above_left data H1 H2 H3 H4 H5 Hb; cbn [unfilter_bytes].
  { exists data, above. by rewrite Z.add_0_r. }
  assert (Hread : forall (c : bool) i x, (c = true -> 0 <= i < zlen data) -> exists y, (if c then mem_byte data i else Some x) = Some y).
  { intros [] i x Hi; [|by exists x]. destruct (mem_byte_inside data i) as (y & E & _); [by apply Hi|]. by exists y. }
  destruct (Hread (pl <=? byte) (offset - pl) left) as [l ->]; [intros E; apply Z.leb_le in E; lia|].
  destruct (Hread (0 <? s) (offset - sl) above) as [ab ->]; [intros E; apply Z.ltb_lt in E; lia|].
  destruct (Hread ((0 <? s) && (pl <=? byte)) (offset - sl - pl) above_left) as [al ->].
  { intros E. apply andb_true_iff in E as [E1 E2]. apply Z.ltb_lt in E1. apply Z.leb_le in E2. lia. }
  destruct (mem_byte_inside data offset) as (cur & -> & _); [lia|].
  unfold set_index. rewrite (proj2 (Z.ltb_ge offset 0)), (proj2 (Z.leb_gt (zlen data) offset)) by lia. cbn [orb].
  destruct (IH (byte + 1) (offset + 1) l ab al (<[Z.to_nat offset := u8 (unfilter cur l ab al)]> data)) as (data' & above' & -> & Hl & Hb').
  - lia.
  - lia.
  - lia.
  - done.
  - rewrite length_insert. lia.
  - apply Forall_insert; [done|]. apply uwrap_range. lia.
  - exists data', above'. rewrite length_insert in Hl. split; [do 3 f_equal; lia|done].
Qed.

Lemma unfilter_lines_safe pl sl n : 0 <= pl -> 1 <= sl -> forall s offset above data,
  0 <= s -> 0 <= offset -> (0 < s -> sl <= offset) -> offset + Z.of_nat n * sl <= zlen data -> bytes_ok data ->
  exists data' offset' rc, unfilter_lines n pl sl s offset above data = Some (data', offset', rc)
    /\ length data' = length data /\ bytes_ok data' /\ match rc with Ok _ => offset' = offset + Z.of_nat n * sl | Err _ => True end.
Proof.
  intros Hpl Hsl. induction n as [|n IH]; intros s offset above data H1 H2 H3 H4 Hb; cbn [unfilter_lines].
  { exists data, offset, (Ok tt). split; [done|]. split; [done|]. split; [done|]. lia. }
  destruct (mem_byte_inside data offset) as (t & -> & _); [lia|].
  destruct (png_filters !! Z.to_nat t) as [unfilter|]; [|by exists data, offset, (Err ENOTSUP)].
  destruct (unfilter_bytes_safe unfilter pl sl s (Z.to_nat (sl - 1)) Hpl 0 (offset + 1) 0 above 0 data) as (d1 & a1 & -> & Hl1 & Hb1);
    [lia|lia|lia|lia|lia|done|].
  destruct (IH (s + 1) (offset + 1 + Z.of_nat (Z.to_nat (sl - 1))) a1 d1) as (d2 & o2 & rc & -> & Hl2 & Hb2 & Hrc);
    [lia|lia|lia|rewrite Hl1; lia|done|].
  exists d2, o2, rc. split; [done|]. split; [congruence|]. split; [done|]. destruct rc; [|done]. lia.
Qed.

(** Bytes of a pass, with filter bytes. *)
Definition pass_size (p : png_context) (pb : pixel_buffer) (pass : Z) : Z :=
  let il := png_interlace_pass p pb pass in if il_width il =? 0 then 0 else il_height il * png_scanline_len p il.
Definition passes_size (p : png_context) (pb : pixel_buffer) (passes : list Z) : Z := foldr (fun pass n => pass_size p pb pass + n) 0 passes.

(** The format of the context does not depend on the raw data. *)
Definition same_format (p q : png_context) : Prop :=
  png_offset q = png_offset p /\ png_depth q = png_depth p /\ png_colour_type q = png_colour_type p
  /\ png_channels q = png_channels p /\ png_passes q = png_passes p /\ png_palette_ q = png_palette_ p
  /\ png_deflate q = png_deflate p /\ png_pixbuf_ q = png_pixbuf_ p.

#[export] Instance same_format_preorder : PreOrder same_format.
Proof. split; [done|]. intros p q r H1 H2. unfold same_format in *. intuition congruence. Qed.

Lemma same_format_pass p q pb pass : same_format p q -> png_interlace_pass q pb pass = png_interlace_pass p pb pass.
Proof. intros (_ & _ & _ & _ & E & _). unfold png_interlace_pass. by rewrite E. Qed.

Lemma same_format_scanline p q il : same_format p q -> png_scanline_len q il = png_scanline_len p il.
Proof. intros (_ & E1 & _ & E2 & _). unfold png_scanline_len. by rewrite E1, E2. Qed.

Lemma same_format_size p q pb passes : same_format p q -> passes_size q pb passes = passes_size p pb passes.
Proof.
  intros Hs. unfold passes_size. induction passes as [|pass passes IH]; [done|]. cbn [foldr]. rewrite IH. f_equal.
  unfold pass_size. by rewrite (same_format_pass p q), (same_format_scanline p q).
Qed.

Lemma scanline_len_pos p il : 0 <= il_width il -> 0 <= png_channels p -> 0 <= png_depth p -> 1 <= png_scanline_len p il <= 2 ^ 29.
Proof.
  intros Hw Hc Hd. unfold png_scanline_len. pose proof (uwrap_range 32 (il_width il * png_channels p * png_depth p + 7) ltac:(lia)) as Hr.
  assert (0 <= u32 (il_width il * png_channels p * png_depth p + 7) / 8 < 2 ^ 29)
    by (split; [apply Z.div_pos; lia|apply Z.div_lt_upper_bound; [lia|]; change (8 * 2 ^ 29) with (2 ^ 32); lia]).
  rewrite uwrap_small by lia. lia.
Qed.

(** The raw data of a context: bytes, as many as announced. *)
Definition raw_ok (p : png_context) : Prop := bytes_ok (ck_data (png_raw p)) /\ ck_len (png_raw p) = zlen (ck_data (png_raw p)).

(** What the header establishes about the format of a picture of less than 2^23
    pixels. *)
Record format_ok (p : png_context) (pb : pixel_buffer) : Prop := {
  fo_depth : exists k, 0 <= k <= 7 /\ png_depth p = 2 ^ k;
  fo_channels : png_channels p = if bits_set (png_colour_type p) PNG_COLOUR_TYPE_PALETTE then 1
    else 1 + (if bits_set (png_colour_type p) PNG_COLOUR_TYPE_RGB then 2 else 0) + (if bits_set (png_colour_type p) PNG_COLOUR_TYPE_ALPHA then 1 else 0);
  fo_passes : passes_ok (png_passes p);
  fo_palette : length (png_palette_ p) = 256%nat;
  fo_width : 0 <= pb_width pb < 2 ^ 32;
  fo_height : 0 <= pb_height pb < 2 ^ 32;
  fo_small : pb_width pb * pb_height pb < 2 ^ 23;
  fo_data : zlen (pb_data pb) = pb_width pb * pb_height pb * 4 }.

Lemma format_channels p pb : format_ok p pb -> 1 <= png_channels p <= 4.
Proof. intros H. rewrite (fo_channels _ _ H). repeat case_match; lia. Qed.

Lemma format_depth p pb : format_ok p pb -> 1 <= png_depth p <= 128.
Proof.
  intros H. destruct (fo_depth _ _ H) as (k & Hk & ->).
  pose proof (Z.pow_le_mono_r 2 0 k ltac:(lia) ltac:(lia)). pose proof (Z.pow_le_mono_r 2 k 7 ltac:(lia) ltac:(lia)). lia.
Qed.

Lemma format_same p q pb : same_format p q -> format_ok p pb -> format_ok q pb.
Proof. intros (_ & E1 & E2 & E3 & E4 & E5 & _) [H1 H2 H3 H4 H5 H6 H7 H8]. split; rewrite ?E1, ?E2, ?E3, ?E4, ?E5; done. Qed.

Lemma pass_dimensions p pb pass : format_ok p pb -> 0 <= pass < png_passes p ->
  0 <= il_width (png_interlace_pass p pb pass) < 2 ^ 32 /\ 0 <= il_height (png_interlace_pass p pb pass) < 2 ^ 32.
Proof.
  intros Hf Hpass. unfold png_interlace_pass. pose proof (interlace_grid (pb_width pb) (pb_height pb) _ pass (fo_passes _ _ Hf) Hpass) as H.
  destruct (pass_grid (png_passes p) pass) as [[[xi yi] xs] ys]. destruct H as (-> & Hx & Hy & _). cbn.
  assert (Hdiv : forall z s, 0 < s -> 0 <= u32 z / s < 2 ^ 32).
  { intros z s Hs. pose proof (uwrap_range 32 z ltac:(lia)). split; [apply Z.div_pos; lia|].
    apply Z.div_lt_upper_bound; [done|]. nia. }
  split; apply Hdiv; lia.
Qed.

Lemma pass_size_range p pb pass : format_ok p pb -> 0 <= pass < png_passes p -> 0 <= pass_size p pb pass <= 2 ^ 61.
Proof.
  intros Hf Hpass. unfold pass_size. destruct (pass_dimensions p pb pass Hf Hpass) as [Hw Hh].
  pose proof (format_channels _ _ Hf). pose proof (format_depth _ _ Hf).
  pose proof (scanline_len_pos p (png_interlace_pass p pb pass) ltac:(lia) ltac:(lia) ltac:(lia)).
  case_match; [lia|]. change (2 ^ 61) with (2 ^ 32 * 2 ^ 29). nia.
Qed.

Lemma passes_size_nonneg p pb passes : format_ok p pb -> Forall (fun pass => 0 <= pass < png_passes p) passes -> 0 <= passes_size p pb passes.
Proof.
  intros Hf. induction 1 as [|pass passes Hp Hps IH]; unfold passes_size in *; cbn [foldr]; [lia|].
  pose proof (pass_size_range p pb pass Hf Hp). lia.
Qed.

Lemma pixel_len_nonneg p : 0 <= png_pixel_len p.
Proof. unfold png_pixel_len. apply Z.div_pos; [apply uwrap_range; lia|lia]. Qed.

(** Unfiltering never leaves the raw data. *)
Lemma unfilter_passes_safe pb passes : forall p, format_ok p pb -> raw_ok p -> Forall (fun pass => 0 <= pass < png_passes p) passes ->
  0 <= ck_offset (png_raw p) -> ck_offset (png_raw p) + passes_size p pb passes <= ck_len (png_raw p) ->
  exists q rc, unfilter_passes passes pb p = Some (q, rc) /\ same_format p q /\ raw_ok q /\ ck_len (png_raw q) = ck_len (png_raw p)
    /\ match rc with Ok _ => ck_offset (png_raw q) = ck_offset (png_raw p) + passes_size p pb passes | Err _ => True end.
Proof.
  induction passes as [|pass passes IH]; intros p Hf Hraw Hps Hoff Hlen; cbn [unfilter_passes].
  { exists p, (Ok tt). cbn. rewrite Z.add_0_r. done. }
  apply Forall_cons in Hps as [Hp Hps]. unfold passes_size in Hlen. cbn [foldr] in Hlen. fold (passes_size p pb passes) in Hlen.
  pose proof (passes_size_nonneg p pb passes Hf Hps) as Hnn. unfold passes_size. cbn [foldr]. fold (passes_size p pb passes).
  destruct (pass_dimensions p pb pass Hf Hp) as [Hw Hh]. pose proof (format_channels _ _ Hf). pose proof (format_depth _ _ Hf).
  unfold pass_size in *. set (il := png_interlace_pass p pb pass) in *. destruct (Z.eqb_spec (il_width il) 0) as [E|E].
  { destruct (IH p Hf Hraw Hps Hoff ltac:(lia)) as (q & rc & -> & Hq). exists q, rc. rewrite Z.add_0_l. done. }
  pose proof (scanline_len_pos p il ltac:(lia) ltac:(lia) ltac:(lia)) as Hsl. destruct Hraw as [Hb Hl].
  destruct (unfilter_lines_safe (png_pixel_len p) (png_scanline_len p il) (Z.to_nat (il_height il)) (pixel_len_nonneg p) ltac:(lia)
    0 (ck_offset (png_raw p)) 0 (ck_data (png_raw p))) as (data & off & rc & E1 & Hl1 & Hb1 & Hrc); [lia|lia|lia|lia|done|].
  unfold png_unfilter_pass. rewrite E1. destruct rc as [[]|e].
  - set (q := set_png_raw (Chunk data off (ck_len (png_raw p))) p). assert (Hsame : same_format p q) by done.
    destruct (IH q) as (r & rc & -> & R1 & R2 & R3 & R4).
    + exact (format_same _ _ _ Hsame Hf).
    + split; [done|]. cbn. lia.
    + done.
    + cbn. lia.
    + rewrite (same_format_size p q) by done. cbn. lia.
    + exists r, rc. split; [done|]. split; [by transitivity q|]. split; [done|]. split; [done|]. destruct rc; [|done].
      rewrite R4, (same_format_size p q) by done. change (ck_offset (png_raw q)) with off. lia.
  - eexists _, _. split; [reflexivity|]. split; [done|]. split; [split; [done|cbn; lia]|]. done.
Qed.

(** ** Reading samples *)

(** After [k] samples of [d] bits of a row that starts at [off0]. *)
Definition sampler_at (d stride off0 k : Z) (s : sampler) : Prop :=
  sm_bits s = 8 - ((k - 1) * d) mod 8 /\ sm_offset s = off0 + stride * ((k * d + 7) / 8) /\ byte_ok (sm_current s).

Definition depth_ok (d : Z) : Prop := d = 1 \/ d = 2 \/ d = 4 \/ d = 8.

Lemma sampler_start d stride off0 cur : depth_ok d -> byte_ok cur -> sampler_at d stride off0 0 (Sampler cur d off0).
Proof. intros [-> | [-> | [-> | ->]]] Hc; (split; [reflexivity|]; split; [rewrite Z.mul_0_l; change ((0 + 7) / 8) with 0; cbn; lia|done]). Qed.

Lemma sample_range d cur : depth_ok d -> byte_ok cur -> 0 <= Z.shiftr cur (8 - d) < 2 ^ d.
Proof.
  intros Hd Hc. unfold byte_ok in Hc. rewrite Z.shiftr_div_pow2 by (destruct Hd as [-> | [-> | [-> | ->]]]; lia).
  destruct Hd as [-> | [-> | [-> | ->]]]; cbn; (split; [apply Z.div_pos; lia|apply Z.div_lt_upper_bound; lia]).
Qed.

(** One more sample needs a byte exactly when those before fill whole bytes. *)
Lemma sampler_arith d k : depth_ok d -> 0 <= k ->
  let bits := 8 - ((k - 1) * d) mod 8 - d in
  0 <= bits < 256 /\ (if bits =? 0 then (k * d) mod 8 = 0 /\ ((k + 1) * d + 7) / 8 = (k * d + 7) / 8 + 1
     else bits = 8 - (k * d) mod 8 /\ ((k + 1) * d + 7) / 8 = (k * d + 7) / 8).
Proof.
  intros Hd Hk bits. unfold bits. destruct Hd as [-> | [-> | [-> | ->]]];
  match goal with |- context [?b =? 0] => destruct (Z.eqb_spec b 0) end; Z.div_mod_to_equations; lia.
Qed.

Section Samples.
Context (d stride : Z) (raw : list Z).
Hypothesis d_ok : depth_ok d.
Hypothesis stride_pos : 1 <= stride.
Hypothesis raw_bytes : bytes_ok raw.

Lemma read_samples_safe n : forall k off0 s, sampler_at d stride off0 k s -> 0 <= k -> 0 <= off0 ->
  off0 + stride * (((k + Z.of_nat n) * d + 7) / 8) <= zlen raw ->
  exists s' samples, read_samples n d stride raw s = Some (s', samples) /\ sampler_at d stride off0 (k + Z.of_nat n) s'
    /\ length samples = n /\ Forall (fun x => 0 <= x < 2 ^ d) samples.
Proof.
  induction n as [|n IH]; intros k off0 s Hs Hk Hoff Hlen; cbn [read_samples].
  { exists s, []. rewrite Z.add_0_r. done. }
  destruct Hs as (Hb & Ho & Hc). pose proof (sampler_arith d k d_ok Hk) as [Hr Ha]. cbv zeta.
  rewrite Hb, uwrap_small by (change (2 ^ 32) with 4294967296; lia).
  assert (Hstep : exists s1, (if 8 - ((k - 1) * d) mod 8 - d =? 0
      then opt! b := mem_byte raw (sm_offset s) in Some (Sampler b 8 (sm_offset s + stride))
      else Some (Sampler (u8 (Z.shiftl (sm_current s) d)) (8 - ((k - 1) * d) mod 8 - d) (sm_offset s))) = Some s1
    /\ sampler_at d stride off0 (k + 1) s1).
  { destruct (8 - ((k - 1) * d) mod 8 - d =? 0) eqn:E.
    - destruct Ha as [H8 Hnext].
      assert (((k + 1) * d + 7) / 8 <= ((k + Z.of_nat (S n)) * d + 7) / 8)
        by (apply Z.div_le_mono; [lia|]; destruct d_ok as [-> | [-> | [-> | ->]]]; lia).
      assert (0 <= (k * d + 7) / 8) by (apply Z.div_pos; destruct d_ok as [-> | [-> | [-> | ->]]]; lia).
      destruct (mem_byte_inside raw (sm_offset s)) as (b & -> & Hlook); [nia|]. eexists. split; [reflexivity|].
      split; [cbn; rewrite Z.add_simpl_r; lia|]. split; [cbn; nia|exact (Forall_lookup_1 _ _ _ _ raw_bytes Hlook)].
    - destruct Ha as [Hbits Hnext]. eexists. split; [reflexivity|]. split; [cbn; rewrite Z.add_simpl_r; lia|]. split; [cbn; lia|].
      apply uwrap_range. lia. }
  destruct Hstep as (s1 & -> & Hs1). destruct (IH (k + 1) off0 s1 Hs1 ltac:(lia) Hoff) as (s2 & samples & -> & Hs2 & Hl & Hf).
  { replace (k + 1 + Z.of_nat n) with (k + Z.of_nat (S n)) by lia. done. }
  eexists _, _. split; [reflexivity|]. split; [by replace (k + Z.of_nat (S n)) with (k + 1 + Z.of_nat n) by lia|]. split; [cbn; lia|].
  apply Forall_cons. split; [|done]. apply sample_range; [done|apply Hs1].
Qed.
End Samples.

(** ** Filling pixels *)

Lemma pixel_value_some p pb max channel d : format_ok p pb -> depth_ok d -> zlen channel = png_channels p ->
  Forall (fun x => 0 <= x < 2 ^ d) channel -> exists pixel, pixel_value p max channel = Some pixel.
Proof.
  intros Hf Hd Hl Hr. pose proof (fo_channels _ _ Hf) as Hc. unfold pixel_value.
  assert (Hget : forall i, Z.of_nat i < png_channels p -> exists x, channel !! i = Some x).
  { intros i Hi. apply lookup_lt_is_Some. lia. }
  destruct (bits_set (png_colour_type p) PNG_COLOUR_TYPE_PALETTE).
  - destruct (Hget 0%nat) as [x Hx]; [lia|]. rewrite Hx. pose proof (Forall_lookup_1 _ _ _ _ Hr Hx) as Hxr. cbv beta in Hxr.
    unfold at_index. rewrite (proj2 (Z.ltb_ge _ _)) by lia. apply lookup_lt_is_Some. rewrite (fo_palette _ _ Hf).
    destruct Hd as [-> | [-> | [-> | ->]]]; cbn in Hxr; lia.
  - assert (Ha : exists alpha, (if bits_set (png_colour_type p) PNG_COLOUR_TYPE_ALPHA then at_index channel (png_channels p - 1) else Some max) = Some alpha).
    { destruct (bits_set (png_colour_type p) PNG_COLOUR_TYPE_ALPHA); [|by eexists]. unfold at_index.
      rewrite (proj2 (Z.ltb_ge _ _)) by (destruct (bits_set (png_colour_type p) PNG_COLOUR_TYPE_RGB); lia).
      apply lookup_lt_is_Some. destruct (bits_set (png_colour_type p) PNG_COLOUR_TYPE_RGB); lia. }
    destruct Ha as [alpha ->]. cbv zeta.
    destruct (Hget 0%nat) as [r ->]; [repeat case_match; lia|].
    destruct (Hget (if bits_set (png_colour_type p) PNG_COLOUR_TYPE_RGB then 1 else 0)%nat) as [g ->]; [repeat case_match; lia|].
    destruct (Hget (if bits_set (png_colour_type p) PNG_COLOUR_TYPE_RGB then 2 else 0)%nat) as [b ->]; [repeat case_match; lia|].
    by eexists.
Qed.

Lemma mem_write_some mem off bytes : 0 <= off -> off + zlen bytes <= zlen mem ->
  exists mem', mem_write mem off bytes = Some mem' /\ length mem' = length mem.
Proof. intros H1 H2. destruct (mem_write_split mem off bytes H1 H2) as (mem' & E & Hl & _). by exists mem'. Qed.

Section Rows.
Context (a : arch) (p : png_context) (pb : pixel_buffer) (d stride max : Z).
Hypothesis fo : format_ok p pb.
Hypothesis d_ok : depth_ok d.
Hypothesis stride_pos : 1 <= stride.
Hypothesis raw_bytes : bytes_ok (ck_data (png_raw p)).
Abbreviation raw := (ck_data (png_raw p)).

Lemma fill_row_safe xs n : 0 <= xs -> forall k off0 s offset pixels, sampler_at d stride off0 k s -> 0 <= k -> 0 <= off0 ->
  off0 + stride * (((k + Z.of_nat n * png_channels p) * d + 7) / 8) <= zlen raw ->
  0 <= offset -> (0 < Z.of_nat n -> offset + (Z.of_nat n - 1) * xs + 4 <= zlen pixels) -> zlen pixels < 2 ^ size_bits a ->
  exists s' pixels', fill_row a p d stride max n xs s offset pixels = Some (s', pixels')
    /\ sampler_at d stride off0 (k + Z.of_nat n * png_channels p) s' /\ length pixels' = length pixels.
Proof.
  intros Hxs. pose proof (format_channels _ _ fo) as Hch.
  induction n as [|n IH]; intros k off0 s offset pixels Hs Hk Hoff Hraw Ho Hpix Hsize; cbn [fill_row].
  { exists s, pixels. rewrite Z.mul_0_l, Z.add_0_r. done. }
  specialize (Hpix ltac:(lia)).
  assert (Hmono : ((k + Z.of_nat (Z.to_nat (png_channels p))) * d + 7) / 8 <= ((k + Z.of_nat (S n) * png_channels p) * d + 7) / 8).
  { apply Z.div_le_mono; [lia|]. destruct d_ok as [-> | [-> | [-> | ->]]]; nia. }
  destruct (read_samples_safe d stride raw d_ok stride_pos raw_bytes (Z.to_nat (png_channels p)) k off0 s Hs Hk Hoff) as (s1 & ch & -> & Hs1 & Hl & Hf).
  { nia. }
  destruct (pixel_value_some p pb max ch d fo d_ok ltac:(lia) Hf) as [pixel ->].
  destruct (mem_write_some pixels offset (le32 pixel)) as (pix1 & -> & Hpl); [lia|change (zlen (le32 pixel)) with 4; nia|].
  rewrite Z2Nat.id in Hs1 by lia.
  destruct n as [|n'].
  { exists s1, pix1. cbn [fill_row]. split; [done|]. split; [|done]. by rewrite Z.mul_1_l. }
  rewrite uwrap_small by nia.
  destruct (IH (k + png_channels p) off0 s1 (offset + xs) pix1 Hs1) as (s2 & pix2 & -> & Hs2 & Hl2).
  - lia.
  - lia.
  - replace (k + png_channels p + Z.of_nat (S n') * png_channels p) with (k + Z.of_nat (S (S n')) * png_channels p) by lia. done.
  - lia.
  - intros _. rewrite Hpl. lia.
  - lia.
  - exists s2, pix2. split; [done|]. split; [|congruence].
    by replace (k + Z.of_nat (S (S n')) * png_channels p) with (k + png_channels p + Z.of_nat (S n') * png_channels p) by lia.
Qed.

(** Bytes of a row of [w] pixels. *)
Definition row_bytes (w : Z) : Z := stride * ((w * png_channels p * d + 7) / 8).

Lemma fill_rows_safe w xs ys n : 0 <= xs -> 0 <= ys -> forall cur off offset pixels, byte_ok cur -> 0 <= off ->
  off + Z.of_nat n * (1 + row_bytes (Z.of_nat w)) <= zlen raw -> 0 <= offset -> (0 < w)%nat ->
  (0 < Z.of_nat n -> offset + (Z.of_nat n - 1) * ys + (Z.of_nat w - 1) * xs + 4 <= zlen pixels) -> zlen pixels < 2 ^ size_bits a ->
  exists pixels', fill_rows a p d stride max n w xs ys cur off offset pixels
    = Some (off + Z.of_nat n * (1 + row_bytes (Z.of_nat w)), pixels') /\ length pixels' = length pixels.
Proof.
  intros Hxs Hys. induction n as [|n IH]; intros cur off offset pixels Hc Hoff Hraw Ho Hw Hpix Hsize; cbn [fill_rows].
  { exists pixels. rewrite Z.mul_0_l, Z.add_0_r. done. }
  specialize (Hpix ltac:(lia)).
  assert (Hrb : 0 <= row_bytes (Z.of_nat w)).
  { unfold row_bytes. pose proof (format_channels _ _ fo). apply Z.mul_nonneg_nonneg; [lia|]. apply Z.div_pos; [|lia].
    destruct d_ok as [-> | [-> | [-> | ->]]]; nia. }
  destruct (fill_row_safe xs w Hxs 0 (off + 1) (Sampler cur d (off + 1)) offset pixels) as (s & pix1 & -> & Hs & Hl).
  - by apply sampler_start.
  - lia.
  - lia.
  - rewrite Z.add_0_l. unfold row_bytes in *. nia.
  - lia.
  - nia.
  - done.
  - rewrite Z.add_0_l in Hs. destruct Hs as (_ & Hso & Hsc). change (stride * ((Z.of_nat w * png_channels p * d + 7) / 8)) with (row_bytes (Z.of_nat w)) in Hso.
    rewrite Hso. destruct n as [|n'].
    { exists pix1. cbn [fill_rows]. split; [do 2 f_equal; lia|done]. }
    rewrite uwrap_small by nia. destruct (IH (sm_current s) (off + 1 + row_bytes (Z.of_nat w)) (offset + ys) pix1) as (pix2 & -> & Hl2).
    + done.
    + lia.
    + lia.
    + lia.
    + done.
    + intros _. rewrite Hl. lia.
    + lia.
    + exists pix2. split; [do 2 f_equal; lia|congruence].
Qed.
End Rows.

(** The depth in use and the bytes of a sample. *)
Lemma effective_depth p pb : format_ok p pb ->
  let depth := if 8 <? png_depth p then 8 else png_depth p in
  let stride := (png_depth p + 7) / 8 in
  depth_ok depth /\ 1 <= stride /\ forall n, 0 <= n -> stride * ((n * depth + 7) / 8) = (n * png_depth p + 7) / 8.
Proof.
  intros Hf. destruct (fo_depth _ _ Hf) as (k & Hk & ->). unfold depth_ok.
  assert (k = 0 \/ k = 1 \/ k = 2 \/ k = 3 \/ k = 4 \/ k = 5 \/ k = 6 \/ k = 7) as Hc by lia.
  repeat destruct Hc as [-> | Hc]; try subst k; cbv zeta;
  match goal with |- context [?x <? ?y] => let b := eval vm_compute in (x <? y) in change (x <? y) with b end; cbv iota;
  (split; [cbn; lia|]); (split; [vm_compute; discriminate|]); intros n Hn;
  match goal with |- ?s / 8 * _ = _ => let t := eval vm_compute in (s / 8) in change (s / 8) with t end;
  match goal with |- context [2 ^ ?m] => let t := eval vm_compute in (2 ^ m) in change (2 ^ m) with t end; Z.div_mod_to_equations; lia.
Qed.

(** Where a pass has pixels, the image is neither empty nor too large. *)
Lemma pass_inside p pb pass : format_ok p pb -> 0 <= pass < png_passes p ->
  let il := png_interlace_pass p pb pass in 0 < il_width il -> 0 < il_height il ->
  let W := pb_width pb in let H := pb_height pb in
  0 < W /\ 0 < H /\ W < 2 ^ 23 /\ il_width il <= W /\ 0 <= il_x_stride il <= 8 /\ 0 <= il_y_stride il <= 8
  /\ 0 <= il_x_indent il /\ 0 <= il_y_indent il
  /\ il_x_indent il + (il_width il - 1) * il_x_stride il < W /\ il_y_indent il + (il_height il - 1) * il_y_stride il < H.
Proof.
  intros Hf Hpass il Hw Hh W H. pose proof (interlace_grid W H _ pass (fo_passes _ _ Hf) Hpass) as Hg.
  change (interlace_of W H (png_passes p) pass) with il in Hg. destruct (pass_grid (png_passes p) pass) as [[[xi yi] xs] ys].
  destruct Hg as (E & Hx & Hy & Hxs & Hys). pose proof (fo_width _ _ Hf) as HW. pose proof (fo_height _ _ Hf) as HH. pose proof (fo_small _ _ Hf) as Hs.
  fold W H in HW, HH, Hs.
  assert (HW0 : 0 < W).
  { destruct (Z.eq_dec W 0) as [E0|]; [|lia]. rewrite E in Hw. cbn in Hw. rewrite E0, uwrap_small, Z.div_small in Hw; lia. }
  assert (HH0 : 0 < H).
  { destruct (Z.eq_dec H 0) as [E0|]; [|lia]. rewrite E in Hh. cbn in Hh. rewrite E0, uwrap_small, Z.div_small in Hh; lia. }
  assert (W < 2 ^ 23 /\ H < 2 ^ 23) as [HWs HHs] by nia.
  destruct (interlace_steps W H (png_passes p) pass (fo_passes _ _ Hf) Hpass) as (I1 & I2 & I3 & I4 & I5 & I6 & I7 & I8); [unfold sane; lia..|].
  change (interlace_of W H (png_passes p) pass) with il in *.
  pose proof (proj1 (I7 (il_width il - 1) ltac:(lia)) ltac:(lia)). pose proof (proj1 (I8 (il_height il - 1) ltac:(lia)) ltac:(lia)).
  repeat (split; [lia|]). split; [nia|]. lia.
Qed.

(** Scanlines are as long as their samples. *)
Lemma scanline_bytes p pb pass : format_ok p pb -> 0 <= pass < png_passes p ->
  let il := png_interlace_pass p pb pass in 0 < il_width il -> 0 < il_height il ->
  png_scanline_len p il = 1 + row_bytes p (if 8 <? png_depth p then 8 else png_depth p) ((png_depth p + 7) / 8) (il_width il).
Proof.
  intros Hf Hpass il Hw Hh. destruct (effective_depth p pb Hf) as (Hd & Hs & Hn). destruct (pass_inside p pb pass Hf Hpass Hw Hh) as (_ & _ & HW & Hle & _).
  fold il in Hle. pose proof (format_channels _ _ Hf). pose proof (format_depth _ _ Hf).
  unfold row_bytes. rewrite Hn by nia. unfold png_scanline_len.
  assert (0 <= il_width il * png_channels p <= 2 ^ 25 - 4) by nia.
  assert (0 <= il_width il * png_channels p * png_depth p <= 2 ^ 32 - 512) by nia.
  rewrite (uwrap_small 32 (il_width il * png_channels p * png_depth p + 7)) by lia.
  apply uwrap_small. assert (0 <= (il_width il * png_channels p * png_depth p + 7) / 8 < 2 ^ 29)
    by (split; [apply Z.div_pos; lia|apply Z.div_lt_upper_bound; lia]). lia.
Qed.

(** Filling a pass stays inside the raw data and the pixels. *)
Lemma pixels_pass_safe a p pb pass : format_ok p pb -> raw_ok p -> 0 <= pass < png_passes p ->
  let il := png_interlace_pass p pb pass in 0 < il_width il -> 0 <= ck_offset (png_raw p) ->
  ck_offset (png_raw p) + pass_size p pb pass <= ck_len (png_raw p) ->
  exists pixels, length pixels = length (pb_data pb) /\ png_pixels_pass a p pb il
    = Some (set_png_raw (set_ck_offset (ck_offset (png_raw p) + pass_size p pb pass) (png_raw p)) p,
            PixBuf (pb_width pb) (pb_height pb) pixels (pb_len pb)).
Proof.
  intros Hf [Hb Hl] Hpass il Hw Hoff Hlen. unfold pass_size in *. fold il in Hlen |- *.
  destruct (pass_dimensions p pb pass Hf Hpass) as [_ Hh]. fold il in Hh.
  destruct (Z.eqb_spec (il_width il) 0) as [|_]; [lia|].
  unfold png_pixels_pass. destruct (Z.eq_dec (il_height il) 0) as [E0|Hh0].
  { rewrite E0. cbn [Z.to_nat fill_rows]. exists (pb_data pb). rewrite Z.mul_0_l, Z.add_0_r. done. }
  destruct (pass_inside p pb pass Hf Hpass Hw ltac:(fold il; lia)) as (HW & HH & HW' & Hle & Hxs & Hys & Hxi & Hyi & Hx & Hy). fold il in Hle, Hxs, Hys, Hxi, Hyi, Hx, Hy.
  pose proof (scanline_bytes p pb pass Hf Hpass Hw ltac:(fold il; lia)) as Hsl. fold il in Hsl. rewrite Hsl in *. clear Hsl.
  destruct (effective_depth p pb Hf) as (Hd & Hs & _). pose proof (fo_small _ _ Hf) as Hsmall. pose proof (fo_data _ _ Hf) as Hdata.
  pose proof (size_bits_large a) as Hsb. pose proof (Z.pow_le_mono_r 2 32 (size_bits a) ltac:(lia) ltac:(lia)) as Hp32.
  set (W := pb_width pb) in *. set (H := pb_height pb) in *.
  assert (0 <= (il_height il - 1) * il_y_stride il /\ 0 <= (il_width il - 1) * il_x_stride il) as [Hdy Hdx] by (split; apply Z.mul_nonneg_nonneg; lia).
  assert (Hin : (il_y_indent il + (il_height il - 1) * il_y_stride il) * W <= (H - 1) * W) by (apply Z.mul_le_mono_nonneg_r; lia).
  assert (Hdyw : 0 <= (il_height il - 1) * il_y_stride il * W) by (apply Z.mul_nonneg_nonneg; lia).
  assert (Hyw : 0 <= il_y_indent il * W) by (apply Z.mul_nonneg_nonneg; lia).
  assert (0 <= il_y_indent il * W + il_x_indent il < W * H) by lia.
  assert (0 <= il_y_stride il * W <= 8 * W) by (split; [apply Z.mul_nonneg_nonneg; lia|apply Z.mul_le_mono_nonneg_r; lia]).
  rewrite (uwrap_small 32 (il_y_indent il * W + il_x_indent il)), (uwrap_small 32 (il_y_stride il * W)) by lia.
  rewrite !(uwrap_small (size_bits a)) by lia.
  destruct (fill_rows_safe a p pb _ _ (Z.shiftl 1 (if 8 <? png_depth p then 8 else png_depth p) - 1) Hf Hd Hs Hb (Z.to_nat (il_width il)) (il_x_stride il * 4) (il_y_stride il * W * 4)
    (Z.to_nat (il_height il)) ltac:(lia) ltac:(lia) 0 (ck_offset (png_raw p)) ((il_y_indent il * W + il_x_indent il) * 4) (pb_data pb)) as (pixels & E & Hpl).
  - unfold byte_ok. lia.
  - lia.
  - rewrite !Z2Nat.id by lia. lia.
  - lia.
  - lia.
  - intros _. rewrite !Z2Nat.id by lia. rewrite Hdata. lia.
  - lia.
  - rewrite E. exists pixels. rewrite !Z2Nat.id by lia. done.
Qed.

Lemma pixels_passes_safe a passes : forall p pb, format_ok p pb -> raw_ok p -> Forall (fun pass => 0 <= pass < png_passes p) passes ->
  0 <= ck_offset (png_raw p) -> ck_offset (png_raw p) + passes_size p pb passes <= ck_len (png_raw p) ->
  exists pixels, length pixels = length (pb_data pb) /\ pixels_passes a passes pb p
    = Some (set_png_raw (set_ck_offset (ck_offset (png_raw p) + passes_size p pb passes) (png_raw p)) p,
            PixBuf (pb_width pb) (pb_height pb) pixels (pb_len pb)).
Proof.
  induction passes as [|pass passes IH]; intros p pb Hf Hraw Hps Hoff Hlen; cbn [pixels_passes].
  { exists (pb_data pb). cbn [passes_size foldr]. rewrite Z.add_0_r. destruct p as [? ? ? ? ? ? ? [] ?], pb. done. }
  apply Forall_cons in Hps as [Hp Hps]. unfold passes_size in Hlen |- *. cbn [foldr] in Hlen |- *. fold (passes_size p pb passes) in Hlen |- *.
  pose proof (passes_size_nonneg p pb passes Hf Hps) as Hnn. pose proof (pass_size_range p pb pass Hf Hp) as Hps0.
  destruct (pass_dimensions p pb pass Hf Hp) as [Hw _].
  destruct (Z.eqb_spec (il_width (png_interlace_pass p pb pass)) 0) as [E|E].
  { assert (E0 : pass_size p pb pass = 0) by (unfold pass_size; by rewrite (proj2 (Z.eqb_eq _ 0) E)).
    rewrite E0, Z.add_0_l in *. by apply IH. }
  destruct (pixels_pass_safe a p pb pass Hf Hraw Hp ltac:(lia) Hoff ltac:(lia)) as (pixels & Hpl & ->).
  set (q := set_png_raw _ p). set (pb' := PixBuf _ _ pixels _).
  assert (Hsz : passes_size q pb' passes = passes_size p pb passes) by reflexivity.
  destruct (IH q pb') as (pixels' & Hpl' & ->).
  - destruct Hf as [F1 F2 F3 F4 F5 F6 F7 F8]. split; try done. cbn. congruence.
  - exact Hraw.
  - exact Hps.
  - cbn. lia.
  - rewrite Hsz. cbn. lia.
  - exists pixels'. split; [cbn in Hpl'; congruence|]. rewrite Hsz. cbn. by rewrite Z.add_assoc.
Qed.

(** No overflow in the size of the raw data on a 64-bit target. *)
Lemma raw_len_spec passes pb p : format_ok p pb -> Forall (fun pass => 0 <= pass < png_passes p) passes ->
  forall len, 0 <= len -> len + passes_size p pb passes < 2 ^ 64 -> raw_len Arch64 passes pb p len = len + passes_size p pb passes.
Proof.
  intros Hf. induction 1 as [|pass passes Hp Hps IH]; intros len Hlen Hfit; cbn [raw_len]; [cbn; lia|].
  unfold passes_size in Hfit |- *. cbn [foldr] in Hfit |- *. fold (passes_size p pb passes) in Hfit |- *.
  pose proof (passes_size_nonneg p pb passes Hf Hps) as Hnn. pose proof (pass_size_range p pb pass Hf Hp) as Hps0.
  unfold pass_size in *. revert Hfit Hps0. cbv zeta. destruct (Z.eqb_spec (il_width (png_interlace_pass p pb pass)) 0) as [E|E];
    intros Hfit Hps0; [rewrite IH by lia; lia|].
  change (size_bits Arch64) with 64. rewrite (uwrap_small 64 (il_height _ * _)) by lia. rewrite uwrap_small by lia. rewrite IH by lia. lia.
Qed.

(** ** Component values are bytes, as the code asserts *)

Lemma opaque_values : forallb (fun d => let max := 2 ^ d - 1 in forallb (fun raw =>
    png_pixel raw max max =? 255 * raw / max) (seqZ 0 (2 ^ d))) [1; 2; 4; 8] = true.
Proof. vm_compute. reflexivity. Qed.

(** At full opacity the value is the sample scaled to eight bits. *)
Lemma png_pixel_range d raw alpha : depth_ok d -> 0 <= raw < 2 ^ d -> 0 <= alpha < 2 ^ d ->
  0 <= png_pixel raw alpha (2 ^ d - 1) <= 255 /\ png_pixel raw (2 ^ d - 1) (2 ^ d - 1) = 255 * raw / (2 ^ d - 1).
Proof.
  intros Hd Hr Ha. split.
  - assert (1 <= 2 ^ d - 1 <= 255) as Hmax by (destruct Hd as [-> | [-> | [-> | ->]]]; cbn; lia).
    set (max := 2 ^ d - 1) in *. unfold png_pixel.
    assert (0 <= raw * alpha <= max * max) by nia. rewrite (uwrap_small 32 (0xff00 * raw * alpha)) by nia.
    rewrite Z.div_div by lia.
    assert (0 <= 0xff00 * raw * alpha / (max * max) <= 0xff00).
    { split; [apply Z.div_pos; nia|]. apply Z.div_le_upper_bound; nia. }
    rewrite uwrap_small by lia. rewrite Z.shiftr_div_pow2 by lia. change (2 ^ 8) with 256. Z.div_mod_to_equations. lia.
  - pose proof opaque_values as H. rewrite forallb_forall in H.
    specialize (H d ltac:(destruct Hd as [-> | [-> | [-> | ->]]]; cbn; tauto)). cbv zeta beta in H.
    rewrite forallb_forall in H. specialize (H raw ltac:(apply list_elem_of_In, elem_of_seqZ; lia)). by apply Z.eqb_eq in H.
Qed.

Lemma png_interlace_partition_witness :
  exists pass i j, in_pass 5 3 7 4 2 pass i j /\ forall pass' i' j', in_pass 5 3 7 4 2 pass' i' j' -> pass' = pass /\ i' = i /\ j' = j.
Proof.
  apply (png_interlace_partition 5 3 7); [right; reflexivity|unfold sane; lia|unfold sane; lia|lia|lia].
Defined.
