(* ===== verification/PngReader.v ===== *)
(** * Reading a PNG image from the first chunk to the last

    The reader keeps an invariant between the chunks, whatever they contain:
    the decompressor is usable, and once there is a pixel buffer its size and
    the size of the raw data fit the format.  So no chunk makes it access
    anything outside the file, the palette, the raw data or the pixels. *)
From S2P Require Import Prelude Strings Memory Deflate DeflateSpec DeflateBits DeflateOutput DeflateCorrect DeflateStream DeflateBytes Extract Png PngSafe.

Lemma mem_read_inside mem off len : 0 <= off -> 0 <= len -> off + len <= zlen mem ->
  mem_read mem off len = Some (take (Z.to_nat len) (drop (Z.to_nat off) mem)).
Proof. intros H1 H2 H3. unfold mem_read. rewrite (proj2 (Z.leb_le _ _) H1), (proj2 (Z.leb_le _ _) H2), (proj2 (Z.leb_le _ _) H3). done. Qed.

Lemma usable_mono data0 len c c' d oc : c <= c' -> usable data0 len c d oc -> usable data0 len c' d oc.
Proof.
  intros Hc Hus in_ ys Hin Hys Hfit. destruct (Hus in_ ys Hin Hys ltac:(lia)) as (B & d0 & out & v & E & Hv & H).
  exists B, d0, out, v. split; [done|]. split; [lia|done].
Qed.

Lemma usable_init : usable [] 0 0 (deflate_init DEFLATE_ZLIB) (Chunk [] 0 0).
Proof.
  apply (usable_start [] 0 (Nat.le_refl 0) [] (deflate_init DEFLATE_ZLIB) []); try done; [cbn; lia|].
  split; try done. apply Forall_replicate. unfold byte_ok. lia.
Qed.

(** All passes. *)
Lemma all_passes p : Forall (fun pass => 0 <= pass < png_passes p) (seqZ 0 (png_passes p)).
Proof. apply Forall_forall. intros x Hx. apply elem_of_seqZ in Hx. lia. Qed.

Lemma passes_size_le p pb passes : format_ok p pb -> Forall (fun pass => 0 <= pass < png_passes p) passes ->
  passes_size p pb passes <= 2 ^ 61 * zlen passes.
Proof.
  intros Hf. induction 1 as [|pass passes Hp Hps IH]; unfold passes_size in *; cbn [foldr length]; [lia|].
  pose proof (pass_size_range p pb pass Hf Hp). lia.
Qed.

(** Depths are powers of two. *)
Lemma depth_powers : forallb (fun z => implb (negb ((z =? 0) || negb (Z.land z (z - 1) =? 0)))
    (existsb (fun k => z =? 2 ^ k) (seqZ 0 8))) (seqZ 0 256) = true.
Proof. vm_compute. reflexivity. Qed.

Lemma depth_power z : byte_ok z -> (z =? 0) || negb (Z.land z (z - 1) =? 0) = false -> exists k, 0 <= k <= 7 /\ z = 2 ^ k.
Proof.
  intros Hb Hz. pose proof (range_check 0 256 _ depth_powers z ltac:(unfold byte_ok in Hb; lia)) as H. cbv beta in H.
  rewrite Hz in H. apply existsb_exists in H as (k & Hk & E). apply list_elem_of_In, elem_of_seqZ in Hk. exists k. lia.
Qed.

(** An IHDR chunk with its data at [off], and the size of the picture that it
    announces. *)
Definition ihdr_at (image : list Z) (off width height : Z) : Prop :=
  exists header ihdr, mem_read image (off - 8) 8 = Some header /\ be_val (drop 4 header) = PNG_TYPE_IHDR
    /\ mem_read image off 13 = Some ihdr /\ width = be_val (take 4 ihdr) /\ height = be_val (take 4 (drop 4 ihdr)).

(** No picture that the file announces has 2^23 pixels or more. *)
Definition small_pictures (image : list Z) : Prop :=
  forall off width height, ihdr_at image off width height -> width * height < 2 ^ 23.

Section Chunks.
Context (alloc_struct : bool) (umalloc_pixbuf umalloc_raw : Z -> option (list Z)) (image : list Z).
(** Blocks of memory are as large as asked for. *)
Hypothesis pixbuf_memory : forall len data, umalloc_pixbuf len = Some data -> zlen data = len.
Hypothesis raw_memory : forall len data, umalloc_raw len = Some data -> zlen data = len /\ bytes_ok data.
Hypothesis image_bytes : bytes_ok image.
Hypothesis image_size : zlen image < 2 ^ 32.
Hypothesis image_small : small_pictures image.

(** [c] bounds the size of the decompressed data. *)
Record reader_ok (c : Z) (p : png_context) : Prop := {
  ro_palette : length (png_palette_ p) = 256%nat;
  ro_raw : raw_ok p;
  ro_raw_offset : 0 <= ck_offset (png_raw p);
  ro_usable : exists data0, length data0 = length (ck_data (png_raw p)) /\ usable data0 (length data0) c (png_deflate p) (png_raw p);
  ro_pixbuf : match png_pixbuf_ p with
              | None => ck_len (png_raw p) = 0
              | Some pb => format_ok p pb /\ pb_len pb = zlen (pb_data pb)
                           /\ ck_len (png_raw p) = passes_size p pb (seqZ 0 (png_passes p))
              end;
  ro_ihdr : match png_pixbuf_ p with
            | None => True
            | Some pb => exists off, ihdr_at image off (pb_width pb) (pb_height pb)
            end }.

Lemma alloc_pixbuf_ok width height pb : 0 <= width < 2 ^ 32 -> 0 <= height < 2 ^ 32 -> width * height < 2 ^ 23 ->
  alloc_pixbuf Arch64 alloc_struct umalloc_pixbuf width height = Some pb ->
  exists data, pb = PixBuf width height data (zlen data) /\ zlen data = width * height * 4.
Proof.
  intros Hw Hh Hsmall. unfold alloc_pixbuf. case_match; [done|]. change (size_bits Arch64) with 64.
  pose proof (uwrap_range 32 (width * height) ltac:(lia)) as Hr. rewrite uwrap_small by lia.
  rewrite Z.div_mul by lia. case_match eqn:Hg; [done|]. destruct (umalloc_pixbuf _) as [data|] eqn:Hm; [|done]. intros [= <-].
  apply pixbuf_memory in Hm as Hl.
  assert (E : u32 (width * height) = width * height) by (apply uwrap_small; nia).
  rewrite E in *. exists data. split; [by rewrite Hl|lia].
Qed.

(** ** Each kind of chunk *)

(** What a chunk leaves behind. *)
Definition chunk_result (c : Z) (p : png_context) (r : option (png_context * res unit)) : Prop :=
  exists q rc, r = Some (q, rc) /\ match rc with Ok _ => reader_ok c q /\ png_offset q = png_offset p | Err _ => True end.

Lemma reader_ok_mono c c' p : c <= c' -> reader_ok c p -> reader_ok c' p.
Proof.
  intros Hc [H1 H2 H3 (data0 & Hl & H4) H5 H6]. split; try done. exists data0. split; [done|]. by apply (usable_mono _ _ c).
Qed.

Lemma png_palette_ok c p len : reader_ok c p -> 0 <= png_offset p -> png_offset p + len <= zlen image ->
  chunk_result c p (png_palette image p len).
Proof.
  intros Hr Ho Hlen. assert (Hloop : forall n i off l pal, Z.of_nat n + i = 256 -> 0 <= i -> 0 <= off -> off + l <= zlen image -> length pal = 256%nat ->
    exists pal', palette_loop n i image off l pal = Some pal' /\ length pal' = 256%nat).
  { induction n as [|n IH]; intros i off l pal Hn Hi Hoff Hl Hpal; cbn [palette_loop]; [by exists pal|].
    destruct (Z.ltb_spec l 3); [by exists pal|]. rewrite mem_read_inside by lia.
    assert (length (take (Z.to_nat 3) (drop (Z.to_nat off) image)) = 3%nat) as Hl3 by (rewrite length_take, length_drop; lia).
    destruct (take _ _) as [|r [|g [|b [|]]]]; try discriminate Hl3. unfold set_index.
    destruct (Z.ltb_spec i 0), (Z.leb_spec (zlen pal) i); cbn [orb]; try lia.
    apply IH; try lia. by rewrite length_insert. }
  destruct (Hloop PNG_PALETTE_COUNT 0 (png_offset p) len (png_palette_ p)) as (pal & E & Hpal); [done|lia|lia|lia|apply (ro_palette _ _ Hr)|].
  unfold png_palette. rewrite E. eexists _, _. split; [reflexivity|]. split; [|done]. destruct Hr as [H1 H2 H3 H4 H5 H8].
  split; try done. cbn. destruct (png_pixbuf_ p); [|done]. destruct H5 as ([] & H6 & H7). split; [by split|]. done.
Qed.

Lemma png_image_data_ok c p len : reader_ok c p -> 0 <= png_offset p -> 0 <= len -> png_offset p + len <= zlen image ->
  c + 2064 * len < 2 ^ 64 -> chunk_result (c + 2064 * len + 8256) p (png_image_data Arch64 image p len).
Proof.
  intros [H1 [Hb Hl] H3 (data0 & Hd0 & Hus) H5 H8] Ho Hlen Hin Hc. unfold png_image_data. set (in_ := Chunk image _ _).
  assert (Hok : chunk_ok in_) by (split; cbn; [lia|lia|lia|done]).
  assert (Hrest : zlen (rest in_) = len) by (rewrite rest_length by done; cbn; lia).
  destruct (usable_inflate data0 (length data0) (Nat.le_refl _) c (png_deflate p) (png_raw p) in_ Hus Hok ltac:(lia))
    as (d' & in' & raw' & rc & E & (out & Hout & _) & Hrc).
  pose proof (deflate_inflate_bytes Arch64 _ in_ _ _ _ _ _ image_bytes Hb E) as Hb'. rewrite Hrest in Hrc. rewrite E.
  unfold out_ok in Hout. pose proof (f_equal ck_len Hout) as El. pose proof (f_equal (fun c => length (ck_data c)) Hout) as Ed. cbn in El, Ed.
  rewrite overlay_length in Ed by done. pose proof (f_equal ck_offset Hout) as Eo. cbn in Eo.
  eexists _, _. split; [reflexivity|]. destruct rc as [[]|]; [|done]. split; [|done].
  split; cbn; try done; [split; [done|cbn; lia]|lia|by exists data0|].
  destruct (png_pixbuf_ p); [|cbn in *; lia]. destruct H5 as ([] & F1 & F2). split; [by split|]. split; [done|].
  rewrite El, Hd0, <- Hl, F2. reflexivity.
Qed.

Lemma png_image_header_ok c p len header : reader_ok c p -> 0 <= png_offset p -> png_offset p + len <= zlen image ->
  mem_read image (png_offset p - 8) 8 = Some header -> be_val (drop 4 header) = PNG_TYPE_IHDR ->
  chunk_result c p (png_image_header Arch64 alloc_struct umalloc_pixbuf umalloc_raw image p len).
Proof.
  intros [H1 [Hb Hl] H3 (data0 & Hd0 & Hus) H5 _] Ho Hin Hhdr Htype. unfold png_image_header.
  destruct (Z.eqb_spec len 13) as [->|]; cbn [negb]; [|by eexists _, _].
  destruct (png_pixbuf_ p); [by eexists _, _|]. assert (Emem := mem_read_inside image (png_offset p) 13 Ho ltac:(lia) ltac:(lia)). rewrite Emem. set (ihdr := take _ _) in *.
  assert (Hihdr : length ihdr = 13%nat) by (unfold ihdr; rewrite length_take, length_drop; lia).
  assert (Hbytes : bytes_ok ihdr) by (by apply Forall_take, Forall_drop).
  pose proof (be_val_range (take 4 ihdr) ltac:(by apply Forall_take)) as Hw.
  pose proof (be_val_range (take 4 (drop 4 ihdr)) ltac:(by apply Forall_take, Forall_drop)) as Hh.
  rewrite !length_take in Hw, Hh. rewrite length_drop, Hihdr in Hh. rewrite Hihdr in Hw. cbn in Hw, Hh.
  change (256 ^ Z.of_nat 4) with (2 ^ 32) in Hw, Hh. set (width := be_val (take 4 ihdr)) in *. set (height := be_val (take 4 (drop 4 ihdr))) in *.
  assert (Hann : ihdr_at image (png_offset p) width height) by (by exists header, ihdr). pose proof (image_small _ _ _ Hann) as Hsmall.
  assert (Hbt : bytes_ok (drop 8 ihdr)) by (by apply Forall_drop).
  assert (Hlt : length (drop 8 ihdr) = 5%nat) by (rewrite length_drop; lia).
  destruct (drop 8 ihdr) as [|depth [|colour [|compression [|filter [|interlace [|]]]]]]; try discriminate Hlt.
  unfold bytes_ok in Hbt. rewrite !Forall_cons in Hbt. destruct Hbt as (Bd & _ & _ & _ & Bi & _).
  case_match; [by eexists _, _|]. case_match; [by eexists _, _|]. destruct (Z.leb_spec PNG_INTERLACE_UNKNOWN interlace) as [|Hi]; [by eexists _, _|].
  destruct (alloc_pixbuf _ _ _ _ _) as [pb|] eqn:Hpb; [|by eexists _, _].
  destruct (alloc_pixbuf_ok width height pb Hw Hh Hsmall Hpb) as (data & -> & Hdata).
  case_match eqn:Hdep; [by eexists _, _|].
  assert (exists passes, at_index png_interlace_passes interlace = Some passes /\ passes_ok passes) as (passes & -> & Hpasses).
  { unfold byte_ok in Bi. unfold PNG_INTERLACE_UNKNOWN in Hi. assert (interlace = 0 \/ interlace = 1) as [-> | ->] by lia;
      [exists 1|exists 7]; (split; [reflexivity|unfold passes_ok; lia]). }
  cbv zeta. set (pb := PixBuf width height data _). set (q := set_png_format depth colour _ passes _).
  assert (Hf : format_ok q pb).
  { split; try done. by apply depth_power. }
  assert (Hlen : raw_len Arch64 (seqZ 0 passes) pb q (ck_len (png_raw q)) = passes_size q pb (seqZ 0 (png_passes q))).
  { change (ck_len (png_raw q)) with (ck_len (png_raw p)). rewrite H5, (raw_len_spec (seqZ 0 passes) pb q Hf (all_passes q)); [done|lia|]. pose proof (passes_size_le q pb _ Hf (all_passes q)) as Hle.
    rewrite length_seqZ in Hle. change (png_passes q) with passes in *. destruct Hpasses as [-> | ->]; cbn in Hle |- *; lia. }
  rewrite Hlen. destruct (umalloc_raw _) as [raw|] eqn:Hraw; [|by eexists _, _]. apply raw_memory in Hraw as [Hrl Hrb].
  pose proof (usable_move data0 (length data0) raw (length raw) c _ _ (Nat.le_refl _) Hus) as Hm. rewrite Hrl in Hm.
  eexists _, _. split; [reflexivity|]. split; [|done]. split; [done|by split|done|by exists raw| |by exists (png_offset p)].
  split; [|done]. destruct Hf. by split.
Qed.

Lemma png_image_end_ok c p len : reader_ok c p ->
  exists q rc, png_image_end Arch64 p len = Some (q, rc)
    /\ match rc with Ok _ => reader_ok c q /\ png_offset q = png_offset p /\ is_Some (png_pixbuf_ q) | Err _ => True end.
Proof.
  intros [H1 [Hb Hl] H3 (data0 & Hd0 & Hus) H5 H8]. unfold png_image_end.
  destruct (negb (len =? 0)); [by eexists _, _|]. destruct (png_pixbuf_ p) as [pb|]; [|by eexists _, _]. destruct H5 as (Hf & Hpl & Hlen).
  destruct (negb (deflate_finished _)); [by eexists _, _|]. destruct (Z.eqb_spec (ck_offset (png_raw p)) (ck_len (png_raw p))) as [Eo|];
    cbn [negb]; [|by eexists _, _].
  unfold png_unfilter. set (p0 := set_png_raw _ p).
  destruct (unfilter_passes_safe pb (seqZ 0 (png_passes p)) p0) as (p1 & rc & -> & Hs1 & [Hb1 Hl1] & Hlen1 & Hrc).
  { apply (format_same p p0); done. }
  { by split. }
  { exact (all_passes p). }
  { done. }
  { change (passes_size p0 pb) with (passes_size p pb). cbn. lia. }
  destruct rc as [[]|]; [|by eexists _, _]. unfold png_pixels. set (p2 := set_png_raw _ p1).
  assert (Hs2 : same_format p p2) by (unfold same_format in Hs1 |- *; exact Hs1). pose proof (format_same _ _ _ Hs2 Hf) as Hf2.
  assert (Hsz : passes_size p2 pb (seqZ 0 (png_passes p2)) = ck_len (png_raw p)).
  { rewrite (same_format_size p p2 pb _ Hs2), Hlen. destruct Hs2 as (_ & _ & _ & _ & -> & _). done. }
  destruct (pixels_passes_safe Arch64 (seqZ 0 (png_passes p2)) p2 pb Hf2) as (pixels & Hpix & Epix).
  { by split. }
  { apply all_passes. }
  { done. }
  { rewrite Hsz. change (ck_offset (png_raw p2)) with 0. change (ck_len (png_raw p2)) with (ck_len (png_raw p1)). rewrite Hlen1. cbn. lia. }
  change (png_passes p1) with (png_passes p2). rewrite Epix, Hsz. change (ck_offset (png_raw p2)) with 0. rewrite Z.add_0_l.
  change (ck_len (png_raw p0)) with (ck_len (png_raw p)) in Hlen1.
  destruct Hs2 as (E1 & E2 & E3 & E4 & E5 & E6 & E7 & E8).
  pose proof (usable_move data0 _ (ck_data (png_raw p1)) _ c _ _ (Nat.le_refl _) Hus) as Hm. rewrite Eo, <- Hl1, Hlen1 in Hm.
  eexists _, _. split; [reflexivity|]. split; [|done]. split.
  - by etransitivity; [exact (f_equal length E6)|].
  - by split.
  - cbn. lia.
  - exists (ck_data (png_raw p1)). split; [done|]. cbn. change (png_deflate p1) with (png_deflate p2). rewrite E7. unfold set_ck_offset. cbn. by rewrite Hlen1.
  - destruct Hf2. split; [split; try done; cbn; congruence|]. split; [cbn; congruence|]. cbn. rewrite Hlen1, <- Hsz. done.
  - done.
Qed.

(** ** All chunks *)

Lemma png_chunk_ok c p header type len : mem_read image (png_offset p - 8) 8 = Some header -> type = be_val (drop 4 header) -> reader_ok c p -> 0 <= png_offset p -> 0 <= len -> png_offset p + len <= zlen image -> 0 <= c ->
  c + 2064 * len < 2 ^ 64 ->
  exists q rc, png_chunk Arch64 alloc_struct umalloc_pixbuf umalloc_raw image p type len = Some (q, rc)
    /\ match rc with
       | Ok _ => reader_ok (c + 2064 * len + 8256) q /\ png_offset q = png_offset p /\ (type = PNG_TYPE_IEND -> is_Some (png_pixbuf_ q))
       | Err _ => True
       end.
Proof.
  intros Hhdr Htype Hr Ho Hlen Hin Hc Hfit. unfold png_chunk.
  assert (Hlift : forall r, type <> PNG_TYPE_IEND -> chunk_result (c + 2064 * len + 8256) p r -> exists q rc, r = Some (q, rc)
    /\ match rc with
       | Ok _ => reader_ok (c + 2064 * len + 8256) q /\ png_offset q = png_offset p /\ (type = PNG_TYPE_IEND -> is_Some (png_pixbuf_ q))
       | Err _ => True
       end).
  { intros r Ht (q & rc & -> & H). exists q, rc. split; [done|]. destruct rc; [|done]. destruct H as [H1 H2]. split; [done|]. split; [done|]. intros E. by destruct (Ht E). }
  pose proof (reader_ok_mono c (c + 2064 * len + 8256) p ltac:(lia) Hr) as Hr'.
  destruct (Z.eqb_spec type PNG_TYPE_IHDR) as [E|]; [apply Hlift; [by rewrite E|]; apply (png_image_header_ok _ _ _ header); [done|done|done|done|congruence]|].
  destruct (Z.eqb_spec type PNG_TYPE_PLTE) as [->|]; [by apply Hlift, png_palette_ok|].
  destruct (Z.eqb_spec type PNG_TYPE_IDAT) as [->|]; [by apply Hlift, png_image_data_ok|].
  destruct (Z.eqb_spec type PNG_TYPE_IEND) as [->|].
  { destruct (png_image_end_ok _ p len Hr') as (q & rc & -> & H). exists q, rc. split; [done|]. destruct rc; [|done]. destruct H as (? & ? & ?). done. }
  apply Hlift; [done|]. case_match; by eexists _, _.
Qed.

(** A picture of the size that an IHDR chunk announces. *)
Definition picture_ok (pb : pixel_buffer) : Prop :=
  (exists off, ihdr_at image off (pb_width pb) (pb_height pb))
  /\ pb_len pb = pb_width pb * pb_height pb * 4 /\ zlen (pb_data pb) = pb_len pb.

Lemma chunks_loop_ok fuel : forall p, zlen image < png_offset p + Z.of_nat fuel -> 8 <= png_offset p <= zlen image ->
  reader_ok (2064 * png_offset p) p ->
  exists r, chunks_loop Arch64 alloc_struct umalloc_pixbuf umalloc_raw fuel image p = Some r
    /\ match r with Ok pb => picture_ok pb | Err _ => True end.
Proof.
  induction fuel as [|fuel IH]; intros p Hfuel Ho Hr; cbn [chunks_loop]; [lia|].
  change (size_bits Arch64) with 64. rewrite uwrap_small by lia. destruct (Z.ltb_spec (zlen image - png_offset p) (8 + 4)); [by eexists|].
  rewrite mem_read_inside by lia. set (header := take (Z.to_nat 8) _).
  assert (Hb : bytes_ok (take 4 header)) by (by apply Forall_take, Forall_take, Forall_drop).
  pose proof (proj1 (be_val_range _ Hb)) as Hlen. set (len := be_val (take 4 header)) in *. set (type := be_val (drop 4 header)).
  destruct (Z.ltb_spec (zlen image - png_offset p - 8 - 4) len); [by eexists|].
  set (p0 := set_png_offset _ p).
  assert (Hr0 : reader_ok (2064 * png_offset p) p0).
  { destruct Hr as [H1 H2 H3 H4 H5 H8]. split; try done. cbn. destruct (png_pixbuf_ p); [|done]. destruct H5 as ([] & ? & ?). split; [by split|done]. }
  assert (Hhdr : mem_read image (png_offset p0 - 8) 8 = Some header).
  { change (png_offset p0) with (png_offset p + 8). rewrite Z.add_simpl_r. apply mem_read_inside; lia. }
  destruct (png_chunk_ok _ p0 header type len Hhdr eq_refl Hr0) as (q & rc & -> & Hq); [cbn; lia|lia|cbn; lia|lia|lia|].
  destruct rc as [[]|e]; [|by eexists]. destruct Hq as (Hq & Eoff & Hend). cbn [png_offset] in Eoff. cbn in Eoff.
  set (q' := set_png_offset _ q). cbv zeta. change (png_offset q') with (png_offset q + (len + 4)).
  assert (Hq' : reader_ok (2064 * png_offset q') q').
  { apply (reader_ok_mono (2064 * png_offset p + 2064 * len + 8256)); [cbn; lia|].
    destruct Hq as [H1 H2 H3 H4 H5 H8]. split; try done. cbn. destruct (png_pixbuf_ q); [|done]. destruct H5 as ([] & ? & ?). split; [by split|done]. }
  destruct (Z.ltb_spec (png_offset q + (len + 4)) (zlen image)); [apply IH; cbn; [lia|lia|done]|].
  destruct (Z.eqb_spec type PNG_TYPE_IEND) as [Et|]; cbn [negb]; [|by eexists].
  destruct (Hend Et) as [pb Epb]. pose proof (ro_pixbuf _ _ Hq) as Hpb. change (png_pixbuf_ q') with (png_pixbuf_ q). rewrite Epb in Hpb |- *.
  destruct Hpb as (Hf & Hl & _). pose proof (ro_ihdr _ _ Hq) as Hann. rewrite Epb in Hann. eexists. split; [reflexivity|]. split; [done|].
  split; [|done]. rewrite Hl. apply (fo_data _ _ Hf).
Qed.
End Chunks.


(** The condition can be checked on a file. *)
Definition small_pictures_check (image : list Z) : bool :=
  forallb (fun off =>
    match mem_read image (off - 8) 8, mem_read image off 13 with
    | Some header, Some ihdr =>
        negb (be_val (drop 4 header) =? PNG_TYPE_IHDR) || (be_val (take 4 ihdr) * be_val (take 4 (drop 4 ihdr)) <? 2 ^ 23)
    | _, _ => true
    end) (seqZ 0 (zlen image)).

Lemma small_pictures_checked image : small_pictures_check image = true -> small_pictures image.
Proof.
  unfold small_pictures_check. rewrite forallb_forall. intros H off width height (header & ihdr & Hh & Ht & Hi & -> & ->).
  assert (Hoff : 0 <= off < zlen image).
  { unfold mem_read in Hi. destruct ((0 <=? off) && _ && _) eqn:E; [|done]. rewrite !andb_true_iff, !Z.leb_le in E. lia. }
  specialize (H off ltac:(apply list_elem_of_In, elem_of_seqZ; lia)). cbv beta in H. rewrite Hh, Hi, Ht, Z.eqb_refl in H. by apply Z.ltb_lt.
Qed.

(** Memory with arbitrary contents. *)
Definition sample_memory (len : Z) : option (list Z) := if 0 <=? len then fresh_memory len else None.

Lemma sample_memory_ok len data : sample_memory len = Some data -> zlen data = len /\ bytes_ok data.
Proof.
  unfold sample_memory, fresh_memory. destruct (Z.leb_spec 0 len); [|done]. intros [= <-].
  rewrite length_replicate. split; [lia|]. apply Forall_replicate. unfold byte_ok. lia.
Qed.


(** A row of 2^23 pixels with four channels of 128 bits. *)
Definition png_wide_sample : list Z :=
  [137; 80; 78; 71; 13; 10; 26; 10; 0; 0; 0; 13; 73; 72; 68; 82; 0; 128; 0; 0; 0; 0; 0; 1; 128; 6; 0; 0; 0; 17; 134;
   59; 4; 0; 0; 0; 9; 73; 68; 65; 84; 120; 156; 99; 0; 0; 0; 1; 0; 1; 94; 255; 125; 249; 0; 0; 0; 0; 73; 69; 78; 68;
   174; 66; 96; 130].

(** The length of a scanline is computed with 32 bits: 2^23 pixels of 512 bits
    give one byte, the filter byte, so that the raw data of the picture are one
    byte, and reading the first pixel leaves them. *)
Theorem png_scanline_overflow pixels raw :
  png_scanline_len (PngContext 0 None 128 6 4 1 [] (Chunk [] 0 0) (deflate_init DEFLATE_ZLIB)) (Interlace 0 0 0 1 1 (2 ^ 23) 1) = 1
  /\ png_pixbuf Arch64 true true (fun len => if len =? 2 ^ 25 then Some pixels else None) (fun len => if len =? 1 then Some [raw] else None)
       png_wide_sample = None.
Proof. split; [reflexivity|]. vm_compute. reflexivity. Qed.
