(* ===== verification/Dns.v ===== *)
(** * DNS names and the resolver ([net/udp/dns.c], [include/ipxe/dns.h])

    Names in the encoding of RFC 1035 and a lookup from its creation to its
    end.  A name is a position in an object that is read for [dn_len] bytes;
    packets and settings are shorter than 2^31 bytes, so that conversions
    between [int] and [size_t] matter only where the code turns an error number
    into an offset ([einval] is the value of [EINVAL] there).  [None] is an
    access outside an object. *)
From S2P Require Import Prelude Strings Memory.

Definition DNS_PORT : Z := 53.
Definition DNS_IS_COMPRESSED (byte : Z) : bool := negb (Z.land byte 0xc0 =? 0).
Definition DNS_COMPRESSED_OFFSET (word : Z) : Z := Z.land word (Z.lnot 0xc000).
Definition DNS_MAX_LABEL_LEN : Z := 0x3f.
Definition DNS_MAX_NAME_LEN : Z := 255.
Definition DNS_MAX_CNAME_RECURSION : Z := 32.
Definition DNS_FLAG_RD : Z := 0x0100.
Definition DNS_CLASS_IN : Z := 1.
Definition DNS_TYPE_A : Z := 1.
Definition DNS_TYPE_AAAA : Z := 28.
Definition DNS_TYPE_CNAME : Z := 5.

Record dns_name := DnsName { dn_data : list Z; dn_offset : Z; dn_len : Z }.

(** [memcpy] to an object; nothing is accessed if there is nothing to copy. *)
Definition mem_put (mem : list Z) (off : Z) (bytes : list Z) : option (list Z) :=
  match bytes with [] => Some mem | _ => mem_write mem off bytes end.

(** ** Encoding *)

(** The loop, with the length of the current label; [Ok] gives the final
    position and that length. *)
Fixpoint encode_loop (string data : list Z) (start end_ dst len : Z) : option (list Z * res (Z * Z)) :=
  match string with
  | [] => None
  | c :: string' =>
      if c =? 0 then Some (data, Ok (dst, len)) else
      let store len :=
        let dst := dst + 1 in
        opt! data := (if dst <? end_ then opt! data := mem_write data dst [c] in mem_write data (dst - len) [len] else Some data) in
        encode_loop string' data start end_ dst len in
      if c =? 46 then
        if (len =? 0) && negb (dst =? start) then Some (data, Err EINVAL) else
        opt! next := string' !! 0%nat in
        if next =? 0 then Some (data, Ok (dst, len)) else
        if len =? 0 then Some (data, Err EINVAL) else store 0
      else
        let len := len + 1 in
        if DNS_MAX_LABEL_LEN <? len then Some (data, Err EINVAL) else store len
  end.

(** The data with the name encoded at the offset, and its length. *)
Definition dns_encode (string : list Z) (name : dns_name) : option (list Z * res Z) :=
  let start := dn_offset name in
  let end_ := dn_len name in
  opt! (data, r) := encode_loop string (dn_data name) start end_ start 0 in
  match r with
  | Err e => Some (data, Err e)
  | Ok (dst, len) =>
      let dst := if negb (len =? 0) then dst + 1 else dst in
      opt! data := (if dst <? end_ then mem_write data dst [0] else Some data) in
      Some (data, Ok (dst + 1 - start))
  end.

(** ** Walking through a name *)

(** Pointers lead to smaller offsets. *)
Fixpoint label_loop (fuel : nat) (data : list Z) (len offset : Z) : option (res Z) :=
  match fuel with
  | O => None
  | S fuel' =>
      if len <? offset + 1 then Some (Err EINVAL) else
      opt! byte := mem_byte data offset in
      if DNS_IS_COMPRESSED byte then
        if len <? offset + 2 then Some (Err EINVAL) else
        opt! word := mem_read data offset 2 in
        let ptr := DNS_COMPRESSED_OFFSET (be_val word) in
        if offset <=? ptr then Some (Err EINVAL) else label_loop fuel' data len ptr
      else if len <? offset + 1 + byte then Some (Err EINVAL) else Some (Ok offset)
  end.

Definition dns_label (name : dns_name) (offset : Z) : option (res Z) :=
  label_loop (S (Z.to_nat offset)) (dn_data name) (dn_len name) offset.

(** The iterations that are left, the position in the output and the length so
    far. *)
Fixpoint decode_loop (recursion_limit : nat) (name : dns_name) (offset : Z) (buf : list Z) (pos len decoded_len : Z)
  : option (list Z * res Z) :=
  match recursion_limit with
  | O => Some (buf, Err EINVAL)
  | S n' =>
      opt! r := dns_label name offset in
      match r with
      | Err e => Some (buf, Err e)
      | Ok offset =>
          opt! label_len := mem_byte (dn_data name) offset in
          if label_len =? 0 then
            opt! buf := (if decoded_len <? len then mem_write buf pos [0] else Some buf) in
            Some (buf, Ok decoded_len)
          else
            opt! (buf, pos, decoded_len) :=
              (if decoded_len =? 0 then Some (buf, pos, decoded_len)
               else if decoded_len <? len then opt! buf := mem_write buf pos [46] in Some (buf, pos + 1, decoded_len + 1)
               else Some (buf, pos, decoded_len + 1)) in
            let copy_len := if decoded_len <? len then len - decoded_len else 0 in
            let copy_len := if label_len <? copy_len then label_len else copy_len in
            opt! label := mem_read (dn_data name) (offset + 1) copy_len in
            opt! buf := mem_put buf pos label in
            decode_loop n' name (offset + (1 + label_len)) buf (pos + copy_len) len (decoded_len + label_len)
      end
  end.

(** Into the [len] bytes at [pos] of [buf]. *)
Definition dns_decode (name : dns_name) (buf : list Z) (pos len : Z) : option (list Z * res Z) :=
  decode_loop (Z.to_nat (u32 (dn_len name))) name (dn_offset name) buf pos len 0.

(** Whether the bytes are equal up to case. *)
Fixpoint compare_bytes (n : nat) (first second : list Z) (i j : Z) : option bool :=
  match n with
  | O => Some true
  | S n' =>
      opt! x := mem_byte first i in
      opt! y := mem_byte second j in
      if negb (tolower x =? tolower y) then Some false else compare_bytes n' first second (i + 1) (j + 1)
  end.

Fixpoint compare_loop (recursion_limit : nat) (first second : dns_name) (first_offset second_offset : Z) : option (res unit) :=
  match recursion_limit with
  | O => Some (Err EINVAL)
  | S n' =>
      opt! r := dns_label first first_offset in
      match r with
      | Err e => Some (Err e)
      | Ok first_offset =>
          opt! r := dns_label second second_offset in
          match r with
          | Err e => Some (Err e)
          | Ok second_offset =>
              opt! label_len := mem_byte (dn_data first) first_offset in
              opt! label_len2 := mem_byte (dn_data second) second_offset in
              if negb (label_len =? label_len2) then Some (Err ENOENT) else
              let len := 1 + label_len in
              if label_len =? 0 then Some (Ok tt) else
              opt! same := compare_bytes (Z.to_nat label_len) (dn_data first) (dn_data second) (first_offset + 1) (second_offset + 1) in
              if negb same then Some (Err ENOENT) else compare_loop n' first second (first_offset + len) (second_offset + len)
          end
      end
  end.

Definition dns_compare (first second : dns_name) : option (res unit) :=
  compare_loop (Z.to_nat (u32 (dn_len first))) first second (dn_offset first) (dn_offset second).

Section Copy.
Context (a : arch).

Fixpoint dns_copy_loop (recursion_limit : nat) (src : dns_name) (src_offset : Z) (dst : list Z) (dst_start dst_len dst_offset : Z)
  : option (list Z * res Z) :=
  match recursion_limit with
  | O => Some (dst, Err EINVAL)
  | S n' =>
      opt! r := dns_label src src_offset in
      match r with
      | Err e => Some (dst, Err e)
      | Ok src_offset =>
          opt! label_len := mem_byte (dn_data src) src_offset in
          let len := 1 + label_len in
          let copy_len := if dst_offset <? dst_len then dst_len - dst_offset else 0 in
          let copy_len := if len <? copy_len then len else copy_len in
          opt! label := mem_read (dn_data src) src_offset copy_len in
          opt! dst := mem_put dst dst_offset label in
          let dst_offset := uwrap (size_bits a) (dst_offset + len) in
          if label_len =? 0 then Some (dst, Ok (swrap 32 (dst_offset - dst_start)))
          else dns_copy_loop n' src (src_offset + len) dst dst_start dst_len dst_offset
      end
  end.

(** The data of the destination, and the length of the name. *)
Definition dns_copy (src dst : dns_name) : option (list Z * res Z) :=
  dns_copy_loop (Z.to_nat (u32 (dn_len src))) src (dn_offset src) (dn_data dst) (dn_offset dst) (dn_len dst) (dn_offset dst).
End Copy.

Fixpoint skip_loop (recursion_limit : nat) (name : dns_name) (offset : Z) : option (res Z) :=
  match recursion_limit with
  | O => Some (Err EINVAL)
  | S n' =>
      let prev_offset := offset in
      opt! r := dns_label name prev_offset in
      match r with
      | Err e => Some (Err e)
      | Ok offset =>
          if negb (offset =? prev_offset) then Some (Ok (prev_offset + 2)) else
          opt! label_len := mem_byte (dn_data name) offset in
          let offset := offset + (1 + label_len) in
          if label_len =? 0 then Some (Ok offset) else skip_loop n' name offset
      end
  end.

Definition dns_skip (name : dns_name) : option (res Z) :=
  skip_loop (Z.to_nat (u32 (dn_len name))) name (dn_offset name).

(** Skip empty names; at most as many as bytes are left. *)
Fixpoint skip_empty (fuel : nat) (name : dns_name) (offset : Z) : option Z :=
  match fuel with
  | O => Some offset
  | S fuel' =>
      if negb (offset <? dn_len name) then Some offset else
      opt! b := mem_byte (dn_data name) offset in
      if b =? 0 then skip_empty fuel' name (offset + 1) else Some offset
  end.

Definition dns_skip_search (name : dns_name) : option (res Z) :=
  opt! r := dns_skip name in
  match r with
  | Err e => Some (Err e)
  | Ok offset => opt! offset := skip_empty (Z.to_nat (dn_len name - offset)) name offset in Some (Ok offset)
  end.

(** ** Requests *)

Definition AF_INET : Z := 1.
Definition AF_INET6 : Z := 2.

(** Family, port and address; flags and scope are left alone. *)
Record sockaddr := SockAddr { sa_family : Z; sa_port : Z; sa_addr : list Z }.

(** The addresses of the servers, one after the other, and their numbers. *)
Record dns_servers := DnsServers { dns4_data : list Z; dns4_count : Z; dns6_data : list Z; dns6_count : Z }.
Definition dns_count (s : dns_servers) : Z := dns4_count s + dns6_count s.

(** Offsets of the name and of the padding in the buffer of a query. *)
Definition OFF_NAME : Z := 12.
Definition OFF_PADDING : Z := OFF_NAME + DNS_MAX_NAME_LEN.
Definition QUESTION_LEN : Z := 4.
Definition RR_LEN : Z := 10.

(** The name of the query lies in [dr_buf], the question at [dr_question].
    [dr_sent] logs the packets with their destinations; [dr_result] is what was
    passed to [resolv_done], [dr_done] the status the interfaces were shut down
    with. *)
Record dns_request := DnsRequest {
  dr_timer : bool;
  dr_address : sockaddr;
  dr_qtype : Z;
  dr_buf : list Z;
  dr_name_offset : Z;
  dr_question : Z;
  dr_len : Z;
  dr_offset : Z;
  dr_search : dns_name;
  dr_index : Z;
  dr_recursion : Z;
  dr_sent : list (sockaddr * list Z);
  dr_result : option sockaddr;
  dr_done : option (res unit) }.

Definition dr_name (dns : dns_request) : dns_name := DnsName (dr_buf dns) (dr_name_offset dns) OFF_PADDING.

Definition set_dr_timer v dns := DnsRequest v (dr_address dns) (dr_qtype dns) (dr_buf dns) (dr_name_offset dns) (dr_question dns) (dr_len dns)
  (dr_offset dns) (dr_search dns) (dr_index dns) (dr_recursion dns) (dr_sent dns) (dr_result dns) (dr_done dns).
Definition set_dr_address v dns := DnsRequest (dr_timer dns) v (dr_qtype dns) (dr_buf dns) (dr_name_offset dns) (dr_question dns) (dr_len dns)
  (dr_offset dns) (dr_search dns) (dr_index dns) (dr_recursion dns) (dr_sent dns) (dr_result dns) (dr_done dns).
Definition set_dr_buf v dns := DnsRequest (dr_timer dns) (dr_address dns) (dr_qtype dns) v (dr_name_offset dns) (dr_question dns) (dr_len dns)
  (dr_offset dns) (dr_search dns) (dr_index dns) (dr_recursion dns) (dr_sent dns) (dr_result dns) (dr_done dns).
Definition set_dr_name_offset v dns := DnsRequest (dr_timer dns) (dr_address dns) (dr_qtype dns) (dr_buf dns) v (dr_question dns) (dr_len dns)
  (dr_offset dns) (dr_search dns) (dr_index dns) (dr_recursion dns) (dr_sent dns) (dr_result dns) (dr_done dns).
Definition set_dr_question q len dns := DnsRequest (dr_timer dns) (dr_address dns) (dr_qtype dns) (dr_buf dns) (dr_name_offset dns) q len
  (dr_offset dns) (dr_search dns) (dr_index dns) (dr_recursion dns) (dr_sent dns) (dr_result dns) (dr_done dns).
Definition set_dr_offset v dns := DnsRequest (dr_timer dns) (dr_address dns) (dr_qtype dns) (dr_buf dns) (dr_name_offset dns) (dr_question dns) (dr_len dns)
  v (dr_search dns) (dr_index dns) (dr_recursion dns) (dr_sent dns) (dr_result dns) (dr_done dns).
Definition set_dr_search_offset v dns := DnsRequest (dr_timer dns) (dr_address dns) (dr_qtype dns) (dr_buf dns) (dr_name_offset dns) (dr_question dns) (dr_len dns)
  (dr_offset dns) (DnsName (dn_data (dr_search dns)) v (dn_len (dr_search dns))) (dr_index dns) (dr_recursion dns) (dr_sent dns) (dr_result dns) (dr_done dns).
Definition set_dr_index v dns := DnsRequest (dr_timer dns) (dr_address dns) (dr_qtype dns) (dr_buf dns) (dr_name_offset dns) (dr_question dns) (dr_len dns)
  (dr_offset dns) (dr_search dns) v (dr_recursion dns) (dr_sent dns) (dr_result dns) (dr_done dns).
Definition set_dr_recursion v dns := DnsRequest (dr_timer dns) (dr_address dns) (dr_qtype dns) (dr_buf dns) (dr_name_offset dns) (dr_question dns) (dr_len dns)
  (dr_offset dns) (dr_search dns) (dr_index dns) v (dr_sent dns) (dr_result dns) (dr_done dns).
Definition log_dr_sent v dns := DnsRequest (dr_timer dns) (dr_address dns) (dr_qtype dns) (dr_buf dns) (dr_name_offset dns) (dr_question dns) (dr_len dns)
  (dr_offset dns) (dr_search dns) (dr_index dns) (dr_recursion dns) (dr_sent dns ++ [v]) (dr_result dns) (dr_done dns).
Definition set_dr_result v dns := DnsRequest (dr_timer dns) (dr_address dns) (dr_qtype dns) (dr_buf dns) (dr_name_offset dns) (dr_question dns) (dr_len dns)
  (dr_offset dns) (dr_search dns) (dr_index dns) (dr_recursion dns) (dr_sent dns) v (dr_done dns).
Definition set_dr_done v dns := DnsRequest (dr_timer dns) (dr_address dns) (dr_qtype dns) (dr_buf dns) (dr_name_offset dns) (dr_question dns) (dr_len dns)
  (dr_offset dns) (dr_search dns) (dr_index dns) (dr_recursion dns) (dr_sent dns) (dr_result dns) v.

(** Interfaces are shut down once. *)
Definition dns_done (dns : dns_request) (rc : res unit) : dns_request :=
  set_dr_done (Some (default rc (dr_done dns))) (set_dr_timer false dns).

Definition dns_resolved (dns : dns_request) : dns_request :=
  let dns := match dr_done dns with None => set_dr_result (Some (dr_address dns)) dns | Some _ => dns end in
  dns_done dns (Ok tt).

Section Resolver.
Context (a : arch) (einval : Z).

(** An error number where a length is expected. *)
Definition as_size (r : res Z) : Z := match r with Ok n => uwrap (size_bits a) n | Err _ => uwrap (size_bits a) (- einval) end.

Definition search_root : dns_name := DnsName [0] 0 1.

Definition dns_question (dns : dns_request) : option (dns_request * res unit) :=
  let search := if dn_offset (dr_search dns) =? dn_len (dr_search dns) then search_root else dr_search dns in
  let dns := set_dr_name_offset (dr_offset dns) dns in
  opt! (buf, len) := dns_copy a search (dr_name dns) in
  let dns := set_dr_buf buf dns in
  match len with
  | Err e => Some (dns, Err e)
  | Ok len =>
      let offset := uwrap (size_bits a) (dr_name_offset dns + len) in
      if OFF_PADDING <? offset then Some (dns, Err EINVAL) else
      opt! buf := mem_write (dr_buf dns) offset (be16 (dr_qtype dns) ++ be16 DNS_CLASS_IN) in
      let dns := set_dr_question offset (offset + QUESTION_LEN) (set_dr_buf buf dns) in
      let dns := set_dr_name_offset OFF_NAME dns in
      opt! buf := mem_write (dr_buf dns) 0 [0; 0] in
      Some (set_dr_buf buf dns, Ok tt)
  end.

(** The address of server [index]. *)
Definition nameserver (servers : dns_servers) (index : Z) : option sockaddr :=
  if index <? dns6_count servers then
    opt! addr := mem_read (dns6_data servers) (16 * index) 16 in Some (SockAddr AF_INET6 DNS_PORT addr)
  else
    opt! addr := mem_read (dns4_data servers) (4 * (index - dns6_count servers)) 4 in Some (SockAddr AF_INET DNS_PORT addr).

(** The servers at the time, and the value of [random()]; the status of the
    transmission is ignored by all callers. *)
Definition dns_send_packet (servers : dns_servers) (random : Z) (dns : dns_request) : option dns_request :=
  let dns := set_dr_timer true dns in
  if dns_count servers =? 0 then Some dns else
  let index := dr_index dns mod dns_count servers in
  opt! server := nameserver servers index in
  opt! id := mem_read (dr_buf dns) 0 2 in
  opt! buf := (if be_val id =? 0 then mem_write (dr_buf dns) 0 [random mod 256; random / 256 mod 256] else Some (dr_buf dns)) in
  let dns := set_dr_buf buf dns in
  opt! packet := mem_read (dr_buf dns) 0 (dr_len dns) in
  Some (log_dr_sent (server, packet) dns).

Definition dns_timer_expired (servers : dns_servers) (random : Z) (dns : dns_request) (fail : bool) : option dns_request :=
  let dns := set_dr_timer false dns in
  if fail then Some (dns_done dns (Err ETIMEDOUT)) else
  opt! id := mem_read (dr_buf dns) 0 2 in
  let dns := if negb (be_val id =? 0) then set_dr_index (u32 (dr_index dns + 1)) dns else dns in
  dns_send_packet servers random dns.

(** The loop over the answers; [Some rc] where the code leaves the function. *)
Fixpoint answers_loop (fuel : nat) (packet : list Z) (answer_offset buf_offset : Z) (dns : dns_request)
  : option (dns_request * option (res unit)) :=
  match fuel with
  | O => None
  | S fuel' =>
      if buf_offset =? zlen packet then Some (dns, None) else
      let buf := DnsName packet buf_offset (zlen packet) in
      opt! r := dns_skip buf in
      match r with
      | Err e => Some (dns, Some (Err e))
      | Ok offset =>
          if zlen packet <? offset + RR_LEN then Some (dns, Some (Err EINVAL)) else
          opt! rdlength := mem_read packet (offset + 8) 2 in
          let rdlength := be_val rdlength in
          let next_offset := offset + RR_LEN + rdlength in
          if zlen packet <? next_offset then Some (dns, Some (Err EINVAL)) else
          opt! rc := dns_compare buf (dr_name dns) in
          match rc with
          | Err _ => answers_loop fuel' packet answer_offset next_offset dns
          | Ok _ =>
              opt! type := mem_read packet offset 2 in
              let type := be_val type in
              if type =? DNS_TYPE_AAAA then
                if rdlength <? 16 then Some (dns, Some (Err EINVAL)) else
                opt! addr := mem_read packet (offset + RR_LEN) 16 in
                Some (dns_resolved (set_dr_address (SockAddr AF_INET6 (sa_port (dr_address dns)) addr) dns), Some (Ok tt))
              else if type =? DNS_TYPE_A then
                if rdlength <? 4 then Some (dns, Some (Err EINVAL)) else
                opt! addr := mem_read packet (offset + RR_LEN) 4 in
                Some (dns_resolved (set_dr_address (SockAddr AF_INET (sa_port (dr_address dns)) addr) dns), Some (Ok tt))
              else if type =? DNS_TYPE_CNAME then
                let dns := set_dr_recursion (u32 (dr_recursion dns + 1)) dns in
                if DNS_MAX_CNAME_RECURSION <? dr_recursion dns then Some (dns_done dns (Err ELOOP), Some (Err ELOOP)) else
                let dns := set_dr_search_offset (dn_len (dr_search dns)) dns in
                opt! (data, name_len) := dns_copy a (DnsName packet (offset + RR_LEN) (zlen packet)) (dr_name dns) in
                let dns := set_dr_buf data dns in
                let dns := set_dr_offset (uwrap (size_bits a) (OFF_NAME + as_size name_len - 1)) dns in
                opt! (dns, rc) := dns_question dns in
                match rc with
                | Err e => Some (dns_done dns (Err e), Some (Err e))
                | Ok _ => answers_loop fuel' packet answer_offset answer_offset dns
                end
              else answers_loop fuel' packet answer_offset next_offset dns
          end
      end
  end.

(** Every record takes at least eleven bytes, and the answers are searched
    once more for each alias. *)
Definition answers_fuel (packet : list Z) : nat := S (length packet) * Z.to_nat (DNS_MAX_CNAME_RECURSION + 2).

(** Change the type of the question. *)
Definition set_question_type (type : Z) (dns : dns_request) : option dns_request :=
  opt! buf := mem_write (dr_buf dns) (dr_question dns) (be16 type) in Some (set_dr_buf buf dns).

(** What is done after a response without a usable answer to a question of type
    [qtype]. *)
Definition next_question (servers : dns_servers) (random qtype : Z) (dns : dns_request) : option (dns_request * res unit) :=
  let dns := set_dr_timer false dns in
  if qtype =? DNS_TYPE_AAAA then
    opt! dns := set_question_type DNS_TYPE_A dns in
    opt! dns := dns_send_packet servers random dns in Some (dns, Ok tt)
  else if qtype =? DNS_TYPE_A then
    opt! dns := set_question_type DNS_TYPE_CNAME dns in
    opt! dns := dns_send_packet servers random dns in Some (dns, Ok tt)
  else if qtype =? DNS_TYPE_CNAME then
    if qtype =? dr_qtype dns then opt! dns := dns_send_packet servers random dns in Some (dns, Ok tt) else
    if dn_offset (dr_search dns) =? dn_len (dr_search dns)
    then Some (dns_done dns (Err ENXIO_NO_RECORD), Err ENXIO_NO_RECORD) else
    opt! next := dns_skip_search (dr_search dns) in
    let dns := set_dr_search_offset (as_size next) dns in
    opt! (dns, rc) := dns_question dns in
    match rc with
    | Err e => Some (dns_done dns (Err e), Err e)
    | Ok _ => opt! dns := dns_send_packet servers random dns in Some (dns, Ok tt)
    end
  else Some (dns_done dns (Err EINVAL), Err EINVAL).

Definition dns_xfer_deliver (servers : dns_servers) (random : Z) (dns : dns_request) (packet : list Z)
  : option (dns_request * res unit) :=
  opt! qtype := mem_read (dr_buf dns) (dr_question dns) 2 in
  let qtype := be_val qtype in
  if zlen packet <? OFF_NAME then Some (dns, Err EINVAL) else
  opt! id := mem_read packet 0 2 in
  opt! query_id := mem_read (dr_buf dns) 0 2 in
  if negb (be_val id =? be_val query_id) then Some (dns, Err EINVAL) else
  opt! qdcount := mem_read packet 4 2 in
  if negb (be_val qdcount =? 1) then Some (dns, Err EINVAL) else
  opt! r := dns_skip (DnsName packet OFF_NAME (zlen packet)) in
  match r with
  | Err e => Some (dns, Err e)
  | Ok offset =>
      let answer_offset := offset + QUESTION_LEN in
      opt! (dns, r) := answers_loop (answers_fuel packet) packet answer_offset answer_offset dns in
      match r with
      | Some rc => Some (dns, rc)
      | None => next_question servers random qtype dns
      end
  end.

Definition dns_xfer_close (dns : dns_request) (rc : res unit) : dns_request :=
  dns_done dns (match rc with Ok _ => Err ECONNABORTED | Err e => Err e end).

(** The message, or an empty one. *)
Definition dns_progress (dns : dns_request) (message : list Z) : option (list Z) :=
  opt! (message, r) := dns_decode (dr_name dns) message 0 (zlen message - 1) in
  match r with Err _ => mem_write message 0 [0] | Ok _ => Some message end.

(** ** A new request *)

(** [alloc] and [open] are the results of [zalloc] and [xfer_open_socket]. *)
Definition dns_resolv (servers : dns_servers) (dns_search : dns_name) (name : list Z) (sa : sockaddr) (alloc : bool) (open : res unit)
  : option (res dns_request) :=
  if dns_count servers =? 0 then Some (Err ENXIO_NO_NAMESERVER) else
  opt! dot := strchr name 46 in
  let search_len := match dot with Some _ => 0 | None => dn_len dns_search end in
  if negb alloc then Some (Err ENOMEM) else
  opt! search := mem_read (dn_data dns_search) 0 search_len in
  let qtype := if negb (dns6_count servers =? 0) then DNS_TYPE_AAAA else DNS_TYPE_A in
  let buf := [0; 0] ++ be16 DNS_FLAG_RD ++ be16 1 ++ replicate 265 0 in
  opt! (buf, name_len) := dns_encode name (DnsName buf OFF_NAME OFF_PADDING) in
  match name_len with
  | Err e => Some (Err e)
  | Ok name_len =>
      let dns := DnsRequest false sa qtype buf OFF_NAME 0 0 (OFF_NAME + name_len - 1) (DnsName search 0 search_len) 0 0 [] None None in
      opt! (dns, rc) := dns_question dns in
      match rc with
      | Err e => Some (Err e)
      | Ok _ => match open with Err e => Some (Err e) | Ok _ => Some (Ok (set_dr_timer true dns)) end
      end
  end.
End Resolver.

(** ** Settings *)

(** The loop over the names of a search list; [total] is the length so far. *)
Fixpoint dnssl_loop (fuel : nat) (a : arch) (einval : Z) (name : dns_name) (buf : list Z) (len total : Z) : option (list Z * res Z) :=
  match fuel with
  | O => None
  | S fuel' =>
      if negb (dn_offset name <? dn_len name) then Some (buf, Ok total) else
      let remaining := if total <? len then len - total else 0 in
      opt! (buf, name_len) := dns_decode name buf total remaining in
      match name_len with
      | Err e => Some (buf, Err e)
      | Ok name_len =>
          let total := total + name_len in
          opt! next := dns_skip_search name in
          let name := DnsName (dn_data name) (as_size a einval next) (dn_len name) in
          opt! (buf, total) :=
            (if negb (dn_offset name =? dn_len name)
             then if total <? len then opt! buf := mem_write buf total [32] in Some (buf, total + 1) else Some (buf, total + 1)
             else Some (buf, total)) in
          dnssl_loop fuel' a einval name buf len total
      end
  end.

Definition format_dnssl_setting (a : arch) (einval : Z) (raw buf : list Z) (len : Z) : option (list Z * res Z) :=
  dnssl_loop (S (length raw)) a einval (DnsName raw 0 (zlen raw)) buf len 0.

(** The raw values of the settings, where they exist. *)
Definition apply_dns_servers (dns_setting dns6_setting : option (list Z)) : dns_servers :=
  let raw s := match s with Some data => data | None => [] end in
  DnsServers (raw dns_setting) (zlen (raw dns_setting) / 4) (raw dns6_setting) (zlen (raw dns6_setting) / 16).

(** [localdomain] is a string; [memory] is what [malloc] gives. *)
Definition apply_dns_search (dnssl_setting localdomain : option (list Z)) (memory : Z -> option (list Z)) : option dns_name :=
  match dnssl_setting with
  | Some data => Some (DnsName data 0 (zlen data))
  | None =>
      match localdomain with
      | None => Some (DnsName [] 0 0)
      | Some domain =>
          opt! (_, len) := dns_encode domain (DnsName [] 0 0) in
          match len with
          | Err _ => Some (DnsName [] 0 0)
          | Ok len =>
              match memory len with
              | None => Some (DnsName [] 0 0)
              | Some data => opt! (data, _) := dns_encode domain (DnsName data 0 len) in Some (DnsName data 0 len)
              end
          end
      end
  end.
