(* ===== verification/DnsNames.v ===== *)
(** * DNS names: what the functions on encoded names compute

    [name_at data len off labels] is the encoding as the source reads it: labels
    up to the root, with pointers to earlier positions.  The functions of the
    source succeed on exactly these names, for arbitrary contents of the packet.
    The names of RFC 1035 ([rfc1035_name]) are among them; the others have a
    length octet with a prefix that the RFC reserves, which the source follows
    as a pointer, or more than 255 octets. *)
From S2P Require Import Prelude Strings Memory Dns.

(** ** Encoded names *)

(** [DNS_IS_COMPRESSED] takes every octet from 64 on for a pointer. *)
Inductive name_at (data : list Z) (len : Z) : Z -> list (list Z) -> Prop :=
| name_root off : 0 <= off < len -> mem_byte data off = Some 0 -> name_at data len off []
| name_label off l label labels : 0 <= off -> mem_byte data off = Some l -> 0 < l < 64 -> off + 1 + l <= len ->
    mem_read data (off + 1) l = Some label -> name_at data len (off + 1 + l) labels -> name_at data len off (label :: labels)
| name_pointer off high low labels : 0 <= off -> off + 2 <= len -> mem_byte data off = Some high -> mem_byte data (off + 1) = Some low ->
    64 <= high -> high mod 64 * 256 + low < off -> name_at data len (high mod 64 * 256 + low) labels -> name_at data len off labels.

(** A name of RFC 1035 (section 4.1.4): a pointer begins with two bits that are
    ones, and a name has at most 255 octets. *)
Inductive rfc1035_at (data : list Z) (len : Z) : Z -> list (list Z) -> Prop :=
| rfc_root off : 0 <= off < len -> mem_byte data off = Some 0 -> rfc1035_at data len off []
| rfc_label off l label labels : 0 <= off -> mem_byte data off = Some l -> 0 < l < 64 -> off + 1 + l <= len ->
    mem_read data (off + 1) l = Some label -> rfc1035_at data len (off + 1 + l) labels -> rfc1035_at data len off (label :: labels)
| rfc_pointer off high low labels : 0 <= off -> off + 2 <= len -> mem_byte data off = Some high -> mem_byte data (off + 1) = Some low ->
    192 <= high -> (high - 192) * 256 + low < off -> rfc1035_at data len ((high - 192) * 256 + low) labels -> rfc1035_at data len off labels.

Definition rfc1035_name (data : list Z) (len off : Z) (labels : list (list Z)) : Prop :=
  rfc1035_at data len off labels /\ foldr (fun label n => 1 + zlen label + n) 1 labels <= 255.

Lemma rfc1035_read data len off labels : bytes_ok data -> rfc1035_at data len off labels -> name_at data len off labels.
Proof.
  intros Hb. induction 1 as [off Ho Hr|off l label labels Ho Hr Hl Hlen Hm _ IH|off high low labels Ho Hlen Hh Hlow Hc Hp _ IH].
  - by apply name_root.
  - by eapply name_label.
  - assert (Hi : 0 <= high < 256).
    { unfold mem_byte in Hh. destruct (0 <=? off); [|done]. apply list_elem_of_lookup_2 in Hh. unfold bytes_ok in Hb. rewrite Forall_forall in Hb. by apply Hb. }
    assert (Em : high mod 64 = high - 192) by (symmetry; apply (Z.mod_unique_pos _ _ 3); lia).
    apply (name_pointer data len off high low labels); rewrite ?Em; done || lia.
Qed.

Lemma name_at_det data len off labels labels' : name_at data len off labels -> name_at data len off labels' -> labels = labels'.
Proof.
  intros H. revert labels'.
  induction H as [off Ho Hb|off l label labels Ho Hb Hl Hlen Hr H IH|off high low labels Ho Hlen Hh Hlow Hc Hp H IH];
    intros labels' H'; inversion H'; subst; simplify_eq; try lia; try done.
  - f_equal. by apply IH.
  - by apply IH.
Qed.

(** ** Finding a label *)

Lemma byte_compressed b : byte_ok b -> DNS_IS_COMPRESSED b = (64 <=? b).
Proof.
  intros Hb. unfold DNS_IS_COMPRESSED.
  assert (H : forallb (fun b => Bool.eqb (negb (Z.land b 0xc0 =? 0)) (64 <=? b)) (seqZ 0 256) = true) by (vm_compute; reflexivity).
  apply Bool.eqb_prop, (range_check 0 256 _ H b). unfold byte_ok in Hb. lia.
Qed.

Lemma compressed_offset high low : byte_ok high -> byte_ok low -> DNS_COMPRESSED_OFFSET (be_val [high; low]) = high mod 64 * 256 + low.
Proof.
  intros Hh Hl. unfold DNS_COMPRESSED_OFFSET, byte_ok in *. change (be_val [high; low]) with ((0 * 256 + high) * 256 + low). rewrite Z.mul_0_l, Z.add_0_l.
  replace (high mod 64 * 256 + low) with ((high * 256 + low) mod 2 ^ 14) by (change (2 ^ 14) with (64 * 256); Z.div_mod_to_equations; lia).
  rewrite <- Z.land_ones by lia. apply Z.bits_inj'. intros i Hi. rewrite !Z.land_spec.
  destruct (Z.le_gt_cases 16 i) as [Hbig|Hsmall].
  - rewrite <- (Z.mod_small (high * 256 + low) (2 ^ 16)) by lia. by rewrite Z.mod_pow2_bits_high by lia.
  - f_equal. assert (H : forallb (fun i => Bool.eqb (Z.testbit (Z.lnot 0xc000) i) (Z.testbit (Z.ones 14) i)) (seqZ 0 16) = true) by (vm_compute; reflexivity).
    apply Bool.eqb_prop, (range_check 0 16 _ H i). lia.
Qed.

Section Names.
Context (data : list Z) (len : Z).
Hypothesis data_bytes : bytes_ok data.
Hypothesis len_ok : len <= zlen data.

Lemma name_byte off : 0 <= off < len -> exists b, mem_byte data off = Some b /\ byte_ok b.
Proof.
  intros Ho. unfold mem_byte. rewrite (proj2 (Z.leb_le 0 off)) by lia.
  destruct (lookup_lt_is_Some_2 data (Z.to_nat off)) as [b Hb]; [lia|]. exists b. split; [done|]. by apply (Forall_lookup_1 _ _ _ _ data_bytes Hb).
Qed.

Lemma name_read off n : 0 <= off -> 0 <= n -> off + n <= len ->
  mem_read data off n = Some (take (Z.to_nat n) (drop (Z.to_nat off) data)) /\ zlen (take (Z.to_nat n) (drop (Z.to_nat off) data)) = n.
Proof.
  intros H1 H2 H3. unfold mem_read.
  rewrite (proj2 (Z.leb_le 0 off)), (proj2 (Z.leb_le 0 n)), (proj2 (Z.leb_le (off + n) _)) by lia. split; [done|].
  rewrite length_take, length_drop. lia.
Qed.

(** The next label, or nothing that could be one. *)
Definition label_spec (off : Z) (r : res Z) : Prop :=
  match r with
  | Ok off' => 0 <= off' <= off /\ (forall labels, name_at data len off labels <-> name_at data len off' labels)
      /\ (off' <> off -> off + 2 <= len)
      /\ exists l, mem_byte data off' = Some l /\ 0 <= l < 64 /\ off' + 1 + l <= len
  | Err e => e = EINVAL /\ forall labels, ~ name_at data len off labels
  end.

Lemma label_loop_ok fuel : forall off, 0 <= off < Z.of_nat fuel -> exists r, label_loop fuel data len off = Some r /\ label_spec off r.
Proof.
  induction fuel as [|fuel IH]; intros off Hoff; cbn [label_loop]; [lia|].
  destruct (Z.ltb_spec len (off + 1)) as [Hshort|Hlong].
  { eexists. split; [done|]. split; [done|]. intros labels H. inversion H; lia. }
  destruct (name_byte off ltac:(lia)) as (b & Eb & Hb). rewrite Eb, byte_compressed by done.
  destruct (Z.leb_spec 64 b) as [Hc|Hc].
  - destruct (Z.ltb_spec len (off + 2)) as [Hs2|Hl2].
    { eexists. split; [done|]. split; [done|]. intros labels H. inversion H; simplify_eq; lia. }
    destruct (name_byte (off + 1) ltac:(lia)) as (low & El & Hlow).
    assert (Ew : mem_read data off 2 = Some [b; low]).
    { destruct (name_read off 2 ltac:(lia) ltac:(lia) ltac:(lia)) as [-> _]. unfold mem_byte in Eb, El.
      rewrite (proj2 (Z.leb_le 0 off)) in Eb by lia. rewrite (proj2 (Z.leb_le 0 (off + 1))) in El by lia.
      replace (Z.to_nat (off + 1)) with (S (Z.to_nat off)) in El by lia.
      rewrite (drop_S _ _ _ Eb), (drop_S _ _ _ El). done. }
    rewrite Ew, compressed_offset by done. pose proof (Z.mod_pos_bound b 64 ltac:(lia)). unfold byte_ok in Hlow.
    destruct (Z.leb_spec off (b mod 64 * 256 + low)) as [Hfwd|Hback].
    { eexists. split; [done|]. split; [done|]. intros labels H'. inversion H'; simplify_eq; lia. }
    destruct (IH (b mod 64 * 256 + low) ltac:(lia)) as (r & -> & Hr). exists r. split; [done|].
    assert (Heq : forall labels, name_at data len off labels <-> name_at data len (b mod 64 * 256 + low) labels).
    { intros labels. split; [intros H'; inversion H'; simplify_eq; try lia; done|]. intros H'. eapply name_pointer; try done; lia. }
    destruct r as [off'|e]; cbn in Hr |- *.
    + destruct Hr as (R1 & R2 & R3 & R4). split; [lia|]. split; [intros labels; by rewrite Heq, R2|]. split; [lia|done].
    + destruct Hr as [R1 R2]. split; [done|]. intros labels H'. by apply (R2 labels), Heq.
  - destruct (Z.ltb_spec len (off + 1 + b)) as [Hs|Hl].
    { eexists. split; [done|]. split; [done|]. intros labels H. inversion H; simplify_eq; unfold byte_ok in Hb; lia. }
    eexists. split; [done|]. split; [lia|]. split; [done|]. split; [done|]. exists b. unfold byte_ok in Hb. split; [done|]. lia.
Qed.

Lemma dns_label_ok o off : 0 <= off -> exists r, dns_label (DnsName data o len) off = Some r /\ label_spec off r.
Proof. intros Ho. apply label_loop_ok. lia. Qed.

(** A name at a position with a label. *)
Lemma name_at_cons off l : mem_byte data off = Some l -> 0 < l < 64 -> 0 <= off -> off + 1 + l <= len ->
  forall labels, name_at data len off labels <-> exists rest,
    labels = take (Z.to_nat l) (drop (Z.to_nat (off + 1)) data) :: rest /\ name_at data len (off + (1 + l)) rest.
Proof.
  intros Hb Hl Ho Hlen labels. destruct (name_read (off + 1) l ltac:(lia) ltac:(lia) ltac:(lia)) as [Er _].
  split.
  - intros H. inversion H; simplify_eq; try lia. rewrite <- Z.add_assoc in *. by eexists.
  - intros (rest & -> & H). eapply name_label; try done. by rewrite <- Z.add_assoc.
Qed.

Lemma name_at_nil off : mem_byte data off = Some 0 -> 0 <= off < len -> forall labels, name_at data len off labels <-> labels = [].
Proof. intros Hb Ho labels. split; [intros H; inversion H; simplify_eq; try lia; done|intros ->; by apply name_root]. Qed.

(** A name has fewer labels than the packet has bytes: no position is visited
    twice. *)
Lemma name_positions off labels : name_at data len off labels ->
  exists offs, length offs = S (length labels) /\ Forall (fun x => 0 <= x < len) offs
    /\ forall i x, offs !! i = Some x -> name_at data len x (drop i labels).
Proof.
  induction 1 as [off Ho Hb|off l label labels Ho Hb Hl Hlen Hr H (offs & Hn & Hf & Hi)|off high low labels Ho Hlen Hh Hlow Hc Hp H IH].
  - exists [off]. split; [done|]. split; [by apply Forall_singleton|]. intros [|i] x; [|done]. intros [= <-]. by apply name_root.
  - exists (off :: offs). split; [cbn; by rewrite Hn|]. split; [constructor; [lia|done]|].
    intros [|i] x; cbn; [intros [= <-]; by eapply name_label|apply Hi].
  - done.
Qed.

Lemma name_short off labels : name_at data len off labels -> zlen labels < len.
Proof.
  intros H. destruct (name_positions off labels H) as (offs & Hn & Hf & Hi).
  assert (Hnd : NoDup offs).
  { apply NoDup_alt. intros i j x Ei Ej. pose proof (name_at_det _ _ _ _ _ (Hi i x Ei) (Hi j x Ej)) as E. apply (f_equal length) in E.
    rewrite !length_drop in E. apply lookup_lt_Some in Ei, Ej. lia. }
  assert (Hsub : offs ⊆+ seqZ 0 len).
  { apply NoDup_submseteq; [done|]. intros x Hx. apply elem_of_seqZ. rewrite Forall_forall in Hf. specialize (Hf x Hx). lia. }
  apply submseteq_length in Hsub. rewrite length_seqZ in Hsub. lia.
Qed.

Lemma name_labels off labels : name_at data len off labels -> Forall (fun label => 0 < zlen label < 64) labels.
Proof.
  induction 1 as [off Ho Hb|off l label labels Ho Hb Hl Hlen Hr H IH|off high low labels Ho Hlen Hh Hlow Hc Hp H IH]; [constructor| |done].
  constructor; [|done]. destruct (name_read (off + 1) l ltac:(lia) ltac:(lia) ltac:(lia)) as [E Hz]. rewrite E in Hr. simplify_eq. lia.
Qed.
End Names.

(** ** Writing into a part of a buffer *)

(** [s] in the [n] bytes at [pos], as far as it fits. *)
Definition put_at (pos n : Z) (s buf : list Z) : list Z :=
  let t := take (Z.to_nat n) s in take (Z.to_nat pos) buf ++ t ++ drop (Z.to_nat pos + length t) buf.

(** There is room for [n] bytes at [pos]. *)
Definition has_room (pos n : Z) (buf : list Z) : Prop := 0 <= n /\ (0 < n -> 0 <= pos /\ pos + n <= zlen buf).

Lemma put_at_length pos n s buf : has_room pos n buf -> length (put_at pos n s buf) = length buf.
Proof.
  intros [Hn Hr]. unfold put_at. rewrite !length_app, length_drop, length_take. rewrite length_take. destruct (Z.eq_dec n 0) as [->|]; [cbn; lia|]. lia.
Qed.

Lemma put_at_nil pos n buf : put_at pos n [] buf = buf.
Proof. unfold put_at. rewrite take_nil. cbn. rewrite Nat.add_0_r. apply take_drop. Qed.

Lemma put_at_more pos n s t buf : has_room pos n buf ->
  mem_put (put_at pos n s buf) (pos + Z.min n (zlen s)) (take (Z.to_nat (n - zlen s)) t) = Some (put_at pos n (s ++ t) buf).
Proof.
  intros [Hn Hr]. unfold mem_put. destruct (take (Z.to_nat (n - zlen s)) t) as [|c cs] eqn:Et.
  - f_equal. unfold put_at. assert (E : take (Z.to_nat n) (s ++ t) = take (Z.to_nat n) s).
    { rewrite take_app. replace (Z.to_nat n - length s)%nat with (Z.to_nat (n - zlen s)) by lia. by rewrite Et, app_nil_r. }
    by rewrite E.
  - rewrite <- Et.
    assert (Hs : zlen s < n).
    { destruct (Z.le_gt_cases n (zlen s)); [|done]. replace (Z.to_nat (n - zlen s)) with 0%nat in Et by lia. done. }
    destruct (Hr ltac:(lia)) as [Hp Hlen]. rewrite Z.min_r by lia. set (t' := take (Z.to_nat (n - zlen s)) t).
    assert (Ht : zlen t' <= n - zlen s) by (unfold t'; rewrite length_take; lia).
    assert (Es : put_at pos n s buf = (take (Z.to_nat pos) buf ++ s) ++ drop (Z.to_nat pos + length s) buf).
    { unfold put_at. rewrite (take_ge s) by lia. by rewrite app_assoc. }
    assert (Est : put_at pos n (s ++ t) buf = (take (Z.to_nat pos) buf ++ s) ++ t' ++ drop (Z.to_nat pos + length s + length t') buf).
    { unfold put_at. assert (E : take (Z.to_nat n) (s ++ t) = s ++ t').
      { rewrite take_app, (take_ge s) by lia. f_equal. unfold t'. f_equal. lia. }
      rewrite E, length_app, <- !app_assoc. do 3 f_equal. by rewrite Nat.add_assoc. }
    assert (HL : length (take (Z.to_nat pos) buf ++ s) = Z.to_nat (pos + zlen s)) by (rewrite length_app, length_take; lia).
    rewrite Es, Est. unfold mem_write. rewrite (proj2 (Z.leb_le 0 (pos + zlen s))) by lia.
    rewrite (proj2 (Z.leb_le (pos + zlen s + zlen t') _)) by (rewrite length_app, HL, length_drop; lia). cbn [andb]. f_equal.
    rewrite <- HL, take_app_length. f_equal. f_equal. rewrite <- drop_drop, drop_app_length, drop_drop. done.
Qed.

Lemma put_at_write pos n s c buf : has_room pos n buf -> zlen s < n ->
  mem_write (put_at pos n s buf) (pos + zlen s) [c] = Some (put_at pos n (s ++ [c]) buf).
Proof.
  intros Hr Hs. rewrite <- (put_at_more pos n s [c] buf Hr). rewrite Z.min_r by lia. unfold mem_put.
  by rewrite take_ge by (cbn; lia).
Qed.

Lemma put_at_full pos n s t buf : n <= zlen s -> put_at pos n (s ++ t) buf = put_at pos n s buf.
Proof. intros Hs. unfold put_at. by rewrite take_app_le by lia. Qed.

(** ** Decoding *)

(** Labels separated by dots. *)
Definition add_label (s label : list Z) : list Z := match s with [] => label | _ => s ++ 46 :: label end.
Definition dotted (labels : list (list Z)) : list Z := fold_left add_label labels [].

Section Decode.
Context (data : list Z) (len : Z).
Hypothesis data_bytes : bytes_ok data.
Hypothesis len_ok : len <= zlen data.
Context (pos n : Z) (buf : list Z).
Hypothesis room : has_room pos n buf.

Lemma decode_loop_ok o limit : forall off s, 0 <= off ->
  exists buf' r, decode_loop limit (DnsName data o len) off (put_at pos n s buf) (pos + Z.min n (zlen s)) n (zlen s) = Some (buf', r)
    /\ match r with
       | Ok k => exists labels, name_at data len off labels /\ (length labels < limit)%nat
           /\ k = zlen (fold_left add_label labels s) /\ buf' = put_at pos n (fold_left add_label labels s ++ [0]) buf
       | Err e => e = EINVAL /\ (forall labels, name_at data len off labels -> (limit <= length labels)%nat) /\ exists t, buf' = put_at pos n t buf
       end.
Proof.
  induction limit as [|limit IH]; intros off s Hoff; cbn [decode_loop].
  { eexists _, _. split; [done|]. split; [done|]. split; [intros; lia|by eexists]. }
  destruct (dns_label_ok data len data_bytes len_ok o off Hoff) as (r & -> & Hr). destruct r as [off'|e]; cbn [label_spec] in Hr.
  2: { destruct Hr as [-> Hr]. eexists _, _. split; [done|]. split; [done|]. split; [intros labels H; by destruct (Hr labels)|by eexists]. }
  destruct Hr as (Ho & Heq & _ & l & El & Hl & Hlen). cbn [dn_data]. rewrite El.
  destruct (Z.eqb_spec l 0) as [->|Hl0].
  { pose proof (name_at_nil data len off' El ltac:(lia)) as Hnil. destruct (Z.ltb_spec (zlen s) n) as [Hs|Hs].
    - rewrite Z.min_r by lia. rewrite put_at_write by done. eexists _, _. split; [done|]. exists []. split; [by apply Heq, Hnil|]. split; [cbn; lia|done].
    - eexists _, _. split; [done|]. exists []. split; [by apply Heq, Hnil|]. split; [cbn; lia|]. split; [done|]. cbn. by rewrite put_at_full by lia. }
  pose proof (name_at_cons data len len_ok off' l El ltac:(lia) ltac:(lia) ltac:(lia)) as Hcons.
  destruct (name_read data len len_ok (off' + 1) l ltac:(lia) ltac:(lia) ltac:(lia)) as [_ Hz].
  set (label := take (Z.to_nat l) (drop (Z.to_nat (off' + 1)) data)) in *.
  set (s1 := match s with [] => [] | _ => s ++ [46] end).
  assert (Edot : (if zlen s =? 0 then Some (put_at pos n s buf, pos + Z.min n (zlen s), zlen s)
     else if zlen s <? n then opt! buf' := mem_write (put_at pos n s buf) (pos + Z.min n (zlen s)) [46] in Some (buf', pos + Z.min n (zlen s) + 1, zlen s + 1)
     else Some (put_at pos n s buf, pos + Z.min n (zlen s), zlen s + 1)) = Some (put_at pos n s1 buf, pos + Z.min n (zlen s1), zlen s1)).
  { destruct (Z.eqb_spec (zlen s) 0) as [E0|E0]; [by destruct s|].
    assert (s1 = s ++ [46]) as -> by (by destruct s). rewrite zlen_app. cbn [length].
    destruct (Z.ltb_spec (zlen s) n) as [Hs|Hs].
    - rewrite Z.min_r by lia. rewrite put_at_write by done. do 2 f_equal. f_equal. lia.
    - rewrite put_at_full by lia. do 2 f_equal. f_equal. lia. }
  rewrite Edot. cbv beta iota zeta.
  set (copy_len := if l <? _ then l else _).
  assert (Hcopy : copy_len = Z.min l (Z.max 0 (n - zlen s1))).
  { unfold copy_len. destruct (Z.ltb_spec (zlen s1) n), (Z.ltb_spec l (n - zlen s1)); try lia; destruct (Z.ltb_spec l 0); lia. }
  destruct room as [Hn _].
  destruct (name_read data len len_ok (off' + 1) copy_len ltac:(lia) ltac:(lia) ltac:(lia)) as [-> _].
  assert (Etake : take (Z.to_nat copy_len) (drop (Z.to_nat (off' + 1)) data) = take (Z.to_nat (n - zlen s1)) label).
  { unfold label. rewrite take_take. f_equal. lia. }
  rewrite Etake, put_at_more by done.
  assert (Es : s1 ++ label = add_label s label) by (unfold s1, add_label; destruct s; [done|by rewrite <- app_assoc]).
  rewrite Es. replace (pos + Z.min n (zlen s1) + copy_len) with (pos + Z.min n (zlen (add_label s label))) by (rewrite <- Es, zlen_app; lia).
  replace (zlen s1 + l) with (zlen (add_label s label)) by (rewrite <- Es, zlen_app; lia).
  destruct (IH (off' + (1 + l)) (add_label s label) ltac:(lia)) as (buf' & r & -> & Hr). exists buf', r. split; [done|].
  destruct r as [k|e].
  - destruct Hr as (labels & H1 & H2 & H3 & H4). exists (label :: labels). split; [apply Heq, Hcons; by exists labels|]. split; [cbn; lia|done].
  - destruct Hr as (-> & H2 & H3). split; [done|]. split; [|done]. intros labels H. apply Heq, Hcons in H as (rest & -> & H).
    specialize (H2 rest H). cbn. lia.
Qed.

(** Every name is decoded; what is no name is refused. *)
Lemma dns_decode_ok off : 0 <= off -> len < 2 ^ 32 ->
  exists buf' r, dns_decode (DnsName data off len) buf pos n = Some (buf', r)
    /\ match r with
       | Ok k => exists labels, name_at data len off labels /\ k = zlen (dotted labels) /\ buf' = put_at pos n (dotted labels ++ [0]) buf
       | Err e => e = EINVAL /\ (forall labels, ~ name_at data len off labels) /\ exists t, buf' = put_at pos n t buf
       end.
Proof.
  intros Hoff Hsize. unfold dns_decode. cbn [dn_len dn_offset].
  destruct (decode_loop_ok off (Z.to_nat (u32 len)) off [] Hoff) as (buf' & r & E & Hr).
  rewrite put_at_nil in E. cbn [length] in E. replace (pos + Z.min n (Z.of_nat 0)) with pos in E by (destruct room; lia).
  exists buf', r. split; [exact E|]. destruct r as [k|e].
  - destruct Hr as (labels & H1 & _ & H3 & H4). by exists labels.
  - destruct Hr as (-> & H2 & H3). split; [done|]. split; [|done]. intros labels H. pose proof (name_short data len off labels H) as Hs.
    specialize (H2 labels H). rewrite uwrap_small in H2; lia.
Qed.
End Decode.

(** ** Copying *)

(** The encoding without pointers. *)
Definition wire (labels : list (list Z)) : list Z := concat (map (fun label => zlen label :: label) labels) ++ [0].

Lemma wire_cons label labels : wire (label :: labels) = (zlen label :: label) ++ wire labels.
Proof. unfold wire. cbn [map concat]. by rewrite <- app_assoc. Qed.

Lemma put_at_append pos n s t buf : has_room pos n buf ->
  mem_put (put_at pos n s buf) (pos + zlen s) (take (Z.to_nat (n - zlen s)) t) = Some (put_at pos n (s ++ t) buf).
Proof.
  intros Hr. pose proof (put_at_more pos n s t buf Hr) as H. destruct (Z.le_gt_cases (zlen s) n); [by rewrite Z.min_r in H by lia|].
  replace (Z.to_nat (n - zlen s)) with 0%nat in * by lia. exact H.
Qed.

(** A label with its length. *)
Lemma read_with_length data len off l k : len <= zlen data -> mem_byte data off = Some l -> 0 <= off -> 0 <= l -> off + 1 + l <= len -> 0 <= k <= 1 + l ->
  mem_read data off k = Some (take (Z.to_nat k) (l :: take (Z.to_nat l) (drop (Z.to_nat (off + 1)) data))).
Proof.
  intros Hlen Hb Ho Hl Hfit Hk. destruct (name_read data len Hlen off k ltac:(lia) ltac:(lia) ltac:(lia)) as [-> _]. f_equal.
  unfold mem_byte in Hb. rewrite (proj2 (Z.leb_le 0 off)) in Hb by lia. rewrite (drop_S _ _ _ Hb).
  replace (Z.to_nat (off + 1)) with (S (Z.to_nat off)) by lia. destruct (Z.to_nat k) as [|k'] eqn:Ek; [done|]. cbn [take]. f_equal.
  rewrite take_take. f_equal. lia.
Qed.

Section Copying.
Context (a : arch) (data : list Z) (len : Z).
Hypothesis data_bytes : bytes_ok data.
Hypothesis len_ok : len <= zlen data.
Context (start dst_len bound : Z) (dst : list Z).
Hypothesis room : has_room start (Z.max 0 (dst_len - start)) dst.
Hypothesis start_ok : 0 <= start.
Hypothesis no_wrap : start + bound < 2 ^ size_bits a.
Hypothesis bound_small : bound < 2 ^ 31.
Abbreviation space := (Z.max 0 (dst_len - start)).

Lemma copy_loop_ok o limit : forall off s, bytes_ok s -> 0 <= off -> zlen s + 64 * Z.of_nat limit <= bound ->
  exists dst' r, dns_copy_loop a limit (DnsName data o len) off (put_at start space s dst) start dst_len (start + zlen s) = Some (dst', r)
    /\ match r with
       | Ok k => exists labels, name_at data len off labels /\ (length labels < limit)%nat
           /\ k = zlen (s ++ wire labels) /\ k <= bound /\ dst' = put_at start space (s ++ wire labels) dst
       | Err e => e = EINVAL /\ (forall labels, name_at data len off labels -> (limit <= length labels)%nat) /\ exists t, bytes_ok t /\ dst' = put_at start space t dst
       end.
Proof.
  induction limit as [|limit IH]; intros off s Hsb Hoff Hb; cbn [dns_copy_loop].
  { eexists _, _. split; [done|]. split; [done|]. split; [intros; lia|by exists s]. }
  destruct (dns_label_ok data len data_bytes len_ok o off Hoff) as (r & -> & Hr). destruct r as [off'|e]; cbn [label_spec] in Hr.
  2: { destruct Hr as [-> Hr]. eexists _, _. split; [done|]. split; [done|]. split; [intros labels H; by destruct (Hr labels)|by exists s]. }
  destruct Hr as (Ho & Heq & _ & l & El & Hl & Hlen). cbn [dn_data]. rewrite El.
  set (copy_len := if 1 + l <? _ then 1 + l else _).
  assert (Hcopy : copy_len = Z.min (1 + l) (Z.max 0 (space - zlen s))).
  { unfold copy_len. destruct (Z.ltb_spec (start + zlen s) dst_len), (Z.ltb_spec (1 + l) (dst_len - (start + zlen s))); try lia; destruct (Z.ltb_spec (1 + l) 0); lia. }
  rewrite (read_with_length data len off' l copy_len) by (try done; lia).
  set (label := take (Z.to_nat l) (drop (Z.to_nat (off' + 1)) data)).
  destruct (name_read data len len_ok (off' + 1) l ltac:(lia) ltac:(lia) ltac:(lia)) as [_ Hz]. fold label in Hz.
  assert (Etake : take (Z.to_nat copy_len) (l :: label) = take (Z.to_nat (space - zlen s)) (l :: label)).
  { destruct (Z.le_gt_cases (1 + l) (space - zlen s)); [rewrite !take_ge by (cbn [length]; lia); done|]. f_equal. lia. }
  rewrite Etake, put_at_append by done. rewrite uwrap_small by lia.
  replace (start + zlen s + (1 + l)) with (start + zlen (s ++ l :: label)) by (rewrite zlen_app; cbn [length]; lia).
  destruct (Z.eqb_spec l 0) as [->|Hl0].
  { pose proof (name_at_nil data len off' El ltac:(lia)) as Hnil. assert (label = []) as -> by done.
    eexists _, _. split; [done|]. exists []. split; [by apply Heq, Hnil|]. split; [cbn; lia|].
    rewrite zlen_app. cbn [length]. rewrite swrap_small by (try change (2 ^ (32 - 1)) with (2 ^ 31); lia).
    split; [unfold wire; cbn; rewrite zlen_app; cbn [length]; lia|]. split; [lia|done]. }
  pose proof (name_at_cons data len len_ok off' l El ltac:(lia) ltac:(lia) ltac:(lia)) as Hcons. fold label in Hcons.
  assert (Hsb' : bytes_ok (s ++ l :: label)).
  { apply Forall_app_2; [done|]. constructor; [unfold byte_ok; lia|]. by apply Forall_take, Forall_drop. }
  destruct (IH (off' + (1 + l)) (s ++ l :: label) Hsb' ltac:(lia)) as (dst' & r & -> & Hr); [rewrite zlen_app; cbn [length]; lia|].
  exists dst', r. split; [done|]. destruct r as [k|e].
  - destruct Hr as (labels & H1 & H2 & H3 & H4 & H5). exists (label :: labels). split; [apply Heq, Hcons; by exists labels|]. split; [cbn; lia|].
    rewrite wire_cons, Hz, app_assoc. done.
  - destruct Hr as (-> & H2 & H3). split; [done|]. split; [|done]. intros labels H. apply Heq, Hcons in H as (rest & -> & H).
    specialize (H2 rest H). cbn. lia.
Qed.

Lemma dns_copy_ok off : 0 <= off -> 0 <= len -> 64 * len <= bound ->
  exists dst' r, dns_copy a (DnsName data off len) (DnsName dst start dst_len) = Some (dst', r)
    /\ match r with
       | Ok k => exists labels, name_at data len off labels /\ k = zlen (wire labels) /\ k <= bound /\ dst' = put_at start space (wire labels) dst
       | Err e => e = EINVAL /\ (forall labels, ~ name_at data len off labels) /\ exists t, bytes_ok t /\ dst' = put_at start space t dst
       end.
Proof.
  intros Hoff Hl Hsize. unfold dns_copy. cbn [dn_len dn_offset dn_data]. rewrite uwrap_small by lia.
  destruct (copy_loop_ok off (Z.to_nat len) off [] ltac:(constructor) Hoff) as (dst' & r & E & Hr); [cbn; lia|].
  rewrite put_at_nil, Z.add_0_r in E. exists dst', r. split; [exact E|]. destruct r as [k|e].
  - destruct Hr as (labels & H1 & _ & H3 & H4 & H5). by exists labels.
  - destruct Hr as (-> & H2 & H3). split; [done|]. split; [|done]. intros labels H. pose proof (name_short data len off labels H) as Hs.
    specialize (H2 labels H). lia.
Qed.
End Copying.

(** A name without pointers. *)
Lemma wire_name A labels B len : Forall (fun label => 0 < zlen label < 64) labels -> zlen A + zlen (wire labels) <= len ->
  name_at (A ++ wire labels ++ B) len (zlen A) labels.
Proof.
  revert A. induction labels as [|label labels IH]; intros A Hf Hlen.
  { apply name_root; [cbn in Hlen; lia|]. change (wire []) with [0]. by apply mem_byte_app. }
  apply Forall_cons in Hf as [Hl Hf]. rewrite wire_cons, zlen_app in Hlen. cbn [length] in Hlen. rewrite wire_cons.
  eapply (name_label _ _ _ (zlen label)).
  - lia.
  - cbn [app]. by apply mem_byte_app.
  - done.
  - lia.
  - replace (A ++ ((zlen label :: label) ++ wire labels) ++ B) with ((A ++ [zlen label]) ++ label ++ (wire labels ++ B)) by (cbn; rewrite <- !app_assoc; done).
    replace (zlen A + 1) with (zlen (A ++ [zlen label])) by (rewrite zlen_app; done). apply mem_read_at.
  - replace (A ++ ((zlen label :: label) ++ wire labels) ++ B) with ((A ++ zlen label :: label) ++ wire labels ++ B) by (cbn; rewrite <- !app_assoc; done).
    replace (zlen A + 1 + zlen label) with (zlen (A ++ zlen label :: label)) by (rewrite zlen_app; cbn [length]; lia).
    apply IH; [done|]. rewrite zlen_app. cbn [length]. lia.
Qed.

(** ** Skipping *)

(** The end of the part of a name that lies at its position. *)
Inductive name_end (data : list Z) (len : Z) : Z -> Z -> Prop :=
| end_root off : 0 <= off < len -> mem_byte data off = Some 0 -> name_end data len off (off + 1)
| end_pointer off high : 0 <= off -> off + 2 <= len -> mem_byte data off = Some high -> 64 <= high -> name_end data len off (off + 2)
| end_label off l stop : 0 <= off -> mem_byte data off = Some l -> 0 < l < 64 -> off + 1 + l <= len ->
    name_end data len (off + 1 + l) stop -> name_end data len off stop.

Lemma name_end_range data len off stop : name_end data len off stop -> off < stop <= len.
Proof. induction 1; lia. Qed.

Section Skip.
Context (data : list Z) (len : Z).
Hypothesis data_bytes : bytes_ok data.
Hypothesis len_ok : len <= zlen data.

Lemma label_moved o off off' : dns_label (DnsName data o len) off = Some (Ok off') -> 0 <= off -> off' <> off ->
  exists high, mem_byte data off = Some high /\ 64 <= high.
Proof.
  unfold dns_label. cbn [label_loop dn_data dn_len]. intros E Ho Hne. destruct (Z.ltb_spec len (off + 1)); [done|].
  destruct (name_byte data len data_bytes len_ok off ltac:(lia)) as (b & Eb & Hb). rewrite Eb, byte_compressed in E by done.
  destruct (Z.leb_spec 64 b); [by exists b|]. case_match; [done|]. simplify_eq.
Qed.

Lemma skip_loop_ok o limit : forall off, 0 <= off ->
  exists r, skip_loop limit (DnsName data o len) off = Some r
    /\ match r with
       | Ok stop => name_end data len off stop
       | Err e => e = EINVAL /\ forall labels, name_at data len off labels -> (limit <= length labels)%nat
       end.
Proof.
  induction limit as [|limit IH]; intros off Hoff; cbn [skip_loop].
  { eexists. split; [done|]. split; [done|]. intros. lia. }
  destruct (dns_label_ok data len data_bytes len_ok o off Hoff) as (r & Er & Hr). rewrite Er. destruct r as [off'|e]; cbn [label_spec] in Hr.
  2: { destruct Hr as [-> Hr]. eexists. split; [done|]. split; [done|]. intros labels H. by destruct (Hr labels). }
  destruct Hr as (Ho & Heq & Hmove & l & El & Hl & Hlen). destruct (Z.eqb_spec off' off) as [->|Hne]; cbn [negb].
  2: { destruct (label_moved o off off' Er Hoff Hne) as (high & Eh & Hh). eexists. split; [done|]. apply (end_pointer _ _ _ high); [lia|by apply Hmove|done|done]. }
  cbn [dn_data]. rewrite El. destruct (Z.eqb_spec l 0) as [->|Hl0].
  { eexists. split; [done|]. rewrite Z.add_0_r. apply end_root; [lia|done]. }
  destruct (IH (off + (1 + l)) ltac:(lia)) as (r & -> & Hr). exists r. split; [done|]. destruct r as [stop|e].
  - apply (end_label _ _ _ l); [lia|done|lia|lia|]. by rewrite <- Z.add_assoc.
  - destruct Hr as [-> Hr]. split; [done|]. intros labels H.
    apply (name_at_cons data len len_ok off l El) in H as (rest & -> & H); [|lia..]. specialize (Hr rest H). cbn. lia.
Qed.

Lemma dns_skip_ok off : 0 <= off -> 0 <= len < 2 ^ 32 ->
  exists r, dns_skip (DnsName data off len) = Some r
    /\ match r with
       | Ok stop => name_end data len off stop
       | Err e => e = EINVAL /\ forall labels, ~ name_at data len off labels
       end.
Proof.
  intros Hoff Hsize. unfold dns_skip. cbn [dn_len dn_offset]. rewrite uwrap_small by lia.
  destruct (skip_loop_ok off (Z.to_nat len) off Hoff) as (r & E & Hr). exists r. split; [exact E|]. destruct r as [stop|e]; [done|].
  destruct Hr as (-> & H2). split; [done|]. intros labels H. pose proof (name_short data len off labels H) as Hs. specialize (H2 labels H). lia.
Qed.

Lemma skip_empty_ok o fuel : forall off, 0 <= off <= len -> len - off <= Z.of_nat fuel ->
  exists off', skip_empty fuel (DnsName data o len) off = Some off' /\ off <= off' <= len
    /\ (off' = len \/ exists b, mem_byte data off' = Some b /\ b <> 0).
Proof.
  induction fuel as [|fuel IH]; intros off Ho Hf; cbn [skip_empty].
  { exists off. split; [done|]. split; [lia|]. left. lia. }
  cbn [dn_len dn_data]. destruct (Z.ltb_spec off len); cbn [negb].
  2: { exists off. split; [done|]. split; [lia|]. left. lia. }
  destruct (name_byte data len data_bytes len_ok off ltac:(lia)) as (b & Eb & _). rewrite Eb. destruct (Z.eqb_spec b 0) as [->|].
  - destruct (IH (off + 1) ltac:(lia) ltac:(lia)) as (off' & -> & H1 & H2). exists off'. split; [done|]. split; [lia|done].
  - exists off. split; [done|]. split; [lia|]. right. by exists b.
Qed.

Lemma dns_skip_search_ok off : 0 <= off -> 0 <= len < 2 ^ 32 ->
  exists r, dns_skip_search (DnsName data off len) = Some r
    /\ match r with
       | Ok next => off < next <= len
       | Err e => e = EINVAL /\ forall labels, ~ name_at data len off labels
       end.
Proof.
  intros Hoff Hsize. unfold dns_skip_search. destruct (dns_skip_ok off Hoff Hsize) as (r & -> & Hr). destruct r as [stop|e].
  - apply name_end_range in Hr. cbn [dn_len]. destruct (skip_empty_ok off (Z.to_nat (len - stop)) stop ltac:(lia) ltac:(lia)) as (next & -> & Hn & _).
    eexists. split; [done|]. cbn. lia.
  - eexists. split; [done|]. done.
Qed.
End Skip.

(** ** Comparing *)

Definition fold_case (labels : list (list Z)) : list (list Z) := map (map tolower) labels.

Section Compare.
Context (data1 data2 : list Z) (len1 len2 : Z).
Hypothesis data1_bytes : bytes_ok data1.
Hypothesis data2_bytes : bytes_ok data2.
Hypothesis len1_ok : len1 <= zlen data1.
Hypothesis len2_ok : len2 <= zlen data2.

Lemma compare_bytes_ok n : forall i j, 0 <= i -> 0 <= j -> i + Z.of_nat n <= zlen data1 -> j + Z.of_nat n <= zlen data2 ->
  compare_bytes n data1 data2 i j
  = Some (bool_decide (map tolower (take n (drop (Z.to_nat i) data1)) = map tolower (take n (drop (Z.to_nat j) data2)))).
Proof.
  induction n as [|n IH]; intros i j Hi Hj H1 H2; cbn [compare_bytes]; [done|].
  destruct (name_byte data1 (zlen data1) data1_bytes ltac:(lia) i ltac:(lia)) as (x & Ex & _).
  destruct (name_byte data2 (zlen data2) data2_bytes ltac:(lia) j ltac:(lia)) as (y & Ey & _). rewrite Ex, Ey.
  unfold mem_byte in Ex, Ey. rewrite (proj2 (Z.leb_le 0 i)) in Ex by lia. rewrite (proj2 (Z.leb_le 0 j)) in Ey by lia.
  rewrite (drop_S _ _ _ Ex), (drop_S _ _ _ Ey). cbn [take map]. rewrite IH by lia.
  replace (Z.to_nat (i + 1)) with (S (Z.to_nat i)) by lia. replace (Z.to_nat (j + 1)) with (S (Z.to_nat j)) by lia.
  destruct (Z.eqb_spec (tolower x) (tolower y)) as [E|E]; cbn [negb].
  - f_equal. apply bool_decide_ext. rewrite E. split; [congruence|]. by intros [= ?].
  - f_equal. symmetry. apply bool_decide_eq_false. intros [= ? ?]. done.
Qed.

Lemma compare_loop_ok o1 o2 limit : forall off1 off2, 0 <= off1 -> 0 <= off2 ->
  exists r, compare_loop limit (DnsName data1 o1 len1) (DnsName data2 o2 len2) off1 off2 = Some r
    /\ match r with
       | Ok _ => exists labels1 labels2, name_at data1 len1 off1 labels1 /\ name_at data2 len2 off2 labels2 /\ fold_case labels1 = fold_case labels2
       | Err e => forall labels1 labels2, name_at data1 len1 off1 labels1 -> name_at data2 len2 off2 labels2 -> (length labels1 < limit)%nat ->
           e = ENOENT /\ fold_case labels1 <> fold_case labels2
       end.
Proof.
  induction limit as [|limit IH]; intros off1 off2 Ho1 Ho2; cbn [compare_loop].
  { eexists. split; [done|]. intros l1 l2 _ _ H. lia. }
  destruct (dns_label_ok data1 len1 data1_bytes len1_ok o1 off1 Ho1) as (r & -> & Hr). destruct r as [p1|e]; cbn [label_spec] in Hr.
  2: { destruct Hr as [-> Hr]. eexists. split; [done|]. intros l1 l2 H. by destruct (Hr l1). }
  destruct Hr as (Hp1 & Heq1 & _ & n1 & E1 & Hn1 & Hl1).
  destruct (dns_label_ok data2 len2 data2_bytes len2_ok o2 off2 Ho2) as (r & -> & Hr). destruct r as [p2|e]; cbn [label_spec] in Hr.
  2: { destruct Hr as [-> Hr]. eexists. split; [done|]. intros l1 l2 _ H. by destruct (Hr l2). }
  destruct Hr as (Hp2 & Heq2 & _ & n2 & E2 & Hn2 & Hl2). cbn [dn_data]. rewrite E1, E2.
  assert (C1 : 0 < n1 -> forall labels, name_at data1 len1 off1 labels <-> exists rest, labels = take (Z.to_nat n1) (drop (Z.to_nat (p1 + 1)) data1) :: rest
    /\ name_at data1 len1 (p1 + (1 + n1)) rest) by (intros; rewrite Heq1; apply name_at_cons; try done; lia).
  assert (C2 : 0 < n2 -> forall labels, name_at data2 len2 off2 labels <-> exists rest, labels = take (Z.to_nat n2) (drop (Z.to_nat (p2 + 1)) data2) :: rest
    /\ name_at data2 len2 (p2 + (1 + n2)) rest) by (intros; rewrite Heq2; apply name_at_cons; try done; lia).
  assert (N1 : n1 = 0 -> forall labels, name_at data1 len1 off1 labels <-> labels = []) by (intros ->; intros; rewrite Heq1; apply name_at_nil; [done|lia]).
  assert (N2 : n2 = 0 -> forall labels, name_at data2 len2 off2 labels <-> labels = []) by (intros ->; intros; rewrite Heq2; apply name_at_nil; [done|lia]).
  destruct (name_read data1 len1 len1_ok (p1 + 1) n1 ltac:(lia) ltac:(lia) ltac:(lia)) as [_ Z1].
  destruct (name_read data2 len2 len2_ok (p2 + 1) n2 ltac:(lia) ltac:(lia) ltac:(lia)) as [_ Z2].
  destruct (Z.eqb_spec n1 n2) as [<-|Hne]; cbn [negb].
  2: { eexists. split; [done|]. intros l1 l2 H1 H2 _. split; [done|]. intros E.
       destruct (Z.eq_dec n1 0) as [Z0|Z0], (Z.eq_dec n2 0) as [Y0|Y0]; [lia| | |].
       - apply N1 in H1; [|done]. apply C2 in H2 as (rest & -> & _); [|lia]. by subst l1.
       - apply N2 in H2; [|done]. apply C1 in H1 as (rest & -> & _); [|lia]. by subst l2.
       - apply C1 in H1 as (r1 & -> & _); [|lia]. apply C2 in H2 as (r2 & -> & _); [|lia]. injection E as E _.
         apply (f_equal length) in E. rewrite !length_map in E. lia. }
  destruct (Z.eqb_spec n1 0) as [Z0|Z0].
  { eexists. split; [done|]. exists [], []. split; [by apply N1|]. split; [by apply N2|done]. }
  rewrite compare_bytes_ok by lia. destruct (bool_decide_reflect (map tolower (take (Z.to_nat n1) (drop (Z.to_nat (p1 + 1)) data1))
    = map tolower (take (Z.to_nat n1) (drop (Z.to_nat (p2 + 1)) data2)))) as [Esame|Ediff]; cbn [negb].
  2: { eexists. split; [done|]. intros l1 l2 H1 H2 _. split; [done|]. apply C1 in H1 as (r1 & -> & _); [|lia]. apply C2 in H2 as (r2 & -> & _); [|lia].
       intros [= E _]. done. }
  destruct (IH (p1 + (1 + n1)) (p2 + (1 + n1)) ltac:(lia) ltac:(lia)) as (r & -> & Hr). exists r. split; [done|]. destruct r as [[]|e].
  - destruct Hr as (l1 & l2 & H1 & H2 & E). eexists (_ :: l1), (_ :: l2). split; [apply C1; [lia|by exists l1]|]. split; [apply C2; [lia|by exists l2]|].
    unfold fold_case in *. cbn [map]. by rewrite Esame, E.
  - intros l1 l2 H1 H2 Hlim. apply C1 in H1 as (r1 & -> & H1); [|lia]. apply C2 in H2 as (r2 & -> & H2); [|lia]. cbn in Hlim.
    destruct (Hr r1 r2 H1 H2 ltac:(lia)) as [-> Hd]. split; [done|]. intros [= _ E]. done.
Qed.

Lemma dns_compare_ok off1 off2 : 0 <= off1 -> 0 <= off2 -> 0 <= len1 < 2 ^ 32 ->
  exists r, dns_compare (DnsName data1 off1 len1) (DnsName data2 off2 len2) = Some r
    /\ match r with
       | Ok _ => exists labels1 labels2, name_at data1 len1 off1 labels1 /\ name_at data2 len2 off2 labels2 /\ fold_case labels1 = fold_case labels2
       | Err e => forall labels1 labels2, name_at data1 len1 off1 labels1 -> name_at data2 len2 off2 labels2 ->
           e = ENOENT /\ fold_case labels1 <> fold_case labels2
       end.
Proof.
  intros Ho1 Ho2 Hlen. unfold dns_compare. cbn [dn_len dn_offset]. rewrite uwrap_small by lia.
  destruct (compare_loop_ok off1 off2 (Z.to_nat len1) off1 off2 Ho1 Ho2) as (r & E & Hr). exists r. split; [exact E|]. destruct r; [done|].
  intros l1 l2 H1 H2. apply Hr; [done|done|]. pose proof (name_short data1 len1 off1 l1 H1). lia.
Qed.
End Compare.

(** ** Encoding *)

(** The parts of a string between dots. *)
Fixpoint split_dots (s : list Z) : list (list Z) :=
  match s with
  | [] => [[]]
  | c :: s' => let parts := split_dots s' in if c =? 46 then [] :: parts else (c :: hd [] parts) :: tl parts
  end.

(** Without a dot at the end. *)
Fixpoint strip_dot (s : list Z) : list Z :=
  match s with
  | [] => []
  | c :: s' => if (c =? 46) && bool_decide (s' = []) then [] else c :: strip_dot s'
  end.

Definition valid_label (label : list Z) : bool := (0 <? zlen label) && (zlen label <=? DNS_MAX_LABEL_LEN).

(** The labels of a host name. *)
Definition hostname (s : list Z) : option (list (list Z)) :=
  match strip_dot s with
  | [] => Some []
  | s' => if forallb valid_label (split_dots s') then Some (split_dots s') else None
  end.

Lemma split_dots_cons s : exists l ls, split_dots s = l :: ls.
Proof. destruct s as [|c s]; cbn; [by eexists _, _|]. case_match; by eexists _, _. Qed.

Section Encode.
Context (start end_ : Z) (data0 : list Z).
Hypothesis start_ok : 0 <= start.
Hypothesis end_ok : end_ <= zlen data0.
Abbreviation space := (Z.max 0 (end_ - start)).

(** Nothing outside the space is changed. *)
Definition framed (data : list Z) : Prop :=
  length data = length data0 /\ take (Z.to_nat start) data = take (Z.to_nat start) data0
  /\ drop (Z.to_nat (start + space)) data = drop (Z.to_nat (start + space)) data0.

Lemma room : has_room start space data0.
Proof. split; lia. Qed.

Lemma framed_write data pos c : framed data -> start <= pos < end_ -> exists data', mem_write data pos [c] = Some data' /\ framed data'.
Proof.
  intros (H1 & H2 & H3) Hp. unfold mem_write. rewrite (proj2 (Z.leb_le 0 pos)) by lia. rewrite (proj2 (Z.leb_le (pos + zlen [c]) _)) by (cbn; lia).
  eexists. split; [reflexivity|]. split; [|split].
  - rewrite !length_app, length_take, length_drop. cbn. lia.
  - rewrite take_app_le by (rewrite length_take; lia). rewrite take_take. rewrite <- H2. f_equal. lia.
  - rewrite app_assoc, drop_app_ge by (rewrite length_app, length_take; cbn; lia). rewrite drop_drop, <- H3. f_equal. rewrite length_app, length_take. cbn. lia.
Qed.

(** The complete labels [W] and the current one. *)
Record encoding (W cur data : list Z) : Prop := {
  en_frame : framed data;
  en_data : zlen W + 1 + zlen cur <= space -> data = put_at start space (W ++ zlen cur :: cur) data0 }.

Lemma put_at_overwrite W x y cur : zlen W + 1 + zlen cur <= space ->
  mem_write (put_at start space (W ++ x :: cur) data0) (start + zlen W) [y] = Some (put_at start space (W ++ y :: cur) data0).
Proof.
  intros Hs. pose proof room as Hr. unfold put_at. rewrite (take_ge (W ++ x :: cur)), (take_ge (W ++ y :: cur)) by (rewrite length_app; cbn [length]; lia).
  rewrite !length_app. cbn [length]. rewrite <- !app_assoc. cbn [app].
  set (A := take (Z.to_nat start) data0). set (D := drop _ data0).
  assert (HA : zlen A = start) by (unfold A; rewrite length_take; lia).
  rewrite !app_assoc. change ((A ++ W) ++ x :: cur ++ D) with ((A ++ W) ++ [x] ++ cur ++ D). change ((A ++ W) ++ y :: cur ++ D) with ((A ++ W) ++ [y] ++ cur ++ D).
  replace (start + zlen W) with (zlen (A ++ W)) by (rewrite zlen_app; lia).
  by apply mem_write_at.
Qed.

(** One more character. *)
Lemma encoding_char W cur data c : encoding W cur data ->
  exists data', (if start + zlen W + zlen cur + 1 <? end_ then
      opt! data' := mem_write data (start + zlen W + zlen cur + 1) [c] in mem_write data' (start + zlen W + zlen cur + 1 - (zlen cur + 1)) [zlen cur + 1]
    else Some data) = Some data' /\ encoding W (cur ++ [c]) data'.
Proof.
  intros [Hf Hd]. destruct (Z.ltb_spec (start + zlen W + zlen cur + 1) end_) as [Hfit|Hfit].
  - destruct (framed_write data (start + zlen W + zlen cur + 1) c Hf ltac:(lia)) as (d1 & E1 & Hf1).
    destruct (framed_write d1 (start + zlen W + zlen cur + 1 - (zlen cur + 1)) (zlen cur + 1) Hf1 ltac:(lia)) as (d2 & E2 & Hf2).
    rewrite E1, E2. exists d2. split; [done|]. split; [done|]. intros Hs. rewrite zlen_app in Hs. cbn [length] in Hs.
    rewrite Hd in E1 by lia. replace (start + zlen W + zlen cur + 1) with (start + zlen (W ++ zlen cur :: cur)) in E1 by (rewrite zlen_app; cbn [length]; lia).
    rewrite (put_at_write start space) in E1 by (try apply room; rewrite zlen_app; cbn [length]; lia). injection E1 as <-.
    rewrite <- app_assoc in E2. cbn [app] in E2. replace (start + zlen W + zlen cur + 1 - (zlen cur + 1)) with (start + zlen W) in E2 by lia.
    rewrite (put_at_overwrite W (zlen cur) (zlen cur + 1) (cur ++ [c])) in E2 by (rewrite zlen_app; cbn [length]; lia). injection E2 as <-.
    rewrite zlen_app. done.
  - exists data. split; [done|]. split; [done|]. intros Hs. rewrite zlen_app in Hs. cbn [length] in Hs. lia.
Qed.

(** A dot. *)
Lemma encoding_dot W cur data c : encoding W cur data ->
  exists data', (if start + zlen W + zlen cur + 1 <? end_ then
      opt! data' := mem_write data (start + zlen W + zlen cur + 1) [c] in mem_write data' (start + zlen W + zlen cur + 1 - 0) [0]
    else Some data) = Some data' /\ encoding (W ++ zlen cur :: cur) [] data'.
Proof.
  intros [Hf Hd]. destruct (Z.ltb_spec (start + zlen W + zlen cur + 1) end_) as [Hfit|Hfit].
  - destruct (framed_write data (start + zlen W + zlen cur + 1) c Hf ltac:(lia)) as (d1 & E1 & Hf1).
    destruct (framed_write d1 (start + zlen W + zlen cur + 1 - 0) 0 Hf1 ltac:(lia)) as (d2 & E2 & Hf2).
    rewrite E1, E2. exists d2. split; [done|]. split; [done|]. intros Hs. rewrite zlen_app in Hs. cbn [length] in Hs.
    rewrite Hd in E1 by lia. replace (start + zlen W + zlen cur + 1) with (start + zlen (W ++ zlen cur :: cur)) in E1 by (rewrite zlen_app; cbn [length]; lia).
    rewrite (put_at_write start space) in E1 by (try apply room; rewrite zlen_app; cbn [length]; lia). injection E1 as <-.
    replace (start + zlen W + zlen cur + 1 - 0) with (start + zlen (W ++ zlen cur :: cur)) in E2 by (rewrite zlen_app; cbn [length]; lia).
    rewrite (put_at_overwrite (W ++ zlen cur :: cur) c 0 []) in E2 by (rewrite zlen_app; cbn [length]; lia). injection E2 as <-. done.
  - exists data. split; [done|]. split; [done|]. intros Hs. rewrite zlen_app in Hs. cbn [length] in Hs. lia.
Qed.

(** Labels without the root. *)
Definition wire_labels (labels : list (list Z)) : list Z := concat (map (fun label => zlen label :: label) labels).

Lemma wire_labels_app l1 l2 : wire_labels (l1 ++ l2) = wire_labels l1 ++ wire_labels l2.
Proof. unfold wire_labels. by rewrite map_app, concat_app. Qed.

(** The result of the loop, from the labels [ds] and the current label on. *)
Definition loop_result (ds : list (list Z)) (labels : list (list Z)) (r : option (list Z * res (Z * Z))) : Prop :=
  exists data', framed data' /\
  if forallb valid_label labels
  then exists pre label, labels = pre ++ [label] /\ r = Some (data', Ok (start + zlen (wire_labels (ds ++ pre)) + zlen label, zlen label))
    /\ encoding (wire_labels (ds ++ pre)) label data'
  else r = Some (data', Err EINVAL).

Lemma valid_label_short label : label <> [] -> zlen label <= DNS_MAX_LABEL_LEN -> valid_label label = true.
Proof.
  intros Hne Hmax. unfold valid_label. rewrite (proj2 (Z.leb_le _ _) Hmax). destruct label; [done|]. rewrite (proj2 (Z.ltb_lt _ _)) by (cbn [length]; lia). done.
Qed.

(** The last label ends the loop; a complete label goes to the labels before. *)
Lemma loop_result_last ds label data : label <> [] -> zlen label <= DNS_MAX_LABEL_LEN -> encoding (wire_labels ds) label data ->
  loop_result ds [label] (Some (data, Ok (start + zlen (wire_labels ds) + zlen label, zlen label))).
Proof.
  intros Hne Hmax Hen. exists data. split; [apply Hen|]. cbn [forallb]. rewrite valid_label_short by done. exists [], label. by rewrite app_nil_r.
Qed.

Lemma loop_result_cons ds label labels r : label <> [] -> zlen label <= DNS_MAX_LABEL_LEN ->
  loop_result (ds ++ [label]) labels r -> loop_result ds (label :: labels) r.
Proof.
  intros Hne Hmax (data & Hf & H). exists data. split; [done|]. cbn [forallb]. rewrite valid_label_short by done. cbn [andb].
  destruct (forallb valid_label labels); [|exact H]. destruct H as (pre & last & -> & E2 & E3). exists (label :: pre), last.
  rewrite <- app_assoc in E2, E3. done.
Qed.

Lemma wire_labels_snoc ds label : wire_labels (ds ++ [label]) = wire_labels ds ++ zlen label :: label.
Proof. rewrite wire_labels_app. unfold wire_labels at 2. cbn [map concat]. by rewrite app_nil_r. Qed.

Lemma encode_loop_ok junk s : Forall (fun c => c <> 0) s -> forall ds cur data, encoding (wire_labels ds) cur data ->
  (cur = [] -> s <> [] /\ ds <> []) -> zlen cur <= DNS_MAX_LABEL_LEN ->
  loop_result ds ((cur ++ hd [] (split_dots (strip_dot s))) :: tl (split_dots (strip_dot s)))
    (encode_loop (cstr s junk) data start end_ (start + zlen (wire_labels ds) + zlen cur) (zlen cur)).
Proof.
  unfold cstr. induction 1 as [|c s Hc Hs IH]; intros ds cur data Hen Hcur Hmax.
  - cbn [app encode_loop split_dots strip_dot hd tl Z.eqb]. rewrite app_nil_r. apply loop_result_last; try done. intros E. by destruct (Hcur E).
  - cbn [app encode_loop]. rewrite (proj2 (Z.eqb_neq c 0) Hc). cbn [strip_dot]. destruct (Z.eqb_spec c 46) as [->|Hdot].
    + destruct cur as [|x cur].
      * (* two dots *)
        assert (Hpos : 0 < zlen (wire_labels ds)).
        { destruct (Hcur eq_refl) as [_ Hd]. destruct ds as [|d ds]; [done|]. cbn. lia. }
        cbn [length Z.of_nat Z.eqb andb]. rewrite (proj2 (Z.eqb_neq _ start)) by lia. cbn [negb].
        exists data. split; [apply Hen|]. destruct (bool_decide_reflect (s = [])); cbn [andb]; [done|]. cbn [split_dots Z.eqb hd tl app forallb]. done.
      * assert (Hne : (zlen (x :: cur) =? 0) = false) by (apply Z.eqb_neq; cbn [length]; lia). rewrite Hne. cbn [andb].
        destruct s as [|c2 s].
        -- cbn [app lookup list_lookup Z.eqb]. rewrite bool_decide_true by done. cbn [split_dots hd tl]. rewrite app_nil_r. by apply loop_result_last.
        -- change (((c2 :: s) ++ 0 :: junk) !! 0%nat) with (Some c2). cbv iota beta. rewrite (proj2 (Z.eqb_neq c2 0)) by (by apply Forall_cons in Hs as [? _]).
           rewrite bool_decide_false by done. cbn [andb].
           destruct (encoding_dot (wire_labels ds) (x :: cur) data 46 Hen) as (data' & E & Hen'). rewrite E.
           set (parts := split_dots (strip_dot (c2 :: s))) in *.
           assert (Esplit : split_dots (46 :: strip_dot (c2 :: s)) = [] :: parts) by done. rewrite Esplit. cbn [hd tl]. rewrite app_nil_r.
           rewrite <- wire_labels_snoc in Hen'. specialize (IH (ds ++ [x :: cur]) [] data' Hen'). cbn [length app] in IH.
           replace (start + zlen (wire_labels ds) + zlen (x :: cur) + 1) with (start + zlen (wire_labels (ds ++ [x :: cur])) + Z.of_nat 0)
             by (rewrite wire_labels_snoc, zlen_app; cbn [length]; lia).
           assert (Eparts : hd [] parts :: tl parts = parts) by (unfold parts; destruct (split_dots_cons (strip_dot (c2 :: s))) as (? & ? & ->); done).
           fold parts in IH. rewrite Eparts in IH. apply loop_result_cons; [done|done|]. apply IH; [by destruct ds|unfold DNS_MAX_LABEL_LEN; lia].
    + destruct (encoding_char (wire_labels ds) cur data c Hen) as (data' & E & Hen').
      destruct (split_dots_cons (strip_dot s)) as (l & ls & Es).
      cbn [andb split_dots]. rewrite (proj2 (Z.eqb_neq c 46) Hdot), Es. cbn [hd tl].
      destruct (Z.ltb_spec DNS_MAX_LABEL_LEN (zlen cur + 1)) as [Hlong|Hshort].
      * exists data. split; [apply Hen|]. cbn [forallb]. replace (valid_label (cur ++ c :: l)) with false; [done|].
        symmetry. apply andb_false_iff. right. apply Z.leb_gt. rewrite zlen_app. cbn [length]. lia.
      * rewrite E. specialize (IH ds (cur ++ [c]) data' Hen'). rewrite zlen_app in IH. cbn [length] in IH.
        rewrite Es in IH. cbn [hd tl] in IH. rewrite <- app_assoc in IH. cbn [app] in IH.
        replace (start + zlen (wire_labels ds) + zlen cur + 1) with (start + zlen (wire_labels ds) + (zlen cur + Z.of_nat 1)) by lia.
        replace (zlen cur + 1) with (zlen cur + Z.of_nat 1) by lia. apply IH; [by destruct cur|lia].
Qed.

Lemma framed_start : framed data0.
Proof. done. Qed.

(** The first character. *)
Lemma encoding_first c : exists data', (if start + 1 <? end_ then
      opt! data' := mem_write data0 (start + 1) [c] in mem_write data' (start + 1 - 1) [1] else Some data0) = Some data' /\ encoding [] [c] data'.
Proof.
  destruct (Z.ltb_spec (start + 1) end_) as [Hfit|Hfit].
  - destruct (framed_write data0 (start + 1) c framed_start ltac:(lia)) as (d1 & E1 & Hf1).
    destruct (framed_write d1 (start + 1 - 1) 1 Hf1 ltac:(lia)) as (d2 & E2 & Hf2). rewrite E1, E2. exists d2. split; [done|]. split; [done|]. intros Hs.
    destruct (lookup_lt_is_Some_2 data0 (Z.to_nat start)) as [x Hx]; [lia|].
    assert (E0 : put_at start space [x] data0 = data0).
    { unfold put_at. rewrite (take_ge [x]) by (cbn [length]; lia). cbn [app length]. rewrite Nat.add_1_r, <- drop_S by done. apply take_drop. }
    rewrite <- E0 in E1. replace (start + 1) with (start + zlen [x]) in E1 by (cbn; lia).
    rewrite put_at_write in E1 by (try apply room; cbn [length]; lia). injection E1 as <-.
    pose proof (put_at_overwrite [] x 1 [c] ltac:(cbn [length]; lia)) as E3. replace (start + zlen (@nil Z)) with (start + 1 - 1) in E3 by (cbn; lia).
    cbn [app] in E2, E3. rewrite E3 in E2. by injection E2 as <-.
  - exists data0. split; [done|]. split; [done|]. cbn [length]. lia.
Qed.

(** The root label. *)
Lemma encoding_root labels data : (zlen (wire_labels labels) <= space -> data = put_at start space (wire_labels labels) data0) -> framed data ->
  exists data', (if start + zlen (wire_labels labels) <? end_ then mem_write data (start + zlen (wire_labels labels)) [0] else Some data) = Some data'
    /\ framed data' /\ (zlen (wire labels) <= space -> data' = put_at start space (wire labels) data0).
Proof.
  intros Hd Hf. unfold wire. fold (wire_labels labels). destruct (Z.ltb_spec (start + zlen (wire_labels labels)) end_) as [Hfit|Hfit].
  - destruct (framed_write data (start + zlen (wire_labels labels)) 0 Hf ltac:(lia)) as (d & E & Hf'). exists d. split; [done|]. split; [done|]. intros Hs.
    rewrite zlen_app in Hs. cbn [length] in Hs. rewrite Hd, put_at_write in E by (try apply room; lia). by injection E as <-.
  - exists data. split; [done|]. split; [done|]. rewrite zlen_app. cbn [length]. lia.
Qed.

Lemma dns_encode_ok s junk : Forall (fun c => c <> 0) s ->
  exists data', framed data' /\
  match hostname s with
  | Some labels => dns_encode (cstr s junk) (DnsName data0 start end_) = Some (data', Ok (zlen (wire labels)))
      /\ (zlen (wire labels) <= space -> data' = put_at start space (wire labels) data0)
  | None => dns_encode (cstr s junk) (DnsName data0 start end_) = Some (data', Err EINVAL)
  end.
Proof.
  intros Hs. unfold dns_encode. cbn [dn_offset dn_len dn_data].
  assert (Hempty : exists data', framed data' /\ (opt! data := (if start <? end_ then mem_write data0 start [0] else Some data0) in
      Some (data, Ok (start + 1 - start))) = Some (data', Ok (zlen (wire []))) /\ (zlen (wire []) <= space -> data' = put_at start space (wire []) data0)).
  { destruct (encoding_root [] data0) as (data' & E & Hf & Hd); [intros _; by rewrite put_at_nil|done|]. cbn [wire_labels map concat length Z.of_nat] in E.
    rewrite Z.add_0_r in E. rewrite E. exists data'. split; [done|]. split; [|done]. replace (start + 1 - start) with 1 by lia. done. }
  destruct s as [|c s]; [exact Hempty|]. apply Forall_cons in Hs as [Hc Hs]. unfold cstr. cbn [app encode_loop]. rewrite (proj2 (Z.eqb_neq c 0) Hc).
  unfold hostname. cbn [strip_dot]. destruct (Z.eqb_spec c 46) as [->|Hdot].
  - rewrite (proj2 (Z.eqb_eq start start) eq_refl). cbn [negb andb Z.eqb]. destruct s as [|c2 s]; [exact Hempty|].
    change (((c2 :: s) ++ 0 :: junk) !! 0%nat) with (Some c2). cbv iota beta. rewrite (proj2 (Z.eqb_neq c2 0)) by (by apply Forall_cons in Hs as [? _]).
    rewrite bool_decide_false by done. exists data0. split; done.
  - destruct (encoding_first c) as (data & E & Hen). change (DNS_MAX_LABEL_LEN <? 0 + 1) with false. cbv iota. change (0 + 1) with 1. rewrite E. cbn [andb].
    pose proof (encode_loop_ok junk s Hs [] [c] data Hen ltac:(done) ltac:(unfold DNS_MAX_LABEL_LEN; cbn; lia)) as (data' & Hf & H).
    change (wire_labels []) with (@nil Z) in H. cbn [length app] in H. change (start + Z.of_nat 0 + Z.of_nat 1) with (start + 0 + 1) in H. rewrite Z.add_0_r in H.
    change (Z.of_nat 1) with 1 in H. unfold cstr in H. cbn [split_dots]. rewrite (proj2 (Z.eqb_neq c 46) Hdot).
    destruct (forallb valid_label _) eqn:Hv.
    + destruct H as (pre & label & El & Er & Hen'). rewrite Er, El in *. rewrite forallb_app in Hv. apply andb_true_iff in Hv as [_ Hv]. cbn [forallb] in Hv.
      rewrite andb_true_r in Hv. unfold valid_label in Hv. apply andb_true_iff in Hv as [Hv _]. apply Z.ltb_lt in Hv.
      rewrite (proj2 (Z.eqb_neq (zlen label) 0)) by lia. cbn [negb].
      assert (EW : wire_labels pre ++ zlen label :: label = wire_labels (pre ++ [label])).
      { rewrite wire_labels_app. unfold wire_labels at 3. cbn [map concat]. by rewrite app_nil_r. }
      destruct (encoding_root (pre ++ [label]) data') as (data2 & E2 & Hf2 & Hd2).
      { rewrite <- EW. intros Hs2. apply (en_data _ _ _ Hen'). rewrite zlen_app in Hs2. cbn [length] in Hs2. lia. }
      { done. }
      rewrite <- EW, zlen_app in E2. cbn [length] in E2.
      replace (start + zlen (wire_labels pre) + zlen label + 1) with (start + (zlen (wire_labels pre) + Z.of_nat (S (length label)))) by lia.
      rewrite E2. exists data2. split; [done|]. split; [|done].
      assert (Elen : zlen (wire (pre ++ [label])) = zlen (wire_labels pre) + zlen label + 2).
      { unfold wire. fold (wire_labels (pre ++ [label])). rewrite <- EW, !zlen_app. cbn [length]. lia. }
      rewrite Elen. do 3 f_equal. lia.
    + exists data'. split; [done|]. by rewrite H.
Qed.
End Encode.

(** ** Encoding and decoding *)

Lemma dotted_from s labels : Forall (fun label => label <> []) labels -> s <> [] ->
  fold_left add_label labels s = s ++ concat (map (cons 46) labels).
Proof.
  intros Hf. revert s. induction Hf as [|l ls Hl Hls IH]; intros s Hs; cbn [fold_left map concat]; [by rewrite app_nil_r|].
  assert (E : add_label s l = s ++ 46 :: l) by (by destruct s). rewrite E, IH by (by destruct s). by rewrite <- app_assoc.
Qed.

Lemma split_dots_join s : forall l ls, split_dots s = l :: ls -> s = l ++ concat (map (cons 46) ls).
Proof.
  induction s as [|c s IH]; intros l ls E; cbn [split_dots] in E; [by injection E as <- <-|].
  destruct (split_dots_cons s) as (l' & ls' & Es). rewrite Es in E. specialize (IH l' ls' Es).
  destruct (Z.eqb_spec c 46) as [->|]; injection E as <- <-; cbn; [by rewrite IH at 1|by rewrite IH at 1].
Qed.

Lemma hostname_valid s labels : hostname s = Some labels -> Forall (fun label => 0 < zlen label < 64) labels /\ dotted labels = strip_dot s.
Proof.
  unfold hostname. destruct (strip_dot s) as [|c s'] eqn:Es; [intros [= <-]; by split; [constructor|]|].
  destruct (forallb valid_label (split_dots (c :: s'))) eqn:Hv; [|done]. intros H. assert (labels = split_dots (c :: s')) as -> by congruence. clear H.
  assert (Hf : Forall (fun label => 0 < zlen label < 64) (split_dots (c :: s'))).
  { apply Forall_forall. intros label Hl. rewrite forallb_forall in Hv. specialize (Hv label ltac:(by apply list_elem_of_In)).
    unfold valid_label, DNS_MAX_LABEL_LEN in Hv. apply andb_true_iff in Hv as [H1 H2]. apply Z.ltb_lt in H1. apply Z.leb_le in H2. lia. }
  split; [exact Hf|]. destruct (split_dots_cons (c :: s')) as (l & ls & E). rewrite E in Hf |- *. apply Forall_cons in Hf as [Hl Hf].
  unfold dotted. cbn [fold_left add_label]. rewrite dotted_from.
  - symmetry. by apply split_dots_join.
  - apply (Forall_impl _ _ _ Hf). intros x Hx ->. cbn in Hx. lia.
  - intros ->. cbn in Hl. lia.
Qed.

Lemma put_at_bytes pos n s buf : bytes_ok s -> bytes_ok buf -> bytes_ok (put_at pos n s buf).
Proof. intros Hs Hb. unfold put_at. repeat apply Forall_app_2; [by apply Forall_take|by apply Forall_take|by apply Forall_drop]. Qed.

Lemma wire_bytes labels : Forall (fun label => 0 < zlen label < 64) labels -> Forall bytes_ok labels -> bytes_ok (wire labels).
Proof.
  intros Hf Hb. induction labels as [|l ls IH]; [apply Forall_singleton; unfold byte_ok; lia|]. rewrite wire_cons.
  apply Forall_cons in Hf as [Hl Hf]. apply Forall_cons in Hb as [Hb1 Hb]. apply Forall_app_2; [constructor; [unfold byte_ok; lia|done]|by apply IH].
Qed.

Lemma split_dots_bytes s : bytes_ok s -> Forall bytes_ok (split_dots s).
Proof.
  induction 1 as [|c s Hc Hs IH]; cbn [split_dots]; [repeat constructor|]. destruct (split_dots_cons s) as (l & ls & E). rewrite E in *.
  apply Forall_cons in IH as [IHl IHls]. cbn [hd tl]. destruct (c =? 46); rewrite !Forall_cons; unfold bytes_ok in *; rewrite ?Forall_cons, ?Forall_nil; done.
Qed.

Lemma strip_dot_bytes s : bytes_ok s -> bytes_ok (strip_dot s) /\ (length (strip_dot s) <= length s)%nat.
Proof.
  induction 1 as [|c s Hc Hs [IH1 IH2]]; cbn [strip_dot]; [split; [constructor|done]|]. destruct (_ && _); [split; [constructor|cbn; lia]|].
  split; [by constructor|cbn; lia].
Qed.

Lemma hostname_bytes s labels : bytes_ok s -> hostname s = Some labels -> Forall bytes_ok labels.
Proof.
  intros Hs. unfold hostname. pose proof (proj1 (strip_dot_bytes s Hs)) as Hb. destruct (strip_dot s) as [|c s']; [intros [= <-]; constructor|].
  case_match; [|done]. intros [= <-]. exact (split_dots_bytes (c :: s') Hb).
Qed.

(** A host name (labels of one to 63 characters, with or without a dot at the
    end, or the root) that is encoded into a buffer with enough room decodes to
    itself, without the dot; every other string is refused with [EINVAL]. *)
Theorem dns_name_roundtrip s junk data start len buf :
  bytes_ok s -> Forall (fun c => c <> 0) s -> bytes_ok data -> 0 <= start -> len <= zlen data -> len < 2 ^ 32 -> zlen s < zlen buf ->
  match hostname s with
  | Some labels => start + zlen (wire labels) <= len ->
      exists data' buf', dns_encode (cstr s junk) (DnsName data start len) = Some (data', Ok (zlen (wire labels)))
        /\ mem_read data' start (zlen (wire labels)) = Some (wire labels)
        /\ dns_decode (DnsName data' start len) buf 0 (zlen buf) = Some (buf', Ok (zlen (strip_dot s)))
        /\ mem_read buf' 0 (zlen (strip_dot s) + 1) = Some (strip_dot s ++ [0])
  | None => exists data', dns_encode (cstr s junk) (DnsName data start len) = Some (data', Err EINVAL)
  end.
Proof.
  intros Hs Hnul Hdata Hstart Hlen Hsize Hbuf. destruct (dns_encode_ok start len data Hstart Hlen s junk Hnul) as (data' & Hf & H).
  destruct (hostname s) as [labels|] eqn:Hn; [|by exists data']. intros Hroom. destruct H as [E Hd]. specialize (Hd ltac:(lia)).
  destruct (hostname_valid s labels Hn) as [Hval Hdot]. pose proof (hostname_bytes s labels Hs Hn) as Hlb.
  set (n := Z.max 0 (len - start)) in *. set (A := take (Z.to_nat start) data). set (B := drop (Z.to_nat start + length (wire labels)) data).
  assert (HA : zlen A = start) by (unfold A; rewrite length_take; lia).
  assert (Ed : data' = A ++ wire labels ++ B) by (rewrite Hd; unfold put_at; rewrite (take_ge (wire labels)) by lia; done).
  assert (Hname : name_at data' len start labels) by (rewrite Ed, <- HA; apply wire_name; [done|lia]).
  assert (Hb' : bytes_ok data') by (rewrite Hd; apply put_at_bytes; [by apply wire_bytes|done]).
  destruct Hf as (Hl' & _). destruct (dns_decode_ok data' len Hb' ltac:(lia) 0 (zlen buf) buf ltac:(split; lia) start Hstart Hsize) as (buf' & r & Er & Hr).
  destruct r as [k|e]; [|destruct Hr as (_ & Hno & _); by destruct (Hno labels)].
  destruct Hr as (labels' & Hname' & -> & ->). rewrite <- (name_at_det _ _ _ _ _ Hname Hname') in *. rewrite Hdot in *.
  eexists data', _. split; [done|]. split; [rewrite Ed, <- HA; apply mem_read_at|]. split; [exact Er|].
  pose proof (proj2 (strip_dot_bytes s Hs)) as Hsl. unfold put_at. rewrite (take_ge (strip_dot s ++ [0])) by (rewrite length_app; cbn [length]; lia).
  change (take (Z.to_nat 0) buf) with (@nil Z). cbn [app]. set (t := strip_dot s ++ [0]).
  replace (zlen (strip_dot s) + 1) with (zlen t) by (unfold t; rewrite zlen_app; done). apply (mem_read_at [] t).
Qed.

Lemma dns_name_roundtrip_witness :
  (exists data' buf', dns_encode (cstr [119; 119; 46; 97; 46] [7]) (DnsName (replicate 9 1) 2 8) = Some (data', Ok 6)
     /\ mem_read data' 2 6 = Some [2; 119; 119; 1; 97; 0]
     /\ dns_decode (DnsName data' 2 8) (replicate 6 9) 0 6 = Some (buf', Ok 4) /\ mem_read buf' 0 5 = Some [119; 119; 46; 97; 0])
  /\ exists data', dns_encode (cstr [119; 46; 46; 97] []) (DnsName (replicate 9 1) 2 8) = Some (data', Err EINVAL).
Proof.
  split.
  - apply (dns_name_roundtrip [119; 119; 46; 97; 46] [7] (replicate 9 1) 2 8 (replicate 6 9)); try (apply (bool_decide_unpack _); vm_compute; exact I); vm_compute; (done || discriminate).
  - apply (dns_name_roundtrip [119; 46; 46; 97] [] (replicate 9 1) 2 8 (replicate 6 9)); try (apply (bool_decide_unpack _); vm_compute; exact I); vm_compute; (done || discriminate).
Defined.

(** C22. For every packet, whatever its bytes: a name with pointers, as the source
    reads them ([name_at]), is decoded (as far as the buffer goes) exactly when
    its labels reach the root, and the number of iterations the code allows is
    enough for all of them; everything else, cycles included, is refused.
    Nothing but the buffer is written.  In particular every name of RFC 1035 is
    decoded; besides these, names are accepted that have a reserved prefix in
    the place of that of a pointer or are longer than 255 octets
    ([dns_reserved_prefix]). *)
Theorem dns_decode_correct data len off buf pos n :
  bytes_ok data -> len <= zlen data -> len < 2 ^ 32 -> 0 <= off -> has_room pos n buf ->
  exists buf' r, dns_decode (DnsName data off len) buf pos n = Some (buf', r)
    /\ match r with
       | Ok k => exists labels, name_at data len off labels /\ k = zlen (dotted labels) /\ buf' = put_at pos n (dotted labels ++ [0]) buf
       | Err e => e = EINVAL /\ (forall labels, ~ name_at data len off labels) /\ exists t, buf' = put_at pos n t buf
       end
    /\ (forall labels, rfc1035_name data len off labels -> r = Ok (zlen (dotted labels)) /\ buf' = put_at pos n (dotted labels ++ [0]) buf).
Proof.
  intros Hb Hl Hs Ho Hr. destruct (dns_decode_ok data len Hb Hl pos n buf Hr off Ho Hs) as (buf' & r & E & H). exists buf', r. split; [done|]. split; [done|].
  intros labels [Hn%rfc1035_read _]; [|done]. destruct r as [k|e]; [|by destruct H as (_ & H & _); destruct (H labels)].
  destruct H as (labels' & H' & -> & ->). by rewrite (name_at_det _ _ _ _ _ Hn H').
Qed.

(** A label that ends in a pointer to itself, and one that ends in a pointer to a
    root. *)
Lemma dns_decode_correct_witness :
  (forall labels, ~ name_at [7; 1; 97; 192; 1; 0] 6 1 labels)
  /\ dns_decode (DnsName [0; 1; 97; 192; 0] 1 5) (replicate 5 9) 1 3 = Some ([9; 97; 0; 9; 9], Ok 1).
Proof.
  split.
  - destruct (dns_decode_correct [7; 1; 97; 192; 1; 0] 6 1 (replicate 5 9) 1 3) as (buf' & r & E & H & _);
      [apply (bool_decide_unpack _); vm_compute; exact I|vm_compute; discriminate|lia|lia|split; cbn; lia|].
    vm_compute in E. injection E as <- <-. apply H.
  - destruct (dns_decode_correct [0; 1; 97; 192; 0] 5 1 (replicate 5 9) 1 3) as (buf' & r & E & _ & H);
      [apply (bool_decide_unpack _); vm_compute; exact I|vm_compute; discriminate|lia|lia|split; cbn; lia|].
    destruct (H [[97]]) as [-> ->]; [|exact E]. split; [|vm_compute; discriminate].
    apply (rfc_label _ _ 1 1 [97] []); [lia|reflexivity|lia|lia|reflexivity|].
    apply (rfc_pointer _ _ 3 192 0 []); [lia|lia|reflexivity|reflexivity|lia|lia|]. apply rfc_root; [lia|reflexivity].
Defined.

(** The octet 64, whose prefix is reserved, is followed as a pointer. *)
Example dns_reserved_prefix : dns_decode (DnsName [0; 64; 0] 1 3) [9; 9] 0 2 = Some ([0; 9], Ok 0)
  /\ forall labels, ~ rfc1035_name [0; 64; 0] 3 1 labels.
Proof.
  split; [vm_compute; reflexivity|]. intros labels [H _].
  inversion H as [? ? Hm|? ? ? ? ? Hm|? ? ? ? ? ? Hm]; vm_compute in Hm; injection Hm as Hm; lia.
Qed.
