(* ===== verification/DnsResolver.v ===== *)
(** * The DNS resolver: queries, answers and the life of a lookup *)
From S2P Require Import Prelude Strings Memory Dns DnsNames.

(** ** Queries *)

(** The header after the identifier: recursion desired, one question. *)
Definition query_header : list Z := be16 DNS_FLAG_RD ++ be16 1 ++ replicate 6 0.

Lemma query_header_bytes : bytes_ok query_header.
Proof. apply (bool_decide_unpack _). vm_compute. exact I. Qed.

Definition question_types : list Z := [DNS_TYPE_A; DNS_TYPE_AAAA; DNS_TYPE_CNAME].
Definition labels_ok (labels : list (list Z)) : Prop := Forall (fun label => 0 < zlen label < 64) labels /\ Forall bytes_ok labels.

(** A packet that asks for a name. *)
Definition query_packet (id : list Z) (labels : list (list Z)) (type : Z) : list Z :=
  id ++ query_header ++ wire labels ++ be16 type ++ be16 DNS_CLASS_IN.

Record buffer_ok (buf id rest : list Z) : Prop := {
  bo_buf : buf = id ++ query_header ++ rest;
  bo_id : length id = 2%nat;
  bo_rest : length rest = 259%nat;
  bo_bytes : bytes_ok buf }.

(** The buffer holds a query. *)
Record query_ok (dns : dns_request) (id : list Z) (labels : list (list Z)) (type : Z) (junk : list Z) : Prop := {
  qo_buffer : buffer_ok (dr_buf dns) id (wire labels ++ be16 type ++ be16 DNS_CLASS_IN ++ junk);
  qo_labels : labels_ok labels;
  qo_type : type ∈ question_types;
  qo_question : dr_question dns = OFF_NAME + zlen (wire labels);
  qo_len : dr_len dns = dr_question dns + QUESTION_LEN;
  qo_name : dr_name_offset dns = OFF_NAME }.

(** The search list, and that its current entry is a name. *)
Record search_ok (search : dns_name) : Prop := {
  so_len : dn_len search = zlen (dn_data search);
  so_small : dn_len search <= 2 ^ 16;
  so_bytes : bytes_ok (dn_data search);
  so_offset : 0 <= dn_offset search <= dn_len search }.

Definition entry_ok (search : dns_name) : Prop :=
  dn_offset search < dn_len search -> exists labels, name_at (dn_data search) (dn_len search) (dn_offset search) labels.

Lemma size_room a : 2 ^ 32 <= 2 ^ size_bits a.
Proof. apply Z.pow_le_mono_r; [lia|]. apply size_bits_large. Qed.

Lemma buffer_length buf id rest : buffer_ok buf id rest -> length buf = 271%nat.
Proof. intros [-> H1 H2 _]. rewrite !length_app, H1, H2. done. Qed.

Lemma wire_pos labels : 1 <= zlen (wire labels).
Proof. unfold wire. rewrite zlen_app. cbn [length]. lia. Qed.

Lemma wire_app base labels : wire (base ++ labels) = concat (map (fun label => zlen label :: label) base) ++ wire labels.
Proof. unfold wire. by rewrite map_app, concat_app, <- app_assoc. Qed.

Lemma name_labels_ok data len off labels : bytes_ok data -> len <= zlen data -> name_at data len off labels -> labels_ok labels.
Proof.
  intros Hb Hl H. split; [by apply (name_labels data len Hl off)|]. induction H; [constructor| |done]. constructor; [|done].
  destruct (name_read data len Hl (off + 1) l ltac:(lia) ltac:(lia) ltac:(lia)) as [E _]. simplify_eq. by apply Forall_take, Forall_drop.
Qed.

Section Resolver.
Context (a : arch) (einval : Z).
(** [EINVAL] is a number of the POSIX range 0x1c. *)
Hypothesis einval_range : 0x1c000000 <= einval < 0x1d000000.

(** The suffix that is used: the current entry of the search list or the root. *)
Definition suffix_of (search : dns_name) : dns_name := if dn_offset search =? dn_len search then search_root else search.

Lemma suffix_ok search : search_ok search -> bytes_ok (dn_data (suffix_of search)) /\ 0 <= dn_offset (suffix_of search)
  /\ 0 <= dn_len (suffix_of search) <= 2 ^ 16 /\ dn_len (suffix_of search) <= zlen (dn_data (suffix_of search)).
Proof.
  intros [H1 H2 H3 H4]. unfold suffix_of. destruct (_ =? _).
  - cbn. split; [apply Forall_singleton; unfold byte_ok; lia|lia].
  - split; [done|]. lia.
Qed.

(** Everything that building a question leaves alone. *)
Definition same_lookup (dns dns' : dns_request) : Prop :=
  dr_timer dns' = dr_timer dns /\ dr_address dns' = dr_address dns /\ dr_qtype dns' = dr_qtype dns /\ dr_offset dns' = dr_offset dns
  /\ dr_search dns' = dr_search dns /\ dr_index dns' = dr_index dns /\ dr_recursion dns' = dr_recursion dns /\ dr_sent dns' = dr_sent dns
  /\ dr_result dns' = dr_result dns /\ dr_done dns' = dr_done dns.

(** Labels [base] before the suffix, or no room for any suffix. *)
Definition base_at (dns : dns_request) (base : list (list Z)) (rest : list Z) : Prop :=
  labels_ok base /\ dr_offset dns = OFF_NAME + zlen (concat (map (fun label => zlen label :: label) base))
  /\ exists junk, rest = concat (map (fun label => zlen label :: label) base) ++ junk.
Definition base_long (dns : dns_request) : Prop := OFF_PADDING <= dr_offset dns /\ dr_offset dns + 2 ^ 22 < 2 ^ size_bits a.

(** The writes that complete a question of the given type, behind the labels
    [wb] of the base. *)
Lemma question_written id wb junk suffix type n : length id = 2%nat -> OFF_NAME + zlen wb + zlen junk = 271 ->
  OFF_NAME + zlen wb + zlen (wire suffix) <= OFF_PADDING -> zlen (wire suffix) <= n ->
  exists buf, mem_write (put_at (OFF_NAME + zlen wb) n (wire suffix) (id ++ query_header ++ wb ++ junk)) (OFF_NAME + zlen wb + zlen (wire suffix))
      (be16 type ++ be16 DNS_CLASS_IN) = Some buf
    /\ mem_write buf 0 [0; 0]
       = Some ([0; 0] ++ query_header ++ (wb ++ wire suffix) ++ be16 type ++ be16 DNS_CLASS_IN ++ drop 4 (drop (length (wire suffix)) junk)).
Proof.
  intros Hid Hjunk Hfit Hn. set (P := id ++ query_header ++ wb). set (D := drop (length (wire suffix)) junk). set (q := be16 type ++ be16 DNS_CLASS_IN).
  assert (HP : zlen P = OFF_NAME + zlen wb) by (unfold P; rewrite !zlen_app, Hid; change (zlen query_header) with 10; unfold OFF_NAME; lia).
  assert (HD : (4 <= length D)%nat) by (unfold D; rewrite length_drop; unfold OFF_PADDING, OFF_NAME, DNS_MAX_NAME_LEN in *; lia).
  exists (P ++ wire suffix ++ q ++ drop 4 D). split.
  - unfold put_at. rewrite (take_ge (wire suffix)) by lia. rewrite <- HP, Nat2Z.id.
    replace (id ++ query_header ++ wb ++ junk) with (P ++ junk) by (unfold P; by rewrite <- !app_assoc).
    rewrite take_app_length, <- drop_drop, drop_app_length. fold D. rewrite <- (take_drop 4 D) at 1. rewrite !app_assoc, <- (app_assoc (P ++ wire suffix)).
    rewrite <- zlen_app, mem_write_at by (rewrite length_take; change (length q) with 4%nat; lia). by rewrite <- !app_assoc.
  - unfold P, q. rewrite <- !app_assoc. apply (mem_write_at [] id [0; 0]). done.
Qed.

(** A question is built, with the suffix after the base, unless the name would
    be too long or the suffix is no name. *)
Lemma dns_question_ok dns id rest known : buffer_ok (dr_buf dns) id rest -> search_ok (dr_search dns) -> dr_qtype dns ∈ question_types ->
  match known with Some base => base_at dns base rest | None => base_long dns end ->
  exists dns' rc, dns_question a dns = Some (dns', rc) /\ same_lookup dns dns'
    /\ match rc with
       | Ok _ => exists base suffix junk, known = Some base
           /\ name_at (dn_data (suffix_of (dr_search dns))) (dn_len (suffix_of (dr_search dns))) (dn_offset (suffix_of (dr_search dns))) suffix
           /\ query_ok dns' [0; 0] (base ++ suffix) (dr_qtype dns) junk
       | Err e => True
       end.
Proof.
  intros Hbuf Hse Hqt Hbase. destruct (suffix_ok _ Hse) as (Sb & So & Sl & Sz). pose proof (buffer_length _ _ _ Hbuf) as Hlen.
  pose proof (size_room a) as Hroom. unfold dns_question. fold (suffix_of (dr_search dns)).
  assert (Hoff : OFF_NAME <= dr_offset dns /\ dr_offset dns + 2 ^ 22 < 2 ^ size_bits a).
  { destruct known as [base|]; [destruct Hbase as (_ & Eo & junk & Er)|destruct Hbase as [H1 H2]; unfold OFF_PADDING, OFF_NAME, DNS_MAX_NAME_LEN in *; lia].
    destruct Hbuf as [_ _ Hrest _]. rewrite Er, length_app in Hrest. unfold OFF_NAME in *. rewrite Eo. split; [lia|]. assert (271 + 2 ^ 22 < 2 ^ 32) by reflexivity. lia. }
  set (search := suffix_of (dr_search dns)) in *. destruct search as [sdata soff slen] eqn:Esearch. cbn [dn_data dn_offset dn_len] in *.
  destruct (dns_copy_ok a sdata slen Sb Sz (dr_offset dns) OFF_PADDING (2 ^ 22) (dr_buf dns)) with (off := soff) as (buf' & r & E & Hr).
  { unfold OFF_PADDING, OFF_NAME, DNS_MAX_NAME_LEN in *. split; lia. }
  { unfold OFF_NAME in Hoff. lia. }
  { lia. }
  { lia. }
  { done. }
  { lia. }
  { lia. }
  change (dr_name (set_dr_name_offset (dr_offset dns) dns)) with (DnsName (dr_buf dns) (dr_offset dns) OFF_PADDING). rewrite E.
  destruct r as [k|e]; [|eexists _, _; split; [done|]; by split].
  destruct Hr as (suffix & Hname & Hk & Hkb & Hbuf'). cbn [dr_name_offset set_dr_buf set_dr_name_offset].
  pose proof (wire_pos suffix) as Hwp. rewrite uwrap_small by (unfold OFF_NAME in Hoff; lia).
  destruct (Z.ltb_spec OFF_PADDING (dr_offset dns + k)) as [Hlong|Hfit]; [eexists _, _; split; [done|]; by split|].
  destruct known as [base|]; [|destruct Hbase; lia]. destruct Hbase as (Hlok & Eo & junk & Er). pose proof Hbuf as [Eb Hid Hrest Hbytes].
  set (wb := concat (map (fun label => zlen label :: label) base)) in *.
  assert (Hjunk : OFF_NAME + zlen wb + zlen junk = 271) by (rewrite Er, length_app in Hrest; unfold OFF_NAME; lia).
  destruct (question_written id wb junk suffix (dr_qtype dns) (Z.max 0 (OFF_PADDING - dr_offset dns)) Hid Hjunk) as (buf2 & E1 & E2); [lia|lia|].
  rewrite <- Eo, <- Er, <- Eb, <- Hk, <- Hbuf' in E1.
  cbn [dr_buf set_dr_buf set_dr_name_offset dr_qtype]. rewrite E1. cbn [dr_buf set_dr_buf set_dr_question set_dr_name_offset]. rewrite E2.
  eexists _, _. split; [done|]. split; [done|]. exists base, suffix, (drop 4 (drop (length (wire suffix)) junk)). split; [done|]. split; [done|].
  pose proof (name_labels_ok _ _ _ _ Sb Sz Hname) as [Hl1 Hl2]. destruct Hlok as [Hb1 Hb2].
  assert (Hlabels : labels_ok (base ++ suffix)) by (by split; apply Forall_app_2).
  assert (HwL : zlen (wire (base ++ suffix)) = zlen wb + k) by (rewrite wire_app, zlen_app; fold wb; lia).
  split; [|done|done| |cbn; lia|done].
  - rewrite wire_app. fold wb. split; [done|done| |].
    + rewrite !length_app, !length_drop. cbn [length be16]. unfold OFF_PADDING, OFF_NAME, DNS_MAX_NAME_LEN in *. lia.
    + cbn [dr_buf set_dr_buf]. apply Forall_app_2; [apply (bool_decide_unpack _); vm_compute; exact I|]. apply Forall_app_2; [apply query_header_bytes|].
      apply Forall_app_2; [unfold wb; rewrite <- wire_app; by apply wire_bytes; apply Hlabels|].
      apply Forall_app_2; [apply be16_bytes|]. apply Forall_app_2; [apply be16_bytes|].
      apply Forall_drop, Forall_drop. unfold bytes_ok in Hbytes. rewrite Eb, Er, !Forall_app in Hbytes. apply Hbytes.
  - cbn [dr_question set_dr_buf set_dr_name_offset set_dr_question]. rewrite HwL. unfold OFF_NAME in *. lia.
Qed.

(** ** A lookup in progress *)

(** A base name followed by a suffix is being asked for. *)
Definition asks (dns : dns_request) (labels : list (list Z)) (type : Z) : Prop := exists id junk, query_ok dns id labels type junk.

Record lookup_ok (dns : dns_request) (labels : list (list Z)) (type : Z) : Prop := {
  lo_asks : asks dns labels type;
  lo_base : exists base suffix, labels = base ++ suffix /\ dr_offset dns = OFF_NAME + zlen (concat (map (fun label => zlen label :: label) base));
  lo_search : search_ok (dr_search dns);
  lo_entry : entry_ok (dr_search dns);
  lo_qtype : dr_qtype dns ∈ [DNS_TYPE_A; DNS_TYPE_AAAA];
  lo_recursion : 0 <= dr_recursion dns <= DNS_MAX_CNAME_RECURSION;
  lo_done : dr_done dns = None;
  lo_result : dr_result dns = None }.

(** A packet on the wire. *)
Definition sent_ok (s : sockaddr * list Z) : Prop :=
  sa_port s.1 = DNS_PORT /\ exists id labels type, s.2 = query_packet id labels type /\ length id = 2%nat
    /\ labels_ok labels /\ type ∈ question_types /\ zlen (wire labels) <= DNS_MAX_NAME_LEN.

Definition servers_ok (s : dns_servers) : Prop :=
  0 <= dns4_count s /\ 0 <= dns6_count s /\ 4 * dns4_count s <= zlen (dns4_data s) /\ 16 * dns6_count s <= zlen (dns6_data s).

Lemma apply_dns_servers_ok s4 s6 : servers_ok (apply_dns_servers s4 s6).
Proof. unfold apply_dns_servers, servers_ok. destruct s4, s6; cbn -[Z.mul Z.div]; (repeat split); try (apply Z.div_pos; lia); try (apply Z.mul_div_le; lia); cbn; lia. Qed.

Lemma query_wire dns id labels type junk : query_ok dns id labels type junk -> zlen (wire labels) + zlen junk = DNS_MAX_NAME_LEN.
Proof.
  intros H. pose proof (bo_rest _ _ _ (qo_buffer _ _ _ _ _ H)) as Hr. rewrite !length_app in Hr. cbn [length be16] in Hr. unfold DNS_MAX_NAME_LEN. lia.
Qed.

Lemma query_type_in t : t ∈ [DNS_TYPE_A; DNS_TYPE_AAAA] -> t ∈ question_types.
Proof. unfold question_types. rewrite !elem_of_cons. tauto. Qed.

(** The name in the buffer. *)
Lemma asks_name dns labels type : asks dns labels type -> dr_name dns = DnsName (dr_buf dns) OFF_NAME OFF_PADDING
  /\ name_at (dr_buf dns) OFF_PADDING OFF_NAME labels /\ bytes_ok (dr_buf dns) /\ length (dr_buf dns) = 271%nat.
Proof.
  intros (id & junk & H). unfold dr_name. rewrite (qo_name _ _ _ _ _ H). split; [done|]. pose proof (query_wire _ _ _ _ _ H) as Hw.
  destruct (qo_buffer _ _ _ _ _ H) as [E Hid Hr Hb]. split; [|split; [done|by apply (buffer_length _ _ _ (qo_buffer _ _ _ _ _ H))]].
  rewrite E, app_assoc. replace OFF_NAME with (zlen (id ++ query_header)) by (rewrite zlen_app, Hid; reflexivity).
  apply wire_name; [apply (qo_labels _ _ _ _ _ H)|]. rewrite zlen_app, Hid. change (zlen query_header) with 10. unfold OFF_PADDING, OFF_NAME. lia.
Qed.

(** Reading the question. *)
Lemma asks_type dns labels type : asks dns labels type -> exists word, mem_read (dr_buf dns) (dr_question dns) 2 = Some word /\ be_val word = type.
Proof.
  intros (id & junk & H). exists (be16 type). destruct (qo_buffer _ _ _ _ _ H) as [E Hid Hr Hb]. rewrite E, (qo_question _ _ _ _ _ H).
  rewrite app_assoc, (app_assoc _ (wire labels)). replace (OFF_NAME + zlen (wire labels)) with (zlen ((id ++ query_header) ++ wire labels))
    by (rewrite !zlen_app, Hid; change (zlen query_header) with 10; unfold OFF_NAME; lia).
  split; [apply (mem_read_at _ (be16 type))|]. rewrite be16_val. apply Z.mod_small.
  pose proof (qo_type _ _ _ _ _ H) as Ht. unfold question_types in Ht. rewrite !elem_of_cons, elem_of_nil in Ht. unfold DNS_TYPE_A, DNS_TYPE_AAAA, DNS_TYPE_CNAME in Ht. lia.
Qed.

(** Reading the identifier. *)
Lemma asks_id dns labels type : asks dns labels type -> exists id, mem_read (dr_buf dns) 0 2 = Some id /\ length id = 2%nat.
Proof.
  intros (id & junk & H). exists id. destruct (qo_buffer _ _ _ _ _ H) as [E Hid Hr Hb]. split; [|done]. rewrite E.
  replace 2 with (zlen id) by lia. apply (mem_read_at []).
Qed.

Lemma nameserver_some servers index : servers_ok servers -> 0 <= index < dns_count servers ->
  exists sa, nameserver servers index = Some sa /\ sa_port sa = DNS_PORT.
Proof.
  intros (H1 & H2 & H3 & H4) Hi. unfold dns_count in Hi. unfold nameserver, mem_read. destruct (Z.ltb_spec index (dns6_count servers)).
  - rewrite (proj2 (Z.leb_le 0 (16 * index))), (proj2 (Z.leb_le (16 * index + 16) _)) by lia. by eexists.
  - rewrite (proj2 (Z.leb_le 0 (4 * (index - dns6_count servers)))), (proj2 (Z.leb_le (4 * (index - dns6_count servers) + 4) _)) by lia. by eexists.
Qed.

(** Sending keeps the lookup, starts the timer and logs a well-formed query. *)
Lemma dns_send_packet_ok servers random dns labels type : servers_ok servers -> lookup_ok dns labels type ->
  exists dns', dns_send_packet servers random dns = Some dns' /\ lookup_ok dns' labels type /\ dr_timer dns' = true /\ dr_recursion dns' = dr_recursion dns
    /\ (dr_sent dns' = dr_sent dns \/ exists s, dr_sent dns' = dr_sent dns ++ [s] /\ sent_ok s).
Proof.
  intros Hsrv Hlo. unfold dns_send_packet. destruct (Z.eqb_spec (dns_count servers) 0) as [E0|E0].
  { eexists. split; [done|]. split; [|split; [done|split; [done|by left]]]. destruct Hlo as [(id & junk & []) H2 H3 H4 H5 H6 H7 H8]. split; try done. exists id, junk. by split. }
  pose proof Hsrv as (S1 & S2 & _). unfold dns_count in E0.
  destruct (nameserver_some servers (dr_index dns mod dns_count servers) Hsrv) as (sa & Esa & Hport); [apply Z.mod_pos_bound; unfold dns_count; lia|].
  cbn [dr_index set_dr_timer]. rewrite Esa. destruct (lo_asks _ _ _ Hlo) as (id & junk & Hq). destruct (qo_buffer _ _ _ _ _ Hq) as [Eb Hid Hr Hb].
  pose proof (query_wire _ _ _ _ _ Hq) as Hw. cbn [dr_buf set_dr_timer].
  assert (Eid : mem_read (dr_buf dns) 0 2 = Some id) by (rewrite Eb; replace 2 with (zlen id) by lia; apply (mem_read_at [])). rewrite Eid.
  set (rest := query_header ++ wire labels ++ be16 type ++ be16 DNS_CLASS_IN ++ junk) in *.
  assert (exists id', length id' = 2%nat /\ bytes_ok id' /\ (if be_val id =? 0 then mem_write (dr_buf dns) 0 [random mod 256; random / 256 mod 256] else Some (dr_buf dns))
    = Some (id' ++ rest)) as (id' & Hid' & Hb' & ->).
  { destruct (be_val id =? 0).
    - exists [random mod 256; random / 256 mod 256]. split; [done|]. split; [|rewrite Eb; by apply (mem_write_at [] id)].
      apply Forall_cons_2; [apply Z.mod_pos_bound; lia|]. apply Forall_singleton. apply Z.mod_pos_bound; lia.
    - exists id. rewrite Eb in Hb. split; [done|]. split; [by apply Forall_app in Hb as [? _]|by rewrite Eb]. }
  cbn [dr_buf set_dr_buf dr_len set_dr_timer].
  assert (Epkt : mem_read (id' ++ rest) 0 (dr_len dns) = Some (query_packet id' labels type)).
  { unfold rest, query_packet. rewrite (qo_len _ _ _ _ _ Hq), (qo_question _ _ _ _ _ Hq).
    replace (id' ++ query_header ++ wire labels ++ be16 type ++ be16 DNS_CLASS_IN ++ junk)
      with ((id' ++ query_header ++ wire labels ++ be16 type ++ be16 DNS_CLASS_IN) ++ junk) by (by rewrite <- !app_assoc).
    replace (OFF_NAME + zlen (wire labels) + QUESTION_LEN) with (zlen (id' ++ query_header ++ wire labels ++ be16 type ++ be16 DNS_CLASS_IN)).
    - apply (mem_read_at []).
    - rewrite !zlen_app, Hid'. change (zlen query_header) with 10. change (zlen (be16 type)) with 2. change (zlen (be16 DNS_CLASS_IN)) with 2.
      unfold OFF_NAME, QUESTION_LEN. lia. }
  rewrite Epkt. eexists. split; [reflexivity|]. split; [|split; [done|split; [done|]]].
  - destruct Hlo as [_ H2 H3 H4 H5 H6 H7 H8]. split; try done. exists id', junk. destruct Hq as [_ Q2 Q3 Q4 Q5 Q6]. split; try done.
    split; [done|done|done|]. cbn. rewrite Eb in Hb. apply Forall_app in Hb as [_ Hb]. by apply Forall_app_2.
  - right. eexists. split; [reflexivity|]. split; [done|]. exists id', labels, type. split; [done|]. split; [done|]. split; [apply (qo_labels _ _ _ _ _ Hq)|].
    split; [apply (qo_type _ _ _ _ _ Hq)|]. lia.
Qed.

(** ** Answers *)

(** A resource record: owner, type, and the position and length of its data. *)
Definition record_at (packet : list Z) (owner : list (list Z)) (type rdata rdlength : Z) : Prop :=
  exists off stop, name_at packet (zlen packet) off owner /\ name_end packet (zlen packet) off stop
    /\ (exists w, mem_read packet stop 2 = Some w /\ be_val w = type)
    /\ (exists w, mem_read packet (stop + 8) 2 = Some w /\ be_val w = rdlength)
    /\ rdata = stop + RR_LEN /\ rdata + rdlength <= zlen packet.

(** The packet gives the address of a name, directly or through aliases. *)
Inductive resolves (packet : list Z) : list (list Z) -> Z -> list Z -> Prop :=
| resolves_a name owner rdata rdlength addr : fold_case owner = fold_case name -> record_at packet owner DNS_TYPE_A rdata rdlength ->
    4 <= rdlength -> mem_read packet rdata 4 = Some addr -> resolves packet name AF_INET addr
| resolves_aaaa name owner rdata rdlength addr : fold_case owner = fold_case name -> record_at packet owner DNS_TYPE_AAAA rdata rdlength ->
    16 <= rdlength -> mem_read packet rdata 16 = Some addr -> resolves packet name AF_INET6 addr
| resolves_alias name owner rdata rdlength target family addr : fold_case owner = fold_case name ->
    record_at packet owner DNS_TYPE_CNAME rdata rdlength -> name_at packet (zlen packet) rdata target ->
    resolves packet target family addr -> resolves packet name family addr.

(** Writing a name into the buffer of the query. *)
Lemma buffer_put buf id rest t : buffer_ok buf id rest -> bytes_ok t ->
  buffer_ok (put_at OFF_NAME DNS_MAX_NAME_LEN t buf) id (put_at 0 DNS_MAX_NAME_LEN t rest).
Proof.
  intros [E Hid Hr Hb] Ht. split; [|done| |by apply put_at_bytes].
  - rewrite E. unfold put_at. change (Z.to_nat OFF_NAME) with 12%nat. change (take (Z.to_nat 0) rest) with (@nil Z). set (t' := take (Z.to_nat DNS_MAX_NAME_LEN) t).
    rewrite (app_assoc id query_header rest). assert (HP : length (id ++ query_header) = 12%nat) by (rewrite length_app, Hid; done).
    rewrite <- HP, take_app_length, <- drop_drop, drop_app_length. by rewrite <- app_assoc.
  - rewrite put_at_length; [done|]. split; unfold DNS_MAX_NAME_LEN; lia.
Qed.

(** The base after an alias was copied. *)
Lemma alias_base packet rdata buf' r dns id rest : bytes_ok packet -> zlen packet <= 2 ^ 16 -> 0 <= rdata -> buffer_ok (dr_buf dns) id rest ->
  dr_name dns = DnsName (dr_buf dns) OFF_NAME OFF_PADDING -> dns_copy a (DnsName packet rdata (zlen packet)) (dr_name dns) = Some (buf', r) ->
  exists rest' known, buffer_ok buf' id rest'
    /\ (let dns' := set_dr_offset (uwrap (size_bits a) (OFF_NAME + as_size a einval r - 1)) dns in
        match known with Some target => base_at dns' target rest' | None => base_long dns' end)
    /\ forall target, known = Some target -> name_at packet (zlen packet) rdata target.
Proof.
  intros Hp Hsz Hrd Hbuf Hname E. rewrite Hname in E. pose proof (size_room a) as Hroom. pose proof (buffer_length _ _ _ Hbuf) as Hl.
  destruct (dns_copy_ok a packet (zlen packet) Hp ltac:(lia) OFF_NAME OFF_PADDING (2 ^ 22) (dr_buf dns)) with (off := rdata) as (b & r' & E' & Hr).
  { unfold OFF_PADDING, OFF_NAME, DNS_MAX_NAME_LEN. split; lia. }
  { unfold OFF_NAME. lia. }
  { unfold OFF_NAME. assert (12 + 2 ^ 22 < 2 ^ 32) by reflexivity. lia. }
  { lia. }
  { done. }
  { lia. }
  { lia. }
  rewrite E' in E. injection E as -> ->. change (Z.max 0 (OFF_PADDING - OFF_NAME)) with DNS_MAX_NAME_LEN in Hr.
  destruct r as [k|e].
  - destruct Hr as (target & Ht & Hk & Hkb & ->). pose proof (wire_pos target) as Hwp.
    pose proof (name_labels_ok _ _ _ _ Hp (Z.le_refl _) Ht) as Hlok.
    assert (Hoff : uwrap (size_bits a) (OFF_NAME + as_size a einval (Ok k) - 1) = OFF_NAME + k - 1).
    { unfold as_size. rewrite (uwrap_small _ k), uwrap_small by (unfold OFF_NAME; lia). done. }
    eexists _, (if k <=? DNS_MAX_NAME_LEN then Some target else None). split; [apply buffer_put; [done|apply wire_bytes; apply Hlok]|].
    cbv zeta. rewrite Hoff. destruct (Z.leb_spec k DNS_MAX_NAME_LEN) as [Hfit|Hlong].
    + split; [|by intros ? [= <-]]. split; [done|].
      assert (Hw : wire target = concat (map (fun label => zlen label :: label) target) ++ [0]) by done.
      assert (zlen (wire target) = zlen (concat (map (fun label => zlen label :: label) target)) + 1) by (rewrite Hw, zlen_app; done).
      split; [cbn [dr_offset set_dr_offset]; unfold OFF_NAME; lia|]. unfold put_at. rewrite (take_ge (wire target)) by lia. cbn [take app Z.to_nat]. rewrite Hw, <- app_assoc. by eexists.
    + split; [|done]. unfold base_long. cbn [dr_offset set_dr_offset]. unfold OFF_PADDING, OFF_NAME, DNS_MAX_NAME_LEN in *. split; [lia|]. assert (2 ^ 22 + 2 ^ 22 + 12 < 2 ^ 32) by reflexivity. lia.
  - destruct Hr as (-> & _ & t & Ht & ->).
    assert (Hoff : uwrap (size_bits a) (OFF_NAME + as_size a einval (Err EINVAL) - 1) = 2 ^ size_bits a - einval + 11).
    { unfold as_size, uwrap. rewrite <- (Z.mod_add (- einval) 1) by lia. rewrite Z.mul_1_l, (Z.mod_small (- einval + _)) by lia.
      rewrite Z.mod_small by (unfold OFF_NAME; lia). unfold OFF_NAME. lia. }
    eexists _, None. split; [by apply buffer_put|]. cbv zeta. rewrite Hoff. split; [|done].
    unfold base_long. cbn [dr_offset set_dr_offset]. unfold OFF_PADDING, OFF_NAME, DNS_MAX_NAME_LEN. assert (2 ^ 22 + 11 < 0x1c000000) by reflexivity. lia.
Qed.

(** The alias becomes the name that is asked for. *)
Definition follow_alias (packet : list Z) (rdata : Z) (dns : dns_request) : option (dns_request * res unit) :=
  let dns := set_dr_search_offset (dn_len (dr_search dns)) dns in
  opt! (data, name_len) := dns_copy a (DnsName packet rdata (zlen packet)) (dr_name dns) in
  dns_question a (set_dr_offset (uwrap (size_bits a) (OFF_NAME + as_size a einval name_len - 1)) (set_dr_buf data dns)).

(** The search list is used up. *)
Definition search_over (dns : dns_request) : Prop := dn_offset (dr_search dns) = dn_len (dr_search dns).

Lemma follow_alias_ok packet rdata dns labels type : bytes_ok packet -> zlen packet <= 2 ^ 16 -> 0 <= rdata -> lookup_ok dns labels type ->
  exists dns' rc, follow_alias packet rdata dns = Some (dns', rc) /\ dr_timer dns' = dr_timer dns /\ dr_sent dns' = dr_sent dns
    /\ dr_done dns' = None /\ dr_result dns' = None /\ dr_qtype dns' = dr_qtype dns /\ dr_recursion dns' = dr_recursion dns
    /\ dr_address dns' = dr_address dns
    /\ match rc with
       | Ok _ => exists target, name_at packet (zlen packet) rdata target /\ lookup_ok dns' target (dr_qtype dns) /\ search_over dns'
       | Err _ => True
       end.
Proof.
  intros Hp Hsz Hrd Hlo. unfold follow_alias. set (dns0 := set_dr_search_offset _ dns). pose proof (size_room a) as Hroom.
  destruct (asks_name _ _ _ (lo_asks _ _ _ Hlo)) as (Hname & _). destruct (lo_asks _ _ _ Hlo) as (id & junk & Hq).
  pose proof (qo_buffer _ _ _ _ _ Hq) as Hbuf. pose proof (buffer_length _ _ _ Hbuf) as Hl.
  assert (Hname0 : dr_name dns0 = DnsName (dr_buf dns0) OFF_NAME OFF_PADDING) by exact Hname.
  assert (exists data r, dns_copy a (DnsName packet rdata (zlen packet)) (dr_name dns0) = Some (data, r)) as (data & r & E).
  { rewrite Hname0. destruct (dns_copy_ok a packet (zlen packet) Hp ltac:(lia) OFF_NAME OFF_PADDING (2 ^ 22) (dr_buf dns0)) with (off := rdata) as (b & r' & E' & _);
      [change (dr_buf dns0) with (dr_buf dns); unfold OFF_PADDING, OFF_NAME, DNS_MAX_NAME_LEN; split; lia|unfold OFF_NAME; lia
      |unfold OFF_NAME; assert (12 + 2 ^ 22 < 2 ^ 32) by reflexivity; lia|lia|done|lia|lia|by eexists _, _]. }
  rewrite E. destruct (alias_base packet rdata data r dns0 id _ Hp Hsz Hrd Hbuf Hname0 E) as (rest' & known & Hbuf' & Hbase & Hknown).
  set (dns1 := set_dr_offset _ (set_dr_buf data dns0)). destruct Hlo as [_ H2 [S1 S2 S3 S4] H4 H5 H6 H7 H8].
  destruct (dns_question_ok dns1 id rest' known) as (dns' & rc & Eq & Hsame & Hrc).
  - exact Hbuf'.
  - split; [exact S1|exact S2|exact S3|]. cbn. lia.
  - apply query_type_in. exact H5.
  - exact Hbase.
  - exists dns', rc. rewrite Eq. destruct Hsame as (F1 & F2 & F3 & F4 & F5 & F6 & F7 & F8 & F9 & F10). cbn in F1, F2, F3, F4, F5, F6, F7, F8, F9, F10.
    split; [done|]. repeat (split; [congruence|]). destruct rc as [[]|]; [|done].
    destruct Hrc as (target & suffix & junk' & Hk & Hsuf & Hq'). exists target. split; [by apply Hknown|].
    assert (suffix = []) as ->.
    { unfold suffix_of in Hsuf. change (dr_search dns1) with (DnsName (dn_data (dr_search dns)) (dn_len (dr_search dns)) (dn_len (dr_search dns))) in Hsuf.
      cbn [dn_offset dn_len] in Hsuf. rewrite Z.eqb_refl in Hsuf. cbn in Hsuf. inversion Hsuf; subst; [done| |]; cbn in *; simplify_eq; lia. }
    rewrite app_nil_r in Hq'. split; [|unfold search_over; by rewrite F5]. split; try congruence.
    + by exists [0; 0], junk'.
    + rewrite Hk in Hbase. destruct Hbase as (_ & Eo & _). exists target, []. split; [by rewrite app_nil_r|]. rewrite F4. exact Eo.
    + rewrite F5. split; cbn; try done. lia.
    + rewrite F5. unfold entry_ok. cbn. lia.
Qed.

(** What the answers make of a lookup: it goes on, or it has ended, with an
    address only if the packet gives one for the name. *)
Definition answered (packet : list Z) (labels : list (list Z)) (dns dns' : dns_request) (r : option (res unit)) : Prop :=
  dr_sent dns' = dr_sent dns /\
  match dr_done dns' with
  | None => (exists labels' type', lookup_ok dns' labels' type') /\ dr_timer dns' = dr_timer dns /\ dr_qtype dns' = dr_qtype dns
      /\ (dr_recursion dns' = dr_recursion dns /\ dr_search dns' = dr_search dns \/ search_over dns') /\ r <> Some (Ok tt)
  | Some rc => r = Some rc /\ dr_timer dns' = false
      /\ match dr_result dns' with
         | Some sa => rc = Ok tt /\ sa_port sa = sa_port (dr_address dns) /\ resolves packet labels (sa_family sa) (sa_addr sa)
         | None => exists e, rc = Err e
         end
  end.

Lemma answered_on packet labels dns r type : lookup_ok dns labels type -> r <> Some (Ok tt) -> answered packet labels dns dns r.
Proof. intros H Hr. split; [done|]. rewrite (lo_done _ _ _ H). split; [by eexists _, _|]. split; [done|]. split; [done|]. split; [by left|done]. Qed.

Lemma answered_error packet labels dns dns' e : dr_sent dns' = dr_sent dns -> dr_done dns' = None -> dr_result dns' = None ->
  answered packet labels dns (dns_done dns' (Err e)) (Some (Err e)).
Proof. intros H1 H2 H3. split; [done|]. cbn. rewrite H2, H3. cbn. split; [done|]. split; [done|by eexists]. Qed.

Lemma answered_address packet labels dns sa type : lookup_ok dns labels type -> sa_port sa = sa_port (dr_address dns) ->
  resolves packet labels (sa_family sa) (sa_addr sa) -> answered packet labels dns (dns_resolved (set_dr_address sa dns)) (Some (Ok tt)).
Proof. intros H Hp Hr. unfold dns_resolved. cbn [dr_done set_dr_address]. rewrite (lo_done _ _ _ H). split; [done|]. cbn. rewrite (lo_done _ _ _ H). done. Qed.

(** Going on after an alias. *)
Lemma answered_alias packet labels owner target rdata rdlength dns dns1 dns' r : fold_case owner = fold_case labels ->
  record_at packet owner DNS_TYPE_CNAME rdata rdlength -> name_at packet (zlen packet) rdata target ->
  dr_sent dns1 = dr_sent dns -> dr_timer dns1 = dr_timer dns -> dr_qtype dns1 = dr_qtype dns -> dr_address dns1 = dr_address dns ->
  search_over dns1 ->
  answered packet target dns1 dns' r -> answered packet labels dns dns' r.
Proof.
  intros Hf Hrec Hn E1 E2 E3 E4 Hs [A1 A2]. split; [congruence|]. destruct (dr_done dns').
  - destruct A2 as (B1 & B2 & B3). split; [done|]. split; [done|]. destruct (dr_result dns'); [|done]. destruct B3 as (C1 & C2 & C3).
    split; [done|]. split; [congruence|]. by eapply resolves_alias.
  - destruct A2 as (B1 & B2 & B3 & B4 & B5). split; [done|]. split; [congruence|]. split; [congruence|]. split; [|done]. right. destruct B4 as [[_ B4]|]; [|done]. unfold search_over in *. by rewrite B4.
Qed.

Section Loop.
Context (packet : list Z) (answer_offset : Z).
Hypothesis packet_bytes : bytes_ok packet.
Hypothesis packet_small : zlen packet <= 2 ^ 16.
Hypothesis answer_ok : 0 <= answer_offset.
Abbreviation size := (zlen packet).

(** A 16-bit field. *)
Lemma field_some off : 0 <= off -> off + 2 <= size -> exists w, mem_read packet off 2 = Some w /\ 0 <= be_val w < 2 ^ 16.
Proof.
  intros H1 H2. destruct (name_read packet size ltac:(lia) off 2 ltac:(lia) ltac:(lia) ltac:(lia)) as [E Hl]. rewrite E. eexists. split; [done|].
  assert (Hb : bytes_ok (take (Z.to_nat 2) (drop (Z.to_nat off) packet))) by (by apply Forall_take, Forall_drop).
  destruct (take _ _) as [|x [|y [|]]]; cbn in Hl; try lia. unfold bytes_ok in Hb. rewrite !Forall_cons in Hb. destruct Hb as (Hx & Hy & _). unfold byte_ok in *.
  unfold be_val. cbn [fold_left]. change (2 ^ 16) with 65536. lia.
Qed.

(** Data of at least [n] bytes. *)
Lemma rdata_some off n : 0 <= off -> 0 <= n -> off + n <= size -> exists bytes, mem_read packet off n = Some bytes.
Proof. intros H1 H2 H3. destruct (name_read packet size ltac:(lia) off n ltac:(lia) ltac:(lia) ltac:(lia)) as [-> _]. by eexists. Qed.

Lemma answers_loop_ok fuel : forall off dns labels type, lookup_ok dns labels type -> 0 <= off ->
  (33 - dr_recursion dns) * (size + 1) + Z.max 0 (size - off) < Z.of_nat fuel ->
  exists dns' r, answers_loop a einval fuel packet answer_offset off dns = Some (dns', r) /\ answered packet labels dns dns' r.
Proof.
  induction fuel as [|fuel IH]; intros off dns labels type Hlo Hoff Hfuel; cbn [answers_loop].
  { pose proof (lo_recursion _ _ _ Hlo). unfold DNS_MAX_CNAME_RECURSION in *. nia. }
  destruct (Z.eqb_spec off size); [by eexists _, _; split; [done|]; eapply answered_on|].
  destruct (dns_skip_ok packet size packet_bytes ltac:(lia) off Hoff ltac:(lia)) as (r & -> & Hskip).
  destruct r as [stop|e]; [|by eexists _, _; split; [done|]; eapply answered_on].
  pose proof (name_end_range _ _ _ _ Hskip) as Hstop. unfold RR_LEN in *.
  destruct (Z.ltb_spec size (stop + 10)); [by eexists _, _; split; [done|]; eapply answered_on|].
  destruct (field_some (stop + 8) ltac:(lia) ltac:(lia)) as (w & Ew & Hw). rewrite Ew.
  destruct (Z.ltb_spec size (stop + 10 + be_val w)); [by eexists _, _; split; [done|]; eapply answered_on|].
  destruct (asks_name _ _ _ (lo_asks _ _ _ Hlo)) as (Hname & Hasks & Hbb & Hbl). rewrite Hname.
  destruct (dns_compare_ok packet (dr_buf dns) size OFF_PADDING packet_bytes Hbb ltac:(lia) ltac:(rewrite Hbl; unfold OFF_PADDING, OFF_NAME, DNS_MAX_NAME_LEN; lia)
    off OFF_NAME Hoff ltac:(unfold OFF_NAME; lia) ltac:(lia)) as (rc & -> & Hcmp).
  assert (Hnext : forall dns1 type1, lookup_ok dns1 labels type1 -> dr_recursion dns1 = dr_recursion dns ->
    (33 - dr_recursion dns1) * (size + 1) + Z.max 0 (size - (stop + 10 + be_val w)) < Z.of_nat fuel) by (intros dns1 type1 _ ->; lia).
  destruct rc as [[]|e]; [|apply (IH _ dns labels type Hlo); [lia|by apply (Hnext dns type)]].
  destruct Hcmp as (owner & labels' & Howner & Hlabels' & Hfold). rewrite <- (name_at_det _ _ _ _ _ Hasks Hlabels') in Hfold.
  destruct (field_some stop ltac:(lia) ltac:(lia)) as (t & Et & Ht). rewrite Et.
  assert (Hrec : forall ty, be_val t = ty -> record_at packet owner ty (stop + 10) (be_val w)).
  { intros ty <-. exists off, stop. split; [done|]. split; [done|]. split; [by exists t|]. split; [by exists w|]. unfold RR_LEN. split; [done|lia]. }
  destruct (Z.eqb_spec (be_val t) DNS_TYPE_AAAA) as [E6|_].
  { destruct (Z.ltb_spec (be_val w) 16); [by eexists _, _; split; [done|]; eapply answered_on|].
    destruct (rdata_some (stop + 10) 16 ltac:(lia) ltac:(lia) ltac:(lia)) as (addr & Ea). rewrite Ea. eexists _, _. split; [done|].
    eapply answered_address; [done|done|]. by eapply resolves_aaaa; [|by apply Hrec| |]. }
  destruct (Z.eqb_spec (be_val t) DNS_TYPE_A) as [E4|_].
  { destruct (Z.ltb_spec (be_val w) 4); [by eexists _, _; split; [done|]; eapply answered_on|].
    destruct (rdata_some (stop + 10) 4 ltac:(lia) ltac:(lia) ltac:(lia)) as (addr & Ea). rewrite Ea. eexists _, _. split; [done|].
    eapply answered_address; [done|done|]. by eapply resolves_a; [|by apply Hrec| |]. }
  destruct (Z.eqb_spec (be_val t) DNS_TYPE_CNAME) as [Ec|_]; [|apply (IH _ dns labels type Hlo); [lia|by apply (Hnext dns type)]].
  pose proof (lo_recursion _ _ _ Hlo) as Hr. unfold DNS_MAX_CNAME_RECURSION in Hr. rewrite (uwrap_small 32) by lia. cbn [dr_recursion set_dr_recursion].
  destruct (Z.ltb_spec DNS_MAX_CNAME_RECURSION (dr_recursion dns + 1)) as [Hdeep|Hok].
  { eexists _, _. split; [done|]. apply answered_error; [done|apply (lo_done _ _ _ Hlo)|apply (lo_result _ _ _ Hlo)]. }
  set (dns0 := set_dr_recursion (dr_recursion dns + 1) dns).
  assert (Hlo0 : lookup_ok dns0 labels type).
  { destruct Hlo as [(id & junk & []) H2 H3 H4 H5 H6 H7 H8]. split; try done; [exists id, junk; by split|cbn; unfold DNS_MAX_CNAME_RECURSION in *; lia]. }
  destruct (follow_alias_ok packet (stop + 10) dns0 labels type packet_bytes packet_small ltac:(lia) Hlo0)
    as (dns1 & rc & Ef & F1 & F2 & F3 & F4 & F5 & F6 & F7 & Hrc).
  unfold follow_alias in Ef. cbv zeta in Ef. destruct (dns_copy a _ _) as [[data name_len]|]; [|done]. rewrite Ef. destruct rc as [[]|e].
  - destruct Hrc as (target & Ht1 & Hlo1 & Hso). destruct (IH answer_offset dns1 target _ Hlo1 answer_ok) as (dns' & r & E' & Hans).
    { rewrite F6. cbn [dr_recursion dns0 set_dr_recursion]. lia. }
    exists dns', r. split; [done|]. eapply (answered_alias packet labels owner target (stop + 10) (be_val w) dns dns1); try done. by apply Hrec.
  - eexists _, _. split; [done|]. by apply answered_error.
Qed.
End Loop.

(** ** The next question *)

Definition logged (dns dns' : dns_request) : Prop := dr_sent dns' = dr_sent dns \/ exists s, dr_sent dns' = dr_sent dns ++ [s] /\ sent_ok s.

(** A question is on its way and the timer runs, or the lookup has failed. *)
Definition continued (dns dns' : dns_request) : Prop :=
  logged dns dns' /\ dr_recursion dns' = dr_recursion dns /\
  match dr_done dns' with
  | None => (exists labels type, lookup_ok dns' labels type) /\ dr_timer dns' = true
  | Some rc => dr_timer dns' = false /\ dr_result dns' = None /\ exists e, rc = Err e
  end.

Lemma continued_send servers random dns dns1 labels type : servers_ok servers -> lookup_ok dns1 labels type -> dr_sent dns1 = dr_sent dns ->
  dr_recursion dns1 = dr_recursion dns -> exists dns', dns_send_packet servers random dns1 = Some dns' /\ continued dns dns'.
Proof.
  intros Hsrv Hlo Es Erec. destruct (dns_send_packet_ok servers random dns1 labels type Hsrv Hlo) as (dns' & E & Hlo' & Ht & Hr & Hs).
  exists dns'. split; [done|]. split; [unfold logged; by rewrite <- Es|]. split; [congruence|]. rewrite (lo_done _ _ _ Hlo'). split; [by eexists _, _|done].
Qed.

Lemma continued_failed dns dns1 e : dr_sent dns1 = dr_sent dns -> dr_recursion dns1 = dr_recursion dns -> dr_done dns1 = None -> dr_result dns1 = None -> continued dns (dns_done dns1 (Err e)).
Proof. intros H1 H0 H2 H3. split; [by left|]. split; [done|]. cbn. rewrite H2. split; [done|]. split; [done|by eexists]. Qed.

Lemma lookup_timer dns labels type t : lookup_ok dns labels type -> lookup_ok (set_dr_timer t dns) labels type.
Proof. intros [(id & junk & []) H2 H3 H4 H5 H6 H7 H8]. split; try done. exists id, junk. by split. Qed.

Lemma set_question_type_ok dns labels type t : lookup_ok dns labels type -> t ∈ question_types ->
  exists dns', set_question_type t dns = Some dns' /\ lookup_ok dns' labels t /\ dr_sent dns' = dr_sent dns /\ dr_recursion dns' = dr_recursion dns.
Proof.
  intros [(id & junk & Hq) H2 H3 H4 H5 H6 H7 H8] Ht. unfold set_question_type. destruct Hq as [[Eb Hid Hr Hb] Q2 Q3 Q4 Q5 Q6].
  assert (E : mem_write (dr_buf dns) (dr_question dns) (be16 t) = Some (id ++ query_header ++ wire labels ++ be16 t ++ be16 DNS_CLASS_IN ++ junk)).
  { rewrite Eb, Q4. replace (id ++ query_header ++ wire labels ++ be16 type ++ be16 DNS_CLASS_IN ++ junk)
      with ((id ++ query_header ++ wire labels) ++ be16 type ++ (be16 DNS_CLASS_IN ++ junk)) by (by rewrite <- !app_assoc).
    replace (OFF_NAME + zlen (wire labels)) with (zlen (id ++ query_header ++ wire labels))
      by (rewrite !zlen_app, Hid; change (zlen query_header) with 10; unfold OFF_NAME; lia).
    rewrite mem_write_at by done. by rewrite <- !app_assoc. }
  rewrite E. eexists. split; [done|]. split; [|done]. split; try done. exists id, junk. split; try done. split; [done|done| |].
  - rewrite !length_app in Hr |- *. exact Hr.
  - cbn [dr_buf set_dr_buf]. unfold bytes_ok in *. rewrite Eb, !Forall_app in Hb. rewrite !Forall_app. destruct Hb as (B1 & B2 & B3 & _ & B5 & B6).
    repeat (split; [done|]). split; [apply be16_bytes|done].
Qed.

(** The next entry of the search list can always be found, as the source says. *)
Lemma next_entry dns labels type : lookup_ok dns labels type -> ~ search_over dns ->
  exists next, dns_skip_search (dr_search dns) = Some (Ok next) /\ dn_offset (dr_search dns) < next <= dn_len (dr_search dns).
Proof.
  intros [_ _ [S1 S2 S3 S4] He _ _ _ _] Hno. unfold search_over in Hno. destruct (He ltac:(lia)) as (entry & Hentry).
  destruct (dr_search dns) as [data off len]. cbn [dn_data dn_offset dn_len] in *.
  destruct (dns_skip_search_ok data len S3 ltac:(lia) off ltac:(lia) ltac:(lia)) as (r & -> & Hr).
  destruct r as [next|e]; [by exists next|]. destruct Hr as [_ Hr]. by destruct (Hr entry).
Qed.

Lemma next_search_ok dns labels type : lookup_ok dns labels type -> ~ search_over dns ->
  exists next dns1 rc, dns_skip_search (dr_search dns) = Some (Ok next)
    /\ dns_question a (set_dr_search_offset (as_size a einval (Ok next)) dns) = Some (dns1, rc) /\ dr_sent dns1 = dr_sent dns
    /\ dr_recursion dns1 = dr_recursion dns /\ dr_done dns1 = None /\ dr_result dns1 = None
    /\ match rc with Ok _ => exists labels1, lookup_ok dns1 labels1 (dr_qtype dns) | Err _ => True end.
Proof.
  intros Hlo Hno. destruct (next_entry dns labels type Hlo Hno) as (next & E & Hnext).
  pose proof Hlo as [(id & junk & Hq) (base & suffix & -> & Eo) [S1 S2 S3 S4] He Hqt Hrec Hd Hres].
  pose proof (size_room a) as Hroom. assert (Enext : as_size a einval (Ok next) = next) by (unfold as_size; apply uwrap_small; lia).
  set (dns0 := set_dr_search_offset next dns). pose proof (qo_labels _ _ _ _ _ Hq) as [L1 L2]. apply Forall_app in L1 as [L1 _]. apply Forall_app in L2 as [L2 _].
  assert (Hs0 : search_ok (dr_search dns0)) by (split; cbn; try done; lia).
  destruct (dns_question_ok dns0 id _ (Some base) (qo_buffer _ _ _ _ _ Hq) Hs0 (query_type_in _ Hqt)) as (dns1 & rc & Eq & Hsame & Hrc).
  { split; [by split|]. split; [exact Eo|]. rewrite wire_app, <- app_assoc. by eexists. }
  exists next, dns1, rc. rewrite Enext. split; [done|]. split; [done|]. destruct Hsame as (F1 & F2 & F3 & F4 & F5 & F6 & F7 & F8 & F9 & F10).
  cbn in F1, F2, F3, F4, F5, F6, F7, F8, F9, F10. split; [done|]. split; [done|]. split; [congruence|]. split; [congruence|].
  destruct rc as [[]|]; [|done]. destruct Hrc as (base' & suffix' & junk' & [= <-] & Hsuf & Hq'). exists (base ++ suffix').
  split; try congruence; try done.
  - by exists [0; 0], junk'.
  - exists base, suffix'. split; [done|]. by rewrite F4.
  - by rewrite F5.
  - rewrite F5. unfold entry_ok. intros Hlt. exists suffix'. unfold suffix_of in Hsuf. cbn [dn_offset dn_len dr_search dns0 set_dr_search_offset] in Hsuf, Hlt |- *.
    by rewrite (proj2 (Z.eqb_neq next _)) in Hsuf by lia.
Qed.

Lemma next_question_ok servers random dns labels type qtype : servers_ok servers -> lookup_ok dns labels type -> qtype ∈ question_types ->
  exists dns' rc, next_question a einval servers random qtype dns = Some (dns', rc) /\ continued dns dns'
    /\ (qtype = DNS_TYPE_CNAME -> search_over dns -> dr_done dns' = Some (Err ENXIO_NO_RECORD) /\ dr_sent dns' = dr_sent dns).
Proof.
  intros Hsrv Hlo Hqt. unfold next_question. pose proof (lookup_timer _ _ _ false Hlo) as Hlo0. set (dns0 := set_dr_timer false dns) in *.
  destruct (Z.eqb_spec qtype DNS_TYPE_AAAA) as [E6|N6].
  { destruct (set_question_type_ok dns0 labels type DNS_TYPE_A Hlo0 ltac:(unfold question_types; rewrite !elem_of_cons; tauto)) as (dns1 & -> & Hlo1 & Es & Erec).
    destruct (continued_send servers random dns dns1 labels _ Hsrv Hlo1 Es Erec) as (dns' & -> & Hc). eexists _, _. split; [done|]. split; [done|].
    intros ->. discriminate E6. }
  destruct (Z.eqb_spec qtype DNS_TYPE_A) as [E4|N4].
  { destruct (set_question_type_ok dns0 labels type DNS_TYPE_CNAME Hlo0 ltac:(unfold question_types; rewrite !elem_of_cons; tauto)) as (dns1 & -> & Hlo1 & Es & Erec).
    destruct (continued_send servers random dns dns1 labels _ Hsrv Hlo1 Es Erec) as (dns' & -> & Hc). eexists _, _. split; [done|]. split; [done|].
    intros ->. discriminate E4. }
  assert (qtype = DNS_TYPE_CNAME) as -> by (unfold question_types in Hqt; rewrite !elem_of_cons, elem_of_nil in Hqt; tauto). rewrite Z.eqb_refl.
  assert (Hne : DNS_TYPE_CNAME =? dr_qtype dns0 = false).
  { apply Z.eqb_neq. pose proof (lo_qtype _ _ _ Hlo) as Hq. rewrite !elem_of_cons, elem_of_nil in Hq. intros E. change (dr_qtype dns0) with (dr_qtype dns) in E.
    rewrite <- E in Hq. unfold DNS_TYPE_CNAME, DNS_TYPE_A, DNS_TYPE_AAAA in Hq. destruct Hq as [?|[?|[]]]; discriminate. }
  rewrite Hne. change (dr_search dns0) with (dr_search dns). destruct (Z.eqb_spec (dn_offset (dr_search dns)) (dn_len (dr_search dns))) as [Eo|No].
  { eexists _, _. split; [done|]. split; [apply continued_failed; [done|done|apply (lo_done _ _ _ Hlo)|apply (lo_result _ _ _ Hlo)]|]. intros _ _. cbn. by rewrite (lo_done _ _ _ Hlo). }
  destruct (next_search_ok dns0 labels type Hlo0 No) as (next & dns1 & rc & En & Eq & Es & Erec & Ed & Er & Hrc).
  change (dr_search dns0) with (dr_search dns) in En. rewrite En, Eq. destruct rc as [[]|e].
  - destruct Hrc as (labels1 & Hlo1). destruct (continued_send servers random dns dns1 labels1 _ Hsrv Hlo1 Es Erec) as (dns' & -> & Hc).
    eexists _, _. split; [done|]. split; [done|]. intros _ Hso. by destruct No.
  - eexists _, _. split; [done|]. split; [by apply continued_failed|]. intros _ Hso. by destruct No.
Qed.

(** ** The life of a lookup *)

(** In every state: an open lookup asks for a name and its timer runs; a closed
    one has no timer, and an address only if it ended well; every packet that was
    sent is a query. *)
Record request_ok (dns : dns_request) : Prop := {
  ro_sent : Forall sent_ok (dr_sent dns);
  ro_state : match dr_done dns with
             | None => (exists labels type, lookup_ok dns labels type) /\ dr_timer dns = true
             | Some rc => dr_timer dns = false /\ (is_Some (dr_result dns) -> rc = Ok tt)
             end }.

Lemma logged_ok dns dns' : Forall sent_ok (dr_sent dns) -> logged dns dns' -> Forall sent_ok (dr_sent dns').
Proof. intros H [-> | (s & -> & Hs)]; [done|]. apply Forall_app_2; [done|by apply Forall_singleton]. Qed.

Lemma continued_ok dns dns' : Forall sent_ok (dr_sent dns) -> continued dns dns' -> request_ok dns'.
Proof.
  intros H (Hl & _ & Hc). split; [by apply (logged_ok dns)|]. destruct (dr_done dns'); [|done]. destruct Hc as (H1 & H2 & _). split; [done|]. rewrite H2. intros [? [=]].
Qed.

Lemma done_ok dns rc : request_ok dns -> request_ok (dns_done dns rc).
Proof.
  intros [H1 H2]. split; [done|]. cbn. split; [done|]. destruct (dr_done dns); cbn; [apply H2|].
  destruct H2 as [(labels & type & Hlo) _]. rewrite (lo_result _ _ _ Hlo). intros [? [=]].
Qed.

(** The sizes that the handlers rely on. *)
Definition packet_ok (packet : list Z) : Prop := bytes_ok packet /\ zlen packet <= 2 ^ 16.

(** A response is handled whatever it contains; an address comes only from a
    packet with the identifier of the query that gives one for the name. *)
Definition delivered (dns : dns_request) (packet : list Z) (dns' : dns_request) : Prop :=
  forall sa, dr_result dns' = Some sa -> sa_port sa = sa_port (dr_address dns)
    /\ (exists id id', mem_read packet 0 2 = Some id /\ mem_read (dr_buf dns) 0 2 = Some id' /\ be_val id = be_val id')
    /\ exists labels type, asks dns labels type /\ resolves packet labels (sa_family sa) (sa_addr sa).

(** What an alias that answers the question for one comes to: nothing is sent;
    the lookup ends, with the address of the alias if the response has it, or
    the response is refused and the lookup stays as it is. *)
Definition alias_end (dns dns' : dns_request) (rc : res unit) : Prop :=
  dr_sent dns' = dr_sent dns /\
  match dr_done dns' with
  | None => (exists e, rc = Err e) /\ dr_timer dns' = dr_timer dns
  | Some (Ok _) => exists sa, dr_result dns' = Some sa
  | Some (Err _) => dr_result dns' = None
  end.

Lemma dns_xfer_deliver_ok servers random dns packet : servers_ok servers -> request_ok dns -> dr_done dns = None -> packet_ok packet ->
  exists dns' rc, dns_xfer_deliver a einval servers random dns packet = Some (dns', rc) /\ request_ok dns' /\ delivered dns packet dns'
    /\ (forall labels, asks dns labels DNS_TYPE_CNAME -> dr_recursion dns' <> dr_recursion dns -> alias_end dns dns' rc).
Proof.
  intros Hsrv Hok Hopen [Hpb Hps]. pose proof Hok as [Hsent Hstate]. rewrite Hopen in Hstate. destruct Hstate as [(labels & type & Hlo) Htimer].
  assert (Hsame : delivered dns packet dns) by (intros sa; rewrite (lo_result _ _ _ Hlo); done).
  unfold dns_xfer_deliver. destruct (asks_type _ _ _ (lo_asks _ _ _ Hlo)) as (word & -> & Hword).
  destruct (Z.ltb_spec (zlen packet) OFF_NAME) as [|Hlen]; [by eexists _, _; split_and!|]. unfold OFF_NAME in Hlen.
  destruct (field_some packet Hpb 0 ltac:(lia) ltac:(lia)) as (id & Eid & _). rewrite Eid.
  destruct (asks_id _ _ _ (lo_asks _ _ _ Hlo)) as (id' & Eid' & _). rewrite Eid'.
  destruct (Z.eqb_spec (be_val id) (be_val id')) as [Hid|]; cbn [negb]; [|by eexists _, _].
  destruct (field_some packet Hpb 4 ltac:(lia) ltac:(lia)) as (qd & Eqd & _). rewrite Eqd. destruct (negb (be_val qd =? 1)); [by eexists _, _|].
  destruct (dns_skip_ok packet (zlen packet) Hpb ltac:(lia) OFF_NAME ltac:(unfold OFF_NAME; lia) ltac:(lia)) as (r & -> & Hskip). destruct r as [stop|e]; [|by eexists _, _].
  apply name_end_range in Hskip. unfold OFF_NAME in Hskip.
  destruct (answers_loop_ok packet (stop + QUESTION_LEN) Hpb Hps ltac:(unfold QUESTION_LEN; lia) (answers_fuel packet) (stop + QUESTION_LEN) dns labels type Hlo)
    as (dns1 & r & Eloop & Hs1 & Hans).
  { unfold QUESTION_LEN. lia. }
  { pose proof (lo_recursion _ _ _ Hlo). unfold answers_fuel, DNS_MAX_CNAME_RECURSION, QUESTION_LEN in *. rewrite Nat2Z.inj_mul. change (Z.of_nat (Z.to_nat (32 + 2))) with 34. nia. }
  rewrite Eloop. destruct (dr_done dns1) as [rc|] eqn:Ed1.
  - destruct Hans as (-> & Ht & Hres). eexists _, _. split; [done|]. split; [|split].
    3: { intros ? _ _. split; [done|]. rewrite Ed1. destruct (dr_result dns1); [destruct Hres as [-> _]; by eexists|by destruct Hres as [e ->]]. }
    + split; [by rewrite Hs1|]. rewrite Ed1. split; [done|]. destruct (dr_result dns1); [|intros [? [=]]]. by destruct Hres.
    + intros sa Esa. rewrite Esa in Hres. destruct Hres as (_ & Hp & Hr). split; [done|]. split; [by exists id, id'|]. exists labels, type. split; [apply (lo_asks _ _ _ Hlo)|done].
  - destruct Hans as ((labels1 & type1 & Hlo1) & Ht & _ & Hrec1 & Hr1). destruct r as [rc|].
    + eexists _, _. split; [done|]. split; [split; [by rewrite Hs1|]; rewrite Ed1; split; [by eexists _, _|congruence]|].
      split; [intros sa; by rewrite (lo_result _ _ _ Hlo1)|]. intros ? _ _. split; [done|]. rewrite Ed1. split; [|done].
      destruct rc as [[]|e]; [done|by exists e].
    + rewrite Hword. destruct (lo_asks _ _ _ Hlo) as (? & ? & Hq).
      destruct (next_question_ok servers random dns1 labels1 type1 type Hsrv Hlo1 (qo_type _ _ _ _ _ Hq)) as (dns' & rc & E & (Hl & Hrec & Hc) & Hend).
      exists dns', rc. split; [done|]. assert (Hl' : logged dns dns') by (unfold logged; by rewrite <- Hs1).
      split; [split; [by apply (logged_ok dns)|]|split].
      * destruct (dr_done dns'); [|done]. destruct Hc as (H1 & H2 & _). split; [done|]. rewrite H2. intros [? [=]].
      * intros sa Esa. destruct (dr_done dns'); [destruct Hc as (_ & Hn & _); congruence|]. destruct Hc as [(? & ? & Hlo2) _]. rewrite (lo_result _ _ _ Hlo2) in Esa. done.
      * intros labels0 Hasks Hne. destruct Hrec1 as [[Hsame1 _]|Hover]; [congruence|]. unfold alias_end. rewrite <- Hs1.
        destruct Hend as [Hd Hsn]; [|done|rewrite Hd in Hc |- *; split; [done|by destruct Hc as (_ & -> & _)]].
        destruct (asks_type _ _ _ Hasks) as (w' & Ew' & <-). destruct (asks_type _ _ _ (lo_asks _ _ _ Hlo)) as (w2 & Ew2 & <-). congruence.
Qed.

Lemma dns_timer_expired_ok servers random dns fail : servers_ok servers -> request_ok dns -> dr_timer dns = true ->
  exists dns', dns_timer_expired servers random dns fail = Some dns' /\ request_ok dns'.
Proof.
  intros Hsrv [Hsent Hstate] Ht. destruct (dr_done dns) eqn:Ed; [destruct Hstate; congruence|]. destruct Hstate as [(labels & type & Hlo) _].
  unfold dns_timer_expired. pose proof (lookup_timer _ _ _ false Hlo) as Hlo0. set (dns0 := set_dr_timer false dns) in *. destruct fail.
  { eexists. split; [done|]. apply (continued_ok dns); [done|]. apply continued_failed; [done|done|done|apply (lo_result _ _ _ Hlo)]. }
  destruct (asks_id _ _ _ (lo_asks _ _ _ Hlo0)) as (id & -> & _).
  set (dns1 := if negb (be_val id =? 0) then _ else dns0). assert (Hlo1 : lookup_ok dns1 labels type /\ dr_sent dns1 = dr_sent dns /\ dr_recursion dns1 = dr_recursion dns).
  { unfold dns1. destruct (negb _); [|done]. split; [|done]. destruct Hlo0 as [(id' & junk & []) H2 H3 H4 H5 H6 H7 H8]. split; try done. exists id', junk. by split. }
  destruct Hlo1 as (Hlo1 & Es & Erec). destruct (continued_send servers random dns dns1 labels type Hsrv Hlo1 Es Erec) as (dns' & E & Hc).
  exists dns'. split; [done|]. by apply (continued_ok dns).
Qed.

(** ** A new lookup *)

Lemma dns_question_long dns : length (dr_buf dns) = 271%nat -> search_ok (dr_search dns) -> base_long dns ->
  exists dns' e, dns_question a dns = Some (dns', Err e).
Proof.
  intros Hlen Hse [Hlo Hhi]. destruct (suffix_ok _ Hse) as (Sb & So & Sl & Sz). unfold dns_question. fold (suffix_of (dr_search dns)).
  destruct (suffix_of (dr_search dns)) as [sdata soff slen]. cbn [dn_data dn_offset dn_len] in *. unfold OFF_PADDING, OFF_NAME, DNS_MAX_NAME_LEN in Hlo.
  destruct (dns_copy_ok a sdata slen Sb Sz (dr_offset dns) OFF_PADDING (2 ^ 22) (dr_buf dns)) with (off := soff) as (buf' & r & E & Hr);
    [unfold OFF_PADDING, OFF_NAME, DNS_MAX_NAME_LEN; split; lia|lia|lia|lia|done|lia|lia|].
  change (dr_name (set_dr_name_offset (dr_offset dns) dns)) with (DnsName (dr_buf dns) (dr_offset dns) OFF_PADDING). rewrite E.
  destruct r as [k|e]; [|by eexists _, _]. destruct Hr as (suffix & _ & -> & Hkb & _). pose proof (wire_pos suffix).
  cbn [dr_name_offset set_dr_buf set_dr_name_offset]. rewrite uwrap_small by lia.
  destruct (Z.ltb_spec OFF_PADDING (dr_offset dns + zlen (wire suffix))) as [|Hfit]; [by eexists _, _|]. unfold OFF_PADDING, OFF_NAME, DNS_MAX_NAME_LEN in Hfit. lia.
Qed.

Lemma hostname_wire s labels : hostname s = Some labels -> zlen (wire labels) <= zlen (strip_dot s) + 2.
Proof.
  intros H. destruct (hostname_valid s labels H) as [Hv <-]. destruct labels as [|l ls]; [cbn; lia|]. apply Forall_cons in Hv as [Hl Hv].
  unfold dotted. cbn [fold_left add_label]. rewrite dotted_from.
  - rewrite wire_cons, !zlen_app. cbn [length]. assert (E : zlen (wire ls) = zlen (concat (map (cons 46) ls)) + 1).
    { unfold wire. rewrite zlen_app. cbn [length]. f_equal. clear. induction ls as [|x ls IH]; [done|]. cbn [map concat app length]. rewrite !length_app. lia. }
    lia.
  - apply (Forall_impl _ _ _ Hv). intros x Hx ->. cbn in Hx. lia.
  - intros ->. cbn in Hl. lia.
Qed.

Lemma strchr_cstr s junk c : Forall (fun c => c <> 0) s -> exists r, strchr (cstr s junk) c = Some r.
Proof.
  unfold cstr. induction 1 as [|x s Hx Hs [r IH]]; cbn [app strchr].
  - destruct (0 =? c); by eexists.
  - destruct (x =? c); [by eexists|]. rewrite (proj2 (Z.eqb_neq x 0) Hx), IH. by eexists.
Qed.

Lemma dns_resolv_ok servers dns_search s junk sa alloc open : search_ok dns_search -> dn_offset dns_search = 0 ->
  bytes_ok s -> Forall (fun c => c <> 0) s -> zlen s < 2 ^ 20 ->
  exists r, dns_resolv a servers dns_search (cstr s junk) sa alloc open = Some r
    /\ match r with Ok dns => request_ok dns /\ dr_sent dns = [] /\ dr_result dns = None /\ dr_done dns = None | Err _ => True end.
Proof.
  intros [S1 S2 S3 S4] Hzero Hs Hnul Hsmall. unfold dns_resolv. destruct (dns_count servers =? 0); [by eexists|].
  destruct (strchr_cstr s junk 46 Hnul) as (dot & ->). destruct alloc; cbn [negb]; [|by eexists].
  set (search_len := match dot with Some _ => 0 | None => dn_len dns_search end).
  assert (Hsl : 0 <= search_len <= dn_len dns_search) by (unfold search_len; destruct dot; lia).
  destruct (name_read (dn_data dns_search) (dn_len dns_search) ltac:(lia) 0 search_len ltac:(lia) ltac:(lia) ltac:(lia)) as [-> Hz].
  set (search := take (Z.to_nat search_len) (drop (Z.to_nat 0) (dn_data dns_search))) in *.
  assert (Hse : search_ok (DnsName search 0 search_len)) by (split; cbn; [lia|lia|by apply Forall_take, Forall_drop|lia]).
  set (buf0 := [0; 0] ++ _). set (qtype := if negb (dns6_count servers =? 0) then DNS_TYPE_AAAA else DNS_TYPE_A).
  assert (Hqt : qtype ∈ [DNS_TYPE_A; DNS_TYPE_AAAA]) by (unfold qtype; destruct (negb _); rewrite !elem_of_cons; tauto).
  assert (Hb0 : buffer_ok buf0 [0; 0] (replicate 259 0)) by (split; [reflexivity|done|done|apply (bool_decide_unpack _); vm_compute; exact I]).
  destruct (dns_encode_ok OFF_NAME OFF_PADDING buf0 ltac:(unfold OFF_NAME; lia) ltac:(vm_compute; discriminate) s junk Hnul) as (data' & (Hl & _) & He).
  destruct (hostname s) as [labels|] eqn:Hh; [|rewrite He; by eexists]. destruct He as [-> Hd].
  destruct (hostname_valid s labels Hh) as [Hval _]. pose proof (hostname_bytes s labels Hs Hh) as Hlb. pose proof (hostname_wire s labels Hh) as Hwl.
  pose proof (proj2 (strip_dot_bytes s Hs)) as Hstrip. pose proof (wire_pos labels) as Hwp. pose proof (size_room a) as Hroom.
  set (dns0 := DnsRequest false sa qtype data' OFF_NAME 0 0 _ _ 0 0 [] None None).
  change (Z.max 0 (OFF_PADDING - OFF_NAME)) with DNS_MAX_NAME_LEN in *.
  destruct (Z.le_gt_cases (zlen (wire labels)) DNS_MAX_NAME_LEN) as [Hfit|Hlong].
  - specialize (Hd Hfit). assert (Hbuf : buffer_ok (dr_buf dns0) [0; 0] (put_at 0 DNS_MAX_NAME_LEN (wire labels) (replicate 259 0))).
    { cbn [dr_buf dns0]. rewrite Hd. apply buffer_put; [done|by apply wire_bytes]. }
    assert (Hw : zlen (wire labels) = zlen (concat (map (fun label => zlen label :: label) labels)) + 1) by (unfold wire; rewrite zlen_app; done).
    destruct (dns_question_ok dns0 [0; 0] _ (Some labels) Hbuf Hse (query_type_in _ Hqt)) as (dns1 & rc & -> & Hsame & Hrc).
    { split; [by split|]. split; [cbn [dr_offset dns0]; unfold OFF_NAME; lia|]. unfold put_at. rewrite (take_ge (wire labels)) by lia.
      change (take (Z.to_nat 0) (replicate 259 0)) with (@nil Z). unfold wire. rewrite <- !app_assoc. by eexists. }
    destruct rc as [[]|e]; [|by eexists]. destruct open; [|by eexists]. eexists. split; [done|].
    destruct Hsame as (F1 & F2 & F3 & F4 & F5 & F6 & F7 & F8 & F9 & F10). cbn in F1, F2, F3, F4, F5, F6, F7, F8, F9, F10.
    split; [|by rewrite <- F8, <- F9, <- F10]. destruct Hrc as (base & suffix & junk' & [= <-] & Hsuf & Hq). split; [cbn; rewrite F8; constructor|].
    cbn [dr_done set_dr_timer]. rewrite F10. split; [|done]. exists (labels ++ suffix), qtype. apply (lookup_timer _ _ _ true). split; try congruence; try done.
    + by exists [0; 0], junk'.
    + exists labels, suffix. split; [done|]. rewrite F4. unfold OFF_NAME. lia.
    + rewrite F5. unfold entry_ok. cbn [dn_offset dn_len dn_data]. intros Hlt. exists suffix. unfold suffix_of in Hsuf. cbn [dn_offset dn_len dr_search dns0] in Hsuf.
      by rewrite (proj2 (Z.eqb_neq 0 search_len)) in Hsuf by lia.
    + rewrite F7. unfold DNS_MAX_CNAME_RECURSION. lia.
  - destruct (dns_question_long dns0) as (dns1 & e & ->).
    + cbn [dr_buf dns0]. rewrite Hl. reflexivity.
    + exact Hse.
    + split; cbn [dr_offset dns0]; unfold OFF_PADDING, OFF_NAME, DNS_MAX_NAME_LEN in *; [lia|]. assert (12 + 2 ^ 20 + 2 + 2 ^ 22 < 2 ^ 32) by reflexivity. lia.
    + by eexists.
Qed.
End Resolver.

(** ** Settings *)

(** The search list is formatted to the end, inside the buffer. *)
Lemma dnssl_loop_ok a einval raw len fuel : bytes_ok raw -> zlen raw < 2 ^ 31 -> 0 <= len -> forall off buf total, len <= zlen buf ->
  0 <= off <= zlen raw -> zlen raw - off < Z.of_nat fuel -> 0 <= total ->
  exists buf' r, dnssl_loop fuel a einval (DnsName raw off (zlen raw)) buf len total = Some (buf', r) /\ length buf' = length buf.
Proof.
  intros Hb Hs Hlen. pose proof (size_room a) as Hroom. induction fuel as [|fuel IH]; intros off buf total Hbuf Hoff Hfuel Htot; cbn [dnssl_loop]; [lia|].
  cbn [dn_offset dn_len dn_data]. destruct (Z.ltb_spec off (zlen raw)); cbn [negb]; [|by eexists _, _].
  set (remaining := if total <? len then len - total else 0).
  assert (Hr : has_room total remaining buf) by (unfold remaining; destruct (Z.ltb_spec total len); split; lia).
  destruct (dns_decode_ok raw (zlen raw) Hb (Z.le_refl _) total remaining buf Hr off ltac:(lia) ltac:(lia)) as (buf1 & r & -> & Hdec).
  destruct r as [k|e]; [|destruct Hdec as (_ & _ & t & ->); eexists _, _; split; [done|by rewrite put_at_length]].
  destruct Hdec as (labels & Hname & -> & Hbuf1). assert (Hl1 : length buf1 = length buf) by (rewrite Hbuf1; by apply put_at_length).
  destruct (dns_skip_search_ok raw (zlen raw) Hb (Z.le_refl _) off ltac:(lia) ltac:(lia)) as (r & -> & Hsk).
  destruct r as [next|e]; [|destruct Hsk as [_ Hsk]; by destruct (Hsk labels)].
  assert (En : as_size a einval (Ok next) = next) by (unfold as_size; apply uwrap_small; lia). rewrite En.
  set (total1 := total + zlen (dotted labels)). destruct (negb (next =? zlen raw)).
  - destruct (Z.ltb_spec total1 len) as [Hfit|_].
    + destruct (mem_write_split buf1 total1 [32]) as (buf2 & -> & Hl2 & _); [lia|rewrite Hl1; cbn [length]; lia|].
      destruct (IH next buf2 (total1 + 1)) as (buf' & r & -> & Hl); [lia|lia|lia|lia|]. eexists _, _. split; [done|congruence].
    + destruct (IH next buf1 (total1 + 1)) as (buf' & r & -> & Hl); [lia|lia|lia|lia|]. eexists _, _. split; [done|congruence].
  - destruct (IH next buf1 total1) as (buf' & r & -> & Hl); [lia|lia|lia|lia|]. eexists _, _. split; [done|congruence].
Qed.

Lemma format_dnssl_setting_ok a einval raw buf len : bytes_ok raw -> zlen raw < 2 ^ 31 -> 0 <= len <= zlen buf ->
  exists buf' r, format_dnssl_setting a einval raw buf len = Some (buf', r) /\ length buf' = length buf.
Proof. intros Hb Hs Hl. apply dnssl_loop_ok; try done; lia. Qed.

(** The search list of the settings, or the local domain, is usable. *)
Lemma apply_dns_search_ok dnssl domain junk memory :
  from_option (fun raw => bytes_ok raw /\ zlen raw <= 2 ^ 16) True dnssl -> bytes_ok domain -> Forall (fun c => c <> 0) domain -> zlen domain < 2 ^ 15 ->
  (forall len data, memory len = Some data -> zlen data = len /\ bytes_ok data) ->
  exists search, apply_dns_search dnssl (Some (cstr domain junk)) memory = Some search /\ search_ok search /\ dn_offset search = 0.
Proof.
  intros Hraw Hd Hnul Hsmall Hmem. unfold apply_dns_search.
  assert (Hempty : search_ok (DnsName [] 0 0)) by (split; cbn; (lia || constructor)).
  destruct dnssl as [raw|]; [destruct Hraw; eexists; split; [done|]; split; [|done]; split; cbn; (done || lia)|].
  destruct (dns_encode_ok 0 0 [] ltac:(lia) ltac:(cbn; lia) domain junk Hnul) as (data0 & _ & H). destruct (hostname domain) as [labels|] eqn:Hh; [|rewrite H; by eexists].
  destruct H as [-> _]. destruct (memory _) as [data|] eqn:Em; [|by eexists]. destruct (Hmem _ _ Em) as [Hl Hb].
  destruct (dns_encode_ok 0 (zlen (wire labels)) data ltac:(lia) ltac:(lia) domain junk Hnul) as (data1 & (Hl1 & _) & H1). rewrite Hh in H1. destruct H1 as [-> H1].
  pose proof (hostname_wire _ _ Hh) as Hw. pose proof (proj2 (strip_dot_bytes domain Hd)) as Hst. destruct (hostname_valid _ _ Hh) as [Hv _].
  eexists. split; [done|]. split; [|done]. split; cbn [dn_len dn_data dn_offset]; [lia|lia| |lia].
  rewrite H1 by lia. apply put_at_bytes; [|done]. apply wire_bytes; [done|by apply (hostname_bytes domain)].
Qed.

(** ** All executions *)

(** What can happen to a lookup: its timer expires while it runs, a packet
    arrives or the socket is closed while it is open, or it is cancelled.  The
    servers are those of the settings at the time. *)
Inductive dns_step (a : arch) (einval : Z) : dns_request -> dns_request -> Prop :=
| step_timer dns s4 s6 random fail dns' : dr_timer dns = true ->
    dns_timer_expired (apply_dns_servers s4 s6) random dns fail = Some dns' -> dns_step a einval dns dns'
| step_deliver dns s4 s6 random packet dns' rc : dr_done dns = None -> packet_ok packet ->
    dns_xfer_deliver a einval (apply_dns_servers s4 s6) random dns packet = Some (dns', rc) -> dns_step a einval dns dns'
| step_close dns rc : dr_done dns = None -> dns_step a einval dns (dns_xfer_close dns rc)
| step_cancel dns rc : dns_step a einval dns (dns_done dns rc).

(** States of lookups. *)
Definition dns_reachable (a : arch) (einval : Z) (dns : dns_request) : Prop :=
  exists servers search s junk sa alloc open dns0,
    search_ok search /\ dn_offset search = 0 /\ bytes_ok s /\ Forall (fun c => c <> 0) s /\ zlen s < 2 ^ 20
    /\ dns_resolv a servers search (cstr s junk) sa alloc open = Some (Ok dns0) /\ rtc (dns_step a einval) dns0 dns.

Lemma dns_step_ok a einval dns dns' : 0x1c000000 <= einval < 0x1d000000 -> request_ok dns -> dns_step a einval dns dns' -> request_ok dns'.
Proof.
  intros He Hok Hstep. destruct Hstep as [dns s4 s6 random fail dns' Ht E|dns s4 s6 random packet dns' rc Ho Hp E|dns rc Ho|dns rc].
  - destruct (dns_timer_expired_ok (apply_dns_servers s4 s6) random dns fail (apply_dns_servers_ok s4 s6) Hok Ht) as (d & E' & H). congruence.
  - destruct (dns_xfer_deliver_ok a einval He (apply_dns_servers s4 s6) random dns packet (apply_dns_servers_ok s4 s6) Hok Ho Hp) as (d & r & E' & H & _). congruence.
  - by apply done_ok.
  - by apply done_ok.
Qed.

Lemma dns_reachable_request a einval dns : 0x1c000000 <= einval < 0x1d000000 -> dns_reachable a einval dns -> request_ok dns.
Proof.
  intros He (servers & search & s & junk & sa & alloc & open & dns0 & H1 & H2 & H3 & H4 & H5 & E & Hr).
  destruct (dns_resolv_ok a einval He servers search s junk sa alloc open H1 H2 H3 H4 H5) as (r & E' & H). rewrite E in E'. injection E' as <-.
  destruct H as [H _]. clear E. induction Hr as [|x y z Hstep Hr IH]; [done|]. apply IH. by apply (dns_step_ok a einval x).
Qed.

(** C20. In every reachable state of a lookup: all packets sent were well-formed
    queries for a name of at most 255 bytes, sent to the DNS port; a lookup that
    has not ended asks for a name and its timer runs, so that it cannot be
    forgotten; one that has ended has no timer, and an address only if it ended
    without error. *)
Theorem dns_lookup_invariant a einval dns : 0x1c000000 <= einval < 0x1d000000 -> dns_reachable a einval dns ->
  Forall (fun s => sa_port s.1 = DNS_PORT /\ exists id labels type, s.2 = query_packet id labels type /\ length id = 2%nat /\ labels_ok labels
    /\ type ∈ [DNS_TYPE_A; DNS_TYPE_AAAA; DNS_TYPE_CNAME] /\ zlen (wire labels) <= DNS_MAX_NAME_LEN) (dr_sent dns)
  /\ match dr_done dns with
     | None => dr_timer dns = true /\ dr_result dns = None /\ exists labels type, asks dns labels type
     | Some rc => dr_timer dns = false /\ (is_Some (dr_result dns) -> rc = Ok tt)
     end.
Proof.
  intros He Hr. destruct (dns_reachable_request a einval dns He Hr) as [H1 H2]. split; [exact H1|]. destruct (dr_done dns); [done|].
  destruct H2 as [(labels & type & Hlo) Ht]. split; [done|]. split; [apply (lo_result _ _ _ Hlo)|]. exists labels, type. apply (lo_asks _ _ _ Hlo).
Qed.

(** C21. Every packet of at most 64 kilobytes is handled to the end in every open
    state, without an access outside the packet, the query or the search list;
    an address is taken only from a response with the identifier of the query
    that has an A or AAAA record for the name asked for, directly or through a
    chain of CNAME records of the same response. *)
Theorem dns_deliver_sound a einval dns s4 s6 random packet : 0x1c000000 <= einval < 0x1d000000 -> dns_reachable a einval dns ->
  dr_done dns = None -> bytes_ok packet -> zlen packet <= 2 ^ 16 ->
  exists dns' rc, dns_xfer_deliver a einval (apply_dns_servers s4 s6) random dns packet = Some (dns', rc)
    /\ forall sa, dr_result dns' = Some sa -> sa_port sa = sa_port (dr_address dns)
      /\ (exists id id', mem_read packet 0 2 = Some id /\ mem_read (dr_buf dns) 0 2 = Some id' /\ be_val id = be_val id')
      /\ exists labels type, asks dns labels type /\ resolves packet labels (sa_family sa) (sa_addr sa).
Proof.
  intros He Hr Ho Hb Hs. destruct (dns_xfer_deliver_ok a einval He (apply_dns_servers s4 s6) random dns packet (apply_dns_servers_ok s4 s6)
    (dns_reachable_request a einval dns He Hr) Ho (conj Hb Hs)) as (dns' & rc & E & _ & Hd & _). by exists dns', rc.
Qed.

(** ** A lookup *)

(** "www.a", asked for at 10.0.0.1, port 80. *)
Definition demo_servers : dns_servers := apply_dns_servers (Some [10; 0; 0; 1]) None.
Definition demo_address : sockaddr := SockAddr 0 80 [].
Definition demo_name : list Z := [119; 119; 119; 46; 97].
Definition nowhere : dns_request := DnsRequest false demo_address 0 [] 0 0 0 0 (DnsName [] 0 0) 0 0 [] None None.
Definition demo_start : dns_request :=
  match dns_resolv Arch32 demo_servers (DnsName [] 0 0) (cstr demo_name []) demo_address true (Ok tt) with Some (Ok dns) => dns | _ => nowhere end.
Definition demo_asked : dns_request := default nowhere (dns_timer_expired demo_servers 0x1234 demo_start false).

Definition demo_einval : Z := 0x1c0de004.

(** The answer: www.a is another name for b, whose address is 10.0.0.9. *)
Definition demo_response : list Z :=
  [0x34; 0x12; 0x81; 0x80; 0; 1; 0; 2; 0; 0; 0; 0] ++ wire [[119; 119; 119]; [97]] ++ [0; 1; 0; 1]
  ++ [192; 12; 0; 5; 0; 1; 0; 0; 0; 9; 0; 3] ++ [1; 66; 0] ++ [1; 98; 0; 0; 1; 0; 1; 0; 0; 0; 9; 0; 4; 10; 0; 0; 9].

Lemma demo_reachable : dns_reachable Arch32 demo_einval demo_asked.
Proof.
  exists demo_servers, (DnsName [] 0 0), demo_name, [], demo_address, true, (Ok tt), demo_start. split; [split; cbn; (lia || constructor)|].
  split; [done|]. split; [apply (bool_decide_unpack _); vm_compute; exact I|]. split; [apply (bool_decide_unpack _); vm_compute; exact I|].
  split; [cbn; lia|]. split; [vm_compute; reflexivity|]. apply rtc_once. eapply (step_timer _ _ _ (Some [10; 0; 0; 1]) None 0x1234 false); vm_compute; reflexivity.
Qed.

Lemma dns_lookup_invariant_witness :
  Forall (fun s => sa_port s.1 = DNS_PORT /\ exists id labels type, s.2 = query_packet id labels type /\ length id = 2%nat /\ labels_ok labels
    /\ type ∈ [DNS_TYPE_A; DNS_TYPE_AAAA; DNS_TYPE_CNAME] /\ zlen (wire labels) <= DNS_MAX_NAME_LEN) (dr_sent demo_asked)
  /\ dr_timer demo_asked = true /\ length (dr_sent demo_asked) = 1%nat.
Proof.
  destruct (dns_lookup_invariant Arch32 demo_einval demo_asked ltac:(unfold demo_einval; lia) demo_reachable) as [H1 H2].
  split; [exact H1|]. split; vm_compute; reflexivity.
Defined.

Lemma dns_deliver_sound_witness :
  exists dns' rc, dns_xfer_deliver Arch32 demo_einval demo_servers 7 demo_asked demo_response = Some (dns', rc)
    /\ dr_result dns' = Some (SockAddr AF_INET 80 [10; 0; 0; 9])
    /\ exists labels type, asks demo_asked labels type /\ resolves demo_response labels AF_INET [10; 0; 0; 9].
Proof.
  destruct (dns_deliver_sound Arch32 demo_einval demo_asked (Some [10; 0; 0; 1]) None 7 demo_response) as (dns' & rc & E & H).
  - unfold demo_einval. lia.
  - exact demo_reachable.
  - vm_compute. reflexivity.
  - apply (bool_decide_unpack _). vm_compute. exact I.
  - vm_compute. discriminate.
  - exists dns', rc. split; [exact E|]. assert (Er : dr_result dns' = Some (SockAddr AF_INET 80 [10; 0; 0; 9])).
    { assert (Ec : (fun r => dr_result r.1) <$> dns_xfer_deliver Arch32 demo_einval demo_servers 7 demo_asked demo_response = Some (Some (SockAddr AF_INET 80 [10; 0; 0; 9])))
        by (vm_compute; reflexivity). change (apply_dns_servers (Some [10; 0; 0; 1]) None) with demo_servers in E. rewrite E in Ec. by injection Ec. }
    split; [exact Er|]. destruct (H _ Er) as (_ & _ & labels & type & H1 & H2). exists labels, type. split; [exact H1|exact H2].
Defined.

(** ** Aliases are not followed *)

(** The response to the query for www.a with the alias but without an address,
    and the response to the next query, without answers. *)
Definition alias_response : list Z :=
  [0x34; 0x12; 0x81; 0x80; 0; 1; 0; 1; 0; 0; 0; 0] ++ wire [[119; 119; 119]; [97]] ++ [0; 1; 0; 1]
  ++ [192; 12; 0; 5; 0; 1; 0; 0; 0; 9; 0; 3] ++ [1; 98; 0].
Definition empty_response : list Z := [0x78; 0x56; 0x81; 0x80; 0; 1; 0; 0; 0; 0; 0; 0] ++ wire [[98]] ++ [0; 5; 0; 1].

(** C39. When a response to a question for a CNAME record has one, its delivery
    does not send the query for the address of the alias, although that query has
    been set up: the lookup succeeds if the response has that address as well, it
    fails, or the response is refused because of what follows the alias (only
    then can the query be sent later, when the timer expires,
    [dns_alias_by_timer]).  For example, after a response that only names the
    alias the code asks for a CNAME record of the alias, and when there is none
    the lookup fails without having asked for its address. *)
Theorem dns_alias_not_followed :
  (forall a einval dns s4 s6 random packet labels, 0x1c000000 <= einval < 0x1d000000 -> dns_reachable a einval dns -> dr_done dns = None -> packet_ok packet ->
     asks dns labels DNS_TYPE_CNAME -> exists dns' rc, dns_xfer_deliver a einval (apply_dns_servers s4 s6) random dns packet = Some (dns', rc)
       /\ (dr_recursion dns' <> dr_recursion dns -> alias_end dns dns' rc))
  /\ exists dns1 dns2, dns_xfer_deliver Arch32 demo_einval demo_servers 0x5678 demo_asked alias_response = Some (dns1, Ok tt)
     /\ dns_xfer_deliver Arch32 demo_einval demo_servers 0 dns1 empty_response = Some (dns2, Err ENXIO_NO_RECORD)
     /\ map snd (dr_sent dns2) = [query_packet [0x34; 0x12] [[119; 119; 119]; [97]] DNS_TYPE_A; query_packet [0x78; 0x56] [[98]] DNS_TYPE_CNAME]
     /\ dr_done dns2 = Some (Err ENXIO_NO_RECORD).
Proof.
  split.
  - intros a einval dns s4 s6 random packet labels He Hr Ho Hp Hasks. destruct (dns_xfer_deliver_ok a einval He (apply_dns_servers s4 s6) random dns packet
      (apply_dns_servers_ok s4 s6) (dns_reachable_request a einval dns He Hr) Ho Hp) as (dns' & rc & E & _ & _ & H). exists dns', rc. split; [done|]. by apply (H labels).
  - destruct (dns_xfer_deliver Arch32 demo_einval demo_servers 0x5678 demo_asked alias_response) as [[dns1 rc]|] eqn:E1; [|vm_compute in E1; discriminate].
    vm_compute in E1. injection E1 as <- <-. eexists _, _. split; [reflexivity|]. split; [vm_compute; reflexivity|]. split; vm_compute; reflexivity.
Qed.

(** The second query of this lookup, answered with an alias of b. *)
Definition demo_alias : dns_request := from_option fst nowhere (dns_xfer_deliver Arch32 demo_einval demo_servers 0x5678 demo_asked alias_response).
Definition cname_response : list Z :=
  [0x78; 0x56; 0x81; 0x80; 0; 1; 0; 1; 0; 0; 0; 0] ++ wire [[98]] ++ [0; 5; 0; 1] ++ [192; 12; 0; 5; 0; 1; 0; 0; 0; 9; 0; 3] ++ [1; 99; 0].

Lemma dns_alias_not_followed_witness :
  asks demo_alias [[98]] DNS_TYPE_CNAME
  /\ exists dns' rc, dns_xfer_deliver Arch32 demo_einval demo_servers 0 demo_alias cname_response = Some (dns', rc)
    /\ (dr_recursion dns' <> dr_recursion demo_alias -> alias_end demo_alias dns' rc).
Proof.
  assert (Hasks : asks demo_alias [[98]] DNS_TYPE_CNAME).
  { exists [0x78; 0x56], (drop 19 (dr_buf demo_alias)). split; [|split; apply (bool_decide_unpack _); vm_compute; exact I
      |apply (bool_decide_unpack _); vm_compute; exact I|vm_compute; reflexivity|vm_compute; reflexivity|vm_compute; reflexivity].
    split; [vm_compute; reflexivity|reflexivity|vm_compute; reflexivity|apply (bool_decide_unpack _); vm_compute; exact I]. }
  split; [exact Hasks|].
  apply (proj1 dns_alias_not_followed Arch32 demo_einval demo_alias (Some [10; 0; 0; 1]) None 0 cname_response [[98]]).
  - unfold demo_einval. lia.
  - destruct demo_reachable as (servers & search & s & junk & sa & alloc & open & dns0 & H1 & H2 & H3 & H4 & H5 & H6 & H7).
    exists servers, search, s, junk, sa, alloc, open, dns0. repeat (split; [assumption|]). eapply rtc_r; [exact H7|].
    eapply (step_deliver _ _ _ (Some [10; 0; 0; 1]) None 0x5678 alias_response); [vm_compute; reflexivity| |vm_compute; reflexivity].
    split; [apply (bool_decide_unpack _); vm_compute; exact I|vm_compute; discriminate].
  - vm_compute. reflexivity.
  - split; [apply (bool_decide_unpack _); vm_compute; exact I|vm_compute; discriminate].
  - exact Hasks.
Defined.

(** A stray octet behind the alias: the response is refused after the query was
    set up, the timer keeps running, and its expiry sends the query. *)
Example dns_alias_by_timer :
  match dns_xfer_deliver Arch32 demo_einval demo_servers 0 demo_alias (cname_response ++ [7]) with
  | Some (dns', Err _) => dr_timer dns' = true /\ dr_done dns' = None /\ dr_sent dns' = dr_sent demo_alias
      /\ exists dns'' s, dns_timer_expired demo_servers 0x9abc dns' false = Some dns'' /\ dr_sent dns'' = dr_sent dns' ++ [s]
         /\ s.2 = query_packet [0xbc; 0x9a] [[99]] DNS_TYPE_A
  | _ => False
  end.
Proof. vm_compute. split; [reflexivity|]. split; [reflexivity|]. split; [reflexivity|]. eexists _, _. split; [reflexivity|]. split; reflexivity. Qed.
