(* ===== verification/Gcm.v ===== *)
(** * Galois/Counter Mode ([crypto/gcm.c], [include/ipxe/gcm.h])

    The multiplication tables of the last key are kept in static memory for all
    contexts and are recognised by the address of the key, so an operation takes
    the tables and the address of its context.  A block is the list of its 16
    bytes; a table entry of two bytes is the list of its bytes in memory, which
    makes the byte swaps of the code the same on every target.  [None] is an
    access outside an object. *)
From S2P Require Import Prelude Strings Memory Digest Cipher.

Definition GCM_FL_ENCRYPT : Z := 0x00ff.
Definition GCM_FL_IV : Z := 0x0100.
Definition GCM_POLY : Z := 0xe1.

Abbreviation gcm_block := (list Z) (only parsing).
Definition zero_block : gcm_block := replicate 16 0.

(** The address of the key the tables are for ([None] is [NULL]). *)
Record gcm_tables := GcmTables {
  gcm_cached_key : option Z;
  gcm_cached_mult : list gcm_block;
  gcm_cached_reduce : list (list Z) }.

(** As at the start of the program. *)
Definition no_tables : gcm_tables := GcmTables None (replicate 256 zero_block) (replicate 256 [0; 0]).

(** ** Multiplication *)

(** The loop ends when the mask has been shifted out. *)
Fixpoint gcm_reverse_loop (fuel : nat) (byte mask etyb : Z) : Z :=
  match fuel with
  | O => etyb
  | S fuel' =>
      if mask =? 0 then etyb else
      let etyb := u8 (Z.shiftl etyb 1) in
      let etyb := if negb (Z.land byte mask =? 0) then Z.lor etyb 1 else etyb in
      gcm_reverse_loop fuel' byte (u8 (Z.shiftl mask 1)) etyb
  end.

(** [etyb] is the value of the uninitialised variable. *)
Definition gcm_reverse (etyb byte : Z) : Z := gcm_reverse_loop 9 byte 1 etyb.

Definition gcm_count (ctr : gcm_block) (delta : Z) : gcm_block :=
  take 12 ctr ++ be32 (u32 (be_val (drop 12 ctr) + delta)).

(** Into a block, where the bytes after the first [len] are kept. *)
Definition gcm_xor (src1 src2 dst : list Z) (len : Z) : list Z :=
  zip_with Z.lxor (take (Z.to_nat len) src1) (take (Z.to_nat len) src2) ++ drop (Z.to_nat len) dst.

(** The same loop from and to a buffer, byte by byte, since the two can
    overlap. *)
Fixpoint gcm_xor_mem (mem : list Z) (src1 : Z) (src2 : list Z) (dst : Z) (len : nat) : option (list Z) :=
  match len with
  | O => Some mem
  | S len' =>
      opt! x := mem_byte mem src1 in
      opt! y := src2 !! 0%nat in
      opt! mem := mem_write mem dst [Z.lxor x y] in
      gcm_xor_mem mem (src1 + 1) (drop 1 src2) (dst + 1) len'
  end.

Definition gcm_xor_block (src dst : gcm_block) : gcm_block := zip_with Z.lxor dst src.

(** The shifted bytes, and the carry out of the last. *)
Fixpoint multiply_x_loop (mult : list Z) (carry : Z) : list Z * Z :=
  match mult with
  | [] => ([], carry)
  | byte :: mult' =>
      let '(res, last) := multiply_x_loop mult' (Z.land byte 0x01) in
      (u8 (Z.lor (Z.shiftl carry 7) (Z.shiftr byte 1)) :: res, last)
  end.

Definition gcm_multiply_x (mult : gcm_block) : gcm_block :=
  let '(res, carry) := multiply_x_loop mult 0 in
  if negb (carry =? 0) then alter (fun b => Z.lxor b GCM_POLY) 0%nat res else res.

(** One iteration of the loop over the entries. *)
Definition cache_entry (key : gcm_block) (i : Z) (mult : list gcm_block) (reduce : list (list Z)) : option (list gcm_block * list (list Z)) :=
  let this := gcm_reverse 0 i in
  if negb (Z.land this 0x80 =? 0) then
    let other := Z.land this 0x7f in
    opt! m := mult !! Z.to_nat other in
    opt! r := reduce !! Z.to_nat other in
    Some (<[Z.to_nat this := gcm_xor key m [] 16]> mult, <[Z.to_nat this := zip_with Z.lxor r (be16 (Z.shiftl GCM_POLY 8))]> reduce)
  else
    let other := Z.shiftl this 1 in
    opt! m := mult !! Z.to_nat other in
    opt! r := reduce !! Z.to_nat other in
    Some (<[Z.to_nat this := gcm_multiply_x m]> mult, <[Z.to_nat this := be16 (Z.shiftr (be_val r) 1)]> reduce).

Fixpoint cache_loop (n : nat) (key : gcm_block) (i : Z) (mult : list gcm_block) (reduce : list (list Z)) : option (list gcm_block * list (list Z)) :=
  match n with
  | O => Some (mult, reduce)
  | S n' => opt! (mult, reduce) := cache_entry key i mult reduce in cache_loop n' key (i + 1) mult reduce
  end.

(** The key and its address. *)
Definition gcm_cache (t : gcm_tables) (addr : Z) (key : gcm_block) : option gcm_tables :=
  opt! (mult, reduce) := cache_loop 255 key 1 (gcm_cached_mult t) (gcm_cached_reduce t) in
  Some (GcmTables (Some addr) mult reduce).

Definition gcm_multiply_x_8 (t : gcm_tables) (poly : gcm_block) : option gcm_block :=
  opt! msb := poly !! 15%nat in
  let poly := 0 :: take 15 poly in
  opt! word := gcm_cached_reduce t !! Z.to_nat msb in
  Some (zip_with Z.lxor (take 2 poly) word ++ drop 2 poly).

(** The bytes before the last, in descending order. *)
Fixpoint multiply_loop (t : gcm_tables) (bytes : list Z) (res : gcm_block) : option gcm_block :=
  match bytes with
  | [] => Some res
  | byte :: bytes' =>
      opt! res := gcm_multiply_x_8 t res in
      opt! m := gcm_cached_mult t !! Z.to_nat byte in
      multiply_loop t bytes' (gcm_xor_block m res)
  end.

Definition gcm_multiply_key (t : gcm_tables) (addr : Z) (key poly : gcm_block) : option (gcm_tables * gcm_block) :=
  opt! t := (if bool_decide (gcm_cached_key t = Some addr) then Some t else gcm_cache t addr key) in
  match rev poly with
  | [] => None
  | byte :: bytes =>
      opt! res := gcm_cached_mult t !! Z.to_nat byte in
      opt! res := multiply_loop t bytes res in
      Some (t, res)
  end.

(** ** Contexts *)

Section Gcm.
Context (a : arch) (c : cipher_algorithm) (cipher_setkey : list Z -> res (c_ctx c)).

(** The lengths are numbers of bits. *)
Record gcm_context := GcmContext {
  gc_hash : gcm_block;
  gc_add : Z;
  gc_data : Z;
  gc_ctr : gcm_block;
  gc_key : gcm_block;
  gc_raw : c_ctx c }.

Definition set_gc_hash v x := GcmContext v (gc_add x) (gc_data x) (gc_ctr x) (gc_key x) (gc_raw x).
Definition set_gc_len add data x := GcmContext (gc_hash x) add data (gc_ctr x) (gc_key x) (gc_raw x).
Definition set_gc_ctr v x := GcmContext (gc_hash x) (gc_add x) (gc_data x) v (gc_key x) (gc_raw x).

(** The loop of [gcm_process]; [dst] is [None] for additional data. *)
Fixpoint process_loop (fuel : nat) (t : gcm_tables) (addr : Z) (x : gcm_context) (mem : list Z) (src : Z) (dst : option Z) (len flags : Z)
  : option (gcm_tables * gcm_context * list Z) :=
  if len =? 0 then Some (t, x, mem) else
  match fuel with
  | O => None
  | S fuel' =>
      let frag_len := if 16 <? len then 16 else len in
      opt! data := mem_read mem src frag_len in
      let x := set_gc_hash (gcm_xor data (gc_hash x) (gc_hash x) frag_len) x in
      opt! (x, mem, dst) :=
        match dst with
        | None => Some (x, mem, None)
        | Some d =>
            let x := set_gc_ctr (gcm_count (gc_ctr x) 1) x in
            let tmp := c_encrypt c (gc_raw x) (gc_ctr x) in
            opt! mem := gcm_xor_mem mem src tmp d (Z.to_nat frag_len) in
            let x := set_gc_hash (gcm_xor tmp (gc_hash x) (gc_hash x) (Z.land frag_len flags)) x in
            Some (x, mem, Some (d + frag_len))
        end in
      opt! (t, hash) := gcm_multiply_key t addr (gc_key x) (gc_hash x) in
      process_loop fuel' t addr (set_gc_hash hash x) mem (src + frag_len) dst (uwrap (size_bits a) (len - frag_len)) flags
  end.

Definition gcm_process (t : gcm_tables) (addr : Z) (x : gcm_context) (mem : list Z) (src : Z) (dst : option Z) (len flags : Z)
  : option (gcm_tables * gcm_context * list Z) :=
  let bits := uwrap (size_bits a) (len * 8) in
  let is_data := match dst with Some _ => true | None => negb (Z.land flags GCM_FL_IV =? 0) end in
  let x := if is_data then set_gc_len (gc_add x) (u64 (gc_data x + bits)) x else set_gc_len (u64 (gc_add x + bits)) (gc_data x) x in
  process_loop (Z.to_nat len) t addr x mem src dst len flags.

Definition gcm_hash (t : gcm_tables) (addr : Z) (x : gcm_context) : option (gcm_tables * gcm_block) :=
  let hash := be_bytes 8 (gc_add x) ++ be_bytes 8 (gc_data x) in
  gcm_multiply_key t addr (gc_key x) (gcm_xor_block (gc_hash x) hash).

Definition gcm_tag (t : gcm_tables) (addr : Z) (x : gcm_context) : option (gcm_tables * gcm_block) :=
  opt! (t, tag) := gcm_hash t addr x in
  let offset := u32 (u64 (- gc_data x) / (8 * 16)) in
  let tmp := c_encrypt c (gc_raw x) (gcm_count (gc_ctr x) offset) in
  Some (t, gcm_xor_block tmp tag).

(** When the key is refused the context has been erased and has no key. *)
Definition gcm_setkey (t : gcm_tables) (addr : Z) (key : list Z) : option (gcm_tables * res gcm_context) :=
  match cipher_setkey key with
  | Err e => Some (t, Err e)
  | Ok raw =>
      let hash_key := c_encrypt c raw zero_block in
      let x := GcmContext zero_block 0 0 (take 12 zero_block ++ be32 1) hash_key raw in
      opt! t := gcm_cache t addr hash_key in
      Some (t, Ok x)
  end.

(** The vector is at [iv] in [mem]. *)
Definition gcm_setiv (t : gcm_tables) (addr : Z) (x : gcm_context) (mem : list Z) (iv ivlen : Z) : option (gcm_tables * gcm_context) :=
  let x := GcmContext zero_block 0 0 (take 12 zero_block ++ be32 1) (gc_key x) (gc_raw x) in
  if ivlen =? 12 then
    opt! v := mem_read mem iv ivlen in Some (t, set_gc_ctr (v ++ drop 12 (gc_ctr x)) x)
  else
    opt! (t, x, _) := gcm_process t addr x mem iv None ivlen GCM_FL_IV in
    opt! (t, ctr) := gcm_hash t addr x in
    Some (t, set_gc_len 0 0 (set_gc_hash zero_block (set_gc_ctr ctr x))).

Definition gcm_encrypt (t : gcm_tables) (addr : Z) (x : gcm_context) (mem : list Z) (src : Z) (dst : option Z) (len : Z) :=
  gcm_process t addr x mem src dst len GCM_FL_ENCRYPT.

Definition gcm_decrypt (t : gcm_tables) (addr : Z) (x : gcm_context) (mem : list Z) (src : Z) (dst : option Z) (len : Z) :=
  gcm_process t addr x mem src dst len 0.
End Gcm.

Arguments GcmContext {c}.
Arguments gc_hash {c}.
Arguments gc_add {c}.
Arguments gc_data {c}.
Arguments gc_ctr {c}.
Arguments gc_key {c}.
Arguments gc_raw {c}.
Arguments set_gc_hash {c}.
Arguments set_gc_len {c}.
Arguments set_gc_ctr {c}.
