(* ===== verification/GcmSpec.v ===== *)
(** * GCM as NIST SP 800-38D defines it

    The specification, on byte strings: multiplication of blocks (algorithm 1),
    GHASH (algorithm 2), GCTR (algorithm 3), authenticated encryption and
    decryption (algorithms 4 and 5) with tags of 128 bits. *)
From S2P Require Import Prelude Strings Memory Digest.

(** ** Multiplication of blocks *)

(** The block 11100001 || 0^120. *)
Definition R : Z := Z.shiftl 0xe1 120.

(** V >> 1, reduced if a bit was shifted out. *)
Definition times_x (v : Z) : Z := Z.lxor (Z.shiftr v 1) (if Z.odd v then R else 0).

(** The bits of [x] from bit [n - 1] down. *)
Fixpoint mul_loop (n : nat) (x z v : Z) : Z :=
  match n with
  | O => z
  | S n' => mul_loop n' x (if Z.testbit x (Z.of_nat n') then Z.lxor z v else z) (times_x v)
  end.

Definition block_mul (x y : list Z) : list Z := be_bytes 16 (mul_loop 128 (be_val x) 0 (be_val y)).

(** ** Functions on strings *)

Definition xor : list Z -> list Z -> list Z := zip_with Z.lxor.
Definition blocks (s : list Z) : list (list Z) := groups (length s) 16 s.

(** Zeros up to a whole number of blocks. *)
Definition pad (s : list Z) : list Z := s ++ replicate ((16 - length s mod 16) mod 16) 0.

Definition GHASH (H s : list Z) : list Z := fold_left (fun y x => block_mul (xor y x) H) (blocks s) (replicate 16 0).

Definition inc32 (s : list Z) : list Z := take 12 s ++ be32 (be_val (drop 12 s) + 1).

Section Gcm.
Context (E : list Z -> list Z).

Fixpoint gctr_blocks (cb : list Z) (xs : list (list Z)) : list Z :=
  match xs with [] => [] | x :: xs' => xor x (take (length x) (E cb)) ++ gctr_blocks (inc32 cb) xs' end.
Definition GCTR (icb s : list Z) : list Z := gctr_blocks icb (blocks s).

Definition hash_subkey : list Z := E (replicate 16 0).

(** The pre-counter block. *)
Definition J0 (iv : list Z) : list Z :=
  if decide (length iv = 12%nat) then iv ++ be32 1
  else GHASH hash_subkey (pad iv ++ be_bytes 8 0 ++ be_bytes 8 (8 * zlen iv)).

Definition auth_tag (iv aad text : list Z) : list Z :=
  GCTR (J0 iv) (GHASH hash_subkey (pad aad ++ pad text ++ be_bytes 8 (8 * zlen aad) ++ be_bytes 8 (8 * zlen text))).

(** Ciphertext and tag; plaintext, if the tag is right. *)
Definition GCM_AE (iv p aad : list Z) : list Z * list Z := let text := GCTR (inc32 (J0 iv)) p in (text, auth_tag iv aad text).
Definition GCM_AD (iv text aad tag : list Z) : option (list Z) :=
  if decide (auth_tag iv aad text = tag) then Some (GCTR (inc32 (J0 iv)) text) else None.
End Gcm.
