(* ===== verification/GcmField.v ===== *)
(** * GCM: the table-driven multiplication is the one of the standard

    [times_x] is linear over exclusive or, so the product of a block and the key
    can be computed byte by byte with one table of multiples of the key and one
    of reductions (Shoup's method). *)
From S2P Require Import Prelude Strings Memory Digest Cipher Gcm GcmSpec.

(** ** Sums of multiples *)

Lemma times_x_lxor v w : times_x (Z.lxor v w) = Z.lxor (times_x v) (times_x w).
Proof.
  unfold times_x. rewrite Z.shiftr_lxor, <- !Z.bit0_odd, Z.lxor_spec. apply Z.bits_inj'. intros i Hi.
  destruct (Z.testbit v 0), (Z.testbit w 0); cbn [xorb]; rewrite !Z.lxor_spec, ?Z.bits_0;
    destruct (Z.testbit (Z.shiftr v 1) i), (Z.testbit (Z.shiftr w 1) i), (Z.testbit R i); done.
Qed.

Lemma times_x_double u : times_x (2 * u) = u.
Proof.
  unfold times_x. rewrite Z.odd_mul. cbn [Z.odd andb]. rewrite Z.lxor_0_r, Z.shiftr_div_pow2 by lia. change (2 ^ 1) with 2.
  rewrite Z.mul_comm. apply Z.div_mul. lia.
Qed.

Lemma times_x_nonneg v : 0 <= v -> 0 <= times_x v.
Proof.
  intros Hv. unfold times_x. apply Z.lxor_nonneg. split; intros _; [destruct (Z.odd v); by vm_compute|by apply Z.shiftr_nonneg].
Qed.

(** The sum of [v], multiplied by a power of x, for the bits of [x] from bit
    [n - 1] down. *)
Fixpoint poly_mul (n : nat) (x v : Z) : Z :=
  match n with
  | O => 0
  | S n' => Z.lxor (if Z.testbit x (Z.of_nat n') then v else 0) (poly_mul n' x (times_x v))
  end.

Lemma mul_loop_poly n x : forall z v, mul_loop n x z v = Z.lxor z (poly_mul n x v).
Proof.
  induction n as [|n IH]; intros z v; cbn [mul_loop poly_mul]; [by rewrite Z.lxor_0_r|]. rewrite IH.
  destruct (Z.testbit x _); [apply Z.lxor_assoc|by rewrite Z.lxor_0_l].
Qed.

Lemma poly_mul_times_x n x : forall v, poly_mul n x (times_x v) = times_x (poly_mul n x v).
Proof. induction n as [|n IH]; intros v; cbn [poly_mul]; [done|]. rewrite times_x_lxor, IH. by destruct (Z.testbit x _). Qed.

Lemma poly_mul_ext n x y v : (forall i, 0 <= i < Z.of_nat n -> Z.testbit x i = Z.testbit y i) -> poly_mul n x v = poly_mul n y v.
Proof.
  revert v. induction n as [|n IH]; intros v H; cbn [poly_mul]; [done|]. rewrite H by lia. f_equal. apply IH. intros i Hi. apply H. lia.
Qed.

Lemma poly_mul_split m n x : forall v, poly_mul (m + n) x v = Z.lxor (poly_mul m (Z.shiftr x (Z.of_nat n)) v) (Nat.iter m times_x (poly_mul n x v)).
Proof.
  induction m as [|m IH]; intros v; cbn [Nat.add poly_mul]; [by rewrite Z.lxor_0_l|]. rewrite IH, Z.lxor_assoc. f_equal.
  - rewrite Z.shiftr_spec by lia. by rewrite Nat2Z.inj_add.
  - f_equal. rewrite Nat.iter_succ_r. by rewrite poly_mul_times_x.
Qed.

Lemma poly_mul_double n t v : poly_mul (S n) (2 * t) v = poly_mul n t v.
Proof.
  revert v. induction n as [|n IH]; intros v.
  - cbn [poly_mul]. change (Z.of_nat 0) with 0. rewrite Z.testbit_even_0. done.
  - cbn [poly_mul] in *. rewrite IH. f_equal. rewrite Nat2Z.inj_succ, Z.testbit_even_succ by lia. done.
Qed.

(** One byte more. *)
Lemma poly_mul_bytes b l v : bytes_ok (b :: l) ->
  poly_mul (8 * S (length l)) (be_val (b :: l)) v = Z.lxor (poly_mul 8 b v) (Nat.iter 8 times_x (poly_mul (8 * length l) (be_val l) v)).
Proof.
  intros Hb. apply Forall_cons in Hb as [Hb Hl]. pose proof (be_val_range l Hl) as Hr. rewrite be_val_cons.
  replace (8 * S (length l))%nat with (8 + 8 * length l)%nat by lia. rewrite poly_mul_split. change 256 with (2 ^ 8) in *.
  rewrite <- Z.pow_mul_r in * by lia. replace (Z.of_nat (8 * length l)) with (8 * zlen l) by lia. set (k := 8 * zlen l) in *. f_equal.
  - rewrite Z.shiftr_div_pow2 by lia. f_equal. rewrite Z.div_add_l, Z.div_small by lia. lia.
  - f_equal. apply poly_mul_ext. intros i Hi. rewrite <- lor_mul_add, <- Z.shiftl_mul_pow2, Z.lor_spec, Z.shiftl_spec by lia.
    rewrite (Z.testbit_neg_r _ (i - k)) by lia. done.
Qed.

(** ** Multiplication by x *)

Definition is_block (b : list Z) : Prop := bytes_ok b /\ length b = 16%nat.

Lemma xor_is_block x y : is_block x -> is_block y -> is_block (zip_with Z.lxor x y).
Proof. intros [Hx Lx] [Hy Ly]. apply (xor_block {| c_ctx := unit; c_blocksize := 16; c_encrypt _ b := b; c_decrypt _ b := b |} y x); by split. Qed.

Lemma be_val_xor_block x y : is_block x -> is_block y -> be_val (zip_with Z.lxor x y) = Z.lxor (be_val x) (be_val y).
Proof. intros [Hx Lx] [Hy Ly]. apply be_val_xor; try done. lia. Qed.

Lemma zero_is_block : is_block zero_block.
Proof. split; [|done]. apply Forall_replicate. unfold byte_ok. lia. Qed.

Lemma multiply_x_loop_ok l : bytes_ok l -> forall carry, 0 <= carry <= 1 ->
  exists res last, multiply_x_loop l carry = (res, last) /\ bytes_ok res /\ length res = length l /\ 0 <= last <= 1
    /\ carry * 256 ^ zlen l + be_val l = 2 * be_val res + last.
Proof.
  induction 1 as [|b l Hb Hl IH]; intros carry Hc; cbn [multiply_x_loop].
  - exists [], carry. split; [done|]. split; [constructor|]. split; [done|]. split; [lia|]. change (be_val []) with 0. cbn [length]. lia.
  - assert (Eb : Z.land b 0x01 = b mod 2) by (apply (land_ones_mod b 1); lia). rewrite Eb. pose proof (Z.mod_pos_bound b 2 ltac:(lia)) as Hm.
    destruct (IH (b mod 2) ltac:(lia)) as (res & last & -> & Hr & Lr & Hlast & E). unfold byte_ok in Hb.
    assert (Eh : u8 (Z.lor (Z.shiftl carry 7) (Z.shiftr b 1)) = carry * 128 + b / 2).
    { rewrite Z.shiftr_div_pow2, lor_shiftl_add by (try lia; change (2 ^ 1) with 2; change (2 ^ 7) with 128; Z.div_mod_to_equations; lia).
      change (2 ^ 1) with 2. change (2 ^ 7) with 128. apply uwrap_small. change (2 ^ 8) with 256. Z.div_mod_to_equations. lia. }
    exists (u8 (Z.lor (Z.shiftl carry 7) (Z.shiftr b 1)) :: res), last. rewrite Eh. split; [done|].
    split; [constructor; [unfold byte_ok; Z.div_mod_to_equations; lia|done]|]. split; [cbn [length]; lia|]. split; [lia|].
    rewrite !be_val_cons, Lr. cbn [length]. rewrite Nat2Z.inj_succ, Z.pow_succ_r by lia. pose proof (Z.div_mod b 2 ltac:(lia)). nia.
Qed.

Lemma gcm_multiply_x_ok m : is_block m -> is_block (gcm_multiply_x m) /\ be_val (gcm_multiply_x m) = times_x (be_val m).
Proof.
  intros [Hm Lm]. unfold gcm_multiply_x. destruct (multiply_x_loop_ok m Hm 0 ltac:(lia)) as (res & last & -> & Hr & Lr & Hlast & E).
  assert (Hres : is_block res) by (split; [done|lia]). rewrite Z.mul_0_l, Z.add_0_l in E. unfold times_x. rewrite E.
  rewrite Z.odd_add, Z.odd_mul, Z.shiftr_div_pow2 by lia. cbn [Z.odd andb xorb]. change (2 ^ 1) with 2.
  assert (Ed : (2 * be_val res + last) / 2 = be_val res) by (Z.div_mod_to_equations; lia). rewrite Ed.
  assert (last = 0 \/ last = 1) as [-> | ->] by lia; [by rewrite Z.lxor_0_r|]. cbn [Z.eqb negb Z.odd].
  destruct res as [|h res]; [destruct Hres; done|]. set (k := GCM_POLY :: replicate 15 0).
  assert (Hk : is_block k) by (split; [apply (bool_decide_unpack _); vm_compute; exact I|done]).
  assert (Ez : zip_with Z.lxor res (replicate 15 0) = res).
  { destruct Hres as [_ Hl]. injection Hl as Hl. rewrite <- Hl. clear. induction res as [|x res IH]; [done|]. cbn. by rewrite Z.lxor_0_r, IH. }
  assert (Ea : alter (fun b => Z.lxor b GCM_POLY) 0%nat (h :: res) = zip_with Z.lxor (h :: res) k).
  { unfold k. cbn [zip_with]. rewrite Ez. done. }
  rewrite Ea. split; [by apply xor_is_block|]. rewrite be_val_xor_block by done. done.
Qed.

(** ** The tables *)

Definition rev8 (i : Z) : Z := gcm_reverse 0 i.

(** Every bit of the uninitialised variable is shifted out. *)
Lemma gcm_reverse_loop_any n byte : (n <= 8)%nat -> forall e e', e mod 2 ^ (8 - Z.of_nat n) = e' mod 2 ^ (8 - Z.of_nat n) ->
  ((n < 8)%nat -> 0 <= e < 256 /\ 0 <= e' < 256) ->
  gcm_reverse_loop (S n) byte (u8 (2 ^ (8 - Z.of_nat n))) e = gcm_reverse_loop (S n) byte (u8 (2 ^ (8 - Z.of_nat n))) e'.
Proof.
  assert (Hlor : forall e, Z.lor (u8 (Z.shiftl e 1)) 1 = u8 (Z.shiftl e 1) + 1 /\ u8 (Z.shiftl e 1) = 2 * e mod 256).
  { intros e. rewrite Z.shiftl_mul_pow2 by lia. change (2 ^ 1) with 2. unfold uwrap. change (2 ^ 8) with 256.
    replace ((e * 2) mod 256) with ((e mod 128) * 2 ^ 1) by (change (2 ^ 1) with 2; Z.div_mod_to_equations; lia).
    rewrite lor_mul_add by lia. split; [done|]. change (2 ^ 1) with 2. Z.div_mod_to_equations. lia. }
  induction n as [|n IH]; intros Hn e e' He Hr.
  { destruct (Hr ltac:(lia)) as [H1 H2]. change (2 ^ (8 - Z.of_nat 0)) with 256 in *. rewrite !Z.mod_small in He by done. by subst e'. }
  cbn [gcm_reverse_loop]. destruct (u8 _ =? 0) eqn:Em.
  { exfalso. revert Em. do 8 (destruct n as [|n]; [by vm_compute|]). lia. }
  assert (Emask : u8 (Z.shiftl (u8 (2 ^ (8 - Z.of_nat (S n)))) 1) = u8 (2 ^ (8 - Z.of_nat n))).
  { do 8 (destruct n as [|n]; [by vm_compute|]). lia. }
  rewrite Emask. destruct (Hlor e) as [L1 M1], (Hlor e') as [L2 M2]. rewrite L1, L2, M1, M2. apply IH; [lia| |].
  - clear -He Hn. destruct (negb _); do 8 (destruct n as [|n];
      [match type of He with _ mod ?p = _ mod ?p => let q := eval vm_compute in p in change p with q in He end;
       match goal with |- _ mod ?p = _ => let q := eval vm_compute in p in change p with q end; Z.div_mod_to_equations; lia|]); lia.
  - intros _. destruct (negb _); Z.div_mod_to_equations; lia.
Qed.

Lemma gcm_reverse_any etyb byte : gcm_reverse etyb byte = rev8 byte.
Proof. apply (gcm_reverse_loop_any 8 byte); [lia|by rewrite !Z.mod_1_r|lia]. Qed.

(** x^128 times a polynomial of eight bits. *)
Definition rtab (t : Z) : list Z := be16 (Z.shiftr (Nat.iter 8 times_x t) 112).

Lemma rtab_val t : 0 <= t < 256 -> Nat.iter 8 times_x t = be_val (rtab t) * 2 ^ 112.
Proof. revert t. refine (range_dec 0 256 _ _). vm_compute. reflexivity. Qed.

Lemma rev8_range i : 0 <= i < 256 -> 0 <= rev8 i < 256.
Proof. revert i. refine (range_dec 0 256 _ _). vm_compute. reflexivity. Qed.

Lemma rev8_rev8 i : 0 <= i < 256 -> rev8 (rev8 i) = i.
Proof. revert i. refine (range_dec 0 256 _ _). vm_compute. reflexivity. Qed.

(** The entries an entry is computed from come before it. *)
Lemma rev8_odd i : 0 <= i < 256 -> Z.land (rev8 i) 0x80 <> 0 ->
  1 <= i /\ Z.land (rev8 i) 0x7f = rev8 (i - 1) /\ rev8 i = 128 + rev8 (i - 1) /\ rev8 (i - 1) < 128
  /\ zip_with Z.lxor (rtab (rev8 (i - 1))) (be16 (Z.shiftl GCM_POLY 8)) = rtab (rev8 i).
Proof. revert i. refine (range_dec 0 256 _ _). vm_compute. reflexivity. Qed.

Lemma rev8_even i : 1 <= i < 256 -> Z.land (rev8 i) 0x80 = 0 ->
  0 <= i / 2 < i /\ Z.shiftl (rev8 i) 1 = rev8 (i / 2) /\ rev8 (i / 2) = 2 * rev8 i /\ rev8 i < 128
  /\ be16 (Z.shiftr (be_val (rtab (rev8 (i / 2)))) 1) = rtab (rev8 i).
Proof. revert i. refine (range_dec 1 255 _ _). vm_compute. reflexivity. Qed.

(** An entry of the table of multiples of the key, at index [t]. *)
Definition multiple (key : list Z) (t : Z) (m : list Z) : Prop := is_block m /\ be_val m = poly_mul 8 t (be_val key).

(** The first [i] entries, in the order in which they are computed. *)
Record entries_ok (key : list Z) (i : Z) (mult reduce : list (list Z)) : Prop := {
  eo_mult : length mult = 256%nat;
  eo_reduce : length reduce = 256%nat;
  eo_entry j : 0 <= j < i -> exists m, mult !! Z.to_nat (rev8 j) = Some m /\ multiple key (rev8 j) m
                                      /\ reduce !! Z.to_nat (rev8 j) = Some (rtab (rev8 j)) }.

Lemma entries_insert key i mult reduce m : 0 <= i < 256 -> multiple key (rev8 i) m -> entries_ok key i mult reduce ->
  entries_ok key (i + 1) (<[Z.to_nat (rev8 i) := m]> mult) (<[Z.to_nat (rev8 i) := rtab (rev8 i)]> reduce).
Proof.
  intros Hi Hm [H1 H2 H3]. pose proof (rev8_range i Hi) as Hr. split; [by rewrite length_insert|by rewrite length_insert|].
  intros j Hj. destruct (Z.eq_dec j i) as [->|Hne].
  - exists m. rewrite !list_lookup_insert_eq by lia. done.
  - assert (Hx : Z.to_nat (rev8 i) <> Z.to_nat (rev8 j)).
    { pose proof (rev8_range j ltac:(lia)). intros E. apply Hne. rewrite <- (rev8_rev8 i Hi), <- (rev8_rev8 j) by lia. f_equal. lia. }
    rewrite !list_lookup_insert_ne by done. apply H3. lia.
Qed.

Lemma multiple_odd key m t : is_block key -> 0 <= t < 128 -> multiple key t m -> multiple key (128 + t) (gcm_xor key m [] 16).
Proof.
  intros Hk Ht [Hm E]. unfold gcm_xor. rewrite drop_nil, app_nil_r, !take_ge by (change (Z.to_nat 16) with 16%nat; destruct Hk, Hm; lia).
  split; [by apply xor_is_block|]. rewrite be_val_xor_block, E by done.
  change (poly_mul 8) with (fun x v => Z.lxor (if Z.testbit x 7 then v else 0) (poly_mul 7 x (times_x v))). cbv beta.
  assert (E7 : Z.testbit (128 + t) 7 = true /\ Z.testbit t 7 = false).
  { rewrite !Z.testbit_odd, !Z.shiftr_div_pow2 by lia. change (2 ^ 7) with 128. replace ((128 + t) / 128) with 1 by (Z.div_mod_to_equations; lia).
    replace (t / 128) with 0 by (Z.div_mod_to_equations; lia). done. }
  destruct E7 as [-> ->]. rewrite Z.lxor_0_l. f_equal. apply poly_mul_ext. intros i Hi.
  change 128 with (1 * 2 ^ 7). rewrite <- lor_mul_add, <- Z.shiftl_mul_pow2, Z.lor_spec, Z.shiftl_spec by lia. by rewrite (Z.testbit_neg_r 1) by lia.
Qed.

Lemma multiple_even key m t : 0 <= t < 128 -> multiple key (2 * t) m -> multiple key t (gcm_multiply_x m).
Proof.
  intros Ht [Hm E]. destruct (gcm_multiply_x_ok m Hm) as [H1 H2]. split; [done|]. rewrite H2, E, poly_mul_double.
  rewrite <- poly_mul_times_x. cbn [poly_mul]. replace (Z.testbit t (Z.of_nat 7)) with false; [by rewrite Z.lxor_0_l|].
  symmetry. apply (testbit_high t 7); lia.
Qed.

Lemma cache_entry_ok key i mult reduce : is_block key -> 1 <= i < 256 -> entries_ok key i mult reduce ->
  exists mult' reduce', cache_entry key i mult reduce = Some (mult', reduce') /\ entries_ok key (i + 1) mult' reduce'.
Proof.
  intros Hk Hi He. unfold cache_entry. fold (rev8 i). pose proof (rev8_range i ltac:(lia)) as Hr. destruct (Z.eqb_spec (Z.land (rev8 i) 0x80) 0) as [E|E]; cbn [negb].
  - destruct (rev8_even i Hi E) as (Hj & Ej & E2 & Hs & Er). destruct (eo_entry _ _ _ _ He (i / 2) Hj) as (m & Em & Hm & Ered).
    rewrite Ej, Em, Ered, Er. eexists _, _. split; [done|]. apply entries_insert; [lia| |done]. rewrite E2 in Hm. apply multiple_even; [lia|done].
  - destruct (rev8_odd i ltac:(lia) E) as (Hj & Ej & E2 & Hs & Er). destruct (eo_entry _ _ _ _ He (i - 1) ltac:(lia)) as (m & Em & Hm & Ered).
    rewrite Ej, Em, Ered, Er. eexists _, _. split; [done|]. apply entries_insert; [lia| |done]. rewrite E2. apply multiple_odd; [done| |done].
    pose proof (rev8_range (i - 1)). lia.
Qed.

Lemma cache_loop_ok key n : is_block key -> forall i mult reduce, 1 <= i -> i + Z.of_nat n = 256 -> entries_ok key i mult reduce ->
  exists mult' reduce', cache_loop n key i mult reduce = Some (mult', reduce') /\ entries_ok key 256 mult' reduce'.
Proof.
  intros Hk. induction n as [|n IH]; intros i mult reduce Hi Hn He; cbn [cache_loop].
  - exists mult, reduce. split; [done|]. by replace 256 with i by lia.
  - destruct (cache_entry_ok key i mult reduce Hk ltac:(lia) He) as (mult' & reduce' & -> & He'). apply IH; [lia|lia|done].
Qed.

(** What holds of the tables at any time, and when they are for a key. *)
Record tables_shape (t : gcm_tables) : Prop := {
  ts_mult : length (gcm_cached_mult t) = 256%nat;
  ts_reduce : length (gcm_cached_reduce t) = 256%nat;
  ts_mult0 : gcm_cached_mult t !! 0%nat = Some zero_block;
  ts_reduce0 : gcm_cached_reduce t !! 0%nat = Some [0; 0] }.

Definition tables_for (t : gcm_tables) (key : list Z) : Prop :=
  forall b, 0 <= b < 256 -> (exists m, gcm_cached_mult t !! Z.to_nat b = Some m /\ multiple key b m) /\ gcm_cached_reduce t !! Z.to_nat b = Some (rtab b).

Lemma be_val_zero n : be_val (replicate n 0) = 0.
Proof. induction n as [|n IH]; [done|]. cbn [replicate]. by rewrite be_val_cons, IH. Qed.

Lemma be_bytes_length n v : length (be_bytes n v) = n.
Proof. unfold be_bytes. by rewrite length_rev, le_bytes_length. Qed.

Lemma be_val_inj x y : bytes_ok x -> bytes_ok y -> length x = length y -> be_val x = be_val y -> x = y.
Proof.
  intros Hx. revert y. induction Hx as [|a x Ha Hx IH]; intros y Hy L E; destruct Hy as [|b y Hb Hy]; try done. injection L as L.
  rewrite !be_val_cons, L in E. pose proof (be_val_range x Hx) as R1. pose proof (be_val_range y Hy) as R2. rewrite L in R1.
  assert (a = b) as -> by nia. f_equal. apply IH; [done|done|lia].
Qed.

Lemma poly_mul_zero n v : poly_mul n 0 v = 0.
Proof. revert v. induction n as [|n IH]; intros v; cbn [poly_mul]; [done|]. by rewrite Z.bits_0, IH. Qed.

Lemma gcm_cache_ok t addr key : tables_shape t -> is_block key ->
  exists t', gcm_cache t addr key = Some t' /\ tables_shape t' /\ gcm_cached_key t' = Some addr /\ tables_for t' key.
Proof.
  intros [H1 H2 H3 H4] Hk. unfold gcm_cache.
  assert (He : entries_ok key 1 (gcm_cached_mult t) (gcm_cached_reduce t)).
  { split; [done|done|]. intros j Hj. replace j with 0 by lia. change (rev8 0) with 0. exists zero_block. split; [done|].
    split; [split; [apply zero_is_block|by rewrite poly_mul_zero]|done]. }
  destruct (cache_loop_ok key 255 Hk 1 _ _ ltac:(lia) ltac:(lia) He) as (mult & reduce & -> & [L1 L2 Hent]).
  eexists. split; [done|].
  assert (Hfor : tables_for (GcmTables (Some addr) mult reduce) key).
  { intros b Hb. pose proof (rev8_range b Hb). destruct (Hent (rev8 b) ltac:(lia)) as (m & E1 & E2 & E3). rewrite rev8_rev8 in * by done.
    split; [by exists m|done]. }
  split; [|done]. destruct (Hfor 0 ltac:(lia)) as ((m & E1 & [[Hb Hl] Hv]) & E2). split; try done.
  cbn [gcm_cached_mult] in *. change (Z.to_nat 0) with 0%nat in E1. rewrite E1. f_equal. rewrite poly_mul_zero in Hv.
  apply be_val_inj; [done|apply zero_is_block|by rewrite Hl|done].
Qed.

(** ** Shoup's method *)

Lemma iter_times_x_lxor n v w : Nat.iter n times_x (Z.lxor v w) = Z.lxor (Nat.iter n times_x v) (Nat.iter n times_x w).
Proof. induction n as [|n IH]; [done|]. by rewrite !Nat.iter_succ, IH, times_x_lxor. Qed.

(** Multiplication by x^8: a shift by a byte and a reduction. *)
Lemma times_x_8 u m : 0 <= u -> 0 <= m < 256 -> Nat.iter 8 times_x (u * 256 + m) = Z.lxor u (Nat.iter 8 times_x m).
Proof.
  intros Hu Hm. assert (E : u * 256 + m = Z.lxor (256 * u) m).
  { change 256 with (2 ^ 8). rewrite (Z.mul_comm (2 ^ 8)). rewrite <- (lor_mul_add u m 8) by lia. symmetry. apply Z.lxor_lor.
    apply Z.bits_inj'. intros i Hi. rewrite Z.land_spec, Z.bits_0, <- Z.shiftl_mul_pow2, Z.shiftl_spec by lia.
    destruct (Z.ltb_spec i 8); [by rewrite Z.testbit_neg_r by lia|]. rewrite (testbit_high m 8 i) by lia. apply andb_false_r. }
  rewrite E, iter_times_x_lxor. f_equal. replace (256 * u) with (2 * (2 * (2 * (2 * (2 * (2 * (2 * (2 * u)))))))) by lia.
  rewrite !Nat.iter_succ. cbn [Nat.iter nat_rect]. by rewrite !times_x_double.
Qed.

Lemma rtab_bytes t : bytes_ok (rtab t).
Proof. apply be16_bytes. Qed.

Lemma xor_word (w p : list Z) : length w = 2%nat -> length p = 16%nat ->
  zip_with Z.lxor (take 2 p) w ++ drop 2 p = zip_with Z.lxor p (w ++ replicate 14 0).
Proof.
  intros Hw Hp. rewrite <- (take_drop 2 p) at 3. rewrite zip_with_app by (rewrite length_take; lia). f_equal.
  assert (L : length (drop 2 p) = 14%nat) by (rewrite length_drop; lia). rewrite <- L. clear. induction (drop 2 p) as [|x l IH]; [done|].
  cbn. by rewrite Z.lxor_0_r, <- IH.
Qed.

Lemma gcm_multiply_x_8_ok t key p : tables_for t key -> is_block p ->
  exists p', gcm_multiply_x_8 t p = Some p' /\ is_block p' /\ be_val p' = Nat.iter 8 times_x (be_val p).
Proof.
  intros Ht [Hb Hl]. unfold gcm_multiply_x_8. destruct p as [|msb q _] using rev_ind; [done|]. rewrite length_app in Hl. cbn [length] in Hl.
  apply Forall_app in Hb as [Hq Hm]. apply Forall_cons in Hm as [Hm _]. rewrite lookup_app_r, take_app_le by lia. replace (15 - length q)%nat with 0%nat by lia.
  cbn [lookup list_lookup]. destruct (Ht msb Hm) as [_ ->]. rewrite (take_ge q) by lia.
  assert (Hp0 : is_block (0 :: q)) by (split; [constructor; [unfold byte_ok; lia|done]|cbn [length]; lia]).
  assert (Hw : is_block (rtab msb ++ replicate 14 0)).
  { split; [apply Forall_app_2; [apply rtab_bytes|apply Forall_replicate; unfold byte_ok; lia]|done]. }
  eexists. split; [done|]. rewrite xor_word by (done || apply Hp0). split; [by apply xor_is_block|]. rewrite be_val_xor_block by done.
  pose proof (be_val_range q Hq). rewrite (be_val_app q), be_val_cons, be_val_app, be_val_zero. change (be_val [msb]) with msb.
  change (256 ^ zlen [msb]) with 256. change (256 ^ zlen (replicate 14 0)) with (2 ^ 112). rewrite times_x_8, rtab_val by (done || lia).
  f_equal; lia.
Qed.

(** The product of what has been processed, extended by the bytes before it. *)
Lemma multiply_loop_ok t key rbytes : tables_for t key -> bytes_ok rbytes -> forall done res, bytes_ok done -> is_block res ->
  be_val res = poly_mul (8 * length done) (be_val done) (be_val key) ->
  exists res', multiply_loop t rbytes res = Some res' /\ is_block res'
    /\ be_val res' = poly_mul (8 * length (rev rbytes ++ done)) (be_val (rev rbytes ++ done)) (be_val key).
Proof.
  intros Ht. induction 1 as [|b rbytes Hb Hbs IH]; intros done0 res Hd Hres E; cbn [multiply_loop rev app]; [by exists res|].
  destruct (gcm_multiply_x_8_ok t key res Ht Hres) as (p & -> & Hp & Ep). destruct (Ht b Hb) as [(m & -> & Hm & Em) _].
  rewrite <- app_assoc. cbn [app]. apply IH; [by constructor|by apply xor_is_block|]. unfold gcm_xor_block.
  rewrite be_val_xor_block, Ep, Em, E by done. cbn [length]. rewrite poly_mul_bytes by (by constructor). apply Z.lxor_comm.
Qed.

Lemma block_mul_unique x y z : is_block z -> be_val z = mul_loop 128 (be_val x) 0 (be_val y) -> z = block_mul x y.
Proof.
  intros [Hz Lz] E. unfold block_mul. rewrite <- E. clear E x y. rewrite <- Lz. clear Lz. unfold be_bytes.
  induction z as [|b z IH] using rev_ind; [done|]. apply Forall_app in Hz as [Hz Hb]. apply Forall_cons in Hb as [Hb _]. unfold byte_ok in Hb.
  rewrite be_val_app, length_app. change (be_val [b]) with b. change (256 ^ zlen [b]) with 256. cbn [length]. rewrite Nat.add_1_r. cbn [le_bytes rev].
  replace ((be_val z * 256 + b) mod 256) with b by (Z.div_mod_to_equations; lia).
  replace ((be_val z * 256 + b) / 256) with (be_val z) by (Z.div_mod_to_equations; lia). by rewrite <- IH.
Qed.

(** The tables are for the key of a context at [addr], unless they are for
    another one. *)
Definition cache_ok (t : gcm_tables) (addr : Z) (key : list Z) : Prop := gcm_cached_key t = Some addr -> tables_for t key.

(** What the operations of a context do to the tables: nothing, or they are for
    its key afterwards. *)
Definition tables_after (t t' : gcm_tables) (addr : Z) (key : list Z) : Prop :=
  tables_shape t' /\ cache_ok t' addr key /\ (gcm_cached_key t' = Some addr \/ t' = t).

Lemma tables_after_refl t addr key : tables_shape t -> cache_ok t addr key -> tables_after t t addr key.
Proof. intros H1 H2. split_and!; [done|done|by right]. Qed.

Lemma tables_after_trans t t' t'' addr key : tables_after t t' addr key -> tables_after t' t'' addr key -> tables_after t t'' addr key.
Proof. intros (_ & _ & H) (H1 & H2 & H3). split_and!; [done|done|]. destruct H3 as [H3| ->]; [by left|done]. Qed.

Lemma multiply_key_ok t addr key poly : tables_shape t -> cache_ok t addr key -> is_block key -> is_block poly ->
  exists t', gcm_multiply_key t addr key poly = Some (t', block_mul poly key) /\ tables_after t t' addr key.
Proof.
  intros Hs Hc Hk [Hb Hl]. unfold gcm_multiply_key.
  assert (Ht : exists t', (if bool_decide (gcm_cached_key t = Some addr) then Some t else gcm_cache t addr key) = Some t'
    /\ tables_after t t' addr key /\ tables_for t' key).
  { destruct (bool_decide_reflect (gcm_cached_key t = Some addr)) as [E|E].
    - exists t. split; [done|]. split; [by apply tables_after_refl|by apply Hc].
    - destruct (gcm_cache_ok t addr key Hs Hk) as (t' & E' & H1 & H2 & H3). exists t'. split; [done|]. split; [|done]. split_and!; [done|by intros _|by left]. }
  destruct Ht as (t' & -> & Ha & Hfor).
  assert (Hrb : bytes_ok (rev poly)) by (by apply List.Forall_rev). rewrite <- length_rev in Hl.
  destruct (rev poly) as [|b rbytes] eqn:Er; [done|]. clear Hb. apply Forall_cons in Hrb as [Hb Hrb].
  destruct (Hfor b Hb) as [(m & -> & Hm & Em) _].
  destruct (multiply_loop_ok t' key rbytes Hfor Hrb [b] m) as (res & -> & Hres & E); [by constructor|done|by rewrite Em; f_equal; unfold be_val; cbn; lia|].
  exists t'. split; [|done]. do 2 f_equal. apply block_mul_unique; [done|]. rewrite mul_loop_poly, Z.lxor_0_l, E.
  replace poly with (rev rbytes ++ [b]); [|by rewrite <- (rev_involutive poly), Er]. rewrite length_app, length_rev. cbn [length] in *.
  by replace (8 * (length rbytes + 1))%nat with 128%nat by lia.
Qed.

(** ** The tables of several keys *)

(** Multiplications by keys at different addresses, one after the other. *)
Fixpoint multiplications (keys : Z -> list Z) (t : gcm_tables) (reqs : list (Z * list Z)) : option (list (list Z)) :=
  match reqs with
  | [] => Some []
  | (addr, poly) :: reqs' =>
      opt! (t, r) := gcm_multiply_key t addr (keys addr) poly in
      opt! rs := multiplications keys t reqs' in Some (r :: rs)
  end.

Lemma multiplications_ok keys reqs : (forall addr, is_block (keys addr)) -> Forall (fun r => is_block r.2) reqs ->
  forall t, tables_shape t -> (forall addr, cache_ok t addr (keys addr)) ->
  multiplications keys t reqs = Some (map (fun r => block_mul r.2 (keys r.1)) reqs).
Proof.
  intros Hk. induction 1 as [|[addr poly] reqs Hp Hr IH]; intros t Ht Hc; [done|]. cbn [multiplications map fst snd].
  destruct (multiply_key_ok t addr (keys addr) poly Ht (Hc addr) (Hk addr) Hp) as (t' & -> & T1 & T2 & T3). rewrite IH; [done|done|].
  intros addr' Hk'. destruct T3 as [T3| ->]; [|by apply Hc]. assert (addr' = addr) as -> by congruence. by apply T2.
Qed.

(** Shoup's method with the tables that are shared by all keys computes the
    product of SP 800-38D in GF(2^128), whatever keys were used before, as long
    as the key at an address does not change without new tables. *)
Theorem gcm_multiply_correct keys reqs : (forall addr, is_block (keys addr)) -> Forall (fun r => is_block r.2) reqs ->
  multiplications keys no_tables reqs = Some (map (fun r => block_mul r.2 (keys r.1)) reqs).
Proof. intros Hk Hr. apply multiplications_ok; [done|done|by split|]. intros addr Ha. done. Qed.

Definition demo_keys (addr : Z) : list Z := if addr =? 0 then be_bytes 16 0x66e94bd4ef8a2c3b884cfa59ca342b2e else be_bytes 16 (2 ^ 128 - 1).

Lemma gcm_multiply_correct_witness :
  multiplications demo_keys no_tables [(0, be_bytes 16 0x0388dace60b6a392f328c2b971b2fe78); (7, be_bytes 16 1); (0, be_bytes 16 (2 ^ 127))]
  = Some [be_bytes 16 0x5e2ec746917062882c85b0685353deb7; block_mul (be_bytes 16 1) (demo_keys 7); demo_keys 0].
Proof.
  refine (eq_trans (gcm_multiply_correct demo_keys [(0, be_bytes 16 0x0388dace60b6a392f328c2b971b2fe78); (7, be_bytes 16 1); (0, be_bytes 16 (2 ^ 127))] _ _) _).
  - intros addr. unfold demo_keys. destruct (addr =? 0); (split; [apply (bool_decide_unpack _); vm_compute; exact I|reflexivity]).
  - repeat constructor; apply (bool_decide_unpack _); vm_compute; exact I.
  - vm_compute. reflexivity.
Defined.
