(* ===== verification/GcmStream.v ===== *)
(** * GCM: processing a string block by block

    The loop of [gcm_process] as operations on whole strings: the hash
    accumulates the padded string, the counter advances once per block, and the
    output is the string under the key stream. *)
From S2P Require Import Prelude Strings Memory Digest Cipher Gcm GcmSpec GcmField.

(** ** Blocks of a string *)

Lemma groups_fuel n l : forall f f', (0 < n)%nat -> (length l <= f)%nat -> (length l <= f')%nat -> groups f n l = groups f' n l.
Proof.
  induction l as [l IH] using (well_founded_induction (well_founded_ltof _ (@length Z))). intros f f' Hn H1 H2. destruct l as [|x l]; [by destruct f, f'|].
  destruct f as [|f], f' as [|f']; cbn [length] in *; try lia. cbn [groups]. f_equal. apply IH; [unfold ltof|done| |];
    rewrite length_drop; cbn [length]; lia.
Qed.

Lemma blocks_step s : s <> [] -> blocks s = take 16 s :: blocks (drop 16 s).
Proof.
  intros Hs. unfold blocks. destruct s as [|x s]; [done|]. cbn [length groups]. f_equal. apply groups_fuel; [lia| |lia].
  rewrite length_drop. cbn [length]. lia.
Qed.

(** Induction on the blocks of a string. *)
Lemma blocks_ind (P : list Z -> Prop) : P [] -> (forall s, s <> [] -> P (drop 16 s) -> P s) -> forall s, P s.
Proof.
  intros H0 H1 s. induction s as [s IH] using (well_founded_induction (well_founded_ltof _ (@length Z))). destruct s as [|x s]; [done|]. apply H1; [done|].
  apply IH. unfold ltof. rewrite length_drop. cbn [length]. lia.
Qed.

Definition whole (s : list Z) : Prop := (length s mod 16 = 0)%nat.

#[export] Instance whole_dec s : Decision (whole s).
Proof. unfold whole. apply _. Defined.

Lemma whole_ge s : whole s -> s <> [] -> (16 <= length s)%nat.
Proof. unfold whole. intros H Hn. destruct s; [done|]. cbn [length] in *. destruct (Nat.le_gt_cases 16 (S (length s))); [done|]. rewrite Nat.mod_small in H; lia. Qed.

Lemma whole_drop s : whole s -> whole (drop 16 s).
Proof.
  unfold whole. intros H. rewrite length_drop. destruct (Nat.le_gt_cases 16 (length s)) as [Hl|Hl].
  - apply Nat.mod_divides in H as [q Hq]; [|lia]. replace (length s - 16)%nat with ((q - 1) * 16)%nat by lia. apply Nat.mod_mul. lia.
  - by replace (length s - 16)%nat with 0%nat by lia.
Qed.

Lemma whole_app s u : whole s -> whole u -> whole (s ++ u).
Proof. unfold whole. intros H1 H2. rewrite length_app, Nat.Div0.add_mod, H1, H2. done. Qed.

Lemma blocks_app s u : whole s -> blocks (s ++ u) = blocks s ++ blocks u.
Proof.
  revert s. apply (blocks_ind (fun s => whole s -> blocks (s ++ u) = blocks s ++ blocks u)); [done|]. intros s Hs IH Hw.
  pose proof (whole_ge s Hw Hs). rewrite blocks_step by (by destruct s). rewrite (blocks_step s Hs). cbn [app]. rewrite take_app_le, drop_app_le by lia.
  f_equal. apply IH. by apply whole_drop.
Qed.

(** ** Padding *)

Lemma pad_whole s : whole (pad s).
Proof.
  unfold whole, pad. rewrite length_app, length_replicate. pose proof (Nat.mod_upper_bound (length s) 16 ltac:(lia)).
  rewrite Nat.Div0.add_mod_idemp_r, Nat.Div0.add_mod. pose proof (Nat.div_mod (length s) 16 ltac:(lia)).
  destruct (Nat.eq_dec (length s mod 16) 0)%nat as [E|E]; [by rewrite E|]. rewrite (Nat.mod_small (16 - length s mod 16)%nat) by lia.
  by replace (length s mod 16 + (16 - length s mod 16))%nat with 16%nat by lia.
Qed.

Lemma pad_app s u : whole s -> pad (s ++ u) = s ++ pad u.
Proof. unfold whole, pad. intros H. rewrite <- app_assoc. do 3 f_equal. rewrite length_app, Nat.Div0.add_mod, H, Nat.add_0_l, Nat.Div0.mod_mod. done. Qed.

Lemma pad_id s : whole s -> pad s = s.
Proof. unfold whole, pad. intros ->. apply app_nil_r. Qed.

(** A block of at most 16 bytes with zeros behind it. *)
Definition pad_block (d : list Z) : list Z := d ++ replicate (16 - length d) 0.

Lemma blocks_pad s : blocks (pad s) = pad_block <$> blocks s.
Proof.
  revert s. apply (blocks_ind (fun s => blocks (pad s) = pad_block <$> blocks s)); [done|]. intros s Hs IH. rewrite (blocks_step s Hs).
  destruct (Nat.le_gt_cases 16 (length s)) as [Hl|Hl].
  - assert (Hw : whole (take 16 s)) by (unfold whole; rewrite length_take, Nat.min_l by lia; done).
    assert (E : pad s = take 16 s ++ pad (drop 16 s)) by (rewrite <- pad_app, take_drop by done; done).
    rewrite E, blocks_app by done. cbn [fmap list_fmap]. rewrite IH.
    rewrite (blocks_step (take 16 s)) by (by destruct s). rewrite take_take, (drop_ge (take 16 s)) by (rewrite length_take; lia). cbn [app Nat.min].
    unfold pad_block at 2. rewrite length_take, Nat.min_l by lia. cbn [Nat.sub replicate]. by rewrite app_nil_r.
  - rewrite (take_ge s), (drop_ge s) by lia. cbn [fmap list_fmap]. unfold pad, pad_block. destruct s as [|x s]; [done|]. set (l := x :: s) in *.
    assert (0 < length l)%nat by (cbn; lia). rewrite (Nat.mod_small (length l)), (Nat.mod_small (16 - length l)%nat) by lia.
    rewrite blocks_step by done. rewrite take_ge, drop_ge by (rewrite length_app, length_replicate; lia). done.
Qed.

(** ** Hashing *)

Definition ghash_from (H h : list Z) (s : list Z) : list Z := fold_left (fun y x => block_mul (xor y (pad_block x)) H) (blocks s) h.

Lemma ghash_from_nil H h : ghash_from H h [] = h.
Proof. done. Qed.

Lemma ghash_from_step H h s : s <> [] -> ghash_from H h s = ghash_from H (block_mul (xor h (pad_block (take 16 s))) H) (drop 16 s).
Proof. intros Hs. unfold ghash_from. by rewrite blocks_step. Qed.

Lemma ghash_from_app H h s u : whole s -> ghash_from H h (s ++ u) = ghash_from H (ghash_from H h s) u.
Proof. intros Hs. unfold ghash_from. by rewrite blocks_app, fold_left_app. Qed.

Lemma fold_left_fmap {A B C} (f : A -> B -> A) (g : C -> B) l : forall z, fold_left f (g <$> l) z = fold_left (fun y x => f y (g x)) l z.
Proof. induction l as [|x l IH]; intros z; [done|]. apply IH. Qed.

Lemma ghash_pads H ss : GHASH H (concat (pad <$> ss)) = fold_left (ghash_from H) ss zero_block.
Proof.
  unfold GHASH. change (replicate 16 0) with zero_block. generalize zero_block as h. induction ss as [|s ss IH]; intros h; [done|].
  cbn [fmap list_fmap concat fold_left]. rewrite blocks_app, fold_left_app by apply pad_whole. rewrite blocks_pad, fold_left_fmap. apply IH.
Qed.

(** ** Exclusive or *)

Lemma sxor_comm x y : xor x y = xor y x.
Proof. unfold xor. revert y. induction x as [|a x IH]; intros [|b y]; try done. cbn. by rewrite Z.lxor_comm, IH. Qed.

Lemma sxor_assoc x y z : xor (xor x y) z = xor x (xor y z).
Proof. unfold xor. revert y z. induction x as [|a x IH]; intros [|b y] [|d z]; try done. cbn. by rewrite Z.lxor_assoc, IH. Qed.

Lemma sxor_length x y : length (xor x y) = Nat.min (length x) (length y).
Proof. apply length_zip_with. Qed.

Lemma xor_zeros x n : (length x <= n)%nat -> xor x (replicate n 0) = x.
Proof.
  unfold xor. revert n. induction x as [|a x IH]; intros n Hn; [done|]. destruct n as [|n]; cbn [length] in Hn; [lia|]. cbn.
  by rewrite Z.lxor_0_r, IH by lia.
Qed.

Lemma xor_self x : xor x x = replicate (length x) 0.
Proof. unfold xor. induction x as [|a x IH]; [done|]. cbn. by rewrite Z.lxor_nilpotent, IH. Qed.

Lemma sxor_bytes x y : bytes_ok x -> bytes_ok y -> bytes_ok (xor x y).
Proof.
  intros Hx. revert y. induction Hx as [|a x Ha Hx IH]; intros y Hy; [constructor|]. destruct Hy as [|b y Hb Hy]; [constructor|].
  constructor; [by apply lxor_byte|by apply IH].
Qed.

Lemma pad_block_length d : (length d <= 16)%nat -> length (pad_block d) = 16%nat.
Proof. intros H. unfold pad_block. rewrite length_app, length_replicate. lia. Qed.

Lemma pad_block_ok d : bytes_ok d -> (length d <= 16)%nat -> is_block (pad_block d).
Proof. intros H1 H2. split; [apply Forall_app_2; [done|]; apply Forall_replicate; unfold byte_ok; lia|by apply pad_block_length]. Qed.

Lemma pad_block_xor x y : length x = length y -> pad_block (xor x y) = xor (pad_block x) (pad_block y).
Proof.
  intros H. unfold pad_block, xor. rewrite zip_with_app, length_zip_with, H, Nat.min_id by done. f_equal.
  symmetry. rewrite zip_with_replicate by (by rewrite length_replicate). induction (16 - length y)%nat as [|n IH]; [done|]. cbn. by rewrite <- IH.
Qed.

(** The first bytes of a block. *)
Lemma gcm_xor_pad d h n : (n <= length d)%nat -> (n <= 16)%nat -> length h = 16%nat -> gcm_xor d h h (Z.of_nat n) = xor h (pad_block (take n d)).
Proof.
  intros Hd Hn Hh. unfold gcm_xor, pad_block. rewrite Nat2Z.id, length_take, (Nat.min_l n) by lia. rewrite (sxor_comm h). unfold xor.
  rewrite <- (take_drop n h) at 3. rewrite zip_with_app by (rewrite !length_take; lia). f_equal.
  fold (xor (replicate (16 - n) 0) (drop n h)). rewrite sxor_comm, xor_zeros; [done|]. rewrite length_drop. lia.
Qed.

Lemma xor_blocks x y : is_block x -> is_block y -> is_block (xor x y).
Proof. apply xor_is_block. Qed.

(** From a buffer to a buffer that does not begin inside what is still to be
    read. *)
Lemma mem_write_nil mem off : 0 <= off <= zlen mem -> mem_write mem off [] = Some mem.
Proof.
  intros H. unfold mem_write. cbn [length]. rewrite !(proj2 (Z.leb_le _ _)) by lia. cbn [andb app]. by rewrite Nat.add_0_r, take_drop.
Qed.

Lemma gcm_xor_mem_ok n : forall mem src tmp dst data, mem_read mem src (Z.of_nat n) = Some data -> (n <= length tmp)%nat ->
  0 <= dst -> dst + Z.of_nat n <= zlen mem -> dst <= src \/ src + Z.of_nat n <= dst ->
  exists mem', gcm_xor_mem mem src tmp dst n = Some mem' /\ mem_write mem dst (xor data (take n tmp)) = Some mem'.
Proof.
  induction n as [|n IH]; intros mem src tmp dst data Hr Ht Hd Hf Ho; cbn [gcm_xor_mem].
  { exists mem. split; [done|]. rewrite take_0, sxor_comm. apply mem_write_nil. lia. }
  pose proof (mem_read_Some _ _ _ _ Hr) as (R1 & _ & R3 & R4 & _). replace (Z.of_nat (S n)) with (1 + Z.of_nat n) in Hr by lia.
  destruct (mem_read_split _ _ 1 (Z.of_nat n) _ ltac:(lia) ltac:(lia) Hr) as [Hx Hrest]. destruct data as [|x data]; [cbn in R4; lia|].
  destruct tmp as [|y tmp]; [cbn in Ht; lia|]. change (Z.to_nat 1) with 1%nat in *. cbn [take drop] in Hx, Hrest.
  assert (Eb : mem_byte mem src = Some x).
  { apply mem_read_Some in Hx as (_ & _ & _ & _ & E). unfold mem_byte. rewrite (proj2 (Z.leb_le _ _) R1).
    rewrite <- (Nat.add_0_r (Z.to_nat src)), <- lookup_drop. destruct (drop (Z.to_nat src) mem); [done|]. by injection E as ->. }
  rewrite Eb. cbn [lookup list_lookup drop]. destruct (mem_write_split mem dst [Z.lxor x y] Hd) as (m1 & E1 & L1 & _); [cbn [length]; lia|].
  rewrite E1. rewrite drop_0 in Hrest. rewrite drop_0.
  destruct (IH m1 (src + 1) tmp (dst + 1) data) as (m' & E2 & E3).
  - eapply mem_write_read; [exact E1| |exact Hrest]. cbn [length]. lia.
  - cbn in Ht. lia.
  - lia.
  - lia.
  - lia.
  - exists m'. split; [done|]. rewrite <- E3. cbn [take]. change (xor (x :: data) (y :: take n tmp)) with ([Z.lxor x y] ++ xor data (take n tmp)).
    by rewrite <- (mem_write_app mem dst [Z.lxor x y] (xor data (take n tmp)) m1 E1).
Qed.

(** ** Counters *)

Lemma be32_wrap z : be32 (u32 z) = be32 z.
Proof.
  unfold be32, uwrap. change (2 ^ 32) with (16777216 * 256). f_equal; [|f_equal; [|f_equal; [|f_equal]]]; Z.div_mod_to_equations; lia.
Qed.

Lemma gcm_count_inc ctr : gcm_count ctr 1 = inc32 ctr.
Proof. unfold gcm_count, inc32. by rewrite be32_wrap. Qed.

(** Adding up counts. *)
Lemma gcm_count_add ctr m n : length ctr = 16%nat -> gcm_count (gcm_count ctr m) n = gcm_count ctr (m + n).
Proof.
  intros Hl. unfold gcm_count. rewrite take_app_le, take_take, drop_app_ge by (rewrite length_take; lia). rewrite length_take.
  replace (12 - Nat.min 12 (length ctr))%nat with 0%nat by lia. rewrite drop_0, be32_val. rewrite !be32_wrap. f_equal.
  rewrite <- (be32_wrap (_ + n)), <- (be32_wrap (_ + (m + n))). f_equal. unfold uwrap. rewrite Zmod_mod, Zplus_mod_idemp_l. f_equal. lia.
Qed.

Lemma gcm_count_block ctr n : is_block ctr -> is_block (gcm_count ctr n).
Proof.
  intros [Hb Hl]. split; [apply Forall_app_2; [by apply Forall_take|apply be32_bytes]|]. unfold gcm_count. rewrite length_app, length_take. cbn [length be32]. lia.
Qed.

Lemma gcm_count_mod ctr m n : m mod 2 ^ 32 = n mod 2 ^ 32 -> gcm_count ctr m = gcm_count ctr n.
Proof. intros E. unfold gcm_count, uwrap. by rewrite <- (Zplus_mod_idemp_r m), E, Zplus_mod_idemp_r. Qed.

Lemma be_val_be32 l : bytes_ok l -> length l = 4%nat -> be32 (be_val l) = l.
Proof. intros Hb Hl. apply be_val_inj; [apply be32_bytes|done|done|]. rewrite be32_val. apply Z.mod_small. pose proof (be_val_range l Hb) as H. by rewrite Hl in H. Qed.

Lemma gcm_count_0 ctr : is_block ctr -> gcm_count ctr 0 = ctr.
Proof.
  intros [Hb Hl]. unfold gcm_count. rewrite Z.add_0_r, be32_wrap, be_val_be32; [apply take_drop|by apply Forall_drop|]. rewrite length_drop. lia.
Qed.

(** ** The key stream *)

Lemma gctr_length E : (forall cb, is_block cb -> is_block (E cb)) -> forall s cb, is_block cb -> length (gctr_blocks E cb (blocks s)) = length s.
Proof.
  intros HE. refine (blocks_ind _ _ _); [done|]. intros s Hs IH cb Hcb. rewrite blocks_step by done. cbn [gctr_blocks].
  rewrite length_app, <- gcm_count_inc, IH, length_drop by (by apply gcm_count_block). destruct (HE cb Hcb) as [_ L].
  unfold xor. rewrite length_zip_with, !length_take, L. lia.
Qed.

(** The number of blocks. *)
Definition nblocks (s : list Z) : Z := zlen (blocks s).

Lemma nblocks_step s : s <> [] -> nblocks s = 1 + nblocks (drop 16 s).
Proof. intros Hs. unfold nblocks. rewrite blocks_step by done. cbn [length]. lia. Qed.

Lemma nblocks_div s : nblocks s = (zlen s + 15) / 16.
Proof.
  revert s. refine (blocks_ind _ _ _); [done|]. intros s Hs IH. rewrite nblocks_step, IH, length_drop by done. destruct s as [|b s]; [done|].
  set (l := b :: s). assert (0 < length l)%nat by (cbn; lia). destruct (Nat.le_gt_cases 16 (length l)).
  - rewrite Nat2Z.inj_sub by lia. Z.div_mod_to_equations. lia.
  - replace (length l - 16)%nat with 0%nat by lia. Z.div_mod_to_equations. lia.
Qed.

Lemma nblocks_app s u : whole s -> nblocks (s ++ u) = nblocks s + nblocks u.
Proof. intros Hs. unfold nblocks. rewrite blocks_app, length_app by done. lia. Qed.

Lemma gctr_app E s u : forall cb, is_block cb -> whole s ->
  gctr_blocks E cb (blocks (s ++ u)) = gctr_blocks E cb (blocks s) ++ gctr_blocks E (gcm_count cb (nblocks s)) (blocks u).
Proof.
  revert s. refine (blocks_ind _ _ _).
  - intros cb Hc _. change (nblocks []) with 0. by rewrite gcm_count_0.
  - intros s Hs IH cb Hc Hw. pose proof (whole_ge s Hw Hs). rewrite nblocks_step by done. rewrite blocks_step by (by destruct s). rewrite (blocks_step s Hs).
    cbn [gctr_blocks]. rewrite take_app_le, drop_app_le by lia. rewrite <- app_assoc. f_equal. rewrite <- gcm_count_inc.
    rewrite IH; [|by apply gcm_count_block|by apply whole_drop]. by rewrite gcm_count_add by apply Hc.
Qed.

Lemma block_mul_block x y : is_block (block_mul x y).
Proof.
  unfold block_mul. split; [|apply be_bytes_length]. apply List.Forall_rev. generalize 16%nat, (mul_loop 128 (be_val x) 0 (be_val y)).
  intros n. induction n as [|n IH]; intros v; cbn [le_bytes]; constructor; [apply Z.mod_pos_bound; lia|apply IH].
Qed.

Lemma gctr_step E cb s : is_block (E cb) -> s <> [] ->
  let o := xor (take 16 s) (take (length (take 16 s)) (E cb)) in
  gctr_blocks E cb (blocks s) = o ++ gctr_blocks E (inc32 cb) (blocks (drop 16 s)) /\ length o = length (take 16 s)
  /\ take 16 (gctr_blocks E cb (blocks s)) = o /\ drop 16 (gctr_blocks E cb (blocks s)) = gctr_blocks E (inc32 cb) (blocks (drop 16 s)).
Proof.
  intros [_ HE] Hs o. assert (Ho : length o = length (take 16 s)) by (unfold o; rewrite sxor_length, !length_take; lia).
  rewrite blocks_step by done. cbn [gctr_blocks]. fold o. split; [done|]. split; [done|]. rewrite length_take in Ho.
  destruct (Nat.le_gt_cases 16 (length s)) as [Hl|Hl].
  - split; [rewrite take_app_le, take_ge by lia; done|]. rewrite drop_app_ge by lia. by replace (16 - length o)%nat with 0%nat by lia.
  - rewrite (drop_ge s) by lia. change (blocks []) with (@nil (list Z)). cbn [gctr_blocks]. rewrite app_nil_r. split; [apply take_ge; lia|apply drop_ge; lia].
Qed.

(** The key stream twice. *)
Lemma gctr_twice E : (forall cb, is_block cb -> is_block (E cb)) -> forall s cb, is_block cb ->
  gctr_blocks E cb (blocks (gctr_blocks E cb (blocks s))) = s.
Proof.
  intros HE. refine (blocks_ind _ _ _); [done|]. intros s Hs IH cb Hcb. destruct (gctr_step E cb s (HE cb Hcb) Hs) as (Eq & Lo & E1 & E2).
  set (o := xor _ _) in *. rewrite (blocks_step (gctr_blocks E cb (blocks s))).
  2:{ rewrite Eq. intros Hn. apply app_eq_nil in Hn as [Hn _]. rewrite Hn, length_take in Lo. destruct s; [done|]. cbn [length] in Lo. lia. }
  rewrite E1, E2. cbn [gctr_blocks]. rewrite Lo, IH by (rewrite <- gcm_count_inc; by apply gcm_count_block). rewrite <- (take_drop 16 s) at 3. f_equal.
  unfold o. rewrite sxor_assoc, xor_self, xor_zeros by (rewrite !length_take; destruct (HE cb Hcb); lia). done.
Qed.

(** ** The loop *)

Section Process.
Context (a : arch) (c : cipher_algorithm) {Hc : BlockCipher c} (H16 : c_blocksize c = 16%nat) (addr : Z).

Lemma cipher_block raw b : is_block b -> is_block (c_encrypt c raw b).
Proof. intros Hb. unfold is_block. rewrite <- H16. apply (encrypt_block (c := c)). split; [apply Hb|]. rewrite H16. apply Hb. Qed.

Lemma cipher_take raw b n : is_block b -> (n <= 16)%nat -> length (take n (c_encrypt c raw b)) = n.
Proof. intros Hb Hn. rewrite length_take. destruct (cipher_block raw b Hb) as [_ ->]. lia. Qed.

(** The parts of a context that are used as blocks. *)
Record blocks_ok (x : gcm_context c) : Prop := {
  bo_hash : is_block (gc_hash x);
  bo_ctr : is_block (gc_ctr x);
  bo_key : is_block (gc_key x) }.

Lemma frag_len (s : list Z) : s <> [] -> (if 16 <? zlen s then 16 else zlen s) = zlen (take 16 s).
Proof. intros Hs. rewrite length_take. destruct (Z.ltb_spec 16 (zlen s)); lia. Qed.

Lemma rest_len (s : list Z) : zlen s < 2 ^ size_bits a -> uwrap (size_bits a) (zlen s - zlen (take 16 s)) = zlen (drop 16 s).
Proof. intros Hs. rewrite length_take, length_drop, uwrap_small; lia. Qed.

Lemma nonempty_len (s : list Z) : s <> [] -> (zlen s =? 0) = false.
Proof. intros Hs. apply Z.eqb_neq. destruct s; [done|cbn; lia]. Qed.

Lemma read_frag mem src s : mem_read mem src (zlen s) = Some s ->
  mem_read mem src (zlen (take 16 s)) = Some (take 16 s) /\ mem_read mem (src + zlen (take 16 s)) (zlen (drop 16 s)) = Some (drop 16 s).
Proof.
  intros Hr. replace (zlen s) with (zlen (take 16 s) + zlen (drop 16 s)) in Hr by (rewrite length_take, length_drop; lia).
  destruct (mem_read_split _ _ (zlen (take 16 s)) (zlen (drop 16 s)) _ ltac:(lia) ltac:(lia) Hr) as [E1 E2]. rewrite Nat2Z.id in E1, E2. rewrite E1, E2.
  rewrite length_take. split; f_equal; [destruct (Nat.le_gt_cases 16 (length s)); [by rewrite Nat.min_l by lia|rewrite Nat.min_r, !take_ge by lia; done]|].
  destruct (Nat.le_gt_cases 16 (length s)); [by rewrite Nat.min_l by lia|rewrite Nat.min_r, !drop_ge by lia; done].
Qed.

(** Additional data, or an initialisation vector. *)
Lemma process_hash flags s : forall fuel t x mem src, (length s <= fuel)%nat -> mem_read mem src (zlen s) = Some s -> zlen s < 2 ^ size_bits a ->
  bytes_ok s -> tables_shape t -> cache_ok t addr (gc_key x) -> blocks_ok x ->
  exists t', process_loop a c fuel t addr x mem src None (zlen s) flags = Some (t', set_gc_hash (ghash_from (gc_key x) (gc_hash x) s) x, mem)
    /\ tables_after t t' addr (gc_key x) /\ is_block (ghash_from (gc_key x) (gc_hash x) s).
Proof.
  revert s. refine (blocks_ind _ _ _).
  - intros fuel t x mem src _ _ _ _ Ht Ho [H1 H2 H3]. exists t. split; [by destruct fuel, x|]. split; [by apply tables_after_refl|done].
  - intros s Hs IH fuel t x mem src Hf Hr Hz Hb Ht Ho [H1 H2 H3]. 
    assert (Hpos : (0 < length s)%nat) by (destruct s; [done|cbn [length]; lia]). destruct fuel as [|fuel]; [lia|].
    destruct (read_frag _ _ _ Hr) as [Hr1 Hr2]. cbn [process_loop]. rewrite nonempty_len, frag_len by done. rewrite Hr1.
    assert (Hl16 : (length (take 16 s) <= 16)%nat) by (rewrite length_take; lia).
    rewrite gcm_xor_pad by (done || apply H1). rewrite (firstn_all (take 16 s)). cbn [gc_key set_gc_hash gc_hash].
    assert (Hx : is_block (xor (gc_hash x) (pad_block (take 16 s)))) by (apply xor_blocks; [done|]; apply pad_block_ok; [by apply Forall_take|done]).
    destruct (multiply_key_ok t addr (gc_key x) _ Ht Ho H3 Hx) as (t1 & -> & Ha). rewrite rest_len by done.
    set (x1 := set_gc_hash _ _). destruct (IH fuel t1 x1 mem (src + zlen (take 16 s))) as (t' & E & Ha' & Hb'); try done.
    + rewrite length_drop. lia.
    + rewrite length_drop. lia.
    + by apply Forall_drop.
    + apply Ha.
    + apply Ha.
    + split; [apply block_mul_block|done|done].
    + exists t'. rewrite ghash_from_step by done. split; [exact E|]. split; [by eapply tables_after_trans|exact Hb'].
Qed.

(** Where output may be written while the rest of the input is still read. *)
Definition dst_ok (mem : list Z) (src dst len : Z) : Prop := 0 <= dst /\ dst + len <= zlen mem /\ (dst <= src \/ src + len <= dst).

#[export] Instance dst_ok_dec mem src dst len : Decision (dst_ok mem src dst len).
Proof. unfold dst_ok. apply _. Defined.

(** The context after [n] blocks with the ciphertext [text]. *)
Definition after_data (x : gcm_context c) (text : list Z) (n : Z) : gcm_context c :=
  GcmContext (ghash_from (gc_key x) (gc_hash x) text) (gc_add x) (gc_data x) (gcm_count (gc_ctr x) n) (gc_key x) (gc_raw x).

Definition crypt_flags (enc : bool) : Z := if enc then GCM_FL_ENCRYPT else 0.

Lemma land_frag n : (n <= 16)%nat -> Z.land (Z.of_nat n) GCM_FL_ENCRYPT = Z.of_nat n.
Proof. intros Hn. unfold GCM_FL_ENCRYPT. change 0xff with (2 ^ 8 - 1). rewrite land_ones_mod by lia. apply Z.mod_small. lia. Qed.

(** The hash of a fragment of ciphertext, from the plaintext and the key stream
    or directly. *)
Lemma frag_hash enc h d tmp : is_block h -> is_block tmp -> (length d <= 16)%nat ->
  gcm_xor tmp (xor h (pad_block d)) (xor h (pad_block d)) (Z.land (zlen d) (crypt_flags enc))
  = xor h (pad_block (if enc then xor d (take (length d) tmp) else d)).
Proof.
  intros [_ Hh] [_ Ht] Hd. assert (Hx : length (xor h (pad_block d)) = 16%nat) by (rewrite sxor_length, pad_block_length by done; lia).
  destruct enc; unfold crypt_flags.
  - rewrite land_frag, gcm_xor_pad by (done || lia). rewrite pad_block_xor by (rewrite length_take; lia). apply sxor_assoc.
  - rewrite Z.land_0_r. change 0 with (Z.of_nat 0). rewrite gcm_xor_pad by (done || lia). rewrite take_0. unfold pad_block at 2. cbn [app length Nat.sub].
    apply xor_zeros. lia.
Qed.

(** The first fragment and the rest. *)
Lemma after_data_step (enc : bool) x s : blocks_ok x -> s <> [] ->
  let out := gctr_blocks (c_encrypt c (gc_raw x)) (inc32 (gc_ctr x)) (blocks s) in
  let x1 := GcmContext (block_mul (xor (gc_hash x) (pad_block (if enc then xor (take 16 s) (take (length (take 16 s)) (c_encrypt c (gc_raw x) (inc32 (gc_ctr x))))
                                                      else take 16 s))) (gc_key x))
              (gc_add x) (gc_data x) (inc32 (gc_ctr x)) (gc_key x) (gc_raw x) in
  after_data x (if enc then out else s) (1 + nblocks (drop 16 s))
  = after_data x1 (if enc then gctr_blocks (c_encrypt c (gc_raw x1)) (inc32 (gc_ctr x1)) (blocks (drop 16 s)) else drop 16 s) (nblocks (drop 16 s)).
Proof.
  intros [H1 H2 H3] Hs out x1. assert (Htmp : is_block (c_encrypt c (gc_raw x) (inc32 (gc_ctr x)))).
  { apply cipher_block. rewrite <- gcm_count_inc. by apply gcm_count_block. }
  destruct (gctr_step (c_encrypt c (gc_raw x)) (inc32 (gc_ctr x)) s Htmp Hs) as (Eout & Lo & Etake & Edrop). fold out in Eout, Etake, Edrop.
  unfold after_data, x1. cbn [gc_key gc_hash gc_add gc_data gc_ctr gc_raw]. f_equal.
  - destruct enc; [|by apply ghash_from_step]. rewrite <- Etake, <- Edrop. apply ghash_from_step. rewrite Eout. intros Enil.
    apply app_eq_nil in Enil as [Enil _]. rewrite Enil, length_take in Lo. destruct s; [done|]. cbn [length] in Lo. lia.
  - rewrite <- (gcm_count_inc (gc_ctr x)). by rewrite gcm_count_add by apply H2.
Qed.

(** Encryption or decryption. *)
Lemma process_crypt enc s : forall fuel t x mem src dst, (length s <= fuel)%nat -> mem_read mem src (zlen s) = Some s -> zlen s < 2 ^ size_bits a ->
  bytes_ok s -> tables_shape t -> cache_ok t addr (gc_key x) -> blocks_ok x -> dst_ok mem src dst (zlen s) ->
  let out := gctr_blocks (c_encrypt c (gc_raw x)) (inc32 (gc_ctr x)) (blocks s) in
  exists t' mem', process_loop a c fuel t addr x mem src (Some dst) (zlen s) (crypt_flags enc)
      = Some (t', after_data x (if enc then out else s) (nblocks s), mem')
    /\ mem_write mem dst out = Some mem' /\ tables_after t t' addr (gc_key x) /\ blocks_ok (after_data x (if enc then out else s) (nblocks s)).
Proof.
  revert s. refine (blocks_ind _ _ _).
  - intros fuel t x mem src dst _ Hr _ _ Ht Ho [H1 H2 H3] (D1 & D2 & _) out. exists t, mem. unfold after_data. change (nblocks []) with 0.
    rewrite gcm_count_0 by done. replace (if enc then out else []) with (@nil Z) by (by destruct enc).
    split; [by destruct fuel, x|]. split; [apply mem_write_nil; cbn [length] in *; lia|]. split; [by apply tables_after_refl|by split].
  - intros s Hs IH fuel t x mem src dst Hf Hr Hz Hb Ht Ho [H1 H2 H3] (D1 & D2 & D3) out.
    assert (Hpos : (0 < length s)%nat) by (destruct s; [done|cbn [length]; lia]). destruct fuel as [|fuel]; [lia|].
    destruct (read_frag _ _ _ Hr) as [Hr1 Hr2]. cbn [process_loop]. rewrite nonempty_len, frag_len by done. rewrite Hr1.
    assert (Hl16 : (length (take 16 s) <= 16)%nat) by (rewrite length_take; lia).
    assert (Hls : zlen (take 16 s) + zlen (drop 16 s) = zlen s) by (rewrite length_take, length_drop; lia).
    rewrite gcm_xor_pad by (done || apply H1). rewrite (firstn_all (take 16 s)), Nat2Z.id. unfold set_gc_hash, set_gc_ctr. cbn [gc_raw gc_ctr gc_hash gc_key gc_add gc_data].
    rewrite gcm_count_inc. assert (Hc1 : is_block (inc32 (gc_ctr x))) by (rewrite <- gcm_count_inc; by apply gcm_count_block).
    set (tmp := c_encrypt c (gc_raw x) (inc32 (gc_ctr x))). assert (Htmp : is_block tmp) by (by apply cipher_block).
    destruct (gctr_step (c_encrypt c (gc_raw x)) (inc32 (gc_ctr x)) s Htmp Hs) as (Eout & Lo & Etake & Edrop). fold tmp out in Eout, Lo, Etake, Edrop.
    set (o := xor (take 16 s) (take (length (take 16 s)) tmp)) in *.
    destruct (gcm_xor_mem_ok (length (take 16 s)) mem src tmp dst _ Hr1) as (m1 & -> & Ew); [destruct Htmp; lia|lia|lia|lia|]. fold o in Ew.
    rewrite frag_hash by done. fold o. set (text := if enc then o else take 16 s). cbn [gc_raw gc_ctr gc_hash gc_key gc_add gc_data].
    assert (Hx : is_block (xor (gc_hash x) (pad_block text))).
    { apply xor_blocks; [done|]. unfold text. destruct enc; (apply pad_block_ok; [|lia]); [|by apply Forall_take].
      apply sxor_bytes; [by apply Forall_take|apply Forall_take, Htmp]. }
    destruct (multiply_key_ok t addr (gc_key x) _ Ht Ho H3 Hx) as (t1 & -> & Ha). rewrite rest_len by done. rewrite nblocks_step by done.
    set (x1 := GcmContext _ _ _ _ _ _). destruct (mem_write_Some _ _ _ _ Ew) as (A & W & B & Em & EA & EW & Em1).
    destruct (IH fuel t1 x1 m1 (src + zlen (take 16 s)) (dst + zlen (take 16 s))) as (t' & m' & E & Ew' & Ha' & Hb'); try done.
    + rewrite length_drop. lia.
    + eapply mem_write_read; [exact Ew| |exact Hr2]. lia.
    + lia.
    + by apply Forall_drop.
    + apply Ha.
    + apply Ha.
    + split; [apply block_mul_block|done|done].
    + split; [lia|]. split; [|lia]. rewrite Em1, !zlen_app, Lo. rewrite Em, !zlen_app in D2. lia.
    + pose proof (after_data_step enc x s (Build_blocks_ok x H1 H2 H3) Hs) as Eaft. cbv zeta in Eaft. fold out tmp o text x1 in Eaft. rewrite Eaft. exists t', m'. split; [exact E|]. split; [|split; [by eapply tables_after_trans|exact Hb']].
      rewrite Eout. rewrite <- (mem_write_app mem dst o _ m1 Ew), Lo. exact Ew'.
Qed.
End Process.
