(* ===== verification/GcmCorrect.v ===== *)
(** * GCM: contexts implement authenticated encryption

    A session is what a client of one context has done: key, initialisation
    vector, additional data and ciphertext so far.  Any number of contexts, used
    in any order, behave as the sessions say, although they share one set of
    tables. *)
From stdpp Require Import gmap.
From S2P Require Import Prelude Strings Memory Digest Cipher Aes AesFips Gcm GcmSpec GcmField GcmStream.

(** ** Lengths and tags *)

Lemma be_bytes_ok n v : bytes_ok (be_bytes n v).
Proof.
  apply List.Forall_rev. revert v. induction n as [|n IH]; intros v; cbn [le_bytes]; constructor; [apply Z.mod_pos_bound; lia|apply IH].
Qed.

Definition lengths_block (m n : Z) : list Z := be_bytes 8 m ++ be_bytes 8 n.

Lemma lengths_is_block m n : is_block (lengths_block m n).
Proof. split; [apply Forall_app_2; apply be_bytes_ok|]. unfold lengths_block. rewrite length_app, !be_bytes_length. done. Qed.

Lemma blocks_one b : length b = 16%nat -> blocks b = [b].
Proof. intros Hb. rewrite blocks_step by (by destruct b). rewrite take_ge, drop_ge by lia. done. Qed.

(** A hash that ends in the block of lengths. *)
Lemma ghash_lengths H ss b : is_block b -> GHASH H (concat (pad <$> ss) ++ b) = block_mul (xor (fold_left (ghash_from H) ss zero_block) b) H.
Proof.
  intros [_ Hb]. assert (Hw : whole (concat (pad <$> ss))).
  { clear. induction ss as [|s ss IH]; [reflexivity|]. cbn [fmap list_fmap concat]. apply whole_app; [apply pad_whole|exact IH]. }
  rewrite <- ghash_pads. unfold GHASH. rewrite blocks_app, (blocks_one b), fold_left_app by done. done.
Qed.

Lemma ghash_two H u v b : is_block b -> GHASH H (pad u ++ pad v ++ b) = block_mul (xor (fold_left (ghash_from H) [u; v] zero_block) b) H.
Proof. intros Hb. rewrite <- ghash_lengths by done. cbn [fmap list_fmap concat]. by rewrite app_nil_r, <- app_assoc. Qed.

Lemma gctr_one E icb s : length s = 16%nat -> is_block (E icb) -> GCTR E icb s = xor s (E icb).
Proof. intros Hs [_ HE]. unfold GCTR. rewrite blocks_one by done. cbn [gctr_blocks]. by rewrite app_nil_r, take_ge by lia. Qed.

(** The offset back to the first counter value. *)
Lemma tag_offset len : 0 <= len -> 8 * len < 2 ^ 64 -> ((len + 15) / 16 + u32 (u64 (- (8 * len)) / (8 * 16))) mod 2 ^ 32 = 0 mod 2 ^ 32.
Proof.
  intros H1 H2. unfold uwrap. rewrite Zplus_mod_idemp_r. destruct (Z.eq_dec len 0) as [->|Hn]; [done|].
  replace ((- (8 * len)) mod 2 ^ 64) with (2 ^ 64 - 8 * len) by (apply (Zmod_unique _ _ (-1)); lia).
  replace ((2 ^ 64 - 8 * len) / (8 * 16)) with (2 ^ 57 - (len + 15) / 16) by (change (2 ^ 64) with (128 * 2 ^ 57); Z.div_mod_to_equations; lia).
  replace ((len + 15) / 16 + (2 ^ 57 - (len + 15) / 16)) with (2 ^ 57) by lia. reflexivity.
Qed.

(** ** Sessions *)

Section Session.
Context (a : arch) (c : cipher_algorithm) (cipher_setkey : list Z -> res (c_ctx c)).

Record session := Session { s_raw : c_ctx c; s_iv : list Z; s_aad : list Z; s_text : list Z }.
Definition s_cipher (s : session) : list Z -> list Z := c_encrypt c (s_raw s).

(** The operations, with the buffers they work on; [Crypt true] encrypts. *)
Inductive op :=
| SetKey (addr : Z) (key : list Z)
| SetIv (addr : Z) (mem : list Z) (iv ivlen : Z)
| Additional (addr : Z) (enc : bool) (mem : list Z) (src len : Z)
| Crypt (addr : Z) (enc : bool) (mem : list Z) (src dst len : Z)
| Tag (addr : Z).

(** What the client sees of an operation. *)
Inductive outcome := Done | Failed (e : errno) | Buffer (mem : list Z) | TagIs (tag : list Z).

(** The program. *)
Record system := System { sys_tables : gcm_tables; sys_contexts : gmap Z (gcm_context c) }.

Definition sys_step (y : system) (o : op) : option (system * outcome) :=
  let t := sys_tables y in
  let put t addr x := System t (<[addr := x]> (sys_contexts y)) in
  match o with
  | SetKey addr key =>
      opt! (t, r) := gcm_setkey c cipher_setkey t addr key in
      match r with
      | Ok x => Some (put t addr x, Done)
      | Err e => Some (System t (delete addr (sys_contexts y)), Failed e)
      end
  | SetIv addr mem iv ivlen =>
      opt! x := sys_contexts y !! addr in
      opt! (t, x) := gcm_setiv a c t addr x mem iv ivlen in Some (put t addr x, Done)
  | Additional addr enc mem src len =>
      opt! x := sys_contexts y !! addr in
      opt! (t, x, mem) := (if enc then gcm_encrypt a c t addr x mem src None len else gcm_decrypt a c t addr x mem src None len) in
      Some (put t addr x, Buffer mem)
  | Crypt addr enc mem src dst len =>
      opt! x := sys_contexts y !! addr in
      opt! (t, x, mem) := (if enc then gcm_encrypt a c t addr x mem src (Some dst) len else gcm_decrypt a c t addr x mem src (Some dst) len) in
      Some (put t addr x, Buffer mem)
  | Tag addr =>
      opt! x := sys_contexts y !! addr in
      opt! (t, tag) := gcm_tag c t addr x in Some (System t (sys_contexts y), TagIs tag)
  end.

(** What the standard says, as long as the client keeps the rules of the cipher
    interface: all strings but the last begin at a block, additional data come
    first, the output does not destroy input that is still needed, and the
    lengths can be counted. *)
Definition gctr_part (s : session) (data : list Z) : list Z :=
  drop (length (s_text s)) (GCTR (s_cipher s) (inc32 (J0 (s_cipher s) (s_iv s))) (s_text s ++ data)).

Definition spec_step (ss : gmap Z session) (o : op) : option (gmap Z session * outcome) :=
  match o with
  | SetKey addr key =>
      match cipher_setkey key with
      | Ok raw => Some (<[addr := Session raw (replicate 12 0) [] []]> ss, Done)
      | Err e => Some (delete addr ss, Failed e)
      end
  | SetIv addr mem iv ivlen =>
      opt! s := ss !! addr in
      opt! v := mem_read mem iv ivlen in
      if decide (bytes_ok mem /\ 8 * ivlen < 2 ^ size_bits a) then Some (<[addr := Session (s_raw s) v [] []]> ss, Done) else None
  | Additional addr enc mem src len =>
      opt! s := ss !! addr in
      opt! data := mem_read mem src len in
      if decide (bytes_ok mem /\ 8 * len < 2 ^ size_bits a /\ s_text s = [] /\ whole (s_aad s) /\ 8 * (zlen (s_aad s) + len) < 2 ^ 64)
      then Some (<[addr := Session (s_raw s) (s_iv s) (s_aad s ++ data) []]> ss, Buffer mem) else None
  | Crypt addr enc mem src dst len =>
      opt! s := ss !! addr in
      opt! data := mem_read mem src len in
      let out := gctr_part s data in
      if decide (bytes_ok mem /\ 8 * len < 2 ^ size_bits a /\ whole (s_text s) /\ 8 * (zlen (s_text s) + len) < 2 ^ 64 /\ dst_ok mem src dst len)
      then opt! mem := mem_write mem dst out in
           Some (<[addr := Session (s_raw s) (s_iv s) (s_aad s) (s_text s ++ if enc then out else data)]> ss, Buffer mem)
      else None
  | Tag addr => opt! s := ss !! addr in Some (ss, TagIs (auth_tag (s_cipher s) (s_iv s) (s_aad s) (s_text s)))
  end.

Fixpoint sys_run (y : system) (ops : list op) : option (list outcome) :=
  match ops with [] => Some [] | o :: ops' => opt! (y, r) := sys_step y o in opt! rs := sys_run y ops' in Some (r :: rs) end.

Fixpoint spec_run (ss : gmap Z session) (ops : list op) : option (list outcome) :=
  match ops with [] => Some [] | o :: ops' => opt! (ss, r) := spec_step ss o in opt! rs := spec_run ss ops' in Some (r :: rs) end.

(** ** Contexts and sessions *)

Context {Hc : BlockCipher c} (H16 : c_blocksize c = 16%nat).

Definition subkey (s : session) : list Z := hash_subkey (s_cipher s).

Record context_ok (x : gcm_context c) (s : session) : Prop := {
  co_raw : gc_raw x = s_raw s;
  co_key : gc_key x = subkey s;
  co_hash : gc_hash x = fold_left (ghash_from (subkey s)) [s_aad s; s_text s] zero_block;
  co_add : gc_add x = 8 * zlen (s_aad s);
  co_data : gc_data x = 8 * zlen (s_text s);
  co_ctr : gc_ctr x = gcm_count (J0 (s_cipher s) (s_iv s)) (nblocks (s_text s));
  co_j0 : is_block (J0 (s_cipher s) (s_iv s));
  co_blocks : blocks_ok c x;
  co_small : 8 * zlen (s_aad s) < 2 ^ 64 /\ 8 * zlen (s_text s) < 2 ^ 64 }.

Lemma subkey_block s : is_block (subkey s).
Proof. apply (cipher_block c H16), zero_is_block. Qed.

(** A context that has been given a counter. *)
Lemma fresh_context s : is_block (J0 (s_cipher s) (s_iv s)) ->
  context_ok (GcmContext zero_block 0 0 (J0 (s_cipher s) (s_iv s)) (subkey s) (s_raw s)) (Session (s_raw s) (s_iv s) [] []).
Proof.
  intros Hj. split; try done; [|split; [apply zero_is_block|done|apply subkey_block]]. cbn [gc_ctr s_text]. change (nblocks []) with 0. by rewrite gcm_count_0.
Qed.

(** A hash over two strings. *)
Record hashed (x : gcm_context c) (u v : list Z) : Prop := {
  ha_hash : gc_hash x = fold_left (ghash_from (gc_key x)) [u; v] zero_block;
  ha_add : gc_add x = 8 * zlen u;
  ha_data : gc_data x = 8 * zlen v }.

Lemma context_hashed x s : context_ok x s -> hashed x (s_aad s) (s_text s).
Proof. intros [H1 H2 H3 H4 H5 _ _ _ _]. split; [by rewrite H2|done|done]. Qed.

Lemma gcm_hash_ok t addr x u v : tables_shape t -> cache_ok t addr (gc_key x) -> is_block (gc_key x) -> is_block (gc_hash x) -> hashed x u v ->
  exists t', gcm_hash c t addr x = Some (t', GHASH (gc_key x) (pad u ++ pad v ++ lengths_block (8 * zlen u) (8 * zlen v)))
    /\ tables_after t t' addr (gc_key x).
Proof.
  intros Ht Ho Hk Hh [H1 H2 H3]. unfold gcm_hash. rewrite H2, H3. fold (lengths_block (8 * zlen u) (8 * zlen v)).
  pose proof (lengths_is_block (8 * zlen u) (8 * zlen v)) as Hb. set (b := lengths_block _ _) in *.
  destruct (multiply_key_ok t addr (gc_key x) (gcm_xor_block (gc_hash x) b) Ht Ho Hk) as (t' & -> & Ha); [by apply xor_is_block|].
  exists t'. split; [|done]. do 2 f_equal. unfold gcm_xor_block. fold (xor b (gc_hash x)). by rewrite sxor_comm, H1, ghash_two.
Qed.

Lemma gcm_tag_ok t addr x s : tables_shape t -> cache_ok t addr (gc_key x) -> context_ok x s ->
  exists t', gcm_tag c t addr x = Some (t', auth_tag (s_cipher s) (s_iv s) (s_aad s) (s_text s)) /\ tables_after t t' addr (gc_key x).
Proof.
  intros Ht Ho Hx. destruct (co_blocks _ _ Hx) as [B1 _ B3].
  destruct (gcm_hash_ok t addr x _ _ Ht Ho B3 B1 (context_hashed _ _ Hx)) as (t' & E & Ha). exists t'. split; [|done]. unfold gcm_tag. rewrite E.
  destruct Hx as [H1 H2 H3 H4 H5 H6 H7 _ [_ Hs]]. do 2 f_equal. unfold auth_tag. rewrite H5, H6, H1, H2.
  rewrite gcm_count_add, nblocks_div by apply H7. rewrite (gcm_count_mod _ _ 0) by (apply tag_offset; lia). rewrite gcm_count_0 by done.
  unfold subkey. rewrite gctr_one; [done| |by apply (cipher_block c H16)].
  rewrite ghash_two by apply lengths_is_block. apply (proj2 (block_mul_block _ _)).
Qed.

Lemma gcm_setkey_ok t addr key : tables_shape t ->
  match cipher_setkey key with
  | Err e => gcm_setkey c cipher_setkey t addr key = Some (t, Err e)
  | Ok raw => exists t' x, gcm_setkey c cipher_setkey t addr key = Some (t', Ok x) /\ context_ok x (Session raw (replicate 12 0) [] [])
      /\ tables_after t t' addr (gc_key x)
  end.
Proof.
  intros Ht. unfold gcm_setkey. destruct (cipher_setkey key) as [raw|e]; [|done].
  set (s := Session raw (replicate 12 0) [] []). change (c_encrypt c raw zero_block) with (subkey s).
  destruct (gcm_cache_ok t addr (subkey s) Ht (subkey_block s)) as (t' & -> & T1 & T2 & T3). eexists t', _. split; [done|].
  split; [|split_and!; [done|by intros _|by left]]. apply (fresh_context s). split; [apply (bool_decide_unpack _); vm_compute; exact I|done].
Qed.

Lemma size_total len : 0 <= len -> 8 * len < 2 ^ size_bits a -> uwrap (size_bits a) (len * 8) = 8 * len /\ len < 2 ^ size_bits a.
Proof. intros H1 H2. rewrite uwrap_small; lia. Qed.

Lemma size_64 : 2 ^ size_bits a <= 2 ^ 64.
Proof. destruct a; by vm_compute. Qed.

Lemma read_bytes mem src len data : bytes_ok mem -> mem_read mem src len = Some data -> bytes_ok data /\ zlen data = len /\ mem_read mem src (zlen data) = Some data.
Proof.
  intros Hb Hr. pose proof (mem_read_Some _ _ _ _ Hr) as (_ & _ & _ & E & Ed). split; [rewrite Ed; by apply Forall_take, Forall_drop|]. split; [done|]. by rewrite E.
Qed.

Lemma gcm_setiv_ok t addr x s mem iv ivlen v : tables_shape t -> cache_ok t addr (gc_key x) -> context_ok x s ->
  mem_read mem iv ivlen = Some v -> bytes_ok mem -> 8 * ivlen < 2 ^ size_bits a ->
  exists t' x', gcm_setiv a c t addr x mem iv ivlen = Some (t', x') /\ context_ok x' (Session (s_raw s) v [] []) /\ tables_after t t' addr (gc_key x').
Proof.
  intros Ht Ho Hx Hr Hb Hz. destruct (read_bytes mem iv ivlen v Hb Hr) as (Hv & <- & _). pose proof size_64 as H64.
  pose proof (co_key _ _ Hx) as Hkey. pose proof (co_raw _ _ Hx) as Hraw. rewrite Hkey in Ho. set (s' := Session (s_raw s) v [] []).
  change (subkey s) with (subkey s') in *. unfold gcm_setiv. rewrite Hkey, Hraw. destruct (Z.eqb_spec (zlen v) 12) as [E12|E12].
  - rewrite Hr. assert (Ej : J0 (s_cipher s') (s_iv s') = v ++ be32 1) by (unfold J0; rewrite decide_True by (cbn [s_iv s']; lia); done).
    assert (Hj : is_block (v ++ be32 1)) by (split; [apply Forall_app_2; [done|apply be32_bytes]|rewrite length_app; cbn [length be32]; lia]).
    eexists t, _. split; [done|]. split; [|by apply tables_after_refl]. pose proof (fresh_context s') as Hf. rewrite Ej in Hf. by apply Hf.
  - unfold gcm_process. destruct (size_total (zlen v) ltac:(lia) Hz) as [Ez Hsz]. rewrite Ez. change (negb (Z.land GCM_FL_IV GCM_FL_IV =? 0)) with true. cbv iota zeta.
    set (x1 := set_gc_len _ _ _).
    destruct (process_hash a c H16 addr GCM_FL_IV v (Z.to_nat (zlen v)) t x1 mem iv) as (t1 & -> & Ha & Hh); [lia|done|done|done|done|done| |].
    { split; [apply zero_is_block| |apply subkey_block]. split; [apply (bool_decide_unpack _); vm_compute; exact I|done]. }
    set (x2 := set_gc_hash _ _). destruct Ha as (A1 & A2 & A3).
    destruct (gcm_hash_ok t1 addr x2 [] v A1 A2 (subkey_block s') Hh) as (t2 & E2 & Hb2).
    { split; [done|done|]. unfold x2, x1. cbn [gc_data set_gc_hash set_gc_len]. apply uwrap_small. lia. }
    rewrite E2. assert (Ej : J0 (s_cipher s') (s_iv s') = GHASH (gc_key x2) (pad [] ++ pad v ++ lengths_block (8 * zlen (@nil Z)) (8 * zlen v))).
    { unfold J0. rewrite decide_False by (cbn [s_iv s']; lia). done. }
    rewrite <- Ej. eexists t2, _. split; [done|]. split.
    + apply (fresh_context s'). rewrite Ej, ghash_two by apply lengths_is_block. apply block_mul_block.
    + eapply tables_after_trans; [|exact Hb2]. by split_and!.
Qed.

Lemma additional_ok t addr x s enc mem src len data : tables_shape t -> cache_ok t addr (gc_key x) -> context_ok x s ->
  mem_read mem src len = Some data -> bytes_ok mem -> 8 * len < 2 ^ size_bits a -> s_text s = [] -> whole (s_aad s) -> 8 * (zlen (s_aad s) + len) < 2 ^ 64 ->
  exists t' x', gcm_process a c t addr x mem src None len (crypt_flags enc) = Some (t', x', mem)
    /\ context_ok x' (Session (s_raw s) (s_iv s) (s_aad s ++ data) []) /\ tables_after t t' addr (gc_key x').
Proof.
  intros Ht Ho Hx Hr Hb Hz Htext Hw Htot. destruct (read_bytes mem src len data Hb Hr) as (Hv & <- & _). pose proof size_64 as H64.
  destruct Hx as [H1 H2 H3 H4 H5 H6 H7 [B1 B2 B3] [Hs1 Hs2]]. unfold gcm_process. destruct (size_total (zlen data) ltac:(lia) Hz) as [Ez Hsz]. rewrite Ez.
  replace (negb (Z.land (crypt_flags enc) GCM_FL_IV =? 0)) with false by (by destruct enc). cbv iota zeta. rewrite H4, uwrap_small by lia.
  set (x1 := set_gc_len _ _ _).
  destruct (process_hash a c H16 addr (crypt_flags enc) data (Z.to_nat (zlen data)) t x1 mem src) as (t1 & -> & Ha & Hh); [lia|done|done|done|done|done|by split|].
  eexists t1, _. split; [done|]. split; [|exact Ha]. rewrite Htext in *. split; try done.
  - cbn [gc_hash set_gc_hash gc_key x1 set_gc_len s_aad s_text fold_left]. rewrite H2, H3. cbn [fold_left]. change (subkey (Session _ _ _ _)) with (subkey s).
    by rewrite !ghash_from_nil, ghash_from_app.
  - cbn [gc_add set_gc_hash x1 set_gc_len s_aad]. rewrite zlen_app. lia.
  - cbn [s_aad s_text]. rewrite zlen_app. cbn [length]. lia.
Qed.

Lemma gctr_part_ok x s data : context_ok x s -> whole (s_text s) ->
  gctr_part s data = gctr_blocks (s_cipher s) (inc32 (gc_ctr x)) (blocks data) /\ length (gctr_part s data) = length data.
Proof.
  intros [H1 H2 H3 H4 H5 H6 H7 _ _] Hw. set (j := J0 (s_cipher s) (s_iv s)) in *.
  assert (HE : forall cb, is_block cb -> is_block (s_cipher s cb)) by (intros cb; apply (cipher_block c H16)).
  assert (Hj : is_block (inc32 j)) by (rewrite <- gcm_count_inc; by apply gcm_count_block).
  assert (E : gctr_part s data = gctr_blocks (s_cipher s) (inc32 (gc_ctr x)) (blocks data)).
  { unfold gctr_part, GCTR. fold j. rewrite gctr_app by done. rewrite <- (gctr_length (s_cipher s) HE (s_text s) (inc32 j) Hj), drop_app_length.
    f_equal. rewrite H6, <- !gcm_count_inc, !gcm_count_add by apply H7. f_equal. lia. }
  split; [done|]. rewrite E. apply gctr_length; [done|]. rewrite H6, <- gcm_count_inc. by do 2 apply gcm_count_block.
Qed.

Lemma crypt_ok t addr x s enc mem src dst len data : tables_shape t -> cache_ok t addr (gc_key x) -> context_ok x s ->
  mem_read mem src len = Some data -> bytes_ok mem -> 8 * len < 2 ^ size_bits a -> whole (s_text s) -> 8 * (zlen (s_text s) + len) < 2 ^ 64 ->
  dst_ok mem src dst len ->
  exists t' x' mem', gcm_process a c t addr x mem src (Some dst) len (crypt_flags enc) = Some (t', x', mem')
    /\ mem_write mem dst (gctr_part s data) = Some mem'
    /\ context_ok x' (Session (s_raw s) (s_iv s) (s_aad s) (s_text s ++ if enc then gctr_part s data else data)) /\ tables_after t t' addr (gc_key x').
Proof.
  intros Ht Ho Hx Hr Hb Hz Hw Htot Hd. destruct (read_bytes mem src len data Hb Hr) as (Hv & <- & _). pose proof size_64 as H64.
  destruct (gctr_part_ok x s data Hx Hw) as [Epart Lpart]. unfold gcm_process. destruct (size_total (zlen data) ltac:(lia) Hz) as [Ez Hsz]. rewrite Ez.
  destruct Hx as [H1 H2 H3 H4 H5 H6 H7 [B1 B2 B3] [Hs1 Hs2]]. cbv iota zeta. rewrite H5, uwrap_small by lia. set (x1 := set_gc_len _ _ _).
  destruct (process_crypt a c H16 addr enc data (Z.to_nat (zlen data)) t x1 mem src dst) as (t1 & m1 & E & Ew & Ha & Hb1); [lia|done|done|done|done|done|by split|done|].
  assert (Eout : gctr_blocks (c_encrypt c (gc_raw x1)) (inc32 (gc_ctr x1)) (blocks data) = gctr_part s data).
  { rewrite Epart. unfold x1. cbn [gc_raw gc_ctr set_gc_len]. by rewrite H1. }
  rewrite Eout in *. eexists t1, _, m1. split; [exact E|]. split; [done|]. split; [|exact Ha].
  set (part := if enc then gctr_part s data else data) in *. assert (Lp : length part = length data) by (unfold part; by destruct enc).
  split; try done; unfold x1; cbn [gc_hash gc_add gc_data gc_ctr gc_key after_data set_gc_len s_aad s_text s_iv].
  - rewrite H2, H3. cbn [fold_left]. change (subkey (Session _ _ _ _)) with (subkey s). by rewrite ghash_from_app.
  - rewrite zlen_app, Lp. lia.
  - rewrite H6, gcm_count_add, nblocks_app by (done || apply H7). do 2 f_equal. by rewrite !nblocks_div, Lp.
  - rewrite zlen_app, Lp. lia.
Qed.

(** ** The shared tables *)

Definition sys_ok (y : system) (ss : gmap Z session) : Prop :=
  tables_shape (sys_tables y)
  /\ forall addr s, ss !! addr = Some s -> exists x, sys_contexts y !! addr = Some x /\ context_ok x s /\ cache_ok (sys_tables y) addr (gc_key x).

(** After an operation of one context, the tables are still right for all. *)
Lemma sys_ok_put y ss addr t' x s : sys_ok y ss -> context_ok x s -> tables_after (sys_tables y) t' addr (gc_key x) ->
  sys_ok (System t' (<[addr := x]> (sys_contexts y))) (<[addr := s]> ss).
Proof.
  intros [Ht Hall] Hx (T1 & T2 & T3). split; [done|]. intros addr' s' Hs'. cbn [sys_contexts sys_tables].
  destruct (decide (addr' = addr)) as [->|Hne].
  - rewrite lookup_insert_eq in Hs'. injection Hs' as <-. exists x. by rewrite lookup_insert_eq.
  - rewrite lookup_insert_ne in Hs' by done. destruct (Hall addr' s' Hs') as (x' & E & Hx' & Hc'). exists x'. rewrite lookup_insert_ne by done.
    split; [done|]. split; [done|]. intros Hk. destruct T3 as [T3| ->]; [congruence|by apply Hc'].
Qed.

Lemma sys_ok_delete y ss addr : sys_ok y ss -> sys_ok (System (sys_tables y) (delete addr (sys_contexts y))) (delete addr ss).
Proof.
  intros [Ht Hall]. split; [done|]. intros addr' s' Hs'. apply lookup_delete_Some in Hs' as [Hne Hs']. cbn [sys_contexts].
  rewrite lookup_delete_ne by done. by apply Hall.
Qed.

Lemma sys_step_ok y ss o ss' r : sys_ok y ss -> spec_step ss o = Some (ss', r) -> exists y', sys_step y o = Some (y', r) /\ sys_ok y' ss'.
Proof.
  intros Hy Hstep. pose proof Hy as [Ht Hall]. destruct o as [addr key|addr mem iv ivlen|addr enc mem src len|addr enc mem src dst len|addr];
    cbn [spec_step sys_step] in *.
  - pose proof (gcm_setkey_ok (sys_tables y) addr key Ht) as H. destruct (cipher_setkey key) as [raw|e].
    + destruct H as (t' & x & -> & Hx & Ha). injection Hstep as <- <-. eexists. split; [done|]. by apply sys_ok_put.
    + rewrite H. injection Hstep as <- <-. eexists. split; [done|]. by apply sys_ok_delete.
  - destruct (ss !! addr) as [s|] eqn:Es; [|done]. destruct (mem_read mem iv ivlen) as [v|] eqn:Er; [|done]. case_decide as Hd; [|done].
    injection Hstep as <- <-. destruct (Hall addr s Es) as (x & -> & Hx & Ho). destruct Hd as [D1 D2].
    destruct (gcm_setiv_ok (sys_tables y) addr x s mem iv ivlen v Ht Ho Hx Er D1 D2) as (t' & x' & -> & Hx' & Ha). eexists. split; [done|]. by apply sys_ok_put.
  - destruct (ss !! addr) as [s|] eqn:Es; [|done]. destruct (mem_read mem src len) as [data|] eqn:Er; [|done]. case_decide as Hd; [|done].
    injection Hstep as <- <-. destruct (Hall addr s Es) as (x & -> & Hx & Ho). destruct Hd as (D1 & D2 & D3 & D4 & D5).
    destruct (additional_ok (sys_tables y) addr x s enc mem src len data Ht Ho Hx Er D1 D2 D3 D4 D5) as (t' & x' & E & Hx' & Ha).
    exists (System t' (<[addr := x']> (sys_contexts y))). split; [|by apply sys_ok_put]. unfold gcm_encrypt, gcm_decrypt, crypt_flags in *. by destruct enc; rewrite E.
  - destruct (ss !! addr) as [s|] eqn:Es; [|done]. destruct (mem_read mem src len) as [data|] eqn:Er; [|done]. case_decide as Hd; [|done].
    destruct (Hall addr s Es) as (x & -> & Hx & Ho). destruct Hd as (D1 & D2 & D3 & D4 & D5).
    destruct (crypt_ok (sys_tables y) addr x s enc mem src dst len data Ht Ho Hx Er D1 D2 D3 D4 D5) as (t' & x' & mem' & E & Ew & Hx' & Ha).
    rewrite Ew in Hstep. injection Hstep as <- <-. exists (System t' (<[addr := x']> (sys_contexts y))). split; [|by apply sys_ok_put].
    unfold gcm_encrypt, gcm_decrypt, crypt_flags in *. by destruct enc; rewrite E.
  - destruct (ss !! addr) as [s|] eqn:Es; [|done]. injection Hstep as <- <-. destruct (Hall addr s Es) as (x & Ex & Hx & Ho). rewrite Ex.
    destruct (gcm_tag_ok (sys_tables y) addr x s Ht Ho Hx) as (t' & -> & Ha). eexists. split; [done|].
    rewrite <- (insert_id (sys_contexts y) addr x Ex), <- (insert_id ss addr s Es). by apply sys_ok_put.
Qed.

Lemma sys_run_ok ops : forall y ss rs, sys_ok y ss -> spec_run ss ops = Some rs -> sys_run y ops = Some rs.
Proof.
  induction ops as [|o ops IH]; intros y ss rs Hy H; cbn [spec_run sys_run] in *; [done|].
  destruct (spec_step ss o) as [[ss' r]|] eqn:E; [|done]. destruct (sys_step_ok y ss o ss' r Hy E) as (y' & -> & Hy').
  destruct (spec_run ss' ops) as [rs'|] eqn:E'; [|done]. by rewrite (IH y' ss' rs' Hy' E').
Qed.

Definition power_on : system := System no_tables ∅.

Lemma power_on_ok : sys_ok power_on ∅.
Proof. split; [by split|]. intros addr s Hs. by rewrite lookup_empty in Hs. Qed.

(** ** Strings in pieces *)

(** All pieces but the last are whole blocks. *)
Fixpoint chunked (l : list (list Z)) : Prop :=
  match l with [] => True | d :: l' => (l' <> [] -> whole d) /\ chunked l' end.

Definition with_text (s : session) (text : list Z) : session := Session (s_raw s) (s_iv s) (s_aad s) text.

Lemma s_cipher_block s b : is_block b -> is_block (s_cipher s b).
Proof. apply (cipher_block c H16). Qed.

Lemma gctr_part_stream s data : is_block (J0 (s_cipher s) (s_iv s)) -> whole (s_text s) ->
  gctr_part s data = gctr_blocks (s_cipher s) (gcm_count (inc32 (J0 (s_cipher s) (s_iv s))) (nblocks (s_text s))) (blocks data).
Proof.
  intros Hj Hw. set (j := J0 (s_cipher s) (s_iv s)) in *. assert (Hi : is_block (inc32 j)) by (rewrite <- gcm_count_inc; by apply gcm_count_block).
  unfold gctr_part, GCTR. fold j. rewrite gctr_app by done.
  by rewrite <- (gctr_length (s_cipher s) (s_cipher_block s) (s_text s) (inc32 j) Hi), drop_app_length.
Qed.

Lemma gctr_part_length s data : is_block (J0 (s_cipher s) (s_iv s)) -> whole (s_text s) -> length (gctr_part s data) = length data.
Proof.
  intros Hj Hw. rewrite gctr_part_stream by done. apply gctr_length; [apply s_cipher_block|]. rewrite <- gcm_count_inc. by do 2 apply gcm_count_block.
Qed.

Lemma gctr_part_app s d rest text : is_block (J0 (s_cipher s) (s_iv s)) -> whole (s_text s) -> whole d -> length text = length d ->
  gctr_part s (d ++ rest) = gctr_part s d ++ gctr_part (with_text s (s_text s ++ text)) rest.
Proof.
  intros Hj Hw Hd Hl. assert (Hw' : whole (s_text s ++ text)) by (apply whole_app; [done|unfold whole; by rewrite Hl]).
  rewrite (gctr_part_stream (with_text s _)) by done. rewrite !gctr_part_stream by done. cbn [with_text s_iv s_text]. change (s_cipher (with_text _ _)) with (s_cipher s).
  set (j := inc32 (J0 (s_cipher s) (s_iv s))). assert (Hi : is_block j) by (unfold j; rewrite <- gcm_count_inc; by apply gcm_count_block).
  rewrite gctr_app by (done || by apply gcm_count_block). f_equal. rewrite gcm_count_add by apply Hi. do 2 f_equal. rewrite nblocks_app by done.
  f_equal. by rewrite !nblocks_div, Hl.
Qed.

(** A string of additional data, and of data, each piece in a buffer of its own. *)
Definition add_op (addr : Z) (enc : bool) (d : list Z) : op := Additional addr enc d 0 (zlen d).
Definition crypt_op (addr : Z) (enc : bool) (d : list Z) : op := Crypt addr enc d 0 0 (zlen d).

Definition pieces_ok (l : list (list Z)) : Prop := chunked l /\ Forall (fun d => bytes_ok d /\ 8 * zlen d < 2 ^ size_bits a) l /\ 8 * zlen (concat l) < 2 ^ 64.

Lemma add_pieces addr enc l : forall s ss rest rs, chunked l -> Forall (fun d => bytes_ok d /\ 8 * zlen d < 2 ^ size_bits a) l ->
  (l <> [] -> whole (s_aad s)) -> s_text s = [] -> 8 * (zlen (s_aad s) + zlen (concat l)) < 2 ^ 64 ->
  spec_run (<[addr := Session (s_raw s) (s_iv s) (s_aad s ++ concat l) []]> ss) rest = Some rs ->
  spec_run (<[addr := s]> ss) (map (add_op addr enc) l ++ rest) = Some (map Buffer l ++ rs).
Proof.
  induction l as [|d l IH]; intros s ss rest rs Hch Hf Hw Ht Hz Hrest; cbn [map app].
  - cbn [concat] in Hrest. rewrite app_nil_r in Hrest. destruct s as [raw iv aad text]. cbn in *. by subst text.
  - destruct Hch as [Hd Hch]. apply Forall_cons in Hf as [[Hb Hs] Hf]. specialize (Hw ltac:(done)). cbn [concat] in *. rewrite zlen_app in Hz.
    cbn [spec_run spec_step add_op]. rewrite lookup_insert_eq, mem_read_all. rewrite decide_True by (split_and!; try done; lia). rewrite insert_insert_eq.
    set (s1 := Session _ _ _ _). rewrite (IH s1 ss rest rs); [done|done|done| |done| |].
    + intros Hne. cbn [s_aad s1]. apply whole_app; [done|by apply Hd].
    + cbn [s_aad s1]. rewrite zlen_app. lia.
    + cbn [s_aad s_raw s_iv s1]. by rewrite <- app_assoc.
Qed.

Lemma crypt_pieces addr (enc : bool) l : forall s ss, chunked l -> Forall (fun d => bytes_ok d /\ 8 * zlen d < 2 ^ size_bits a) l ->
  is_block (J0 (s_cipher s) (s_iv s)) -> (l <> [] -> whole (s_text s)) -> 8 * (zlen (s_text s) + zlen (concat l)) < 2 ^ 64 ->
  exists outs : list (list Z), map length outs = map length l /\ concat outs = (if decide (l = []) then [] else gctr_part s (concat l))
    /\ forall (rest : list op) (rs : list outcome), spec_run (<[addr := with_text s (s_text s ++ (if enc then concat outs else concat l))]> ss) rest = Some rs ->
       spec_run (<[addr := s]> ss) (map (crypt_op addr enc) l ++ rest) = Some (map Buffer outs ++ rs).
Proof.
  induction l as [|d l IH]; intros s ss Hch Hf Hj Hw Hz.
  - exists []. split; [done|]. split; [done|]. intros rest rs Hrest. destruct enc, s; cbn [concat s_text with_text s_raw s_iv s_aad] in Hrest;
      by rewrite app_nil_r in Hrest.
  - destruct Hch as [Hd Hch]. apply Forall_cons in Hf as [[Hb Hs] Hf]. specialize (Hw ltac:(done)). cbn [concat] in *. rewrite zlen_app in Hz.
    pose proof (gctr_part_length s d Hj Hw) as Lo. set (o := gctr_part s d) in *. set (part := if enc then o else d).
    assert (Lp : length part = length d) by (unfold part; by destruct enc). set (s1 := with_text s (s_text s ++ part)).
    destruct (IH s1 ss Hch Hf Hj) as (outs & L & Eo & Hrun).
    { intros Hne. cbn [s_text s1 with_text]. apply whole_app; [done|]. unfold whole. rewrite Lp. by apply Hd. }
    { cbn [s_text s1 with_text]. rewrite zlen_app, Lp. lia. }
    exists (o :: outs). split; [cbn; by rewrite L, Lo|]. split.
    { rewrite decide_False by done. cbn [concat]. rewrite Eo. case_decide as Hl; [by subst l; cbn [concat]; rewrite !app_nil_r|].
      symmetry. apply gctr_part_app; auto. }
    intros rest rs Hrest. cbn [map app spec_run spec_step crypt_op]. rewrite lookup_insert_eq, mem_read_all.
    rewrite decide_True by (unfold dst_ok; split_and!; try done; lia). fold o. assert (Ew : mem_write d 0 o = Some o).
    { pose proof (mem_write_at [] d o [] ltac:(lia)) as Hw0. cbn [app length Z.of_nat] in Hw0. by rewrite !app_nil_r in Hw0. }
    rewrite Ew, insert_insert_eq. fold part. fold (with_text s (s_text s ++ part)). fold s1. rewrite (Hrun rest rs); [done|].
    cbn [concat] in Hrest. unfold s1. cbn [s_text with_text]. unfold part. rewrite <- app_assoc. by destruct enc.
Qed.

Lemma J0_block E iv : bytes_ok iv -> is_block (J0 E iv).
Proof.
  intros Hv. unfold J0. case_decide as Hl.
  - split; [apply Forall_app_2; [done|apply be32_bytes]|rewrite length_app, Hl; done].
  - pose proof (ghash_two (hash_subkey E) [] iv _ (lengths_is_block 0 (8 * zlen iv))) as H. cbn [app] in H. change (pad []) with (@nil Z) in H. cbn [app] in H.
    unfold lengths_block in H. rewrite H. apply block_mul_block.
Qed.

(** Everything that is done for one message. *)
Definition message_ops (addr : Z) (enc : bool) (key iv : list Z) (aads l : list (list Z)) : list op :=
  [SetKey addr key; SetIv addr iv 0 (zlen iv)] ++ map (add_op addr enc) aads ++ map (crypt_op addr enc) l ++ [Tag addr].

Definition message_outcome (aads outs : list (list Z)) (tag : list Z) : list outcome :=
  [Done; Done] ++ map Buffer aads ++ map Buffer outs ++ [TagIs tag].

Lemma message_run addr (enc : bool) key raw iv aads l : cipher_setkey key = Ok raw -> bytes_ok iv -> 8 * zlen iv < 2 ^ size_bits a ->
  pieces_ok aads -> pieces_ok l ->
  let E := c_encrypt c raw in
  exists outs : list (list Z), map length outs = map length l /\ concat outs = GCTR E (inc32 (J0 E iv)) (concat l)
    /\ forall ss rest rs, (forall ss', spec_run ss' rest = Some rs) ->
       spec_run ss (message_ops addr enc key iv aads l ++ rest)
       = Some (message_outcome aads outs (auth_tag E iv (concat aads) (concat (if enc then outs else l))) ++ rs).
Proof.
  intros Hk Hv Hz (A1 & A2 & A3) (L1 & L2 & L3) E. set (s := Session raw iv [] []). set (s1 := Session raw iv (concat aads) []).
  assert (Hj : is_block (J0 (s_cipher s1) (s_iv s1))) by (by apply J0_block).
  destruct (crypt_pieces addr enc l s1 ∅ L1 L2 Hj) as (outs & Lo & Eo & _); [done|done|]. exists outs. split; [done|].
  assert (Eo' : concat outs = GCTR E (inc32 (J0 E iv)) (concat l)) by (rewrite Eo; case_decide as Hl; [by subst l|done]).
  split; [done|]. intros ss rest rs Hrest. unfold message_ops, message_outcome. rewrite <- !app_assoc. cbn [app]. cbn [spec_run spec_step]. rewrite Hk.
  cbn [spec_run spec_step]. rewrite lookup_insert_eq, mem_read_all, decide_True, insert_insert_eq by done. cbn [s_raw]. fold s.
  rewrite (add_pieces addr enc aads s ss _ (map Buffer outs ++ TagIs (auth_tag E iv (concat aads) (concat (if enc then outs else l))) :: rs)); try done.
  cbn [s_aad s app s_raw s_iv]. fold s1. destruct (crypt_pieces addr enc l s1 ss L1 L2 Hj) as (outs' & Lo' & Eo2 & Hrun); [done|done|].
  assert (outs' = outs) as ->.
  { rewrite <- Eo in Eo2. clear -Lo Lo' Eo2. rewrite <- Lo in Lo'. clear Lo. revert outs Lo' Eo2. induction outs' as [|o outs' IH]; intros [|o2 outs] L E; try done.
    cbn [map concat] in *. injection L as L1 L2. apply app_inj_1 in E as [-> E]; [|done]. f_equal. by apply IH. }
  rewrite (Hrun _ (TagIs (auth_tag E iv (concat aads) (concat (if enc then outs else l))) :: rs)); [done|].
  cbn [app spec_run spec_step]. rewrite lookup_insert_eq, Hrest. cbn [s_text s1 with_text s_raw s_iv s_aad app]. by destruct enc.
Qed.
End Session.

(** ** Main theorems *)

(** C34. Any sequence of operations on any number of contexts that keeps the rules of
    the cipher interface gives the results of SP 800-38D for the session of each
    context, whichever contexts used the shared tables in between: ciphertext and
    plaintext are written to the buffers (in place, or not over input that is
    still needed), tags are right, and an unusable key is refused. *)
Theorem gcm_refines a c cipher_setkey `{BlockCipher c} ops outcomes :
  c_blocksize c = 16%nat -> spec_run a c cipher_setkey ∅ ops = Some outcomes -> sys_run a c cipher_setkey (power_on c) ops = Some outcomes.
Proof. intros H16 Hrun. apply (sys_run_ok a c cipher_setkey H16 ops (power_on c) ∅); [apply power_on_ok|done]. Qed.

(** ** AES in GCM ([GCM_CIPHER] in [crypto/aes.c]) *)

Definition aes_gcm_setkey (key : list Z) : res aes_schedule :=
  match aes_setkey key as r return aes_setkey key = r -> res aes_schedule with
  | Ok aes => fun E => Ok (exist _ aes (ex_intro _ key E))
  | Err e => fun _ => Err e
  end eq_refl.

Lemma aes_gcm_setkey_inv key : match aes_gcm_setkey key with Ok raw => aes_setkey key = Ok (proj1_sig raw) | Err e => aes_setkey key = Err e end.
Proof. unfold aes_gcm_setkey. generalize (eq_refl (aes_setkey key)). generalize (aes_setkey key) at 2 3 7 8. intros [aes|e] E; done. Qed.

(** Test cases 4 and 5 of the GCM specification: AES-128, with a vector of 96
    bits and one of 64 bits. *)
Definition gcm_key : list Z := be_bytes 16 0xfeffe9928665731c6d6a8f9467308308.
Definition gcm_iv : list Z := be_bytes 12 0xcafebabefacedbaddecaf888.
Definition gcm_iv8 : list Z := be_bytes 8 0xcafebabefacedbad.
Definition gcm_aad : list Z := be_bytes 20 0xfeedfacedeadbeeffeedfacedeadbeefabaddad2.
Definition gcm_plain : list Z :=
  be_bytes 60 0xd9313225f88406e5a55909c5aff5269a86a7a9531534f7da2e4c303d8a318a721c3c0c95956809532fcf0e2449a6b525b16aedf5aa0de657ba637b39.
Definition gcm_text : list Z :=
  be_bytes 60 0x42831ec2217774244b7221b784d0d49ce3aa212f2c02a4e035c17e2329aca12e21d514b25466931c7d8f6a5aac84aa051ba30b396a0aac973d58e091.
Definition gcm_text8 : list Z :=
  be_bytes 60 0x61353b4c2806934a777ff51fa22a4755699b2a714fcdc6f83766e5f97b6c742373806900e49f24b22b097544d4896b424989b5e1ebac0f07c23f4598.

(** Two contexts take turns, and a third gets a key that is too short; the second
    message is written four bytes before it is read. *)
Definition gcm_demo : list op :=
  [SetKey 4096 gcm_key; SetKey 8192 gcm_key; SetKey 12288 [1; 2; 3]; SetIv 4096 gcm_iv 0 12; SetIv 8192 gcm_iv8 0 8;
   Additional 4096 true (take 16 gcm_aad) 0 16; Additional 8192 true gcm_aad 0 20; Additional 4096 true (drop 16 gcm_aad) 0 4;
   Crypt 4096 true (take 32 gcm_plain) 0 0 32; Crypt 8192 true ([0; 0; 0; 0] ++ gcm_plain) 4 0 60; Crypt 4096 true (drop 32 gcm_plain) 0 0 28;
   Tag 8192; Tag 4096].

Definition gcm_demo_outcomes : list outcome :=
  [Done; Done; Failed EINVAL; Done; Done; Buffer (take 16 gcm_aad); Buffer gcm_aad; Buffer (drop 16 gcm_aad);
   Buffer (take 32 gcm_text); Buffer (gcm_text8 ++ drop 56 gcm_plain); Buffer (drop 32 gcm_text);
   TagIs (be_bytes 16 0x3612d2e79e3b0785561be14aaca2fccb); TagIs (be_bytes 16 0x5bc94fbc3221a5db94fae95ae7121a47)].

Lemma gcm_refines_witness :
  spec_run Arch32 aes_algorithm aes_gcm_setkey ∅ gcm_demo = Some gcm_demo_outcomes
  /\ sys_run Arch32 aes_algorithm aes_gcm_setkey (power_on aes_algorithm) gcm_demo = Some gcm_demo_outcomes.
Proof.
  assert (E : spec_run Arch32 aes_algorithm aes_gcm_setkey ∅ gcm_demo = Some gcm_demo_outcomes) by (vm_compute; reflexivity).
  split; [exact E|]. exact (gcm_refines Arch32 aes_algorithm aes_gcm_setkey gcm_demo gcm_demo_outcomes eq_refl E).
Defined.

(** C35. A message that is encrypted piece by piece is the authenticated encryption
    of the standard; cut into pieces in any other way and decrypted in a context
    at the same or another address, it gives the plaintext and the same tag. *)
Theorem gcm_roundtrip a c cipher_setkey `{BlockCipher c} p q key raw iv aads plains :
  c_blocksize c = 16%nat -> cipher_setkey key = Ok raw -> bytes_ok iv -> 8 * zlen iv < 2 ^ size_bits a -> pieces_ok a aads -> pieces_ok a plains ->
  exists texts tag, GCM_AE (c_encrypt c raw) iv (concat plains) (concat aads) = (concat texts, tag) /\ map length texts = map length plains
    /\ forall aads' texts', pieces_ok a aads' -> pieces_ok a texts' -> concat aads' = concat aads -> concat texts' = concat texts ->
       exists plains', concat plains' = concat plains
         /\ sys_run a c cipher_setkey (power_on c) (message_ops p true key iv aads plains ++ message_ops q false key iv aads' texts')
            = Some (message_outcome aads texts tag ++ message_outcome aads' plains' tag).
Proof.
  intros H16 Hk Hv Hz Ha Hp. destruct (message_run a c cipher_setkey H16 p true key raw iv aads plains Hk Hv Hz Ha Hp) as (texts & L & E & Hrun).
  exists texts, (auth_tag (c_encrypt c raw) iv (concat aads) (concat texts)). unfold GCM_AE. rewrite <- E. split; [done|]. split; [done|].
  intros aads' texts' Ha' Ht' Ea Et. destruct (message_run a c cipher_setkey H16 q false key raw iv aads' texts' Hk Hv Hz Ha' Ht') as (plains' & L' & E' & Hrun').
  exists plains'. split.
  - rewrite E', Et, E. unfold GCTR. apply gctr_twice; [apply (cipher_block c H16)|]. rewrite <- gcm_count_inc. by apply gcm_count_block, J0_block.
  - apply (sys_run_ok a c cipher_setkey H16 _ (power_on c) ∅); [apply power_on_ok|]. apply Hrun. intros ss'.
    specialize (Hrun' ss' [] [] ltac:(done)). rewrite !app_nil_r, Ea, Et in Hrun'. exact Hrun'.
Qed.

(** The plaintext of test case 4 in two pieces, and the ciphertext in three. *)
Lemma gcm_roundtrip_witness : exists texts tag plains',
  concat texts = gcm_text /\ concat plains' = gcm_plain
  /\ sys_run Arch32 aes_algorithm aes_gcm_setkey (power_on aes_algorithm)
       (message_ops 4096 true gcm_key gcm_iv [gcm_aad] [take 48 gcm_plain; drop 48 gcm_plain]
        ++ message_ops 4096 false gcm_key gcm_iv [take 16 gcm_aad; drop 16 gcm_aad] [take 16 gcm_text; take 32 (drop 16 gcm_text); drop 48 gcm_text])
     = Some (message_outcome [gcm_aad] texts tag ++ message_outcome [take 16 gcm_aad; drop 16 gcm_aad] plains' tag).
Proof.
  assert (Hok : forall l, bool_decide (Forall (fun d => bytes_ok d /\ 8 * zlen d < 2 ^ size_bits Arch32) l /\ 8 * zlen (concat l) < 2 ^ 64) = true ->
    chunked l -> pieces_ok Arch32 l) by (intros l H1 H2; apply bool_decide_eq_true in H1 as [? ?]; by split_and!).
  assert (Hc1 : forall x : list Z, chunked [x]) by done.
  assert (Hc2 : forall x y : list Z, whole x -> chunked [x; y]) by done.
  assert (Hc3 : forall x y z : list Z, whole x -> whole y -> chunked [x; y; z]) by done.
  pose proof (aes_gcm_setkey_inv gcm_key) as Hkey.
  destruct (aes_gcm_setkey gcm_key) as [raw|e] eqn:Ek; [|exfalso; vm_compute in Hkey; discriminate].
  assert (Et : GCTR (c_encrypt aes_algorithm raw) (inc32 (J0 (c_encrypt aes_algorithm raw) gcm_iv)) gcm_plain = gcm_text).
  { clear -Hkey. change (c_encrypt aes_algorithm raw) with (aes_encrypt (proj1_sig raw)). revert Hkey. generalize (proj1_sig raw). intros aes Hkey.
    vm_compute in Hkey. injection Hkey as <-. vm_compute. reflexivity. }
  destruct (gcm_roundtrip Arch32 aes_algorithm aes_gcm_setkey 4096 4096 gcm_key raw gcm_iv [gcm_aad] [take 48 gcm_plain; drop 48 gcm_plain])
    as (texts & tag & E & _ & H); [reflexivity|exact Ek|apply (bool_decide_unpack _); vm_compute; exact I|vm_compute; reflexivity
      |apply Hok; [vm_compute; reflexivity|apply Hc1]|apply Hok; [vm_compute; reflexivity|apply Hc2; reflexivity]|].
  unfold GCM_AE in E. cbn [concat] in E. rewrite app_nil_r, take_drop, Et in E. injection E as E _.
  destruct (H [take 16 gcm_aad; drop 16 gcm_aad] [take 16 gcm_text; take 32 (drop 16 gcm_text); drop 48 gcm_text]) as (plains' & Ep & Hrun);
    [apply Hok; [vm_compute; reflexivity|apply Hc2; reflexivity]|apply Hok; [vm_compute; reflexivity|apply Hc3; reflexivity]|reflexivity|rewrite <- E; reflexivity|].
  exists texts, tag, plains'. split; [by symmetry|]. split; [exact Ep|exact Hrun].
Defined.
