(* ===== verification/Tftp.v ===== *)
(** * TFTP ([net/udp/tftp.c], [include/ipxe/tftp.h])

    A download from its opening to its end.  The state is the request with the
    fields of the C structure, and logs of what leaves it: the datagrams sent
    (to the address of the socket or to a given one) and the data given to the
    recipient.  What the rest of the system answers is the record [tftp_env].
    [None] is an access outside an object. *)
From S2P Require Import Prelude Strings Memory Printf Buffers Uri.

Definition TFTP_PORT : Z := 69.
Definition TFTP_DEFAULT_BLKSIZE : Z := 512.
Definition TFTP_MAX_BLKSIZE : Z := 1432.
Definition TFTP_RRQ : Z := 1.
Definition TFTP_DATA : Z := 3.
Definition TFTP_ACK : Z := 4.
Definition TFTP_ERROR : Z := 5.
Definition TFTP_OACK : Z := 6.
Definition TFTP_ERR_FILE_NOT_FOUND : Z := 1.
Definition TFTP_ERR_ACCESS_DENIED : Z := 2.
Definition TFTP_ERR_ILLEGAL_OP : Z := 4.
Definition MTFTP_PORT : Z := 1759.

Definition TFTP_FL_SEND_ACK : Z := 0x0001.
Definition TFTP_FL_RRQ_SIZES : Z := 0x0002.
Definition TFTP_FL_RRQ_MULTICAST : Z := 0x0004.
Definition TFTP_FL_MTFTP_RECOVERY : Z := 0x0008.
Definition MTFTP_MAX_TIMEOUTS : Z := 3.

(** A socket address is the list of its 32 bytes, which begin with the family;
    there is no peer as long as that is zero.  [tf_mc] is whether the multicast
    socket is open, [tf_done] the status the interfaces were closed with. *)
Record tftp_request := TftpRequest {
  tf_blksize : Z;
  tf_tsize : Z;
  tf_port : Z;
  tf_peer : list Z;
  tf_flags : Z;
  tf_timeouts : Z;
  tf_bitmap : bitmap;
  tf_filesize : Z;
  tf_timer : bool;
  tf_mc : bool;
  tf_sent : list (option (list Z) * list Z);
  tf_xfer : list (Z * list Z);
  tf_done : option (res unit) }.

Definition set_tf_blksize v t := TftpRequest v (tf_tsize t) (tf_port t) (tf_peer t) (tf_flags t) (tf_timeouts t) (tf_bitmap t) (tf_filesize t)
  (tf_timer t) (tf_mc t) (tf_sent t) (tf_xfer t) (tf_done t).
Definition set_tf_tsize v t := TftpRequest (tf_blksize t) v (tf_port t) (tf_peer t) (tf_flags t) (tf_timeouts t) (tf_bitmap t) (tf_filesize t)
  (tf_timer t) (tf_mc t) (tf_sent t) (tf_xfer t) (tf_done t).
Definition set_tf_port v t := TftpRequest (tf_blksize t) (tf_tsize t) v (tf_peer t) (tf_flags t) (tf_timeouts t) (tf_bitmap t) (tf_filesize t)
  (tf_timer t) (tf_mc t) (tf_sent t) (tf_xfer t) (tf_done t).
Definition set_tf_peer v t := TftpRequest (tf_blksize t) (tf_tsize t) (tf_port t) v (tf_flags t) (tf_timeouts t) (tf_bitmap t) (tf_filesize t)
  (tf_timer t) (tf_mc t) (tf_sent t) (tf_xfer t) (tf_done t).
Definition set_tf_flags v t := TftpRequest (tf_blksize t) (tf_tsize t) (tf_port t) (tf_peer t) v (tf_timeouts t) (tf_bitmap t) (tf_filesize t)
  (tf_timer t) (tf_mc t) (tf_sent t) (tf_xfer t) (tf_done t).
Definition set_tf_timeouts v t := TftpRequest (tf_blksize t) (tf_tsize t) (tf_port t) (tf_peer t) (tf_flags t) v (tf_bitmap t) (tf_filesize t)
  (tf_timer t) (tf_mc t) (tf_sent t) (tf_xfer t) (tf_done t).
Definition set_tf_bitmap v t := TftpRequest (tf_blksize t) (tf_tsize t) (tf_port t) (tf_peer t) (tf_flags t) (tf_timeouts t) v (tf_filesize t)
  (tf_timer t) (tf_mc t) (tf_sent t) (tf_xfer t) (tf_done t).
Definition set_tf_filesize v t := TftpRequest (tf_blksize t) (tf_tsize t) (tf_port t) (tf_peer t) (tf_flags t) (tf_timeouts t) (tf_bitmap t) v
  (tf_timer t) (tf_mc t) (tf_sent t) (tf_xfer t) (tf_done t).
Definition set_tf_timer v t := TftpRequest (tf_blksize t) (tf_tsize t) (tf_port t) (tf_peer t) (tf_flags t) (tf_timeouts t) (tf_bitmap t)
  (tf_filesize t) v (tf_mc t) (tf_sent t) (tf_xfer t) (tf_done t).
Definition set_tf_mc v t := TftpRequest (tf_blksize t) (tf_tsize t) (tf_port t) (tf_peer t) (tf_flags t) (tf_timeouts t) (tf_bitmap t)
  (tf_filesize t) (tf_timer t) v (tf_sent t) (tf_xfer t) (tf_done t).
Definition set_tf_sent v t := TftpRequest (tf_blksize t) (tf_tsize t) (tf_port t) (tf_peer t) (tf_flags t) (tf_timeouts t) (tf_bitmap t)
  (tf_filesize t) (tf_timer t) (tf_mc t) v (tf_xfer t) (tf_done t).
Definition set_tf_xfer v t := TftpRequest (tf_blksize t) (tf_tsize t) (tf_port t) (tf_peer t) (tf_flags t) (tf_timeouts t) (tf_bitmap t)
  (tf_filesize t) (tf_timer t) (tf_mc t) (tf_sent t) v (tf_done t).
Definition set_tf_done v t := TftpRequest (tf_blksize t) (tf_tsize t) (tf_port t) (tf_peer t) (tf_flags t) (tf_timeouts t) (tf_bitmap t)
  (tf_filesize t) (tf_timer t) (tf_mc t) (tf_sent t) (tf_xfer t) v.

Definition no_peer : list Z := replicate 32 0.
Definition has_peer (t : tftp_request) : bool := existsb (fun b => negb (b =? 0)) (take 2 (tf_peer t)).
Definition has_flag (t : tftp_request) (flag : Z) : bool := negb (Z.land (tf_flags t) flag =? 0).
Definition empty_bitmap : bitmap := Bitmap [] 0 0.

(** The windows of the socket and of the recipient, whether buffers can be
    allocated (for datagrams, the two seeks and the bitmap), and the status of
    the recipient and of opening the two sockets. *)
Record tftp_env := TftpEnv {
  e_window : Z;
  e_xwindow : Z;
  e_alloc : bool;
  e_seek1 : bool;
  e_seek2 : bool;
  e_bitmap : bool;
  e_deliver : res unit;
  e_open : res unit;
  e_open_mc : res unit }.

(** Interfaces are shut down once. *)
Definition tftp_done (t : tftp_request) (rc : res unit) : tftp_request :=
  set_tf_done (Some (default rc (tf_done t))) (set_tf_timer false t).

Section Tftp.
Context (a : arch) (path : list Z).

Definition tftp_reopen (e : tftp_env) (t : tftp_request) : tftp_request * res unit :=
  let t := set_tf_flags (Z.land (tf_flags t) (Z.lnot TFTP_FL_SEND_ACK)) t in
  (set_tf_peer no_peer t, e_open e).

Definition tftp_reopen_mc (e : tftp_env) (t : tftp_request) : tftp_request * res unit :=
  match e_open_mc e with Ok _ => (set_tf_mc true t, Ok tt) | Err err => (set_tf_mc false t, Err err) end.

(** Data for the recipient at an absolute offset. *)
Definition log_xfer (offset : Z) (data : list Z) (t : tftp_request) : tftp_request := set_tf_xfer (tf_xfer t ++ [(offset, data)]) t.

Definition tftp_presize (e : tftp_env) (t : tftp_request) (filesize : Z) : tftp_request * res unit :=
  if filesize <=? tf_filesize t then (t, Ok tt) else
  let t := set_tf_filesize filesize t in
  let t := if e_seek1 e then log_xfer filesize [] t else t in
  let t := if e_seek2 e then log_xfer 0 [] t else t in
  if tf_blksize t =? 0 then (t, Err EINVAL) else
  let num_blocks := u32 (uwrap (size_bits a) (filesize / tf_blksize t + 1)) in
  let '(bm, rc) := bitmap_resize a (e_bitmap e) (tf_bitmap t) num_blocks in
  (set_tf_bitmap bm t, rc).

(** ** Sending *)

(** A datagram, if a buffer for it was allocated. *)
Definition tftp_transmit (e : tftp_env) (dest : option (list Z)) (packet : list Z) (t : tftp_request) : tftp_request :=
  if e_alloc e then set_tf_sent (tf_sent t ++ [(dest, packet)]) t else t.

(** [snprintf] at the end of a buffer, which grows by the text and its
    terminator. *)
Definition rrq_put (buf : list Z) (tail : Z) (fmt : list Z) (args : list printf_arg) : option (list Z * Z) :=
  opt! (buf, n) := snprintf a buf tail (zlen buf - tail) fmt args in
  if zlen buf <? tail + (n + 1) then None else Some (buf, tail + (n + 1)).

(** "%s%coctet", "blksize%c%zd%ctsize%c0", "multicast%c" *)
Definition rrq_fmt : list Z := [37; 115; 37; 99; 111; 99; 116; 101; 116].
Definition sizes_fmt : list Z := [98; 108; 107; 115; 105; 122; 101; 37; 99; 37; 122; 100; 37; 99; 116; 115; 105; 122; 101; 37; 99; 48].
Definition multicast_fmt : list Z := [109; 117; 108; 116; 105; 99; 97; 115; 116; 37; 99].

(** The request; [path] is the path of the URI behind its first character. *)
Definition rrq_packet (e : tftp_env) (t : tftp_request) : option (list Z) :=
  opt! path_len := strlen a (path ++ [0]) in
  let len := 2 + path_len + 1 + 5 + 1 + 7 + 1 + 5 + 1 + 5 + 1 + 1 + 1 + 9 + 1 + 1 in
  let blksize := if TFTP_MAX_BLKSIZE <? e_xwindow e then TFTP_MAX_BLKSIZE else e_xwindow e in
  opt! buf := mem_write (replicate (Z.to_nat len) 0) 0 (be16 TFTP_RRQ) in
  opt! (buf, tail) := rrq_put buf 2 rrq_fmt [ArgStr (Some (path ++ [0])); ArgInt 0] in
  opt! (buf, tail) :=
    (if has_flag t TFTP_FL_RRQ_SIZES then rrq_put buf tail sizes_fmt [ArgInt 0; ArgInt blksize; ArgInt 0; ArgInt 0] else Some (buf, tail)) in
  opt! (buf, tail) := (if has_flag t TFTP_FL_RRQ_MULTICAST then rrq_put buf tail multicast_fmt [ArgInt 0] else Some (buf, tail)) in
  mem_read buf 0 tail.

Definition tftp_send_rrq (e : tftp_env) (t : tftp_request) : option tftp_request :=
  if negb (e_alloc e) then Some t else
  opt! packet := rrq_packet e t in Some (tftp_transmit e None packet t).

Definition tftp_send_ack (e : tftp_env) (t : tftp_request) : tftp_request :=
  tftp_transmit e (Some (tf_peer t)) (be16 TFTP_ACK ++ be16 (bitmap_first_gap (tf_bitmap t))) t.

Definition tftp_send_error (e : tftp_env) (t : tftp_request) (errcode : Z) (errmsg : list Z) : tftp_request :=
  tftp_transmit e (Some (tf_peer t)) (be16 TFTP_ERROR ++ be16 errcode ++ errmsg ++ [0]) t.

(** The timer is started with or without delay, depending on the window of the
    socket; the status is ignored by all callers. *)
Definition tftp_send_packet (e : tftp_env) (t : tftp_request) : option tftp_request :=
  let t := set_tf_timer true t in
  if negb (has_peer t) then tftp_send_rrq e t
  else if has_flag t TFTP_FL_SEND_ACK then Some (tftp_send_ack e t) else Some t.

Definition tftp_timer_expired (e : tftp_env) (t : tftp_request) (fail : bool) : option tftp_request :=
  let t := set_tf_timer false t in
  let '(t, rc) :=
    if has_flag t TFTP_FL_MTFTP_RECOVERY then
      if has_peer t then tftp_reopen e t
      else
        let t := set_tf_timeouts (u32 (tf_timeouts t + 1)) t in
        if MTFTP_MAX_TIMEOUTS <? tf_timeouts t then
          let t := set_tf_mc false (set_tf_flags TFTP_FL_RRQ_SIZES t) in
          let t := set_tf_bitmap empty_bitmap (set_tf_timer true t) in
          tftp_reopen e (set_tf_port TFTP_PORT t)
        else (t, Ok tt)
    else if fail then (t, Err ETIMEDOUT) else (t, Ok tt) in
  match rc with
  | Err err => Some (tftp_done t (Err err))
  | Ok _ => tftp_send_packet e t
  end.

(** ** Options *)

Definition tftp_process_blksize (t : tftp_request) (value : list Z) : option (tftp_request * res unit) :=
  opt! (v, end_) := strtoul a value 10 in
  let t := set_tf_blksize (u32 v) t in
  opt! c := end_ !! 0%nat in
  Some (t, if negb (c =? 0) then Err EINVAL_BLKSIZE else Ok tt).

Definition tftp_process_tsize (t : tftp_request) (value : list Z) : option (tftp_request * res unit) :=
  opt! (v, end_) := strtoul a value 10 in
  let t := set_tf_tsize v t in
  opt! c := end_ !! 0%nat in
  Some (t, if negb (c =? 0) then Err EINVAL_TSIZE else Ok tt).

(** [inet_aton] of [net/ipv4.c]: the four numbers, or none; [separator] is what
    is left of "...". *)
Fixpoint inet_aton_loop (string separator bytes : list Z) : option (option (list Z)) :=
  match separator with
  | [] => None
  | sep :: separator' =>
      opt! (value, endp) := strtoul a string 0 in
      if zlen string =? zlen endp then Some None else
      if 0xff <? value then Some None else
      let bytes := bytes ++ [value] in
      opt! c := endp !! 0%nat in
      if negb (c =? sep) then Some None else
      if sep =? 0 then Some (Some bytes) else inet_aton_loop (drop 1 endp) separator' bytes
  end.

Definition inet_aton (string : list Z) : option (option (list Z)) := inet_aton_loop string [46; 46; 46; 0] [].

(** The commas of the value are overwritten; what follows the value is not
    touched. *)
Definition tftp_process_multicast (e : tftp_env) (t : tftp_request) (value : list Z) : option (tftp_request * res unit) :=
  opt! comma := strchr value 44 in
  match comma with
  | None => Some (t, Err EINVAL_MC_NO_PORT)
  | Some i =>
      let addr := <[i := 0]> value in
      opt! comma := strchr (drop (S i) addr) 44 in
      match comma with
      | None => Some (t, Err EINVAL_MC_NO_MC)
      | Some j =>
          let addr := <[(S i + j)%nat := 0]> addr in
          let port := drop (S i) addr in
          let mc := drop (S j) port in
          opt! (v, mc_end) := strtoul a mc 0 in
          let t := if v =? 0 then set_tf_flags (Z.land (tf_flags t) (Z.lnot TFTP_FL_SEND_ACK)) t else t in
          opt! c := mc_end !! 0%nat in
          if negb (c =? 0) then Some (t, Err EINVAL_MC_INVALID_MC) else
          opt! a0 := addr !! 0%nat in
          opt! p0 := port !! 0%nat in
          if negb (a0 =? 0) && negb (p0 =? 0) then
            opt! ip := inet_aton addr in
            match ip with
            | None => Some (t, Err EINVAL_MC_INVALID_IP)
            | Some _ =>
                opt! (_, port_end) := strtoul a port 0 in
                opt! c := port_end !! 0%nat in
                if negb (c =? 0) then Some (t, Err EINVAL_MC_INVALID_PORT) else Some (tftp_reopen_mc e t)
            end
          else Some (t, Ok tt)
      end
  end.

(** "blksize", "tsize", "multicast" *)
Definition blksize_name : list Z := [98; 108; 107; 115; 105; 122; 101].
Definition tsize_name : list Z := [116; 115; 105; 122; 101].
Definition multicast_name : list Z := [109; 117; 108; 116; 105; 99; 97; 115; 116].

Definition tftp_process_option (e : tftp_env) (t : tftp_request) (name value : list Z) : option (tftp_request * res unit) :=
  opt! d := strcasecmp a name (blksize_name ++ [0]) in
  if d =? 0 then tftp_process_blksize t value else
  opt! d := strcasecmp a name (tsize_name ++ [0]) in
  if d =? 0 then tftp_process_tsize t value else
  opt! d := strcasecmp a name (multicast_name ++ [0]) in
  if d =? 0 then tftp_process_multicast e t value else
  Some (t, Ok tt).

(** The options from [name] to the end of the packet. *)
Fixpoint oack_loop (fuel : nat) (e : tftp_env) (t : tftp_request) (name : list Z) : option (tftp_request * res unit) :=
  match fuel with
  | O => None
  | S fuel' =>
      let len := zlen name in
      if len =? 0 then Some (t, Ok tt) else
      opt! n := strnlen name len in
      let value := n + 1 in
      if len <? value then Some (t, Ok tt) else
      if value =? len then Some (t, Ok tt) else
      opt! n := strnlen (drop (Z.to_nat value) name) (len - value) in
      let next := value + (n + 1) in
      if len <? next then Some (t, Ok tt) else
      opt! (t, rc) := tftp_process_option e t name (drop (Z.to_nat value) name) in
      match rc with
      | Err err => Some (t, Err err)
      | Ok _ => oack_loop fuel' e t (drop (Z.to_nat next) name)
      end
  end.

(** ** Receiving *)

(** The status a handler returns, which closes the request if it is an error. *)
Definition finish (t : tftp_request) (rc : res unit) : tftp_request * res unit :=
  match rc with Ok _ => (t, Ok tt) | Err err => (tftp_done t (Err err), Err err) end.

Definition tftp_rx_oack (e : tftp_env) (t : tftp_request) (packet : list Z) : option (tftp_request * res unit) :=
  if zlen packet <? 2 then Some (finish t (Err EINVAL)) else
  opt! (t, rc) := oack_loop (S (length packet)) e t (drop 2 packet) in
  match rc with
  | Err err => Some (finish t (Err err))
  | Ok _ =>
      let '(t, rc) := if negb (tf_tsize t =? 0) then tftp_presize e t (tf_tsize t) else (t, Ok tt) in
      match rc with
      | Err err => Some (finish t (Err err))
      | Ok _ => opt! t := tftp_send_packet e t in Some (t, Ok tt)
      end
  end.

(** The number of the block with number [number] in the packet, from zero; none
    for number zero at the beginning. *)
Definition block_index (t : tftp_request) (number : Z) : option Z :=
  let block := Z.land (u32 (bitmap_first_gap (tf_bitmap t) + 1)) (Z.lnot 0xffff) in
  if (number =? 0) && (block =? 0) then None else Some (u32 (block + (number - 1))).

Definition tftp_rx_data (e : tftp_env) (t : tftp_request) (packet : list Z) : option (tftp_request * res unit) :=
  if zlen packet <? 4 then Some (finish t (Err EINVAL)) else
  opt! number := mem_read packet 2 2 in
  match block_index t (be_val number) with
  | None => Some (finish t (Err EINVAL))
  | Some block =>
      let offset := u32 (block * tf_blksize t) in
      let data := drop 4 packet in
      if tf_blksize t <? zlen data then Some (finish t (Err EINVAL)) else
      match e_deliver e with
      | Err err => Some (finish t (Err err))
      | Ok _ =>
          let t := log_xfer offset data t in
          let '(t, rc) := tftp_presize e t (uwrap (size_bits a) (offset + zlen data)) in
          match rc with
          | Err err => Some (finish t (Err err))
          | Ok _ =>
              opt! bm := bitmap_set a (tf_bitmap t) block in
              let t := set_tf_bitmap bm t in
              opt! t := tftp_send_packet e t in
              Some (if bitmap_full (tf_bitmap t) then tftp_done t (Ok tt) else t, Ok tt)
          end
      end
  end.

Definition tftp_errcode_to_rc (errcode : Z) : errno :=
  if errcode =? TFTP_ERR_FILE_NOT_FOUND then ENOENT
  else if errcode =? TFTP_ERR_ACCESS_DENIED then EACCES
  else if errcode =? TFTP_ERR_ILLEGAL_OP then ENOTTY
  else ENOTSUP.

Definition tftp_rx_error (t : tftp_request) (packet : list Z) : option (tftp_request * res unit) :=
  if zlen packet <? 4 then Some (t, Err EINVAL) else
  opt! errcode := mem_read packet 2 2 in
  Some (tftp_done t (Err (tftp_errcode_to_rc (be_val errcode))), Ok tt).

(** [src] is the source address of the datagram, if it is known. *)
Definition tftp_rx (e : tftp_env) (t : tftp_request) (packet : list Z) (src : option (list Z)) : option (tftp_request * res unit) :=
  if zlen packet <? 2 then Some (t, Err EINVAL) else
  match src with
  | None => Some (t, Err EINVAL)
  | Some st_src =>
      if has_peer t && bool_decide (tf_peer t <> st_src) then Some (t, Err EINVAL) else
      let t := if has_peer t then t else set_tf_peer st_src t in
      opt! opcode := mem_read packet 0 2 in
      let opcode := be_val opcode in
      if opcode =? TFTP_OACK then tftp_rx_oack e t packet
      else if opcode =? TFTP_DATA then tftp_rx_data e t packet
      else if opcode =? TFTP_ERROR then tftp_rx_error t packet
      else Some (t, Err EINVAL)
  end.

Definition tftp_socket_deliver (e : tftp_env) (t : tftp_request) (packet : list Z) (src : option (list Z)) : option (tftp_request * res unit) :=
  tftp_rx e (set_tf_flags (Z.lor (tf_flags t) TFTP_FL_SEND_ACK) t) packet src.

Definition tftp_xfer_window (t : tftp_request) : Z := tf_blksize t.

(** "TFTP Aborted" *)
Definition aborted_text : list Z := [84; 70; 84; 80; 32; 65; 98; 111; 114; 116; 101; 100].

Definition tftp_close (e : tftp_env) (t : tftp_request) (rc : res unit) : tftp_request :=
  tftp_done (tftp_send_error e t 0 aborted_text) rc.
End Tftp.

(** ** Opening *)

(** The multicast address and port, which are static. *)
Record mtftp_socket := MtftpSocket { mt_addr : list Z; mt_port : Z }.
Definition tftp_mtftp_socket : mtftp_socket := MtftpSocket [0xef; 0xff; 0x01; 0x01] 3001.
Definition tftp_set_mtftp_address (address : list Z) (s : mtftp_socket) : mtftp_socket := MtftpSocket address (mt_port s).
Definition tftp_set_mtftp_port (port : Z) (s : mtftp_socket) : mtftp_socket := MtftpSocket (mt_addr s) (port mod 2 ^ 16).

(** [alloc] is the result of [zalloc]; [multicast] is whether a multicast
    address is given. *)
Definition tftp_core_open (a : arch) (e : tftp_env) (alloc : bool) (u : uri) (default_port : Z) (multicast : bool) (flags : Z) : option (res tftp_request) :=
  match host u with
  | None => Some (Err EINVAL)
  | Some _ =>
      match path u with
      | None => Some (Err EINVAL)
      | Some p =>
          opt! c := (p ++ [0]) !! 0%nat in
          if negb (c =? 47) then Some (Err EINVAL) else
          if negb alloc then Some (Err ENOMEM) else
          opt! port := uri_port a (Some u) default_port in
          let t := TftpRequest TFTP_DEFAULT_BLKSIZE 0 port no_peer flags 0 empty_bitmap 0 false false [] [] None in
          let '(t, rc) := tftp_reopen e t in
          match rc with
          | Err err => Some (Err err)
          | Ok _ =>
              let '(t, rc) := if multicast then tftp_reopen_mc e t else (t, Ok tt) in
              match rc with
              | Err err => Some (Err err)
              | Ok _ => Some (Ok (set_tf_timer true t))
              end
          end
      end
  end.

Definition tftp_open (a : arch) (e : tftp_env) (alloc : bool) (u : uri) := tftp_core_open a e alloc u TFTP_PORT false TFTP_FL_RRQ_SIZES.
Definition tftm_open (a : arch) (e : tftp_env) (alloc : bool) (u : uri) :=
  tftp_core_open a e alloc u TFTP_PORT false (Z.lor TFTP_FL_RRQ_SIZES TFTP_FL_RRQ_MULTICAST).
Definition mtftp_open (a : arch) (e : tftp_env) (alloc : bool) (u : uri) := tftp_core_open a e alloc u MTFTP_PORT true TFTP_FL_MTFTP_RECOVERY.

(** ** Settings *)

(** "%d.%d.%d.%d" and "tftp://%s/" *)
Definition ntoa_fmt : list Z := [37; 100; 46; 37; 100; 46; 37; 100; 46; 37; 100].
Definition server_fmt : list Z := [116; 102; 116; 112; 58; 47; 47; 37; 115; 47].

(** [inet_ntoa] of [net/ipv4.c] writes to a static buffer of 16 bytes. *)
Definition inet_ntoa (a : arch) (addr : list Z) : option (list Z) :=
  opt! text := vcprintf a ntoa_fmt (ArgInt <$> addr) in
  if 16 <? zlen text + 1 then None else Some text.

(** [churi] of [core/cwuri.c]; a relative URI is resolved into a new object,
    for which there may be no memory. *)
Definition churi (a : arch) (alloc : bool) (cwuri new : option uri) : option (option uri) :=
  match new with
  | None => Some None
  | Some u =>
      if bool_decide (is_Some cwuri) && negb (uri_is_absolute u) && negb alloc then Some None
      else opt! r := resolve_uri a cwuri u in Some (Some r)
  end.

(** The static address and the working URI; [new_server] is the setting, [alloc]
    the result of the allocation in [parse_uri]. *)
Definition tftp_apply_settings (a : arch) (find_parameters : option (list Z) -> option nat) (alloc : bool) (new_server tftp_server : list Z) (cwuri : option uri)
  : option (list Z * option uri * res unit) :=
  if existsb (fun b => negb (b =? 0)) new_server && bool_decide (new_server <> tftp_server) then
    opt! ip := inet_ntoa a new_server in
    opt! (uri_string, _) := snprintf a (replicate 32 0) 0 32 server_fmt [ArgStr (Some (ip ++ [0]))] in
    if negb alloc then Some (tftp_server, cwuri, Err ENOMEM) else
    opt! u := parse_uri a find_parameters (until_nul uri_string) in
    opt! cwuri := churi a true cwuri (Some u) in
    Some (new_server, cwuri, Ok tt)
  else Some (tftp_server, cwuri, Ok tt).

(** 10.0.2.15, and the same setting again. *)
Example apply_settings_demo : let '(server, cwuri) := ([10; 0; 2; 15], Some (Uri (Some [116; 102; 116; 112]) None None None
    (Some [49; 48; 46; 48; 46; 50; 46; 49; 53]) None (Some [47]) (Some [47]) None None None)) in
  tftp_apply_settings Arch32 (fun _ => None) true server [0; 0; 0; 0] None = Some (server, cwuri, Ok tt)
  /\ tftp_apply_settings Arch32 (fun _ => None) false server server cwuri = Some (server, cwuri, Ok tt).
Proof. split; vm_compute; reflexivity. Qed.
