(* ===== verification/TftpParts.v ===== *)
(** * TFTP: requests, the recipient and the bitmap

    What [tftp_send_rrq] puts on the wire, what a transfer buffer makes of the
    data a request hands on, and how the bitmap grows. *)
From S2P Require Import Prelude Strings Memory Printf Buffers Uri Tftp.

(** ** Requests that are sent *)

(** The texts of the parts of a request. *)
Lemma rrq_text a path : nonul path -> vcprintf a rrq_fmt [ArgStr (Some (path ++ [0])); ArgInt 0] = Some (path ++ [0; 111; 99; 116; 101; 116]).
Proof.
  intros Hp. unfold vcprintf, rrq_fmt. cbn [length]. pose proof (until_nul_cstr path [] Hp : until_nul (path ++ [0]) = path) as E.
  rewrite (vcprintf_conv a _ _ _ 0 0 INT_LEN 115 [37; 99; 111; 99; 116; 101; 116] path [ArgInt 0]); [|reflexivity|].
  - rewrite (vcprintf_conv a _ _ _ 0 0 INT_LEN 99 [111; 99; 116; 101; 116] [0] []); reflexivity.
  - unfold convert. cbn. by rewrite E.
Qed.

(** "blksize", the block size, "tsize" and "0" with zeros between them *)
Definition sizes_text (a : arch) (n : Z) : list Z := blksize_name ++ [0] ++ format_decimal a n 0 0 ++ [0] ++ tsize_name ++ [0; 48].

Lemma sizes_text_ok a n : 0 <= n <= TFTP_MAX_BLKSIZE ->
  vcprintf a sizes_fmt [ArgInt 0; ArgInt n; ArgInt 0; ArgInt 0] = Some (sizes_text a n) /\ bytes_ok (sizes_text a n) /\ zlen (sizes_text a n) <= 20.
Proof.
  intros Hn. refine (range_dec 0 1433 (fun n => vcprintf a sizes_fmt [ArgInt 0; ArgInt n; ArgInt 0; ArgInt 0] = Some (sizes_text a n)
    /\ Forall byte_ok (sizes_text a n) /\ zlen (sizes_text a n) <= 20) _ n _); [destruct a; vm_compute; reflexivity|unfold TFTP_MAX_BLKSIZE in Hn; lia].
Qed.

Lemma rrq_put_ok a pre tail fmt args out : vcprintf a fmt args = Some out -> bytes_ok out -> (length out < length tail)%nat ->
  rrq_put a (pre ++ tail) (zlen pre) fmt args = Some ((pre ++ out ++ [0]) ++ drop (S (length out)) tail, zlen (pre ++ out ++ [0])).
Proof.
  intros E Hb Hl. unfold rrq_put. rewrite zlen_app. replace (zlen pre + zlen tail - zlen pre) with (zlen tail) by lia.
  pose proof (vssnprintf_fits a pre tail (zlen tail) fmt args out E Hb ltac:(lia) Hl) as F. unfold vssnprintf in F.
  rewrite (proj2 (Z.ltb_ge (zlen tail) 0)) in F by lia. unfold snprintf. rewrite F. rewrite !zlen_app. cbn [length]. rewrite length_drop.
  destruct (Z.ltb_spec (zlen pre + (zlen out + Z.of_nat (S (length tail - S (length out))))) (zlen pre + (zlen out + 1))); [lia|].
  rewrite <- !app_assoc. cbn [app]. do 2 f_equal.
Qed.

Lemma rrq_option_ok a (c : bool) pre n fmt args out : vcprintf a fmt args = Some out -> bytes_ok out -> (length out < n)%nat ->
  exists n', (n <= n' + S (length out))%nat /\
  (if c then rrq_put a (pre ++ replicate n 0) (zlen pre) fmt args else Some (pre ++ replicate n 0, zlen pre))
  = Some ((pre ++ (if c then out ++ [0] else [])) ++ replicate n' 0, zlen (pre ++ (if c then out ++ [0] else []))).
Proof.
  intros E Hb Hl. destruct c.
  - exists (n - S (length out))%nat. split; [lia|]. rewrite (rrq_put_ok a pre _ fmt args out) by (rewrite ?length_replicate; done). by rewrite drop_replicate.
  - exists n. split; [lia|]. by rewrite app_nil_r.
Qed.

(** The request as RFC 1350, 2347, 2348, 2349 and 2090 define it. *)
Definition rrq_bytes (a : arch) (path : list Z) (blksize : Z) (sizes multicast : bool) : list Z :=
  be16 TFTP_RRQ ++ (path ++ [0; 111; 99; 116; 101; 116] ++ [0]) ++ (if sizes then sizes_text a blksize ++ [0] else [])
  ++ (if multicast then multicast_name ++ [0; 0] else []).

Definition env_ok (e : tftp_env) : Prop := 0 <= e_xwindow e.

Lemma rrq_packet_ok a path e t : nonul path -> zlen path < 2 ^ 31 -> env_ok e ->
  rrq_packet a path e t
  = Some (rrq_bytes a path (Z.min TFTP_MAX_BLKSIZE (e_xwindow e)) (has_flag t TFTP_FL_RRQ_SIZES) (has_flag t TFTP_FL_RRQ_MULTICAST)).
Proof.
  intros Hp Hl He. unfold rrq_packet, strlen. pose proof (Z.pow_le_mono_r 2 32 (size_bits a) ltac:(lia) (size_bits_large a)).
  rewrite (strnlen_cstr path []) by (done || (unfold SIZE_MAX; lia)).
  set (blk := if TFTP_MAX_BLKSIZE <? e_xwindow e then TFTP_MAX_BLKSIZE else e_xwindow e).
  replace (Z.min TFTP_MAX_BLKSIZE (e_xwindow e)) with blk by (unfold blk; case_if; lia).
  assert (Hblk : 0 <= blk <= TFTP_MAX_BLKSIZE) by (unfold blk, env_ok, TFTP_MAX_BLKSIZE in *; case_if; lia). clearbody blk.
  replace (Z.to_nat _) with (2 + (length path + 40))%nat by lia. rewrite replicate_add.
  pose proof (mem_write_at [] (replicate 2 0) (be16 TFTP_RRQ) (replicate (length path + 40) 0) eq_refl) as W. cbn [app length] in W.
  change (Z.of_nat 0) with 0 in W. rewrite W. clear W.
  assert (Hpb : bytes_ok path) by (eapply Forall_impl; [exact Hp|]; unfold byte_ok; cbn; lia).
  change 2 with (zlen (be16 TFTP_RRQ)) at 1.
  rewrite (rrq_put_ok a (be16 TFTP_RRQ) _ rrq_fmt _ _ (rrq_text a path Hp)); [|apply Forall_app_2; [done|solve_bytes]|rewrite length_app, length_replicate; cbn; lia].
  rewrite drop_replicate, length_app. cbn [length]. destruct (sizes_text_ok a blk Hblk) as (Es & Hs & Hls).
  edestruct (rrq_option_ok a (has_flag t TFTP_FL_RRQ_SIZES)) as (n1 & Hn1 & ->); [exact Es|exact Hs|lia|].
  match goal with |- context [rrq_put a (?p ++ _) _ multicast_fmt] => destruct (rrq_option_ok a (has_flag t TFTP_FL_RRQ_MULTICAST) p n1
    multicast_fmt [ArgInt 0] (multicast_name ++ [0])) as (n2 & _ & ->); [by destruct a|solve_bytes|cbn; lia|] end.
  match goal with |- mem_read (?p ++ ?r) _ _ = _ => rewrite (mem_read_at [] p r : mem_read (p ++ r) 0 (zlen p) = Some p) end.
  f_equal. unfold rrq_bytes. by rewrite <- !app_assoc.
Qed.

(** ** The recipient *)

(** What is given to the recipient, written to a transfer buffer that can grow. *)
Fixpoint replay (a : arch) (junk : list Z) (xb : xfer_buffer) (log : list (Z * list Z)) : option xfer_buffer :=
  match log with
  | [] => Some xb
  | (offset, data) :: log =>
      opt! (xb, rc) := xferbuf_deliver a true junk xb data true offset in
      match rc with Ok _ => replay a junk xb log | Err _ => None end
  end.

Definition empty_buffer : xfer_buffer := XferBuffer [] 0 0.

(** The entry [(offset, data)] is a piece of the file. *)
Definition piece (file : list Z) (entry : Z * list Z) : Prop :=
  0 <= entry.1 /\ entry.1 + zlen entry.2 <= zlen file /\ entry.2 = take (length entry.2) (drop (Z.to_nat entry.1) file).

Definition covers (log : list (Z * list Z)) (j : nat) : Prop := exists entry, entry ∈ log /\ entry.1 <= Z.of_nat j < entry.1 + zlen entry.2.

(** A buffer that holds the pieces of the file in [log]. *)
Definition holds (file : list Z) (log : list (Z * list Z)) (xb : xfer_buffer) : Prop :=
  xb_ok xb /\ xb_len xb <= zlen file /\ (forall entry, entry ∈ log -> entry.1 + zlen entry.2 <= xb_len xb)
  /\ (forall j, covers log j -> xb_data xb !! j = file !! j).

Lemma write_lookup mem off x mem' (j : nat) : mem_write mem off x = Some mem' ->
  mem' !! j = if decide (off <= Z.of_nat j < off + zlen x) then x !! (j - Z.to_nat off)%nat else mem !! j.
Proof.
  intros H. apply mem_write_Some in H as (A & H & R & -> & <- & HL & ->). rewrite Nat2Z.id. case_decide.
  - rewrite lookup_app_r, lookup_app_l by lia. done.
  - destruct (decide (j < length A)%nat); [by rewrite !lookup_app_l by lia|]. rewrite !(lookup_app_r A), !lookup_app_r by lia. f_equal. lia.
Qed.

Lemma deliver_piece a junk file log xb entry : holds file log xb -> piece file entry -> zlen file < 2 ^ size_bits a ->
  exists xb', xferbuf_deliver a true junk xb entry.2 true entry.1 = Some (xb', Ok tt) /\ holds file (log ++ [entry]) xb'.
Proof.
  intros (Hok & Hl & Hin & Hc) (H0 & H1 & H2) Hf. destruct entry as [off d]. cbn [fst snd] in *. unfold xferbuf_deliver, xferbuf_write.
  rewrite Z.add_0_l, !(uwrap_small _ off), !uwrap_small by lia. rewrite (proj2 (Z.ltb_ge _ off)) by lia.
  destruct (ensure_size_ok junk xb (off + zlen d) Hok ltac:(lia)) as (xb1 & more & E1 & Hd1 & Hok1 & Hl1 & _). rewrite E1. unfold xferbuf_malloc_write.
  destruct (mem_write_split (xb_data xb1) off d) as (mem' & Ew & Hl' & _); [lia|unfold xb_ok in *; lia|]. rewrite Ew. eexists. split; [done|].
  unfold holds, xb_ok in *. cbn [xb_data xb_len]. split; [lia|]. split; [lia|]. split.
  - intros entry [He| ->%list_elem_of_singleton]%elem_of_app; [specialize (Hin _ He); lia|cbn [fst snd]; lia].
  - intros j Hj. rewrite (write_lookup _ _ _ _ j Ew). case_decide as Hd.
    + rewrite H2, lookup_take, lookup_drop, decide_True by lia. f_equal. lia.
    + destruct Hj as (entry & [He| ->%list_elem_of_singleton]%elem_of_app & Hj); [|done]. specialize (Hin _ He).
      rewrite Hd1, lookup_app_l by lia. apply Hc. by exists entry.
Qed.

Lemma replay_pieces a junk file log done xb : holds file done xb -> Forall (piece file) log -> zlen file < 2 ^ size_bits a ->
  exists xb', replay a junk xb log = Some xb' /\ holds file (done ++ log) xb'.
Proof.
  intros Hh Hl Hf. revert done xb Hh. induction Hl as [|[off d] log Hp Hl IH]; intros done xb Hh; cbn [replay].
  - exists xb. by rewrite app_nil_r.
  - destruct (deliver_piece a junk file done xb (off, d) Hh Hp Hf) as (xb1 & E & H1). cbn [fst snd] in E. rewrite E.
    destruct (IH _ _ H1) as (xb' & E' & H'). exists xb'. split; [done|]. by rewrite <- app_assoc in H'.
Qed.

(** Pieces that cover the file make up the file. *)
Lemma replay_file a junk file log : Forall (piece file) log -> zlen file < 2 ^ size_bits a -> (forall j, (j < length file)%nat -> covers log j) ->
  exists xb, replay a junk empty_buffer log = Some xb /\ xb_data xb = file /\ xb_len xb = zlen file.
Proof.
  intros Hl Hf Hc. destruct (replay_pieces a junk file log [] empty_buffer) as (xb & E & Hok & Hlen & Hin & Hd); [|done|done|].
  { split; [done|]. split; [cbn; lia|]. split; [intros entry He|intros j (entry & He & _)]; by apply not_elem_of_nil in He. }
  cbn [app] in *. exists xb. split; [done|]. assert (El : xb_len xb = zlen file).
  { destruct (decide (length file = 0)%nat) as [E0|N]; [unfold xb_ok in Hok; lia|].
    destruct (Hc (length file - 1)%nat ltac:(lia)) as (entry & He & Hj). specialize (Hin _ He). lia. }
  split; [|done]. apply list_eq_same_length with (length file); [done|unfold xb_ok in Hok; lia|]. intros j x y Hj Hx Hy.
  rewrite (Hd j (Hc j Hj)) in Hx. congruence.
Qed.

(** ** Growing *)

(** The file is larger than it was known to be. *)
Lemma presize_larger a e t fs : tf_filesize t < fs -> tf_blksize t <> 0 -> 0 <= fs / tf_blksize t < 2 ^ 32 - 1 -> exists more,
  Forall (fun entry => entry = (fs, []) \/ entry = (0, [])) more
  /\ tftp_presize a e t fs = (let '(bm, rc) := bitmap_resize a (e_bitmap e) (tf_bitmap t) (fs / tf_blksize t + 1) in
      (set_tf_bitmap bm (set_tf_filesize fs (set_tf_xfer (tf_xfer t ++ more) t)), rc)).
Proof.
  intros Hfs Hblk Hn. exists ((if e_seek1 e then [(fs, [])] else []) ++ (if e_seek2 e then [(0, [])] else [])). split.
  { apply Forall_app_2; case_match; repeat constructor; by left + by right. }
  unfold tftp_presize. rewrite (proj2 (Z.leb_gt fs _)) by lia. set (u := if e_seek2 e then _ else _).
  assert (Eu : u = set_tf_filesize fs (set_tf_xfer (tf_xfer t ++ (if e_seek1 e then [(fs, [])] else []) ++ (if e_seek2 e then [(0, [])] else [])) t)).
  { unfold u, log_xfer. destruct (e_seek1 e), (e_seek2 e); cbn; rewrite ?app_nil_r, <- ?app_assoc; by destruct t. }
  clearbody u. subst u. cbn [tf_blksize set_tf_filesize set_tf_xfer tf_bitmap]. rewrite (proj2 (Z.eqb_neq _ 0)) by lia.
  pose proof (Z.pow_le_mono_r 2 32 (size_bits a) ltac:(lia) (size_bits_large a)). by rewrite (uwrap_small (size_bits a)), uwrap_small by lia.
Qed.

Lemma resize_alloc a (alloc : bool) bm n : bitmap_resize a alloc bm n = bitmap_resize a true bm n \/ alloc = false /\ bitmap_resize a alloc bm n = (bm, Err ENOMEM).
Proof. unfold bitmap_resize. destruct alloc; [by left|]. destruct (_ =? _); cbn; [by left|by right]. Qed.
