(* ===== verification/TftpSafe.v ===== *)
(** * TFTP: packets with arbitrary contents

    The options of an acknowledgement are read inside the packet whatever its
    bytes are, and in a request whose bitmap fits its file size so is every
    packet, with one exception. *)
From S2P Require Import Prelude Strings Memory Printf Buffers Uri Tftp TftpParts.

(** ** Strings that end somewhere in their object *)

Definition terminated (l : list Z) : Prop := 0 ∈ l.

Lemma terminated_tail c l : terminated (c :: l) -> c <> 0 -> terminated l.
Proof. unfold terminated. rewrite elem_of_cons. intros [?|?]; [congruence|done]. Qed.

Lemma terminated_head l : terminated l -> exists c, l !! 0%nat = Some c.
Proof. intros H. destruct l as [|c l]; [by apply not_elem_of_nil in H|]. by exists c. Qed.

Lemma terminated_insert l i : terminated l -> terminated (<[i := 0]> l).
Proof.
  unfold terminated. intros H. destruct (decide (i < length l)%nat) as [Hl|Hl]; [|by rewrite list_insert_ge by lia].
  apply list_elem_of_lookup. exists i. by apply list_lookup_insert_eq.
Qed.

Lemma strnlen_terminated l : exists n, strnlen l (zlen l) = Some n /\ 0 <= n <= zlen l /\ (n < zlen l -> l !! Z.to_nat n = Some 0).
Proof.
  induction l as [|c l (n & E & Hn & Ht)]; [exists 0; by split_and!; cbn; try lia|]. cbn [strnlen length].
  rewrite (proj2 (Z.eqb_neq _ 0)) by lia. destruct (Z.eqb_spec c 0) as [->|Hc]; [exists 0; split_and!; done || lia|].
  replace (Z.of_nat (S (length l)) - 1) with (zlen l) by lia. rewrite E. exists (n + 1). split; [done|]. split; [lia|]. intros H.
  replace (Z.to_nat (n + 1)) with (S (Z.to_nat n)) by lia. apply Ht. lia.
Qed.

Lemma strchr_terminated l c : terminated l -> c <> 0 -> exists r, strchr l c = Some r /\ forall i, r = Some i -> terminated (drop (S i) l).
Proof.
  intros H Hc. induction l as [|x l IH]; [by apply not_elem_of_nil in H|]. cbn [strchr]. destruct (Z.eqb_spec x c) as [->|Hx].
  - eexists. split; [done|]. intros i [= <-]. cbn. by apply (terminated_tail c).
  - destruct (Z.eqb_spec x 0) as [->|Hx0]; [eexists; split; [done|]; by intros i|]. destruct (IH (terminated_tail x l H Hx0)) as (r & -> & Hr).
    eexists. split; [done|]. intros i Hi. destruct r as [j|]; [|done]. injection Hi as <-. cbn [drop]. by apply Hr.
Qed.

Lemma skip_space_terminated l : terminated l -> terminated (skip_space l).
Proof.
  induction l as [|c l IH]; [done|]. intros H. cbn. destruct (isspace c) eqn:E; [|done]. apply IH, (terminated_tail c); [done|]. intros ->. discriminate E.
Qed.

Lemma strtoul_digits_terminated w base l v : terminated l -> 0 <= base <= 16 -> exists v' e, strtoul_digits w base l v = Some (v', e) /\ terminated e.
Proof.
  intros H Hb. revert v. induction l as [|c l IH]; intros v; [by apply not_elem_of_nil in H|]. cbn [strtoul_digits]. rewrite (uwrap_small 32 base) by lia.
  destruct (Z.leb_spec base (digit_value c)) as [|Hlt]; [by eexists _, _|]. apply IH, (terminated_tail c); [done|]. intros ->.
  change (digit_value 0) with 4294967248 in Hlt. lia.
Qed.

Lemma strtoul_terminated a l base : terminated l -> base = 0 \/ base = 10 -> exists v e, strtoul a l base = Some (v, e) /\ terminated e.
Proof.
  intros H Hb. unfold strtoul, strtoul_width, strtoul_pre. pose proof (skip_space_terminated l H) as Hs.
  set (s := skip_space l) in *. clearbody s. clear H. destruct s as [|c s]; [by apply not_elem_of_nil in Hs|].
  assert (Hsign : exists s' neg, (if c =? 45 then (s, true) else if c =? 43 then (s, false) else (c :: s, false)) = (s', neg) /\ terminated s').
  { destruct (Z.eqb_spec c 45) as [->|]; [eexists _, _; split; [done|]; by apply (terminated_tail 45)|].
    destruct (Z.eqb_spec c 43) as [->|]; [eexists _, _; split; [done|]; by apply (terminated_tail 43)|by eexists _, _]. }
  destruct Hsign as (s' & neg & -> & Hs').
  assert (Hbase : exists s2 b2, (if base =? 0 then match s' with
      | c :: s => if c =? 48 then match s with x :: s' => if Z.land x (Z.lnot 0x20) =? 88 then Some (s', neg, 16) else Some (s, neg, 8) | [] => None end
                  else Some (s', neg, 10)
      | [] => None end else Some (s', neg, base)) = Some (s2, neg, b2) /\ terminated s2 /\ 0 <= b2 <= 16).
  { destruct (Z.eqb_spec base 0); [|by exists s', base; split_and!; done || lia]. destruct s' as [|d s']; [by apply not_elem_of_nil in Hs'|].
    destruct (Z.eqb_spec d 48) as [->|]; [|by eexists _, _; split_and!; done || lia]. pose proof (terminated_tail 48 s' Hs' ltac:(done)) as Ht.
    destruct s' as [|x s']; [by apply not_elem_of_nil in Ht|]. destruct (Z.eqb_spec (Z.land x (Z.lnot 0x20)) 88) as [Ex|]; eexists _, _; (split; [done|]); split; try lia; [|done].
    apply (terminated_tail x); [done|]. intros ->. discriminate Ex. }
  destruct Hbase as (s2 & b2 & -> & H2 & Hb2). destruct (strtoul_digits_terminated (size_bits a) b2 s2 0 H2 Hb2) as (v & e & -> & He). by eexists _, _.
Qed.

Lemma strcasecmp_terminated a l k : terminated l -> zlen k + 1 < SIZE_MAX a -> Forall (fun c => c <> 0 /\ toupper c <> 0) k -> is_Some (strcasecmp a l (k ++ [0])).
Proof.
  unfold strcasecmp. generalize (SIZE_MAX a) as max. revert l. induction k as [|y k IH]; intros l max Hl Hm Hk; (destruct l as [|x l]; [by apply not_elem_of_nil in Hl|]).
  - cbn in *. destruct (Z.eqb_spec max 0); [lia|]. destruct (Z.eqb_spec (toupper x - 0) 0) as [E|]; cbn [negb]; [|done].
    destruct (Z.eqb_spec x 0) as [|Hx]; [done|]. unfold toupper, islower in E. case_if_in E; lia.
  - cbn in *. apply Forall_cons in Hk as [_ Hk]. destruct (Z.eqb_spec max 0); [lia|]. destruct (toupper x - toupper y =? 0); cbn [negb]; [|done].
    destruct (Z.eqb_spec x 0) as [|Hx]; [done|]. apply IH; [by apply (terminated_tail x)|lia|done].
Qed.

(** ** Options *)

Section Safe.
Context (a : arch) (path : list Z).

Lemma inet_aton_terminated l : terminated l -> is_Some (inet_aton a l).
Proof.
  assert (H : forall separator bytes l, terminated l -> is_Some (inet_aton_loop a l (separator ++ [0]) bytes)).
  { intros separator. induction separator as [|sep separator IH]; intros bytes l' Hl; cbn [app inet_aton_loop];
      destruct (strtoul_terminated a l' 0 Hl ltac:(by left)) as (v & e & -> & He); (case_if; [done|]); (case_if; [done|]);
      destruct (terminated_head e He) as (c & Ec); rewrite Ec; (case_if; [done|]); (case_if; [done|]); [done|].
    apply IH. destruct e as [|x e]; [done|]. injection Ec as ->. apply (terminated_tail c); [done|congruence]. }
  apply (H [46; 46; 46]).
Qed.

Lemma blksize_terminated t l : terminated l -> is_Some (tftp_process_blksize a t l).
Proof.
  intros H. unfold tftp_process_blksize. destruct (strtoul_terminated a l 10 H ltac:(by right)) as (v & e & -> & He). by destruct (terminated_head e He) as (c & ->).
Qed.

Lemma tsize_terminated t l : terminated l -> is_Some (tftp_process_tsize a t l).
Proof.
  intros H. unfold tftp_process_tsize. destruct (strtoul_terminated a l 10 H ltac:(by right)) as (v & e & -> & He). by destruct (terminated_head e He) as (c & ->).
Qed.

Lemma multicast_terminated e t l : terminated l -> is_Some (tftp_process_multicast a e t l).
Proof.
  intros H. unfold tftp_process_multicast. destruct (strchr_terminated l 44 H ltac:(done)) as ([i|] & -> & Hi); [|done].
  specialize (Hi i eq_refl). rewrite drop_insert_lt by lia. destruct (strchr_terminated _ 44 Hi ltac:(done)) as ([j|] & -> & Hj); [|done]. specialize (Hj j eq_refl).
  set (addr := <[(S i + j)%nat := 0]> (<[i := 0]> l)). assert (Haddr : terminated addr) by (by apply terminated_insert, terminated_insert).
  assert (Eport : drop (S i) addr = <[j := 0]> (drop (S i) l)).
  { unfold addr. rewrite drop_insert_ge by lia. rewrite drop_insert_lt by lia. f_equal. lia. }
  rewrite Eport. assert (Hport : terminated (<[j := 0]> (drop (S i) l))) by by apply terminated_insert. rewrite drop_insert_lt by lia.
  destruct (strtoul_terminated a _ 0 Hj ltac:(by left)) as (v & me & -> & Hme). destruct (terminated_head me Hme) as (c & ->). case_if; [done|].
  destruct (terminated_head addr Haddr) as (a0 & ->), (terminated_head _ Hport) as (p0 & ->). case_if; [|done].
  destruct (inet_aton_terminated addr Haddr) as ([ip|] & ->); [|done]. destruct (strtoul_terminated a _ 0 Hport ltac:(by left)) as (pv & pe & -> & Hpe).
  destruct (terminated_head pe Hpe) as (pc & ->). by case_if.
Qed.

Lemma option_terminated e t name value : terminated name -> terminated value -> is_Some (tftp_process_option a e t name value).
Proof.
  intros Hn Hv. unfold tftp_process_option. assert (Hm : 11 < SIZE_MAX a) by (by destruct a).
  destruct (strcasecmp_terminated a name blksize_name Hn) as (d1 & ->); [cbn; lia|repeat constructor; done|]. case_if; [by apply blksize_terminated|].
  destruct (strcasecmp_terminated a name tsize_name Hn) as (d2 & ->); [cbn; lia|repeat constructor; done|]. case_if; [by apply tsize_terminated|].
  destruct (strcasecmp_terminated a name multicast_name Hn) as (d3 & ->); [cbn; lia|repeat constructor; done|]. case_if; [by apply multicast_terminated|done].
Qed.

(** The loop ends, and stays inside the packet. *)
Lemma oack_loop_total fuel e t name : (length name < fuel)%nat -> is_Some (oack_loop a fuel e t name).
Proof.
  revert t name. induction fuel as [|fuel IH]; intros t name Hf; [lia|]. cbn [oack_loop]. case_if; [done|].
  destruct (strnlen_terminated name) as (n & -> & Hn & Ht). case_if; [done|]. case_if; [done|].
  assert (Hname : terminated name) by (apply list_elem_of_lookup; exists (Z.to_nat n); apply Ht; lia).
  destruct (strnlen_terminated (drop (Z.to_nat (n + 1)) name)) as (m & Em & Hm & Htm). rewrite length_drop in *.
  replace (Z.of_nat (length name - Z.to_nat (n + 1))) with (zlen name - (n + 1)) in * by lia. rewrite Em. case_if; [done|].
  assert (Hvalue : terminated (drop (Z.to_nat (n + 1)) name)) by (apply list_elem_of_lookup; exists (Z.to_nat m); apply Htm; lia).
  destruct (option_terminated e t name _ Hname Hvalue) as ([t' rc] & ->). destruct rc; [|done]. apply IH. rewrite length_drop. lia.
Qed.
(** ** Packets *)

Hypothesis Hpath : nonul path /\ zlen path < 2 ^ 31.

Lemma send_total e t : env_ok e -> is_Some (tftp_send_packet a path e t).
Proof.
  intros He. unfold tftp_send_packet. case_if; [|by case_if]. unfold tftp_send_rrq. case_if; [done|]. by rewrite rrq_packet_ok by done || apply Hpath.
Qed.

Lemma rx_oack_total e t packet : env_ok e -> is_Some (tftp_rx_oack a path e t packet).
Proof.
  intros He. unfold tftp_rx_oack. case_if; [done|].
  destruct (oack_loop_total (S (length packet)) e t (drop 2 packet)) as ([t' rc] & ->); [rewrite length_drop; lia|]. destruct rc; [|done].
  destruct (if negb (tf_tsize t' =? 0) then _ else _) as [t2 rc2]. destruct rc2; [|done]. by destruct (send_total e t2 He) as (t3 & ->).
Qed.

(** The bitmap has a bit for every block up to the known size of the file. *)
Definition bitmap_fits (t : tftp_request) : Prop := exists n S, bm_rep a (tf_bitmap t) n S
  /\ (tf_filesize t = 0 /\ n = 0 \/ 0 < tf_filesize t /\ n = tf_filesize t / tf_blksize t + 1).

(** Also, the block size is one that a 16-bit value can have, and the first
    missing block has a 16-bit number. *)
Definition coherent (t : tftp_request) : Prop := 0 < tf_blksize t < 65536 /\ first_gap (tf_bitmap t) < 65535 /\ bitmap_fits t.

Lemma block_index_small t number : coherent t -> 0 <= number < 65536 -> block_index t number = if number =? 0 then None else Some (number - 1).
Proof.
  intros (_ & Hg & n & S & (_ & _ & _ & _ & _ & Hg0 & _) & _) Hn. unfold block_index, bitmap_first_gap. rewrite (uwrap_small 32 (_ + 1)) by lia.
  change (Z.lnot 0xffff) with (Z.lnot (Z.ones 16)). rewrite <- Z.ldiff_land, Z.ldiff_ones_r by lia.
  rewrite Z.shiftr_div_pow2, (Z.div_small _ (2 ^ 16)), Z.shiftl_0_l by lia. rewrite andb_true_r. destruct (number =? 0) eqn:E0; [done|]. by rewrite uwrap_small by lia.
Qed.

(** A block is marked inside the bitmap, or there is none yet. *)
Lemma mark_block e t i len : coherent t -> 0 <= i < 65535 -> 0 <= len <= tf_blksize t -> i * tf_blksize t + len <> 0 \/ 0 < tf_filesize t ->
  exists t' rc, tftp_presize a e t (i * tf_blksize t + len) = (t', rc) /\ (rc = Ok tt -> is_Some (bitmap_set a (tf_bitmap t') i)).
Proof.
  intros (Hblk & Hg & n & S & Hr & Hc) Hi Hl Hne. set (fs := i * tf_blksize t + len) in *. destruct (Z.leb_spec fs (tf_filesize t)) as [Hle|Hgt].
  - unfold tftp_presize. rewrite (proj2 (Z.leb_le _ _) Hle). exists t, (Ok tt). split; [done|]. intros _. assert (Hpos : 0 < tf_filesize t) by (unfold fs in *; nia).
    destruct Hc as [?|[_ En]]; [lia|]. pose proof (Z.div_le_lower_bound (tf_filesize t) (tf_blksize t) i ltac:(lia) ltac:(unfold fs in Hle; lia)).
    destruct (bitmap_set_spec a _ n S i Hr ltac:(lia)) as (bm & -> & _). done.
  - assert (Hq : i <= fs / tf_blksize t <= 65535).
    { split; [apply Z.div_le_lower_bound; unfold fs; lia|]. apply Z.div_le_upper_bound; [lia|]. unfold fs. nia. }
    destruct (presize_larger a e t fs) as (more & _ & ->); [lia|lia|lia|]. pose proof (blksize_bounds a).
    assert (Hn : n <= fs / tf_blksize t + 1).
    { destruct Hc as [[_ ->]|[_ ->]]; [lia|]. pose proof (Z.div_le_mono (tf_filesize t) fs (tf_blksize t) ltac:(lia) ltac:(lia)). lia. }
    destruct (bitmap_resize_spec a _ n S (fs / tf_blksize t + 1) Hr Hn ltac:(lia)) as (bm & E & Hr').
    destruct (resize_alloc a (e_bitmap e) (tf_bitmap t) (fs / tf_blksize t + 1)) as [->|[_ ->]]; [rewrite E|]; do 2 eexists; (split; [done|]); [|done].
    intros _. destruct (bitmap_set_spec a bm _ _ i Hr' ltac:(lia)) as (bm' & E' & _). by exists bm'.
Qed.

Lemma rx_data_total e t packet : env_ok e -> bytes_ok packet -> coherent t ->
  is_Some (tftp_rx_data a path e t packet) \/ tf_filesize t = 0 /\ zlen packet = 4 /\ mem_read packet 2 2 = Some (be16 1).
Proof.
  intros He Hb Hco. unfold tftp_rx_data. destruct (Z.ltb_spec (zlen packet) 4); [by left|].
  assert (Hm : exists x y, mem_read packet 2 2 = Some [x; y] /\ byte_ok x /\ byte_ok y).
  { do 4 (destruct packet as [|? packet]; [cbn in *; lia|]). do 4 (apply Forall_cons in Hb as [? Hb]). unfold mem_read.
    rewrite (proj2 (Z.leb_le (2 + 2) _)) by (cbn in *; lia). by eexists _, _. }
  destruct Hm as (x & y & -> & Hx & Hy). set (number := be_val [x; y]). assert (En : number = x * 256 + y) by done. clearbody number. unfold byte_ok in *.
  rewrite block_index_small by (done || lia). destruct (Z.eqb_spec number 0); [by left|]. pose proof Hco as (Hblk & _).
  destruct (Z.ltb_spec (tf_blksize t) (zlen (drop 4 packet))); [by left|]. destruct (e_deliver e); [|by left].
  assert (Hi : 0 <= (number - 1) * tf_blksize t < 2 ^ 32 - 2 ^ 16) by nia. rewrite (uwrap_small 32) by lia.
  pose proof (Z.pow_le_mono_r 2 32 (size_bits a) ltac:(lia) (size_bits_large a)). rewrite uwrap_small by lia. set (u := log_xfer _ _ t).
  destruct (decide ((number - 1) * tf_blksize t + zlen (drop 4 packet) = 0 /\ tf_filesize t <= 0)) as [[E0 Ef]|Hne].
  - right. destruct Hco as (_ & _ & n' & S & _ & Hc). split; [lia|]. rewrite length_drop in E0. assert (number = 1) by nia. split; [lia|]. do 2 f_equal; unfold be16.
    assert (x = 0 /\ y = 1) as [-> ->] by lia. done.
  - left. destruct (mark_block e u (number - 1) (zlen (drop 4 packet))) as (t' & rc & E & Hset); [exact Hco|lia|cbn; lia|cbn; lia|].
    change (tf_blksize u) with (tf_blksize t) in E. rewrite E. destruct rc as [[]|]; [|done]. destruct (Hset eq_refl) as (bm & ->).
    by destruct (send_total e (set_tf_bitmap bm t') He) as (t3 & ->).
Qed.

End Safe.

Lemma first_word packet : bytes_ok packet -> 2 <= zlen packet -> exists x y rest, packet = x :: y :: rest /\ byte_ok x /\ byte_ok y
  /\ mem_read packet 0 2 = Some [x; y].
Proof.
  intros Hb Hl. do 2 (destruct packet as [|? packet]; [cbn in *; lia|]). do 2 (apply Forall_cons in Hb as [? Hb]). eexists _, _, _. split; [done|].
  split; [done|]. split; [done|]. apply (mem_read_at [] [_; _]).
Qed.

(** C19.  Every packet, whatever its bytes and wherever it comes from, is handled
    to the end without an access outside the packet, the bitmap or the buffer of
    an answer, in a request whose block size is positive and less than 65536,
    whose first missing block is among the first 65535, and whose bitmap has a
    bit for every block up to the file size that is known; the only exception is
    an empty block number one when nothing is known of the size.  In particular
    the loop over the options ends.  (The conditions are not all kept by the
    packets themselves: the options can set any block size, and then a data
    packet can be marked outside the bitmap, [tftp_blksize_unchecked].) *)
Theorem tftp_handles_packets a path e t packet src : nonul path /\ zlen path < 2 ^ 31 -> env_ok e -> bytes_ok packet ->
  0 < tf_blksize t < 65536 -> first_gap (tf_bitmap t) < 65535 -> bitmap_fits a t ->
  is_Some (tftp_socket_deliver a path e t packet src) \/ tf_filesize t = 0 /\ packet = be16 TFTP_DATA ++ be16 1.
Proof.
  intros Hpath He Hb Hblk Hgap Hfit. assert (Hco : coherent a t) by done. unfold tftp_socket_deliver, tftp_rx. destruct (Z.ltb_spec (zlen packet) 2) as [|Hl]; [by left|]. destruct src as [src|]; [|by left].
  case_if; [by left|]. set (t1 := set_tf_flags _ t). set (t2 := if has_peer t1 then t1 else set_tf_peer src t1).
  assert (H2 : coherent a t2 /\ tf_filesize t2 = tf_filesize t) by (unfold t2; by case_match). destruct H2 as [Hco2 E2]. clearbody t2.
  destruct (first_word packet Hb Hl) as (x & y & rest & -> & Hx & Hy & ->). assert (Ev : be_val [x; y] = x * 256 + y) by done.
  case_if; [left; by apply rx_oack_total|]. case_if.
  - destruct (rx_data_total a path Hpath e t2 (x :: y :: rest) He Hb Hco2) as [H|(H0 & H4 & Hr)]; [by left|]. right. split; [congruence|].
    destruct rest as [|p2 [|p3 [|? ?]]]; cbn [length] in H4; try lia. assert (Hw : [p2; p3] = be16 1) by (injection Hr as -> ->; done).
    unfold TFTP_DATA, byte_ok in *. assert (x = 0 /\ y = 3) as [-> ->] by lia. by rewrite <- Hw.
  - left. case_if; [|done]. unfold tftp_rx_error. case_if; [done|]. unfold mem_read. by rewrite (proj2 (Z.leb_le (2 + 2) _)) by lia.
Qed.

(** A download of eight bytes in blocks of two, of which three have arrived, is
    given arbitrary bytes as options. *)
Definition demo_coherent : tftp_request := TftpRequest 2 0 TFTP_PORT no_peer TFTP_FL_RRQ_SIZES 0 demo_bitmap 8 true false [] [] None.

Lemma demo_is_coherent : coherent Arch32 demo_coherent.
Proof.
  split; [cbn; lia|]. split; [cbn; lia|]. exists 5, (fun i => Z.testbit 11 i). split; [apply demo_bitmap_ok|]. right. split; [cbn; lia|reflexivity].
Qed.

Lemma tftp_handles_packets_witness :
  is_Some (tftp_socket_deliver Arch32 [102] (TftpEnv 1 1432 true true true true (Ok tt) (Ok tt) (Ok tt)) demo_coherent [0; 6; 98; 0; 44; 0; 255; 7] (Some [2])).
Proof.
  destruct (tftp_handles_packets Arch32 [102] (TftpEnv 1 1432 true true true true (Ok tt) (Ok tt) (Ok tt)) demo_coherent [0; 6; 98; 0; 44; 0; 255; 7] (Some [2]))
    as [H|[H _]]; [split; [solve_nonul|cbn; lia]|unfold env_ok; cbn; lia|solve_bytes|apply demo_is_coherent|apply demo_is_coherent|apply demo_is_coherent|exact H|discriminate H].
Defined.
