(* ===== verification/TftpFile.v ===== *)
(** * TFTP: a file arrives as it is

    A server that serves one file, a network that loses, repeats and reorders
    its packets, strangers that send anything, and a client that is opened,
    resends and is aborted.  The recipient is a transfer buffer. *)
From S2P Require Import Prelude Strings Memory Printf Buffers Uri Tftp TftpParts TftpSafe.

(** ** The server and the network *)

Section Server.
Context (a : arch) (path file server : list Z) (b : Z) (oack tsize : bool).

(** A file is sent in blocks of [b] bytes and a last, shorter one; [oack] is
    whether the server acknowledges options, and if not, blocks have the default
    size. *)
Definition nblk : Z := zlen file / b + 1.
Definition block (i : Z) : list Z := take (Z.to_nat b) (drop (Z.to_nat (i * b)) file).
Definition decimal (n : Z) : list Z := dec_digits dec_fuel n [].

Definition option_text (name : list Z) (n : Z) : list Z := cstr name (cstr (decimal n) []).
Definition oack_packet : list Z := be16 TFTP_OACK ++ option_text blksize_name b ++ (if tsize then option_text tsize_name (zlen file) else []).
Definition data_packet (i : Z) : list Z := be16 TFTP_DATA ++ be16 (i + 1) ++ block i.
Definition ack_packet (k : Z) : list Z := be16 TFTP_ACK ++ be16 k.
Definition abort_packet : list Z := be16 TFTP_ERROR ++ be16 0 ++ aborted_text ++ [0].

Inductive event :=
  | Expired (e : tftp_env) (fail : bool)
  | Received (e : tftp_env) (packet : list Z) (src : option (list Z))
  | Aborted (e : tftp_env) (err : errno).

Definition event_env (ev : event) : tftp_env := match ev with Expired e _ | Received e _ _ | Aborted e _ => e end.

(** The server answers the request with the acknowledgement of its options or
    with the first block, an acknowledgement of [i] blocks with the block with
    index [i], and anything with an error; each of its packets can arrive any
    number of times and at any time after it was first sent.  Once the server
    has been heard, anybody else sends anything. *)
Definition served (t : tftp_request) (packet : list Z) : Prop :=
  (oack = true /\ packet = oack_packet)
  \/ (exists i, 0 <= i < nblk /\ packet = data_packet i /\ ((Some server, ack_packet i) ∈ tf_sent t \/ i = 0 /\ oack = false))
  \/ (exists code text, packet = be16 TFTP_ERROR ++ be16 code ++ text).

Definition possible (t : tftp_request) (ev : event) : Prop :=
  tf_done t = None /\ env_ok (event_env ev) /\
  match ev with
  | Expired _ _ => tf_timer t = true
  | Received _ packet src => src = Some server /\ served t packet \/ src <> Some server /\ has_peer t = true
  | Aborted _ _ => True
  end.

Definition step (t : tftp_request) (ev : event) : option tftp_request :=
  match ev with
  | Expired e fail => tftp_timer_expired a path e t fail
  | Received e packet src => opt! (t, _) := tftp_socket_deliver a path e t packet src in Some t
  | Aborted e err => Some (tftp_close e t (Err err))
  end.

Inductive run (t : tftp_request) : tftp_request -> Prop :=
  | run_refl : run t t
  | run_step t' ev t'' : run t t' -> possible t' ev -> step t' ev = Some t'' -> run t t''.

(** ** What is kept by every event *)

(** Requests go to the server that was asked; an acknowledgement of [k] blocks
    goes to the one that answered, when these have been given to the recipient. *)
Definition sent_ok (log : list (Z * list Z)) (datagram : option (list Z) * list Z) : Prop :=
  (datagram.1 = None /\ exists size sizes multicast, 0 <= size <= TFTP_MAX_BLKSIZE /\ datagram.2 = rrq_bytes a path size sizes multicast)
  \/ (datagram.1 = Some server /\ exists k, 0 <= k <= nblk /\ datagram.2 = ack_packet k /\ forall i, 0 <= i < k -> (i * b, block i) ∈ log)
  \/ datagram.2 = abort_packet.

(** The bitmap says which blocks were given to the recipient. *)
Definition mapped (t : tftp_request) : Prop := exists n S,
  bm_rep a (tf_bitmap t) n S /\ 0 <= tf_filesize t <= zlen file
  /\ (tf_filesize t = 0 /\ n = 0 \/ 0 < tf_filesize t /\ tf_blksize t = b /\ n = tf_filesize t / b + 1)
  /\ forall i, 0 <= i < n -> S i = true -> (i * b, block i) ∈ tf_xfer t /\ i * b + zlen (block i) <= tf_filesize t.

Record base (t : tftp_request) : Prop := {
  l_flags : Z.land (tf_flags t) TFTP_FL_MTFTP_RECOVERY = 0;
  l_done : tf_done t = None;
  l_peer : has_peer t = true -> tf_peer t = server /\ tf_blksize t = b /\ has_flag t TFTP_FL_SEND_ACK = true;
  l_alone : has_peer t = false -> tf_filesize t = 0 /\ Forall (fun d => d.1 = None) (tf_sent t);
  l_blksize : oack = false -> tf_blksize t = b;
  l_tsize : tf_tsize t = 0 \/ tf_tsize t = zlen file;
  l_sent : Forall (sent_ok (tf_xfer t)) (tf_sent t);
  l_xfer : Forall (piece file) (tf_xfer t);
  l_map : mapped t }.

Definition gap_ok (t : tftp_request) : Prop := tf_filesize t = 0 \/ bitmap_full (tf_bitmap t) = false.
Definition live (t : tftp_request) : Prop := base t /\ tf_timer t = true /\ gap_ok t.

(** The outcome of an event. *)
Definition complete (t : tftp_request) : Prop := forall junk, exists xb, replay a junk empty_buffer (tf_xfer t) = Some xb /\ xb_data xb = file /\ xb_len xb = zlen file.

Definition ended (t : tftp_request) : Prop := Forall (sent_ok (tf_xfer t)) (tf_sent t)
  /\ match tf_done t with Some (Ok _) => complete t | Some (Err _) => True | None => False end.

Definition outcome (t : tftp_request) : Prop := live t \/ ended t.

Hypothesis Hb : 0 < b < 65536.
Hypothesis Hn : nblk < 65536.
Hypothesis Hf : file <> [].
Hypothesis Hserver : existsb (fun x => negb (x =? 0)) (take 2 server) = true.
Hypothesis Hpath : nonul path /\ zlen path < 2 ^ 31.

Lemma file_pos : 0 < zlen file.
Proof. destruct file; [done|cbn; lia]. Qed.

Lemma file_small : zlen file < 2 ^ 32.
Proof. pose proof (Z.mul_div_le (zlen file) b). pose proof (Z.mod_pos_bound (zlen file) b). pose proof (Z.div_mod (zlen file) b). unfold nblk in Hn. nia. Qed.

Lemma file_size : zlen file < 2 ^ size_bits a.
Proof. pose proof file_small. pose proof (Z.pow_le_mono_r 2 32 (size_bits a) ltac:(lia) (size_bits_large a)). lia. Qed.

Lemma block_piece i : 0 <= i < nblk -> piece file (i * b, block i) /\ zlen (block i) = Z.min b (zlen file - i * b) /\ 0 <= zlen file - i * b.
Proof.
  intros Hi. assert (Hle : i * b <= zlen file).
  { pose proof (Z.mul_div_le (zlen file) b ltac:(lia)). unfold nblk in Hi. nia. }
  assert (Hl : zlen (block i) = Z.min b (zlen file - i * b)) by (unfold block; rewrite length_take, length_drop; nia).
  split; [|lia]. split; [cbn [fst]; nia|]. cbn [fst snd]. split; [lia|]. unfold block. rewrite length_take.
  destruct (Nat.min_spec (Z.to_nat b) (length (drop (Z.to_nat (i * b)) file))) as [[_ ->]|[? ->]]; [done|]. by rewrite !take_ge by lia.
Qed.

Lemma seek_piece n : 0 <= n <= zlen file -> piece file (n, []).
Proof. intros H. split; [cbn; lia|]. split; [cbn; lia|done]. Qed.

Lemma sent_more log more d : sent_ok log d -> sent_ok (log ++ more) d.
Proof.
  intros [H|[(H & k & Hk & E & Hi)|H]]; [by left| |by right; right]. right. left. split; [done|]. exists k. split; [done|]. split; [done|].
  intros i Hr. apply elem_of_app. left. by apply Hi.
Qed.

Lemma base_timer t v : base t -> base (set_tf_timer v t).
Proof. intros []. by constructor. Qed.

Lemma base_xfer t more : base t -> Forall (piece file) more -> base (set_tf_xfer (tf_xfer t ++ more) t).
Proof.
  intros [] Hm. constructor; try done.
  - cbn. eapply Forall_impl; [done|]. intros d Hd. by apply sent_more.
  - cbn. by apply Forall_app_2.
  - destruct l_map0 as (n & S & H1 & H2 & H3 & H4). exists n, S. split; [done|]. split; [done|]. split; [done|]. cbn. intros i Hi Hs. destruct (H4 i Hi Hs). split; [|done].
    apply elem_of_app. by left.
Qed.

(** ** Sending *)

Lemma mapped_gap t : mapped t -> exists g, first_gap (tf_bitmap t) = g /\ 0 <= g <= nblk /\ forall i, 0 <= i < g -> (i * b, block i) ∈ tf_xfer t.
Proof.
  intros (n & S & (_ & Hn0 & _ & _ & _ & Hg & Hlow & _) & Hsz & Hc & Hi). eexists. split; [done|]. split.
  - unfold nblk. destruct Hc as [[_ ->]|(_ & _ & ->)]; [pose proof (Z.div_pos (zlen file) b); lia|].
    pose proof (Z.div_le_mono (tf_filesize t) (zlen file) b ltac:(lia) ltac:(lia)). lia.
  - intros i Hr. apply Hi; [lia|]. by apply Hlow.
Qed.

Lemma base_sent t d : base t -> sent_ok (tf_xfer t) d -> (has_peer t = false -> d.1 = None) -> base (set_tf_sent (tf_sent t ++ [d]) t).
Proof.
  intros [] Hd Hp. constructor; try done.
  - intros H. destruct (l_alone0 H) as [H1 H2]. split; [done|]. cbn. apply Forall_app_2; [done|]. constructor; [by apply Hp|done].
  - cbn. apply Forall_app_2; [done|]. by constructor.
Qed.

(** The datagram an event sends, when a buffer for it can be allocated. *)
Definition next_datagram (e : tftp_env) (t : tftp_request) : option (list Z) * list Z :=
  if has_peer t then (Some server, ack_packet (first_gap (tf_bitmap t)))
  else (None, rrq_bytes a path (Z.min TFTP_MAX_BLKSIZE (e_xwindow e)) (has_flag t TFTP_FL_RRQ_SIZES) (has_flag t TFTP_FL_RRQ_MULTICAST)).

Lemma send_packet_ok e t : env_ok e -> base t -> exists t',
  tftp_send_packet a path e t = Some t' /\ base t' /\ t' = set_tf_sent (tf_sent t ++ (if e_alloc e then [next_datagram e t] else [])) (set_tf_timer true t).
Proof.
  intros He Hbase. unfold tftp_send_packet. change (has_peer (set_tf_timer true t)) with (has_peer t). set (u := set_tf_timer true t).
  assert (Hu : base u) by by apply base_timer. unfold next_datagram. destruct (has_peer t) eqn:Ep; cbn [negb].
  - destruct (l_peer _ Hu Ep) as (E1 & _ & ->). unfold tftp_send_ack, tftp_transmit. change (tf_peer u) with (tf_peer t) in *. rewrite E1.
    change (tf_bitmap u) with (tf_bitmap t). unfold bitmap_first_gap. destruct (e_alloc e).
    + eexists. split; [done|]. split; [|done]. apply (base_sent u); [done| |intros H; by rewrite (H : has_peer t = false) in Ep].
      right. left. split; [done|]. destruct (mapped_gap t (l_map _ Hbase)) as (g & -> & Hg & Hi). by exists g.
    + exists u. split; [done|]. split; [done|]. rewrite app_nil_r. by destruct t.
  - unfold tftp_send_rrq. destruct (e_alloc e) eqn:Ea; cbn [negb].
    + rewrite rrq_packet_ok by done || apply Hpath. unfold tftp_transmit. rewrite Ea. eexists. split; [done|]. split; [|done].
      apply (base_sent u); [done| |done]. left. split; [done|]. eexists _, _, _. split; [|done]. unfold env_ok, TFTP_MAX_BLKSIZE in *. lia.
    + exists u. split; [done|]. split; [done|]. rewrite app_nil_r. by destruct t.
Qed.
(** ** The bitmap *)

(** A bitmap that grows with the known size of the file. *)
Lemma resize_grow bm fs S n : bm_rep a bm n S -> 0 < fs <= zlen file -> n <= fs / b + 1 ->
  exists bm', bitmap_resize a true bm (fs / b + 1) = (bm', Ok ()) /\ first_gap bm' = first_gap bm
    /\ bm_rep a bm' (fs / b + 1) (fun i => (i <? n) && S i).
Proof.
  intros Hr Hfs Hle. pose proof (blksize_bounds a). pose proof (Z.div_le_mono fs (zlen file) b ltac:(lia) ltac:(lia)). unfold nblk in Hn.
  destruct (bitmap_resize_spec a _ n S (fs / b + 1) Hr Hle ltac:(lia)) as (bm' & E & H'). exists bm'. split; [done|]. split; [|done].
  revert E. unfold bitmap_resize. rewrite andb_false_r. by intros [= <-].
Qed.

Lemma presize_ok e t fs : base t -> gap_ok t -> has_peer t = true -> 0 < fs <= zlen file -> exists bm f more rc,
  tftp_presize a e t fs = (set_tf_bitmap bm (set_tf_filesize f (set_tf_xfer (tf_xfer t ++ more) t)), rc)
  /\ first_gap bm = first_gap (tf_bitmap t) /\ Forall (piece file) more /\ fs <= f
  /\ match rc with
     | Ok _ => base (set_tf_bitmap bm (set_tf_filesize f (set_tf_xfer (tf_xfer t ++ more) t))) /\ bitmap_full bm = false
     | Err _ => e_bitmap e = false
     end.
Proof.
  intros Hbase Hgap Hpeer Hfs. destruct (Z.leb_spec fs (tf_filesize t)) as [Hle|Hgt].
  - unfold tftp_presize. rewrite (proj2 (Z.leb_le _ _) Hle). exists (tf_bitmap t), (tf_filesize t), [], (Ok tt). rewrite app_nil_r.
    replace (set_tf_bitmap _ _) with t by (by destruct t). split; [done|]. split; [done|]. split; [done|]. split; [done|]. split; [done|].
    destruct Hgap as [?|?]; [lia|done].
  - destruct (l_peer _ Hbase Hpeer) as (_ & Eb & _).
    pose proof file_small. pose proof (Z.div_le_mono fs (zlen file) b ltac:(lia) ltac:(lia)). pose proof (Z.div_pos fs b ltac:(lia) ltac:(lia)).
    destruct (presize_larger a e t fs) as (more & Hmore' & ->); [lia|lia|rewrite Eb; unfold nblk in Hn; lia|]. rewrite Eb.
    assert (Hmore : Forall (piece file) more) by (eapply Forall_impl; [exact Hmore'|]; intros entry [->| ->]; apply seek_piece; lia). clear Hmore'.
    destruct (l_map _ Hbase) as (n & S & Hr & Hsz & Hc & Hi).
    assert (Hle : n <= fs / b + 1).
    { destruct Hc as [[_ ->]|(_ & _ & ->)]; [lia|]. pose proof (Z.div_le_mono (tf_filesize t) fs b ltac:(lia) ltac:(lia)). lia. }
    destruct (resize_grow (tf_bitmap t) fs S n Hr Hfs Hle) as (bm & Ebm & Eg & Hr').
    destruct (resize_alloc a (e_bitmap e) (tf_bitmap t) (fs / b + 1)) as [->|[Ea ->]].
    + rewrite Ebm. exists bm, fs, more, (Ok ()). split; [done|]. split; [done|]. split; [done|]. split; [lia|]. split.
      * destruct (base_xfer t more Hbase Hmore). constructor; try done.
        { intros H'. by rewrite (H' : has_peer t = false) in Hpeer. }
        exists (fs / b + 1), (fun i => (i <? n) && S i). split; [done|]. split; [cbn; lia|]. split; [right; cbn; lia|]. cbn. intros i Hr0 [Hlt Hs]%andb_true_iff.
        apply Z.ltb_lt in Hlt. destruct (Hi i ltac:(lia) Hs). split; [apply elem_of_app; by left|lia].
      * unfold bitmap_full. destruct Hr' as (-> & _). apply Z.eqb_neq. rewrite Eg. destruct Hr as (El & Hn0 & _ & _ & _ & Hg & _).
        destruct Hgap as [Hz|Hnf]; [destruct Hc as [[_ ->]|?]; lia|]. unfold bitmap_full in Hnf. apply Z.eqb_neq in Hnf. lia.
    + exists (tf_bitmap t), fs, more, (Err ENOMEM). split; [done|]. split; [done|]. split; [done|]. split; [lia|done].
Qed.
(** ** Blocks *)

(** A file whose blocks up to the known size are all there is complete. *)
Lemma full_blocks t : base t -> 0 < tf_filesize t -> bitmap_full (tf_bitmap t) = true -> forall i, 0 <= i < nblk -> (i * b, block i) ∈ tf_xfer t.
Proof.
  intros Hbase Hpos Hfull. destruct (l_map _ Hbase) as (n & S & (El & Hn0 & _ & _ & _ & Hg & Hlow & _) & Hsz & [?|(_ & _ & En)] & Hi); [lia|].
  apply Z.eqb_eq in Hfull. unfold bitmap_first_gap in Hfull. pose proof (Z.div_pos (tf_filesize t) b ltac:(lia) ltac:(lia)).
  assert (Hlast : (n - 1) * b + zlen (block (n - 1)) <= tf_filesize t) by (apply Hi; [lia|apply Hlow; lia]).
  pose proof (Z.div_le_mono (tf_filesize t) (zlen file) b ltac:(lia) ltac:(lia)). destruct (block_piece (n - 1)) as (_ & Hl & _); [unfold nblk; lia|].
  pose proof (Z.div_mod (tf_filesize t) b ltac:(lia)). pose proof (Z.mod_pos_bound (tf_filesize t) b ltac:(lia)).
  assert (Enb : nblk = n). { unfold nblk. rewrite En in *. replace (tf_filesize t / b + 1 - 1) with (tf_filesize t / b) in * by lia.
    assert (tf_filesize t = zlen file) as -> by nia. done. }
  intros j Hj. apply Hi; [lia|]. apply Hlow. lia.
Qed.

Lemma full_complete t : base t -> 0 < tf_filesize t -> bitmap_full (tf_bitmap t) = true -> complete t.
Proof.
  intros Hbase Hpos Hfull junk. pose proof (full_blocks t Hbase Hpos Hfull) as Hall. apply replay_file; [apply (l_xfer _ Hbase)|apply file_size|].
  intros j Hj. exists (Z.of_nat j / b * b, block (Z.of_nat j / b)). pose proof (Z.div_pos (Z.of_nat j) b ltac:(lia) ltac:(lia)).
  assert (Hr : 0 <= Z.of_nat j / b < nblk) by (unfold nblk; pose proof (Z.div_le_mono (Z.of_nat j) (zlen file) b ltac:(lia) ltac:(lia)); lia).
  split; [by apply Hall|]. destruct (block_piece _ Hr) as (_ & Hl & _). cbn [fst snd]. pose proof (Z.div_mod (Z.of_nat j) b ltac:(lia)).
  pose proof (Z.mod_pos_bound (Z.of_nat j) b ltac:(lia)). nia.
Qed.

Lemma live_gap t : base t -> gap_ok t -> 0 <= first_gap (tf_bitmap t) < nblk.
Proof.
  intros Hbase Hgap. destruct (l_map _ Hbase) as (n & S & (El & Hn0 & _ & _ & _ & Hg & Hlow & _) & Hsz & Hc & Hi).
  pose proof (Z.div_le_mono (tf_filesize t) (zlen file) b ltac:(lia) ltac:(lia)). pose proof (Z.div_pos (zlen file) b ltac:(lia) ltac:(lia)). unfold nblk.
  destruct Hc as [[E0 ->]|(Hp & _ & En)]; [lia|]. destruct Hgap as [?|Hnf]; [lia|]. unfold bitmap_full in Hnf. apply Z.eqb_neq in Hnf. lia.
Qed.

Lemma block_index_ok t i : base t -> gap_ok t -> 0 <= i < nblk -> block_index t (be_val (be16 (i + 1))) = Some i.
Proof.
  intros Hbase Hgap Hi. pose proof (live_gap t Hbase Hgap). unfold block_index, bitmap_first_gap. rewrite be16_val, (Z.mod_small (i + 1)), (uwrap_small 32 (_ + 1)) by lia.
  change (Z.lnot 0xffff) with (Z.lnot (Z.ones 16)). rewrite <- Z.ldiff_land, Z.ldiff_ones_r by lia.
  rewrite Z.shiftr_div_pow2, (Z.div_small _ (2 ^ 16)), Z.shiftl_0_l, (proj2 (Z.eqb_neq (i + 1) 0)) by lia. cbn [andb]. rewrite uwrap_small by lia. f_equal. lia.
Qed.

Lemma data_packet_parts i : 0 <= i -> 4 <= zlen (data_packet i) /\ mem_read (data_packet i) 2 2 = Some (be16 (i + 1)) /\ drop 4 (data_packet i) = block i
  /\ mem_read (data_packet i) 0 2 = Some (be16 TFTP_DATA).
Proof.
  intros Hi. unfold data_packet. split; [rewrite !zlen_app; cbn; lia|]. split; [apply (mem_read_at (be16 TFTP_DATA))|]. split; [done|].
  apply (mem_read_at []).
Qed.

(** The state after a block, before anything is sent. *)
Lemma set_block t i : base t -> 0 <= i -> (i * b, block i) ∈ tf_xfer t -> 0 < i * b + zlen (block i) <= tf_filesize t ->
  exists bm, bitmap_set a (tf_bitmap t) i = Some bm /\ base (set_tf_bitmap bm t) /\ (i = first_gap (tf_bitmap t) -> i < first_gap bm).
Proof.
  intros Hbase Hi Hin Hsz. destruct (l_map _ Hbase) as (n & S & Hr & Hs & [?|(Hp & Eb & En)] & Hm); [lia|].
  assert (Hlt : i < n) by (pose proof (Z.div_le_lower_bound (tf_filesize t) b i ltac:(lia) ltac:(lia)); lia).
  destruct (bitmap_set_spec a _ n S i Hr ltac:(lia)) as (bm & E & Hr'). exists bm. split; [done|]. split.
  - destruct Hbase. constructor; try done. exists n, (fun j => (j =? i) || S j). split; [done|]. split; [done|]. split; [right; done|]. cbn.
    intros j Hj [Ej|Hsj]%orb_true_iff; [apply Z.eqb_eq in Ej as ->; split; [done|lia]|by apply Hm].
  - intros ->. destruct Hr as (_ & _ & _ & _ & _ & Hg & Hlow & _), Hr' as (_ & _ & _ & _ & _ & Hg' & _ & Hgap').
    destruct (Z_lt_ge_dec (first_gap (tf_bitmap t)) (first_gap bm)); [done|]. specialize (Hgap' ltac:(lia)). apply orb_false_iff in Hgap' as [H1 H2].
    apply Z.eqb_neq in H1. rewrite Hlow in H2 by lia. done.
Qed.
(** What is needed to make progress. *)
Definition good_env (e : tftp_env) : Prop := e_alloc e = true /\ e_bitmap e = true /\ e_deliver e = Ok tt /\ env_ok e.

(** The block was expected and the request is complete or has advanced, with
    the acknowledgement sent. *)
Definition advanced (t t' : tftp_request) : Prop := tf_done t' = Some (Ok tt)
  \/ tf_done t' = None /\ first_gap (tf_bitmap t) < first_gap (tf_bitmap t') /\ (Some server, ack_packet (first_gap (tf_bitmap t'))) ∈ tf_sent t'.

Lemma ended_err t err : Forall (sent_ok (tf_xfer t)) (tf_sent t) -> tf_done t = None -> outcome (tftp_done t (Err err)).
Proof. intros Hs Hd. right. split; [done|]. cbn. by rewrite Hd. Qed.

Lemma tftp_rx_data_ok e t i : env_ok e -> base t -> gap_ok t -> has_peer t = true -> 0 <= i < nblk -> exists t' rc,
  tftp_rx_data a path e t (data_packet i) = Some (t', rc) /\ outcome t' /\ (good_env e -> i = first_gap (tf_bitmap t) -> advanced t t').
Proof.
  intros He Hbase Hgap Hpeer Hi. unfold tftp_rx_data. destruct (data_packet_parts i ltac:(lia)) as (H4 & -> & -> & _).
  rewrite (proj2 (Z.ltb_ge _ 4)) by lia. rewrite block_index_ok by done. destruct (block_piece i Hi) as (Hp & Hl & Hle).
  destruct (l_peer _ Hbase Hpeer) as (_ & Eb & _). rewrite Eb, (proj2 (Z.ltb_ge b _)) by lia. pose proof file_small. pose proof file_pos. pose proof file_size.
  assert (Hpos : 0 < i * b + zlen (block i) <= zlen file) by nia. rewrite (uwrap_small 32) by nia.
  destruct (e_deliver e) as [[]|err] eqn:Ed; cycle 1.
  { do 2 eexists. split; [done|]. split; [apply ended_err; apply Hbase|]. intros (_ & _ & Hd & _). congruence. }
  assert (HL : base (log_xfer (i * b) (block i) t)) by (apply base_xfer; [done|by constructor]). rewrite uwrap_small by lia.
  destruct (presize_ok e (log_xfer (i * b) (block i) t) (i * b + zlen (block i)) HL Hgap Hpeer Hpos) as (bm & f & more & rc & -> & Eg & Hmore & Hfs & Hrc).
  set (u := set_tf_bitmap bm _) in *. destruct rc as [[]|err]; cycle 1.
  { do 2 eexists. split; [done|]. split; [|intros (_ & Ha & _); congruence]. apply ended_err; [|apply Hbase]. cbn. eapply Forall_impl; [apply (l_sent _ HL)|].
    intros d. apply sent_more. }
  destruct Hrc as [Hu Hnf]. destruct (set_block u i Hu ltac:(lia)) as (bm' & Es & Hbase' & Hadv); [cbn; rewrite !elem_of_app; left; right; by left|cbn; lia|].
  rewrite Es. destruct (send_packet_ok e (set_tf_bitmap bm' u) He Hbase') as (t' & Et & Ht' & Eq). rewrite Et. do 2 eexists. split; [done|].
  assert (Hbm : tf_bitmap t' = bm') by (by rewrite Eq). assert (Hd : tf_done t' = None) by apply Ht'. rewrite Hbm. split.
  - destruct (bitmap_full bm') eqn:Efull.
    + right. split; [apply Ht'|]. cbn. rewrite Hd. cbn. apply (full_complete t'); [done|rewrite Eq; cbn; lia|by rewrite Hbm].
    + left. split; [done|]. split; [by rewrite Eq|]. right. by rewrite Hbm.
  - intros (Ha & _) Ei. destruct (bitmap_full bm') eqn:Efull; [left; cbn; by rewrite Hd|]. right. split; [done|]. split.
    + rewrite Hbm. cbn in Hadv. rewrite Eg in Hadv. cbn in Hadv. rewrite <- Ei. by apply Hadv.
    + rewrite Eq. cbn. rewrite Ha. apply elem_of_app. right. unfold next_datagram. rewrite (Hpeer : has_peer (set_tf_bitmap bm' u) = true). by left.
Qed.
(** ** Options *)

Lemma decimal_ok n t : 0 <= n < 2 ^ 32 -> strtoul a (decimal n ++ 0 :: t) 10 = Some (n, 0 :: t) /\ nonul (decimal n).
Proof.
  intros H. pose proof (Z.pow_le_mono_r 2 32 (size_bits a) ltac:(lia) (size_bits_large a)). unfold decimal.
  destruct (dec_digits_spec dec_fuel n []) as (ds & E & Hnil & Hds & Hv); [split; [lia|apply (dec_fuel_enough a); lia]|unfold dec_fuel; lia|].
  rewrite E, app_nil_r. split; [|eapply Forall_impl; [exact Hds|]; cbn; lia].
  pose proof (strtoul_signed_digits (size_bits a) false ds 0 t Hnil Hds) as Hs. rewrite Hv in Hs. apply Hs; [vm_compute; discriminate|lia|by destruct a].
Qed.

Lemma option_text_app name n rest : option_text name n ++ rest = cstr name (cstr (decimal n) rest).
Proof. unfold option_text, cstr. rewrite <- app_assoc. cbn [app]. by rewrite <- app_assoc. Qed.

(** One option of the acknowledgement. *)
Lemma oack_option fuel e t name n rest t' : nonul name -> 0 <= n < 2 ^ 32 ->
  tftp_process_option a e t (cstr name (cstr (decimal n) rest)) (cstr (decimal n) rest) = Some (t', Ok tt) ->
  oack_loop a (S fuel) e t (option_text name n ++ rest) = oack_loop a fuel e t' rest.
Proof.
  intros Hname Hn' E. destruct (decimal_ok n [] Hn') as [_ Hd]. rewrite option_text_app. cbn [oack_loop].
  assert (El : zlen (cstr name (cstr (decimal n) rest)) = zlen name + 1 + zlen (cstr (decimal n) rest)) by (unfold cstr; rewrite length_app; cbn [length]; lia).
  assert (El' : zlen (cstr (decimal n) rest) = zlen (decimal n) + 1 + zlen rest) by (unfold cstr; rewrite length_app; cbn [length]; lia).
  rewrite (proj2 (Z.eqb_neq _ 0)) by lia. rewrite strnlen_cstr by (done || lia). rewrite (proj2 (Z.ltb_ge _ (_ + 1))), (proj2 (Z.eqb_neq (_ + 1) _)) by lia.
  assert (Edrop : drop (Z.to_nat (zlen name + 1)) (cstr name (cstr (decimal n) rest)) = cstr (decimal n) rest).
  { unfold cstr at 1. replace (Z.to_nat _) with (length name + 1)%nat by lia. by rewrite drop_app_add. }
  rewrite Edrop, strnlen_cstr by (done || lia). rewrite (proj2 (Z.ltb_ge _ (_ + (_ + 1)))) by lia. rewrite E. f_equal.
  replace (Z.to_nat _) with (Z.to_nat (zlen name + 1) + (length (decimal n) + 1))%nat by lia. rewrite <- drop_drop, Edrop. unfold cstr. by rewrite drop_app_add.
Qed.

Lemma process_blksize_ok e t n rest : 0 <= n < 2 ^ 32 ->
  tftp_process_option a e t (cstr blksize_name (cstr (decimal n) rest)) (cstr (decimal n) rest) = Some (set_tf_blksize n t, Ok tt).
Proof.
  intros H. unfold tftp_process_option. assert (strcasecmp a (cstr blksize_name (cstr (decimal n) rest)) (blksize_name ++ [0]) = Some 0) as -> by by destruct a.
  cbn [Z.eqb]. unfold tftp_process_blksize, cstr. destruct (decimal_ok n rest H) as [-> _]. by rewrite uwrap_small.
Qed.

Lemma process_tsize_ok e t n rest : 0 <= n < 2 ^ 32 ->
  tftp_process_option a e t (cstr tsize_name (cstr (decimal n) rest)) (cstr (decimal n) rest) = Some (set_tf_tsize n t, Ok tt).
Proof.
  intros H. unfold tftp_process_option. assert (strcasecmp a (cstr tsize_name (cstr (decimal n) rest)) (blksize_name ++ [0]) = Some 18) as -> by by destruct a.
  cbn [Z.eqb]. assert (strcasecmp a (cstr tsize_name (cstr (decimal n) rest)) (tsize_name ++ [0]) = Some 0) as -> by by destruct a.
  cbn [Z.eqb]. unfold tftp_process_tsize, cstr. by destruct (decimal_ok n rest H) as [-> _].
Qed.

Definition with_options (t : tftp_request) : tftp_request := set_tf_tsize (if tsize then zlen file else tf_tsize t) (set_tf_blksize b t).

Lemma oack_loop_ok e t fuel : (3 <= fuel)%nat -> oack_loop a fuel e t (drop 2 oack_packet) = Some (with_options t, Ok tt).
Proof.
  intros Hfuel. destruct fuel as [|[|[|fuel]]]; try lia. pose proof file_small. pose proof file_pos. 
  change (drop 2 oack_packet) with (option_text blksize_name b ++ (if tsize then option_text tsize_name (zlen file) else [])).
  rewrite (oack_option _ e t blksize_name b _ (set_tf_blksize b t)); [|solve_nonul|lia|apply process_blksize_ok; lia]. unfold with_options. destruct tsize.
  - rewrite <- (app_nil_r (option_text tsize_name _)).
    rewrite (oack_option _ e _ tsize_name (zlen file) [] (set_tf_tsize (zlen file) (set_tf_blksize b t))); [|solve_nonul|lia|apply process_tsize_ok; lia]. done.
  - cbn. by destruct t.
Qed.
(** ** Packets *)

(** The request after a packet of the server was accepted. *)
Definition heard (t : tftp_request) : tftp_request := set_tf_peer server (set_tf_flags (Z.lor (tf_flags t) TFTP_FL_SEND_ACK) t).

Lemma heard_base t ts : base t -> ts = 0 \/ ts = zlen file -> base (set_tf_tsize ts (set_tf_blksize b (heard t))).
Proof.
  intros [] Hts. constructor; try done.
  - cbn. by rewrite Z.land_lor_distr_l, l_flags0.
  - intros _. split; [done|]. split; [done|]. unfold has_flag. cbn. rewrite Z.land_lor_distr_l. apply negb_true_iff, Z.eqb_neq. intros H.
    by apply Z.lor_eq_0_iff in H as [_ H].
  - intros H. by rewrite (Hserver : has_peer (set_tf_tsize ts (set_tf_blksize b (heard t))) = true) in H.
  - destruct l_map0 as (n & S & H1 & H2 & H3 & H4). exists n, S. split; [done|]. split; [done|]. split; [|done]. cbn. destruct H3 as [?|(? & _ & ?)]; [by left|by right].
Qed.

Lemma heard_same t : base t -> tf_blksize t = b -> base (heard t).
Proof. intros H Eb. pose proof (heard_base t (tf_tsize t) H (l_tsize _ H)) as Hh. rewrite <- Eb in Hh. by destruct t. Qed.

(** A packet of the server is given to the handler for its opcode. *)
Lemma deliver_server e t packet : base t -> 2 <= zlen packet -> tftp_socket_deliver a path e t packet (Some server)
  = (opt! opcode := mem_read packet 0 2 in
     let opcode := be_val opcode in
     if opcode =? TFTP_OACK then tftp_rx_oack a path e (heard t) packet
     else if opcode =? TFTP_DATA then tftp_rx_data a path e (heard t) packet
     else if opcode =? TFTP_ERROR then tftp_rx_error (heard t) packet
     else Some (heard t, Err EINVAL)).
Proof.
  intros Hbase Hl. unfold tftp_socket_deliver, tftp_rx. rewrite (proj2 (Z.ltb_ge _ 2)) by lia. set (u := set_tf_flags _ t).
  change (has_peer u) with (has_peer t). destruct (has_peer t) eqn:Ep; [|done].
  destruct (l_peer _ Hbase Ep) as (E & _). change (tf_peer u) with (tf_peer t). rewrite bool_decide_eq_false_2 by (intros Hne; by apply Hne). cbn [andb].
  assert (u = heard t) as -> by (unfold u, heard; rewrite <- E; by destruct t). done.
Qed.

(** Somebody else is ignored. *)
Lemma deliver_stranger e t packet src : base t -> has_peer t = true -> src <> Some server ->
  exists rc, tftp_socket_deliver a path e t packet src = Some (set_tf_flags (Z.lor (tf_flags t) TFTP_FL_SEND_ACK) t, rc).
Proof.
  intros Hbase Hp Hsrc. unfold tftp_socket_deliver, tftp_rx. case_if; [by eexists|]. destruct src as [src|]; [|by eexists]. set (u := set_tf_flags _ t).
  change (has_peer u) with (has_peer t). change (tf_peer u) with (tf_peer t). destruct (l_peer _ Hbase Hp) as (E & _). rewrite Hp, E.
  rewrite bool_decide_eq_true_2 by congruence. by eexists.
Qed.

Lemma rx_oack_ok e t : env_ok e -> base t -> gap_ok t -> exists t' rc, tftp_rx_oack a path e (heard t) oack_packet = Some (t', rc) /\ outcome t'
  /\ (good_env e -> tf_done t' = None /\ has_peer t' = true /\ first_gap (tf_bitmap t') = first_gap (tf_bitmap t)).
Proof.
  intros He Hbase Hgap. unfold tftp_rx_oack. rewrite (proj2 (Z.ltb_ge _ 2)) by (unfold oack_packet; rewrite zlen_app; cbn; lia).
  rewrite oack_loop_ok by (unfold oack_packet, option_text, cstr; rewrite !length_app; cbn; lia).
  assert (Hw : base (with_options (heard t))) by (apply heard_base; [done|]; destruct tsize; [by right|apply Hbase]). set (u := with_options (heard t)) in *.
  assert (Hpu : has_peer u = true) by exact Hserver. assert (Hgu : gap_ok u) by exact Hgap. assert (Eg : first_gap (tf_bitmap u) = first_gap (tf_bitmap t)) by done.
  clearbody u. assert (Hpre : exists v rc, (if negb (tf_tsize u =? 0) then tftp_presize a e u (tf_tsize u) else (u, Ok tt)) = (v, rc) /\ tf_done v = None
    /\ Forall (sent_ok (tf_xfer v)) (tf_sent v) /\ match rc with Ok _ => base v /\ gap_ok v /\ has_peer v = true /\ first_gap (tf_bitmap v) = first_gap (tf_bitmap t)
      | Err _ => e_bitmap e = false end).
  { destruct (Z.eqb_spec (tf_tsize u) 0) as [_|Hts]; cbn [negb]; [exists u, (Ok tt); split_and!; try done; apply Hw|].
    destruct (l_tsize _ Hw) as [?|Ets]; [done|]. pose proof file_pos.
    destruct (presize_ok e u (tf_tsize u) Hw Hgu Hpu ltac:(lia)) as (bm & f & more & rc & -> & Eb & Hm & _ & Hrc). do 2 eexists. split; [done|]. split; [apply Hw|]. split.
    { cbn. eapply Forall_impl; [apply (l_sent _ Hw)|]. intros d. apply sent_more. }
    destruct rc; [|done]. destruct Hrc as [Hv Hnf]. split; [done|]. split; [by right|]. split; [done|]. cbn. congruence. }
  destruct Hpre as (v & rc & -> & Hd & Hs & Hrc). destruct rc as [[]|err]; cycle 1.
  { do 2 eexists. split; [done|]. split; [by apply ended_err|]. intros (_ & Ha & _). congruence. }
  destruct Hrc as (Hv & Hgv & Hpv & Egv). destruct (send_packet_ok e v He Hv) as (t' & -> & Ht' & Eq). do 2 eexists. split; [done|]. split.
  - left. split; [done|]. split; [by rewrite Eq|]. by rewrite Eq.
  - intros _. split; [apply Ht'|]. by rewrite Eq.
Qed.
(** ** Events *)

Lemma live_heard_flags t : live t -> has_peer t = true -> live (set_tf_flags (Z.lor (tf_flags t) TFTP_FL_SEND_ACK) t).
Proof.
  intros (Hbase & Ht & Hg) Hp. split; [|done]. pose proof (heard_same t Hbase) as Hh. destruct (l_peer _ Hbase Hp) as (E & Eb & _).
  specialize (Hh Eb). unfold heard in Hh. rewrite <- E in Hh. by destruct t.
Qed.

Lemma expired_ok e t fail : env_ok e -> live t -> exists t', tftp_timer_expired a path e t fail = Some t' /\ outcome t'
  /\ (fail = false -> e_alloc e = true -> tf_done t' = None /\ has_peer t' = has_peer t /\ tf_bitmap t' = tf_bitmap t /\ next_datagram e t ∈ tf_sent t').
Proof.
  intros He (Hbase & Ht & Hg). unfold tftp_timer_expired, has_flag. cbn [tf_flags set_tf_timer]. rewrite (l_flags _ Hbase). cbn [negb Z.eqb].
  pose proof (base_timer t false Hbase) as Hb'. destruct fail.
  - eexists. split; [done|]. split; [|done]. apply ended_err; apply Hbase.
  - destruct (send_packet_ok e (set_tf_timer false t) He Hb') as (t' & -> & Ht' & Eq). exists t'. split; [done|]. split; [left; split; [done|]; split; by rewrite Eq|].
    intros _ Ha. split; [apply Ht'|]. rewrite Eq. split; [done|]. split; [done|]. cbn. rewrite Ha. apply elem_of_app. right. by left.
Qed.

Lemma data_blksize t i : base t -> (Some server, ack_packet i) ∈ tf_sent t \/ i = 0 /\ oack = false -> tf_blksize t = b.
Proof.
  intros Hbase [Hin|[_ Ho]]; [|by apply (l_blksize _ Hbase)]. destruct (has_peer t) eqn:Ep; [by apply (l_peer _ Hbase)|].
  destruct (l_alone _ Hbase Ep) as [_ Hall]. rewrite Forall_forall in Hall. by specialize (Hall _ Hin).
Qed.

Lemma receive_data e t i : env_ok e -> live t -> 0 <= i < nblk -> (Some server, ack_packet i) ∈ tf_sent t \/ i = 0 /\ oack = false -> exists t' rc,
  tftp_socket_deliver a path e t (data_packet i) (Some server) = Some (t', rc) /\ outcome t' /\ (good_env e -> i = first_gap (tf_bitmap t) -> advanced t t').
Proof.
  intros He (Hbase & Ht & Hg) Hi Hack. destruct (data_packet_parts i ltac:(lia)) as (Hl & _ & _ & Eop).
  rewrite deliver_server, Eop by (done || lia). cbn [be_val be16]. change (_ =? TFTP_OACK) with false. change (_ =? TFTP_DATA) with true. cbn [Z.eqb].
  by apply (tftp_rx_data_ok e (heard t) i He (heard_same t Hbase (data_blksize t i Hbase Hack)) Hg Hserver Hi).
Qed.

Lemma receive_oack e t : env_ok e -> live t -> exists t' rc, tftp_socket_deliver a path e t oack_packet (Some server) = Some (t', rc) /\ outcome t'
  /\ (good_env e -> tf_done t' = None /\ has_peer t' = true /\ first_gap (tf_bitmap t') = first_gap (tf_bitmap t)).
Proof.
  intros He (Hbase & Ht & Hg). rewrite deliver_server by (done || unfold oack_packet; rewrite zlen_app; cbn; lia).
  rewrite (mem_read_at [] (be16 TFTP_OACK) _ : mem_read oack_packet 0 2 = _). cbn [be_val be16]. change (_ =? TFTP_OACK) with true. cbn [Z.eqb].
  by apply rx_oack_ok.
Qed.

Lemma receive_error e t code text : live t -> exists t' rc,
  tftp_socket_deliver a path e t (be16 TFTP_ERROR ++ be16 code ++ text) (Some server) = Some (t', rc) /\ outcome t'.
Proof.
  intros (Hbase & Ht & Hg). assert (4 <= zlen (be16 TFTP_ERROR ++ be16 code ++ text)) by (rewrite !zlen_app; cbn; lia). rewrite deliver_server by (done || lia).
  rewrite (mem_read_at [] (be16 TFTP_ERROR) _ : mem_read (be16 TFTP_ERROR ++ be16 code ++ text) 0 2 = _). cbn [be_val be16].
  change (_ =? TFTP_OACK) with false. change (_ =? TFTP_DATA) with false. change (_ =? TFTP_ERROR) with true. unfold tftp_rx_error.
  rewrite (proj2 (Z.ltb_ge _ 4)), (mem_read_at (be16 TFTP_ERROR) (be16 code) text : mem_read (be16 TFTP_ERROR ++ be16 code ++ text) 2 2 = _) by lia.
  do 2 eexists. split; [done|]. apply ended_err; apply Hbase.
Qed.

Lemma step_ok t ev : live t -> possible t ev -> exists t', step t ev = Some t' /\ outcome t'.
Proof.
  intros Hlive (Hd & He & Hev). destruct ev as [e fail|e packet src|e err]; cbn [event_env step] in *.
  - destruct (expired_ok e t fail He Hlive) as (t' & E & Ho & _). by exists t'.
  - destruct Hev as [[-> Hs]|[Hsrc Hp]].
    + destruct Hs as [[_ ->]|[(i & Hi & -> & Hack)|(code & text & ->)]].
      * destruct (receive_oack e t He Hlive) as (t' & rc & -> & Ho & _). by exists t'.
      * destruct (receive_data e t i He Hlive Hi Hack) as (t' & rc & -> & Ho & _). by exists t'.
      * destruct (receive_error e t code text Hlive) as (t' & rc & -> & Ho). by exists t'.
    + destruct (deliver_stranger e t packet src (proj1 Hlive) Hp Hsrc) as (rc & ->). eexists. split; [done|]. left. by apply live_heard_flags.
  - eexists. split; [done|]. apply ended_err; unfold tftp_send_error, tftp_transmit; destruct (e_alloc e); try apply Hlive.
    cbn. apply Forall_app_2; [apply Hlive|]. constructor; [|done]. by right; right.
Qed.

Lemma run_outcome t0 t : live t0 -> run t0 t -> outcome t.
Proof.
  intros H0. induction 1 as [|t' ev t'' _ [Hl|(_ & Hd)] Hp E]; [by left| |].
  - destruct (step_ok t' ev Hl Hp) as (u & E' & Ho). congruence.
  - destruct Hp as (Hn' & _). by rewrite Hn' in Hd.
Qed.
(** ** Completion *)

Lemma run_trans t u v : run t u -> run u v -> run t v.
Proof. intros Htu. induction 1 as [|u' ev u'' _ IH Hp E]; [done|]. by eapply run_step. Qed.

Lemma run_one t ev t' : possible t ev -> step t ev = Some t' -> run t t'.
Proof. intros Hp E. eapply run_step; [apply run_refl|exact Hp|exact E]. Qed.

Definition fine_env : tftp_env := TftpEnv 1 1432 true true true true (Ok tt) (Ok tt) (Ok tt).

Lemma outcome_live t : outcome t -> tf_done t = None -> live t.
Proof. intros [H|(_ & H)] E; [done|]. by rewrite E in H. Qed.

(** The block that is missing can be fetched. *)
Lemma fetch t : live t -> (Some server, ack_packet (first_gap (tf_bitmap t))) ∈ tf_sent t \/ first_gap (tf_bitmap t) = 0 /\ oack = false ->
  exists t', run t t' /\ outcome t' /\ advanced t t'.
Proof.
  intros Hlive Hack. pose proof (live_gap t (proj1 Hlive) (proj2 (proj2 Hlive))) as Hg.
  assert (He : env_ok fine_env) by (unfold env_ok; cbn; lia).
  destruct (receive_data fine_env t _ He Hlive Hg Hack) as (t' & rc & E & Ho & Hadv). exists t'. split; [|split; [done|by apply Hadv]].
  apply (run_one t (Received fine_env (data_packet (first_gap (tf_bitmap t))) (Some server))); [|cbn [step]; by rewrite E].
  split; [apply Hlive|]. split; [done|]. left. split; [done|]. right. left. eauto.
Qed.

Lemma fetch_heard t : live t -> has_peer t = true -> exists t', run t t' /\ outcome t' /\ advanced t t'.
Proof.
  intros Hlive Hp. assert (He : env_ok fine_env) by (unfold env_ok; cbn; lia).
  destruct (expired_ok fine_env t false He Hlive) as (t1 & E & Ho & Hx). destruct (Hx eq_refl eq_refl) as (Hd & _ & Ebm & Hin).
  unfold next_datagram in Hin. rewrite Hp in Hin. destruct (fetch t1) as (t' & Hr & Ho' & Ha); [by apply outcome_live|left; by rewrite Ebm|].
  exists t'. split; [|split; [done|]].
  - eapply run_trans; [|exact Hr]. apply (run_one t (Expired fine_env false)); [|done]. split; [apply Hlive|]. split; [done|apply Hlive].
  - unfold advanced in *. by rewrite Ebm in Ha.
Qed.

Lemma fetch_next t : live t -> exists t', run t t' /\ outcome t' /\ advanced t t'.
Proof.
  intros Hlive. destruct (has_peer t) eqn:Ep; [by apply fetch_heard|]. destruct oack eqn:Eo.
  - assert (He : env_ok fine_env) by (unfold env_ok; cbn; lia). destruct (receive_oack fine_env t He Hlive) as (t1 & rc & E & Ho & Hx).
    destruct Hx as (Hd & Hp & Eg); [done|]. destruct (fetch_heard t1) as (t' & Hr & Ho' & Ha); [by apply outcome_live|done|].
    exists t'. split; [|split; [done|]].
    + eapply run_trans; [|exact Hr]. apply (run_one t (Received fine_env oack_packet (Some server))); [|cbn [step]; by rewrite E].
      split; [apply Hlive|]. split; [done|]. left. split; [done|]. left. by rewrite Eo.
    + unfold advanced in *. by rewrite Eg in Ha.
  - apply fetch; [done|]. right. split; [|done]. destruct (l_alone _ (proj1 Hlive) Ep) as [E0 _].
    destruct (l_map _ (proj1 Hlive)) as (n & S & (_ & _ & _ & _ & _ & Hg & _) & _ & Hc & _). destruct Hc as [[_ ->]|?]; lia.
Qed.

Lemma live_completes t : live t -> exists t', run t t' /\ tf_done t' = Some (Ok tt).
Proof.
  intros Hlive. remember (Z.to_nat (nblk - first_gap (tf_bitmap t))) as m eqn:Em. revert t Hlive Em. induction m as [m IH] using lt_wf_ind. intros t Hlive Em.
  destruct (fetch_next t Hlive) as (t1 & Hr & Ho & [Hd|(Hd & Hlt & _)]); [by exists t1|]. pose proof (outcome_live t1 Ho Hd) as Hl1.
  pose proof (live_gap t1 (proj1 Hl1) (proj2 (proj2 Hl1))). pose proof (live_gap t (proj1 Hlive) (proj2 (proj2 Hlive))).
  destruct (IH (Z.to_nat (nblk - first_gap (tf_bitmap t1))) ltac:(lia) t1 Hl1 eq_refl) as (t' & Hr' & Hd'). exists t'. split; [by eapply run_trans|done].
Qed.

(** ** Opening *)

Lemma empty_rep : bm_rep a empty_bitmap 0 (fun _ => false).
Proof.
  pose proof (blksize_bounds a). split; [done|]. split; [lia|]. split; [lia|]. cbn. split; [by destruct a|]. split; [intros i Hi; lia|]. split; [lia|].
  split; [intros i Hi; lia|done].
Qed.

Lemma opened_live t port flags mc : (oack = false -> b = TFTP_DEFAULT_BLKSIZE) -> Z.land flags TFTP_FL_MTFTP_RECOVERY = 0 ->
  t = TftpRequest TFTP_DEFAULT_BLKSIZE 0 port no_peer flags 0 empty_bitmap 0 true mc [] [] None -> live t.
Proof.
  intros Hdef Hfl ->. split; [|split; [done|by left]]. constructor; try done.
  - intros Ho. symmetry. by apply Hdef.
  - by left.
  - exists 0, (fun _ => false). split; [apply empty_rep|]. cbn. split; [lia|]. split; [by left|lia].
Qed.
End Server.

(** What the downloads of this file are limited to: a block size [b] from 1 to
    65535 (the default one if the server sends no OACK), a file that is not
    empty and has at most 65535 blocks, and a server with an address. *)
Definition serves (path file server : list Z) (b : Z) (oack : bool) : Prop :=
  0 < b < 65536 /\ nblk file b < 65536 /\ file <> [] /\ existsb (fun x => negb (x =? 0)) (take 2 server) = true
  /\ (nonul path /\ zlen path < 2 ^ 31) /\ (oack = false -> b = TFTP_DEFAULT_BLKSIZE).

(** The download of "tftp:" or "tftm:" URIs was started. *)
Definition started (a : arch) (path : list Z) (t : tftp_request) : Prop := exists e u, Uri.path u = Some (47 :: path)
  /\ (tftp_open a e true u = Some (Ok t) \/ tftm_open a e true u = Some (Ok t)).

Lemma core_opened a e u flags t : tftp_core_open a e true u TFTP_PORT false flags = Some (Ok t) -> exists port,
  t = TftpRequest TFTP_DEFAULT_BLKSIZE 0 port no_peer (Z.land flags (Z.lnot TFTP_FL_SEND_ACK)) 0 empty_bitmap 0 true false [] [] None.
Proof.
  unfold tftp_core_open. destruct (host u); [|done]. destruct (Uri.path u); [|done]. destruct (_ !! 0%nat); [|done]. case_if; [done|]. cbn [negb].
  destruct (uri_port a (Some u) TFTP_PORT) as [port|]; [|done]. unfold tftp_reopen. destruct (e_open e) as [[]|]; [|done]. intros [= <-]. by exists port.
Qed.

Lemma started_live a path file server b oack t : serves path file server b oack -> started a path t -> live a path file server b oack t.
Proof.
  intros (Hb & Hn & Hf & Hs & Hp & Hd) (e & u & _ & [(port & E)%core_opened|(port & E)%core_opened]); by eapply opened_live; [exact Hd| |exact E].
Qed.

(** C17.  TFTP delivers the file, for unicast downloads ("tftp:" and "tftm:") of
    a file that is not empty and has fewer than 65536 blocks ([serves]), if nobody
    else is heard before the server ([possible]: the first to answer is taken for
    the server).  Whatever is lost, repeated, reordered or, once the server was
    heard, sent by others, however often the timer expires and memory is missing:
    every datagram is a request, an acknowledgement (to the server that answered) of
    blocks the recipient has been given, or the notice of an abort; when the
    request ends without error, a transfer buffer that was given its data holds
    exactly the file; and as long as it has not ended, its timer is running and
    everything that can happen is handled without an access out of bounds. *)
Theorem tftp_delivers_file a path file server b oack tsize t0 t : serves path file server b oack -> started a path t0 ->
  run a path file server b oack tsize t0 t ->
  Forall (sent_ok a path file server b (tf_xfer t)) (tf_sent t)
  /\ (tf_done t = Some (Ok tt) -> forall junk, exists xb, replay a junk empty_buffer (tf_xfer t) = Some xb /\ xb_data xb = file /\ xb_len xb = zlen file)
  /\ (tf_done t = None -> tf_timer t = true /\ forall ev, possible file server b oack tsize t ev -> exists t', step a path t ev = Some t').
Proof.
  intros Hs H0 Hr. pose proof (started_live _ _ _ _ _ _ _ Hs H0) as Hl. destruct Hs as (Hb & Hn & Hf & Hsv & Hp & Hd).
  destruct (run_outcome a path file server b oack tsize Hb Hn Hf Hsv Hp t0 t Hl Hr) as [H|(Hsent & Hdone)].
  - split; [apply H|]. split; [rewrite (l_done _ _ _ _ _ _ _ (proj1 H)); done|]. intros _. split; [apply H|]. intros ev Hev.
    destruct (step_ok a path file server b oack tsize Hb Hn Hf Hsv Hp t ev H Hev) as (t' & E & _). by exists t'.
  - split; [done|]. destruct (tf_done t) as [[[]|]|]; done.
Qed.

(** Three bytes in blocks of two: the options, the two blocks. *)
Definition demo_uri : uri := Uri None None None None (Some [104]) None (Some [47; 102]) None None None None.
Definition demo_server : list Z := [0; 2] ++ replicate 30 7.
Definition demo_start : tftp_request :=
  TftpRequest TFTP_DEFAULT_BLKSIZE 0 TFTP_PORT no_peer TFTP_FL_RRQ_SIZES 0 empty_bitmap 0 true false [] [] None.
Definition demo_next (t : tftp_request) (packet : list Z) : tftp_request := default t (step Arch64 [102] t (Received fine_env packet (Some demo_server))).
Definition demo_oack : tftp_request := demo_next demo_start (oack_packet [1; 2; 3] 2 true).
Definition demo_one : tftp_request := demo_next demo_oack (data_packet [1; 2; 3] 2 0).
Definition demo_two : tftp_request := demo_next demo_one (data_packet [1; 2; 3] 2 1).

Lemma demo_started : started Arch64 [102] demo_start.
Proof. exists fine_env, demo_uri. split; [done|]. by left. Qed.

Lemma demo_serves : serves [102] [1; 2; 3] demo_server 2 true.
Proof. split; [lia|]. split; [done|]. split; [done|]. split; [done|]. split; [split; [solve_nonul|cbn; lia]|done]. Qed.

Lemma demo_deliver t packet : run Arch64 [102] [1; 2; 3] demo_server 2 true true demo_start t -> tf_done t = None ->
  served [1; 2; 3] demo_server 2 true true t packet -> is_Some (step Arch64 [102] t (Received fine_env packet (Some demo_server))) ->
  run Arch64 [102] [1; 2; 3] demo_server 2 true true demo_start (demo_next t packet).
Proof.
  intros Hr Hd Hs [t' E]. unfold demo_next. rewrite E. eapply run_step; [exact Hr| |exact E]. split; [done|]. split; [unfold env_ok; cbn; lia|]. by left.
Qed.

Lemma demo_run : run Arch64 [102] [1; 2; 3] demo_server 2 true true demo_start demo_two.
Proof.
  apply demo_deliver; [apply demo_deliver; [apply demo_deliver; [apply run_refl|done|by left|]| |right; left; exists 0|]| |right; left; exists 1|].
  all: try (vm_compute; by eexists). all: try (vm_compute; reflexivity).
  - split; [done|]. split; [done|]. left. apply (list_elem_of_lookup_2 _ 0). vm_compute. reflexivity.
  - split; [done|]. split; [done|]. left. apply (list_elem_of_lookup_2 _ 1). vm_compute. reflexivity.
Qed.

Lemma tftp_delivers_file_witness : tf_done demo_two = Some (Ok tt)
  /\ exists xb, replay Arch64 [] empty_buffer (tf_xfer demo_two) = Some xb /\ xb_data xb = [1; 2; 3] /\ xb_len xb = 3.
Proof.
  split; [vm_compute; reflexivity|].
  apply (proj1 (proj2 (tftp_delivers_file Arch64 [102] [1; 2; 3] demo_server 2 true true demo_start demo_two demo_serves demo_started demo_run))).
  vm_compute. reflexivity.
Defined.

(** C18.  As long as such a download (unicast, of a file that is not empty and
    has fewer than 65536 blocks, nobody else being heard before the server) has
    not ended it can be completed: from every state it can be in there is a
    continuation (a retransmission, an answer of the server, ...) that ends with
    success. *)
Theorem tftp_completes a path file server b oack tsize t0 t : serves path file server b oack -> started a path t0 ->
  run a path file server b oack tsize t0 t -> tf_done t = None -> exists t', run a path file server b oack tsize t t' /\ tf_done t' = Some (Ok tt).
Proof.
  intros Hs H0 Hr Hdone. pose proof (started_live _ _ _ _ _ _ _ Hs H0) as Hl. destruct Hs as (Hb & Hn & Hf & Hsv & Hp & Hd).
  pose proof (run_outcome a path file server b oack tsize Hb Hn Hf Hsv Hp t0 t Hl Hr) as Ho.
  apply live_completes; try done. by apply outcome_live.
Qed.

Lemma tftp_completes_witness : exists t, run Arch64 [102] [1; 2; 3] demo_server 2 true true demo_start t /\ tf_done t = Some (Ok tt).
Proof.
  apply (tftp_completes Arch64 [102] [1; 2; 3] demo_server 2 true true demo_start demo_start demo_serves demo_started); [apply run_refl|reflexivity].
Defined.

(** ** What the bitmap does not cover *)

(** A block of a request whose bitmap is empty, with data up to the known size. *)
Lemma rx_data_no_bitmap a path e t number data : tf_bitmap t = empty_bitmap -> e_deliver e = Ok tt -> 0 < number < 2 ^ 16 ->
  0 <= tf_blksize t -> zlen data <= tf_blksize t -> u32 ((number - 1) * tf_blksize t) + zlen data <= tf_filesize t < 2 ^ size_bits a ->
  tftp_rx_data a path e t (be16 TFTP_DATA ++ be16 number ++ data) = None.
Proof.
  intros Ebm Ed Hnum Hblk Hl Hs. unfold tftp_rx_data. rewrite (proj2 (Z.ltb_ge _ 4)) by (rewrite !zlen_app; cbn; lia).
  rewrite (mem_read_at (be16 TFTP_DATA) (be16 number) data : mem_read (be16 TFTP_DATA ++ be16 number ++ data) 2 2 = _).
  unfold block_index. rewrite Ebm, be16_val, Z.mod_small by lia. change (Z.land _ _) with 0. cbn [Z.eqb]. rewrite (proj2 (Z.eqb_neq number 0)) by lia. cbn [andb].
  rewrite (uwrap_small 32 (0 + _)) by lia. replace (0 + (number - 1)) with (number - 1) by lia. change (drop 4 _) with data.
  rewrite (proj2 (Z.ltb_ge (tf_blksize t) _)), Ed by lia. pose proof (uwrap_range 32 ((number - 1) * tf_blksize t) ltac:(lia)).
  unfold tftp_presize. rewrite (uwrap_small (size_bits a)), (proj2 (Z.leb_le _ _)) by (cbn [tf_filesize log_xfer set_tf_xfer]; lia).
  cbn [tf_bitmap log_xfer set_tf_xfer]. rewrite Ebm. done.
Qed.

Lemma deliver_first a path e t packet src : has_peer t = false -> mem_read packet 0 2 = Some (be16 TFTP_DATA) ->
  tftp_socket_deliver a path e t packet (Some src)
  = tftp_rx_data a path e (set_tf_peer src (set_tf_flags (Z.lor (tf_flags t) TFTP_FL_SEND_ACK) t)) packet.
Proof.
  intros Hp Hop. pose proof (mem_read_Some _ _ _ _ Hop) as (_ & _ & Hl & _). unfold tftp_socket_deliver, tftp_rx. rewrite (proj2 (Z.ltb_ge _ 2)) by lia.
  set (u := set_tf_flags _ t). by rewrite (Hp : has_peer u = false), Hop.
Qed.


(** An MTFTP download that has received a block and hears nothing any more. *)
Definition demo_mtftp : tftp_request :=
  TftpRequest TFTP_DEFAULT_BLKSIZE 0 MTFTP_PORT no_peer TFTP_FL_MTFTP_RECOVERY MTFTP_MAX_TIMEOUTS (Bitmap [1] 2 1) 512 true true [] [(0, replicate 512 7)] None.


(** The block size of an OACK is not checked: with no size known, an empty block
    number five after a block size of zero, and an empty block number 65 after
    a block size of 2^31 (the offset wraps to zero), are marked in a bitmap that
    is still empty. *)
Example tftp_blksize_unchecked :
  Forall (fun p => exists t', demo_next demo_start (be16 TFTP_OACK ++ option_text blksize_name p.1) = t' /\ tf_blksize t' = p.1
    /\ tf_done t' = None /\ bitmap_fits Arch64 t'
    /\ tftp_socket_deliver Arch64 [102] fine_env t' (be16 TFTP_DATA ++ be16 p.2) (Some demo_server) = None) [(0, 5); (2 ^ 31, 65)].
Proof.
  repeat constructor; eexists; (split; [reflexivity|]); (split; [vm_compute; reflexivity|]); (split; [vm_compute; reflexivity|]);
    (split; [|vm_compute; reflexivity]).
  all: exists 0, (fun _ => false); split; [|left; split; [vm_compute; reflexivity|done]].
  all: match goal with |- bm_rep _ ?b _ _ => let x := eval vm_compute in b in change b with x end; exact (empty_rep Arch64 []).
Qed.

(** Once there is a peer, sending does not fail. *)
Lemma send_heard a path e t : has_peer t = true -> exists sent, tftp_send_packet a path e t = Some (set_tf_sent sent (set_tf_timer true t)).
Proof.
  intros Hp. unfold tftp_send_packet. rewrite (Hp : has_peer (set_tf_timer true t) = true). cbn [negb]. unfold tftp_send_ack, tftp_transmit.
  destruct (has_flag _ _), (e_alloc e); eexists; try done; instantiate (1 := tf_sent t); by destruct t.
Qed.

(** When the first missing block is the last one with a 16-bit number, the
    block before it arriving once more is taken for the one with that number in
    the next round: its data are given to the recipient at a wrong offset and
    the file grows. *)
Theorem tftp_rollover_duplicate a path e t data n S : bm_rep a (tf_bitmap t) n S -> n = tf_filesize t / tf_blksize t + 1 ->
  first_gap (tf_bitmap t) = 65535 -> 65535 < n -> has_peer t = true -> e_deliver e = Ok tt -> e_bitmap e = true ->
  0 < tf_blksize t -> zlen data <= tf_blksize t -> tf_filesize t < 131070 * tf_blksize t + zlen data < 2 ^ 32 - 2 ^ 16 ->
  exists t', tftp_rx_data a path e t (be16 TFTP_DATA ++ be16 65535 ++ data) = Some (t', Ok tt)
  /\ (131070 * tf_blksize t, data) ∈ tf_xfer t' /\ tf_filesize t' = 131070 * tf_blksize t + zlen data /\ tf_done t' = tf_done t.
Proof.
  intros Hr En Hg Hgn Hp Ed Eb Hblk Hl Hs. unfold tftp_rx_data. rewrite (proj2 (Z.ltb_ge _ 4)) by (rewrite !zlen_app; cbn; lia).
  rewrite (mem_read_at (be16 TFTP_DATA) (be16 65535) data : mem_read (be16 TFTP_DATA ++ be16 65535 ++ data) 2 2 = _).
  unfold block_index, bitmap_first_gap. rewrite Hg. change (be_val (be16 65535)) with 65535. change (_ && _) with false.
  cbn [Z.eqb]. change (u32 (Z.land _ _ + _)) with 131070. change (drop 4 _) with data.
  rewrite (proj2 (Z.ltb_ge (tf_blksize t) _)), Ed, (uwrap_small 32) by lia.
  pose proof (Z.pow_le_mono_r 2 32 (size_bits a) ltac:(lia) (size_bits_large a)). rewrite (uwrap_small (size_bits a)) by lia.
  set (fs := 131070 * tf_blksize t + zlen data) in *. assert (Hq : 131070 <= fs / tf_blksize t <= fs).
  { split; [apply Z.div_le_lower_bound; unfold fs; lia|apply Z.div_le_upper_bound; nia]. }
  destruct (presize_larger a e (log_xfer (131070 * tf_blksize t) data t) fs) as (more & _ & ->); cbn [tf_filesize tf_blksize log_xfer set_tf_xfer]; try lia.
  pose proof (blksize_bounds a). pose proof (Z.div_le_mono (tf_filesize t) fs (tf_blksize t) ltac:(lia) ltac:(lia)).
  destruct (bitmap_resize_spec a _ n S (fs / tf_blksize t + 1) Hr ltac:(lia) ltac:(lia)) as (bm & E & Hr'). cbn [tf_bitmap log_xfer set_tf_xfer]. rewrite Eb, E.
  destruct (bitmap_set_spec a bm _ _ 131070 Hr' ltac:(lia)) as (bm' & E' & Hr''). cbn [tf_bitmap set_tf_bitmap]. rewrite E'.
  set (u := set_tf_bitmap bm' _). destruct (send_heard a path e u Hp) as (sent & ->).
  assert (Hnf : bitmap_full bm' = false).
  { destruct Hr as (_ & _ & _ & _ & _ & _ & _ & Hgap), Hr'' as (El & _ & _ & _ & _ & _ & Hlow & _). unfold bitmap_full. rewrite El. apply Z.eqb_neq. intros Ef.
    specialize (Hlow 65535 ltac:(lia)). rewrite <- Hg, Hgap in Hlow by lia. rewrite Hg in Hlow. by rewrite andb_false_r in Hlow. }
  cbn [tf_bitmap set_tf_sent set_tf_timer set_tf_bitmap u]. rewrite Hnf. eexists. split; [done|]. cbn. split; [|done]. rewrite !elem_of_app. left. right. by left.
Qed.

(** 65535 bytes in blocks of one byte, of which all but the last block are there. *)
Definition demo_rollover_bitmap : bitmap := Bitmap (replicate 1023 (Z.ones 64) ++ [Z.ones 63]) 65536 65535.
Definition demo_rollover : tftp_request :=
  TftpRequest 1 0 TFTP_PORT demo_server TFTP_FL_SEND_ACK 0 demo_rollover_bitmap 65535 true false [] [] None.

Lemma demo_rollover_rep : bm_rep Arch64 demo_rollover_bitmap 65536 (fun i => i <? 65535).
Proof.
  split; [done|]. split; [lia|]. split; [vm_compute; reflexivity|]. change (blocks demo_rollover_bitmap) with (replicate 1023 (Z.ones 64) ++ [Z.ones 63]).
  rewrite zlen_app, length_replicate. split; [vm_compute; reflexivity|]. split; [|split; [cbn; lia|split; [cbn; intros i Hi; lia|done]]].
  intros i Hi. change (BITMAP_BLKSIZE Arch64) with 64 in Hi. cbn [length] in Hi. unfold bm_bit. change (BITMAP_BLKSIZE Arch64) with 64.
  pose proof (Z.div_mod i 64 ltac:(lia)). pose proof (Z.mod_pos_bound i 64 ltac:(lia)). cbn [blocks demo_rollover_bitmap].
  destruct (decide (i / 64 < 1023)) as [Hlt|Hge].
  - rewrite lookup_app_l by (rewrite length_replicate; lia). rewrite lookup_replicate_2 by lia. cbn [default from_option id].
    rewrite Z.ones_spec_low by lia. symmetry. apply andb_true_iff. lia.
  - rewrite lookup_app_r by (rewrite length_replicate; lia). rewrite length_replicate. replace (Z.to_nat (i / 64) - 1023)%nat with 0%nat by lia.
    cbn [lookup list_lookup default from_option id]. rewrite Z.testbit_ones by lia. rewrite (proj2 (Z.ltb_lt i 65536)), (proj2 (Z.leb_le 0 _)) by lia. cbn [andb].
    apply Bool.eq_iff_eq_true. rewrite !Z.ltb_lt. lia.
Qed.

Lemma tftp_rollover_duplicate_witness : exists t', tftp_rx_data Arch64 [102] fine_env demo_rollover (be16 TFTP_DATA ++ be16 65535 ++ [7]) = Some (t', Ok tt)
  /\ (131070, [7]) ∈ tf_xfer t' /\ tf_filesize t' = 131071 /\ tf_done t' = None.
Proof.
  apply (tftp_rollover_duplicate Arch64 [102] fine_env demo_rollover [7] 65536 (fun i => i <? 65535)); [apply demo_rollover_rep|..]; cbn; reflexivity || lia.
Defined.
