(* ===== verification/Asn1.v ===== *)
(** * ASN.1 objects ([crypto/asn1.c], [include/ipxe/asn1.h]) and dates ([core/time.c])

    A cursor is a range of an object in memory.  [None] is an access outside the
    object, or a shift or table index that is not defined.  A length that does
    not fit into [int] is returned as a negative number and so is taken for an
    error by all callers ([ENEGATIVE]). *)
From S2P Require Import Prelude Strings Memory.

Definition ASN1_END : Z := 0x00.
Definition ASN1_BOOLEAN : Z := 0x01.
Definition ASN1_INTEGER : Z := 0x02.
Definition ASN1_BIT_STRING : Z := 0x03.
Definition ASN1_OID : Z := 0x06.
Definition ASN1_UTC_TIME : Z := 0x17.
Definition ASN1_GENERALIZED_TIME : Z := 0x18.
Definition ASN1_SEQUENCE : Z := 0x30.
Definition ASN1_ANY : Z := 0xffffffff.

(** The two have the same number. *)
Definition EINVAL_ASN1_INTEGER : errno := EINVAL_ASN1_BOOLEAN.

Record asn1_cursor := Cursor { c_obj : list Z; c_data : Z; c_len : Z }.

Definition asn1_invalidate_cursor (c : asn1_cursor) : asn1_cursor := Cursor (c_obj c) (c_data c) 0.

Definition asn1_type (c : asn1_cursor) : option Z := if 1 <=? c_len c then mem_byte (c_obj c) (c_data c) else Some ASN1_END.

(** [cursor->data += n; cursor->len -= n] *)
Definition advance (n : Z) (c : asn1_cursor) : asn1_cursor := Cursor (c_obj c) (c_data c + n) (c_len c - n).

(** [for ( len = 0 ; len_len ; len_len-- )] *)
Fixpoint len_loop (len_len : nat) (c : asn1_cursor) (len : Z) : option (asn1_cursor * Z) :=
  match len_len with
  | O => Some (c, len)
  | S len_len' =>
      opt! b := mem_byte (c_obj c) (c_data c) in
      len_loop len_len' (advance 1 c) (Z.lor (u32 (Z.shiftl len 8)) b)
  end.

Section Asn1.
Context (a : arch).

Definition asn1_start (c : asn1_cursor) (type extra : Z) : option (asn1_cursor * res Z) :=
  if c_len c <? 2 then Some (c, Err EINVAL_ASN1_EMPTY) else
  opt! t := asn1_type c in
  if negb (type =? ASN1_ANY) && negb (type =? t) then Some (c, Err ENXIO) else
  let c := advance 1 c in
  opt! len_len := mem_byte (c_obj c) (c_data c) in
  let '(c, len_len) := if negb (Z.land len_len 0x80 =? 0) then (advance 1 c, Z.land len_len 0x7f) else (c, 1) in
  if c_len c <? len_len then Some (c, Err EINVAL_ASN1_LEN_LEN) else
  opt! (c, len) := len_loop (Z.to_nat len_len) c 0 in
  if uwrap (size_bits a) (c_len c + extra) <? len then Some (c, Err EINVAL_ASN1_LEN) else
  let rc := swrap 32 len in
  Some (c, if rc <? 0 then Err (ENEGATIVE rc) else Ok rc).

Definition asn1_enter (c : asn1_cursor) (type : Z) : option (asn1_cursor * res unit) :=
  opt! (c, len) := asn1_start c type 0 in
  match len with
  | Err e => Some (asn1_invalidate_cursor c, Err e)
  | Ok len => Some (Cursor (c_obj c) (c_data c) len, Ok tt)
  end.

Definition asn1_skip_if_exists (c : asn1_cursor) (type : Z) : option (asn1_cursor * res unit) :=
  opt! (c, len) := asn1_start c type 0 in
  match len with
  | Err e => Some (c, Err e)
  | Ok len =>
      let c := advance len c in
      Some (c, if c_len c =? 0 then Err ENOENT else Ok tt)
  end.

Definition asn1_skip (c : asn1_cursor) (type : Z) : option (asn1_cursor * res unit) :=
  opt! (c, rc) := asn1_skip_if_exists c type in
  match rc with
  | Err e => Some (asn1_invalidate_cursor c, Err e)
  | Ok _ => Some (c, Ok tt)
  end.

Definition asn1_shrink (c : asn1_cursor) (type : Z) : option (asn1_cursor * res unit) :=
  opt! (temp, len) := asn1_start c type 0 in
  match len with
  | Err e => Some (asn1_invalidate_cursor c, Err e)
  | Ok len => Some (Cursor (c_obj c) (c_data c) (c_data temp + len - c_data c), Ok tt)
  end.

Definition asn1_enter_any (c : asn1_cursor) := asn1_enter c ASN1_ANY.
Definition asn1_skip_any (c : asn1_cursor) := asn1_skip c ASN1_ANY.
Definition asn1_shrink_any (c : asn1_cursor) := asn1_shrink c ASN1_ANY.

(** ** Values *)

Definition asn1_boolean (c : asn1_cursor) : option (res Z) :=
  opt! (contents, _) := asn1_enter c ASN1_BOOLEAN in
  if negb (c_len contents =? 1) then Some (Err EINVAL_ASN1_BOOLEAN) else
  opt! value := mem_byte (c_obj contents) (c_data contents) in
  Some (Ok value).

(** The rest of the bytes of an integer; shifts of an [int] are arithmetic. *)
Fixpoint integer_loop (n : nat) (c : asn1_cursor) (value : Z) : option (res Z) :=
  match n with
  | O => Some (Ok value)
  | S n' =>
      let high_byte := u8 (Z.shiftr value 24) in
      if negb (high_byte =? 0x00) && negb (high_byte =? 0xff) then Some (Err EINVAL_ASN1_INTEGER) else
      opt! b := mem_byte (c_obj c) (c_data c) in
      integer_loop n' (advance 1 c) (Z.lor (swrap 32 (Z.shiftl value 8)) b)
  end.

Definition asn1_integer (c : asn1_cursor) : option (res Z) :=
  opt! (contents, rc) := asn1_enter c ASN1_INTEGER in
  match rc with
  | Err e => Some (Err e)
  | Ok _ =>
      if c_len contents <? 1 then Some (Err EINVAL_ASN1_INTEGER) else
      opt! b := mem_byte (c_obj contents) (c_data contents) in
      let contents := advance 1 contents in
      integer_loop (Z.to_nat (c_len contents)) contents (swrap 8 b)
  end.

Record asn1_bit_string_t := BitString { bs_data : Z; bs_len : Z; bs_unused : Z }.

Definition asn1_bit_string (c : asn1_cursor) : option (res asn1_bit_string_t) :=
  opt! (contents, rc) := asn1_enter c ASN1_BIT_STRING in
  match rc with
  | Err e => Some (Err e)
  | Ok _ =>
      if c_len contents <? 1 then Some (Err EINVAL_BIT_STRING) else
      let len := c_len contents - 1 in
      let data := c_data contents + 1 in
      opt! unused := mem_byte (c_obj contents) (c_data contents) in
      opt! unused_mask := (if u32 (8 - unused) <? 32 then Some (u8 (Z.shiftr 0xff (u32 (8 - unused)))) else None) in
      let last := data + len - 1 in
      if 8 <=? unused then Some (Err EINVAL_BIT_STRING) else
      if (0 <? unused) && (len =? 0) then Some (Err EINVAL_BIT_STRING) else
      opt! l := mem_byte (c_obj contents) last in
      if negb (Z.land l unused_mask =? 0) then Some (Err EINVAL_BIT_STRING) else
      Some (Ok (BitString data len unused))
  end.

Definition asn1_integral_bit_string (c : asn1_cursor) : option (res asn1_bit_string_t) :=
  opt! r := asn1_bit_string c in
  match r with
  | Err e => Some (Err e)
  | Ok bits => Some (if negb (bs_unused bits =? 0) then Err EINVAL_BIT_STRING else Ok bits)
  end.

(** ** Algorithms *)

Definition asn1_compare (c1 c2 : asn1_cursor) : option Z :=
  let difference := swrap 32 (c_len c2 - c_len c1) in
  if negb (difference =? 0) then Some difference else
  if c_len c1 =? 0 then Some 0 else
  if (0 <=? c_data c1) && (0 <=? c_data c2) then
    memcmp (drop (Z.to_nat (c_data c1)) (c_obj c1)) (drop (Z.to_nat (c_data c2)) (c_obj c2)) (Z.to_nat (c_len c1))
  else None.

Record asn1_algorithm_t := Algorithm { al_name : list Z; al_oid : asn1_cursor; al_pubkey : bool; al_digest : bool }.

(** The linker table of the algorithms that are part of a build. *)
Context (algorithms : list asn1_algorithm_t).

Fixpoint find_algorithm_loop (table : list asn1_algorithm_t) (c : asn1_cursor) : option (option asn1_algorithm_t) :=
  match table with
  | [] => Some None
  | algorithm :: table' =>
      opt! d := asn1_compare (al_oid algorithm) c in
      if d =? 0 then Some (Some algorithm) else find_algorithm_loop table' c
  end.

Definition asn1_find_algorithm (c : asn1_cursor) : option (option asn1_algorithm_t) := find_algorithm_loop algorithms c.

Definition asn1_algorithm (c : asn1_cursor) : option (res asn1_algorithm_t) :=
  opt! (contents, _) := asn1_enter c ASN1_SEQUENCE in
  opt! (contents, rc) := asn1_enter contents ASN1_OID in
  match rc with
  | Err _ => Some (Err EINVAL_ASN1_ALGORITHM)
  | Ok _ =>
      opt! r := asn1_find_algorithm contents in
      Some (match r with Some algorithm => Ok algorithm | None => Err ENOTSUP_ALGORITHM end)
  end.

Definition checked_algorithm (ok : asn1_algorithm_t -> bool) (c : asn1_cursor) : option (res asn1_algorithm_t) :=
  opt! r := asn1_algorithm c in
  Some (match r with Err e => Err e | Ok algorithm => if ok algorithm then Ok algorithm else Err ENOTTY_ALGORITHM end).

Definition asn1_pubkey_algorithm : asn1_cursor -> option (res asn1_algorithm_t) := checked_algorithm al_pubkey.
Definition asn1_digest_algorithm : asn1_cursor -> option (res asn1_algorithm_t) := checked_algorithm al_digest.
Definition asn1_signature_algorithm : asn1_cursor -> option (res asn1_algorithm_t) := checked_algorithm (fun al => al_pubkey al && al_digest al).
End Asn1.

(** ** Dates *)

Record tm := Tm { tm_sec : Z; tm_min : Z; tm_hour : Z; tm_mday : Z; tm_mon : Z; tm_year : Z }.

Definition is_leap_year (tm_year : Z) : bool :=
  let leap_year := false in
  let leap_year := if Z.rem tm_year 4 =? 0 then true else leap_year in
  let leap_year := if Z.rem tm_year 100 =? 0 then false else leap_year in
  if Z.rem tm_year 400 =? 100 then true else leap_year.

Definition leap_years_to_end (tm_year : Z) : Z := Z.quot tm_year 4 - Z.quot tm_year 100 + Z.quot (tm_year + 300) 400.

Definition day_offset : list Z := [1; 4; 3; 6; 1; 4; 6; 2; 5; 0; 3; 5].

Definition day_of_week (tm_year tm_mon tm_mday : Z) : option Z :=
  let pseudo_year := if tm_mon <? 2 then tm_year - 1 else tm_year in
  opt! offset := (if 0 <=? tm_mon then day_offset !! Z.to_nat tm_mon else None) in
  Some (Z.rem (pseudo_year + leap_years_to_end pseudo_year + offset + tm_mday) 7).

Definition days_to_month_start : list Z := [0; 31; 59; 90; 120; 151; 181; 212; 243; 273; 304; 334].

(** The seconds since the epoch, and the days of the week and of the year that
    are stored in the argument. *)
Definition mktime (t : tm) : option (Z * Z * Z) :=
  opt! start := (if 0 <=? tm_mon t then days_to_month_start !! Z.to_nat (tm_mon t) else None) in
  let tm_yday := tm_mday t - 1 + start in
  let tm_yday := if (2 <=? tm_mon t) && is_leap_year (tm_year t) then tm_yday + 1 else tm_yday in
  opt! tm_wday := day_of_week (tm_year t) (tm_mon t) (tm_mday t) in
  let days_since_epoch := tm_yday + 365 * tm_year t - 25567 + leap_years_to_end (tm_year t - 1) in
  let seconds_since_day := (tm_hour t * 60 + tm_min t) * 60 + tm_sec t in
  Some (days_since_epoch * 86400 + seconds_since_day, tm_wday, tm_yday).

(** The pairs of digits from the [i]-th on; the seconds may be missing. *)
Fixpoint pairs_loop (n : nat) (data : list Z) (pairs : list Z) : option (res (list Z * list Z)) :=
  match n with
  | O => Some (Ok (pairs, data))
  | S n' =>
      if zlen data <? 2 then
        if bool_decide (n' = 0%nat) then Some (Ok (pairs ++ [0], data)) else Some (Err EINVAL_ASN1_TIME)
      else
        opt! tens := data !! 0%nat in
        opt! units := data !! 1%nat in
        if negb (isdigit tens && isdigit units) then Some (Err EINVAL_ASN1_TIME) else
        pairs_loop n' (drop 2 data) (pairs ++ [u8 (10 * (tens - 48) + (units - 48))])
  end.

Definition asn1_generalized_time (a : arch) (c : asn1_cursor) : option (res Z) :=
  opt! type := asn1_type c in
  opt! have_century :=
    (if type =? ASN1_UTC_TIME then Some (Some false) else if type =? ASN1_GENERALIZED_TIME then Some (Some true) else Some None) in
  match have_century with
  | None => Some (Err EINVAL_ASN1_TIME)
  | Some have_century =>
      opt! (contents, rc) := asn1_enter a c type in
      match rc with
      | Err e => Some (Err e)
      | Ok _ =>
          opt! data := mem_read (c_obj contents) (c_data contents) (c_len contents) in
          opt! r := pairs_loop (if have_century then 7 else 6) data (if have_century then [] else [0]) in
          match r with
          | Err e => Some (Err e)
          | Ok ([century; year; month; day; hour; minute; second], data) =>
              let century := if have_century then century else if 50 <=? year then 19 else 20 in
              opt! trailing := (if zlen data =? 1 then opt! z := data !! 0%nat in Some (z =? 90) else Some false) in
              if negb trailing then Some (Err EINVAL_ASN1_TIME) else
              opt! (time, _, _) := mktime (Tm second minute hour day (month - 1) ((century - 19) * 100 + year)) in
              Some (Ok time)
          | Ok _ => None
          end
      end
  end.

(** ** Building *)

(** [bl_data] is [None] for [NULL]. *)
Record asn1_builder := Builder { bl_data : option (list Z); bl_len : Z }.

Section Builder.
Context (a : arch).

Definition ASN1_MAX_LEN_LEN : Z := 1 + ptr_bytes a.

(** [for ( temp = len ; temp ; temp >>= 8 ) len_len++] *)
Fixpoint len_len_loop (fuel : nat) (temp len_len : Z) : option Z :=
  if temp =? 0 then Some len_len else
  match fuel with O => None | S fuel' => len_len_loop fuel' (Z.shiftr temp 8) (len_len + 1) end.

(** [for ( temp = len ; temp ; temp >>= 8 ) header->length[len_len--] = ...] *)
Fixpoint len_bytes_loop (fuel : nat) (length_ : list Z) (temp len_len : Z) : option (list Z) :=
  if temp =? 0 then Some length_ else
  match fuel with
  | O => None
  | S fuel' =>
      opt! length_ := mem_write length_ len_len [Z.land temp 0xff] in
      len_bytes_loop fuel' length_ (Z.shiftr temp 8) (len_len - 1)
  end.

(** The header (an object of fixed size) and the length that is used of it; a
    [size_t] has [ptr_bytes] bytes. *)
Definition asn1_header (type len : Z) : option (list Z * Z) :=
  let length_ := replicate (Z.to_nat ASN1_MAX_LEN_LEN) 0 in
  let fuel := Z.to_nat (ptr_bytes a) in
  if len <? 0x80 then
    opt! length_ := mem_write length_ 0 [u8 len] in Some (u8 type :: length_, 2)
  else
    opt! len_len := len_len_loop fuel len 0 in
    opt! length_ := mem_write length_ 0 [u8 (Z.lor 0x80 len_len)] in
    opt! length_ := len_bytes_loop fuel length_ len len_len in
    Some (u8 type :: length_, 2 + len_len).

(** [alloc] is whether [realloc] succeeds, [junk] what a grown block contains. *)
Definition asn1_grow (alloc : bool) (junk : list Z) (b : asn1_builder) (extra : Z) : option (asn1_builder * res unit) :=
  match bl_data b, negb (bl_len b =? 0) with
  | None, true => Some (b, Err ENOMEM)
  | data, _ =>
      let new_len := uwrap (size_bits a) (bl_len b + extra) in
      if negb alloc then Some (Builder None (bl_len b), Err ENOMEM) else
      let new := take (Z.to_nat new_len) (default [] data ++ junk ++ replicate (Z.to_nat new_len) 0) in
      opt! new := mem_move new extra 0 (bl_len b) in
      Some (Builder (Some new) new_len, Ok tt)
  end.

(** A write to the data of a builder that has been grown. *)
Definition builder_write (b : asn1_builder) (off : Z) (bytes : list Z) : option asn1_builder :=
  opt! data := bl_data b in
  opt! data := mem_write data off bytes in
  Some (Builder (Some data) (bl_len b)).

Definition asn1_prepend_raw (alloc : bool) (junk : list Z) (b : asn1_builder) (data : list Z) : option (asn1_builder * res unit) :=
  opt! (b, rc) := asn1_grow alloc junk b (zlen data) in
  match rc with
  | Err e => Some (b, Err e)
  | Ok _ => opt! b := builder_write b 0 data in Some (b, Ok tt)
  end.

Definition asn1_prepend (alloc : bool) (junk : list Z) (b : asn1_builder) (type : Z) (data : list Z) : option (asn1_builder * res unit) :=
  opt! (header, header_len) := asn1_header type (zlen data) in
  opt! (b, rc) := asn1_grow alloc junk b (header_len + zlen data) in
  match rc with
  | Err e => Some (b, Err e)
  | Ok _ =>
      opt! header := mem_read header 0 header_len in
      opt! b := builder_write b 0 header in
      opt! b := builder_write b header_len data in
      Some (b, Ok tt)
  end.

Definition asn1_wrap (alloc : bool) (junk : list Z) (b : asn1_builder) (type : Z) : option (asn1_builder * res unit) :=
  opt! (header, header_len) := asn1_header type (bl_len b) in
  opt! (b, rc) := asn1_grow alloc junk b header_len in
  match rc with
  | Err e => Some (b, Err e)
  | Ok _ =>
      opt! header := mem_read header 0 header_len in
      opt! b := builder_write b 0 header in
      Some (b, Ok tt)
  end.

(** The built object as a cursor. *)
Definition asn1_built (b : asn1_builder) : asn1_cursor := Cursor (default [] (bl_data b)) 0 (bl_len b).
End Builder.

(** SEQUENCE { INTEGER 300 } *)
Example build_demo :
  (opt! (b, _) := asn1_prepend Arch32 true [] (Builder None 0) ASN1_INTEGER [1; 44] in
   opt! (b, _) := asn1_wrap Arch32 true [] b ASN1_SEQUENCE in
   opt! (c, _) := asn1_enter Arch32 (asn1_built b) ASN1_SEQUENCE in
   opt! v := asn1_integer Arch32 c in Some (bl_data b, v))
  = Some (Some [48; 4; 2; 2; 1; 44], Ok 300).
Proof. vm_compute. reflexivity. Qed.

(** UTCTime "700102030405Z" *)
Example time_demo :
  asn1_generalized_time Arch32 (Cursor [23; 13; 55; 48; 48; 49; 48; 50; 48; 51; 48; 52; 48; 53; 90] 0 15) = Some (Ok 97445).
Proof. vm_compute. reflexivity. Qed.
