(* ===== verification/Asn1Correct.v ===== *)
(** * ASN.1: what the functions do

    Cursors never leave the range they were given, whatever the bytes are;
    objects that are built are read back; integers and dates have their values. *)
From S2P Require Import Prelude Strings Memory Asn1.

(** ** Cursors stay inside *)

(** A range of an object of less than two gigabytes. *)
Definition inside (c : asn1_cursor) : Prop :=
  0 <= c_data c /\ 0 <= c_len c /\ c_data c + c_len c <= zlen (c_obj c) /\ zlen (c_obj c) < 2 ^ 31 /\ bytes_ok (c_obj c).

(** [c'] is a part of the range of [c]. *)
Definition within (c c' : asn1_cursor) : Prop :=
  inside c' /\ c_obj c' = c_obj c /\ c_data c <= c_data c' /\ c_data c' + c_len c' <= c_data c + c_len c.

Lemma within_refl c : inside c -> within c c.
Proof. intros H. split; [done|]. split; [done|lia]. Qed.

Lemma within_trans c1 c2 c3 : within c1 c2 -> within c2 c3 -> within c1 c3.
Proof. intros (_ & E & H1 & H2) (H & E' & H3 & H4). split; [done|]. split; [congruence|]. lia. Qed.

Lemma inside_byte c : inside c -> 0 < c_len c -> exists b, mem_byte (c_obj c) (c_data c) = Some b /\ byte_ok b.
Proof.
  intros (H1 & H2 & H3 & _ & Hb) Hl. unfold mem_byte. rewrite (proj2 (Z.leb_le _ _)) by lia.
  destruct (lookup_lt_is_Some_2 (c_obj c) (Z.to_nat (c_data c))) as [b E]; [lia|]. exists b. split; [done|]. by apply (Forall_lookup_1 _ _ _ _ Hb E).
Qed.

Lemma advance_within c n : inside c -> 0 <= n <= c_len c -> within c (advance n c).
Proof. intros (H1 & H2 & H3 & H4 & H5) Hn. split; [|split; [done|cbn; lia]]. split_and!; cbn; try done; lia. Qed.

(** One byte more. *)
Lemma len_step len b : byte_ok b -> Z.lor (u32 (Z.shiftl len 8)) b = u32 (len * 256 + b).
Proof.
  unfold byte_ok. intros Hb. rewrite Z.shiftl_mul_pow2 by lia. unfold uwrap. change (2 ^ 32) with (2 ^ 24 * 2 ^ 8). rewrite Z.mul_mod_distr_r by lia.
  rewrite lor_mul_add by lia. pose proof (Z.mod_pos_bound len (2 ^ 24) ltac:(lia)). pose proof (Z.div_mod len (2 ^ 24) ltac:(lia)).
  apply Z.mod_unique_pos with (len / 2 ^ 24); lia.
Qed.

(** The bytes of a cursor. *)
Definition contents (c : asn1_cursor) : list Z := take (Z.to_nat (c_len c)) (drop (Z.to_nat (c_data c)) (c_obj c)).

Lemma contents_length c : inside c -> zlen (contents c) = c_len c.
Proof. intros (H1 & H2 & H3 & _). unfold contents. rewrite length_take, length_drop. lia. Qed.

Lemma contents_bytes c : inside c -> bytes_ok (contents c).
Proof. intros (_ & _ & _ & _ & Hb). by apply Forall_take, Forall_drop. Qed.

Lemma contents_advance c n : inside c -> 0 <= n <= c_len c -> contents (advance n c) = drop (Z.to_nat n) (contents c).
Proof.
  intros (H1 & H2 & _) Hn. unfold contents, advance. cbn. rewrite skipn_firstn_comm, drop_drop. f_equal; [lia|]. f_equal. lia.
Qed.

Lemma contents_byte c b l : inside c -> contents c = b :: l -> mem_byte (c_obj c) (c_data c) = Some b.
Proof.
  intros (H1 & H2 & H3 & _) E. unfold mem_byte. rewrite (proj2 (Z.leb_le _ _)) by lia.
  assert (H : contents c !! 0%nat = Some b) by (by rewrite E). unfold contents in H. rewrite lookup_take, lookup_drop in H. case_decide; [|done]. by rewrite Nat.add_0_r in H.
Qed.

(** The length field. *)
Lemma len_loop_ok l c rest len : inside c -> contents c = l ++ rest ->
  len_loop (length l) c len = Some (advance (zlen l) c, match l with [] => len | _ => u32 (len * 256 ^ zlen l + be_val l) end).
Proof.
  revert c len. induction l as [|b l IH]; intros c len Hin E; cbn [len_loop length].
  - do 2 f_equal. destruct c. unfold advance. cbn. f_equal; lia.
  - pose proof (contents_length c Hin) as Hl. rewrite E in Hl. cbn in Hl. rewrite length_app in Hl.
    pose proof (contents_bytes c Hin) as Hb. rewrite E in Hb. apply Forall_cons in Hb as [Hb Hbl]. apply Forall_app in Hbl as [Hbl _].
    rewrite (contents_byte c b (l ++ rest)) by done. rewrite len_step by done. pose proof (advance_within c 1 Hin ltac:(lia)) as (Hin1 & _).
    rewrite IH; [|done|rewrite contents_advance by (done || lia); by rewrite E]. do 2 f_equal; [unfold advance; cbn; f_equal; lia|].
    rewrite be_val_cons. destruct l as [|b' l']; [f_equal; cbn; lia|]. set (l := b' :: l') in *. replace (Z.of_nat (S (length l))) with (1 + zlen l) by lia.
    rewrite Z.pow_add_r by lia. unfold uwrap. rewrite <- Zplus_mod_idemp_l, Zmult_mod_idemp_l, Zplus_mod_idemp_l. f_equal. lia.
Qed.

(** ** Headers *)

(** The number of bytes in front of the body of an object, and the length of the
    body or an error; the length of a length field is not bounded. *)
Definition der_start (type : Z) (l : list Z) : Z * res Z :=
  match l with
  | t :: b :: r =>
      if negb (type =? ASN1_ANY) && negb (type =? t) then (0, Err ENXIO) else
      let '(n, k, r) := if 128 <=? b then (2, Z.to_nat (b - 128), r) else (1, 1%nat, b :: r) in
      if bool_decide (length r < k)%nat then (n, Err EINVAL_ASN1_LEN_LEN) else
      let len := u32 (be_val (take k r)) in
      if zlen (drop k r) <? len then (n + Z.of_nat k, Err EINVAL_ASN1_LEN) else (n + Z.of_nat k, Ok len)
  | _ => (0, Err EINVAL_ASN1_EMPTY)
  end.

Lemma length_byte b : byte_ok b -> negb (Z.land b 0x80 =? 0) = (128 <=? b) /\ (128 <= b -> Z.land b 0x7f = b - 128).
Proof.
  intros Hb. refine (range_dec 0 256 (fun b => negb (Z.land b 0x80 =? 0) = (128 <=? b) /\ (128 <= b -> Z.land b 0x7f = b - 128)) _ b _); [|unfold byte_ok in Hb; lia].
  vm_compute. reflexivity.
Qed.

Lemma der_start_bounds type l n r : der_start type l = (n, r) -> bytes_ok l -> 0 <= n <= zlen l /\ forall len, r = Ok len -> 0 < n /\ 0 <= len <= zlen l - n.
Proof.
  intros E Hb. unfold der_start in E. destruct l as [|t [|b l]]; [injection E as <- <-; by split; [cbn; lia|]..|]. cbn [length].
  apply Forall_cons in Hb as [Ht Hb]. pose proof Hb as Hb'. apply Forall_cons in Hb as [Hbb Hbl].
  case_if_in E; [injection E as <- <-; split; [lia|done]|].
  set (p := if 128 <=? b then _ else _) in E. destruct p as [[n0 k] r0] eqn:Ep.
  assert (Hp : 1 <= n0 /\ n0 + zlen r0 = zlen (t :: b :: l)) by (unfold p in Ep; case_if_in Ep; injection Ep as <- <- <-; cbn [length]; lia). clear Ep p. cbn [length] in Hp.
  case_if_in E; [injection E as <- <-; split; [lia|done]|]. rewrite bool_decide_eq_false in Eif0. pose proof (uwrap_range 32 (be_val (take k r0)) ltac:(lia)).
  rewrite length_drop in E. case_if_in E; injection E as <- <-; (split; [lia|]); [done|]. intros len [= <-]. lia.
Qed.

Section Parse.
Context (a : arch).

Lemma start_ok c type : inside c -> let '(n, r) := der_start type (contents c) in asn1_start a c type 0 = Some (advance n c, r).
Proof.
  intros Hin. pose proof (contents_length c Hin) as Hl. pose proof (contents_bytes c Hin) as Hb. unfold asn1_start, der_start.
  destruct (contents c) as [|t [|b l]] eqn:E; cbn [length] in Hl.
  1,2: rewrite (proj2 (Z.ltb_lt _ 2)) by lia; do 2 f_equal; destruct c; unfold advance; cbn; f_equal; lia.
  rewrite (proj2 (Z.ltb_ge _ 2)) by lia. unfold asn1_type. rewrite (proj2 (Z.leb_le 1 _)), (contents_byte c t (b :: l)) by (done || lia).
  apply Forall_cons in Hb as [Ht Hb]. pose proof Hb as Hb'. apply Forall_cons in Hb as [Hbb Hbl]. destruct (_ && _); [do 2 f_equal; destruct c; unfold advance; cbn; f_equal; lia|].
  pose proof (advance_within c 1 Hin ltac:(lia)) as (Hin1 & _). assert (E1 : contents (advance 1 c) = b :: l) by (rewrite contents_advance by (done || lia); by rewrite E).
  rewrite (contents_byte _ b l) by done. destruct (length_byte b Hbb) as [-> Hland].
  assert (Hparts : exists n k r, (if 128 <=? b then (2, Z.to_nat (b - 128), l) else (1, 1%nat, b :: l)) = (n, k, r) /\ 1 <= n <= c_len c /\ contents (advance n c) = r
    /\ (if 128 <=? b then (advance 1 (advance 1 c), Z.land b 0x7f) else (advance 1 c, 1)) = (advance n c, Z.of_nat k)).
  { destruct (Z.leb_spec 128 b) as [H|H]; eexists _, _, _; (split; [done|]); (split; [lia|]); split; try done.
    - rewrite contents_advance by (done || lia). by rewrite E.
    - rewrite Hland by lia. f_equal; [unfold advance; cbn; f_equal; lia|lia]. }
  destruct Hparts as (n & k & r & -> & Hn & Er & ->). pose proof (advance_within c n Hin ltac:(lia)) as (Hinn & _). pose proof (contents_length _ Hinn) as Hln. rewrite Er in Hln.
  destruct (decide (length r < k)%nat) as [Hk|Hk].
  - rewrite bool_decide_true by done. by rewrite (proj2 (Z.ltb_lt _ _)) by lia.
  - rewrite bool_decide_false by done. rewrite (proj2 (Z.ltb_ge _ (Z.of_nat k))) by lia. rewrite Nat2Z.id.
    assert (Hlen : length (take k r) = k) by (rewrite length_take; lia). replace (len_loop k (advance n c) 0) with (len_loop (length (take k r)) (advance n c) 0) by (by rewrite Hlen).
    rewrite (len_loop_ok (take k r) (advance n c) (drop k r)) by (done || by rewrite Er, take_drop).
    replace (match take k r with [] => 0 | _ => _ end) with (u32 (be_val (take k r))) by (by destruct (take k r)). rewrite Hlen.
    cbn [c_len advance]. destruct Hin as (H1 & H2 & H3 & H4 & _). pose proof (Z.pow_le_mono_r 2 32 (size_bits a) ltac:(lia) (size_bits_large a)).
    rewrite (uwrap_small (size_bits a)) by (cbn [c_len advance] in Hln; lia). rewrite Z.add_0_r. cbn [c_len advance] in Hln. rewrite length_drop.
    replace (Z.of_nat (length r - k)) with (c_len c - n - Z.of_nat k) by lia. pose proof (uwrap_range 32 (be_val (take k r)) ltac:(lia)).
    destruct (Z.ltb_spec (c_len c - n - Z.of_nat k) (u32 (be_val (take k r)))) as [|Hge].
    + do 2 f_equal. unfold advance. cbn. f_equal; lia.
    + assert (swrap 32 (u32 (be_val (take k r))) = u32 (be_val (take k r))) as ->.
      { unfold swrap. rewrite Z.mod_small by lia. by rewrite (proj2 (Z.ltb_lt _ _)) by lia. }
      rewrite (proj2 (Z.ltb_ge _ 0)) by lia. do 2 f_equal. unfold advance. cbn. f_equal; lia.
Qed.
(** ** Movements *)

Inductive asn1_op := Enter (type : Z) | Skip (type : Z) | SkipIfExists (type : Z) | Shrink (type : Z).

Definition apply_op (c : asn1_cursor) (op : asn1_op) : option (asn1_cursor * res unit) :=
  match op with
  | Enter type => asn1_enter a c type
  | Skip type => asn1_skip a c type
  | SkipIfExists type => asn1_skip_if_exists a c type
  | Shrink type => asn1_shrink a c type
  end.

Fixpoint apply_ops (c : asn1_cursor) (ops : list asn1_op) : option asn1_cursor :=
  match ops with [] => Some c | op :: ops => opt! (c, _) := apply_op c op in apply_ops c ops end.

Lemma advance_le_within c n len : inside c -> 0 <= n <= c_len c -> 0 <= len <= c_len c - n -> within c (Cursor (c_obj c) (c_data c + n) len).
Proof. intros (H1 & H2 & H3 & H4 & H5) Hn Hl. split; [|split; [done|cbn; lia]]. split_and!; cbn; try done; lia. Qed.

(** What an operation leaves is part of what it was given; the errors are those
    of the header. *)
Lemma op_within c op : inside c -> exists c' rc, apply_op c op = Some (c', rc) /\ within c c'.
Proof.
  intros Hin. pose proof (contents_bytes c Hin) as Hb. pose proof (contents_length c Hin) as Hl.
  destruct op as [type|type|type|type]; cbn [apply_op]; unfold asn1_enter, asn1_skip, asn1_skip_if_exists, asn1_shrink; pose proof (start_ok c type Hin) as E;
    destruct (der_start type (contents c)) as [n r] eqn:Ed; rewrite E; destruct (der_start_bounds _ _ _ _ Ed Hb) as [Hn Hr]; rewrite Hl in *;
    (destruct r as [len|err]; [destruct (Hr len eq_refl) as [Hn0 Hlen]|]).
  - do 2 eexists. split; [done|]. by apply (advance_le_within c n len).
  - do 2 eexists. split; [done|]. apply (advance_le_within c n 0); done || lia.
  - cbn [c_len advance]. destruct (_ =? 0); do 2 eexists; (split; [done|]).
    + apply (within_trans c (advance n c)); [by apply advance_within|]. apply (advance_le_within (advance n c) len 0); cbn; try lia. by apply advance_within.
    + apply (within_trans c (advance n c)); [by apply advance_within|]. apply advance_within; [by apply advance_within|done].
  - do 2 eexists. split; [done|]. apply (advance_le_within c n 0); done || lia.
  - do 2 eexists. split; [done|]. apply (within_trans c (advance n c)); [by apply advance_within|]. apply advance_within; [by apply advance_within|done].
  - do 2 eexists. split; [done|]. by apply advance_within.
  - do 2 eexists. split; [done|]. cbn [c_data advance]. destruct Hin as (H1 & H2 & H3 & H4 & H5). split; [|split; [done|cbn; lia]]. split_and!; cbn; try done; lia.
  - do 2 eexists. split; [done|]. replace (asn1_invalidate_cursor c) with (Cursor (c_obj c) (c_data c + 0) 0) by (unfold asn1_invalidate_cursor; f_equal; lia).
    apply advance_le_within; done || lia.
Qed.

Lemma enter_within c type : inside c -> exists c' rc, asn1_enter a c type = Some (c', rc) /\ within c c'.
Proof. apply (op_within c (Enter type)). Qed.
(** ** Values *)

Lemma integer_loop_some n c value : inside c -> Z.of_nat n <= c_len c -> is_Some (integer_loop n c value).
Proof.
  revert c value. induction n as [|n IH]; intros c value Hin Hn; cbn [integer_loop]; [done|]. destruct (_ && _); [done|].
  destruct (inside_byte c Hin ltac:(lia)) as (b & -> & _). apply IH; [apply advance_within; done || lia|cbn; lia].
Qed.

Lemma boolean_some c : inside c -> is_Some (asn1_boolean a c).
Proof.
  intros Hin. unfold asn1_boolean. destruct (enter_within c ASN1_BOOLEAN Hin) as (c' & rc & -> & (Hin' & _)). destruct (Z.eqb_spec (c_len c') 1); [|done]. cbn [negb].
  by destruct (inside_byte c' Hin' ltac:(lia)) as (b & -> & _).
Qed.

Lemma integer_some c : inside c -> is_Some (asn1_integer a c).
Proof.
  intros Hin. unfold asn1_integer. destruct (enter_within c ASN1_INTEGER Hin) as (c' & rc & -> & (Hin' & _)). destruct rc; [|done].
  destruct (Z.ltb_spec (c_len c') 1); [done|]. destruct (inside_byte c' Hin' ltac:(lia)) as (b & -> & _).
  apply integer_loop_some; [apply advance_within; done || lia|cbn; lia].
Qed.

(** The number of unused bits is used before it is checked. *)
Definition bad_unused (c : asn1_cursor) : Prop := exists c' b l, asn1_enter a c ASN1_BIT_STRING = Some (c', Ok tt) /\ contents c' = b :: l /\ 8 < b.

Lemma bit_string_some c : inside c -> is_Some (asn1_bit_string a c) \/ bad_unused c /\ asn1_bit_string a c = None.
Proof.
  intros Hin. unfold asn1_bit_string. destruct (enter_within c ASN1_BIT_STRING Hin) as (c' & rc & E & (Hin' & _)). unfold bad_unused. rewrite E.
  destruct rc as [[]|]; [|by left]. destruct (Z.ltb_spec (c_len c') 1); [by left|].
  pose proof (contents_length c' Hin') as Hl. pose proof (contents_bytes c' Hin') as Hb. destruct (contents c') as [|b l] eqn:Ec; [cbn in Hl; lia|].
  apply Forall_cons in Hb as [Hb _]. unfold byte_ok in Hb. rewrite (contents_byte c' b l) by done. destruct (Z.leb_spec b 8) as [Hle|Hgt].
  - left. rewrite (uwrap_small 32 (8 - b)), (proj2 (Z.ltb_lt _ 32)) by lia. case_if; [done|]. case_if; [done|].
    assert (Hlast : exists l, mem_byte (c_obj c') (c_data c' + 1 + (c_len c' - 1) - 1) = Some l).
    { destruct Hin' as (H1 & H2 & H3 & _). unfold mem_byte. rewrite (proj2 (Z.leb_le _ _)) by lia. apply lookup_lt_is_Some_2. lia. }
    destruct Hlast as (last & ->). by case_if.
  - right. split; [by eexists _, _, _|]. rewrite (proj2 (Z.ltb_ge _ 32)); [done|]. unfold uwrap. rewrite <- (Z.mod_unique_pos (8 - b) (2 ^ 32) (-1) (8 - b + 2 ^ 32)); lia.
Qed.

Lemma memcmp_some (l k : list Z) n : (n <= length l)%nat -> (n <= length k)%nat -> is_Some (memcmp l k n).
Proof.
  revert l k. induction n as [|n IH]; intros l k Hl Hk; [done|]. destruct l as [|x l], k as [|y k]; try (cbn in *; lia). cbn [memcmp]. cbn in Hl, Hk.
  destruct (_ =? 0); [apply IH; lia|done].
Qed.

Lemma compare_some c1 c2 : inside c1 -> inside c2 -> is_Some (asn1_compare c1 c2).
Proof.
  intros (H1 & H2 & H3 & H4 & _) (K1 & K2 & K3 & K4 & _). unfold asn1_compare. destruct (Z.eqb_spec (swrap 32 (c_len c2 - c_len c1)) 0) as [E|]; [|done]. cbn [negb].
  case_if; [done|]. assert (El : c_len c1 = c_len c2).
  { unfold swrap in E. pose proof (Z.mod_pos_bound (c_len c2 - c_len c1) (2 ^ 32) ltac:(lia)). pose proof (Z.div_mod (c_len c2 - c_len c1) (2 ^ 32) ltac:(lia)). case_if_in E; lia. }
  rewrite !(proj2 (Z.leb_le _ _)) by lia. cbn [andb]. apply memcmp_some; rewrite length_drop; lia.
Qed.

Lemma find_algorithm_some table c : Forall (fun al => inside (al_oid al)) table -> inside c -> is_Some (find_algorithm_loop table c).
Proof.
  intros Ht Hin. induction Ht as [|al table Hal Ht IH]; [done|]. cbn [find_algorithm_loop]. destruct (compare_some (al_oid al) c Hal Hin) as (d & ->). by case_if.
Qed.

Lemma algorithm_some table c : Forall (fun al => inside (al_oid al)) table -> inside c -> is_Some (asn1_algorithm a table c).
Proof.
  intros Ht Hin. unfold asn1_algorithm. destruct (enter_within c ASN1_SEQUENCE Hin) as (c1 & rc1 & -> & (Hin1 & _)).
  destruct (enter_within c1 ASN1_OID Hin1) as (c2 & rc2 & -> & (Hin2 & _)). destruct rc2; [|done]. unfold asn1_find_algorithm.
  by destruct (find_algorithm_some table c2 Ht Hin2) as (r & ->).
Qed.
(** ** Dates *)

Lemma mktime_some t : 0 <= tm_mon t < 12 -> is_Some (mktime t).
Proof.
  intros H. unfold mktime, day_of_week. rewrite (proj2 (Z.leb_le 0 _)) by lia.
  destruct (lookup_lt_is_Some_2 days_to_month_start (Z.to_nat (tm_mon t))) as [d ->]; [cbn; lia|].
  by destruct (lookup_lt_is_Some_2 day_offset (Z.to_nat (tm_mon t))) as [o ->]; [cbn; lia|].
Qed.

Lemma mktime_none t : ~ 0 <= tm_mon t < 12 -> mktime t = None.
Proof. intros H. unfold mktime. destruct (Z.leb_spec 0 (tm_mon t)); [|done]. rewrite lookup_ge_None_2; [done|cbn; lia]. Qed.

Lemma pairs_loop_some n data pairs : exists r, pairs_loop n data pairs = Some r /\ forall ps rest, r = Ok (ps, rest) -> length ps = (length pairs + n)%nat.
Proof.
  revert data pairs. induction n as [|n IH]; intros data pairs; cbn [pairs_loop].
  - eexists. split; [done|]. intros ps rest [= <- <-]. lia.
  - destruct (Z.ltb_spec (zlen data) 2) as [|Hl].
    + case_bool_decide as E; eexists; (split; [done|]); [|done]. intros ps rest [= <- <-]. rewrite length_app. cbn. lia.
    + destruct data as [|t [|u data]]; [cbn in Hl; lia..|]. cbn [lookup list_lookup]. destruct (_ && _); cbn [negb]; [|eexists; split; [done|]; by intros].
      destruct (IH (drop 2 (t :: u :: data)) (pairs ++ [u8 (10 * (t - 48) + (u - 48))])) as (r & E & Hr). exists r. split; [done|]. intros ps rest Er.
      rewrite (Hr _ _ Er), length_app. cbn. lia.
Qed.

(** The two-digit numbers of a string of digits. *)
Fixpoint digit_pairs (l : list Z) : list Z :=
  match l with tens :: units :: l' => 10 * (tens - 48) + (units - 48) :: digit_pairs l' | _ => [] end.

Lemma length_digit_pairs k l : length l = (2 * k)%nat -> length (digit_pairs l) = k.
Proof. revert l. induction k as [|k IH]; intros [|t [|u l]] H; cbn in *; try lia. rewrite IH; lia. Qed.

Lemma digit_pair_small t u : isdigit t = true -> isdigit u = true -> u8 (10 * (t - 48) + (u - 48)) = 10 * (t - 48) + (u - 48).
Proof. unfold isdigit. rewrite !andb_true_iff, !Z.leb_le. intros. apply uwrap_small. lia. Qed.

Lemma pairs_loop_cons n t u data pairs : isdigit t = true -> isdigit u = true ->
  pairs_loop (S n) (t :: u :: data) pairs = pairs_loop n data (pairs ++ [10 * (t - 48) + (u - 48)]).
Proof.
  intros Ht Hu. cbn [pairs_loop]. rewrite (proj2 (Z.ltb_ge _ _)) by (unfold zlen; cbn; lia). cbn [lookup list_lookup].
  by rewrite Ht, Hu, digit_pair_small.
Qed.

(** The loop over the digits accepts exactly the texts of digits, with or
    without seconds, before the trailing [Z]. *)
Lemma pairs_loop_text n digits pairs : Forall (fun d => isdigit d = true) digits -> length digits = (2 * S n)%nat \/ length digits = (2 * n)%nat ->
  pairs_loop (S n) (digits ++ [90]) pairs = Some (Ok (pairs ++ digit_pairs digits ++ (if decide (length digits = (2 * n)%nat) then [0] else []), [90])).
Proof.
  revert digits pairs. induction n as [|n IH]; intros [|t [|u digits]] pairs Hd Hl; cbn in Hl; try lia; [done| |].
  - destruct digits as [|? ?]; [|cbn in Hl; lia]. apply Forall_cons_iff in Hd as [Ht Hd]. apply Forall_cons_iff in Hd as [Hu _].
    cbn [app]. by rewrite pairs_loop_cons.
  - apply Forall_cons_iff in Hd as [Ht Hd]. apply Forall_cons_iff in Hd as [Hu Hd]. cbn [app].
    rewrite pairs_loop_cons, IH, <- app_assoc by (done || lia). cbn [digit_pairs app].
    do 6 f_equal. repeat case_decide; cbn in *; done || lia.
Qed.

Lemma pairs_loop_back n data pairs ps : pairs_loop (S n) data pairs = Some (Ok (ps, [90])) ->
  exists digits, data = digits ++ [90] /\ Forall (fun d => isdigit d = true) digits /\ (length digits = (2 * S n)%nat \/ length digits = (2 * n)%nat).
Proof.
  revert data pairs. induction n as [|n IH]; intros data pairs; cbn [pairs_loop].
  - destruct (Z.ltb_spec (zlen data) 2) as [|Hl]; cbn [bool_decide].
    + intros [= _ ->]. exists []. split_and!; [done|constructor|by right].
    + destruct data as [|t [|u data]]; [cbn in Hl; lia..|]. cbn [lookup list_lookup]. destruct (isdigit t) eqn:Ht, (isdigit u) eqn:Hu; cbn [andb negb]; try done.
      intros [= _ E]. exists [t; u]. cbn in E. rewrite drop_0 in E. subst data. split_and!; [done|by repeat constructor|by left].
  - destruct (Z.ltb_spec (zlen data) 2) as [|Hl]; [by cbn|].
    destruct data as [|t [|u data]]; [cbn in Hl; lia..|]. cbn [lookup list_lookup]. destruct (isdigit t) eqn:Ht, (isdigit u) eqn:Hu; cbn [andb negb]; try done.
    cbn [drop skipn]. rewrite drop_0. intros E. apply IH in E as (digits & -> & Hd & Hlen). exists (t :: u :: digits).
    split_and!; [done|by repeat constructor|cbn; lia].
Qed.

(** A date, in the form of its type and with or without seconds, whose month
    does not exist. *)
Definition bad_month (c : asn1_cursor) : Prop := exists type c' digits month,
  asn1_type c = Some type /\ (type = ASN1_UTC_TIME \/ type = ASN1_GENERALIZED_TIME)
  /\ asn1_enter a c type = Some (c', Ok tt) /\ contents c' = digits ++ [90] /\ Forall (fun d => isdigit d = true) digits
  /\ let i := if type =? ASN1_UTC_TIME then 1%nat else 2%nat in
     (length digits = (2 * (i + 5))%nat \/ length digits = (2 * (i + 4))%nat) /\ digit_pairs digits !! i = Some month /\ ~ 1 <= month <= 12.

(** The last step of [asn1_generalized_time], from the digits on. *)
Definition time_of (have_century : bool) (ps rest : list Z) : option (res Z) :=
  match ps with
  | [century; year; month; day; hour; minute; second] =>
      let century := if have_century then century else if 50 <=? year then 19 else 20 in
      opt! trailing := (if zlen rest =? 1 then opt! z := rest !! 0%nat in Some (z =? 90) else Some false) in
      if negb trailing then Some (Err EINVAL_ASN1_TIME) else
      opt! (time, _, _) := mktime (Tm second minute hour day (month - 1) ((century - 19) * 100 + year)) in
      Some (Ok time)
  | _ => None
  end.

Lemma time_of_none hc ps rest : length ps = 7%nat ->
  time_of hc ps rest = None <-> rest = [90] /\ exists month, ps !! 2%nat = Some month /\ ~ 1 <= month <= 12.
Proof.
  intros Hl. destruct ps as [|ce [|ye [|mo [|da [|ho [|mi [|se [|? ?]]]]]]]]; try discriminate Hl. cbn [time_of].
  destruct (Z.eqb_spec (zlen rest) 1) as [E1|E1]; [|split; [done|]; intros [-> _]; by destruct E1].
  destruct rest as [|z [|? ?]]; [discriminate E1| |cbn in E1; lia]. cbn [lookup list_lookup].
  destruct (Z.eqb_spec z 90) as [->|Hz]; cbn [negb]; [|split; [done|]; intros [[= ->] _]; done].
  set (t := Tm _ _ _ _ _ _). destruct (decide (1 <= mo <= 12)) as [Hm|Hm].
  - destruct (mktime_some t) as ([[v w] y] & ->); [cbn; lia|]. split; [done|]. intros (_ & mo' & [= <-] & ?). lia.
  - rewrite mktime_none by (cbn; lia). split; [|done]. intros _. split; [done|]. by exists mo.
Qed.

Lemma time_none c : inside c -> asn1_generalized_time a c = None <-> bad_month c.
Proof.
  intros Hin. unfold asn1_generalized_time, bad_month. assert (Ht : exists type, asn1_type c = Some type).
  { unfold asn1_type. case_if; [|by eexists]. destruct (inside_byte c Hin ltac:(lia)) as (b & -> & _). by eexists. }
  destruct Ht as (type & ->).
  destruct (decide (type = ASN1_UTC_TIME \/ type = ASN1_GENERALIZED_TIME)) as [Hty|Hty].
  2: { rewrite !(proj2 (Z.eqb_neq _ _)) by tauto. split; [done|]. intros (? & ? & ? & ? & [= <-] & ? & _). tauto. }
  set (hc := negb (type =? ASN1_UTC_TIME)).
  replace (if type =? ASN1_UTC_TIME then _ else _) with (Some (Some hc)) by (unfold hc; by destruct Hty as [-> | ->]).
  destruct (enter_within c type Hin) as (c' & rc & E & (Hin' & _)). rewrite E.
  destruct rc as [[]|]; [|split; [done|]; intros (? & ? & ? & ? & [= <-] & _ & Ee & _); congruence].
  assert (Er : mem_read (c_obj c') (c_data c') (c_len c') = Some (contents c')).
  { destruct Hin' as (H1 & H2 & H3 & _). unfold mem_read. by rewrite !(proj2 (Z.leb_le _ _)) by lia. }
  rewrite Er. set (n := if hc then 6%nat else 5%nat). set (pairs := if hc then [] else [0]).
  replace (if hc then 7%nat else 6%nat) with (S n) by (unfold n; by destruct hc).
  destruct (pairs_loop_some (S n) (contents c') pairs) as (r & Ep & Hlen). rewrite Ep.
  assert (Hi : (if type =? ASN1_UTC_TIME then 1%nat else 2%nat) = (n - 4)%nat) by (unfold n, hc; by destruct Hty as [-> | ->]).
  assert (Hget : forall digits tl, length digits = (2 * S n)%nat \/ length digits = (2 * n)%nat ->
    (pairs ++ digit_pairs digits ++ tl) !! 2%nat = digit_pairs digits !! (n - 4)%nat).
  { intros digits tl Hl. assert (n <= length (digit_pairs digits))%nat by (destruct Hl as [Hl|Hl]; rewrite (length_digit_pairs _ _ Hl); lia).
    unfold n, pairs in *. destruct hc; cbn -[digit_pairs]; apply lookup_app_l; lia. }
  destruct r as [[ps rest]|e].
  2: { split; [done|]. intros (ty & c2 & digits & month & [= <-] & _ & Ee & Ec & Hd & Hl & _). exfalso. rewrite E in Ee. injection Ee as <-. rewrite Ec, pairs_loop_text in Ep; [done|done|]. rewrite Hi in Hl. unfold n in *. destruct hc; lia. }
  specialize (Hlen _ _ eq_refl). assert (Hl7 : length ps = 7%nat) by (rewrite Hlen; unfold pairs, n; by destruct hc).
  transitivity (time_of hc ps rest = None).
  { by destruct ps as [|ce [|ye [|mo [|da [|ho [|mi [|se [|? ?]]]]]]]]. }
  rewrite time_of_none by done. split.
  - intros (-> & month & Hm & Hr). destruct (pairs_loop_back _ _ _ _ Ep) as (digits & Ec & Hd & Hl).
    exists type, c', digits, month. rewrite Hi. split_and!; try done; [unfold n in *; destruct hc; lia|].
    rewrite Ec, pairs_loop_text in Ep by done. injection Ep as <-. by rewrite <- Hm, Hget.
  - intros (ty & c2 & digits & month & [= <-] & _ & Ee & Ec & Hd & Hl & Hm & Hr). rewrite E in Ee. injection Ee as <-.
    rewrite Hi in *. rewrite Ec, pairs_loop_text in Ep; [|done|unfold n in *; destruct hc; lia]. injection Ep as <- <-. split; [done|].
    exists month. split; [|done]. rewrite Hget; [done|]. unfold n in *; destruct hc; lia.
Qed.
End Parse.

(** C23.  ASN.1 data from the network: a cursor that is moved by any operations
    over an object with arbitrary bytes stays inside the range it was given, and
    the values of booleans, integers and algorithm identifiers are read without an
    access out of bounds.  The exceptions are a bit string with more than
    eight unused bits, where a shift is undefined, and a date in the form of its
    type, with or without seconds, whose month is not between one and twelve,
    which is used as an index: there, and only there, the accesses are out of
    bounds. *)
Theorem asn1_confined a table c ops : inside c -> Forall (fun al => inside (al_oid al)) table ->
  (exists c', apply_ops a c ops = Some c' /\ within c c')
  /\ is_Some (asn1_boolean a c) /\ is_Some (asn1_integer a c) /\ is_Some (asn1_algorithm a table c)
  /\ (is_Some (asn1_bit_string a c) \/ bad_unused a c /\ asn1_bit_string a c = None)
  /\ (asn1_generalized_time a c = None <-> bad_month a c).
Proof.
  intros Hin Ht. split; [|split_and!; [by apply boolean_some|by apply integer_some|by apply algorithm_some|by apply bit_string_some|by apply time_none]].
  assert (H : forall c0, within c c0 -> exists c', apply_ops a c0 ops = Some c' /\ within c c'); [|by apply H, within_refl].
  induction ops as [|op ops IH]; intros c0 Hw; cbn [apply_ops]; [by exists c0|].
  destruct (op_within a c0 op (proj1 Hw)) as (c1 & rc & -> & H1). apply IH. by eapply within_trans.
Qed.

(** A sequence whose first object claims more than there is. *)
Definition demo_cursor : asn1_cursor := Cursor [48; 5; 2; 1; 7; 4; 200; 9] 0 7.

Lemma demo_cursor_inside : inside demo_cursor.
Proof. split_and!; cbn; try lia. solve_bytes. Qed.

(** The 29th of February 2024, with the century, and the same date with a
    thirteenth month, without. *)
Definition demo_date : asn1_cursor := Cursor [24; 15; 50; 48; 50; 52; 48; 50; 50; 57; 50; 51; 53; 57; 53; 57; 90] 0 17.
Definition demo_date13 : asn1_cursor := Cursor [23; 13; 50; 52; 49; 51; 50; 57; 50; 51; 53; 57; 53; 57; 90] 0 15.

Lemma asn1_confined_witness :
  (exists c', apply_ops Arch32 demo_cursor [Enter ASN1_SEQUENCE; Skip ASN1_INTEGER; Shrink ASN1_ANY] = Some c' /\ within demo_cursor c')
  /\ is_Some (asn1_integer Arch32 demo_cursor) /\ ~ bad_month Arch32 demo_date /\ bad_month Arch32 demo_date13.
Proof.
  assert (Hd : inside demo_date) by (split_and!; cbn; try lia; solve_bytes).
  assert (Hd13 : inside demo_date13) by (split_and!; cbn; try lia; solve_bytes).
  pose proof (asn1_confined Arch32 [] demo_cursor [Enter ASN1_SEQUENCE; Skip ASN1_INTEGER; Shrink ASN1_ANY] demo_cursor_inside ltac:(constructor)) as (H & _ & Hi & _).
  pose proof (asn1_confined Arch32 [] demo_date [] Hd ltac:(constructor)) as (_ & _ & _ & _ & _ & H29).
  pose proof (asn1_confined Arch32 [] demo_date13 [] Hd13 ltac:(constructor)) as (_ & _ & _ & _ & _ & H13).
  split; [exact H|]. split; [exact Hi|]. split.
  - intros Hb. apply H29 in Hb. vm_compute in Hb. discriminate Hb.
  - apply H13. vm_compute. reflexivity.
Defined.
