(* ===== verification/Asn1Build.v ===== *)
(** * ASN.1: what is built is read back *)
From S2P Require Import Prelude Strings Memory Asn1 Asn1Correct.

(** ** Objects in DER *)

(** A number in as few bytes as possible. *)
Fixpoint minimal (fuel : nat) (n : Z) : list Z :=
  if n =? 0 then [] else match fuel with O => [] | S fuel' => minimal fuel' (n / 256) ++ [n mod 256] end.

Lemma minimal_ok fuel n : 0 <= n < 256 ^ Z.of_nat fuel -> bytes_ok (minimal fuel n) /\ be_val (minimal fuel n) = n /\ (length (minimal fuel n) <= fuel)%nat.
Proof.
  revert n. induction fuel as [|fuel IH]; intros n Hn; cbn [minimal]; (destruct (Z.eqb_spec n 0) as [->|Hn0]; [split; [constructor|cbn; lia]|]); [cbn in Hn; lia|].
  destruct (IH (n / 256)) as (Hb & Hv & Hl). { rewrite Nat2Z.inj_succ, Z.pow_succ_r in Hn by lia. split; [apply Z.div_pos; lia|apply Z.div_lt_upper_bound; lia]. }
  pose proof (Z.mod_pos_bound n 256 ltac:(lia)). split; [apply Forall_app_2; [done|]; constructor; [unfold byte_ok; lia|done]|].
  rewrite be_val_app, Hv, length_app. cbn. split; [|lia]. pose proof (Z.div_mod n 256). lia.
Qed.

Section Build.
Context (a : arch).

Definition der_header (type len : Z) : list Z :=
  let k := minimal (Z.to_nat (ptr_bytes a)) len in type :: (if len <? 0x80 then [len] else (0x80 + zlen k) :: k).

Definition der (type : Z) (body : list Z) : list Z := der_header type (zlen body) ++ body.

(** ** Headers *)

Lemma len_len_loop_ok fuel temp acc : 0 <= temp < 256 ^ Z.of_nat fuel -> len_len_loop fuel temp acc = Some (acc + zlen (minimal fuel temp)).
Proof.
  revert temp acc. induction fuel as [|fuel IH]; intros temp acc Ht; cbn [len_len_loop minimal]; (destruct (Z.eqb_spec temp 0); [cbn; f_equal; lia|]); [cbn in Ht; lia|].
  rewrite Z.shiftr_div_pow2 by lia. change (2 ^ 8) with 256. rewrite IH; [rewrite zlen_app; cbn [length]; f_equal; lia|].
  rewrite Nat2Z.inj_succ, Z.pow_succ_r in Ht by lia. split; [apply Z.div_pos; lia|apply Z.div_lt_upper_bound; lia].
Qed.

Lemma len_bytes_loop_ok fuel temp c L R : 0 <= temp < 256 ^ Z.of_nat fuel -> length L = length (minimal fuel temp) ->
  len_bytes_loop fuel (c :: L ++ R) temp (zlen L) = Some (c :: minimal fuel temp ++ R).
Proof.
  revert temp L R. induction fuel as [|fuel IH]; intros temp L R Ht HL; cbn [len_bytes_loop minimal] in *;
    (destruct (Z.eqb_spec temp 0) as [E0|E0]; [by destruct L|]); [cbn in Ht; lia|].
  rewrite length_app in HL. cbn in HL. destruct L as [|x L _] using rev_ind; [cbn in HL; lia|]. rewrite length_app in HL. cbn in HL.
  assert (Ew : mem_write (c :: (L ++ [x]) ++ R) (zlen (L ++ [x])) [Z.land temp 0xff] = Some (c :: L ++ [temp mod 256] ++ R)).
  { change 0xff with (Z.ones 8). rewrite Z.land_ones by lia. change (2 ^ 8) with 256.
    replace (c :: (L ++ [x]) ++ R) with ((c :: L) ++ [x] ++ R) by (cbn; by rewrite <- app_assoc). rewrite zlen_app. cbn [length].
    replace (zlen L + Z.of_nat 1) with (zlen (c :: L)) by (cbn [length]; lia). by rewrite mem_write_at. }
  rewrite Ew, zlen_app. cbn [length]. replace (zlen L + Z.of_nat 1 - 1) with (zlen L) by lia. rewrite Z.shiftr_div_pow2 by lia. change (2 ^ 8) with 256.
  rewrite IH; [by rewrite <- app_assoc| |lia].
  rewrite Nat2Z.inj_succ, Z.pow_succ_r in Ht by lia. split; [apply Z.div_pos; lia|apply Z.div_lt_upper_bound; lia].
Qed.

Lemma ptr_pow : 256 ^ Z.of_nat (Z.to_nat (ptr_bytes a)) = 2 ^ size_bits a.
Proof. by destruct a. Qed.

Lemma header_ok type len : byte_ok type -> 0 <= len < 2 ^ size_bits a ->
  exists h, asn1_header a type len = Some (h, zlen (der_header type len)) /\ mem_read h 0 (zlen (der_header type len)) = Some (der_header type len).
Proof.
  intros Ht Hl. unfold asn1_header, der_header. set (fuel := Z.to_nat (ptr_bytes a)). unfold byte_ok in Ht. rewrite (uwrap_small 8 type) by lia.
  assert (Hp : Z.of_nat fuel = ptr_bytes a /\ 4 <= ptr_bytes a <= 8) by (unfold fuel; destruct a; cbn; lia).
  replace (Z.to_nat (ASN1_MAX_LEN_LEN a)) with (S fuel) by (unfold ASN1_MAX_LEN_LEN, fuel; lia). cbn [replicate].
  destruct (Z.ltb_spec len 0x80) as [Hs|Hs].
  - rewrite (mem_write_at [] [0] [u8 len] (replicate fuel 0) eq_refl : mem_write (0 :: replicate fuel 0) 0 [u8 len] = _). rewrite uwrap_small by lia.
    eexists. split; [done|]. apply (mem_read_at [] [type; len]).
  - destruct (minimal_ok fuel len) as (Hb & Hv & Hk). { unfold fuel. rewrite ptr_pow. lia. }
    set (k := minimal fuel len) in *. rewrite len_len_loop_ok by (unfold fuel; rewrite ptr_pow; lia). fold k. rewrite Z.add_0_l.
    rewrite (mem_write_at [] [0] [u8 (Z.lor 0x80 (zlen k))] (replicate fuel 0) eq_refl : mem_write (0 :: replicate fuel 0) 0 _ = _). cbn [app].
    assert (Elor : u8 (Z.lor 0x80 (zlen k)) = 0x80 + zlen k).
    { pose proof (lor_mul_add 1 (zlen k) 7 ltac:(lia) ltac:(lia)) as El. change (1 * 2 ^ 7) with 0x80 in El. rewrite El. apply uwrap_small. lia. }
    rewrite Elor. replace (replicate fuel 0) with (replicate (length k) 0 ++ replicate (fuel - length k) 0) by (rewrite <- replicate_add; f_equal; lia).
    pose proof (len_bytes_loop_ok fuel len (0x80 + zlen k) (replicate (length k) 0) (replicate (fuel - length k) 0)) as El. rewrite length_replicate in El.
    rewrite El; [|unfold fuel; rewrite ptr_pow; lia|done]. fold k.
    replace (2 + zlen k) with (zlen (type :: (0x80 + zlen k) :: k)) by (cbn [length]; lia). eexists. split; [done|].
    apply (mem_read_at [] (type :: (0x80 + zlen k) :: k)).
Qed.
(** The header of an object is read as it was written, whatever follows. *)
Lemma der_start_der type body rest : byte_ok type -> zlen body < 2 ^ 31 ->
  der_start type (der type body ++ rest) = (zlen (der_header type (zlen body)), Ok (zlen body)).
Proof.
  intros Ht Hl. pose proof (Z.pow_le_mono_r 2 32 (size_bits a) ltac:(lia) (size_bits_large a)). unfold der, der_header. set (fuel := Z.to_nat (ptr_bytes a)). unfold der_start.
  destruct (Z.ltb_spec (zlen body) 0x80) as [Hs|Hs]; cbn [app]; rewrite Z.eqb_refl, andb_false_r.
  - rewrite (proj2 (Z.leb_gt 128 _)) by lia. rewrite bool_decide_false by (cbn; lia). cbn [take drop]. rewrite take_0, drop_0. change (be_val [zlen body]) with (zlen body).
    rewrite uwrap_small by lia. by rewrite (proj2 (Z.ltb_ge _ _)) by (rewrite zlen_app; lia).
  - destruct (minimal_ok fuel (zlen body)) as (Hb & Hv & Hk). { unfold fuel. rewrite ptr_pow. lia. }
    set (k := minimal fuel (zlen body)) in *. rewrite (proj2 (Z.leb_le 128 _)) by lia. replace (Z.to_nat (0x80 + zlen k - 128)) with (length k) by lia.
    rewrite <- app_assoc. rewrite bool_decide_false by (rewrite length_app; lia). rewrite take_app_length, drop_app_length, Hv. rewrite uwrap_small by lia.
    rewrite (proj2 (Z.ltb_ge _ _)) by (rewrite zlen_app; lia). f_equal. cbn [length]. lia.
Qed.

(** ** Growing *)

(** A builder that holds [d]. *)
Definition holds_data (b : asn1_builder) (d : list Z) : Prop := bl_len b = zlen d /\ (bl_data b = Some d \/ bl_data b = None /\ d = []).

Lemma grow_ok junk b d extra : holds_data b d -> 0 <= extra -> zlen d + extra < 2 ^ size_bits a ->
  exists pre, zlen pre = extra /\ asn1_grow a true junk b extra = Some (Builder (Some (pre ++ d)) (zlen d + extra), Ok tt).
Proof.
  intros [Hl Hd] He Hs. set (old := default [] (bl_data b)). assert (Eold : old = d) by (unfold old; by destruct Hd as [->|[-> ->]]).
  assert (Eg : asn1_grow a true junk b extra = (opt! new := mem_move (take (Z.to_nat (uwrap (size_bits a) (bl_len b + extra)))
    (old ++ junk ++ replicate (Z.to_nat (uwrap (size_bits a) (bl_len b + extra))) 0)) extra 0 (bl_len b) in
    Some (Builder (Some new) (uwrap (size_bits a) (bl_len b + extra)), Ok tt))).
  { unfold asn1_grow, old. destruct Hd as [->|[-> ->]]; [done|]. by rewrite Hl. }
  rewrite Eg, Eold, Hl, uwrap_small by lia. set (m := take _ _).
  assert (Hm : m = d ++ drop (length d) m /\ length m = Z.to_nat (zlen d + extra)).
  { split; [|unfold m; rewrite length_take, !length_app, length_replicate; lia].
    rewrite <- (take_drop (length d) m) at 1. f_equal. unfold m. rewrite take_take, Nat.min_l by lia. apply take_app_length. }
  destruct Hm as [Em Hm]. unfold mem_move. rewrite !(proj2 (Z.leb_le _ _)) by lia. cbn [andb]. rewrite generic_memmove_list by lia. change (Z.to_nat 0) with 0%nat. rewrite drop_0.
  rewrite (drop_ge m) by lia. rewrite app_nil_r, Nat2Z.id. exists (take (Z.to_nat extra) m). split; [rewrite length_take; lia|].
  assert (Ed : take (length d) m = d) by (rewrite Em; apply take_app_length). by rewrite Ed.
Qed.

Lemma builder_write_ok A H new R n : length H = length new -> builder_write (Builder (Some (A ++ H ++ R)) n) (zlen A) new = Some (Builder (Some (A ++ new ++ R)) n).
Proof. intros E. unfold builder_write. cbn [bl_data bl_len]. by rewrite mem_write_at. Qed.

Lemma prepend_raw_ok junk b d data : holds_data b d -> zlen d + zlen data < 2 ^ size_bits a ->
  exists b', asn1_prepend_raw a true junk b data = Some (b', Ok tt) /\ holds_data b' (data ++ d).
Proof.
  intros Hd Hs. unfold asn1_prepend_raw. destruct (grow_ok junk b d (zlen data) Hd ltac:(lia) Hs) as (pre & Hp & ->).
  pose proof (builder_write_ok [] pre data d (zlen d + zlen data) ltac:(lia)) as E. cbn [app] in E. change (zlen []) with 0 in E. rewrite E.
  eexists. split; [done|]. split; [cbn [bl_len]; rewrite zlen_app; lia|by left].
Qed.

Lemma prepend_ok junk b d type data : holds_data b d -> byte_ok type -> zlen d + zlen (der type data) < 2 ^ size_bits a ->
  exists b', asn1_prepend a true junk b type data = Some (b', Ok tt) /\ holds_data b' (der type data ++ d).
Proof.
  intros Hd Ht Hs. unfold der in *. rewrite zlen_app in Hs. unfold asn1_prepend. destruct (header_ok type (zlen data) Ht ltac:(lia)) as (h & -> & Eh).
  set (hd := der_header type (zlen data)) in *.
  destruct (grow_ok junk b d (zlen hd + zlen data) Hd ltac:(lia) ltac:(lia)) as (pre & Hp & ->). rewrite Eh.
  rewrite <- (take_drop (length hd) pre). set (p1 := take (length hd) pre). set (p2 := drop (length hd) pre).
  assert (L1 : length p1 = length hd) by (unfold p1; rewrite length_take; lia). assert (L2 : length p2 = length data) by (unfold p2; rewrite length_drop; lia).
  rewrite <- app_assoc. pose proof (builder_write_ok [] p1 hd (p2 ++ d) (zlen d + (zlen hd + zlen data)) L1) as E. cbn [app] in E. change (zlen []) with 0 in E. rewrite E.
  rewrite (builder_write_ok hd p2 data d) by done. eexists. split; [done|]. split; [cbn [bl_len]; rewrite !zlen_app; lia|]. left. cbn [bl_data]. by rewrite <- app_assoc.
Qed.

Lemma wrap_ok junk b d type : holds_data b d -> byte_ok type -> zlen (der type d) < 2 ^ size_bits a ->
  exists b', asn1_wrap a true junk b type = Some (b', Ok tt) /\ holds_data b' (der type d).
Proof.
  intros Hd Ht Hs. unfold der in *. rewrite zlen_app in Hs. unfold asn1_wrap. rewrite (proj1 Hd). destruct (header_ok type (zlen d) Ht ltac:(lia)) as (h & -> & Eh).
  set (hd := der_header type (zlen d)) in *. destruct (grow_ok junk b d (zlen hd) Hd ltac:(lia) ltac:(lia)) as (pre & Hp & ->). rewrite Eh.
  pose proof (builder_write_ok [] pre hd d (zlen d + zlen hd) ltac:(lia)) as E. cbn [app] in E. change (zlen []) with 0 in E. rewrite E.
  eexists. split; [done|]. split; [cbn [bl_len]; rewrite zlen_app; lia|by left].
Qed.
End Build.

(** ** Reading *)

Lemma der_bytes a type body : byte_ok type -> bytes_ok body -> zlen body < 2 ^ 31 -> bytes_ok (der a type body).
Proof.
  intros Ht Hb Hl. pose proof (Z.pow_le_mono_r 2 32 (size_bits a) ltac:(lia) (size_bits_large a)). unfold der, der_header. apply Forall_app_2; [|done]. constructor; [done|].
  destruct (minimal_ok (Z.to_nat (ptr_bytes a)) (zlen body)) as (Hk & _ & Hlk). { rewrite ptr_pow. lia. }
  case_if; [constructor; [unfold byte_ok; lia|constructor]|]. constructor; [|done]. unfold byte_ok. destruct a; cbn [ptr_bytes] in *; lia.
Qed.

Lemma read_der a type body rest : byte_ok type -> bytes_ok body -> bytes_ok rest -> zlen (der a type body ++ rest) < 2 ^ 31 ->
  let m := der a type body ++ rest in let c := Cursor m 0 (zlen m) in
  (exists c', asn1_enter a c type = Some (c', Ok tt) /\ contents c' = body)
  /\ (exists c', asn1_skip_if_exists a c type = Some (c', if zlen rest =? 0 then Err ENOENT else Ok tt) /\ contents c' = rest)
  /\ (exists c', asn1_shrink a c type = Some (c', Ok tt) /\ contents c' = der a type body).
Proof.
  intros Ht Hb Hr Hl m c. assert (Hlb : zlen body < 2 ^ 31) by (unfold m, der in Hl; rewrite !zlen_app in Hl; lia).
  assert (Hm : bytes_ok m) by (by apply Forall_app_2; [apply der_bytes|]). assert (Hin : inside c) by (unfold c; split_and!; cbn; try done; lia).
  assert (Ec : contents c = m) by (unfold contents, c; cbn [c_obj c_data c_len]; rewrite drop_0, Nat2Z.id; apply firstn_all).
  pose proof (start_ok a c type Hin) as E. rewrite Ec in E. unfold m in E. rewrite der_start_der in E by done.
  set (h := der_header a type (zlen body)) in *. assert (Em : m = h ++ body ++ rest) by (unfold m, der; by rewrite <- app_assoc).
  assert (Elen : zlen m = zlen h + zlen body + zlen rest) by (rewrite Em, !zlen_app; lia).
  unfold asn1_enter, asn1_skip_if_exists, asn1_shrink. rewrite E. unfold advance, c. cbn [c_obj c_data c_len]. split_and!.
  - eexists. split; [done|]. unfold contents. cbn [c_obj c_data c_len]. rewrite Z.add_0_l, !Nat2Z.id, Em, drop_app_length. apply take_app_length.
  - eexists. split; [by rewrite Elen; replace (zlen h + zlen body + zlen rest - zlen h - zlen body) with (zlen rest) by lia|].
    unfold contents. cbn [c_obj c_data c_len]. replace (Z.to_nat (0 + zlen h + zlen body)) with (length h + length body)%nat by lia. rewrite Em.
    rewrite drop_app_add, drop_app_length. apply take_ge. lia.
  - eexists. split; [done|]. unfold contents. cbn [c_obj c_data c_len]. rewrite drop_0. replace (Z.to_nat (0 + zlen h + zlen body - 0)) with (length (h ++ body)) by (rewrite length_app; lia).
    rewrite Em, app_assoc. apply take_app_length.
Qed.

(** C24.  What is built is read back: prepending an object to a builder puts its
    tag, its length in as few bytes as possible and its body in front of what
    was there, and wrapping puts a tag and a length in front of it all; reading
    the result with its tag enters exactly the body, skips to exactly what
    follows, and shrinks to exactly the object. *)
Theorem asn1_roundtrip a junk b d type body : holds_data b d -> bytes_ok d -> byte_ok type -> bytes_ok body -> zlen (der a type body) + zlen d < 2 ^ 31 ->
  (exists b', asn1_prepend a true junk b type body = Some (b', Ok tt) /\ bl_data b' = Some (der a type body ++ d)
    /\ (exists c, asn1_enter a (asn1_built b') type = Some (c, Ok tt) /\ contents c = body)
    /\ (exists c, asn1_skip_if_exists a (asn1_built b') type = Some (c, if zlen d =? 0 then Err ENOENT else Ok tt) /\ contents c = d)
    /\ (exists c, asn1_shrink a (asn1_built b') type = Some (c, Ok tt) /\ contents c = der a type body))
  /\ (zlen (der a type d) < 2 ^ 31 -> exists b', asn1_wrap a true junk b type = Some (b', Ok tt) /\ bl_data b' = Some (der a type d)
    /\ exists c, asn1_enter a (asn1_built b') type = Some (c, Ok tt) /\ contents c = d).
Proof.
  intros Hd Hbd Ht Hbb Hs. pose proof (Z.pow_le_mono_r 2 32 (size_bits a) ltac:(lia) (size_bits_large a)). split.
  - destruct (prepend_ok a junk b d type body Hd Ht ltac:(lia)) as (b' & E & Hl & [Hdat|[_ Hnil]]); [|discriminate Hnil].
    exists b'. split; [done|]. split; [done|]. unfold asn1_built. rewrite Hdat, Hl. cbn [default from_option id]. by apply read_der; rewrite ?zlen_app; try lia.
  - intros Hw. destruct (wrap_ok a junk b d type Hd Ht ltac:(lia)) as (b' & E & Hl & [Hdat|[_ Hnil]]); [|discriminate Hnil]. exists b'. split; [done|]. split; [done|].
    unfold asn1_built. rewrite Hdat, Hl. cbn [default from_option id]. pose proof (read_der a type d [] Ht Hbd ltac:(constructor)) as Hr. rewrite app_nil_r in Hr. by apply Hr.
Qed.

Lemma asn1_roundtrip_witness : exists b', asn1_prepend Arch32 true [7] (Builder (Some [5; 0]) 2) ASN1_INTEGER [1; 44] = Some (b', Ok tt)
  /\ bl_data b' = Some [2; 2; 1; 44; 5; 0] /\ exists c, asn1_enter Arch32 (asn1_built b') ASN1_INTEGER = Some (c, Ok tt) /\ contents c = [1; 44].
Proof.
  destruct (asn1_roundtrip Arch32 [7] (Builder (Some [5; 0]) 2) [5; 0] ASN1_INTEGER [1; 44]) as [(b' & E & Hd & Hc & _) _];
    [split; [reflexivity|by left]|solve_bytes|unfold byte_ok, ASN1_INTEGER; lia|solve_bytes|vm_compute; reflexivity|]. exists b'. split; [exact E|]. split; [exact Hd|exact Hc].
Defined.
