(* ===== verification/Asn1Values.v ===== *)
(** * ASN.1: integers and dates *)
From S2P Require Import Prelude Strings Memory Asn1 Asn1Correct Asn1Build.

(** ** Integers *)

(** The value of a sequence of bytes in two's complement. *)
Definition signed_val (l : list Z) : Z := match l with [] => 0 | b :: l' => swrap 8 b * 256 ^ zlen l' + be_val l' end.

Lemma integer_loop_ok l c v : inside c -> contents c = l -> - 2 ^ 31 <= v * 256 ^ zlen l + be_val l < 2 ^ 31 ->
  integer_loop (length l) c v = Some (Ok (v * 256 ^ zlen l + be_val l)).
Proof.
  revert c v. induction l as [|b l IH]; intros c v Hin E Hv; cbn [integer_loop length]; [cbn in *; do 2 f_equal; lia|].
  pose proof (contents_bytes c Hin) as Hb. pose proof (contents_length c Hin) as Hl. rewrite E in Hb, Hl. apply Forall_cons in Hb as [Hb Hbl]. cbn [length] in *.
  rewrite be_val_cons in *. replace (Z.of_nat (S (length l))) with (1 + zlen l) in * by lia. rewrite Z.pow_add_r in * by lia. change (256 ^ 1) with 256 in *.
  pose proof (be_val_range l Hbl) as Hr. pose proof (Z.pow_pos_nonneg 256 (zlen l) ltac:(lia) ltac:(lia)) as Hp. unfold byte_ok in Hb.
  assert (Hv' : - 2 ^ 23 <= v < 2 ^ 23) by nia.
  assert (Hh : u8 (Z.shiftr v 24) = 0 \/ u8 (Z.shiftr v 24) = 255).
  { rewrite Z.shiftr_div_pow2 by lia. assert (v / 2 ^ 24 = 0 \/ v / 2 ^ 24 = -1) as [-> | ->]; [Z.to_euclidean_division_equations; lia|by left|by right]. }
  assert (negb (u8 (Z.shiftr v 24) =? 0) && negb (u8 (Z.shiftr v 24) =? 255) = false) as -> by (by destruct Hh as [-> | ->]).
  rewrite (contents_byte c b l) by done. rewrite Z.shiftl_mul_pow2 by lia.
  assert (Esw : swrap 32 (v * 2 ^ 8) = v * 2 ^ 8) by (apply swrap_small; lia). rewrite Esw, lor_mul_add by lia.
  pose proof (advance_within c 1 Hin ltac:(lia)) as (Hin1 & _).
  rewrite IH; [do 2 f_equal; lia|done|by rewrite contents_advance, E by (done || lia)|]. lia.
Qed.

(** Entering an object that is followed by anything. *)
Lemma enter_der a type l rest : byte_ok type -> bytes_ok l -> bytes_ok rest -> zlen (der a type l ++ rest) < 2 ^ 31 ->
  let m := der a type l ++ rest in exists c, asn1_enter a (Cursor m 0 (zlen m)) type = Some (c, Ok tt) /\ contents c = l /\ inside c.
Proof.
  intros Ht Hl Hr Hs m. destruct (read_der a type l rest Ht Hl Hr Hs) as ((c & E & Ec) & _). exists c. split; [done|]. split; [done|].
  destruct (enter_within a (Cursor m 0 (zlen m)) type) as (c' & rc & E' & Hw).
  - split_and!; cbn [c_obj c_data c_len]; try done; try lia. apply Forall_app_2; [|done]. apply der_bytes; [done|done|]. unfold der in Hs. rewrite !zlen_app in Hs. lia.
  - fold m in E. rewrite E in E'. injection E' as <- <-. apply Hw.
Qed.

(**  Integers: an INTEGER of any number of bytes whose value fits into an
    [int] is read as that value.  The check for larger ones comes a byte too
    late, so 2^31 is read as its negative. *)
Theorem asn1_integer_correct a l rest : l <> [] -> bytes_ok l -> bytes_ok rest -> zlen (der a ASN1_INTEGER l ++ rest) < 2 ^ 31 ->
  - 2 ^ 31 <= signed_val l < 2 ^ 31 ->
  (let m := der a ASN1_INTEGER l ++ rest in asn1_integer a (Cursor m 0 (zlen m)) = Some (Ok (signed_val l)))
  /\ signed_val [0; 128; 0; 0; 0] = 2 ^ 31 /\ asn1_integer a (Cursor [2; 5; 0; 128; 0; 0; 0] 0 7) = Some (Ok (- 2 ^ 31)).
Proof.
  intros Hne Hl Hr Hs Hv. split; [|split; [done|by destruct a; vm_compute]]. cbn zeta. destruct (enter_der a ASN1_INTEGER l rest) as (c & E & Ec & Hin); try done.
  unfold asn1_integer. rewrite E. pose proof (contents_length c Hin) as Hlen. destruct l as [|b l]; [done|]. rewrite Ec in Hlen. cbn [length] in Hlen.
  rewrite (proj2 (Z.ltb_ge _ 1)), (contents_byte c b l) by (done || lia). cbn [c_len advance]. pose proof (advance_within c 1 Hin ltac:(lia)) as (Hin1 & _).
  replace (Z.to_nat (c_len c - 1)) with (length l) by lia. rewrite integer_loop_ok; [done|done|by rewrite contents_advance, Ec by (done || lia)|exact Hv].
Qed.

Lemma asn1_integer_correct_witness : asn1_integer Arch64 (Cursor [2; 2; 255; 56; 9] 0 5) = Some (Ok (-200)).
Proof.
  apply (asn1_integer_correct Arch64 [255; 56] [9]); [discriminate|solve_bytes|solve_bytes|vm_compute; reflexivity|vm_compute; split; [discriminate|reflexivity]].
Defined.

(** ** The calendar *)

Definition leap (y : Z) : bool := (y mod 4 =? 0) && (negb (y mod 100 =? 0) || (y mod 400 =? 0)).
Definition year_days (y : Z) : Z := if leap y then 366 else 365.
Definition month_lengths (y : Z) : list Z := [31; if leap y then 29 else 28; 31; 30; 31; 30; 31; 31; 30; 31; 30; 31].

Definition total (l : list Z) : Z := foldr Z.add 0 l.

(** The day of the year, from zero; the days before a year, from 1900; and the
    days since the first of January 1970. *)
Definition year_day (y m d : Z) : Z := total (take (Z.to_nat m) (month_lengths y)) + (d - 1).
Definition days_to_year (y : Z) : Z := total (year_days <$> seqZ 1900 (y - 1900)).
Definition epoch_day (y m d : Z) : Z := days_to_year y - days_to_year 1970 + year_day y m d.

Lemma is_leap_year_ok y : 0 <= y -> is_leap_year y = leap (1900 + y).
Proof.
  intros Hy. unfold is_leap_year, leap. rewrite !Z.rem_mod_nonneg by lia.
  destruct (Z.eqb_spec (y mod 4) 0), (Z.eqb_spec (y mod 100) 0), (Z.eqb_spec (y mod 400) 100), (Z.eqb_spec ((1900 + y) mod 4) 0),
    (Z.eqb_spec ((1900 + y) mod 100) 0), (Z.eqb_spec ((1900 + y) mod 400) 0); try done; exfalso; Z.to_euclidean_division_equations; lia.
Qed.

Lemma leap_years_step y : 0 <= y -> leap_years_to_end y = leap_years_to_end (y - 1) + (if leap (1900 + y) then 1 else 0).
Proof.
  intros Hy. rewrite <- is_leap_year_ok by done. unfold is_leap_year, leap_years_to_end.
  destruct (Z.eqb_spec (Z.rem y 4) 0), (Z.eqb_spec (Z.rem y 100) 0), (Z.eqb_spec (Z.rem y 400) 100); try (exfalso; Z.to_euclidean_division_equations; lia);
    Z.to_euclidean_division_equations; lia.
Qed.

Lemma total_app l k : total (l ++ k) = total l + total k.
Proof. unfold total. induction l; cbn; lia. Qed.

Lemma days_to_year_ok y : 0 <= y -> days_to_year (1900 + y) = 365 * y + leap_years_to_end (y - 1).
Proof.
  intros Hy. pattern y. apply natlike_ind; [reflexivity| |done]. clear y Hy. intros y Hy IH. unfold days_to_year in *.
  replace (1900 + Z.succ y - 1900) with (y + 1) by lia. replace (1900 + y - 1900) with y in IH by lia. rewrite seqZ_app by lia. rewrite fmap_app, total_app, IH.
  change (seqZ (1900 + y) 1) with [1900 + y]. cbn [fmap list_fmap total foldr]. replace (Z.succ y - 1) with y by lia. rewrite (leap_years_step y Hy).
  unfold year_days. destruct (leap (1900 + y)); lia.
Qed.

Lemma month_cases m : 0 <= m < 12 -> m = 0 \/ m = 1 \/ m = 2 \/ m = 3 \/ m = 4 \/ m = 5 \/ m = 6 \/ m = 7 \/ m = 8 \/ m = 9 \/ m = 10 \/ m = 11.
Proof. lia. Qed.

(** The tables of the code for one month. *)
Lemma month_tables y m : 0 <= m < 12 -> exists start off, days_to_month_start !! Z.to_nat m = Some start /\ day_offset !! Z.to_nat m = Some off /\ 0 <= off
  /\ total (take (Z.to_nat m) (month_lengths y)) = start + (if (2 <=? m) && leap y then 1 else 0) /\ off mod 7 = (start + (if m <? 2 then 1 else 0)) mod 7.
Proof.
  intros Hm. unfold month_lengths. destruct (leap y);
  destruct (month_cases m Hm) as [->|[->|[->|[->|[->|[->|[->|[->|[->|[->|[->| ->]]]]]]]]]]]; eexists _, _; (split; [reflexivity|]); (split; [reflexivity|]);
    (split; [lia|]); split; reflexivity.
Qed.

Lemma day_of_week_ok y m d : 0 <= y -> 0 <= m < 12 -> 1 <= d -> day_of_week y m d = Some ((epoch_day (1900 + y) m d + 4) mod 7).
Proof.
  intros Hy Hm Hd. unfold day_of_week, epoch_day, year_day. rewrite (days_to_year_ok y Hy). change (days_to_year 1970) with 25567. rewrite (proj2 (Z.leb_le 0 m)) by lia.
  destruct (month_tables (1900 + y) m Hm) as (start & off & _ & -> & Hoff & -> & Hmod). f_equal.
  assert (Hly : 0 <= y - 1 + leap_years_to_end (y - 1) + 1 /\ 0 <= leap_years_to_end y) by (unfold leap_years_to_end; split; Z.to_euclidean_division_equations; lia).
  pose proof (leap_years_step y Hy) as Hst. destruct (Z.ltb_spec m 2); [rewrite (proj2 (Z.leb_gt 2 m)) by lia|rewrite (proj2 (Z.leb_le 2 m)) by lia];
    rewrite Z.rem_mod_nonneg by lia; destruct (leap (1900 + y)); cbn [andb]; Z.to_euclidean_division_equations; lia.
Qed.

(**  Dates: from 1900 on, [mktime] gives the seconds between the beginning of
    1970 and a date of the Gregorian calendar, with its day of the week (Sunday is
    zero) and of the year; there is no entry for a month that does not exist. *)
Theorem mktime_correct t : 0 <= tm_year t -> 1 <= tm_mday t ->
  mktime t = (if decide (0 <= tm_mon t < 12) then
      let day := epoch_day (1900 + tm_year t) (tm_mon t) (tm_mday t) in
      Some (day * 86400 + (tm_hour t * 3600 + tm_min t * 60 + tm_sec t), (day + 4) mod 7, year_day (1900 + tm_year t) (tm_mon t) (tm_mday t))
    else None).
Proof.
  intros Hy Hd. case_decide as Hm; [|by apply mktime_none]. unfold mktime. rewrite (proj2 (Z.leb_le 0 (tm_mon t))) by lia.
  rewrite day_of_week_ok by done. unfold epoch_day, year_day. rewrite (days_to_year_ok _ Hy). change (days_to_year 1970) with 25567.
  destruct (month_tables (1900 + tm_year t) (tm_mon t) Hm) as (start & off & -> & _ & _ & -> & _). rewrite is_leap_year_ok by done. cbn zeta.
  destruct (_ && _); f_equal; (f_equal; [f_equal; lia|lia]).
Qed.

Lemma mktime_correct_witness : mktime (Tm 0 0 0 29 1 100) = Some (11016 * 86400, 2, 59).
Proof. exact (mktime_correct (Tm 0 0 0 29 1 100) ltac:(cbn; lia) ltac:(cbn; lia)). Defined.

(** ** Dates in certificates *)

Definition two (n : Z) : list Z := [48 + n / 10; 48 + n mod 10].
Definition time_text (l : list Z) : list Z := (l ≫= two) ++ [90].

Lemma two_ok n k rest ps : 0 <= n < 100 -> pairs_loop (S k) (two n ++ rest) ps = pairs_loop k rest (ps ++ [n]).
Proof.
  intros Hn. unfold two. cbn [pairs_loop app lookup list_lookup drop length]. rewrite (proj2 (Z.ltb_ge _ 2)) by lia. rewrite drop_0.
  assert (Hd : 0 <= n / 10 < 10 /\ 0 <= n mod 10 < 10) by (Z.to_euclidean_division_equations; lia).
  unfold isdigit. rewrite !(proj2 (Z.leb_le _ _)) by lia. cbn [andb negb]. rewrite uwrap_small; [|Z.to_euclidean_division_equations; lia]. do 2 f_equal.
  f_equal. Z.to_euclidean_division_equations; lia.
Qed.

Lemma two_bytes n : 0 <= n < 100 -> bytes_ok (two n).
Proof. intros Hn. unfold two, bytes_ok. repeat constructor; unfold byte_ok; Z.to_euclidean_division_equations; lia. Qed.

Lemma pairs_text l rest ps : Forall (fun n => 0 <= n < 100) l -> pairs_loop (length l) ((l ≫= two) ++ rest) ps = Some (Ok (ps ++ l, rest)).
Proof.
  intros Hl. revert ps. induction Hl as [|n l Hn Hl IH]; intros ps; [cbn; by rewrite app_nil_r|]. cbn [length]. change ((n :: l) ≫= two) with (two n ++ (l ≫= two)).
  rewrite <- app_assoc, two_ok by done. rewrite IH. by rewrite <- app_assoc.
Qed.

Lemma time_text_bytes l : Forall (fun n => 0 <= n < 100) l -> bytes_ok (time_text l) /\ zlen (time_text l) = 2 * zlen l + 1.
Proof.
  intros Hl. unfold time_text. rewrite zlen_app. cbn [length]. induction Hl as [|n l Hn Hl [IH1 IH2]]; [split; [solve_bytes|done]|].
  change ((n :: l) ≫= two) with (two n ++ (l ≫= two)). rewrite <- app_assoc, zlen_app. cbn [length]. split; [apply Forall_app_2; [by apply two_bytes|done]|].
  change (zlen (two n)) with 2. lia.
Qed.

(** The fields of a date, when its text is read. *)
Lemma time_fields a (hc : bool) l rest : Forall (fun n => 0 <= n < 100) l -> length l = (if hc then 7 else 6)%nat -> bytes_ok rest -> zlen rest < 2 ^ 30 ->
  let type := if hc then ASN1_GENERALIZED_TIME else ASN1_UTC_TIME in let m := der a type (time_text l) ++ rest in
  asn1_generalized_time a (Cursor m 0 (zlen m))
  = match (if hc then [] else [0]) ++ l with
    | [century; year; month; day; hour; minute; second] =>
        let century := if hc then century else if 50 <=? year then 19 else 20 in
        opt! (time, _, _) := mktime (Tm second minute hour day (month - 1) ((century - 19) * 100 + year)) in Some (Ok time)
    | _ => None
    end.
Proof.
  intros Hl Hn Hr Hs type m. destruct (time_text_bytes l Hl) as [Hb Hlen]. assert (Ht : byte_ok type) by (unfold type, byte_ok; by destruct hc).
  assert (Hnl : zlen (time_text l) <= 15) by (rewrite Hlen, Hn; by destruct hc).
  assert (Hm : zlen m < 2 ^ 31).
  { unfold m, der, der_header. rewrite (proj2 (Z.ltb_lt _ 0x80)) by lia. rewrite !zlen_app. cbn [length]. lia. }
  destruct (enter_der a type (time_text l) rest Ht Hb Hr Hm) as (c & E & Ec & Hin). fold m in E. unfold asn1_generalized_time.
  assert (asn1_type (Cursor m 0 (zlen m)) = Some type) as ->.
  { unfold asn1_type. cbn [c_len c_obj c_data]. rewrite (proj2 (Z.leb_le 1 _)) by (unfold m, der, der_header; rewrite !zlen_app; cbn [length]; lia). done. }
  assert ((if type =? ASN1_UTC_TIME then Some (Some false) else if type =? ASN1_GENERALIZED_TIME then Some (Some true) else Some None) = Some (Some hc)) as -> by (by destruct hc).
  rewrite E. assert (mem_read (c_obj c) (c_data c) (c_len c) = Some (time_text l)) as ->.
  { destruct Hin as (H1 & H2 & H3 & _). unfold mem_read. rewrite !(proj2 (Z.leb_le _ _)) by lia. by rewrite <- Ec. }
  unfold time_text. rewrite <- Hn, pairs_text by done. set (fields := _ ++ l). assert (Hf : length fields = 7%nat) by (unfold fields; rewrite length_app, Hn; by destruct hc).
  clearbody fields. destruct fields as [|ce [|ye [|mo [|da [|ho [|mi [|se [|? ?]]]]]]]]; try discriminate Hf. done.
Qed.

(** What the fields of a date stand for. *)
Definition time_value (century year month day hour minute second : Z) : option (res Z) :=
  if decide (1 <= month <= 12) then Some (Ok (epoch_day (100 * century + year) (month - 1) day * 86400 + (hour * 3600 + minute * 60 + second))) else None.

(** C25.  Dates in certificates: a GeneralizedTime with seconds and a UTCTime (of a
    year between 1950 and 2049) are read as the seconds since the beginning of
    1970; with a month that does not exist, the table of months is read outside
    its bounds. *)
Theorem asn1_time_correct a rest century year month day hour minute second : Forall (fun n => 0 <= n < 100) [century; year; month; day; hour; minute; second] ->
  bytes_ok rest -> zlen rest < 2 ^ 30 -> 19 <= century -> 1 <= day ->
  (let m := der a ASN1_GENERALIZED_TIME (time_text [century; year; month; day; hour; minute; second]) ++ rest in
   asn1_generalized_time a (Cursor m 0 (zlen m)) = time_value century year month day hour minute second)
  /\ (let m := der a ASN1_UTC_TIME (time_text [year; month; day; hour; minute; second]) ++ rest in
   asn1_generalized_time a (Cursor m 0 (zlen m)) = time_value (if 50 <=? year then 19 else 20) year month day hour minute second).
Proof.
  intros Hl Hr Hs Hc Hd. pose proof Hl as Hl'. apply Forall_cons in Hl' as [Hce Hl']. pose proof Hl' as Hy. apply Forall_cons in Hy as [Hye _].
  assert (Hv : forall ce, 19 <= ce -> (opt! (time, _, _) := mktime (Tm second minute hour day (month - 1) ((ce - 19) * 100 + year)) in Some (Ok time))
    = time_value ce year month day hour minute second).
  { intros ce Hge. rewrite mktime_correct by (cbn; lia). cbn [tm_mon tm_year tm_mday tm_hour tm_min tm_sec]. unfold time_value.
    destruct (decide (0 <= month - 1 < 12)), (decide (1 <= month <= 12)); try lia; [|done]. do 3 f_equal. f_equal. f_equal. lia. }
  split; cbn zeta.
  - pose proof (time_fields a true _ rest Hl eq_refl Hr Hs) as E. cbn zeta in E. rewrite E. by apply Hv.
  - pose proof (time_fields a false _ rest Hl' eq_refl Hr Hs) as E. cbn zeta in E. rewrite E. cbn [app]. apply Hv. case_if; lia.
Qed.

(** 2024-02-29 23:59:60 and 1999-00-01. *)
Lemma asn1_time_correct_witness :
  (let m := der Arch32 ASN1_GENERALIZED_TIME (time_text [20; 24; 2; 29; 23; 59; 60]) in asn1_generalized_time Arch32 (Cursor (m ++ []) 0 (zlen (m ++ []))) = Some (Ok 1709251200))
  /\ (let m := der Arch32 ASN1_UTC_TIME (time_text [99; 0; 1; 0; 0; 0]) in asn1_generalized_time Arch32 (Cursor (m ++ []) 0 (zlen (m ++ []))) = None).
Proof.
  split; [apply (asn1_time_correct Arch32 [] 20 24 2 29 23 59 60)|apply (asn1_time_correct Arch32 [] 19 99 0 1 0 0 0)]; try lia; try solve_bytes; try (vm_compute; reflexivity);
    repeat constructor; lia.
Defined.

(** ** Corner cases *)

(** On an error [asn1_skip_if_exists] leaves the cursor behind the tag; a length in
    five bytes loses the first of them; dates before 1897 are a day early (1897
    began 1095 days before 1900). *)
Example asn1_corner_cases :
  asn1_skip_if_exists Arch32 (Cursor [2; 200] 0 2) ASN1_INTEGER = Some (Cursor [2; 200] 2 0, Err EINVAL_ASN1_LEN_LEN)
  /\ asn1_start Arch64 (Cursor [48; 133; 1; 0; 0; 0; 0] 0 7) ASN1_SEQUENCE 0 = Some (Cursor [48; 133; 1; 0; 0; 0; 0] 7 0, Ok 0)
  /\ mktime (Tm 0 0 0 1 0 (-3)) = Some ((- 1095 - 1 - days_to_year 1970) * 86400, -3, 0).
Proof. vm_compute. split_and!; reflexivity. Qed.
