(* ===== verification/Iobuf.v ===== *)
(** * I/O buffers ([include/ipxe/iobuf.h], [core/iobuf.c])

    A buffer is the memory between [head] and [end] with the offsets of [data]
    and [tail]; [None] of an operation on a buffer is a pointer that leaves the
    memory (the conditions the source asserts).  [iob_holds b d] says that [b]
    is in order and that [d] is the data in it. *)
From S2P Require Import Prelude Strings Memory.

Record io_buffer := IoBuf { io_mem : list Z; io_data : Z; io_tail : Z }.

Definition iob_len (b : io_buffer) : Z := io_tail b - io_data b.
Definition iob_headroom (b : io_buffer) : Z := io_data b.
Definition iob_tailroom (b : io_buffer) : Z := zlen (io_mem b) - io_tail b.

(** The pointers in order. *)
Definition iob_check (b : io_buffer) : option io_buffer :=
  if (0 <=? io_data b) && (io_data b <=? io_tail b) && (io_tail b <=? zlen (io_mem b)) then Some b else None.

Definition iob_reserve (b : io_buffer) (len : Z) : option io_buffer := iob_check (IoBuf (io_mem b) (io_data b + len) (io_tail b + len)).
Definition iob_push (b : io_buffer) (len : Z) : option io_buffer := iob_check (IoBuf (io_mem b) (io_data b - len) (io_tail b)).
Definition iob_pull (b : io_buffer) (len : Z) : option io_buffer := iob_check (IoBuf (io_mem b) (io_data b + len) (io_tail b)).
Definition iob_put (b : io_buffer) (len : Z) : option io_buffer := iob_check (IoBuf (io_mem b) (io_data b) (io_tail b + len)).
Definition iob_unput (b : io_buffer) (len : Z) : option io_buffer := iob_check (IoBuf (io_mem b) (io_data b) (io_tail b - len)).
Definition iob_empty (b : io_buffer) : io_buffer := IoBuf (io_mem b) (io_data b) (io_data b).
Definition iob_populate (data : list Z) (len : Z) : option io_buffer := iob_check (IoBuf data 0 len).

(** Accesses at an offset from [data]. *)
Definition iob_read (b : io_buffer) (off len : Z) : option (list Z) :=
  if iob_len b <? off + len then None else if off <? 0 then None else mem_read (io_mem b) (io_data b + off) len.
Definition iob_write (b : io_buffer) (off : Z) (bytes : list Z) : option io_buffer :=
  if (iob_len b <? off + zlen bytes) || (off <? 0) then None else
  opt! mem := mem_write (io_mem b) (io_data b + off) bytes in Some (IoBuf mem (io_data b) (io_tail b)).
Definition iob_bytes (b : io_buffer) : option (list Z) := iob_read b 0 (iob_len b).

(** [memcpy ( iob_put ( b, len ), data, len )]. *)
Definition iob_append (b : io_buffer) (data : list Z) : option io_buffer :=
  let off := iob_len b in opt! b := iob_put b (zlen data) in iob_write b off data.

(** ** Allocation *)

(** What the allocators return: the memory for a length, an alignment and an
    offset, and whether there is room for a descriptor. *)
Record iob_env := IobEnv { ie_phys : Z -> Z -> Z -> option (list Z); ie_malloc : bool }.

Definition iob_env_ok (e : iob_env) : Prop :=
  forall len align offset mem, ie_phys e len align offset = Some mem -> zlen mem = len /\ bytes_ok mem.

Definition IOB_ZLEN : Z := 128.

(** A list head, a DMA mapping of three words and four pointers. *)
Definition sizeof_io_buffer (a : arch) : Z := 9 * ptr_bytes a.
Definition alignof_io_buffer (a : arch) : Z := ptr_bytes a.

(** The alignment and the length threshold of [alloc_iob_raw]. *)
Definition iob_padding (a : arch) : Z := sizeof_io_buffer a + alignof_io_buffer a - 1.
Definition iob_align_log2 (a : arch) (align : Z) : Z := fls ((if align <? iob_padding a then iob_padding a else align) - 1).
Definition iob_inline_len (a : arch) (len offset : Z) : Z := len + Z.land (uwrap (size_bits a) (- len - offset)) (alignof_io_buffer a - 1).

Definition alloc_iob_raw (a : arch) (e : iob_env) (len align offset : Z) : option io_buffer :=
  let align_log2 := iob_align_log2 a align in
  if size_bits a <=? align_log2 then None else
  let align := 2 ^ align_log2 in
  let threshold := align - iob_padding a in
  if len <=? threshold then
    let len := iob_inline_len a len offset in
    opt! mem := ie_phys e (len + sizeof_io_buffer a) align offset in
    Some (IoBuf (take (Z.to_nat len) mem) 0 0)
  else
    opt! mem := ie_phys e len align offset in
    if ie_malloc e then Some (IoBuf mem 0 0) else None.

Definition alloc_iob (a : arch) (e : iob_env) (len : Z) : option io_buffer :=
  let len := if len <? IOB_ZLEN then IOB_ZLEN else len in alloc_iob_raw a e len len 0.

Definition iob_ensure_headroom (b : io_buffer) (len : Z) : res unit :=
  if len <=? iob_headroom b then Ok tt else Err ENOBUFS.

(** Buffers moved into a new one; [Some None] is a failed allocation. *)
Fixpoint iob_append_all (b : io_buffer) (l : list io_buffer) : option io_buffer :=
  match l with
  | [] => Some b
  | x :: l' => opt! data := iob_bytes x in opt! b := iob_append b data in iob_append_all b l'
  end.

Definition iob_concatenate (a : arch) (e : iob_env) (l : list io_buffer) : option (option io_buffer) :=
  match l with
  | [b] => Some (Some b)
  | _ =>
      let len := uwrap (size_bits a) (foldr (fun b n => iob_len b + n) 0 l) in
      match alloc_iob_raw a e len (alignof_io_buffer a) 0 with
      | None => Some None
      | Some b => opt! b := iob_append_all b l in Some (Some b)
      end
  end.

(** The first bytes in a buffer of their own, and the rest. *)
Definition iob_split (a : arch) (e : iob_env) (b : io_buffer) (len : Z) : option (option io_buffer * io_buffer) :=
  match alloc_iob a e len with
  | None => Some (None, b)
  | Some split =>
      opt! data := iob_read b 0 len in
      opt! split := iob_append split data in
      opt! b := iob_pull b len in Some (Some split, b)
  end.

(** ** Buffers and their data *)

Inductive iob_holds (b : io_buffer) (d : list Z) : Prop :=
| IobHolds (head rest : list Z) :
    io_mem b = head ++ d ++ rest -> io_data b = zlen head -> io_tail b = zlen head + zlen d -> iob_holds b d.

Lemma iob_holds_intro H d R : iob_holds (IoBuf (H ++ d ++ R) (zlen H) (zlen H + zlen d)) d.
Proof. by exists H R. Qed.

Lemma iob_holds_len b d : iob_holds b d -> iob_len b = zlen d.
Proof. intros [H R E1 E2 E3]. unfold iob_len. lia. Qed.

Lemma iob_check_ok b : 0 <= io_data b <= io_tail b -> io_tail b <= zlen (io_mem b) -> iob_check b = Some b.
Proof. intros. unfold iob_check. by rewrite !(proj2 (Z.leb_le _ _)) by lia. Qed.

Lemma iob_check_Some b b' : iob_check b = Some b' -> b' = b /\ iob_holds b (take (Z.to_nat (iob_len b)) (drop (Z.to_nat (io_data b)) (io_mem b))).
Proof.
  unfold iob_check. intros H. case_if_in H; [|done]. injection H as <-. split; [done|].
  exists (take (Z.to_nat (io_data b)) (io_mem b)) (drop (Z.to_nat (io_tail b)) (io_mem b)); unfold iob_len;
    rewrite ?length_take, ?length_drop; [|lia..].
  rewrite <- (take_drop (Z.to_nat (io_data b)) (io_mem b)) at 1. f_equal.
  rewrite <- (take_drop (Z.to_nat (io_tail b - io_data b)) (drop (Z.to_nat (io_data b)) (io_mem b))) at 1.
  f_equal. rewrite drop_drop. f_equal. lia.
Qed.

(** The operations on a buffer whose data is known. *)
Lemma iob_read_holds b d off len : iob_holds b d -> 0 <= off -> 0 <= len -> off + len <= zlen d ->
  iob_read b off len = Some (take (Z.to_nat len) (drop (Z.to_nat off) d)).
Proof.
  intros [H R E1 E2 E3] Ho Hl Hb. unfold iob_read, iob_len. rewrite (proj2 (Z.ltb_ge _ _)), (proj2 (Z.ltb_ge off 0)) by lia.
  unfold mem_read. rewrite E1, !(proj2 (Z.leb_le _ _)) by (rewrite ?zlen_app; lia). cbn [andb].
  rewrite E2, Z2Nat.inj_add, Nat2Z.id by lia. rewrite drop_app_add. rewrite drop_app_le by lia.
  rewrite take_app_le by (rewrite length_drop; lia). done.
Qed.

Lemma iob_read_at b A x R : iob_holds b (A ++ x ++ R) -> iob_read b (zlen A) (zlen x) = Some x.
Proof.
  intros H. rewrite (iob_read_holds _ _ _ _ H) by (rewrite ?zlen_app; lia). rewrite !Nat2Z.id, drop_app_length, take_app_length. done.
Qed.

Lemma iob_bytes_holds b d : iob_holds b d -> iob_bytes b = Some d.
Proof.
  intros H. unfold iob_bytes. rewrite (iob_holds_len _ _ H). apply (iob_read_at b [] d []). by rewrite app_nil_r.
Qed.

Lemma iob_write_holds b A x y R : iob_holds b (A ++ x ++ R) -> length x = length y ->
  exists b', iob_write b (zlen A) y = Some b' /\ iob_holds b' (A ++ y ++ R) /\ io_data b' = io_data b /\ zlen (io_mem b') = zlen (io_mem b).
Proof.
  intros [H T E1 E2 E3] Hl. unfold iob_write, iob_len. rewrite !zlen_app in E3.
  rewrite !(proj2 (Z.ltb_ge _ _)) by lia. cbn [orb]. rewrite E1, E2, <- zlen_app, <- !app_assoc, app_assoc, mem_write_at by done.
  eexists. split; [done|]. split; [|cbn; split; [done|rewrite !length_app; lia]]. exists H T; cbn.
  - by rewrite <- !app_assoc.
  - done.
  - rewrite !zlen_app. lia.
Qed.

Lemma iob_pull_holds b x d : iob_holds b (x ++ d) ->
  exists b', iob_pull b (zlen x) = Some b' /\ iob_holds b' d /\ io_data b' = io_data b + zlen x /\ io_mem b' = io_mem b.
Proof.
  intros [H R E1 E2 E3]. rewrite zlen_app in E3. unfold iob_pull. rewrite iob_check_ok by (cbn; rewrite ?E1, ?zlen_app; lia).
  eexists. split; [done|]. split; [|done]. exists (H ++ x) R; cbn; rewrite ?zlen_app; [|lia..]. by rewrite E1, <- !app_assoc.
Qed.

Lemma iob_unput_holds b d x : iob_holds b (d ++ x) ->
  exists b', iob_unput b (zlen x) = Some b' /\ iob_holds b' d /\ io_data b' = io_data b /\ io_mem b' = io_mem b.
Proof.
  intros [H R E1 E2 E3]. rewrite zlen_app in E3. unfold iob_unput. rewrite iob_check_ok by (cbn; rewrite ?E1, ?zlen_app; lia).
  eexists. split; [done|]. split; [|done]. exists H (x ++ R); cbn; [|lia..]. by rewrite E1, <- !app_assoc.
Qed.

(** What is pushed are bytes that were in the headroom. *)
Lemma iob_push_holds b d n : iob_holds b d -> 0 <= n <= io_data b ->
  exists b' x, iob_push b n = Some b' /\ zlen x = n /\ iob_holds b' (x ++ d) /\ io_data b' = io_data b - n /\ io_mem b' = io_mem b.
Proof.
  intros [H R E1 E2 E3] Hn. unfold iob_push. rewrite iob_check_ok by (cbn; rewrite ?E1, ?zlen_app; lia).
  eexists _, (drop (length H - Z.to_nat n) H). split; [done|]. rewrite length_drop. split; [lia|]. split; [|done].
  exists (take (length H - Z.to_nat n) H) R; cbn; rewrite ?zlen_app, ?length_take, ?length_drop; [|lia..].
  rewrite E1, <- app_assoc. rewrite (app_assoc (take _ H)), take_drop. done.
Qed.

Lemma iob_append_holds b d x : iob_holds b d -> zlen x <= iob_tailroom b ->
  exists b', iob_append b x = Some b' /\ iob_holds b' (d ++ x) /\ io_data b' = io_data b /\ zlen (io_mem b') = zlen (io_mem b).
Proof.
  intros [H R E1 E2 E3] Hx. unfold iob_tailroom in Hx. rewrite E1, !zlen_app in Hx.
  unfold iob_append, iob_put, iob_len. rewrite iob_check_ok by (cbn; rewrite ?E1, ?zlen_app; lia).
  set (T := take (length x) R). assert (HT : length T = length x) by (unfold T; rewrite length_take; lia).
  assert (Hh : iob_holds (IoBuf (io_mem b) (io_data b) (io_tail b + zlen x)) (d ++ T ++ [])).
  { exists H (drop (length x) R); cbn; rewrite ?app_nil_r, ?zlen_app; [|lia..]. rewrite E1, <- app_assoc. unfold T. by rewrite take_drop. }
  destruct (iob_write_holds _ d T x [] Hh HT) as (b' & Eb & Hb & E4 & E5). rewrite app_nil_r in Hb.
  exists b'. replace (io_tail b - io_data b) with (zlen d) by lia. done.
Qed.

Lemma iob_reserve_holds mem n : 0 <= n <= zlen mem ->
  exists b, iob_reserve (IoBuf mem 0 0) n = Some b /\ iob_holds b [] /\ io_data b = n /\ io_mem b = mem.
Proof.
  intros Hn. unfold iob_reserve. rewrite iob_check_ok by (cbn; lia). eexists. split; [done|]. split; [|done].
  exists (take (Z.to_nat n) mem) (drop (Z.to_nat n) mem); cbn; rewrite ?length_take; [by rewrite take_drop|lia..].
Qed.

(** ** Allocation *)

Lemma fls_bound x : 0 <= x -> x < 2 ^ fls x.
Proof.
  intros Hx. unfold fls. destruct (Z.eqb_spec x 0) as [->|]; [done|]. pose proof (Z.log2_spec x ltac:(lia)). rewrite Z.add_1_r. lia.
Qed.

Lemma fls_nonneg x : 0 <= fls x.
Proof. unfold fls. pose proof (Z.log2_nonneg x). case_if; lia. Qed.

(** The rounded alignment is the least power of two that is large enough. *)
Lemma iob_align_spec a align : 0 <= align ->
  let k := iob_align_log2 a align in 0 <= k /\ align <= 2 ^ k /\ iob_padding a <= 2 ^ k.
Proof.
  intros Ha k. unfold k, iob_align_log2. split; [apply fls_nonneg|]. assert (0 < iob_padding a) by (destruct a; vm_compute; done).
  set (n := if align <? iob_padding a then iob_padding a else align).
  assert (Hn : align <= n /\ iob_padding a <= n) by (unfold n; case_if; lia). pose proof (fls_bound (n - 1) ltac:(lia)). lia.
Qed.

Lemma iob_inline_len_spec a len offset : 0 <= len -> 0 <= offset < 2 ^ size_bits a -> len < 2 ^ size_bits a ->
  let n := iob_inline_len a len offset in len <= n < len + alignof_io_buffer a /\ (n + offset) mod alignof_io_buffer a = 0.
Proof.
  intros Hl Ho Hw n. unfold n, iob_inline_len. assert (exists k, 0 <= k <= 3 /\ alignof_io_buffer a = 2 ^ k) as (k & Hk & ->)
    by (destruct a; [exists 2|exists 3]; split; done || lia).
  pose proof (size_bits_large a). rewrite land_ones_mod by lia. unfold uwrap. rewrite mod_mod_pow2 by lia. pose proof (pow2_pos k ltac:(lia)).
  pose proof (Z.mod_pos_bound (- len - offset) (2 ^ k) ltac:(lia)). split; [lia|].
  rewrite (Z.mod_eq (- len - offset)) by lia. set (q := (- len - offset) / 2 ^ k).
  replace (len + (- len - offset - 2 ^ k * q) + offset) with ((- q) * 2 ^ k) by ring. apply Z.mod_mul. lia.
Qed.

(** A buffer that was allocated is empty and has at least the length asked for;
    where the descriptor lies behind it in the same allocation, it is aligned
    and the whole does not go over the next alignment boundary. *)
Theorem alloc_iob_raw_correct a e len align offset b :
  iob_env_ok e -> 0 <= len < 2 ^ size_bits a -> 0 <= align < 2 ^ size_bits a -> 0 <= offset < 2 ^ size_bits a ->
  alloc_iob_raw a e len align offset = Some b ->
  iob_holds b [] /\ io_data b = 0 /\ len <= iob_tailroom b
  /\ let k := iob_align_log2 a align in align <= 2 ^ k < 2 ^ size_bits a
     /\ (iob_tailroom b = len \/ (iob_tailroom b + offset) mod alignof_io_buffer a = 0 /\ iob_tailroom b + sizeof_io_buffer a <= 2 ^ k).
Proof.
  intros He Hl Ha Ho. unfold alloc_iob_raw. destruct (iob_align_spec a align ltac:(lia)) as (K1 & K2 & K3).
  set (k := iob_align_log2 a align) in *. intros E. case_if_in E; [done|].
  assert (Hk : 2 ^ k < 2 ^ size_bits a) by (apply Z.pow_lt_mono_r; lia).
  assert (Hnew : forall mem, iob_holds (IoBuf mem 0 0) []) by (intros mem; by exists [] mem).
  case_if_in E.
  - destruct (ie_phys e _ _ _) as [mem|] eqn:Em; [|done]. injection E as <-. apply He in Em as [Em _].
    destruct (iob_inline_len_spec a len offset ltac:(lia) ltac:(lia) ltac:(lia)) as [I1 I2]. set (n := iob_inline_len a len offset) in *.
    assert (0 < sizeof_io_buffer a) by (destruct a; vm_compute; done).
    unfold iob_tailroom. cbn [io_mem io_tail io_data]. rewrite length_take.
    replace (Z.of_nat (Z.to_nat n `min` length mem) - 0) with n by lia. split; [apply Hnew|]. split; [done|]. split; [lia|].
    split; [lia|]. right. split; [done|]. unfold iob_padding in *. lia.
  - destruct (ie_phys e _ _ _) as [mem|] eqn:Em; [|done]. case_if_in E; [|done]. injection E as <-. apply He in Em as [Em _].
    unfold iob_tailroom. cbn [io_mem io_tail io_data]. split; [apply Hnew|]. split; [done|]. split; [lia|]. split; [lia|]. left. lia.
Qed.

(** Allocators that always have zeroed memory. *)
Definition plain_env : iob_env := IobEnv (fun len _ _ => if 0 <=? len then Some (replicate (Z.to_nat len) 0) else None) true.

Lemma plain_env_ok : iob_env_ok plain_env.
Proof.
  intros len align offset mem E. cbn in E. case_if_in E; [|done]. injection E as <-. rewrite length_replicate. split; [lia|]. apply Forall_replicate. unfold byte_ok. lia.
Qed.

Lemma alloc_iob_raw_correct_witness :
  exists b, alloc_iob_raw Arch64 plain_env 1000 1000 2 = Some b
  /\ iob_holds b [] /\ io_data b = 0 /\ 1000 <= iob_tailroom b
  /\ let k := iob_align_log2 Arch64 1000 in 1000 <= 2 ^ k < 2 ^ size_bits Arch64
     /\ (iob_tailroom b = 1000 \/ (iob_tailroom b + 2) mod alignof_io_buffer Arch64 = 0 /\ iob_tailroom b + sizeof_io_buffer Arch64 <= 2 ^ k).
Proof.
  destruct (alloc_iob_raw Arch64 plain_env 1000 1000 2) as [b|] eqn:E; [|vm_compute in E; discriminate].
  exists b. split; [reflexivity|]. apply (alloc_iob_raw_correct Arch64 plain_env 1000 1000 2 b); [apply plain_env_ok|vm_compute; split; congruence..|exact E].
Defined.

Lemma alloc_iob_spec a e len : iob_env_ok e -> 0 <= len < 2 ^ size_bits a ->
  match alloc_iob a e len with
  | Some b => exists mem, b = IoBuf mem 0 0 /\ len <= zlen mem
  | None => True
  end.
Proof.
  intros He Hl. destruct (alloc_iob a e len) as [b|] eqn:E; [|done]. unfold alloc_iob in E.
  assert (H128 : IOB_ZLEN < 2 ^ size_bits a) by (destruct a; vm_compute; done).
  set (n := if len <? IOB_ZLEN then IOB_ZLEN else len) in *. assert (Hn : len <= n /\ 0 <= n < 2 ^ size_bits a) by (unfold n, IOB_ZLEN in *; case_if; lia).
  apply alloc_iob_raw_correct in E as (Hh & E1 & E2 & _); [|done|lia..]. destruct b as [mem d t]. exists mem. cbn in E1. subst d.
  apply iob_holds_len in Hh. unfold iob_len in Hh. cbn in Hh. assert (t = 0) as -> by lia. unfold iob_tailroom in E2. cbn in E2. split; [done|lia].
Qed.

Lemma plain_env_plenty a n : 0 <= n < 2 ^ 31 -> exists b, alloc_iob a plain_env n = Some b.
Proof.
  intros Hn. unfold alloc_iob, IOB_ZLEN. set (m := if n <? 128 then 128 else n). assert (Hm : 128 <= m < 2 ^ 31) by (unfold m; case_if; lia).
  unfold alloc_iob_raw. assert (Hk : iob_align_log2 a m < size_bits a).
  { pose proof (size_bits_large a). unfold iob_align_log2. rewrite (proj2 (Z.ltb_ge _ _)) by (destruct a; vm_compute iob_padding; lia).
    unfold fls. rewrite (proj2 (Z.eqb_neq _ _)) by lia. enough (Z.log2 (m - 1) < 31) by lia. apply Z.log2_lt_pow2; lia. }
  rewrite (proj2 (Z.leb_gt _ _)) by done. assert (0 < sizeof_io_buffer a) by (destruct a; vm_compute; done).
  case_if; cbn; [|rewrite (proj2 (Z.leb_le 0 _)) by lia; by eexists].
  assert (2 ^ 31 < 2 ^ size_bits a) by (apply Z.pow_lt_mono_r; pose proof (size_bits_large a); lia).
  destruct (iob_inline_len_spec a m 0 ltac:(lia) ltac:(lia) ltac:(lia)) as [I _]. rewrite (proj2 (Z.leb_le 0 _)) by lia. by eexists.
Qed.

(** ** Joining and splitting *)

Lemma iob_append_all_holds b d l ds : iob_holds b d -> Forall2 iob_holds l ds -> zlen (concat ds) <= iob_tailroom b ->
  exists b', iob_append_all b l = Some b' /\ iob_holds b' (d ++ concat ds).
Proof.
  intros Hb HF. revert b d Hb. induction HF as [|x dx l ds Hx HF IH]; intros b d Hb Ht; cbn [iob_append_all concat].
  - exists b. by rewrite app_nil_r.
  - cbn [concat] in Ht. rewrite zlen_app in Ht. rewrite (iob_bytes_holds _ _ Hx).
    destruct (iob_append_holds b d dx Hb ltac:(lia)) as (b1 & -> & H1 & D1 & M1).
    destruct (IH b1 (d ++ dx) H1) as (b2 & E2 & H2).
    { unfold iob_tailroom in *. apply iob_holds_len in H1, Hb. unfold iob_len in *. rewrite zlen_app in H1. lia. }
    exists b2. by rewrite app_assoc.
Qed.

(** Buffers that are concatenated give one buffer with the data of all of them,
    and a buffer is split into its first bytes and the rest; when there is no
    memory nothing is changed. *)
Theorem iob_concatenate_split a e l ds b d n :
  iob_env_ok e -> Forall2 iob_holds l ds -> zlen (concat ds) < 2 ^ size_bits a -> iob_holds b d -> 0 <= n <= zlen d -> n < 2 ^ size_bits a ->
  match iob_concatenate a e l with Some (Some b') => iob_holds b' (concat ds) | Some None => True | None => False end
  /\ match iob_split a e b n with
     | Some (Some s, r) => iob_holds s (take (Z.to_nat n) d) /\ iob_holds r (drop (Z.to_nat n) d)
     | Some (None, r) => r = b
     | None => False
     end.
Proof.
  intros He HF Hl Hb Hn Hw. split.
  - assert (Hsum : foldr (fun b n => iob_len b + n) 0 l = zlen (concat ds)).
    { clear Hl. induction HF as [|x dx l ds Hx HF IH]; [done|]. cbn [foldr concat]. by rewrite zlen_app, IH, (iob_holds_len _ _ Hx). }
    assert (Hgen : match alloc_iob_raw a e (zlen (concat ds)) (alignof_io_buffer a) 0 with
                   | None => True | Some b0 => exists b', iob_append_all b0 l = Some b' /\ iob_holds b' (concat ds) end).
    { destruct (alloc_iob_raw _ _ _ _ _) as [b0|] eqn:E; [|done]. apply alloc_iob_raw_correct in E as (H0 & _ & Ht & _); [|done|lia|destruct a; vm_compute; split; congruence|
        pose proof (pow2_pos (size_bits a) ltac:(pose proof (size_bits_large a); lia)); lia].
      destruct (iob_append_all_holds b0 [] l ds H0 HF Ht) as (b' & E' & H'). by exists b'. }
    unfold iob_concatenate. rewrite Hsum, uwrap_small by lia. destruct l as [|x [|y l]].
    + destruct (alloc_iob_raw _ _ _ _ _) as [b0|]; [|done]. by destruct Hgen as (b' & -> & H').
    + apply Forall2_cons_inv_l in HF as (dx & ds' & Hx & HF & ->). apply Forall2_nil_inv_l in HF as ->. cbn. by rewrite app_nil_r.
    + destruct (alloc_iob_raw _ _ _ _ _) as [b0|]; [|done]. by destruct Hgen as (b' & -> & H').
  - unfold iob_split. pose proof (alloc_iob_spec a e n He ltac:(lia)) as Ha. destruct (alloc_iob a e n) as [s|]; [|done]. destruct Ha as (mem & -> & Hm).
    rewrite (iob_read_holds b d 0 n Hb) by lia. change (drop (Z.to_nat 0) d) with d.
    assert (Ht : length (take (Z.to_nat n) d) = Z.to_nat n) by (rewrite length_take; lia).
    destruct (iob_append_holds (IoBuf mem 0 0) [] (take (Z.to_nat n) d)) as (s & -> & Hs & _); [by exists [] mem|unfold iob_tailroom; cbn; lia|].
    destruct (iob_pull_holds b (take (Z.to_nat n) d) (drop (Z.to_nat n) d) ltac:(by rewrite take_drop)) as (r & Er & Hr & _).
    rewrite Ht, Z2Nat.id in Er by lia. by rewrite Er.
Qed.

Lemma iob_concatenate_split_witness :
  let b x := IoBuf ([0; 0] ++ [x; x + 1; x + 2] ++ []) 2 5 in
  match iob_concatenate Arch32 plain_env [b 1; b 4] with Some (Some b') => iob_holds b' (concat [[1; 2; 3]; [4; 5; 6]]) | Some None => True | None => False end
  /\ match iob_split Arch32 plain_env (b 1) 2 with
     | Some (Some s, r) => iob_holds s (take (Z.to_nat 2) [1; 2; 3]) /\ iob_holds r (drop (Z.to_nat 2) [1; 2; 3])
     | Some (None, r) => r = b 1
     | None => False
     end.
Proof.
  intros b. apply (iob_concatenate_split Arch32 plain_env [b 1; b 4] [[1; 2; 3]; [4; 5; 6]] (b 1) [1; 2; 3] 2).
  - apply plain_env_ok.
  - repeat constructor; [apply (iob_holds_intro [0; 0] [1; 2; 3] [])|apply (iob_holds_intro [0; 0] [4; 5; 6] [])].
  - vm_compute. reflexivity.
  - apply (iob_holds_intro [0; 0] [1; 2; 3] []).
  - vm_compute. split; discriminate.
  - vm_compute. reflexivity.
Defined.
