(* ===== verification/Fragment.v ===== *)
(** * Fragment reassembly ([net/fragment.c]; callbacks of [net/ipv4.c] and [net/ipv6.c])

    The list of reassembly buffers of a reassembler, the arrival of a fragment
    and the expiry of a buffer.  [FragmentFormat] is what the callbacks of a
    network layer promise to the reassembler; IPv4 and IPv6 are instances.  The
    theorems are about sequences of arrivals and expiries: nothing but
    consecutive fragments of one datagram is put together, and the fragments of
    a datagram that arrive in order, among whatever other packets, are. *)
From stdpp Require Import gmap.
From S2P Require Import Prelude Strings Memory Iobuf.

(** The counters of [struct ip_statistics]. *)
Inductive ip_counter :=
| in_receives | in_octets | in_hdr_errors | in_addr_errors | in_unknown_protos | in_truncated_pkts
| reasm_reqds | reasm_oks | reasm_fails | in_delivers | out_requests | out_no_routes | out_transmits | out_octets
| in_mcast_pkts | out_mcast_pkts | in_bcast_pkts | out_bcast_pkts.

#[export] Instance ip_counter_eq_dec : EqDecision ip_counter.
Proof. solve_decision. Defined.

Definition ip_statistics := ip_counter -> Z.

(** [stats->c += n] for an [unsigned long]. *)
Definition count (a : arch) (c : ip_counter) (n : Z) (stats : ip_statistics) : ip_statistics :=
  fun c' => if decide (c' = c) then uwrap (size_bits a) (stats c' + n) else stats c'.

(** The timer of a buffer is running or not. *)
Record fragment := Fragment { fr_iobuf : io_buffer; fr_hdrlen : Z; fr_timer : bool }.

Record fragment_reassembler := FragmentReassembler {
  is_fragment : fragment -> io_buffer -> Z -> option bool;
  fragment_offset : io_buffer -> Z -> option Z;
  more_fragments : io_buffer -> Z -> option bool }.

(** Allocation of the descriptor of a buffer, and of its data. *)
Record frag_env := FragEnv { fe_zalloc : bool; fe_iob : iob_env }.

Section Reassemble.
Context (a : arch) (r : fragment_reassembler).

(** The timer of the buffer at position [i] has expired. *)
Definition fragment_expired (frags : list fragment) (stats : ip_statistics) (i : nat) : list fragment * ip_statistics :=
  (delete i frags, count a reasm_fails 1 stats).

Fixpoint fragment_find (frags : list fragment) (iobuf : io_buffer) (hdrlen : Z) : option (option (nat * fragment)) :=
  match frags with
  | [] => Some None
  | f :: frags' =>
      opt! b := is_fragment r f iobuf hdrlen in
      if (b : bool) then Some (Some (O, f)) else
      opt! found := fragment_find frags' iobuf hdrlen in
      Some (match found with Some (i, f) => Some (S i, f) | None => None end)
  end.

(** The buffer of [f] with the data of [iobuf] appended, in new memory. *)
Definition fragment_extend (f : fragment) (iobuf : io_buffer) (new_iobuf : io_buffer) : option io_buffer :=
  opt! new_iobuf := iob_reserve new_iobuf (iob_headroom (fr_iobuf f)) in
  opt! old := iob_bytes (fr_iobuf f) in
  opt! new_iobuf := iob_append new_iobuf old in
  opt! data := iob_bytes iobuf in
  iob_append new_iobuf data.

(** The new list, the new statistics, and the reassembled packet with the
    length of its header, if any. *)
Definition fragment_reassemble (e : frag_env) (frags : list fragment) (stats : ip_statistics) (iobuf : io_buffer) (hdrlen : Z)
  : option (list fragment * ip_statistics * option (io_buffer * Z)) :=
  let stats := count a reasm_reqds 1 stats in
  let drop := Some (frags, count a reasm_fails 1 stats, None) in
  opt! found := fragment_find frags iobuf hdrlen in
  opt! offset := fragment_offset r iobuf hdrlen in
  let expected_offset := match found with Some (_, f) => uwrap (size_bits a) (iob_len (fr_iobuf f) - fr_hdrlen f) | None => 0 end in
  if negb (offset =? expected_offset) then drop else
  match found with
  | None => if fe_zalloc e then Some (Fragment iobuf hdrlen true :: frags, stats, None) else drop
  | Some (i, f) =>
      opt! more_frags := more_fragments r iobuf hdrlen in
      opt! iobuf := iob_pull iobuf hdrlen in
      let new_len := iob_headroom (fr_iobuf f) + iob_len (fr_iobuf f) + iob_len iobuf in
      match alloc_iob a (fe_iob e) new_len with
      | None => drop
      | Some new_iobuf =>
          opt! new_iobuf := fragment_extend f iobuf new_iobuf in
          if (more_frags : bool) then Some (<[i := Fragment new_iobuf (fr_hdrlen f) true]> frags, stats, None)
          else Some (delete i frags, count a reasm_oks 1 stats, Some (new_iobuf, fr_hdrlen f))
      end
  end.

End Reassemble.

(** ** IPv4 and IPv6 *)

Definition IP_MASK_OFFSET : Z := 0x1fff.
Definition IP_MASK_MOREFRAGS : Z := 0x2000.
Definition IPV6_MASK_OFFSET : Z := 0xfff8.
Definition IPV6_MASK_MOREFRAGS : Z := 0x0001.

(** Offsets of [ident], [frags] and [src] in the IPv4 header are 4, 6 and 12. *)
Definition ipv4_is_fragment (f : fragment) (iobuf : io_buffer) (_ : Z) : option bool :=
  opt! src := iob_read iobuf 12 4 in
  opt! fsrc := iob_read (fr_iobuf f) 12 4 in
  if negb (bool_decide (src = fsrc)) then Some false else
  opt! ident := iob_read iobuf 4 2 in
  opt! fident := iob_read (fr_iobuf f) 4 2 in Some (bool_decide (ident = fident)).

Definition ipv4_fragment_offset (iobuf : io_buffer) (_ : Z) : option Z :=
  opt! frags := iob_read iobuf 6 2 in Some (Z.shiftl (Z.land (be_val frags) IP_MASK_OFFSET) 3).

Definition ipv4_more_fragments (iobuf : io_buffer) (_ : Z) : option bool :=
  opt! frags := iob_read iobuf 6 2 in Some (negb (Z.land (be_val frags) IP_MASK_MOREFRAGS =? 0)).

Definition ipv4_reassembler : fragment_reassembler := FragmentReassembler ipv4_is_fragment ipv4_fragment_offset ipv4_more_fragments.

(** [src] of the IPv6 header lies at 8; the fragment header is the end of the
    part that is not fragmented, with [offset_more] at 2 and [ident] at 4. *)
Definition ipv6_is_fragment (f : fragment) (iobuf : io_buffer) (hdrlen : Z) : option bool :=
  opt! src := iob_read iobuf 8 16 in
  opt! fsrc := iob_read (fr_iobuf f) 8 16 in
  if negb (bool_decide (src = fsrc)) then Some false else
  opt! ident := iob_read iobuf (hdrlen - 8 + 4) 4 in
  opt! fident := iob_read (fr_iobuf f) (fr_hdrlen f - 8 + 4) 4 in Some (bool_decide (ident = fident)).

Definition ipv6_fragment_offset (iobuf : io_buffer) (hdrlen : Z) : option Z :=
  opt! offset_more := iob_read iobuf (hdrlen - 8 + 2) 2 in Some (Z.land (be_val offset_more) IPV6_MASK_OFFSET).

Definition ipv6_more_fragments (iobuf : io_buffer) (hdrlen : Z) : option bool :=
  opt! offset_more := iob_read iobuf (hdrlen - 8 + 2) 2 in Some (negb (Z.land (be_val offset_more) IPV6_MASK_MOREFRAGS =? 0)).

Definition ipv6_reassembler : fragment_reassembler := FragmentReassembler ipv6_is_fragment ipv6_fragment_offset ipv6_more_fragments.

(** ** What the callbacks promise *)

(** A packet is its bytes and the length of the part that is not fragmented.
    The datagram it belongs to, its offset and whether more follow are read
    from that part. *)
Class FragmentFormat (r : fragment_reassembler) := {
  ff_ok : list Z -> Z -> Prop;
  ff_key : list Z -> Z -> list Z;
  ff_offset : list Z -> Z -> Z;
  ff_more : list Z -> Z -> bool;
  ff_hdrlen d h : ff_ok d h -> 0 <= h <= zlen d;
  ff_offset_range d h : 0 <= ff_offset d h < 2 ^ 16;
  ff_extend d h x : ff_ok d h -> ff_ok (d ++ x) h /\ ff_key (d ++ x) h = ff_key d h;
  ff_is_fragment f d0 b d h : iob_holds (fr_iobuf f) d0 -> ff_ok d0 (fr_hdrlen f) -> iob_holds b d -> ff_ok d h ->
    is_fragment r f b h = Some (bool_decide (ff_key d0 (fr_hdrlen f) = ff_key d h));
  ff_offset_ok b d h : iob_holds b d -> ff_ok d h -> fragment_offset r b h = Some (ff_offset d h);
  ff_more_ok b d h : iob_holds b d -> ff_ok d h -> more_fragments r b h = Some (ff_more d h) }.

Arguments ff_ok r {_} _ _.
Arguments ff_key r {_} _ _.
Arguments ff_offset r {_} _ _.
Arguments ff_more r {_} _ _.

(** A range of a list. *)
Definition slice (d : list Z) (off len : Z) : list Z := take (Z.to_nat len) (drop (Z.to_nat off) d).

Lemma slice_app d x off len : 0 <= off -> off + len <= zlen d -> slice (d ++ x) off len = slice d off len.
Proof.
  intros Ho Hl. unfold slice. destruct (Z.leb_spec len 0) as [Hn|Hn]; [by rewrite Z2Nat.nonpos by lia|].
  rewrite drop_app_le by lia. by rewrite take_app_le by (rewrite length_drop; lia).
Qed.

Lemma slice_length d off len : 0 <= off -> 0 <= len -> off + len <= zlen d -> length (slice d off len) = Z.to_nat len.
Proof. intros. unfold slice. rewrite length_take, length_drop. lia. Qed.

Lemma iob_read_slice b d off len : iob_holds b d -> 0 <= off -> 0 <= len -> off + len <= zlen d -> iob_read b off len = Some (slice d off len).
Proof. apply iob_read_holds. Qed.

(** Comparing two fields one after the other is comparing them together. *)
Lemma two_fields (x x' y y' : list Z) : length x = length x' ->
  (if negb (bool_decide (x = x')) then Some false else Some (bool_decide (y = y'))) = Some (bool_decide (x' ++ y' = x ++ y)).
Proof.
  intros Hl. case_bool_decide as H1; cbn [negb].
  - subst. f_equal. apply bool_decide_ext. split; [by intros ->|]. intros H. by apply app_inv_head in H.
  - rewrite bool_decide_eq_false_2; [done|]. intros H. apply app_inj_1 in H as [-> _]; done.
Qed.

#[export] Program Instance ipv4_format : FragmentFormat ipv4_reassembler := {
  ff_ok d h := 20 <= h <= zlen d;
  ff_key d h := slice d 12 4 ++ slice d 4 2;
  ff_offset d h := Z.shiftl (Z.land (be_val (slice d 6 2)) IP_MASK_OFFSET) 3;
  ff_more d h := negb (Z.land (be_val (slice d 6 2)) IP_MASK_MOREFRAGS =? 0) }.
Next Obligation. cbn. lia. Qed.
Next Obligation.
  intros d h. cbn. unfold IP_MASK_OFFSET. change 0x1fff with (2 ^ 13 - 1). rewrite land_ones_mod, Z.shiftl_mul_pow2 by lia.
  pose proof (Z.mod_pos_bound (be_val (slice d 6 2)) (2 ^ 13) ltac:(lia)). lia.
Qed.
Next Obligation. intros d h x H. cbn in *. rewrite zlen_app. split; [lia|]. by rewrite !slice_app by lia. Qed.
Next Obligation.
  intros f d0 b d h H1 H2 H3 H4. cbn in *. unfold ipv4_is_fragment. rewrite !(iob_read_slice _ _ _ _ H1), !(iob_read_slice _ _ _ _ H3) by lia.
  apply two_fields. by rewrite !slice_length by lia.
Qed.
Next Obligation. intros b d h H1 H2. cbn in *. unfold ipv4_fragment_offset. by rewrite (iob_read_slice _ _ _ _ H1) by lia. Qed.
Next Obligation. intros b d h H1 H2. cbn in *. unfold ipv4_more_fragments. by rewrite (iob_read_slice _ _ _ _ H1) by lia. Qed.

#[export] Program Instance ipv6_format : FragmentFormat ipv6_reassembler := {
  ff_ok d h := 48 <= h <= zlen d;
  ff_key d h := slice d 8 16 ++ slice d (h - 8 + 4) 4;
  ff_offset d h := Z.land (be_val (slice d (h - 8 + 2) 2)) IPV6_MASK_OFFSET;
  ff_more d h := negb (Z.land (be_val (slice d (h - 8 + 2) 2)) IPV6_MASK_MOREFRAGS =? 0) }.
Next Obligation. cbn. lia. Qed.
Next Obligation.
  intros d h. cbn. set (v := be_val _). change IPV6_MASK_OFFSET with (Z.land 0xfff8 (2 ^ 16 - 1)).
  rewrite Z.land_assoc, land_ones_mod by lia. apply Z.mod_pos_bound. lia.
Qed.
Next Obligation. intros d h x H. cbn in *. rewrite zlen_app. split; [lia|]. by rewrite !slice_app by lia. Qed.
Next Obligation.
  intros f d0 b d h H1 H2 H3 H4. cbn in *. unfold ipv6_is_fragment. rewrite !(iob_read_slice _ _ _ _ H1), !(iob_read_slice _ _ _ _ H3) by lia.
  apply two_fields. by rewrite !slice_length by lia.
Qed.
Next Obligation. intros b d h H1 H2. cbn in *. unfold ipv6_fragment_offset. by rewrite (iob_read_slice _ _ _ _ H1) by lia. Qed.
Next Obligation. intros b d h H1 H2. cbn in *. unfold ipv6_more_fragments. by rewrite (iob_read_slice _ _ _ _ H1) by lia. Qed.

Lemma delete_beyond {A} (l : list A) i : (length l <= i)%nat -> delete i l = l.
Proof. revert i. induction l as [|x l IH]; intros [|i] H; cbn in *; [done|done|lia|]. f_equal. apply IH. lia. Qed.

(** ** The contract *)

Abbreviation packet := (list Z * Z)%type.

Section Contract.
Context (a : arch) (r : fragment_reassembler) `{!FragmentFormat r}.

Abbreviation key p := (ff_key r p.1 p.2).
Abbreviation offset p := (ff_offset r p.1 p.2).
Abbreviation more p := (ff_more r p.1 p.2).

Definition payload (p : packet) : list Z := drop (Z.to_nat p.2) p.1.

(** In-order reassembly over a map from datagrams to the data collected so far
    (with its header): what arrives next at its offset is kept, as long as there
    is memory ([ok]); everything else is dropped. *)
Definition assemble (ok : bool) (m : gmap (list Z) packet) (p : packet) : gmap (list Z) packet * option packet :=
  match m !! key p with
  | None => (if ok && (offset p =? 0) then <[key p := p]> m else m, None)
  | Some (d, h) =>
      if ok && (offset p =? zlen d - h) then
        if more p then (<[key p := (d ++ payload p, h)]> m, None) else (delete (key p) m, Some (d ++ payload p, h))
      else (m, None)
  end.

(** Buffers that packets arrive in are smaller than half a gigabyte. *)
Definition IOB_LIMIT : Z := 2 ^ 29.

Record packet_ok (b : io_buffer) (p : packet) : Prop := {
  po_holds : iob_holds b p.1;
  po_ok : ff_ok r p.1 p.2;
  po_limit : io_data b + zlen p.1 <= IOB_LIMIT }.

Record linked (f : fragment) (e : list Z * packet) : Prop := {
  li_holds : iob_holds (fr_iobuf f) e.2.1;
  li_hdrlen : fr_hdrlen f = e.2.2;
  li_ok : ff_ok r e.2.1 e.2.2;
  li_key : e.1 = key e.2;
  li_head : io_data (fr_iobuf f) + e.2.2 <= IOB_LIMIT;
  li_len : zlen e.2.1 - e.2.2 <= IOB_LIMIT + 2 ^ 16;
  li_timer : fr_timer f = true }.

(** The list represents the map. *)
Definition represents (frags : list fragment) (m : gmap (list Z) packet) : Prop :=
  exists L, Forall2 linked frags L /\ NoDup L.*1 /\ m = list_to_map L.

(** Memory is not short. *)
Definition plentiful (e : frag_env) : Prop :=
  fe_zalloc e = true /\ forall n, 0 <= n < 2 ^ 31 -> exists b, alloc_iob a (fe_iob e) n = Some b.

Lemma represents_nil : represents [] ∅.
Proof. exists []. split; [done|]. split; [constructor|done]. Qed.

Lemma represents_cons f frags m k p : represents frags m -> linked f (k, p) -> m !! k = None -> represents (f :: frags) (<[k := p]> m).
Proof.
  intros (L & H1 & H2 & ->) Hf Hk. exists ((k, p) :: L). split; [by constructor|]. split; [|done]. cbn. constructor; [|done].
  by apply not_elem_of_list_to_map.
Qed.

Lemma list_to_map_update (L : list (list Z * packet)) i k p p' : NoDup L.*1 -> L !! i = Some (k, p) ->
  list_to_map (<[i := (k, p')]> L) = <[k := p']> (list_to_map L :> gmap (list Z) packet)
  /\ list_to_map (delete i L) = delete k (list_to_map L :> gmap (list Z) packet).
Proof.
  revert i. induction L as [|[k0 p0] L IH]; intros i HN Hi; [done|]. cbn in HN. apply NoDup_cons in HN as [Hk HN]. destruct i as [|i].
  - injection Hi as -> ->. cbn. rewrite insert_insert_eq, delete_insert_id; [done|by apply not_elem_of_list_to_map].
  - change (<[S i := (k, p')]> ((k0, p0) :: L)) with ((k0, p0) :: <[i := (k, p')]> L). change (delete (S i) ((k0, p0) :: L)) with ((k0, p0) :: delete i L).
    rewrite !list_to_map_cons. destruct (IH i HN Hi) as [-> ->].
    assert (k <> k0) by (intros ->; apply Hk, list_elem_of_fmap; exists (k0, p); split; [done|by eapply list_elem_of_lookup_2]).
    split; [by apply insert_insert_ne|by rewrite delete_insert_ne].
Qed.

Lemma linked_delete frags L i k p : Forall2 linked frags L -> NoDup L.*1 -> L !! i = Some (k, p) ->
  represents (delete i frags) (delete k (list_to_map L)).
Proof.
  intros H1 H2 Hl. exists (delete i L). split; [by apply Forall2_delete|]. destruct (list_to_map_update L i k p p H2 Hl) as [_ ->].
  split; [|done]. eapply sublist_NoDup; [exact H2|]. rewrite list_fmap_delete. apply sublist_delete.
Qed.

Lemma linked_insert frags L i f k p p' : Forall2 linked frags L -> NoDup L.*1 -> L !! i = Some (k, p) -> linked f (k, p') ->
  represents (<[i := f]> frags) (<[k := p']> (list_to_map L)).
Proof.
  intros H1 H2 Hl Hf. exists (<[i := (k, p')]> L). split; [by apply Forall2_insert|]. destruct (list_to_map_update L i k p p' H2 Hl) as [-> _].
  split; [|done]. rewrite list_fmap_insert. cbn. rewrite list_insert_id; [done|]. by rewrite list_lookup_fmap, Hl.
Qed.

Lemma fragment_find_spec frags L b p : Forall2 linked frags L -> packet_ok b p ->
  match (list_to_map L : gmap (list Z) packet) !! key p with
  | None => fragment_find r frags b p.2 = Some None
  | Some q => exists i f, fragment_find r frags b p.2 = Some (Some (i, f)) /\ frags !! i = Some f /\ L !! i = Some (key p, q)
  end.
Proof.
  intros HF Hp. induction HF as [|f [k q] frags L Hf HF IH]; [done|]. rewrite list_to_map_cons. cbn [fragment_find fst snd].
  rewrite (ff_is_fragment f q.1 b p.1 p.2 (li_holds _ _ Hf)); [|rewrite (li_hdrlen _ _ Hf); apply Hf|apply Hp|apply Hp].
  rewrite (li_hdrlen _ _ Hf). pose proof (li_key _ _ Hf) as Ek. cbn [fst snd] in Ek |- *. rewrite <- Ek. case_bool_decide as Hk.
  - rewrite Hk, lookup_insert_eq. by exists O, f.
  - rewrite lookup_insert_ne by done. destruct (_ !! key p) as [q'|].
    + destruct IH as (i & f' & -> & H1 & H2). by exists (S i), f'.
    + by rewrite IH.
Qed.
(** The new buffer holds the old data and the new. *)
Lemma fragment_extend_holds f d b x e new :
  iob_env_ok e -> iob_holds (fr_iobuf f) d -> iob_holds b x -> io_data (fr_iobuf f) + zlen d + zlen x < 2 ^ 32 ->
  alloc_iob a e (iob_headroom (fr_iobuf f) + iob_len (fr_iobuf f) + iob_len b) = Some new ->
  exists new', fragment_extend f b new = Some new' /\ iob_holds new' (d ++ x) /\ io_data new' = io_data (fr_iobuf f).
Proof.
  intros He Hd Hx Hl Ha. rewrite (iob_holds_len _ _ Hd), (iob_holds_len _ _ Hx) in Ha. unfold iob_headroom in Ha.
  assert (H0 : 0 <= io_data (fr_iobuf f)) by (destruct Hd; lia).
  assert (2 ^ 32 <= 2 ^ size_bits a) by (apply Z.pow_le_mono_r; [lia|apply size_bits_large]).
  pose proof (alloc_iob_spec a e (io_data (fr_iobuf f) + zlen d + zlen x) He ltac:(lia)) as Hn. rewrite Ha in Hn. destruct Hn as (mem & -> & Hm).
  unfold fragment_extend, iob_headroom. destruct (iob_reserve_holds mem (io_data (fr_iobuf f)) ltac:(lia)) as (b1 & -> & B1 & E1 & M1).
  rewrite (iob_bytes_holds _ _ Hd).
  assert (T1 : iob_tailroom b1 = zlen mem - io_data (fr_iobuf f)).
  { unfold iob_tailroom. apply iob_holds_len in B1. unfold iob_len in B1. cbn in B1. rewrite M1. lia. }
  destruct (iob_append_holds b1 [] d B1 ltac:(lia)) as (b2 & -> & B2 & E2 & M2). rewrite (iob_bytes_holds _ _ Hx). cbn [app] in B2.
  assert (T2 : iob_tailroom b2 = zlen mem - io_data (fr_iobuf f) - zlen d).
  { unfold iob_tailroom. apply iob_holds_len in B2. unfold iob_len in B2. rewrite M2, M1. lia. }
  destruct (iob_append_holds b2 d x B2 ltac:(lia)) as (b3 & -> & B3 & E3 & _). exists b3. split; [done|]. split; [done|]. lia.
Qed.

(** What comes out for what the contract says. *)
Definition delivered (out : option (io_buffer * Z)) (spec : option packet) : Prop :=
  match out, spec with
  | None, None => True
  | Some (b, h), Some (d, h') => h = h' /\ iob_holds b d /\ ff_ok r d h /\ io_data b + zlen d < 2 ^ 31
  | _, _ => False
  end.

Lemma reassemble_refines e frags stats m b p :
  represents frags m -> packet_ok b p -> iob_env_ok (fe_iob e) ->
  exists ok frags' stats' out, fragment_reassemble a r e frags stats b p.2 = Some (frags', stats', out)
    /\ (plentiful e -> ok = true) /\ represents frags' (assemble ok m p).1 /\ delivered out (assemble ok m p).2.
Proof.
  intros (L & HL & HN & ->) Hp He. pose proof (fragment_find_spec frags L b p HL Hp) as Hfind. unfold fragment_reassemble, assemble.
  pose proof (ff_hdrlen _ _ (po_ok _ _ Hp)) as Hh. pose proof (po_limit _ _ Hp) as Hlim. unfold IOB_LIMIT in Hlim.
  assert (Hb0 : 0 <= io_data b) by (destruct (po_holds _ _ Hp); lia).
  assert (Hw : 2 ^ 32 <= 2 ^ size_bits a) by (apply Z.pow_le_mono_r; [lia|apply size_bits_large]).
  rewrite (ff_offset_ok b p.1 p.2 (po_holds _ _ Hp) (po_ok _ _ Hp)).
  destruct (_ !! key p) as [[d h]|] eqn:Ek.
  - destruct Hfind as (i & f & -> & Hi & Hl). destruct (Forall2_lookup_lr _ _ _ _ _ _ HL Hi Hl) as [F1 F2 F3 F4 F5 F6 F7]. cbn in *.
    pose proof (ff_hdrlen _ _ F3) as Fh. unfold IOB_LIMIT in F5, F6.
    rewrite (iob_holds_len _ _ F1), F2, uwrap_small by lia. destruct (Z.eqb_spec (offset p) (zlen d - h)) as [Eo|Eo]; cbn [negb].
    2:{ exists true. do 3 eexists. split; [done|]. split; [done|]. cbn. split; [by exists L|done]. }
    rewrite (ff_more_ok b p.1 p.2 (po_holds _ _ Hp) (po_ok _ _ Hp)).
    assert (Hsplit : iob_holds b (take (Z.to_nat p.2) p.1 ++ payload p)) by (unfold payload; rewrite take_drop; apply Hp).
    destruct (iob_pull_holds b _ _ Hsplit) as (b' & Eb & B1 & _). rewrite length_take, Nat.min_l, Z2Nat.id in Eb by lia. rewrite Eb.
    destruct (alloc_iob a (fe_iob e) _) as [new|] eqn:Ea.
    2:{ exists false. do 3 eexists. split; [done|]. split; [|cbn; split; [by exists L|done]].
        intros [_ Hpl]. exfalso. rewrite <- (iob_holds_len _ _ F1) in *. destruct (Hpl (iob_headroom (fr_iobuf f) + iob_len (fr_iobuf f) + iob_len b')) as [x Hx].
        - rewrite (iob_holds_len _ _ B1), (iob_holds_len _ _ F1) in *. unfold payload, iob_headroom. rewrite length_drop.
          assert (0 <= io_data (fr_iobuf f)) by (destruct F1; lia). pose proof (ff_offset_range p.1 p.2). lia.
        - rewrite Ea in Hx. done. }
    pose proof (ff_offset_range p.1 p.2) as Hor. assert (Hpl : zlen (payload p) <= zlen p.1) by (unfold payload; rewrite length_drop; lia).
    destruct (fragment_extend_holds f d b' (payload p) (fe_iob e) new He F1 B1 ltac:(lia) ltac:(by rewrite (iob_holds_len _ _ F1))) as (new' & -> & N1 & N2).
    destruct (ff_extend d h (payload p) F3) as [X1 X2]. exists true. rewrite andb_true_l. destruct (more p).
    + do 3 eexists. split; [done|]. split; [done|]. split; [|done]. eapply linked_insert; [done|done|exact Hl|]. constructor; cbn; try done.
      * by rewrite X2.
      * rewrite N2. unfold IOB_LIMIT. lia.
      * rewrite zlen_app. unfold IOB_LIMIT. lia.
    + do 3 eexists. split; [done|]. split; [done|]. split; [by eapply linked_delete|]. cbn. split; [done|]. split; [done|]. split; [done|].
      rewrite zlen_app, N2. lia.
  - rewrite Hfind. destruct (Z.eqb_spec (offset p) 0) as [Eo|Eo]; cbn [negb].
    2:{ exists true. do 3 eexists. split; [done|]. split; [done|]. cbn. split; [by exists L|done]. }
    destruct (fe_zalloc e) eqn:Ez.
    2:{ exists false. do 3 eexists. split; [done|]. split; [by intros [H _]; rewrite Ez in H|]. cbn. split; [by exists L|done]. }
    exists true. do 3 eexists. split; [done|]. split; [done|]. split; [|done]. cbn. apply represents_cons; [by exists L| |done].
    constructor; cbn; try done; try apply Hp; unfold IOB_LIMIT; lia.
Qed.
(** ** Sequences of arrivals and expiries *)

Inductive frag_event := Arrive (e : frag_env) (b : io_buffer) (hdrlen : Z) | Expire (i : nat).

(** What is returned for each event. *)
Fixpoint frag_run (frags : list fragment) (stats : ip_statistics) (evs : list frag_event)
  : option (list fragment * ip_statistics * list (option (io_buffer * Z))) :=
  match evs with
  | [] => Some (frags, stats, [])
  | ev :: evs' =>
      opt! (frags, stats, out) :=
        match ev with
        | Arrive e b hdrlen => fragment_reassemble a r e frags stats b hdrlen
        | Expire i => Some (fragment_expired a frags stats i, None)
        end in
      opt! (frags, stats, outs) := frag_run frags stats evs' in Some (frags, stats, out :: outs)
  end.

Definition event_ok (ev : frag_event) : Prop :=
  match ev with Arrive e b h => iob_env_ok (fe_iob e) /\ exists d, packet_ok b (d, h) | Expire _ => True end.

(** The packets that arrive. *)
Definition packets (evs : list frag_event) : list packet :=
  omap (fun ev => match ev with Arrive _ b h => (fun d => (d, h)) <$> iob_bytes b | Expire _ => None end) evs.

(** Packets at consecutive offsets. *)
Fixpoint aligned (off : Z) (F : list packet) : Prop :=
  match F with [] => True | p :: F' => offset p = off /\ aligned (off + zlen (payload p)) F' end.

Definition joined (first : packet) (rest : list packet) : list Z := first.1 ++ concat (payload <$> rest).

(** The fragments of a datagram from its first to its last. *)
Record datagram (k : list Z) (first : packet) (mids : list packet) (fin : packet) : Prop := {
  dg_aligned : aligned 0 (first :: mids ++ [fin]);
  dg_key : Forall (fun p => key p = k) (first :: mids ++ [fin]);
  dg_more : Forall (fun p => more p = true) mids;
  dg_fin : more fin = false }.

Abbreviation total F := (zlen (concat (payload <$> F))).

Lemma aligned_app off F G : aligned off (F ++ G) <-> aligned off F /\ aligned (off + total F) G.
Proof.
  revert off. induction F as [|p F IH]; intros off; cbn; [by rewrite Z.add_0_r; tauto|]. rewrite IH, length_app, Nat2Z.inj_add, Z.add_assoc. tauto.
Qed.

Lemma joined_len first rest : ff_ok r first.1 first.2 -> zlen (joined first rest) - first.2 = total (first :: rest).
Proof. intros H. apply ff_hdrlen in H. unfold joined. cbn. rewrite !zlen_app. unfold payload at 2. rewrite length_drop. lia. Qed.

Lemma joined_snoc first rest p : joined first (rest ++ [p]) = joined first rest ++ payload p.
Proof. unfold joined. rewrite fmap_app, concat_app. cbn. by rewrite app_nil_r, app_assoc. Qed.

(** What is collected came from packets of the past. *)
Definition collected (hist : list packet) (m : gmap (list Z) packet) : Prop :=
  forall k p, m !! k = Some p -> exists first rest, (first :: rest) `sublist_of` hist /\ aligned 0 (first :: rest)
    /\ Forall (fun p => key p = k) (first :: rest) /\ Forall (fun p => more p = true) rest /\ ff_ok r first.1 first.2 /\ p = (joined first rest, first.2).

Lemma collected_mono hist m x : collected hist m -> collected (hist ++ x) m.
Proof.
  intros H k p Hk. destruct (H k p Hk) as (f & rest & H1 & H2). exists f, rest. split; [|done]. etrans; [exact H1|by apply sublist_inserts_r].
Qed.

Lemma collected_step ok hist m p : collected hist m -> ff_ok r p.1 p.2 ->
  collected (hist ++ [p]) (assemble ok m p).1
  /\ forall q, (assemble ok m p).2 = Some q -> exists first mids, datagram (key p) first mids p
       /\ (first :: mids ++ [p]) `sublist_of` hist ++ [p] /\ q = (joined first (mids ++ [p]), first.2).
Proof.
  intros Hc Hp. pose proof (collected_mono _ _ [p] Hc) as Hc'. unfold assemble. destruct (m !! key p) as [[d h]|] eqn:Ek.
  2:{ destruct (ok && (offset p =? 0)) eqn:Eo; [|done]. split; [|done]. bool_to_prop. cbn. intros k q Hq. destruct (decide (k = key p)) as [->|Hne].
      - rewrite lookup_insert_eq in Hq. injection Hq as <-. exists p, []. split; [by apply sublist_inserts_l|]. cbn. split; [done|].
        split; [by constructor|]. split; [constructor|]. split; [done|]. unfold joined. cbn. rewrite app_nil_r. by destruct p.
      - rewrite lookup_insert_ne in Hq by done. by apply Hc'. }
  destruct (ok && _) eqn:Eo; [|done]. bool_to_prop. destruct (Hc _ _ Ek) as (first & rest & H1 & H2 & H3 & H4 & H5 & [= -> ->]).
  assert (Hs : (first :: rest ++ [p]) `sublist_of` hist ++ [p]) by (apply (sublist_app (first :: rest) hist [p] [p]); done).
  assert (Ha : aligned 0 ((first :: rest) ++ [p])).
  { apply aligned_app. split; [done|]. cbn [aligned]. split; [|done]. rewrite <- joined_len by done. cbn. lia. }
  assert (Hk : Forall (fun q => key q = key p) ((first :: rest) ++ [p])) by (apply Forall_app; split; [done|by constructor]).
  rewrite <- joined_snoc. destruct (more p) eqn:Em; cbn.
  - split; [|done]. intros k q Hq. destruct (decide (k = key p)) as [->|Hne].
    + rewrite lookup_insert_eq in Hq. injection Hq as <-. exists first, (rest ++ [p]). split_and!; try done.
      apply Forall_app. split; [done|by constructor].
    + rewrite lookup_insert_ne in Hq by done. by apply Hc'.
  - split.
    + intros k q Hq. apply lookup_delete_Some in Hq as [_ Hq]. by apply Hc'.
    + intros q [= <-]. exists first, rest. split; [|done]. by constructor.
Qed.
Lemma represents_expire frags m i : represents frags m -> exists m', represents (delete i frags) m' /\ forall k p, m' !! k = Some p -> m !! k = Some p.
Proof.
  intros (L & H1 & H2 & ->). destruct (L !! i) as [[k p]|] eqn:Hl.
  - exists (delete k (list_to_map L)). split; [by eapply linked_delete|]. intros k' p' H. by apply lookup_delete_Some in H as [_ H].
  - exists (list_to_map L). split; [|done]. rewrite delete_beyond; [by exists L|]. apply Forall2_length in H1. rewrite H1. by apply lookup_ge_None.
Qed.

Lemma packets_arrive e b d h evs : iob_holds b d -> packets (Arrive e b h :: evs) = (d, h) :: packets evs.
Proof. intros H. unfold packets. cbn. by rewrite (iob_bytes_holds _ _ H). Qed.

Lemma frag_run_total frags stats m evs : represents frags m -> Forall event_ok evs ->
  exists frags' stats' outs, frag_run frags stats evs = Some (frags', stats', outs) /\ length outs = length evs /\ exists m', represents frags' m'.
Proof.
  revert frags stats m. induction evs as [|ev evs IH]; intros frags stats m Hr Hev.
  { do 3 eexists. split; [done|]. split; [done|]. by exists m. }
  apply Forall_cons in Hev as [H1 Hev]. destruct ev as [e b h|j]; cbn [frag_run].
  - destruct H1 as (He & d & Hp). destruct (reassemble_refines e frags stats m b (d, h) Hr Hp He) as (ok & frags' & stats' & out & Er & _ & Hr' & _).
    cbn [snd] in Er. rewrite Er. destruct (IH _ stats' _ Hr' Hev) as (frags2 & stats2 & outs & -> & Hl & Hm). do 3 eexists. split; [done|]. split; [by cbn; f_equal|done].
  - destruct (represents_expire frags m j Hr) as (m' & Hr' & _). unfold fragment_expired.
    destruct (IH _ (count a reasm_fails 1 stats) _ Hr' Hev) as (frags2 & stats2 & outs & -> & Hl & Hm). do 3 eexists. split; [done|]. split; [by cbn; f_equal|done].
Qed.

Lemma frag_run_sound hist frags stats m evs :
  represents frags m -> collected hist m -> Forall event_ok evs ->
  exists frags' stats' outs, frag_run frags stats evs = Some (frags', stats', outs) /\ length outs = length evs
    /\ forall i b h, outs !! i = Some (Some (b, h)) ->
       exists k first mids fin, datagram k first mids fin /\ (first :: mids ++ [fin]) `sublist_of` hist ++ packets (take (S i) evs)
         /\ h = first.2 /\ iob_holds b (joined first (mids ++ [fin])).
Proof.
  revert hist frags stats m. induction evs as [|ev evs IH]; intros hist frags stats m Hr Hc Hev.
  { do 3 eexists. split; [done|]. split; [done|]. intros i b h Hi. done. }
  apply Forall_cons in Hev as [H1 Hev]. destruct ev as [e b h|j]; cbn [frag_run].
  - destruct H1 as (He & d & Hp). destruct (reassemble_refines e frags stats m b (d, h) Hr Hp He) as (ok & frags' & stats' & out & Er & _ & Hr' & Hd).
    cbn [snd] in Er. rewrite Er. destruct (collected_step ok hist m (d, h) Hc (po_ok _ _ Hp)) as [Hc' Hout].
    destruct (IH _ _ stats' _ Hr' Hc' Hev) as (frags2 & stats2 & outs & -> & Hlen & Hs). do 3 eexists. split; [done|]. split; [by cbn; f_equal|].
    intros i b' h' Hi. rewrite firstn_cons, (packets_arrive _ _ _ _ _ (po_holds _ _ Hp)). cbn [fst]. destruct i as [|i].
    + injection Hi as ->. unfold delivered in Hd. destruct (assemble ok m (d, h)).2 as [[d' h'']|] eqn:Ea; [|done]. destruct Hd as (<- & Hd & _).
      destruct (Hout _ eq_refl) as (first & mids & D1 & D2 & [= -> ->]). exists (key (d, h)), first, mids, (d, h). done.
    + destruct (Hs i b' h' Hi) as (k & first & mids & fin & D1 & D2 & D3). exists k, first, mids, fin. split; [done|]. split; [|done].
      rewrite <- app_assoc in D2. exact D2.
  - destruct (represents_expire frags m j Hr) as (m' & Hr' & Hsub). unfold fragment_expired.
    destruct (IH hist _ (count a reasm_fails 1 stats) m' Hr' ltac:(intros k p Hk; by apply Hc, Hsub) Hev) as (frags2 & stats2 & outs & -> & Hlen & Hs).
    do 3 eexists. split; [done|]. split; [by cbn; f_equal|]. intros [|i] b' h' Hi; [done|]. by apply Hs.
Qed.

(** Fragments that are not empty are told apart by their offsets. *)
Lemma aligned_unique pre x post p : aligned 0 (pre ++ x :: post) -> Forall (fun p => payload p <> []) (pre ++ x :: post) ->
  p ∈ pre ++ x :: post -> offset p = total pre -> p = x.
Proof.
  intros Ha Hne Hp Ho. assert (Hpos : forall F, p ∈ F -> Forall (fun p => payload p <> []) F -> 0 < zlen (payload p)).
  { intros F HpF HF. rewrite Forall_forall in HF. specialize (HF p HpF). destruct (payload p); [done|cbn; lia]. }
  apply elem_of_app in Hp as [Hp|Hp].
  - apply list_elem_of_split in Hp as (p1 & p2 & ->). rewrite <- app_assoc in Ha. apply aligned_app in Ha as [_ [Ha _]].
    specialize (Hpos _ ltac:(apply elem_of_app; left; apply elem_of_app; right; apply list_elem_of_here) Hne).
    revert Ho. rewrite fmap_app, concat_app, zlen_app. cbn. rewrite zlen_app. lia.
  - apply elem_of_cons in Hp as [->|Hp]; [done|]. apply list_elem_of_split in Hp as (p1 & p2 & ->).
    apply aligned_app in Ha as [_ [Hx Ha]]. apply aligned_app in Ha as [_ [Ha _]]. apply Forall_app in Hne as [_ Hne]. apply Forall_cons in Hne as [Hx' _].
    destruct (payload x); [done|]. cbn in *. lia.
Qed.

(** Memory is not short and no buffer expires. *)
Definition undisturbed (ev : frag_event) : Prop := match ev with Arrive e _ _ => plentiful e | Expire _ => False end.
(** A datagram of which [pre] has arrived and [rem] has not. *)
Definition awaiting (m : gmap (list Z) packet) (k : list Z) (first : packet) (pre : list packet) : Prop :=
  m !! k = match pre with [] => None | _ :: rest => Some (joined first rest, first.2) end.

(** The effect of a packet of the datagram. *)
Lemma awaiting_step m k first mids fin pre x rem p :
  datagram k first mids fin -> first :: mids ++ [fin] = pre ++ x :: rem -> Forall (fun p => payload p <> []) (first :: mids ++ [fin]) ->
  ff_ok r first.1 first.2 -> awaiting m k first pre -> p ∈ first :: mids ++ [fin] ->
  if decide (p = x) then
    match rem with
    | [] => (assemble true m p).2 = Some (joined first (mids ++ [fin]), first.2)
    | _ => awaiting (assemble true m p).1 k first (pre ++ [x])
    end
  else (assemble true m p).1 = m.
Proof.
  intros Hdg HF Hne Hok Haw Hp. pose proof Hdg as [D1 D2 D3 D4]. rewrite HF in D1, D2, Hne, Hp.
  assert (Hk : key p = k) by (rewrite Forall_forall in D2; by apply D2).
  assert (Hx : offset x = total pre) by (apply aligned_app in D1 as [_ [D1 _]]; lia).
  assert (Hiff : p = x <-> offset p = total pre) by (split; [by intros ->|by apply (aligned_unique pre x rem)]).
  unfold assemble, awaiting in *. rewrite Hk, Haw. destruct pre as [|q rest].
  - cbn in HF, Hiff. injection HF as <- Erem. destruct (decide (p = first)) as [->|Hn].
    + rewrite (proj2 (Z.eqb_eq _ _)) by (by apply Hiff). cbn. destruct rem as [|y rem]; [by destruct mids|]. cbn.
      rewrite lookup_insert_eq. f_equal. unfold joined. cbn. rewrite app_nil_r. by destruct first.
    + rewrite (proj2 (Z.eqb_neq _ _)); [done|]. intros E. by apply Hn, Hiff.
  - cbn [app] in HF. injection HF as <- Erem. rewrite joined_len by done. destruct (decide (p = x)) as [->|Hn].
    + rewrite (proj2 (Z.eqb_eq _ _)) by (by apply Hiff). cbn [andb]. destruct rem as [|y rem].
      * apply app_inj_tail in Erem as [-> ->]. rewrite D4. cbn. by rewrite joined_snoc.
      * assert (more x = true) as ->.
        { rewrite Forall_forall in D3. apply D3. destruct (exists_last (l := y :: rem) ltac:(done)) as (rem' & z & Ez). rewrite Ez in Erem.
          rewrite (app_comm_cons rem' [z] x), app_assoc in Erem. apply app_inj_tail in Erem as [-> _]. apply elem_of_app. right. apply list_elem_of_here. }
        cbn. rewrite lookup_insert_eq. by rewrite joined_snoc.
    + rewrite (proj2 (Z.eqb_neq _ _)); [done|]. intros E. by apply Hn, Hiff.
Qed.

Lemma awaiting_other ok m k first pre p : awaiting m k first pre -> key p <> k -> awaiting (assemble ok m p).1 k first pre.
Proof.
  unfold awaiting, assemble. intros <- Hk. destruct (m !! key p) as [[d h]|]; repeat case_match; cbn; try done;
    by rewrite ?lookup_insert_ne, ?lookup_delete_ne.
Qed.

Lemma frag_run_complete frags stats m evs k first mids fin pre x rem :
  represents frags m -> Forall event_ok evs -> Forall undisturbed evs ->
  datagram k first mids fin -> Forall (fun p => payload p <> []) (first :: mids ++ [fin]) -> ff_ok r first.1 first.2 ->
  first :: mids ++ [fin] = pre ++ x :: rem -> awaiting m k first pre ->
  (x :: rem) `sublist_of` packets evs -> Forall (fun p => key p = k -> p ∈ first :: mids ++ [fin]) (packets evs) ->
  exists frags' stats' outs, frag_run frags stats evs = Some (frags', stats', outs)
    /\ exists i b, outs !! i = Some (Some (b, first.2)) /\ iob_holds b (joined first (mids ++ [fin])).
Proof.
  intros Hr Hev Hun Hdg Hne Hok. revert frags stats m pre x rem Hr. induction evs as [|ev evs IH]; intros frags stats m pre x rem Hr HF Haw Hsub Hall.
  { inversion Hsub. }
  apply Forall_cons in Hev as [H1 Hev]. apply Forall_cons in Hun as [U1 Hun]. destruct ev as [e b h|j]; [|done]. cbn [frag_run].
  destruct H1 as (He & d & Hp). destruct (reassemble_refines e frags stats m b (d, h) Hr Hp He) as (ok & frags' & stats' & out & Er & Hplenty & Hr' & Hd).
  rewrite (Hplenty U1) in *. cbn [snd] in Er. rewrite Er. rewrite (packets_arrive _ _ _ _ _ (po_holds _ _ Hp)) in Hsub, Hall. cbn [fst] in Hsub, Hall.
  apply Forall_cons in Hall as [Hin Hall]. set (p := (d, h)) in *.
  assert (Hgo : forall pre' x' rem', first :: mids ++ [fin] = pre' ++ x' :: rem' -> awaiting (assemble true m p).1 k first pre' -> (x' :: rem') `sublist_of` packets evs ->
    exists frags2 stats2 outs, (opt! (frags, stats, outs) := frag_run frags' stats' evs in Some (frags, stats, out :: outs)) = Some (frags2, stats2, outs)
    /\ exists i b, outs !! i = Some (Some (b, first.2)) /\ iob_holds b (joined first (mids ++ [fin]))).
  { intros pre' x' rem' G1 G2 G3. destruct (IH Hev Hun _ stats' _ pre' x' rem' Hr' G1 G2 G3 Hall) as (frags2 & stats2 & outs & -> & i & b' & Hi & Hb).
    do 3 eexists. split; [done|]. by exists (S i), b'. }
  assert (Hskip : p <> x -> (x :: rem) `sublist_of` packets evs) by (intros Hn; inversion Hsub; subst; done).
  assert (Hnext : p = x -> rem `sublist_of` packets evs).
  { intros ->. inversion Hsub; subst; [done|]. etrans; [|done]. by apply sublist_cons. }
  destruct (decide (key p = k)) as [Hk|Hk].
  - pose proof (awaiting_step m k first mids fin pre x rem p Hdg HF Hne Hok Haw (Hin Hk)) as Hstep. destruct (decide (p = x)) as [Epx|Hn].
    + destruct rem as [|y rem].
      * destruct (frag_run_total frags' stats' (assemble true m p).1 evs Hr' Hev) as (frags2 & stats2 & outs & -> & _).
        do 3 eexists. split; [done|]. exists O. rewrite Hstep in Hd. unfold delivered in Hd. destruct out as [[b' h']|]; [|done].
        destruct Hd as (-> & Hd & _). by exists b'.
      * apply (Hgo (pre ++ [x]) y rem); [by rewrite <- app_assoc|done|by apply Hnext].
    + rewrite Hstep in *. apply (Hgo pre x rem); [done|done|by apply Hskip].
  - apply (Hgo pre x rem); [done|by apply awaiting_other|]. apply Hskip. intros ->. apply Hk.
    pose proof (dg_key _ _ _ _ Hdg) as D2. rewrite HF, Forall_app in D2. destruct D2 as [_ D2]. by apply Forall_cons in D2 as [D2 _].
Qed.
Lemma packets_ok evs p : Forall event_ok evs -> p ∈ packets evs -> ff_ok r p.1 p.2.
Proof.
  induction 1 as [|ev evs He Hev IH]; [by intros H%elem_of_nil|]. destruct ev as [e b h|j]; [|done]. destruct He as (_ & d & Hp).
  rewrite (packets_arrive _ _ _ _ _ (po_holds _ _ Hp)). intros [->|H]%elem_of_cons; [apply Hp|by apply IH].
Qed.
End Contract.

(** C12. Fragment reassembly, for every network layer that keeps the promises of
    [FragmentFormat], over any sequence of arriving packets and expiring
    buffers, with allocations failing or not.  No operation leaves a buffer.
    Whatever is returned is the first fragment of a datagram followed by the
    payloads of the others, up to a last one: packets that arrived before, in
    this order, from the same sender with the same identification, at
    consecutive offsets.  And every datagram is returned whose fragments arrive
    in order, however often its own fragments are repeated or arrive out of
    order as well and whatever packets of other senders or with another
    identification arrive in between, under these conditions: none of its
    fragments is empty, no packet other than its own fragments has the same key,
    memory is not short and no buffer expires. *)
Theorem fragments_reassembled a r `{!FragmentFormat r} stats evs :
  Forall (event_ok r) evs ->
  exists frags stats' outs, frag_run a r [] stats evs = Some (frags, stats', outs) /\ length outs = length evs
  /\ (forall i b h, outs !! i = Some (Some (b, h)) ->
       exists k first mids fin, datagram r k first mids fin /\ (first :: mids ++ [fin]) `sublist_of` packets (take (S i) evs)
         /\ h = first.2 /\ iob_holds b (joined first (mids ++ [fin])))
  /\ (forall k first mids fin, datagram r k first mids fin -> Forall (fun p => payload p <> []) (first :: mids ++ [fin]) ->
       Forall (undisturbed a) evs -> (first :: mids ++ [fin]) `sublist_of` packets evs ->
       Forall (fun p => ff_key r p.1 p.2 = k -> p ∈ first :: mids ++ [fin]) (packets evs) ->
       exists i b, outs !! i = Some (Some (b, first.2)) /\ iob_holds b (joined first (mids ++ [fin]))).
Proof.
  intros Hev. destruct (frag_run_sound a r [] [] stats ∅ evs (represents_nil r) ltac:(intros k p H; done) Hev) as (frags & stats' & outs & E & Hl & Hs).
  exists frags, stats', outs. split; [done|]. split; [done|]. split; [done|]. intros k first mids fin Hdg Hne Hun Hsub Hall.
  destruct (frag_run_complete a r [] stats ∅ evs k first mids fin [] first (mids ++ [fin]) (represents_nil r) Hev Hun Hdg Hne) as (f2 & s2 & o2 & E2 & H2); try done.
  - apply (packets_ok r evs); [done|]. apply (elem_of_submseteq (first :: mids ++ [fin])); [apply list_elem_of_here|by apply sublist_submseteq].
  - rewrite E in E2. by injection E2 as <- <- <-.
Qed.

(** A packet of the given identification, fragment field and payload in a
    buffer with headroom. *)
Definition sample_packet (ident frags : Z) (data : list Z) : list Z :=
  [69; 0; 0; 20 + zlen data] ++ be16 ident ++ be16 frags ++ [64; 17; 0; 0; 10; 0; 0; 1; 10; 0; 0; 2] ++ data.
Definition sample_buffer (p : list Z) : io_buffer := IoBuf (replicate 14 0 ++ p ++ []) 14 (14 + zlen p).
Definition sample_arrival (p : list Z) : frag_event := Arrive (FragEnv true plain_env) (sample_buffer p) 20.

Lemma sample_arrival_ok p : 20 <= zlen p < 2 ^ 28 -> event_ok ipv4_reassembler (sample_arrival p) /\ undisturbed Arch64 (sample_arrival p).
Proof.
  intros Hp. split.
  - split; [apply plain_env_ok|]. exists p. constructor; cbn; [|lia|unfold IOB_LIMIT; lia]. apply (iob_holds_intro (replicate 14 0) p []).
  - split; [done|]. apply plain_env_plenty.
Qed.

(** Three fragments of a datagram, with a fragment of another one and a repeated
    one in between. *)
Lemma fragments_reassembled_witness :
  let f1 := sample_packet 7 0x2000 [1; 2; 3; 4; 5; 6; 7; 8] in
  let f2 := sample_packet 7 0x2001 [9; 10; 11; 12; 13; 14; 15; 16] in
  let f3 := sample_packet 7 0x0002 [17; 18] in
  let other := sample_packet 8 0x2000 [0; 0; 0; 0; 0; 0; 0; 0] in
  exists frags stats' outs i b,
    frag_run Arch64 ipv4_reassembler [] (fun _ => 0) (sample_arrival <$> [f1; other; f2; f1; f3]) = Some (frags, stats', outs)
    /\ outs !! i = Some (Some (b, 20)) /\ iob_holds b (f1 ++ [9; 10; 11; 12; 13; 14; 15; 16; 17; 18]).
Proof.
  intros f1 f2 f3 other. set (evs := sample_arrival <$> [f1; other; f2; f1; f3]).
  assert (Hev : Forall (event_ok ipv4_reassembler) evs /\ Forall (undisturbed Arch64) evs).
  { split; repeat (apply Forall_cons; split; [apply sample_arrival_ok; vm_compute; split; congruence|]); constructor. }
  assert (Epk : packets evs = [(f1, 20); (other, 20); (f2, 20); (f1, 20); (f3, 20)]) by (vm_compute; reflexivity).
  destruct (fragments_reassembled Arch64 ipv4_reassembler (fun _ => 0) evs (proj1 Hev)) as (frags & stats' & outs & E & _ & _ & Hc).
  destruct (Hc (slice f1 12 4 ++ slice f1 4 2) (f1, 20) [(f2, 20)] (f3, 20)) as (i & b & H1 & H2).
  - constructor; [vm_compute; repeat split; reflexivity|repeat constructor|repeat constructor|reflexivity].
  - repeat (constructor; [vm_compute; discriminate|]). constructor.
  - apply Hev.
  - rewrite Epk. repeat constructor.
  - rewrite Epk. repeat (apply Forall_cons; split; [intros Hk; solve [repeat (apply list_elem_of_here || apply list_elem_of_further) | exfalso; vm_compute in Hk; discriminate]|]). constructor.
  - exists frags, stats', outs, i, b. split; [exact E|]. split; [exact H1|]. exact H2.
Defined.
