(* ===== verification/Ipv4.v ===== *)
(** * IPv4, ICMP and UDP ([net/ipv4.c], [net/icmp.c], [net/icmpv4.c], [net/udp.c], [net/tcpip.c])

    The state is the routing table, the reassembly buffers, the statistics, the
    open UDP connections and logs of what is handed to the link layer and to
    the applications.  What the rest of the system answers is the record
    [net_env]; transport protocols and address families other than these are
    parameters.  Addresses and ports are the numbers in network byte order;
    checksums are the 16-bit values the little-endian host computes with.
    [None] is an access outside an object. *)
From S2P Require Import Prelude Strings Memory Tcpip Iobuf Fragment Dns Printf Tftp.

Definition IP_VER : Z := 0x40.
Definition IP_MASK_VER : Z := 0xf0.
Definition IP_MASK_HLEN : Z := 0x0f.
Definition IP_TOS : Z := 0.
Definition IP_TTL : Z := 64.
Definition IP_ICMP : Z := 1.
Definition IP_UDP : Z := 17.
Definition IPHDR_LEN : Z := 20.
Definition UDPHDR_LEN : Z := 8.
Definition INADDR_BROADCAST : Z := 0xffffffff.
Definition LL_MULTICAST : Z := 0x0001.
Definition LL_BROADCAST : Z := 0x0002.
Definition TCPIP_NEGATIVE_ZERO_CSUM : Z := 0xffff.
Definition ICMP_ECHO_REPLY : Z := 0.
Definition ICMP_ECHO_REQUEST : Z := 8.

Definition IN_IS_CLASSA (addr : Z) : bool := Z.land addr 0x80000000 =? 0x00000000.
Definition IN_IS_CLASSB (addr : Z) : bool := Z.land addr 0xc0000000 =? 0x80000000.
Definition IN_IS_CLASSC (addr : Z) : bool := Z.land addr 0xe0000000 =? 0xc0000000.
Definition IN_IS_MULTICAST (addr : Z) : bool := Z.land addr 0xf0000000 =? 0xe0000000.

(** [pad] has 24 bytes; an IPv4 address is the first four of them. *)
Record sockaddr_tcpip := St { st_family : Z; st_flags : Z; st_port : Z; st_scope_id : Z; st_pad : list Z }.
Definition sin_addr (st : sockaddr_tcpip) : Z := be_val (take 4 (st_pad st)).
Definition sin_of (addr : Z) : sockaddr_tcpip := St AF_INET 0 0 0 (be32 addr ++ replicate 20 0).
Definition set_port (port : Z) (st : sockaddr_tcpip) : sockaddr_tcpip := St (st_family st) (st_flags st) port (st_scope_id st) (st_pad st).
Definition st_empty : sockaddr_tcpip := St 0 0 0 0 (replicate 24 0).

(** What the source uses of a network device: devices are numbered. *)
Record net_device := NetDevice {
  nd_open : bool;
  nd_scope_id : Z;
  nd_mtu : Z;
  nd_rx_good : Z;
  nd_rx_bad : Z;
  nd_mc_hash : Z -> res (list Z) }.

Record ipv4_miniroute := Miniroute { mr_netdev : Z; mr_address : Z; mr_netmask : Z; mr_gateway : Z }.
Record udp_connection := UdpConn { uc_id : Z; uc_local : sockaddr_tcpip; uc_peer : sockaddr_tcpip }.

(** Link-layer destinations: the broadcast address, the hash of a multicast
    address, or what ARP finds for the next hop (on behalf of a source). *)
Inductive ll_dest := LlBroadcast | LlMulticast (hash : list Z) | LlArp (next_hop src : Z).
Record transmission := Transmission { tx_netdev : Z; tx_dest : ll_dest; tx_packet : list Z }.
Inductive delivery :=
| UdpData (id : Z) (data : list Z) (src dest : sockaddr_tcpip)
| PingReply (data : list Z) (src : sockaddr_tcpip).

Record net := Net {
  n_miniroutes : list ipv4_miniroute;
  n_ident_high : Z;
  n_frags : list fragment;
  n_stats : ip_statistics;
  n_udp : list udp_connection;
  n_sent : list transmission;
  n_rcvd : list delivery }.

Definition set_miniroutes v n := Net v (n_ident_high n) (n_frags n) (n_stats n) (n_udp n) (n_sent n) (n_rcvd n).
Definition set_ident_high v n := Net (n_miniroutes n) v (n_frags n) (n_stats n) (n_udp n) (n_sent n) (n_rcvd n).
Definition set_frags v n := Net (n_miniroutes n) (n_ident_high n) v (n_stats n) (n_udp n) (n_sent n) (n_rcvd n).
Definition set_stats v n := Net (n_miniroutes n) (n_ident_high n) (n_frags n) v (n_udp n) (n_sent n) (n_rcvd n).
Definition set_udp v n := Net (n_miniroutes n) (n_ident_high n) (n_frags n) (n_stats n) v (n_sent n) (n_rcvd n).
Definition set_sent v n := Net (n_miniroutes n) (n_ident_high n) (n_frags n) (n_stats n) (n_udp n) v (n_rcvd n).
Definition set_rcvd v n := Net (n_miniroutes n) (n_ident_high n) (n_frags n) (n_stats n) (n_udp n) (n_sent n) v.

(** The devices, allocations, the random number, and the answers of the link
    layer ([net_tx] and [arp_tx]), of the applications and of [ping_rx]. *)
Record net_env := NetEnv {
  ev_dev : Z -> net_device;
  ev_frag : frag_env;
  ev_zalloc : bool;
  ev_random : Z;
  ev_tx : res unit;
  ev_deliver : res unit;
  ev_ping : res unit }.

Abbreviation netres := (option (net * res unit)).

(** ** Routing *)

Section Ipv4.
Context (a : arch).

Definition stat (c : ip_counter) (n : Z) (s : net) : net := set_stats (count a c n (n_stats s)) s.

Definition add_ipv4_miniroute (e : net_env) (s : net) (netdev address netmask gateway : Z) : net * res unit :=
  if negb (ev_zalloc e) then (s, Err ENOMEM) else
  let m := Miniroute netdev address netmask gateway in
  (set_miniroutes (if negb (gateway =? 0) then n_miniroutes s ++ [m] else m :: n_miniroutes s) s, Ok tt).

(** [miniroute] is the entry at position [i]. *)
Definition del_ipv4_miniroute (s : net) (i : nat) : net := set_miniroutes (delete i (n_miniroutes s)) s.

(** The entry, and the next hop. *)
Fixpoint ipv4_route (e : net_env) (routes : list ipv4_miniroute) (scope_id dest : Z) : option (ipv4_miniroute * Z) :=
  match routes with
  | [] => None
  | m :: routes' =>
      if negb (nd_open (ev_dev e (mr_netdev m))) then ipv4_route e routes' scope_id dest else
      if IN_IS_MULTICAST dest then
        if nd_scope_id (ev_dev e (mr_netdev m)) =? scope_id then Some (m, dest) else ipv4_route e routes' scope_id dest
      else if Z.land (Z.lxor dest (mr_address m)) (mr_netmask m) =? 0 then Some (m, dest)
      else if negb (mr_gateway m =? 0) then Some (m, mr_gateway m)
      else ipv4_route e routes' scope_id dest
  end.

Definition ipv4_netdev (e : net_env) (s : net) (st_dest : sockaddr_tcpip) : option Z :=
  match ipv4_route e (n_miniroutes s) (st_scope_id st_dest) (sin_addr st_dest) with Some (m, _) => Some (mr_netdev m) | None => None end.

Definition ipv4_has_any_addr (s : net) (netdev : Z) : bool := existsb (fun m => mr_netdev m =? netdev) (n_miniroutes s).

Definition ipv4_has_addr (s : net) (netdev addr : Z) : bool :=
  existsb (fun m => (mr_netdev m =? netdev) && (mr_address m =? addr)) (n_miniroutes s).

Definition ipv4_arp_check (s : net) (netdev net_addr : Z) : res unit := if ipv4_has_addr s netdev net_addr then Ok tt else Err ENOENT.

(** ** Transmission *)

(** A [uint16_t] in the memory of a little-endian host. *)
Definition le16 (v : Z) : list Z := [v mod 256; v / 256 mod 256].
Definition le16_val (l : list Z) : Z := be_val (reverse l).

Definition ipv4_pshdr_chksum (iobuf : io_buffer) (csum : Z) : option Z :=
  opt! verhdrlen := iob_read iobuf 0 1 in
  let hdrlen := Z.land (be_val verhdrlen) IP_MASK_HLEN * 4 in
  opt! src := iob_read iobuf 12 4 in
  opt! dest := iob_read iobuf 16 4 in
  opt! protocol := iob_read iobuf 9 1 in
  let pshdr := src ++ dest ++ [0] ++ protocol ++ be16 (iob_len iobuf - hdrlen) in
  Some (generic_tcpip_continue_chksum csum pshdr).

(** The transport-layer checksum is completed in place. *)
Definition fix_trans_csum (iobuf : io_buffer) (zero_csum off : Z) : option io_buffer :=
  opt! old := iob_read iobuf off 2 in
  opt! csum := ipv4_pshdr_chksum iobuf (le16_val old) in
  iob_write iobuf off (le16 (if csum =? 0 then zero_csum else csum)).

(** [trans_csum] is the offset of the transport-layer checksum in the segment
    that is passed. *)
Definition ipv4_tx (e : net_env) (s : net) (iobuf : io_buffer) (proto zero_csum : Z) (st_src : option sockaddr_tcpip)
  (st_dest : sockaddr_tcpip) (netdev : option Z) (trans_csum : option Z) : netres :=
  opt! iobuf := iob_push iobuf IPHDR_LEN in
  let s := stat out_requests 1 s in
  let dest := sin_addr st_dest in
  opt! iobuf := iob_write iobuf 0 ([Z.lor IP_VER (IPHDR_LEN / 4); IP_TOS] ++ be16 (iob_len iobuf) ++ [0; 0] ++ [0; 0]
                                   ++ [IP_TTL; proto] ++ [0; 0] ++ [0; 0; 0; 0] ++ be32 dest) in
  let route := if negb (dest =? INADDR_BROADCAST) then ipv4_route e (n_miniroutes s) (st_scope_id st_dest) dest else None in
  let src := match route with Some (m, _) => mr_address m | None => match st_src with Some st => sin_addr st | None => 0 end end in
  let next_hop := match route with Some (_, hop) => hop | None => dest end in
  let netmask := match route with Some (m, _) => mr_netmask m | None => 0 end in
  let netdev := match route with Some (m, _) => Some (mr_netdev m) | None => netdev end in
  opt! iobuf := iob_write iobuf 12 (be32 src) in
  match netdev with
  | None => Some (stat out_no_routes 1 s, Err ENETUNREACH)
  | Some netdev =>
      let s := set_ident_high (uwrap 8 (n_ident_high s + 1)) s in
      let dev := ev_dev e netdev in
      opt! iobuf := iob_write iobuf 4 (be16 (Z.lor (Z.shiftl (n_ident_high s) 8)
                                               (Z.lor (Z.shiftl (Z.land (nd_rx_bad dev) 0xf) 4) (Z.land (nd_rx_good dev) 0xf)))) in
      opt! iobuf := match trans_csum with Some off => fix_trans_csum iobuf zero_csum (IPHDR_LEN + off) | None => Some iobuf end in
      opt! hdr := iob_read iobuf 0 IPHDR_LEN in
      opt! iobuf := iob_write iobuf 10 (le16 (tcpip_chksum hdr)) in
      opt! packet := iob_bytes iobuf in
      let '(s, ll) :=
        if Z.land (Z.lxor next_hop INADDR_BROADCAST) (Z.lxor netmask 0xffffffff) =? 0 then (stat out_bcast_pkts 1 s, Ok LlBroadcast)
        else if IN_IS_MULTICAST next_hop then
          (stat out_mcast_pkts 1 s, match nd_mc_hash dev next_hop with Ok hash => Ok (LlMulticast hash) | Err err => Err err end)
        else (s, Ok (LlArp next_hop src)) in
      match ll with
      | Err err => Some (s, Err err)
      | Ok ll =>
          let s := stat out_octets (iob_len iobuf) (stat out_transmits 1 s) in
          Some (set_sent (n_sent s ++ [Transmission netdev ll packet]) s, ev_tx e)
      end
  end.

(** Other address families. *)
Context (other_tx : Z -> option (net_env -> net -> io_buffer -> Z -> Z -> option sockaddr_tcpip -> sockaddr_tcpip -> option Z -> option Z -> netres)).

Definition tcpip_net_protocol (family : Z) := if family =? AF_INET then Some ipv4_tx else other_tx family.

Definition tcpip_tx (e : net_env) (s : net) (iobuf : io_buffer) (proto zero_csum : Z) (st_src : option sockaddr_tcpip)
  (st_dest : sockaddr_tcpip) (netdev : option Z) (trans_csum : option Z) : netres :=
  match tcpip_net_protocol (st_family st_dest) with
  | Some tx => tx e s iobuf proto zero_csum st_src st_dest netdev trans_csum
  | None => Some (s, Err EAFNOSUPPORT)
  end.

(** For IPv4 destinations. *)
Definition tcpip_mtu (e : net_env) (s : net) (st_dest : sockaddr_tcpip) : Z :=
  match ipv4_netdev e s st_dest with Some netdev => uwrap (size_bits a) (nd_mtu (ev_dev e netdev) - IPHDR_LEN) | None => 0 end.

(** ** ICMP *)

(** ICMP over IPv4 has no pseudo-header in its checksum. *)
Definition icmp_tx_echo (e : net_env) (s : net) (iobuf : io_buffer) (st_dest : sockaddr_tcpip) : netres :=
  opt! iobuf := iob_write iobuf 2 [0; 0] in
  opt! data := iob_bytes iobuf in
  opt! iobuf := iob_write iobuf 2 (le16 (tcpip_chksum data)) in
  tcpip_tx e s iobuf IP_ICMP 0 None st_dest None None.

(** IPv4 is the only echo protocol here. *)
Definition icmp_tx_echo_request (e : net_env) (s : net) (iobuf : io_buffer) (st_dest : sockaddr_tcpip) : netres :=
  if negb (st_family st_dest =? AF_INET) then Some (s, Err ENOTSUP) else
  opt! iobuf := iob_write iobuf 0 [ICMP_ECHO_REQUEST] in icmp_tx_echo e s iobuf st_dest.

Definition icmp_tx_echo_reply (e : net_env) (s : net) (iobuf : io_buffer) (st_dest : sockaddr_tcpip) : netres :=
  opt! iobuf := iob_write iobuf 0 [ICMP_ECHO_REPLY] in icmp_tx_echo e s iobuf st_dest.

Definition icmp_rx_echo_request (e : net_env) (s : net) (iobuf : io_buffer) (st_src : sockaddr_tcpip) : netres :=
  if iob_len iobuf <? 8 then Some (s, Err EINVAL) else icmp_tx_echo_reply e s iobuf st_src.

Definition icmp_rx_echo_reply (e : net_env) (s : net) (iobuf : io_buffer) (st_src : sockaddr_tcpip) : netres :=
  if iob_len iobuf <? 8 then Some (s, Err EINVAL) else
  opt! data := iob_bytes iobuf in Some (set_rcvd (n_rcvd s ++ [PingReply data st_src]) s, ev_ping e).

Definition icmpv4_rx (e : net_env) (s : net) (iobuf : io_buffer) (_ : Z) (st_src st_dest : sockaddr_tcpip) (_ : Z) : netres :=
  if iob_len iobuf <? 4 then Some (s, Err EINVAL) else
  opt! data := iob_bytes iobuf in
  if negb (tcpip_chksum data =? 0) then Some (s, Err EINVAL) else
  opt! type := iob_read iobuf 0 1 in
  if be_val type =? ICMP_ECHO_REQUEST then icmp_rx_echo_request e s iobuf st_src
  else if be_val type =? ICMP_ECHO_REPLY then icmp_rx_echo_reply e s iobuf st_src
  else Some (s, Ok tt).

(** ** UDP *)

Definition udp_port_available (s : net) (port : Z) : res Z :=
  if existsb (fun c => st_port (uc_local c) =? u16 port) (n_udp s) then Err EADDRINUSE else Ok port.

(** A new connection with the interface [id]. *)
Definition udp_open_common (e : net_env) (s : net) (id : Z) (peer local : option sockaddr_tcpip) (promisc : bool) : net * res unit :=
  if negb (ev_zalloc e) then (s, Err ENOMEM) else
  let udp := UdpConn id (default st_empty local) (default st_empty peer) in
  let bound :=
    if promisc then Ok udp
    else try! port := tcpip_bind (udp_port_available s) (ev_random e) ((fun st => (st_flags st, st_port st)) <$> local) in
         Ok (UdpConn id (set_port (u16 port) (uc_local udp)) (uc_peer udp)) in
  match bound with
  | Err rc => (s, Err rc)
  | Ok udp => (set_udp (udp :: n_udp s) s, Ok tt)
  end.

Definition udp_open (e : net_env) (s : net) (id : Z) (peer : sockaddr_tcpip) (local : option sockaddr_tcpip) : net * res unit :=
  udp_open_common e s id (Some peer) local false.

Definition udp_open_promisc (e : net_env) (s : net) (id : Z) : net * res unit := udp_open_common e s id None None true.

Definition udp_close (s : net) (id : Z) : net := set_udp (filter (fun c => uc_id c <> id) (n_udp s)) s.

Definition udp_tx (e : net_env) (s : net) (udp : udp_connection) (iobuf : io_buffer) (src dest : option sockaddr_tcpip) (netdev : option Z) : netres :=
  match iob_ensure_headroom iobuf MAX_LL_NET_HEADER_LEN with
  | Err rc => Some (s, Err rc)
  | Ok _ =>
      let src := default (uc_local udp) src in
      let dest := default (uc_peer udp) dest in
      opt! iobuf := iob_push iobuf UDPHDR_LEN in
      let len := iob_len iobuf in
      opt! iobuf := iob_write iobuf 0 (be16 (st_port src) ++ be16 (st_port dest) ++ be16 len ++ [0; 0]) in
      opt! data := iob_read iobuf 0 len in
      opt! iobuf := iob_write iobuf 6 (le16 (tcpip_chksum data)) in
      tcpip_tx e s iobuf IP_UDP TCPIP_NEGATIVE_ZERO_CSUM (Some src) dest netdev (Some 6)
  end.

Definition udp_matches (local : sockaddr_tcpip) (c : udp_connection) : bool :=
  ((st_family (uc_local c) =? st_family local) || (st_family (uc_local c) =? 0))
  && ((st_port (uc_local c) =? st_port local) || (st_port (uc_local c) =? 0))
  && (bool_decide (st_pad (uc_local c) = st_pad local) || bool_decide (st_pad (uc_local c) = replicate 24 0)).

Definition udp_demux (s : net) (local : sockaddr_tcpip) : option udp_connection := List.find (udp_matches local) (n_udp s).

Definition udp_rx (e : net_env) (s : net) (iobuf : io_buffer) (_ : Z) (st_src st_dest : sockaddr_tcpip) (pshdr_csum : Z) : netres :=
  if iob_len iobuf <? UDPHDR_LEN then Some (s, Err EINVAL) else
  opt! len := iob_read iobuf 4 2 in
  let ulen := be_val len in
  if ulen <? UDPHDR_LEN then Some (s, Err EINVAL) else
  if iob_len iobuf <? ulen then Some (s, Err EINVAL) else
  opt! chksum := iob_read iobuf 6 2 in
  opt! data := iob_read iobuf 0 ulen in
  if negb (le16_val chksum =? 0) && negb (generic_tcpip_continue_chksum pshdr_csum data =? 0) then Some (s, Err EINVAL) else
  opt! src := iob_read iobuf 0 2 in
  opt! dest := iob_read iobuf 2 2 in
  let st_src := set_port (be_val src) st_src in
  let st_dest := set_port (be_val dest) st_dest in
  let udp := udp_demux s st_dest in
  opt! iobuf := iob_unput iobuf (iob_len iobuf - ulen) in
  opt! iobuf := iob_pull iobuf UDPHDR_LEN in
  match udp with
  | None => Some (s, Err ENOTCONN)
  | Some udp =>
      opt! data := iob_bytes iobuf in
      Some (set_rcvd (n_rcvd s ++ [UdpData (uc_id udp) data st_src st_dest]) s, ev_deliver e)
  end.

(** [meta] is the addresses and the device, if given. *)
Definition udp_xfer_deliver (e : net_env) (s : net) (udp : udp_connection) (iobuf : io_buffer)
  (meta : option sockaddr_tcpip * option sockaddr_tcpip * option Z) : netres :=
  let '(src, dest, netdev) := meta in udp_tx e s udp iobuf src dest netdev.

Definition udp_xfer_alloc_iob (e : net_env) (len : Z) : option io_buffer :=
  match alloc_iob a (fe_iob (ev_frag e)) (MAX_LL_NET_HEADER_LEN + len) with
  | None => None
  | Some iobuf => iob_reserve iobuf MAX_LL_NET_HEADER_LEN
  end.

(** ** Reception *)

(** Other transport protocols. *)
Context (other_rx : list (Z * (net_env -> net -> io_buffer -> Z -> sockaddr_tcpip -> sockaddr_tcpip -> Z -> netres))).

Definition tcpip_protocols := (IP_UDP, udp_rx) :: (IP_ICMP, icmpv4_rx) :: other_rx.

Definition tcpip_rx (e : net_env) (s : net) (iobuf : io_buffer) (netdev proto : Z) (st_src st_dest : sockaddr_tcpip) (pshdr_csum : Z) : netres :=
  match List.find (fun p => fst p =? proto) tcpip_protocols with
  | Some (_, rx) => rx e (stat in_delivers 1 s) iobuf netdev st_src st_dest pshdr_csum
  | None => Some (stat in_unknown_protos 1 s, Err EPROTONOSUPPORT)
  end.

(** A packet that passed the checks, or was reassembled. *)
Definition ipv4_deliver (e : net_env) (s : net) (iobuf : io_buffer) (netdev hdrlen : Z) : netres :=
  opt! src := iob_read iobuf 12 4 in
  opt! dest := iob_read iobuf 16 4 in
  opt! pshdr_csum := ipv4_pshdr_chksum iobuf TCPIP_EMPTY_CSUM in
  opt! protocol := iob_read iobuf 9 1 in
  opt! iobuf := iob_pull iobuf hdrlen in
  tcpip_rx e s iobuf netdev (be_val protocol) (sin_of (be_val src)) (sin_of (be_val dest)) pshdr_csum.

Definition ipv4_rx (e : net_env) (s : net) (iobuf : io_buffer) (netdev flags : Z) : netres :=
  let s := stat in_octets (iob_len iobuf) (stat in_receives 1 s) in
  let s := if negb (Z.land flags LL_BROADCAST =? 0) then stat in_bcast_pkts 1 s
           else if negb (Z.land flags LL_MULTICAST =? 0) then stat in_mcast_pkts 1 s else s in
  let err_header := Some (stat in_hdr_errors 1 s, Err EINVAL) in
  if iob_len iobuf <? IPHDR_LEN then err_header else
  opt! verhdrlen := iob_read iobuf 0 1 in
  if negb (Z.land (be_val verhdrlen) IP_MASK_VER =? IP_VER) then err_header else
  let hdrlen := Z.land (be_val verhdrlen) IP_MASK_HLEN * 4 in
  if hdrlen <? IPHDR_LEN then err_header else
  if iob_len iobuf <? hdrlen then err_header else
  opt! hdr := iob_read iobuf 0 hdrlen in
  if negb (tcpip_chksum hdr =? 0) then err_header else
  opt! len := iob_read iobuf 2 2 in
  let len := be_val len in
  if len <? hdrlen then err_header else
  if iob_len iobuf <? len then Some (stat in_truncated_pkts 1 s, Err EINVAL) else
  opt! iobuf := iob_unput iobuf (iob_len iobuf - len) in
  opt! dest := iob_read iobuf 16 4 in
  if (Z.land flags LL_MULTICAST =? 0) && negb (be_val dest =? INADDR_BROADCAST)
     && ipv4_has_any_addr s netdev && negb (ipv4_has_addr s netdev (be_val dest))
  then Some (stat in_addr_errors 1 s, Err EINVAL) else
  opt! frags := iob_read iobuf 6 2 in
  if negb (Z.land (be_val frags) (Z.lor IP_MASK_OFFSET IP_MASK_MOREFRAGS) =? 0) then
    opt! (fr, st, out) := fragment_reassemble a ipv4_reassembler (ev_frag e) (n_frags s) (n_stats s) iobuf hdrlen in
    let s := set_stats st (set_frags fr s) in
    match out with
    | None => Some (s, Ok tt)
    | Some (iobuf, hdrlen) => ipv4_deliver e s iobuf netdev hdrlen
    end
  else ipv4_deliver e s iobuf netdev hdrlen.

(** ** Settings *)

Definition ipv4_sock_aton (string : list Z) (sa : sockaddr_tcpip) : option (sockaddr_tcpip * res unit) :=
  opt! addr := inet_aton a string in
  Some match addr with
       | Some addr => (St (st_family sa) (st_flags sa) (st_port sa) (st_scope_id sa) (addr ++ drop 4 (st_pad sa)), Ok tt)
       | None => (sa, Err EINVAL)
       end.

(** The buffer, and the length of the address or an error. *)
Definition parse_ipv4_setting (value buf : list Z) (len : Z) : option (list Z * res Z) :=
  opt! addr := inet_aton a value in
  match addr with
  | None => Some (buf, Err EINVAL)
  | Some addr =>
      let len := if 4 <? len then 4 else len in
      opt! buf := mem_write buf 0 (take (Z.to_nat len) addr) in Some (buf, Ok 4)
  end.

(** "%s"; the buffer, and the length of the text or an error. *)
Definition format_ipv4_setting (raw : list Z) (buf : list Z) (len : Z) : option (list Z * res Z) :=
  if zlen raw <? 4 then Some (buf, Err EINVAL) else
  opt! text := inet_ntoa a (take 4 raw) in
  opt! (buf, n) := snprintf a buf 0 len [37; 115] [ArgStr (Some (text ++ [0]))] in Some (buf, Ok n).

(** Addresses of the configured devices, in turn; [fetch] gives the address, the
    netmask and the gateway of a device, with zero for none. *)
Definition default_netmask (address netmask : Z) : Z :=
  if negb (netmask =? 0) then netmask
  else if IN_IS_CLASSA address then 0xff000000
  else if IN_IS_CLASSB address then 0xffff0000
  else if IN_IS_CLASSC address then 0xffffff00
  else 0.

Fixpoint ipv4_settings (fetch : Z -> Z * Z * Z) (apply : net -> Z -> Z -> Z -> Z -> net * res unit) (s : net) (netdevs : list Z) : net * res unit :=
  match netdevs with
  | [] => (s, Ok tt)
  | netdev :: netdevs' =>
      let '(address, netmask, gateway) := fetch netdev in
      if address =? 0 then ipv4_settings fetch apply s netdevs' else
      let '(s, rc) := apply s netdev address (default_netmask address netmask) gateway in
      match rc with Err err => (s, Err err) | Ok _ => ipv4_settings fetch apply s netdevs' end
  end.

(** All entries are deleted, and made anew (gratuitous ARPs change nothing
    here). *)
Definition ipv4_create_routes (e : net_env) (fetch : Z -> Z * Z * Z) (s : net) (netdevs : list Z) : net * res unit :=
  let s := foldl (fun s _ => del_ipv4_miniroute s 0) s (n_miniroutes s) in
  ipv4_settings fetch (add_ipv4_miniroute e) s netdevs.

End Ipv4.
