(* ===== verification/Ipv4Udp.v ===== *)
(** * UDP over IPv4: what is sent is what arrives

    Checksums of packets in parts, the bytes that [udp_tx] and [ipv4_tx] hand to
    the link layer, and what [ipv4_rx] and [udp_rx] make of them at the other
    end, with whatever the link layer pads the frame with. *)
From stdpp Require Import gmap.
From S2P Require Import Prelude Strings Memory Tcpip Iobuf Fragment Dns Printf Tftp Ipv4.

(** ** Checksums in parts *)

Lemma continue_chksum_spec p data : 0 <= p <= 0xffff -> bytes_ok data ->
  let c := generic_tcpip_continue_chksum p data in
  0 <= c <= 0xffff /\ (exists q, c = p - word_sum false data + q * 0xffff) /\ (c = 0xffff <-> p = 0xffff /\ word_sum false data = 0).
Proof.
  intros Hp Hb. unfold generic_tcpip_continue_chksum. rewrite partial_spec by lia.
  destruct (chksum_loop_spec false (0xffff - p) data ltac:(lia) Hb) as (H1 & H2 & H3). rewrite not16_spec by lia.
  pose proof (word_sum_nonneg false data Hb). apply Z.mod_divide in H2 as [q Hq]; [|lia]. split; [lia|]. split; [exists (- q); lia|].
  destruct H3 as [H3 H4]. split; [intros E; specialize (H3 ltac:(lia)); lia|intros [E1 E2]; specialize (H4 ltac:(lia)); lia].
Qed.

Lemma word_sum_le16 x c y : Nat.even (length x) = true -> 0 <= c <= 0xffff -> word_sum false (x ++ le16 c ++ y) = word_sum false (x ++ [0; 0] ++ y) + c.
Proof. intros He Hc. unfold le16. rewrite !(word_sum_app false x), He. cbn [word_sum negb app]. Z.div_mod_to_equations. lia. Qed.

(** The checksum of a segment with its field zeroed is completed with a
    pseudo-header and stored; a receiver that starts from the pseudo-header gets
    zero. *)
Lemma transport_chksum_verifies ps x y : bytes_ok ps -> bytes_ok x -> bytes_ok y -> Nat.even (length x) = true ->
  let c := generic_tcpip_continue_chksum (tcpip_chksum (x ++ le16 0 ++ y)) ps in
  let c := if c =? 0 then TCPIP_NEGATIVE_ZERO_CSUM else c in
  0 < c <= 0xffff /\ generic_tcpip_continue_chksum (tcpip_chksum ps) (x ++ le16 c ++ y) = 0.
Proof.
  intros Hps Hx Hy He. unfold tcpip_chksum, TCPIP_EMPTY_CSUM, TCPIP_NEGATIVE_ZERO_CSUM. assert (E0 : le16 0 = [0; 0]) by reflexivity. rewrite E0. clear E0. set (z := x ++ [0; 0] ++ y).
  assert (Hz : bytes_ok z) by (subst z; apply Forall_app; split; [done|]; solve_bytes).
  destruct (continue_chksum_spec 0 z ltac:(lia) Hz) as (A1 & (qa & A2) & A3). set (c1 := generic_tcpip_continue_chksum 0 z) in *.
  destruct (continue_chksum_spec c1 ps A1 Hps) as (B1 & (qb & B2) & B3). set (c2 := generic_tcpip_continue_chksum c1 ps) in *.
  set (c := if c2 =? 0 then 0xffff else c2). assert (Hc : 0 < c <= 0xffff /\ (c = c2 \/ c = c2 + 0xffff)) by (subst c; case_if; lia).
  split; [lia|]. destruct (continue_chksum_spec 0 ps ltac:(lia) Hps) as (D1 & (qd & D2) & D3). set (p := generic_tcpip_continue_chksum 0 ps) in *.
  assert (Hz' : bytes_ok (x ++ le16 c ++ y)).
  { apply Forall_app. split; [done|]. apply Forall_app. split; [|done]. unfold le16. repeat constructor; apply Z.mod_pos_bound; lia. }
  destruct (continue_chksum_spec p _ D1 Hz') as (E1 & (qe & E2) & E3). set (r := generic_tcpip_continue_chksum p _) in *.
  rewrite word_sum_le16 in E2 by (done || lia). fold z in E2. destruct E3 as [E3 _], D3 as [D3 _]. assert (r <> 0xffff) by (intros E; destruct (E3 E) as [E' _]; destruct (D3 E'); lia). lia.
Qed.

Lemma le16_val_le16 v : 0 <= v <= 0xffff -> le16_val (le16 v) = v.
Proof. intros Hv. unfold le16_val, le16, be_val. cbn. Z.div_mod_to_equations. lia. Qed.

Lemma le16_bytes v : bytes_ok (le16 v).
Proof. unfold le16. repeat constructor; apply Z.mod_pos_bound; lia. Qed.

#[local] Opaque generic_tcpip_continue_chksum.

(** ** Packets *)

Definition ip_header (len ident proto csum src dest : Z) : list Z :=
  [0x45; 0] ++ be16 len ++ be16 ident ++ [0; 0] ++ [IP_TTL; proto] ++ le16 csum ++ be32 src ++ be32 dest.

Definition ip_pseudo (src dest proto len : Z) : list Z := be32 src ++ be32 dest ++ [0] ++ [proto] ++ be16 len.

(** With the right checksum. *)
Definition ip_packet (len ident proto src dest : Z) (seg : list Z) : list Z :=
  ip_header len ident proto (tcpip_chksum (ip_header len ident proto 0 src dest)) src dest ++ seg.

Definition udp_segment (sport dport len csum : Z) (data : list Z) : list Z := be16 sport ++ be16 dport ++ be16 len ++ le16 csum ++ data.

(** With the right checksum, which is never zero. *)
Definition udp_csum (src dest sport dport len : Z) (data : list Z) : Z :=
  let c := generic_tcpip_continue_chksum (tcpip_chksum (udp_segment sport dport len 0 data)) (ip_pseudo src dest IP_UDP len) in
  if c =? 0 then TCPIP_NEGATIVE_ZERO_CSUM else c.

Lemma ip_header_bytes len ident proto csum src dest : byte_ok proto -> bytes_ok (ip_header len ident proto csum src dest).
Proof.
  intros Hp. unfold ip_header. repeat (apply Forall_app; split); try apply be16_bytes; try apply be32_bytes; try apply le16_bytes; solve_bytes; done.
Qed.

Lemma ip_pseudo_bytes src dest proto len : byte_ok proto -> bytes_ok (ip_pseudo src dest proto len).
Proof. intros Hp. unfold ip_pseudo. repeat (apply Forall_app; split); try apply be32_bytes; try apply be16_bytes; solve_bytes; done. Qed.

Lemma ip_header_verifies len ident proto src dest : byte_ok proto ->
  let c := tcpip_chksum (ip_header len ident proto 0 src dest) in
  0 <= c <= 0xffff /\ tcpip_chksum (ip_header len ident proto c src dest) = 0.
Proof.
  intros Hp. set (x := [0x45; 0] ++ be16 len ++ be16 ident ++ [0; 0] ++ [IP_TTL; proto]). set (y := be32 src ++ be32 dest).
  change (ip_header len ident proto 0 src dest) with (x ++ 0 :: 0 :: y).
  assert (Hx : bytes_ok x) by (unfold x; repeat (apply Forall_app; split); try apply be16_bytes; solve_bytes; done).
  assert (Hy : bytes_ok y) by (apply Forall_app; split; apply be32_bytes).
  destruct (tcpip_chksum_verifies x y Hx Hy eq_refl) as [H1 H2]. cbv zeta in *. set (c := tcpip_chksum (x ++ 0 :: 0 :: y)) in *. split; [done|].
  change (ip_header len ident proto c src dest) with (x ++ c mod 256 :: c / 256 mod 256 :: y). by rewrite (Z.mod_small (c / 256)) by (Z.div_mod_to_equations; lia).
Qed.

Lemma udp_csum_verifies src dest sport dport len data : bytes_ok data ->
  generic_tcpip_continue_chksum (generic_tcpip_continue_chksum TCPIP_EMPTY_CSUM (ip_pseudo src dest IP_UDP len))
    (udp_segment sport dport len (udp_csum src dest sport dport len data) data) = 0.
Proof.
  intros Hdata. assert (Hps : bytes_ok (ip_pseudo src dest IP_UDP len)) by (apply ip_pseudo_bytes; unfold byte_ok, IP_UDP; lia).
  assert (Hx : bytes_ok (be16 sport ++ be16 dport ++ be16 len)) by (repeat (apply Forall_app; split); apply be16_bytes).
  destruct (transport_chksum_verifies (ip_pseudo src dest IP_UDP len) _ data Hps Hx Hdata eq_refl) as [_ Hv]. cbv zeta in Hv. rewrite <- !app_assoc in Hv.
  unfold udp_csum, udp_segment. cbv zeta. unfold tcpip_chksum in *. exact Hv.
Qed.

Lemma be32_be_val l : bytes_ok l -> length l = 4%nat -> be32 (be_val l) = l.
Proof.
  intros Hb Hl. destruct l as [|b0 [|b1 [|b2 [|b3 [|]]]]]; try done. apply Forall_cons in Hb as [H0 Hb]. apply Forall_cons in Hb as [H1 Hb].
  apply Forall_cons in Hb as [H2 Hb]. apply Forall_cons in Hb as [H3 _]. unfold byte_ok in *. unfold be32, be_val. cbn [fold_left].
  repeat f_equal; Z.div_mod_to_equations; lia.
Qed.

(** ** Transmission *)

(** Device, source address, next hop and netmask. *)
Definition tx_choice (e : net_env) (s : net) (st_src : option sockaddr_tcpip) (st_dest : sockaddr_tcpip) (netdev : option Z) : option (Z * Z * Z * Z) :=
  let dest := sin_addr st_dest in
  match (if negb (dest =? INADDR_BROADCAST) then ipv4_route e (n_miniroutes s) (st_scope_id st_dest) dest else None) with
  | Some (m, hop) => Some (mr_netdev m, mr_address m, hop, mr_netmask m)
  | None => match netdev with Some dev => Some (dev, match st_src with Some st => sin_addr st | None => 0 end, dest, 0) | None => None end
  end.

Definition tx_ll (e : net_env) (dev src hop mask : Z) : res ll_dest :=
  if Z.land (Z.lxor hop INADDR_BROADCAST) (Z.lxor mask 0xffffffff) =? 0 then Ok LlBroadcast
  else if IN_IS_MULTICAST hop then match nd_mc_hash (ev_dev e dev) hop with Ok hash => Ok (LlMulticast hash) | Err err => Err err end
  else Ok (LlArp hop src).

(** A state that differs in statistics, logs and the identification only. *)
Record same_tables (s s' : net) : Prop := {
  sm_routes : n_miniroutes s' = n_miniroutes s;
  sm_frags : n_frags s' = n_frags s;
  sm_udp : n_udp s' = n_udp s }.

Lemma same_tables_refl s : same_tables s s.
Proof. done. Qed.

Section Transmission.
Context (a : arch) (e : net_env).

Lemma pshdr_chksum_holds b len ident proto csum src dest seg c :
  iob_holds b (ip_header len ident proto csum src dest ++ seg) ->
  ipv4_pshdr_chksum b c = Some (generic_tcpip_continue_chksum c (ip_pseudo src dest proto (zlen seg))).
Proof.
  intros H. unfold ipv4_pshdr_chksum.
  rewrite (iob_read_at b [] [0x45] (([0] ++ be16 len ++ be16 ident ++ [0; 0] ++ [IP_TTL; proto] ++ le16 csum ++ be32 src ++ be32 dest) ++ seg) H : iob_read b 0 1 = _).
  rewrite (iob_read_at b ([0x45; 0] ++ be16 len ++ be16 ident ++ [0; 0] ++ [IP_TTL; proto] ++ le16 csum) (be32 src) (be32 dest ++ seg) H : iob_read b 12 4 = _).
  rewrite (iob_read_at b ([0x45; 0] ++ be16 len ++ be16 ident ++ [0; 0] ++ [IP_TTL; proto] ++ le16 csum ++ be32 src) (be32 dest) seg H : iob_read b 16 4 = _).
  rewrite (iob_read_at b ([0x45; 0] ++ be16 len ++ be16 ident ++ [0; 0] ++ [IP_TTL]) [proto] ((le16 csum ++ be32 src ++ be32 dest) ++ seg) H : iob_read b 9 1 = _).
  rewrite (iob_holds_len _ _ H), zlen_app. change (zlen (ip_header len ident proto csum src dest)) with 20.
  change (Z.land (be_val [0x45]) IP_MASK_HLEN * 4) with 20. by replace (20 + zlen seg - 20) with (zlen seg) by lia.
Qed.

(** The segment with its checksum completed. *)
Definition fixed_segment (trans : option Z) (zero src dest proto : Z) (seg seg' : list Z) : Prop :=
  match trans with
  | None => seg' = seg
  | Some off => exists x old y, seg = x ++ le16 old ++ y /\ zlen x = off /\ 0 <= old <= 0xffff
      /\ let c := generic_tcpip_continue_chksum old (ip_pseudo src dest proto (zlen seg)) in
         seg' = x ++ le16 (if c =? 0 then zero else c) ++ y
  end.

Lemma fix_trans_csum_holds b len ident proto src dest seg seg' zero off :
  iob_holds b (ip_header len ident proto 0 src dest ++ seg) -> fixed_segment (Some off) zero src dest proto seg seg' ->
  exists b', fix_trans_csum b zero (IPHDR_LEN + off) = Some b' /\ iob_holds b' (ip_header len ident proto 0 src dest ++ seg') /\ iob_len b' = iob_len b.
Proof.
  intros H (x & old & y & -> & <- & Ho & ->). unfold fix_trans_csum. set (h := ip_header len ident proto 0 src dest) in *.
  assert (Hh : zlen h = 20) by done. replace (IPHDR_LEN + zlen x) with (zlen (h ++ x)) by (rewrite zlen_app, Hh; done).
  assert (H' : iob_holds b ((h ++ x) ++ le16 old ++ y)) by (by rewrite <- app_assoc).
  change 2 with (zlen (le16 old)) at 1. rewrite (iob_read_at b (h ++ x) (le16 old) y H'). rewrite le16_val_le16 by done.
  rewrite (pshdr_chksum_holds b len ident proto 0 src dest _ old H).
  destruct (iob_write_holds b (h ++ x) (le16 old) (le16 (if generic_tcpip_continue_chksum old (ip_pseudo src dest proto (zlen (x ++ le16 old ++ y))) =? 0 then zero
    else generic_tcpip_continue_chksum old (ip_pseudo src dest proto (zlen (x ++ le16 old ++ y))))) y H' eq_refl) as (b' & E & Hb & _).
  exists b'. split; [exact E|]. split; [by rewrite <- app_assoc in Hb|]. rewrite (iob_holds_len _ _ Hb), (iob_holds_len _ _ H'), !zlen_app. done.
Qed.

Lemma ipv4_tx_routed s b proto zero st_src st_dest netdev trans seg seg' dev src hop mask :
  iob_holds b seg -> IPHDR_LEN <= io_data b ->
  tx_choice e s st_src st_dest netdev = Some (dev, src, hop, mask) ->
  fixed_segment trans zero src (sin_addr st_dest) proto seg seg' ->
  exists ident s' rc, ipv4_tx a e s b proto zero st_src st_dest netdev trans = Some (s', rc) /\ same_tables s s' /\ n_rcvd s' = n_rcvd s
    /\ match tx_ll e dev src hop mask with
       | Ok ll => rc = ev_tx e /\ n_sent s' = n_sent s ++ [Transmission dev ll (ip_packet (IPHDR_LEN + zlen seg) ident proto src (sin_addr st_dest) seg')]
       | Err err => rc = Err err /\ n_sent s' = n_sent s
       end.
Proof.
  intros Hb Hd Hc Hf. unfold ipv4_tx. destruct (iob_push_holds b seg IPHDR_LEN Hb ltac:(unfold IPHDR_LEN in *; lia)) as (b1 & x & -> & Hx & H1 & _).
  rewrite (iob_holds_len _ _ H1), zlen_app, Hx. set (dest := sin_addr st_dest) in *. set (len := IPHDR_LEN + zlen seg) in *.
  destruct (iob_write_holds b1 [] x (ip_header len 0 proto 0 0 dest) seg H1 ltac:(apply Nat2Z.inj; rewrite Hx; done)) as (b2 & E2 & H2 & _).
  change (iob_write b1 0 ([Z.lor IP_VER (IPHDR_LEN / 4); IP_TOS] ++ be16 len ++ [0; 0] ++ [0; 0] ++ [IP_TTL; proto] ++ [0; 0] ++ [0; 0; 0; 0] ++ be32 dest))
    with (iob_write b1 0 (ip_header len 0 proto 0 0 dest)). rewrite (E2 : iob_write b1 0 _ = _).
  unfold tx_choice in Hc. fold dest in Hc. cbn [n_miniroutes stat set_stats] in *.
  set (route := if negb (dest =? INADDR_BROADCAST) then _ else None) in *.
  set (src' := match route with Some (m, _) => mr_address m | None => _ end). set (hop' := match route with Some (_, h) => h | None => dest end).
  set (mask' := match route with Some (m, _) => mr_netmask m | None => 0 end).
  assert (Ec : src' = src /\ hop' = hop /\ mask' = mask /\ (match route with Some (m, _) => Some (mr_netdev m) | None => netdev end) = Some dev).
  { subst src' hop' mask'. destruct route as [[m hop0]|]; [by injection Hc as <- <- <- <-|]. destruct netdev; [by injection Hc as <- <- <- <-|done]. }
  destruct Ec as (-> & -> & -> & ->).
  destruct (iob_write_holds b2 ([0x45; 0] ++ be16 len ++ be16 0 ++ [0; 0] ++ [IP_TTL; proto] ++ le16 0) (be32 0) (be32 src) (be32 dest ++ seg) H2 eq_refl) as (b3 & E3 & H3 & _).
  rewrite (E3 : iob_write b2 12 _ = _). cbn [n_ident_high set_ident_high stat set_stats]. set (ident := Z.lor _ _).
  destruct (iob_write_holds b3 ([0x45; 0] ++ be16 len) (be16 0) (be16 ident) (([0; 0] ++ [IP_TTL; proto] ++ le16 0 ++ be32 src ++ be32 dest) ++ seg) H3 eq_refl) as (b4 & E4 & H4 & _).
  rewrite (E4 : iob_write b3 4 _ = _).
  assert (Hfix : exists b5, match trans with Some off => fix_trans_csum b4 zero (IPHDR_LEN + off) | None => Some b4 end = Some b5
    /\ iob_holds b5 (ip_header len ident proto 0 src dest ++ seg') /\ iob_len b5 = iob_len b4).
  { destruct trans as [off|]; [by apply (fix_trans_csum_holds b4 len ident proto src dest seg seg')|]. cbn in Hf. subst seg'. by exists b4. }
  destruct Hfix as (b5 & -> & H5 & L5). rewrite (iob_read_at b5 [] (ip_header len ident proto 0 src dest) seg' H5 : iob_read b5 0 IPHDR_LEN = _).
  set (c := tcpip_chksum _).
  destruct (iob_write_holds b5 ([0x45; 0] ++ be16 len ++ be16 ident ++ [0; 0] ++ [IP_TTL; proto]) (le16 0) (le16 c) ((be32 src ++ be32 dest) ++ seg') H5 eq_refl)
    as (b6 & E6 & H6 & _).
  rewrite (E6 : iob_write b5 10 _ = _), (iob_bytes_holds _ _ H6). exists ident.
  change (([69; 0] ++ be16 len ++ be16 ident ++ [0; 0] ++ [IP_TTL; proto]) ++ le16 c ++ (be32 src ++ be32 dest) ++ seg')
    with (ip_packet len ident proto src dest seg').
  unfold tx_ll. destruct (_ =? 0); [do 2 eexists; by split|].
  destruct (IN_IS_MULTICAST hop); [|do 2 eexists; by split]. destruct (nd_mc_hash _ hop) as [hash|err]; do 2 eexists; by split.
Qed.

Lemma ipv4_tx_sends s b proto zero st_src st_dest netdev trans seg seg' dev src hop mask ll :
  iob_holds b seg -> IPHDR_LEN <= io_data b ->
  tx_choice e s st_src st_dest netdev = Some (dev, src, hop, mask) -> tx_ll e dev src hop mask = Ok ll ->
  fixed_segment trans zero src (sin_addr st_dest) proto seg seg' ->
  exists ident s', ipv4_tx a e s b proto zero st_src st_dest netdev trans = Some (s', ev_tx e) /\ same_tables s s' /\ n_rcvd s' = n_rcvd s
    /\ n_sent s' = n_sent s ++ [Transmission dev ll (ip_packet (IPHDR_LEN + zlen seg) ident proto src (sin_addr st_dest) seg')].
Proof.
  intros Hb Hd Hc Hll Hf. destruct (ipv4_tx_routed s b proto zero st_src st_dest netdev trans seg seg' dev src hop mask Hb Hd Hc Hf) as (ident & s' & rc & E & S1 & S2 & S3).
  rewrite Hll in S3. destruct S3 as [-> S3]. by exists ident, s'.
Qed.

Lemma ipv4_tx_unrouted s b proto zero st_src st_dest netdev trans seg :
  iob_holds b seg -> IPHDR_LEN <= io_data b -> tx_choice e s st_src st_dest netdev = None ->
  exists s', ipv4_tx a e s b proto zero st_src st_dest netdev trans = Some (s', Err ENETUNREACH) /\ same_tables s s' /\ n_rcvd s' = n_rcvd s /\ n_sent s' = n_sent s.
Proof.
  intros Hb Hd Hc. unfold ipv4_tx. destruct (iob_push_holds b seg IPHDR_LEN Hb ltac:(unfold IPHDR_LEN in *; lia)) as (b1 & x & -> & Hx & H1 & _).
  set (hdr := [Z.lor IP_VER (IPHDR_LEN / 4); IP_TOS] ++ _).
  destruct (iob_write_holds b1 [] x hdr seg H1 ltac:(apply Nat2Z.inj; rewrite Hx; done)) as (b2 & E2 & H2 & _). rewrite (E2 : iob_write b1 0 _ = _).
  unfold tx_choice in Hc. cbn [n_miniroutes stat set_stats] in *. set (route := if negb _ then _ else None) in *. destruct route as [[m hop]|]; [done|].
  destruct netdev; [done|]. set (src := match st_src with Some st => _ | None => 0 end).
  destruct (iob_write_holds b2 (take 12 hdr) (take 4 (drop 12 hdr)) (be32 src) (drop 16 hdr ++ seg) H2 eq_refl) as (b3 & E3 & _).
  rewrite (E3 : iob_write b2 12 _ = _). eexists. by split.
Qed.

End Transmission.

Section Udp.
Context (a : arch) (other_tx : Z -> option (net_env -> net -> io_buffer -> Z -> Z -> option sockaddr_tcpip -> sockaddr_tcpip -> option Z -> option Z -> netres)).
Context (other_rx : list (Z * (net_env -> net -> io_buffer -> Z -> sockaddr_tcpip -> sockaddr_tcpip -> Z -> netres))).

Lemma udp_segment_bytes sport dport len c data : bytes_ok data -> bytes_ok (udp_segment sport dport len c data).
Proof. intros. unfold udp_segment. repeat (apply Forall_app; split); try apply be16_bytes; try apply le16_bytes; done. Qed.

Lemma udp_segment_len sport dport len c data : zlen (udp_segment sport dport len c data) = UDPHDR_LEN + zlen data.
Proof. unfold udp_segment, UDPHDR_LEN, be16, le16. rewrite !zlen_app. cbn [length]. lia. Qed.

Lemma udp_tx_sends e s udp b src dest netdev data dev ip_src hop mask ll :
  let st_src := default (uc_local udp) src in
  let st_dest := default (uc_peer udp) dest in
  iob_holds b data -> MAX_LL_NET_HEADER_LEN <= io_data b -> st_family st_dest = AF_INET -> bytes_ok data ->
  tx_choice e s (Some st_src) st_dest netdev = Some (dev, ip_src, hop, mask) -> tx_ll e dev ip_src hop mask = Ok ll ->
  let len := UDPHDR_LEN + zlen data in
  let sport := st_port st_src in let dport := st_port st_dest in let ip_dest := sin_addr st_dest in
  exists ident s', udp_tx a other_tx e s udp b src dest netdev = Some (s', ev_tx e) /\ same_tables s s' /\ n_rcvd s' = n_rcvd s
    /\ n_sent s' = n_sent s ++ [Transmission dev ll (ip_packet (IPHDR_LEN + len) ident IP_UDP ip_src ip_dest
                                                      (udp_segment sport dport len (udp_csum ip_src ip_dest sport dport len data) data))].
Proof.
  intros st_src st_dest Hb Hd Hfam Hdata Hc Hll len sport dport ip_dest. unfold udp_tx, iob_ensure_headroom, iob_headroom.
  rewrite (proj2 (Z.leb_le _ _)) by done. fold st_src st_dest. unfold MAX_LL_NET_HEADER_LEN in Hd.
  destruct (iob_push_holds b data UDPHDR_LEN Hb ltac:(unfold UDPHDR_LEN; lia)) as (b1 & x & -> & Hx & H1 & D1 & _).
  rewrite (iob_holds_len _ _ H1), zlen_app, Hx. fold len sport dport.
  destruct (iob_write_holds b1 [] x (be16 sport ++ be16 dport ++ be16 len ++ [0; 0]) data H1 ltac:(apply Nat2Z.inj; rewrite Hx; done)) as (b2 & E2 & H2 & D2 & _).
  rewrite (E2 : iob_write b1 0 _ = _). cbn [app] in H2.
  change (iob_holds b2 (udp_segment sport dport len 0 data)) in H2.
  assert (Hl : zlen (udp_segment sport dport len 0 data) = len) by apply udp_segment_len.
  pose proof (iob_read_at b2 [] (udp_segment sport dport len 0 data) [] ltac:(by rewrite app_nil_r)) as Hr. rewrite Hl in Hr.
  rewrite (Hr : iob_read b2 0 len = _).
  set (c := tcpip_chksum _).
  destruct (iob_write_holds b2 (be16 sport ++ be16 dport ++ be16 len) (le16 0) (le16 c) data H2 eq_refl) as (b3 & E3 & H3 & D3 & _).
  rewrite (E3 : iob_write b2 6 _ = _). unfold tcpip_tx, tcpip_net_protocol. rewrite Hfam. change (AF_INET =? AF_INET) with true. cbv iota.
  destruct (continue_chksum_spec 0 (udp_segment sport dport len 0 data) ltac:(lia) (udp_segment_bytes _ _ _ _ _ Hdata)) as [Hcr _].
  destruct (ipv4_tx_sends a e s b3 IP_UDP TCPIP_NEGATIVE_ZERO_CSUM (Some st_src) st_dest netdev (Some 6) (udp_segment sport dport len c data)
    (udp_segment sport dport len (udp_csum ip_src ip_dest sport dport len data) data) dev ip_src hop mask ll H3) as (ident & s' & E & S1 & S2 & S3).
  - unfold IPHDR_LEN. rewrite D3, D2, D1. unfold UDPHDR_LEN. lia.
  - done.
  - done.
  - exists (be16 sport ++ be16 dport ++ be16 len), c, data. split; [done|]. split; [done|]. split; [exact Hcr|]. cbv zeta. rewrite udp_segment_len. reflexivity.
  - exists ident, s'. split; [exact E|]. split; [done|]. split; [done|]. rewrite udp_segment_len in S3. exact S3.
Qed.

(** ** Reception *)

Definition accepted (s : net) (netdev flags dest : Z) : Prop :=
  Z.land flags LL_MULTICAST <> 0 \/ dest = INADDR_BROADCAST \/ ipv4_has_any_addr s netdev = false \/ ipv4_has_addr s netdev dest = true.

Lemma ipv4_rx_unfragmented e s b netdev flags ident proto src dest seg pad :
  let len := IPHDR_LEN + zlen seg in
  iob_holds b (ip_packet len ident proto src dest seg ++ pad) -> len <= 0xffff -> byte_ok proto -> 0 <= src < 2 ^ 32 -> 0 <= dest < 2 ^ 32 ->
  accepted s netdev flags dest ->
  exists s1 b1, ipv4_rx a other_tx other_rx e s b netdev flags
      = tcpip_rx a other_tx other_rx e s1 b1 netdev proto (sin_of src) (sin_of dest) (generic_tcpip_continue_chksum TCPIP_EMPTY_CSUM (ip_pseudo src dest proto (zlen seg)))
    /\ iob_holds b1 seg /\ io_data b1 = io_data b + IPHDR_LEN /\ same_tables s s1 /\ n_sent s1 = n_sent s /\ n_rcvd s1 = n_rcvd s.
Proof.
  intros len Hb Hlen Hp Hs Hd Hacc. unfold ipv4_rx. set (s0 := if negb (Z.land flags LL_BROADCAST =? 0) then _ else _).
  assert (Hs0 : same_tables s s0 /\ n_sent s0 = n_sent s /\ n_rcvd s0 = n_rcvd s) by (subst s0; repeat case_match; done).
  destruct (ip_header_verifies len ident proto src dest Hp) as [Hc1 Hc2]. set (c := tcpip_chksum (ip_header len ident proto 0 src dest)) in *.
  unfold ip_packet in Hb. fold c in Hb. set (h := ip_header len ident proto c src dest) in *. rewrite <- app_assoc in Hb.
  assert (Hl : iob_len b = 20 + zlen seg + zlen pad) by (rewrite (iob_holds_len _ _ Hb), !zlen_app; change (zlen h) with 20; lia).
  rewrite Hl, (proj2 (Z.ltb_ge _ IPHDR_LEN)) by (unfold IPHDR_LEN; lia).
  rewrite (iob_read_at b [] [0x45] (([0] ++ be16 len ++ be16 ident ++ [0; 0] ++ [IP_TTL; proto] ++ le16 c ++ be32 src ++ be32 dest) ++ seg ++ pad) Hb : iob_read b 0 1 = _).
  change (Z.land (be_val [69]) IP_MASK_VER =? IP_VER) with true. change (Z.land (be_val [69]) IP_MASK_HLEN * 4) with IPHDR_LEN. cbn [negb].
  change (IPHDR_LEN <? IPHDR_LEN) with false. rewrite (proj2 (Z.ltb_ge _ IPHDR_LEN)) by (unfold IPHDR_LEN; lia). cbv iota.
  rewrite (iob_read_at b [] h (seg ++ pad) Hb : iob_read b 0 IPHDR_LEN = _). rewrite Hc2. change (negb (0 =? 0)) with false. cbv iota.
  rewrite (iob_read_at b [0x45; 0] (be16 len) ((be16 ident ++ [0; 0] ++ [IP_TTL; proto] ++ le16 c ++ be32 src ++ be32 dest) ++ seg ++ pad) Hb : iob_read b 2 2 = _).
  rewrite be16_val, Z.mod_small by (unfold len, IPHDR_LEN in *; lia). rewrite !(proj2 (Z.ltb_ge _ _)) by (unfold len, IPHDR_LEN; lia).
  replace (20 + zlen seg + zlen pad - len) with (zlen pad) by (unfold len, IPHDR_LEN; lia).
  destruct (iob_unput_holds b (h ++ seg) pad ltac:(by rewrite <- app_assoc)) as (b1 & -> & H1 & D1 & _).
  rewrite (iob_read_at b1 ([0x45; 0] ++ be16 len ++ be16 ident ++ [0; 0] ++ [IP_TTL; proto] ++ le16 c ++ be32 src) (be32 dest) seg H1 : iob_read b1 16 4 = _).
  rewrite be32_val, (Z.mod_small dest) by lia.
  assert (Hok : ((Z.land flags LL_MULTICAST =? 0) && negb (dest =? INADDR_BROADCAST) && ipv4_has_any_addr s0 netdev && negb (ipv4_has_addr s0 netdev dest)) = false).
  { destruct Hs0 as ([Er _ _] & _). unfold ipv4_has_any_addr, ipv4_has_addr in *. rewrite Er. unfold accepted in Hacc.
    destruct Hacc as [H|[->|[H|H]]]; [rewrite (proj2 (Z.eqb_neq _ _)) by done; done|by rewrite Z.eqb_refl, andb_false_r| |].
    - unfold ipv4_has_any_addr in H. by rewrite H, andb_false_r.
    - unfold ipv4_has_addr in H. by rewrite H, andb_false_r. }
  rewrite Hok.
  rewrite (iob_read_at b1 ([0x45; 0] ++ be16 len ++ be16 ident) [0; 0] (([IP_TTL; proto] ++ le16 c ++ be32 src ++ be32 dest) ++ seg) H1 : iob_read b1 6 2 = _).
  change (Z.land (be_val [0; 0]) (Z.lor IP_MASK_OFFSET IP_MASK_MOREFRAGS) =? 0) with true. cbn [negb]. unfold ipv4_deliver.
  rewrite (iob_read_at b1 ([0x45; 0] ++ be16 len ++ be16 ident ++ [0; 0] ++ [IP_TTL; proto] ++ le16 c) (be32 src) (be32 dest ++ seg) H1 : iob_read b1 12 4 = _).
  rewrite (iob_read_at b1 ([0x45; 0] ++ be16 len ++ be16 ident ++ [0; 0] ++ [IP_TTL; proto] ++ le16 c ++ be32 src) (be32 dest) seg H1 : iob_read b1 16 4 = _).
  rewrite (pshdr_chksum_holds b1 len ident proto c src dest seg TCPIP_EMPTY_CSUM H1).
  rewrite (iob_read_at b1 ([0x45; 0] ++ be16 len ++ be16 ident ++ [0; 0] ++ [IP_TTL]) [proto] ((le16 c ++ be32 src ++ be32 dest) ++ seg) H1 : iob_read b1 9 1 = _).
  destruct (iob_pull_holds b1 h seg H1) as (b2 & E2 & H2 & D2 & _). rewrite (E2 : iob_pull b1 IPHDR_LEN = _).
  rewrite !be32_val, (Z.mod_small src), (Z.mod_small dest) by lia. exists s0, b2. split; [done|]. split; [done|]. split; [|done].
  rewrite D2, D1. done.
Qed.

Lemma udp_rx_receives e s b netdev st_src st_dest src dest sport dport data udp :
  let len := UDPHDR_LEN + zlen data in
  iob_holds b (udp_segment sport dport len (udp_csum src dest sport dport len data) data) -> len <= 0xffff -> bytes_ok data ->
  0 <= sport < 2 ^ 16 -> 0 <= dport < 2 ^ 16 -> udp_demux s (set_port dport st_dest) = Some udp ->
  udp_rx e s b netdev st_src st_dest (generic_tcpip_continue_chksum TCPIP_EMPTY_CSUM (ip_pseudo src dest IP_UDP len))
  = Some (set_rcvd (n_rcvd s ++ [UdpData (uc_id udp) data (set_port sport st_src) (set_port dport st_dest)]) s, ev_deliver e).
Proof.
  intros len Hb Hlen Hdata Hsp Hdp Hudp. unfold udp_rx. set (c := udp_csum src dest sport dport len data) in *.
  rewrite (iob_holds_len _ _ Hb), udp_segment_len, (proj2 (Z.ltb_ge _ UDPHDR_LEN)) by lia. fold len.
  rewrite (iob_read_at b (be16 sport ++ be16 dport) (be16 len) (le16 c ++ data) Hb : iob_read b 4 2 = _).
  rewrite be16_val, (Z.mod_small len) by (unfold len, UDPHDR_LEN in *; lia). rewrite (proj2 (Z.ltb_ge _ UDPHDR_LEN)), Z.ltb_irrefl by (unfold len; lia).
  rewrite (iob_read_at b (be16 sport ++ be16 dport ++ be16 len) (le16 c) data Hb : iob_read b 6 2 = _).
  pose proof (iob_read_at b [] (udp_segment sport dport len c data) [] ltac:(by rewrite app_nil_r)) as Hr. rewrite udp_segment_len in Hr.
  rewrite (Hr : iob_read b 0 len = _).
  pose proof (udp_csum_verifies src dest sport dport len data Hdata) as Hv. fold c in Hv. rewrite Hv, andb_false_r.
  rewrite (iob_read_at b [] (be16 sport) (be16 dport ++ be16 len ++ le16 c ++ data) Hb : iob_read b 0 2 = _).
  rewrite (iob_read_at b (be16 sport) (be16 dport) (be16 len ++ le16 c ++ data) Hb : iob_read b 2 2 = _).
  rewrite !be16_val, !Z.mod_small by lia. rewrite Hudp, Z.sub_diag.
  destruct (iob_unput_holds b (udp_segment sport dport len c data) [] ltac:(by rewrite app_nil_r)) as (b1 & E1 & H1 & _). rewrite (E1 : iob_unput b 0 = _).
  destruct (iob_pull_holds b1 (be16 sport ++ be16 dport ++ be16 len ++ le16 c) data H1) as (b2 & E2 & H2 & _). rewrite (E2 : iob_pull b1 UDPHDR_LEN = _).
  by rewrite (iob_bytes_holds _ _ H2).
Qed.
Lemma same_tables_trans s s' s'' : same_tables s s' -> same_tables s' s'' -> same_tables s s''.
Proof. intros [A1 A2 A3] [B1 B2 B3]. constructor; congruence. Qed.

Lemma udp_demux_same s s' local : same_tables s s' -> udp_demux s' local = udp_demux s local.
Proof. intros [_ _ H]. unfold udp_demux. by rewrite H. Qed.
End Udp.
