(* ===== verification/Ipv4Rx.v ===== *)
(** * Reception of IPv4: arbitrary frames, fragments, echo requests

    [ipv4_rx_cases] says what the checks of [ipv4_rx] let through.  From it
    follow that reception is safe on arbitrary frames, that fragments which
    arrive in order are handled like the packet they were cut from, and what
    becomes of echo requests.  At the end: routing, ports, dotted addresses. *)
From stdpp Require Import gmap.
From S2P Require Import Prelude Strings Memory Tcpip Iobuf Fragment Dns Printf Tftp Ipv4 Ipv4Udp.

#[local] Opaque generic_tcpip_continue_chksum.

(** A datagram (without padding) that passes the checks, and the length of its
    header. *)
Record frame_ok (s : net) (netdev flags : Z) (d : list Z) (h : Z) : Prop := {
  fk_len : 20 <= h <= zlen d;
  fk_ver : Z.land (be_val (slice d 0 1)) IP_MASK_VER = IP_VER;
  fk_hlen : Z.land (be_val (slice d 0 1)) IP_MASK_HLEN * 4 = h;
  fk_csum : tcpip_chksum (slice d 0 h) = 0;
  fk_total : be_val (slice d 2 2) = zlen d;
  fk_dest : accepted s netdev flags (be_val (slice d 16 4)) }.

(** The datagram is a fragment. *)
Definition fragmented (d : list Z) : bool := negb (Z.land (be_val (slice d 6 2)) (Z.lor IP_MASK_OFFSET IP_MASK_MOREFRAGS) =? 0).

Lemma frame_ok_unique s netdev flags d1 p1 h1 d2 p2 h2 :
  d1 ++ p1 = d2 ++ p2 -> frame_ok s netdev flags d1 h1 -> frame_ok s netdev flags d2 h2 -> d1 = d2 /\ p1 = p2 /\ h1 = h2.
Proof.
  intros E [A1 A2 A3 A4 A5 A6] [B1 B2 B3 B4 B5 B6]. rewrite <- (slice_app d1 p1 2 2), E, slice_app, B5 in A5 by lia.
  apply app_inj_1 in E as [-> ->]; [|lia]. split; [done|]. split; [done|]. by rewrite <- A3, <- B3.
Qed.

Section Rx.
Context (a : arch) (other_tx : Z -> option (net_env -> net -> io_buffer -> Z -> Z -> option sockaddr_tcpip -> sockaddr_tcpip -> option Z -> option Z -> netres)).
Context (other_rx : list (Z * (net_env -> net -> io_buffer -> Z -> sockaddr_tcpip -> sockaddr_tcpip -> Z -> netres))).

(** What follows the checks. *)
Definition ipv4_checked (e : net_env) (s : net) (b : io_buffer) (netdev h : Z) (frag : bool) : netres :=
  if frag then
    opt! (fr, st, out) := fragment_reassemble a ipv4_reassembler (ev_frag e) (n_frags s) (n_stats s) b h in
    let s := set_stats st (set_frags fr s) in
    match out with
    | None => Some (s, Ok tt)
    | Some (b, h) => ipv4_deliver a other_tx other_rx e s b netdev h
    end
  else ipv4_deliver a other_tx other_rx e s b netdev h.

(** A state with the same tables and logs. *)
Definition same_logs (s s' : net) : Prop := same_tables s s' /\ n_sent s' = n_sent s /\ n_rcvd s' = n_rcvd s.

Lemma accepted_bool s s0 netdev flags dest : same_logs s s0 ->
  (Z.land flags LL_MULTICAST =? 0) && negb (dest =? INADDR_BROADCAST) && ipv4_has_any_addr s0 netdev && negb (ipv4_has_addr s0 netdev dest) = false
  <-> accepted s netdev flags dest.
Proof.
  intros ([Er _ _] & _). unfold accepted, ipv4_has_any_addr, ipv4_has_addr. rewrite Er.
  destruct (Z.eqb_spec (Z.land flags LL_MULTICAST) 0), (Z.eqb_spec dest INADDR_BROADCAST), (existsb (fun m => mr_netdev m =? netdev) _), (existsb _ _);
    cbn; intuition congruence.
Qed.

Lemma ipv4_rx_cases e s b d netdev flags : iob_holds b d ->
  exists s1, same_logs s s1
    /\ (ipv4_rx a other_tx other_rx e s b netdev flags = Some (s1, Err EINVAL) /\ (forall d1 pad h, d = d1 ++ pad -> frame_ok s netdev flags d1 h -> False)
        \/ exists d1 pad h b1, d = d1 ++ pad /\ frame_ok s netdev flags d1 h /\ iob_holds b1 d1 /\ io_data b1 = io_data b
           /\ ipv4_rx a other_tx other_rx e s b netdev flags = ipv4_checked e s1 b1 netdev h (fragmented d1)).
Proof.
  intros Hb. unfold ipv4_rx. set (s0 := if negb (Z.land flags LL_BROADCAST =? 0) then _ else _).
  assert (Hs0 : same_logs s s0) by (subst s0; unfold same_logs; repeat case_match; done).
  assert (Hrej : forall c, (forall d1 pad h, d = d1 ++ pad -> frame_ok s netdev flags d1 h -> False) ->
    exists s1, same_logs s s1 /\ (Some (stat a c 1 s0, Err EINVAL) = Some (s1, @Err unit EINVAL) /\ (forall d1 pad h, d = d1 ++ pad -> frame_ok s netdev flags d1 h -> False)
        \/ exists d1 pad h b1, d = d1 ++ pad /\ frame_ok s netdev flags d1 h /\ iob_holds b1 d1 /\ io_data b1 = io_data b
           /\ Some (stat a c 1 s0, Err EINVAL) = ipv4_checked e s1 b1 netdev h (fragmented d1))).
  { intros c Hno. exists (stat a c 1 s0). split; [by destruct Hs0 as ([] & ? & ?)|]. by left. }
  rewrite (iob_holds_len _ _ Hb). unfold IPHDR_LEN. case_if.
  { apply Hrej. intros d1 pad h -> [F1 _ _ _ _ _]. rewrite zlen_app in *. lia. }
  rewrite !(iob_read_slice _ _ _ _ Hb) by lia.
  assert (Hsl : forall d1 pad h off n, d = d1 ++ pad -> frame_ok s netdev flags d1 h -> 0 <= off -> off + n <= h -> slice d1 off n = slice d off n).
  { intros d1 pad h off n -> [F1 _ _ _ _ _] H1 H2. by rewrite slice_app by lia. }
  case_if.
  { apply Hrej. intros d1 pad h E F. pose proof (Hsl d1 pad h 0 1 E F ltac:(lia) ltac:(destruct F; lia)) as E1. destruct F as [_ F _ _ _ _]. by rewrite E1 in F. }
  set (h := Z.land (be_val (slice d 0 1)) IP_MASK_HLEN * 4) in *.
  assert (Hh : forall d1 pad h', d = d1 ++ pad -> frame_ok s netdev flags d1 h' -> h' = h).
  { intros d1 pad h' E F. pose proof (Hsl d1 pad h' 0 1 E F ltac:(lia) ltac:(destruct F; lia)) as E1. destruct F as [_ _ F _ _ _]. by rewrite E1 in F. }
  case_if. { apply Hrej. intros d1 pad h' E F. rewrite (Hh _ _ _ E F) in F. destruct F. lia. }
  case_if. { apply Hrej. intros d1 pad h' E F. rewrite (Hh _ _ _ E F) in F. destruct F as [F _ _ _ _ _]. subst d. rewrite zlen_app in *. lia. }
  rewrite (iob_read_slice _ _ _ _ Hb) by lia. case_if.
  { apply Hrej. intros d1 pad h' E F. rewrite (Hh _ _ _ E F) in F. pose proof (Hsl d1 pad h 0 h E F ltac:(lia) ltac:(lia)) as E1. destruct F as [_ _ _ F _ _].
    by rewrite E1 in F. }
  rewrite !(iob_read_slice _ _ _ _ Hb) by lia. set (len := be_val (slice d 2 2)) in *.
  assert (Hl : forall d1 pad h', d = d1 ++ pad -> frame_ok s netdev flags d1 h' -> zlen d1 = len).
  { intros d1 pad h' E F. pose proof (Hsl d1 pad h' 2 2 E F ltac:(lia) ltac:(destruct F; lia)) as E1. destruct F as [_ _ _ _ F _]. by rewrite E1 in F. }
  case_if. { apply Hrej. intros d1 pad h' E F. pose proof (Hl _ _ _ E F). rewrite (Hh _ _ _ E F) in F. destruct F. lia. }
  case_if. { apply Hrej. intros d1 pad h' E F. pose proof (Hl _ _ _ E F). subst d. rewrite zlen_app in *. lia. }
  assert (Hd : d = take (Z.to_nat len) d ++ drop (Z.to_nat len) d) by by rewrite take_drop.
  assert (Hd1 : zlen (take (Z.to_nat len) d) = len) by (rewrite length_take; lia).
  set (d1 := take (Z.to_nat len) d) in *. set (pad := drop (Z.to_nat len) d) in *.
  destruct (iob_unput_holds b d1 pad ltac:(by rewrite <- Hd)) as (b1 & E1 & H1 & D1 & _).
  replace (zlen pad) with (zlen d - len) in E1 by (rewrite Hd, zlen_app; lia). rewrite E1.
  rewrite !(iob_read_slice _ _ _ _ H1) by lia.
  assert (Hs : forall off n, 0 <= off -> off + n <= h -> slice d1 off n = slice d off n) by (intros; rewrite Hd; rewrite slice_app; [done|lia|lia]).
  match goal with |- context [if ?c then Some (stat a in_addr_errors 1 s0, _) else _] => destruct c eqn:Ec end.
  { apply Hrej. intros d2 pad2 h2 E2 F2. assert (d2 = d1) as -> by (pose proof (Hl _ _ _ E2 F2); assert (E3 : d1 ++ pad = d2 ++ pad2) by congruence; apply app_inj_1 in E3 as [E3 _]; [done|lia]).
    destruct F2 as [_ _ _ _ _ F2]. apply (accepted_bool s s0) in F2; [|done]. congruence. }
  exists s0. split; [done|]. right. exists d1, pad, h, b1. split; [done|]. split; [|done].
  constructor; [lia|by rewrite Hs by lia|by rewrite Hs by lia|by rewrite Hs by lia|by rewrite Hs by lia|by apply (accepted_bool s s0)].
Qed.

(** A datagram that passes the checks, with padding. *)
Lemma ipv4_rx_frame e s b d pad h netdev flags : iob_holds b (d ++ pad) -> frame_ok s netdev flags d h ->
  exists s1 b1, same_logs s s1 /\ iob_holds b1 d /\ io_data b1 = io_data b
    /\ ipv4_rx a other_tx other_rx e s b netdev flags = ipv4_checked e s1 b1 netdev h (fragmented d).
Proof.
  intros Hb Hf. destruct (ipv4_rx_cases e s b _ netdev flags Hb) as (s1 & Hs1 & [(_ & Hno)|(d1 & p1 & h1 & b1 & E & F & H1 & D1 & Erx)]).
  - exfalso. by apply (Hno d pad h).
  - destruct (frame_ok_unique _ _ _ _ _ _ _ _ _ E Hf F) as (<- & <- & <-). by exists s1, b1.
Qed.
(** ** Safety *)

(** Tables are left alone; at most one packet is sent or datagram delivered. *)
Record modest (s s' : net) : Prop := {
  mo_tables : same_tables s s';
  mo_logs : exists sent rcvd, n_sent s' = n_sent s ++ sent /\ n_rcvd s' = n_rcvd s ++ rcvd /\ (length sent + length rcvd <= 1)%nat }.

(** What a transport protocol promises: it handles every segment that has been
    stripped of its IP header. *)
Definition transport_safe (rx : net_env -> net -> io_buffer -> Z -> sockaddr_tcpip -> sockaddr_tcpip -> Z -> netres) : Prop :=
  forall e s b d netdev src dest csum, iob_holds b d -> IPHDR_LEN <= io_data b -> st_family src = AF_INET ->
  exists s' rc, rx e s b netdev src dest csum = Some (s', rc) /\ modest s s'.

Lemma modest_none s s' : same_logs s s' -> modest s s'.
Proof. intros (T & S & R). split; [done|]. exists [], []. rewrite S, R, !app_nil_r. split_and!; [done|done|cbn; lia]. Qed.

Lemma modest_after s s0 s' : same_logs s s0 -> modest s0 s' -> modest s s'.
Proof.
  intros (T & S & R) [T' (x & y & S' & R' & H)]. split; [by apply (same_tables_trans s s0)|]. exists x, y. by rewrite S', R', S, R.
Qed.

Lemma modest_rcvd s x : modest s (set_rcvd (n_rcvd s ++ [x]) s).
Proof. split; [done|]. exists [], [x]. rewrite app_nil_r. split_and!; [done|done|cbn; lia]. Qed.

Lemma udp_rx_safe : transport_safe udp_rx.
Proof.
  intros e s b d netdev src dest csum Hb _ _. unfold udp_rx. rewrite (iob_holds_len _ _ Hb). unfold UDPHDR_LEN.
  assert (Hsame : forall rc : res unit, exists s' rc', Some (s, rc) = Some (s', rc') /\ modest s s') by (intros rc; exists s, rc; split; [done|by apply modest_none]).
  case_if; [apply Hsame|]. rewrite !(iob_read_slice _ _ _ _ Hb) by lia. set (ulen := be_val (slice d 4 2)). case_if; [apply Hsame|]. case_if; [apply Hsame|].
  rewrite !(iob_read_slice _ _ _ _ Hb) by lia. match goal with |- context [if ?c then Some _ else _] => destruct c; [apply Hsame|] end.
  set (d1 := take (Z.to_nat ulen) d). assert (Hd1 : zlen d1 = ulen) by (subst d1; rewrite length_take; lia).
  destruct (iob_unput_holds b d1 (drop (Z.to_nat ulen) d) ltac:(by subst d1; rewrite take_drop)) as (b1 & E1 & H1 & _).
  rewrite length_drop in E1. replace (Z.of_nat (length d - Z.to_nat ulen)) with (zlen d - ulen) in E1 by lia. rewrite E1.
  destruct (iob_pull_holds b1 (take 8 d1) (drop 8 d1) ltac:(by rewrite take_drop)) as (b2 & E2 & H2 & _).
  rewrite length_take in E2. replace (Z.of_nat (8 `min` length d1)) with 8 in E2 by lia. rewrite E2.
  destruct (udp_demux s _) as [udp|]; [|apply Hsame]. rewrite (iob_bytes_holds _ _ H2). do 2 eexists. split; [done|]. apply modest_rcvd.
Qed.

Lemma ipv4_tx_safe e s b d proto st_dest : iob_holds b d -> IPHDR_LEN <= io_data b ->
  exists s' rc, ipv4_tx a e s b proto 0 None st_dest None None = Some (s', rc) /\ modest s s'.
Proof.
  intros Hb Hd. destruct (tx_choice e s None st_dest None) as [[[[dev src] hop] mask]|] eqn:Ec.
  - destruct (ipv4_tx_routed a e s b proto 0 None st_dest None None d d dev src hop mask Hb Hd Ec eq_refl) as (ident & s' & rc & -> & T & R & S).
    exists s', rc. split; [done|]. split; [done|]. destruct (tx_ll e dev src hop mask) as [ll|err]; destruct S as [_ S].
    + eexists [_], []. rewrite S, R, app_nil_r. split_and!; [done|done|cbn; lia].
    + exists [], []. rewrite S, R, !app_nil_r. split_and!; [done|done|cbn; lia].
  - destruct (ipv4_tx_unrouted a e s b proto 0 None st_dest None None d Hb Hd Ec) as (s' & -> & T & R & S). do 2 eexists. split; [done|]. by apply modest_none.
Qed.

(** Overwriting a range of the data. *)
Lemma iob_write_range b d off y : iob_holds b d -> 0 <= off -> off + zlen y <= zlen d ->
  exists b', iob_write b off y = Some b' /\ iob_holds b' (take (Z.to_nat off) d ++ y ++ drop (Z.to_nat off + length y) d) /\ io_data b' = io_data b.
Proof.
  intros Hb Ho Hl. set (A := take (Z.to_nat off) d). set (x := take (length y) (drop (Z.to_nat off) d)). set (R := drop (Z.to_nat off + length y) d).
  assert (Hd : d = A ++ x ++ R) by (unfold A, x, R; rewrite <- drop_drop, !take_drop; done). rewrite Hd in Hb.
  destruct (iob_write_holds b A x y R Hb) as (b' & E & H & D & _); [unfold x; rewrite length_take, length_drop; lia|].
  replace (zlen A) with off in E by (unfold A; rewrite length_take; lia). by exists b'.
Qed.

Lemma icmpv4_rx_safe : transport_safe (icmpv4_rx a other_tx).
Proof.
  intros e s b d netdev src dest csum Hb Hd Hfam. unfold icmpv4_rx. rewrite (iob_holds_len _ _ Hb).
  assert (Hsame : forall rc : res unit, exists s' rc', Some (s, rc) = Some (s', rc') /\ modest s s') by (intros rc; exists s, rc; split; [done|by apply modest_none]).
  case_if; [apply Hsame|]. rewrite (iob_bytes_holds _ _ Hb). case_if; [apply Hsame|]. rewrite (iob_read_slice _ _ _ _ Hb) by lia.
  case_if; [|case_if; [|apply Hsame]].
  - unfold icmp_rx_echo_request. rewrite (iob_holds_len _ _ Hb). case_if; [apply Hsame|]. unfold icmp_tx_echo_reply, icmp_tx_echo.
    destruct (iob_write_range b d 0 [ICMP_ECHO_REPLY] Hb ltac:(lia) ltac:(cbn [length]; lia)) as (b1 & -> & H1 & D1). set (d1 := _ ++ _) in H1.
    assert (L1 : zlen d1 = zlen d) by (unfold d1; rewrite !zlen_app, length_take, length_drop; cbn [length]; lia).
    destruct (iob_write_range b1 d1 2 [0; 0] H1 ltac:(lia) ltac:(cbn [length]; lia)) as (b2 & -> & H2 & D2). set (d2 := _ ++ _) in H2.
    assert (L2 : zlen d2 = zlen d) by (unfold d2; rewrite !zlen_app, length_take, length_drop; cbn [length]; lia).
    rewrite (iob_bytes_holds _ _ H2).
    destruct (iob_write_range b2 d2 2 (le16 (tcpip_chksum d2)) H2 ltac:(lia) ltac:(cbn [length le16]; lia)) as (b3 & -> & H3 & D3).
    unfold tcpip_tx, tcpip_net_protocol. rewrite Hfam. change (AF_INET =? AF_INET) with true. cbv iota.
    apply (ipv4_tx_safe e s b3 _ IP_ICMP src H3). lia.
  - unfold icmp_rx_echo_reply. rewrite (iob_holds_len _ _ Hb). case_if; [apply Hsame|]. rewrite (iob_bytes_holds _ _ Hb).
    do 2 eexists. split; [done|]. apply modest_rcvd.
Qed.

Lemma ipv4_deliver_safe e s b d netdev h :
  Forall (fun p => transport_safe p.2) other_rx -> iob_holds b d -> 20 <= h <= zlen d ->
  exists s' rc, ipv4_deliver a other_tx other_rx e s b netdev h = Some (s', rc) /\ modest s s'.
Proof.
  intros Ho Hb Hh. unfold ipv4_deliver. rewrite !(iob_read_slice _ _ _ _ Hb) by lia. unfold ipv4_pshdr_chksum. rewrite !(iob_read_slice _ _ _ _ Hb) by lia.
  destruct (iob_pull_holds b (take (Z.to_nat h) d) (drop (Z.to_nat h) d) ltac:(by rewrite take_drop)) as (b1 & E1 & H1 & D1 & _).
  rewrite length_take, Nat.min_l, Z2Nat.id in E1, D1 by lia. rewrite E1. assert (Hd0 : 0 <= io_data b) by (destruct Hb; lia).
  assert (Hio : IPHDR_LEN <= io_data b1) by (unfold IPHDR_LEN; lia).
  unfold tcpip_rx. destruct (List.find _ _) as [[p rx]|] eqn:Ef.
  - apply List.find_some in Ef as [Hin _]. assert (Hsafe : transport_safe rx).
    { destruct Hin as [[= <- <-]|[[= <- <-]|Hin]]; [apply udp_rx_safe|apply icmpv4_rx_safe|].
      apply list_elem_of_In in Hin. rewrite Forall_forall in Ho. by apply (Ho _ Hin). }
    match goal with |- context [rx ?e ?s ?b ?n ?x ?y ?c] => destruct (Hsafe e s b _ n x y c H1 Hio eq_refl) as (s' & rc & -> & Hm) end.
    exists s', rc. split; [done|]. by apply (modest_after _ (stat a in_delivers 1 s)).
  - do 2 eexists. split; [done|]. by apply modest_none.
Qed.
End Rx.

(** The reassembly buffers are in order. *)
Definition net_ok (s : net) : Prop := exists m, represents ipv4_reassembler (n_frags s) m.

(** C11. Reception of IPv4 is safe.  Whatever the bytes of a frame are, reassembly
    buffers of any other packets in place, [ipv4_rx] returns without an access
    outside a buffer: headers, options, lengths, fragments, UDP and ICMP (the
    answer to an echo request included, which is written over the request and
    its headers).  The routing table and the connections are left alone, at most
    one datagram is delivered or packet sent, and the reassembly buffers are in
    order again.  This holds with any further transport protocols that handle
    every segment. *)
Theorem ipv4_rx_safe a other_tx other_rx e s b d netdev flags :
  Forall (fun p => transport_safe p.2) other_rx -> net_ok s -> iob_env_ok (fe_iob (ev_frag e)) ->
  iob_holds b d -> io_data b + zlen d <= IOB_LIMIT ->
  exists s' rc, ipv4_rx a other_tx other_rx e s b netdev flags = Some (s', rc) /\ net_ok s'
    /\ n_miniroutes s' = n_miniroutes s /\ n_udp s' = n_udp s
    /\ exists sent rcvd, n_sent s' = n_sent s ++ sent /\ n_rcvd s' = n_rcvd s ++ rcvd /\ (length sent + length rcvd <= 1)%nat.
Proof.
  intros Ho (m & Hm) He Hb Hl.
  assert (Hdone : forall s1 s', net_ok s1 -> n_miniroutes s1 = n_miniroutes s -> n_udp s1 = n_udp s -> n_sent s1 = n_sent s -> n_rcvd s1 = n_rcvd s -> modest s1 s' ->
    net_ok s' /\ n_miniroutes s' = n_miniroutes s /\ n_udp s' = n_udp s
    /\ exists sent rcvd, n_sent s' = n_sent s ++ sent /\ n_rcvd s' = n_rcvd s ++ rcvd /\ (length sent + length rcvd <= 1)%nat).
  { intros s1 s' (m1 & H1) E1 E2 E3 E4 [[T1 T2 T3] L]. rewrite T1, T3, E1, E2, <- E3, <- E4. split; [exists m1; by rewrite T2|done]. }
  destruct (ipv4_rx_cases a other_tx other_rx e s b d netdev flags Hb) as (s1 & ([T1 T2 T3] & S1 & R1) & [(-> & _)|(d1 & pad & h & b1 & -> & F & H1 & D1 & ->)]).
  { do 2 eexists. split; [done|]. apply (Hdone s1 s1); try done; [exists m; by rewrite T2|by apply modest_none]. }
  rewrite zlen_app in Hl. unfold ipv4_checked. destruct (fragmented d1).
  - assert (Hp : packet_ok ipv4_reassembler b1 (d1, h)) by (split; cbn; [done|apply F|rewrite D1; lia]). rewrite <- T2 in Hm.
    destruct (reassemble_refines a ipv4_reassembler (ev_frag e) (n_frags s1) (n_stats s1) m b1 (d1, h) Hm Hp He) as (ok & fr & st & out & Er & _ & Hr & Hd).
    cbn [snd] in Er. rewrite Er. destruct out as [[b2 h2]|].
    + unfold delivered in Hd. destruct (assemble _ ok m (d1, h)).2 as [[d2 h']|]; [|done]. destruct Hd as (<- & H2 & Hok & _).
      destruct (ipv4_deliver_safe a other_tx other_rx e (set_stats st (set_frags fr s1)) b2 d2 netdev h2 Ho H2 Hok) as (s' & rc & -> & Hmod).
      exists s', rc. split; [done|]. apply (Hdone (set_stats st (set_frags fr s1)) s'); try done. by eexists.
    + do 2 eexists. split; [done|]. apply (Hdone (set_stats st (set_frags fr s1))); try done; [by eexists|by apply modest_none].
  - destruct (ipv4_deliver_safe a other_tx other_rx e s1 b1 d1 netdev h Ho H1 (fk_len _ _ _ _ _ F)) as (s' & rc & -> & Hmod).
    exists s', rc. split; [done|]. apply (Hdone s1 s'); try done. exists m. by rewrite T2.
Qed.

(** A frame of garbage that begins like an IPv4 header, with TCP segments
    refused. *)
Lemma ipv4_rx_safe_witness :
  let e := NetEnv (fun _ => NetDevice true 0 1500 0 0 (fun _ => Err ENOTSUP)) (FragEnv true plain_env) true 0 (Ok tt) (Ok tt) (Ok tt) in
  let s := Net [] 0 [] (fun _ => 0) [] [] [] in
  let d := [0x4f] ++ replicate 80 7 in
  let tcp := fun (_ : net_env) (s : net) (_ : io_buffer) (_ : Z) (_ _ : sockaddr_tcpip) (_ : Z) => Some (s, Err ENOTSUP) in
  exists s' rc, ipv4_rx Arch32 (fun _ => None) [(6, tcp)] e s (IoBuf (replicate 14 0 ++ d ++ []) 14 (14 + zlen d)) 0 0 = Some (s', rc) /\ net_ok s'
    /\ n_miniroutes s' = n_miniroutes s /\ n_udp s' = n_udp s
    /\ exists sent rcvd, n_sent s' = n_sent s ++ sent /\ n_rcvd s' = n_rcvd s ++ rcvd /\ (length sent + length rcvd <= 1)%nat.
Proof.
  intros e s d tcp. apply (ipv4_rx_safe Arch32 (fun _ => None) [(6, tcp)] e s _ d).
  - constructor; [|constructor]. intros e' s' b d' netdev src dest csum _ _ _. exists s', (Err ENOTSUP). split; [reflexivity|]. apply modest_none. split; [apply same_tables_refl|split; reflexivity].
  - exists ∅. apply represents_nil.
  - apply plain_env_ok.
  - apply (iob_holds_intro (replicate 14 0) d []).
  - vm_compute. discriminate.
Defined.

(** Two fragments of different protocols, and for different machines, are put
    together when their senders happen to use the same identification: it is
    the only field that is compared besides the source address. *)
Theorem ipv4_key_incomplete d d' h h' :
  slice d 12 4 = slice d' 12 4 -> slice d 4 2 = slice d' 4 2 -> ff_key ipv4_reassembler d h = ff_key ipv4_reassembler d' h'.
Proof. intros E1 E2. cbn. by rewrite E1, E2. Qed.

Lemma ipv4_key_incomplete_witness :
  let udp := sample_packet 7 0x2000 [1; 2; 3; 4; 5; 6; 7; 8] in
  let tcp := [69; 0; 0; 22; 0; 7; 0; 1; 64; 6; 0; 0; 10; 0; 0; 1; 10; 0; 0; 3; 9; 9] in
  ff_key ipv4_reassembler udp 20 = ff_key ipv4_reassembler tcp 20
  /\ exists frags stats' b, frag_run Arch64 ipv4_reassembler [] (fun _ => 0) (sample_arrival <$> [udp; tcp]) = Some (frags, stats', [None; Some (b, 20)])
     /\ iob_bytes b = Some (udp ++ [9; 9]).
Proof.
  intros udp tcp. split; [apply (ipv4_key_incomplete udp tcp 20 20); reflexivity|].
  assert (C : match frag_run Arch64 ipv4_reassembler [] (fun _ => 0) (sample_arrival <$> [udp; tcp]) with
              | Some (_, _, [None; Some (b, h)]) => Some (h, iob_bytes b) | _ => None end = Some (20, Some (udp ++ [9; 9]))) by (vm_compute; reflexivity).
  destruct (frag_run _ _ _ _ _) as [[[frags stats'] outs]|]; [|discriminate C]. destruct outs as [|[?|] [|[[b h]|] [|]]]; try discriminate C.
  injection C as -> C. exists frags, stats', b. split; [reflexivity|exact C].
Defined.
