(* ===== verification/UdpIp.v ===== *)
(** * Datagrams from end to end

    The packet that a UDP connection sends is received whole, or in fragments
    that a router cut it into. *)
From stdpp Require Import gmap.
From S2P Require Import Prelude Strings Memory Tcpip Iobuf Fragment Dns Printf Tftp Ipv4 Ipv4Udp Ipv4Rx.

#[local] Opaque generic_tcpip_continue_chksum.

Section Fragments.
Context (a : arch) (other_tx : Z -> option (net_env -> net -> io_buffer -> Z -> Z -> option sockaddr_tcpip -> sockaddr_tcpip -> option Z -> option Z -> netres)).
Context (other_rx : list (Z * (net_env -> net -> io_buffer -> Z -> sockaddr_tcpip -> sockaddr_tcpip -> Z -> netres))).

(** Frames that arrive one after the other. *)
Fixpoint ipv4_rx_all (e : net_env) (s : net) (netdev flags : Z) (frames : list io_buffer) : option (net * list (res unit)) :=
  match frames with
  | [] => Some (s, [])
  | b :: frames' =>
      opt! (s, rc) := ipv4_rx a other_tx other_rx e s b netdev flags in
      opt! (s, rcs) := ipv4_rx_all e s netdev flags frames' in Some (s, rc :: rcs)
  end.

(** A state with the same routes, connections and logs. *)
Record same_but_frags (s s' : net) : Prop := {
  sb_routes : n_miniroutes s' = n_miniroutes s;
  sb_udp : n_udp s' = n_udp s;
  sb_sent : n_sent s' = n_sent s;
  sb_rcvd : n_rcvd s' = n_rcvd s }.

Lemma frame_ok_same s s' netdev flags d h : n_miniroutes s' = n_miniroutes s -> frame_ok s netdev flags d h -> frame_ok s' netdev flags d h.
Proof. intros E [A1 A2 A3 A4 A5 A6]. split; try done. unfold accepted, ipv4_has_any_addr, ipv4_has_addr in *. by rewrite E. Qed.

(** A buffer with a fragment and padding. *)
Definition frame_holds (s : net) (netdev flags : Z) (b : io_buffer) (p : packet) : Prop :=
  (exists pad, iob_holds b (p.1 ++ pad) /\ io_data b + zlen (p.1 ++ pad) <= IOB_LIMIT)
  /\ frame_ok s netdev flags p.1 p.2 /\ fragmented p.1 = true.

Lemma ipv4_rx_fragment e s m b p netdev flags :
  represents ipv4_reassembler (n_frags s) m -> iob_env_ok (fe_iob (ev_frag e)) -> plentiful a (ev_frag e) -> frame_holds s netdev flags b p ->
  exists s1, same_but_frags s s1 /\ represents ipv4_reassembler (n_frags s1) (assemble ipv4_reassembler true m p).1
    /\ match (assemble ipv4_reassembler true m p).2 with
       | None => ipv4_rx a other_tx other_rx e s b netdev flags = Some (s1, Ok tt)
       | Some (d, h) => exists b1, iob_holds b1 d /\ ipv4_rx a other_tx other_rx e s b netdev flags = ipv4_deliver a other_tx other_rx e s1 b1 netdev h
       end.
Proof.
  intros Hm He Hpl ((pad & Hb & Hl) & Hf & Hfr). destruct p as [d h]. cbn [fst snd] in *. rewrite zlen_app in Hl.
  destruct (ipv4_rx_frame a other_tx other_rx e s b d pad h netdev flags Hb Hf) as (s0 & b0 & ([T1 T2 T3] & S0 & R0) & H0 & D0 & ->).
  unfold ipv4_checked. rewrite Hfr. rewrite <- T2 in Hm.
  assert (Hp : packet_ok ipv4_reassembler b0 (d, h)) by (split; cbn; [done|apply Hf|rewrite D0; lia]).
  destruct (reassemble_refines a ipv4_reassembler (ev_frag e) (n_frags s0) (n_stats s0) m b0 (d, h) Hm Hp He) as (ok & fr & st & out & Er & Hok & Hr & Hd).
  cbn [snd] in Er. rewrite Er. rewrite (Hok Hpl) in *. exists (set_stats st (set_frags fr s0)). split; [by constructor|]. split; [done|].
  unfold delivered in Hd. destruct out as [[b1 h1]|], (assemble _ true m (d, h)).2 as [[d1 h2]|]; try done. destruct Hd as (<- & H1 & _). by exists b1.
Qed.

Lemma ipv4_rx_fragments e s m k first mids fin pre x rem netdev flags frames :
  iob_env_ok (fe_iob (ev_frag e)) -> plentiful a (ev_frag e) ->
  datagram ipv4_reassembler k first mids fin -> Forall (fun p => payload p <> []) (first :: mids ++ [fin]) ->
  first :: mids ++ [fin] = pre ++ x :: rem -> represents ipv4_reassembler (n_frags s) m -> awaiting m k first pre ->
  Forall2 (frame_holds s netdev flags) frames (x :: rem) -> ff_ok ipv4_reassembler first.1 first.2 ->
  exists s1 b1, same_but_frags s s1 /\ net_ok s1 /\ iob_holds b1 (joined first (mids ++ [fin]))
    /\ forall s2 rc, ipv4_deliver a other_tx other_rx e s1 b1 netdev first.2 = Some (s2, rc) ->
       ipv4_rx_all e s netdev flags frames = Some (s2, replicate (length rem) (Ok tt) ++ [rc]).
Proof.
  intros He Hpl Hdg Hne HF Hm Haw HL Hok. revert s m pre x frames HF Hm Haw HL. induction rem as [|y rem IH]; intros s m pre x frames HF Hm Haw HL.
  all: apply Forall2_cons_inv_r in HL as (b & frames' & Hb & HL & ->).
  all: assert (Hin : x ∈ first :: mids ++ [fin]) by (rewrite HF; apply elem_of_app; right; apply list_elem_of_here).
  all: pose proof (awaiting_step ipv4_reassembler m k first mids fin pre x _ x Hdg HF Hne Hok Haw Hin) as Hstep; rewrite decide_True in Hstep by done.
  all: destruct (ipv4_rx_fragment e s m b x netdev flags Hm He Hpl Hb) as (s1 & Hs1 & Hr1 & Hrx).
  - apply Forall2_nil_inv_r in HL as ->. rewrite Hstep in Hrx. destruct Hrx as (b1 & H1 & Hrx). exists s1, b1. split; [done|]. split; [by eexists|]. split; [done|].
    intros s2 rc Hd. cbn [ipv4_rx_all]. by rewrite Hrx, Hd.
  - assert (Hout : (assemble ipv4_reassembler true m x).2 = None).
    { unfold awaiting in Hstep. unfold assemble in Hstep |- *. destruct (m !! _) as [[d h]|] eqn:E; [|done]. destruct (true && _); [|done].
      destruct (ff_more ipv4_reassembler x.1 x.2); [done|]. exfalso. cbn [fst] in Hstep. revert Hstep.
      assert (ff_key ipv4_reassembler x.1 x.2 = k) as -> by (pose proof (dg_key _ _ _ _ _ Hdg) as D2; rewrite Forall_forall in D2; by apply D2).
      rewrite lookup_delete_eq. by destruct (pre ++ [x]) eqn:?; [destruct pre|]. }
    rewrite Hout in Hrx. destruct (IH s1 (assemble ipv4_reassembler true m x).1 (pre ++ [x]) y frames') as (s2 & b2 & Hs2 & Hok2 & H2 & Hd2); [by rewrite <- app_assoc|done|done| |].
    { eapply Forall2_impl; [exact HL|]. intros b' p (Hb' & Hf' & Hfr'). split; [done|]. split; [|done]. eapply frame_ok_same; [|done]. apply Hs1. }
    exists s2, b2. split; [destruct Hs1, Hs2; constructor; congruence|]. split; [done|]. split; [done|].
    intros s3 rc Hd. cbn [ipv4_rx_all]. rewrite Hrx, (Hd2 _ _ Hd). done.
Qed.

(** A UDP segment behind any header with its addresses. *)
Lemma ipv4_deliver_udp e s b hdr netdev src dest sport dport data conn :
  let len := UDPHDR_LEN + zlen data in
  iob_holds b (hdr ++ udp_segment sport dport len (udp_csum src dest sport dport len data) data) ->
  20 <= zlen hdr -> Z.land (be_val (slice hdr 0 1)) IP_MASK_HLEN * 4 = zlen hdr ->
  slice hdr 12 4 = be32 src -> slice hdr 16 4 = be32 dest -> slice hdr 9 1 = [IP_UDP] ->
  0 <= src < 2 ^ 32 -> 0 <= dest < 2 ^ 32 -> len <= 0xffff -> bytes_ok data -> 0 <= sport < 2 ^ 16 -> 0 <= dport < 2 ^ 16 ->
  udp_demux s (set_port dport (sin_of dest)) = Some conn ->
  exists s', ipv4_deliver a other_tx other_rx e s b netdev (zlen hdr) = Some (s', ev_deliver e) /\ same_tables s s' /\ n_sent s' = n_sent s
    /\ n_rcvd s' = n_rcvd s ++ [UdpData (uc_id conn) data (set_port sport (sin_of src)) (set_port dport (sin_of dest))].
Proof.
  intros len Hb Hh Hl Es Ed Ep Hs Hd Hlen Hdata Hsp Hdp Hdx. unfold ipv4_deliver. set (seg := udp_segment _ _ _ _ _) in *.
  assert (Hseg : zlen seg = len) by apply udp_segment_len. assert (Hz : zlen (hdr ++ seg) = zlen hdr + len) by (rewrite zlen_app, Hseg; done).
  assert (0 <= len) by (unfold len, UDPHDR_LEN; lia).
  rewrite !(iob_read_slice _ _ _ _ Hb) by lia. unfold ipv4_pshdr_chksum. rewrite !(iob_read_slice _ _ _ _ Hb) by lia.
  rewrite !slice_app, Es, Ed, Ep, Hl, (iob_holds_len _ _ Hb), Hz by lia. replace (zlen hdr + len - zlen hdr) with len by lia.
  destruct (iob_pull_holds b hdr seg Hb) as (b1 & -> & H1 & _). unfold tcpip_rx. change (be_val [IP_UDP]) with IP_UDP. cbn [tcpip_protocols List.find fst].
  change (IP_UDP =? IP_UDP) with true. cbv iota. rewrite !be32_val, !Z.mod_small by lia.
  pose proof (udp_rx_receives e (stat a in_delivers 1 s) b1 netdev (sin_of src) (sin_of dest) src dest sport dport data conn H1 Hlen Hdata Hsp Hdp Hdx) as Hrx.
  cbv zeta in Hrx. fold len in Hrx. change (be32 src ++ be32 dest ++ [0] ++ [IP_UDP] ++ be16 len) with (ip_pseudo src dest IP_UDP len). rewrite Hrx.
  eexists. by split.
Qed.
End Fragments.

(** A packet (without options) cut into fragments: consecutive, none of them
    empty, with the addresses and the protocol in the header of the first. *)
Record cut_into (packet : list Z) (first : Fragment.packet) (mids : list Fragment.packet) (fin : Fragment.packet) : Prop := {
  cu_datagram : datagram ipv4_reassembler (ff_key ipv4_reassembler first.1 first.2) first mids fin;
  cu_pieces : Forall (fun p => payload p <> []) (first :: mids ++ [fin]);
  cu_src : slice first.1 12 4 = slice packet 12 4;
  cu_dest : slice first.1 16 4 = slice packet 16 4;
  cu_proto : slice first.1 9 1 = slice packet 9 1;
  cu_payload : concat (payload <$> first :: mids ++ [fin]) = drop 20 packet }.

(** No fragment of the datagram is waiting. *)
Definition unstarted (s : net) (first : Fragment.packet) : Prop :=
  exists m, represents ipv4_reassembler (n_frags s) m /\ m !! ff_key ipv4_reassembler first.1 first.2 = None.

(** C10. UDP over IPv4, from one end to the other.  A datagram of at most 65507 bytes
    that is given to a UDP connection in a buffer with the headroom its
    allocator reserves, and for which a route or a device is known ([tx_choice]
    and [tx_ll] are the device, source address, next hop and link-layer address
    that [ipv4_tx] takes), is handed to the link layer as one packet.  A
    receiver that is given this packet, with any padding behind it, and that
    does not discard the destination address as foreign, passes exactly the
    data to the connection that is found for the destination, with the address
    and port of the sender: the lengths and the two checksums are accepted
    whatever the data is.  So does a receiver that is given, in order, the
    fragments that the packet was cut into, whatever other packets it is
    collecting, as long as memory is not short: nothing is delivered before the
    last fragment, and with it the same data. *)
Theorem udp_ip_roundtrip a other_tx other_rx e s udp b src dest netdev data dev ip_src hop mask ll :
  let st_src := default (uc_local udp) src in
  let st_dest := default (uc_peer udp) dest in
  iob_holds b data -> MAX_LL_NET_HEADER_LEN <= iob_headroom b -> bytes_ok data -> zlen data <= 65507 ->
  st_family st_dest = AF_INET -> bytes_ok (st_pad st_dest) -> length (st_pad st_dest) = 24%nat ->
  0 <= st_port st_src < 2 ^ 16 -> 0 <= st_port st_dest < 2 ^ 16 -> 0 <= ip_src < 2 ^ 32 ->
  tx_choice e s (Some st_src) st_dest netdev = Some (dev, ip_src, hop, mask) -> tx_ll e dev ip_src hop mask = Ok ll ->
  exists s1 packet, udp_tx a other_tx e s udp b src dest netdev = Some (s1, ev_tx e)
    /\ n_sent s1 = n_sent s ++ [Transmission dev ll packet] /\ same_tables s s1
    /\ (forall e' s' b' netdev' flags pad conn,
         iob_holds b' (packet ++ pad) -> accepted s' netdev' flags (sin_addr st_dest) ->
         udp_demux s' (set_port (st_port st_dest) (sin_of (sin_addr st_dest))) = Some conn ->
         exists s2, ipv4_rx a other_tx other_rx e' s' b' netdev' flags = Some (s2, ev_deliver e') /\ same_tables s' s2
           /\ n_sent s2 = n_sent s'
           /\ n_rcvd s2 = n_rcvd s' ++ [UdpData (uc_id conn) data (set_port (st_port st_src) (sin_of ip_src))
                                                               (set_port (st_port st_dest) (sin_of (sin_addr st_dest)))])
    /\ (forall e' s' frames netdev' flags first mids fin conn,
         cut_into packet first mids fin -> unstarted s' first -> iob_env_ok (fe_iob (ev_frag e')) -> plentiful a (ev_frag e') ->
         Forall2 (frame_holds s' netdev' flags) frames (first :: mids ++ [fin]) ->
         udp_demux s' (set_port (st_port st_dest) (sin_of (sin_addr st_dest))) = Some conn ->
         exists s2, ipv4_rx_all a other_tx other_rx e' s' netdev' flags frames = Some (s2, replicate (S (length mids)) (Ok tt) ++ [ev_deliver e'])
           /\ n_sent s2 = n_sent s'
           /\ n_rcvd s2 = n_rcvd s' ++ [UdpData (uc_id conn) data (set_port (st_port st_src) (sin_of ip_src))
                                                               (set_port (st_port st_dest) (sin_of (sin_addr st_dest)))]).
Proof.
  intros st_src st_dest Hb Hh Hdata Hlen Hfam Hpad Hpl24 Hsp Hdp Hsrc Hc Hll.
  destruct (udp_tx_sends a other_tx e s udp b src dest netdev data dev ip_src hop mask ll Hb Hh Hfam Hdata Hc Hll) as (ident & s1 & E & S1 & S2 & S3).
  fold st_src st_dest in E, S3. do 2 eexists. split; [exact E|]. split; [exact S3|]. split; [done|]. clear E S1 S2 S3.
  set (len := UDPHDR_LEN + zlen data) in *. set (ip_dest := sin_addr st_dest) in *. set (sport := st_port st_src) in *. set (dport := st_port st_dest) in *.
  set (seg := udp_segment sport dport len _ data) in *. assert (Hseg : zlen seg = len) by apply udp_segment_len.
  assert (Hd : 0 <= ip_dest < 2 ^ 32).
  { unfold ip_dest, sin_addr. assert (E4 : length (take 4 (st_pad st_dest)) = 4%nat) by (rewrite length_take, Hpl24; done).
    pose proof (be_val_range _ (Forall_take _ 4 _ Hpad)) as R. rewrite E4 in R. exact R. }
  assert (Hl : len <= 0xffff) by (unfold len, UDPHDR_LEN; lia). split.
  { intros e' s' b' netdev' flags pad conn Hb' Hacc Hudp. rewrite <- Hseg in Hb' at 1.
  destruct (ipv4_rx_unfragmented a other_tx other_rx e' s' b' netdev' flags ident IP_UDP ip_src ip_dest seg pad Hb') as (s2 & b2 & -> & H2 & _ & T2 & N2 & R2); try done.
  - rewrite Hseg. unfold len, IPHDR_LEN, UDPHDR_LEN. lia.
  - rewrite Hseg. unfold tcpip_rx. cbn [tcpip_protocols List.find fst]. change (IP_UDP =? IP_UDP) with true. cbv iota.
    assert (Hdx : udp_demux (stat a in_delivers 1 s2) (set_port dport (sin_of ip_dest)) = Some conn)
      by (rewrite <- Hudp; apply udp_demux_same; destruct T2; by constructor).
    pose proof (udp_rx_receives e' (stat a in_delivers 1 s2) b2 netdev' (sin_of ip_src) (sin_of ip_dest) ip_src ip_dest sport dport data conn
      H2 Hl Hdata Hsp Hdp Hdx) as Hrx. cbv zeta in Hrx. fold len in Hrx. rewrite Hrx.
    eexists. split; [done|]. split; [by apply (same_tables_trans s' s2)|]. split; [exact N2|]. cbn. by rewrite R2. }
  intros e' s' frames netdev' flags first mids fin conn [C1 C2 C3 C4 C5 C6] (m & Hm & Hk) He Hpl HF Hudp.
  assert (Hf : frame_ok s' netdev' flags first.1 first.2) by (apply Forall2_cons_inv_r in HF as (b' & fs & (_ & Hf & _) & _); done).
  assert (Hfh : 20 <= first.2 <= zlen first.1) by apply Hf.
  destruct (ipv4_rx_fragments a other_tx other_rx e' s' m _ first mids fin [] first (mids ++ [fin]) netdev' flags frames He Hpl C1 C2 eq_refl Hm Hk HF Hfh)
    as (s1' & b1' & Hs1' & _ & H1' & Hrx).
  set (hdr := take (Z.to_nat first.2) first.1). assert (Hhl : zlen hdr = first.2) by (unfold hdr; rewrite length_take; lia).
  assert (Ej : joined first (mids ++ [fin]) = hdr ++ seg).
  { change (drop 20 (ip_packet (IPHDR_LEN + len) ident IP_UDP ip_src ip_dest seg)) with seg in C6. rewrite <- C6. unfold joined, hdr. rewrite fmap_cons. cbn [concat].
    unfold payload at 2. by rewrite app_assoc, take_drop. }
  rewrite Ej in H1'.
  assert (Hsl : forall off n, 0 <= off -> off + n <= 20 -> slice hdr off n = slice first.1 off n).
  { intros off n Ho Hn. rewrite <- (take_drop (Z.to_nat first.2) first.1). fold hdr. by rewrite slice_app by lia. }
  destruct (ipv4_deliver_udp a other_tx other_rx e' s1' b1' hdr netdev' ip_src ip_dest sport dport data conn H1') as (s2 & E2 & _ & N2 & R2); try done.
  - lia.
  - rewrite Hsl by lia. rewrite Hhl. apply Hf.
  - rewrite Hsl, C3 by lia. done.
  - rewrite Hsl, C4 by lia. done.
  - rewrite Hsl, C5 by lia. done.
  - rewrite <- Hudp. unfold udp_demux. by rewrite (sb_udp _ _ Hs1').
  - rewrite Hhl in E2. exists s2. split; [rewrite (Hrx _ _ E2), length_app; cbn [length]; by rewrite Nat.add_1_r|].
    split; [by rewrite N2, (sb_sent _ _ Hs1')|by rewrite R2, (sb_rcvd _ _ Hs1')].
Qed.

(** Two machines on a network: 10.0.0.1 with a connection to the TFTP port of
    10.0.0.2, which has a connection bound to it. *)
Definition sample_dev : net_device := NetDevice true 1 1500 0 0 (fun _ => Err ENOTSUP).
Definition sample_env : net_env := NetEnv (fun _ => sample_dev) (FragEnv true plain_env) true 0 (Ok tt) (Ok tt) (Ok tt).
Definition sample_net (addr : Z) (conns : list udp_connection) : net := Net [Miniroute 1 addr 0xffffff00 0] 0 [] (fun _ => 0) conns [] [].
Definition sample_conn : udp_connection := UdpConn 5 (St 0 0 1024 0 (replicate 24 0)) (St AF_INET 0 69 0 (be32 0x0a000002 ++ replicate 20 0)).
Definition sample_server : udp_connection := UdpConn 7 (St 0 0 69 0 (replicate 24 0)) st_empty.

(** A fragment with a checksum in its header, and a frame with padding. *)
Definition sample_fragment (frags : Z) (data : list Z) : packet :=
  let hdr c := [0x45; 0] ++ be16 (20 + zlen data) ++ be16 0x0100 ++ be16 frags ++ [63; IP_UDP] ++ le16 c ++ be32 0x0a000001 ++ be32 0x0a000002 in
  (hdr (tcpip_chksum (hdr 0)) ++ data, 20).
Definition sample_frame (d : list Z) : io_buffer := IoBuf (replicate 14 0 ++ (d ++ replicate 15 0) ++ []) 14 (14 + zlen (d ++ replicate 15 0)).

(** The datagram is received whole by one machine and in two fragments by
    another. *)
Lemma udp_ip_roundtrip_witness :
  exists s1 packet s2 s3,
    udp_tx Arch64 (fun _ => None) sample_env (sample_net 0x0a000001 [sample_conn]) sample_conn (IoBuf (replicate 104 0 ++ [1; 2; 3] ++ []) 104 107) None None None
      = Some (s1, Ok tt)
    /\ n_sent s1 = [Transmission 1 (LlArp 0x0a000002 0x0a000001) packet]
    /\ ipv4_rx Arch64 (fun _ => None) [] sample_env (sample_net 0x0a000002 [sample_server]) (sample_frame packet) 1 0 = Some (s2, Ok tt)
    /\ n_rcvd s2 = [UdpData 7 [1; 2; 3] (set_port 1024 (sin_of 0x0a000001)) (set_port 69 (sin_of 0x0a000002))]
    /\ ipv4_rx_all Arch64 (fun _ => None) [] sample_env (sample_net 0x0a000002 [sample_server]) 1 0
         [sample_frame (sample_fragment 0x2000 (slice packet 20 8)).1; sample_frame (sample_fragment 0x0001 (slice packet 28 3)).1] = Some (s3, [Ok tt; Ok tt])
    /\ n_rcvd s3 = n_rcvd s2.
Proof.
  destruct (udp_ip_roundtrip Arch64 (fun _ => None) [] sample_env (sample_net 0x0a000001 [sample_conn]) sample_conn
    (IoBuf (replicate 104 0 ++ [1; 2; 3] ++ []) 104 107) None None None [1; 2; 3] 1 0x0a000001 0x0a000002 0xffffff00 (LlArp 0x0a000002 0x0a000001)
    (iob_holds_intro (replicate 104 0) [1; 2; 3] [])) as (s1 & packet & E & S & _ & Hrx & Hrxs).
  - cbn. unfold MAX_LL_NET_HEADER_LEN. lia.
  - solve_bytes.
  - cbn. lia.
  - reflexivity.
  - apply Forall_app. split; [apply be32_bytes|apply Forall_replicate; unfold byte_ok; lia].
  - reflexivity.
  - cbn. lia.
  - cbn. lia.
  - lia.
  - vm_compute. reflexivity.
  - vm_compute. reflexivity.
  - destruct (Hrx sample_env (sample_net 0x0a000002 [sample_server]) (sample_frame packet) 1 0 (replicate 15 0) sample_server) as (s2 & E2 & _ & _ & R2).
    + apply (iob_holds_intro (replicate 14 0) (packet ++ replicate 15 0) []).
    + right. right. right. vm_compute. reflexivity.
    + vm_compute. reflexivity.
    + assert (Hpk : packet = [69; 0; 0; 31; 1; 0; 0; 0; 64; 17; 101; 204; 10; 0; 0; 1; 10; 0; 0; 2; 4; 0; 0; 69; 0; 11; 227; 142; 1; 2; 3]).
      { pose proof (f_equal (fun o => (fun p => tx_packet <$> n_sent p.1) <$> o) E) as E'. cbn [fmap option_fmap option_map fst] in E'. rewrite S in E'.
        vm_compute in E'. injection E' as E'. symmetry. exact E'. }
      destruct (Hrxs sample_env (sample_net 0x0a000002 [sample_server])
        [sample_frame (sample_fragment 0x2000 (slice packet 20 8)).1; sample_frame (sample_fragment 0x0001 (slice packet 28 3)).1] 1 0
        (sample_fragment 0x2000 (slice packet 20 8)) [] (sample_fragment 0x0001 (slice packet 28 3)) sample_server) as (s3 & E3 & _ & R3).
      * rewrite Hpk. constructor.
        -- constructor; [split; [|split]; [vm_compute; reflexivity|vm_compute; reflexivity|done]| |constructor|vm_compute; reflexivity].
           constructor; [reflexivity|]. constructor; [vm_compute; reflexivity|constructor].
        -- constructor; [vm_compute; discriminate|]. constructor; [vm_compute; discriminate|constructor].
        -- vm_compute. reflexivity.
        -- vm_compute. reflexivity.
        -- vm_compute. reflexivity.
        -- vm_compute. reflexivity.
      * exists ∅. split; [apply represents_nil|done].
      * apply plain_env_ok.
      * split; [done|]. apply plain_env_plenty.
      * rewrite Hpk. constructor; [|constructor; [|constructor]].
        all: split; [exists (replicate 15 0); split; [apply (iob_holds_intro (replicate 14 0) _ [])|vm_compute; discriminate]|].
        all: split; [|vm_compute; reflexivity]; constructor; [vm_compute; split; discriminate|vm_compute; reflexivity..|].
        all: right; right; right; vm_compute; reflexivity.
      * vm_compute. reflexivity.
      * exists s1, packet, s2, s3. split; [exact E|]. split; [exact S|]. split; [exact E2|]. split; [exact R2|]. split; [exact E3|]. rewrite R2. exact R3.
Defined.
