(* ===== verification/IpTables.v ===== *)
(** * Echo replies, routes, ports and dotted addresses

    Further properties of the IPv4 stack of Ipv4.v. *)
From stdpp Require Import gmap.
From S2P Require Import Prelude Strings Memory Tcpip Iobuf Fragment Dns Printf Tftp Ipv4 Ipv4Udp Ipv4Rx UdpIp.

#[local] Opaque generic_tcpip_continue_chksum.

(** ** Echo requests *)

Lemma tx_choice_same e s s' st_src st_dest netdev : n_miniroutes s' = n_miniroutes s ->
  tx_choice e s' st_src st_dest netdev = tx_choice e s st_src st_dest netdev.
Proof. intros E. unfold tx_choice. by rewrite E. Qed.

(** The checksum of an ICMP message. *)
Lemma icmp_chksum_verifies type code rest : byte_ok type -> byte_ok code -> bytes_ok rest ->
  let c := tcpip_chksum ([type; code] ++ [0; 0] ++ rest) in tcpip_chksum ([type; code] ++ le16 c ++ rest) = 0.
Proof.
  intros Ht Hc Hr. destruct (tcpip_chksum_verifies [type; code] rest ltac:(solve_bytes; done) Hr eq_refl) as [H1 H2]. cbv zeta in *. cbn [app] in *.
  set (c := tcpip_chksum (type :: code :: 0 :: 0 :: rest)) in *. unfold le16. cbn [app]. by rewrite (Z.mod_small (c / 256)) by (Z.div_mod_to_equations; lia).
Qed.

(** Echo requests are answered: a request from an address to which there is a
    route leads to exactly one packet, an echo reply to that address from the
    address of the route, with the code, identifier, sequence number and data of
    the request and with valid checksums; nothing else changes but statistics
    and the identification. *)
Theorem icmp_echo_answered a other_tx other_rx e s b netdev flags ident src dest code csum rest pad dev me hop mask ll :
  let seg := [ICMP_ECHO_REQUEST; code] ++ le16 csum ++ rest in
  let len := IPHDR_LEN + zlen seg in
  iob_holds b (ip_packet len ident IP_ICMP src dest seg ++ pad) -> len <= 0xffff -> 4 <= zlen rest ->
  byte_ok code -> bytes_ok rest -> 0 <= src < 2 ^ 32 -> 0 <= dest < 2 ^ 32 ->
  tcpip_chksum seg = 0 -> accepted s netdev flags dest ->
  tx_choice e s None (sin_of src) None = Some (dev, me, hop, mask) -> tx_ll e dev me hop mask = Ok ll ->
  exists s' ident' csum', ipv4_rx a other_tx other_rx e s b netdev flags = Some (s', ev_tx e) /\ same_tables s s' /\ n_rcvd s' = n_rcvd s
    /\ n_sent s' = n_sent s ++ [Transmission dev ll (ip_packet len ident' IP_ICMP me src ([ICMP_ECHO_REPLY; code] ++ le16 csum' ++ rest))]
    /\ tcpip_chksum ([ICMP_ECHO_REPLY; code] ++ le16 csum' ++ rest) = 0.
Proof.
  intros seg len Hb Hlen Hrest Hcode Hbr Hs Hd Hcs Hacc Hc Hll.
  assert (Hseg : zlen seg = 4 + zlen rest) by (unfold seg; rewrite !zlen_app; cbn [length le16]; lia).
  destruct (ipv4_rx_unfragmented a other_tx other_rx e s b netdev flags ident IP_ICMP src dest seg pad Hb Hlen) as (s1 & b1 & -> & H1 & D1 & T1 & N1 & R1);
    [unfold byte_ok, IP_ICMP; lia|done..|].
  unfold tcpip_rx. cbn [tcpip_protocols List.find fst]. change (IP_UDP =? IP_ICMP) with false. change (IP_ICMP =? IP_ICMP) with true. cbv iota.
  unfold icmpv4_rx. rewrite (iob_holds_len _ _ H1), (iob_bytes_holds _ _ H1), Hcs. rewrite (proj2 (Z.ltb_ge _ 4)) by lia. change (negb (0 =? 0)) with false. cbv iota.
  rewrite (iob_read_at b1 [] [ICMP_ECHO_REQUEST] ([code] ++ le16 csum ++ rest) H1 : iob_read b1 0 1 = _).
  change (be_val [ICMP_ECHO_REQUEST] =? ICMP_ECHO_REQUEST) with true. cbv iota. unfold icmp_rx_echo_request.
  rewrite (iob_holds_len _ _ H1), (proj2 (Z.ltb_ge _ 8)) by lia. unfold icmp_tx_echo_reply, icmp_tx_echo.
  destruct (iob_write_holds b1 [] [ICMP_ECHO_REQUEST] [ICMP_ECHO_REPLY] ([code] ++ le16 csum ++ rest) H1 eq_refl) as (b2 & E2 & H2 & D2 & _).
  rewrite (E2 : iob_write b1 0 _ = _).
  destruct (iob_write_holds b2 [ICMP_ECHO_REPLY; code] (le16 csum) [0; 0] rest H2 eq_refl) as (b3 & E3 & H3 & D3 & _). rewrite (E3 : iob_write b2 2 _ = _).
  rewrite (iob_bytes_holds _ _ H3). set (c := tcpip_chksum _).
  destruct (iob_write_holds b3 [ICMP_ECHO_REPLY; code] [0; 0] (le16 c) rest H3 eq_refl) as (b4 & E4 & H4 & D4 & _). rewrite (E4 : iob_write b3 2 _ = _).
  unfold tcpip_tx, tcpip_net_protocol. change (st_family (sin_of src) =? AF_INET) with true. cbv iota.
  assert (Hd0 : 0 <= io_data b) by (destruct Hb; lia).
  destruct (ipv4_tx_sends a e (stat a in_delivers 1 s1) b4 IP_ICMP 0 None (sin_of src) None None ([ICMP_ECHO_REPLY; code] ++ le16 c ++ rest) ([ICMP_ECHO_REPLY; code] ++ le16 c ++ rest) dev me hop mask ll H4) as (ident' & s' & E & T' & R' & N').
  - unfold IPHDR_LEN in *. lia.
  - rewrite <- Hc. apply tx_choice_same. apply T1.
  - done.
  - reflexivity.
  - exists s', ident', c. split; [exact E|]. split; [apply (same_tables_trans s s1); [done|]; destruct T'; by constructor|]. split; [by rewrite R'; cbn|].
    split; [|apply (icmp_chksum_verifies ICMP_ECHO_REPLY code rest); [unfold byte_ok, ICMP_ECHO_REPLY; lia|done|done]].
    assert (Ea : sin_addr (sin_of src) = src) by (unfold sin_addr, sin_of; cbn [st_pad]; rewrite take_app_length'; [|done]; rewrite be32_val, Z.mod_small by lia; done).
    rewrite N', Ea. cbn [n_sent stat set_stats]. by rewrite N1.
Qed.

(** 10.0.0.1 asks 10.0.0.2. *)
Lemma icmp_echo_answered_witness :
  let rest := [0; 1; 0; 1; 97; 98; 99] in
  let csum := tcpip_chksum ([ICMP_ECHO_REQUEST; 0] ++ [0; 0] ++ rest) in
  let seg := [ICMP_ECHO_REQUEST; 0] ++ le16 csum ++ rest in
  let d := ip_packet (IPHDR_LEN + zlen seg) 1 IP_ICMP 0x0a000001 0x0a000002 seg in
  let s := sample_net 0x0a000002 [] in
  exists s' ident' csum',
    ipv4_rx Arch64 (fun _ => None) [] sample_env s (sample_frame d) 1 0 = Some (s', ev_tx sample_env) /\ same_tables s s' /\ n_rcvd s' = n_rcvd s
    /\ n_sent s' = n_sent s ++ [Transmission 1 (LlArp 0x0a000001 0x0a000002)
                                 (ip_packet (IPHDR_LEN + zlen seg) ident' IP_ICMP 0x0a000002 0x0a000001 ([ICMP_ECHO_REPLY; 0] ++ le16 csum' ++ rest))]
    /\ tcpip_chksum ([ICMP_ECHO_REPLY; 0] ++ le16 csum' ++ rest) = 0.
Proof.
  intros rest csum seg d s.
  apply (icmp_echo_answered Arch64 (fun _ => None) [] sample_env s (sample_frame d) 1 0 1 0x0a000001 0x0a000002 0 csum rest (replicate 15 0)
    1 0x0a000002 0x0a000001 0xffffff00 (LlArp 0x0a000001 0x0a000002)).
  - apply (iob_holds_intro (replicate 14 0) (d ++ replicate 15 0) []).
  - vm_compute. discriminate.
  - vm_compute. discriminate.
  - unfold byte_ok. lia.
  - unfold rest. solve_bytes.
  - lia.
  - lia.
  - vm_compute. reflexivity.
  - right. right. right. vm_compute. reflexivity.
  - vm_compute. reflexivity.
  - vm_compute. reflexivity.
Defined.

(** ** Routing *)

Definition usable (e : net_env) (m : ipv4_miniroute) : bool := nd_open (ev_dev e (mr_netdev m)).
Definition on_link (m : ipv4_miniroute) (dest : Z) : bool := Z.land (Z.lxor dest (mr_address m)) (mr_netmask m) =? 0.
Definition has_gateway (m : ipv4_miniroute) : bool := negb (mr_gateway m =? 0).

(** Routes with a gateway come last. *)
Definition routes_sorted (routes : list ipv4_miniroute) : Prop :=
  exists direct gated, routes = direct ++ gated /\ Forall (fun m => has_gateway m = false) direct /\ Forall (fun m => has_gateway m = true) gated.

Lemma add_miniroute_sorted e s netdev address netmask gateway :
  routes_sorted (n_miniroutes s) -> routes_sorted (n_miniroutes (add_ipv4_miniroute e s netdev address netmask gateway).1).
Proof.
  intros (direct & gated & E & H1 & H2). unfold add_ipv4_miniroute. destruct (ev_zalloc e); cbn [negb]; [|by exists direct, gated]. cbn. rewrite E.
  set (m := Miniroute netdev address netmask gateway). destruct (negb (gateway =? 0)) eqn:Eg.
  - exists direct, (gated ++ [m]). split; [by rewrite app_assoc|]. split; [done|]. apply Forall_app. split; [done|]. by constructor.
  - exists (m :: direct), gated. split; [done|]. split; [by constructor|done].
Qed.

Lemma create_routes_sorted e fetch netdevs s : routes_sorted (n_miniroutes s) ->
  routes_sorted (n_miniroutes (ipv4_settings fetch (add_ipv4_miniroute e) s netdevs).1).
Proof.
  revert s. induction netdevs as [|dev netdevs IH]; intros s Hs; cbn; [done|]. destruct (fetch dev) as [[address netmask] gateway].
  case_if; [by apply IH|]. pose proof (add_miniroute_sorted e s dev address (default_netmask address netmask) gateway Hs) as H.
  destruct (add_ipv4_miniroute _ _ _ _ _ _) as [s1 [[]|err]]; [by apply IH|done].
Qed.

Lemma del_all_routes l s : length (n_miniroutes s) = length l -> n_miniroutes (foldl (fun s (_ : ipv4_miniroute) => del_ipv4_miniroute s 0) s l) = [].
Proof.
  revert s. induction l as [|x l IH]; intros s H; cbn; [by apply nil_length_inv|]. apply IH. cbn. destruct (n_miniroutes s); [done|]. cbn in *. lia.
Qed.

(** The next hop that is wanted: a multicast goes out on the device of its
    scope; everything else goes directly over a usable route without a gateway
    whose network it is in, and otherwise over the first usable route that has a
    gateway, directly if it is in its network and to the gateway if not. *)
Definition wanted_route (e : net_env) (routes : list ipv4_miniroute) (scope_id dest : Z) : option (ipv4_miniroute * Z) :=
  let routes := filter (fun m => usable e m = true) routes in
  if IN_IS_MULTICAST dest then (fun m => (m, dest)) <$> List.find (fun m => nd_scope_id (ev_dev e (mr_netdev m)) =? scope_id) routes
  else match List.find (fun m => negb (has_gateway m) && on_link m dest) routes with
       | Some m => Some (m, dest)
       | None => (fun m => (m, if on_link m dest then dest else mr_gateway m)) <$> List.find has_gateway routes
       end.

Lemma route_gated e routes scope_id dest : IN_IS_MULTICAST dest = false -> Forall (fun m => has_gateway m = true) routes ->
  ipv4_route e routes scope_id dest = (fun m => (m, if on_link m dest then dest else mr_gateway m)) <$> List.find has_gateway (filter (fun m => usable e m = true) routes).
Proof.
  intros Hm. induction 1 as [|m routes Hg _ IH]; [done|]. cbn [ipv4_route]. rewrite filter_cons.
  destruct (decide (usable e m = true)) as [Hu|Hu]; unfold usable in Hu; destruct (nd_open _); try done; cbn [negb]. rewrite Hm. cbn [List.find].
  rewrite Hg. unfold has_gateway in Hg. rewrite Hg. cbn. unfold on_link. by case_if.
Qed.

(** Whatever the settings of the devices, the routing table that is made of them
    gives every destination the route that is wanted. *)
Theorem ipv4_route_correct e fetch netdevs s scope_id dest :
  let s' := (ipv4_create_routes e fetch s netdevs).1 in
  ipv4_route e (n_miniroutes s') scope_id dest = wanted_route e (n_miniroutes s') scope_id dest.
Proof.
  cbv zeta. unfold ipv4_create_routes. set (s0 := foldl _ s _). assert (E0 : n_miniroutes s0 = []) by by apply del_all_routes.
  destruct (create_routes_sorted e fetch netdevs s0) as (direct & gated & -> & Hd & Hg); [rewrite E0; by exists [], []|].
  unfold wanted_route. destruct (IN_IS_MULTICAST dest) eqn:Em.
  - generalize (direct ++ gated). intros routes. induction routes as [|m routes IH]; [done|]. cbn [ipv4_route]. rewrite filter_cons, Em.
    destruct (decide (usable e m = true)) as [Hu|Hu]; unfold usable in Hu; destruct (nd_open _); try done; cbn [negb List.find]. by case_if.
  - induction Hd as [|m direct Hdm Hd IH]; cbn [app].
    + rewrite (route_gated e gated scope_id dest Em Hg). destruct (List.find (fun m => negb (has_gateway m) && _) _) as [m|] eqn:Ef; [|done].
      exfalso. apply List.find_some in Ef as [Hin Hn]. apply list_elem_of_In, list_elem_of_filter in Hin as [_ Hin].
      rewrite Forall_forall in Hg. rewrite (Hg m Hin) in Hn. done.
    + cbn [ipv4_route]. rewrite filter_cons, Em. destruct (decide (usable e m = true)) as [Hu|Hu]; unfold usable in Hu; destruct (nd_open _); try done; cbn [negb List.find].
      rewrite Hdm. cbn [negb andb]. unfold on_link at 1. unfold has_gateway in Hdm. rewrite Hdm. by case_if.
Qed.

(** With gateways on two devices, a destination in the network of the second is
    not reached directly but through the gateway of the first: the table is
    searched for the first route that can be used at all. *)
Theorem ipv4_route_detour e s :
  n_miniroutes s = [] -> ev_zalloc e = true -> (forall dev, nd_open (ev_dev e dev) = true) ->
  let s1 := (add_ipv4_miniroute e s 1 0x0a000002 0xff000000 0x0a000001).1 in
  let s2 := (add_ipv4_miniroute e s1 2 0xc0a80102 0xffffff00 0xc0a80101).1 in
  ipv4_route e (n_miniroutes s2) 0 0xc0a80105 = Some (Miniroute 1 0x0a000002 0xff000000 0x0a000001, 0x0a000001)
  /\ on_link (Miniroute 2 0xc0a80102 0xffffff00 0xc0a80101) 0xc0a80105 = true.
Proof. intros E Hz Ho. unfold add_ipv4_miniroute. rewrite Hz. cbn. rewrite E. cbn. by rewrite Ho. Qed.

Lemma ipv4_route_detour_witness :
  let e := NetEnv (fun _ => NetDevice true 0 1500 0 0 (fun _ => Err ENOTSUP)) (FragEnv true plain_env) true 0 (Ok tt) (Ok tt) (Ok tt) in
  let s := Net [] 0 [] (fun _ => 0) [] [] [] in
  let s1 := (add_ipv4_miniroute e s 1 0x0a000002 0xff000000 0x0a000001).1 in
  let s2 := (add_ipv4_miniroute e s1 2 0xc0a80102 0xffffff00 0xc0a80101).1 in
  ipv4_route e (n_miniroutes s2) 0 0xc0a80105 = Some (Miniroute 1 0x0a000002 0xff000000 0x0a000001, 0x0a000001)
  /\ on_link (Miniroute 2 0xc0a80102 0xffffff00 0xc0a80101) 0xc0a80105 = true.
Proof. intros e s. apply (ipv4_route_detour e s); [reflexivity|reflexivity|intros dev; reflexivity]. Defined.

(** ** UDP ports *)

Inductive udp_step : net -> net -> Prop :=
| Udp_open e s id peer local : (forall st, local = Some st -> 0 <= st_port st < 2 ^ 16) -> udp_step s (udp_open e s id peer local).1
| Udp_open_promisc e s id : udp_step s (udp_open_promisc e s id).1
| Udp_close s id : udp_step s (udp_close s id).

Definition udp_ports (s : net) : list Z := (fun c => st_port (uc_local c)) <$> n_udp s.
Definition bound_ports (s : net) : list Z := filter (fun p => p <> 0) (udp_ports s).

(** A port that was bound is a port, and was free. *)
Lemma tcpip_bind_free s random local port :
  (forall st, local = Some st -> 0 <= st_port st < 2 ^ 16) ->
  tcpip_bind (udp_port_available s) random ((fun st => (st_flags st, st_port st)) <$> local) = Ok port ->
  0 < port < 2 ^ 16 /\ udp_port_available s port = Ok port.
Proof.
  intros Hl. unfold tcpip_bind. set (fp := match _ <$> local with Some (f, p) => _ | None => _ end).
  assert (Hfp : 0 <= fp.2 < 2 ^ 16) by (subst fp; destruct local as [st|]; cbn; [by apply Hl|lia]). destruct fp as [flags try_port]. cbn in Hfp.
  assert (Hav : forall p x, udp_port_available s p = Ok x -> x = p) by (intros p x; unfold udp_port_available; case_if; [done|by intros [= <-]]).
  case_if; [intros E; pose proof (Hav _ _ E) as ->; split; [lia|done]|].
  set (min_port := u16 (Z.land (Z.lnot flags) TCPIP_BIND_PRIVILEGED + 1)). set (max_port := u16 (Z.land flags TCPIP_BIND_PRIVILEGED - 1)).
  assert (Hbit : forall x, Z.land x TCPIP_BIND_PRIVILEGED = 0 \/ Z.land x TCPIP_BIND_PRIVILEGED = TCPIP_BIND_PRIVILEGED).
  { intros x. unfold TCPIP_BIND_PRIVILEGED. change 0x400 with (2 ^ 10). rewrite Z.land_comm, <- Z.shiftl_1_l. 
    destruct (Z.testbit x 10) eqn:Eb; [right|left]; apply Z.bits_inj'; intros n Hn; rewrite Z.land_spec, Z.shiftl_spec by lia.
    - destruct (Z.eq_dec n 10) as [->|]; [by rewrite Eb, andb_true_r|].
      destruct (Z.ltb_spec n 10); [by rewrite Z.testbit_neg_r by lia|]. rewrite (Z.bits_above_log2 1) by (cbn; lia). done.
    - rewrite Z.bits_0. destruct (Z.eq_dec n 10) as [->|]; [by rewrite Eb, andb_false_r|].
      destruct (Z.ltb_spec n 10); [by rewrite Z.testbit_neg_r by lia|]. rewrite (Z.bits_above_log2 1) by (cbn; lia). done. }
  assert (Hmin : 1 <= min_port) by (unfold min_port; destruct (Hbit (Z.lnot flags)) as [->| ->]; vm_compute; discriminate).
  assert (Hmax : max_port = 2 ^ 16 - 1 \/ max_port = 2 ^ 10 - 1) by (unfold max_port; destruct (Hbit flags) as [->| ->]; [left|right]; reflexivity).
  pose proof (bind_loop_spec (udp_port_available s) min_port max_port (u32 random) (Z.to_nat (max_port + 2)) 0 ltac:(lia) ltac:(lia)) as Hb.
  intros E. rewrite E in Hb. destruct Hb as ((j & Hj & Ep) & Hm & r & Hr). rewrite (Hav _ _ Hr) in Hr. split; [|done].
  assert (port < 2 ^ 16); [|lia]. rewrite Ep. destruct Hmax as [-> | ->]; rewrite land_ones_mod by lia;
    [apply (Z.lt_le_trans _ (2 ^ 16)); [apply Z.mod_pos_bound; lia|lia]|apply (Z.lt_le_trans _ (2 ^ 10)); [apply Z.mod_pos_bound; lia|lia]].
Qed.

Lemma available_fresh s port : 0 <= port < 2 ^ 16 -> udp_port_available s port = Ok port -> port ∉ udp_ports s.
Proof.
  intros Hp. unfold udp_port_available. rewrite uwrap_small by lia. case_if; [done|]. intros _ Hin. unfold udp_ports in Hin.
  apply list_elem_of_fmap in Hin as (c & -> & Hc). apply list_elem_of_In in Hc.
  assert (existsb (fun c0 => st_port (uc_local c0) =? st_port (uc_local c)) (n_udp s) = true); [|congruence].
  apply existsb_exists. exists c. split; [done|]. apply Z.eqb_refl.
Qed.

Lemma close_ports s id : bound_ports (udp_close s id) `sublist_of` bound_ports s.
Proof.
  unfold bound_ports, udp_ports, udp_close. cbn [n_udp set_udp]. generalize (n_udp s) as l. intros l. induction l as [|c l IH]; [constructor|].
  rewrite (filter_cons _ c). case_decide; rewrite !fmap_cons, !filter_cons; case_decide; (exact IH || by constructor).
Qed.

(** Two UDP connections are never bound to the same port, in whatever order
    connections are opened (with given ports or not, or promiscuous) and
    closed. *)
Theorem udp_ports_distinct s s' : n_udp s = [] -> rtc udp_step s s' -> NoDup (bound_ports s').
Proof.
  intros E. assert (H0 : NoDup (bound_ports s)) by (unfold bound_ports, udp_ports; rewrite E; constructor). clear E.
  induction 1 as [|s1 s2 s3 Hstep _ IH]; [done|]. apply IH. destruct Hstep as [e s id peer local Hl|e s id|s id].
  - unfold udp_open, udp_open_common. destruct (ev_zalloc e); cbn [negb]; [|done]. destruct (tcpip_bind _ _ _) as [port|err] eqn:Eb; [|done]. cbn.
    destruct (tcpip_bind_free s _ local port Hl Eb) as [Hr Hf]. rewrite uwrap_small by lia. unfold bound_ports, udp_ports. cbn [n_udp set_udp fmap list_fmap uc_local set_port st_port fst].
    rewrite decide_True by lia. apply NoDup_cons. split; [|done]. intros Hin. apply list_elem_of_filter in Hin as [_ Hin]. by apply (available_fresh s port ltac:(lia) Hf).
  - unfold udp_open_promisc, udp_open_common. destruct (ev_zalloc e); cbn [negb]; [|done]. done.
  - eapply sublist_NoDup; [exact H0|]. apply close_ports.
Qed.

Lemma udp_ports_distinct_witness :
  let e := NetEnv (fun _ => NetDevice true 0 1500 0 0 (fun _ => Err ENOTSUP)) (FragEnv true plain_env) true 4711 (Ok tt) (Ok tt) (Ok tt) in
  let s := Net [] 0 [] (fun _ => 0) [] [] [] in
  NoDup (bound_ports (udp_open e (udp_open e s 1 st_empty None).1 2 st_empty None).1).
Proof.
  intros e s. apply (udp_ports_distinct s); [reflexivity|].
  eapply rtc_l; [apply (Udp_open e s 1 st_empty None); discriminate|]. eapply rtc_l; [apply (Udp_open e _ 2 st_empty None); discriminate|]. apply rtc_refl.
Defined.

(** ** Dotted addresses *)

(** The text of an octet: short, read back whatever follows it, and what "%d"
    prints. *)
Record octet_text (a : arch) (v : Z) : Prop := {
  ot_len : 1 <= zlen (format_decimal a v 0 0) <= 3;
  ot_print args : convert a 0 0 INT_LEN 100 (ArgInt v :: args) = Some (format_decimal a v 0 0, args);
  ot_parse c rest : c = 46 \/ c = 0 -> strtoul a (format_decimal a v 0 0 ++ c :: rest) 0 = Some (v, c :: rest) }.

Lemma octet_text_ok a v : byte_ok v -> octet_text a v.
Proof.
  intros Hv. assert (Hall : Forall (octet_text a) (seqZ 0 256)).
  { let l := eval vm_compute in (seqZ 0 256) in change (seqZ 0 256) with l.
    destruct a; repeat (apply Forall_cons; split; [constructor; [vm_compute; split; discriminate|intros args; vm_compute; reflexivity|intros c rest [-> | ->]; vm_compute; reflexivity]|]); constructor. }
  rewrite Forall_forall in Hall. apply Hall, elem_of_seqZ. unfold byte_ok in Hv. lia.
Qed.

Lemma vcprintf_dot a fuel fmt args : vcprintf_loop a (S fuel) (46 :: fmt) args = (opt! out := vcprintf_loop a fuel fmt args in Some (46 :: out)).
Proof. done. Qed.

(** Addresses are printed into the buffer of [inet_ntoa] and read back by
    [inet_aton]: for every address the text and its terminator fit the 16
    bytes. *)
Theorem inet_roundtrip a b0 b1 b2 b3 : bytes_ok [b0; b1; b2; b3] ->
  exists text, inet_ntoa a [b0; b1; b2; b3] = Some text /\ zlen text + 1 <= 16 /\ inet_aton a (text ++ [0]) = Some (Some [b0; b1; b2; b3]).
Proof.
  intros Hb. assert (Ht : Forall (octet_text a) [b0; b1; b2; b3]) by (eapply Forall_impl; [exact Hb|apply octet_text_ok]).
  apply Forall_cons in Hb as [V0 Hb]. apply Forall_cons in Hb as [V1 Hb]. apply Forall_cons in Hb as [V2 Hb]. apply Forall_cons in Hb as [V3 _]. unfold byte_ok in *.
  apply Forall_cons in Ht as [T0 Ht]. apply Forall_cons in Ht as [T1 Ht]. apply Forall_cons in Ht as [T2 Ht]. apply Forall_cons in Ht as [T3 _].
  destruct T0 as [L0 P0 R0], T1 as [L1 P1 R1], T2 as [L2 P2 R2], T3 as [L3 P3 R3].
  set (t0 := format_decimal a b0 0 0) in *. set (t1 := format_decimal a b1 0 0) in *. set (t2 := format_decimal a b2 0 0) in *. set (t3 := format_decimal a b3 0 0) in *.
  assert (Hout : vcprintf a ntoa_fmt (ArgInt <$> [b0; b1; b2; b3]) = Some (t0 ++ 46 :: t1 ++ 46 :: t2 ++ 46 :: t3)).
  { unfold vcprintf, ntoa_fmt. cbn [length fmap list_fmap].
    erewrite vcprintf_conv; [|reflexivity|apply P0]. rewrite vcprintf_dot.
    erewrite vcprintf_conv; [|reflexivity|apply P1]. rewrite vcprintf_dot.
    erewrite vcprintf_conv; [|reflexivity|apply P2]. rewrite vcprintf_dot.
    erewrite vcprintf_conv; [|reflexivity|apply P3]. cbn [vcprintf_loop]. by rewrite app_nil_r. }
  set (out := t0 ++ 46 :: t1 ++ 46 :: t2 ++ 46 :: t3) in *.
  assert (Hol : zlen out = zlen t0 + zlen t1 + zlen t2 + zlen t3 + 3) by (unfold out; rewrite !zlen_app; cbn [length]; rewrite !Nat2Z.inj_succ, !zlen_app; cbn [length]; rewrite !Nat2Z.inj_succ, !zlen_app; cbn [length]; lia).
  unfold inet_ntoa. rewrite Hout, (proj2 (Z.ltb_ge _ _)) by lia. exists out. split; [done|]. split; [lia|].
  unfold out, inet_aton. rewrite <- !app_assoc. cbn [app]. rewrite <- !app_assoc. cbn [app]. rewrite <- !app_assoc. cbn [app].
  assert (Hstep : forall t v c k sep seps bs, 1 <= zlen t -> 0 <= v < 256 -> strtoul a (t ++ c :: k) 0 = Some (v, c :: k) ->
    inet_aton_loop a (t ++ c :: k) (sep :: seps) bs
    = if negb (c =? sep) then Some None else if sep =? 0 then Some (Some (bs ++ [v])) else inet_aton_loop a k seps (bs ++ [v])).
  { intros t v c k sep seps bs Hl Hv E. cbn [inet_aton_loop]. rewrite E. rewrite (proj2 (Z.eqb_neq _ _)) by (rewrite zlen_app; cbn [length]; lia).
    rewrite (proj2 (Z.ltb_ge _ _)) by lia. done. }
  rewrite (Hstep t0 b0), (Hstep t1 b1), (Hstep t2 b2), (Hstep t3 b3) by (lia || (apply R0 || apply R1 || apply R2 || apply R3); tauto). done.
Qed.

Lemma inet_roundtrip_witness :
  exists text, inet_ntoa Arch64 [192; 168; 0; 1] = Some text /\ zlen text + 1 <= 16 /\ inet_aton Arch64 (text ++ [0]) = Some (Some [192; 168; 0; 1]).
Proof. apply (inet_roundtrip Arch64 192 168 0 1). solve_bytes. Defined.

(** ** Datagrams that are too long *)

(** Nothing checks the length of a datagram: from 65508 bytes on, the length in
    the IP header of what is handed to the link layer is less than the length of
    the packet by 65536, and a receiver cuts the packet off or refuses it. *)
Theorem udp_tx_length_wraps a other_tx e s udp b data dev ip_src hop mask ll :
  iob_holds b data -> MAX_LL_NET_HEADER_LEN <= iob_headroom b -> st_family (uc_peer udp) = AF_INET -> bytes_ok data ->
  65507 < zlen data <= 65507 + 65536 ->
  tx_choice e s (Some (uc_local udp)) (uc_peer udp) None = Some (dev, ip_src, hop, mask) -> tx_ll e dev ip_src hop mask = Ok ll ->
  exists s' packet, udp_tx a other_tx e s udp b None None None = Some (s', ev_tx e) /\ n_sent s' = n_sent s ++ [Transmission dev ll packet]
    /\ be_val (slice packet 2 2) = zlen packet - 65536
    /\ forall s0 netdev flags d pad h, packet = d ++ pad -> frame_ok s0 netdev flags d h -> zlen d = zlen packet - 65536.
Proof.
  intros Hb Hd Hfam Hdata Hl Hc Hll.
  destruct (udp_tx_sends a other_tx e s udp b None None None data dev ip_src hop mask ll Hb Hd Hfam Hdata Hc Hll) as (ident & s' & E & _ & _ & S). cbn [default] in S.
  set (len := UDPHDR_LEN + zlen data) in *. set (seg := udp_segment _ _ _ _ _) in S. set (P := ip_packet _ _ _ _ _ seg) in S. exists s', P.
  split; [exact E|]. split; [exact S|].
  assert (HP : zlen P = IPHDR_LEN + len) by (unfold P, ip_packet; rewrite zlen_app; unfold seg; rewrite udp_segment_len; done).
  assert (Hv : be_val (slice P 2 2) = zlen P - 65536).
  { change (slice P 2 2) with (be16 (IPHDR_LEN + len)). rewrite be16_val, HP. symmetry. apply (Z.mod_unique _ _ 1); unfold IPHDR_LEN, len, UDPHDR_LEN in *; lia. }
  split; [exact Hv|]. intros s0 netdev flags d pad h Ep F. rewrite <- Hv, Ep, slice_app, (fk_total _ _ _ _ _ F); [done|lia|]. destruct F. lia.
Qed.
